(* ===== verification/_CoqProject ===== *)
-Q . S2P
Prelude.v
State.v
Queue.v
Ports.v
Monad.v
Id.v
Buffer.v
Crc32.v
Sha1.v
Hmac.v
Iflist.v
Rtable.v
Qfifo.v
Kiss.v
Io.v
RdpQueue.v
Rdp.v
Conn.v
RdpProto.v
Api.v
Route.v
Own.v
OwnIo.v
OwnRdp.v
OwnRoute.v
KissSpec.v
OwnApi.v
RdpSpec.v
RdpState.v
OwnConf.v
OwnClient.v
Node.v
Pbuf.v
Reassembly.v
Can.v
CanCfp2.v
Eth.v
EthSpec.v
EthTrip.v
Sfp.v
Service.v
ServiceSpec.v
ServiceReply.v
ServiceClient.v
RtableText.v
Links.v
Frames.v
CanCfp1.v
LinksSpec.v
Zmq.v
ZmqSpec.v
Wired.v
Session.v
Linux.v
LinuxSpec.v
GsUsb.v
GsUsbSpec.v
Slots.v
ZephyrUart.v
ZephyrUartSpec.v
ZephyrCan.v
ZephyrCanSpec.v
ZephyrCanLife.v
ZephyrKiss.v
ZephyrKissSpec.v
Contrib.v
HexDump.v
Yaml.v
YamlSpec.v
