(* ===== verification/Prelude.v ===== *)
(** * A verification of libcsp, the Cubesat Space Protocol stack

    This library models the core of libcsp ([src/src/] and [src/include/csp/])
    as executable functions on the memory of a node, and proves the properties
    that make the parts correct, up to the safety of a whole node.

    ** The program

    A packet lives in a buffer of a static pool ([csp_buffer.c]).  Drivers put
    received packets in the router queue ([csp_qfifo.c]).  The router
    ([csp_route.c]) takes one packet a turn, drops duplicates ([csp_dedup.c]),
    taps it ([csp_promisc.c]), and either forwards it through the output path
    ([csp_io.c], by interface list [csp_iflist.c] and routing table
    [csp_rtable_cidr.c]) or, after the security checks ([csp_crc32.c],
    [csp_hmac.c] over [csp_sha1.c]), delivers it to a port ([csp_port.c]): a
    callback, a socket, or a connection ([csp_conn.c]), where the reliable
    protocol RDP ([csp_rdp.c], [csp_rdp_queue.c]) may run on it.  Applications
    connect, send, read and close ([csp_io.c], [csp_conn.c]).  A frame starts
    with the header of [csp_id.c]; the interfaces carry frames: loopback
    ([csp_if_lo.c]), KISS ([csp_if_kiss.c]), CAN and Ethernet, which cut a frame
    into pieces and put it together again in packet buffers ([csp_if_can.c],
    [csp_if_eth.c] and their [_pbuf.c]), UDP, I2C, a ZMQ hub and an encrypted
    tunnel ([csp_if_udp.c], [csp_if_i2c.c], [csp_if_zmqhub.c], [csp_if_tun.c]);
    below them are the drivers for Linux ([drivers/can/can_socketcan.c],
    [drivers/eth/eth_linux.c], [drivers/usart/usart_linux.c]), for USB adapters
    ([drivers/can/can_gsusb.c]) and for Zephyr ([drivers/can/can_zephyr.c],
    [drivers/usart/usart_zephyr.c]); [drivers/usart/usart_kiss.c] puts a KISS
    interface on a serial line.  On top are the built-in
    services and their clients ([csp_service_handler.c], [csp_services.c]),
    transfers larger than a packet ([csp_sfp.c]), the text form of the routing
    table ([csp_rtable_stdio.c]) and a configuration file ([csp_yaml.c]).  All
    queues are those of [arch/posix/pthread_queue.c].

    ** The model

    - [Prelude]: integers of fixed width, byte strings, memory reads and writes,
      counting; the lemmas and hints the other files share.
    - [State]: the structs, constants and static variables, in one record
      [node]; a pointer is an index, [option] where it may be NULL.  A packet's
      [header] and [data] are one byte list of 8 + 256 bytes, data at offset 8.
    - [Monad]: [M A], a C function on a [node] that returns ([Ret]), meets
      undefined behaviour ([Undef]: NULL, out of bounds, shift out of range,
      exhausted loop bound), stops for ever ([Halt]: [csp_panic]) or waits for
      ever ([Wait]); the class [Platform] of what the platform provides (clock,
      random numbers, transmit functions, callbacks, the other tasks during a
      wait, the value of an overflowing [int], the build option
      [CSP_USE_RTABLE]); weakest preconditions [wp], which demand [Ret], and
      [wpw], which admit [Wait]; and [keeps], that a program leaves part of the
      state alone.
    - [Queue]: the ring buffer of [pthread_queue.c] with its condition waits;
      [Ports]: the queues, semaphores and clocks of the other operating systems
      ([arch/windows], [arch/freertos], [arch/zephyr]).
    - [Id], [Buffer], [Crc32], [Sha1], [Hmac], [Iflist], [Rtable], [Qfifo]
      (router queue, deduplication, tap), [Kiss], [Io] (output path), [RdpQueue],
      [Rdp] (headers, control messages, close), [Conn] (connections and ports),
      [RdpProto] (the RDP engine), [Api] (application calls and [csp_init]),
      [Route] (router and bridge): one component each, one definition per C
      function under the function's name; parts of a long function have names
      of their own ([route_local], [new_packet_open], ...), in the order of the
      code.
    - [Own], [OwnIo], [OwnRdp], [OwnRoute], [OwnApi], [OwnConf] (the calls that
      configure a node), [OwnClient] (transactions), [KissSpec] (reception from
      a serial line): the invariant of a running node ([Inv]) and the proof that
      every operation keeps it.
    - [RdpSpec], [RdpState]: the protocol properties of RDP.
    - [Node]: the loopback driver, a router that runs while tasks wait,
      [csp_init], the node as a transition system, the theorems about the whole,
      and the witnesses of the theorems that need a running node.
    - [Pbuf]: the lists of packet buffers that CAN and Ethernet share;
      [Reassembly]: what putting a packet together from pieces needs of either;
      [Can] (both fragmentation protocols, receive and send), [CanCfp1] and
      [CanCfp2] (the theorems on versions 1 and 2); [Eth] (header, ARP table,
      receive and send), [EthSpec] (safety, ARP) and [EthTrip] (from sender to
      receiver).
    - [Sfp]: the fragmentation protocol over a connection.
    - [Service]: the service handler with the management protocol CMP, the POSIX
      hooks and the client calls; [ServiceSpec] proves that the handler is a
      port callback as the router requires, [ServiceReply] its safety on every
      request, what it answers, and what goes wrong with an empty process list,
      [ServiceClient] the clients, and a node that pings itself as an example.
    - [RtableText]: reading, checking and writing the routing table as text.
    - [Links] and [LinksSpec]: the UDP, I2C and tunnel interfaces; [Frames]: the
      frame in a packet, as the interfaces for whole frames treat it.
    - [Zmq] and [ZmqSpec]: the ZMQ interface and its subscriptions.
    - [Wired]: the interfaces' transmit functions as the nexthop functions of a
      node, and the complete node; [Session]: such a node run from connecting
      to closing, an example that is computed.
    - [Linux] and [LinuxSpec]: the drivers over the answers of the system calls;
      [GsUsb] and [GsUsbSpec]: the driver for USB to CAN adapters
      ([drivers/can/can_gsusb.c]).
    - [Slots]: the table of contexts, the heap they live in and the threads on
      their stacks, as both Zephyr drivers have them; [ZephyrUart] and
      [ZephyrUartSpec]: the serial driver, with interrupts or polling threads;
      [ZephyrCan], [ZephyrCanSpec] and [ZephyrCanLife]: the CAN driver, the
      invariant its calls keep, and the theorem on every sequence of them;
      [ZephyrKiss] and [ZephyrKissSpec]: the KISS interface over the serial
      driver.  What the kernel answers to a call is an argument of it
      ([uart_answers], [can_answers]).
    - [Contrib]: the queues of [contrib/windows] and [contrib/macosx] and the CAN
      driver of [contrib/drivers/can]; [HexDump]: the text of [csp_hex_dump.c].
    - [Yaml] and [YamlSpec]: the configuration file, as the sequence of events
      the YAML library reports.

    ** What is proved

    - Safety of the node ([Node]): [Inv T h s] says that the configuration [T]
      is sound (interface list acyclic, netmasks in range, bound sockets
      listen, ...), that every buffer is in exactly one of: held by the running
      code ([h]), one queue of the stack, the pool; and that queued packets are
      alive and well formed.  [csp_init] establishes it from uninitialised
      memory, every operation keeps it, so no operation accesses memory out of
      place, frees twice or loops for ever, on any input; only one that may wait
      without a timeout ([may_wait]) may stay in its wait.  The operations
      are the turns of router and bridge, the input of packets and of serial
      bytes, the application's calls and every change of the configuration
      ([op], [conf_op]); [allowed] says when they may be called.  Buffers are
      accounted for exactly: [csp_send_direct] loses none, the router's work on
      a packet at most one (a SYN+ACK in [csp_rdp_send_cmp], see
      [syn_copy_leak]).
    - Composition: the stack is proved against the classes [OwnLaws] (transmit
      functions, callbacks, other tasks) and [HookLaws]; the loopback, KISS,
      CAN, I2C, UDP and ZMQ transmit functions ([links_consume]), the service
      handler and a router that runs in the waits meet them, so the safety of
      the node holds of [complete_node], where all of them are the real ones.
    - RDP: the state machine's edges, the send window, the comparisons across
      the wrap-around, the header on the wire, what [csp_rdp_queue_get] does
      to other connections' packets.
    - Functional specifications: the ring buffer refines a bounded FIFO, in calls
      that sleep too, whatever other threads do meanwhile; longest-prefix routing
      and the table as a finite map; the interface list as a sequence; allocation
      of buffers, connections and ports; deduplication.
    - Codecs: headers of both versions, checksum, authentication tag and KISS
      frames round-trip; the table-driven CRC is CRC-32C and detects every
      error inside four bytes; the streaming hash is the SHA-1 of FIPS 180-4, which
      [Fips180] states on its own, and HMAC is RFC 2104.
    - Fragmentation: what [csp_can1_tx], [csp_can2_tx] and [csp_eth_tx] cut up
      arrives as the packet that was sent, pieces of other packets in between;
      what [csp_sfp_send] cuts up, [csp_sfp_recv] returns; reception is safe on every
      frame, ends, and keeps the lists of packet buffers, as long as the pool has a
      buffer and no two neighbouring packets have expired; the ARP table is a
      bounded map; the clean-up of expired buffers, and where it goes wrong.
    - Services: safety on every request, the contents of the replies and the
      clients' safety.
    - Text and links: a saved routing table loads as the same table, if the text
      is not longer than [csp_rtable_load] takes, and a bad text loads nothing;
      packets pass UDP, ZMQ and the tunnel unchanged; what becomes of every I2C
      frame and of every byte of a serial line; which messages the ZMQ subscriptions and the CAN filters let through; which
      interfaces a configuration file sets up, with the configuration of their
      drivers.
    - Drivers and ports: the CAN driver's write ends; the bit timing the USB
      driver finds is the best of all; opening an adapter leaves nothing behind
      when it fails; the Windows queue is the ring of [Queue]; the semaphores are
      flags; what the clocks count.  On Zephyr, serial lines, CAN interfaces and
      KISS interfaces may be prepared, started, stopped, closed and opened again
      in any order and with any failures: no freed context is used, no stack is
      given to two threads, every filter, handler and thread belongs to a context
      that is there, every packet has one owner ([uart_lifecycle],
      [can_lifecycle], [kiss_lifecycle]).  The queues of [contrib] are the ring of
      [Queue]; a hex dump is the lines of the data, and its line buffer holds.

    ** Conventions and bounds

    - The host is little-endian with 32-bit [int].  Conversions to a signed type
      are two's complement.  Where signed arithmetic can leave its range
      ([csp_rdp_check_ack], the packet identifier of [csp_if_eth.c]) the result is
      any number ([int_value] and [plat_overflow]), and the theorems hold for all;
      that the C standard leaves it undefined is among the findings.  Sizes
      are those of the default build ([CMakeLists.txt]); RDP, RDP fast close, HMAC, the promiscuous mode
      and buffer clearing are built in.
    - A function runs without interruption except where it waits: a blocking
      dequeue or semaphore wait calls [plat_yield], the effect of the other
      tasks.  When nothing has come then, the call returns with a timeout; given
      [CSP_MAX_TIMEOUT] it does not return ([Wait]), and a later arrival is the
      same call with a [plat_yield] that brings it.  An enqueue with a timeout on
      a full queue fails (no reader runs meanwhile).  Hooks and prints have no
      effect on the state.
    - Loops over lists and queues take their length as bound, and the theorems
      show it is enough: interface walks [length ifs + 1] steps, the routing
      table its rows, the queues their size; [csp_rdp_connect] tries twice, as
      the code does.  [csp_send] and [csp_rdp_send] take the number of window
      waits they may make; running out means the call still waits ([Wait]).
    - The tasks outside the stack are classes: [Drivers] (what a CAN, Ethernet
      or UDP driver answers to a frame), [I2cDriver], [Crypto] (the tunnel's
      cipher), [Hooks] and [Posix] (the hooks and the system calls below them),
      [Zmq], [Sys], [CanRaw], [Usb], [OsQueue], [ZCan], [Heap] and [Inet] (the
      ZMQ library, the system calls, the filter of CAN sockets, the USB library, the
      queue of a kernel, the numbers of Zephyr's CAN filters, what new memory
      holds, [inet_aton]), and [malloc] as an argument.  Laws that a theorem needs
      of them are classes too ([CryptoLaws], [HookLaws], [PsLaws], [ZmqLaws],
      [CanRawLaws], [I2cLaws], [ZCanLaws]), with instances.
    - [eth_tx_loop] takes the number of segments it may send, and
      [eth_roundtrip] shows the packet's length is enough; [sfp_recv_loop] takes
      the number of packets it may read, [ps_loop] likewise.
    - Interface 0 is [csp_if_lo]; transmit functions are named by tags, 0 for
      [csp_lo_tx], 1 for [csp_kiss_tx], 2 to 8 for the two of CAN, I2C, UDP, the
      tunnel, ZMQ and Ethernet.  A platform's functions satisfy [OwnLaws] and
      [DriverLaws]; [sink_platform] and [lo_platform] are instances.
    - [can_write_loop] takes the number of calls of [write], and
      [can_tx_terminates] shows that 3401 are enough; the reader of a
      configuration file recurses over the events, and does not return when
      they end before the document does; [gsusb_calc_bittiming] takes the turns
      of its loops, and [gsusb_bittiming_best] shows that as many as there are
      prescalers and first segments are enough.
    - [Session] runs the node for each length of a message, 1 to 251, on unknown
      bytes; 251 with the RDP header fill a packet.
    - Buffers in queues have reference count one: sharing by
      [csp_buffer_refc_inc] is modelled but not part of [Inv].

    ** Not modelled

    In the transition system: reception from CAN, Ethernet, I2C, UDP and ZMQ,
    which have theorems of their own (the reassembly lists and the ARP table are
    not part of [Inv]); transmission by Ethernet, which needs the ARP table, and
    by the tunnel, which stops the node when the pool is empty; RDP
    transactions; [csp_send] while the window is closed.  The life cycles of the
    Zephyr drivers are transition systems of their own, next to that of the node:
    between their calls the node may become any other that satisfies the
    invariant.  Printing (but for the hex dump), locks, the creation of threads on
    POSIX, encryption of the ZMQ link, the variants of queue calls for
    interrupts, the deletion of queues, hooks without effect, the examples and the
    Python bindings are input, output or glue and stay out. *)

From Stdlib Require Export ZArith Lia.
From stdpp Require Export base tactics option list numbers.

#[global] Open Scope Z_scope.

(** ** Fixed-width integers

    A C integer of width [w] is a [Z]; every C operation that can leave the
    range is followed by one of these casts. *)

Definition u8 (z : Z) : Z := z mod 2 ^ 8.
Definition u16 (z : Z) : Z := z mod 2 ^ 16.
Definition u32 (z : Z) : Z := z mod 2 ^ 32.
Definition u64 (z : Z) : Z := z mod 2 ^ 64.

(** Two's-complement reinterpretation ([int16_t], [int32_t]). *)
Definition i16 (z : Z) : Z := (z + 2 ^ 15) mod 2 ^ 16 - 2 ^ 15.
Definition i32 (z : Z) : Z := (z + 2 ^ 31) mod 2 ^ 32 - 2 ^ 31.

(** C truth value of a flag test [x & m]. *)
Definition flagged (x m : Z) : bool := negb (Z.land x m =? 0).

Abbreviation zlen l := (Z.of_nat (length l)).

Declare Scope csp_scope.
Delimit Scope csp_scope with csp.
Infix "&.&" := flagged (at level 40, no associativity) : csp_scope.
#[global] Open Scope csp_scope.

(** ** Byte strings

    The host is little-endian: [memcpy] of a [uint32_t] produces
    [le_bytes 4], and [htobe32] is a byte swap. *)

Fixpoint le_bytes (n : nat) (z : Z) : list Z :=
  match n with
  | O => []
  | S n' => z mod 256 :: le_bytes n' (z / 256)
  end.

Fixpoint le_val (bs : list Z) : Z :=
  match bs with
  | [] => 0
  | b :: bs' => b + 256 * le_val bs'
  end.

Definition be_bytes (n : nat) (z : Z) : list Z := reverse (le_bytes n z).
Definition be_val (bs : list Z) : Z := le_val (reverse bs).

(** [htobe16] and its inverse [be16toh] are the same swap, likewise 32, 64. *)
Definition htobe16 (z : Z) : Z := be_val (le_bytes 2 z).
Definition htobe32 (z : Z) : Z := be_val (le_bytes 4 z).
Definition htobe64 (z : Z) : Z := be_val (le_bytes 8 z).
Definition be16toh (z : Z) : Z := htobe16 z.
Definition be32toh (z : Z) : Z := htobe32 z.
Definition be64toh (z : Z) : Z := htobe64 z.

Definition is_byte (b : Z) : Prop := 0 <= b < 256.
Definition bytes_ok (bs : list Z) : Prop := Forall is_byte bs.

(** ** Memory of a struct as a byte list *)

(** [memcpy] out of, and into, a region at offset [off]; [None] when the
    access leaves the region. *)
Definition mem_read (m : list Z) (off n : Z) : option (list Z) :=
  if (0 <=? off) && (0 <=? n) && (off + n <=? zlen m)
  then Some (take (Z.to_nat n) (drop (Z.to_nat off) m))
  else None.

Definition mem_write (m : list Z) (off : Z) (bs : list Z) : option (list Z) :=
  if (0 <=? off) && (off + zlen bs <=? zlen m)
  then Some (take (Z.to_nat off) m ++ bs ++ drop (Z.to_nat off + length bs) m)
  else None.

(** ** Occurrence counting, the currency of buffer ownership *)

Definition cnt (x : nat) (l : list nat) : nat := count_occ Nat.eq_dec l x.

(** ** Automation *)

(** [lia] with division and modulo by constants. *)
Ltac zlia := Z.to_euclidean_division_equations; lia.

(** Reduce boolean tests in hypotheses and goal to propositions. *)
Ltac bsimpl :=
  repeat match goal with
  | H : _ /\ _ |- _ => destruct H
  | H : context [(_ && _)%bool = true] |- _ => rewrite andb_true_iff in H
  | H : context [(_ && _)%bool = false] |- _ => rewrite andb_false_iff in H
  | H : context [(_ || _)%bool = true] |- _ => rewrite orb_true_iff in H
  | H : context [(_ || _)%bool = false] |- _ => rewrite orb_false_iff in H
  | H : negb _ = true |- _ => rewrite negb_true_iff in H
  | H : negb _ = false |- _ => rewrite negb_false_iff in H
  | H : (_ =? _) = true |- _ => rewrite Z.eqb_eq in H
  | H : (_ =? _) = false |- _ => rewrite Z.eqb_neq in H
  | H : (_ <? _) = true |- _ => rewrite Z.ltb_lt in H
  | H : (_ <? _) = false |- _ => rewrite Z.ltb_ge in H
  | H : (_ <=? _) = true |- _ => rewrite Z.leb_le in H
  | H : (_ <=? _) = false |- _ => rewrite Z.leb_gt in H
  end.

(** Case on the first test of the goal, or else of a hypothesis. *)
Ltac case_if :=
  match goal with
  | |- context [if ?b then _ else _] => destruct b eqn:?
  | _ : context [if ?b then _ else _] |- _ => destruct b eqn:?
  end.

Create HintDb csp.
Create HintDb csp_len.

(** ** Integer lemmas *)

Lemma u8_range z : 0 <= u8 z < 256.
Proof. unfold u8. apply Z.mod_pos_bound. lia. Qed.

Lemma u16_range z : 0 <= u16 z < 65536.
Proof. unfold u16. apply Z.mod_pos_bound. lia. Qed.

Lemma u32_range z : 0 <= u32 z < 4294967296.
Proof. unfold u32. apply Z.mod_pos_bound. lia. Qed.

Lemma u8_small z : 0 <= z < 256 -> u8 z = z.
Proof. intros. unfold u8. apply Z.mod_small. lia. Qed.

Lemma u16_small z : 0 <= z < 65536 -> u16 z = z.
Proof. intros. unfold u16. apply Z.mod_small. lia. Qed.

Lemma u32_small z : 0 <= z < 4294967296 -> u32 z = z.
Proof. intros. unfold u32. apply Z.mod_small. lia. Qed.

(** Disjoint bit fields add up. *)
Lemma lor_shiftl_add a b k :
  0 <= k -> 0 <= b < 2 ^ k -> Z.lor (Z.shiftl a k) b = a * 2 ^ k + b.
Proof.
  intros Hk Hb.
  rewrite <- Z.shiftl_mul_pow2 by lia.
  rewrite <- (Z.lxor_lor (Z.shiftl a k) b), <- Z.add_nocarry_lxor.
  - done.
  - apply Z.bits_inj'. intros n Hn. rewrite Z.land_spec, Z.bits_0.
    destruct (Z.ltb_spec n k) as [|Hge].
    + rewrite Z.shiftl_spec_low by lia. done.
    + replace b with (b mod 2 ^ k) by (apply Z.mod_small; lia).
      rewrite Z.mod_pow2_bits_high by lia. apply andb_false_r.
  - apply Z.bits_inj'. intros n Hn. rewrite Z.land_spec, Z.bits_0.
    destruct (Z.ltb_spec n k) as [|Hge].
    + rewrite Z.shiftl_spec_low by lia. done.
    + replace b with (b mod 2 ^ k) by (apply Z.mod_small; lia).
      rewrite Z.mod_pow2_bits_high by lia. apply andb_false_r.
Qed.

(** Extracting a bit field. *)
Lemma field_divmod x k w :
  0 <= k -> 0 <= w -> Z.land (Z.shiftr x k) (2 ^ w - 1) = (x / 2 ^ k) mod 2 ^ w.
Proof.
  intros Hk Hw.
  replace (2 ^ w - 1) with (Z.ones w) by (rewrite Z.ones_equiv; lia).
  rewrite Z.land_ones, Z.shiftr_div_pow2 by lia. done.
Qed.

(** Testing a single bit, and a window of bits. *)
Lemma flagged_pow2 z n : 0 <= n -> flagged z (2 ^ n) = Z.testbit z n.
Proof.
  intros Hn. unfold flagged. destruct (Z.testbit z n) eqn:E.
  - apply negb_true_iff, Z.eqb_neq. intros H. assert (Hb : Z.testbit (Z.land z (2 ^ n)) n = true)
      by (rewrite Z.land_spec, E, Z.pow2_bits_true by done; done). rewrite H, Z.bits_0 in Hb. done.
  - apply negb_false_iff, Z.eqb_eq. apply Z.bits_inj'. intros m Hm. rewrite Z.land_spec, Z.bits_0, Z.pow2_bits_eqb by done.
    destruct (Z.eqb_spec n m) as [<-|]; [by rewrite E|by rewrite andb_false_r].
Qed.

Lemma testbit_mod z n : 0 <= n -> Z.testbit z n = ((z / 2 ^ n) mod 2 =? 1).
Proof. intros Hn. rewrite (Z.testbit_eqb z n) by done. done. Qed.

Lemma land_window z a b : 0 <= a -> 0 <= b -> 0 <= z < 2 ^ (a + b) ->
  Z.land z (Z.shiftl (Z.ones b) a) = z - z mod 2 ^ a.
Proof.
  intros Ha Hb Hz. rewrite <- (Z.land_ones z a) by done. 
  assert (E : Z.land z (Z.shiftl (Z.ones b) a) = Z.ldiff z (Z.ones a)).
  { apply Z.bits_inj'. intros n Hn. rewrite Z.land_spec, Z.ldiff_spec, Z.shiftl_spec by done.
    destruct (Z.lt_ge_cases n a).
    - rewrite (Z.testbit_neg_r _ (n - a)), Z.ones_spec_low by lia. by rewrite !andb_false_r.
    - rewrite (Z.ones_spec_high a) by lia. destruct (Z.lt_ge_cases n (a + b)).
      + by rewrite Z.ones_spec_low by lia.
      + assert (Hz0 : Z.testbit z n = false).
        { destruct (Z.eq_dec z 0) as [->|]; [by apply Z.bits_0|]. apply Z.bits_above_log2; [lia|].
          apply Z.log2_lt_pow2; [lia|]. apply Z.lt_le_trans with (2 ^ (a + b)); [lia|]. apply Z.pow_le_mono_r; lia. }
        by rewrite Hz0. }
  rewrite E. pose proof (Z.sub_nocarry_ldiff z (Z.land z (Z.ones a))) as Hs. rewrite Hs.
  - apply Z.bits_inj'. intros n Hn. rewrite !Z.ldiff_spec, Z.land_spec. by destruct (Z.testbit z n), (Z.testbit (Z.ones a) n).
  - apply Z.bits_inj'. intros n Hn. rewrite Z.ldiff_spec, Z.land_spec, Z.bits_0. by destruct (Z.testbit z n), (Z.testbit (Z.ones a) n).
Qed.

(** A field above the bits of [b]. *)
Lemma lor_add a b k : 0 <= k -> a mod 2 ^ k = 0 -> 0 <= b < 2 ^ k -> Z.lor a b = a + b.
Proof.
  intros Hk Ha Hb. assert (E : a = Z.shiftl (a / 2 ^ k) k) by (rewrite Z.shiftl_mul_pow2 by done; pose proof (Z.div_mod a (2 ^ k)); lia).
  rewrite E at 1. rewrite lor_shiftl_add by done. rewrite Z.shiftl_mul_pow2 in E by done. lia.
Qed.

(** ** Byte-string lemmas *)

Lemma length_le_bytes n z : length (le_bytes n z) = n.
Proof. revert z. induction n; intros; simpl; auto. Qed.

Lemma length_be_bytes n z : length (be_bytes n z) = n.
Proof. unfold be_bytes. by rewrite length_reverse, length_le_bytes. Qed.

Lemma le_bytes_ok n z : bytes_ok (le_bytes n z).
Proof.
  revert z. unfold bytes_ok. induction n; intros; simpl; constructor; auto.
  unfold is_byte. apply Z.mod_pos_bound. lia.
Qed.

Lemma be_bytes_ok n z : bytes_ok (be_bytes n z).
Proof. unfold be_bytes, bytes_ok. apply Forall_reverse, le_bytes_ok. Qed.

Lemma le_val_bytes n z : le_val (le_bytes n z) = z mod 256 ^ Z.of_nat n.
Proof.
  revert z. induction n as [|n IH]; intros z.
  - simpl. by rewrite Z.mod_1_r.
  - cbn [le_bytes le_val]. rewrite IH, Nat2Z.inj_succ, Z.pow_succ_r by lia.
    rewrite Z.rem_mul_r by lia. lia.
Qed.

Lemma le_bytes_val bs : bytes_ok bs -> le_bytes (length bs) (le_val bs) = bs.
Proof.
  unfold bytes_ok. induction 1 as [|b bs Hb Hbs IH]; [done|].
  cbn [length le_bytes le_val]. unfold is_byte in Hb.
  rewrite (Z.mul_comm 256), Z.mod_add, Z.div_add by lia.
  rewrite Z.mod_small, Z.div_small, Z.add_0_l by lia. by rewrite IH.
Qed.

Lemma le_val_range bs : bytes_ok bs -> 0 <= le_val bs < 256 ^ zlen bs.
Proof.
  unfold bytes_ok. induction 1 as [|b bs Hb Hbs IH]; [simpl; lia|].
  cbn [length le_val]. rewrite Nat2Z.inj_succ, Z.pow_succ_r by lia.
  unfold is_byte in Hb. lia.
Qed.

Lemma be_val_bytes n z : be_val (be_bytes n z) = z mod 256 ^ Z.of_nat n.
Proof. unfold be_val, be_bytes. by rewrite reverse_involutive, le_val_bytes. Qed.

Lemma be_val_range bs : bytes_ok bs -> 0 <= be_val bs < 256 ^ zlen bs.
Proof.
  intros H. unfold be_val. rewrite <- (length_reverse bs).
  apply le_val_range. by apply Forall_reverse.
Qed.

(** Byte-swapping a host word and storing it yields network order. *)
Lemma le_bytes_swap n z : le_bytes n (be_val (le_bytes n z)) = be_bytes n z.
Proof.
  unfold be_val, be_bytes.
  rewrite <- (length_le_bytes n z) at 1.
  rewrite <- (length_reverse (le_bytes n z)) at 1.
  apply le_bytes_val. apply Forall_reverse, le_bytes_ok.
Qed.

Lemma be_val_swap bs : bytes_ok bs ->
  be_val (le_bytes (length bs) (le_val bs)) = be_val bs.
Proof. intros. by rewrite le_bytes_val. Qed.

Lemma be_val_le_bytes_range n z : 0 <= be_val (le_bytes n z) < 256 ^ Z.of_nat n.
Proof. rewrite <- (length_le_bytes n z) at 3. apply be_val_range, le_bytes_ok. Qed.

(** The byte swap is an involution on words. *)
Lemma swap_involutive n z : 0 <= z < 256 ^ Z.of_nat n ->
  be_val (le_bytes n (be_val (le_bytes n z))) = z.
Proof. intros. rewrite le_bytes_swap, be_val_bytes. by apply Z.mod_small. Qed.

Lemma le_bytes_app a b z : le_bytes (a + b) z = le_bytes a z ++ le_bytes b (z / 256 ^ Z.of_nat a).
Proof.
  revert z. induction a as [|a IH]; intros z; simpl; [by rewrite Z.div_1_r|]. rewrite IH. do 3 f_equal.
  rewrite Z.div_div by lia. f_equal. rewrite Nat2Z.inj_succ, Z.pow_succ_r by lia. lia.
Qed.

Lemma be_bytes_app a b z : be_bytes (a + b) z = be_bytes a (z / 256 ^ Z.of_nat b) ++ be_bytes b z.
Proof. unfold be_bytes. rewrite (Nat.add_comm a b), le_bytes_app, reverse_app. done. Qed.

Lemma le_bytes_mod n z : le_bytes n (z mod 256 ^ Z.of_nat n) = le_bytes n z.
Proof.
  revert z. induction n as [|n IH]; intros z; [done|]. simpl. rewrite Nat2Z.inj_succ, Z.pow_succ_r by lia.
  assert (Hp : 0 < 256 ^ Z.of_nat n) by (apply Z.pow_pos_nonneg; lia).
  rewrite Z.rem_mul_r by lia. f_equal.
  - rewrite (Z.mul_comm 256), Z.mod_add, Z.mod_mod by lia. done.
  - rewrite <- (IH (z / 256)). f_equal. rewrite Z.add_comm, Z.mul_comm, Z.div_add_l by lia.
    rewrite (Z.div_small (z mod 256)) by (apply Z.mod_pos_bound; lia). lia.
Qed.

Lemma be_bytes_mod n z : be_bytes n (z mod 256 ^ Z.of_nat n) = be_bytes n z.
Proof. unfold be_bytes. by rewrite le_bytes_mod. Qed.

Lemma htobe32_range z : 0 <= htobe32 z < 2 ^ 32.
Proof. apply (be_val_le_bytes_range 4). Qed.
Lemma be32toh_htobe32 z : 0 <= z < 2 ^ 32 -> be32toh (htobe32 z) = z.
Proof. apply (swap_involutive 4). Qed.
Lemma htobe64_range z : 0 <= htobe64 z < 2 ^ 64.
Proof. apply (be_val_le_bytes_range 8). Qed.
Lemma be64toh_htobe64 z : 0 <= z < 2 ^ 64 -> be64toh (htobe64 z) = z.
Proof. apply (swap_involutive 8). Qed.
Lemma htobe16_range z : 0 <= htobe16 z < 2 ^ 16.
Proof. apply (be_val_le_bytes_range 2). Qed.
Lemma be16toh_htobe16 z : 0 <= z < 2 ^ 16 -> be16toh (htobe16 z) = z.
Proof. apply (swap_involutive 2). Qed.

Lemma le_val_small n z : 0 <= z < 256 ^ Z.of_nat n -> le_val (le_bytes n z) = z.
Proof. intros. rewrite le_val_bytes. by apply Z.mod_small. Qed.

Lemma le_bytes_val' n bs : bytes_ok bs -> length bs = n -> le_bytes n (le_val bs) = bs.
Proof. intros ? <-. by apply le_bytes_val. Qed.

(** ** Memory lemmas *)

Lemma mem_write_length m off bs m' :
  mem_write m off bs = Some m' -> length m' = length m.
Proof.
  unfold mem_write. case_if; intros H; simplify_eq. bsimpl.
  rewrite !length_app, length_take, length_drop. lia.
Qed.

Lemma mem_read_length m off n bs :
  mem_read m off n = Some bs -> zlen bs = n.
Proof.
  unfold mem_read. case_if; intros H; simplify_eq. bsimpl.
  rewrite length_take, length_drop. lia.
Qed.

Lemma mem_read_ok m off n :
  0 <= off -> 0 <= n -> off + n <= zlen m -> is_Some (mem_read m off n).
Proof. intros. unfold mem_read. case_if; [by eexists|]. lia. Qed.

Lemma mem_write_ok m off bs :
  0 <= off -> off + zlen bs <= zlen m -> is_Some (mem_write m off bs).
Proof. intros. unfold mem_write. case_if; [by eexists|]. lia. Qed.

(** Reading back what was written. *)
Lemma mem_read_write m off bs m' :
  mem_write m off bs = Some m' -> mem_read m' off (zlen bs) = Some bs.
Proof.
  intros Hw. pose proof (mem_write_length _ _ _ _ Hw) as Hl.
  unfold mem_write in Hw. case_if; simplify_eq. bsimpl.
  unfold mem_read. rewrite Hl. case_if; [|exfalso; lia]. f_equal.
  rewrite drop_app_length' by (rewrite length_take; lia).
  rewrite Nat2Z.id. by apply take_app_length.
Qed.

(** Writing back what was read. *)
Lemma mem_write_read m off n bs : mem_read m off n = Some bs -> mem_write m off bs = Some m.
Proof.
  unfold mem_read, mem_write. case_if; intros H; simplify_eq. bsimpl.
  assert (Hl : length (take (Z.to_nat n) (drop (Z.to_nat off) m)) = Z.to_nat n)
    by (rewrite length_take, length_drop; lia).
  rewrite Hl, (proj2 (andb_true_iff _ _)) by (rewrite !Z.leb_le; lia). f_equal.
  by rewrite <- drop_drop, take_drop, take_drop.
Qed.

Lemma mem_write_nil m off m' : mem_write m off [] = Some m' -> m' = m.
Proof.
  unfold mem_write. case_if; intros H; simplify_eq. cbn [app length]. by rewrite Nat.add_0_r, take_drop.
Qed.

(** A write byte by byte. *)
Lemma mem_write_cons m off b bs m' : mem_write m off (b :: bs) = Some m' ->
  exists m1, mem_write m off [b] = Some m1 /\ mem_write m1 (off + 1) bs = Some m'.
Proof.
  unfold mem_write. cbn [length]. case_if; intros H; simplify_eq. bsimpl.
  rewrite (proj2 (andb_true_iff _ _)) by (rewrite !Z.leb_le; lia). eexists. split; [done|].
  rewrite !length_app, length_take, length_drop. cbn [length].
  rewrite (proj2 (andb_true_iff _ _)) by (rewrite !Z.leb_le; lia). f_equal.
  assert (Hl : length (take (Z.to_nat off) m ++ [b]) = Z.to_nat (off + 1)) by (rewrite length_app, length_take; simpl; lia).
  rewrite !(app_assoc _ [b]). rewrite take_app_length' by done.
  rewrite drop_app_ge by lia. rewrite Hl, drop_drop. rewrite <- app_assoc. cbn [app]. do 2 f_equal. f_equal. f_equal. lia.
Qed.

(** A part of what was read. *)
Lemma mem_read_sub m off n a b c : mem_read m off n = Some (a ++ b ++ c) -> mem_read m (off + zlen a) (zlen b) = Some b.
Proof.
  intros Hr. pose proof (mem_read_length _ _ _ _ Hr) as Hn. rewrite !length_app in Hn. unfold mem_read in *.
  destruct ((0 <=? off) && (0 <=? n) && (off + n <=? zlen m)) eqn:E; [|discriminate]. bsimpl. injection Hr as Hr. rewrite (proj2 (andb_true_iff _ _)).
  2: { rewrite andb_true_iff, !Z.leb_le. lia. }
  f_equal. replace (Z.to_nat (off + zlen a)) with (Z.to_nat off + length a)%nat by lia.
  rewrite <- drop_drop, Nat2Z.id. rewrite <- (take_drop (Z.to_nat n) (drop (Z.to_nat off) m)), Hr.
  rewrite <- !app_assoc, drop_app_length. apply take_app_length.
Qed.

(** A write leaves the bytes before it alone. *)
Lemma mem_read_write_before m off bs m' o n :
  mem_write m off bs = Some m' -> o + n <= off -> 0 <= o -> 0 <= n ->
  mem_read m' o n = mem_read m o n.
Proof.
  intros Hw Hd Ho Hn. pose proof (mem_write_length _ _ _ _ Hw) as Hl.
  unfold mem_write in Hw. case_if; simplify_eq. bsimpl.
  unfold mem_read. rewrite Hl. case_if; [|done]. f_equal.
  rewrite drop_app_le by (rewrite length_take; lia).
  rewrite take_app_le by (rewrite length_drop, length_take; lia).
  replace (Z.to_nat off) with (Z.to_nat o + (Z.to_nat off - Z.to_nat o))%nat by lia.
  rewrite <- take_drop_commute, take_take. f_equal. lia.
Qed.

(** A write leaves the bytes after it alone. *)
Lemma mem_read_write_after m off bs m' o n :
  mem_write m off bs = Some m' -> off + zlen bs <= o -> 0 <= n ->
  mem_read m' o n = mem_read m o n.
Proof.
  intros Hw Hd Hn. pose proof (mem_write_length _ _ _ _ Hw) as Hl.
  unfold mem_write in Hw. case_if; simplify_eq. bsimpl.
  unfold mem_read. rewrite Hl. case_if; [|done]. f_equal. f_equal.
  rewrite app_assoc, drop_app_ge by (rewrite length_app, length_take; lia).
  rewrite drop_drop. f_equal. rewrite length_app, length_take. lia.
Qed.

Lemma mem_read_inv m off n bs : mem_read m off n = Some bs ->
  0 <= off /\ 0 <= n /\ off + n <= zlen m /\ bs = take (Z.to_nat n) (drop (Z.to_nat off) m).
Proof. unfold mem_read. case_if; intros; simplify_eq. bsimpl. lia || done. Qed.

Lemma mem_read_eq m off n : 0 <= off -> 0 <= n -> off + n <= zlen m ->
  mem_read m off n = Some (take (Z.to_nat n) (drop (Z.to_nat off) m)).
Proof. intros. unfold mem_read. rewrite !(proj2 (Z.leb_le _ _)) by lia. done. Qed.

(** Two adjacent reads are one. *)
Lemma mem_read_app m off n1 n2 a b :
  mem_read m off n1 = Some a -> mem_read m (off + n1) n2 = Some b ->
  mem_read m off (n1 + n2) = Some (a ++ b).
Proof.
  intros (? & ? & ? & ->)%mem_read_inv (? & ? & ? & ->)%mem_read_inv.
  rewrite mem_read_eq by lia. f_equal. rewrite !Z2Nat.inj_add by lia.
  rewrite <- drop_drop. generalize (drop (Z.to_nat off) m). intros l.
  rewrite <- (take_drop (Z.to_nat n1) (take _ l)).
  rewrite take_take, Nat.min_l by lia. rewrite skipn_firstn_comm. do 2 f_equal. lia.
Qed.

Lemma mem_read_slice m off n data a c : mem_read m off n = Some data -> 0 <= a -> 0 <= c -> a + c <= n ->
  mem_read m (off + a) c = Some (take (Z.to_nat c) (drop (Z.to_nat a) data)).
Proof.
  intros Hr Ha Hc Hn. pose proof (mem_read_length _ _ _ _ Hr) as Hl.
  rewrite <- (take_drop (Z.to_nat a) data), <- (take_drop (Z.to_nat c) (drop (Z.to_nat a) data)) in Hr.
  assert (E1 : zlen (take (Z.to_nat a) data) = a) by (rewrite length_take; lia).
  assert (E2 : zlen (take (Z.to_nat c) (drop (Z.to_nat a) data)) = c) by (rewrite length_take, length_drop; lia).
  pose proof (mem_read_sub _ _ _ _ _ _ Hr) as H. by rewrite E1, E2 in H.
Qed.

Lemma mem_write_bytes_ok m off bs m' :
  mem_write m off bs = Some m' -> bytes_ok m -> bytes_ok bs -> bytes_ok m'.
Proof.
  unfold mem_write, bytes_ok. case_if; intros H Hm Hb; simplify_eq.
  auto using Forall_app_2, Forall_take, Forall_drop.
Qed.

Lemma mem_read_bytes_ok m off n bs :
  mem_read m off n = Some bs -> bytes_ok m -> bytes_ok bs.
Proof.
  unfold mem_read, bytes_ok. case_if; intros H Hm; simplify_eq.
  auto using Forall_take, Forall_drop.
Qed.

(** ** Counting lemmas *)

Lemma cnt_nil x : cnt x [] = O.
Proof. done. Qed.

Lemma cnt_cons x y l : cnt x (y :: l) = ((if Nat.eq_dec y x then 1 else 0) + cnt x l)%nat.
Proof. unfold cnt. simpl. by destruct (Nat.eq_dec y x). Qed.

Lemma cnt_app x l k : cnt x (l ++ k) = (cnt x l + cnt x k)%nat.
Proof. unfold cnt. apply count_occ_app. Qed.

Lemma cnt_zero x l : cnt x l = O <-> x ∉ l.
Proof. unfold cnt. rewrite list_elem_of_In. symmetry. apply count_occ_not_In. Qed.

Lemma cnt_nodup x l : NoDup l -> (cnt x l <= 1)%nat.
Proof. unfold cnt. rewrite NoDup_ListNoDup. intros H. by apply NoDup_count_occ. Qed.

Lemma cnt_unique l : (forall x, (cnt x l <= 1)%nat) -> NoDup l.
Proof. intros H. rewrite NoDup_ListNoDup. by apply (NoDup_count_occ Nat.eq_dec). Qed.

Lemma cnt_pos x l : (1 <= cnt x l)%nat <-> x ∈ l.
Proof.
  destruct (decide (x ∈ l)) as [H|H].
  - split; [done|]. intros _. destruct (cnt x l) eqn:E; [|lia].
    apply cnt_zero in E. done.
  - pose proof (proj2 (cnt_zero x l) H). split; [lia|done].
Qed.

(** ** List lemmas *)

Lemma existsb_ext_in {A} (f g : A -> bool) l :
  (forall x, x ∈ l -> f x = g x) -> existsb f l = existsb g l.
Proof.
  induction l as [|a l IH]; intros H; [done|]. simpl.
  rewrite H, IH by (intros; try apply H; by constructor). done.
Qed.

(** Replacing an element by one with the same image. *)
Lemma map_insert_same {A B} (f : A -> B) l i x y :
  l !! i = Some x -> f y = f x -> map f (<[i := y]> l) = map f l.
Proof.
  revert i. induction l as [|a l IH]; intros [|i] Hi Hf; simplify_eq/=; [by rewrite Hf|]. f_equal. auto.
Qed.

Lemma map_lookup {A B} (f : A -> B) l i : map f l !! i = f <$> l !! i.
Proof. revert i. induction l as [|a l IH]; intros [|i]; simpl; auto. Qed.

(** Replacing an element of a list of lists. *)
Lemma cnt_flat_map_insert {A} (f : A -> list nat) l i x y p : l !! i = Some x ->
  (cnt p (flat_map f (<[i := y]> l)) + cnt p (f x) = cnt p (flat_map f l) + cnt p (f y))%nat.
Proof.
  revert i. induction l as [|a l IH]; intros [|i] Hi; simplify_eq/=; rewrite !cnt_app; [lia|].
  specialize (IH i Hi). lia.
Qed.

Lemma mem_write_lookup m off bs m' j : mem_write m off bs = Some m' ->
  m' !! j = if decide (Z.to_nat off <= j < Z.to_nat off + length bs)%nat then bs !! (j - Z.to_nat off)%nat else m !! j.
Proof.
  unfold mem_write. case_if; intros H; simplify_eq. bsimpl. assert (Ht : length (take (Z.to_nat off) m) = Z.to_nat off) by (rewrite length_take; lia).
  case_decide as Hd.
  - rewrite lookup_app_r, Ht by lia. rewrite lookup_app_l by lia. done.
  - destruct (decide (j < Z.to_nat off)%nat) as [Hlt|Hge].
    + rewrite lookup_app_l by lia. by rewrite lookup_take_lt.
    + rewrite lookup_app_r, Ht by lia. rewrite lookup_app_r by lia. rewrite lookup_drop. f_equal. lia.
Qed.

(** Two writes side by side, in either order, are one. *)
Lemma mem_write_app m off a b m1 m2 : mem_write m off a = Some m1 -> mem_write m1 (off + zlen a) b = Some m2 -> mem_write m off (a ++ b) = Some m2.
Proof.
  intros H1 H2. pose proof (mem_write_length _ _ _ _ H1) as L1. pose proof (mem_write_length _ _ _ _ H2) as L2.
  assert (Hb : 0 <= off /\ off + zlen a + zlen b <= zlen m).
  { unfold mem_write in H1, H2. repeat case_if; try done. bsimpl. lia. }
  destruct (mem_write_ok m off (a ++ b)) as [m' H']; [lia|rewrite length_app; lia|]. rewrite H'. f_equal. apply list_eq. intros j.
  rewrite (mem_write_lookup _ _ _ _ j H'), (mem_write_lookup _ _ _ _ j H2), (mem_write_lookup _ _ _ _ j H1). rewrite length_app.
  repeat case_decide; try lia; try done.
  - rewrite lookup_app_r by lia. f_equal. lia.
  - rewrite lookup_app_l by lia. done.
Qed.

Lemma mem_write_swap m o1 a o2 b m1 m2 : mem_write m o1 a = Some m1 -> mem_write m1 o2 b = Some m2 -> 0 <= o2 -> o2 + zlen b <= o1 ->
  exists m1', mem_write m o2 b = Some m1' /\ mem_write m1' o1 a = Some m2.
Proof.
  intros H1 H2 Hb Ho. pose proof (mem_write_length _ _ _ _ H1) as L1. pose proof (mem_write_length _ _ _ _ H2) as L2.
  assert (Ha : 0 <= o1 /\ o1 + zlen a <= zlen m) by (unfold mem_write in H1; case_if; [bsimpl; lia|done]).
  destruct (mem_write_ok m o2 b) as [m1' H1']; [lia..|]. pose proof (mem_write_length _ _ _ _ H1') as L1'.
  destruct (mem_write_ok m1' o1 a) as [m2' H2']; [lia..|]. exists m1'. split; [done|]. rewrite H2'. f_equal. apply list_eq. intros j.
  rewrite (mem_write_lookup _ _ _ _ j H2'), (mem_write_lookup _ _ _ _ j H1'), (mem_write_lookup _ _ _ _ j H2), (mem_write_lookup _ _ _ _ j H1).
  repeat case_decide; done || lia.
Qed.

(** ** C strings *)

(** The characters in front of the terminating zero. *)
Fixpoint c_str (l : list Z) : list Z :=
  match l with
  | [] => []
  | b :: l' => if b =? 0 then [] else b :: c_str l'
  end.

Lemma c_str_app_zero l m : Forall (fun b => b <> 0) l -> c_str (l ++ 0 :: m) = l.
Proof. induction 1 as [|b l Hb _ IH]; [done|]. simpl. rewrite (proj2 (Z.eqb_neq _ _) Hb). by rewrite IH. Qed.

Lemma c_str_nonzero l : Forall (fun b => b <> 0) (c_str l).
Proof. induction l as [|b l IH]; simpl; [done|]. destruct (b =? 0) eqn:E; [done|]. constructor; [by apply Z.eqb_neq|done]. Qed.
