(* ===== verification/State.v ===== *)
(** * State: the data of the stack

    The structs of [include/csp/csp_types.h], [include/csp/csp_interface.h],
    [include/csp/csp_rtable.h], [src/csp_conn.h], [src/csp_port.c],
    [src/csp_buffer.c], [src/csp_qfifo.h] and the static variables of the
    [.c] files, gathered in one record [node]: the memory of one CSP node.
    A C pointer is an index into the array that holds the object ([option]
    where it may be NULL); a [set_f] function is the assignment to field [f]. *)

From S2P Require Import Prelude.

(** ** Build configuration: the defaults of [CMakeLists.txt] *)

Definition CSP_QFIFO_LEN : nat := 15.
Definition CSP_PORT_MAX_BIND : nat := 16.
Definition CSP_CONN_RXQUEUE_LEN : nat := 16.
Definition CSP_CONN_MAX : nat := 8.
Definition CSP_BUFFER_SIZE : Z := 256.
Definition CSP_BUFFER_COUNT : nat := 15.
Definition CSP_RDP_MAX_WINDOW : nat := 5.
Definition CSP_RTABLE_SIZE : nat := 10.
Definition CSP_PACKET_PADDING_BYTES : Z := 8.

(** No timeout ([csp.h]). *)
Definition CSP_MAX_TIMEOUT : Z := 0xFFFFFFFF.

(** ** Error codes ([csp_error.h]) and debug codes ([csp_debug.h]) *)

Definition CSP_ERR_NONE : Z := 0.
Definition CSP_ERR_NOMEM : Z := -1.
Definition CSP_ERR_INVAL : Z := -2.
Definition CSP_ERR_TIMEDOUT : Z := -3.
Definition CSP_ERR_USED : Z := -4.
Definition CSP_ERR_NOTSUP : Z := -5.
Definition CSP_ERR_ALREADY : Z := -7.
Definition CSP_ERR_RESET : Z := -8.
Definition CSP_ERR_NOBUFS : Z := -9.
Definition CSP_ERR_TX : Z := -10.
Definition CSP_ERR_DRIVER : Z := -11.
Definition CSP_ERR_AGAIN : Z := -12.
Definition CSP_ERR_HMAC : Z := -100.
Definition CSP_ERR_CRC32 : Z := -102.
Definition CSP_ERR_SFP : Z := -103.

Definition CSP_DBG_ERR_CORRUPT_BUFFER : Z := 1.
Definition CSP_DBG_ERR_ALREADY_FREE : Z := 3.
Definition CSP_DBG_ERR_REFCOUNT : Z := 4.
Definition CSP_DBG_ERR_INVALID_RTABLE_ENTRY : Z := 6.
Definition CSP_DBG_ERR_UNSUPPORTED : Z := 7.
Definition CSP_DBG_ERR_INVALID_BIND_PORT : Z := 8.
Definition CSP_DBG_ERR_PORT_ALREADY_IN_USE : Z := 9.
Definition CSP_DBG_ERR_ALREADY_CLOSED : Z := 10.
Definition CSP_DBG_ERR_INVALID_POINTER : Z := 11.
Definition CSP_DBG_ERR_CLOCK_SET_FAIL : Z := 12.

Definition CSP_DBG_CAN_ERR_FRAME_LOST : Z := 1.
Definition CSP_DBG_CAN_ERR_RX_OVF : Z := 2.
Definition CSP_DBG_CAN_ERR_SHORT_BEGIN : Z := 4.
Definition CSP_DBG_CAN_ERR_UNKNOWN : Z := 6.

(** ** Constants of [csp_types.h] *)

Definition CSP_ANY : Z := 255.
Definition CSP_PRIO_HIGH : Z := 1.
Definition CSP_PRIO_NORM : Z := 2.
Definition CSP_FFRAG : Z := 0x10.
Definition CSP_FHMAC : Z := 0x08.
Definition CSP_FRDP : Z := 0x02.
Definition CSP_FCRC32 : Z := 0x01.
Definition CSP_SO_RDPREQ : Z := 0x0001.
Definition CSP_SO_HMACREQ : Z := 0x0004.
Definition CSP_SO_CRC32REQ : Z := 0x0040.
Definition CSP_SO_CRC32PROHIB : Z := 0x0080.
Definition CSP_SO_CONN_LESS : Z := 0x0100.
Definition CSP_O_RDP : Z := CSP_SO_RDPREQ.
Definition CSP_O_HMAC : Z := CSP_SO_HMACREQ.
Definition CSP_O_CRC32 : Z := CSP_SO_CRC32REQ.
Definition CSP_O_NOCRC32 : Z := CSP_SO_CRC32PROHIB.
Definition CSP_O_SAME : Z := 0x8000.
Definition CSP_NO_VIA_ADDRESS : Z := 0xFFFF.

(** Deduplication modes ([csp_dedup_types] of [csp.h]). *)
Definition CSP_DEDUP_OFF : Z := 0.
Definition CSP_DEDUP_FWD : Z := 1.
Definition CSP_DEDUP_INCOMING : Z := 2.
Definition CSP_DEDUP_ALL : Z := 3.

(** ** The queue of [csp_queue.h], seen as a bounded FIFO

    [Queue.v] proves that the ring buffer of [pthread_queue.c] implements
    these operations. *)

Record queue (A : Type) := Queue { q_cap : nat; q_items : list A }.
Arguments Queue {A} _ _.
Arguments q_cap {A} _.
Arguments q_items {A} _.

Definition q_create {A} (n : nat) : queue A := Queue n [].
Definition q_size {A} (q : queue A) : nat := length (q_items q).
Definition q_free {A} (q : queue A) : nat := (q_cap q - q_size q)%nat.
Definition q_empty {A} (q : queue A) : queue A := Queue (q_cap q) [].

(** [csp_queue_enqueue]: [None] when the queue is full. *)
Definition q_enqueue {A} (x : A) (q : queue A) : option (queue A) :=
  if decide (q_size q < q_cap q)%nat then Some (Queue (q_cap q) (q_items q ++ [x])) else None.

(** [csp_queue_dequeue]: [None] when the queue is empty. *)
Definition q_dequeue {A} (q : queue A) : option (A * queue A) :=
  match q_items q with
  | [] => None
  | x :: l => Some (x, Queue (q_cap q) l)
  end.

(** [csp_id_t]: the unpacked header. *)
Record csp_id := mkId {
  pri : Z;
  flags : Z;
  src : Z;
  dst : Z;
  dport : Z;
  sport : Z
}.

Definition set_pri (v : Z) (r : csp_id) : csp_id :=
  mkId v (flags r) (src r) (dst r) (dport r) (sport r).
Definition set_flags (v : Z) (r : csp_id) : csp_id :=
  mkId (pri r) v (src r) (dst r) (dport r) (sport r).
Definition set_src (v : Z) (r : csp_id) : csp_id :=
  mkId (pri r) (flags r) v (dst r) (dport r) (sport r).
Definition set_dst (v : Z) (r : csp_id) : csp_id :=
  mkId (pri r) (flags r) (src r) v (dport r) (sport r).
Definition set_dport (v : Z) (r : csp_id) : csp_id :=
  mkId (pri r) (flags r) (src r) (dst r) v (sport r).
Definition set_sport (v : Z) (r : csp_id) : csp_id :=
  mkId (pri r) (flags r) (src r) (dst r) (dport r) v.

Definition id_zero : csp_id := mkId 0 0 0 0 0 0.

(** [csp_packet_t].  [frame_begin] is a pointer into the memory of some
    buffer: the pair of that buffer and the offset from its [data]; [header]
    and [data] are adjacent in the struct and form one byte array. *)
Record csp_packet := mkPacket {
  timestamp_tx : Z (* uint32_t *);
  pkt_conn : option nat (* RDP queue owner *);
  rx_count : Z (* uint16_t *);
  remain : Z (* uint16_t *);
  cfpid : Z (* uint32_t *);
  last_used : Z (* uint32_t *);
  frame_buf : nat (* frame_begin: the buffer pointed into *);
  frame_off : Z (* frame_begin: offset from its data[0] *);
  frame_length : Z (* uint16_t *);
  pkt_length : Z (* uint16_t *);
  pkt_id : csp_id;
  pkt_next : option nat (* next *);
  pkt_mem : list Z (* header[8] followed by data[256] *)
}.

Definition set_timestamp_tx (v : Z) (r : csp_packet) : csp_packet :=
  mkPacket v (pkt_conn r) (rx_count r) (remain r) (cfpid r) (last_used r) (frame_buf r) (frame_off r) (frame_length r) (pkt_length r) (pkt_id r) (pkt_next r) (pkt_mem r).
Definition set_pkt_conn (v : option nat) (r : csp_packet) : csp_packet :=
  mkPacket (timestamp_tx r) v (rx_count r) (remain r) (cfpid r) (last_used r) (frame_buf r) (frame_off r) (frame_length r) (pkt_length r) (pkt_id r) (pkt_next r) (pkt_mem r).
Definition set_rx_count (v : Z) (r : csp_packet) : csp_packet :=
  mkPacket (timestamp_tx r) (pkt_conn r) v (remain r) (cfpid r) (last_used r) (frame_buf r) (frame_off r) (frame_length r) (pkt_length r) (pkt_id r) (pkt_next r) (pkt_mem r).
Definition set_remain (v : Z) (r : csp_packet) : csp_packet :=
  mkPacket (timestamp_tx r) (pkt_conn r) (rx_count r) v (cfpid r) (last_used r) (frame_buf r) (frame_off r) (frame_length r) (pkt_length r) (pkt_id r) (pkt_next r) (pkt_mem r).
Definition set_cfpid (v : Z) (r : csp_packet) : csp_packet :=
  mkPacket (timestamp_tx r) (pkt_conn r) (rx_count r) (remain r) v (last_used r) (frame_buf r) (frame_off r) (frame_length r) (pkt_length r) (pkt_id r) (pkt_next r) (pkt_mem r).
Definition set_last_used (v : Z) (r : csp_packet) : csp_packet :=
  mkPacket (timestamp_tx r) (pkt_conn r) (rx_count r) (remain r) (cfpid r) v (frame_buf r) (frame_off r) (frame_length r) (pkt_length r) (pkt_id r) (pkt_next r) (pkt_mem r).
Definition set_frame_buf (v : nat) (r : csp_packet) : csp_packet :=
  mkPacket (timestamp_tx r) (pkt_conn r) (rx_count r) (remain r) (cfpid r) (last_used r) v (frame_off r) (frame_length r) (pkt_length r) (pkt_id r) (pkt_next r) (pkt_mem r).
Definition set_frame_off (v : Z) (r : csp_packet) : csp_packet :=
  mkPacket (timestamp_tx r) (pkt_conn r) (rx_count r) (remain r) (cfpid r) (last_used r) (frame_buf r) v (frame_length r) (pkt_length r) (pkt_id r) (pkt_next r) (pkt_mem r).
Definition set_frame_length (v : Z) (r : csp_packet) : csp_packet :=
  mkPacket (timestamp_tx r) (pkt_conn r) (rx_count r) (remain r) (cfpid r) (last_used r) (frame_buf r) (frame_off r) v (pkt_length r) (pkt_id r) (pkt_next r) (pkt_mem r).
Definition set_pkt_length (v : Z) (r : csp_packet) : csp_packet :=
  mkPacket (timestamp_tx r) (pkt_conn r) (rx_count r) (remain r) (cfpid r) (last_used r) (frame_buf r) (frame_off r) (frame_length r) v (pkt_id r) (pkt_next r) (pkt_mem r).
Definition set_pkt_id (v : csp_id) (r : csp_packet) : csp_packet :=
  mkPacket (timestamp_tx r) (pkt_conn r) (rx_count r) (remain r) (cfpid r) (last_used r) (frame_buf r) (frame_off r) (frame_length r) (pkt_length r) v (pkt_next r) (pkt_mem r).
Definition set_pkt_next (v : option nat) (r : csp_packet) : csp_packet :=
  mkPacket (timestamp_tx r) (pkt_conn r) (rx_count r) (remain r) (cfpid r) (last_used r) (frame_buf r) (frame_off r) (frame_length r) (pkt_length r) (pkt_id r) v (pkt_mem r).
Definition set_pkt_mem (v : list Z) (r : csp_packet) : csp_packet :=
  mkPacket (timestamp_tx r) (pkt_conn r) (rx_count r) (remain r) (cfpid r) (last_used r) (frame_buf r) (frame_off r) (frame_length r) (pkt_length r) (pkt_id r) (pkt_next r) v.

(** [csp_skbf_t]: the internal buffer header. *)
Record csp_skbf := mkSkbf {
  refcount : Z (* unsigned int *);
  skbf_addr : nat;
  skbf_data : csp_packet
}.

Definition set_refcount (v : Z) (r : csp_skbf) : csp_skbf :=
  mkSkbf v (skbf_addr r) (skbf_data r).
Definition set_skbf_addr (v : nat) (r : csp_skbf) : csp_skbf :=
  mkSkbf (refcount r) v (skbf_data r).
Definition set_skbf_data (v : csp_packet) (r : csp_skbf) : csp_skbf :=
  mkSkbf (refcount r) (skbf_addr r) v.

(** [csp_conn_state_t], [csp_conn_type_t], [csp_rdp_state_t] *)
Inductive csp_conn_state := CONN_CLOSED | CONN_OPEN.
Inductive csp_conn_type := CONN_CLIENT | CONN_SERVER.
Inductive csp_rdp_state := RDP_CLOSED | RDP_SYN_SENT | RDP_SYN_RCVD | RDP_OPEN | RDP_CLOSE_WAIT.

#[export] Instance csp_conn_state_eq_dec : EqDecision csp_conn_state.
Proof. solve_decision. Defined.
#[export] Instance csp_conn_type_eq_dec : EqDecision csp_conn_type.
Proof. solve_decision. Defined.
#[export] Instance csp_rdp_state_eq_dec : EqDecision csp_rdp_state.
Proof. solve_decision. Defined.

Definition CSP_RDP_CLOSED_BY_USERSPACE : Z := 0x01.
Definition CSP_RDP_CLOSED_BY_PROTOCOL : Z := 0x02.
Definition CSP_RDP_CLOSED_BY_TIMEOUT : Z := 0x04.
Definition CSP_RDP_CLOSED_BY_ALL : Z := 0x07.

(** [csp_rdp_t]: the RDP part of a connection. *)
Record csp_rdp := mkRdp {
  rdp_state : csp_rdp_state;
  closed_by : Z (* uint8_t *);
  snd_nxt : Z (* uint16_t *);
  snd_una : Z (* uint16_t *);
  snd_iss : Z (* uint16_t *);
  rcv_cur : Z (* uint16_t *);
  rcv_irs : Z (* uint16_t *);
  rcv_lsa : Z (* uint16_t *);
  window_size : Z (* uint32_t *);
  conn_timeout : Z (* uint32_t *);
  packet_timeout : Z (* uint32_t *);
  delayed_acks : Z (* uint32_t *);
  ack_timeout : Z (* uint32_t *);
  ack_delay_count : Z (* uint32_t *);
  ack_timestamp : Z (* uint32_t *);
  tx_wait : Z (* binary semaphore value *)
}.

Definition set_rdp_state (v : csp_rdp_state) (r : csp_rdp) : csp_rdp :=
  mkRdp v (closed_by r) (snd_nxt r) (snd_una r) (snd_iss r) (rcv_cur r) (rcv_irs r) (rcv_lsa r) (window_size r) (conn_timeout r) (packet_timeout r) (delayed_acks r) (ack_timeout r) (ack_delay_count r) (ack_timestamp r) (tx_wait r).
Definition set_closed_by (v : Z) (r : csp_rdp) : csp_rdp :=
  mkRdp (rdp_state r) v (snd_nxt r) (snd_una r) (snd_iss r) (rcv_cur r) (rcv_irs r) (rcv_lsa r) (window_size r) (conn_timeout r) (packet_timeout r) (delayed_acks r) (ack_timeout r) (ack_delay_count r) (ack_timestamp r) (tx_wait r).
Definition set_snd_nxt (v : Z) (r : csp_rdp) : csp_rdp :=
  mkRdp (rdp_state r) (closed_by r) v (snd_una r) (snd_iss r) (rcv_cur r) (rcv_irs r) (rcv_lsa r) (window_size r) (conn_timeout r) (packet_timeout r) (delayed_acks r) (ack_timeout r) (ack_delay_count r) (ack_timestamp r) (tx_wait r).
Definition set_snd_una (v : Z) (r : csp_rdp) : csp_rdp :=
  mkRdp (rdp_state r) (closed_by r) (snd_nxt r) v (snd_iss r) (rcv_cur r) (rcv_irs r) (rcv_lsa r) (window_size r) (conn_timeout r) (packet_timeout r) (delayed_acks r) (ack_timeout r) (ack_delay_count r) (ack_timestamp r) (tx_wait r).
Definition set_snd_iss (v : Z) (r : csp_rdp) : csp_rdp :=
  mkRdp (rdp_state r) (closed_by r) (snd_nxt r) (snd_una r) v (rcv_cur r) (rcv_irs r) (rcv_lsa r) (window_size r) (conn_timeout r) (packet_timeout r) (delayed_acks r) (ack_timeout r) (ack_delay_count r) (ack_timestamp r) (tx_wait r).
Definition set_rcv_cur (v : Z) (r : csp_rdp) : csp_rdp :=
  mkRdp (rdp_state r) (closed_by r) (snd_nxt r) (snd_una r) (snd_iss r) v (rcv_irs r) (rcv_lsa r) (window_size r) (conn_timeout r) (packet_timeout r) (delayed_acks r) (ack_timeout r) (ack_delay_count r) (ack_timestamp r) (tx_wait r).
Definition set_rcv_irs (v : Z) (r : csp_rdp) : csp_rdp :=
  mkRdp (rdp_state r) (closed_by r) (snd_nxt r) (snd_una r) (snd_iss r) (rcv_cur r) v (rcv_lsa r) (window_size r) (conn_timeout r) (packet_timeout r) (delayed_acks r) (ack_timeout r) (ack_delay_count r) (ack_timestamp r) (tx_wait r).
Definition set_rcv_lsa (v : Z) (r : csp_rdp) : csp_rdp :=
  mkRdp (rdp_state r) (closed_by r) (snd_nxt r) (snd_una r) (snd_iss r) (rcv_cur r) (rcv_irs r) v (window_size r) (conn_timeout r) (packet_timeout r) (delayed_acks r) (ack_timeout r) (ack_delay_count r) (ack_timestamp r) (tx_wait r).
Definition set_window_size (v : Z) (r : csp_rdp) : csp_rdp :=
  mkRdp (rdp_state r) (closed_by r) (snd_nxt r) (snd_una r) (snd_iss r) (rcv_cur r) (rcv_irs r) (rcv_lsa r) v (conn_timeout r) (packet_timeout r) (delayed_acks r) (ack_timeout r) (ack_delay_count r) (ack_timestamp r) (tx_wait r).
Definition set_conn_timeout (v : Z) (r : csp_rdp) : csp_rdp :=
  mkRdp (rdp_state r) (closed_by r) (snd_nxt r) (snd_una r) (snd_iss r) (rcv_cur r) (rcv_irs r) (rcv_lsa r) (window_size r) v (packet_timeout r) (delayed_acks r) (ack_timeout r) (ack_delay_count r) (ack_timestamp r) (tx_wait r).
Definition set_packet_timeout (v : Z) (r : csp_rdp) : csp_rdp :=
  mkRdp (rdp_state r) (closed_by r) (snd_nxt r) (snd_una r) (snd_iss r) (rcv_cur r) (rcv_irs r) (rcv_lsa r) (window_size r) (conn_timeout r) v (delayed_acks r) (ack_timeout r) (ack_delay_count r) (ack_timestamp r) (tx_wait r).
Definition set_delayed_acks (v : Z) (r : csp_rdp) : csp_rdp :=
  mkRdp (rdp_state r) (closed_by r) (snd_nxt r) (snd_una r) (snd_iss r) (rcv_cur r) (rcv_irs r) (rcv_lsa r) (window_size r) (conn_timeout r) (packet_timeout r) v (ack_timeout r) (ack_delay_count r) (ack_timestamp r) (tx_wait r).
Definition set_ack_timeout (v : Z) (r : csp_rdp) : csp_rdp :=
  mkRdp (rdp_state r) (closed_by r) (snd_nxt r) (snd_una r) (snd_iss r) (rcv_cur r) (rcv_irs r) (rcv_lsa r) (window_size r) (conn_timeout r) (packet_timeout r) (delayed_acks r) v (ack_delay_count r) (ack_timestamp r) (tx_wait r).
Definition set_ack_delay_count (v : Z) (r : csp_rdp) : csp_rdp :=
  mkRdp (rdp_state r) (closed_by r) (snd_nxt r) (snd_una r) (snd_iss r) (rcv_cur r) (rcv_irs r) (rcv_lsa r) (window_size r) (conn_timeout r) (packet_timeout r) (delayed_acks r) (ack_timeout r) v (ack_timestamp r) (tx_wait r).
Definition set_ack_timestamp (v : Z) (r : csp_rdp) : csp_rdp :=
  mkRdp (rdp_state r) (closed_by r) (snd_nxt r) (snd_una r) (snd_iss r) (rcv_cur r) (rcv_irs r) (rcv_lsa r) (window_size r) (conn_timeout r) (packet_timeout r) (delayed_acks r) (ack_timeout r) (ack_delay_count r) v (tx_wait r).
Definition set_tx_wait (v : Z) (r : csp_rdp) : csp_rdp :=
  mkRdp (rdp_state r) (closed_by r) (snd_nxt r) (snd_una r) (snd_iss r) (rcv_cur r) (rcv_irs r) (rcv_lsa r) (window_size r) (conn_timeout r) (packet_timeout r) (delayed_acks r) (ack_timeout r) (ack_delay_count r) (ack_timestamp r) v.

(** [struct csp_conn_s] (the [callback] field is never read). *)
Record csp_conn := mkConn {
  conn_type : csp_conn_type;
  conn_state : csp_conn_state;
  idin : csp_id;
  idout : csp_id;
  sport_outgoing : Z (* uint8_t *);
  conn_rxq : queue (option nat) (* rx_queue of packet pointers *);
  dest_socket : option nat;
  conn_timestamp : Z (* uint32_t *);
  conn_opts : Z (* uint32_t *);
  conn_rdp : csp_rdp
}.

Definition set_conn_type (v : csp_conn_type) (r : csp_conn) : csp_conn :=
  mkConn v (conn_state r) (idin r) (idout r) (sport_outgoing r) (conn_rxq r) (dest_socket r) (conn_timestamp r) (conn_opts r) (conn_rdp r).
Definition set_conn_state (v : csp_conn_state) (r : csp_conn) : csp_conn :=
  mkConn (conn_type r) v (idin r) (idout r) (sport_outgoing r) (conn_rxq r) (dest_socket r) (conn_timestamp r) (conn_opts r) (conn_rdp r).
Definition set_idin (v : csp_id) (r : csp_conn) : csp_conn :=
  mkConn (conn_type r) (conn_state r) v (idout r) (sport_outgoing r) (conn_rxq r) (dest_socket r) (conn_timestamp r) (conn_opts r) (conn_rdp r).
Definition set_idout (v : csp_id) (r : csp_conn) : csp_conn :=
  mkConn (conn_type r) (conn_state r) (idin r) v (sport_outgoing r) (conn_rxq r) (dest_socket r) (conn_timestamp r) (conn_opts r) (conn_rdp r).
Definition set_sport_outgoing (v : Z) (r : csp_conn) : csp_conn :=
  mkConn (conn_type r) (conn_state r) (idin r) (idout r) v (conn_rxq r) (dest_socket r) (conn_timestamp r) (conn_opts r) (conn_rdp r).
Definition set_conn_rxq (v : queue (option nat)) (r : csp_conn) : csp_conn :=
  mkConn (conn_type r) (conn_state r) (idin r) (idout r) (sport_outgoing r) v (dest_socket r) (conn_timestamp r) (conn_opts r) (conn_rdp r).
Definition set_dest_socket (v : option nat) (r : csp_conn) : csp_conn :=
  mkConn (conn_type r) (conn_state r) (idin r) (idout r) (sport_outgoing r) (conn_rxq r) v (conn_timestamp r) (conn_opts r) (conn_rdp r).
Definition set_conn_timestamp (v : Z) (r : csp_conn) : csp_conn :=
  mkConn (conn_type r) (conn_state r) (idin r) (idout r) (sport_outgoing r) (conn_rxq r) (dest_socket r) v (conn_opts r) (conn_rdp r).
Definition set_conn_opts (v : Z) (r : csp_conn) : csp_conn :=
  mkConn (conn_type r) (conn_state r) (idin r) (idout r) (sport_outgoing r) (conn_rxq r) (dest_socket r) (conn_timestamp r) v (conn_rdp r).
Definition set_conn_rdp (v : csp_rdp) (r : csp_conn) : csp_conn :=
  mkConn (conn_type r) (conn_state r) (idin r) (idout r) (sport_outgoing r) (conn_rxq r) (dest_socket r) (conn_timestamp r) (conn_opts r) v.

(** What a socket queue holds: connections waiting for [csp_accept], or
    packets of a connection-less socket. *)
Inductive sock_item := SConn (c : nat) | SPkt (p : nat).

(** [struct csp_socket_s]. *)
Record csp_socket := mkSocket {
  sock_rxq : option (queue sock_item) (* NULL until csp_listen *);
  sock_opts : Z (* uint32_t *)
}.

Definition set_sock_rxq (v : option (queue sock_item)) (r : csp_socket) : csp_socket :=
  mkSocket v (sock_opts r).
Definition set_sock_opts (v : Z) (r : csp_socket) : csp_socket :=
  mkSocket (sock_rxq r) v.

(** [csp_port_t]: the state and the union of socket and callback. *)
Inductive csp_port := PORT_CLOSED | PORT_OPEN (sock : nat) | PORT_OPEN_CB (cb : nat).

(** [struct csp_iface_s]; the statistics are [uint32_t]. *)
Record csp_iface := mkIface {
  if_addr : Z (* uint16_t *);
  if_netmask : Z (* uint16_t *);
  if_name : option (list Z) (* NUL-terminated name, without the NUL *);
  if_nexthop : nat (* which transmit function *);
  is_default : Z (* uint8_t *);
  if_tx : Z;
  if_rx : Z;
  tx_error : Z;
  rx_error : Z;
  if_drop : Z;
  autherr : Z;
  if_frame : Z;
  txbytes : Z;
  rxbytes : Z;
  if_irq : Z;
  if_next : option nat
}.

Definition set_if_addr (v : Z) (r : csp_iface) : csp_iface :=
  mkIface v (if_netmask r) (if_name r) (if_nexthop r) (is_default r) (if_tx r) (if_rx r) (tx_error r) (rx_error r) (if_drop r) (autherr r) (if_frame r) (txbytes r) (rxbytes r) (if_irq r) (if_next r).
Definition set_if_netmask (v : Z) (r : csp_iface) : csp_iface :=
  mkIface (if_addr r) v (if_name r) (if_nexthop r) (is_default r) (if_tx r) (if_rx r) (tx_error r) (rx_error r) (if_drop r) (autherr r) (if_frame r) (txbytes r) (rxbytes r) (if_irq r) (if_next r).
Definition set_if_name (v : option (list Z)) (r : csp_iface) : csp_iface :=
  mkIface (if_addr r) (if_netmask r) v (if_nexthop r) (is_default r) (if_tx r) (if_rx r) (tx_error r) (rx_error r) (if_drop r) (autherr r) (if_frame r) (txbytes r) (rxbytes r) (if_irq r) (if_next r).
Definition set_if_nexthop (v : nat) (r : csp_iface) : csp_iface :=
  mkIface (if_addr r) (if_netmask r) (if_name r) v (is_default r) (if_tx r) (if_rx r) (tx_error r) (rx_error r) (if_drop r) (autherr r) (if_frame r) (txbytes r) (rxbytes r) (if_irq r) (if_next r).
Definition set_is_default (v : Z) (r : csp_iface) : csp_iface :=
  mkIface (if_addr r) (if_netmask r) (if_name r) (if_nexthop r) v (if_tx r) (if_rx r) (tx_error r) (rx_error r) (if_drop r) (autherr r) (if_frame r) (txbytes r) (rxbytes r) (if_irq r) (if_next r).
Definition set_if_tx (v : Z) (r : csp_iface) : csp_iface :=
  mkIface (if_addr r) (if_netmask r) (if_name r) (if_nexthop r) (is_default r) v (if_rx r) (tx_error r) (rx_error r) (if_drop r) (autherr r) (if_frame r) (txbytes r) (rxbytes r) (if_irq r) (if_next r).
Definition set_if_rx (v : Z) (r : csp_iface) : csp_iface :=
  mkIface (if_addr r) (if_netmask r) (if_name r) (if_nexthop r) (is_default r) (if_tx r) v (tx_error r) (rx_error r) (if_drop r) (autherr r) (if_frame r) (txbytes r) (rxbytes r) (if_irq r) (if_next r).
Definition set_tx_error (v : Z) (r : csp_iface) : csp_iface :=
  mkIface (if_addr r) (if_netmask r) (if_name r) (if_nexthop r) (is_default r) (if_tx r) (if_rx r) v (rx_error r) (if_drop r) (autherr r) (if_frame r) (txbytes r) (rxbytes r) (if_irq r) (if_next r).
Definition set_rx_error (v : Z) (r : csp_iface) : csp_iface :=
  mkIface (if_addr r) (if_netmask r) (if_name r) (if_nexthop r) (is_default r) (if_tx r) (if_rx r) (tx_error r) v (if_drop r) (autherr r) (if_frame r) (txbytes r) (rxbytes r) (if_irq r) (if_next r).
Definition set_if_drop (v : Z) (r : csp_iface) : csp_iface :=
  mkIface (if_addr r) (if_netmask r) (if_name r) (if_nexthop r) (is_default r) (if_tx r) (if_rx r) (tx_error r) (rx_error r) v (autherr r) (if_frame r) (txbytes r) (rxbytes r) (if_irq r) (if_next r).
Definition set_autherr (v : Z) (r : csp_iface) : csp_iface :=
  mkIface (if_addr r) (if_netmask r) (if_name r) (if_nexthop r) (is_default r) (if_tx r) (if_rx r) (tx_error r) (rx_error r) (if_drop r) v (if_frame r) (txbytes r) (rxbytes r) (if_irq r) (if_next r).
Definition set_if_frame (v : Z) (r : csp_iface) : csp_iface :=
  mkIface (if_addr r) (if_netmask r) (if_name r) (if_nexthop r) (is_default r) (if_tx r) (if_rx r) (tx_error r) (rx_error r) (if_drop r) (autherr r) v (txbytes r) (rxbytes r) (if_irq r) (if_next r).
Definition set_txbytes (v : Z) (r : csp_iface) : csp_iface :=
  mkIface (if_addr r) (if_netmask r) (if_name r) (if_nexthop r) (is_default r) (if_tx r) (if_rx r) (tx_error r) (rx_error r) (if_drop r) (autherr r) (if_frame r) v (rxbytes r) (if_irq r) (if_next r).
Definition set_rxbytes (v : Z) (r : csp_iface) : csp_iface :=
  mkIface (if_addr r) (if_netmask r) (if_name r) (if_nexthop r) (is_default r) (if_tx r) (if_rx r) (tx_error r) (rx_error r) (if_drop r) (autherr r) (if_frame r) (txbytes r) v (if_irq r) (if_next r).
Definition set_if_irq (v : Z) (r : csp_iface) : csp_iface :=
  mkIface (if_addr r) (if_netmask r) (if_name r) (if_nexthop r) (is_default r) (if_tx r) (if_rx r) (tx_error r) (rx_error r) (if_drop r) (autherr r) (if_frame r) (txbytes r) (rxbytes r) v (if_next r).
Definition set_if_next (v : option nat) (r : csp_iface) : csp_iface :=
  mkIface (if_addr r) (if_netmask r) (if_name r) (if_nexthop r) (is_default r) (if_tx r) (if_rx r) (tx_error r) (rx_error r) (if_drop r) (autherr r) (if_frame r) (txbytes r) (rxbytes r) (if_irq r) v.

(** [csp_route_t]. *)
Record csp_route := mkRoute {
  rt_address : Z (* uint16_t *);
  rt_netmask : Z (* uint16_t *);
  rt_via : Z (* uint16_t *);
  rt_iface : option nat
}.

Definition set_rt_address (v : Z) (r : csp_route) : csp_route :=
  mkRoute v (rt_netmask r) (rt_via r) (rt_iface r).
Definition set_rt_netmask (v : Z) (r : csp_route) : csp_route :=
  mkRoute (rt_address r) v (rt_via r) (rt_iface r).
Definition set_rt_via (v : Z) (r : csp_route) : csp_route :=
  mkRoute (rt_address r) (rt_netmask r) v (rt_iface r).
Definition set_rt_iface (v : option nat) (r : csp_route) : csp_route :=
  mkRoute (rt_address r) (rt_netmask r) (rt_via r) v.

Definition route_zero : csp_route := mkRoute 0 0 0 None.

(** [csp_conf_t]. *)
Record csp_conf := mkConf {
  version : Z (* uint8_t *);
  conn_dfl_so : Z (* uint32_t *);
  conf_dedup : Z (* uint8_t *);
  hostname : list Z;
  model : list Z;
  revision : list Z
}.

Definition set_version (v : Z) (r : csp_conf) : csp_conf :=
  mkConf v (conn_dfl_so r) (conf_dedup r) (hostname r) (model r) (revision r).
Definition set_conn_dfl_so (v : Z) (r : csp_conf) : csp_conf :=
  mkConf (version r) v (conf_dedup r) (hostname r) (model r) (revision r).
Definition set_conf_dedup (v : Z) (r : csp_conf) : csp_conf :=
  mkConf (version r) (conn_dfl_so r) v (hostname r) (model r) (revision r).
Definition set_hostname (v : list Z) (r : csp_conf) : csp_conf :=
  mkConf (version r) (conn_dfl_so r) (conf_dedup r) v (model r) (revision r).
Definition set_model (v : list Z) (r : csp_conf) : csp_conf :=
  mkConf (version r) (conn_dfl_so r) (conf_dedup r) (hostname r) v (revision r).
Definition set_revision (v : list Z) (r : csp_conf) : csp_conf :=
  mkConf (version r) (conn_dfl_so r) (conf_dedup r) (hostname r) (model r) v.

(** The static option variables of [csp_rdp.c] ([uint32_t]). *)
Record csp_rdp_opts := mkRdpOpts {
  o_window_size : Z;
  o_conn_timeout : Z;
  o_packet_timeout : Z;
  o_delayed_acks : Z;
  o_ack_timeout : Z;
  o_ack_delay_count : Z
}.

Definition set_o_window_size (v : Z) (r : csp_rdp_opts) : csp_rdp_opts :=
  mkRdpOpts v (o_conn_timeout r) (o_packet_timeout r) (o_delayed_acks r) (o_ack_timeout r) (o_ack_delay_count r).
Definition set_o_conn_timeout (v : Z) (r : csp_rdp_opts) : csp_rdp_opts :=
  mkRdpOpts (o_window_size r) v (o_packet_timeout r) (o_delayed_acks r) (o_ack_timeout r) (o_ack_delay_count r).
Definition set_o_packet_timeout (v : Z) (r : csp_rdp_opts) : csp_rdp_opts :=
  mkRdpOpts (o_window_size r) (o_conn_timeout r) v (o_delayed_acks r) (o_ack_timeout r) (o_ack_delay_count r).
Definition set_o_delayed_acks (v : Z) (r : csp_rdp_opts) : csp_rdp_opts :=
  mkRdpOpts (o_window_size r) (o_conn_timeout r) (o_packet_timeout r) v (o_ack_timeout r) (o_ack_delay_count r).
Definition set_o_ack_timeout (v : Z) (r : csp_rdp_opts) : csp_rdp_opts :=
  mkRdpOpts (o_window_size r) (o_conn_timeout r) (o_packet_timeout r) (o_delayed_acks r) v (o_ack_delay_count r).
Definition set_o_ack_delay_count (v : Z) (r : csp_rdp_opts) : csp_rdp_opts :=
  mkRdpOpts (o_window_size r) (o_conn_timeout r) (o_packet_timeout r) (o_delayed_acks r) (o_ack_timeout r) v.

Definition rdp_opts_default : csp_rdp_opts := mkRdpOpts 4 10000 1000 1 (1000 / 4) (4 / 2).

(** The debug counters of [csp_debug.c] ([uint8_t]). *)
Record csp_dbg := mkDbg {
  dbg_buffer_out : Z;
  dbg_errno : Z;
  dbg_conn_out : Z;
  dbg_conn_ovf : Z;
  dbg_can_errno : Z;
  dbg_inval_reply : Z
}.

Definition set_dbg_buffer_out (v : Z) (r : csp_dbg) : csp_dbg :=
  mkDbg v (dbg_errno r) (dbg_conn_out r) (dbg_conn_ovf r) (dbg_can_errno r) (dbg_inval_reply r).
Definition set_dbg_errno (v : Z) (r : csp_dbg) : csp_dbg :=
  mkDbg (dbg_buffer_out r) v (dbg_conn_out r) (dbg_conn_ovf r) (dbg_can_errno r) (dbg_inval_reply r).
Definition set_dbg_conn_out (v : Z) (r : csp_dbg) : csp_dbg :=
  mkDbg (dbg_buffer_out r) (dbg_errno r) v (dbg_conn_ovf r) (dbg_can_errno r) (dbg_inval_reply r).
Definition set_dbg_conn_ovf (v : Z) (r : csp_dbg) : csp_dbg :=
  mkDbg (dbg_buffer_out r) (dbg_errno r) (dbg_conn_out r) v (dbg_can_errno r) (dbg_inval_reply r).
Definition set_dbg_can_errno (v : Z) (r : csp_dbg) : csp_dbg :=
  mkDbg (dbg_buffer_out r) (dbg_errno r) (dbg_conn_out r) (dbg_conn_ovf r) v (dbg_inval_reply r).
Definition set_dbg_inval_reply (v : Z) (r : csp_dbg) : csp_dbg :=
  mkDbg (dbg_buffer_out r) (dbg_errno r) (dbg_conn_out r) (dbg_conn_ovf r) (dbg_can_errno r) v.

(** KISS receiver ([csp_kiss_interface_data_t]). *)
Inductive csp_kiss_mode := KISS_MODE_NOT_STARTED | KISS_MODE_STARTED | KISS_MODE_ESCAPED | KISS_MODE_SKIP_FRAME.

(** [csp_kiss_interface_data_t] of a KISS interface; [tx_func] names the
    serial driver's function. *)
Record csp_kiss := mkKiss {
  tx_func : option nat;
  rx_mode : csp_kiss_mode;
  rx_length : Z (* unsigned int *);
  rx_first : bool;
  rx_packet : option nat
}.

Definition set_rx_mode (v : csp_kiss_mode) (r : csp_kiss) : csp_kiss :=
  mkKiss (tx_func r) v (rx_length r) (rx_first r) (rx_packet r).
Definition set_rx_length (v : Z) (r : csp_kiss) : csp_kiss :=
  mkKiss (tx_func r) (rx_mode r) v (rx_first r) (rx_packet r).
Definition set_rx_first (v : bool) (r : csp_kiss) : csp_kiss :=
  mkKiss (tx_func r) (rx_mode r) (rx_length r) v (rx_packet r).
Definition set_rx_packet (v : option nat) (r : csp_kiss) : csp_kiss :=
  mkKiss (tx_func r) (rx_mode r) (rx_length r) (rx_first r) v.

(** [csp_can_interface_data_t] of a CAN interface. *)
Record csp_can := mkCan {
  cfp_packet_counter : Z (* uint32_t *);
  can_tx_func : option nat (* tx_func *);
  can_pbufs : option nat (* pbufs: packets being reassembled *)
}.

Definition set_cfp_packet_counter (v : Z) (r : csp_can) : csp_can :=
  mkCan v (can_tx_func r) (can_pbufs r).
Definition set_can_tx_func (v : option nat) (r : csp_can) : csp_can :=
  mkCan (cfp_packet_counter r) v (can_pbufs r).
Definition set_can_pbufs (v : option nat) (r : csp_can) : csp_can :=
  mkCan (cfp_packet_counter r) (can_tx_func r) v.

(** [csp_eth_interface_data_t] of an Ethernet interface. *)
Record csp_eth := mkEth {
  eth_promisc : bool (* promisc *);
  tx_mtu : Z (* uint16_t *);
  eth_tx_buf : list Z (* the memory at tx_buf *);
  eth_pbufs : option nat (* pbufs *);
  if_mac : list Z
}.

Definition set_eth_promisc (v : bool) (r : csp_eth) : csp_eth :=
  mkEth v (tx_mtu r) (eth_tx_buf r) (eth_pbufs r) (if_mac r).
Definition set_tx_mtu (v : Z) (r : csp_eth) : csp_eth :=
  mkEth (eth_promisc r) v (eth_tx_buf r) (eth_pbufs r) (if_mac r).
Definition set_eth_tx_buf (v : list Z) (r : csp_eth) : csp_eth :=
  mkEth (eth_promisc r) (tx_mtu r) v (eth_pbufs r) (if_mac r).
Definition set_eth_pbufs (v : option nat) (r : csp_eth) : csp_eth :=
  mkEth (eth_promisc r) (tx_mtu r) (eth_tx_buf r) v (if_mac r).
Definition set_if_mac (v : list Z) (r : csp_eth) : csp_eth :=
  mkEth (eth_promisc r) (tx_mtu r) (eth_tx_buf r) (eth_pbufs r) v.

(** [arp_list_entry_t]: the hardware address of a node. *)
Record arp_entry := mkArp {
  arp_csp_addr : Z (* uint16_t *);
  arp_mac : list Z (* mac_addr *);
  arp_next : option nat (* next *)
}.

Definition set_arp_csp_addr (v : Z) (r : arp_entry) : arp_entry :=
  mkArp v (arp_mac r) (arp_next r).
Definition set_arp_mac (v : list Z) (r : arp_entry) : arp_entry :=
  mkArp (arp_csp_addr r) v (arp_next r).
Definition set_arp_next (v : option nat) (r : arp_entry) : arp_entry :=
  mkArp (arp_csp_addr r) (arp_mac r) v.

Definition ARP_MAX_ENTRIES : nat := 10.
Definition CSP_ETH_ALEN : Z := 6.

(** [csp_i2c_interface_data_t], [csp_if_udp_conf_t] (its [peer_addr] without the
    port, which is that of [rport]) and [csp_if_tun_conf_t]. *)
Record csp_i2c := mkI2c { i2c_tx_func : option nat }.
Record csp_udp := mkUdp {
  udp_host : list Z;   (* char *host *)
  lport : Z;           (* int *)
  rport : Z;           (* int *)
  peer_addr : Z;       (* struct in_addr of peer_addr *)
  sockfd : Z           (* int *)
}.
Definition set_peer_addr (v : Z) (r : csp_udp) : csp_udp := mkUdp (udp_host r) (lport r) (rport r) v (sockfd r).
Record csp_tun := mkTun { tun_src : Z (* int *); tun_dst : Z (* int *) }.

(** What leaves the node: one call of a driver's transmit function, with the
    message identifier of a CAN driver or the destination of a datagram (0 for
    the others). *)
Record wire_event := WireBytes { wire_iface : nat; wire_id : Z; wire_data : list Z }.

(** The memory of a node. *)
Record node := mkNode {
  conf : csp_conf (* csp_conf *);
  pool : list csp_skbf (* csp_buffer_pool *);
  csp_buffers : queue nat (* free buffers *);
  qfifo : queue (option nat * option nat) (* router input: (iface, packet) *);
  arr_conn : list csp_conn;
  conn_last_given : Z (* uint8_t *);
  ports : list csp_port;
  socks : list csp_socket (* the application's sockets *);
  dedup_array : list Z;
  dedup_timestamp : list Z;
  dedup_in : Z;
  promisc_queue : option (queue nat);
  promisc_enabled : Z;
  ifs : list csp_iface (* every interface struct *);
  interfaces : option nat (* head of the interface list *);
  rtable : list csp_route;
  rtable_inptr : Z;
  rdp_tx : queue nat (* tx_queue of csp_rdp_queue.c *);
  rdp_rx : queue nat (* rx_queue of csp_rdp_queue.c *);
  rdp_opts : csp_rdp_opts;
  rdp_incr : Z (* uint8_t *);
  hmac_key : list Z (* csp_hmac_key *);
  bif_a : option nat;
  bif_b : option nat (* bridge interfaces *);
  kiss : list (option csp_kiss) (* interface_data of the KISS interfaces, by interface *);
  can : list (option csp_can) (* interface_data of the CAN interfaces, by interface *);
  eth : list (option csp_eth) (* interface_data of the Ethernet interfaces, by interface *);
  arp_array : list arp_entry;
  arp_used : Z (* size_t *);
  arp_list : option nat;
  eth_packet_id : Z (* packet_id of csp_eth_tx, uint16_t *);
  i2c : list (option csp_i2c);
  udp : list (option csp_udp);
  tun : list (option csp_tun);
  dbg : csp_dbg;
  tick : nat (* number of clock readings so far *);
  waits : nat (* number of blocking waits so far *);
  wire : list wire_event (* driver output, newest first *)
}.

Definition set_conf (v : csp_conf) (r : node) : node :=
  mkNode v (pool r) (csp_buffers r) (qfifo r) (arr_conn r) (conn_last_given r) (ports r) (socks r) (dedup_array r) (dedup_timestamp r) (dedup_in r) (promisc_queue r) (promisc_enabled r) (ifs r) (interfaces r) (rtable r) (rtable_inptr r) (rdp_tx r) (rdp_rx r) (rdp_opts r) (rdp_incr r) (hmac_key r) (bif_a r) (bif_b r) (kiss r) (can r) (eth r) (arp_array r) (arp_used r) (arp_list r) (eth_packet_id r) (i2c r) (udp r) (tun r) (dbg r) (tick r) (waits r) (wire r).
Definition set_pool (v : list csp_skbf) (r : node) : node :=
  mkNode (conf r) v (csp_buffers r) (qfifo r) (arr_conn r) (conn_last_given r) (ports r) (socks r) (dedup_array r) (dedup_timestamp r) (dedup_in r) (promisc_queue r) (promisc_enabled r) (ifs r) (interfaces r) (rtable r) (rtable_inptr r) (rdp_tx r) (rdp_rx r) (rdp_opts r) (rdp_incr r) (hmac_key r) (bif_a r) (bif_b r) (kiss r) (can r) (eth r) (arp_array r) (arp_used r) (arp_list r) (eth_packet_id r) (i2c r) (udp r) (tun r) (dbg r) (tick r) (waits r) (wire r).
Definition set_csp_buffers (v : queue nat) (r : node) : node :=
  mkNode (conf r) (pool r) v (qfifo r) (arr_conn r) (conn_last_given r) (ports r) (socks r) (dedup_array r) (dedup_timestamp r) (dedup_in r) (promisc_queue r) (promisc_enabled r) (ifs r) (interfaces r) (rtable r) (rtable_inptr r) (rdp_tx r) (rdp_rx r) (rdp_opts r) (rdp_incr r) (hmac_key r) (bif_a r) (bif_b r) (kiss r) (can r) (eth r) (arp_array r) (arp_used r) (arp_list r) (eth_packet_id r) (i2c r) (udp r) (tun r) (dbg r) (tick r) (waits r) (wire r).
Definition set_qfifo (v : queue (option nat * option nat)) (r : node) : node :=
  mkNode (conf r) (pool r) (csp_buffers r) v (arr_conn r) (conn_last_given r) (ports r) (socks r) (dedup_array r) (dedup_timestamp r) (dedup_in r) (promisc_queue r) (promisc_enabled r) (ifs r) (interfaces r) (rtable r) (rtable_inptr r) (rdp_tx r) (rdp_rx r) (rdp_opts r) (rdp_incr r) (hmac_key r) (bif_a r) (bif_b r) (kiss r) (can r) (eth r) (arp_array r) (arp_used r) (arp_list r) (eth_packet_id r) (i2c r) (udp r) (tun r) (dbg r) (tick r) (waits r) (wire r).
Definition set_arr_conn (v : list csp_conn) (r : node) : node :=
  mkNode (conf r) (pool r) (csp_buffers r) (qfifo r) v (conn_last_given r) (ports r) (socks r) (dedup_array r) (dedup_timestamp r) (dedup_in r) (promisc_queue r) (promisc_enabled r) (ifs r) (interfaces r) (rtable r) (rtable_inptr r) (rdp_tx r) (rdp_rx r) (rdp_opts r) (rdp_incr r) (hmac_key r) (bif_a r) (bif_b r) (kiss r) (can r) (eth r) (arp_array r) (arp_used r) (arp_list r) (eth_packet_id r) (i2c r) (udp r) (tun r) (dbg r) (tick r) (waits r) (wire r).
Definition set_conn_last_given (v : Z) (r : node) : node :=
  mkNode (conf r) (pool r) (csp_buffers r) (qfifo r) (arr_conn r) v (ports r) (socks r) (dedup_array r) (dedup_timestamp r) (dedup_in r) (promisc_queue r) (promisc_enabled r) (ifs r) (interfaces r) (rtable r) (rtable_inptr r) (rdp_tx r) (rdp_rx r) (rdp_opts r) (rdp_incr r) (hmac_key r) (bif_a r) (bif_b r) (kiss r) (can r) (eth r) (arp_array r) (arp_used r) (arp_list r) (eth_packet_id r) (i2c r) (udp r) (tun r) (dbg r) (tick r) (waits r) (wire r).
Definition set_ports (v : list csp_port) (r : node) : node :=
  mkNode (conf r) (pool r) (csp_buffers r) (qfifo r) (arr_conn r) (conn_last_given r) v (socks r) (dedup_array r) (dedup_timestamp r) (dedup_in r) (promisc_queue r) (promisc_enabled r) (ifs r) (interfaces r) (rtable r) (rtable_inptr r) (rdp_tx r) (rdp_rx r) (rdp_opts r) (rdp_incr r) (hmac_key r) (bif_a r) (bif_b r) (kiss r) (can r) (eth r) (arp_array r) (arp_used r) (arp_list r) (eth_packet_id r) (i2c r) (udp r) (tun r) (dbg r) (tick r) (waits r) (wire r).
Definition set_socks (v : list csp_socket) (r : node) : node :=
  mkNode (conf r) (pool r) (csp_buffers r) (qfifo r) (arr_conn r) (conn_last_given r) (ports r) v (dedup_array r) (dedup_timestamp r) (dedup_in r) (promisc_queue r) (promisc_enabled r) (ifs r) (interfaces r) (rtable r) (rtable_inptr r) (rdp_tx r) (rdp_rx r) (rdp_opts r) (rdp_incr r) (hmac_key r) (bif_a r) (bif_b r) (kiss r) (can r) (eth r) (arp_array r) (arp_used r) (arp_list r) (eth_packet_id r) (i2c r) (udp r) (tun r) (dbg r) (tick r) (waits r) (wire r).
Definition set_dedup_array (v : list Z) (r : node) : node :=
  mkNode (conf r) (pool r) (csp_buffers r) (qfifo r) (arr_conn r) (conn_last_given r) (ports r) (socks r) v (dedup_timestamp r) (dedup_in r) (promisc_queue r) (promisc_enabled r) (ifs r) (interfaces r) (rtable r) (rtable_inptr r) (rdp_tx r) (rdp_rx r) (rdp_opts r) (rdp_incr r) (hmac_key r) (bif_a r) (bif_b r) (kiss r) (can r) (eth r) (arp_array r) (arp_used r) (arp_list r) (eth_packet_id r) (i2c r) (udp r) (tun r) (dbg r) (tick r) (waits r) (wire r).
Definition set_dedup_timestamp (v : list Z) (r : node) : node :=
  mkNode (conf r) (pool r) (csp_buffers r) (qfifo r) (arr_conn r) (conn_last_given r) (ports r) (socks r) (dedup_array r) v (dedup_in r) (promisc_queue r) (promisc_enabled r) (ifs r) (interfaces r) (rtable r) (rtable_inptr r) (rdp_tx r) (rdp_rx r) (rdp_opts r) (rdp_incr r) (hmac_key r) (bif_a r) (bif_b r) (kiss r) (can r) (eth r) (arp_array r) (arp_used r) (arp_list r) (eth_packet_id r) (i2c r) (udp r) (tun r) (dbg r) (tick r) (waits r) (wire r).
Definition set_dedup_in (v : Z) (r : node) : node :=
  mkNode (conf r) (pool r) (csp_buffers r) (qfifo r) (arr_conn r) (conn_last_given r) (ports r) (socks r) (dedup_array r) (dedup_timestamp r) v (promisc_queue r) (promisc_enabled r) (ifs r) (interfaces r) (rtable r) (rtable_inptr r) (rdp_tx r) (rdp_rx r) (rdp_opts r) (rdp_incr r) (hmac_key r) (bif_a r) (bif_b r) (kiss r) (can r) (eth r) (arp_array r) (arp_used r) (arp_list r) (eth_packet_id r) (i2c r) (udp r) (tun r) (dbg r) (tick r) (waits r) (wire r).
Definition set_promisc_queue (v : option (queue nat)) (r : node) : node :=
  mkNode (conf r) (pool r) (csp_buffers r) (qfifo r) (arr_conn r) (conn_last_given r) (ports r) (socks r) (dedup_array r) (dedup_timestamp r) (dedup_in r) v (promisc_enabled r) (ifs r) (interfaces r) (rtable r) (rtable_inptr r) (rdp_tx r) (rdp_rx r) (rdp_opts r) (rdp_incr r) (hmac_key r) (bif_a r) (bif_b r) (kiss r) (can r) (eth r) (arp_array r) (arp_used r) (arp_list r) (eth_packet_id r) (i2c r) (udp r) (tun r) (dbg r) (tick r) (waits r) (wire r).
Definition set_promisc_enabled (v : Z) (r : node) : node :=
  mkNode (conf r) (pool r) (csp_buffers r) (qfifo r) (arr_conn r) (conn_last_given r) (ports r) (socks r) (dedup_array r) (dedup_timestamp r) (dedup_in r) (promisc_queue r) v (ifs r) (interfaces r) (rtable r) (rtable_inptr r) (rdp_tx r) (rdp_rx r) (rdp_opts r) (rdp_incr r) (hmac_key r) (bif_a r) (bif_b r) (kiss r) (can r) (eth r) (arp_array r) (arp_used r) (arp_list r) (eth_packet_id r) (i2c r) (udp r) (tun r) (dbg r) (tick r) (waits r) (wire r).
Definition set_ifs (v : list csp_iface) (r : node) : node :=
  mkNode (conf r) (pool r) (csp_buffers r) (qfifo r) (arr_conn r) (conn_last_given r) (ports r) (socks r) (dedup_array r) (dedup_timestamp r) (dedup_in r) (promisc_queue r) (promisc_enabled r) v (interfaces r) (rtable r) (rtable_inptr r) (rdp_tx r) (rdp_rx r) (rdp_opts r) (rdp_incr r) (hmac_key r) (bif_a r) (bif_b r) (kiss r) (can r) (eth r) (arp_array r) (arp_used r) (arp_list r) (eth_packet_id r) (i2c r) (udp r) (tun r) (dbg r) (tick r) (waits r) (wire r).
Definition set_interfaces (v : option nat) (r : node) : node :=
  mkNode (conf r) (pool r) (csp_buffers r) (qfifo r) (arr_conn r) (conn_last_given r) (ports r) (socks r) (dedup_array r) (dedup_timestamp r) (dedup_in r) (promisc_queue r) (promisc_enabled r) (ifs r) v (rtable r) (rtable_inptr r) (rdp_tx r) (rdp_rx r) (rdp_opts r) (rdp_incr r) (hmac_key r) (bif_a r) (bif_b r) (kiss r) (can r) (eth r) (arp_array r) (arp_used r) (arp_list r) (eth_packet_id r) (i2c r) (udp r) (tun r) (dbg r) (tick r) (waits r) (wire r).
Definition set_rtable (v : list csp_route) (r : node) : node :=
  mkNode (conf r) (pool r) (csp_buffers r) (qfifo r) (arr_conn r) (conn_last_given r) (ports r) (socks r) (dedup_array r) (dedup_timestamp r) (dedup_in r) (promisc_queue r) (promisc_enabled r) (ifs r) (interfaces r) v (rtable_inptr r) (rdp_tx r) (rdp_rx r) (rdp_opts r) (rdp_incr r) (hmac_key r) (bif_a r) (bif_b r) (kiss r) (can r) (eth r) (arp_array r) (arp_used r) (arp_list r) (eth_packet_id r) (i2c r) (udp r) (tun r) (dbg r) (tick r) (waits r) (wire r).
Definition set_rtable_inptr (v : Z) (r : node) : node :=
  mkNode (conf r) (pool r) (csp_buffers r) (qfifo r) (arr_conn r) (conn_last_given r) (ports r) (socks r) (dedup_array r) (dedup_timestamp r) (dedup_in r) (promisc_queue r) (promisc_enabled r) (ifs r) (interfaces r) (rtable r) v (rdp_tx r) (rdp_rx r) (rdp_opts r) (rdp_incr r) (hmac_key r) (bif_a r) (bif_b r) (kiss r) (can r) (eth r) (arp_array r) (arp_used r) (arp_list r) (eth_packet_id r) (i2c r) (udp r) (tun r) (dbg r) (tick r) (waits r) (wire r).
Definition set_rdp_tx (v : queue nat) (r : node) : node :=
  mkNode (conf r) (pool r) (csp_buffers r) (qfifo r) (arr_conn r) (conn_last_given r) (ports r) (socks r) (dedup_array r) (dedup_timestamp r) (dedup_in r) (promisc_queue r) (promisc_enabled r) (ifs r) (interfaces r) (rtable r) (rtable_inptr r) v (rdp_rx r) (rdp_opts r) (rdp_incr r) (hmac_key r) (bif_a r) (bif_b r) (kiss r) (can r) (eth r) (arp_array r) (arp_used r) (arp_list r) (eth_packet_id r) (i2c r) (udp r) (tun r) (dbg r) (tick r) (waits r) (wire r).
Definition set_rdp_rx (v : queue nat) (r : node) : node :=
  mkNode (conf r) (pool r) (csp_buffers r) (qfifo r) (arr_conn r) (conn_last_given r) (ports r) (socks r) (dedup_array r) (dedup_timestamp r) (dedup_in r) (promisc_queue r) (promisc_enabled r) (ifs r) (interfaces r) (rtable r) (rtable_inptr r) (rdp_tx r) v (rdp_opts r) (rdp_incr r) (hmac_key r) (bif_a r) (bif_b r) (kiss r) (can r) (eth r) (arp_array r) (arp_used r) (arp_list r) (eth_packet_id r) (i2c r) (udp r) (tun r) (dbg r) (tick r) (waits r) (wire r).
Definition set_rdp_opts (v : csp_rdp_opts) (r : node) : node :=
  mkNode (conf r) (pool r) (csp_buffers r) (qfifo r) (arr_conn r) (conn_last_given r) (ports r) (socks r) (dedup_array r) (dedup_timestamp r) (dedup_in r) (promisc_queue r) (promisc_enabled r) (ifs r) (interfaces r) (rtable r) (rtable_inptr r) (rdp_tx r) (rdp_rx r) v (rdp_incr r) (hmac_key r) (bif_a r) (bif_b r) (kiss r) (can r) (eth r) (arp_array r) (arp_used r) (arp_list r) (eth_packet_id r) (i2c r) (udp r) (tun r) (dbg r) (tick r) (waits r) (wire r).
Definition set_rdp_incr (v : Z) (r : node) : node :=
  mkNode (conf r) (pool r) (csp_buffers r) (qfifo r) (arr_conn r) (conn_last_given r) (ports r) (socks r) (dedup_array r) (dedup_timestamp r) (dedup_in r) (promisc_queue r) (promisc_enabled r) (ifs r) (interfaces r) (rtable r) (rtable_inptr r) (rdp_tx r) (rdp_rx r) (rdp_opts r) v (hmac_key r) (bif_a r) (bif_b r) (kiss r) (can r) (eth r) (arp_array r) (arp_used r) (arp_list r) (eth_packet_id r) (i2c r) (udp r) (tun r) (dbg r) (tick r) (waits r) (wire r).
Definition set_hmac_key (v : list Z) (r : node) : node :=
  mkNode (conf r) (pool r) (csp_buffers r) (qfifo r) (arr_conn r) (conn_last_given r) (ports r) (socks r) (dedup_array r) (dedup_timestamp r) (dedup_in r) (promisc_queue r) (promisc_enabled r) (ifs r) (interfaces r) (rtable r) (rtable_inptr r) (rdp_tx r) (rdp_rx r) (rdp_opts r) (rdp_incr r) v (bif_a r) (bif_b r) (kiss r) (can r) (eth r) (arp_array r) (arp_used r) (arp_list r) (eth_packet_id r) (i2c r) (udp r) (tun r) (dbg r) (tick r) (waits r) (wire r).
Definition set_bif_a (v : option nat) (r : node) : node :=
  mkNode (conf r) (pool r) (csp_buffers r) (qfifo r) (arr_conn r) (conn_last_given r) (ports r) (socks r) (dedup_array r) (dedup_timestamp r) (dedup_in r) (promisc_queue r) (promisc_enabled r) (ifs r) (interfaces r) (rtable r) (rtable_inptr r) (rdp_tx r) (rdp_rx r) (rdp_opts r) (rdp_incr r) (hmac_key r) v (bif_b r) (kiss r) (can r) (eth r) (arp_array r) (arp_used r) (arp_list r) (eth_packet_id r) (i2c r) (udp r) (tun r) (dbg r) (tick r) (waits r) (wire r).
Definition set_bif_b (v : option nat) (r : node) : node :=
  mkNode (conf r) (pool r) (csp_buffers r) (qfifo r) (arr_conn r) (conn_last_given r) (ports r) (socks r) (dedup_array r) (dedup_timestamp r) (dedup_in r) (promisc_queue r) (promisc_enabled r) (ifs r) (interfaces r) (rtable r) (rtable_inptr r) (rdp_tx r) (rdp_rx r) (rdp_opts r) (rdp_incr r) (hmac_key r) (bif_a r) v (kiss r) (can r) (eth r) (arp_array r) (arp_used r) (arp_list r) (eth_packet_id r) (i2c r) (udp r) (tun r) (dbg r) (tick r) (waits r) (wire r).
Definition set_kiss (v : list (option csp_kiss)) (r : node) : node :=
  mkNode (conf r) (pool r) (csp_buffers r) (qfifo r) (arr_conn r) (conn_last_given r) (ports r) (socks r) (dedup_array r) (dedup_timestamp r) (dedup_in r) (promisc_queue r) (promisc_enabled r) (ifs r) (interfaces r) (rtable r) (rtable_inptr r) (rdp_tx r) (rdp_rx r) (rdp_opts r) (rdp_incr r) (hmac_key r) (bif_a r) (bif_b r) v (can r) (eth r) (arp_array r) (arp_used r) (arp_list r) (eth_packet_id r) (i2c r) (udp r) (tun r) (dbg r) (tick r) (waits r) (wire r).
Definition set_can (v : list (option csp_can)) (r : node) : node :=
  mkNode (conf r) (pool r) (csp_buffers r) (qfifo r) (arr_conn r) (conn_last_given r) (ports r) (socks r) (dedup_array r) (dedup_timestamp r) (dedup_in r) (promisc_queue r) (promisc_enabled r) (ifs r) (interfaces r) (rtable r) (rtable_inptr r) (rdp_tx r) (rdp_rx r) (rdp_opts r) (rdp_incr r) (hmac_key r) (bif_a r) (bif_b r) (kiss r) v (eth r) (arp_array r) (arp_used r) (arp_list r) (eth_packet_id r) (i2c r) (udp r) (tun r) (dbg r) (tick r) (waits r) (wire r).
Definition set_eth (v : list (option csp_eth)) (r : node) : node :=
  mkNode (conf r) (pool r) (csp_buffers r) (qfifo r) (arr_conn r) (conn_last_given r) (ports r) (socks r) (dedup_array r) (dedup_timestamp r) (dedup_in r) (promisc_queue r) (promisc_enabled r) (ifs r) (interfaces r) (rtable r) (rtable_inptr r) (rdp_tx r) (rdp_rx r) (rdp_opts r) (rdp_incr r) (hmac_key r) (bif_a r) (bif_b r) (kiss r) (can r) v (arp_array r) (arp_used r) (arp_list r) (eth_packet_id r) (i2c r) (udp r) (tun r) (dbg r) (tick r) (waits r) (wire r).
Definition set_arp_array (v : list arp_entry) (r : node) : node :=
  mkNode (conf r) (pool r) (csp_buffers r) (qfifo r) (arr_conn r) (conn_last_given r) (ports r) (socks r) (dedup_array r) (dedup_timestamp r) (dedup_in r) (promisc_queue r) (promisc_enabled r) (ifs r) (interfaces r) (rtable r) (rtable_inptr r) (rdp_tx r) (rdp_rx r) (rdp_opts r) (rdp_incr r) (hmac_key r) (bif_a r) (bif_b r) (kiss r) (can r) (eth r) v (arp_used r) (arp_list r) (eth_packet_id r) (i2c r) (udp r) (tun r) (dbg r) (tick r) (waits r) (wire r).
Definition set_arp_used (v : Z) (r : node) : node :=
  mkNode (conf r) (pool r) (csp_buffers r) (qfifo r) (arr_conn r) (conn_last_given r) (ports r) (socks r) (dedup_array r) (dedup_timestamp r) (dedup_in r) (promisc_queue r) (promisc_enabled r) (ifs r) (interfaces r) (rtable r) (rtable_inptr r) (rdp_tx r) (rdp_rx r) (rdp_opts r) (rdp_incr r) (hmac_key r) (bif_a r) (bif_b r) (kiss r) (can r) (eth r) (arp_array r) v (arp_list r) (eth_packet_id r) (i2c r) (udp r) (tun r) (dbg r) (tick r) (waits r) (wire r).
Definition set_arp_list (v : option nat) (r : node) : node :=
  mkNode (conf r) (pool r) (csp_buffers r) (qfifo r) (arr_conn r) (conn_last_given r) (ports r) (socks r) (dedup_array r) (dedup_timestamp r) (dedup_in r) (promisc_queue r) (promisc_enabled r) (ifs r) (interfaces r) (rtable r) (rtable_inptr r) (rdp_tx r) (rdp_rx r) (rdp_opts r) (rdp_incr r) (hmac_key r) (bif_a r) (bif_b r) (kiss r) (can r) (eth r) (arp_array r) (arp_used r) v (eth_packet_id r) (i2c r) (udp r) (tun r) (dbg r) (tick r) (waits r) (wire r).
Definition set_eth_packet_id (v : Z) (r : node) : node :=
  mkNode (conf r) (pool r) (csp_buffers r) (qfifo r) (arr_conn r) (conn_last_given r) (ports r) (socks r) (dedup_array r) (dedup_timestamp r) (dedup_in r) (promisc_queue r) (promisc_enabled r) (ifs r) (interfaces r) (rtable r) (rtable_inptr r) (rdp_tx r) (rdp_rx r) (rdp_opts r) (rdp_incr r) (hmac_key r) (bif_a r) (bif_b r) (kiss r) (can r) (eth r) (arp_array r) (arp_used r) (arp_list r) v (i2c r) (udp r) (tun r) (dbg r) (tick r) (waits r) (wire r).
Definition set_i2c (v : list (option csp_i2c)) (r : node) : node :=
  mkNode (conf r) (pool r) (csp_buffers r) (qfifo r) (arr_conn r) (conn_last_given r) (ports r) (socks r) (dedup_array r) (dedup_timestamp r) (dedup_in r) (promisc_queue r) (promisc_enabled r) (ifs r) (interfaces r) (rtable r) (rtable_inptr r) (rdp_tx r) (rdp_rx r) (rdp_opts r) (rdp_incr r) (hmac_key r) (bif_a r) (bif_b r) (kiss r) (can r) (eth r) (arp_array r) (arp_used r) (arp_list r) (eth_packet_id r) v (udp r) (tun r) (dbg r) (tick r) (waits r) (wire r).
Definition set_udp (v : list (option csp_udp)) (r : node) : node :=
  mkNode (conf r) (pool r) (csp_buffers r) (qfifo r) (arr_conn r) (conn_last_given r) (ports r) (socks r) (dedup_array r) (dedup_timestamp r) (dedup_in r) (promisc_queue r) (promisc_enabled r) (ifs r) (interfaces r) (rtable r) (rtable_inptr r) (rdp_tx r) (rdp_rx r) (rdp_opts r) (rdp_incr r) (hmac_key r) (bif_a r) (bif_b r) (kiss r) (can r) (eth r) (arp_array r) (arp_used r) (arp_list r) (eth_packet_id r) (i2c r) v (tun r) (dbg r) (tick r) (waits r) (wire r).
Definition set_tun (v : list (option csp_tun)) (r : node) : node :=
  mkNode (conf r) (pool r) (csp_buffers r) (qfifo r) (arr_conn r) (conn_last_given r) (ports r) (socks r) (dedup_array r) (dedup_timestamp r) (dedup_in r) (promisc_queue r) (promisc_enabled r) (ifs r) (interfaces r) (rtable r) (rtable_inptr r) (rdp_tx r) (rdp_rx r) (rdp_opts r) (rdp_incr r) (hmac_key r) (bif_a r) (bif_b r) (kiss r) (can r) (eth r) (arp_array r) (arp_used r) (arp_list r) (eth_packet_id r) (i2c r) (udp r) v (dbg r) (tick r) (waits r) (wire r).
Definition set_dbg (v : csp_dbg) (r : node) : node :=
  mkNode (conf r) (pool r) (csp_buffers r) (qfifo r) (arr_conn r) (conn_last_given r) (ports r) (socks r) (dedup_array r) (dedup_timestamp r) (dedup_in r) (promisc_queue r) (promisc_enabled r) (ifs r) (interfaces r) (rtable r) (rtable_inptr r) (rdp_tx r) (rdp_rx r) (rdp_opts r) (rdp_incr r) (hmac_key r) (bif_a r) (bif_b r) (kiss r) (can r) (eth r) (arp_array r) (arp_used r) (arp_list r) (eth_packet_id r) (i2c r) (udp r) (tun r) v (tick r) (waits r) (wire r).
Definition set_tick (v : nat) (r : node) : node :=
  mkNode (conf r) (pool r) (csp_buffers r) (qfifo r) (arr_conn r) (conn_last_given r) (ports r) (socks r) (dedup_array r) (dedup_timestamp r) (dedup_in r) (promisc_queue r) (promisc_enabled r) (ifs r) (interfaces r) (rtable r) (rtable_inptr r) (rdp_tx r) (rdp_rx r) (rdp_opts r) (rdp_incr r) (hmac_key r) (bif_a r) (bif_b r) (kiss r) (can r) (eth r) (arp_array r) (arp_used r) (arp_list r) (eth_packet_id r) (i2c r) (udp r) (tun r) (dbg r) v (waits r) (wire r).
Definition set_waits (v : nat) (r : node) : node :=
  mkNode (conf r) (pool r) (csp_buffers r) (qfifo r) (arr_conn r) (conn_last_given r) (ports r) (socks r) (dedup_array r) (dedup_timestamp r) (dedup_in r) (promisc_queue r) (promisc_enabled r) (ifs r) (interfaces r) (rtable r) (rtable_inptr r) (rdp_tx r) (rdp_rx r) (rdp_opts r) (rdp_incr r) (hmac_key r) (bif_a r) (bif_b r) (kiss r) (can r) (eth r) (arp_array r) (arp_used r) (arp_list r) (eth_packet_id r) (i2c r) (udp r) (tun r) (dbg r) (tick r) v (wire r).
Definition set_wire (v : list wire_event) (r : node) : node :=
  mkNode (conf r) (pool r) (csp_buffers r) (qfifo r) (arr_conn r) (conn_last_given r) (ports r) (socks r) (dedup_array r) (dedup_timestamp r) (dedup_in r) (promisc_queue r) (promisc_enabled r) (ifs r) (interfaces r) (rtable r) (rtable_inptr r) (rdp_tx r) (rdp_rx r) (rdp_opts r) (rdp_incr r) (hmac_key r) (bif_a r) (bif_b r) (kiss r) (can r) (eth r) (arp_array r) (arp_used r) (arp_list r) (eth_packet_id r) (i2c r) (udp r) (tun r) (dbg r) (tick r) (waits r) v.


(** ** Memory at power-up

    Static variables are zero or have their initialisers.  [csp_buffer_pool]
    and [arr_conn] are not initialised: [mem] and [conns] are whatever is
    there.  [csp_if_lo] comes first among the interface structs ([lo_name] is
    ["LOOP"]). *)

Definition packet_size : nat := Z.to_nat (CSP_PACKET_PADDING_BYTES + CSP_BUFFER_SIZE).

Definition blank_packet : csp_packet :=
  mkPacket 0 None 0 0 0 0 0 0 0 0 id_zero None (replicate packet_size 0).

Definition lo_name : list Z := [76; 79; 79; 80].

Definition lo_iface : csp_iface :=
  mkIface 0 0 (Some lo_name) 0 0 0 0 0 0 0 0 0 0 0 0 None.

Definition blank_conn : csp_conn :=
  mkConn CONN_CLIENT CONN_CLOSED id_zero id_zero 0 (Queue 0 []) None 0 0
    (mkRdp RDP_CLOSED 0 0 0 0 0 0 0 0 0 0 0 0 0 0 0).

Definition power_up (mem : list csp_skbf) (conns : list csp_conn) (more_ifs : list csp_iface)
    (sockets : list csp_socket) : node :=
  mkNode (mkConf 2 0 CSP_DEDUP_OFF [] [] []) mem (Queue 0 []) (Queue 0 []) conns 0
    (replicate (CSP_PORT_MAX_BIND + 2) PORT_CLOSED) sockets
    (replicate 16 0) (replicate 16 0) 0 None 0
    (lo_iface :: more_ifs) None (replicate CSP_RTABLE_SIZE route_zero) 0
    (Queue 0 []) (Queue 0 []) rdp_opts_default 0 (replicate 16 0) None None []
    [] [] (replicate ARP_MAX_ENTRIES (mkArp 0 (replicate (Z.to_nat CSP_ETH_ALEN) 0) None)) 0 None 0 [] [] []
    (mkDbg 0 0 0 0 0 0) 0 0 [].

(** A power-up state with all memory clear. *)
Definition boot : node :=
  power_up (replicate CSP_BUFFER_COUNT (mkSkbf 0 0 blank_packet)) (replicate CSP_CONN_MAX blank_conn) [] [].
