(* ===== verification/Queue.v ===== *)
(** * Queue: the ring buffer behind every queue ([src/arch/posix/pthread_queue.c])

    The ring, its blocking enqueue and dequeue, and the proof that it behaves
    as the bounded FIFO the rest of the stack is written against, in every
    sequence of calls, those that sleep included. *)

From S2P Require Import Prelude State.

Definition PTHREAD_QUEUE_OK : Z := 0.
Definition PTHREAD_QUEUE_FULL : Z := -1.
Definition PTHREAD_QUEUE_EMPTY : Z := -1.
Definition PTHREAD_QUEUE_ERROR : Z := -1.
Definition EINTR : Z := 4.

(** [pthread_queue_t]: [buffer] has [size] slots of one item each. *)
Record pthread_queue (A : Type) := mkPq {
  pq_buffer : list A;
  pq_size : nat;
  pq_items : nat;
  pq_in : nat;
  pq_out : nat
}.
Arguments mkPq {A} _ _ _ _ _.
Arguments pq_buffer {A} _.
Arguments pq_size {A} _.
Arguments pq_items {A} _.
Arguments pq_in {A} _.
Arguments pq_out {A} _.

(** [pthread_queue_create]: the results of the two [malloc]s (the second one
    is the memory of the slots) and of the initialisation of mutex and
    condition variables; [None] is NULL. *)
Definition pthread_queue_create {A} (length : nat) (struct_ok : bool) (mem : option (list A))
    (sync_ok : bool) : option (pthread_queue A) :=
  if negb struct_ok then None else
  match mem with
  | None => None
  | Some buffer => if sync_ok then Some (mkPq buffer length 0 0 0) else None
  end.

(** [get_deadline]: [now] is the [timespec] of [clock_gettime], [None] when
    that fails. *)
Definition get_deadline (now : option (Z * Z)) (timeout_ms : Z) : option (Z * Z) :=
  match now with
  | None => None
  | Some (tv_sec, tv_nsec) =>
      let sec := u32 timeout_ms / 1000 in
      let nsec := u32 (u32 (u32 timeout_ms - u32 (1000 * sec)) * 1000000) in
      let tv_sec := tv_sec + sec in
      let tv_sec := if 1000000000 <=? tv_nsec + nsec then tv_sec + 1 else tv_sec in
      Some (tv_sec, (tv_nsec + nsec) mod 1000000000)
  end.

(** The first part of enqueue and dequeue: [false] when no deadline could be
    computed. *)
Definition deadline_ok (now : option (Z * Z)) (timeout : Z) : bool :=
  (timeout =? CSP_MAX_TIMEOUT) || bool_decide (get_deadline now timeout <> None).

(** A return of the condition variable: its code, and the queue as the other
    threads left it when the mutex is held again. *)
Record wakeup (A : Type) := mkWake { wake_ret : Z; wake_queue : pthread_queue A }.
Arguments mkWake {A} _ _.
Arguments wake_ret {A} _.
Arguments wake_queue {A} _.

Definition wait_failed (ret : Z) : bool := negb (ret =? 0) && negb (ret =? EINTR).

(** [wait_slot_available], [wait_item_available]: loop over the wake-ups while
    the condition is false; [None] is a thread that still sleeps. *)
Fixpoint wait_while {A} (blocked : pthread_queue A -> bool) (timeout : Z) (q : pthread_queue A)
    (ws : list (wakeup A)) : option (Z * pthread_queue A) :=
  if negb (blocked q) then Some (PTHREAD_QUEUE_OK, q) else
  match ws with
  | [] => None
  | w :: ws' =>
      if wait_failed (wake_ret w) then Some (timeout, wake_queue w)
      else wait_while blocked timeout (wake_queue w) ws'
  end.

Definition pq_full {A} (q : pthread_queue A) : bool := Nat.eqb (pq_items q) (pq_size q).
Definition pq_none {A} (q : pthread_queue A) : bool := Nat.eqb (pq_items q) 0.

Definition wait_slot_available {A} := @wait_while A pq_full PTHREAD_QUEUE_FULL.
Definition wait_item_available {A} := @wait_while A pq_none PTHREAD_QUEUE_EMPTY.

(** The critical sections after the wait. *)
Definition pq_push {A} (x : A) (q : pthread_queue A) : pthread_queue A :=
  mkPq (<[pq_in q := x]> (pq_buffer q)) (pq_size q) (S (pq_items q))
    ((pq_in q + 1) mod pq_size q)%nat (pq_out q).

Definition pq_pop {A} (q : pthread_queue A) : option (A * pthread_queue A) :=
  match pq_buffer q !! pq_out q with
  | Some x => Some (x, mkPq (pq_buffer q) (pq_size q) (pq_items q - 1) (pq_in q)
                         ((pq_out q + 1) mod pq_size q)%nat)
  | None => None
  end.

(** The deadline only decides when a wait ends with [ETIMEDOUT], which is one
    of the wake-ups [ws]. *)
Definition pthread_queue_enqueue {A} (q : pthread_queue A) (x : A) (timeout : Z)
    (now : option (Z * Z)) (ws : list (wakeup A)) : option (Z * pthread_queue A) :=
  if negb (deadline_ok now timeout) then Some (PTHREAD_QUEUE_ERROR, q) else
  match wait_slot_available q ws with
  | None => None
  | Some (ret, q') =>
      if ret =? PTHREAD_QUEUE_OK then Some (ret, pq_push x q') else Some (ret, q')
  end.

(** The item is [None] when nothing was copied out; the outer [None] is a
    sleeping thread or a read outside the buffer.  A NULL queue is an error. *)
Definition pthread_queue_dequeue {A} (q : option (pthread_queue A)) (timeout : Z)
    (now : option (Z * Z)) (ws : list (wakeup A))
    : option (Z * option A * option (pthread_queue A)) :=
  match q with
  | None => Some (PTHREAD_QUEUE_ERROR, None, None)
  | Some q =>
      if negb (deadline_ok now timeout) then Some (PTHREAD_QUEUE_ERROR, None, Some q) else
      match wait_item_available q ws with
      | None => None
      | Some (ret, q') =>
          if ret =? PTHREAD_QUEUE_OK then
            match pq_pop q' with
            | Some (x, q'') => Some (ret, Some x, Some q'')
            | None => None
            end
          else Some (ret, None, Some q')
      end
  end.

Definition pthread_queue_items {A} (q : pthread_queue A) : nat := pq_items q.
Definition pthread_queue_free {A} (q : pthread_queue A) : nat := (pq_size q - pq_items q)%nat.
Definition pthread_queue_empty {A} (q : pthread_queue A) : pthread_queue A :=
  mkPq (pq_buffer q) (pq_size q) 0 0 0.

(** ** Invariant and abstraction *)

Record pq_inv {A} (q : pthread_queue A) : Prop := {
  inv_len : length (pq_buffer q) = pq_size q;
  inv_pos : (0 < pq_size q)%nat;
  inv_items : (pq_items q <= pq_size q)%nat;
  inv_out : (pq_out q < pq_size q)%nat;
  inv_in : pq_in q = ((pq_out q + pq_items q) mod pq_size q)%nat
}.

(** The queued items, oldest first: [items] slots from [out], wrapping. *)
Definition pq_abs {A} (q : pthread_queue A) : list A :=
  take (pq_items q) (drop (pq_out q) (pq_buffer q) ++ take (pq_out q) (pq_buffer q)).

(** ** The interface: a bounded FIFO

    What a client may assume of a queue; [queue] of [State.v] and the ring are
    both instances. *)
Class BoundedFifo (Q : Type -> Type) := {
  fifo_ok : forall {A}, Q A -> Prop;
  fifo_cap : forall {A}, Q A -> nat;
  fifo_list : forall {A}, Q A -> list A;
  fifo_put : forall {A}, A -> Q A -> option (Q A);
  fifo_get : forall {A}, Q A -> option (A * Q A);
  fifo_size : forall {A}, Q A -> nat;
  fifo_free : forall {A}, Q A -> nat;
  fifo_empty : forall {A}, Q A -> Q A;
  fifo_put_full : forall {A} (x : A) q, fifo_ok q ->
    (fifo_put x q = None <-> length (fifo_list q) = fifo_cap q);
  fifo_put_list : forall {A} (x : A) q q', fifo_ok q -> fifo_put x q = Some q' ->
    fifo_ok q' /\ fifo_list q' = fifo_list q ++ [x] /\ fifo_cap q' = fifo_cap q;
  fifo_get_empty : forall {A} (q : Q A), fifo_ok q -> (fifo_get q = None <-> fifo_list q = []);
  fifo_get_list : forall {A} (q : Q A) x q', fifo_ok q -> fifo_get q = Some (x, q') ->
    fifo_ok q' /\ fifo_list q = x :: fifo_list q' /\ fifo_cap q' = fifo_cap q;
  fifo_size_list : forall {A} (q : Q A), fifo_ok q -> fifo_size q = length (fifo_list q);
  fifo_free_list : forall {A} (q : Q A), fifo_ok q -> fifo_free q = (fifo_cap q - length (fifo_list q))%nat;
  fifo_empty_list : forall {A} (q : Q A), fifo_ok q ->
    fifo_ok (fifo_empty q) /\ fifo_list (fifo_empty q) = [] /\ fifo_cap (fifo_empty q) = fifo_cap q
}.

(** [csp_queue_enqueue] and [csp_queue_dequeue] with a zero timeout, when the
    clock works and a wait ends at once with [ETIMEDOUT]. *)
Definition ETIMEDOUT : Z := 110.

Definition pq_put {A} (x : A) (q : pthread_queue A) : option (pthread_queue A) :=
  match pthread_queue_enqueue q x 0 (Some (0, 0)) [mkWake ETIMEDOUT q] with
  | Some (ret, q') => if ret =? PTHREAD_QUEUE_OK then Some q' else None
  | None => None
  end.
Definition pq_get {A} (q : pthread_queue A) : option (A * pthread_queue A) :=
  match pthread_queue_dequeue (Some q) 0 (Some (0, 0)) [mkWake ETIMEDOUT q] with
  | Some (_, Some x, Some q') => Some (x, q')
  | _ => None
  end.

(** ** Lemmas *)

Lemma pq_create_inv {A} n (mem : list A) :
  length mem = n -> (0 < n)%nat -> pq_inv (mkPq mem n 0 0 0).
Proof. intros <- Hn. constructor; simpl; try lia. by rewrite Nat.Div0.mod_0_l. Qed.

Lemma pq_abs_length {A} (q : pthread_queue A) : pq_inv q -> length (pq_abs q) = pq_items q.
Proof.
  intros [Hl Hp Hi Ho _]. unfold pq_abs.
  rewrite length_take, length_app, length_drop, length_take. lia.
Qed.

(** Slot [i] of the abstraction is slot [(out + i) mod size] of the buffer. *)
Lemma pq_abs_lookup {A} (q : pthread_queue A) i : pq_inv q -> (i < pq_items q)%nat ->
  pq_abs q !! i = pq_buffer q !! ((pq_out q + i) mod pq_size q)%nat.
Proof.
  intros [Hl Hp Hit Ho _] Hi. unfold pq_abs. rewrite lookup_take_lt by done.
  destruct (decide (i < pq_size q - pq_out q)%nat).
  - rewrite lookup_app_l by (rewrite length_drop; lia).
    rewrite lookup_drop. f_equal. rewrite Nat.mod_small; lia.
  - rewrite lookup_app_r by (rewrite length_drop; lia). rewrite length_drop, Hl.
    rewrite lookup_take_lt by lia. f_equal.
    replace (pq_out q + i)%nat with ((pq_out q + i - pq_size q) + 1 * pq_size q)%nat by lia.
    rewrite Nat.Div0.mod_add, Nat.mod_small; lia.
Qed.

(** Two rings with the same contents, slot by slot. *)
Lemma pq_abs_eq {A} (q : pthread_queue A) l : pq_inv q -> length l = pq_items q ->
  (forall i, (i < pq_items q)%nat -> l !! i = pq_buffer q !! ((pq_out q + i) mod pq_size q)%nat) ->
  pq_abs q = l.
Proof.
  intros Hq Hl H. apply list_eq. intros i.
  destruct (decide (i < pq_items q)%nat).
  - rewrite pq_abs_lookup by done. symmetry. auto.
  - rewrite !lookup_ge_None_2; [done|lia|]. rewrite pq_abs_length by done. lia.
Qed.

Lemma mod_wrap size x : (x < 2 * size)%nat ->
  (x mod size)%nat = (if decide (x < size) then x else x - size)%nat.
Proof.
  intros Hx. case_decide; [by apply Nat.mod_small|].
  replace x with ((x - size) + 1 * size)%nat at 1 by lia.
  rewrite Nat.Div0.mod_add. apply Nat.mod_small. lia.
Qed.

Lemma mod_neq size out i j : (i < j < size)%nat -> (out < size)%nat ->
  ((out + i) mod size)%nat <> ((out + j) mod size)%nat.
Proof. intros Hij Ho. rewrite !mod_wrap by lia. repeat case_decide; lia. Qed.

(** The critical section of [pthread_queue_enqueue] appends. *)
Lemma pq_push_spec {A} (x : A) q : pq_inv q -> (pq_items q < pq_size q)%nat ->
  pq_inv (pq_push x q) /\ pq_abs (pq_push x q) = pq_abs q ++ [x].
Proof.
  intros Hq Hlt. assert (Hq' : pq_inv (pq_push x q)).
  { destruct Hq as [Hl Hp Hi Ho Hin]. constructor; simpl; try lia.
    - by rewrite length_insert.
    - rewrite Hin, Nat.Div0.add_mod_idemp_l. f_equal. lia. }
  split; [done|]. apply pq_abs_eq; [done| |].
  - rewrite length_app, pq_abs_length by done. simpl. lia.
  - destruct Hq as [Hl Hp Hit Ho Hin]. intros i Hi. simpl in *. rewrite Hin.
    destruct (decide (i = pq_items q)) as [->|].
    + rewrite lookup_app_r by (rewrite pq_abs_length; [lia|by constructor]).
      rewrite pq_abs_length by (by constructor). rewrite Nat.sub_diag. simpl.
      rewrite list_lookup_insert_eq; [done|]. rewrite Hl. apply Nat.mod_upper_bound. lia.
    + rewrite lookup_app_l by (rewrite pq_abs_length; [lia|by constructor]).
      rewrite pq_abs_lookup; [|by constructor|lia].
      rewrite list_lookup_insert_ne; [done|]. intros E. symmetry in E. revert E.
      apply mod_neq; lia.
Qed.

(** The critical section of [pthread_queue_dequeue] takes the oldest. *)
Lemma pq_pop_spec {A} (q : pthread_queue A) : pq_inv q -> (0 < pq_items q)%nat ->
  exists x q', pq_pop q = Some (x, q') /\ pq_inv q' /\ pq_abs q = x :: pq_abs q' /\ pq_size q' = pq_size q.
Proof.
  intros Hq Hpos. pose proof Hq as [Hl Hp Hi Ho Hin]. unfold pq_pop.
  destruct (lookup_lt_is_Some_2 (pq_buffer q) (pq_out q)) as [x Hx]; [lia|]. rewrite Hx.
  eexists x, _. split; [done|].
  assert (Hq' : pq_inv (mkPq (pq_buffer q) (pq_size q) (pq_items q - 1) (pq_in q) ((pq_out q + 1) mod pq_size q)%nat)).
  { constructor; simpl; try lia.
    - apply Nat.mod_upper_bound. lia.
    - rewrite Hin, Nat.Div0.add_mod_idemp_l. f_equal. lia. }
  split; [done|]. split; [|done]. apply pq_abs_eq; [done| |].
  - simpl. rewrite pq_abs_length by done. simpl. lia.
  - intros [|i] Hlt; simpl.
    + rewrite Nat.add_0_r, Nat.mod_small by lia. done.
    + rewrite pq_abs_lookup by (done || simpl; lia). simpl.
      rewrite Nat.Div0.add_mod_idemp_l. f_equal. f_equal. lia.
Qed.

Lemma pq_put_eq {A} (x : A) q : pq_put x q = if pq_full q then None else Some (pq_push x q).
Proof.
  unfold pq_put, pthread_queue_enqueue, wait_slot_available. simpl. by destruct (pq_full q).
Qed.

Lemma pq_get_eq {A} (q : pthread_queue A) : pq_get q = if pq_none q then None else pq_pop q.
Proof.
  unfold pq_get, pthread_queue_dequeue, wait_item_available. simpl.
  destruct (pq_none q); simpl; [done|]. by destruct (pq_pop q) as [[]|].
Qed.

#[export] Instance spec_fifo : BoundedFifo queue.
Proof.
  refine {| fifo_ok := fun A q => (q_size q <= q_cap q)%nat; fifo_cap := @q_cap;
            fifo_list := @q_items; fifo_put := @q_enqueue; fifo_get := @q_dequeue;
            fifo_size := @q_size; fifo_free := @q_free; fifo_empty := @q_empty |}.
  - intros A x q Hq. unfold q_enqueue, q_size in *. case_decide; split; intros; try done; lia.
  - unfold q_enqueue, q_size. intros A x q q' Hq He. case_decide; simplify_eq. simpl.
    rewrite length_app. simpl. split; [lia|done].
  - intros A q Hq. unfold q_dequeue. by destruct (q_items q).
  - unfold q_dequeue, q_size. intros A q x q' Hq Hd. destruct (q_items q) eqn:E; simplify_eq.
    simpl in *. split; [lia|done].
  - done.
  - done.
  - intros A q Hq. unfold q_size. simpl. split; [lia|done].
Defined.

#[export] Instance ring_fifo : BoundedFifo pthread_queue.
Proof.
  refine {| fifo_ok := @pq_inv; fifo_cap := @pq_size; fifo_list := @pq_abs;
            fifo_put := @pq_put; fifo_get := @pq_get;
            fifo_size := @pthread_queue_items; fifo_free := @pthread_queue_free; fifo_empty := @pthread_queue_empty |}.
  - intros A x q Hq. rewrite pq_put_eq, pq_abs_length by done. unfold pq_full.
    destruct (Nat.eqb_spec (pq_items q) (pq_size q)); done.
  - intros A x q q' Hq. rewrite pq_put_eq. unfold pq_full.
    destruct (Nat.eqb_spec (pq_items q) (pq_size q)); [done|]. intros [= <-].
    destruct (pq_push_spec x q Hq) as [? ?]; [destruct Hq; lia|done].
  - intros A q Hq. rewrite pq_get_eq, <- length_zero_iff_nil, pq_abs_length by done. unfold pq_none.
    destruct (Nat.eqb_spec (pq_items q) 0); [done|].
    destruct (pq_pop_spec q Hq) as (x & q' & -> & _); [lia|done].
  - intros A q x q' Hq. rewrite pq_get_eq. unfold pq_none.
    destruct (Nat.eqb_spec (pq_items q) 0); [done|].
    destruct (pq_pop_spec q Hq) as (y & q'' & -> & H1 & H2 & H3); [lia|]. intros [= -> ->]. done.
  - intros A q Hq. by rewrite pq_abs_length.
  - intros A q Hq. by rewrite pq_abs_length.
  - intros A q [Hl Hp _ _ _]. split; [|done]. constructor; simpl; try lia. by rewrite Nat.Div0.mod_0_l.
Defined.

(** ** Simulation of one bounded FIFO by another *)

Inductive fifo_op (A : Type) := Put (x : A) | Get | Size | Free | Empty.
Arguments Put {A} _.
Arguments Get {A}.
Arguments Size {A}.
Arguments Free {A}.
Arguments Empty {A}.

(** What a caller sees of an operation: whether [Put] had room, what [Get]
    returned, a number, nothing; or that the call still sleeps. *)
Inductive fifo_obs (A : Type) := PutDone (ok : bool) | Got (x : option A) | Count (n : nat) | Emptied | Asleep.
Arguments PutDone {A} _.
Arguments Got {A} _.
Arguments Count {A} _.
Arguments Emptied {A}.
Arguments Asleep {A}.

Definition fifo_step {Q} `{BoundedFifo Q} {A} (o : fifo_op A) (q : Q A) : fifo_obs A * Q A :=
  match o with
  | Put x => match fifo_put x q with Some q' => (PutDone true, q') | None => (PutDone false, q) end
  | Get => match fifo_get q with Some (x, q') => (Got (Some x), q') | None => (Got None, q) end
  | Size => (Count (fifo_size q), q)
  | Free => (Count (fifo_free q), q)
  | Empty => (Emptied, fifo_empty q)
  end.

(** The queue after the operations of other threads. *)
Definition fifo_after {Q} `{BoundedFifo Q} {A} (os : list (fifo_op A)) (q : Q A) : Q A :=
  foldl (fun q o => snd (fifo_step o q)) q os.

Section Simulation.
Context {Q1 Q2 : Type -> Type} `{F1 : BoundedFifo Q1} `{F2 : BoundedFifo Q2} {A : Type}.

(** Related states hold the same items and have the same capacity. *)
Definition fifo_sim (q1 : Q1 A) (q2 : Q2 A) : Prop :=
  fifo_ok q1 /\ fifo_ok q2 /\ fifo_list q1 = fifo_list q2 /\ fifo_cap q1 = fifo_cap q2.

Lemma fifo_step_sim o q1 q2 : fifo_sim q1 q2 ->
  fst (fifo_step o q1) = fst (fifo_step o q2) /\ fifo_sim (snd (fifo_step o q1)) (snd (fifo_step o q2)).
Proof.
  intros (H1 & H2 & Hl & Hc). destruct o as [x| | | |]; simpl.
  3: { split; [|done]. by rewrite !fifo_size_list, Hl. }
  3: { split; [|done]. by rewrite !fifo_free_list, Hl, Hc. }
  3: { split; [done|]. destruct (fifo_empty_list q1 H1) as (? & ? & ?), (fifo_empty_list q2 H2) as (? & ? & ?). split_and!; congruence. }
  - pose proof (fifo_put_full x q1 H1) as E1. pose proof (fifo_put_full x q2 H2) as E2.
    rewrite Hl, Hc in E1.
    destruct (fifo_put x q1) eqn:P1, (fifo_put x q2) eqn:P2; simpl.
    + apply fifo_put_list in P1, P2; [|done..]. unfold fifo_sim. destruct P1 as (? & ? & ?), P2 as (? & ? & ?). split_and!; congruence.
    + exfalso. destruct E1 as [_ E1]. destruct E2 as [E2 _]. discriminate (E1 (E2 eq_refl)).
    + exfalso. destruct E1 as [E1 _]. destruct E2 as [_ E2]. discriminate (E2 (E1 eq_refl)).
    + done.
  - pose proof (fifo_get_empty q1 H1) as E1. pose proof (fifo_get_empty q2 H2) as E2.
    rewrite Hl in E1.
    destruct (fifo_get q1) as [[x1 q1']|] eqn:P1, (fifo_get q2) as [[x2 q2']|] eqn:P2; simpl.
    + apply fifo_get_list in P1, P2; [|done..]. unfold fifo_sim. destruct P1 as (? & ? & ?), P2 as (? & ? & ?). split_and!; congruence.
    + exfalso. destruct E1 as [_ E1]. destruct E2 as [E2 _]. discriminate (E1 (E2 eq_refl)).
    + exfalso. destruct E1 as [E1 _]. destruct E2 as [_ E2]. discriminate (E2 (E1 eq_refl)).
    + done.
Qed.

Lemma fifo_after_sim os q1 q2 : fifo_sim q1 q2 -> fifo_sim (fifo_after os q1) (fifo_after os q2).
Proof.
  revert q1 q2. induction os as [|o os IH]; intros q1 q2 H; [done|]. apply IH. by apply fifo_step_sim.
Qed.

End Simulation.

(** ** Calls that block

    While a call sleeps, other threads work on the queue; a wake-up is what they
    did and the code the condition variable returns.  (A call of another thread
    that slept itself appears as the operation it did when it woke.) *)
Definition nap (A : Type) : Type := list (fifo_op A) * Z.

Inductive fifo_call (A : Type) :=
| Now (o : fifo_op A)
| PutWait (x : A) (timeout : Z) (now : option (Z * Z)) (sleeps : list (nap A))
| GetWait (timeout : Z) (now : option (Z * Z)) (sleeps : list (nap A)).
Arguments Now {A} _.
Arguments PutWait {A} _ _ _ _.
Arguments GetWait {A} _ _ _.

(** *** On the ring: the calls of [pthread_queue.c] *)
Fixpoint wakeups {A} (sleeps : list (nap A)) (q : pthread_queue A) : list (wakeup A) :=
  match sleeps with
  | [] => []
  | (os, ret) :: sleeps' => let q' := fifo_after os q in mkWake ret q' :: wakeups sleeps' q'
  end.

Definition slept {Q} `{BoundedFifo Q} {A} (sleeps : list (nap A)) (q : Q A) : Q A :=
  foldl (fun q sl => fifo_after (fst sl) q) q sleeps.

Definition ring_call {A} (c : fifo_call A) (q : pthread_queue A) : fifo_obs A * pthread_queue A :=
  match c with
  | Now o => fifo_step o q
  | PutWait x timeout now sleeps =>
      match pthread_queue_enqueue q x timeout now (wakeups sleeps q) with
      | Some (ret, q') => (PutDone (ret =? PTHREAD_QUEUE_OK), q')
      | None => (Asleep, slept sleeps q)
      end
  | GetWait timeout now sleeps =>
      match pthread_queue_dequeue (Some q) timeout now (wakeups sleeps q) with
      | Some (ret, item, Some q') => (Got item, q')
      | _ => (Asleep, slept sleeps q)
      end
  end.

(** *** On the bounded FIFO: try, sleep and try again *)
Fixpoint fifo_wait {A} (o : fifo_op A) (blocked : queue A -> bool) (failed : fifo_obs A) (sleeps : list (nap A)) (q : queue A)
    : fifo_obs A * queue A :=
  if negb (blocked q) then fifo_step o q else
  match sleeps with
  | [] => (Asleep, q)
  | (os, ret) :: sleeps' =>
      let q' := fifo_after os q in
      if wait_failed ret then (failed, q') else fifo_wait o blocked failed sleeps' q'
  end.

Definition fifo_full {A} (q : queue A) : bool := Nat.eqb (q_size q) (q_cap q).
Definition fifo_none {A} (q : queue A) : bool := Nat.eqb (q_size q) 0.

Definition spec_call {A} (c : fifo_call A) (q : queue A) : fifo_obs A * queue A :=
  match c with
  | Now o => fifo_step o q
  | PutWait x timeout now sleeps =>
      if deadline_ok now timeout then fifo_wait (Put x) fifo_full (PutDone false) sleeps q else (PutDone false, q)
  | GetWait timeout now sleeps =>
      if deadline_ok now timeout then fifo_wait Get fifo_none (Got None) sleeps q else (Got None, q)
  end.

(** Calls one after the other: what the callers see. *)
Fixpoint calls_run {S C O} (step : C -> S -> O * S) (cs : list C) (q : S) : list O :=
  match cs with
  | [] => []
  | c :: cs' => let '(r, q') := step c q in r :: calls_run step cs' q'
  end.

Definition ring_sim {A} (q1 : pthread_queue A) (q2 : queue A) : Prop := fifo_sim q1 q2.

Lemma ring_sim_size {A} (q1 : pthread_queue A) q2 : ring_sim q1 q2 -> pq_items q1 = q_size q2 /\ pq_size q1 = q_cap q2.
Proof. intros (H1 & H2 & Hl & Hc). split; [|done]. rewrite <- (pq_abs_length q1) by done. unfold q_size. simpl in Hl. by rewrite Hl. Qed.

Lemma ring_put_sim {A} (x : A) q1 q2 : ring_sim q1 q2 -> fifo_full q2 = false ->
  exists q2', fifo_step (Put x) q2 = (PutDone true, q2') /\ ring_sim (pq_push x q1) q2'.
Proof.
  intros Hs Hf. destruct (ring_sim_size _ _ Hs) as [Ei Es]. destruct (fifo_step_sim (Put x) q1 q2 Hs) as [Ho Hn].
  destruct (fifo_step (Put x) q2) as [o q2']. exists q2'.
  unfold fifo_full in Hf. rewrite <- Ei, <- Es in Hf. cbn [fifo_step fifo_put ring_fifo] in Ho, Hn.
  rewrite pq_put_eq in Ho, Hn. unfold pq_full in Ho, Hn. rewrite Hf in Ho, Hn. cbn [fst snd] in *. by rewrite <- Ho.
Qed.

Lemma ring_get_sim {A} (q1 : pthread_queue A) q2 : ring_sim q1 q2 -> fifo_none q2 = false ->
  exists x q' q2', pq_pop q1 = Some (x, q') /\ fifo_step Get q2 = (Got (Some x), q2') /\ ring_sim q' q2'.
Proof.
  intros Hs Hf. destruct (ring_sim_size _ _ Hs) as [Ei Es]. destruct (fifo_step_sim Get q1 q2 Hs) as [Ho Hn].
  destruct (fifo_step Get q2) as [o q2'].
  unfold fifo_none in Hf. rewrite <- Ei in Hf. apply Nat.eqb_neq in Hf as Hne.
  destruct (pq_pop_spec q1 (proj1 Hs)) as (x & q' & Hp & _); [lia|].
  cbn [fifo_step fifo_get ring_fifo] in Ho, Hn. rewrite pq_get_eq in Ho, Hn. unfold pq_none in Ho, Hn. rewrite Hf, Hp in Ho, Hn.
  exists x, q', q2'. cbn [fst snd] in *. by rewrite <- Ho.
Qed.

Lemma put_wait_sim {A} (x : A) sleeps : forall q1 q2, ring_sim q1 q2 ->
  match wait_slot_available q1 (wakeups sleeps q1) with
  | None => fifo_wait (Put x) fifo_full (PutDone false) sleeps q2 = (Asleep, slept sleeps q2)
  | Some (ret, q1') => exists q2', fifo_wait (Put x) fifo_full (PutDone false) sleeps q2 = (PutDone (ret =? PTHREAD_QUEUE_OK), q2') /\
      ring_sim (if ret =? PTHREAD_QUEUE_OK then pq_push x q1' else q1') q2'
  end.
Proof.
  unfold wait_slot_available. induction sleeps as [|[os ret] sleeps IH]; intros q1 q2 Hs;
    destruct (ring_sim_size _ _ Hs) as [Ei Es]; cbn [wakeups wait_while fifo_wait];
    assert (Ef : pq_full q1 = fifo_full q2) by (unfold pq_full, fifo_full; congruence); rewrite Ef;
    (destruct (fifo_full q2) eqn:F; cbn [negb]; [|destruct (ring_put_sim x q1 q2 Hs F) as (q2' & Ho & Hn); by exists q2']).
  - done.
  - cbn [wake_ret wake_queue]. destruct (wait_failed ret); [eexists; split; [reflexivity|by apply fifo_after_sim]|].
    apply (IH (fifo_after os q1) (fifo_after os q2)). by apply fifo_after_sim.
Qed.

Lemma get_wait_sim {A} (sleeps : list (nap A)) : forall q1 q2, ring_sim q1 q2 ->
  match wait_item_available q1 (wakeups sleeps q1) with
  | None => fifo_wait Get fifo_none (Got None) sleeps q2 = (Asleep, slept sleeps q2)
  | Some (ret, q1') => exists item q1'' q2', fifo_wait Get fifo_none (Got None) sleeps q2 = (Got item, q2') /\ ring_sim q1'' q2' /\
      if ret =? PTHREAD_QUEUE_OK then exists x, item = Some x /\ pq_pop q1' = Some (x, q1'') else item = None /\ q1'' = q1'
  end.
Proof.
  unfold wait_item_available. induction sleeps as [|[os ret] sleeps IH]; intros q1 q2 Hs;
    destruct (ring_sim_size _ _ Hs) as [Ei Es]; cbn [wakeups wait_while fifo_wait];
    assert (Ef : pq_none q1 = fifo_none q2) by (unfold pq_none, fifo_none; congruence); rewrite Ef;
    (destruct (fifo_none q2) eqn:F; cbn [negb]; [|destruct (ring_get_sim q1 q2 Hs F) as (x & q' & q2' & Hp & Ho & Hn);
      exists (Some x), q', q2'; split; [done|split; [exact Hn|by exists x]]]).
  - done.
  - cbn [wake_ret wake_queue]. destruct (wait_failed ret); [eexists None, _, _; split; [reflexivity|split; [by apply fifo_after_sim|done]]|].
    apply (IH (fifo_after os q1) (fifo_after os q2)). by apply fifo_after_sim.
Qed.

Lemma slept_sim {A} (sleeps : list (nap A)) : forall q1 q2, ring_sim q1 q2 -> ring_sim (slept sleeps q1) (slept sleeps q2).
Proof. induction sleeps as [|[os ret] sleeps IH]; intros q1 q2 Hs; [done|]. apply IH. by apply fifo_after_sim. Qed.

Lemma call_sim {A} (c : fifo_call A) q1 q2 : ring_sim q1 q2 ->
  fst (ring_call c q1) = fst (spec_call c q2) /\ ring_sim (snd (ring_call c q1)) (snd (spec_call c q2)).
Proof.
  intros Hs. destruct c as [o|x timeout now sleeps|timeout now sleeps]; cbn [ring_call spec_call].
  - by apply fifo_step_sim.
  - unfold pthread_queue_enqueue. destruct (deadline_ok now timeout); cbn [negb]; [|done].
    pose proof (put_wait_sim x sleeps q1 q2 Hs) as Hw. destruct (wait_slot_available _ _) as [[ret q1']|].
    + destruct Hw as (q2' & -> & Hn). by destruct (ret =? PTHREAD_QUEUE_OK) eqn:E; cbn [fst snd]; rewrite ?E.
    + rewrite Hw. split; [done|]. by apply slept_sim.
  - unfold pthread_queue_dequeue. destruct (deadline_ok now timeout); cbn [negb]; [|done].
    pose proof (get_wait_sim sleeps q1 q2 Hs) as Hw. destruct (wait_item_available _ _) as [[ret q1']|].
    + destruct Hw as (item & q1'' & q2' & -> & Hn & Hi). destruct (ret =? PTHREAD_QUEUE_OK).
      * by destruct Hi as (x & -> & ->).
      * by destruct Hi as [-> ->].
    + rewrite Hw. split; [done|]. by apply slept_sim.
Qed.

Lemma calls_run_sim {A} (cs : list (fifo_call A)) : forall q1 q2, ring_sim q1 q2 -> calls_run ring_call cs q1 = calls_run spec_call cs q2.
Proof.
  induction cs as [|c cs IH]; intros q1 q2 Hs; [done|]. cbn [calls_run]. destruct (call_sim c q1 q2 Hs) as [Ho Hn].
  destruct (ring_call c q1), (spec_call c q2). cbn [fst snd] in *. rewrite Ho. f_equal. by apply IH.
Qed.

(** ** Blocking calls under interference

    The states in which a blocking call may find the queue when it holds the
    mutex: at the start, and after each wake-up. *)
Definition seen {A} (q : pthread_queue A) (ws : list (wakeup A)) : list (pthread_queue A) :=
  q :: map wake_queue ws.

Lemma wait_while_seen {A} (blocked : pthread_queue A -> bool) t q ws ret q' :
  t <> PTHREAD_QUEUE_OK -> wait_while blocked t q ws = Some (ret, q') ->
  q' ∈ seen q ws /\ (ret = PTHREAD_QUEUE_OK -> blocked q' = false).
Proof.
  intros Ht. revert q. induction ws as [|w ws IH]; intros q; simpl.
  - destruct (blocked q) eqn:E; [done|]. intros [= <- <-]. split; [constructor|done].
  - destruct (blocked q) eqn:E; simpl.
    + destruct (wait_failed (wake_ret w)).
      * intros [= <- <-]. split; [|done]. right. left.
      * intros H. destruct (IH _ H) as [Hs Hb]. split; [by right|done].
    + intros [= <- <-]. split; [left|done].
Qed.

(** A wait returns as soon as one wake-up finds the condition true or fails. *)
Lemma wait_while_returns {A} (blocked : pthread_queue A -> bool) t q ws :
  Exists (fun w => blocked (wake_queue w) = false \/ wait_failed (wake_ret w) = true) ws ->
  is_Some (wait_while blocked t q ws).
Proof.
  intros H. revert q. induction H as [w ws Hw|w ws Hws IH]; intros q; simpl.
  - destruct (blocked q); simpl; [|by eexists]. destruct (wait_failed (wake_ret w)); [by eexists|].
    destruct Hw as [Hw|]; [|done]. destruct ws; simpl; rewrite Hw; by eexists.
  - destruct (blocked q); simpl; [|by eexists]. destruct (wait_failed (wake_ret w)); [by eexists|].
    apply IH.
Qed.

(** ** Properties *)

(** C34. The ring buffer of [pthread_queue.c] refines the bounded FIFO the stack
    is written against.  From creation on, every sequence of calls gives the
    callers the same answers: enqueues and dequeues that do not wait, the number
    of items and of free slots, emptying, and enqueues and dequeues that sleep,
    with any timeout, any work of other threads between their wake-ups and any
    codes of the condition variable (a call that is never woken sleeps on in
    both). *)
Theorem ring_refines_fifo {A} n (mem : list A) q cs :
  (0 < n)%nat -> length mem = n -> pthread_queue_create n true (Some mem) true = Some q ->
  calls_run ring_call cs q = calls_run spec_call cs (q_create (A := A) n).
Proof.
  intros Hn Hl [= <-]. apply calls_run_sim. split_and!; simpl.
  - by apply pq_create_inv.
  - unfold q_size. simpl. lia.
  - unfold pq_abs. simpl. done.
  - done.
Qed.

Definition sample_calls : list (fifo_call Z) :=
  [Now (Put 1); Now (Put 2); Now (Put 3); Now (Put 4); PutWait 5 CSP_MAX_TIMEOUT None [([], EINTR); ([Get; Size], 0)];
   GetWait 10 (Some (0, 0)) []; Now Free; Now Empty; GetWait 10 (Some (0, 0)) [([Put 6; Put 7], 0)]; Now Size;
   Now Get; GetWait 10 (Some (0, 0)) [([], ETIMEDOUT)]].

Lemma ring_refines_fifo_witness :
  calls_run ring_call sample_calls (mkPq [7; 7; 7] 3 0 0 0) = calls_run spec_call sample_calls (q_create 3) /\
  calls_run spec_call sample_calls (q_create 3) =
    [PutDone true; PutDone true; PutDone true; PutDone false; PutDone true; Got (Some 2); Count 1; Emptied; Got (Some 6); Count 1;
     Got (Some 7); Got None].
Proof. split; [apply (ring_refines_fifo 3 [7; 7; 7]); [lia|reflexivity|reflexivity]|reflexivity]. Defined.

(** A blocking [pthread_queue_enqueue] never overwrites a queued item,
    whatever the other threads did while it slept: it returns as soon as one
    wake-up finds a free slot or times out, succeeds only on a queue state with
    a free slot, and then appends its item to that state; on failure it leaves
    the state it found. *)
Theorem enqueue_under_interference {A} (q : pthread_queue A) x timeout now ws :
  Forall pq_inv (seen q ws) ->
  Exists (fun w => pq_items (wake_queue w) <> pq_size (wake_queue w) \/ wait_failed (wake_ret w) = true) ws ->
  exists ret q', pthread_queue_enqueue q x timeout now ws = Some (ret, q') /\
    pq_inv q' /\ exists q0, q0 ∈ seen q ws /\
      if ret =? PTHREAD_QUEUE_OK
      then (length (pq_abs q0) < pq_size q0)%nat /\ pq_abs q' = pq_abs q0 ++ [x]
      else q' = q0.
Proof.
  intros Hs Hw. pose proof (Forall_inv Hs) as Hq. unfold pthread_queue_enqueue.
  destruct (deadline_ok now timeout); simpl.
  - destruct (wait_while_returns pq_full PTHREAD_QUEUE_FULL q ws) as [[r q0] E].
    { eapply Exists_impl; [|exact Hw]. intros w [H|H]; [left; by apply Nat.eqb_neq|by right]. }
    unfold wait_slot_available. rewrite E. apply wait_while_seen in E as [Hin Hok]; [|done].
    pose proof (proj1 (list.Forall_forall _ _) Hs _ Hin) as Hq0.
    destruct (r =? PTHREAD_QUEUE_OK) eqn:Er.
    + pose proof Er as Er'. apply Z.eqb_eq in Er'. specialize (Hok Er'). apply Nat.eqb_neq in Hok.
      pose proof (inv_items _ Hq0). destruct (pq_push_spec x q0 Hq0) as [Hi Ha]; [lia|].
      exists r, (pq_push x q0). split_and!; [done..|]. exists q0. rewrite Er. split_and!; [done| |done].
      rewrite pq_abs_length by done. lia.
    + exists r, q0. split_and!; [done..|]. exists q0. by rewrite Er.
  - exists PTHREAD_QUEUE_ERROR, q. split_and!; [done..|]. exists q. split; [left|done].
Qed.

Lemma enqueue_under_interference_witness :
  let full := mkPq [1; 2] 2 2 0 0 in
  let other := mkPq [1; 2] 2 1 0 1 in
  exists ret q', pthread_queue_enqueue full 9 CSP_MAX_TIMEOUT None [mkWake 0 full; mkWake EINTR other]
             = Some (ret, q') /\ pq_inv q'.
Proof.
  destruct (enqueue_under_interference (mkPq [1; 2] 2 2 0 0) 9 CSP_MAX_TIMEOUT None
           [mkWake 0 (mkPq [1; 2] 2 2 0 0); mkWake EINTR (mkPq [1; 2] 2 1 0 1)]) as (ret & q' & H & Hi & _).
  - repeat constructor; simpl; lia.
  - apply Exists_cons_tl, Exists_cons_hd. left. simpl. lia.
  - exists ret, q'. split; [exact H|exact Hi].
Defined.

(** A blocking [pthread_queue_dequeue] takes the oldest item of a
    non-empty state it found under the mutex, never reads outside the buffer,
    and returns as soon as one wake-up finds an item or times out. *)
Theorem dequeue_under_interference {A} (q : pthread_queue A) timeout now ws :
  Forall pq_inv (seen q ws) ->
  Exists (fun w => pq_items (wake_queue w) <> O \/ wait_failed (wake_ret w) = true) ws ->
  exists ret item q', pthread_queue_dequeue (Some q) timeout now ws = Some (ret, item, Some q') /\
    pq_inv q' /\ exists q0, q0 ∈ seen q ws /\
      match item with
      | Some x => ret = PTHREAD_QUEUE_OK /\ pq_abs q0 = x :: pq_abs q'
      | None => ret <> PTHREAD_QUEUE_OK /\ q' = q0
      end.
Proof.
  intros Hs Hw. pose proof (Forall_inv Hs) as Hq. unfold pthread_queue_dequeue.
  destruct (deadline_ok now timeout); simpl.
  - destruct (wait_while_returns pq_none PTHREAD_QUEUE_EMPTY q ws) as [[r q0] E].
    { eapply Exists_impl; [|exact Hw]. intros w [H|H]; [left; by apply Nat.eqb_neq|by right]. }
    unfold wait_item_available. rewrite E. apply wait_while_seen in E as [Hin Hok]; [|done].
    pose proof (proj1 (list.Forall_forall _ _) Hs _ Hin) as Hq0.
    destruct (r =? PTHREAD_QUEUE_OK) eqn:Er.
    + apply Z.eqb_eq in Er. specialize (Hok Er). apply Nat.eqb_neq in Hok.
      destruct (pq_pop_spec q0 Hq0) as (x & q' & -> & Hi & Ha & _); [lia|].
      exists r, (Some x), q'. split_and!; [done..|]. exists q0. done.
    + apply Z.eqb_neq in Er. exists r, None, q0. split_and!; [done..|]. exists q0. done.
  - exists PTHREAD_QUEUE_ERROR, None, q. split_and!; [done..|]. exists q. split; [left|done].
Qed.

Lemma dequeue_under_interference_witness :
  let none := mkPq [1; 2] 2 0 0 0 in
  let other := mkPq [1; 2] 2 1 1 0 in
  exists ret item q', pthread_queue_dequeue (Some none) 5 (Some (0, 0)) [mkWake 0 other] =
    Some (ret, item, Some q') /\ pq_inv q'.
Proof.
  destruct (dequeue_under_interference (mkPq [1; 2] 2 0 0 0) 5 (Some (0, 0)) [mkWake 0 (mkPq [1; 2] 2 1 1 0)])
    as (ret & item & q' & H & Hi & _).
  - repeat constructor; simpl; lia.
  - constructor. left. simpl. lia.
  - exists ret, item, q'. split; [exact H|exact Hi].
Defined.

(** [get_deadline] adds exactly the timeout to the clock and returns a
    normalised [timespec]: no 32-bit intermediate overflows. *)
Theorem get_deadline_exact sec nsec timeout :
  0 <= nsec < 1000000000 -> 0 <= timeout < 2 ^ 32 ->
  exists sec' nsec', get_deadline (Some (sec, nsec)) timeout = Some (sec', nsec') /\
    0 <= nsec' < 1000000000 /\
    sec' * 1000000000 + nsec' = sec * 1000000000 + nsec + timeout * 1000000.
Proof.
  intros Hn Ht. unfold get_deadline. rewrite (u32_small timeout) by lia.
  assert (0 <= timeout / 1000 < 4294968) by zlia.
  rewrite (u32_small (1000 * _)) by lia.
  assert (0 <= timeout - 1000 * (timeout / 1000) < 1000) by zlia.
  rewrite (u32_small (timeout - _)) by lia. rewrite u32_small by lia.
  eexists _, _. split; [reflexivity|]. split; [apply Z.mod_pos_bound; lia|].
  case_if; bsimpl; zlia.
Qed.

Lemma get_deadline_exact_witness :
  exists sec' nsec', get_deadline (Some (5, 999999999)) 1001 = Some (sec', nsec') /\
    0 <= nsec' < 1000000000 /\
    sec' * 1000000000 + nsec' = 5 * 1000000000 + 999999999 + 1001 * 1000000.
Proof. apply (get_deadline_exact 5 999999999 1001); lia. Defined.
