(* ===== verification/Ports.v ===== *)
(** * Ports: queues, semaphores and clocks of the operating systems

    The files of [src/arch/windows], [freertos] and [zephyr], and the semaphore
    of [src/arch/posix].  The Windows queue is a ring of its own and has the
    theorems of the ring of [Queue]; the others call the operating system, which
    is a parameter. *)

From S2P Require Import Prelude State Queue.

(** ** The Windows queue ([windows_queue.c]) *)

(** How [SleepConditionVariableCS] returns, after how many milliseconds, and
    the queue as other threads left it. *)
Inductive sleep_result := SleepOk | SleepTimeout | SleepError.
Record sleep (A : Type) := mkSleep { sleep_ret : sleep_result; sleep_ms : Z; sleep_queue : pthread_queue A }.
Arguments mkSleep {A} _ _ _.
Arguments sleep_ret {A} _.
Arguments sleep_ms {A} _.
Arguments sleep_queue {A} _.

(** [windows_queue_t] has the members of [pthread_queue_t]. *)
Definition windows_queue_create {A} (length : nat) (struct_ok : bool) (mem : option (list A)) : option (pthread_queue A) :=
  if negb struct_ok then None else
  match mem with
  | None => None
  | Some buffer => Some (mkPq buffer length 0 0 0)
  end.

(** [wait_slot_available] and [wait_item_available]: an error other than the
    timeout is tried again; [None] is a thread that still sleeps. *)
Fixpoint windows_wait {A} (blocked : pthread_queue A -> bool) (q : pthread_queue A) (ws : list (sleep A)) : option (Z * pthread_queue A) :=
  if negb (blocked q) then Some (PTHREAD_QUEUE_OK, q) else
  match ws with
  | [] => None
  | w :: ws' =>
      match sleep_ret w with
      | SleepTimeout => Some (PTHREAD_QUEUE_ERROR, sleep_queue w)
      | SleepOk | SleepError => windows_wait blocked (sleep_queue w) ws'
      end
  end.

Definition windows_queue_enqueue {A} (q : pthread_queue A) (x : A) (ws : list (sleep A)) : option (Z * pthread_queue A) :=
  match windows_wait pq_full q ws with
  | None => None
  | Some (ret, q') => if ret =? PTHREAD_QUEUE_OK then Some (ret, pq_push x q') else Some (ret, q')
  end.

Definition windows_queue_dequeue {A} (q : option (pthread_queue A)) (ws : list (sleep A)) : option (Z * option A * option (pthread_queue A)) :=
  match q with
  | None => Some (PTHREAD_QUEUE_ERROR, None, None)
  | Some q =>
      match windows_wait pq_none q ws with
      | None => None
      | Some (ret, q') =>
          if ret =? PTHREAD_QUEUE_OK then
            match pq_pop q' with
            | Some (x, q'') => Some (ret, Some x, Some q'')
            | None => None
            end
          else Some (ret, None, Some q')
      end
  end.

Definition windows_queue_items {A} (q : pthread_queue A) : nat := pq_items q.
Definition windows_queue_free {A} (q : pthread_queue A) : nat := (pq_size q - pq_items q)%nat.
Definition windows_queue_empty {A} (q : pthread_queue A) : pthread_queue A := mkPq (pq_buffer q) (pq_size q) 0 0 0.

(** The wake-up of a POSIX thread that corresponds to a return of the sleep. *)
Definition posix_wakeup {A} (w : sleep A) : wakeup A :=
  mkWake (match sleep_ret w with SleepOk => 0 | SleepTimeout => ETIMEDOUT | SleepError => Queue.EINTR end) (sleep_queue w).

Lemma windows_wait_posix {A} (blocked : pthread_queue A -> bool) q ws :
  windows_wait blocked q ws = wait_while blocked PTHREAD_QUEUE_ERROR q (map posix_wakeup ws).
Proof.
  revert q. induction ws as [|w ws IH]; intros q; simpl; [done|]. destruct (blocked q); [|done]. cbn [negb].
  unfold posix_wakeup at 1. cbn [wake_ret]. destruct (sleep_ret w); cbn; [apply IH|done|apply IH].
Qed.

(** The Windows queue does what the POSIX queue does: for every sequence of
    returns of the sleeps, both calls give the result and the queue that the
    POSIX ones give for the corresponding wake-ups, an error that is no timeout
    being an interruption. *)
Theorem windows_queue_is_ring {A} (q : pthread_queue A) x ws now : 
  windows_queue_enqueue q x ws = pthread_queue_enqueue q x CSP_MAX_TIMEOUT now (map posix_wakeup ws) /\
  windows_queue_dequeue (Some q) ws = pthread_queue_dequeue (Some q) CSP_MAX_TIMEOUT now (map posix_wakeup ws).
Proof.
  unfold windows_queue_enqueue, windows_queue_dequeue. by rewrite !windows_wait_posix.
Qed.

(** Hence no queued item is overwritten, whatever other threads do. *)
Lemma windows_enqueue_appends {A} (q : pthread_queue A) x ws : pq_inv q -> Forall (fun w => pq_inv (sleep_queue w)) ws ->
  Exists (fun w => pq_items (sleep_queue w) <> pq_size (sleep_queue w) \/ sleep_ret w = SleepTimeout) ws ->
  exists ret q', windows_queue_enqueue q x ws = Some (ret, q') /\ pq_inv q' /\
    exists q0, q0 ∈ q :: map sleep_queue ws /\ if ret =? PTHREAD_QUEUE_OK then pq_abs q' = pq_abs q0 ++ [x] else q' = q0.
Proof.
  intros Hq Hw He. destruct (windows_queue_is_ring q x ws None) as [-> _].
  assert (Es : seen q (map posix_wakeup ws) = q :: map sleep_queue ws) by (unfold seen; rewrite map_map; done).
  destruct (enqueue_under_interference q x CSP_MAX_TIMEOUT None (map posix_wakeup ws)) as (ret & q' & E & Hq' & q0 & Hin & Hr).
  - rewrite Es. constructor; [done|]. by apply Forall_map.
  - apply Exists_map. eapply Exists_impl; [|exact He]. intros w [H|H]; [by left|right]. unfold posix_wakeup. cbn [wake_ret]. by rewrite H.
  - exists ret, q'. split; [done|]. split; [done|]. exists q0. rewrite Es in Hin. split; [done|]. destruct (ret =? _); [by destruct Hr|done].
Qed.

(** The time to wait starts again at every return of the sleep: a thread whose
    slot is taken by others each time waits for as long as one likes, although
    every single sleep is shorter than the timeout. *)
Lemma windows_wait_extends (timeout total : Z) : 1 < timeout -> exists ws : list (sleep Z),
  Forall (fun w => sleep_ms w < timeout) ws /\ total <= fold_right Z.add 0 (map sleep_ms ws) /\
  windows_queue_enqueue (mkPq [1; 2] 2 2 0 0) 9 ws = None.
Proof.
  intros Ht. set (w := mkSleep SleepOk 1 (mkPq [1; 2] 2 2 0 0)). exists (replicate (Z.to_nat total) w). split_and!.
  - apply Forall_replicate. simpl. lia.
  - assert (E : forall n, fold_right Z.add 0 (map sleep_ms (replicate n w)) = Z.of_nat n) by (induction n as [|n IH]; [done|]; simpl; rewrite IH; lia).
    rewrite E. lia.
  - unfold windows_queue_enqueue. assert (E : forall n, windows_wait pq_full (mkPq [1; 2] 2 2 0 0) (replicate n w) = None) by (induction n as [|n IH]; [done|exact IH]).
    by rewrite E.
Qed.

(** ** Queues of the operating system *)

(** What the kernel's queue promises: the laws of a bounded FIFO for calls
    without waiting, and that a call with a time to wait does the same when it
    need not wait. *)
Class OsQueue (Q : Type -> Type) := {
  #[global] os_fifo :: BoundedFifo Q;
  os_send : forall {A}, A -> Z -> Q A -> option (Q A);
  os_receive : forall {A}, Z -> Q A -> option (A * Q A);
  os_send_poll : forall {A} (x : A) q, os_send x 0 q = fifo_put x q;
  os_receive_poll : forall {A} (q : Q A), os_receive 0 q = fifo_get q;
  os_send_now : forall {A} (x : A) t q q', fifo_put x q = Some q' -> os_send x t q = Some q';
  os_receive_now : forall {A} t (q : Q A) r, fifo_get q = Some r -> os_receive t q = Some r
}.

Definition CSP_QUEUE_OK : Z := 0.
Definition CSP_QUEUE_ERROR : Z := -1.

Section OsQueues.
Context {Q : Type -> Type} `{OsQueue Q} {A : Type}.

(** *** FreeRTOS ([freertos/csp_queue.c]) *)

(** Milliseconds to ticks; [None] is a division by zero, which is what a tick
    of less than a millisecond comes to. *)
Definition freertos_ticks (portTICK_PERIOD_MS timeout : Z) : option Z :=
  if timeout =? CSP_MAX_TIMEOUT then Some timeout
  else if portTICK_PERIOD_MS =? 0 then None else Some (timeout / portTICK_PERIOD_MS).

Definition freertos_enqueue (period : Z) (q : Q A) (value : A) (timeout : Z) : option (Z * Q A) :=
  t ← freertos_ticks period timeout;
  Some match os_send value t q with Some q' => (CSP_QUEUE_OK, q') | None => (CSP_QUEUE_ERROR, q) end.

Definition freertos_dequeue (period : Z) (q : Q A) (timeout : Z) : option (Z * option A * Q A) :=
  t ← freertos_ticks period timeout;
  Some match os_receive t q with Some (x, q') => (CSP_QUEUE_OK, Some x, q') | None => (CSP_QUEUE_ERROR, None, q) end.

(** *** Zephyr ([zephyr/csp_queue.c]) *)

Definition csp_errno_zephyr_to_csp (err : Z) : Z := if err =? 0 then CSP_QUEUE_OK else CSP_QUEUE_ERROR.

(** [k_msgq_put] and [k_msgq_get] return 0 on success; the timeout is always a
    number of milliseconds. *)
Definition zephyr_enqueue (q : Q A) (value : A) (timeout : Z) : Z * Q A :=
  match os_send value timeout q with Some q' => (csp_errno_zephyr_to_csp 0, q') | None => (csp_errno_zephyr_to_csp (-11), q) end.

Definition zephyr_dequeue (q : Q A) (timeout : Z) : Z * option A * Q A :=
  match os_receive timeout q with
  | Some (x, q') => (csp_errno_zephyr_to_csp 0, Some x, q')
  | None => (csp_errno_zephyr_to_csp (-11), None, q)
  end.

(** Both ports keep the order: a successful enqueue appends, a successful
    dequeue takes the oldest, whatever the timeout; on a queue with room or with
    an item neither fails. *)
Theorem ports_keep_order period timeout (q : Q A) x : 0 < period -> 0 <= timeout -> fifo_ok q ->
  (length (fifo_list q) < fifo_cap q)%nat ->
  exists q', freertos_enqueue period q x timeout = Some (CSP_QUEUE_OK, q') /\ zephyr_enqueue q x timeout = (CSP_QUEUE_OK, q') /\
    fifo_list q' = fifo_list q ++ [x] /\
    exists y q'', freertos_dequeue period q' timeout = Some (CSP_QUEUE_OK, Some y, q'') /\ zephyr_dequeue q' timeout = (CSP_QUEUE_OK, Some y, q'') /\
      fifo_list q ++ [x] = y :: fifo_list q''.
Proof.
  intros Hp Ht Hq Hroom. assert (Et : exists t, freertos_ticks period timeout = Some t).
  { unfold freertos_ticks. destruct (timeout =? CSP_MAX_TIMEOUT); [by eexists|]. rewrite (proj2 (Z.eqb_neq period 0)) by lia. by eexists. }
  destruct Et as [t Et]. destruct (fifo_put x q) as [q'|] eqn:Ep; [|apply fifo_put_full in Ep; [lia|done]].
  destruct (fifo_put_list x q q' Hq Ep) as (Hq' & Hl & _).
  destruct (fifo_get q') as [[y q'']|] eqn:Eg; [|apply fifo_get_empty in Eg; [|done]; rewrite Hl in Eg; by destruct (fifo_list q)].
  destruct (fifo_get_list q' y q'' Hq' Eg) as (_ & Hl' & _). exists q'. unfold freertos_enqueue, zephyr_enqueue, freertos_dequeue, zephyr_dequeue.
  rewrite Et. cbn [mbind option_bind]. rewrite !(os_send_now x _ q q' Ep). split_and!; [done..|]. exists y, q''.
  rewrite !(os_receive_now _ q' _ Eg). split_and!; [done..|]. by rewrite <- Hl, Hl'.
Qed.

End OsQueues.

(** The abstract queue as a kernel queue that never waits. *)
#[export] Instance spec_os_queue : OsQueue queue.
Proof. by refine {| os_fifo := spec_fifo; os_send A x t q := q_enqueue x q; os_receive A t q := q_dequeue q |}. Defined.

Lemma ports_keep_order_witness : exists q', freertos_enqueue (H := spec_os_queue) 10 (q_create (A := Z) 3) 7 25 = Some (CSP_QUEUE_OK, q') /\ fifo_list q' = [7].
Proof.
  destruct (ports_keep_order (H := spec_os_queue) 10 25 (q_create (A := Z) 3) 7) as (q' & E & _ & Hl & _).
  - lia.
  - lia.
  - apply Nat.leb_le. reflexivity.
  - apply Nat.ltb_lt. reflexivity.
  - exists q'. split; [exact E|exact Hl].
Defined.

(** ** Binary semaphores *)

Definition CSP_SEMAPHORE_OK : Z := 0.
Definition CSP_SEMAPHORE_ERROR : Z := -1.

(** A semaphore after [csp_bin_sem_init], its post, and its wait with a timeout
    of zero. *)
Class BinSem (S : Type) := { sem_new : S; sem_post : S -> Z * S; sem_poll : S -> Z * S }.

Inductive sem_op := Post | Poll.

Fixpoint sem_run {S} `{BinSem S} (ops : list sem_op) (s : S) : list Z :=
  match ops with
  | [] => []
  | o :: ops' => let '(r, s') := match o with Post => sem_post s | Poll => sem_poll s end in r :: sem_run ops' s'
  end.

Definition sem_trace {S} (B : BinSem S) (ops : list sem_op) : list Z := sem_run ops sem_new.

(** What is meant: a flag, set at first, that a wait takes. *)
Definition flag_sem : BinSem bool := {|
  sem_new := true;
  sem_post _ := (CSP_SEMAPHORE_OK, true);
  sem_poll b := (if b then CSP_SEMAPHORE_OK else CSP_SEMAPHORE_ERROR, false)
|}.

(** *** POSIX ([posix/csp_semaphore.c]): a counter *)

(** [csp_bin_sem_wait] with the clock, and what [sem_wait] ([None]) or
    [sem_timedwait] with a deadline returns. *)
Definition posix_bin_sem_wait (now : option (Z * Z)) (wait : option (Z * Z) -> Z) (timeout : Z) : Z :=
  if timeout =? CSP_MAX_TIMEOUT then if wait None =? 0 then CSP_SEMAPHORE_OK else CSP_SEMAPHORE_ERROR
  else match get_deadline now timeout with
       | None => CSP_SEMAPHORE_ERROR
       | Some d => if wait (Some d) =? 0 then CSP_SEMAPHORE_OK else CSP_SEMAPHORE_ERROR
       end.

Definition posix_bin_sem_post (value : Z) : Z * Z :=
  if 0 <? value then (CSP_SEMAPHORE_OK, value) else (CSP_SEMAPHORE_OK, value + 1).

(** A deadline that has passed takes a positive counter, or times out. *)
Definition posix_sem : BinSem Z := {|
  sem_new := 1;
  sem_post := posix_bin_sem_post;
  sem_poll v := (posix_bin_sem_wait (Some (0, 0)) (fun _ => if 0 <? v then 0 else -1) 0, if 0 <? v then v - 1 else v)
|}.

(** *** Windows: an event that resets itself *)

(** [csp_bin_sem_wait] with the result of [WaitForSingleObject]. *)
Definition windows_bin_sem_wait (ret : Z) : Z := if ret =? 0 then CSP_SEMAPHORE_OK else CSP_SEMAPHORE_ERROR.
Definition windows_bin_sem_post (set_event : bool) : Z := if set_event then CSP_SEMAPHORE_OK else CSP_SEMAPHORE_ERROR.
Definition WAIT_TIMEOUT : Z := 258.

Definition windows_sem : BinSem bool := {|
  sem_new := true;
  sem_post _ := (windows_bin_sem_post true, true);
  sem_poll e := (windows_bin_sem_wait (if e then 0 else WAIT_TIMEOUT), false)
|}.

(** *** Zephyr: a counter with a limit of one *)

Definition csp_bin_sem_errno_to_csp (val : Z) : Z := if val =? 0 then CSP_SEMAPHORE_OK else CSP_SEMAPHORE_ERROR.

Definition zephyr_sem : BinSem Z := {|
  sem_new := 1;
  sem_post v := (CSP_SEMAPHORE_OK, Z.min 1 (v + 1));
  sem_poll v := (csp_bin_sem_errno_to_csp (if 0 <? v then 0 else -16), if 0 <? v then v - 1 else v)
|}.

(** *** FreeRTOS: the notifications of the task that waits *)

(** The task stored in the semaphore (there is one), and its notifications. *)
Record freertos_bin_sem := mkTaskSem { sem_task : bool; notified : Z }.

Definition freertos_bin_sem_wait (s : freertos_bin_sem) : Z * freertos_bin_sem :=
  (if 1 <=? notified s then CSP_SEMAPHORE_OK else CSP_SEMAPHORE_ERROR, mkTaskSem true 0).
Definition freertos_bin_sem_post (s : freertos_bin_sem) : Z * freertos_bin_sem :=
  (CSP_SEMAPHORE_OK, if sem_task s then mkTaskSem true (notified s + 1) else s).

Definition freertos_sem : BinSem freertos_bin_sem := {|
  sem_new := mkTaskSem false 0; sem_post := freertos_bin_sem_post; sem_poll := freertos_bin_sem_wait
|}.

(** Two semaphores agree when a relation between their states is kept. *)
Lemma sem_run_sim {S T} (B1 : BinSem S) (B2 : BinSem T) (R : S -> T -> Prop) :
  (forall s t, R s t -> fst (sem_post s) = fst (sem_post t) /\ R (snd (sem_post s)) (snd (sem_post t))) ->
  (forall s t, R s t -> fst (sem_poll s) = fst (sem_poll t) /\ R (snd (sem_poll s)) (snd (sem_poll t))) ->
  forall ops s t, R s t -> sem_run ops s = sem_run ops t.
Proof.
  intros Hpost Hpoll. induction ops as [|o ops IH]; intros s t HR; [done|]. simpl. destruct o.
  - destruct (Hpost s t HR) as [E HR']. destruct (sem_post s), (sem_post t). simpl in *. rewrite E. f_equal. by apply IH.
  - destruct (Hpoll s t HR) as [E HR']. destruct (sem_poll s), (sem_poll t). simpl in *. rewrite E. f_equal. by apply IH.
Qed.

(** The semaphores of POSIX, Windows and Zephyr are binary semaphores that start
    free: every sequence of posts and of waits without time gives the answers of
    a flag.  On FreeRTOS this holds only once a task has waited: the semaphore
    starts taken, and what is posted before is lost. *)
Theorem sems_are_flags ops :
  sem_trace posix_sem ops = sem_trace flag_sem ops /\
  sem_trace windows_sem ops = sem_trace flag_sem ops /\
  sem_trace zephyr_sem ops = sem_trace flag_sem ops /\
  (forall n, 0 <= n -> sem_run (H := freertos_sem) ops (mkTaskSem true n) = sem_run (H := flag_sem) ops (0 <? n)) /\
  sem_trace freertos_sem (Post :: Poll :: ops) = CSP_SEMAPHORE_OK :: CSP_SEMAPHORE_ERROR :: sem_run (H := flag_sem) ops false.
Proof.
  assert (Hfree : forall n, 0 <= n -> sem_run (H := freertos_sem) ops (mkTaskSem true n) = sem_run (H := flag_sem) ops (0 <? n)).
  { intros n Hn. apply (sem_run_sim freertos_sem flag_sem (fun s b => sem_task s = true /\ 0 <= notified s /\ b = (0 <? notified s))); [| |done].
    - intros s b (Et & H0 & ->). simpl. rewrite Et. split; [done|]. cbn [sem_task notified]. split_and!; [done|lia|lia].
    - intros s b (Et & H0 & ->). cbn. split; [|done]. by replace (1 <=? notified s) with (0 <? notified s) by lia. }
  split_and!.
  - apply (sem_run_sim posix_sem flag_sem (fun v b => v = if b then 1 else 0)); [| |done]; intros v b ->; by destruct b.
  - apply (sem_run_sim windows_sem flag_sem eq); [| |done]; intros v b ->; by destruct b.
  - apply (sem_run_sim zephyr_sem flag_sem (fun v b => v = if b then 1 else 0)); [| |done]; intros v b ->; by destruct b.
  - exact Hfree.
  - unfold sem_trace. simpl. do 2 f_equal. exact (Hfree 0 ltac:(lia)).
Qed.

(** ** Clocks *)

(** Windows: [FILETIME] counts 100 ns from 1601. *)
Definition filetime_to_csp_timestamp (dwLowDateTime dwHighDateTime : Z) : Z * Z :=
  let total_100ns := dwHighDateTime * 2 ^ 32 + dwLowDateTime in
  let unix_100ns := u64 (total_100ns - 116444736000000000) in
  (u32 (unix_100ns / 10000000), u32 (unix_100ns mod 10000000 * 100)).

Definition windows_get_ms (GetTickCount64 : Z) : Z := u32 (Z.land GetTickCount64 0xFFFFFFFF).
Definition windows_get_s (GetTickCount64 : Z) : Z := u32 (GetTickCount64 / 1000).
Definition freertos_get_ms (configTICK_RATE_HZ ticks : Z) : Z := u32 (ticks * (1000 / configTICK_RATE_HZ)).
Definition freertos_get_s (configTICK_RATE_HZ ticks : Z) : Z := u32 (ticks / configTICK_RATE_HZ).
Definition zephyr_get_ms (uptime : Z) : Z := u32 uptime.
Definition zephyr_get_s (uptime : Z) : Z := u32 uptime / 1000.

(** [csp_memfree_hook] with the result of [GlobalMemoryStatusEx]. *)
Definition windows_memfree_hook (avail : option Z) : Z :=
  match avail with
  | None => 0
  | Some n => if 0xFFFFFFFF <? n then 0xFFFFFFFF else u32 n
  end.

(** The timestamp is exact, to 100 ns, from 1970 on and for as long as 32 bits
    of seconds last. *)
Theorem filetime_exact t low high : 0 <= t < 2 ^ 32 * 10000000 -> 0 <= low < 2 ^ 32 -> high * 2 ^ 32 + low = t + 116444736000000000 ->
  let '(sec, nsec) := filetime_to_csp_timestamp low high in
  0 <= nsec < 1000000000 /\ sec * 10000000 * 100 + nsec = t * 100.
Proof.
  intros Ht Hl E. unfold filetime_to_csp_timestamp. rewrite E. replace (t + 116444736000000000 - 116444736000000000) with t by lia.
  unfold u64. rewrite (Z.mod_small t) by lia. pose proof (Z.div_mod t 10000000 ltac:(lia)). pose proof (Z.mod_pos_bound t 10000000 ltac:(lia)).
  assert (t / 10000000 < 2 ^ 32) by (apply Z.div_lt_upper_bound; lia). assert (0 <= t / 10000000) by (apply Z.div_pos; lia).
  rewrite !u32_small by lia. lia.
Qed.

(** After [n] milliseconds: the Windows clocks count them modulo [2 ^ 32]; that
    of FreeRTOS is right to a tick when the tick rate divides 1000; Zephyr's
    seconds start again after [2 ^ 32] milliseconds. *)
Theorem clocks_count n hz : 0 <= n -> 0 < hz -> 1000 mod hz = 0 ->
  windows_get_ms n = u32 n /\ windows_get_s n = u32 (n / 1000) /\
  freertos_get_ms hz (n * hz / 1000) = u32 (n - n mod (1000 / hz)) /\ freertos_get_s hz (n * hz / 1000) = u32 (n / 1000) /\
  zephyr_get_ms n = u32 n /\ zephyr_get_s n = n mod 2 ^ 32 / 1000.
Proof.
  intros Hn Hh Hd. apply Z.mod_divide in Hd as [p Hp]; [|lia]. assert (0 < p) by nia.
  assert (E1 : 1000 / hz = p) by (rewrite Hp; apply Z.div_mul; lia).
  assert (E2 : n * hz / 1000 = n / p) by (rewrite Hp; apply Z.div_mul_cancel_r; lia).
  unfold windows_get_ms, windows_get_s, freertos_get_ms, freertos_get_s, zephyr_get_ms, zephyr_get_s. rewrite E1, E2. split_and!; try done.
  - change 0xFFFFFFFF with (Z.ones 32). rewrite Z.land_ones by lia. apply Z.mod_mod. lia.
  - f_equal. pose proof (Z.div_mod n p). lia.
  - f_equal. rewrite Z.div_div by lia. by rewrite <- Hp.
Qed.

(** A tick rate that does not divide 1000 slows the FreeRTOS clock down: at 128
    Hz, 1000 seconds are counted as 896, and above 1000 Hz it stands still; the
    seconds of Zephyr go back to zero. *)
Lemma clocks_drift : freertos_get_ms 128 128000 = 896000 /\ freertos_get_ms 2000 2000000 = 0 /\
  zephyr_get_s (2 ^ 32 - 1) = 4294967 /\ zephyr_get_s (2 ^ 32) = 0.
Proof. by vm_compute. Qed.
