(* ===== verification/Monad.v ===== *)
(** * Monad: stateful code that may go wrong, and its program logic

    A C function is an [M A]: it runs on the memory of the node and either
    returns a value with the new memory, or meets undefined behaviour (NULL or
    dangling pointer, access outside a buffer, a loop whose bound was not
    enough), or stops for ever ([csp_panic] followed by [while (1)]), or waits for
    something that does not come, without a timeout ([Wait]).  [wp] is the weakest
    precondition of total correctness: it demands a return; [wpw] admits the
    wait. *)

From S2P Require Import Prelude State.

Inductive outcome (A : Type) :=
| Ret (a : A) (s : node)
| Undef
| Halt
| Wait.
Arguments Ret {A} _ _.
Arguments Undef {A}.
Arguments Halt {A}.
Arguments Wait {A}.

Definition M (A : Type) : Type := node -> outcome A.

#[export] Instance M_ret : MRet M := fun A a s => Ret a s.
#[export] Instance M_bind : MBind M := fun A B f m s =>
  match m s with
  | Ret a s' => f a s'
  | Undef => Undef
  | Halt => Halt
  | Wait => Wait
  end.

Definition undef {A} : M A := fun _ => Undef.
Definition halt {A} : M A := fun _ => Halt.
Definition wait_forever {A} : M A := fun _ => Wait.

(** What a wait with [timeout] comes to when nothing came: [r], the answer for a
    timeout, or no return at all. *)
Definition timed_out {A} (timeout : Z) (r : A) : M A := if timeout =? CSP_MAX_TIMEOUT then wait_forever else mret r.
Definition gets {A} (f : node -> A) : M A := fun s => Ret (f s) s.
Definition modify (f : node -> node) : M unit := fun s => Ret tt (f s).

(** [if (b) { m }] *)
Definition when (b : bool) (m : M unit) : M unit := if b then m else mret tt.

(** A partial operation: NULL, or an index outside an array. *)
Definition of_option {A} (o : option A) : M A :=
  match o with Some a => mret a | None => undef end.

(** [for (i = 0; i < n; i++) body] *)
Fixpoint for_loop (n : nat) (i : nat) (body : nat -> M unit) : M unit :=
  match n with
  | O => mret tt
  | S n' => body i ;; for_loop n' (S i) body
  end.

(** A loop whose body says whether it goes on; [fuel] bounds the rounds. *)
Inductive loop_ctl := Continue | Break.

Fixpoint while_loop (fuel : nat) (body : M loop_ctl) : M unit :=
  match fuel with
  | O => undef
  | S fuel' => c ← body; match c with Continue => while_loop fuel' body | Break => mret tt end
  end.

(** ** Access to the arrays of the node *)

Definition get_skbf (p : nat) : M csp_skbf := fun s =>
  match pool s !! p with Some b => Ret b s | None => Undef end.
Definition mod_skbf (p : nat) (f : csp_skbf -> csp_skbf) : M unit := fun s =>
  match pool s !! p with
  | Some b => Ret tt (set_pool (<[p := f b]> (pool s)) s)
  | None => Undef
  end.

Definition get_pkt (p : nat) : M csp_packet := b ← get_skbf p; mret (skbf_data b).
Definition mod_pkt (p : nat) (f : csp_packet -> csp_packet) : M unit :=
  mod_skbf p (fun b => set_skbf_data (f (skbf_data b)) b).

Definition get_conn (c : nat) : M csp_conn := fun s =>
  match arr_conn s !! c with Some x => Ret x s | None => Undef end.
Definition mod_conn (c : nat) (f : csp_conn -> csp_conn) : M unit := fun s =>
  match arr_conn s !! c with
  | Some x => Ret tt (set_arr_conn (<[c := f x]> (arr_conn s)) s)
  | None => Undef
  end.
Definition mod_rdp (c : nat) (f : csp_rdp -> csp_rdp) : M unit :=
  mod_conn c (fun x => set_conn_rdp (f (conn_rdp x)) x).

Definition get_iface (i : nat) : M csp_iface := fun s =>
  match ifs s !! i with Some x => Ret x s | None => Undef end.
Definition mod_iface (i : nat) (f : csp_iface -> csp_iface) : M unit := fun s =>
  match ifs s !! i with
  | Some x => Ret tt (set_ifs (<[i := f x]> (ifs s)) s)
  | None => Undef
  end.

Definition get_sock (k : nat) : M csp_socket := fun s =>
  match socks s !! k with Some x => Ret x s | None => Undef end.
Definition mod_sock (k : nat) (f : csp_socket -> csp_socket) : M unit := fun s =>
  match socks s !! k with
  | Some x => Ret tt (set_socks (<[k := f x]> (socks s)) s)
  | None => Undef
  end.

(** Bytes of buffer [p] at [off] from its [data]: [header] lies just below. *)
Definition read_mem (p : nat) (off n : Z) : M (list Z) :=
  k ← get_pkt p; of_option (mem_read (pkt_mem k) (CSP_PACKET_PADDING_BYTES + off) n).
Definition write_mem (p : nat) (off : Z) (bs : list Z) : M unit :=
  k ← get_pkt p;
  m ← of_option (mem_write (pkt_mem k) (CSP_PACKET_PADDING_BYTES + off) bs);
  mod_pkt p (set_pkt_mem m).

(** The [n] bytes at [packet->frame_begin]. *)
Definition read_frame (p : nat) (n : Z) : M (list Z) :=
  k ← get_pkt p; read_mem (frame_buf k) (frame_off k) n.

(** ** Debug counters *)

Definition set_errno (e : Z) : M unit := modify (fun s => set_dbg (set_dbg_errno e (dbg s)) s).
Definition incr_conn_ovf : M unit :=
  modify (fun s => set_dbg (set_dbg_conn_ovf (u8 (dbg_conn_ovf (dbg s) + 1)) (dbg s)) s).
Definition incr_conn_out : M unit :=
  modify (fun s => set_dbg (set_dbg_conn_out (u8 (dbg_conn_out (dbg s) + 1)) (dbg s)) s).
Definition incr_buffer_out : M unit :=
  modify (fun s => set_dbg (set_dbg_buffer_out (u8 (dbg_buffer_out (dbg s) + 1)) (dbg s)) s).
Definition incr_inval_reply : M unit :=
  modify (fun s => set_dbg (set_dbg_inval_reply (u8 (dbg_inval_reply (dbg s) + 1)) (dbg s)) s).

(** [n] bytes from [off] of a frame that a driver received. *)
Definition rx_bytes (data : list Z) (off n : Z) : M (list Z) := of_option (mem_read data off n).

(** Interface statistics. *)
Definition incr_tx_error (i : nat) : M unit := mod_iface i (fun x => set_tx_error (u32 (tx_error x + 1)) x).
Definition incr_rx_error (i : nat) : M unit := mod_iface i (fun x => set_rx_error (u32 (rx_error x + 1)) x).
Definition incr_drop (i : nat) : M unit := mod_iface i (fun x => set_if_drop (u32 (if_drop x + 1)) x).
Definition incr_autherr (i : nat) : M unit := mod_iface i (fun x => set_autherr (u32 (autherr x + 1)) x).
Definition incr_frame (i : nat) : M unit := mod_iface i (fun x => set_if_frame (u32 (if_frame x + 1)) x).

(** ** What the node is given: clock, libc, interfaces, application

    These are the parts outside the modelled sources.  [plat_ms n] is the
    [n]-th reading of the millisecond clock, [plat_rand] is [rand_r] as a
    function of its seed, [plat_yield n] is what the other tasks do during the
    [n]-th blocking wait of this task, [plat_nexthop k] is the transmit function
    with tag [k] (called with interface, via, packet, from_me), and
    [plat_callback k] the port callback with tag [k].  [plat_overflow z] is what
    the compiled program takes for an [int] whose value would be [z], outside the
    range of the type: C leaves it undefined.  [CSP_USE_RTABLE] is the build
    option of that name. *)
Class Platform := {
  plat_ms : nat -> Z;
  plat_rand : Z -> Z;
  plat_yield : nat -> node -> node;
  plat_nexthop : nat -> nat -> Z -> nat -> bool -> M Z;
  plat_callback : nat -> nat -> M unit;
  plat_overflow : Z -> Z;
  CSP_USE_RTABLE : bool;
}.

(** The result [z] of a computation on signed integers. *)
Definition int_value `{Platform} (z : Z) : Z := if bool_decide (- 2 ^ 31 <= z < 2 ^ 31) then z else plat_overflow z.

Section Clock.
Context `{Platform}.

(** [csp_get_ms] *)
Definition csp_get_ms : M Z := fun s =>
  Ret (u32 (plat_ms (tick s))) (set_tick (S (tick s)) s).

(** This task blocks; the others run. *)
Definition yield : M unit := fun s =>
  Ret tt (plat_yield (waits s) (set_waits (S (waits s)) s)).

End Clock.

(** ** Drivers

    [drv_tx n] is what the [n]-th call of a driver's transmit function returns;
    the call itself is recorded in [wire]. *)
Class Drivers := { drv_tx : nat -> Z }.

Definition drv_send `{Drivers} (iface : nat) (id : Z) (data : list Z) : M Z := fun s =>
  Ret (drv_tx (length (wire s))) (set_wire (WireBytes iface id data :: wire s) s).

Definition set_can_errno (e : Z) : M unit := modify (fun s => set_dbg (set_dbg_can_errno e (dbg s)) s).

(** ** Weakest preconditions *)

Definition wp {A} (m : M A) (Q : A -> node -> Prop) (s : node) : Prop :=
  match m s with
  | Ret a s' => Q a s'
  | Undef => False
  | Halt => False
  | Wait => False
  end.

Lemma wp_ret {A} (a : A) Q s : Q a s -> wp (mret a) Q s.
Proof. done. Qed.

Lemma wp_bind {A B} (m : M A) (f : A -> M B) Q s :
  wp m (fun a s' => wp (f a) Q s') s -> wp (mbind f m) Q s.
Proof. unfold wp, mbind, M_bind. by destruct (m s). Qed.

Lemma wp_bind_inv {A B} (m : M A) (f : A -> M B) Q s :
  wp (mbind f m) Q s -> wp m (fun a s' => wp (f a) Q s') s.
Proof. unfold wp, mbind, M_bind. by destruct (m s). Qed.

Lemma wp_conseq {A} (m : M A) (P Q : A -> node -> Prop) s :
  wp m P s -> (forall a s', P a s' -> Q a s') -> wp m Q s.
Proof. unfold wp. destruct (m s); auto. Qed.

Lemma wp_and {A} (m : M A) (P Q : A -> node -> Prop) s :
  wp m P s -> wp m Q s -> wp m (fun a s' => P a s' /\ Q a s') s.
Proof. unfold wp. destruct (m s); auto. Qed.

Lemma wp_run {A} (m : M A) Q s : wp m Q s <-> exists a s', m s = Ret a s' /\ Q a s'.
Proof.
  unfold wp. destruct (m s); split; try done.
  - intros. eauto.
  - intros (? & ? & ? & ?). by simplify_eq.
  - intros (? & ? & ? & ?). done.
  - intros (? & ? & ? & ?). done.
  - intros (? & ? & ? & ?). done.
Qed.

Lemma wp_gets {A} (f : node -> A) Q s : Q (f s) s -> wp (gets f) Q s.
Proof. done. Qed.

Lemma wp_modify f Q s : Q tt (f s) -> wp (modify f) Q s.
Proof. done. Qed.

Lemma wp_when b m Q s : (b = true -> wp m Q s) -> (b = false -> Q tt s) -> wp (when b m) Q s.
Proof. unfold when. intros. destruct b; [auto|apply wp_ret; auto]. Qed.

Lemma wp_of_option {A} (o : option A) Q s :
  (exists a, o = Some a /\ Q a s) -> wp (of_option o) Q s.
Proof. intros (a & -> & H). done. Qed.

(** [for] rule: an invariant indexed by the loop counter. *)
Lemma wp_for_loop (I : nat -> node -> Prop) body n i s :
  I i s ->
  (forall j s, (i <= j < i + n)%nat -> I j s -> wp (body j) (fun _ s' => I (S j) s') s) ->
  wp (for_loop n i body) (fun _ s' => I (i + n)%nat s') s.
Proof.
  revert i s. induction n as [|n IH]; intros i s Hi Hb; simpl.
  - apply wp_ret. by rewrite Nat.add_0_r.
  - apply wp_bind. eapply wp_conseq; [apply Hb; [lia|done]|].
    intros ? s' Hs'. rewrite <- Nat.add_succ_comm. apply IH; [done|].
    intros j s'' Hj. apply Hb. lia.
Qed.

(** [while] rule: the invariant comes with a variant below the fuel. *)
Lemma wp_while_loop (I : nat -> node -> Prop) (Q : node -> Prop) body fuel k s :
  (k < fuel)%nat -> I k s ->
  (forall k s, I k s -> wp body (fun c s' =>
     match c with Continue => exists k', (k' < k)%nat /\ I k' s' | Break => Q s' end) s) ->
  wp (while_loop fuel body) (fun _ s' => Q s') s.
Proof.
  intros Hk HI Hb. revert k s Hk HI. induction fuel as [|fuel IH]; intros k s Hk HI; [lia|].
  simpl. apply wp_bind. eapply wp_conseq; [apply Hb; exact HI|].
  intros [|] s' H.
  - destruct H as (k' & Hlt & HI'). apply (IH k'); [lia|done].
  - by apply wp_ret.
Qed.

Lemma wp_mono {A} (m : M A) (P Q : A -> node -> Prop) s :
  (forall a s', P a s' -> Q a s') -> wp m P s -> wp m Q s.
Proof. intros H Hm. eapply wp_conseq; eauto. Qed.

(** Returning, or waiting for ever. *)
Definition wpw {A} (m : M A) (Q : A -> node -> Prop) (s : node) : Prop := m s = Wait \/ wp m Q s.

Lemma wpw_wp {A} (m : M A) Q s : wp m Q s -> wpw m Q s.
Proof. by right. Qed.

Lemma wpw_bind {A B} (m : M A) (f : A -> M B) Q s : wpw m (fun a s' => wpw (f a) Q s') s -> wpw (mbind f m) Q s.
Proof. unfold wpw, wp, mbind, M_bind. intros [E|Hm]; [left; by rewrite E|]. by destruct (m s). Qed.

Lemma wpw_ret {A} (a : A) Q s : Q a s -> wpw (mret a) Q s.
Proof. by right. Qed.

Lemma wpw_conseq {A} (m : M A) (P Q : A -> node -> Prop) s : wpw m P s -> (forall a s', P a s' -> Q a s') -> wpw m Q s.
Proof. intros [E|Hm] HPQ; [by left|right]. by eapply wp_conseq. Qed.

(** A step that returns, then one that may wait. *)
Lemma wpw_seq {A B} (m : M A) (f : A -> M B) Q s : wp m (fun a s' => wpw (f a) Q s') s -> wpw (mbind f m) Q s.
Proof. intros Hm. by apply wpw_bind, wpw_wp. Qed.

Lemma wpw_timed_out {A} timeout (r : A) (Q : A -> node -> Prop) s : Q r s -> wpw (timed_out timeout r) Q s.
Proof. unfold timed_out. intros HQ. destruct (timeout =? CSP_MAX_TIMEOUT); [by left|by right]. Qed.

Lemma wp_timed_out {A} timeout (r : A) (Q : A -> node -> Prop) s : timeout <> CSP_MAX_TIMEOUT -> Q r s -> wp (timed_out timeout r) Q s.
Proof. unfold timed_out. intros Ht HQ. by rewrite (proj2 (Z.eqb_neq _ _) Ht). Qed.

(** The two logics, for code that waits: the total one must be told that a
    timeout is finite. *)
Class WaitLogic (w : forall A, M A -> (A -> node -> Prop) -> node -> Prop) := {
  wl_may : Z -> Prop;
  wl_seq : forall A B (m : M A) (f : A -> M B) Q s, wp m (fun a s' => w B (f a) Q s') s -> w B (mbind f m) Q s;
  wl_bind : forall A B (m : M A) (f : A -> M B) Q s, w A m (fun a s' => w B (f a) Q s') s -> w B (mbind f m) Q s;
  wl_wp : forall A (m : M A) Q s, wp m Q s -> w A m Q s;
  wl_conseq : forall A (m : M A) (P Q : A -> node -> Prop) s, w A m P s -> (forall a s', P a s' -> Q a s') -> w A m Q s;
  wl_ext : forall A (m m' : M A) Q s, m s = m' s -> w A m' Q s -> w A m Q s;
  wl_timed_out : forall A timeout (r : A) (Q : A -> node -> Prop) s, wl_may timeout -> Q r s -> w A (timed_out timeout r) Q s
}.
Arguments wl_may w {_} _.
Arguments wl_seq {w _ A B} _ _ _ _ _.
Arguments wl_bind {w _ A B} _ _ _ _ _.
Arguments wl_wp {w _ A} _ _ _ _.
Arguments wl_conseq {w _ A} _ _ _ _ _ _.
Arguments wl_ext {w _ A} _ _ _ _ _ _.
Arguments wl_timed_out {w _ A} _ _ _ _ _ _.

Lemma wl_ret `{WaitLogic w} {A} (a : A) (Q : A -> node -> Prop) s : Q a s -> w A (mret a) Q s.
Proof. intros HQ. by apply wl_wp, wp_ret. Qed.

Lemma wl_seq_assoc `{WaitLogic w} {A B C} (m : M A) (f : A -> M B) (g : B -> M C) Q s :
  w C (mbind g (mbind f m)) Q s -> w C (mbind (fun a => mbind g (f a)) m) Q s.
Proof.
  intros Hw. eapply wl_ext; [|exact Hw]. unfold mbind, M_bind. by destruct (m s).
Qed.

#[export] Instance wp_logic : WaitLogic (@wp).
Proof.
  unshelve econstructor; [exact (fun t => t <> CSP_MAX_TIMEOUT)|..]; intros; [by apply wp_bind|by apply wp_bind|done|by eapply wp_conseq|unfold wp in *; by match goal with E : _ = _ |- _ => rewrite E end|by apply wp_timed_out].
Defined.

#[export] Instance wpw_logic : WaitLogic (@wpw).
Proof.
  unshelve econstructor; [exact (fun _ => True)|..]; intros; [by apply wpw_seq|by apply wpw_bind|by apply wpw_wp|by eapply wpw_conseq|unfold wpw, wp in *; by match goal with E : _ = _ |- _ => rewrite E end|by apply wpw_timed_out].
Defined.

Lemma wpw_run {A} (m : M A) Q s : wpw m Q s <-> m s = Wait \/ exists a s', m s = Ret a s' /\ Q a s'.
Proof. unfold wpw. by rewrite wp_run. Qed.

(** Structural steps of a [wp] proof; calls are left to [wp_call]. *)
Ltac wp_step :=
  lazymatch goal with
  | |- wp (mbind _ _) _ _ => apply wp_bind
  | |- wp (mret _) _ _ => apply wp_ret
  | |- wp (gets _) _ _ => apply wp_gets
  | |- wp (modify _) _ _ => apply wp_modify
  | |- wp (when _ _) _ _ => apply wp_when; intros ?
  | |- wp (if ?b then _ else _) _ _ => destruct b eqn:?
  | |- wp (match ?o with Some _ => _ | None => _ end) _ _ => destruct o eqn:?
  | |- wp (match ?o with (_, _) => _ end) _ _ => destruct o eqn:?
  end.

Ltac wp_call H := eapply wp_conseq; [eapply H|].

(** ** Evaluating packet accesses

    [pkt_at p s] is the content of buffer [p], [put_pkt p k s] the state where
    it is [k]; a run that only works on one packet stays of the form
    [put_pkt p _ s]. *)

Definition pkt_at (p : nat) (s : node) : option csp_packet := skbf_data <$> pool s !! p.
Definition put_pkt (p : nat) (k : csp_packet) (s : node) : node :=
  set_pool (alter (set_skbf_data k) p (pool s)) s.

Lemma bind_ret {A B} (m : M A) (f : A -> M B) s a s' : m s = Ret a s' -> mbind f m s = f a s'.
Proof. intros H. unfold mbind, M_bind. by rewrite H. Qed.

Lemma bind_Ret {A B} (m : M A) (f : A -> M B) s b s'' : mbind f m s = Ret b s'' ->
  exists a s', m s = Ret a s' /\ f a s' = Ret b s''.
Proof.
  unfold mbind, M_bind. destruct (m s) as [a s'| | |] eqn:E; [|discriminate..]. by exists a, s'.
Qed.

Lemma pkt_at_put p k k0 s : pkt_at p s = Some k0 -> pkt_at p (put_pkt p k s) = Some k.
Proof.
  unfold pkt_at, put_pkt. simpl. intros H. rewrite list_lookup_alter_eq.
  destruct (pool s !! p); [done|discriminate].
Qed.

Lemma put_pkt_put p k k' s : put_pkt p k (put_pkt p k' s) = put_pkt p k s.
Proof.
  unfold put_pkt, set_pool. simpl. f_equal. apply list_eq. intros i.
  destruct (decide (p = i)) as [<-|].
  - rewrite !list_lookup_alter_eq. by destruct (pool s !! p).
  - by rewrite !list_lookup_alter_ne.
Qed.

Lemma put_pkt_same p k s : pkt_at p s = Some k -> put_pkt p k s = s.
Proof.
  intros Hk. unfold put_pkt. replace (alter (set_skbf_data k) p (pool s)) with (pool s); [by destruct s|].
  apply list_eq. intros j. destruct (decide (p = j)) as [<-|]; [|by rewrite list_lookup_alter_ne].
  rewrite list_lookup_alter_eq. unfold pkt_at in Hk. destruct (pool s !! p) as [b|]; [|done]. injection Hk as <-. by destruct b.
Qed.

Lemma get_pkt_at p k s : pkt_at p s = Some k -> get_pkt p s = Ret k s.
Proof.
  unfold pkt_at, get_pkt, get_skbf, mbind, M_bind.
  destruct (pool s !! p); intros; simplify_eq/=. done.
Qed.

Lemma mod_pkt_at p f k s : pkt_at p s = Some k -> mod_pkt p f s = Ret tt (put_pkt p (f k) s).
Proof.
  unfold pkt_at, mod_pkt, mod_skbf, put_pkt. destruct (pool s !! p) eqn:E; intros; simplify_eq/=.
  do 2 f_equal. rewrite list_insert_alter. apply list_alter_ext; [|done].
  intros; by simplify_eq.
Qed.

Lemma read_mem_at p off n k s bs :
  pkt_at p s = Some k -> mem_read (pkt_mem k) (CSP_PACKET_PADDING_BYTES + off) n = Some bs ->
  read_mem p off n s = Ret bs s.
Proof. intros Hk Hr. unfold read_mem. rewrite (bind_ret _ _ _ _ _ (get_pkt_at _ _ _ Hk)). by rewrite Hr. Qed.

Lemma write_mem_at p off bs k s m :
  pkt_at p s = Some k -> mem_write (pkt_mem k) (CSP_PACKET_PADDING_BYTES + off) bs = Some m ->
  write_mem p off bs s = Ret tt (put_pkt p (set_pkt_mem m k) s).
Proof.
  intros Hk Hr. unfold write_mem. rewrite (bind_ret _ _ _ _ _ (get_pkt_at _ _ _ Hk)). rewrite Hr.
  by apply mod_pkt_at.
Qed.

Lemma rx_bytes_at data off n bs s : mem_read data off n = Some bs -> rx_bytes data off n s = Ret bs s.
Proof. intros E. unfold rx_bytes. by rewrite E. Qed.

Lemma wp_bind_assoc {A B C} (m : M A) (f : A -> M B) (g : B -> M C) Q s :
  wp (mbind g (mbind f m)) Q s -> wp (mbind (fun a => mbind g (f a)) m) Q s.
Proof. unfold wp, mbind, M_bind. by destruct (m s). Qed.

(** ** Frame conditions

    [keeps f m]: whenever [m] returns, the part [f] of the memory is as it was. *)

Definition keeps {A B} (f : node -> B) (m : M A) : Prop :=
  forall s, match m s with Ret _ s' => f s' = f s | _ => True end.

Lemma keeps_run {A B} (f : node -> B) (m : M A) s a s' : keeps f m -> m s = Ret a s' -> f s' = f s.
Proof. intros H E. specialize (H s). by rewrite E in H. Qed.

Lemma wp_keeps {A B} (f : node -> B) (m : M A) Q s :
  keeps f m -> wp m Q s -> wp m (fun a s' => Q a s' /\ f s' = f s) s.
Proof. intros H. specialize (H s). unfold wp. by destruct (m s). Qed.

Lemma keeps_ret {A B} (f : node -> B) (a : A) : keeps f (mret a).
Proof. done. Qed.
Lemma keeps_undef {A B} (f : node -> B) : keeps f (@undef A).
Proof. done. Qed.
Lemma keeps_halt {A B} (f : node -> B) : keeps f (@halt A).
Proof. done. Qed.
Lemma keeps_timed_out {A B} (f : node -> B) timeout (r : A) : keeps f (timed_out timeout r).
Proof. intros s. unfold timed_out. by destruct (timeout =? CSP_MAX_TIMEOUT). Qed.
Lemma keeps_gets {A B} (f : node -> B) (g : node -> A) : keeps f (gets g).
Proof. done. Qed.
Lemma keeps_of_option {A B} (f : node -> B) (o : option A) : keeps f (of_option o).
Proof. by destruct o. Qed.
Lemma keeps_bind {A B C} (f : node -> C) (m : M A) (k : A -> M B) :
  keeps f m -> (forall a, keeps f (k a)) -> keeps f (mbind k m).
Proof.
  intros Hm Hk s. specialize (Hm s). unfold mbind, M_bind. destruct (m s) as [a s'| | |]; [|done..].
  specialize (Hk a s'). destruct (k a s'); congruence.
Qed.
Lemma keeps_when {B} (f : node -> B) b m : (b = true -> keeps f m) -> keeps f (when b m).
Proof. unfold when. intros H. destruct b; [auto|apply keeps_ret]. Qed.
Lemma keeps_modify {B} (f : node -> B) g : (forall s, f (g s) = f s) -> keeps f (modify g).
Proof. intros H s. apply H. Qed.
Lemma keeps_while {B} (f : node -> B) fuel body : keeps f body -> keeps f (while_loop fuel body).
Proof.
  intros H. induction fuel as [|fuel IH]; [apply keeps_undef|]. simpl.
  apply keeps_bind; [done|]. intros [|]; [done|apply keeps_ret].
Qed.
Lemma keeps_for {B} (f : node -> B) n i body : (forall j, keeps f (body j)) -> keeps f (for_loop n i body).
Proof.
  intros H. revert i. induction n as [|n IH]; intros i; [apply keeps_ret|].
  simpl. apply keeps_bind; [apply H|intros _; apply IH].
Qed.

Lemma keeps_mod_skbf {B} (f : node -> B) p g : (forall v s, f (set_pool v s) = f s) -> keeps f (mod_skbf p g).
Proof. intros H s. unfold mod_skbf. destruct (pool s !! p); [apply H|done]. Qed.
Lemma keeps_mod_conn {B} (f : node -> B) c g : (forall v s, f (set_arr_conn v s) = f s) -> keeps f (mod_conn c g).
Proof. intros H s. unfold mod_conn. destruct (arr_conn s !! c); [apply H|done]. Qed.
Lemma keeps_mod_iface {B} (f : node -> B) i g : (forall v s, f (set_ifs v s) = f s) -> keeps f (mod_iface i g).
Proof. intros H s. unfold mod_iface. destruct (ifs s !! i); [apply H|done]. Qed.
Lemma keeps_mod_sock {B} (f : node -> B) k g : (forall v s, f (set_socks v s) = f s) -> keeps f (mod_sock k g).
Proof. intros H s. unfold mod_sock. destruct (socks s !! k); [apply H|done]. Qed.
Lemma keeps_get_skbf {B} (f : node -> B) p : keeps f (get_skbf p).
Proof. intros s. unfold get_skbf. by destruct (pool s !! p). Qed.
Lemma keeps_get_conn {B} (f : node -> B) c : keeps f (get_conn c).
Proof. intros s. unfold get_conn. by destruct (arr_conn s !! c). Qed.
Lemma keeps_get_iface {B} (f : node -> B) i : keeps f (get_iface i).
Proof. intros s. unfold get_iface. by destruct (ifs s !! i). Qed.
Lemma keeps_get_sock {B} (f : node -> B) k : keeps f (get_sock k).
Proof. intros s. unfold get_sock. by destruct (socks s !! k). Qed.
Lemma keeps_get_ms {B} `{Platform} (f : node -> B) : (forall v s, f (set_tick v s) = f s) -> keeps f csp_get_ms.
Proof. intros H0 s. apply H0. Qed.

Create HintDb keeps discriminated.
#[export] Hint Constants Opaque : keeps.

(** Walk through a function; unfold what is not a primitive by hand before. *)
Ltac keeps_step :=
  lazymatch goal with
  | |- keeps _ (mbind _ _) => apply keeps_bind; [|intros ?]
  | |- keeps _ (mret _) => apply keeps_ret
  | |- keeps _ undef => apply keeps_undef
  | |- keeps _ halt => apply keeps_halt
  | |- keeps _ (timed_out _ _) => apply keeps_timed_out
  | |- keeps _ (gets _) => apply keeps_gets
  | |- keeps _ (of_option _) => apply keeps_of_option
  | |- keeps _ (when _ _) => apply keeps_when; intros ?
  | |- keeps _ (for_loop _ _ _) => apply keeps_for; intros ?
  | |- keeps _ (while_loop _ _) => apply keeps_while
  | |- keeps _ (modify _) => apply keeps_modify; intros ?; reflexivity
  | |- keeps _ (mod_skbf _ _) => apply keeps_mod_skbf; intros ? ?; reflexivity
  | |- keeps _ (mod_pkt _ _) => unfold mod_pkt
  | |- keeps _ (mod_conn _ _) => apply keeps_mod_conn; intros ? ?; reflexivity
  | |- keeps _ (mod_rdp _ _) => unfold mod_rdp
  | |- keeps _ (mod_iface _ _) => apply keeps_mod_iface; intros ? ?; reflexivity
  | |- keeps _ (mod_sock _ _) => apply keeps_mod_sock; intros ? ?; reflexivity
  | |- keeps _ (get_skbf _) => apply keeps_get_skbf
  | |- keeps _ (get_pkt _) => unfold get_pkt
  | |- keeps _ (get_conn _) => apply keeps_get_conn
  | |- keeps _ (get_iface _) => apply keeps_get_iface
  | |- keeps _ (get_sock _) => apply keeps_get_sock
  | |- keeps _ csp_get_ms => apply keeps_get_ms; intros ? ?; reflexivity
  | |- keeps _ (read_mem _ _ _) => unfold read_mem
  | |- keeps _ (write_mem _ _ _) => unfold write_mem
  | |- keeps _ (read_frame _ _) => unfold read_frame
  | |- keeps _ (set_errno _) => unfold set_errno
  | |- keeps _ incr_conn_ovf => unfold incr_conn_ovf
  | |- keeps _ incr_conn_out => unfold incr_conn_out
  | |- keeps _ incr_buffer_out => unfold incr_buffer_out
  | |- keeps _ (incr_tx_error _) => unfold incr_tx_error
  | |- keeps _ (let _ := _ in _) => cbv zeta
  | |- keeps _ (if ?b then _ else _) => destruct b eqn:?
  | |- keeps _ (match ?o with _ => _ end) => destruct o eqn:?
  | |- keeps _ _ => solve [eauto with keeps]
  end.

Ltac keeps_tac := repeat keeps_step.

(** A call in a [wp] proof. *)
Tactic Notation "wp_use" tactic3(t) := eapply wp_conseq; [solve [t]|cbv beta].
