(* ===== verification/Id.v ===== *)
(** * Id: the CSP header codecs ([src/csp_id.c], [csp_id_copy] and
    [csp_id_clear] of [src/csp_io.c])

    Version 1 packs the header into 32 bits, version 2 into 48.  [prepend]
    writes the packed header just below [data] and points [frame_begin] at it,
    [strip] parses it back. *)

From S2P Require Import Prelude State Monad.

Definition CSP_ID1_HOST_SIZE : Z := 5.
Definition CSP_ID1_PORT_SIZE : Z := 6.
Definition CSP_ID1_PRIO_OFFSET : Z := 30.
Definition CSP_ID1_SRC_OFFSET : Z := 25.
Definition CSP_ID1_DST_OFFSET : Z := 20.
Definition CSP_ID1_DPORT_OFFSET : Z := 14.
Definition CSP_ID1_SPORT_OFFSET : Z := 8.
Definition CSP_ID1_FLAGS_OFFSET : Z := 0.
Definition CSP_ID1_HEADER_SIZE : Z := 4.

Definition CSP_ID2_HOST_SIZE : Z := 14.
Definition CSP_ID2_PORT_SIZE : Z := 6.
Definition CSP_ID2_PRIO_OFFSET : Z := 46.
Definition CSP_ID2_DST_OFFSET : Z := 32.
Definition CSP_ID2_SRC_OFFSET : Z := 18.
Definition CSP_ID2_DPORT_OFFSET : Z := 12.
Definition CSP_ID2_SPORT_OFFSET : Z := 6.
Definition CSP_ID2_FLAGS_OFFSET : Z := 0.
Definition CSP_ID2_HEADER_SIZE : Z := 6.

(** ** Packing, as done in a host register *)

Definition id1_pack (i : csp_id) : Z :=
  Z.lor (Z.lor (Z.lor (Z.lor (Z.lor
    (u32 (Z.shiftl (pri i) CSP_ID1_PRIO_OFFSET))
    (u32 (Z.shiftl (dst i) CSP_ID1_DST_OFFSET)))
    (u32 (Z.shiftl (src i) CSP_ID1_SRC_OFFSET)))
    (u32 (Z.shiftl (dport i) CSP_ID1_DPORT_OFFSET)))
    (u32 (Z.shiftl (sport i) CSP_ID1_SPORT_OFFSET)))
    (u32 (Z.shiftl (flags i) CSP_ID1_FLAGS_OFFSET)).

Definition id1_unpack (w : Z) : csp_id :=
  {| pri := Z.land (Z.shiftr w CSP_ID1_PRIO_OFFSET) 0x3;
     dst := Z.land (Z.shiftr w CSP_ID1_DST_OFFSET) 0x1F;
     src := Z.land (Z.shiftr w CSP_ID1_SRC_OFFSET) 0x1F;
     dport := Z.land (Z.shiftr w CSP_ID1_DPORT_OFFSET) 0x3F;
     sport := Z.land (Z.shiftr w CSP_ID1_SPORT_OFFSET) 0x3F;
     flags := Z.land (Z.shiftr w CSP_ID1_FLAGS_OFFSET) 0xFF |}.

Definition id2_pack (i : csp_id) : Z :=
  Z.lor (Z.lor (Z.lor (Z.lor (Z.lor
    (u64 (Z.shiftl (pri i) CSP_ID2_PRIO_OFFSET))
    (u64 (Z.shiftl (dst i) CSP_ID2_DST_OFFSET)))
    (u64 (Z.shiftl (src i) CSP_ID2_SRC_OFFSET)))
    (Z.shiftl (dport i) CSP_ID2_DPORT_OFFSET))
    (Z.shiftl (sport i) CSP_ID2_SPORT_OFFSET))
    (Z.shiftl (flags i) CSP_ID2_FLAGS_OFFSET).

Definition id2_unpack (w : Z) : csp_id :=
  {| pri := Z.land (Z.shiftr w CSP_ID2_PRIO_OFFSET) 0x3;
     dst := Z.land (Z.shiftr w CSP_ID2_DST_OFFSET) 0x3FFF;
     src := Z.land (Z.shiftr w CSP_ID2_SRC_OFFSET) 0x3FFF;
     dport := Z.land (Z.shiftr w CSP_ID2_DPORT_OFFSET) 0x3F;
     sport := Z.land (Z.shiftr w CSP_ID2_SPORT_OFFSET) 0x3F;
     flags := Z.land (Z.shiftr w CSP_ID2_FLAGS_OFFSET) 0x3F |}.

(** ** Version 1 *)

Definition csp_id1_prepend (p : nat) (cspv1_fixup : bool) : M unit :=
  k ← get_pkt p;
  let id1_raw := id1_pack (pkt_id k) in
  let id1 := if cspv1_fixup then id1_raw else htobe32 id1_raw in
  mod_pkt p (fun k =>
    set_frame_length (u16 (pkt_length k + CSP_ID1_HEADER_SIZE))
      (set_frame_off (- CSP_ID1_HEADER_SIZE) (set_frame_buf p k))) ;;
  write_mem p (- CSP_ID1_HEADER_SIZE) (le_bytes 4 id1).

Definition csp_id1_strip (p : nat) (cspv1_fixup : bool) : M Z :=
  k ← get_pkt p;
  if frame_length k <? CSP_ID1_HEADER_SIZE then mret (-1) else
  bs ← read_frame p CSP_ID1_HEADER_SIZE;
  let id1_raw := le_val bs in
  mod_pkt p (set_pkt_length (u16 (frame_length k - CSP_ID1_HEADER_SIZE))) ;;
  let id1 := if cspv1_fixup then id1_raw else be32toh id1_raw in
  mod_pkt p (set_pkt_id (id1_unpack id1)) ;;
  mret 0.

Definition csp_id1_setup_rx (p : nat) : M unit :=
  mod_pkt p (fun k =>
    set_frame_length 0 (set_frame_off (- CSP_ID1_HEADER_SIZE) (set_frame_buf p k))).

(** ** Version 2 *)

Definition csp_id2_prepend (p : nat) : M unit :=
  k ← get_pkt p;
  let id2 := htobe64 (u64 (Z.shiftl (id2_pack (pkt_id k)) 16)) in
  mod_pkt p (fun k =>
    set_frame_length (u16 (pkt_length k + CSP_ID2_HEADER_SIZE))
      (set_frame_off (- CSP_ID2_HEADER_SIZE) (set_frame_buf p k))) ;;
  write_mem p (- CSP_ID2_HEADER_SIZE) (take 6 (le_bytes 8 id2)).

Definition csp_id2_strip (p : nat) : M Z :=
  k ← get_pkt p;
  if frame_length k <? CSP_ID2_HEADER_SIZE then mret (-1) else
  bs ← read_frame p CSP_ID2_HEADER_SIZE;
  mod_pkt p (set_pkt_length (u16 (frame_length k - CSP_ID2_HEADER_SIZE))) ;;
  let id2 := Z.shiftr (be64toh (le_val (bs ++ [0; 0]))) 16 in
  mod_pkt p (set_pkt_id (id2_unpack id2)) ;;
  mret 0.

Definition csp_id2_setup_rx (p : nat) : M unit :=
  mod_pkt p (fun k =>
    set_frame_length 0 (set_frame_off (- CSP_ID2_HEADER_SIZE) (set_frame_buf p k))).

(** ** Run-time dispatch on [csp_conf.version] *)

Definition is_v2 (s : node) : bool := version (conf s) =? 2.

Definition csp_id_prepend (p : nat) : M unit :=
  v2 ← gets is_v2; if v2 : bool then csp_id2_prepend p else csp_id1_prepend p false.

Definition csp_id_strip (p : nat) : M Z :=
  v2 ← gets is_v2; if v2 : bool then csp_id2_strip p else csp_id1_strip p false.

Definition csp_id_prepend_fixup_cspv1 (p : nat) : M unit :=
  v2 ← gets is_v2; if v2 : bool then csp_id2_prepend p else csp_id1_prepend p true.

Definition csp_id_strip_fixup_cspv1 (p : nat) : M Z :=
  v2 ← gets is_v2; if v2 : bool then csp_id2_strip p else csp_id1_strip p true.

Definition csp_id_setup_rx (p : nat) : M Z :=
  v2 ← gets is_v2;
  if v2 : bool then csp_id2_setup_rx p ;; mret CSP_ID2_HEADER_SIZE
  else csp_id1_setup_rx p ;; mret CSP_ID1_HEADER_SIZE.

Definition csp_id_get_host_bits (s : node) : Z :=
  if is_v2 s then CSP_ID2_HOST_SIZE else CSP_ID1_HOST_SIZE.

Definition csp_id_get_max_nodeid (s : node) : Z :=
  if is_v2 s then Z.shiftl 1 CSP_ID2_HOST_SIZE - 1 else Z.shiftl 1 CSP_ID1_HOST_SIZE - 1.

Definition csp_id_get_max_port (s : node) : Z :=
  if is_v2 s then Z.shiftl 1 CSP_ID2_PORT_SIZE - 1 else Z.shiftl 1 CSP_ID1_PORT_SIZE - 1.

(** The shift count [host_bits - netmask] is an [unsigned int]: a netmask above
    the host bits makes the shift undefined ([None]). *)
Definition csp_id_is_broadcast (s : node) (addr : Z) (ifc : csp_iface) : option bool :=
  let hb := csp_id_get_host_bits s in
  if hb <? if_netmask ifc then None else
  let hostmask := u16 (Z.shiftl 1 (hb - if_netmask ifc) - 1) in
  let netmask := u16 (Z.shiftl 1 hb - 1 - hostmask) in
  Some (if (Z.land addr hostmask =? hostmask) &&
           (Z.land addr netmask =? Z.land (if_addr ifc) netmask) then true
        else addr =? csp_id_get_max_nodeid s).

(** [csp_id_copy] and [csp_id_clear] *)
Definition csp_id_copy (source : csp_id) : csp_id :=
  mkId (pri source) (flags source) (src source) (dst source) (dport source) (sport source).

Definition csp_id_clear : csp_id := mkId 0 0 0 0 0 0.

(** ** Packing is a bijection between headers and words *)

(** The ranges of the fields of a version 1 and a version 2 header. *)
Definition id1_ok (i : csp_id) : Prop :=
  0 <= pri i < 4 /\ 0 <= dst i < 32 /\ 0 <= src i < 32 /\
  0 <= dport i < 64 /\ 0 <= sport i < 64 /\ 0 <= flags i < 256.

Definition id2_ok (i : csp_id) : Prop :=
  0 <= pri i < 4 /\ 0 <= dst i < 16384 /\ 0 <= src i < 16384 /\
  0 <= dport i < 64 /\ 0 <= sport i < 64 /\ 0 <= flags i < 64.

Lemma lor_swap a b c : Z.lor (Z.lor a b) c = Z.lor (Z.lor a c) b.
Proof. by rewrite <- !Z.lor_assoc, (Z.lor_comm b c). Qed.

(** Six adjacent fields, as a sum. *)
Lemma lor_fields6 a b c d e f k1 k2 k3 k4 k5 :
  0 <= k5 <= k4 -> k4 <= k3 -> k3 <= k2 -> k2 <= k1 ->
  0 <= f < 2 ^ k5 -> 0 <= e < 2 ^ (k4 - k5) -> 0 <= d < 2 ^ (k3 - k4) ->
  0 <= c < 2 ^ (k2 - k3) -> 0 <= b < 2 ^ (k1 - k2) -> 0 <= a ->
  Z.lor (Z.lor (Z.lor (Z.lor (Z.lor (Z.shiftl a k1) (Z.shiftl b k2)) (Z.shiftl c k3))
    (Z.shiftl d k4)) (Z.shiftl e k5)) f =
  a * 2 ^ k1 + (b * 2 ^ k2 + (c * 2 ^ k3 + (d * 2 ^ k4 + (e * 2 ^ k5 + f)))).
Proof.
  assert (Hstep : forall x r k k', 0 <= k <= k' -> 0 <= x < 2 ^ (k' - k) -> 0 <= r < 2 ^ k ->
    Z.lor (Z.shiftl x k) r = x * 2 ^ k + r /\ 0 <= x * 2 ^ k + r < 2 ^ k').
  { intros x r k k' Hk Hx Hr. rewrite lor_shiftl_add by lia. split; [done|].
    replace k' with ((k' - k) + k) by lia. rewrite Z.pow_add_r by lia. nia. }
  intros. rewrite <- !Z.lor_assoc.
  destruct (Hstep e f k5 k4) as [-> ?]; [lia..|].
  destruct (Hstep d (e * 2 ^ k5 + f) k4 k3) as [-> ?]; [lia..|].
  destruct (Hstep c (d * 2 ^ k4 + (e * 2 ^ k5 + f)) k3 k2) as [-> ?]; [lia..|].
  destruct (Hstep b (c * 2 ^ k3 + (d * 2 ^ k4 + (e * 2 ^ k5 + f))) k2 k1) as [-> ?]; [lia..|].
  apply lor_shiftl_add; lia.
Qed.

Lemma id1_pack_sum i : id1_ok i ->
  id1_pack i = pri i * 2 ^ 30 + (src i * 2 ^ 25 + (dst i * 2 ^ 20 +
    (dport i * 2 ^ 14 + (sport i * 2 ^ 8 + flags i)))).
Proof.
  intros (? & ? & ? & ? & ? & ?).
  unfold id1_pack, CSP_ID1_PRIO_OFFSET, CSP_ID1_SRC_OFFSET, CSP_ID1_DST_OFFSET,
    CSP_ID1_DPORT_OFFSET, CSP_ID1_SPORT_OFFSET, CSP_ID1_FLAGS_OFFSET.
  rewrite !u32_small by (rewrite Z.shiftl_mul_pow2 by done; lia).
  rewrite (lor_swap _ (Z.shiftl (dst i) _)), Z.shiftl_0_r. apply lor_fields6; lia.
Qed.

Lemma id2_pack_sum i : id2_ok i ->
  id2_pack i = pri i * 2 ^ 46 + (dst i * 2 ^ 32 + (src i * 2 ^ 18 +
    (dport i * 2 ^ 12 + (sport i * 2 ^ 6 + flags i)))).
Proof.
  intros (? & ? & ? & ? & ? & ?).
  unfold id2_pack, u64, CSP_ID2_PRIO_OFFSET, CSP_ID2_SRC_OFFSET, CSP_ID2_DST_OFFSET,
    CSP_ID2_DPORT_OFFSET, CSP_ID2_SPORT_OFFSET, CSP_ID2_FLAGS_OFFSET.
  rewrite !(Z.mod_small (Z.shiftl _ _)) by (rewrite Z.shiftl_mul_pow2 by done; lia).
  rewrite Z.shiftl_0_r. apply lor_fields6; lia.
Qed.

Lemma id1_unpack_divmod w : id1_unpack w =
  mkId (w / 2 ^ 30 mod 2 ^ 2) (w / 2 ^ 0 mod 2 ^ 8) (w / 2 ^ 25 mod 2 ^ 5) (w / 2 ^ 20 mod 2 ^ 5)
    (w / 2 ^ 14 mod 2 ^ 6) (w / 2 ^ 8 mod 2 ^ 6).
Proof. unfold id1_unpack. f_equal; rewrite <- field_divmod by lia; done. Qed.

Lemma id2_unpack_divmod w : id2_unpack w =
  mkId (w / 2 ^ 46 mod 2 ^ 2) (w / 2 ^ 0 mod 2 ^ 6) (w / 2 ^ 18 mod 2 ^ 14) (w / 2 ^ 32 mod 2 ^ 14)
    (w / 2 ^ 12 mod 2 ^ 6) (w / 2 ^ 6 mod 2 ^ 6).
Proof. unfold id2_unpack. f_equal; rewrite <- field_divmod by lia; done. Qed.

Lemma id1_unpack_pack i : id1_ok i -> id1_unpack (id1_pack i) = i.
Proof.
  intros Hi. rewrite id1_unpack_divmod, (id1_pack_sum i Hi).
  destruct i as [p f sr d dp sp], Hi as (? & ? & ? & ? & ? & ?). cbn [pri dst src dport sport flags] in *.
  f_equal; zlia.
Qed.

Lemma id2_unpack_pack i : id2_ok i -> id2_unpack (id2_pack i) = i.
Proof.
  intros Hi. rewrite id2_unpack_divmod, (id2_pack_sum i Hi).
  destruct i as [p f sr d dp sp], Hi as (? & ? & ? & ? & ? & ?). cbn [pri dst src dport sport flags] in *.
  f_equal; zlia.
Qed.

Lemma id1_unpack_ok w : id1_ok (id1_unpack w).
Proof.
  rewrite id1_unpack_divmod. unfold id1_ok. cbn [pri dst src dport sport flags].
  split_and!; apply Z.mod_pos_bound; lia.
Qed.

Lemma id2_unpack_ok w : id2_ok (id2_unpack w).
Proof.
  rewrite id2_unpack_divmod. unfold id2_ok. cbn [pri dst src dport sport flags].
  split_and!; apply Z.mod_pos_bound; lia.
Qed.

Lemma id1_pack_unpack w : 0 <= w < 2 ^ 32 -> id1_pack (id1_unpack w) = w.
Proof.
  intros Hw. rewrite id1_pack_sum by apply id1_unpack_ok. rewrite id1_unpack_divmod.
  cbn [pri dst src dport sport flags]. zlia.
Qed.

Lemma id2_pack_unpack w : 0 <= w < 2 ^ 48 -> id2_pack (id2_unpack w) = w.
Proof.
  intros Hw. rewrite id2_pack_sum by apply id2_unpack_ok. rewrite id2_unpack_divmod.
  cbn [pri dst src dport sport flags]. zlia.
Qed.

(** ** The header on the wire *)

Definition enc1 (fixup : bool) (i : csp_id) : list Z :=
  le_bytes 4 (if fixup then id1_pack i else htobe32 (id1_pack i)).
Definition dec1 (fixup : bool) (bs : list Z) : csp_id :=
  id1_unpack (if fixup then le_val bs else be32toh (le_val bs)).
Definition enc2 (i : csp_id) : list Z := take 6 (le_bytes 8 (htobe64 (u64 (Z.shiftl (id2_pack i) 16)))).
Definition dec2 (bs : list Z) : csp_id := id2_unpack (Z.shiftr (be64toh (le_val (bs ++ [0; 0]))) 16).

Lemma id1_pack_range i : id1_ok i -> 0 <= id1_pack i < 2 ^ 32.
Proof. intros Hi. rewrite id1_pack_sum by done. unfold id1_ok in Hi. lia. Qed.

Lemma id2_pack_range i : id2_ok i -> 0 <= id2_pack i < 2 ^ 48.
Proof. intros Hi. rewrite id2_pack_sum by done. unfold id2_ok in Hi. lia. Qed.

Lemma dec1_enc1 fixup i : id1_ok i -> dec1 fixup (enc1 fixup i) = i.
Proof.
  intros Hi. pose proof (id1_pack_range i Hi). unfold dec1, enc1.
  pose proof (htobe32_range (id1_pack i)).
  destruct fixup; rewrite le_val_small by (change (256 ^ Z.of_nat 4) with (2 ^ 32); lia); [by apply id1_unpack_pack|].
  rewrite be32toh_htobe32 by done. by apply id1_unpack_pack.
Qed.

Lemma enc1_dec1 fixup bs : bytes_ok bs -> length bs = 4%nat -> enc1 fixup (dec1 fixup bs) = bs.
Proof.
  intros Hb Hl. pose proof (le_val_range bs Hb) as Hr. rewrite Hl in Hr. change (256 ^ Z.of_nat 4) with (2 ^ 32) in Hr.
  unfold dec1, enc1. destruct fixup.
  - rewrite id1_pack_unpack by done. by apply le_bytes_val'.
  - rewrite id1_pack_unpack by apply htobe32_range. unfold be32toh.
    change (htobe32 (htobe32 (le_val bs))) with (be32toh (htobe32 (le_val bs))).
    rewrite be32toh_htobe32 by done. by apply le_bytes_val'.
Qed.

(** The wire form of version 2: six bytes, most significant first. *)
Lemma enc2_be i : id2_ok i -> enc2 i = be_bytes 6 (id2_pack i).
Proof.
  intros Hi. pose proof (id2_pack_range i Hi). unfold enc2, htobe64.
  rewrite Z.shiftl_mul_pow2 by lia. unfold u64. rewrite Z.mod_small by lia.
  rewrite le_bytes_swap. unfold be_bytes. change (2 ^ 16) with 65536.
  change (le_bytes 8 ?x) with (x mod 256 :: x / 256 mod 256 :: le_bytes 6 (x / 256 / 256)).
  replace (id2_pack i * 65536 / 256 / 256) with (id2_pack i) by zlia.
  rewrite !reverse_cons, <- app_assoc. apply take_app_length'.
  by rewrite length_reverse, length_le_bytes.
Qed.

Lemma dec2_be bs : bytes_ok bs -> length bs = 6%nat -> dec2 bs = id2_unpack (be_val bs).
Proof.
  intros Hb Hl. unfold dec2, be64toh, htobe64. f_equal.
  assert (bytes_ok (bs ++ [0; 0])).
  { apply Forall_app_2; [done|]. repeat constructor; unfold is_byte; lia. }
  rewrite le_bytes_val'; [|done|rewrite length_app; simpl; lia].
  unfold be_val. rewrite reverse_app. cbn [reverse rev_append app le_val].
  rewrite Z.shiftr_div_pow2 by lia. zlia.
Qed.

Lemma be_bytes_val' bs n : bytes_ok bs -> length bs = n -> be_bytes n (be_val bs) = bs.
Proof.
  intros Hb Hl. unfold be_bytes, be_val. rewrite le_bytes_val'.
  - apply reverse_involutive.
  - by apply Forall_reverse.
  - by rewrite length_reverse.
Qed.

Lemma length_enc2 i : length (enc2 i) = 6%nat.
Proof. unfold enc2. rewrite length_take, length_le_bytes. done. Qed.

Lemma dec2_enc2 i : id2_ok i -> dec2 (enc2 i) = i.
Proof.
  intros Hi. rewrite dec2_be; [|rewrite enc2_be by done; apply be_bytes_ok|apply length_enc2].
  rewrite enc2_be, be_val_bytes by done. rewrite Z.mod_small by (by apply id2_pack_range).
  by apply id2_unpack_pack.
Qed.

Lemma enc2_dec2 bs : bytes_ok bs -> length bs = 6%nat -> enc2 (dec2 bs) = bs.
Proof.
  intros Hb Hl. rewrite dec2_be by done. pose proof (be_val_range bs Hb) as Hr. rewrite Hl in Hr.
  rewrite enc2_be by apply id2_unpack_ok. rewrite id2_pack_unpack by done. by apply be_bytes_val'.
Qed.

(** ** Runs of prepend and strip on one packet *)

(** The packet after a header of [n] bytes has been put in front. *)
Definition framed (p : nat) (n : Z) (m : list Z) (k : csp_packet) : csp_packet :=
  set_pkt_mem m (set_frame_length (u16 (pkt_length k + n)) (set_frame_off (- n) (set_frame_buf p k))).

(** The packet after a header of [n] bytes has been parsed. *)
Definition stripped (n : Z) (i : csp_id) (k : csp_packet) : csp_packet :=
  set_pkt_id i (set_pkt_length (u16 (frame_length k - n)) k).

Definition hdr_size (s : node) : Z := if is_v2 s then CSP_ID2_HEADER_SIZE else CSP_ID1_HEADER_SIZE.
Definition enc (s : node) (fixup : bool) (i : csp_id) : list Z := if is_v2 s then enc2 i else enc1 fixup i.
Definition dec (s : node) (fixup : bool) (bs : list Z) : csp_id := if is_v2 s then dec2 bs else dec1 fixup bs.
Definition id_ok (s : node) (i : csp_id) : Prop := if is_v2 s then id2_ok i else id1_ok i.

(** Prepend and strip of either kind of interface. *)
Definition prepend_any (fixup : bool) (p : nat) : M unit :=
  if fixup then csp_id_prepend_fixup_cspv1 p else csp_id_prepend p.
Definition strip_any (fixup : bool) (p : nat) : M Z :=
  if fixup then csp_id_strip_fixup_cspv1 p else csp_id_strip p.

Lemma prepend_at fixup p k s m : pkt_at p s = Some k ->
  mem_write (pkt_mem k) (CSP_PACKET_PADDING_BYTES + - hdr_size s) (enc s fixup (pkt_id k)) = Some m ->
  prepend_any fixup p s = Ret tt (put_pkt p (framed p (hdr_size s) m k) s).
Proof.
  intros Hk Hm. unfold prepend_any, hdr_size, enc in *.
  assert (Hrun : forall n bs, mem_write (pkt_mem k) (CSP_PACKET_PADDING_BYTES + - n) bs = Some m ->
    (mod_pkt p (fun k => set_frame_length (u16 (pkt_length k + n)) (set_frame_off (- n) (set_frame_buf p k))) ;;
     write_mem p (- n) bs) s = Ret tt (put_pkt p (framed p n m k) s)).
  { intros n bs Hw. erewrite bind_ret by (eapply mod_pkt_at; exact Hk).
    erewrite write_mem_at; [|eapply pkt_at_put; exact Hk|exact Hw]. by rewrite put_pkt_put. }
  destruct fixup; unfold csp_id_prepend_fixup_cspv1, csp_id_prepend;
    rewrite (bind_ret _ _ _ (is_v2 s) s) by done; destruct (is_v2 s);
    unfold csp_id2_prepend, csp_id1_prepend;
    erewrite bind_ret by (eapply get_pkt_at; exact Hk); cbv zeta; by apply Hrun.
Qed.

Lemma strip_at fixup p k s bs : pkt_at p s = Some k -> frame_buf k = p ->
  hdr_size s <= frame_length k ->
  mem_read (pkt_mem k) (CSP_PACKET_PADDING_BYTES + frame_off k) (hdr_size s) = Some bs ->
  strip_any fixup p s = Ret 0 (put_pkt p (stripped (hdr_size s) (dec s fixup bs) k) s).
Proof.
  intros Hk Hf Hl Hr. unfold strip_any, hdr_size, dec in *.
  assert (Hread : forall n, mem_read (pkt_mem k) (CSP_PACKET_PADDING_BYTES + frame_off k) n = Some bs ->
    read_frame p n s = Ret bs s).
  { intros n Hn. unfold read_frame. erewrite bind_ret by (eapply get_pkt_at; exact Hk).
    rewrite Hf. by eapply read_mem_at. }
  destruct fixup; unfold csp_id_strip_fixup_cspv1, csp_id_strip;
    rewrite (bind_ret _ _ _ (is_v2 s) s) by done; destruct (is_v2 s);
    unfold csp_id2_strip, csp_id1_strip;
    erewrite bind_ret by (eapply get_pkt_at; exact Hk);
    rewrite (proj2 (Z.ltb_ge _ _)) by done;
    erewrite bind_ret by (by apply Hread); cbv zeta;
    erewrite bind_ret by (eapply mod_pkt_at; exact Hk);
    erewrite bind_ret by (eapply mod_pkt_at, pkt_at_put; exact Hk);
    by rewrite put_pkt_put.
Qed.

Lemma strip_short fixup p k s : pkt_at p s = Some k -> frame_length k < hdr_size s -> strip_any fixup p s = Ret (-1) s.
Proof.
  intros Hk Hl. unfold strip_any, csp_id_strip_fixup_cspv1, csp_id_strip, csp_id1_strip, csp_id2_strip, hdr_size in *.
  destruct fixup; (erewrite bind_ret by reflexivity); destruct (is_v2 s); (erewrite bind_ret by (by apply get_pkt_at));
    by rewrite (proj2 (Z.ltb_lt _ _)) by done.
Qed.

Lemma setup_rx_at p k s : pkt_at p s = Some k ->
  csp_id_setup_rx p s = Ret (hdr_size s) (put_pkt p (set_frame_length 0 (set_frame_off (- hdr_size s) (set_frame_buf p k))) s).
Proof.
  intros Hk. unfold csp_id_setup_rx, hdr_size. erewrite bind_ret by reflexivity.
  destruct (is_v2 s); (erewrite bind_ret; [reflexivity|exact (mod_pkt_at _ _ _ _ Hk)]).
Qed.

Lemma length_enc s fixup i : zlen (enc s fixup i) = hdr_size s.
Proof. unfold enc, hdr_size. destruct (is_v2 s); [by rewrite length_enc2|]. unfold enc1. by rewrite length_le_bytes. Qed.

Lemma hdr_size_bound s : 4 <= hdr_size s <= 6.
Proof. unfold hdr_size. destruct (is_v2 s); done. Qed.

(** ** Properties *)

(** C32. The header round trip, for both header versions and both byte orders of
    version 1: [csp_id_prepend] followed by [csp_id_strip] succeeds and gives
    back the id, the length and the payload of the packet. *)
Theorem id_prepend_strip fixup s p k :
  pkt_at p s = Some k -> zlen (pkt_mem k) = CSP_PACKET_PADDING_BYTES + CSP_BUFFER_SIZE ->
  0 <= pkt_length k <= CSP_BUFFER_SIZE -> id_ok s (pkt_id k) ->
  exists k', (prepend_any fixup p ;; strip_any fixup p) s = Ret 0 (put_pkt p k' s) /\
    pkt_id k' = pkt_id k /\ pkt_length k' = pkt_length k /\
    frame_length k' = pkt_length k + hdr_size s /\
    mem_read (pkt_mem k') CSP_PACKET_PADDING_BYTES CSP_BUFFER_SIZE =
    mem_read (pkt_mem k) CSP_PACKET_PADDING_BYTES CSP_BUFFER_SIZE.
Proof.
  unfold CSP_PACKET_PADDING_BYTES, CSP_BUFFER_SIZE.
  intros Hk Hm Hl Hid. pose proof (hdr_size_bound s). pose proof (length_enc s fixup (pkt_id k)) as He.
  destruct (mem_write_ok (pkt_mem k) (8 + - hdr_size s) (enc s fixup (pkt_id k))) as [m Hw]; [lia..|].
  erewrite bind_ret by (eapply prepend_at; [exact Hk|exact Hw]).
  eexists. split.
  - erewrite strip_at; [by rewrite put_pkt_put|by eapply pkt_at_put|done| |].
    + simpl. rewrite u16_small; unfold hdr_size, is_v2 in *; simpl in *; lia.
    + simpl. change (hdr_size (put_pkt p _ s)) with (hdr_size s).
      rewrite <- He. rewrite He at 1. by eapply mem_read_write.
  - change (hdr_size (put_pkt p _ s)) with (hdr_size s).
    change (dec (put_pkt p _ s)) with (dec s). simpl.
    rewrite (u16_small (pkt_length k + _)) by lia. rewrite u16_small by lia.
    split_and!; [|lia|done|].
    + unfold dec, enc, id_ok in *. destruct (is_v2 s); [by apply dec2_enc2|by apply dec1_enc1].
    + eapply mem_read_write_after; [exact Hw|lia|lia].
Qed.

Lemma dec_ok s fixup bs : id_ok s (dec s fixup bs).
Proof. unfold id_ok, dec. destruct (is_v2 s); [apply id2_unpack_ok|apply id1_unpack_ok]. Qed.

(** C33. A received header is typed, whatever the bytes are: [csp_id_strip] of
    either header version and byte order returns on every received frame.  A
    frame shorter than the header is refused and nothing changes; from any
    other the fields of the identifier are within the widths of the header and
    the length is the rest of the frame, and the bytes stay as they are. *)
Theorem id_strip_typed fixup s p k :
  pkt_at p s = Some k -> zlen (pkt_mem k) = CSP_PACKET_PADDING_BYTES + CSP_BUFFER_SIZE ->
  frame_buf k = p -> frame_off k = - hdr_size s -> 0 <= frame_length k < 65536 ->
  (frame_length k < hdr_size s /\ strip_any fixup p s = Ret (-1) s) \/
  exists k', strip_any fixup p s = Ret 0 (put_pkt p k' s) /\ id_ok s (pkt_id k') /\
    pkt_length k' = frame_length k - hdr_size s /\ pkt_mem k' = pkt_mem k /\ frame_length k' = frame_length k.
Proof.
  unfold CSP_PACKET_PADDING_BYTES, CSP_BUFFER_SIZE. intros Hk Hm Hf Ho Hl. pose proof (hdr_size_bound s).
  destruct (Z.lt_ge_cases (frame_length k) (hdr_size s)) as [Hs|Hs]; [left; split; [done|by eapply strip_short]|right].
  destruct (mem_read_ok (pkt_mem k) (8 + frame_off k) (hdr_size s)) as [bs Hr]; [lia..|].
  exists (stripped (hdr_size s) (dec s fixup bs) k). split; [by apply strip_at|]. split; [apply dec_ok|].
  simpl. split; [by rewrite u16_small by lia|done].
Qed.

(** Forwarding is lossless: a received header, parsed by [csp_id_strip] and
    written again by [csp_id_prepend], is the same bytes; the whole memory of
    the packet and its frame length are as received. *)
Theorem id_strip_prepend fixup s p k :
  pkt_at p s = Some k -> zlen (pkt_mem k) = CSP_PACKET_PADDING_BYTES + CSP_BUFFER_SIZE ->
  bytes_ok (pkt_mem k) -> frame_buf k = p -> frame_off k = - hdr_size s ->
  hdr_size s <= frame_length k < 65536 ->
  exists k', (strip_any fixup p ;; prepend_any fixup p) s = Ret tt (put_pkt p k' s) /\
    pkt_mem k' = pkt_mem k /\ frame_length k' = frame_length k /\
    pkt_length k' = frame_length k - hdr_size s.
Proof.
  unfold CSP_PACKET_PADDING_BYTES, CSP_BUFFER_SIZE.
  intros Hk Hm Hb Hf Ho Hl. pose proof (hdr_size_bound s).
  destruct (mem_read_ok (pkt_mem k) (8 + frame_off k) (hdr_size s)) as [bs Hr]; [lia..|].
  assert (Hbs : bytes_ok bs) by (by eapply mem_read_bytes_ok).
  assert (Hlen : zlen bs = hdr_size s) by (by eapply mem_read_length).
  erewrite bind_ret by (eapply strip_at; [exact Hk|done|lia|exact Hr]).
  assert (Hed : enc s fixup (dec s fixup bs) = bs).
  { unfold enc, dec, hdr_size, CSP_ID2_HEADER_SIZE, CSP_ID1_HEADER_SIZE in *.
    destruct (is_v2 s); [apply enc2_dec2|apply enc1_dec1]; auto; lia. }
  eexists. split.
  - erewrite prepend_at; [by rewrite put_pkt_put|by eapply pkt_at_put|].
    change (enc (put_pkt p _ s)) with (enc s). change (hdr_size (put_pkt p _ s)) with (hdr_size s).
    simpl. rewrite Hed, <- Ho. by eapply mem_write_read.
  - change (hdr_size (put_pkt p _ s)) with (hdr_size s). simpl.
    rewrite (u16_small (frame_length k - _)) by lia. rewrite u16_small by lia.
    split_and!; [done|lia|lia].
Qed.

(** The packed form of broadcast tests. *)
Lemma land_hostmask a n : 0 <= n -> Z.land a (2 ^ n - 1) = a mod 2 ^ n.
Proof. intros. rewrite <- Z.land_ones by done. by rewrite Z.ones_equiv. Qed.

(** Masking the network part of an [h]-bit address. *)
Lemma land_netmask a n h : 0 <= n <= h -> 0 <= a < 2 ^ h ->
  Z.land a (2 ^ h - 1 - (2 ^ n - 1)) = a / 2 ^ n * 2 ^ n.
Proof.
  intros Hn Ha. rewrite <- Z.shiftl_mul_pow2, <- Z.shiftr_div_pow2, <- Z.ldiff_ones_r by lia.
  replace (2 ^ h - 1 - (2 ^ n - 1)) with (Z.ldiff (Z.ones h) (Z.ones n)).
  - apply Z.bits_inj'. intros i Hi. rewrite Z.land_spec, !Z.ldiff_spec.
    destruct (Z.testbit a i) eqn:E; [|done]. simpl.
    rewrite Z.ones_spec_low; [done|]. split; [done|].
    destruct (Z.lt_ge_cases i h); [done|]. exfalso.
    rewrite Z.bits_above_log2 in E; [done|lia|].
    destruct (Z.eq_dec a 0) as [->|]; [rewrite Z.bits_0 in E; done|].
    apply Z.log2_lt_pow2; [lia|]. eapply Z.lt_le_trans; [apply Ha|]. apply Z.pow_le_mono_r; lia.
  - rewrite <- Z.sub_nocarry_ldiff; [rewrite !Z.ones_equiv; lia|].
    apply Z.bits_inj'. intros i Hi. rewrite Z.ldiff_spec, Z.bits_0.
    destruct (Z.lt_ge_cases i n); [rewrite (Z.ones_spec_low h) by lia; apply andb_false_r|].
    rewrite (Z.ones_spec_high n) by lia. done.
Qed.

Lemma host_bits_cases s : csp_id_get_host_bits s = 5 \/ csp_id_get_host_bits s = 14.
Proof. unfold csp_id_get_host_bits. destruct (is_v2 s); [by right|by left]. Qed.

Lemma host_bits_pow s : 32 <= 2 ^ csp_id_get_host_bits s <= 16384.
Proof. destruct (host_bits_cases s) as [-> | ->]; lia. Qed.

Lemma max_nodeid_pow s : csp_id_get_max_nodeid s = 2 ^ csp_id_get_host_bits s - 1.
Proof. unfold csp_id_get_max_nodeid, csp_id_get_host_bits. by destruct (is_v2 s). Qed.

Lemma pow2_host_le s n : 0 <= n <= csp_id_get_host_bits s -> 1 <= 2 ^ n <= 2 ^ csp_id_get_host_bits s.
Proof. intros. split; [pose proof (Z.pow_pos_nonneg 2 n); lia|]. apply Z.pow_le_mono_r; lia. Qed.

Lemma div_mul_inj a b m : 0 < m -> a * m = b * m -> a = b.
Proof. nia. Qed.

(** [csp_id_is_broadcast] recognises exactly the all-ones address of the
    network and the all-ones host on the interface's own subnet. *)
Theorem is_broadcast_spec s addr ifc :
  let hb := csp_id_get_host_bits s in
  let n := hb - if_netmask ifc in
  0 <= if_netmask ifc <= hb -> 0 <= addr < 2 ^ hb -> 0 <= if_addr ifc < 2 ^ hb ->
  exists b, csp_id_is_broadcast s addr ifc = Some b /\
    (b = true <-> addr = 2 ^ hb - 1 \/
                  (addr / 2 ^ n = if_addr ifc / 2 ^ n /\ addr mod 2 ^ n = 2 ^ n - 1)).
Proof.
  intros hb n Hm Ha Hi. subst hb. pose proof (host_bits_pow s) as Hp.
  assert (Hn : 0 <= n <= csp_id_get_host_bits s) by lia.
  pose proof (pow2_host_le s n Hn) as Hpn.
  unfold csp_id_is_broadcast. fold n. rewrite (proj2 (Z.ltb_ge _ _)) by lia.
  eexists. split; [reflexivity|].
  rewrite !Z.shiftl_mul_pow2, !Z.mul_1_l by lia. rewrite (u16_small (2 ^ n - 1)) by lia.
  rewrite u16_small by lia. rewrite land_hostmask by lia.
  rewrite !(land_netmask _ n) by lia. rewrite max_nodeid_pow.
  destruct (_ && _) eqn:E; bsimpl.
  - split; [|done]. intros _. right. split; [|lia]. apply (div_mul_inj _ _ (2 ^ n)); lia.
  - rewrite Z.eqb_eq. split; [by left|]. intros [|[Hd Hmod]]; [done|]. exfalso.
    rewrite Hd, Hmod in E. rewrite !Z.eqb_refl in E. destruct E; discriminate.
Qed.

(** ** Witnesses *)

(** A node whose buffer 0 holds a packet. *)
Definition packet_node (k : csp_packet) : node := put_pkt 0 k boot.

Lemma id_prepend_strip_witness :
  let k := set_pkt_length 3 (set_pkt_id (mkId 2 1 100 9000 10 40) blank_packet) in
  exists k', (prepend_any false 0 ;; strip_any false 0) (packet_node k) = Ret 0 (put_pkt 0 k' (packet_node k)) /\
    pkt_id k' = mkId 2 1 100 9000 10 40.
Proof.
  set (k := set_pkt_length 3 (set_pkt_id (mkId 2 1 100 9000 10 40) blank_packet)).
  destruct (id_prepend_strip false (packet_node k) 0 k) as (k' & Hr & Hi & _).
  - reflexivity.
  - reflexivity.
  - cbn. unfold CSP_BUFFER_SIZE. lia.
  - unfold id_ok, id2_ok. cbn. lia.
  - exists k'. split; [exact Hr|exact Hi].
Defined.

Lemma id_strip_typed_witness :
  let k := set_pkt_mem (replicate 264 255) (set_frame_off (-6) (set_frame_length 16 blank_packet)) in
  exists k', strip_any false 0 (packet_node k) = Ret 0 (put_pkt 0 k' (packet_node k)) /\ id2_ok (pkt_id k') /\ pkt_length k' = 10.
Proof.
  set (k := set_pkt_mem (replicate 264 255) (set_frame_off (-6) (set_frame_length 16 blank_packet))).
  destruct (id_strip_typed false (packet_node k) 0 k) as [[Hs _]|(k' & Hr & Hi & Hlen & _)].
  - reflexivity.
  - reflexivity.
  - reflexivity.
  - reflexivity.
  - change (0 <= 16 < 65536). lia.
  - exfalso. revert Hs. change (~ 16 < 6). lia.
  - exists k'. split; [exact Hr|]. split; [exact Hi|exact Hlen].
Defined.

Lemma id_strip_prepend_witness :
  let k := set_frame_off (-6) (set_frame_length 16 blank_packet) in
  exists k', (strip_any true 0 ;; prepend_any true 0) (packet_node k) = Ret tt (put_pkt 0 k' (packet_node k)) /\
    pkt_mem k' = pkt_mem k.
Proof.
  set (k := set_frame_off (-6) (set_frame_length 16 blank_packet)).
  destruct (id_strip_prepend true (packet_node k) 0 k) as (k' & Hr & Hm & _).
  - reflexivity.
  - reflexivity.
  - apply Forall_replicate. unfold is_byte. lia.
  - reflexivity.
  - reflexivity.
  - change (6 <= 16 < 65536). lia.
  - exists k'. split; [exact Hr|exact Hm].
Defined.

Lemma is_broadcast_spec_witness :
  csp_id_is_broadcast boot 1023 (set_if_netmask 4 (set_if_addr 5 lo_iface)) = Some true /\
  1023 / 2 ^ 10 = 5 / 2 ^ 10.
Proof.
  destruct (is_broadcast_spec boot 1023 (set_if_netmask 4 (set_if_addr 5 lo_iface))) as (b & Hb & Hiff);
    [change (0 <= 4 <= 14); lia|change (0 <= 1023 < 16384); lia|change (0 <= 5 < 16384); lia|].
  split; [|reflexivity].
  destruct b; [exact Hb|]. exfalso. destruct Hiff as [_ H]. discriminate H. right. split; reflexivity.
Defined.
