(* ===== verification/Buffer.v ===== *)
(** * Buffer: the packet buffer pool ([src/csp_buffer.c]) *)

From S2P Require Import Prelude State Monad Id.

(** [csp_packet_init] with [CSP_BUFFER_ZERO_CLEAR]: the struct is cleared, then
    [frame_begin] points at the packet's own [data]. *)
Definition packet_zero (p : nat) : csp_packet :=
  mkPacket 0 None 0 0 0 0 p 0 0 0 csp_id_clear None
    (replicate (Z.to_nat (CSP_PACKET_PADDING_BYTES + CSP_BUFFER_SIZE)) 0).

Definition csp_packet_init (p : nat) : M unit := mod_pkt p (fun _ => packet_zero p).

(** [csp_buffer_init]: the pool is not initialised memory, only the self
    pointers are set, and every buffer is queued as free. *)
Definition csp_buffer_init : M unit :=
  modify (set_csp_buffers (q_create CSP_BUFFER_COUNT)) ;;
  for_loop CSP_BUFFER_COUNT 0 (fun i =>
    mod_skbf i (set_skbf_addr i) ;;
    q ← gets csp_buffers;
    match q_enqueue i q with
    | Some q' => modify (set_csp_buffers q')
    | None => mret tt
    end).

(** [csp_buffer_get_actual]; the ISR variants of the queue calls are the same
    function on this platform. *)
Definition csp_buffer_get_actual (reserve : Z) (isr : bool) : M (option nat) :=
  q ← gets csp_buffers;
  if Z.of_nat (q_size q) <? reserve then mret None else
  match q_dequeue q with
  | None => incr_buffer_out ;; mret None
  | Some (buf, q') =>
      modify (set_csp_buffers q') ;;
      b ← get_skbf buf;
      if negb (Nat.eqb buf (skbf_addr b)) then
        set_errno CSP_DBG_ERR_CORRUPT_BUFFER ;; mret None
      else
        mod_skbf buf (set_refcount 1) ;;
        csp_packet_init buf ;;
        mret (Some buf)
  end.

Definition csp_buffer_free_pkt (buf : nat) : M unit :=
  b ← get_skbf buf;
  if negb (Nat.eqb (skbf_addr b) buf) then set_errno CSP_DBG_ERR_CORRUPT_BUFFER
  else if refcount b =? 0 then set_errno CSP_DBG_ERR_ALREADY_FREE
  else
    let rc := u32 (refcount b - 1) in
    mod_skbf buf (set_refcount rc) ;;
    if 0 <? rc then set_errno CSP_DBG_ERR_REFCOUNT
    else
      q ← gets csp_buffers;
      match q_enqueue buf q with
      | Some q' => modify (set_csp_buffers q')
      | None => mret tt
      end.

(** [csp_buffer_free] and [csp_buffer_free_isr]: NULL is accepted. *)
Definition csp_buffer_free (packet : option nat) : M unit :=
  match packet with
  | None => mret tt
  | Some p => csp_buffer_free_pkt p
  end.

Definition csp_buffer_free_isr (packet : option nat) : M unit := csp_buffer_free packet.

Definition csp_buffer_get : M (option nat) := csp_buffer_get_actual 2 false.
Definition csp_buffer_get_isr : M (option nat) := csp_buffer_get_actual 2 true.

(** [csp_buffer_get_always]: without a buffer the node panics for ever. *)
Definition csp_buffer_get_always : M nat :=
  b ← csp_buffer_get_actual 0 false;
  match b with Some p => mret p | None => halt end.
Definition csp_buffer_get_always_isr : M nat :=
  b ← csp_buffer_get_actual 0 true;
  match b with Some p => mret p | None => halt end.

(** [csp_buffer_copy]: [memcpy] of the whole packet struct, pointers included. *)
Definition csp_buffer_copy (source target : option nat) : M unit :=
  match source, target with
  | Some a, Some b => k ← get_pkt a; mod_pkt b (fun _ => k)
  | _, _ => mret tt
  end.

Definition csp_buffer_clone (packet : option nat) : M (option nat) :=
  match packet with
  | None => mret None
  | Some p =>
      clone ← csp_buffer_get;
      csp_buffer_copy (Some p) clone ;;
      mret clone
  end.

Definition csp_buffer_refc_inc (buffer : option nat) : M unit :=
  match buffer with
  | None => set_errno CSP_DBG_ERR_INVALID_POINTER
  | Some buf =>
      b ← get_skbf buf;
      if negb (Nat.eqb (skbf_addr b) buf) then set_errno CSP_DBG_ERR_CORRUPT_BUFFER
      else mod_skbf buf (fun b => set_refcount (u32 (refcount b + 1)) b)
  end.

Definition csp_buffer_remaining : M Z := gets (fun s => Z.of_nat (q_size (csp_buffers s))).

(** ** The pool invariant *)

Record pool_ok (s : node) : Prop := {
  pool_len : length (pool s) = CSP_BUFFER_COUNT;
  pool_addr : forall i b, pool s !! i = Some b -> skbf_addr b = i;
  free_cap : q_cap (csp_buffers s) = CSP_BUFFER_COUNT;
  free_nodup : NoDup (q_items (csp_buffers s));
  free_range : forall i, i ∈ q_items (csp_buffers s) -> (i < CSP_BUFFER_COUNT)%nat
}.

Lemma get_actual_run s reserve isr : pool_ok s ->
  csp_buffer_get_actual reserve isr s =
    if Z.of_nat (q_size (csp_buffers s)) <? reserve then Ret None s else
    match q_items (csp_buffers s) with
    | [] => Ret None (set_dbg (set_dbg_buffer_out (u8 (dbg_buffer_out (dbg s) + 1)) (dbg s)) s)
    | p :: rest => Ret (Some p) (set_pool (<[p := mkSkbf 1 p (packet_zero p)]> (pool s))
                                  (set_csp_buffers (Queue CSP_BUFFER_COUNT rest) s))
    end.
Proof.
  intros [Hl Ha Hc Hn Hr]. unfold csp_buffer_get_actual. rewrite (bind_ret _ _ _ (csp_buffers s) s) by done.
  destruct (_ <? reserve); [done|]. unfold q_dequeue.
  destruct (q_items (csp_buffers s)) as [|p rest] eqn:E; [done|].
  assert (Hp : (p < CSP_BUFFER_COUNT)%nat) by (apply Hr; constructor).
  destruct (lookup_lt_is_Some_2 (pool s) p) as [b Hb]; [lia|].
  rewrite Hc. erewrite bind_ret by reflexivity.
  rewrite (bind_ret _ _ _ b _) by (unfold get_skbf; simpl; by rewrite Hb).
  rewrite (Ha p b Hb), Nat.eqb_refl. lazy beta iota delta [negb].
  unfold csp_packet_init, mod_pkt, mod_skbf, mbind, M_bind. simpl. rewrite Hb.
  simpl. rewrite list_lookup_insert_eq by lia. rewrite list_insert_insert_eq.
  pose proof (Ha p b Hb) as Hpb. destruct b as [r a k]. simpl in Hpb. subst. done.
Qed.

Lemma pool_ok_insert s p b : pool_ok s -> skbf_addr b = p -> pool_ok (set_pool (<[p := b]> (pool s)) s).
Proof.
  intros [Hl Ha Hc Hn Hr] Hb. constructor; simpl; try done.
  - by rewrite length_insert.
  - intros i b' Hi. destruct (decide (p = i)) as [<-|].
    + apply list_lookup_insert_Some in Hi as [(_ & <- & _)|[]]; done.
    + rewrite list_lookup_insert_ne in Hi by done. auto.
Qed.

(** [csp_buffer_free] returns, whatever the state of the packet, and sends nothing. *)
Lemma free_keeps_wire p b s : pool s !! p = Some b -> exists s', csp_buffer_free (Some p) s = Ret tt s' /\ wire s' = wire s.
Proof.
  intros Hb. unfold csp_buffer_free, csp_buffer_free_pkt.
  erewrite bind_ret by (unfold get_skbf; by rewrite Hb).
  case_match; [by eexists|]. case_match; [by eexists|]. cbv zeta.
  erewrite bind_ret by (unfold mod_skbf; by rewrite Hb).
  case_match; [by eexists|]. erewrite bind_ret by reflexivity. case_match; by eexists.
Qed.

(** ** Properties *)

(** Allocation: with at least [reserve] free buffers, [csp_buffer_get_actual]
    hands out one that was free and is so no longer, with reference count one
    and cleared contents; otherwise it returns NULL.  The pool invariant is
    kept and no other buffer changes. *)
Theorem buffer_get_spec s reserve isr : pool_ok s ->
  exists r s', csp_buffer_get_actual reserve isr s = Ret r s' /\ pool_ok s' /\
    match r with
    | Some p => reserve <= Z.of_nat (q_size (csp_buffers s)) /\
        q_items (csp_buffers s) = p :: q_items (csp_buffers s') /\
        (p ∉ q_items (csp_buffers s')) /\
        pool s' = <[p := mkSkbf 1 p (packet_zero p)]> (pool s)
    | None => (Z.of_nat (q_size (csp_buffers s)) < reserve \/ q_items (csp_buffers s) = []) /\
        pool s' = pool s /\ csp_buffers s' = csp_buffers s
    end.
Proof.
  intros Hok. rewrite get_actual_run by done. destruct (Z.ltb_spec (Z.of_nat (q_size (csp_buffers s))) reserve).
  { eexists _, _. split; [reflexivity|]. split; [done|]. split; [by left|done]. }
  pose proof Hok as [Hl Ha Hc Hn Hr]. destruct (q_items (csp_buffers s)) as [|p rest] eqn:E.
  { eexists _, _. split; [reflexivity|]. split; [|split; [by right|done]].
    constructor; simpl; rewrite ?E; done. }
  eexists _, _. split; [reflexivity|]. apply NoDup_cons_1_1 in Hn as Hp. apply NoDup_cons_1_2 in Hn.
  split; [|done]. apply (pool_ok_insert (set_csp_buffers (Queue CSP_BUFFER_COUNT rest) s)); [|done].
  constructor; simpl; try done. intros i Hi. apply Hr. by right.
Qed.

(** Freeing: a buffer with one reference goes back to the pool and is then
    free exactly once; with more references one is dropped; a buffer that is
    already free is reported ([CSP_DBG_ERR_ALREADY_FREE]) and nothing else
    changes.  The pool invariant is kept. *)
Theorem buffer_free_spec s p b : pool_ok s -> pool s !! p = Some b ->
  0 <= refcount b < 2 ^ 32 -> (refcount b <> 0 -> p ∉ q_items (csp_buffers s)) ->
  exists s', csp_buffer_free (Some p) s = Ret tt s' /\ pool_ok s' /\
    if refcount b =? 0 then
      pool s' = pool s /\ csp_buffers s' = csp_buffers s /\ dbg_errno (dbg s') = CSP_DBG_ERR_ALREADY_FREE
    else pool s' = <[p := set_refcount (refcount b - 1) b]> (pool s) /\
      q_items (csp_buffers s') = (if refcount b =? 1 then q_items (csp_buffers s) ++ [p] else q_items (csp_buffers s)).
Proof.
  intros Hok Hb Hrc Hfree. pose proof Hok as [Hl Ha Hc Hn Hr].
  unfold csp_buffer_free, csp_buffer_free_pkt.
  rewrite (bind_ret _ _ _ b s) by (unfold get_skbf; by rewrite Hb).
  rewrite (Ha p b Hb), Nat.eqb_refl. lazy beta iota delta [negb].
  destruct (Z.eqb_spec (refcount b) 0) as [E0|E0].
  { eexists. split; [reflexivity|]. split; [|done]. by constructor. }
  specialize (Hfree E0). cbv zeta. rewrite u32_small by lia.
  set (s1 := set_pool (<[p := set_refcount (refcount b - 1) b]> (pool s)) s).
  rewrite (bind_ret _ _ s tt s1) by (unfold mod_skbf; by rewrite Hb).
  assert (Hok1 : pool_ok s1)
    by (apply pool_ok_insert; [done|exact (Ha p b Hb)]).
  destruct (Z.eqb_spec (refcount b) 1) as [E1|E1].
  - rewrite (proj2 (Z.ltb_ge _ _)) by lia. rewrite (bind_ret _ _ s1 (csp_buffers s) s1) by done.
    assert (Hsz : (q_size (csp_buffers s) < CSP_BUFFER_COUNT)%nat).
    { unfold q_size. assert (length (p :: q_items (csp_buffers s)) <= CSP_BUFFER_COUNT)%nat; [|simpl in *; lia].
      rewrite <- (length_seq CSP_BUFFER_COUNT 0). apply submseteq_length, NoDup_submseteq; [by constructor|].
      apply lookup_lt_Some in Hb. intros i [->|Hi]%elem_of_cons; apply elem_of_seq; [lia|]. specialize (Hr i Hi). lia. }
    unfold q_enqueue. rewrite decide_True by (rewrite Hc; done).
    eexists. split; [reflexivity|]. split; [|done].
    destruct Hok1 as [Hl1 Ha1 Hc1 Hn1 Hr1]. constructor; simpl in *; try done.
    + apply list.NoDup_app. split_and!; [done| |apply NoDup_singleton].
      intros x Hx ->%list_elem_of_singleton. done.
    + intros i [Hi| ->%list_elem_of_singleton]%elem_of_app; [auto|]. apply lookup_lt_Some in Hb. lia.
  - rewrite (proj2 (Z.ltb_lt _ _)) by lia. eexists. split; [reflexivity|]. split; [|done].
    destruct Hok1. by constructor.
Qed.

Lemma buffer_init_run s : length (pool s) = CSP_BUFFER_COUNT ->
  wp csp_buffer_init (fun _ s' => length (pool s') = CSP_BUFFER_COUNT /\
    (forall j b, pool s' !! j = Some b -> skbf_addr b = j) /\
    csp_buffers s' = Queue CSP_BUFFER_COUNT (seq 0 CSP_BUFFER_COUNT)) s.
Proof.
  intros Hl. set (I i s := length (pool s) = CSP_BUFFER_COUNT /\
    (forall j b, pool s !! j = Some b -> (j < i)%nat -> skbf_addr b = j) /\
    csp_buffers s = Queue CSP_BUFFER_COUNT (seq 0 i)).
  apply (wp_mono _ (fun _ s' => I CSP_BUFFER_COUNT s')).
  { intros [] s' (Hl' & Ha & Hq). split; [done|]. split; [|done]. intros j b Hj. apply (Ha j b Hj).
    apply lookup_lt_Some in Hj. lia. }
  unfold csp_buffer_init. apply wp_bind, wp_modify. apply (wp_for_loop I _ CSP_BUFFER_COUNT 0).
  - split; [done|]. split; [intros; lia|done].
  - intros j s1 Hj (Hl1 & Ha & Hq). apply wp_bind. unfold wp at 1, mod_skbf.
    destruct (lookup_lt_is_Some_2 (pool s1) j) as [b Hb]; [lia|]. rewrite Hb.
    apply wp_bind, wp_gets. simpl. rewrite Hq. unfold q_enqueue, q_size. simpl.
    rewrite length_seq, decide_True by lia. apply wp_modify.
    split; [simpl; by rewrite length_insert|]. split; [|simpl; by rewrite <- seq_S].
    simpl. intros i b' Hi Hlt. destruct (decide (j = i)) as [<-|].
    + rewrite list_lookup_insert_eq in Hi by lia. by simplify_eq/=.
    + rewrite list_lookup_insert_ne in Hi by done. apply (Ha i b' Hi). lia.
Qed.

(** A clone is a buffer of its own: [csp_buffer_clone] returns a buffer
    that was free, with a copy of the whole packet (including the
    [frame_begin] pointer into the original), leaves the original as it was,
    and never takes the last free buffer. *)
Theorem buffer_clone_spec s p k : pool_ok s -> pkt_at p s = Some k -> (p ∉ q_items (csp_buffers s)) ->
  exists r s', csp_buffer_clone (Some p) s = Ret r s' /\ pool_ok s' /\ pkt_at p s' = Some k /\
    match r with
    | Some c => (c <> p) /\ c ∈ q_items (csp_buffers s) /\ (c ∉ q_items (csp_buffers s')) /\
                pkt_at c s' = Some k /\ (1 <= q_size (csp_buffers s'))%nat
    | None => (q_size (csp_buffers s) < 2)%nat /\ csp_buffers s' = csp_buffers s
    end.
Proof.
  intros Hok Hk Hp. unfold csp_buffer_clone, csp_buffer_get.
  pose proof (get_actual_run s 2 false Hok) as Hg. pose proof Hok as [Hl Ha Hc Hn Hr].
  destruct (Z.ltb_spec (Z.of_nat (q_size (csp_buffers s))) 2) as [Hlt|Hge].
  { rewrite (bind_ret _ _ _ None s) by done. eexists _, _. split; [reflexivity|].
    split_and!; [done..|lia|done]. }
  unfold q_size in Hge. destruct (q_items (csp_buffers s)) as [|c rest] eqn:E; [simpl in Hge; lia|].
  set (s1 := set_pool _ _) in Hg.
  apply NoDup_cons_1_1 in Hn as Hcr. apply NoDup_cons_1_2 in Hn.
  assert (Hne : c <> p) by (intros ->; apply Hp; constructor).
  assert (Hlt : (c < length (pool s))%nat) by (rewrite Hl; apply Hr; constructor).
  assert (Hok1 : pool_ok s1).
  { apply (pool_ok_insert (set_csp_buffers (Queue CSP_BUFFER_COUNT rest) s)); [|done].
    constructor; simpl; try done. intros i Hi. apply Hr. by right. }
  assert (Hk1 : pkt_at p s1 = Some k) by (unfold pkt_at in *; simpl; by rewrite list_lookup_insert_ne).
  assert (Hc1 : pkt_at c s1 = Some (packet_zero c)) by (unfold pkt_at; simpl; by rewrite list_lookup_insert_eq).
  rewrite (bind_ret _ _ s (Some c) s1) by done. simpl csp_buffer_copy.
  rewrite (bind_ret _ _ s1 tt (put_pkt c k s1)).
  2: { rewrite (bind_ret _ _ _ k s1) by (by apply get_pkt_at). by erewrite mod_pkt_at. }
  eexists _, _. split; [reflexivity|]. split_and!.
  - unfold put_pkt. destruct (lookup_lt_is_Some_2 (pool s1) c) as [b Hb]; [simpl; by rewrite length_insert|].
    replace (alter (set_skbf_data k) c (pool s1)) with (<[c := set_skbf_data k b]> (pool s1)).
    + apply pool_ok_insert; [done|]. destruct Hok1 as [_ Ha1 _ _ _]. exact (Ha1 c b Hb).
    + rewrite list_insert_alter. apply list_alter_ext; [|done]. intros x Hx. by simplify_eq.
  - unfold pkt_at, put_pkt. simpl. rewrite list_lookup_alter_ne by done. by rewrite list_lookup_insert_ne.
  - done.
  - constructor.
  - done.
  - by eapply pkt_at_put.
  - simpl in *. unfold q_size. simpl. lia.
Qed.

(** ** Witnesses *)

(** The pool after [csp_buffer_init], with buffer 0 taken. *)
Definition pool_node : node :=
  set_csp_buffers (Queue CSP_BUFFER_COUNT (seq 1 14))
    (set_pool (imap (fun i _ => mkSkbf (if decide (i = 0%nat) then 1 else 0) i blank_packet) (pool boot)) boot).

Lemma pool_node_ok : pool_ok pool_node.
Proof.
  constructor.
  - reflexivity.
  - intros i b Hi. do 15 (destruct i as [|i]; [injection Hi as <-; reflexivity|]). discriminate Hi.
  - reflexivity.
  - apply (NoDup_seq 1 14).
  - intros i Hi. apply (elem_of_seq 1 14) in Hi. unfold CSP_BUFFER_COUNT. lia.
Qed.

Lemma buffer_get_spec_witness :
  exists r s', csp_buffer_get_actual 2 false pool_node = Ret r s' /\ pool_ok s' /\ r = Some 1%nat.
Proof.
  destruct (buffer_get_spec pool_node 2 false pool_node_ok) as (r & s' & H & Hok & _).
  exists r, s'. split; [exact H|]. split; [exact Hok|]. injection H as <- _. reflexivity.
Defined.

Lemma buffer_free_spec_witness :
  exists s', csp_buffer_free (Some 0%nat) pool_node = Ret tt s' /\ pool_ok s' /\
    q_items (csp_buffers s') = seq 1 14 ++ [0%nat].
Proof.
  destruct (buffer_free_spec pool_node 0 (mkSkbf 1 0 blank_packet) pool_node_ok) as (s' & H & Hok & _ & Hq).
  - reflexivity.
  - change (0 <= 1 < 2 ^ 32). lia.
  - intros _ Hin. apply (elem_of_seq 1 14) in Hin. lia.
  - exists s'. split; [exact H|]. split; [exact Hok|exact Hq].
Defined.

Lemma buffer_clone_spec_witness :
  exists s', csp_buffer_clone (Some 0%nat) pool_node = Ret (Some 1%nat) s' /\ pool_ok s'.
Proof.
  destruct (buffer_clone_spec pool_node 0 blank_packet pool_node_ok) as (r & s' & H & Hok & _).
  - reflexivity.
  - intros Hin. apply (elem_of_seq 1 14) in Hin. lia.
  - exists s'. split; [|exact Hok]. rewrite H. injection H as <- _. reflexivity.
Defined.
