(* ===== verification/Crc32.v ===== *)
(** * Crc32: the checksum of [src/csp_crc32.c]

    The table-driven CRC-32C, the bit-serial reference it implements, and the
    packet operations that append and verify it. *)

From S2P Require Import Prelude State Monad Id Buffer.

Definition crc_tab : list Z := [
  0x00000000; 0xF26B8303; 0xE13B70F7; 0x1350F3F4; 0xC79A971F; 0x35F1141C;
  0x26A1E7E8; 0xD4CA64EB; 0x8AD958CF; 0x78B2DBCC; 0x6BE22838; 0x9989AB3B;
  0x4D43CFD0; 0xBF284CD3; 0xAC78BF27; 0x5E133C24; 0x105EC76F; 0xE235446C;
  0xF165B798; 0x030E349B; 0xD7C45070; 0x25AFD373; 0x36FF2087; 0xC494A384;
  0x9A879FA0; 0x68EC1CA3; 0x7BBCEF57; 0x89D76C54; 0x5D1D08BF; 0xAF768BBC;
  0xBC267848; 0x4E4DFB4B; 0x20BD8EDE; 0xD2D60DDD; 0xC186FE29; 0x33ED7D2A;
  0xE72719C1; 0x154C9AC2; 0x061C6936; 0xF477EA35; 0xAA64D611; 0x580F5512;
  0x4B5FA6E6; 0xB93425E5; 0x6DFE410E; 0x9F95C20D; 0x8CC531F9; 0x7EAEB2FA;
  0x30E349B1; 0xC288CAB2; 0xD1D83946; 0x23B3BA45; 0xF779DEAE; 0x05125DAD;
  0x1642AE59; 0xE4292D5A; 0xBA3A117E; 0x4851927D; 0x5B016189; 0xA96AE28A;
  0x7DA08661; 0x8FCB0562; 0x9C9BF696; 0x6EF07595; 0x417B1DBC; 0xB3109EBF;
  0xA0406D4B; 0x522BEE48; 0x86E18AA3; 0x748A09A0; 0x67DAFA54; 0x95B17957;
  0xCBA24573; 0x39C9C670; 0x2A993584; 0xD8F2B687; 0x0C38D26C; 0xFE53516F;
  0xED03A29B; 0x1F682198; 0x5125DAD3; 0xA34E59D0; 0xB01EAA24; 0x42752927;
  0x96BF4DCC; 0x64D4CECF; 0x77843D3B; 0x85EFBE38; 0xDBFC821C; 0x2997011F;
  0x3AC7F2EB; 0xC8AC71E8; 0x1C661503; 0xEE0D9600; 0xFD5D65F4; 0x0F36E6F7;
  0x61C69362; 0x93AD1061; 0x80FDE395; 0x72966096; 0xA65C047D; 0x5437877E;
  0x4767748A; 0xB50CF789; 0xEB1FCBAD; 0x197448AE; 0x0A24BB5A; 0xF84F3859;
  0x2C855CB2; 0xDEEEDFB1; 0xCDBE2C45; 0x3FD5AF46; 0x7198540D; 0x83F3D70E;
  0x90A324FA; 0x62C8A7F9; 0xB602C312; 0x44694011; 0x5739B3E5; 0xA55230E6;
  0xFB410CC2; 0x092A8FC1; 0x1A7A7C35; 0xE811FF36; 0x3CDB9BDD; 0xCEB018DE;
  0xDDE0EB2A; 0x2F8B6829; 0x82F63B78; 0x709DB87B; 0x63CD4B8F; 0x91A6C88C;
  0x456CAC67; 0xB7072F64; 0xA457DC90; 0x563C5F93; 0x082F63B7; 0xFA44E0B4;
  0xE9141340; 0x1B7F9043; 0xCFB5F4A8; 0x3DDE77AB; 0x2E8E845F; 0xDCE5075C;
  0x92A8FC17; 0x60C37F14; 0x73938CE0; 0x81F80FE3; 0x55326B08; 0xA759E80B;
  0xB4091BFF; 0x466298FC; 0x1871A4D8; 0xEA1A27DB; 0xF94AD42F; 0x0B21572C;
  0xDFEB33C7; 0x2D80B0C4; 0x3ED04330; 0xCCBBC033; 0xA24BB5A6; 0x502036A5;
  0x4370C551; 0xB11B4652; 0x65D122B9; 0x97BAA1BA; 0x84EA524E; 0x7681D14D;
  0x2892ED69; 0xDAF96E6A; 0xC9A99D9E; 0x3BC21E9D; 0xEF087A76; 0x1D63F975;
  0x0E330A81; 0xFC588982; 0xB21572C9; 0x407EF1CA; 0x532E023E; 0xA145813D;
  0x758FE5D6; 0x87E466D5; 0x94B49521; 0x66DF1622; 0x38CC2A06; 0xCAA7A905;
  0xD9F75AF1; 0x2B9CD9F2; 0xFF56BD19; 0x0D3D3E1A; 0x1E6DCDEE; 0xEC064EED;
  0xC38D26C4; 0x31E6A5C7; 0x22B65633; 0xD0DDD530; 0x0417B1DB; 0xF67C32D8;
  0xE52CC12C; 0x1747422F; 0x49547E0B; 0xBB3FFD08; 0xA86F0EFC; 0x5A048DFF;
  0x8ECEE914; 0x7CA56A17; 0x6FF599E3; 0x9D9E1AE0; 0xD3D3E1AB; 0x21B862A8;
  0x32E8915C; 0xC083125F; 0x144976B4; 0xE622F5B7; 0xF5720643; 0x07198540;
  0x590AB964; 0xAB613A67; 0xB831C993; 0x4A5A4A90; 0x9E902E7B; 0x6CFBAD78;
  0x7FAB5E8C; 0x8DC0DD8F; 0xE330A81A; 0x115B2B19; 0x020BD8ED; 0xF0605BEE;
  0x24AA3F05; 0xD6C1BC06; 0xC5914FF2; 0x37FACCF1; 0x69E9F0D5; 0x9B8273D6;
  0x88D28022; 0x7AB90321; 0xAE7367CA; 0x5C18E4C9; 0x4F48173D; 0xBD23943E;
  0xF36E6F75; 0x0105EC76; 0x12551F82; 0xE03E9C81; 0x34F4F86A; 0xC69F7B69;
  0xD5CF889D; 0x27A40B9E; 0x79B737BA; 0x8BDCB4B9; 0x988C474D; 0x6AE7C44E;
  0xBE2DA0A5; 0x4C4623A6; 0x5F16D052; 0xAD7D5351].

Definition csp_crc32_init : Z := 0xFFFFFFFF.

(** One round of [csp_crc32_update]. *)
Definition crc_round (crc b : Z) : Z :=
  Z.lxor (nth (Z.to_nat (Z.land (Z.lxor crc b) 0xFF)) crc_tab 0) (Z.shiftr crc 8).

Definition csp_crc32_update (crc : Z) (data : list Z) : Z := foldl crc_round crc data.

Definition csp_crc32_final (crc : Z) : Z := Z.lxor crc 0xFFFFFFFF.

Definition csp_crc32_memory (data : list Z) : Z :=
  csp_crc32_final (csp_crc32_update csp_crc32_init data).

Definition csp_crc32_append (p : nat) : M Z :=
  k ← get_pkt p;
  if CSP_BUFFER_SIZE <? pkt_length k + 4 then mret CSP_ERR_NOMEM else
  data ← read_mem p 0 (pkt_length k);
  let crc := htobe32 (csp_crc32_memory data) in
  write_mem p (pkt_length k) (le_bytes 4 crc) ;;
  mod_pkt p (fun k => set_pkt_length (u16 (pkt_length k + 4)) k) ;;
  mret CSP_ERR_NONE.

(** Is the trailing checksum of the packet the CRC of [data]? *)
Definition crc_matches (p : nat) (data : list Z) : M bool :=
  k ← get_pkt p;
  tail ← read_mem p (pkt_length k - 4) 4;
  mret (bool_decide (tail = le_bytes 4 (htobe32 (csp_crc32_memory data)))).

(** [csp_crc32_verify]: the checksum with the header is tried first, then
    without. *)
Definition csp_crc32_verify (p : nat) : M Z :=
  k ← get_pkt p;
  if pkt_length k <? 4 then mret CSP_ERR_CRC32 else
  csp_id_prepend p ;;
  k ← get_pkt p;
  framed ← read_frame p (frame_length k - 4);
  ok ← crc_matches p framed;
  ok ← (if ok : bool then mret true else
          data ← read_mem p 0 (pkt_length k - 4); crc_matches p data);
  if negb ok then mret CSP_ERR_CRC32 else
  mod_pkt p (fun k => set_pkt_length (u16 (pkt_length k - 4)) k) ;;
  mret CSP_ERR_NONE.

(** ** The bit-serial reference: CRC-32C, reflected polynomial 0x82F63B78 *)

Definition crc_bit (c : Z) : Z :=
  Z.lxor (Z.shiftr c 1) (if Z.odd c then 0x82F63B78 else 0).

(** Eight shifts of the register. *)
Definition crc_byte (c : Z) : Z := Nat.iter 8 crc_bit c.

Definition crc32c_ref (data : list Z) : Z :=
  Z.lxor (foldl (fun c b => crc_byte (Z.lxor c b)) 0xFFFFFFFF data) 0xFFFFFFFF.

Definition is_u32 (z : Z) : Prop := 0 <= z < 2 ^ 32.

(** *** The register is linear *)

Lemma crc_bit_lxor a b : crc_bit (Z.lxor a b) = Z.lxor (crc_bit a) (crc_bit b).
Proof.
  unfold crc_bit. rewrite Z.shiftr_lxor.
  assert (Ho : Z.odd (Z.lxor a b) = xorb (Z.odd a) (Z.odd b))
    by (rewrite <- !Z.bit0_odd; apply Z.lxor_spec).
  rewrite Ho. generalize (Z.shiftr a 1) (Z.shiftr b 1). intros x y.
  apply Z.bits_inj'. intros n Hn. rewrite !Z.lxor_spec.
  destruct (Z.odd a), (Z.odd b); simpl; rewrite ?Z.bits_0;
    destruct (Z.testbit x n), (Z.testbit y n), (Z.testbit 2197175160 n); done.
Qed.

Lemma crc_iter_lxor n a b :
  Nat.iter n crc_bit (Z.lxor a b) = Z.lxor (Nat.iter n crc_bit a) (Nat.iter n crc_bit b).
Proof. induction n as [|n IH]; [done|]. simpl. by rewrite IH, crc_bit_lxor. Qed.

Lemma crc_byte_lxor a b : crc_byte (Z.lxor a b) = Z.lxor (crc_byte a) (crc_byte b).
Proof. apply crc_iter_lxor. Qed.

Lemma crc_bit_even y : crc_bit (2 * y) = y.
Proof.
  unfold crc_bit. rewrite Z.odd_mul. simpl. rewrite Z.lxor_0_r, Z.shiftr_div_pow2 by lia.
  rewrite Z.mul_comm. by apply Z.div_mul.
Qed.

(** Eight shifts of a register whose low byte is clear. *)
Lemma crc_byte_shiftl y : crc_byte (Z.shiftl y 8) = y.
Proof.
  rewrite Z.shiftl_mul_pow2 by lia. unfold crc_byte, Nat.iter, nat_rect.
  replace (y * 2 ^ 8) with (2 * (2 * (2 * (2 * (2 * (2 * (2 * (2 * y)))))))) by lia.
  by rewrite !crc_bit_even.
Qed.

(** *** The table *)

Lemma crc_tab_byte : crc_tab = map (fun i => crc_byte (Z.of_nat i)) (seq 0 256).
Proof. vm_compute. reflexivity. Qed.

Lemma crc_tab_lookup b : 0 <= b < 256 -> nth (Z.to_nat b) crc_tab 0 = crc_byte b.
Proof.
  intros Hb. rewrite crc_tab_byte.
  rewrite (nth_indep _ _ (crc_byte (Z.of_nat O))) by (rewrite length_map, length_seq; lia).
  rewrite (map_nth (fun i => crc_byte (Z.of_nat i))), seq_nth by lia. f_equal. lia.
Qed.

(** A word is its low byte and the rest. *)
Lemma split_low_byte x : 0 <= x -> x = Z.lxor (Z.land x 0xFF) (Z.shiftl (Z.shiftr x 8) 8).
Proof.
  intros Hx. apply Z.bits_inj'. intros n Hn. rewrite Z.lxor_spec, Z.land_spec.
  change 255 with (Z.ones 8). destruct (Z.lt_ge_cases n 8).
  - rewrite Z.ones_spec_low, Z.shiftl_spec_low by lia. by destruct (Z.testbit x n).
  - rewrite Z.ones_spec_high, Z.shiftl_spec_high, Z.shiftr_spec by lia.
    rewrite andb_false_r. simpl. f_equal. lia.
Qed.

Lemma lxor_nonneg a b : 0 <= a -> 0 <= b -> 0 <= Z.lxor a b.
Proof. intros. apply Z.lxor_nonneg. lia. Qed.

Lemma shiftr_byte b n : 0 <= b < 256 -> 8 <= n -> Z.shiftr b n = 0.
Proof.
  intros Hb Hn. rewrite Z.shiftr_div_pow2 by lia. apply Z.div_small.
  split; [lia|]. eapply Z.lt_le_trans; [apply Hb|]. change 256 with (2 ^ 8). apply Z.pow_le_mono_r; lia.
Qed.

Lemma crc_round_byte c b : 0 <= c -> is_byte b -> crc_round c b = crc_byte (Z.lxor c b).
Proof.
  intros Hc Hb. unfold crc_round. unfold is_byte in Hb.
  rewrite (split_low_byte (Z.lxor c b)) at 2 by (apply lxor_nonneg; lia).
  rewrite crc_byte_lxor, crc_byte_shiftl, Z.shiftr_lxor, (shiftr_byte b), Z.lxor_0_r by lia.
  rewrite crc_tab_lookup; [done|].
  change 255 with (Z.ones 8). rewrite Z.land_ones by lia. apply Z.mod_pos_bound. lia.
Qed.

(** *** Register range and invertibility *)

Lemma lxor_u32 a b : is_u32 a -> is_u32 b -> is_u32 (Z.lxor a b).
Proof.
  unfold is_u32. intros Ha Hb. pose proof (lxor_nonneg a b). split; [lia|].
  destruct (Z.eq_dec (Z.lxor a b) 0) as [->|]; [lia|].
  apply Z.log2_lt_pow2; [lia|].
  eapply Z.le_lt_trans; [apply Z.log2_lxor; lia|].
  assert (Hlog : forall x, 0 <= x < 2 ^ 32 -> Z.log2 x < 32).
  { intros x Hx. destruct (Z.eq_dec x 0) as [->|]; [done|]. apply Z.log2_lt_pow2; lia. }
  pose proof (Hlog a). pose proof (Hlog b). lia.
Qed.

Lemma shiftr1_range c : is_u32 c -> 0 <= Z.shiftr c 1 < 2 ^ 31.
Proof. unfold is_u32. intros. rewrite Z.shiftr_div_pow2 by lia. zlia. Qed.

Lemma crc_bit_u32 c : is_u32 c -> is_u32 (crc_bit c).
Proof.
  intros Hc. pose proof (shiftr1_range c Hc). apply lxor_u32; unfold is_u32; [lia|].
  destruct (Z.odd c); lia.
Qed.

(** The top bit of the register after a shift tells which bit went out. *)
Lemma crc_bit_top c : is_u32 c -> Z.testbit (crc_bit c) 31 = Z.odd c.
Proof.
  intros Hc. unfold crc_bit. rewrite Z.lxor_spec.
  replace (Z.testbit (Z.shiftr c 1) 31) with false.
  - by destruct (Z.odd c).
  - symmetry. rewrite Z.shiftr_spec by lia. unfold is_u32 in Hc.
    destruct (Z.eq_dec c 0) as [->|]; [done|]. apply Z.bits_above_log2; [lia|].
    apply Z.log2_lt_pow2; lia.
Qed.

Lemma lxor_cancel_r a b c : Z.lxor a c = Z.lxor b c -> a = b.
Proof.
  intros H. apply (f_equal (fun x => Z.lxor x c)) in H.
  by rewrite !Z.lxor_assoc, Z.lxor_nilpotent, !Z.lxor_0_r in H.
Qed.

Lemma lxor_cancel_l a b c : Z.lxor c a = Z.lxor c b -> a = b.
Proof. rewrite !(Z.lxor_comm c). apply lxor_cancel_r. Qed.

Lemma crc_bit_inj a b : is_u32 a -> is_u32 b -> crc_bit a = crc_bit b -> a = b.
Proof.
  intros Ha Hb H. assert (Ho : Z.odd a = Z.odd b) by (rewrite <- !crc_bit_top, H; done).
  unfold crc_bit in H. rewrite Ho in H. apply lxor_cancel_r in H.
  rewrite !Z.shiftr_div_pow2 in H by lia.
  rewrite (Z.div_mod a 2), (Z.div_mod b 2), !Zmod_odd, Ho by lia. change (2 ^ 1) with 2 in H. lia.
Qed.

Lemma crc_iter_u32 n c : is_u32 c -> is_u32 (Nat.iter n crc_bit c).
Proof. induction n; simpl; auto using crc_bit_u32. Qed.

Lemma crc_iter_inj n a b : is_u32 a -> is_u32 b ->
  Nat.iter n crc_bit a = Nat.iter n crc_bit b -> a = b.
Proof.
  intros Ha Hb. induction n as [|n IH]; [done|]. simpl. intros H.
  apply IH, crc_bit_inj; auto using crc_iter_u32.
Qed.

#[local] Opaque crc_bit.

Lemma byte_u32 b : is_byte b -> is_u32 b.
Proof. unfold is_byte, is_u32. lia. Qed.

Lemma crc_round_u32 c b : is_u32 c -> is_byte b -> is_u32 (crc_round c b).
Proof.
  intros Hc Hb. rewrite crc_round_byte by (done || (unfold is_u32 in Hc; lia)).
  apply crc_iter_u32, lxor_u32; auto using byte_u32.
Qed.

Lemma crc_update_u32 data c : is_u32 c -> bytes_ok data -> is_u32 (csp_crc32_update c data).
Proof.
  unfold bytes_ok, csp_crc32_update. intros Hc Hd. revert c Hc.
  induction Hd as [|b data Hb Hd IH]; intros c Hc; simpl; auto using crc_round_u32.
Qed.

Lemma crc_update_app c a b : csp_crc32_update c (a ++ b) = csp_crc32_update (csp_crc32_update c a) b.
Proof. unfold csp_crc32_update. apply foldl_app. Qed.

(** Up to four bytes enter the register as one word. *)
Lemma crc_update_word bs c : is_u32 c -> bytes_ok bs -> (length bs <= 4)%nat ->
  csp_crc32_update c bs = Nat.iter (8 * length bs) crc_bit (Z.lxor c (le_val bs)).
Proof.
  revert c. induction bs as [|b bs IH]; intros c Hc Hb Hl.
  - simpl. by rewrite Z.lxor_0_r.
  - apply Forall_cons_1 in Hb as [Hb Hbs]. simpl length in *.
    change (csp_crc32_update c (b :: bs)) with (csp_crc32_update (crc_round c b) bs).
    rewrite IH by (auto using crc_round_u32 || lia).
    replace (8 * S (length bs))%nat with (8 * length bs + 8)%nat by lia.
    rewrite Nat.iter_add. f_equal. rewrite crc_round_byte by (done || (unfold is_u32 in Hc; lia)).
    fold (crc_byte (Z.lxor c (le_val (b :: bs)))). cbn [le_val].
    rewrite <- (crc_byte_shiftl (le_val bs)) at 1. rewrite <- crc_byte_lxor, Z.lxor_assoc. do 2 f_equal.
    rewrite Z.shiftl_mul_pow2 by lia. unfold is_byte in Hb.
    rewrite Z.lxor_comm, <- Z.shiftl_mul_pow2 by lia. rewrite <- Z.add_nocarry_lxor.
    + rewrite Z.shiftl_mul_pow2 by lia. lia.
    + apply Z.bits_inj'. intros n Hn. rewrite Z.land_spec, Z.bits_0.
      destruct (Z.lt_ge_cases n 8); [by rewrite Z.shiftl_spec_low by lia|].
      replace b with (b mod 2 ^ 8) by (apply Z.mod_small; lia).
      rewrite Z.mod_pow2_bits_high by lia. apply andb_false_r.
Qed.

Lemma crc_update_inj data a b : is_u32 a -> is_u32 b -> bytes_ok data ->
  csp_crc32_update a data = csp_crc32_update b data -> a = b.
Proof.
  intros Ha Hb Hd. revert a b Ha Hb. induction Hd as [|x data Hx Hd IH]; intros a b Ha Hb H; [done|].
  change (csp_crc32_update (crc_round a x) data = csp_crc32_update (crc_round b x) data) in H.
  apply IH in H; [|by apply crc_round_u32..].
  rewrite !crc_round_byte in H by (done || (unfold is_u32 in *; lia)).
  unfold crc_byte in H. apply (crc_iter_inj 8) in H; [by eapply lxor_cancel_r|apply lxor_u32; auto using byte_u32..].
Qed.

#[local] Opaque csp_crc32_update.

(** ** Properties *)

(** C38. The table-driven [csp_crc32_memory] computes the bit-serial CRC-32C. *)
Theorem crc32_is_crc32c data : bytes_ok data -> csp_crc32_memory data = crc32c_ref data.
Proof.
  intros Hd. unfold csp_crc32_memory, csp_crc32_final, crc32c_ref. f_equal.
  assert (Hi : is_u32 csp_crc32_init) by (unfold is_u32, csp_crc32_init; lia).
  with_strategy transparent [csp_crc32_update] unfold csp_crc32_update. change 4294967295 with csp_crc32_init. revert Hi. generalize csp_crc32_init.
  induction Hd as [|b data Hb Hd IH]; intros c Hc; [done|]. simpl.
  rewrite (crc_round_byte c b) by (done || (unfold is_u32 in Hc; lia)). apply IH.
  apply crc_iter_u32, lxor_u32; auto using byte_u32.
Qed.

Lemma crc32_is_crc32c_witness :
  csp_crc32_memory [49; 50; 51; 52; 53; 54; 55; 56; 57] = 0xE3069283 /\
  crc32c_ref [49; 50; 51; 52; 53; 54; 55; 56; 57] = 0xE3069283.
Proof.
  split; [reflexivity|]. rewrite <- (crc32_is_crc32c [49; 50; 51; 52; 53; 54; 55; 56; 57]).
  - reflexivity.
  - repeat (constructor; [unfold is_byte; lia|]). constructor.
Defined.

(** C39. Error detection: two messages of the same length that differ only
    inside a window of at most four neighbouring bytes never have the same
    checksum, whatever precedes and follows the window. *)
Theorem crc32_detects_burst pre w w' post :
  bytes_ok pre -> bytes_ok w -> bytes_ok w' -> bytes_ok post ->
  length w = length w' -> (length w <= 4)%nat -> w <> w' ->
  csp_crc32_memory (pre ++ w ++ post) <> csp_crc32_memory (pre ++ w' ++ post).
Proof.
  intros Hpre Hw Hw' Hpost Hl H4 Hne H. apply Hne. clear Hne.
  unfold csp_crc32_memory, csp_crc32_final in H. apply lxor_cancel_r in H.
  rewrite !crc_update_app in H.
  assert (Hi : is_u32 (csp_crc32_update csp_crc32_init pre))
    by (apply crc_update_u32; [unfold is_u32, csp_crc32_init; lia|done]).
  apply crc_update_inj in H; [|apply (crc_update_u32 _ _ Hi); assumption..|assumption].
  rewrite (crc_update_word w _ Hi Hw), (crc_update_word w' _ Hi Hw'), Hl in H by lia.
  assert (Hv : forall u, bytes_ok u -> (length u <= 4)%nat -> is_u32 (le_val u)).
  { intros u Hu Hlu. pose proof (le_val_range u Hu) as Hr. unfold is_u32.
    assert (256 ^ zlen u <= 256 ^ 4) by (apply Z.pow_le_mono_r; lia). lia. }
  apply crc_iter_inj in H; [|apply lxor_u32; [done|apply Hv; [done|lia]]..].
  apply lxor_cancel_l in H. rewrite <- (le_bytes_val w), <- (le_bytes_val w') by done. by rewrite H, Hl.
Qed.

Lemma crc32_detects_burst_witness :
  csp_crc32_memory ([1; 2] ++ [3; 4; 5] ++ [6]) <> csp_crc32_memory ([1; 2] ++ [3; 7; 5] ++ [6]).
Proof.
  apply (crc32_detects_burst [1; 2] [3; 4; 5] [3; 7; 5] [6]);
    try (repeat (constructor; [unfold is_byte; lia|]); constructor); simpl; (lia || discriminate || reflexivity).
Defined.

(** ** Append and verify on a packet *)

(** The checksum as it travels: four bytes, most significant first. *)
Definition crc_wire (data : list Z) : list Z := le_bytes 4 (htobe32 (csp_crc32_memory data)).

Lemma length_crc_wire data : zlen (crc_wire data) = 4.
Proof. unfold crc_wire. by rewrite length_le_bytes. Qed.

#[local] Opaque csp_crc32_memory crc_wire.

Lemma crc_append_at p k s data m : pkt_at p s = Some k -> pkt_length k + 4 <= CSP_BUFFER_SIZE ->
  mem_read (pkt_mem k) CSP_PACKET_PADDING_BYTES (pkt_length k) = Some data ->
  mem_write (pkt_mem k) (CSP_PACKET_PADDING_BYTES + pkt_length k) (crc_wire data) = Some m ->
  csp_crc32_append p s =
    Ret CSP_ERR_NONE (put_pkt p (set_pkt_length (u16 (pkt_length k + 4)) (set_pkt_mem m k)) s).
Proof.
  intros Hk Hl Hr Hw. unfold csp_crc32_append.
  erewrite bind_ret by (eapply get_pkt_at; exact Hk). rewrite (proj2 (Z.ltb_ge _ _)) by done.
  erewrite bind_ret by (eapply read_mem_at; [exact Hk|rewrite Z.add_0_r; exact Hr]). cbv zeta.
  erewrite bind_ret by (eapply write_mem_at; [exact Hk|exact Hw]).
  erewrite bind_ret by (eapply mod_pkt_at, pkt_at_put; exact Hk). by rewrite put_pkt_put.
Qed.

Lemma crc_matches_at p k s data tail : pkt_at p s = Some k ->
  mem_read (pkt_mem k) (CSP_PACKET_PADDING_BYTES + (pkt_length k - 4)) 4 = Some tail ->
  crc_matches p data s = Ret (bool_decide (tail = crc_wire data)) s.
Proof.
  intros Hk Hr. unfold crc_matches. erewrite bind_ret by (eapply get_pkt_at; exact Hk).
  erewrite bind_ret by (eapply read_mem_at; [exact Hk|exact Hr]). done.
Qed.

(** The checksums [csp_crc32_verify] accepts: over header and data, or over
    the data alone. *)
Definition crc_accepts (s : node) (i : csp_id) (data tail : list Z) : bool :=
  bool_decide (tail = crc_wire (enc s false i ++ data)) || bool_decide (tail = crc_wire data).

Lemma crc_verify_run p k s :
  pkt_at p s = Some k -> zlen (pkt_mem k) = CSP_PACKET_PADDING_BYTES + CSP_BUFFER_SIZE ->
  0 <= pkt_length k <= CSP_BUFFER_SIZE ->
  if pkt_length k <? 4 then csp_crc32_verify p s = Ret CSP_ERR_CRC32 s else
  exists data tail m,
    mem_read (pkt_mem k) CSP_PACKET_PADDING_BYTES (pkt_length k - 4) = Some data /\
    mem_read (pkt_mem k) (CSP_PACKET_PADDING_BYTES + (pkt_length k - 4)) 4 = Some tail /\
    mem_write (pkt_mem k) (CSP_PACKET_PADDING_BYTES + - hdr_size s) (enc s false (pkt_id k)) = Some m /\
    csp_crc32_verify p s =
      if crc_accepts s (pkt_id k) data tail
      then Ret CSP_ERR_NONE (put_pkt p (set_pkt_length (pkt_length k - 4) (framed p (hdr_size s) m k)) s)
      else Ret CSP_ERR_CRC32 (put_pkt p (framed p (hdr_size s) m k) s).
Proof.
  unfold CSP_PACKET_PADDING_BYTES, CSP_BUFFER_SIZE. intros Hk Hm Hl.
  unfold csp_crc32_verify. erewrite bind_ret by (eapply get_pkt_at; exact Hk).
  destruct (Z.ltb_spec (pkt_length k) 4) as [|Hge]; [done|].
  pose proof (hdr_size_bound s) as Hh. pose proof (length_enc s false (pkt_id k)) as He.
  destruct (mem_read_ok (pkt_mem k) 8 (pkt_length k - 4)) as [data Hd]; [lia..|].
  destruct (mem_read_ok (pkt_mem k) (8 + (pkt_length k - 4)) 4) as [tail Ht]; [lia..|].
  destruct (mem_write_ok (pkt_mem k) (8 + - hdr_size s) (enc s false (pkt_id k))) as [m Hw]; [lia..|].
  exists data, tail, m. split_and!; [done..|].
  erewrite bind_ret by (apply (prepend_at false); [exact Hk|exact Hw]).
  set (k1 := framed p (hdr_size s) m k). set (s1 := put_pkt p k1 s).
  assert (Hk1 : pkt_at p s1 = Some k1) by (by eapply pkt_at_put).
  assert (Hd1 : mem_read (pkt_mem k1) 8 (pkt_length k - 4) = Some data)
    by (rewrite <- Hd; eapply mem_read_write_after; [exact Hw|lia|lia]).
  assert (Ht1 : mem_read (pkt_mem k1) (8 + (pkt_length k - 4)) 4 = Some tail)
    by (rewrite <- Ht; eapply mem_read_write_after; [exact Hw|lia|lia]).
  assert (Hf1 : read_frame p (frame_length k1 - 4) s1 = Ret (enc s false (pkt_id k) ++ data) s1).
  { unfold read_frame. erewrite bind_ret by (eapply get_pkt_at; exact Hk1).
    eapply read_mem_at; [exact Hk1|]. simpl. rewrite u16_small by lia.
    replace (pkt_length k + hdr_size s - 4) with (hdr_size s + (pkt_length k - 4)) by lia.
    apply mem_read_app; [rewrite <- He at 2; by eapply mem_read_write|].
    unfold CSP_PACKET_PADDING_BYTES. replace (8 + - hdr_size s + hdr_size s) with 8 by lia. done. }
  erewrite bind_ret by (eapply get_pkt_at; exact Hk1).
  erewrite bind_ret by exact Hf1.
  erewrite bind_ret by (eapply crc_matches_at; [exact Hk1|exact Ht1]).
  unfold crc_accepts. destruct (bool_decide (tail = crc_wire (enc s false (pkt_id k) ++ data))); simpl orb.
  - rewrite (bind_ret _ _ _ true s1) by done. lazy beta iota delta [negb].
    erewrite bind_ret by (eapply mod_pkt_at; exact Hk1). unfold s1. rewrite put_pkt_put.
    simpl. by rewrite u16_small by lia.
  - erewrite (bind_ret _ _ s1) by (erewrite bind_ret by (eapply read_mem_at; [exact Hk1|exact Hd1]);
      eapply crc_matches_at; [exact Hk1|exact Ht1]).
    destruct (bool_decide (tail = crc_wire data)); lazy beta iota delta [negb]; [|done].
    erewrite bind_ret by (eapply mod_pkt_at; exact Hk1). unfold s1. rewrite put_pkt_put.
    simpl. by rewrite u16_small by lia.
Qed.

(** What [csp_crc32_verify] decides: a packet of at least four bytes is
    accepted exactly when its last four bytes are the checksum of the rest,
    with or without the header, and then loses them; otherwise its length is
    unchanged.  A shorter packet is refused untouched. *)
Theorem crc32_verify_spec p k s :
  pkt_at p s = Some k -> zlen (pkt_mem k) = CSP_PACKET_PADDING_BYTES + CSP_BUFFER_SIZE ->
  0 <= pkt_length k <= CSP_BUFFER_SIZE ->
  if pkt_length k <? 4 then csp_crc32_verify p s = Ret CSP_ERR_CRC32 s else
  exists data tail m,
    mem_read (pkt_mem k) CSP_PACKET_PADDING_BYTES (pkt_length k - 4) = Some data /\
    mem_read (pkt_mem k) (CSP_PACKET_PADDING_BYTES + (pkt_length k - 4)) 4 = Some tail /\
    mem_write (pkt_mem k) (CSP_PACKET_PADDING_BYTES + - hdr_size s) (enc s false (pkt_id k)) = Some m /\
    csp_crc32_verify p s =
      if crc_accepts s (pkt_id k) data tail
      then Ret CSP_ERR_NONE (put_pkt p (set_pkt_length (pkt_length k - 4) (framed p (hdr_size s) m k)) s)
      else Ret CSP_ERR_CRC32 (put_pkt p (framed p (hdr_size s) m k) s).
Proof. apply crc_verify_run. Qed.

Lemma crc32_verify_spec_witness :
  csp_crc32_verify 0 (packet_node (set_pkt_length 3 blank_packet)) =
    Ret CSP_ERR_CRC32 (packet_node (set_pkt_length 3 blank_packet)).
Proof.
  apply (crc32_verify_spec 0 (set_pkt_length 3 blank_packet)); [reflexivity|reflexivity|].
  change (0 <= 3 <= 256). lia.
Defined.

(** The checksum round trip: [csp_crc32_append] on a packet with room for
    it succeeds, and [csp_crc32_verify] then accepts the packet and restores
    its length and data; without room, the append fails and changes nothing. *)
Theorem crc32_append_verify p k s :
  pkt_at p s = Some k -> zlen (pkt_mem k) = CSP_PACKET_PADDING_BYTES + CSP_BUFFER_SIZE ->
  0 <= pkt_length k ->
  if CSP_BUFFER_SIZE <? pkt_length k + 4 then csp_crc32_append p s = Ret CSP_ERR_NOMEM s else
  exists k1 k2, csp_crc32_append p s = Ret CSP_ERR_NONE (put_pkt p k1 s) /\
    pkt_length k1 = pkt_length k + 4 /\
    csp_crc32_verify p (put_pkt p k1 s) = Ret CSP_ERR_NONE (put_pkt p k2 s) /\
    pkt_length k2 = pkt_length k /\ pkt_id k2 = pkt_id k /\
    mem_read (pkt_mem k2) CSP_PACKET_PADDING_BYTES (pkt_length k) =
    mem_read (pkt_mem k) CSP_PACKET_PADDING_BYTES (pkt_length k).
Proof.
  unfold CSP_PACKET_PADDING_BYTES, CSP_BUFFER_SIZE. intros Hk Hm Hl.
  destruct (Z.ltb_spec 256 (pkt_length k + 4)) as [Hbig|Hfit].
  { unfold csp_crc32_append. erewrite bind_ret by (eapply get_pkt_at; exact Hk).
    by rewrite (proj2 (Z.ltb_lt _ _)). }
  destruct (mem_read_ok (pkt_mem k) 8 (pkt_length k)) as [data Hd]; [lia..|].
  pose proof (length_crc_wire data) as Hc.
  destruct (mem_write_ok (pkt_mem k) (8 + pkt_length k) (crc_wire data)) as [m Hw]; [lia..|].
  set (k1 := set_pkt_length (pkt_length k + 4) (set_pkt_mem m k)).
  pose proof (crc_verify_run p k1 (put_pkt p k1 s)) as Hv.
  rewrite (proj2 (Z.ltb_ge _ _)) in Hv by (simpl; lia).
  destruct Hv as (data' & tail & m' & Hd' & Ht & Hw' & Hv).
  { by eapply pkt_at_put. }
  { simpl. rewrite (mem_write_length _ _ _ _ Hw). done. }
  { unfold CSP_BUFFER_SIZE. simpl. lia. }
  unfold CSP_PACKET_PADDING_BYTES in *. simpl in Hd', Ht, Hw'. replace (pkt_length k + 4 - 4) with (pkt_length k) in * by lia.
  assert (data' = data) as ->.
  { rewrite (mem_read_write_before _ _ _ _ _ _ Hw) in Hd' by lia. congruence. }
  assert (tail = crc_wire data) as -> by (pose proof (mem_read_write _ _ _ _ Hw) as Hrw; rewrite Hc in Hrw; congruence).
  unfold crc_accepts in Hv. rewrite (bool_decide_true (crc_wire data = crc_wire data)), orb_true_r in Hv by done.
  eexists k1, _. split.
  { erewrite crc_append_at; [|exact Hk|done|exact Hd|exact Hw]. by rewrite u16_small by lia. }
  split; [done|]. split; [rewrite Hv; by rewrite put_pkt_put|]. simpl. split_and!; [lia|done|].
  etransitivity; [eapply mem_read_write_after; [exact Hw'|rewrite length_enc; lia|lia]|].
  eapply mem_read_write_before; [exact Hw|lia..].
Qed.

Lemma crc32_append_verify_witness :
  let k := set_pkt_length 5 blank_packet in
  exists k1 k2, csp_crc32_append 0 (packet_node k) = Ret CSP_ERR_NONE (put_pkt 0 k1 (packet_node k)) /\
    pkt_length k1 = 9 /\
    csp_crc32_verify 0 (put_pkt 0 k1 (packet_node k)) = Ret CSP_ERR_NONE (put_pkt 0 k2 (packet_node k)) /\
    pkt_length k2 = 5.
Proof.
  pose proof (crc32_append_verify 0 (set_pkt_length 5 blank_packet)
                (packet_node (set_pkt_length 5 blank_packet)) eq_refl eq_refl) as H.
  destruct H as (k1 & k2 & H1 & H2 & H3 & H4 & _); [change (0 <= 5); lia|].
  exists k1, k2. split; [exact H1|]. split; [exact H2|]. split; [exact H3|exact H4].
Defined.
