(* ===== verification/Sha1.v ===== *)
(** * Sha1: the hash of [src/crypto/csp_sha1.c]

    The streaming implementation: a block buffer, a compression function, the
    three calls [init], [process], [done]; SHA-1 as the standard FIPS 180-4 states
    it ([Fips180]), and the proof that they agree. *)

From S2P Require Import Prelude.

Definition CSP_SHA1_BLOCKSIZE : nat := 64.
Definition CSP_SHA1_DIGESTSIZE : nat := 20.

(** ** The macros *)

Definition ROL (x y : Z) : Z := Z.lor (u32 (Z.shiftl x y)) (Z.shiftr x (32 - y)).

Definition F0 (x y z : Z) : Z := Z.lxor z (Z.land x (Z.lxor y z)).
Definition F1 (x y z : Z) : Z := Z.lxor (Z.lxor x y) z.
Definition F2 (x y z : Z) : Z := Z.lor (Z.land x y) (Z.land z (Z.lor x y)).
Definition F3 (x y z : Z) : Z := Z.lxor (Z.lxor x y) z.

(** [LOAD32H], [STORE32H] and [STORE64H] read and write big-endian words. *)
Definition LOAD32H (bs : list Z) : Z := be_val (map (fun b => Z.land b 0xff) (take 4 bs)).
Definition STORE32H (x : Z) : list Z := be_bytes 4 x.
Definition STORE64H (x : Z) : list Z := be_bytes 8 x.

(** The working variables [a, b, c, d, e]. *)
Record sha1_vars := mkVars { va : Z; vb : Z; vc : Z; vd : Z; ve : Z }.

(** [FF_k(a, b, c, d, e, i)]: the macro writes [e] and [b]; the call sites
    rotate the roles of the variables, which is the renaming done here. *)
Definition FF (f : Z -> Z -> Z -> Z) (k w : Z) (v : sha1_vars) : sha1_vars :=
  let e := u32 (ROL (va v) 5 + f (vb v) (vc v) (vd v) + ve v + w + k) in
  mkVars e (va v) (ROL (vb v) 30) (vc v) (vd v).

Definition FF_0 := FF F0 0x5a827999.
Definition FF_1 := FF F1 0x6ed9eba1.
Definition FF_2 := FF F2 0x8f1bbcdc.
Definition FF_3 := FF F3 0xca62c1d6.

(** ** Compression *)

Record csp_sha1_state := mkSha1 {
  sha1_length : Z;        (* uint64_t, in bits *)
  sha1_state : sha1_vars; (* uint32_t state[5] *)
  sha1_curlen : nat;      (* bytes in buf *)
  sha1_buf : list Z       (* uint8_t buf[64] *)
}.

(** [W[i] = ROL(W[i-3] ^ W[i-8] ^ W[i-14] ^ W[i-16], 1)] for [n] more words. *)
Fixpoint sha1_expand (n : nat) (W : list Z) : list Z :=
  match n with
  | O => W
  | S n' =>
      let i := length W in
      let w := ROL (Z.lxor (Z.lxor (Z.lxor (nth (i - 3) W 0) (nth (i - 8) W 0))
                     (nth (i - 14) W 0)) (nth (i - 16) W 0)) 1 in
      sha1_expand n' (W ++ [w])
  end.

Fixpoint sha1_load (n : nat) (buf : list Z) : list Z :=
  match n with
  | O => []
  | S n' => LOAD32H buf :: sha1_load n' (drop 4 buf)
  end.

(** Twenty rounds with the words [ws]. *)
Definition sha1_rounds (ff : Z -> sha1_vars -> sha1_vars) (ws : list Z) (v : sha1_vars) : sha1_vars :=
  foldl (fun v w => ff w v) v ws.

Definition sha1_compress_vars (st : sha1_vars) (buf : list Z) : sha1_vars :=
  let W := sha1_expand 64 (sha1_load 16 buf) in
  let v := sha1_rounds FF_0 (take 20 W) st in
  let v := sha1_rounds FF_1 (take 20 (drop 20 W)) v in
  let v := sha1_rounds FF_2 (take 20 (drop 40 W)) v in
  let v := sha1_rounds FF_3 (take 20 (drop 60 W)) v in
  mkVars (u32 (va st + va v)) (u32 (vb st + vb v)) (u32 (vc st + vc v))
         (u32 (vd st + vd v)) (u32 (ve st + ve v)).

Definition csp_sha1_compress (st : csp_sha1_state) (buf : list Z) : csp_sha1_state :=
  mkSha1 (sha1_length st) (sha1_compress_vars (sha1_state st) buf) (sha1_curlen st) (sha1_buf st).

(** ** The streaming interface *)

Definition csp_sha1_init : csp_sha1_state :=
  mkSha1 0 (mkVars 0x67452301 0xefcdab89 0x98badcfe 0x10325476 0xc3d2e1f0) 0
    (replicate CSP_SHA1_BLOCKSIZE 0).

(** Overwrite [buf] at [off] with [bs] (inside the block). *)
Definition buf_put (buf : list Z) (off : nat) (bs : list Z) : list Z :=
  take off buf ++ bs ++ drop (off + length bs) buf.

(** One turn of the loop of [csp_sha1_process]: the new state and what is left
    of the input. *)
Definition sha1_process_step (st : csp_sha1_state) (data : list Z) : csp_sha1_state * list Z :=
  if Nat.eqb (sha1_curlen st) 0 && Nat.leb CSP_SHA1_BLOCKSIZE (length data) then
    let st' := csp_sha1_compress st (take CSP_SHA1_BLOCKSIZE data) in
    (mkSha1 (u64 (sha1_length st' + 512)) (sha1_state st') (sha1_curlen st') (sha1_buf st'),
     drop CSP_SHA1_BLOCKSIZE data)
  else
    let n := Nat.min (length data) (CSP_SHA1_BLOCKSIZE - sha1_curlen st) in
    let st1 := mkSha1 (sha1_length st) (sha1_state st) (sha1_curlen st + n)
                 (buf_put (sha1_buf st) (sha1_curlen st) (take n data)) in
    let st2 :=
      if Nat.eqb (sha1_curlen st1) CSP_SHA1_BLOCKSIZE then
        let st' := csp_sha1_compress st1 (sha1_buf st1) in
        mkSha1 (u64 (sha1_length st' + 512)) (sha1_state st') 0 (sha1_buf st')
      else st1 in
    (st2, drop n data).

(** [while (inlen > 0)]; every turn consumes at least one byte, so the input
    length bounds the turns. *)
Fixpoint sha1_process_loop (fuel : nat) (st : csp_sha1_state) (data : list Z) : csp_sha1_state :=
  match fuel with
  | O => st
  | S fuel' =>
      match data with
      | [] => st
      | _ => let '(st', rest) := sha1_process_step st data in sha1_process_loop fuel' st' rest
      end
  end.

Definition csp_sha1_process (st : csp_sha1_state) (data : list Z) : csp_sha1_state :=
  sha1_process_loop (length data) st data.

Definition csp_sha1_done (st : csp_sha1_state) : list Z :=
  let len := u64 (sha1_length st + Z.of_nat (sha1_curlen st) * 8) in
  let buf := buf_put (sha1_buf st) (sha1_curlen st) [0x80] in
  let curlen := S (sha1_curlen st) in
  let '(vars, buf, curlen) :=
    if Nat.ltb 56 curlen then
      let buf := buf_put buf curlen (replicate (64 - curlen) 0) in
      (sha1_compress_vars (sha1_state st) buf, buf, O)
    else (sha1_state st, buf, curlen) in
  let buf := buf_put buf curlen (replicate (56 - curlen) 0) in
  let buf := buf_put buf 56 (STORE64H len) in
  let v := sha1_compress_vars vars buf in
  STORE32H (va v) ++ STORE32H (vb v) ++ STORE32H (vc v) ++ STORE32H (vd v) ++ STORE32H (ve v).

Definition csp_sha1_memory (msg : list Z) : list Z :=
  csp_sha1_done (csp_sha1_process csp_sha1_init msg).

(** SHA-1 of "abc". *)
Example sha1_abc : be_val (csp_sha1_memory [0x61; 0x62; 0x63]) = 0xa9993e364706816aba3e25717850c26c9cd0d89d.
Proof. vm_compute. reflexivity. Qed.

(** ** SHA-1 as FIPS 180-4 states it

    Independent of the implementation: words are numbers below 2^32, the
    constants and functions those of the standard (sections 4.1.1, 4.2.1, 5.1.1,
    5.3.1 and 6.1.2).  The round constants are the integer parts of 2^30 times
    the square roots of 2, 3, 5 and 10. *)
Module Fips180.

Definition add (x y : Z) : Z := (x + y) mod 2 ^ 32.
Definition rotl (n x : Z) : Z := (x * 2 ^ n) mod 2 ^ 32 + x / 2 ^ (32 - n).
Definition neg (x : Z) : Z := 2 ^ 32 - 1 - x.

Definition ch (x y z : Z) : Z := Z.lxor (Z.land x y) (Z.land (neg x) z).
Definition parity (x y z : Z) : Z := Z.lxor x (Z.lxor y z).
Definition maj (x y z : Z) : Z := Z.lxor (Z.land x y) (Z.lxor (Z.land x z) (Z.land y z)).

Definition f (t : nat) : Z -> Z -> Z -> Z :=
  if Nat.ltb t 20 then ch else if Nat.ltb t 40 then parity else if Nat.ltb t 60 then maj else parity.

Definition root (n : Z) : Z := Z.sqrt (n * 2 ^ 60).
Definition K (t : nat) : Z := root (if Nat.ltb t 20 then 2 else if Nat.ltb t 40 then 3 else if Nat.ltb t 60 then 5 else 10).

(** Word [t] of a block, its bytes in order. *)
Definition M (block : list Z) (t : nat) : Z :=
  foldl (fun w b => 256 * w + b mod 256) 0 (take 4 (drop (4 * t) block)).

(** The first [t] words of the message schedule. *)
Fixpoint schedule (block : list Z) (t : nat) : list Z :=
  match t with
  | O => []
  | S t' =>
      let W := schedule block t' in
      let w n := nth (t' - n) W 0 in
      W ++ [if Nat.ltb t' 16 then M block t' else rotl 1 (Z.lxor (w 3%nat) (Z.lxor (w 8%nat) (Z.lxor (w 14%nat) (w 16%nat))))]
  end.

(** One step, with word [w] of the schedule. *)
Definition step (t : nat) (w : Z) (v : sha1_vars) : sha1_vars :=
  let '(mkVars a b c d e) := v in
  let T := add (add (add (add (rotl 5 a) (f t b c d)) e) (K t)) w in
  mkVars T a (rotl 30 b) c d.

Definition H0 : sha1_vars := mkVars 0x67452301 0xefcdab89 0x98badcfe 0x10325476 0xc3d2e1f0.

Definition compress (h : sha1_vars) (block : list Z) : sha1_vars :=
  let '(mkVars a b c d e) := foldl (fun v t => step t (nth t (schedule block 80) 0) v) h (seq 0 80) in
  mkVars (add a (va h)) (add b (vb h)) (add c (vc h)) (add d (vd h)) (add e (ve h)).

(** The padding: a one bit, the least number of zeros, the length in bits. *)
Definition pad (msg : list Z) : list Z :=
  msg ++ [0x80] ++ replicate (Z.to_nat ((55 - zlen msg) mod 64)) 0 ++ be_bytes 8 (8 * zlen msg).

Fixpoint blocks (n : nat) (h : sha1_vars) (l : list Z) : sha1_vars :=
  match n with
  | O => h
  | S n' => blocks n' (compress h (take 64 l)) (drop 64 l)
  end.

End Fips180.

Definition sha1_spec (msg : list Z) : list Z :=
  let h := Fips180.blocks (length (Fips180.pad msg) / 64) Fips180.H0 (Fips180.pad msg) in
  be_bytes 4 (va h) ++ be_bytes 4 (vb h) ++ be_bytes 4 (vc h) ++ be_bytes 4 (vd h) ++ be_bytes 4 (ve h).

(** The example of the standard's companion: the digest of "abc". *)
Example sha1_spec_abc : be_val (sha1_spec [0x61; 0x62; 0x63]) = 0xa9993e364706816aba3e25717850c26c9cd0d89d.
Proof. vm_compute. reflexivity. Qed.

(** ** The compression function is that of the standard *)

Definition word (x : Z) : Prop := 0 <= x < 2 ^ 32.
Definition words (v : sha1_vars) : Prop := word (va v) /\ word (vb v) /\ word (vc v) /\ word (vd v) /\ word (ve v).

Lemma word_bits x n : word x -> 32 <= n -> Z.testbit x n = false.
Proof.
  intros [H0 H1] Hn. destruct (Z.eq_dec x 0) as [->|]; [apply Z.bits_0|]. apply Z.bits_above_log2; [done|].
  apply Z.log2_lt_pow2 in H1; lia.
Qed.

Lemma bits_word x : 0 <= x -> (forall n, 32 <= n -> Z.testbit x n = false) -> word x.
Proof.
  intros H0 Hb. split; [done|]. destruct (Z.lt_ge_cases x (2 ^ 32)) as [|Hge]; [done|]. exfalso.
  assert (Hpos : 0 < x) by lia. apply Z.log2_le_pow2 in Hge; [|done]. specialize (Hb _ Hge). by rewrite Z.bit_log2 in Hb.
Qed.

Lemma word_lxor x y : word x -> word y -> word (Z.lxor x y).
Proof.
  intros Hx Hy. apply bits_word; [rewrite Z.lxor_nonneg; unfold word in *; lia|].
  intros n Hn. by rewrite Z.lxor_spec, !word_bits.
Qed.

Lemma word_land x y : word x -> word y -> word (Z.land x y).
Proof.
  intros Hx Hy. apply bits_word; [rewrite Z.land_nonneg; unfold word in *; lia|].
  intros n Hn. by rewrite Z.land_spec, !word_bits.
Qed.

Lemma word_lor x y : word x -> word y -> word (Z.lor x y).
Proof.
  intros Hx Hy. apply bits_word; [rewrite Z.lor_nonneg; unfold word in *; lia|].
  intros n Hn. by rewrite Z.lor_spec, !word_bits.
Qed.

Lemma word_u32 z : word (u32 z).
Proof. apply u32_range. Qed.

Lemma ROL_rotl x n : word x -> 0 <= n <= 32 -> ROL x n = Fips180.rotl n x.
Proof.
  intros Hx Hn. unfold ROL, Fips180.rotl. rewrite Z.shiftl_mul_pow2, Z.shiftr_div_pow2 by lia.
  change (u32 (x * 2 ^ n)) with ((x * 2 ^ n) mod 2 ^ 32).
  rewrite <- Z.lxor_lor, <- Z.add_nocarry_lxor; [done| |]; apply Z.bits_inj'; intros m Hm; rewrite Z.land_spec, Z.bits_0.
  all: destruct (Z.lt_ge_cases m n) as [Hlt|Hge]; [|rewrite Z.div_pow2_bits, (word_bits x (m + _)) by (done || lia); apply andb_false_r].
  all: rewrite (Z.mod_pow2_bits_low _ 32) by lia; rewrite Z.mul_pow2_bits_low by lia; done.
Qed.


Lemma word_ROL x n : word x -> 0 <= n <= 32 -> word (ROL x n).
Proof.
  intros Hx Hn. unfold ROL. apply word_lor; [apply word_u32|]. rewrite Z.shiftr_div_pow2 by lia. unfold word in *.
  assert (Hp : 1 <= 2 ^ (32 - n)) by (apply (Z.pow_le_mono_r 2 0 (32 - n)); lia).
  split; [apply Z.div_pos; lia|]. apply (Z.le_lt_trans _ x); [|lia]. apply Z.div_le_upper_bound; nia.
Qed.

Lemma neg_bits x n : word x -> 0 <= n < 32 -> Z.testbit (Fips180.neg x) n = negb (Z.testbit x n).
Proof.
  intros Hx Hn. unfold word in Hx. assert (E : Fips180.neg x = Z.lnot x mod 2 ^ 32).
  { unfold Fips180.neg, Z.lnot. rewrite <- (Z.mod_small (2 ^ 32 - 1 - x) (2 ^ 32)) by lia.
    replace (2 ^ 32 - 1 - x) with (Z.pred (- x) + 1 * 2 ^ 32) by lia. by rewrite Z.mod_add. }
  rewrite E, Z.mod_pow2_bits_low by lia. by rewrite Z.lnot_spec by lia.
Qed.

Lemma F0_ch x y z : word x -> word y -> word z -> F0 x y z = Fips180.ch x y z.
Proof.
  intros Hx Hy Hz. apply Z.bits_inj'. intros n Hn. unfold F0, Fips180.ch.
  repeat (rewrite Z.lxor_spec || rewrite Z.land_spec). destruct (Z.lt_ge_cases n 32).
  - rewrite neg_bits by (done || lia). by destruct (Z.testbit x n), (Z.testbit y n), (Z.testbit z n).
  - rewrite (word_bits x), (word_bits y), (word_bits z) by done. by destruct (Z.testbit (Fips180.neg x) n).
Qed.

Lemma F2_maj x y z : F2 x y z = Fips180.maj x y z.
Proof.
  apply Z.bits_inj'. intros n Hn. unfold F2, Fips180.maj. repeat (rewrite Z.lxor_spec || rewrite Z.land_spec || rewrite Z.lor_spec).
  by destruct (Z.testbit x n), (Z.testbit y n), (Z.testbit z n).
Qed.

Lemma F1_parity x y z : F1 x y z = Fips180.parity x y z.
Proof. apply Z.lxor_assoc. Qed.

Lemma add_add x y z : Fips180.add (Fips180.add x y) z = Fips180.add x (y + z).
Proof. unfold Fips180.add. by rewrite Z.add_mod_idemp_l, Z.add_assoc by done. Qed.

Lemma add_chain a b c d e : Fips180.add (Fips180.add (Fips180.add (Fips180.add a b) c) d) e = u32 (a + b + c + e + d).
Proof. rewrite !add_add. unfold Fips180.add, u32. f_equal; lia. Qed.

(** One macro is one step, on words. *)
Lemma FF_step g k t w v : words v -> k = Fips180.K t ->
  (forall x y z, word x -> word y -> word z -> g x y z = Fips180.f t x y z) -> FF g k w v = Fips180.step t w v.
Proof.
  intros (Ha & Hb & Hc & Hd & He) Hk Hg. destruct v as [a b c d e]. simpl in *. unfold FF. cbn [va vb vc vd ve].
  by rewrite Hg, !ROL_rotl, add_chain, Hk by (done || lia).
Qed.

Lemma words_FF g k w v : words v -> words (FF g k w v).
Proof. intros (Ha & Hb & Hc & Hd & He). unfold FF, words. cbn [va vb vc vd ve]. split_and!; [apply word_u32|done| |done|done]. apply word_ROL; [done|lia]. Qed.

(** The four groups of rounds. *)
Lemma FF_0_step t w v : (t < 20)%nat -> words v -> FF_0 w v = Fips180.step t w v.
Proof.
  intros Ht Hv. apply FF_step; [done|..]; unfold Fips180.K, Fips180.f; rewrite (proj2 (Nat.ltb_lt _ _)) by done; [by vm_compute|apply F0_ch].
Qed.

Lemma FF_1_step t w v : (20 <= t < 40)%nat -> words v -> FF_1 w v = Fips180.step t w v.
Proof.
  intros Ht Hv. apply FF_step; [done|..]; unfold Fips180.K, Fips180.f; rewrite (proj2 (Nat.ltb_ge t 20)), (proj2 (Nat.ltb_lt t 40)) by lia;
    [by vm_compute|intros; apply F1_parity].
Qed.

Lemma FF_2_step t w v : (40 <= t < 60)%nat -> words v -> FF_2 w v = Fips180.step t w v.
Proof.
  intros Ht Hv. apply FF_step; [done|..]; unfold Fips180.K, Fips180.f;
    rewrite (proj2 (Nat.ltb_ge t 20)), (proj2 (Nat.ltb_ge t 40)), (proj2 (Nat.ltb_lt t 60)) by lia; [by vm_compute|intros; apply F2_maj].
Qed.

Lemma FF_3_step t w v : (60 <= t)%nat -> words v -> FF_3 w v = Fips180.step t w v.
Proof.
  intros Ht Hv. apply FF_step; [done|..]; unfold Fips180.K, Fips180.f;
    rewrite (proj2 (Nat.ltb_ge t 20)), (proj2 (Nat.ltb_ge t 40)), (proj2 (Nat.ltb_ge t 60)) by lia; [by vm_compute|intros; apply F1_parity].
Qed.

Lemma rounds_steps g k W n : forall o v, words v -> (o + n <= length W)%nat ->
  (forall t w v, (o <= t < o + n)%nat -> words v -> FF g k w v = Fips180.step t w v) ->
  sha1_rounds (FF g k) (take n (drop o W)) v = foldl (fun v t => Fips180.step t (nth t W 0) v) v (seq o n) /\
  words (sha1_rounds (FF g k) (take n (drop o W)) v).
Proof.
  induction n as [|n IH]; intros o v Hv Hl Hs; [done|]. destruct (drop o W) as [|w W'] eqn:E.
  { apply (f_equal length) in E. rewrite length_drop in E. simpl in E. lia. }
  assert (Ew : nth o W 0 = w).
  { rewrite <- (take_drop o W), E. rewrite app_nth2; rewrite length_take_le by lia; [|lia]. by rewrite Nat.sub_diag. }
  assert (ED : W' = drop (S o) W) by (rewrite <- Nat.add_1_r, <- drop_drop, E; done).
  cbn [take seq foldl sha1_rounds]. rewrite Ew, <- Hs by (done || lia). rewrite ED.
  apply IH; [by apply words_FF|lia|]. intros t w' v' Ht. apply Hs. lia.
Qed.

(** *** The message schedule *)

Lemma length_schedule block t : length (Fips180.schedule block t) = t.
Proof. induction t as [|t IH]; [done|]. cbn [Fips180.schedule]. rewrite length_app, IH. simpl. lia. Qed.

Lemma load_word bs : LOAD32H bs = foldl (fun w b => 256 * w + b mod 256) 0 (take 4 bs).
Proof.
  unfold LOAD32H. assert (E : forall b, Z.land b 0xff = b mod 256) by (intros b; by apply (Z.land_ones b 8)).
  destruct bs as [|b0 [|b1 [|b2 [|b3 bs]]]]; cbn [take map foldl]; rewrite ?E; unfold be_val, reverse; rewrite ?take_0; cbn [map foldl rev_append le_val]; lia.
Qed.

Lemma load_schedule n : forall block t, (t + n <= 16)%nat ->
  Fips180.schedule block t ++ sha1_load n (drop (4 * t) block) = Fips180.schedule block (t + n).
Proof.
  induction n as [|n IH]; intros block t Ht; [by rewrite app_nil_r, Nat.add_0_r|]. cbn [sha1_load].
  rewrite drop_drop. replace (4 * t + 4)%nat with (4 * S t)%nat by lia.
  assert (E : Fips180.schedule block (S t) = Fips180.schedule block t ++ [LOAD32H (drop (4 * t) block)]).
  { cbn [Fips180.schedule]. rewrite (proj2 (Nat.ltb_lt t 16)) by lia. by rewrite load_word. }
  rewrite <- Nat.add_succ_comm, <- IH, E by lia. by rewrite <- app_assoc.
Qed.

Lemma word_load bs : word (LOAD32H bs).
Proof.
  rewrite load_word. unfold word. destruct bs as [|b0 [|b1 [|b2 [|b3 bs]]]]; cbn [take foldl]; rewrite ?take_0; cbn [foldl];
    repeat match goal with |- context [?b mod 256] => pose proof (Z.mod_pos_bound b 256 ltac:(lia)); generalize dependent (b mod 256); intros end; lia.
Qed.

Lemma word_nth W n : Forall word W -> word (nth n W 0).
Proof. intros HW. destruct (nth_in_or_default n W 0) as [Hin| ->]; [|unfold word; lia]. rewrite Forall_forall in HW. apply HW. exact Hin. Qed.

Ltac words_tac := first [lia | repeat apply word_lxor; by apply word_nth].

Lemma schedule_words block t : Forall word (Fips180.schedule block t).
Proof.
  induction t as [|t IH]; [constructor|]. cbn [Fips180.schedule]. apply Forall_app. split; [done|]. constructor; [|constructor].
  destruct (Nat.ltb t 16); [unfold Fips180.M; rewrite <- load_word; apply word_load|].
  rewrite <- ROL_rotl by words_tac. apply word_ROL; [|lia]. words_tac.
Qed.

Lemma expand_schedule block n : forall t, (16 <= t)%nat -> sha1_expand n (Fips180.schedule block t) = Fips180.schedule block (t + n).
Proof.
  induction n as [|n IH]; intros t Ht; [by rewrite Nat.add_0_r|]. cbn [sha1_expand]. rewrite length_schedule.
  rewrite <- Nat.add_succ_comm, <- IH by lia. f_equal. cbn [Fips180.schedule]. rewrite (proj2 (Nat.ltb_ge t 16)) by lia.
  pose proof (schedule_words block t) as HW. rewrite ROL_rotl by words_tac. by rewrite !Z.lxor_assoc.
Qed.

Lemma schedule_80 block : sha1_expand 64 (sha1_load 16 block) = Fips180.schedule block 80.
Proof.
  assert (E : sha1_load 16 block = Fips180.schedule block 16) by exact (load_schedule 16 block 0 ltac:(lia)). rewrite E.
  by apply (expand_schedule block 64 16).
Qed.

Lemma compress_fips h block : words h -> sha1_compress_vars h block = Fips180.compress h block /\ words (sha1_compress_vars h block).
Proof.
  intros Hh. unfold sha1_compress_vars, Fips180.compress. rewrite schedule_80. cbv zeta.
  generalize (length_schedule block 80). generalize (Fips180.schedule block 80). intros W Hl.
  change (seq 0 80) with (seq 0 20 ++ seq 20 20 ++ seq 40 20 ++ seq 60 20). rewrite !foldl_app.
  destruct (rounds_steps F0 0x5a827999 W 20 0 h Hh) as [E1 H1]; [lia|intros; apply FF_0_step; [lia|done]|].
  destruct (rounds_steps F1 0x6ed9eba1 W 20 20 _ H1) as [E2 H2]; [lia|intros; apply FF_1_step; [lia|done]|].
  destruct (rounds_steps F2 0x8f1bbcdc W 20 40 _ H2) as [E3 H3]; [lia|intros; apply FF_2_step; [lia|done]|].
  destruct (rounds_steps F3 0xca62c1d6 W 20 60 _ H3) as [E4 H4]; [lia|intros; apply FF_3_step; [lia|done]|].
  rewrite <- E1, <- E2, <- E3, <- E4. change (drop 0 W) with W. fold FF_0 FF_1 FF_2 FF_3.
  destruct (sha1_rounds FF_3 _ _) as [a b c d e]. cbn [va vb vc vd ve]. split; [|split_and!; apply word_u32].
  unfold Fips180.add, u32. f_equal; f_equal; lia.
Qed.

(** ** The hash of a whole message with that function

    The message is padded and the compression function iterated over the 64-byte
    blocks. *)

Definition sha1_pad (msg : list Z) : list Z :=
  msg ++ 0x80 :: replicate ((119 - length msg mod 64) mod 64) 0 ++ STORE64H (u64 (8 * zlen msg)).

Fixpoint sha1_blocks (n : nat) (v : sha1_vars) (l : list Z) : sha1_vars :=
  match n with
  | O => v
  | S n' => sha1_blocks n' (sha1_compress_vars v (take 64 l)) (drop 64 l)
  end.

Definition sha1_digest (v : sha1_vars) : list Z :=
  STORE32H (va v) ++ STORE32H (vb v) ++ STORE32H (vc v) ++ STORE32H (vd v) ++ STORE32H (ve v).

Definition sha1_iter (msg : list Z) : list Z :=
  sha1_digest (sha1_blocks (length (sha1_pad msg) / 64) (sha1_state csp_sha1_init) (sha1_pad msg)).

Lemma blocks_fips n : forall v l, words v -> sha1_blocks n v l = Fips180.blocks n v l.
Proof.
  induction n as [|n IH]; intros v l Hv; [done|]. cbn [sha1_blocks Fips180.blocks].
  destruct (compress_fips v (take 64 l) Hv) as [<- Hw]. by apply IH.
Qed.

Lemma pad_fips msg : sha1_pad msg = Fips180.pad msg.
Proof.
  unfold sha1_pad, Fips180.pad, STORE64H. cbn [app]. do 2 f_equal. f_equal.
  - f_equal. pose proof (Nat.div_mod_eq (length msg) 64). pose proof (Nat.mod_upper_bound (length msg) 64).
    apply Nat2Z.inj. rewrite Z2Nat.id by (apply Z.mod_pos_bound; lia). rewrite Nat2Z.inj_mod.
    replace (Z.of_nat (119 - length msg mod 64)) with (55 - zlen msg + (1 + Z.of_nat (length msg / 64)) * Z.of_nat 64) by lia.
    by rewrite Z.mod_add.
  - unfold be_bytes, u64. f_equal. rewrite <- (le_bytes_mod 8 (8 * zlen msg)). done.
Qed.

Lemma iter_fips msg : sha1_iter msg = sha1_spec msg.
Proof.
  unfold sha1_iter, sha1_spec. rewrite pad_fips, blocks_fips; [done|].
  unfold words, word. cbn. lia.
Qed.

#[local] Opaque sha1_compress_vars.

Lemma sha1_blocks_app n m v l :
  sha1_blocks (n + m) v l = sha1_blocks m (sha1_blocks n v l) (drop (64 * n) l).
Proof.
  revert v l. induction n as [|n IH]; intros v l; [done|].
  change (sha1_blocks (S n + m) v l) with (sha1_blocks (n + m) (sha1_compress_vars v (take 64 l)) (drop 64 l)).
  rewrite IH, drop_drop. simpl sha1_blocks at 3. do 2 f_equal. lia.
Qed.

Lemma sha1_blocks_prefix n v l k : (64 * n <= length l)%nat -> sha1_blocks n v (l ++ k) = sha1_blocks n v l.
Proof.
  revert v l. induction n as [|n IH]; intros v l Hl; [done|]. cbn [sha1_blocks].
  rewrite take_app_le, drop_app_le by lia. apply IH. rewrite length_drop. lia.
Qed.

(** The streaming state after the message [msg]. *)
Record sha1_after (msg : list Z) (st : csp_sha1_state) : Prop := {
  after_curlen : sha1_curlen st = (length msg mod 64)%nat;
  after_length : sha1_length st = u64 (512 * Z.of_nat (length msg / 64));
  after_state : sha1_state st = sha1_blocks (length msg / 64) (sha1_state csp_sha1_init) msg;
  after_size : length (sha1_buf st) = 64%nat;
  after_buf : take (length msg mod 64) (sha1_buf st) = drop (64 * (length msg / 64)) msg
}.

Lemma sha1_after_init : sha1_after [] csp_sha1_init.
Proof. split; reflexivity. Qed.

Lemma length_buf_put buf off bs : (off + length bs <= length buf)%nat -> length (buf_put buf off bs) = length buf.
Proof. intros. unfold buf_put. rewrite !length_app, length_take, length_drop. lia. Qed.

Lemma div_mod_64 a b q r : a = (64 * q)%nat -> (r < 64)%nat -> b = r ->
  ((a + b) / 64 = q /\ (a + b) mod 64 = r)%nat.
Proof.
  intros -> Hr ->. rewrite (Nat.mul_comm 64). rewrite Nat.add_comm, Nat.div_add, Nat.Div0.mod_add by lia.
  rewrite Nat.div_small, Nat.mod_small by lia. done.
Qed.

(** The message split at its last block boundary. *)
Lemma split_blocks (msg : list Z) : let q := (length msg / 64)%nat in
  length (take (64 * q) msg) = (64 * q)%nat /\ length (drop (64 * q) msg) = (length msg mod 64)%nat.
Proof.
  intros q. pose proof (Nat.div_mod_eq (length msg) 64).
  rewrite length_take, length_drop. subst q. lia.
Qed.

Lemma u64_add a b : u64 (u64 a + b) = u64 (a + b).
Proof. unfold u64. by rewrite Z.add_mod_idemp_l. Qed.

(** A whole block straight from the input. *)
Lemma after_block msg st blk : sha1_after msg st -> (length msg mod 64 = 0)%nat -> length blk = 64%nat ->
  sha1_after (msg ++ blk) (mkSha1 (u64 (sha1_length st + 512)) (sha1_compress_vars (sha1_state st) blk)
                             (sha1_curlen st) (sha1_buf st)).
Proof.
  intros [Hc Hl Hs Hz Hb] Hm Hk. pose proof (Nat.div_mod_eq (length msg) 64) as Hdm.
  destruct (div_mod_64 (64 * S (length msg / 64)) 0 (S (length msg / 64)) 0) as [Hd Hr]; [done|lia|done|].
  assert (E : length (msg ++ blk) = (64 * S (length msg / 64) + 0)%nat) by (rewrite length_app; lia).
  constructor; cbn [sha1_curlen sha1_length sha1_state sha1_buf]; rewrite ?E, ?Hd, ?Hr.
  - lia.
  - rewrite Hl, u64_add. f_equal. lia.
  - rewrite Hs. replace (S (length msg / 64)) with (length msg / 64 + 1)%nat by lia.
    rewrite sha1_blocks_app, sha1_blocks_prefix by lia.
    rewrite drop_app_length' by lia. cbn [sha1_blocks]. by rewrite take_ge by lia.
  - done.
  - rewrite drop_ge; [done|]. rewrite length_app. lia.
Qed.

(** Bytes that do not fill the block buffer. *)
Lemma after_partial msg st d : sha1_after msg st -> (length msg mod 64 + length d < 64)%nat ->
  sha1_after (msg ++ d) (mkSha1 (sha1_length st) (sha1_state st) (sha1_curlen st + length d)
                           (buf_put (sha1_buf st) (sha1_curlen st) d)).
Proof.
  intros [Hc Hl Hs Hz Hb] Hd. destruct (split_blocks msg) as [Ht Hdr].
  pose proof (Nat.div_mod_eq (length msg) 64) as Hdm.
  destruct (div_mod_64 (64 * (length msg / 64)) (length msg mod 64 + length d)
              (length msg / 64) (length msg mod 64 + length d)) as [Hq Hr]; [done..|].
  assert (E : length (msg ++ d) = (64 * (length msg / 64) + (length msg mod 64 + length d))%nat)
    by (rewrite length_app; lia).
  constructor; cbn [sha1_curlen sha1_length sha1_state sha1_buf]; rewrite ?E, ?Hq, ?Hr.
  - lia.
  - done.
  - by rewrite Hs, sha1_blocks_prefix by lia.
  - rewrite length_buf_put; lia.
  - unfold buf_put. rewrite Hc, app_assoc, take_app_length' by (rewrite length_app, length_take; lia).
    rewrite Hb, drop_app_le by lia. done.
Qed.

(** Bytes that fill the block buffer. *)
Lemma after_fill msg st d : sha1_after msg st -> (0 < length d)%nat -> (length msg mod 64 + length d = 64)%nat ->
  sha1_after (msg ++ d)
    (let buf := buf_put (sha1_buf st) (sha1_curlen st) d in
     mkSha1 (u64 (sha1_length st + 512)) (sha1_compress_vars (sha1_state st) buf) 0 buf).
Proof.
  intros [Hc Hl Hs Hz Hb] Hpos Hd. destruct (split_blocks msg) as [Ht Hdr].
  pose proof (Nat.div_mod_eq (length msg) 64) as Hdm.
  destruct (div_mod_64 (64 * S (length msg / 64)) 0 (S (length msg / 64)) 0) as [Hq Hr]; [done|lia|done|].
  assert (E : length (msg ++ d) = (64 * S (length msg / 64) + 0)%nat) by (rewrite length_app; lia).
  assert (Hbuf : buf_put (sha1_buf st) (sha1_curlen st) d = drop (64 * (length msg / 64)) msg ++ d).
  { unfold buf_put. rewrite Hc, Hb. rewrite (drop_ge (sha1_buf st)) by lia. by rewrite app_nil_r. }
  constructor; cbn [sha1_curlen sha1_length sha1_state sha1_buf]; rewrite ?E, ?Hq, ?Hr.
  - done.
  - rewrite Hl, u64_add. f_equal. lia.
  - rewrite Hbuf, Hs. replace (S (length msg / 64)) with (length msg / 64 + 1)%nat by lia.
    rewrite sha1_blocks_app, sha1_blocks_prefix, drop_app_le by lia.
    cbn [sha1_blocks]. rewrite (take_ge (_ ++ d)) by (rewrite length_app; lia). done.
  - rewrite length_buf_put; lia.
  - rewrite drop_ge; [done|]. rewrite length_app. lia.
Qed.

Lemma process_step_after msg st data : sha1_after msg st -> data <> [] ->
  let '(st', rest) := sha1_process_step st data in
  exists d, data = d ++ rest /\ d <> [] /\ sha1_after (msg ++ d) st'.
Proof.
  intros Ha Hd. pose proof (after_curlen _ _ Ha) as Hc. unfold sha1_process_step.
  pose proof (Nat.mod_upper_bound (length msg) 64) as Hm.
  assert (Hl0 : (0 < length data)%nat) by (destruct data; [done|simpl; lia]).
  destruct (Nat.eqb (sha1_curlen st) 0 && _) eqn:E.
  - apply andb_true_iff in E as [E0%Nat.eqb_eq El%Nat.leb_le]. unfold CSP_SHA1_BLOCKSIZE in *.
    exists (take 64 data). rewrite take_drop. split_and!; [done| |].
    + intros H. apply (f_equal length) in H. rewrite length_take in H. cbn [length] in H. lia.
    + apply (after_block msg st (take 64 data)); [done|lia|]. rewrite length_take. lia.
  - cbv zeta. unfold CSP_SHA1_BLOCKSIZE. set (n := Nat.min (length data) (64 - sha1_curlen st)).
    assert (Hn : (0 < n <= length data)%nat) by lia.
    assert (Ht : length (take n data) = n) by (rewrite length_take; lia).
    exists (take n data). rewrite take_drop. split_and!; [done| |].
    + intros H. apply (f_equal length) in H. cbn [length] in H. lia.
    + cbn [sha1_curlen sha1_buf sha1_state sha1_length csp_sha1_compress].
      destruct (Nat.eqb_spec (sha1_curlen st + n) 64) as [Ef|Ef].
      * apply (after_fill msg st (take n data)); [done|lia|lia].
      * pose proof (after_partial msg st (take n data) Ha) as Hp. rewrite Ht in Hp. apply Hp. lia.
Qed.

Lemma process_after msg st data : sha1_after msg st -> sha1_after (msg ++ data) (csp_sha1_process st data).
Proof.
  unfold csp_sha1_process. generalize (le_n (length data)). generalize (length data) at 2 3. intros fuel.
  revert msg st data. induction fuel as [|fuel IH]; intros msg st data Hf Ha.
  - destruct data; [|simpl in Hf; lia]. by rewrite app_nil_r.
  - cbn [sha1_process_loop]. destruct data as [|b data]; [by rewrite app_nil_r|].
    pose proof (process_step_after msg st (b :: data) Ha) as Hs.
    destruct (sha1_process_step st (b :: data)) as [st' rest]. destruct Hs as (d & Heq & Hd & Ha'); [done|].
    rewrite Heq in Hf |- *. rewrite app_assoc. apply IH; [|done]. rewrite length_app in Hf. destruct d; [done|simpl in Hf; lia].
Qed.

(** Padding in the block buffer. *)
Lemma buf_put_prefix buf a bs : take (length a) buf = a -> (length a <= length buf)%nat ->
  take (length a + length bs) (buf_put buf (length a) bs) = a ++ bs.
Proof.
  intros Ht Hl. unfold buf_put. rewrite Ht, app_assoc. apply take_app_length'. by rewrite length_app.
Qed.

Lemma take_whole {A} n (l k : list A) : length l = n -> take n l = k -> l = k.
Proof. intros <- <-. by rewrite take_ge. Qed.

(** The pieces written one after another fill the buffer. *)
Lemma buf_put_fill buf a b c : length buf = 64%nat -> take (length a) buf = a ->
  (length a + length b + length c = 64)%nat ->
  buf_put (buf_put buf (length a) b) (length a + length b) c = a ++ b ++ c.
Proof.
  intros Hl Ht Hs. assert (Hl1 : length (buf_put buf (length a) b) = 64%nat) by (rewrite length_buf_put; lia).
  rewrite app_assoc. apply (take_whole 64); [rewrite length_buf_put; lia|].
  rewrite <- Hs, <- (length_app a b). apply buf_put_prefix; [|rewrite length_app; lia].
  rewrite length_app. apply buf_put_prefix; [done|lia].
Qed.

Lemma length_STORE64H x : length (STORE64H x) = 8%nat.
Proof. apply length_be_bytes. Qed.

(** The final block or blocks. *)
(** What is left of the hash after the blocks of [msg]: the [n] blocks of its
    tail and the padding. *)
Lemma spec_tail msg st z n : sha1_after msg st -> ((119 - length msg mod 64) mod 64 = z)%nat ->
  (length msg mod 64 + z + 9 = 64 * n)%nat ->
  sha1_iter msg = sha1_digest (sha1_blocks n (sha1_state st)
    (drop (64 * (length msg / 64)) msg ++ 0x80 :: replicate z 0 ++ STORE64H (u64 (8 * zlen msg)))).
Proof.
  intros [Hc Hl Hs Hz Hb] Hpad Hn. pose proof (Nat.div_mod_eq (length msg) 64) as Hdm.
  pose proof (length_STORE64H (u64 (8 * zlen msg))) as HL. unfold sha1_iter, sha1_pad. rewrite Hpad.
  set (q := (length msg / 64)%nat) in *.
  assert (E : (length (msg ++ 0x80%Z :: replicate z 0%Z ++ STORE64H (u64 (8 * zlen msg))) / 64 = q + n)%nat).
  { rewrite length_app. cbn [length]. rewrite length_app, length_replicate, HL.
    replace (length msg + _)%nat with (0 + (q + n) * 64)%nat by lia. by rewrite Nat.div_add. }
  by rewrite E, sha1_blocks_app, sha1_blocks_prefix, <- Hs, drop_app_le by lia.
Qed.

(** The padding fits behind the tail. *)
Lemma pad_one_block buf tail L : length buf = 64%nat -> take (length tail) buf = tail -> (length tail <= 55)%nat ->
  length L = 8%nat ->
  buf_put (buf_put (buf_put buf (length tail) [0x80]) (S (length tail)) (replicate (56 - S (length tail)) 0)) 56 L =
    tail ++ 0x80 :: replicate (55 - length tail) 0 ++ L.
Proof.
  intros Hz Hb Hsmall HL.
  assert (Hl1 : length (buf_put buf (length tail) [0x80]) = 64%nat) by (rewrite length_buf_put; simpl; lia).
  assert (Ht1 : take (length (tail ++ [0x80])) (buf_put buf (length tail) [0x80]) = tail ++ [0x80]).
  { rewrite length_app. apply buf_put_prefix; [exact Hb|lia]. }
  pose proof (buf_put_fill _ (tail ++ [0x80]) (replicate (55 - length tail) 0) L Hl1 Ht1) as Hf.
  rewrite length_app, length_replicate, <- app_assoc in Hf. cbn [length app] in Hf.
  replace (length tail + 1 + (55 - length tail))%nat with 56%nat in Hf by lia.
  rewrite Nat.add_1_r in Hf. replace (56 - S (length tail))%nat with (55 - length tail)%nat by lia.
  apply Hf. lia.
Qed.

(** It does not: the tail's block is filled with zeros and a last one follows. *)
Lemma pad_two_blocks buf tail L : length buf = 64%nat -> take (length tail) buf = tail -> (length tail < 64)%nat ->
  length L = 8%nat ->
  let b1 := buf_put (buf_put buf (length tail) [0x80]) (S (length tail)) (replicate (64 - S (length tail)) 0) in
  length b1 = 64%nat /\ buf_put (buf_put b1 0 (replicate (56 - 0) 0)) 56 L = replicate 56 0 ++ L /\
  tail ++ 0x80 :: replicate (63 - length tail + 56) 0 ++ L = b1 ++ replicate 56 0 ++ L.
Proof.
  intros Hz Hb Hlt HL b1.
  assert (Hfill1 : b1 = tail ++ [0x80] ++ replicate (64 - S (length tail)) 0).
  { unfold b1. rewrite <- Nat.add_1_r. apply (buf_put_fill _ tail [0x80]); [exact Hz|exact Hb|].
    rewrite length_replicate. simpl. lia. }
  assert (Hb1 : length b1 = 64%nat) by (rewrite Hfill1, !length_app, length_replicate; simpl; lia).
  split; [done|]. split.
  - apply (buf_put_fill b1 [] (replicate 56 0) L); [exact Hb1|reflexivity|]. rewrite length_replicate, HL. reflexivity.
  - rewrite Hfill1, replicate_add, <- !app_assoc. simpl. done.
Qed.

Lemma done_after msg st : sha1_after msg st -> csp_sha1_done st = sha1_iter msg.
Proof.
  intros Hst. pose proof Hst as [Hc Hl Hs Hz Hb]. destruct (split_blocks msg) as [_ Hdr].
  pose proof (Nat.div_mod_eq (length msg) 64) as Hdm. pose proof (Nat.mod_upper_bound (length msg) 64) as Hmb.
  pose proof (length_STORE64H (u64 (8 * zlen msg))) as HL.
  assert (Hlen : u64 (sha1_length st + Z.of_nat (sha1_curlen st) * 8) = u64 (8 * zlen msg)).
  { rewrite Hl, u64_add, Hc. f_equal. lia. }
  unfold csp_sha1_done. rewrite Hlen, Hc. rewrite <- Hdr in *.
  destruct (Nat.ltb_spec 56 (S (length (drop (64 * (length msg / 64)) msg)))) as [Hbig|Hsmall].
  - rewrite (spec_tail msg st (63 - length (drop (64 * (length msg / 64)) msg) + 56) 2 Hst)
      by (rewrite <- Hdr; first [rewrite Nat.mod_small by lia; lia|lia]).
    set (tail := drop _ msg) in *. set (L := STORE64H _) in *.
    destruct (pad_two_blocks (sha1_buf st) tail L) as (Hb1 & Hf & Happ); [done|done|lia|done|].
    rewrite Happ. cbn [sha1_blocks]. unfold sha1_digest.
    rewrite take_app_length', drop_app_length' by done.
    rewrite (take_ge (replicate 56 0 ++ L)) by (rewrite length_app, length_replicate; lia). by rewrite Hf.
  - rewrite (spec_tail msg st (55 - length (drop (64 * (length msg / 64)) msg)) 1 Hst).
    + set (tail := drop _ msg) in *. set (L := STORE64H _) in *. cbn [sha1_blocks]. unfold sha1_digest.
      rewrite take_ge by (rewrite length_app; cbn [length]; rewrite length_app, length_replicate; lia).
      by rewrite pad_one_block by (done || lia).
    + rewrite <- Hdr. replace (119 - _)%nat with ((55 - length (drop (64 * (length msg / 64)) msg)) + 1 * 64)%nat by lia.
      rewrite Nat.Div0.mod_add. apply Nat.mod_small. lia.
    + lia.
Qed.

(** ** Properties *)

(** C37. The streaming hash is SHA-1: fed a message in any number of pieces, of
    any sizes, [csp_sha1_process] and [csp_sha1_done] give the hash of the
    whole message as FIPS 180-4 defines it ([Fips180]: its own constants,
    functions, schedule and rounds); the length in bits is taken modulo 2^64. *)
Theorem sha1_streaming (pieces : list (list Z)) :
  csp_sha1_done (foldl csp_sha1_process csp_sha1_init pieces) = sha1_spec (concat pieces).
Proof.
  rewrite <- iter_fips. apply done_after. rewrite <- (app_nil_l (concat pieces)).
  assert (H : forall msg st, sha1_after msg st -> sha1_after (msg ++ concat pieces) (foldl csp_sha1_process st pieces)).
  { induction pieces as [|d pieces IH]; intros msg st Ha; simpl; [by rewrite app_nil_r|].
    rewrite app_assoc. apply IH. by apply process_after. }
  apply H, sha1_after_init.
Qed.

Lemma process_init_done msg : csp_sha1_done (csp_sha1_process csp_sha1_init msg) = sha1_spec msg.
Proof. rewrite <- iter_fips. apply done_after. apply (process_after [] csp_sha1_init msg), sha1_after_init. Qed.

Lemma process_two_done a b :
  csp_sha1_done (csp_sha1_process (csp_sha1_process csp_sha1_init a) b) = sha1_spec (a ++ b).
Proof. rewrite <- iter_fips. apply done_after, process_after. apply (process_after [] csp_sha1_init a), sha1_after_init. Qed.

Lemma length_sha1_spec msg : length (sha1_spec msg) = 20%nat.
Proof. unfold sha1_spec. cbv zeta. rewrite !length_app, !length_be_bytes. done. Qed.
