(* ===== verification/Hmac.v ===== *)
(** * Hmac: message authentication ([src/crypto/csp_hmac.c]) *)

From S2P Require Import Prelude State Monad Sha1.

Definition HMAC_KEY_LENGTH : nat := 16.
Definition CSP_HMAC_LENGTH : Z := 4.

Record hmac_state := mkHmac { hmac_md : csp_sha1_state; hmac_block : list Z (* key[64] *) }.

(** [None] is [CSP_ERR_INVAL]. *)
Definition csp_hmac_init (key : list Z) : option hmac_state :=
  if Nat.ltb (length key) 1 then None else
  let block :=
    if Nat.ltb CSP_SHA1_BLOCKSIZE (length key)
    then csp_sha1_memory key ++ replicate (CSP_SHA1_BLOCKSIZE - CSP_SHA1_DIGESTSIZE) 0
    else key ++ replicate (CSP_SHA1_BLOCKSIZE - length key) 0 in
  let buf := map (fun b => Z.lxor b 0x36) block in
  Some (mkHmac (csp_sha1_process csp_sha1_init buf) block).

Definition csp_hmac_process (h : hmac_state) (data : list Z) : hmac_state :=
  mkHmac (csp_sha1_process (hmac_md h) data) (hmac_block h).

Definition csp_hmac_done (h : hmac_state) : list Z :=
  let isha := csp_sha1_done (hmac_md h) in
  let buf := map (fun b => Z.lxor b 0x5C) (hmac_block h) in
  csp_sha1_done (csp_sha1_process (csp_sha1_process csp_sha1_init buf) isha).

Definition csp_hmac_memory (key data : list Z) : option (list Z) :=
  match csp_hmac_init key with
  | None => None
  | Some h => Some (csp_hmac_done (csp_hmac_process h data))
  end.

Definition csp_hmac_set_key (key : list Z) : M Z :=
  modify (set_hmac_key (take HMAC_KEY_LENGTH (csp_sha1_memory key))) ;; mret CSP_ERR_NONE.

(** The first [CSP_HMAC_LENGTH] bytes of the HMAC of [data] under the node's key. *)
Definition hmac_tag (data : list Z) : M (list Z) :=
  key ← gets hmac_key;
  mac ← of_option (csp_hmac_memory key data);
  mret (take (Z.to_nat CSP_HMAC_LENGTH) mac).

Definition csp_hmac_append (p : nat) (include_header : bool) : M Z :=
  k ← get_pkt p;
  if CSP_BUFFER_SIZE <? pkt_length k + CSP_HMAC_LENGTH then mret CSP_ERR_NOMEM else
  (if include_header : bool then
     data ← read_frame p (frame_length k);
     tag ← hmac_tag data;
     write_mem (frame_buf k) (frame_off k + frame_length k) tag ;;
     mod_pkt p (fun k => set_frame_length (u16 (frame_length k + CSP_HMAC_LENGTH))
                           (set_pkt_length (u16 (pkt_length k + CSP_HMAC_LENGTH)) k))
   else
     data ← read_mem p 0 (pkt_length k);
     tag ← hmac_tag data;
     write_mem p (pkt_length k) tag ;;
     mod_pkt p (fun k => set_pkt_length (u16 (pkt_length k + CSP_HMAC_LENGTH)) k)) ;;
  mret CSP_ERR_NONE.

Definition csp_hmac_verify (p : nat) (include_header : bool) : M Z :=
  k ← get_pkt p;
  if pkt_length k <? CSP_HMAC_LENGTH then mret CSP_ERR_HMAC else
  if include_header : bool then
    data ← read_frame p (frame_length k - CSP_HMAC_LENGTH);
    tag ← hmac_tag data;
    got ← read_mem (frame_buf k) (frame_off k + frame_length k - CSP_HMAC_LENGTH) CSP_HMAC_LENGTH;
    if bool_decide (got = tag) then
      mod_pkt p (fun k => set_frame_length (u16 (frame_length k - CSP_HMAC_LENGTH)) k) ;;
      mret CSP_ERR_NONE
    else mret CSP_ERR_HMAC
  else
    data ← read_mem p 0 (pkt_length k - CSP_HMAC_LENGTH);
    tag ← hmac_tag data;
    got ← read_mem p (pkt_length k - CSP_HMAC_LENGTH) CSP_HMAC_LENGTH;
    if bool_decide (got = tag) then
      mod_pkt p (fun k => set_pkt_length (u16 (pkt_length k - CSP_HMAC_LENGTH)) k) ;;
      mret CSP_ERR_NONE
    else mret CSP_ERR_HMAC.

(** ** The construction of RFC 2104 *)

(** The key as one block: hashed when too long, padded with zeros. *)
Definition hmac_key_block (key : list Z) : list Z :=
  let k := if Nat.ltb 64 (length key) then sha1_spec key else key in
  k ++ replicate (64 - length k) 0.

Definition hmac_spec (key data : list Z) : list Z :=
  let pad c := map (fun b => Z.lxor b c) (hmac_key_block key) in
  sha1_spec (pad 0x5C ++ sha1_spec (pad 0x36 ++ data)).

#[local] Opaque sha1_spec csp_sha1_process csp_sha1_done.

Lemma hmac_memory_spec key data :
  csp_hmac_memory key data = if Nat.ltb (length key) 1 then None else Some (hmac_spec key data).
Proof.
  unfold csp_hmac_memory, csp_hmac_init. destruct (Nat.ltb (length key) 1); [done|].
  unfold csp_hmac_process, csp_hmac_done, hmac_spec, csp_sha1_memory. cbn [hmac_md hmac_block].
  rewrite !process_two_done, process_init_done.
  assert (Hb : (if Nat.ltb CSP_SHA1_BLOCKSIZE (length key)
                then sha1_spec key ++ replicate (CSP_SHA1_BLOCKSIZE - CSP_SHA1_DIGESTSIZE) 0
                else key ++ replicate (CSP_SHA1_BLOCKSIZE - length key) 0) = hmac_key_block key).
  { unfold hmac_key_block, CSP_SHA1_BLOCKSIZE, CSP_SHA1_DIGESTSIZE.
    destruct (Nat.ltb 64 (length key)); [by rewrite length_sha1_spec|done]. }
  by rewrite Hb.
Qed.

(** The tag put on a packet. *)
Definition hmac_wire (key data : list Z) : list Z := take 4 (hmac_spec key data).

Lemma length_hmac_wire key data : zlen (hmac_wire key data) = 4.
Proof. unfold hmac_wire, hmac_spec. rewrite length_take, length_sha1_spec. done. Qed.

Lemma hmac_tag_run data s : hmac_key s <> [] -> hmac_tag data s = Ret (hmac_wire (hmac_key s) data) s.
Proof.
  intros Hk. unfold hmac_tag. rewrite (bind_ret _ _ _ (hmac_key s) s) by done. rewrite hmac_memory_spec.
  destruct (hmac_key s); [done|]. simpl length. done.
Qed.

#[local] Opaque hmac_wire.

(** ** Runs on a packet *)

(** The bytes the tag covers: the frame or the data. *)
Definition tag_off (inc : bool) (k : csp_packet) : Z := if inc then frame_off k else 0.
Definition tag_len (inc : bool) (k : csp_packet) : Z := if inc then frame_length k else pkt_length k.

(** The packet with the tag, in the memory [m], and after the tag is removed
    again. *)
Definition tagged (inc : bool) (m : list Z) (k : csp_packet) : csp_packet :=
  let k1 := set_pkt_length (u16 (pkt_length k + 4)) (set_pkt_mem m k) in
  if inc then set_frame_length (u16 (frame_length k + 4)) k1 else k1.

Definition untagged (inc : bool) (k : csp_packet) : csp_packet :=
  if inc then set_frame_length (u16 (frame_length k - 4)) k else set_pkt_length (u16 (pkt_length k - 4)) k.

(** A frame that starts in the packet itself. *)
Definition own_frame (p : nat) (inc : bool) (k : csp_packet) : Prop := inc = true -> frame_buf k = p.

Lemma read_covered inc p k s n data : pkt_at p s = Some k -> own_frame p inc k ->
  mem_read (pkt_mem k) (CSP_PACKET_PADDING_BYTES + tag_off inc k) n = Some data ->
  (if inc then read_frame p n else read_mem p 0 n) s = Ret data s.
Proof.
  intros Hk Hf Hr. destruct inc; [|by eapply read_mem_at]. unfold read_frame.
  rewrite (bind_ret _ _ _ _ _ (get_pkt_at _ _ _ Hk)), (Hf eq_refl). by eapply read_mem_at.
Qed.

Lemma hmac_append_run inc p k s data m : pkt_at p s = Some k -> hmac_key s <> [] -> own_frame p inc k ->
  pkt_length k + 4 <= CSP_BUFFER_SIZE ->
  mem_read (pkt_mem k) (CSP_PACKET_PADDING_BYTES + tag_off inc k) (tag_len inc k) = Some data ->
  mem_write (pkt_mem k) (CSP_PACKET_PADDING_BYTES + (tag_off inc k + tag_len inc k)) (hmac_wire (hmac_key s) data) = Some m ->
  csp_hmac_append p inc s = Ret CSP_ERR_NONE (put_pkt p (tagged inc m k) s).
Proof.
  intros Hk Hkey Hf Hl Hr Hw. unfold csp_hmac_append, CSP_HMAC_LENGTH.
  erewrite bind_ret by (eapply get_pkt_at; exact Hk). rewrite (proj2 (Z.ltb_ge _ _)) by done.
  erewrite bind_ret; [reflexivity|]. pose proof (read_covered inc p k s _ _ Hk Hf Hr) as Hc.
  destruct inc; cbn [tag_off tag_len] in *; (erewrite bind_ret by exact Hc);
    (erewrite bind_ret by (by apply hmac_tag_run)); [rewrite (Hf eq_refl)|rewrite Z.add_0_l in Hw];
    (erewrite bind_ret by (eapply write_mem_at; [exact Hk|exact Hw]));
    (erewrite mod_pkt_at by (eapply pkt_at_put; exact Hk)); by rewrite put_pkt_put.
Qed.

Lemma hmac_verify_run inc p k s data tail : pkt_at p s = Some k -> hmac_key s <> [] -> own_frame p inc k -> 4 <= pkt_length k ->
  mem_read (pkt_mem k) (CSP_PACKET_PADDING_BYTES + tag_off inc k) (tag_len inc k - 4) = Some data ->
  mem_read (pkt_mem k) (CSP_PACKET_PADDING_BYTES + (tag_off inc k + (tag_len inc k - 4))) 4 = Some tail ->
  csp_hmac_verify p inc s =
    if bool_decide (tail = hmac_wire (hmac_key s) data)
    then Ret CSP_ERR_NONE (put_pkt p (untagged inc k) s) else Ret CSP_ERR_HMAC s.
Proof.
  intros Hk Hkey Hf Hl Hr Ht. unfold csp_hmac_verify, CSP_HMAC_LENGTH.
  erewrite bind_ret by (eapply get_pkt_at; exact Hk). rewrite (proj2 (Z.ltb_ge _ _)) by done.
  pose proof (read_covered inc p k s _ _ Hk Hf Hr) as Hc.
  destruct inc; cbn [tag_off tag_len] in *; (erewrite bind_ret by exact Hc);
    (erewrite bind_ret by (by apply hmac_tag_run)); [rewrite (Hf eq_refl), <- Z.add_sub_assoc|rewrite Z.add_0_l in Ht];
    (erewrite bind_ret by (eapply read_mem_at; [exact Hk|exact Ht]));
    (destruct (bool_decide _); [|done]); by erewrite bind_ret by (eapply mod_pkt_at; exact Hk).
Qed.

(** ** Properties *)

(** C36. [csp_hmac_memory] is HMAC-SHA1 of RFC 2104: two nested hashes with the
    padded key; only an empty key is refused. *)
Theorem hmac_is_rfc2104 key data :
  csp_hmac_memory key data = if Nat.ltb (length key) 1 then None else Some (hmac_spec key data).
Proof. apply hmac_memory_spec. Qed.

(** C35. The authentication round trip, over the data or with [include_header]
    over the whole frame.  On a packet with room for the four bytes of the tag
    (behind its data, and behind its frame when that is covered),
    [csp_hmac_append] succeeds, and [csp_hmac_verify] accepts the result exactly
    when the receiver's tag over the same bytes, under its own key, is the same;
    the bytes covered are as before.  Over the data, verification restores the
    length; over the frame it restores the length of the frame only, and the
    length of the packet stays 4 too large. *)
Theorem hmac_append_verify inc p k s key' :
  pkt_at p s = Some k -> zlen (pkt_mem k) = CSP_PACKET_PADDING_BYTES + CSP_BUFFER_SIZE ->
  0 <= pkt_length k -> pkt_length k + 4 <= CSP_BUFFER_SIZE -> hmac_key s <> [] -> key' <> [] -> own_frame p inc k ->
  - CSP_PACKET_PADDING_BYTES <= tag_off inc k -> 0 <= tag_len inc k -> tag_off inc k + tag_len inc k + 4 <= CSP_BUFFER_SIZE ->
  let covered k' := mem_read (pkt_mem k') (CSP_PACKET_PADDING_BYTES + tag_off inc k) (tag_len inc k) in
  exists k1 data, csp_hmac_append p inc s = Ret CSP_ERR_NONE (put_pkt p k1 s) /\
    covered k = Some data /\ covered k1 = Some data /\
    pkt_length k1 = pkt_length k + 4 /\ tag_len inc k1 = tag_len inc k + 4 /\
    csp_hmac_verify p inc (set_hmac_key key' (put_pkt p k1 s)) =
      if bool_decide (hmac_wire (hmac_key s) data = hmac_wire key' data)
      then Ret CSP_ERR_NONE (set_hmac_key key' (put_pkt p
        (if inc then set_frame_length (frame_length k) k1 else set_pkt_length (pkt_length k) k1) s))
      else Ret CSP_ERR_HMAC (set_hmac_key key' (put_pkt p k1 s)).
Proof.
  unfold CSP_PACKET_PADDING_BYTES, CSP_BUFFER_SIZE. intros Hk Hm Hl Hf Hkey Hkey' Hown Ho Hn Hfit. cbv zeta.
  destruct (mem_read_ok (pkt_mem k) (8 + tag_off inc k) (tag_len inc k)) as [data Hd]; [lia..|].
  pose proof (length_hmac_wire (hmac_key s) data) as Hc.
  destruct (mem_write_ok (pkt_mem k) (8 + (tag_off inc k + tag_len inc k)) (hmac_wire (hmac_key s) data)) as [m Hw]; [lia..|].
  assert (Hd1 : mem_read m (8 + tag_off inc k) (tag_len inc k) = Some data)
    by (rewrite (mem_read_write_before _ _ _ _ _ _ Hw); [done|lia..]).
  set (k1 := tagged inc m k). assert (Em : pkt_mem k1 = m) by (by destruct inc).
  assert (El : pkt_length k1 = pkt_length k + 4) by (destruct inc; cbn; apply u16_small; lia).
  assert (Eo : tag_off inc k1 = tag_off inc k) by (by destruct inc).
  assert (Et : tag_len inc k1 = tag_len inc k + 4) by (destruct inc; cbn in *; apply u16_small; lia).
  exists k1, data. rewrite Em. split_and!; [by apply (hmac_append_run inc p k s data)|done..|]. set (s1 := set_hmac_key key' _).
  rewrite (hmac_verify_run inc p k1 s1 data (hmac_wire (hmac_key s) data)); rewrite ?Eo, ?Et, ?Z.add_simpl_r, ?Em.
  - change (hmac_key s1) with key'. destruct (bool_decide _); [|done].
    change (put_pkt p ?a s1) with (set_hmac_key key' (put_pkt p a (put_pkt p k1 s))). rewrite put_pkt_put. unfold untagged.
    destruct inc; cbn [tag_len] in *; by rewrite ?Et, ?El, Z.add_simpl_r, u16_small by lia.
  - change (pkt_at p (put_pkt p k1 s) = Some k1). by eapply pkt_at_put.
  - done.
  - intros Ei. rewrite <- (Hown Ei). by destruct inc.
  - lia.
  - done.
  - rewrite <- Hc. by eapply mem_read_write.
Qed.

Lemma hmac_append_verify_witness :
  let k := set_pkt_length 5 blank_packet in
  exists k1, csp_hmac_append 0 false (put_pkt 0 k boot) = Ret CSP_ERR_NONE (put_pkt 0 k1 (put_pkt 0 k boot)) /\
    pkt_length k1 = 9.
Proof.
  destruct (hmac_append_verify false 0 (set_pkt_length 5 blank_packet) (put_pkt 0 (set_pkt_length 5 blank_packet) boot) [1])
    as (k1 & data & H1 & _ & _ & H2 & _).
  - reflexivity.
  - reflexivity.
  - change (0 <= 5). lia.
  - change (5 + 4 <= 256). lia.
  - discriminate.
  - discriminate.
  - intros E. discriminate E.
  - change (-8 <= 0). lia.
  - change (0 <= 5). lia.
  - change (0 + 5 + 4 <= 256). lia.
  - exists k1. split; [exact H1|exact H2].
Defined.
