(* ===== verification/Iflist.v ===== *)
(** * Iflist: the interface list ([src/csp_iflist.c])

    Interfaces are structs owned by the application, threaded into a linked
    list through their [next] field; [interfaces] is the head. *)

From S2P Require Import Prelude State Monad Id.

(** [csp_if_lo] is the interface struct at index 0. *)
Definition csp_if_lo : nat := 0.
Definition CSP_IFLIST_NAME_MAX : nat := 10.

(** [strncmp(a, b, CSP_IFLIST_NAME_MAX) == 0] *)
Definition name_eq (a b : list Z) : bool :=
  bool_decide (take CSP_IFLIST_NAME_MAX a = take CSP_IFLIST_NAME_MAX b).

(** [csp_iflist_is_within_subnet] on a non-NULL interface; as in
    [csp_id_is_broadcast], a netmask above the host bits is undefined. *)
Definition is_within_subnet (s : node) (addr : Z) (ifc : csp_iface) : option bool :=
  let hb := csp_id_get_host_bits s in
  if hb <? if_netmask ifc then None else
  let netmask := u16 (Z.shiftl (Z.shiftl 1 (if_netmask ifc) - 1) (hb - if_netmask ifc)) in
  Some (Z.land (if_addr ifc) netmask =? Z.land addr netmask).

Definition csp_iflist_is_within_subnet (addr : Z) (ifc : option nat) : M bool :=
  match ifc with
  | None => mret false
  | Some i => x ← get_iface i; s ← gets id; of_option (is_within_subnet s addr x)
  end.

(** Walk the list from [ifc] to the first interface that passes [test]. *)
Fixpoint if_search (fuel : nat) (test : nat -> csp_iface -> option bool) (ifc : option nat)
    : M (option nat) :=
  match fuel with
  | O => undef
  | S fuel' =>
      match ifc with
      | None => mret None
      | Some i =>
          x ← get_iface i;
          b ← of_option (test i x);
          if b : bool then mret (Some i) else if_search fuel' test (if_next x)
      end
  end.

(** A list without a cycle has at most [length ifs] elements. *)
Definition if_fuel (s : node) : nat := S (length (ifs s)).

(** Head of list for NULL, otherwise the element after [ifc]. *)
Definition if_after (ifc : option nat) : M (option nat) :=
  match ifc with
  | None => gets interfaces
  | Some i => x ← get_iface i; mret (if_next x)
  end.

Definition csp_iflist_get_by_subnet (addr : Z) (ifc : option nat) : M (option nat) :=
  start ← if_after ifc;
  s ← gets id;
  if_search (if_fuel s)
    (fun _ x => if if_netmask x =? 0 then Some false else is_within_subnet s addr x) start.

Definition csp_iflist_get_by_isdfl (ifc : option nat) : M (option nat) :=
  start ← if_after ifc;
  s ← gets id;
  if_search (if_fuel s) (fun _ x => Some (is_default x =? 1)) start.

Definition csp_iflist_iterate (ifc : option nat) : M (option nat) := if_after ifc.

Definition csp_iflist_check_dfl : M unit :=
  iface ← csp_iflist_get_by_isdfl None;
  match iface with
  | Some _ => mret tt
  | None =>
      s ← gets id;
      (fix loop (fuel : nat) (iface : option nat) : M unit :=
         match fuel with
         | O => undef
         | S fuel' =>
             nxt ← csp_iflist_iterate iface;
             match nxt with
             | None => mret tt
             | Some i =>
                 when (negb (Nat.eqb i csp_if_lo)) (mod_iface i (set_is_default 1)) ;;
                 loop fuel' nxt
             end
         end) (if_fuel s) None
  end.

Definition csp_iflist_get_by_addr (addr : Z) : M (option nat) :=
  s ← gets id; if_search (if_fuel s) (fun _ x => Some (if_addr x =? addr)) (interfaces s).

Definition csp_iflist_get_by_name (name : list Z) : M (option nat) :=
  s ← gets id;
  if_search (if_fuel s) (fun _ x =>
    match if_name x with Some n => Some (name_eq n name) | None => None end) (interfaces s).

(** [while (ifc && idx--) ifc = ifc->next] *)
Fixpoint if_index (fuel : nat) (idx : Z) (ifc : option nat) : M (option nat) :=
  match fuel with
  | O => undef
  | S fuel' =>
      match ifc with
      | None => mret None
      | Some i =>
          if idx =? 0 then mret ifc else
          x ← get_iface i; if_index fuel' (idx - 1) (if_next x)
      end
  end.

Definition csp_iflist_get_by_index (idx : Z) : M (option nat) :=
  s ← gets id; if_index (if_fuel s) idx (interfaces s).

(** The search of [csp_iflist_add]: [None] when the interface, or one of the
    same name, is already listed; otherwise the last element seen. *)
Fixpoint if_last (fuel : nat) (ifc : nat) (name : list Z) (last cur : option nat)
    : M (option (option nat)) :=
  match fuel with
  | O => undef
  | S fuel' =>
      match cur with
      | None => mret (Some last)
      | Some i =>
          x ← get_iface i;
          if Nat.eqb i ifc then mret None else
          n ← of_option (if_name x);
          if name_eq name n then mret None else
          if_last fuel' ifc name (Some i) (if_next x)
      end
  end.

Definition csp_iflist_add (ifc : option nat) : M unit :=
  match ifc with
  | None => mret tt
  | Some i =>
      x ← get_iface i;
      match if_name x with
      | None => mret tt
      | Some name =>
          mod_iface i (set_if_next None) ;;
          s ← gets id;
          match interfaces s with
          | None => modify (set_interfaces (Some i))
          | Some _ =>
              r ← if_last (if_fuel s) i name None (interfaces s);
              match r with
              | None => mret tt
              | Some None => undef
              | Some (Some last) => mod_iface last (set_if_next (Some i))
              end
          end
      end
  end.

Fixpoint if_unlink (fuel : nat) (ifc : nat) (cur : option nat) : M unit :=
  match fuel with
  | O => undef
  | S fuel' =>
      match cur with
      | None => mret tt
      | Some c =>
          x ← get_iface c;
          if bool_decide (if_next x = Some ifc) then
            y ← get_iface ifc;
            mod_iface c (set_if_next (if_next y)) ;;
            mod_iface ifc (set_if_next None)
          else if_unlink fuel' ifc (if_next x)
      end
  end.

Definition csp_iflist_remove (ifc : option nat) : M unit :=
  match ifc with
  | None => mret tt
  | Some i =>
      s ← gets id;
      if bool_decide (interfaces s = Some i) then
        x ← get_iface i;
        modify (set_interfaces (if_next x)) ;;
        mod_iface i (set_if_next None)
      else if_unlink (if_fuel s) i (interfaces s)
  end.

Definition csp_iflist_get : M (option nat) := gets interfaces.

(** [csp_bytesize]: the size and its postfix character. *)
Definition csp_bytesize (bytes : Z) : Z * Z :=
  if 1024 * 1024 <=? bytes then (bytes / (1024 * 1024), 77)
  else if 1024 <=? bytes then (bytes / 1024, 75)
  else (bytes, 66).

(** ** The list the structs represent

    [chain a h l]: following [next] from [h] through the structs [a] visits
    exactly [l] and ends in NULL. *)
Inductive chain (a : list csp_iface) : option nat -> list nat -> Prop :=
| chain_nil : chain a None []
| chain_cons i x l : a !! i = Some x -> chain a (if_next x) l -> chain a (Some i) (i :: l).

(** The interfaces of the node, in order. *)
Definition iflist (s : node) (l : list nat) : Prop := chain (ifs s) (interfaces s) l.

Lemma chain_fun a h l1 l2 : chain a h l1 -> chain a h l2 -> l1 = l2.
Proof.
  intros H1. revert l2. induction H1 as [|i x l Hx H1 IH]; intros l2 H2; inversion H2; simplify_eq; [done|].
  f_equal. auto.
Qed.

(** The chain continues from every element. *)
Lemma chain_app_inv a h l1 i l2 : chain a h (l1 ++ i :: l2) ->
  exists x, a !! i = Some x /\ chain a (Some i) (i :: l2) /\ chain a (if_next x) l2.
Proof.
  revert h. induction l1 as [|j l1 IH]; intros h H; inversion H as [|? x ? Hx Hc]; subst; [|eauto].
  exists x. split_and!; [done| |done]. by econstructor.
Qed.

Lemma chain_nodup a h l : chain a h l -> NoDup l.
Proof.
  induction 1 as [|i x l Hx H IH]; constructor; [|done]. intros Hin.
  apply list_elem_of_split in Hin as (l1 & l2 & ->).
  destruct (chain_app_inv _ _ _ _ _ H) as (x' & ? & Hc & ?).
  assert (Hc' : chain a (Some i) (i :: l1 ++ i :: l2)) by (by apply (chain_cons _ _ x)).
  pose proof (chain_fun _ _ _ _ Hc Hc') as E. apply (f_equal length) in E.
  simpl in E. rewrite length_app in E. simpl in E. lia.
Qed.

Lemma chain_lookup a h l i : chain a h l -> i ∈ l -> is_Some (a !! i).
Proof.
  intros H Hin. apply list_elem_of_split in Hin as (l1 & l2 & ->).
  destruct (chain_app_inv _ _ _ _ _ H) as (x & ? & _). by eexists.
Qed.

(** Distinct indices into an array are no more than the array has. *)
Lemma nodup_bound l n : NoDup l -> (forall i, i ∈ l -> (i < n)%nat) -> (length l <= n)%nat.
Proof.
  intros Hl Hb. rewrite <- (length_seq n 0). apply submseteq_length, NoDup_submseteq; [done|].
  intros i Hi. apply elem_of_seq. specialize (Hb i Hi). lia.
Qed.

Lemma chain_length a h l : chain a h l -> (length l <= length a)%nat.
Proof.
  intros H. apply nodup_bound; [by eapply chain_nodup|]. intros i Hi.
  apply lookup_lt_is_Some. by eapply chain_lookup.
Qed.

(** A struct outside the chain may change. *)
Lemma chain_insert_other a h l i x : chain a h l -> i ∉ l -> chain (<[i := x]> a) h l.
Proof.
  induction 1 as [|j y l Hy H IH]; intros Hi; [constructor|].
  rewrite elem_of_cons in Hi. econstructor; [|by apply IH; tauto].
  rewrite list_lookup_insert_ne by (intros ->; tauto). done.
Qed.

(** So may a struct of the chain, but for its [next] field. *)
Lemma chain_insert_next a h l i x y : chain a h l -> a !! i = Some x -> if_next y = if_next x -> chain (<[i := y]> a) h l.
Proof.
  intros Hc Hx Hn. induction Hc as [|j z l Hz Hc IH]; [constructor|]. destruct (decide (i = j)) as [<-|Hij].
  - apply (chain_cons _ _ y).
    + apply list_lookup_insert_eq. by eapply lookup_lt_Some.
    + rewrite Hn. by replace x with z by congruence.
  - apply (chain_cons _ _ z); [by rewrite list_lookup_insert_ne|done].
Qed.

(** Hang a chain behind the last element of another. *)
Lemma chain_link a h l j x l' : chain a h (l ++ [j]) -> a !! j = Some x ->
  (forall n, chain (<[j := set_if_next n x]> a) n l' ->
             chain (<[j := set_if_next n x]> a) h (l ++ j :: l')).
Proof.
  intros H Hx n Hn. pose proof (chain_nodup _ _ _ H) as Hnd. revert h H Hnd.
  induction l as [|i l IH]; intros h H Hnd; simpl in *.
  - inversion H; subst. apply (chain_cons _ _ (set_if_next n x)); [|exact Hn].
    rewrite list_lookup_insert_eq; [done|]. apply lookup_lt_is_Some. by eexists.
  - inversion H as [|? y ? Hy Hc]; subst. apply NoDup_cons_1_1 in Hnd as Hni; apply NoDup_cons_1_2 in Hnd.
    econstructor; [|by apply IH]. rewrite list_lookup_insert_ne; [done|].
    intros ->. apply Hni. apply elem_of_app. right. constructor.
Qed.

(** ** Searches *)

Definition passes (a : list csp_iface) (test : nat -> csp_iface -> option bool) (i : nat) : bool :=
  match a !! i with
  | Some x => match test i x with Some b => b | None => false end
  | None => false
  end.

(** A test that is defined on every element. *)
Definition defined_on (a : list csp_iface) (test : nat -> csp_iface -> option bool) (l : list nat) : Prop :=
  forall i x, i ∈ l -> a !! i = Some x -> is_Some (test i x).

Lemma if_search_find fuel test h l s : chain (ifs s) h l -> (length l < fuel)%nat ->
  defined_on (ifs s) test l -> if_search fuel test h s = Ret (find (passes (ifs s) test) l) s.
Proof.
  intros H. revert fuel. induction H as [|i x l Hx H IH]; intros fuel Hf Hd; (destruct fuel; [simpl in Hf; lia|]).
  - done.
  - destruct (Hd i x) as [b Hb]; [constructor|done|]. simpl in *.
    rewrite (bind_ret _ _ _ x s) by (unfold get_iface; by rewrite Hx).
    rewrite (bind_ret _ _ _ b s) by (by rewrite Hb).
    assert (Hp : passes (ifs s) test i = b) by (unfold passes; by rewrite Hx, Hb). rewrite Hp.
    destruct b; [done|]. apply IH; [lia|]. intros j y Hj. apply Hd. by constructor.
Qed.

Lemma chain_fuel s h l : chain (ifs s) h l -> (length l < if_fuel s)%nat.
Proof. intros H%chain_length. unfold if_fuel. lia. Qed.

(** The elements after [ifc], or all of them for NULL. *)
Inductive rest_after (l : list nat) : option nat -> list nat -> Prop :=
| rest_all : rest_after l None l
| rest_some l1 i l2 : l = l1 ++ i :: l2 -> rest_after l (Some i) l2.

Lemma if_after_chain s l ifc r : iflist s l -> rest_after l ifc r ->
  exists h, if_after ifc s = Ret h s /\ chain (ifs s) h r.
Proof.
  intros Hl Hr. destruct Hr as [|l1 i l2 ->].
  - eexists. split; [reflexivity|done].
  - destruct (chain_app_inv _ _ _ _ _ Hl) as (x & Hx & _ & Hc). exists (if_next x).
    split; [|done]. simpl. rewrite (bind_ret _ _ _ x s) by (unfold get_iface; by rewrite Hx). done.
Qed.

Lemma if_index_nth fuel idx h l s : chain (ifs s) h l -> (length l < fuel)%nat -> 0 <= idx ->
  if_index fuel idx h s = Ret (l !! Z.to_nat idx) s.
Proof.
  intros H. revert fuel idx. induction H as [|i x l Hx H IH]; intros fuel idx Hf Hi; (destruct fuel; [simpl in Hf; lia|]).
  - done.
  - simpl. destruct (Z.eqb_spec idx 0) as [->|]; [done|].
    rewrite (bind_ret _ _ _ x s) by (unfold get_iface; by rewrite Hx).
    rewrite IH by (simpl in *; lia). replace (Z.to_nat idx) with (S (Z.to_nat (idx - 1))) by lia. done.
Qed.

(** Tests of the lookups. *)
Definition addr_is (addr : Z) (x : csp_iface) : option bool := Some (if_addr x =? addr).
Definition on_subnet (s : node) (addr : Z) (x : csp_iface) : option bool :=
  if if_netmask x =? 0 then Some false else is_within_subnet s addr x.

Definition masks_ok (s : node) (l : list nat) : Prop :=
  forall i x, i ∈ l -> ifs s !! i = Some x -> 0 <= if_netmask x <= csp_id_get_host_bits s.

Lemma on_subnet_defined s addr l : masks_ok s l -> defined_on (ifs s) (fun _ => on_subnet s addr) l.
Proof.
  intros Hm i x Hi Hx. specialize (Hm i x Hi Hx). unfold on_subnet, is_within_subnet.
  destruct (if_netmask x =? 0); [by eexists|]. rewrite (proj2 (Z.ltb_ge _ _)) by lia. by eexists.
Qed.

Lemma rest_after_incl l ifc r : rest_after l ifc r -> forall i, i ∈ r -> i ∈ l.
Proof.
  destruct 1 as [|l1 j l2 ->]; intros i Hi; [done|]. apply elem_of_app. right. by constructor.
Qed.

Lemma get_by_subnet_find s l ifc r addr : iflist s l -> rest_after l ifc r -> masks_ok s l ->
  csp_iflist_get_by_subnet addr ifc s = Ret (find (passes (ifs s) (fun _ => on_subnet s addr)) r) s.
Proof.
  intros Hl Hr Hm. destruct (if_after_chain _ _ _ _ Hl Hr) as (h & He & Hc).
  unfold csp_iflist_get_by_subnet. rewrite (bind_ret _ _ _ h s) by done.
  rewrite (bind_ret _ _ _ s s) by done.
  apply if_search_find; [done|by eapply chain_fuel|].
  apply on_subnet_defined. intros i x Hi. apply Hm. by eapply rest_after_incl.
Qed.

Lemma get_by_isdfl_find s l ifc r : iflist s l -> rest_after l ifc r ->
  csp_iflist_get_by_isdfl ifc s = Ret (find (passes (ifs s) (fun _ x => Some (is_default x =? 1))) r) s.
Proof.
  intros Hl Hr. destruct (if_after_chain _ _ _ _ Hl Hr) as (h & He & Hc).
  unfold csp_iflist_get_by_isdfl. rewrite (bind_ret _ _ _ h s) by done.
  rewrite (bind_ret _ _ _ s s) by done.
  apply if_search_find; [done|by eapply chain_fuel|]. intros i x _ _. by eexists.
Qed.

Lemma get_by_addr_find s l addr : iflist s l ->
  csp_iflist_get_by_addr addr s = Ret (find (passes (ifs s) (fun _ => addr_is addr)) l) s.
Proof.
  intros Hl. unfold csp_iflist_get_by_addr. rewrite (bind_ret _ _ _ s s) by done.
  apply if_search_find; [done|by eapply chain_fuel|]. intros i x _ _. by eexists.
Qed.

(** ** Adding and removing *)

(** Every listed interface has a name. *)
Definition named (a : list csp_iface) (l : list nat) : Prop :=
  forall j y, j ∈ l -> a !! j = Some y -> if_name y <> None.

(** The walk of [csp_iflist_get_by_name] is a search by name. *)
Definition name_is (name : list Z) (x : csp_iface) : option bool :=
  match if_name x with Some n => Some (name_eq n name) | None => None end.

Lemma get_by_name_find s l name : iflist s l -> named (ifs s) l ->
  csp_iflist_get_by_name name s = Ret (find (passes (ifs s) (fun _ => name_is name)) l) s.
Proof.
  intros Hl Hn. unfold csp_iflist_get_by_name. rewrite (bind_ret _ _ _ s s) by done.
  apply if_search_find; [done|by eapply chain_fuel|]. intros i x Hi Hx. unfold name_is.
  specialize (Hn i x Hi Hx). destruct (if_name x); [by eexists|done].
Qed.

(** Does a listed interface carry [name]? *)
Definition name_taken (a : list csp_iface) (name : list Z) (j : nat) : bool :=
  match a !! j with
  | Some y => match if_name y with Some n => name_eq name n | None => false end
  | None => false
  end.

Lemma get_iface_at s i x : ifs s !! i = Some x -> get_iface i s = Ret x s.
Proof. intros H. unfold get_iface. by rewrite H. Qed.

Lemma mod_iface_at s i x f : ifs s !! i = Some x ->
  mod_iface i f s = Ret tt (set_ifs (<[i := f x]> (ifs s)) s).
Proof. intros H. unfold mod_iface. by rewrite H. Qed.

(** The scan of [csp_iflist_add]. *)
Lemma if_last_scan fuel i name s h l last0 : chain (ifs s) h l -> (length l < fuel)%nat ->
  named (ifs s) l ->
  if_last fuel i name last0 h s =
    Ret (if existsb (fun j => Nat.eqb j i || name_taken (ifs s) name j) l then None
         else Some (foldl (fun _ j => Some j) last0 l)) s.
Proof.
  intros H. revert fuel last0. induction H as [|j y l Hy H IH]; intros fuel last0 Hf Hn; (destruct fuel; [simpl in Hf; lia|]).
  - done.
  - simpl. rewrite (bind_ret _ _ _ y s) by (by apply get_iface_at).
    destruct (Nat.eqb_spec j i); [done|].
    destruct (if_name y) as [n0|] eqn:En; [|exfalso; by apply (Hn j y); [constructor|..]].
    assert (Ht : name_taken (ifs s) name j = name_eq name n0) by (unfold name_taken; by rewrite Hy, En).
    rewrite Ht. simpl. rewrite (bind_ret _ _ _ n0 s) by done.
    destruct (name_eq name n0); [done|]. rewrite IH; [done|simpl in Hf; lia|].
    intros j' y' Hj'. apply Hn. by constructor.
Qed.

Lemma foldl_last (l : list nat) a j : foldl (fun _ j => Some j) a (l ++ [j]) = Some j.
Proof. by rewrite foldl_app. Qed.

Lemma chain_snoc a h l j i x y : chain a h (l ++ [j]) -> a !! j = Some x ->
  a !! i = Some y -> if_next y = None -> i ∉ l ++ [j] ->
  chain (<[j := set_if_next (Some i) x]> a) h (l ++ [j; i]).
Proof.
  intros H Hx Hy Hn Hi. eapply chain_link; [done..|]. apply (chain_cons _ _ y).
  - rewrite list_lookup_insert_ne; [done|]. intros ->. apply Hi, elem_of_app. right. constructor.
  - rewrite Hn. constructor.
Qed.

(** Clearing the [next] field of an element cuts the chain there. *)
Lemma chain_cut a h l1 i l2 x : chain a h (l1 ++ i :: l2) -> a !! i = Some x ->
  chain (<[i := set_if_next None x]> a) h (l1 ++ [i]).
Proof.
  intros H Hx. pose proof (chain_nodup _ _ _ H) as Hnd. revert h H Hnd.
  induction l1 as [|j l1 IH]; intros h H Hnd; simpl in *; inversion H as [|? y ? Hy Hc]; subst.
  - apply (chain_cons _ _ (set_if_next None x)); [|constructor].
    rewrite list_lookup_insert_eq; [done|]. apply lookup_lt_is_Some. by eexists.
  - apply NoDup_cons_1_1 in Hnd as Hni. apply NoDup_cons_1_2 in Hnd.
    apply (chain_cons _ _ y); [|by apply IH]. rewrite list_lookup_insert_ne; [done|].
    intros ->. apply Hni, elem_of_app. right. constructor.
Qed.

(** The part of [csp_iflist_add] after the checks on the argument. *)
Lemma iflist_add_run s i x name : ifs s !! i = Some x -> if_name x = Some name ->
  csp_iflist_add (Some i) s =
    (match interfaces s with
     | None => modify (set_interfaces (Some i))
     | Some _ =>
         r ← if_last (if_fuel s) i name None (interfaces s);
         match r with
         | None => mret tt
         | Some None => undef
         | Some (Some last) => mod_iface last (set_if_next (Some i))
         end
     end) (set_ifs (<[i := set_if_next None x]> (ifs s)) s).
Proof.
  intros Hx Hn. unfold csp_iflist_add. rewrite (bind_ret _ _ _ x s) by (by apply get_iface_at).
  rewrite Hn. erewrite bind_ret by (by apply mod_iface_at). erewrite bind_ret by reflexivity.
  unfold id. simpl. unfold if_fuel. simpl. by rewrite length_insert.
Qed.

Lemma named_insert_next a l i n x : named a l -> a !! i = Some x -> if_name x <> None ->
  named (<[i := set_if_next n x]> a) l.
Proof.
  intros H Hx Hn j y Hj Hy. destruct (decide (i = j)) as [<-|].
  - rewrite list_lookup_insert_eq in Hy by (apply lookup_lt_is_Some; by eexists). by simplify_eq/=.
  - rewrite list_lookup_insert_ne in Hy by done. by eapply H.
Qed.

Lemma iflist_add_fresh_run s l i x name :
  iflist s l -> named (ifs s) l -> i ∉ l -> ifs s !! i = Some x -> if_name x = Some name ->
  existsb (name_taken (ifs s) name) l = false ->
  exists s', csp_iflist_add (Some i) s = Ret tt s' /\ iflist s' (l ++ [i]).
Proof.
  intros Hl Hnm Hi Hx Hn Ht. rewrite (iflist_add_run s i x name) by done.
  set (s1 := set_ifs (<[i := set_if_next None x]> (ifs s)) s).
  assert (Hlt : (i < length (ifs s))%nat) by (apply lookup_lt_is_Some; by eexists).
  assert (Hc1 : chain (ifs s1) (interfaces s) l) by (by apply chain_insert_other).
  assert (Hi1 : ifs s1 !! i = Some (set_if_next None x)) by (by apply list_lookup_insert_eq).
  destruct (interfaces s) as [h|] eqn:Eh.
  - assert (Hne : exists l' j, l = l' ++ [j]).
    { destruct l as [|a l] using rev_ind; [unfold iflist in Hl; rewrite Eh in Hl; inversion Hl|eauto]. }
    destruct Hne as (l' & j & ->).
    rewrite (bind_ret _ _ _ (Some (Some j)) s1).
    + destruct (chain_lookup _ _ _ j Hc1) as [y Hy]; [apply elem_of_app; right; constructor|].
      rewrite (mod_iface_at _ _ _ _ Hy). eexists. split; [reflexivity|].
      unfold iflist. simpl. rewrite Eh, <- app_assoc. by eapply chain_snoc.
    + erewrite if_last_scan; [|done| |].
      * rewrite foldl_last. replace (existsb _ _) with false; [done|]. symmetry.
        rewrite <- Ht. apply existsb_ext_in. intros k Hk.
        rewrite (proj2 (Nat.eqb_neq k i)) by (intros ->; done). simpl. unfold name_taken. simpl.
        rewrite list_lookup_insert_ne by (intros ->; done). done.
      * apply chain_length in Hl. unfold if_fuel. lia.
      * apply named_insert_next; [done|done|congruence].
  - unfold iflist in Hl. rewrite Eh in Hl. inversion Hl; subst. eexists. split; [reflexivity|].
    unfold iflist. simpl. apply (chain_cons _ _ (set_if_next None x)); [done|constructor].
Qed.

(** A new element of the array does not disturb the list. *)
Lemma chain_app a b h l : chain a h l -> chain (a ++ b) h l.
Proof. induction 1 as [|i x l Hx _ IH]; econstructor; [by apply lookup_app_l_Some|done]. Qed.

Lemma chain_lt a h l i : chain a h l -> i ∈ l -> (i < length a)%nat.
Proof. intros Hc. induction Hc as [|j x l Hx _ IH]; intros Hi; [by apply not_elem_of_nil in Hi|].
  apply elem_of_cons in Hi as [->|Hi]; [by eapply lookup_lt_Some|auto]. Qed.

(** Adding an interface that was allocated at the end of the array. *)
Lemma iflist_add_new s s1 l x name :
  iflist s l -> named (ifs s) l -> if_name x = Some name -> existsb (name_taken (ifs s) name) l = false ->
  ifs s1 = ifs s ++ [x] -> interfaces s1 = interfaces s ->
  exists s', csp_iflist_add (Some (length (ifs s))) s1 = Ret tt s' /\ iflist s' (l ++ [length (ifs s)]).
Proof.
  intros Hl Hnm Hn Ht E Ei. assert (Hlow : forall i, i ∈ l -> ifs s1 !! i = ifs s !! i).
  { intros i Hi. rewrite E. apply lookup_app_l. exact (chain_lt _ _ _ _ Hl Hi). }
  apply (iflist_add_fresh_run s1 l _ x name).
  - unfold iflist. rewrite E, Ei. by apply chain_app.
  - intros i y Hi. rewrite Hlow by done. by apply Hnm.
  - intros Hi. pose proof (chain_lt _ _ _ _ Hl Hi). lia.
  - by rewrite E, lookup_app_r, Nat.sub_diag.
  - done.
  - rewrite <- Ht. apply existsb_ext_in. intros i Hi. unfold name_taken. by rewrite Hlow.
Qed.

(** The scan of [csp_iflist_remove] behind the head: [j] precedes [i]. *)
Lemma if_unlink_run fuel i s h l : chain (ifs s) h l -> (length l < fuel)%nat ->
  hd_error l <> Some i ->
  ((i ∉ l) /\ if_unlink fuel i h s = Ret tt s) \/
  (exists l1 j l2 x y, l = l1 ++ j :: i :: l2 /\ ifs s !! j = Some x /\ ifs s !! i = Some y /\
     if_unlink fuel i h s =
       Ret tt (set_ifs (<[i := set_if_next None y]> (<[j := set_if_next (if_next y) x]> (ifs s))) s)).
Proof.
  intros H. revert fuel. induction H as [|j x l Hx H IH]; intros fuel Hf Hd; (destruct fuel; [simpl in Hf; lia|]).
  - left. split; [apply not_elem_of_nil|done].
  - simpl. rewrite (bind_ret _ _ _ x s) by (by apply get_iface_at).
    destruct (decide (if_next x = Some i)) as [En|En].
    + rewrite bool_decide_true by done. right. rewrite En in H. inversion H as [|? y ? Hy Hc]; subst.
      exists [], j, l0, x, y. split_and!; [done..|].
      rewrite (bind_ret _ _ _ y s) by (by apply get_iface_at).
      erewrite bind_ret by (by apply mod_iface_at).
      assert (Hne : j <> i).
      { intros ->. assert (Hch : chain (ifs s) (Some i) (i :: i :: l0)) by (apply (chain_cons _ _ x); [done|by rewrite En]).
        apply chain_nodup in Hch. apply (NoDup_cons_1_1 _ _ Hch). constructor. }
      erewrite mod_iface_at; [done|]. simpl. by rewrite list_lookup_insert_ne.
    + rewrite bool_decide_false by done. simpl in Hf, Hd.
      destruct (IH fuel) as [[Hn Hr]|(l1 & j' & l2 & x' & y & -> & Hx' & Hy & Hr)]; [lia| | |].
      * destruct H; simpl; congruence.
      * left. split; [|done]. rewrite elem_of_cons. intros [->|]; [by apply Hd|done].
      * right. exists (j :: l1), j', l2, x', y. done.
Qed.

(** Dropping an element that does not occur, or occurs once. *)
Lemma filter_ne_absent (i : nat) (l : list nat) : i ∉ l -> filter (fun j => j <> i) l = l.
Proof.
  induction l as [|a l IH]; intros Hl; [done|]. rewrite elem_of_cons in Hl.
  rewrite filter_cons_True by (intros ->; tauto). f_equal. tauto.
Qed.

Lemma filter_ne_middle (i : nat) l1 l2 : NoDup (l1 ++ i :: l2) ->
  filter (fun j => j <> i) (l1 ++ i :: l2) = l1 ++ l2.
Proof.
  intros H. apply list.NoDup_app in H as (H1 & Hd & H2). apply NoDup_cons_1_1 in H2 as Hi.
  rewrite list.filter_app, filter_cons_False by (intros Hn; by apply Hn).
  rewrite !filter_ne_absent; [done|done|]. intros Hin. apply (Hd i Hin). constructor.
Qed.

(** Linking around [i] and clearing its [next] leaves the rest of the chain. *)
Lemma chain_unlink a h l1 j i l2 x y : chain a h (l1 ++ j :: i :: l2) ->
  a !! j = Some x -> a !! i = Some y ->
  chain (<[i := set_if_next None y]> (<[j := set_if_next (if_next y) x]> a)) h (l1 ++ j :: l2).
Proof.
  intros H Hx Hy. pose proof (chain_nodup _ _ _ H) as Hnd.
  assert (Hi : i ∉ l1 ++ j :: l2).
  { apply list.NoDup_app in Hnd as (_ & Hd & Hnd). intros [Hin|Hin]%elem_of_app.
    - apply (Hd i Hin). right. left.
    - apply NoDup_cons_1_1 in Hnd as Hj. apply NoDup_cons_1_2, NoDup_cons_1_1 in Hnd.
      apply elem_of_cons in Hin as [->|]; [|done]. apply Hj. left. }
  apply chain_insert_other; [|done].
  destruct (chain_app_inv _ _ _ _ _ H) as (x' & Hx' & _ & Hc). rewrite Hx in Hx'. injection Hx' as <-.
  inversion Hc as [|? y' ? Hy' Hc']; subst. rewrite Hy in Hy'. injection Hy' as <-.
  revert h H Hnd. induction l1 as [|k l1 IH]; intros h H Hnd; simpl in *.
  - inversion H; subst. apply (chain_cons _ _ (set_if_next (if_next y) x)).
    + rewrite list_lookup_insert_eq; [done|]. apply lookup_lt_is_Some. by eexists.
    + simpl. apply chain_insert_other; [done|]. apply NoDup_cons_1_1 in Hnd. intros Hin. apply Hnd. by right.
  - inversion H as [|? z ? Hz Hc2]; subst. apply NoDup_cons_1_1 in Hnd as Hk. apply NoDup_cons_1_2 in Hnd.
    apply (chain_cons _ _ z).
    + rewrite list_lookup_insert_ne; [done|]. intros ->. apply Hk, elem_of_app. right. left.
    + apply IH; [|done|done]. intros Hin. apply Hi. by right.
Qed.

(** ** Properties *)

(** On a well-formed interface list the lookups are searches of the
    sequence it represents: by address, by index, and, continuing after a
    given element, by subnet and by the default flag. *)
Theorem iflist_lookups s l addr idx ifc r :
  iflist s l -> rest_after l ifc r -> masks_ok s l -> 0 <= idx ->
  csp_iflist_get_by_addr addr s = Ret (find (passes (ifs s) (fun _ => addr_is addr)) l) s /\
  csp_iflist_get_by_index idx s = Ret (l !! Z.to_nat idx) s /\
  csp_iflist_get_by_subnet addr ifc s = Ret (find (passes (ifs s) (fun _ => on_subnet s addr)) r) s /\
  csp_iflist_get_by_isdfl ifc s = Ret (find (passes (ifs s) (fun _ x => Some (is_default x =? 1))) r) s.
Proof.
  intros Hl Hr Hm Hi. split_and!.
  - by apply get_by_addr_find.
  - unfold csp_iflist_get_by_index. rewrite (bind_ret _ _ _ s s) by done.
    apply if_index_nth; [done|by eapply chain_fuel|done].
  - by eapply get_by_subnet_find.
  - by eapply get_by_isdfl_find.
Qed.

(** [csp_iflist_add] appends an interface that is not listed and whose name
    is not taken. *)
Theorem iflist_add_appends s l i x name :
  iflist s l -> named (ifs s) l -> i ∉ l -> ifs s !! i = Some x -> if_name x = Some name ->
  existsb (name_taken (ifs s) name) l = false ->
  exists s', csp_iflist_add (Some i) s = Ret tt s' /\ iflist s' (l ++ [i]).
Proof. apply iflist_add_fresh_run. Qed.

(** [csp_iflist_remove] takes exactly the given interface out of the list,
    wherever it is, and does nothing for one that is not listed. *)
Theorem iflist_remove_spec s l i :
  iflist s l ->
  exists s', csp_iflist_remove (Some i) s = Ret tt s' /\ iflist s' (filter (fun j => j <> i) l).
Proof.
  intros Hl. unfold csp_iflist_remove. rewrite (bind_ret _ _ _ s s) by done.
  pose proof (chain_nodup _ _ _ Hl) as Hnd.
  destruct (decide (interfaces s = Some i)) as [Eh|Eh].
  - rewrite bool_decide_true by done. unfold iflist in Hl. rewrite Eh in Hl.
    inversion Hl as [|? x l' Hx Hc]; subst. rewrite (bind_ret _ _ _ x s) by (by apply get_iface_at).
    erewrite bind_ret by reflexivity. rewrite (mod_iface_at _ _ x) by done.
    eexists. split; [reflexivity|]. change (i :: l') with ([] ++ i :: l'). rewrite filter_ne_middle by done.
    unfold iflist. simpl. apply chain_insert_other; [done|]. by apply NoDup_cons_1_1 in Hnd.
  - rewrite bool_decide_false by done.
    destruct (if_unlink_run (if_fuel s) i s (interfaces s) l) as [[Hi Hr]|(l1 & j & l2 & x & y & -> & Hx & Hy & Hr)].
    + done.
    + by eapply chain_fuel.
    + destruct Hl; simpl; congruence.
    + eexists. split; [exact Hr|]. by rewrite filter_ne_absent.
    + eexists. split; [exact Hr|].
      change (l1 ++ j :: i :: l2) with (l1 ++ [j] ++ i :: l2). rewrite app_assoc, filter_ne_middle by (by rewrite <- app_assoc).
      unfold iflist. simpl. rewrite <- app_assoc. by apply chain_unlink.
Qed.

(** Adding an interface that is already listed is not harmless: its [next]
    field is cleared before the duplicate is noticed, so every interface
    behind it is lost from the list. *)
Theorem iflist_readd_truncates s l1 i l2 x name :
  iflist s (l1 ++ i :: l2) -> named (ifs s) (l1 ++ [i]) ->
  ifs s !! i = Some x -> if_name x = Some name ->
  exists s', csp_iflist_add (Some i) s = Ret tt s' /\ iflist s' (l1 ++ [i]).
Proof.
  intros Hl Hnm Hx Hn. rewrite (iflist_add_run s i x name) by done.
  set (s1 := set_ifs (<[i := set_if_next None x]> (ifs s)) s).
  assert (Hc : chain (ifs s1) (interfaces s) (l1 ++ [i])) by (by eapply chain_cut).
  exists s1. split; [|done].
  destruct (interfaces s) as [h|] eqn:Eh; [|inversion Hc; by destruct l1].
  rewrite (bind_ret _ _ _ None s1); [done|].
  erewrite if_last_scan; [|done| |].
  - rewrite existsb_app. simpl. rewrite Nat.eqb_refl. simpl. by rewrite orb_true_r.
  - apply chain_length in Hc. unfold s1 in Hc. simpl in Hc. rewrite length_insert in Hc. unfold if_fuel. lia.
  - apply named_insert_next; [done|done|congruence].
Qed.

(** Whatever is added, a list remains, of interfaces that were listed and the
    new one. *)
Lemma iflist_add_any s l i x : iflist s l -> named (ifs s) l -> ifs s !! i = Some x ->
  exists s' l', csp_iflist_add (Some i) s = Ret tt s' /\ iflist s' l' /\
    forall j, j ∈ l' -> j ∈ l \/ j = i /\ if_name x <> None.
Proof.
  intros Hl Hnm Hx. destruct (if_name x) as [name|] eqn:Hn.
  2: { exists s, l. split; [|split; [done|by left]]. unfold csp_iflist_add. rewrite (bind_ret _ _ _ x s) by (by apply get_iface_at). by rewrite Hn. }
  destruct (decide (i ∈ l)) as [Hi|Hi].
  - apply list_elem_of_split in Hi as (l1 & l2 & ->). destruct (iflist_readd_truncates s l1 i l2 x name Hl) as (s' & Hr & Hl'); [|done|done|].
    + intros j y Hj. apply Hnm. apply elem_of_app in Hj as [Hj|Hj%list_elem_of_singleton]; apply elem_of_app; [by left|right; subst; left].
    + exists s', (l1 ++ [i]). split; [done|]. split; [done|]. intros j [Hj|Hj%list_elem_of_singleton]%elem_of_app; [left; apply elem_of_app; by left|by right].
  - destruct (existsb (name_taken (ifs s) name) l) eqn:Ht.
    + exists (set_ifs (<[i := set_if_next None x]> (ifs s)) s), l. split; [|split; [by apply chain_insert_other|by left]].
      rewrite (iflist_add_run s i x name) by done. set (s1 := set_ifs _ s).
      assert (Hc1 : chain (ifs s1) (interfaces s) l) by (by apply chain_insert_other).
      destruct (interfaces s) as [hd|] eqn:Eh; [|inversion Hc1; subst; discriminate Ht].
      rewrite (bind_ret _ _ _ None s1); [done|]. erewrite if_last_scan; [|exact Hc1| |].
      * rewrite (proj2 (existsb_exists _ l)); [done|]. apply existsb_exists in Ht as (j & Hj & Hjt). exists j. split; [done|].
        apply orb_true_iff. right. unfold name_taken in *. simpl. rewrite list_lookup_insert_ne; [done|].
        intros ->. by apply Hi, list_elem_of_In.
      * apply chain_length in Hl. unfold if_fuel. lia.
      * apply named_insert_next; [done|done|congruence].
    + destruct (iflist_add_fresh_run s l i x name Hl Hnm Hi Hx Hn Ht) as (s' & Hr & Hl'). exists s', (l ++ [i]). split; [done|]. split; [done|].
      intros j [Hj|Hj%list_elem_of_singleton]%elem_of_app; [by left|by right].
Qed.

(** ** Witnesses *)

(** A node with the loopback and two more interfaces, ["A"] and ["B"]. *)
Definition iface_a : csp_iface := set_if_addr 8 (set_if_netmask 8 (set_if_name (Some [65]) lo_iface)).
Definition iface_b : csp_iface := set_is_default 1 (set_if_addr 72 (set_if_netmask 8 (set_if_name (Some [66]) lo_iface))).

Definition three_ifs : node :=
  set_interfaces (Some 0%nat)
    (set_ifs [set_if_next (Some 1%nat) lo_iface; set_if_next (Some 2%nat) iface_a; iface_b] boot).

Lemma three_ifs_list : iflist three_ifs [0; 1; 2]%nat.
Proof. unfold iflist. repeat (eapply chain_cons; [reflexivity|]). apply chain_nil. Qed.

Lemma iflist_lookups_witness :
  csp_iflist_get_by_addr 72 three_ifs = Ret (Some 2%nat) three_ifs /\
  csp_iflist_get_by_subnet 9 (Some 0%nat) three_ifs = Ret (Some 1%nat) three_ifs.
Proof.
  destruct (iflist_lookups three_ifs [0; 1; 2]%nat 72 0 None [0; 1; 2]%nat) as (H & _).
  - apply three_ifs_list.
  - constructor.
  - intros i x Hi Hx. apply list_elem_of_In in Hi. simpl in Hi.
    destruct Hi as [<-|[<-|[<-|[]]]]; injection Hx as <-; cbv; split; discriminate.
  - lia.
  - split; [exact H|].
    destruct (iflist_lookups three_ifs [0; 1; 2]%nat 9 0 (Some 0%nat) [1; 2]%nat) as (_ & _ & H' & _).
    + apply three_ifs_list.
    + apply (rest_some _ []). reflexivity.
    + intros i x Hi Hx. apply list_elem_of_In in Hi. simpl in Hi.
      destruct Hi as [<-|[<-|[<-|[]]]]; injection Hx as <-; cbv; split; discriminate.
    + lia.
    + exact H'.
Defined.

Lemma iflist_add_appends_witness :
  let s := set_ifs (ifs three_ifs ++ [set_if_name (Some [67]) lo_iface]) three_ifs in
  exists s', csp_iflist_add (Some 3%nat) s = Ret tt s' /\ iflist s' [0; 1; 2; 3]%nat.
Proof.
  apply (iflist_add_appends _ [0; 1; 2]%nat 3 (set_if_name (Some [67]) lo_iface) [67]).
  - unfold iflist. repeat (eapply chain_cons; [reflexivity|]). apply chain_nil.
  - intros j y Hj Hy. apply list_elem_of_In in Hj. simpl in Hj.
    destruct Hj as [<-|[<-|[<-|[]]]]; injection Hy as <-; discriminate.
  - intros Hin. apply list_elem_of_In in Hin. simpl in Hin. lia.
  - reflexivity.
  - reflexivity.
  - reflexivity.
Defined.

Lemma iflist_remove_spec_witness :
  exists s', csp_iflist_remove (Some 1%nat) three_ifs = Ret tt s' /\ iflist s' [0; 2]%nat.
Proof. exact (iflist_remove_spec three_ifs [0; 1; 2]%nat 1 three_ifs_list). Defined.

Lemma iflist_readd_truncates_witness :
  exists s', csp_iflist_add (Some 1%nat) three_ifs = Ret tt s' /\ iflist s' [0; 1]%nat.
Proof.
  apply (iflist_readd_truncates three_ifs [0]%nat 1 [2]%nat (set_if_next (Some 2%nat) iface_a) [65]).
  - apply three_ifs_list.
  - intros j y Hj Hy. apply list_elem_of_In in Hj. simpl in Hj.
    destruct Hj as [<-|[<-|[]]]; injection Hy as <-; discriminate.
  - reflexivity.
  - reflexivity.
Defined.
