(* ===== verification/Rtable.v ===== *)
(** * Rtable: the CIDR routing table ([src/csp_rtable_cidr.c])

    An array of routes filled from the front; a lookup takes the longest
    matching prefix, the last entry among equals. *)

From S2P Require Import Prelude State Monad Id.

Definition route_eq (addr netmask : Z) (ifc : option nat) (r : csp_route) : bool :=
  (rt_address r =? addr) && (rt_netmask r =? netmask) && bool_decide (rt_iface r = ifc).

(** The rows in use: [rtable[0 .. rtable_inptr - 1]]. *)
Definition rt_used (s : node) : list csp_route := take (Z.to_nat (rtable_inptr s)) (rtable s).

Fixpoint find_index {A} (f : A -> bool) (i : nat) (l : list A) : option nat :=
  match l with
  | [] => None
  | x :: l' => if f x then Some i else find_index f (S i) l'
  end.

Definition csp_rtable_find_exact (s : node) (addr netmask : Z) (ifc : option nat) : option nat :=
  find_index (route_eq addr netmask ifc) 0 (rt_used s).

(** Does the route's network contain [addr]?  Undefined shift as elsewhere. *)
Definition rt_match (hb addr : Z) (r : csp_route) : option bool :=
  if hb <? rt_netmask r then None else
  let hostbits := u16 (Z.shiftl 1 (hb - rt_netmask r) - 1) in
  let netbits := u16 (Z.lnot hostbits) in
  Some (Z.land (rt_address r) netbits =? Z.land addr netbits).

(** The search loop: index of the best row so far and its netmask. *)
Fixpoint rt_best (hb addr : Z) (i : nat) (l : list csp_route) (best : option nat) (mask : Z)
    : option (option nat) :=
  match l with
  | [] => Some best
  | r :: l' =>
      match rt_match hb addr r with
      | None => None
      | Some true =>
          if mask <=? rt_netmask r then rt_best hb addr (S i) l' (Some i) (rt_netmask r)
          else rt_best hb addr (S i) l' best mask
      | Some false => rt_best hb addr (S i) l' best mask
      end
  end.

Definition csp_rtable_find_route (addr : Z) : M (option nat) :=
  s ← gets id;
  of_option (rt_best (csp_id_get_host_bits s) addr 0 (rt_used s) None 0).

(** [for (route = start - 1; route >= rtable; route--)] *)
Fixpoint rt_back (t : list csp_route) (start : csp_route) (n : nat) : option nat :=
  match n with
  | O => None
  | S j =>
      match t !! j with
      | Some r =>
          if (rt_netmask r =? rt_netmask start) && (rt_address r =? rt_address start)
          then Some j else rt_back t start j
      | None => None
      end
  end.

Definition csp_rtable_search_backward (start_route : option nat) : M (option nat) :=
  match start_route with
  | None => mret None
  | Some i =>
      s ← gets id;
      start ← of_option (rtable s !! i);
      mret (rt_back (rtable s) start i)
  end.

Definition get_route (i : nat) : M csp_route := s ← gets id; of_option (rtable s !! i).

Definition csp_rtable_set_internal (address netmask : Z) (ifc : option nat) (via : Z) : M Z :=
  s ← gets id;
  let entry := mkRoute address netmask via ifc in
  match csp_rtable_find_exact s address netmask ifc with
  | Some i => modify (set_rtable (<[i := entry]> (rtable s))) ;; mret CSP_ERR_NONE
  | None =>
      if Z.of_nat CSP_RTABLE_SIZE <=? rtable_inptr s then mret CSP_ERR_NOMEM else
      modify (fun s => set_rtable (<[Z.to_nat (rtable_inptr s) := entry]> (rtable s))
                         (set_rtable_inptr (rtable_inptr s + 1) s)) ;;
      mret CSP_ERR_NONE
  end.

Definition csp_rtable_free : M unit :=
  modify (fun s => set_rtable (replicate CSP_RTABLE_SIZE route_zero) (set_rtable_inptr 0 s)).

Definition csp_rtable_clear : M unit := csp_rtable_free.

Definition csp_rtable_set (address netmask : Z) (ifc : option nat) (via : Z) : M Z :=
  s ← gets id;
  let hb := csp_id_get_host_bits s in
  let netmask := if (netmask <? 0) || (hb <? netmask) then hb else netmask in
  match ifc with
  | None => set_errno CSP_DBG_ERR_INVALID_RTABLE_ENTRY ;; mret CSP_ERR_INVAL
  | Some _ => csp_rtable_set_internal address netmask ifc via
  end.

(** [csp_rtable_iterate]: the iterator runs on every row in use; its result is
    not looked at. *)
Definition csp_rtable_iterate {A} (iter : A -> csp_route -> A * bool) (ctx : A) (s : node) : A :=
  foldl (fun c r => fst (iter c r)) ctx (rt_used s).

(** ** Longest-prefix lookup *)

(** [addr] lies in the network of the route. *)
Definition in_net (hb addr : Z) (r : csp_route) : Prop :=
  rt_address r / 2 ^ (hb - rt_netmask r) = addr / 2 ^ (hb - rt_netmask r).

Definition route_ok (hb : Z) (r : csp_route) : Prop :=
  0 <= rt_netmask r <= hb /\ 0 <= rt_address r < 65536.

Lemma rt_match_spec hb addr r : 0 <= hb <= 14 -> route_ok hb r -> 0 <= addr < 65536 ->
  exists b, rt_match hb addr r = Some b /\ (b = true <-> in_net hb addr r).
Proof.
  intros Hhb [Hm Ha] Haddr. unfold rt_match, in_net. rewrite (proj2 (Z.ltb_ge _ _)) by lia.
  eexists. split; [reflexivity|]. set (n := hb - rt_netmask r).
  assert (Hp : 1 <= 2 ^ n <= 2 ^ 14).
  { split; [pose proof (Z.pow_pos_nonneg 2 n); lia|apply Z.pow_le_mono_r; lia]. }
  rewrite Z.shiftl_mul_pow2, Z.mul_1_l by lia. rewrite (u16_small (2 ^ n - 1)) by lia.
  replace (u16 (Z.lnot (2 ^ n - 1))) with (2 ^ 16 - 1 - (2 ^ n - 1)).
  - rewrite !(land_netmask _ n 16) by lia. rewrite Z.eqb_eq. split; intros H.
    + apply (div_mul_inj _ _ (2 ^ n)); lia.
    + by rewrite H.
  - unfold u16, Z.lnot. rewrite <- (Z.mod_small (2 ^ 16 - 1 - (2 ^ n - 1)) (2 ^ 16)) by lia.
    replace (Z.pred (- (2 ^ n - 1))) with (2 ^ 16 - 1 - (2 ^ n - 1) + (-1) * 2 ^ 16) by lia.
    by rewrite Z.mod_add by lia.
Qed.

(** [i] is the best of the rows [l] numbered from [n]: it matches, and no row
    that matches has a longer prefix, nor an equal one further down. *)
Definition best_row (hb addr : Z) (n : nat) (l : list csp_route) (i : nat) (mask : Z) : Prop :=
  exists r, (n <= i)%nat /\ l !! (i - n)%nat = Some r /\ in_net hb addr r /\ rt_netmask r = mask /\
  forall j r', l !! j = Some r' -> in_net hb addr r' ->
    rt_netmask r' < mask \/ (rt_netmask r' = mask /\ (n + j <= i)%nat).

(** The loop keeps the best row of a prefix and combines it with the rest. *)
Lemma rt_best_spec hb addr l : 0 <= hb <= 14 -> Forall (route_ok hb) l -> 0 <= addr < 65536 ->
  forall n best mask, 0 <= mask -> exists res, rt_best hb addr n l best mask = Some res /\
    ((res = best /\ forall j r, l !! j = Some r -> in_net hb addr r -> rt_netmask r < mask) \/
     (exists i m, res = Some i /\ best_row hb addr n l i m /\ mask <= m)).
Proof.
  intros Hhb Hl Ha. induction Hl as [|r l Hr Hl IH]; intros n best mask Hm; simpl.
  { eexists. split; [done|]. left. split; [done|]. intros j r. by rewrite lookup_nil. }
  destruct (rt_match_spec hb addr r Hhb Hr Ha) as (b & -> & Hb).
  assert (Hskip : (in_net hb addr r -> rt_netmask r < mask) ->
    exists res, rt_best hb addr (S n) l best mask = Some res /\
    ((res = best /\ forall j r0, (r :: l) !! j = Some r0 -> in_net hb addr r0 -> rt_netmask r0 < mask) \/
     (exists i m, res = Some i /\ best_row hb addr n (r :: l) i m /\ mask <= m))).
  { intros Hno. destruct (IH (S n) best mask Hm) as (res & Hres & [[-> Hall]|(i & m & -> & (ri & Hle & Hlk & Hin & Hmk & Hmax) & Hge)]).
    - eexists. split; [exact Hres|]. left. split; [done|]. intros [|j] r0 H0 Hi; simplify_eq/=; eauto.
    - eexists. split; [exact Hres|]. right. exists i, m. split_and!; [done| |done].
      exists ri. split_and!; [lia| |done|done|].
      + replace (i - n)%nat with (S (i - S n)) by lia. done.
      + intros [|j] r' Hj Hi; simplify_eq/=; [left; specialize (Hno Hi); lia|].
        destruct (Hmax _ _ Hj Hi) as [|[? ?]]; [by left|right; split; [done|lia]]. }
  destruct b; [|apply Hskip; intros Hi; apply Hb in Hi; done].
  destruct (Z.leb_spec mask (rt_netmask r)) as [Hge|Hlt]; [|apply Hskip; done].
  destruct (IH (S n) (Some n) (rt_netmask r)) as (res & Hres & Hcase); [destruct Hr; lia|].
  eexists. split; [exact Hres|]. right.
  destruct Hcase as [[-> Hall]|(i & m & -> & (ri & Hle & Hlk & Hin & Hmk & Hmax) & Hm2)].
  - exists n, (rt_netmask r). split_and!; [done| |done]. exists r.
    split_and!; [lia|by rewrite Nat.sub_diag|by apply Hb|done|].
    intros [|j] r' Hj Hi; simplify_eq/=; [right; split; [done|lia]|left; eauto].
  - exists i, m. split_and!; [done| |lia]. exists ri. split_and!; [lia| |done|done|].
    + replace (i - n)%nat with (S (i - S n)) by lia. done.
    + intros [|j] r' Hj Hi; simplify_eq/=.
      * destruct (Z.eq_dec (rt_netmask r') (rt_netmask ri)); [right; split; [done|lia]|left; lia].
      * destruct (Hmax _ _ Hj Hi) as [|[? ?]]; [by left|right; split; [done|lia]].
Qed.

Definition rtable_ok (s : node) : Prop :=
  length (rtable s) = CSP_RTABLE_SIZE /\ 0 <= rtable_inptr s <= Z.of_nat CSP_RTABLE_SIZE /\
  Forall (route_ok (csp_id_get_host_bits s)) (rt_used s).

Lemma host_bits_range s : 0 <= csp_id_get_host_bits s <= 14.
Proof. destruct (host_bits_cases s) as [-> | ->]; lia. Qed.

(** C31. [csp_rtable_find_route] returns the matching row with the longest
    prefix, the last one among rows of equal length, and NULL exactly when no
    row in use matches. *)
Theorem find_route_longest_prefix s addr :
  rtable_ok s -> 0 <= addr < 65536 ->
  exists res, csp_rtable_find_route addr s = Ret res s /\
    match res with
    | Some i => exists mask, best_row (csp_id_get_host_bits s) addr 0 (rt_used s) i mask
    | None => forall j r, rt_used s !! j = Some r -> ~ in_net (csp_id_get_host_bits s) addr r
    end.
Proof.
  intros (_ & _ & Hu) Ha. unfold csp_rtable_find_route. rewrite (bind_ret _ _ _ s s) by done.
  destruct (rt_best_spec _ addr _ (host_bits_range s) Hu Ha 0 None 0) as (res & Hres & Hcase); [lia|].
  unfold id. rewrite Hres. exists res. split; [done|].
  destruct Hcase as [[-> Hall]|(i & m & -> & Hb & _)]; [|by exists m].
  intros j r Hj Hi. specialize (Hall j r Hj Hi). destruct (Forall_lookup_1 _ _ _ _ Hu Hj). lia.
Qed.

(** ** The table as a finite map from (address, netmask, interface) to via *)

Definition rt_lookup (s : node) (addr netmask : Z) (ifc : option nat) : option Z :=
  rt_via <$> find (route_eq addr netmask ifc) (rt_used s).

Lemma find_index_find {A} (f : A -> bool) l n :
  match find_index f n l with
  | Some i => exists j x, i = (n + j)%nat /\ l !! j = Some x /\ f x = true /\ find f l = Some x /\
                forall y, f y = true -> find f (<[j := y]> l) = Some y
  | None => find f l = None
  end.
Proof.
  revert n. induction l as [|x l IH]; intros n; simpl; [done|].
  destruct (f x) eqn:E.
  - exists O, x. rewrite Nat.add_0_r. split_and!; [done..|]. intros y Hy. simpl. by rewrite Hy.
  - specialize (IH (S n)). destruct (find_index f (S n) l) as [i|]; [|done].
    destruct IH as (j & y & -> & Hj & Hy & Hf & Hins). exists (S j), y.
    split_and!; [lia|done..|]. intros z Hz. simpl. rewrite E. auto.
Qed.

(** Replacing a row does not matter to a search both rows fail. *)
Lemma find_insert_other {A} (f : A -> bool) l j x y :
  l !! j = Some x -> f x = false -> f y = false -> find f (<[j := y]> l) = find f l.
Proof.
  revert j. induction l as [|z l IH]; intros [|j] Hj Hx Hy; simplify_eq/=.
  - by rewrite Hx, Hy.
  - destruct (f z); [done|]. auto.
Qed.

Lemma find_app {A} (f : A -> bool) l k :
  find f (l ++ k) = match find f l with Some x => Some x | None => find f k end.
Proof. induction l as [|x l IH]; simpl; [done|]. by destruct (f x). Qed.

Lemma route_eq_key a m i r : route_eq a m i r = true <->
  rt_address r = a /\ rt_netmask r = m /\ rt_iface r = i.
Proof.
  unfold route_eq. rewrite !andb_true_iff, !Z.eqb_eq, bool_decide_eq_true. tauto.
Qed.

Lemma route_eq_other a m i a' m' i' r : route_eq a m i r = true ->
  (a', m', i') <> (a, m, i) -> route_eq a' m' i' r = false.
Proof.
  intros (Ha & Hm & Hi)%route_eq_key Hne. destruct (route_eq a' m' i' r) eqn:E; [|done].
  apply route_eq_key in E as (? & ? & ?). congruence.
Qed.

(** What [csp_rtable_set] makes of its netmask argument. *)
Definition clamp_mask (hb netmask : Z) : Z := if (netmask <? 0) || (hb <? netmask) then hb else netmask.

Lemma take_insert_in {A} (l : list A) n i x : (i < n)%nat -> take n (<[i := x]> l) = <[i := x]> (take n l).
Proof.
  revert n i. induction l as [|y l IH]; intros [|n] [|i] H; simpl; try done; try lia.
  rewrite IH by lia. done.
Qed.

Lemma take_insert_end {A} (l : list A) n x : (n < length l)%nat -> take (S n) (<[n := x]> l) = take n l ++ [x].
Proof.
  revert n. induction l as [|y l IH]; intros [|n] H; simpl in *; try lia; [done|].
  f_equal. apply IH. lia.
Qed.

(** A row added behind the others answers for its own key only. *)
Lemma rt_lookup_append s s' a m ifc e : rt_used s' = rt_used s ++ [e] -> find (route_eq a m ifc) (rt_used s) = None ->
  route_eq a m ifc e = true ->
  rt_lookup s' a m ifc = Some (rt_via e) /\
  forall a' m' i', (a', m', i') <> (a, m, ifc) -> rt_lookup s' a' m' i' = rt_lookup s a' m' i'.
Proof.
  intros Hused Hf He. unfold rt_lookup. rewrite Hused. split; [rewrite find_app, Hf; simpl; by rewrite He|].
  intros a' m' i' Hne. rewrite find_app. simpl. rewrite (route_eq_other _ _ _ a' m' i' e He) by done.
  by destruct (find (route_eq a' m' i') (rt_used s)).
Qed.

(** C40. [csp_rtable_set] implements insertion into a finite map with
    [CSP_RTABLE_SIZE] entries: it updates or adds the entry of its key (with
    the netmask clamped to the host bits) and no other, fails with
    [CSP_ERR_NOMEM] exactly when the key is new and the table full, refuses a
    NULL interface, and keeps the table well formed. *)
Theorem rtable_set_spec s address netmask ifc via :
  rtable_ok s -> 0 <= address < 65536 ->
  let mask := clamp_mask (csp_id_get_host_bits s) netmask in
  exists r s', csp_rtable_set address netmask ifc via s = Ret r s' /\ rtable_ok s' /\
    match ifc with
    | None => r = CSP_ERR_INVAL /\ rtable s' = rtable s /\ rtable_inptr s' = rtable_inptr s
    | Some _ =>
        (r = CSP_ERR_NOMEM /\ s' = s /\ rtable_inptr s = Z.of_nat CSP_RTABLE_SIZE /\
           rt_lookup s address mask ifc = None) \/
        (r = CSP_ERR_NONE /\ rt_lookup s' address mask ifc = Some via /\
           forall a m i, (a, m, i) <> (address, mask, ifc) -> rt_lookup s' a m i = rt_lookup s a m i)
    end.
Proof.
  intros Hok Ha mask. pose proof Hok as (Hlen & Hin & Hu). unfold csp_rtable_set.
  rewrite (bind_ret _ _ _ s s) by done. unfold id. fold (clamp_mask (csp_id_get_host_bits s) netmask). fold mask.
  destruct ifc as [i|]; [|eexists _, _; split; [reflexivity|]; done].
  assert (Hm : 0 <= mask <= csp_id_get_host_bits s).
  { unfold mask, clamp_mask. pose proof (host_bits_range s).
    destruct (_ || _) eqn:E; bsimpl; lia. }
  set (e := mkRoute address mask via (Some i)).
  assert (He : route_ok (csp_id_get_host_bits s) e) by (split; [exact Hm|exact Ha]).
  assert (Hek : route_eq address mask (Some i) e = true) by (by apply route_eq_key).
  unfold csp_rtable_set_internal. rewrite (bind_ret _ _ _ s s) by done. fold e. unfold id.
  pose proof (find_index_find (route_eq address mask (Some i)) (rt_used s) 0) as Hf.
  unfold csp_rtable_find_exact. destruct (find_index _ 0 (rt_used s)) as [j|] eqn:Ej.
  - destruct Hf as (j' & x & -> & Hj & Hx & Hfind & Hins). simpl.
    eexists _, _. split; [reflexivity|].
    assert (Hjlt : (j' < Z.to_nat (rtable_inptr s))%nat).
    { apply lookup_lt_Some in Hj. unfold rt_used in Hj. rewrite length_take in Hj. lia. }
    assert (Hu' : forall s0, rt_used (set_rtable (<[j' := e]> (rtable s)) s0) =
      take (Z.to_nat (rtable_inptr s0)) (<[j' := e]> (rtable s))) by done.
    split; [|right; split; [done|]].
    + split; [simpl; by rewrite length_insert|split; [exact Hin|]].
      rewrite Hu', take_insert_in by done. by apply Forall_insert.
    + unfold rt_lookup. rewrite Hu', take_insert_in by done. split; [by rewrite Hins|].
      intros a m i' Hne. by rewrite (find_insert_other _ _ _ x) by (done || by eapply route_eq_other).
  - destruct (Z.leb_spec (Z.of_nat CSP_RTABLE_SIZE) (rtable_inptr s)).
    + eexists _, _. split; [reflexivity|]. split; [done|]. left.
      split_and!; [done|done|lia|]. unfold rt_lookup. by rewrite Hf.
    + eexists _, _. split; [reflexivity|]. simpl.
      set (s' := set_rtable _ _).
      assert (Hused : rt_used s' = rt_used s ++ [e]).
      { unfold rt_used, s'. simpl. replace (Z.to_nat (rtable_inptr s + 1)) with (S (Z.to_nat (rtable_inptr s))) by lia.
        apply take_insert_end. rewrite Hlen. lia. }
      split; [split_and!|right; split; [done|]].
      * simpl. by rewrite length_insert.
      * simpl. lia.
      * simpl. lia.
      * rewrite Hused. apply Forall_app_2; [done|]. by constructor.
      * exact (rt_lookup_append _ _ _ _ _ _ Hused Hf Hek).
Qed.

(** ** Witnesses *)

Definition routed_node : node :=
  set_rtable_inptr 2 (set_rtable (mkRoute 0 0 65535 (Some 1%nat) :: mkRoute 8192 2 3 (Some 2%nat) ::
    replicate 8 route_zero) boot).

Lemma routed_node_ok : rtable_ok routed_node.
Proof.
  split; [reflexivity|]. split; [vm_compute; split; discriminate|].
  repeat constructor; vm_compute; (discriminate || reflexivity || (split; discriminate)).
Qed.

Lemma find_route_longest_prefix_witness :
  exists res, csp_rtable_find_route 9000 routed_node = Ret res routed_node /\ res = Some 1%nat.
Proof.
  destruct (find_route_longest_prefix routed_node 9000 routed_node_ok) as (res & H & _); [lia|].
  exists res. split; [exact H|]. injection H as <-. reflexivity.
Defined.

Lemma rtable_set_spec_witness :
  exists r s', csp_rtable_set 8192 2 (Some 2%nat) 77 routed_node = Ret r s' /\ rtable_ok s' /\
    rt_lookup s' 8192 2 (Some 2%nat) = Some 77.
Proof.
  destruct (rtable_set_spec routed_node 8192 2 (Some 2%nat) 77 routed_node_ok) as (r & s' & H & Hok & _); [lia|].
  exists r, s'. split; [exact H|]. split; [exact Hok|]. injection H as <- <-. reflexivity.
Defined.
