(* ===== verification/Qfifo.v ===== *)
(** * Qfifo: the router input queue, deduplication and the promiscuous tap
    ([src/csp_qfifo.c], [src/csp_dedup.c], [src/csp_promisc.c]) *)

From S2P Require Import Prelude State Monad Id Buffer Crc32.

(** ** Router input queue *)

Definition csp_qfifo_init : M unit := modify (set_qfifo (q_create CSP_QFIFO_LEN)).

Section Qfifo.
Context `{Platform}.

(** [csp_qfifo_read]: waits when the queue is empty; [None] is a timeout. *)
Definition csp_qfifo_read : M (option (option nat * option nat)) :=
  q ← gets qfifo;
  match q_dequeue q with
  | Some (x, q') => modify (set_qfifo q') ;; mret (Some x)
  | None =>
      yield ;;
      q ← gets qfifo;
      match q_dequeue q with
      | Some (x, q') => modify (set_qfifo q') ;; mret (Some x)
      | None => mret None
      end
  end.

End Qfifo.

(** [csp_qfifo_write]: a full queue drops and frees the packet. *)
Definition csp_qfifo_write (packet iface : option nat) (isr : bool) : M unit :=
  match packet with
  | None => set_errno CSP_DBG_ERR_INVALID_POINTER
  | Some p =>
      match iface with
      | None =>
          set_errno CSP_DBG_ERR_INVALID_POINTER ;;
          (if isr then csp_buffer_free_isr packet else csp_buffer_free packet)
      | Some i =>
          q ← gets qfifo;
          match q_enqueue (Some i, Some p) q with
          | Some q' => modify (set_qfifo q')
          | None =>
              incr_conn_ovf ;;
              incr_tx_error i ;;
              (if isr then csp_buffer_free_isr packet else csp_buffer_free packet)
          end
      end
  end.

Definition csp_qfifo_wake_up : M unit :=
  q ← gets qfifo;
  match q_enqueue (None, None) q with
  | Some q' => modify (set_qfifo q')
  | None => mret tt
  end.

(** ** Deduplication *)

Definition CSP_DEDUP_COUNT : Z := 16.
Definition CSP_DEDUP_WINDOW_MS : Z := 100.

(** The search from the newest entry backwards, until an entry is too old or
    the ring is exhausted. *)
Fixpoint dedup_search (fuel : nat) (arr ts : list Z) (inp crc time i : Z) : option bool :=
  match fuel with
  | O => None
  | S fuel' =>
      if i =? inp then Some false
      else if u32 (nth (Z.to_nat i) ts 0 + CSP_DEDUP_WINDOW_MS) <? time then Some false
      else if crc =? nth (Z.to_nat i) arr 0 then Some true
      else dedup_search fuel' arr ts inp crc time (Z.land (u32 (i - 1)) (CSP_DEDUP_COUNT - 1))
  end.

Section Dedup.
Context `{Platform}.

Definition csp_dedup_is_duplicate (p : nat) : M bool :=
  csp_id_prepend p ;;
  k ← get_pkt p;
  frame ← read_frame p (frame_length k);
  let crc := csp_crc32_memory frame in
  time ← csp_get_ms;
  s ← gets id;
  let inp := dedup_in s in
  dup ← of_option (dedup_search (S (Z.to_nat CSP_DEDUP_COUNT)) (dedup_array s) (dedup_timestamp s)
                     inp crc time (u32 (inp - 1) mod CSP_DEDUP_COUNT));
  if dup : bool then mret true else
  modify (fun s =>
    set_dedup_in ((inp + 1) mod CSP_DEDUP_COUNT)
      (set_dedup_timestamp (<[Z.to_nat inp := time]> (dedup_timestamp s))
        (set_dedup_array (<[Z.to_nat inp := crc]> (dedup_array s)) s))) ;;
  mret false.

(** ** Promiscuous mode *)

(** [csp_promisc_enable]: creating the queue does not fail here. *)
Definition csp_promisc_enable : M Z :=
  q ← gets promisc_queue;
  match q with
  | Some _ => modify (set_promisc_enabled 1) ;; mret CSP_ERR_USED
  | None =>
      modify (set_promisc_queue (Some (q_create CSP_CONN_RXQUEUE_LEN))) ;;
      modify (set_promisc_enabled 1) ;;
      mret CSP_ERR_NONE
  end.

Definition csp_promisc_disable : M unit := modify (set_promisc_enabled 0).

(** [csp_promisc_read]; a zero timeout polls.  During the wait the others run;
    when nothing has come at its end the call times out, or still waits. *)
Definition csp_promisc_read (timeout : Z) : M (option nat) :=
  q ← gets promisc_queue;
  match q with
  | None => mret None
  | Some q =>
      match q_dequeue q with
      | Some (p, q') => modify (set_promisc_queue (Some q')) ;; mret (Some p)
      | None =>
          if timeout =? 0 then mret None else
          yield ;;
          q ← gets promisc_queue;
          match q with
          | None => mret None
          | Some q =>
              match q_dequeue q with
              | Some (p, q') => modify (set_promisc_queue (Some q')) ;; mret (Some p)
              | None => timed_out timeout None
              end
          end
      end
  end.

End Dedup.

Definition csp_promisc_add (p : nat) : M unit :=
  en ← gets promisc_enabled;
  if en =? 0 then mret tt else
  q ← gets promisc_queue;
  match q with
  | None => mret tt
  | Some _ =>
      packet_copy ← csp_buffer_clone (Some p);
      match packet_copy with
      | None => mret tt
      | Some c =>
          q ← gets promisc_queue;
          match q with
          | None => mret tt
          | Some q =>
              match q_enqueue c q with
              | Some q' => modify (set_promisc_queue (Some q'))
              | None => incr_conn_ovf ;; csp_buffer_free (Some c)
              end
          end
      end
  end.

(** ** What deduplication decides

    The reference: the entries from newest to oldest, cut at the first one that
    is older than the window. *)

Definition dedup_slots (inp : Z) (k n : nat) : list Z :=
  map (fun j => (inp - 1 - Z.of_nat j) mod CSP_DEDUP_COUNT) (seq k n).

Definition dedup_stale (ts : list Z) (time i : Z) : bool :=
  u32 (nth (Z.to_nat i) ts 0 + CSP_DEDUP_WINDOW_MS) <? time.

Fixpoint dedup_recent (ts : list Z) (time : Z) (slots : list Z) : list Z :=
  match slots with
  | [] => []
  | i :: slots' => if dedup_stale ts time i then [] else i :: dedup_recent ts time slots'
  end.

Definition dedup_ref (arr ts : list Z) (inp crc time : Z) : bool :=
  existsb (fun i => crc =? nth (Z.to_nat i) arr 0) (dedup_recent ts time (dedup_slots inp 0 15)).

(** The ring is walked backwards; slot [inp] itself ends the walk. *)
Lemma dedup_search_walk arr ts inp crc time n k fuel : 0 <= inp < 16 -> (k + n = 15)%nat -> (n < fuel)%nat ->
  dedup_search fuel arr ts inp crc time ((inp - 1 - Z.of_nat k) mod CSP_DEDUP_COUNT) =
  Some (existsb (fun i => crc =? nth (Z.to_nat i) arr 0) (dedup_recent ts time (dedup_slots inp k n))).
Proof.
  unfold CSP_DEDUP_COUNT. intros Hi. revert k fuel. induction n as [|n IH]; intros k fuel Hk Hf; (destruct fuel; [lia|]); simpl.
  - replace k with 15%nat by lia.
    replace ((inp - 1 - Z.of_nat 15) mod 16) with inp by zlia. by rewrite Z.eqb_refl.
  - set (i := (inp - 1 - Z.of_nat k) mod 16).
    assert (Hne : i <> inp) by (unfold i; zlia). rewrite (proj2 (Z.eqb_neq i inp)) by done.
    unfold dedup_stale. unfold CSP_DEDUP_COUNT. fold i.
    destruct (u32 _ <? time); [done|]. simpl. fold i.
    destruct (crc =? nth (Z.to_nat i) arr 0); [done|]. simpl.
    replace (Z.land (u32 (i - 1)) (16 - 1)) with ((inp - 1 - Z.of_nat (S k)) mod 16); [apply IH; lia|].
    change (16 - 1) with (2 ^ 4 - 1). rewrite land_hostmask by lia. unfold u32, i. zlia.
Qed.

Lemma dedup_search_ref arr ts inp crc time : 0 <= inp < 16 ->
  dedup_search (S (Z.to_nat CSP_DEDUP_COUNT)) arr ts inp crc time (u32 (inp - 1) mod CSP_DEDUP_COUNT) =
  Some (dedup_ref arr ts inp crc time).
Proof.
  intros Hi. replace (u32 (inp - 1) mod CSP_DEDUP_COUNT) with ((inp - 1 - Z.of_nat 0) mod CSP_DEDUP_COUNT).
  - apply (dedup_search_walk arr ts inp crc time 15 0); [done|done|]. unfold CSP_DEDUP_COUNT. lia.
  - unfold u32, CSP_DEDUP_COUNT. zlia.
Qed.

(** The frame of a packet: header and data. *)
Definition frame_bytes (s : node) (k : csp_packet) : list Z :=
  enc s false (pkt_id k) ++ take (Z.to_nat (pkt_length k)) (drop 8 (pkt_mem k)).

Definition packet_ok (k : csp_packet) : Prop :=
  zlen (pkt_mem k) = CSP_PACKET_PADDING_BYTES + CSP_BUFFER_SIZE /\ 0 <= pkt_length k <= CSP_BUFFER_SIZE.

Lemma frame_read p k s : pkt_at p s = Some k -> packet_ok k ->
  exists m, let k1 := framed p (hdr_size s) m k in
    csp_id_prepend p s = Ret tt (put_pkt p k1 s) /\ packet_ok k1 /\
    frame_bytes s k1 = frame_bytes s k /\
    read_frame p (frame_length k1) (put_pkt p k1 s) = Ret (frame_bytes s k) (put_pkt p k1 s).
Proof.
  unfold packet_ok, CSP_PACKET_PADDING_BYTES, CSP_BUFFER_SIZE. intros Hk [Hm Hl].
  pose proof (hdr_size_bound s) as Hh. pose proof (length_enc s false (pkt_id k)) as He.
  destruct (mem_write_ok (pkt_mem k) (8 + - hdr_size s) (enc s false (pkt_id k))) as [m Hw]; [lia..|].
  exists m. simpl.
  assert (Hd : mem_read m 8 (pkt_length k) = mem_read (pkt_mem k) 8 (pkt_length k))
    by (eapply mem_read_write_after; [exact Hw|lia|lia]).
  assert (Hd' : take (Z.to_nat (pkt_length k)) (drop 8 m) = take (Z.to_nat (pkt_length k)) (drop 8 (pkt_mem k))).
  { pose proof (mem_write_length _ _ _ _ Hw). rewrite !mem_read_eq in Hd by lia. by injection Hd. }
  split; [by apply (prepend_at false)|]. rewrite (mem_write_length _ _ _ _ Hw). split; [done|]. split.
  { unfold frame_bytes. simpl. by rewrite Hd'. }
  unfold read_frame. erewrite bind_ret by (eapply get_pkt_at, pkt_at_put; exact Hk).
  eapply read_mem_at; [by eapply pkt_at_put|]. simpl. rewrite u16_small by lia.
  replace (pkt_length k + hdr_size s) with (hdr_size s + pkt_length k) by lia.
  unfold frame_bytes. apply mem_read_app; [rewrite <- He at 2; by eapply mem_read_write|].
  unfold CSP_PACKET_PADDING_BYTES. replace (8 + - hdr_size s + hdr_size s) with 8 by lia.
  pose proof (mem_write_length _ _ _ _ Hw). rewrite mem_read_eq by lia. by rewrite <- Hd'.
Qed.

Section DedupProps.
Context `{Platform}.

(** The ring with a new entry. *)
Definition dedup_record (crc time : Z) (s : node) : node :=
  let inp := dedup_in s in
  set_dedup_in ((inp + 1) mod CSP_DEDUP_COUNT)
    (set_dedup_timestamp (<[Z.to_nat inp := time]> (dedup_timestamp s))
      (set_dedup_array (<[Z.to_nat inp := crc]> (dedup_array s)) s)).

Lemma is_duplicate_run p k s : pkt_at p s = Some k -> packet_ok k -> 0 <= dedup_in s < 16 ->
  exists m, let s1 := set_tick (S (tick s)) (put_pkt p (framed p (hdr_size s) m k) s) in
    let crc := csp_crc32_memory (frame_bytes s k) in
    let time := u32 (plat_ms (tick s)) in
    packet_ok (framed p (hdr_size s) m k) /\
    frame_bytes s (framed p (hdr_size s) m k) = frame_bytes s k /\
    csp_dedup_is_duplicate p s =
      if dedup_ref (dedup_array s) (dedup_timestamp s) (dedup_in s) crc time
      then Ret true s1 else Ret false (dedup_record crc time s1).
Proof.
  intros Hk Hok Hi. destruct (frame_read p k s Hk Hok) as (m & Hp & Hok1 & Hf & Hr). exists m.
  split; [done|]. split; [done|]. cbv zeta. unfold csp_dedup_is_duplicate.
  erewrite bind_ret by exact Hp. erewrite bind_ret by (eapply get_pkt_at, pkt_at_put; exact Hk).
  erewrite bind_ret by exact Hr. erewrite bind_ret by reflexivity. erewrite bind_ret by reflexivity.
  unfold id. cbv zeta. simpl dedup_in. simpl dedup_array. simpl dedup_timestamp.
  rewrite dedup_search_ref by done. erewrite bind_ret by reflexivity. simpl tick.
  by destruct (dedup_ref _ _ _ _ _).
Qed.

(** [csp_dedup_is_duplicate] decides exactly what the reference says: the
    packet is a duplicate when the checksum of its frame (header and data) is
    among the recorded ones newer than the first entry that has left the
    window.  Otherwise it becomes the newest entry.  The walk round the ring
    always ends. *)
Theorem dedup_decides p k s : pkt_at p s = Some k -> packet_ok k -> 0 <= dedup_in s < 16 ->
  exists b s', csp_dedup_is_duplicate p s = Ret b s' /\
    b = dedup_ref (dedup_array s) (dedup_timestamp s) (dedup_in s)
          (csp_crc32_memory (frame_bytes s k)) (u32 (plat_ms (tick s))) /\
    0 <= dedup_in s' < 16 /\
    (b = true -> dedup_array s' = dedup_array s /\ dedup_timestamp s' = dedup_timestamp s).
Proof.
  intros Hk Hok Hi. destruct (is_duplicate_run p k s Hk Hok Hi) as (m & _ & _ & Hrun). rewrite Hrun.
  destruct (dedup_ref _ _ _ _ _) eqn:E; eexists _, _; (split; [reflexivity|]); simpl.
  - split_and!; [done|lia|lia|done].
  - split; [done|]. split; [|done]. unfold CSP_DEDUP_COUNT. apply Z.mod_pos_bound. lia.
Qed.

(** The newest entry is looked at first. *)
Lemma dedup_ref_newest arr ts crc time inp t :
  0 <= inp < 16 -> length arr = 16%nat -> length ts = 16%nat ->
  time <= u32 (t + CSP_DEDUP_WINDOW_MS) ->
  dedup_ref (<[Z.to_nat inp := crc]> arr) (<[Z.to_nat inp := t]> ts) ((inp + 1) mod CSP_DEDUP_COUNT) crc time = true.
Proof.
  intros Hi Ha Ht Hw. unfold dedup_ref, dedup_slots, CSP_DEDUP_COUNT. cbn [seq map dedup_recent].
  replace (((inp + 1) mod 16 - 1 - Z.of_nat 0) mod 16) with inp by zlia.
  unfold dedup_stale at 1. rewrite !nth_lookup, list_lookup_insert_eq by lia. simpl.
  rewrite (proj2 (Z.ltb_ge _ _)) by done. simpl.
  rewrite nth_lookup, list_lookup_insert_eq by lia. simpl. by rewrite Z.eqb_refl.
Qed.

(** A packet that was let through and arrives again within the window is
    recognised: a second call on it returns true. *)
Theorem dedup_detects_repeat p k s s' :
  pkt_at p s = Some k -> packet_ok k -> 0 <= dedup_in s < 16 ->
  length (dedup_array s) = 16%nat -> length (dedup_timestamp s) = 16%nat ->
  csp_dedup_is_duplicate p s = Ret false s' ->
  u32 (plat_ms (S (tick s))) <= u32 (u32 (plat_ms (tick s)) + CSP_DEDUP_WINDOW_MS) ->
  exists s'', csp_dedup_is_duplicate p s' = Ret true s''.
Proof.
  intros Hk Hok Hi Ha Ht Hrun Hw. destruct (is_duplicate_run p k s Hk Hok Hi) as (m & Hok1 & Hf & Hrun1).
  rewrite Hrun1 in Hrun. destruct (dedup_ref _ _ _ _ _); [done|]. injection Hrun as <-.
  set (k1 := framed p (hdr_size s) m k) in *.
  set (s1 := dedup_record _ _ _).
  destruct (is_duplicate_run p k1 s1) as (m' & _ & _ & Hrun2).
  - by eapply pkt_at_put.
  - done.
  - unfold s1. simpl. unfold CSP_DEDUP_COUNT. apply Z.mod_pos_bound. lia.
  - rewrite Hrun2. change (frame_bytes s1 k1) with (frame_bytes s k1). rewrite Hf.
    unfold s1 at 1 2 3 4. simpl. rewrite dedup_ref_newest by done. by eexists.
Qed.

End DedupProps.

(** ** Witnesses *)

(** A platform whose clock advances 10 ms per reading. *)
Definition clock_platform : Platform := {|
  plat_ms n := Z.of_nat n * 10;
  plat_rand z := z;
  plat_yield _ s := s;
  plat_nexthop _ _ _ _ _ := mret CSP_ERR_NONE;
  plat_callback _ _ := mret tt;
  plat_overflow := i32;
  CSP_USE_RTABLE := true
|}.

Lemma blank_packet_ok n : 0 <= n <= CSP_BUFFER_SIZE -> packet_ok (set_pkt_length n blank_packet).
Proof. intros Hn. split; [reflexivity|exact Hn]. Qed.

Lemma dedup_decides_witness :
  exists b s', csp_dedup_is_duplicate (H := clock_platform) 0 (packet_node (set_pkt_length 3 blank_packet)) = Ret b s' /\
    b = false.
Proof.
  destruct (dedup_decides (H := clock_platform) 0 (set_pkt_length 3 blank_packet)
              (packet_node (set_pkt_length 3 blank_packet))) as (b & s' & Hrun & Hb & _).
  - reflexivity.
  - apply blank_packet_ok. unfold CSP_BUFFER_SIZE. lia.
  - change (0 <= 0 < 16). lia.
  - exists b, s'. split; [exact Hrun|]. rewrite Hb. vm_compute. reflexivity.
Defined.

Lemma dedup_detects_repeat_witness :
  exists s' s'', csp_dedup_is_duplicate (H := clock_platform) 0 (packet_node (set_pkt_length 3 blank_packet)) = Ret false s' /\
    csp_dedup_is_duplicate (H := clock_platform) 0 s' = Ret true s''.
Proof.
  eexists. edestruct (dedup_detects_repeat (H := clock_platform) 0 (set_pkt_length 3 blank_packet)
              (packet_node (set_pkt_length 3 blank_packet))) as (s'' & Hrun).
  - reflexivity.
  - apply blank_packet_ok. unfold CSP_BUFFER_SIZE. lia.
  - change (0 <= 0 < 16). lia.
  - reflexivity.
  - reflexivity.
  - vm_compute. reflexivity.
  - vm_compute. discriminate.
  - exists s''. split; [vm_compute; reflexivity|exact Hrun].
Defined.
