(* ===== verification/Kiss.v ===== *)
(** * Kiss: the KISS serial interface ([src/interfaces/csp_if_kiss.c])

    Framing with escapes on the transmit side, the byte-wise receive state
    machine, and the round trip between two nodes. *)

From S2P Require Import Prelude State Monad Id Buffer Crc32 Iflist Qfifo.

Definition FEND : Z := 0xC0.
Definition FESC : Z := 0xDB.
Definition TFEND : Z := 0xDC.
Definition TFESC : Z := 0xDD.
Definition TNC_DATA : Z := 0x00.

(** The tag of [csp_kiss_tx] as a nexthop function. *)
Definition KISS_NEXTHOP : nat := 1.

(** [iface->interface_data] *)
Definition get_kiss (i : nat) : M csp_kiss := fun s =>
  match kiss s !! i with Some (Some d) => Ret d s | _ => Undef end.
Definition mod_kiss (i : nat) (f : csp_kiss -> csp_kiss) : M unit := fun s =>
  match kiss s !! i with Some (Some d) => Ret tt (set_kiss (<[i := Some (f d)]> (kiss s)) s) | _ => Undef end.

(** [ifdata->tx_func(driver, data, len)] *)
Definition kiss_write (i : nat) (bs : list Z) : M unit := modify (fun s => set_wire (WireBytes i 0 bs :: wire s) s).

(** ** Transmit *)

(** One byte of the frame. *)
Definition kiss_tx_byte (i : nat) (b : Z) : M unit :=
  if b =? FEND then kiss_write i [FESC; TFEND]
  else if b =? FESC then kiss_write i [FESC; TFESC]
  else kiss_write i [b].

Fixpoint kiss_tx_bytes (i : nat) (data : list Z) : M unit :=
  match data with
  | [] => mret tt
  | b :: data' => kiss_tx_byte i b ;; kiss_tx_bytes i data'
  end.

(** [csp_kiss_tx]; the result of [csp_crc32_append] is not looked at. *)
Definition csp_kiss_tx (iface : nat) (via : Z) (packet : nat) (from_me : bool) : M Z :=
  _ ← get_kiss iface;
  _ ← csp_crc32_append packet;
  csp_id_prepend packet ;;
  kiss_write iface [FEND; TNC_DATA] ;;
  k ← get_pkt packet;
  data ← read_frame packet (frame_length k);
  kiss_tx_bytes iface data ;;
  kiss_write iface [FEND] ;;
  csp_buffer_free (Some packet) ;;
  mret CSP_ERR_NONE.

(** ** Receive *)

(** [&frame_begin[rx_length] >= &data[sizeof(data)]]; the two pointers must be
    into the same packet. *)
Definition kiss_overrun (d : csp_kiss) : M bool :=
  match rx_packet d with
  | None => mret false
  | Some p =>
      k ← get_pkt p;
      if Nat.eqb (frame_buf k) p then mret (CSP_BUFFER_SIZE <=? frame_off k + rx_length d) else undef
  end.

(** [rx_packet->frame_begin[rx_length++] = b] *)
Definition kiss_store (i : nat) (b : Z) : M unit :=
  d ← get_kiss i;
  p ← of_option (rx_packet d);
  k ← get_pkt p;
  write_mem (frame_buf k) (frame_off k + rx_length d) [b] ;;
  mod_kiss i (fun d => set_rx_length (u32 (rx_length d + 1)) d).

(** A start character: a packet is taken, unless one is at hand.  The branch for
    a NULL packet cannot run: [csp_buffer_get_always] does not return then. *)
Definition kiss_start (i : nat) (isr : bool) : M unit :=
  d ← get_kiss i;
  p ← (match rx_packet d with
       | Some p => mret p
       | None => if isr then csp_buffer_get_always_isr else csp_buffer_get_always
       end);
  mod_kiss i (set_rx_packet (Some p)) ;;
  _ ← csp_id_setup_rx p;
  mod_kiss i (fun d => set_rx_first true (set_rx_mode KISS_MODE_STARTED (set_rx_length 0 d))).

(** The end character of a frame with data. *)
Definition kiss_accept (i p : nat) (isr : bool) : M unit :=
  d ← get_kiss i;
  mod_pkt p (set_frame_length (u16 (rx_length d))) ;;
  r ← csp_id_strip p;
  if r <? 0 then incr_frame i ;; mod_kiss i (set_rx_mode KISS_MODE_NOT_STARTED) else
  r ← csp_crc32_verify p;
  if negb (r =? CSP_ERR_NONE) then incr_frame i ;; mod_kiss i (set_rx_mode KISS_MODE_NOT_STARTED) else
  csp_qfifo_write (Some p) (Some i) isr ;;
  mod_kiss i (fun d => set_rx_mode KISS_MODE_NOT_STARTED (set_rx_packet None d)).

(** The switch of [csp_kiss_rx]. *)
Definition kiss_switch (i : nat) (isr : bool) (b : Z) : M unit :=
  d ← get_kiss i;
  match rx_mode d with
  | KISS_MODE_NOT_STARTED => if negb (b =? FEND) then mret tt else kiss_start i isr
  | KISS_MODE_STARTED =>
      if b =? FESC then mod_kiss i (set_rx_mode KISS_MODE_ESCAPED)
      else if b =? FEND then
        if 0 <? rx_length d then p ← of_option (rx_packet d); kiss_accept i p isr else mret tt
      else if rx_first d then mod_kiss i (set_rx_first false)
      else kiss_store i b
  | KISS_MODE_ESCAPED =>
      when (b =? TFESC) (kiss_store i FESC) ;;
      when (b =? TFEND) (kiss_store i FEND) ;;
      mod_kiss i (set_rx_mode KISS_MODE_STARTED)
  | KISS_MODE_SKIP_FRAME => when (b =? FEND) (mod_kiss i (set_rx_mode KISS_MODE_NOT_STARTED))
  end.

Definition kiss_rx_byte (i : nat) (isr : bool) (b : Z) : M unit :=
  d ← get_kiss i;
  over ← kiss_overrun d;
  when over
    (incr_rx_error i ;; mod_kiss i (fun d => set_rx_length 0 (set_rx_mode KISS_MODE_NOT_STARTED d))) ;;
  kiss_switch i isr b.

Fixpoint csp_kiss_rx (iface : nat) (buf : list Z) (isr : bool) : M unit :=
  match buf with
  | [] => mret tt
  | b :: buf' => kiss_rx_byte iface isr b ;; csp_kiss_rx iface buf' isr
  end.

(** [csp_kiss_add_interface] *)
Definition csp_kiss_add_interface (iface : option nat) : M Z :=
  match iface with
  | None => mret CSP_ERR_INVAL
  | Some i =>
      x ← get_iface i;
      s ← gets id;
      match if_name x, mjoin (kiss s !! i) with
      | Some _, Some d =>
          match tx_func d with
          | None => mret CSP_ERR_INVAL
          | Some _ =>
              mod_kiss i (fun d => set_rx_packet None (set_rx_first false (set_rx_mode KISS_MODE_NOT_STARTED (set_rx_length 0 d)))) ;;
              mod_iface i (set_if_nexthop KISS_NEXTHOP) ;;
              csp_iflist_add iface ;;
              mret CSP_ERR_NONE
          end
      | _, _ => mret CSP_ERR_INVAL
      end
  end.

(** ** Evaluating the receiver *)

Definition at_kiss (i : nat) (d : csp_kiss) (s : node) : node := set_kiss (<[i := Some d]> (kiss s)) s.

Lemma get_kiss_at i d s : kiss s !! i = Some (Some d) -> get_kiss i s = Ret d s.
Proof. intros Hd. unfold get_kiss. by rewrite Hd. Qed.

Lemma mod_kiss_at i f d s : kiss s !! i = Some (Some d) -> mod_kiss i f s = Ret tt (at_kiss i (f d) s).
Proof. intros Hd. unfold mod_kiss. by rewrite Hd. Qed.

Lemma kiss_at_kiss i d d0 s : kiss s !! i = Some d0 -> kiss (at_kiss i d s) !! i = Some (Some d).
Proof. intros Hd. unfold at_kiss. simpl. apply list_lookup_insert_eq. by eapply lookup_lt_Some. Qed.

Lemma at_kiss_twice i d d' s : at_kiss i d (at_kiss i d' s) = at_kiss i d s.
Proof. unfold at_kiss. simpl. rewrite list_insert_insert_eq. reflexivity. Qed.

Lemma put_at_kiss p k i d s : put_pkt p k (at_kiss i d s) = at_kiss i d (put_pkt p k s).
Proof. reflexivity. Qed.

Lemma kiss_rx_app i a b isr s s' : csp_kiss_rx i a isr s = Ret tt s' -> csp_kiss_rx i (a ++ b) isr s = csp_kiss_rx i b isr s'.
Proof.
  revert s. induction a as [|x a IH]; intros s; simpl; [by intros [= ->]|]. intros H.
  apply bind_Ret in H as ([] & s1 & H1 & H2). erewrite bind_ret by exact H1. by apply IH.
Qed.

(** The receiver is inside a frame, [n] bytes of it stored in packet [p]. *)
Record receiving (i p : nat) (n : Z) (d : csp_kiss) (k : csp_packet) (s : node) : Prop := {
  rcv_kiss : kiss s !! i = Some (Some d);
  rcv_mode : rx_mode d = KISS_MODE_STARTED;
  rcv_first : rx_first d = false;
  rcv_packet : rx_packet d = Some p;
  rcv_length : rx_length d = n;
  rcv_pkt : pkt_at p s = Some k;
  rcv_frame : frame_buf k = p
}.

Lemma store_run i b d p k m s : kiss s !! i = Some (Some d) -> rx_packet d = Some p -> pkt_at p s = Some k ->
  frame_buf k = p -> 0 <= rx_length d < 1000 ->
  mem_write (pkt_mem k) (CSP_PACKET_PADDING_BYTES + (frame_off k + rx_length d)) [b] = Some m ->
  kiss_store i b s = Ret tt (at_kiss i (set_rx_length (rx_length d + 1) d) (put_pkt p (set_pkt_mem m k) s)).
Proof.
  intros Hd Hp Hk Hf Hn Hw. unfold kiss_store. erewrite bind_ret by (by apply get_kiss_at). rewrite Hp.
  erewrite bind_ret by reflexivity. erewrite bind_ret by (by apply get_pkt_at). rewrite Hf.
  erewrite bind_ret by (by eapply write_mem_at). erewrite mod_kiss_at; [|exact Hd].
  by rewrite u32_small by lia.
Qed.

(** A byte before which the packet is not full. *)
Lemma rx_byte_run i isr b d p k s : kiss s !! i = Some (Some d) -> rx_packet d = Some p -> pkt_at p s = Some k ->
  frame_buf k = p -> frame_off k + rx_length d < CSP_BUFFER_SIZE ->
  kiss_rx_byte i isr b s = kiss_switch i isr b s.
Proof.
  intros Hd Hp Hk Hf Hn. unfold kiss_rx_byte. erewrite bind_ret by (by apply get_kiss_at).
  unfold kiss_overrun. rewrite Hp. erewrite bind_ret; [|erewrite bind_ret by (by apply get_pkt_at); rewrite Hf, Nat.eqb_refl;
    rewrite (proj2 (Z.leb_gt _ _)) by lia; reflexivity].
  by erewrite bind_ret by reflexivity.
Qed.

(** ** The frame on the wire *)

Definition kiss_escape_byte (b : Z) : list Z :=
  if b =? FEND then [FESC; TFEND] else if b =? FESC then [FESC; TFESC] else [b].
Definition kiss_escape (data : list Z) : list Z := flat_map kiss_escape_byte data.
Definition kiss_encode (frame : list Z) : list Z := [FEND; TNC_DATA] ++ kiss_escape frame ++ [FEND].

Lemma rx_data_byte i isr b n d p k m s : receiving i p n d k s -> 0 <= n < 1000 -> frame_off k + n < CSP_BUFFER_SIZE ->
  mem_write (pkt_mem k) (CSP_PACKET_PADDING_BYTES + (frame_off k + n)) [b] = Some m ->
  csp_kiss_rx i (kiss_escape_byte b) isr s =
    Ret tt (at_kiss i (set_rx_length (n + 1) d) (put_pkt p (set_pkt_mem m k) s)).
Proof.
  intros [Hd Hm Hf Hp Hl Hk Hb] Hn Hroom Hw. rewrite <- Hl in *.
  assert (Hesc : forall c e, (c = FEND /\ e = TFEND \/ c = FESC /\ e = TFESC) -> b = c ->
    csp_kiss_rx i [FESC; e] isr s = Ret tt (at_kiss i (set_rx_length (rx_length d + 1) d) (put_pkt p (set_pkt_mem m k) s))).
  { intros c e Hce ->. cbn [csp_kiss_rx]. set (d1 := set_rx_mode KISS_MODE_ESCAPED d).
    assert (E1 : kiss_rx_byte i isr FESC s = Ret tt (at_kiss i d1 s)).
    { erewrite rx_byte_run by (try eassumption; lia). unfold kiss_switch. erewrite bind_ret by (by apply get_kiss_at). rewrite Hm, Z.eqb_refl.
      by erewrite mod_kiss_at by exact Hd. }
    erewrite bind_ret by exact E1. pose proof (kiss_at_kiss i d1 _ s Hd) as Hd1.
    erewrite bind_ret; [reflexivity|]. erewrite rx_byte_run by (try exact Hd1; try eassumption; lia).
    unfold kiss_switch. erewrite bind_ret by (by apply get_kiss_at).
    assert (Es : kiss_store i c (at_kiss i d1 s) = Ret tt (at_kiss i (set_rx_length (rx_length d + 1) d1) (put_pkt p (set_pkt_mem m k) s))).
    { erewrite store_run by (try exact Hd1; try eassumption; lia). rewrite put_at_kiss, at_kiss_twice. reflexivity. }
    assert (Hfin : mod_kiss i (set_rx_mode KISS_MODE_STARTED) (at_kiss i (set_rx_length (rx_length d + 1) d1) (put_pkt p (set_pkt_mem m k) s))
      = Ret tt (at_kiss i (set_rx_length (rx_length d + 1) d) (put_pkt p (set_pkt_mem m k) s))).
    { erewrite mod_kiss_at by (eapply kiss_at_kiss; exact Hd). rewrite at_kiss_twice. do 2 f_equal.
      destruct d. simpl in *. by subst. }
    change (rx_mode d1) with KISS_MODE_ESCAPED. cbv iota.
    destruct Hce as [[-> ->]|[-> ->]]; cbn [Z.eqb].
    - erewrite bind_ret by reflexivity. erewrite bind_ret by exact Es. exact Hfin.
    - erewrite bind_ret by exact Es. erewrite bind_ret by reflexivity. exact Hfin. }
  unfold kiss_escape_byte. destruct (Z.eqb_spec b FEND) as [E|E]; [apply (Hesc FEND); auto|].
  destruct (Z.eqb_spec b FESC) as [E2|E2]; [apply (Hesc FESC); auto|]. cbn [csp_kiss_rx].
  erewrite bind_ret; [reflexivity|]. erewrite rx_byte_run by (try eassumption; lia).
  unfold kiss_switch. erewrite bind_ret by (by apply get_kiss_at). rewrite Hm, (proj2 (Z.eqb_neq _ _)) by done.
  rewrite (proj2 (Z.eqb_neq _ _)), Hf by done. by eapply store_run.
Qed.

Lemma at_kiss_id i d s : kiss s !! i = Some (Some d) -> at_kiss i d s = s.
Proof. intros Hd. unfold at_kiss. rewrite list_insert_id by done. by destruct s. Qed.

Lemma put_pkt_id p k s : pkt_at p s = Some k -> put_pkt p k s = s.
Proof.
  intros Hk. unfold put_pkt, pkt_at in *. replace (alter _ p (pool s)) with (pool s); [by destruct s|].
  apply list_eq. intros j. destruct (decide (p = j)) as [<-|].
  - rewrite list_lookup_alter_eq. destruct (pool s !! p) as [[]|]; simplify_eq/=; done.
  - by rewrite list_lookup_alter_ne.
Qed.

(** The data of a frame. *)
Lemma rx_data i isr p bs : forall n d k m s, receiving i p n d k s -> 0 <= n -> n + zlen bs < 1000 ->
  frame_off k + n + zlen bs <= CSP_BUFFER_SIZE ->
  mem_write (pkt_mem k) (CSP_PACKET_PADDING_BYTES + (frame_off k + n)) bs = Some m ->
  csp_kiss_rx i (kiss_escape bs) isr s =
    Ret tt (at_kiss i (set_rx_length (n + zlen bs) d) (put_pkt p (set_pkt_mem m k) s)).
Proof.
  induction bs as [|b bs IH]; intros n d k m s Hr Hn Hb Hroom Hw.
  - apply mem_write_nil in Hw as ->. destruct Hr. simpl. unfold mret, M_ret. rewrite Z.add_0_r.
    replace (set_pkt_mem (pkt_mem k) k) with k by (by destruct k). rewrite put_pkt_id by done.
    replace (set_rx_length n d) with d by (destruct d; simpl in *; by subst). by rewrite at_kiss_id.
  - cbn [length] in *. apply mem_write_cons in Hw as (m1 & Hw1 & Hw2). cbn [kiss_escape flat_map].
    erewrite kiss_rx_app by (eapply rx_data_byte; [exact Hr|lia|lia|exact Hw1]).
    fold (kiss_escape bs). pose proof Hr as [Hd Hm Hf Hp Hl Hk Hfb].
    rewrite (IH (n + 1) (set_rx_length (n + 1) d) (set_pkt_mem m1 k) m).
    + rewrite put_at_kiss, at_kiss_twice, put_pkt_put. do 2 f_equal. destruct d. unfold set_rx_length. simpl. f_equal. lia.
    + constructor; simpl; try done; [by eapply kiss_at_kiss|]. by eapply pkt_at_put.
    + lia.
    + lia.
    + simpl. lia.
    + simpl. replace (frame_off k + (n + 1)) with (frame_off k + n + 1) by lia. by rewrite Z.add_assoc.
Qed.

(** The end of a frame that fits. *)
Lemma rx_end i isr p d k s id data q' :
  receiving i p (hdr_size s + zlen data + 4) d k s -> frame_off k = - hdr_size s ->
  zlen (pkt_mem k) = CSP_PACKET_PADDING_BYTES + CSP_BUFFER_SIZE ->
  mem_read (pkt_mem k) (CSP_PACKET_PADDING_BYTES + - hdr_size s) (hdr_size s + zlen data + 4) =
    Some (enc s false id ++ data ++ crc_wire data) ->
  id_ok s id -> zlen data + 4 < CSP_BUFFER_SIZE -> q_enqueue (Some i, Some p) (qfifo s) = Some q' ->
  exists k', csp_kiss_rx i [FEND] isr s =
      Ret tt (at_kiss i (set_rx_mode KISS_MODE_NOT_STARTED (set_rx_packet None d)) (set_qfifo q' (put_pkt p k' s))) /\
    pkt_id k' = id /\ pkt_length k' = zlen data /\ mem_read (pkt_mem k') CSP_PACKET_PADDING_BYTES (zlen data) = Some data.
Proof.
  unfold CSP_PACKET_PADDING_BYTES, CSP_BUFFER_SIZE.
  intros [Hd Hm Hf Hp Hl Hk Hb] Hoff Hmem Hr Hid Hlen Hq. pose proof (hdr_size_bound s) as Hh.
  pose proof (length_enc s false id) as He. pose proof (length_crc_wire data) as Hc.
  set (h := hdr_size s) in *. set (k1 := set_frame_length (u16 (rx_length d)) k).
  assert (Hhdr : mem_read (pkt_mem k1) (8 + frame_off k1) h = Some (enc s false id)).
  { simpl. rewrite Hoff. rewrite <- (app_nil_l (enc s false id ++ _)) in Hr. apply mem_read_sub in Hr.
    cbn [length] in Hr. rewrite He, Z.add_0_r in Hr. exact Hr. }
  set (k2 := stripped h id k1). assert (Hlen2 : pkt_length k2 = zlen data + 4).
  { simpl. rewrite Hl. rewrite (u16_small (_ + _)) by lia. rewrite u16_small; lia. }
  assert (Hstrip : csp_id_strip p (put_pkt p k1 s) = Ret 0 (put_pkt p k2 s)).
  { change (csp_id_strip p) with (strip_any false p).
    erewrite strip_at; [|by eapply pkt_at_put|done| |exact Hhdr].
    - rewrite put_pkt_put. change (dec (put_pkt p k1 s)) with (dec s). change (hdr_size (put_pkt p k1 s)) with h.
      do 2 f_equal. unfold k2. f_equal. unfold dec, enc, id_ok in *. destruct (is_v2 s); [by apply dec2_enc2|by apply dec1_enc1].
    - change (hdr_size (put_pkt p k1 s)) with h. simpl. rewrite Hl, u16_small; lia. }
  pose proof (crc_verify_run p k2 (put_pkt p k2 s)) as Hv. rewrite (proj2 (Z.ltb_ge _ _)) in Hv by (rewrite Hlen2; lia).
  destruct Hv as (data' & tail & m' & Hd' & Ht & Hw & Hv).
  { by eapply pkt_at_put. } { exact Hmem. } { rewrite Hlen2. unfold CSP_BUFFER_SIZE. lia. }
  unfold CSP_PACKET_PADDING_BYTES in *. rewrite Hlen2 in *. replace (zlen data + 4 - 4) with (zlen data) in * by lia.
  change (pkt_mem k2) with (pkt_mem k) in *. change (hdr_size (put_pkt p k2 s)) with h in *.
  assert (Hdata : mem_read (pkt_mem k) 8 (zlen data) = Some data).
  { pose proof (mem_read_sub _ _ _ (enc s false id) data (crc_wire data) Hr) as Hs. rewrite He in Hs.
    replace (8 + - h + h) with 8 in Hs by lia. exact Hs. }
  assert (data' = data) as -> by congruence.
  assert (tail = crc_wire data) as ->.
  { rewrite (app_assoc (enc s false id)), <- (app_nil_r (crc_wire data)) in Hr. apply mem_read_sub in Hr.
    rewrite length_app, Nat2Z.inj_add, He, Hc in Hr. replace (8 + - h + (h + zlen data)) with (8 + zlen data) in Hr by lia. congruence. }
  unfold crc_accepts in Hv. rewrite (bool_decide_true (crc_wire data = crc_wire data)), orb_true_r in Hv by done.
  rewrite put_pkt_put in Hv. set (k3 := set_pkt_length _ _) in Hv. exists k3. split.
  - cbn [csp_kiss_rx]. erewrite bind_ret; [reflexivity|].
    erewrite rx_byte_run by (try eassumption; rewrite Hoff, Hl; unfold CSP_BUFFER_SIZE; fold h; lia).
    unfold kiss_switch. erewrite bind_ret by (by apply get_kiss_at). rewrite Hm, Hl. change (FEND =? FESC) with false. change (FEND =? FEND) with true. cbv iota.
    rewrite (proj2 (Z.ltb_lt _ _)) by lia. rewrite Hp. erewrite bind_ret by reflexivity. unfold kiss_accept.
    erewrite bind_ret by (by apply get_kiss_at). erewrite bind_ret by (by apply mod_pkt_at). fold k1.
    erewrite bind_ret by exact Hstrip. change (0 <? 0) with false. cbv iota. erewrite bind_ret by exact Hv.
    change (negb (CSP_ERR_NONE =? CSP_ERR_NONE)) with false. cbv iota.
    erewrite bind_ret; [|unfold csp_qfifo_write; erewrite bind_ret by reflexivity;
      change (qfifo (put_pkt p k3 s)) with (qfifo s); rewrite Hq; reflexivity].
    by erewrite mod_kiss_at by exact Hd.
  - split; [done|]. split; [done|]. simpl.
    etransitivity; [eapply mem_read_write_after; [exact Hw|rewrite length_enc; change (hdr_size (put_pkt p k2 s)) with h; lia|lia]|exact Hdata].
Qed.

(** The start of a frame. *)
Lemma rx_start i isr d p rest s : pool_ok s -> q_items (csp_buffers s) = p :: rest -> kiss s !! i = Some (Some d) ->
  rx_mode d = KISS_MODE_NOT_STARTED -> rx_packet d = None ->
  exists d1 k0 s1, csp_kiss_rx i [FEND; TNC_DATA] isr s = Ret tt s1 /\ receiving i p 0 d1 k0 s1 /\
    frame_off k0 = - hdr_size s /\ zlen (pkt_mem k0) = CSP_PACKET_PADDING_BYTES + CSP_BUFFER_SIZE /\
    qfifo s1 = qfifo s /\ conf s1 = conf s /\ ifs s1 = ifs s.
Proof.
  intros Hpool Hfree Hd Hm Hp. pose proof (get_actual_run s 0 isr Hpool) as Hg. rewrite Hfree in Hg.
  rewrite (proj2 (Z.ltb_ge _ _)) in Hg by lia. set (sg := set_pool _ _) in Hg.
  assert (Hlp : (p < length (pool s))%nat).
  { rewrite (pool_len _ Hpool). apply (free_range _ Hpool). rewrite Hfree. left. }
  assert (Hpk : pkt_at p sg = Some (packet_zero p)) by (unfold pkt_at, sg; simpl; by rewrite list_lookup_insert_eq).
  set (dp := set_rx_packet (Some p) d). set (dk := set_rx_first true (set_rx_mode KISS_MODE_STARTED (set_rx_length 0 dp))).
  set (k0 := set_frame_length 0 (set_frame_off (- hdr_size s) (set_frame_buf p (packet_zero p)))).
  assert (Hstart : kiss_rx_byte i isr FEND s = Ret tt (at_kiss i dk (put_pkt p k0 sg))).
  { unfold kiss_rx_byte. erewrite bind_ret by (by apply get_kiss_at). unfold kiss_overrun. rewrite Hp.
    do 2 (erewrite bind_ret by reflexivity). unfold kiss_switch. erewrite bind_ret by (by apply get_kiss_at). rewrite Hm.
    change (negb (FEND =? FEND)) with false. cbv iota. unfold kiss_start. erewrite bind_ret by (by apply get_kiss_at). rewrite Hp.
    erewrite bind_ret; [|destruct isr; unfold csp_buffer_get_always_isr, csp_buffer_get_always; erewrite bind_ret by exact Hg; reflexivity].
    erewrite bind_ret by (by apply mod_kiss_at). fold dp. erewrite bind_ret by (by apply setup_rx_at).
    erewrite mod_kiss_at by (eapply kiss_at_kiss; exact Hd). fold dk. by rewrite put_at_kiss, at_kiss_twice. }
  cbn [csp_kiss_rx]. erewrite bind_ret by exact Hstart. set (st := at_kiss i dk _).
  assert (Hdk : kiss st !! i = Some (Some dk)) by (eapply kiss_at_kiss; exact Hd).
  assert (Hkt : pkt_at p st = Some k0) by (by eapply pkt_at_put).
  pose proof (hdr_size_bound s) as Hh.
  exists (set_rx_first false dk), k0, (at_kiss i (set_rx_first false dk) st). split_and!; try done.
  - erewrite bind_ret; [reflexivity|].
    erewrite rx_byte_run by (try exact Hdk; try exact Hkt; try reflexivity; unfold CSP_BUFFER_SIZE; simpl; lia).
    unfold kiss_switch. erewrite bind_ret by (by apply get_kiss_at). exact (mod_kiss_at i (set_rx_first false) dk st Hdk).
  - constructor; try done. by eapply kiss_at_kiss.
Qed.

(** The end of a frame that fills the packet to the last byte: it is lost. *)
Lemma rx_end_full i isr p n d k s x : receiving i p n d k s -> frame_off k + n = CSP_BUFFER_SIZE -> ifs s !! i = Some x ->
  exists s' x', csp_kiss_rx i [FEND] isr s = Ret tt s' /\ qfifo s' = qfifo s /\
    ifs s' !! i = Some x' /\ rx_error x' = u32 (rx_error x + 1).
Proof.
  intros [Hd Hm Hf Hp Hl Hk Hb] Hn Hx. cbn [csp_kiss_rx]. unfold kiss_rx_byte.
  set (s1 := set_ifs (<[i := set_rx_error (u32 (rx_error x + 1)) x]> (ifs s)) s).
  set (d1 := set_rx_length 0 (set_rx_mode KISS_MODE_NOT_STARTED d)).
  set (s2 := at_kiss i d1 s1).
  assert (Hd2 : kiss s2 !! i = Some (Some d1)) by (eapply (kiss_at_kiss i d1 _ s1); exact Hd).
  assert (Hk2 : pkt_at p s2 = Some k) by exact Hk.
  eexists _, _. split_and!.
  - erewrite bind_ret; [reflexivity|]. erewrite bind_ret by (by apply get_kiss_at). unfold kiss_overrun. rewrite Hp, Hl.
    erewrite bind_ret; [|erewrite bind_ret by (by apply get_pkt_at); rewrite Hb, Nat.eqb_refl, Hn, Z.leb_refl; reflexivity].
    erewrite bind_ret; [|unfold when; erewrite bind_ret by (by apply mod_iface_at); fold s1; by apply mod_kiss_at].
    fold d1 s2. unfold kiss_switch. erewrite bind_ret by (by apply get_kiss_at).
    change (rx_mode d1) with KISS_MODE_NOT_STARTED. change (negb (FEND =? FEND)) with false. cbv iota.
    unfold kiss_start. erewrite bind_ret by (by apply get_kiss_at). change (rx_packet d1) with (rx_packet d). rewrite Hp.
    erewrite bind_ret by reflexivity. erewrite bind_ret by (by apply mod_kiss_at). erewrite bind_ret by (by apply setup_rx_at).
    by erewrite mod_kiss_at by (eapply kiss_at_kiss; exact Hd2).
  - done.
  - simpl. apply list_lookup_insert_eq. by eapply lookup_lt_Some.
  - done.
Qed.

(** ** Evaluating the sender *)

(** The bytes an interface has put on its line. *)
Definition sent (i : nat) (s : node) : list Z :=
  flat_map (fun e => if Nat.eqb (wire_iface e) i then wire_data e else []) (rev (wire s)).

(** [s'] is [s] with the bytes [bs] more on the line. *)
Definition put_wire (i : nat) (bss : list (list Z)) (s : node) : node :=
  set_wire (rev (map (WireBytes i 0) bss) ++ wire s) s.

Lemma sent_put_wire i bss s : sent i (put_wire i bss s) = sent i s ++ concat bss.
Proof.
  unfold sent, put_wire. simpl. rewrite rev_app_distr, rev_involutive, flat_map_app. f_equal.
  induction bss as [|bs bss IH]; [done|]. simpl. by rewrite Nat.eqb_refl, IH.
Qed.

Lemma put_wire_app i a b s : put_wire i b (put_wire i a s) = put_wire i (a ++ b) s.
Proof. unfold put_wire. simpl. by rewrite map_app, rev_app_distr, <- app_assoc. Qed.

Lemma kiss_write_run i bs s : kiss_write i bs s = Ret tt (put_wire i [bs] s).
Proof. reflexivity. Qed.

Lemma tx_byte_run i b s : kiss_tx_byte i b s = Ret tt (put_wire i [kiss_escape_byte b] s).
Proof. unfold kiss_tx_byte, kiss_escape_byte. by destruct (b =? FEND), (b =? FESC). Qed.

Lemma tx_bytes_run i bs : forall s, kiss_tx_bytes i bs s = Ret tt (put_wire i (map kiss_escape_byte bs) s).
Proof.
  induction bs as [|b bs IH]; intros s; cbn [kiss_tx_bytes map].
  - unfold put_wire. by destruct s.
  - erewrite bind_ret by apply tx_byte_run. by rewrite IH, put_wire_app.
Qed.

(** The frame of a packet: header, payload and checksum. *)
Definition kiss_frame (s : node) (id : csp_id) (data : list Z) : list Z := enc s false id ++ data ++ crc_wire data.

Lemma kiss_tx_run i via p from_me d k data s : kiss s !! i = Some (Some d) -> pkt_at p s = Some k ->
  zlen (pkt_mem k) = CSP_PACKET_PADDING_BYTES + CSP_BUFFER_SIZE -> 0 <= pkt_length k -> pkt_length k + 4 <= CSP_BUFFER_SIZE ->
  mem_read (pkt_mem k) CSP_PACKET_PADDING_BYTES (pkt_length k) = Some data ->
  exists s', csp_kiss_tx i via p from_me s = Ret CSP_ERR_NONE s' /\
    sent i s' = sent i s ++ kiss_encode (kiss_frame s (pkt_id k) data).
Proof.
  unfold CSP_PACKET_PADDING_BYTES, CSP_BUFFER_SIZE. intros Hd Hk Hm Hl Hfit Hr.
  pose proof (mem_read_length _ _ _ _ Hr) as Hdata. pose proof (length_crc_wire data) as Hc.
  pose proof (hdr_size_bound s) as Hh. pose proof (length_enc s false (pkt_id k)) as He.
  destruct (mem_write_ok (pkt_mem k) (8 + pkt_length k) (crc_wire data)) as [m1 Hw1]; [lia..|].
  pose proof (mem_write_length _ _ _ _ Hw1) as Hm1.
  set (k1 := set_pkt_length (u16 (pkt_length k + 4)) (set_pkt_mem m1 k)).
  set (s1 := put_pkt p k1 s).
  destruct (mem_write_ok m1 (8 + - hdr_size s) (enc s false (pkt_id k))) as [m2 Hw2]; [lia..|].
  set (k2 := framed p (hdr_size s) m2 k1). set (s2 := put_pkt p k2 s).
  assert (Hk1 : pkt_at p s1 = Some k1) by (by eapply pkt_at_put).
  assert (Hk2 : pkt_at p s2 = Some k2) by (by eapply pkt_at_put).
  assert (Hfl : frame_length k2 = hdr_size s + (pkt_length k + 4)).
  { simpl. rewrite (u16_small (pkt_length k + 4)), u16_small; lia. }
  assert (Hread : mem_read m2 (8 + - hdr_size s) (hdr_size s + (pkt_length k + 4)) = Some (kiss_frame s (pkt_id k) data)).
  { apply mem_read_app; [rewrite <- He at 2; by eapply mem_read_write|].
    replace (8 + - hdr_size s + hdr_size s) with 8 by lia. apply mem_read_app.
    - erewrite mem_read_write_after by (first [exact Hw2|lia]). erewrite mem_read_write_before by (first [exact Hw1|lia]). exact Hr.
    - erewrite mem_read_write_after by (first [exact Hw2|lia]). rewrite <- Hc. by eapply mem_read_write. }
  set (s3 := put_wire i [[FEND; TNC_DATA]] s2). set (s4 := put_wire i (map kiss_escape_byte (kiss_frame s (pkt_id k) data)) s3).
  set (s5 := put_wire i [[FEND]] s4).
  assert (Hb : exists b, pool s5 !! p = Some b).
  { unfold pkt_at in Hk2. change (pool s5) with (pool s2). destruct (pool s2 !! p); [by eexists|done]. }
  destruct Hb as [b Hb]. destruct (free_keeps_wire p b s5 Hb) as (s' & Hfree & Hwire). exists s'. split.
  - unfold csp_kiss_tx. erewrite bind_ret by (by apply get_kiss_at).
    erewrite bind_ret by (eapply crc_append_at; [exact Hk|unfold CSP_BUFFER_SIZE; lia|exact Hr|exact Hw1]). fold k1 s1.
    erewrite bind_ret by (change (csp_id_prepend p) with (prepend_any false p); eapply prepend_at; [exact Hk1|exact Hw2]).
    unfold s1. rewrite put_pkt_put. change (hdr_size (put_pkt p k1 s)) with (hdr_size s). fold k2 s2.
    erewrite bind_ret by apply kiss_write_run. fold s3. erewrite bind_ret by (apply get_pkt_at; exact Hk2).
    erewrite bind_ret.
    2:{ unfold read_frame. erewrite bind_ret by (apply get_pkt_at; exact Hk2). change (frame_buf k2) with p.
        eapply read_mem_at; [exact Hk2|]. rewrite Hfl. exact Hread. }
    erewrite bind_ret by apply tx_bytes_run. fold s4. erewrite bind_ret by apply kiss_write_run. fold s5.
    by erewrite bind_ret by exact Hfree.
  - unfold sent at 1. rewrite Hwire. change (sent i s5 = sent i s ++ kiss_encode (kiss_frame s (pkt_id k) data)).
    unfold s5, s4, s3. rewrite !put_wire_app. change (sent i s) with (sent i s2). rewrite sent_put_wire. f_equal.
    unfold kiss_encode, kiss_escape. rewrite !concat_app, flat_map_concat_map. done.
Qed.

(** ** A frame received *)

Lemma rx_frame i isr d p rest x id data q' s : pool_ok s -> q_items (csp_buffers s) = p :: rest ->
  kiss s !! i = Some (Some d) -> rx_mode d = KISS_MODE_NOT_STARTED -> rx_packet d = None -> ifs s !! i = Some x ->
  id_ok s id -> zlen data + 4 <= CSP_BUFFER_SIZE -> q_enqueue (Some i, Some p) (qfifo s) = Some q' ->
  exists s', csp_kiss_rx i (kiss_encode (kiss_frame s id data)) isr s = Ret tt s' /\
    if zlen data + 4 <? CSP_BUFFER_SIZE then
      exists k', qfifo s' = q' /\ pkt_at p s' = Some k' /\ pkt_id k' = id /\ pkt_length k' = zlen data /\
        mem_read (pkt_mem k') CSP_PACKET_PADDING_BYTES (zlen data) = Some data
    else exists x', qfifo s' = qfifo s /\ ifs s' !! i = Some x' /\ rx_error x' = u32 (rx_error x + 1).
Proof.
  intros Hpool Hfree Hd Hm Hp Hx Hid Hfit Hq.
  destruct (rx_start i isr d p rest s Hpool Hfree Hd Hm Hp) as (d1 & k0 & s1 & Hrun & Hrcv & Hoff & Hmem & Hqf & Hconf & Hifs).
  assert (Hv : is_v2 s1 = is_v2 s) by (unfold is_v2; by rewrite Hconf).
  assert (Hh1 : hdr_size s1 = hdr_size s) by (unfold hdr_size; by rewrite Hv).
  pose proof (hdr_size_bound s) as Hh. pose proof (length_crc_wire data) as Hc. pose proof (length_enc s false id) as He.
  unfold CSP_PACKET_PADDING_BYTES, CSP_BUFFER_SIZE in *. set (f := kiss_frame s id data).
  assert (Hf : zlen f = hdr_size s + zlen data + 4) by (unfold f, kiss_frame; rewrite !length_app; lia).
  destruct (mem_write_ok (pkt_mem k0) (8 + (frame_off k0 + 0)) f) as [m Hw]; [lia..|].
  pose proof (mem_write_length _ _ _ _ Hw) as Hml. pose proof (mem_read_write _ _ _ _ Hw) as Hrd.
  pose proof (rx_data i isr p f 0 d1 k0 m s1 Hrcv ltac:(lia) ltac:(lia) ltac:(unfold CSP_BUFFER_SIZE; lia) Hw) as Hdata.
  set (d2 := set_rx_length (0 + zlen f) d1) in Hdata. set (k2 := set_pkt_mem m k0) in Hdata. set (s2 := at_kiss i d2 _) in Hdata.
  assert (Hrcv2 : receiving i p (hdr_size s2 + zlen data + 4) d2 k2 s2).
  { change (hdr_size s2) with (hdr_size s1). destruct Hrcv. constructor; try done; [by eapply kiss_at_kiss|simpl; lia|by eapply pkt_at_put]. }
  assert (Hcomp : forall s', csp_kiss_rx i [FEND] isr s2 = Ret tt s' -> csp_kiss_rx i (kiss_encode f) isr s = Ret tt s').
  { intros s' Hs'. unfold kiss_encode. by rewrite (kiss_rx_app _ _ _ _ _ _ Hrun), (kiss_rx_app _ _ _ _ _ _ Hdata). }
  destruct (Z.ltb_spec (zlen data + 4) 256) as [Hlt|Hge].
  - destruct (rx_end i isr p d2 k2 s2 id data q') as (k' & Hend & Hk'); try done.
    + change (frame_off k2) with (frame_off k0). change (hdr_size s2) with (hdr_size s1). lia.
    + unfold CSP_PACKET_PADDING_BYTES, CSP_BUFFER_SIZE. simpl. lia.
    + change (hdr_size s2) with (hdr_size s1). unfold enc. change (is_v2 s2) with (is_v2 s1). rewrite Hv, Hh1.
      rewrite Hf, Hoff in Hrd. rewrite Z.add_0_r in Hrd. exact Hrd.
    + unfold id_ok in *. change (is_v2 s2) with (is_v2 s1). by rewrite Hv.
    + change (qfifo s2) with (qfifo s1). by rewrite Hqf.
    + eexists. split; [by apply Hcomp|]. exists k'. split; [done|]. split; [|done].
      destruct Hrcv2. by eapply (pkt_at_put p k' k2 s2).
  - destruct (rx_end_full i isr p _ d2 k2 s2 x Hrcv2) as (s' & x' & Hend & Hq' & Hx' & Herr).
    + change (frame_off k2) with (frame_off k0). change (hdr_size s2) with (hdr_size s1). unfold CSP_BUFFER_SIZE. lia.
    + change (ifs s2) with (ifs s1). by rewrite Hifs.
    + exists s'. split; [by apply Hcomp|]. exists x'. split; [|done]. by rewrite Hq'.
Qed.


(** ** Witness: two nodes with one KISS interface each *)

Definition kiss_idle : csp_kiss := mkKiss (Some 1%nat) KISS_MODE_NOT_STARTED 0 false None.
Definition kiss_node (s : node) : node := set_qfifo (Queue 5 []) (set_kiss [Some kiss_idle] s).
Definition escaped_packet : csp_packet :=
  set_pkt_mem (replicate 8 0 ++ [FEND; FESC; 7] ++ replicate 253 0)
    (set_pkt_length 3 (set_pkt_id (mkId 2 1 100 9000 10 40) blank_packet)).

