(* ===== verification/Io.v ===== *)
(** * Io: the output path ([csp_send_direct], [csp_send_direct_iface],
    [csp_sendto], [csp_sendto_reply] of [src/csp_io.c])

    A packet goes out on every interface of the destination's subnet, else on
    the routes of the routing table, else on the default interfaces; each
    interface gets its own copy and the original is freed. *)

From S2P Require Import Prelude State Monad Id Buffer Crc32 Hmac Iflist Rtable Qfifo.

Section Io.
Context `{Platform}.

(** The part of [csp_send_direct_iface] before the transmit call: [false] is
    the jump to [tx_err]. *)
Definition send_prepare (idout : csp_id) (p iface : nat) (from_me : bool) : M bool :=
  mod_pkt p (set_pkt_id (csp_id_copy idout)) ;;
  if negb from_me then mret true else
  ok ← (if flags idout &.& CSP_FHMAC
        then r ← csp_hmac_append p false; mret (r =? CSP_ERR_NONE) else mret true);
  if negb ok then mret false else
  ok ← (if flags idout &.& CSP_FCRC32
        then r ← csp_crc32_append p; mret (r =? CSP_ERR_NONE) else mret true);
  if negb ok then mret false else
  when (negb (Nat.eqb iface csp_if_lo)) (csp_promisc_add p) ;;
  mret true.

Definition tx_err (p iface : nat) : M unit :=
  csp_buffer_free (Some p) ;; incr_tx_error iface.

Definition csp_send_direct_iface (idout : csp_id) (p iface : nat) (via : Z) (from_me : bool) : M unit :=
  ok ← send_prepare idout p iface from_me;
  if negb ok then tx_err p iface else
  k ← get_pkt p;
  let bytes := pkt_length k in
  x ← get_iface iface;
  r ← plat_nexthop (if_nexthop x) iface via p from_me;
  if negb (r =? CSP_ERR_NONE) then tx_err p iface else
  mod_iface iface (fun x => set_txbytes (u32 (txbytes x + bytes)) (set_if_tx (u32 (if_tx x + 1)) x)).

(** The split-horizon tests: is [iface] where the packet came from, or on the
    same subnet? *)
Definition split_horizon (iface : nat) (routed_from : option nat) : M bool :=
  if bool_decide (Some iface = routed_from) then mret true else
  x ← get_iface iface;
  csp_iflist_is_within_subnet (if_addr x) routed_from.

(** A copy of the packet to one interface. *)
Definition send_copy (idout : csp_id) (p iface : nat) (via : Z) (from_me : bool) : M unit :=
  copy ← csp_buffer_clone (Some p);
  match copy with
  | None => mret tt
  | Some c => csp_send_direct_iface idout c iface via from_me
  end.

(** First loop: interfaces on the subnet of the destination.  [idout'] is the
    local copy [_idout]; the result says whether any was found. *)
Fixpoint send_local (fuel : nat) (idout idout' : csp_id) (p : nat) (routed_from : option nat)
    (from_me found : bool) (iface : option nat) : M bool :=
  match fuel with
  | O => undef
  | S fuel' =>
      nxt ← csp_iflist_get_by_subnet (dst idout) iface;
      match nxt with
      | None => mret found
      | Some i =>
          skip ← split_horizon i routed_from;
          if skip : bool then send_local fuel' idout idout' p routed_from from_me true nxt else
          x ← get_iface i;
          let idout' := if from_me && (src idout =? 0) then set_src (if_addr x) idout' else idout' in
          s ← gets id;
          bc ← of_option (csp_id_is_broadcast s (dst idout) x);
          let idout' := if bc : bool then set_dst (csp_id_get_max_nodeid s) idout' else idout' in
          send_copy idout' p i CSP_NO_VIA_ADDRESS from_me ;;
          send_local fuel' idout idout' p routed_from from_me true nxt
      end
  end.

(** Second loop: the best route and the rows above it for the same network.
    The source address is written through the [idout] pointer, so the loop
    returns the id as it leaves it. *)
Fixpoint send_routes (fuel : nat) (idout : csp_id) (p : nat) (routed_from : option nat)
    (from_me : bool) (route : nat) : M csp_id :=
  match fuel with
  | O => undef
  | S fuel' =>
      r ← get_route route;
      i ← of_option (rt_iface r);
      skip ← split_horizon i routed_from;
      idout ← (if skip : bool then mret idout else
        x ← get_iface i;
        let idout := if from_me && (src idout =? 0) then set_src (if_addr x) idout else idout in
        send_copy idout p i (rt_via r) from_me ;;
        mret idout);
      nxt ← csp_rtable_search_backward (Some route);
      match nxt with
      | None => mret idout
      | Some route' => send_routes fuel' idout p routed_from from_me route'
      end
  end.

(** Third loop: the default interfaces. *)
Fixpoint send_default (fuel : nat) (idout : csp_id) (p : nat) (routed_from : option nat)
    (from_me : bool) (iface : option nat) : M csp_id :=
  match fuel with
  | O => undef
  | S fuel' =>
      nxt ← csp_iflist_get_by_isdfl iface;
      match nxt with
      | None => mret idout
      | Some i =>
          skip ← split_horizon i routed_from;
          if skip : bool then send_default fuel' idout p routed_from from_me nxt else
          x ← get_iface i;
          let idout := if from_me && (src idout =? 0) then set_src (if_addr x) idout else idout in
          send_copy idout p i CSP_NO_VIA_ADDRESS from_me ;;
          send_default fuel' idout p routed_from from_me nxt
      end
  end.

(** [csp_send_direct]; the result is the final value of [*idout], which a
    caller that passed the address of a connection's id stores back. *)
Definition csp_send_direct (idout : csp_id) (p : nat) (routed_from : option nat) : M csp_id :=
  let from_me := bool_decide (routed_from = None) in
  lo ← get_iface csp_if_lo;
  if dst idout =? if_addr lo then
    csp_send_direct_iface idout p csp_if_lo CSP_NO_VIA_ADDRESS from_me ;; mret idout
  else
    s ← gets id;
    local_found ← send_local (if_fuel s) idout idout p routed_from from_me false None;
    if local_found : bool then csp_buffer_free (Some p) ;; mret idout else
    route ← (if CSP_USE_RTABLE then csp_rtable_find_route (dst idout) else mret None);
    match route with
    | Some r =>
        idout ← send_routes (S (length (rtable s))) idout p routed_from from_me r;
        csp_buffer_free (Some p) ;; mret idout
    | None =>
        idout ← send_default (if_fuel s) idout p routed_from from_me None;
        csp_buffer_free (Some p) ;; mret idout
    end.

(** [csp_sendto] (with [CSP_USE_HMAC]): the id sent is the packet's own. *)
Definition csp_sendto (prio dest dport' src_port opts : Z) (p : nat) : M unit :=
  when (negb (opts &.& CSP_O_SAME)) (mod_pkt p (fun k => set_pkt_id (set_flags 0 (pkt_id k)) k)) ;;
  if opts &.& CSP_O_RDP then
    set_errno CSP_DBG_ERR_UNSUPPORTED ;; csp_buffer_free (Some p)
  else
    when (opts &.& CSP_O_HMAC)
      (mod_pkt p (fun k => set_pkt_id (set_flags (Z.lor (flags (pkt_id k)) CSP_FHMAC) (pkt_id k)) k)) ;;
    when (opts &.& CSP_O_CRC32)
      (mod_pkt p (fun k => set_pkt_id (set_flags (Z.lor (flags (pkt_id k)) CSP_FCRC32) (pkt_id k)) k)) ;;
    mod_pkt p (fun k =>
      set_pkt_id (set_pri prio (set_sport src_port (set_dport dport' (set_dst dest (pkt_id k))))) k) ;;
    k ← get_pkt p;
    _ ← csp_send_direct (pkt_id k) p None;
    mret tt.

Definition csp_sendto_reply (request : option nat) (reply : nat) (opts : Z) : M unit :=
  match request with
  | None => mret tt
  | Some r =>
      q ← get_pkt r;
      when (opts &.& CSP_O_SAME)
        (mod_pkt reply (fun k => set_pkt_id (set_flags (flags (pkt_id q)) (pkt_id k)) k)) ;;
      q ← get_pkt r;
      let dest := src (pkt_id q) in
      s ← gets id;
      mod_pkt reply (fun k =>
        set_pkt_id (set_src (if dst (pkt_id q) =? csp_id_get_max_nodeid s then 0 else dst (pkt_id q))
                      (pkt_id k)) k) ;;
      q ← get_pkt r;
      csp_sendto (pri (pkt_id q)) dest (sport (pkt_id q)) (dport (pkt_id q)) opts reply
  end.

End Io.
