(* ===== verification/RdpQueue.v ===== *)
(** * RdpQueue: the two packet queues shared by all RDP connections
    ([src/csp_rdp_queue.c])

    One queue holds sent packets waiting for an acknowledgement, the other
    received packets that are out of sequence; each packet names its
    connection in its [conn] field. *)

From S2P Require Import Prelude State Monad Buffer.

Inductive rdp_dir := RdpTx | RdpRx.

Definition rq_get (d : rdp_dir) (s : node) : queue nat :=
  match d with RdpTx => rdp_tx s | RdpRx => rdp_rx s end.
Definition rq_set (d : rdp_dir) (q : queue nat) : node -> node :=
  match d with RdpTx => set_rdp_tx q | RdpRx => set_rdp_rx q end.

Definition csp_rdp_queue_init : M unit :=
  modify (set_rdp_tx (q_create (CSP_RDP_MAX_WINDOW * 2))) ;;
  modify (set_rdp_rx (q_create (CSP_RDP_MAX_WINDOW * 2))).

Definition csp_rdp_queue_size (d : rdp_dir) : M nat := gets (fun s => q_size (rq_get d s)).

(** [csp_rdp_queue_add]: the packet is marked with the connection; a full
    queue frees it. *)
Definition csp_rdp_queue_add (d : rdp_dir) (conn : nat) (p : nat) : M unit :=
  mod_pkt p (set_pkt_conn (Some conn)) ;;
  q ← gets (rq_get d);
  match q_enqueue p q with
  | Some q' => modify (rq_set d q')
  | None => csp_buffer_free (Some p)
  end.

(** [csp_rdp_queue_get]: at most [size] packets are rotated; one that belongs
    to another connection is put back with [csp_rdp_queue_add]. *)
Fixpoint rdp_queue_rotate (size : nat) (d : rdp_dir) (conn : nat) : M (option nat) :=
  match size with
  | O => mret None
  | S size' =>
      q ← gets (rq_get d);
      match q_dequeue q with
      | None => mret None
      | Some (p, q') =>
          modify (rq_set d q') ;;
          k ← get_pkt p;
          if bool_decide (pkt_conn k = Some conn) then mret (Some p) else
          csp_rdp_queue_add d conn p ;;
          rdp_queue_rotate size' d conn
      end
  end.

Definition csp_rdp_queue_get (d : rdp_dir) (conn : nat) : M (option nat) :=
  size ← csp_rdp_queue_size d;
  rdp_queue_rotate size d conn.

(** [__csp_rdp_queue_flush]: free the connection's packets, keep the others. *)
Fixpoint rdp_queue_drain (size : nat) (d : rdp_dir) (conn : nat) : M unit :=
  match size with
  | O => mret tt
  | S size' =>
      q ← gets (rq_get d);
      match q_dequeue q with
      | None => mret tt
      | Some (p, q') =>
          modify (rq_set d q') ;;
          k ← get_pkt p;
          if bool_decide (Some conn = pkt_conn k) then
            csp_buffer_free (Some p) ;; rdp_queue_drain size' d conn
          else
            q ← gets (rq_get d);
            match q_enqueue p q with
            | Some q' => modify (rq_set d q') ;; rdp_queue_drain size' d conn
            | None => mret tt
            end
      end
  end.

Definition csp_rdp_queue_flush (conn : option nat) : M unit :=
  match conn with
  | None =>
      modify (fun s => set_rdp_tx (q_empty (rdp_tx s)) s) ;;
      modify (fun s => set_rdp_rx (q_empty (rdp_rx s)) s)
  | Some c =>
      n ← csp_rdp_queue_size RdpTx;
      rdp_queue_drain n RdpTx c ;;
      n ← csp_rdp_queue_size RdpRx;
      rdp_queue_drain n RdpRx c
  end.

Definition csp_rdp_queue_tx_add := csp_rdp_queue_add RdpTx.
Definition csp_rdp_queue_tx_get := csp_rdp_queue_get RdpTx.
Definition csp_rdp_queue_tx_size := csp_rdp_queue_size RdpTx.
Definition csp_rdp_queue_rx_add := csp_rdp_queue_add RdpRx.
Definition csp_rdp_queue_rx_get := csp_rdp_queue_get RdpRx.
Definition csp_rdp_queue_rx_size := csp_rdp_queue_size RdpRx.
