(* ===== verification/Rdp.v ===== *)
(** * Rdp: headers, sequence arithmetic and control messages of
    [src/csp_rdp.c], and closing a connection ([csp_rdp_close],
    [csp_conn_close] of [src/csp_conn.c]) *)

From S2P Require Import Prelude State Monad Id Buffer Iflist Io RdpQueue.

Definition RDP_SYN : Z := 0x08.
Definition RDP_ACK : Z := 0x04.
Definition RDP_EAK : Z := 0x02.
Definition RDP_RST : Z := 0x01.

(** ** Header: [rdp_header_t], 5 packed bytes at the end of the data *)

Record rdp_header := mkHdr { h_flags : Z; h_seq : Z; h_ack : Z }.
Definition RDP_HEADER_SIZE : Z := 5.

(** The bytes of a header whose fields are host words. *)
Definition hdr_bytes (h : rdp_header) : list Z :=
  u8 (h_flags h) :: le_bytes 2 (h_seq h) ++ le_bytes 2 (h_ack h).
Definition hdr_of_bytes (bs : list Z) : rdp_header :=
  mkHdr (nth 0 bs 0) (le_val (take 2 (drop 1 bs))) (le_val (take 2 (drop 3 bs))).

(** [csp_rdp_header_add]: the offset of the new header, [None] for NULL. *)
Definition csp_rdp_header_add (p : nat) : M (option Z) :=
  k ← get_pkt p;
  if CSP_BUFFER_SIZE <? pkt_length k + RDP_HEADER_SIZE then mret None else
  mod_pkt p (set_pkt_length (u16 (pkt_length k + RDP_HEADER_SIZE))) ;;
  write_mem p (pkt_length k) (replicate 5 0) ;;
  mret (Some (pkt_length k)).

Definition csp_rdp_header_ref (p : nat) : M Z := k ← get_pkt p; mret (pkt_length k - RDP_HEADER_SIZE).

Definition csp_rdp_header_remove (p : nat) : M unit :=
  mod_pkt p (fun k => set_pkt_length (u16 (pkt_length k - RDP_HEADER_SIZE)) k).

Definition read_hdr (p : nat) (off : Z) : M rdp_header :=
  bs ← read_mem p off RDP_HEADER_SIZE; mret (hdr_of_bytes bs).
Definition write_hdr (p : nat) (off : Z) (h : rdp_header) : M unit := write_mem p off (hdr_bytes h).

(** ** Wrapping sequence numbers and timestamps *)

Definition csp_rdp_seq_between (seq start end_ : Z) : bool :=
  u16 (u16 seq - u16 start) <=? u16 (u16 end_ - u16 start).
Definition csp_rdp_seq_before (seq cmp : Z) : bool := i16 (u16 seq - u16 cmp) <? 0.
Definition csp_rdp_seq_after (seq cmp : Z) : bool := csp_rdp_seq_before cmp seq.
Definition csp_rdp_time_before (time cmp : Z) : bool := i32 (u32 time - u32 cmp) <? 0.
Definition csp_rdp_time_after (time cmp : Z) : bool := csp_rdp_time_before cmp time.

(** ** The binary semaphore of [csp_semaphore.c] *)

Definition csp_bin_sem_post (c : nat) : M unit :=
  mod_rdp c (fun r => if 0 <? tx_wait r then r else set_tx_wait 1 r).

Section Rdp.
Context `{Platform}.

(** [csp_bin_sem_wait]: [true] is [CSP_SEMAPHORE_OK]; a zero timeout polls. *)
Definition csp_bin_sem_wait (c : nat) (timeout : Z) : M bool :=
  x ← get_conn c;
  if 0 <? tx_wait (conn_rdp x) then
    mod_rdp c (fun r => set_tx_wait (tx_wait r - 1) r) ;; mret true
  else if timeout =? 0 then mret false else
    yield ;;
    x ← get_conn c;
    if 0 <? tx_wait (conn_rdp x) then
      mod_rdp c (fun r => set_tx_wait (tx_wait r - 1) r) ;; mret true
    else timed_out timeout false.

(** ** Control messages *)

(** The id of a control message: priority at least high. *)
Definition cmp_idout (x : csp_conn) : csp_id :=
  set_pri (if pri (idout x) <? CSP_PRIO_HIGH then pri (idout x) else CSP_PRIO_HIGH) (idout x).

(** [csp_rdp_send_cmp].  A SYN keeps a clone for retransmission; when the
    clone cannot be allocated the packet itself is not freed. *)
Definition csp_rdp_send_cmp (c : nat) (packet : option nat) (flg seq_nr ack_nr : Z) : M Z :=
  packet ← (match packet with
            | Some _ => mret packet
            | None =>
                b ← csp_buffer_get;
                match b with
                | Some p => mod_pkt p (set_pkt_length 0) ;; mret (Some p)
                | None => mret None
                end
            end);
  match packet with
  | None => mret CSP_ERR_NOMEM
  | Some p =>
      when (flg &.& RDP_ACK) (mod_rdp c (set_rcv_lsa (u16 ack_nr))) ;;
      now ← csp_get_ms;
      mod_rdp c (set_ack_timestamp now) ;;
      header ← csp_rdp_header_add p;
      match header with
      | None => csp_buffer_free (Some p) ;; mret CSP_ERR_NOMEM
      | Some off =>
          s ← gets id;
          write_hdr p off (mkHdr (u8 (Z.lor (Z.shiftl (rdp_incr s) 4) flg))
                             (htobe16 (u16 seq_nr)) (htobe16 (u16 ack_nr))) ;;
          modify (set_rdp_incr (u8 (rdp_incr s + 1))) ;;
          ok ← (if flg &.& RDP_SYN then
                  rdp_packet ← csp_buffer_clone (Some p);
                  match rdp_packet with
                  | None => mret false
                  | Some r =>
                      now ← csp_get_ms;
                      mod_pkt r (set_timestamp_tx now) ;;
                      csp_rdp_queue_tx_add c r ;;
                      mret true
                  end
                else mret true);
          if negb ok then mret CSP_ERR_NOMEM else
          x ← get_conn c;
          _ ← csp_send_direct (cmp_idout x) p None;
          mret CSP_ERR_NONE
      end
  end.

(** [data32[i] = htobe32(v)] for consecutive [i]. *)
Definition data32_bytes (vs : list Z) : list Z :=
  flat_map (fun v => le_bytes 4 (htobe32 v)) vs.

Definition csp_rdp_send_syn (c : nat) : M Z :=
  b ← csp_buffer_get;
  match b with
  | None => mret CSP_ERR_NOMEM
  | Some p =>
      s ← gets id;
      let o := rdp_opts s in
      write_mem p 0 (data32_bytes [o_window_size o; o_conn_timeout o; o_packet_timeout o;
                                   o_delayed_acks o; o_ack_timeout o; o_ack_delay_count o]) ;;
      mod_pkt p (set_pkt_length 24) ;;
      x ← get_conn c;
      csp_rdp_send_cmp c (Some p) RDP_SYN (snd_iss (conn_rdp x)) 0
  end.

(** ** Closing *)

Definition csp_rdp_close_internal (c : nat) (closed : Z) (send_rst : bool) : M Z :=
  x ← get_conn c;
  if decide (rdp_state (conn_rdp x) = RDP_CLOSED) then mret CSP_ERR_NONE else
  mod_rdp c (fun r => set_closed_by (Z.lor (closed_by r) closed) r) ;;
  x ← get_conn c;
  when (negb (bool_decide (rdp_state (conn_rdp x) = RDP_CLOSE_WAIT)))
    (mod_rdp c (set_rdp_state RDP_CLOSE_WAIT) ;;
     now ← csp_get_ms;
     mod_conn c (set_conn_timestamp now) ;;
     when send_rst
       (x ← get_conn c;
        _ ← csp_rdp_send_cmp c None (Z.lor RDP_ACK RDP_RST) (snd_nxt (conn_rdp x)) (rcv_cur (conn_rdp x));
        mret tt) ;;
     csp_bin_sem_post c) ;;
  x ← get_conn c;
  if negb (closed_by (conn_rdp x) =? CSP_RDP_CLOSED_BY_ALL) then mret CSP_ERR_AGAIN else
  mod_rdp c (fun r => set_closed_by 0 (set_rdp_state RDP_CLOSED r)) ;;
  mret CSP_ERR_NONE.

Definition csp_rdp_close (c : nat) (closed : Z) : M Z := csp_rdp_close_internal c closed true.

(** [csp_conn_flush_rx_queue]: at most the queue length of turns. *)
Definition csp_conn_flush_rx_queue (c : nat) : M unit :=
  x ← get_conn c;
  while_loop (S (q_size (conn_rxq x)))
    (x ← get_conn c;
     match q_dequeue (conn_rxq x) with
     | None => mret Break
     | Some (packet, q') =>
         mod_conn c (set_conn_rxq q') ;;
         csp_buffer_free packet ;;
         mret Continue
     end).

Definition is_rdp (x : csp_conn) : bool := (flags (idin x) &.& CSP_FRDP) || (flags (idout x) &.& CSP_FRDP).

Definition csp_conn_close (conn : option nat) (closed : Z) : M Z :=
  match conn with
  | None => mret CSP_ERR_NONE
  | Some c =>
      x ← get_conn c;
      if decide (conn_state x = CONN_CLOSED) then
        set_errno CSP_DBG_ERR_ALREADY_CLOSED ;; mret CSP_ERR_NONE
      else
        r ← (if is_rdp x then csp_rdp_close c closed else mret CSP_ERR_NONE);
        if r =? CSP_ERR_AGAIN then mret CSP_ERR_NONE else
        csp_conn_flush_rx_queue c ;;
        x ← get_conn c;
        when (flags (idin x) &.& CSP_FRDP) (csp_rdp_queue_flush (Some c)) ;;
        mod_conn c (set_conn_state CONN_CLOSED) ;;
        mret CSP_ERR_NONE
  end.

Definition csp_close (conn : option nat) : M Z := csp_conn_close conn CSP_RDP_CLOSED_BY_USERSPACE.

End Rdp.
