(* ===== verification/Conn.v ===== *)
(** * Conn: the connection table ([src/csp_conn.c]) and the port table
    ([src/csp_port.c]) *)

From S2P Require Import Prelude State Monad Id Buffer RdpQueue Rdp.

(** ** Connections *)

(** [csp_conn_enqueue_packet] on a non-NULL connection; [packet] may be NULL. *)
Definition csp_conn_enqueue_packet (c : nat) (packet : option nat) : M Z :=
  x ← get_conn c;
  match q_enqueue packet (conn_rxq x) with
  | Some q' => mod_conn c (set_conn_rxq q') ;; mret CSP_ERR_NONE
  | None => incr_conn_ovf ;; mret CSP_ERR_NOMEM
  end.

(** [csp_rdp_init] *)
Definition csp_rdp_init (c : nat) : M unit :=
  s ← gets id;
  mod_rdp c (fun r =>
    set_tx_wait 1
      (set_packet_timeout (o_packet_timeout (rdp_opts s))
        (set_conn_timeout (o_conn_timeout (rdp_opts s))
          (set_closed_by 0 (set_rdp_state RDP_CLOSED r))))).

Definition csp_conn_init : M unit :=
  for_loop CSP_CONN_MAX 0 (fun i =>
    mod_conn i (fun x =>
      set_conn_rxq (q_create CSP_CONN_RXQUEUE_LEN)
        (set_idin (set_flags 0 (idin x))
          (set_conn_state CONN_CLOSED
            (set_sport_outgoing (u8 (Z.of_nat CSP_PORT_MAX_BIND + 1 + Z.of_nat i)) x)))) ;;
    csp_rdp_init i).

Definition conn_is_open (x : csp_conn) : bool := bool_decide (conn_state x = CONN_OPEN).

Definition dport_matches (port : Z) (x : csp_conn) : bool :=
  (dport (idin x) =? port) && conn_is_open x && bool_decide (conn_type x = CONN_CLIENT).

Fixpoint conn_search (f : csp_conn -> bool) (i : nat) (l : list csp_conn) : option nat :=
  match l with
  | [] => None
  | x :: l' => if f x then Some i else conn_search f (S i) l'
  end.

Definition csp_conn_find_dport (port : Z) : M (option nat) :=
  gets (fun s => conn_search (dport_matches port) 0 (arr_conn s)).

(** Client connections are identified by their own port alone; server
    connections by both ports and the remote node. *)
Definition id_matches (i : csp_id) (x : csp_conn) : bool :=
  conn_is_open x &&
  match conn_type x with
  | CONN_CLIENT => dport (idin x) =? dport i
  | CONN_SERVER => (dport (idin x) =? dport i) && (sport (idin x) =? sport i) && (src (idin x) =? src i)
  end.

Definition csp_conn_find_existing (i : csp_id) : M (option nat) :=
  gets (fun s => conn_search (id_matches i) 0 (arr_conn s)).

(** The round-robin search of [csp_conn_allocate], from the index after [i]. *)
Fixpoint alloc_search (n : nat) (conns : list csp_conn) (i : nat) : option nat :=
  match n with
  | O => None
  | S n' =>
      let i := ((i + 1) mod CSP_CONN_MAX)%nat in
      match conns !! i with
      | Some x => if conn_is_open x then alloc_search n' conns i else Some i
      | None => None
      end
  end.

Definition csp_conn_allocate (type : csp_conn_type) : M (option nat) :=
  s ← gets id;
  match alloc_search CSP_CONN_MAX (arr_conn s) (Z.to_nat (conn_last_given s)) with
  | None => incr_conn_out ;; mret None
  | Some i =>
      mod_conn i (set_conn_state CONN_OPEN) ;;
      modify (set_conn_last_given (u8 (Z.of_nat i))) ;;
      mod_conn i (fun x =>
        set_idout (set_flags 0 (idout x))
          (set_idin (set_flags 0 (idin x)) (set_conn_type type (set_conn_timestamp 0 x)))) ;;
      mret (Some i)
  end.

Section Conn.
Context `{Platform}.

Definition csp_conn_new (id_in id_out : csp_id) (type : csp_conn_type) : M (option nat) :=
  conn ← csp_conn_allocate type;
  match conn with
  | None => mret None
  | Some c =>
      mod_conn c (fun x => set_idout (csp_id_copy id_out) (set_idin (csp_id_copy id_in) x)) ;;
      now ← csp_get_ms;
      mod_conn c (set_conn_timestamp now) ;;
      csp_conn_flush_rx_queue c ;;
      mret (Some c)
  end.

End Conn.

Definition csp_conn_dport (x : csp_conn) : Z := dport (idin x).
Definition csp_conn_sport (x : csp_conn) : Z := sport (idin x).
Definition csp_conn_dst (x : csp_conn) : Z := dst (idin x).
Definition csp_conn_src (x : csp_conn) : Z := src (idin x).
Definition csp_conn_flags (x : csp_conn) : Z := flags (idin x).

(** ** Ports *)

Definition PORT_ANY : nat := S CSP_PORT_MAX_BIND.

Definition csp_port_get_callback (port : Z) (s : node) : option nat :=
  if Z.of_nat CSP_PORT_MAX_BIND <? port then None else
  match ports s !! Z.to_nat port with
  | Some (PORT_OPEN_CB cb) => Some cb
  | Some (PORT_OPEN _) => None
  | _ => match ports s !! PORT_ANY with Some (PORT_OPEN_CB cb) => Some cb | _ => None end
  end.

Definition csp_port_get_socket (port : Z) (s : node) : option nat :=
  if Z.of_nat CSP_PORT_MAX_BIND <? port then None else
  match ports s !! Z.to_nat port with
  | Some (PORT_OPEN k) => Some k
  | Some (PORT_OPEN_CB _) => None
  | _ => match ports s !! PORT_ANY with Some (PORT_OPEN k) => Some k | _ => None end
  end.

Definition csp_listen (sock : nat) : M Z :=
  mod_sock sock (set_sock_rxq (Some (q_create CSP_CONN_RXQUEUE_LEN))) ;; mret CSP_ERR_NONE.

(** Index of the port to bind, [None] when it is out of range. *)
Definition bind_index (port : Z) : option nat :=
  if port =? CSP_ANY then Some PORT_ANY
  else if Z.of_nat CSP_PORT_MAX_BIND <? port then None
  else Some (Z.to_nat port).

Definition port_is_closed (s : node) (i : nat) : bool :=
  match ports s !! i with Some PORT_CLOSED => true | _ => false end.

Definition csp_bind (sock : option nat) (port : Z) : M Z :=
  match sock with
  | None => mret CSP_ERR_INVAL
  | Some k =>
      match bind_index port with
      | None => set_errno CSP_DBG_ERR_INVALID_BIND_PORT ;; mret CSP_ERR_INVAL
      | Some i =>
          s ← gets id;
          if negb (port_is_closed s i) then
            set_errno CSP_DBG_ERR_PORT_ALREADY_IN_USE ;; mret CSP_ERR_USED
          else modify (set_ports (<[i := PORT_OPEN k]> (ports s))) ;; mret CSP_ERR_NONE
      end
  end.

Definition csp_bind_callback (callback : option nat) (port : Z) : M Z :=
  match callback with
  | None => set_errno CSP_DBG_ERR_INVALID_POINTER ;; mret CSP_ERR_INVAL
  | Some cb =>
      match bind_index port with
      | None => set_errno CSP_DBG_ERR_INVALID_BIND_PORT ;; mret CSP_ERR_INVAL
      | Some i =>
          s ← gets id;
          if negb (port_is_closed s i) then
            set_errno CSP_DBG_ERR_PORT_ALREADY_IN_USE ;; mret CSP_ERR_ALREADY
          else modify (set_ports (<[i := PORT_OPEN_CB cb]> (ports s))) ;; mret CSP_ERR_NONE
      end
  end.

(** The first port bound to the socket is closed. *)
Fixpoint unbind (sock : nat) (l : list csp_port) : list csp_port :=
  match l with
  | [] => []
  | PORT_OPEN k :: l' => if Nat.eqb k sock then PORT_CLOSED :: l' else PORT_OPEN k :: unbind sock l'
  | x :: l' => x :: unbind sock l'
  end.

(** [csp_socket_close]: the queue is drained as a queue of packets, so a
    connection waiting in it is handed to [csp_buffer_free]. *)
Definition csp_socket_close (sock : option nat) : M Z :=
  match sock with
  | None => mret CSP_ERR_NONE
  | Some k =>
      modify (fun s => set_ports (unbind k (ports s)) s) ;;
      x ← get_sock k;
      match sock_rxq x with
      | None => mret CSP_ERR_NONE
      | Some q =>
          while_loop (S (q_size q))
            (x ← get_sock k;
             match sock_rxq x with
             | None => undef
             | Some q =>
                 match q_dequeue q with
                 | None => mret Break
                 | Some (SPkt p, q') =>
                     mod_sock k (set_sock_rxq (Some q')) ;; csp_buffer_free (Some p) ;; mret Continue
                 | Some (SConn _, _) => undef
                 end
             end) ;;
          mret CSP_ERR_NONE
      end
  end.

(** ** Allocation *)

(** The indices in the order [csp_conn_allocate] tries them. *)
Definition round_robin (last : nat) : list nat := map (fun j => ((last + 1 + j) mod CSP_CONN_MAX)%nat) (seq 0 CSP_CONN_MAX).

Definition conn_closed (conns : list csp_conn) (i : nat) : bool :=
  match conns !! i with Some x => negb (conn_is_open x) | None => false end.

Lemma mod_next a j n : (0 < n)%nat -> (((a + j) mod n + 1) mod n = (a + S j) mod n)%nat.
Proof. intros Hn. rewrite Nat.Div0.add_mod_idemp_l. f_equal. lia. Qed.

Lemma alloc_search_find n conns a j : length conns = CSP_CONN_MAX ->
  alloc_search n conns ((a + j) mod CSP_CONN_MAX) =
    find (conn_closed conns) (map (fun j => ((a + j) mod CSP_CONN_MAX)%nat) (seq (S j) n)).
Proof.
  intros Hl. revert j. induction n as [|n IH]; intros j; [done|]. cbn [alloc_search seq map find].
  assert (Hm : (0 < CSP_CONN_MAX)%nat) by (unfold CSP_CONN_MAX; lia). rewrite mod_next by done.
  destruct (lookup_lt_is_Some_2 conns ((a + S j) mod CSP_CONN_MAX)%nat) as [x Hx].
  { rewrite Hl. apply Nat.mod_upper_bound. lia. }
  unfold conn_closed at 1. rewrite Hx. destruct (conn_is_open x); [apply IH|done].
Qed.

Lemma alloc_search_robin conns last : length conns = CSP_CONN_MAX -> (last < CSP_CONN_MAX)%nat ->
  alloc_search CSP_CONN_MAX conns last = find (conn_closed conns) (round_robin last).
Proof.
  intros Hl Hlast. replace last with ((last + 0) mod CSP_CONN_MAX)%nat at 1 by (rewrite Nat.add_0_r, Nat.mod_small; done).
  rewrite alloc_search_find by done. unfold round_robin. rewrite <- seq_shift, map_map. f_equal. apply map_ext. intros j. f_equal. lia.
Qed.

Lemma round_robin_all last i : (i < CSP_CONN_MAX)%nat -> (last < CSP_CONN_MAX)%nat -> i ∈ round_robin last.
Proof.
  intros Hi Hl. unfold round_robin. apply list_elem_of_In, in_map_iff. unfold CSP_CONN_MAX in *.
  exists ((i + 8 - 1 - last) mod 8)%nat. split.
  - rewrite Nat.Div0.add_mod_idemp_r. replace (last + 1 + (i + 8 - 1 - last))%nat with (i + 1 * 8)%nat by lia.
    rewrite Nat.Div0.mod_add. by apply Nat.mod_small.
  - apply in_seq. split; [lia|]. apply Nat.mod_upper_bound. lia.
Qed.

(** [csp_conn_allocate] hands out the first closed connection after the one
    it gave last, in cyclic order, and opens it with cleared flags and the
    type asked for, leaving every other connection alone; it fails exactly
    when all connections are open, and then only counts the failure. *)
Theorem conn_allocate_spec s type last : length (arr_conn s) = CSP_CONN_MAX -> conn_last_given s = Z.of_nat last ->
  (last < CSP_CONN_MAX)%nat ->
  match find (conn_closed (arr_conn s)) (round_robin last) with
  | Some i => exists s' x, csp_conn_allocate type s = Ret (Some i) s' /\ conn_last_given s' = Z.of_nat i /\
      arr_conn s !! i = Some x /\ conn_state x = CONN_CLOSED /\
      arr_conn s' = <[i := set_idout (set_flags 0 (idout x)) (set_idin (set_flags 0 (idin x))
        (set_conn_type type (set_conn_timestamp 0 (set_conn_state CONN_OPEN x))))]> (arr_conn s)
  | None => (forall i x, arr_conn s !! i = Some x -> conn_state x = CONN_OPEN) /\
      exists s', csp_conn_allocate type s = Ret None s' /\ arr_conn s' = arr_conn s /\ conn_last_given s' = conn_last_given s
  end.
Proof.
  intros Hl Hg Hlast. pose proof (alloc_search_robin (arr_conn s) last Hl Hlast) as Ha.
  assert (Hrun : forall R, (match find (conn_closed (arr_conn s)) (round_robin last) with
      | None => incr_conn_out ;; mret None
      | Some i => mod_conn i (set_conn_state CONN_OPEN) ;; modify (set_conn_last_given (u8 (Z.of_nat i))) ;;
          mod_conn i (fun x => set_idout (set_flags 0 (idout x))
            (set_idin (set_flags 0 (idin x)) (set_conn_type type (set_conn_timestamp 0 x)))) ;; mret (Some i)
      end) s = R -> csp_conn_allocate type s = R).
  { intros R <-. unfold csp_conn_allocate. erewrite bind_ret by reflexivity. unfold id.
    by rewrite Hg, Nat2Z.id, Ha. }
  destruct (find _ _) as [i|] eqn:Ef.
  - apply find_some in Ef as [Hin Hc]. unfold conn_closed in Hc. destruct (arr_conn s !! i) as [x|] eqn:Ex; [|done].
    assert (Hi : (i < length (arr_conn s))%nat) by (by eapply lookup_lt_Some).
    eexists _, x. split.
    { apply Hrun. unfold mod_conn. erewrite bind_ret by (rewrite Ex; reflexivity). erewrite bind_ret by reflexivity.
      erewrite bind_ret; [reflexivity|]. simpl. rewrite list_lookup_insert_eq by done. reflexivity. }
    simpl. split; [rewrite u8_small; [done|]; unfold CSP_CONN_MAX in Hl; lia|]. split; [done|].
    split; [|by rewrite list_insert_insert_eq].
    unfold conn_is_open in Hc. destruct (conn_state x); [done|]. by rewrite bool_decide_true in Hc.
  - split; [|eexists; split; [apply Hrun; reflexivity|done]].
    intros i x Hx. assert (Hi : (i < CSP_CONN_MAX)%nat) by (rewrite <- Hl; by eapply lookup_lt_Some).
    pose proof (find_none _ _ Ef i (proj1 (list_elem_of_In _ _) (round_robin_all last i Hi Hlast))) as Hc.
    unfold conn_closed in Hc. rewrite Hx in Hc. unfold conn_is_open in Hc. by case_bool_decide.
Qed.

Lemma conn_allocate_spec_witness :
  exists s' x, csp_conn_allocate CONN_SERVER boot = Ret (Some 1%nat) s' /\ arr_conn boot !! 1%nat = Some x /\
    conn_state x = CONN_CLOSED.
Proof.
  pose proof (conn_allocate_spec boot CONN_SERVER 0) as H. vm_compute in H.
  destruct H as (s' & x & Hr & _ & Hx & Hc & _); [reflexivity|reflexivity|lia|].
  exists s', x. split; [exact Hr|]. split; [exact Hx|exact Hc].
Defined.

(** ** Ports *)

(** [csp_bind] and the router's port lookup agree: binding a free port makes
    packets for it resolve to the socket and changes no other port; binding
    [CSP_ANY] makes exactly the ports that are not bound themselves resolve to
    the socket; a port out of range or in use is refused and nothing changes.
    Callbacks are found the same way, and never beside a socket. *)
Theorem bind_resolves s k port : length (ports s) = (CSP_PORT_MAX_BIND + 2)%nat -> 0 <= port ->
  match bind_index port with
  | None => exists s', csp_bind (Some k) port s = Ret CSP_ERR_INVAL s' /\ ports s' = ports s
  | Some i =>
      if port_is_closed s i then
        exists s', csp_bind (Some k) port s = Ret CSP_ERR_NONE s' /\
          forall q, 0 <= q <= Z.of_nat CSP_PORT_MAX_BIND ->
            let taken := if port =? CSP_ANY then port_is_closed s (Z.to_nat q) else q =? port in
            csp_port_get_socket q s' = (if taken then Some k else csp_port_get_socket q s) /\
            csp_port_get_callback q s' = (if taken then None else csp_port_get_callback q s)
      else exists s', csp_bind (Some k) port s = Ret CSP_ERR_USED s' /\ ports s' = ports s
  end.
Proof.
  intros Hl Hp. unfold csp_bind. destruct (bind_index port) as [i|] eqn:Ei; [|eexists; split; [reflexivity|done]].
  destruct (port_is_closed s i) eqn:Ec.
  2: { eexists. split; [erewrite bind_ret by reflexivity; unfold id; rewrite Ec; reflexivity|done]. }
  eexists. split; [erewrite bind_ret by reflexivity; unfold id; rewrite Ec; reflexivity|].
  intros q Hq. unfold csp_port_get_socket, csp_port_get_callback. rewrite (proj2 (Z.ltb_ge _ _)) by lia. cbn [ports set_ports].
  assert (Hqp : Z.to_nat q <> PORT_ANY) by (unfold PORT_ANY; lia).
  unfold bind_index in Ei. destruct (Z.eqb_spec port CSP_ANY) as [Ea|Ea].
  - injection Ei as <-. rewrite list_lookup_insert_ne by done. rewrite list_lookup_insert_eq by (rewrite Hl; unfold PORT_ANY; lia).
    unfold port_is_closed in *. destruct (lookup_lt_is_Some_2 (ports s) (Z.to_nat q)) as [y ->]; [rewrite Hl; lia|]. by destruct y.
  - destruct (Z.ltb_spec (Z.of_nat CSP_PORT_MAX_BIND) port); [done|]. injection Ei as <-.
    rewrite (list_lookup_insert_ne _ (Z.to_nat port) PORT_ANY) by (unfold PORT_ANY; lia).
    destruct (Z.eqb_spec q port) as [->|Hne].
    + by rewrite list_lookup_insert_eq by (rewrite Hl; lia).
    + by rewrite list_lookup_insert_ne by lia.
Qed.

Lemma bind_resolves_witness :
  exists s', csp_bind (Some 3%nat) 7 boot = Ret CSP_ERR_NONE s' /\
    csp_port_get_socket 7 s' = Some 3%nat /\ csp_port_get_socket 8 s' = None.
Proof.
  pose proof (bind_resolves boot 3 7 eq_refl) as H. unfold bind_index in H. simpl in H.
  destruct H as (s' & Hr & Hq); [lia|]. exists s'. split; [exact Hr|].
  split; [exact (proj1 (Hq 7 ltac:(vm_compute; split; discriminate)))|exact (proj1 (Hq 8 ltac:(vm_compute; split; discriminate)))].
Defined.
