(* ===== verification/RdpProto.v ===== *)
(** * RdpProto: the RDP protocol engine of [src/csp_rdp.c]

    Receiving, acknowledging, retransmitting, connecting and sending. *)

From S2P Require Import Prelude State Monad Id Buffer Iflist Io RdpQueue Rdp Conn.

(** ** Receive side *)

Definition csp_rdp_receive_data (c p : nat) : M Z :=
  csp_rdp_header_remove p ;;
  r ← csp_conn_enqueue_packet c (Some p);
  if negb (r =? CSP_ERR_NONE) then incr_conn_ovf ;; mret CSP_ERR_NOBUFS
  else mret CSP_ERR_NONE.

(** Does the header stored in packet [p] carry sequence number [seq]? *)
Definition hdr_seq (p : nat) : M Z := off ← csp_rdp_header_ref p; h ← read_hdr p off; mret (h_seq h).

(** One pass of [csp_rdp_rx_queue_flush] over [count] packets: [true] is the
    jump back to [front] after a delivery. *)
Fixpoint rx_flush_pass (count : nat) (c : nat) : M bool :=
  match count with
  | O => mret false
  | S count' =>
      x ← get_conn c;
      if Nat.leb (q_free (conn_rxq x)) 2 then mret false else
      packet ← csp_rdp_queue_rx_get c;
      match packet with
      | None => mret false
      | Some p =>
          seq ← hdr_seq p;
          x ← get_conn c;
          if seq =? u16 (rcv_cur (conn_rdp x) + 1) then
            r ← csp_rdp_receive_data c p;
            when (negb (r =? CSP_ERR_NONE)) (csp_buffer_free (Some p)) ;;
            mod_rdp c (fun r => set_rcv_cur (u16 (rcv_cur r + 1)) r) ;;
            mret true
          else
            csp_rdp_queue_rx_add c p ;;
            rx_flush_pass count' c
      end
  end.

(** [csp_rdp_rx_queue_flush]: every restart has taken a packet out of the
    queue, so its initial size bounds the restarts. *)
Definition csp_rdp_rx_queue_flush (c : nat) : M unit :=
  n ← csp_rdp_queue_rx_size;
  while_loop (S n)
    (count ← csp_rdp_queue_rx_size;
     again ← rx_flush_pass count c;
     mret (if again : bool then Continue else Break)).

Fixpoint seq_in_rx (count : nat) (c : nat) (seq_nr : Z) : M bool :=
  match count with
  | O => mret false
  | S count' =>
      packet ← csp_rdp_queue_rx_get c;
      match packet with
      | None => mret false
      | Some p =>
          csp_rdp_queue_rx_add c p ;;
          seq ← hdr_seq p;
          if seq =? seq_nr then mret true else seq_in_rx count' c seq_nr
      end
  end.

Definition csp_rdp_seq_in_rx_queue (c : nat) (seq_nr : Z) : M bool :=
  count ← csp_rdp_queue_rx_size; seq_in_rx count c seq_nr.

Definition csp_rdp_rx_queue_add (c p : nat) (seq_nr : Z) : M Z :=
  found ← csp_rdp_seq_in_rx_queue c seq_nr;
  if found : bool then mret CSP_ERR_USED else
  csp_rdp_queue_rx_add c p ;; mret CSP_ERR_NONE.

Section RdpProto.
Context `{Platform}.

(** ** Acknowledgements *)

Definition csp_rdp_should_ack (c : nat) : M bool :=
  x ← get_conn c;
  if delayed_acks (conn_rdp x) =? 0 then mret true else
  time_now ← csp_get_ms;
  let r := conn_rdp x in
  if csp_rdp_time_after time_now (u32 (ack_timestamp r + ack_timeout r)) then mret true else
  mret (csp_rdp_seq_after (rcv_cur r) (rcv_lsa r + ack_delay_count r)).

Definition csp_rdp_check_ack (c : nat) : M Z :=
  x ← get_conn c;
  if Z.of_nat CSP_CONN_RXQUEUE_LEN - Z.of_nat (q_size (conn_rxq x)) <=?
     int_value (2 * i32 (window_size (conn_rdp x)))
  then mret CSP_ERR_NONE else
  ack ← csp_rdp_should_ack c;
  when ack
    (x ← get_conn c;
     _ ← csp_rdp_send_cmp c None RDP_ACK (snd_nxt (conn_rdp x)) (rcv_cur (conn_rdp x));
     mret tt) ;;
  mret CSP_ERR_NONE.

Definition csp_rdp_is_conn_ready_for_tx (r : csp_rdp) : bool :=
  negb (csp_rdp_seq_after (snd_nxt r) (snd_una r + window_size r - 1)).

(** ** Timeouts *)

(** One packet of the retransmission loop; [false] is [break]. *)
Definition retransmit_one (c : nat) (time_now : Z) : M bool :=
  packet ← csp_rdp_queue_tx_get c;
  match packet with
  | None => mret false
  | Some p =>
      off ← csp_rdp_header_ref p;
      h ← read_hdr p off;
      x ← get_conn c;
      if csp_rdp_seq_before (be16toh (h_seq h)) (snd_una (conn_rdp x)) then
        csp_buffer_free (Some p) ;; mret true
      else
        k ← get_pkt p;
        when (csp_rdp_time_after time_now (u32 (timestamp_tx k + packet_timeout (conn_rdp x))))
          (new_packet ← csp_buffer_get;
           match new_packet with
           | None => mret tt
           | Some n =>
               write_hdr p off (mkHdr (h_flags h) (h_seq h) (htobe16 (rcv_cur (conn_rdp x)))) ;;
               now ← csp_get_ms;
               mod_rdp c (set_ack_timestamp now) ;;
               now ← csp_get_ms;
               mod_pkt p (set_timestamp_tx now) ;;
               csp_buffer_copy (Some p) (Some n) ;;
               x ← get_conn c;
               i ← csp_send_direct (idout x) n None;
               mod_conn c (set_idout i)
           end) ;;
        csp_rdp_queue_tx_add c p ;;
        mret true
  end.

Fixpoint retransmit (count : nat) (c : nat) (time_now : Z) : M unit :=
  match count with
  | O => mret tt
  | S count' =>
      go ← retransmit_one c time_now;
      if go : bool then retransmit count' c time_now else mret tt
  end.

(** The connection and close-wait timeouts: [true] when the connection was
    closed. *)
Definition close_if_expired (c : nat) (time_now : Z) : M bool :=
  x ← get_conn c;
  let expired := csp_rdp_time_after time_now (u32 (conn_timestamp x + conn_timeout (conn_rdp x))) in
  if bool_decide (dest_socket x <> None) && expired then
    _ ← csp_conn_close (Some c) CSP_RDP_CLOSED_BY_ALL; mret true
  else if bool_decide (rdp_state (conn_rdp x) = RDP_CLOSE_WAIT) && expired then
    _ ← csp_conn_close (Some c) (Z.lor CSP_RDP_CLOSED_BY_PROTOCOL CSP_RDP_CLOSED_BY_TIMEOUT); mret true
  else mret false.

Definition csp_rdp_check_timeouts (c : nat) : M unit :=
  time_now ← csp_get_ms;
  closed ← close_if_expired c time_now;
  if closed : bool then mret tt else
  count ← csp_rdp_queue_tx_size;
  retransmit count c time_now ;;
  x ← get_conn c;
  when (bool_decide (rdp_state (conn_rdp x) = RDP_OPEN))
    (when (negb (delayed_acks (conn_rdp x) =? 0)) (_ ← csp_rdp_check_ack c; mret tt) ;;
     x ← get_conn c;
     when (csp_rdp_is_conn_ready_for_tx (conn_rdp x)) (csp_bin_sem_post c)) ;;
  csp_rdp_rx_queue_flush c.

(** ** Incoming packets *)

(** Where [csp_rdp_new_packet] leaves: its three labels. *)
Inductive rdp_exit := discard_close (closed : Z) | discard_open (close_connection : bool) | accepted_open.

Definition send_ctl (c : nat) (flg : Z) : M unit :=
  x ← get_conn c;
  _ ← csp_rdp_send_cmp c None flg (snd_nxt (conn_rdp x)) (rcv_cur (conn_rdp x));
  mret tt.

Definition send_synack (c : nat) : M unit :=
  x ← get_conn c;
  _ ← csp_rdp_send_cmp c None (Z.lor RDP_ACK RDP_SYN) (snd_iss (conn_rdp x)) (rcv_irs (conn_rdp x));
  mret tt.

(** A reset was received (with [CSP_USE_RDP_FAST_CLOSE]). *)
Definition new_packet_rst (c : nat) (h : rdp_header) : M rdp_exit :=
  when (h_flags h &.& RDP_ACK) (mod_rdp c (set_snd_una (u16 (h_ack h + 1)))) ;;
  x ← get_conn c;
  let r := conn_rdp x in
  if decide (rdp_state r = RDP_CLOSED) then
    mret (discard_open (bool_decide (dest_socket x <> None)))
  else if decide (rdp_state r = RDP_CLOSE_WAIT) then
    mret (discard_close (if h_flags h &.& RDP_ACK
                         then Z.lor CSP_RDP_CLOSED_BY_PROTOCOL CSP_RDP_CLOSED_BY_TIMEOUT
                         else CSP_RDP_CLOSED_BY_PROTOCOL))
  else if h_seq h =? u16 (rcv_cur r + 1) then
    mod_rdp c (set_rdp_state RDP_CLOSE_WAIT) ;;
    now ← csp_get_ms;
    mod_conn c (set_conn_timestamp now) ;;
    send_ctl c (Z.lor RDP_ACK RDP_RST) ;;
    mret (discard_close (Z.lor CSP_RDP_CLOSED_BY_PROTOCOL CSP_RDP_CLOSED_BY_TIMEOUT))
  else mret (discard_open false).

(** State CLOSED: only a bare SYN opens; its data are the sender's options. *)
Definition new_packet_closed (c p : nat) (h : rdp_header) : M rdp_exit :=
  if negb (Z.land (h_flags h) 0x0f =? RDP_SYN) then
    send_ctl c RDP_RST ;; mret (discard_close CSP_RDP_CLOSED_BY_PROTOCOL)
  else
    seed ← csp_get_ms;
    let iss := u16 (plat_rand seed) in
    mod_rdp c (fun r => set_snd_una iss (set_snd_nxt (u16 (iss + 1)) (set_snd_iss iss r))) ;;
    mod_rdp c (fun r => set_rcv_lsa (h_seq h) (set_rcv_irs (h_seq h) (set_rcv_cur (h_seq h) r))) ;;
    opts ← read_mem p 0 24;
    let data32 i := be32toh (le_val (take 4 (drop (4 * i) opts))) in
    mod_rdp c (fun r =>
      set_ack_delay_count (data32 5%nat) (set_ack_timeout (data32 4%nat)
        (set_delayed_acks (data32 3%nat) (set_packet_timeout (data32 2%nat)
          (set_conn_timeout (data32 1%nat) (set_window_size (data32 0%nat) r)))))) ;;
    mod_rdp c (set_rdp_state RDP_SYN_RCVD) ;;
    send_synack c ;;
    mret (discard_open false).

(** State SYN_SENT: a SYN/ACK opens. *)
Definition new_packet_syn_sent (c : nat) (h : rdp_header) : M rdp_exit :=
  if (h_flags h &.& RDP_SYN) && (h_flags h &.& RDP_ACK) then
    mod_rdp c (fun r =>
      set_snd_una (u16 (h_ack h + 1)) (set_rcv_lsa (u16 (h_seq h - 1))
        (set_rcv_irs (h_seq h) (set_rcv_cur (h_seq h) r)))) ;;
    now ← csp_get_ms;
    mod_rdp c (fun r => set_rdp_state RDP_OPEN (set_ack_timestamp now r)) ;;
    send_ctl c RDP_ACK ;;
    csp_bin_sem_post c ;;
    mret (discard_open false)
  else if h_flags h &.& RDP_ACK then
    send_ctl c RDP_RST ;;
    csp_bin_sem_post c ;;
    mret (discard_open false)
  else mret (discard_close CSP_RDP_CLOSED_BY_PROTOCOL).

(** The acknowledgement number lies within the window. *)
Definition ack_in_window (r : csp_rdp) (ack : Z) : bool :=
  csp_rdp_seq_between ack (snd_una r - 1 - window_size r * 2) (snd_nxt r - 1).

(** The sequence number is one of the next [2 * window_size]. *)
Definition seq_in_window (r : csp_rdp) (seq : Z) : bool :=
  csp_rdp_seq_between seq (rcv_cur r + 1) (rcv_cur r + window_size r * 2).

(** SYN_RCVD to OPEN on the acknowledgement of our SYN: the connection goes to
    its socket.  [false] is the jump to [discard_close]. *)
Definition syn_rcvd_ack (c : nat) (h : rdp_header) : M bool :=
  x ← get_conn c;
  if negb (h_ack h =? snd_iss (conn_rdp x)) then mret false else
  mod_rdp c (set_rdp_state RDP_OPEN) ;;
  match dest_socket x with
  | None => mret true
  | Some k =>
      so ← get_sock k;
      q ← of_option (sock_rxq so);
      match q_enqueue (SConn c) q with
      | None => mret false
      | Some q' =>
          mod_sock k (set_sock_rxq (Some q')) ;;
          mod_conn c (set_dest_socket None) ;;
          mret true
      end
  end.

(** The data part of a packet that passed the checks. *)
Definition new_packet_data (c p : nat) (h : rdp_header) : M rdp_exit :=
  x ← get_conn c;
  if negb (h_seq h =? u16 (rcv_cur (conn_rdp x) + 1)) then
    r ← csp_rdp_rx_queue_add c p (h_seq h);
    if negb (r =? CSP_ERR_NONE) then
      _ ← csp_rdp_check_ack c; mret (discard_open false)
    else mret accepted_open
  else
    r ← csp_rdp_receive_data c p;
    if negb (r =? CSP_ERR_NONE) then mret (discard_open false) else
    mod_rdp c (set_rcv_cur (h_seq h)) ;;
    _ ← csp_rdp_check_ack c;
    csp_rdp_rx_queue_flush c ;;
    mret accepted_open.

(** States SYN_RCVD and OPEN. *)
Definition new_packet_open (c p : nat) (h : rdp_header) : M rdp_exit :=
  x ← get_conn c;
  let r := conn_rdp x in
  if (h_flags h &.& RDP_SYN) || negb (h_flags h &.& RDP_ACK) then
    mret (if negb (h_seq h =? rcv_irs r) then discard_close CSP_RDP_CLOSED_BY_PROTOCOL
          else discard_open false)
  else if negb (seq_in_window r (h_seq h)) then
    when (bool_decide (rdp_state r = RDP_SYN_RCVD)) (send_synack c) ;;
    mret (discard_open false)
  else if negb (ack_in_window r (h_ack h)) then mret (discard_open false)
  else
    ok ← (if decide (rdp_state r = RDP_SYN_RCVD) then syn_rcvd_ack c h else mret true);
    if negb ok then mret (discard_close CSP_RDP_CLOSED_BY_PROTOCOL) else
    x ← get_conn c;
    when (bool_decide (dest_socket x = None))
      (now ← csp_get_ms; mod_conn c (set_conn_timestamp now)) ;;
    mod_rdp c (set_snd_una (u16 (h_ack h + 1))) ;;
    if h_flags h &.& RDP_EAK then mret (discard_open false) else
    k ← get_pkt p;
    if pkt_length k <=? RDP_HEADER_SIZE then mret (discard_open false) else
    new_packet_data c p h.

(** State CLOSE_WAIT: acknowledge with another reset. *)
Definition new_packet_close_wait (c : nat) (h : rdp_header) : M rdp_exit :=
  if (h_flags h &.& RDP_SYN) || negb (h_flags h &.& RDP_ACK) then mret (discard_open false) else
  x ← get_conn c;
  if negb (ack_in_window (conn_rdp x) (h_ack h)) then mret (discard_open false) else
  mod_rdp c (set_snd_una (u16 (h_ack h + 1))) ;;
  send_ctl c (Z.lor RDP_ACK RDP_RST) ;;
  mret (discard_open false).

(** The switch. *)
Definition new_packet_switch (c p : nat) (h : rdp_header) : M rdp_exit :=
  if h_flags h &.& RDP_RST then new_packet_rst c h else
  x ← get_conn c;
  match rdp_state (conn_rdp x) with
  | RDP_CLOSED => new_packet_closed c p h
  | RDP_SYN_SENT => new_packet_syn_sent c h
  | RDP_SYN_RCVD | RDP_OPEN => new_packet_open c p h
  | RDP_CLOSE_WAIT => new_packet_close_wait c h
  end.

(** The labels at the end. *)
Definition new_packet_exit (c p : nat) (e : rdp_exit) : M bool :=
  match e with
  | discard_close closed =>
      x ← get_conn c;
      (match dest_socket x with
       | None =>
           _ ← csp_conn_close (Some c) closed;
           _ ← csp_conn_enqueue_packet c None;
           mret tt
       | Some _ =>
           _ ← csp_conn_close (Some c) (Z.lor closed CSP_RDP_CLOSED_BY_USERSPACE);
           mret tt
       end) ;;
      csp_buffer_free (Some p) ;;
      mret false
  | discard_open close_connection => csp_buffer_free (Some p) ;; mret close_connection
  | accepted_open => mret false
  end.

(** [csp_rdp_new_packet]: the header is first rewritten in host byte order. *)
Definition csp_rdp_new_packet (c p : nat) : M bool :=
  off ← csp_rdp_header_ref p;
  h ← read_hdr p off;
  let h := mkHdr (h_flags h) (be16toh (h_seq h)) (be16toh (h_ack h)) in
  write_hdr p off h ;;
  e ← new_packet_switch c p h;
  new_packet_exit c p e.

(** ** Active side *)

Definition rdp_apply_opts (o : csp_rdp_opts) (r : csp_rdp) : csp_rdp :=
  set_ack_delay_count (o_ack_delay_count o) (set_ack_timeout (o_ack_timeout o)
    (set_delayed_acks (o_delayed_acks o) (set_packet_timeout (o_packet_timeout o)
      (set_conn_timeout (o_conn_timeout o) (set_window_size (o_window_size o) r))))).

Definition connect_error (c : nat) : M Z :=
  _ ← csp_rdp_close_internal c CSP_RDP_CLOSED_BY_PROTOCOL false;
  mret CSP_ERR_TIMEDOUT.

(** One attempt, from the label [retry]; [tries] attempts are left after it. *)
Fixpoint rdp_connect_try (tries : nat) (c : nat) : M Z :=
  x ← get_conn c;
  if decide (rdp_state (conn_rdp x) = RDP_OPEN) then mret CSP_ERR_ALREADY else
  seed ← csp_get_ms;
  let iss := u16 (plat_rand seed) in
  mod_rdp c (fun r => set_snd_una iss (set_snd_nxt (u16 (iss + 1)) (set_snd_iss iss r))) ;;
  _ ← csp_bin_sem_wait c 0;
  mod_rdp c (set_rdp_state RDP_SYN_SENT) ;;
  r ← csp_rdp_send_syn c;
  if negb (r =? CSP_ERR_NONE) then connect_error c else
  x ← get_conn c;
  result ← csp_bin_sem_wait c (conn_timeout (conn_rdp x));
  if negb result then connect_error c else
  x ← get_conn c;
  match rdp_state (conn_rdp x) with
  | RDP_OPEN => mret CSP_ERR_NONE
  | RDP_SYN_SENT =>
      match tries with
      | S tries' => csp_rdp_queue_flush (Some c) ;; rdp_connect_try tries' c
      | O => connect_error c
      end
  | _ => connect_error c
  end.

Definition csp_rdp_connect (c : nat) : M Z :=
  s ← gets id;
  mod_rdp c (rdp_apply_opts (rdp_opts s)) ;;
  now ← csp_get_ms;
  mod_rdp c (set_ack_timestamp now) ;;
  rdp_connect_try 1 c.

(** The wait for the window of [csp_rdp_send]: [false] when the connection was
    closed meanwhile.  [fuel] is the number of waits that are looked at; a call
    that has made them still waits ([Wait]). *)
Fixpoint rdp_wait_window (fuel : nat) (c : nat) : M bool :=
  x ← get_conn c;
  if bool_decide (rdp_state (conn_rdp x) = RDP_CLOSE_WAIT \/ rdp_state (conn_rdp x) = RDP_CLOSED)
  then mret false
  else if csp_rdp_is_conn_ready_for_tx (conn_rdp x) then mret true
  else match fuel with
       | O => wait_forever
       | S fuel' => _ ← csp_bin_sem_wait c (conn_timeout (conn_rdp x)); rdp_wait_window fuel' c
       end.

(** [csp_rdp_send] from its wait on. *)
Definition rdp_send_ready (fuel : nat) (c p : nat) : M Z :=
  ready ← rdp_wait_window fuel c;
  if negb ready then mret CSP_ERR_RESET else
  header ← csp_rdp_header_add p;
  match header with
  | None => mret CSP_ERR_NOMEM
  | Some off =>
      x ← get_conn c;
      write_hdr p off (mkHdr RDP_ACK (htobe16 (snd_nxt (conn_rdp x))) (htobe16 (rcv_cur (conn_rdp x)))) ;;
      rdp_packet ← csp_buffer_clone (Some p);
      match rdp_packet with
      | None => mret CSP_ERR_NOMEM
      | Some r =>
          now ← csp_get_ms;
          mod_pkt r (set_timestamp_tx now) ;;
          csp_rdp_queue_tx_add c r ;;
          mod_rdp c (fun r => set_snd_nxt (u16 (snd_nxt r + 1)) r) ;;
          now ← csp_get_ms;
          mod_rdp c (set_ack_timestamp now) ;;
          mret CSP_ERR_NONE
      end
  end.

Definition csp_rdp_send (fuel : nat) (c p : nat) : M Z :=
  x ← get_conn c;
  if negb (bool_decide (rdp_state (conn_rdp x) = RDP_OPEN)) then mret CSP_ERR_RESET else
  rdp_send_ready fuel c p.

Definition csp_rdp_conn_is_active (c : nat) : M bool :=
  time_now ← csp_get_ms;
  x ← get_conn c;
  let r := conn_rdp x in
  mret (negb (csp_rdp_time_after time_now (u32 (conn_timestamp x + conn_timeout r))) &&
        negb (bool_decide (rdp_state r = RDP_CLOSE_WAIT \/ rdp_state r = RDP_CLOSED))).

End RdpProto.

(** [csp_rdp_set_opt] and [csp_rdp_get_opt] *)
Definition csp_rdp_set_opt (w ct pt da at_ adc : Z) : M unit :=
  modify (set_rdp_opts (mkRdpOpts w ct pt da at_ adc)).

Definition csp_rdp_get_opt : M csp_rdp_opts := gets rdp_opts.
