(* ===== verification/Api.v ===== *)
(** * Api: the calls of the application ([csp_accept], [csp_read], [csp_send],
    [csp_transaction_*], [csp_recvfrom] of [src/csp_io.c]; [csp_connect],
    [csp_conn_is_active] of [src/csp_conn.c]; [csp_init]) *)

From S2P Require Import Prelude State Monad Id Buffer Iflist Qfifo Io RdpQueue Rdp Conn RdpProto.

Section Api.
Context `{Platform}.

(** [csp_accept]; a packet of a connection-less socket is not a connection. *)
Definition csp_accept (sock : option nat) (timeout : Z) : M (option nat) :=
  match sock with
  | None => set_errno CSP_DBG_ERR_INVALID_POINTER ;; mret None
  | Some k =>
      x ← get_sock k;
      match sock_rxq x with
      | None => set_errno CSP_DBG_ERR_INVALID_POINTER ;; mret None
      | Some q =>
          when (bool_decide (q_items q = []) && negb (timeout =? 0)) yield ;;
          x ← get_sock k;
          q ← of_option (sock_rxq x);
          match q_dequeue q with
          | None => timed_out timeout None
          | Some (SConn c, q') => mod_sock k (set_sock_rxq (Some q')) ;; mret (Some c)
          | Some (SPkt _, _) => undef
          end
      end
  end.

Definition csp_read (conn : option nat) (timeout : Z) : M (option nat) :=
  match conn with
  | None => mret None
  | Some c =>
      x ← get_conn c;
      if negb (conn_is_open x) then mret None else
      let timeout :=
        if negb (timeout =? 0) && (flags (idin x) &.& CSP_FRDP) && (timeout <? conn_timeout (conn_rdp x))
        then conn_timeout (conn_rdp x) else timeout in
      when (bool_decide (q_items (conn_rxq x) = []) && negb (timeout =? 0)) yield ;;
      x ← get_conn c;
      match q_dequeue (conn_rxq x) with
      | None => timed_out timeout None
      | Some (packet, q') =>
          mod_conn c (set_conn_rxq q') ;;
          when ((flags (idin x) &.& CSP_FRDP) && negb (delayed_acks (conn_rdp x) =? 0))
            (_ ← csp_rdp_check_ack c; mret tt) ;;
          mret packet
      end
  end.

(** [csp_send]; [fuel] bounds the waits for the RDP window. *)
Definition csp_send (fuel : nat) (conn packet : option nat) : M unit :=
  match packet with
  | None => mret tt
  | Some p =>
      match conn with
      | None => csp_buffer_free (Some p)
      | Some c =>
          x ← get_conn c;
          if negb (conn_is_open x) then csp_buffer_free (Some p) else
          r ← (if flags (idout x) &.& CSP_FRDP then csp_rdp_send fuel c p else mret CSP_ERR_NONE);
          if negb (r =? CSP_ERR_NONE) then csp_buffer_free (Some p) else
          x ← get_conn c;
          i ← csp_send_direct (idout x) p None;
          mod_conn c (set_idout i)
      end
  end.

Definition csp_send_prio (fuel : nat) (prio : Z) (c : nat) (packet : option nat) : M unit :=
  mod_conn c (fun x => set_idout (set_pri prio (idout x)) x) ;;
  csp_send fuel (Some c) packet.

(** [csp_transaction_persistent]: the number of reply bytes (1 when none is
    expected, 0 for failure) and the reply. *)
Definition csp_transaction_persistent (fuel : nat) (conn : option nat) (timeout : Z)
    (outbuf : list Z) (inlen : Z) : M (Z * list Z) :=
  if CSP_BUFFER_SIZE <? zlen outbuf then mret (0, []) else
  packet ← csp_buffer_get;
  match packet with
  | None => mret (0, [])
  | Some p =>
      when (0 <? zlen outbuf) (write_mem p 0 outbuf) ;;
      mod_pkt p (set_pkt_length (zlen outbuf)) ;;
      csp_send fuel conn (Some p) ;;
      if inlen =? 0 then mret (1, []) else
      packet ← csp_read conn timeout;
      match packet with
      | None => mret (0, [])
      | Some p =>
          k ← get_pkt p;
          if negb (inlen =? -1) && negb (pkt_length k =? inlen) then
            incr_inval_reply ;; csp_buffer_free (Some p) ;; mret (0, [])
          else
            inbuf ← read_mem p 0 (pkt_length k);
            csp_buffer_free (Some p) ;;
            mret (pkt_length k, inbuf)
      end
  end.

(** [csp_recvfrom]; a dequeue from a queue that was never created fails. *)
Definition csp_recvfrom (sock : option nat) (timeout : Z) : M (option nat) :=
  match sock with
  | None => mret None
  | Some k =>
      x ← get_sock k;
      if negb (sock_opts x &.& CSP_SO_CONN_LESS) then mret None else
      match sock_rxq x with
      | None => mret None
      | Some q =>
          when (bool_decide (q_items q = []) && negb (timeout =? 0)) yield ;;
          x ← get_sock k;
          q ← of_option (sock_rxq x);
          match q_dequeue q with
          | None => timed_out timeout None
          | Some (SPkt p, q') => mod_sock k (set_sock_rxq (Some q')) ;; mret (Some p)
          | Some (SConn _, _) => undef
          end
      end
  end.

(** The option and flag computation of [csp_connect] (with [CSP_USE_RDP] and
    [CSP_USE_HMAC]). *)
Definition connect_opts (opts : Z) : Z :=
  if opts &.& CSP_O_NOCRC32 then Z.ldiff opts CSP_O_CRC32 else opts.

Definition connect_flags (opts : Z) : Z :=
  let f := if opts &.& CSP_O_RDP then CSP_FRDP else 0 in
  let f := if opts &.& CSP_O_HMAC then Z.lor f CSP_FHMAC else f in
  if opts &.& CSP_O_CRC32 then Z.lor f CSP_FCRC32 else f.

(** [csp_connect].  The two port fields the source leaves uninitialised are
    overwritten with the connection's outgoing port before any use. *)
Definition csp_connect (prio dest dport' opts : Z) : M (option nat) :=
  s ← gets id;
  let opts := connect_opts (Z.lor opts (conn_dfl_so (conf s))) in
  let f := connect_flags opts in
  let incoming_id := mkId prio f dest 0 0 dport' in
  let outgoing_id := mkId prio f 0 dest dport' 0 in
  conn ← csp_conn_new incoming_id outgoing_id CONN_CLIENT;
  match conn with
  | None => mret None
  | Some c =>
      mod_conn c (fun x =>
        set_conn_opts opts
          (set_dest_socket None
            (set_idin (set_dport (sport_outgoing x) (idin x))
              (set_idout (set_sport (sport_outgoing x) (idout x)) x)))) ;;
      if f &.& CSP_FRDP then
        r ← csp_rdp_connect c;
        if negb (r =? CSP_ERR_NONE) then _ ← csp_close (Some c); mret None else mret (Some c)
      else mret (Some c)
  end.

Definition csp_transaction_w_opts (fuel : nat) (prio dest port timeout : Z) (outbuf : list Z)
    (inlen opts : Z) : M (Z * list Z) :=
  conn ← csp_connect prio dest port opts;
  match conn with
  | None => mret (0, [])
  | Some c =>
      status ← csp_transaction_persistent fuel (Some c) timeout outbuf inlen;
      _ ← csp_close (Some c);
      mret status
  end.

Definition csp_conn_is_active (c : nat) : M bool :=
  x ← get_conn c;
  if is_rdp x then csp_rdp_conn_is_active c else mret true.

(** [csp_init] *)
Definition csp_init : M unit :=
  modify (fun s =>
    let c := conf s in
    let c := if (version c =? 0) || (2 <? version c) then set_version 2 c else c in
    let c := if CSP_DEDUP_ALL <? conf_dedup c then set_conf_dedup CSP_DEDUP_OFF c else c in
    set_conf c s) ;;
  csp_buffer_init ;;
  csp_conn_init ;;
  csp_qfifo_init ;;
  csp_rdp_queue_init ;;
  s ← gets id;
  mod_iface csp_if_lo (set_if_netmask (csp_id_get_host_bits s)) ;;
  csp_iflist_add (Some csp_if_lo).

End Api.
