(* ===== verification/Route.v ===== *)
(** * Route: the router ([src/csp_route.c]) and the bridge
    ([src/csp_bridge.c]) *)

From S2P Require Import Prelude State Monad Id Buffer Crc32 Hmac Iflist Qfifo Io RdpQueue Rdp Conn RdpProto.

(** [csp_route_check_options]: with [CSP_USE_HMAC] and [CSP_USE_RDP] every
    option is supported. *)
Definition csp_route_check_options (iface p : nat) : M Z := mret CSP_ERR_NONE.

Definition csp_route_security_check (security_opts : Z) (iface p : nat) : M Z :=
  k ← get_pkt p;
  ok ← (if flags (pkt_id k) &.& CSP_FCRC32 then
          r ← csp_crc32_verify p; mret (r =? CSP_ERR_NONE)
        else mret (negb (security_opts &.& CSP_SO_CRC32REQ)));
  if negb ok then incr_rx_error iface ;; mret CSP_ERR_CRC32 else
  ok ← (if flags (pkt_id k) &.& CSP_FHMAC then
          r ← csp_hmac_verify p false; mret (r =? CSP_ERR_NONE)
        else mret (negb (security_opts &.& CSP_SO_HMACREQ)));
  if negb ok then incr_autherr iface ;; mret CSP_ERR_HMAC else
  if negb (flags (pkt_id k) &.& CSP_FRDP) && (security_opts &.& CSP_SO_RDPREQ) then
    incr_rx_error iface ;; mret CSP_ERR_INVAL
  else mret CSP_ERR_NONE.

(** The id of the answers on a new incoming connection. *)
Definition reply_id (i : csp_id) : csp_id :=
  mkId (pri i) (flags i) (dst i) (src i) (sport i) (dport i).

Section Route.
Context `{Platform}.

(** [csp_conn_check_timeouts] of [src/csp_conn.c] *)
Definition csp_conn_check_timeouts : M unit :=
  for_loop CSP_CONN_MAX 0 (fun i =>
    x ← get_conn i;
    when (conn_is_open x && (flags (idin x) &.& CSP_FRDP)) (csp_rdp_check_timeouts i)).

(** Is the packet addressed to this node? *)
Definition route_is_to_me (p iface : nat) : M bool :=
  k ← get_pkt p;
  a ← csp_iflist_get_by_addr (dst (pkt_id k));
  match a with
  | Some _ => mret true
  | None =>
      x ← get_iface iface; s ← gets id;
      of_option (csp_id_is_broadcast s (dst (pkt_id k)) x)
  end.

(** Deduplication: is the packet to be dropped? *)
Definition route_dedup (p : nat) (is_to_me : bool) : M bool :=
  s ← gets id;
  let mode := conf_dedup (conf s) in
  if (mode =? CSP_DEDUP_ALL) || (is_to_me && (mode =? CSP_DEDUP_INCOMING)) ||
     (negb is_to_me && (mode =? CSP_DEDUP_FWD))
  then csp_dedup_is_duplicate p else mret false.

(** The connection of a packet: the existing one, or a new one on [socket];
    [None] when the packet is rejected. *)
Definition route_connection (iface p : nat) (socket : option nat) : M (option nat) :=
  k ← get_pkt p;
  conn ← csp_conn_find_existing (pkt_id k);
  match conn with
  | Some c =>
      x ← get_conn c;
      r ← csp_route_security_check (conn_opts x) iface p;
      mret (if r =? CSP_ERR_NONE then Some c else None)
  | None =>
      match socket with
      | None => mret None
      | Some sk =>
          so ← get_sock sk;
          r ← csp_route_security_check (sock_opts so) iface p;
          if negb (r =? CSP_ERR_NONE) then mret None else
          k ← get_pkt p;
          conn ← csp_conn_new (pkt_id k) (reply_id (pkt_id k)) CONN_SERVER;
          match conn with
          | None => incr_conn_out ;; mret None
          | Some c =>
              so ← get_sock sk;
              mod_conn c (fun x => set_conn_opts (sock_opts so) (set_dest_socket (Some sk) x)) ;;
              mret (Some c)
          end
      end
  end.

(** Queue the packet on the connection and the connection on its socket. *)
Definition route_enqueue (c p : nat) : M unit :=
  r ← csp_conn_enqueue_packet c (Some p);
  if negb (r =? CSP_ERR_NONE) then incr_conn_ovf ;; csp_buffer_free (Some p) else
  x ← get_conn c;
  match dest_socket x with
  | None => mret tt
  | Some sk =>
      so ← get_sock sk;
      q ← of_option (sock_rxq so);
      match q_enqueue (SConn c) q with
      | None => incr_conn_ovf ;; _ ← csp_close (Some c); mret tt
      | Some q' =>
          mod_sock sk (set_sock_rxq (Some q')) ;;
          mod_conn c (set_dest_socket None)
      end
  end.

(** Deliver to a connection. *)
Definition route_deliver (iface p : nat) (socket : option nat) : M unit :=
  conn ← route_connection iface p socket;
  match conn with
  | None => csp_buffer_free (Some p)
  | Some c =>
      k ← get_pkt p;
      if flags (pkt_id k) &.& CSP_FRDP then
        close_connection ← csp_rdp_new_packet c p;
        when close_connection (_ ← csp_close (Some c); mret tt)
      else route_enqueue c p
  end.

(** Deliver to a connection-less socket. *)
Definition route_conn_less (iface p sk : nat) : M unit :=
  so ← get_sock sk;
  r ← csp_route_security_check (sock_opts so) iface p;
  if negb (r =? CSP_ERR_NONE) then csp_buffer_free (Some p) else
  so ← get_sock sk;
  q ← of_option (sock_rxq so);
  match q_enqueue (SPkt p) q with
  | Some q' => mod_sock sk (set_sock_rxq (Some q'))
  | None => incr_conn_ovf ;; csp_buffer_free (Some p)
  end.

(** A packet for this node: callback, connection-less socket or connection. *)
Definition route_local (iface p : nat) : M unit :=
  r ← csp_route_check_options iface p;
  if negb (r =? CSP_ERR_NONE) then csp_buffer_free (Some p) else
  k ← get_pkt p;
  s ← gets id;
  match csp_port_get_callback (dport (pkt_id k)) s with
  | Some cb =>
      r ← csp_route_security_check CSP_SO_CRC32REQ iface p;
      if negb (r =? CSP_ERR_NONE) then csp_buffer_free (Some p) else plat_callback cb p
  | None =>
      let socket := csp_port_get_socket (dport (pkt_id k)) s in
      match socket with
      | Some sk =>
          so ← get_sock sk;
          if sock_opts so &.& CSP_SO_CONN_LESS then route_conn_less iface p sk
          else route_deliver iface p socket
      | None => route_deliver iface p socket
      end
  end.

(** The body of [csp_route_work] for a packet from [iface]. *)
Definition route_packet (iface p : nat) : M unit :=
  k ← get_pkt p;
  mod_iface iface (fun x => set_rxbytes (u32 (rxbytes x + pkt_length k)) (set_if_rx (u32 (if_rx x + 1)) x)) ;;
  is_to_me ← route_is_to_me p iface;
  dup ← route_dedup p is_to_me;
  if dup : bool then incr_drop iface ;; csp_buffer_free (Some p) else
  csp_promisc_add p ;;
  if negb is_to_me then
    k ← get_pkt p;
    _ ← csp_send_direct (pkt_id k) p (Some iface);
    mret tt
  else route_local iface p.

Definition csp_route_work : M Z :=
  csp_conn_check_timeouts ;;
  input ← csp_qfifo_read;
  match input with
  | None => mret CSP_ERR_TIMEDOUT
  | Some (_, None) => mret CSP_ERR_TIMEDOUT
  | Some (None, Some _) => undef
  | Some (Some iface, Some p) => route_packet iface p ;; mret CSP_ERR_NONE
  end.

(** ** Bridge *)

Definition csp_bridge_set_interfaces (if_a if_b : option nat) : M unit :=
  modify (fun s => set_bif_b if_b (set_bif_a if_a s)).

Definition csp_bridge_work : M unit :=
  s ← gets id;
  match bif_a s, bif_b s with
  | Some _, Some _ =>
      input ← csp_qfifo_read;
      match input with
      | None => mret tt
      | Some (_, None) => mret tt
      | Some (iface, Some p) =>
          dup ← csp_dedup_is_duplicate p;
          if dup : bool then csp_buffer_free (Some p) else
          csp_promisc_add p ;;
          s ← gets id;
          destif ← of_option (if bool_decide (iface = bif_a s) then bif_b s else bif_a s);
          k ← get_pkt p;
          csp_send_direct_iface (pkt_id k) p destif CSP_NO_VIA_ADDRESS false
      end
  | _, _ => mret tt
  end.

End Route.
