(* ===== verification/Own.v ===== *)
(** * Own: who owns which buffer

    The invariant of a running node, from which the absence of undefined
    behaviour and of double frees follows.  Every packet buffer is in exactly
    one place: free in the pool, in one queue of the stack, or in the hands of
    the code that runs ([h]).  The rules below say what the primitive
    operations do to this invariant. *)

From S2P Require Import Prelude State Monad Id Buffer Crc32 Hmac Iflist Rtable Qfifo Io RdpQueue Rdp Conn.

(** ** The configuration: what the router never changes *)

Definition if_static (x : csp_iface) : csp_iface :=
  mkIface (if_addr x) (if_netmask x) (if_name x) (if_nexthop x) (is_default x)
    0 0 0 0 0 0 0 0 0 0 (if_next x).

Definition sock_static (k : csp_socket) : bool * Z :=
  (match sock_rxq k with Some _ => true | None => false end, sock_opts k).

Record config := mkConfig {
  cf_conf : csp_conf;
  cf_ifs : list csp_iface;
  cf_head : option nat;
  cf_rtable : list csp_route;
  cf_inptr : Z;
  cf_ports : list csp_port;
  cf_socks : list (bool * Z);
  cf_key : list Z;
  cf_bridge : option nat * option nat
}.

Definition config_of (s : node) : config :=
  mkConfig (conf s) (map if_static (ifs s)) (interfaces s) (rtable s) (rtable_inptr s) (ports s)
    (map sock_static (socks s)) (hmac_key s) (bif_a s, bif_b s).

(** Socket [k] exists and [csp_listen] was called on it. *)
Definition listening (T : config) (k : nat) : Prop := exists o, cf_socks T !! k = Some (true, o).

(** A socket that takes connections, not packets. *)
Definition accepting (T : config) (k : nat) : Prop :=
  exists o, cf_socks T !! k = Some (true, o) /\ o &.& CSP_SO_CONN_LESS = false.

Lemma accepting_listening T k : accepting T k -> listening T k.
Proof. intros (o & Ho & _). by exists o. Qed.

(** Index [i] is an interface struct. *)
Definition valid_if (T : config) (i : nat) : Prop := (i < length (cf_ifs T))%nat.

Definition cf_bits (T : config) : Z := if version (cf_conf T) =? 2 then CSP_ID2_HOST_SIZE else CSP_ID1_HOST_SIZE.

(** A configuration the application may set up: an interface list without
    cycle whose interfaces have names, netmasks within the host bits, routes to
    existing interfaces, bound sockets that listen, a key. *)
Record config_ok (T : config) : Prop := {
  cf_list : exists l, chain (cf_ifs T) (cf_head T) l;
  cf_masks : forall i x, cf_ifs T !! i = Some x -> 0 <= if_netmask x <= cf_bits T;
  cf_routes : forall j r, cf_rtable T !! j = Some r -> (j < Z.to_nat (cf_inptr T))%nat ->
    0 <= rt_netmask r <= cf_bits T /\ exists i, rt_iface r = Some i /\ valid_if T i;
  cf_inptr_le : (Z.to_nat (cf_inptr T) <= length (cf_rtable T))%nat;
  cf_bound : forall j k, cf_ports T !! j = Some (PORT_OPEN k) -> listening T k;
  cf_lo : valid_if T csp_if_lo;
  cf_key_ok : cf_key T <> [];
  cf_bridge_ok : forall i, fst (cf_bridge T) = Some i \/ snd (cf_bridge T) = Some i -> valid_if T i;
  cf_named : forall l i x, chain (cf_ifs T) (cf_head T) l -> i ∈ l -> cf_ifs T !! i = Some x -> if_name x <> None;
  cf_rows : length (cf_rtable T) = CSP_RTABLE_SIZE /\ 0 <= cf_inptr T
}.

(** ** Ownership *)

(** The buffers in the queues of the stack. *)
Definition sock_refs (k : csp_socket) : list nat :=
  match sock_rxq k with
  | Some q => omap (fun it => match it with SPkt p => Some p | SConn _ => None end) (q_items q)
  | None => []
  end.
Definition conn_refs (x : csp_conn) : list nat := omap id (q_items (conn_rxq x)).
Definition opt_refs (q : option (queue nat)) : list nat := match q with Some q => q_items q | None => [] end.

Definition kiss_ref (d : option csp_kiss) : option nat := match d with Some d => rx_packet d | None => None end.

Definition refs (s : node) : list nat :=
  omap snd (q_items (qfifo s)) ++ flat_map conn_refs (arr_conn s) ++ flat_map sock_refs (socks s) ++
  q_items (rdp_tx s) ++ q_items (rdp_rx s) ++ opt_refs (promisc_queue s) ++ omap kiss_ref (kiss s).

(** What the queue of a socket with options [opts] may hold. *)
Definition item_ok (opts : Z) (it : sock_item) : Prop :=
  match it with
  | SPkt _ => opts &.& CSP_SO_CONN_LESS = true
  | SConn c => opts &.& CSP_SO_CONN_LESS = false /\ (c < CSP_CONN_MAX)%nat
  end.
Definition sock_items (x : csp_socket) : list sock_item := match sock_rxq x with Some q => q_items q | None => [] end.
Definition sock_ok (x : csp_socket) : Prop := Forall (item_ok (sock_opts x)) (sock_items x).

Definition live (s : node) (p : nat) : Prop :=
  exists b, pool s !! p = Some b /\ refcount b = 1 /\ packet_ok (skbf_data b).

(** The receive state of a KISS interface: outside a frame, or with a packet
    whose frame begins at the header and has room for what was counted. *)
Definition kiss_ok (s : node) (d : csp_kiss) : Prop :=
  (rx_packet d = None -> rx_mode d = KISS_MODE_NOT_STARTED \/ rx_mode d = KISS_MODE_SKIP_FRAME) /\ 0 <= rx_length d /\
  forall p, rx_packet d = Some p -> exists k, pkt_at p s = Some k /\ frame_buf k = p /\ frame_off k = - hdr_size s /\
    frame_off k + rx_length d <= CSP_BUFFER_SIZE.

(** The invariant: configuration [T], buffers [h] held by the running code. *)
Record Inv (T : config) (h : list nat) (s : node) : Prop := {
  inv_conf : config_of s = T;
  inv_conf_ok : config_ok T;
  inv_pool : length (pool s) = CSP_BUFFER_COUNT;
  inv_addr : forall i b, pool s !! i = Some b -> skbf_addr b = i;
  inv_own : forall p, (p < CSP_BUFFER_COUNT)%nat -> (cnt p h + cnt p (refs s) + cnt p (q_items (csp_buffers s)) = 1)%nat;
  inv_cap : q_cap (csp_buffers s) = CSP_BUFFER_COUNT;
  inv_live : forall p, p ∈ h \/ p ∈ refs s -> live s p;
  inv_free : forall p, p ∈ q_items (csp_buffers s) -> (p < CSP_BUFFER_COUNT)%nat;
  inv_rx : forall p, p ∈ q_items (rdp_rx s) -> exists k, pkt_at p s = Some k /\ RDP_HEADER_SIZE <= pkt_length k;
  inv_kiss : forall i d, kiss s !! i = Some (Some d) -> kiss_ok s d;
  inv_rq : forall d, (q_size (rq_get d s) <= q_cap (rq_get d s))%nat;
  inv_qfifo : forall i p, (i, Some p) ∈ q_items (qfifo s) -> exists j, i = Some j /\ valid_if T j;
  inv_conns : length (arr_conn s) = CSP_CONN_MAX;
  inv_dest : forall c x k, arr_conn s !! c = Some x -> conn_state x = CONN_OPEN -> dest_socket x = Some k -> accepting T k;
  inv_socks : forall k x, socks s !! k = Some x -> sock_ok x;
  inv_dedup : 0 <= dedup_in s < 16;
  inv_errno : dbg_errno (dbg s) <> CSP_DBG_ERR_ALREADY_FREE /\ dbg_errno (dbg s) <> CSP_DBG_ERR_CORRUPT_BUFFER
}.

(** *** Generic consequences *)

Create HintDb own.

(** Split the counting facts of a [refs] sum. *)
Ltac cnt_norm := unfold refs, opt_refs in *; rewrite ?cnt_app, ?cnt_nil in *; cbn [q_items] in *; rewrite ?cnt_cons, ?cnt_nil in *.

(** A packet in reception is in no hands. *)
Lemma kiss_in_refs s i d p : kiss s !! i = Some (Some d) -> rx_packet d = Some p -> p ∈ refs s.
Proof.
  intros Hi Hd. unfold refs. rewrite !elem_of_app. do 6 right. apply list_elem_of_omap. exists (Some d).
  split; [by eapply list_elem_of_lookup_2|done].
Qed.

Lemma kiss_ok_same s s' : (forall p, p ∈ refs s -> pkt_at p s' = pkt_at p s) -> conf s' = conf s -> kiss s' = kiss s ->
  (forall i d, kiss s !! i = Some (Some d) -> kiss_ok s d) -> forall i d, kiss s' !! i = Some (Some d) -> kiss_ok s' d.
Proof.
  intros Hp Hc Hk Hok i d Hd. rewrite Hk in Hd. destruct (Hok i d Hd) as (Hm & Hl & Hr). split; [done|]. split; [done|].
  intros p Ep. destruct (Hr p Ep) as (k & Hkp & Hb & Ho & Hf). exists k. rewrite Hp by (by eapply kiss_in_refs).
  unfold hdr_size, is_v2 in *. by rewrite Hc.
Qed.

Lemma Inv_perm T h h' s : (forall p, cnt p h' = cnt p h) -> Inv T h s -> Inv T h' s.
Proof.
  intros Hp H. destruct H. constructor; try assumption.
  - intros p Hlt. rewrite Hp. by apply inv_own0.
  - intros p [Hin|Hin]; apply inv_live0; [left|by right]. apply cnt_pos. rewrite <- Hp. by apply cnt_pos.
Qed.

Lemma Inv_live_h T h s p : Inv T h s -> p ∈ h -> live s p.
Proof. intros H Hp. apply (inv_live _ _ _ H). by left. Qed.

Lemma live_pkt s p : live s p -> exists k, pkt_at p s = Some k /\ packet_ok k.
Proof. intros (b & Hb & _ & Hok). exists (skbf_data b). split; [|done]. unfold pkt_at. by rewrite Hb. Qed.

(** Buffers are in range, so each is in one place at most. *)
Lemma own_range T h s p : Inv T h s -> p ∈ h \/ p ∈ refs s -> (p < CSP_BUFFER_COUNT)%nat.
Proof.
  intros H Hp. destruct (inv_live _ _ _ H p Hp) as (b & Hb & _). rewrite <- (inv_pool _ _ _ H). by eapply lookup_lt_Some.
Qed.

Lemma own_le T h s p : Inv T h s -> (cnt p h + cnt p (refs s) + cnt p (q_items (csp_buffers s)) <= 1)%nat.
Proof.
  intros H. destruct (decide (p < CSP_BUFFER_COUNT)%nat) as [Hlt|Hge]; [by rewrite (inv_own _ _ _ H)|].
  rewrite !(proj2 (cnt_zero p _)); [lia|..]; intros Hin; apply Hge;
    [by apply (inv_free _ _ _ H)|eapply own_range; [exact H|by right]|eapply own_range; [exact H|by left]].
Qed.

(** A held buffer is in no queue and not free. *)
Lemma held_not_ref T h s p : Inv T h s -> p ∈ h -> (p ∉ refs s) /\ (p ∉ q_items (csp_buffers s)).
Proof.
  intros H Hp%cnt_pos. pose proof (own_le _ _ _ p H). split; intros Hin%cnt_pos; lia.
Qed.

(** *** Updates that do not concern ownership *)

Lemma Inv_errno T h s e : e <> CSP_DBG_ERR_ALREADY_FREE -> e <> CSP_DBG_ERR_CORRUPT_BUFFER -> Inv T h s ->
  Inv T h (set_dbg (set_dbg_errno e (dbg s)) s).
Proof. intros ? ? H. destruct H. by constructor. Qed.

Lemma wp_set_errno T h s e : Inv T h s -> e <> CSP_DBG_ERR_ALREADY_FREE -> e <> CSP_DBG_ERR_CORRUPT_BUFFER ->
  wp (set_errno e) (fun _ s' => Inv T h s') s.
Proof. intros. apply wp_modify. by apply Inv_errno. Qed.

Lemma wp_incr_conn_ovf T h s : Inv T h s -> wp incr_conn_ovf (fun _ s' => Inv T h s') s.
Proof. intros H. apply wp_modify. destruct H. by constructor. Qed.
Lemma wp_incr_conn_out T h s : Inv T h s -> wp incr_conn_out (fun _ s' => Inv T h s') s.
Proof. intros H. apply wp_modify. destruct H. by constructor. Qed.
Lemma wp_incr_buffer_out T h s : Inv T h s -> wp incr_buffer_out (fun _ s' => Inv T h s') s.
Proof. intros H. apply wp_modify. destruct H. by constructor. Qed.
Lemma wp_get_ms `{Platform} T h s : Inv T h s -> wp csp_get_ms (fun _ s' => Inv T h s') s.
Proof. intros H0. unfold wp, csp_get_ms. destruct H0. by constructor. Qed.

(** *** Interfaces *)

Lemma Inv_nifs T h s : Inv T h s -> length (cf_ifs T) = length (ifs s).
Proof. intros H. rewrite <- (inv_conf _ _ _ H). simpl. apply length_map. Qed.

Lemma wp_get_iface T h s i (Q : csp_iface -> node -> Prop) : Inv T h s -> valid_if T i ->
  (forall x, ifs s !! i = Some x -> Q x s) -> wp (get_iface i) Q s.
Proof.
  intros H Hi HQ. unfold valid_if in Hi. rewrite (Inv_nifs _ _ _ H) in Hi.
  destruct (lookup_lt_is_Some_2 _ _ Hi) as [x Hx]. unfold wp, get_iface. rewrite Hx. auto.
Qed.

Lemma wp_mod_iface T h s i f : Inv T h s -> valid_if T i ->
  (forall x, if_static (f x) = if_static x) -> wp (mod_iface i f) (fun _ s' => Inv T h s') s.
Proof.
  intros H Hi Hf. unfold valid_if in Hi. rewrite (Inv_nifs _ _ _ H) in Hi.
  destruct (lookup_lt_is_Some_2 _ _ Hi) as [x Hx]. unfold wp, mod_iface. rewrite Hx.
  destruct H. constructor; try assumption. rewrite <- inv_conf0. unfold config_of. simpl.
  f_equal. by apply (map_insert_same _ _ _ x).
Qed.

Lemma wp_incr_tx_error T h s i : Inv T h s -> valid_if T i -> wp (incr_tx_error i) (fun _ s' => Inv T h s') s.
Proof. intros. by apply wp_mod_iface. Qed.
Lemma wp_incr_rx_error T h s i : Inv T h s -> valid_if T i -> wp (incr_rx_error i) (fun _ s' => Inv T h s') s.
Proof. intros. by apply wp_mod_iface. Qed.
Lemma wp_incr_drop T h s i : Inv T h s -> valid_if T i -> wp (incr_drop i) (fun _ s' => Inv T h s') s.
Proof. intros. by apply wp_mod_iface. Qed.
Lemma wp_incr_autherr T h s i : Inv T h s -> valid_if T i -> wp (incr_autherr i) (fun _ s' => Inv T h s') s.
Proof. intros. by apply wp_mod_iface. Qed.

(** *** Connections *)

Lemma wp_get_conn T h s c (Q : csp_conn -> node -> Prop) : Inv T h s -> (c < CSP_CONN_MAX)%nat ->
  (forall x, arr_conn s !! c = Some x -> Q x s) -> wp (get_conn c) Q s.
Proof.
  intros H Hc HQ. rewrite <- (inv_conns _ _ _ H) in Hc.
  destruct (lookup_lt_is_Some_2 _ _ Hc) as [x Hx]. unfold wp, get_conn. rewrite Hx. auto.
Qed.

(** The destination socket of a connection, if there is one, listens; so it does
    for every open connection. *)
Definition dest_ok (T : config) (x : csp_conn) : Prop := forall k, dest_socket x = Some k -> accepting T k.
Definition conn_dest (T : config) (c : nat) (s : node) : Prop := forall x, arr_conn s !! c = Some x -> dest_ok T x.

Lemma open_dest T h s c x : Inv T h s -> arr_conn s !! c = Some x -> conn_state x = CONN_OPEN \/ dest_ok T x -> conn_dest T c s.
Proof. intros HI Hx [Ho|Hd] y Hy; simplify_eq; [|done]. intros k Hk. by eapply (inv_dest _ _ _ HI). Qed.

(** [y] may replace connection [x]: the same queue, and, when it is open, the
    destination socket it had open or one that listens.  (What [dest_socket] of a
    closed connection holds, as memory that was never set, does not matter.) *)
Definition conn_step (T : config) (x y : csp_conn) : Prop :=
  conn_rxq y = conn_rxq x /\
  (conn_state y = CONN_OPEN -> forall k, dest_socket y = Some k -> (conn_state x = CONN_OPEN /\ dest_socket x = Some k) \/ accepting T k).

Lemma wp_mod_conn_at T h s c f x : Inv T h s -> arr_conn s !! c = Some x -> conn_step T x (f x) ->
  wp (mod_conn c f) (fun _ s' => Inv T h s') s.
Proof.
  intros H Hx [Hq Hd]. unfold wp, mod_conn. rewrite Hx.
  assert (Hr : forall p, cnt p (refs (set_arr_conn (<[c := f x]> (arr_conn s)) s)) = cnt p (refs s)).
  { intros p. unfold refs. rewrite !cnt_app. simpl.
    pose proof (cnt_flat_map_insert conn_refs (arr_conn s) c x (f x) p Hx) as E.
    unfold conn_refs at 2 4 in E. rewrite Hq in E. lia. }
  destruct H. constructor; try assumption.
  - intros p Hp. rewrite Hr. by apply inv_own0.
  - intros p [Hp|Hp]; apply inv_live0; [by left|right]. apply cnt_pos. rewrite <- Hr. by apply cnt_pos.
  - simpl. by rewrite length_insert.
  - simpl. intros c' x' k Hx' Ho Hk. destruct (decide (c = c')) as [<-|].
    + rewrite list_lookup_insert_eq in Hx' by (by eapply lookup_lt_Some). simplify_eq. destruct (Hd Ho k Hk) as [[Hk' ?]|]; [|done]. eauto.
    + rewrite list_lookup_insert_ne in Hx' by done. eauto.
Qed.

Lemma wp_mod_conn T h s c f : Inv T h s -> (c < CSP_CONN_MAX)%nat -> (forall x, conn_step T x (f x)) ->
  wp (mod_conn c f) (fun _ s' => Inv T h s') s.
Proof.
  intros H Hc Hf. rewrite <- (inv_conns _ _ _ H) in Hc.
  destruct (lookup_lt_is_Some_2 _ _ Hc) as [x Hx]. by apply (wp_mod_conn_at _ _ _ _ _ x).
Qed.

Lemma wp_mod_rdp T h s c f : Inv T h s -> (c < CSP_CONN_MAX)%nat -> wp (mod_rdp c f) (fun _ s' => Inv T h s') s.
Proof. intros. apply wp_mod_conn; [done..|]. intros x. split; [done|]. by left. Qed.

(** *** Packets *)

Lemma wp_get_skbf T h s p (Q : csp_skbf -> node -> Prop) : Inv T h s -> (p ∈ h \/ p ∈ refs s) ->
  (forall b, pool s !! p = Some b -> refcount b = 1 -> skbf_addr b = p -> packet_ok (skbf_data b) -> Q b s) ->
  wp (get_skbf p) Q s.
Proof.
  intros H Hp HQ. destruct (inv_live _ _ _ H p Hp) as (b & Hb & Hr & Hok). unfold wp, get_skbf. rewrite Hb.
  apply HQ; try done. by apply (inv_addr _ _ _ H).
Qed.

Lemma wp_get_pkt T h s p (Q : csp_packet -> node -> Prop) : Inv T h s -> (p ∈ h \/ p ∈ refs s) ->
  (forall k, pkt_at p s = Some k -> packet_ok k -> Q k s) -> wp (get_pkt p) Q s.
Proof.
  intros H Hp HQ. destruct (live_pkt s p) as (k & Hk & Hok); [by apply (inv_live _ _ _ H)|].
  unfold wp. rewrite (get_pkt_at _ _ _ Hk). auto.
Qed.

(** A packet in no queue may change; one that is held must stay well formed. *)
Lemma Inv_put_any T h s p k : Inv T h s -> p ∉ refs s -> (p ∈ h -> packet_ok k) -> Inv T h (put_pkt p k s).
Proof.
  intros H Hnr Hk. destruct H. constructor; try assumption.
  - simpl. by rewrite length_alter.
  - simpl. intros i b Hi. rewrite list_lookup_alter in Hi. case_decide; [|eauto].
    subst. destruct (pool s !! i) eqn:E; [|done]. simplify_eq/=. eauto.
  - intros q Hq. destruct (inv_live0 q Hq) as (b & Hb & Hr & Hok). unfold live. simpl.
    destruct (decide (p = q)) as [<-|].
    + exists (set_skbf_data k b). rewrite list_lookup_alter_eq, Hb. split; [done|]. split; [done|].
      apply Hk. by destruct Hq.
    + exists b. by rewrite list_lookup_alter_ne.
  - intros q Hq. destruct (inv_rx0 q Hq) as (k' & Hk' & Hl). exists k'. split; [|done].
    unfold pkt_at in *. simpl. rewrite list_lookup_alter_ne; [done|]. intros ->. apply Hnr.
    unfold refs. rewrite !elem_of_app. tauto.
  - apply (kiss_ok_same s); [|done|done|done]. intros q Hq. unfold pkt_at. simpl. rewrite list_lookup_alter_ne; [done|]. by intros ->.
Qed.

(** A held packet may change as long as it stays well formed. *)
Lemma Inv_put_pkt T h s p k : Inv T h s -> p ∈ h -> packet_ok k -> Inv T h (put_pkt p k s).
Proof. intros H Hp Hk. destruct (held_not_ref _ _ _ _ H Hp) as [Hnr Hnf]. by apply Inv_put_any. Qed.

Lemma wp_mod_pkt T h s p f : Inv T h s -> p ∈ h -> (forall k, packet_ok k -> packet_ok (f k)) ->
  wp (mod_pkt p f) (fun _ s' => Inv T h s') s.
Proof.
  intros H Hp Hf. destruct (live_pkt s p) as (k & Hk & Hok); [by eapply Inv_live_h|].
  unfold wp. rewrite (mod_pkt_at _ _ _ _ Hk). apply Inv_put_pkt; auto.
Qed.

(** The same with the packet's content known before and after. *)
Lemma wp_mod_pkt_at T h s p f k : Inv T h s -> p ∈ h -> pkt_at p s = Some k -> packet_ok (f k) ->
  wp (mod_pkt p f) (fun _ s' => Inv T h s' /\ pkt_at p s' = Some (f k)) s.
Proof.
  intros H Hp Hk Hf. unfold wp. rewrite (mod_pkt_at _ _ _ _ Hk).
  split; [by apply Inv_put_pkt|by eapply pkt_at_put].
Qed.

Lemma wp_read_mem T h s p off n (Q : list Z -> node -> Prop) : Inv T h s -> (p ∈ h \/ p ∈ refs s) ->
  -8 <= off -> 0 <= n -> off + n <= 256 -> (forall bs, zlen bs = n -> Q bs s) -> wp (read_mem p off n) Q s.
Proof.
  intros H Hp Ho Hn Hl HQ. unfold read_mem. apply wp_bind. eapply wp_get_pkt; [done|done|].
  intros k Hk [Hm _]. unfold CSP_PACKET_PADDING_BYTES, CSP_BUFFER_SIZE in *.
  destruct (mem_read_ok (pkt_mem k) (8 + off) n) as [bs Hbs]; [lia..|].
  rewrite Hbs. apply HQ. by eapply mem_read_length.
Qed.

Lemma wp_write_mem T h s p off bs k : Inv T h s -> p ∈ h -> pkt_at p s = Some k ->
  -8 <= off -> off + zlen bs <= 256 ->
  wp (write_mem p off bs) (fun _ s' => Inv T h s' /\ exists m, pkt_at p s' = Some (set_pkt_mem m k)) s.
Proof.
  intros H Hp Hk Ho Hl. destruct (live_pkt s p) as (k' & Hk' & Hok); [by eapply Inv_live_h|]. simplify_eq.
  pose proof Hok as [Hm Hlen]. unfold CSP_PACKET_PADDING_BYTES, CSP_BUFFER_SIZE in *.
  destruct (mem_write_ok (pkt_mem k) (8 + off) bs) as [m Hw]; [lia..|].
  unfold wp. rewrite (write_mem_at _ _ _ _ _ _ Hk Hw).
  split; [|exists m; by eapply pkt_at_put]. apply Inv_put_pkt; [done|done|].
  split; [|done]. simpl. by rewrite (mem_write_length _ _ _ _ Hw).
Qed.

(** *** Moving buffers between queues and hands *)

Lemma Inv_move T h h' s s' : Inv T h s ->
  pool s' = pool s -> csp_buffers s' = csp_buffers s -> config_of s' = config_of s ->
  dedup_in s' = dedup_in s -> dbg s' = dbg s -> length (arr_conn s') = length (arr_conn s) ->
  (forall c x k, arr_conn s' !! c = Some x -> conn_state x = CONN_OPEN -> dest_socket x = Some k -> accepting T k) ->
  (forall k x, socks s' !! k = Some x -> sock_ok x) ->
  (forall p, p ∈ q_items (rdp_rx s') -> exists k, pkt_at p s' = Some k /\ RDP_HEADER_SIZE <= pkt_length k) ->
  (forall i d, kiss s' !! i = Some (Some d) -> kiss_ok s' d) ->
  (forall d, (q_size (rq_get d s') <= q_cap (rq_get d s'))%nat) ->
  (forall i p, (i, Some p) ∈ q_items (qfifo s') -> exists j, i = Some j /\ valid_if T j) ->
  (forall p, (cnt p h' + cnt p (refs s') = cnt p h + cnt p (refs s))%nat) ->
  Inv T h' s'.
Proof.
  intros H Hp Hb Hcf Hd Hg Hl Hdest Hsk Hrx Hki Hrq Hqf Hcnt. destruct H.
  constructor; try assumption; rewrite ?Hp, ?Hb, ?Hd, ?Hg, ?Hl; try assumption.
  - by rewrite Hcf.
  - intros p Hlt. rewrite Hcnt. by apply inv_own0.
  - intros p Hin. assert (Hor : p ∈ h \/ p ∈ refs s).
    { assert (1 <= cnt p h' + cnt p (refs s'))%nat by (destruct Hin as [Hin%cnt_pos|Hin%cnt_pos]; lia).
      rewrite Hcnt in *. destruct (decide (p ∈ h)) as [|Hn%cnt_zero]; [by left|]. right. apply cnt_pos. lia. }
    destruct (inv_live0 p Hor) as (b & Hbb & ?). exists b. by rewrite Hp.
Qed.

Lemma q_dequeue_items {A} (q q' : queue A) x : q_dequeue q = Some (x, q') -> q_items q = x :: q_items q'.
Proof. unfold q_dequeue. destruct (q_items q); intros; by simplify_eq/=. Qed.

Lemma q_enqueue_items {A} (q q' : queue A) x : q_enqueue x q = Some q' -> q_items q' = q_items q ++ [x].
Proof. unfold q_enqueue. case_decide; intros; by simplify_eq/=. Qed.

Lemma omap_app' {A B} (f : A -> option B) l k : omap f (l ++ k) = omap f l ++ omap f k.
Proof. apply omap_app. Qed.

Ltac inv_move :=
  match goal with
  | H : Inv _ _ ?s |- Inv _ _ ?s' =>
      pose proof (inv_conf _ _ _ H); eapply (Inv_move _ _ _ s s' H); try reflexivity;
      [ try exact (inv_dest _ _ _ H) | try exact (inv_socks _ _ _ H) | try exact (inv_rx _ _ _ H) | try exact (inv_kiss _ _ _ H) | try exact (inv_rq _ _ _ H) | try exact (inv_qfifo _ _ _ H)
      | intros ?p; unfold refs; rewrite ?cnt_app, ?cnt_cons, ?cnt_nil ]
  end.

(** The RDP queues. *)
Lemma rq_bound_set s d q : (forall d, (q_size (rq_get d s) <= q_cap (rq_get d s))%nat) ->
  (q_size q <= q_cap q)%nat -> forall d', (q_size (rq_get d' (rq_set d q s)) <= q_cap (rq_get d' (rq_set d q s)))%nat.
Proof. intros H Hq d'. destruct d, d'; simpl; auto; [apply (H RdpRx)|apply (H RdpTx)]. Qed.

Lemma q_dequeue_bound {A} (q q' : queue A) x : q_dequeue q = Some (x, q') ->
  q_cap q' = q_cap q /\ q_size q = S (q_size q').
Proof. unfold q_dequeue, q_size. destruct (q_items q) eqn:E; intros; by simplify_eq/=. Qed.

Lemma q_enqueue_bound {A} (q q' : queue A) x : q_enqueue x q = Some q' ->
  q_cap q' = q_cap q /\ q_size q' = S (q_size q) /\ (q_size q' <= q_cap q')%nat.
Proof.
  unfold q_enqueue, q_size. case_decide; intros; simplify_eq/=. rewrite length_app. simpl. lia.
Qed.

Lemma Inv_rq_deq T h s d p q' : Inv T h s -> q_dequeue (rq_get d s) = Some (p, q') ->
  Inv T (p :: h) (rq_set d q' s) /\ (d = RdpRx -> exists k, pkt_at p s = Some k /\ RDP_HEADER_SIZE <= pkt_length k).
Proof.
  intros H Hd. pose proof (q_dequeue_items _ _ _ Hd) as Hq. pose proof (q_dequeue_bound _ _ _ Hd) as [Hc Hs].
  pose proof (rq_bound_set s d q' (inv_rq _ _ _ H)) as Hb. pose proof (inv_rq _ _ _ H d) as Hbd. split.
  - destruct d; cbn [rq_get rq_set] in *; inv_move; try (apply Hb; lia); simpl; rewrite ?Hq, ?cnt_cons; try lia.
    intros p0 Hin. apply (inv_rx _ _ _ H). rewrite Hq. by right.
  - intros ->. apply (inv_rx _ _ _ H). simpl in Hq. rewrite Hq. left.
Qed.

Lemma Inv_rq_enq T h s d p q' : Inv T (p :: h) s -> q_enqueue p (rq_get d s) = Some q' ->
  (d = RdpRx -> exists k, pkt_at p s = Some k /\ RDP_HEADER_SIZE <= pkt_length k) ->
  Inv T h (rq_set d q' s).
Proof.
  intros H He Hd. pose proof (q_enqueue_items _ _ _ He) as Hq. pose proof (q_enqueue_bound _ _ _ He) as (_ & _ & Hs).
  pose proof (rq_bound_set s d q' (inv_rq _ _ _ H) Hs) as Hb.
  destruct d; cbn [rq_get rq_set] in *; inv_move; try (apply Hb); simpl; rewrite ?Hq, ?cnt_app, ?cnt_cons, ?cnt_nil; try lia.
  intros p0 [Hin| ->%list_elem_of_singleton]%elem_of_app; [by apply (inv_rx _ _ _ H)|auto].
Qed.

(** A pointer in hand that may be NULL. *)
Definition opt_held (o : option nat) (h : list nat) : list nat := match o with Some p => p :: h | None => h end.

(** The receive queue of a connection. *)
Lemma omap_id_some (p : nat) l : omap id (Some p :: l) = p :: omap id l.
Proof. done. Qed.
Lemma omap_id_none (l : list (option nat)) : omap id (None :: l) = omap id l.
Proof. done. Qed.

Lemma wp_conn_rxq T h h' s c x q' : Inv T h s -> arr_conn s !! c = Some x ->
  (forall p, (cnt p h' + cnt p (omap id (q_items q')) = cnt p h + cnt p (conn_refs x))%nat) ->
  wp (mod_conn c (set_conn_rxq q')) (fun _ s' => Inv T h' s' /\ pool s' = pool s) s.
Proof.
  intros H Hx Hc. unfold wp, mod_conn. rewrite Hx. split; [|done].
  assert (Hlt : (c < length (arr_conn s))%nat) by (apply lookup_lt_is_Some; by eexists).
  eapply (Inv_move _ _ _ s); try done.
  - simpl. by rewrite length_insert.
  - simpl. intros c' x' k Hx' Ho Hk. destruct (decide (c = c')) as [<-|].
    + rewrite list_lookup_insert_eq in Hx' by done. simplify_eq. by eapply (inv_dest _ _ _ H).
    + rewrite list_lookup_insert_ne in Hx' by done. by eapply (inv_dest _ _ _ H).
  - apply (inv_socks _ _ _ H).
  - apply (inv_rx _ _ _ H).
  - apply (inv_kiss _ _ _ H).
  - apply (inv_rq _ _ _ H).
  - apply (inv_qfifo _ _ _ H).
  - intros p. unfold refs. rewrite !cnt_app. simpl.
    pose proof (cnt_flat_map_insert conn_refs (arr_conn s) c x (set_conn_rxq q' x) p Hx) as E.
    unfold conn_refs at 4 in E. simpl in E. specialize (Hc p). lia.
Qed.

(** The queue of a socket. *)
Lemma wp_sock_rxq T h h' s k so q q' : Inv T h s -> socks s !! k = Some so -> sock_rxq so = Some q ->
  Forall (item_ok (sock_opts so)) (q_items q') ->
  (forall p, (cnt p h' + cnt p (sock_refs (set_sock_rxq (Some q') so)) = cnt p h + cnt p (sock_refs so))%nat) ->
  wp (mod_sock k (set_sock_rxq (Some q'))) (fun _ s' => Inv T h' s') s.
Proof.
  intros H Hk Hq Hit Hc. unfold wp, mod_sock. rewrite Hk. eapply (Inv_move _ _ _ s); try done.
  - unfold config_of. simpl. f_equal. apply (map_insert_same _ _ _ so); [done|]. unfold sock_static. simpl. by rewrite Hq.
  - apply (inv_dest _ _ _ H).
  - intros k' x Hx. cbn [socks set_socks] in Hx.
    apply list_lookup_insert_Some in Hx as [(-> & <- & _)|[_ Hx]]; [done|by eapply (inv_socks _ _ _ H)].
  - apply (inv_rx _ _ _ H).
  - apply (inv_kiss _ _ _ H).
  - apply (inv_rq _ _ _ H).
  - apply (inv_qfifo _ _ _ H).
  - intros p. unfold refs. rewrite !cnt_app. simpl.
    pose proof (cnt_flat_map_insert sock_refs (socks s) k so (set_sock_rxq (Some q') so) p Hk) as E.
    specialize (Hc p). lia.
Qed.

(** An item more in the queue. *)
Lemma sock_ok_enqueue x q q' it : sock_ok x -> sock_rxq x = Some q -> q_enqueue it q = Some q' -> item_ok (sock_opts x) it ->
  Forall (item_ok (sock_opts x)) (q_items q').
Proof.
  unfold sock_ok, sock_items. intros Hx Hq He%q_enqueue_items Hit. rewrite Hq in Hx. rewrite He. apply Forall_app. split; [done|by constructor].
Qed.

Lemma accepting_opts T h s k so : Inv T h s -> accepting T k -> socks s !! k = Some so -> sock_opts so &.& CSP_SO_CONN_LESS = false.
Proof.
  intros H (o & Ho & Hc) Hk. rewrite <- (inv_conf _ _ _ H) in Ho. simpl in Ho. rewrite map_lookup, Hk in Ho. unfold sock_static in Ho. simpl in Ho. by simplify_eq.
Qed.

(** The options of a socket are part of the configuration. *)
Lemma sock_opts_conf T h h' s s' k so so' : Inv T h s -> Inv T h' s' -> socks s !! k = Some so -> socks s' !! k = Some so' ->
  sock_opts so' = sock_opts so.
Proof.
  intros H H' Hk Hk'. pose proof (inv_conf _ _ _ H') as E. rewrite <- (inv_conf _ _ _ H) in E. apply (f_equal cf_socks) in E. simpl in E.
  apply (f_equal (lookup k)) in E. rewrite !map_lookup, Hk, Hk' in E. unfold sock_static in E. simpl in E. congruence.
Qed.

Lemma listening_accepting T h s k so : Inv T h s -> listening T k -> socks s !! k = Some so -> sock_opts so &.& CSP_SO_CONN_LESS = false ->
  accepting T k.
Proof.
  intros H (o & Ho) Hk Hc. exists o. split; [done|]. rewrite <- (inv_conf _ _ _ H) in Ho. simpl in Ho. rewrite map_lookup, Hk in Ho.
  unfold sock_static in Ho. simpl in Ho. by simplify_eq.
Qed.

Lemma wp_get_sock T h s k (Q : csp_socket -> node -> Prop) : Inv T h s -> listening T k ->
  (forall so q, socks s !! k = Some so -> sock_rxq so = Some q -> Q so s) -> wp (get_sock k) Q s.
Proof.
  intros H [o Ho] HQ. rewrite <- (inv_conf _ _ _ H) in Ho. simpl in Ho. rewrite map_lookup in Ho.
  unfold wp, get_sock. destruct (socks s !! k) as [so|] eqn:E; [|done]. simpl in Ho.
  unfold sock_static in Ho. destruct (sock_rxq so) as [q|] eqn:Eq; [|simplify_eq]. by eapply HQ.
Qed.

(** The router queue. *)
Lemma omap_snd_some {A} (i : A) (p : nat) l : omap snd ((i, Some p) :: l) = p :: omap snd l.
Proof. done. Qed.
Lemma omap_snd_none {A} (i : A) l : omap (B := nat) snd ((i, None) :: l) = omap snd l.
Proof. done. Qed.

Ltac qf_simpl :=
  cbn [qfifo set_qfifo arr_conn socks rdp_tx rdp_rx promisc_queue kiss q_items];
  rewrite ?omap_app', ?omap_snd_some, ?omap_snd_none, ?cnt_app, ?cnt_cons, ?cnt_nil.

Lemma Inv_qfifo_deq T h s i p q' : Inv T h s -> q_dequeue (qfifo s) = Some ((i, Some p), q') ->
  Inv T (p :: h) (set_qfifo q' s) /\ exists j, i = Some j /\ valid_if T j.
Proof.
  intros H Hq%q_dequeue_items. split.
  - inv_move; qf_simpl; rewrite ?Hq; qf_simpl; try lia.
    intros i0 p' Hin. apply (inv_qfifo _ _ _ H i0 p'). rewrite Hq. by right.
  - apply (inv_qfifo _ _ _ H i p). rewrite Hq. left.
Qed.

Lemma Inv_qfifo_deq_none T h s i q' : Inv T h s -> q_dequeue (qfifo s) = Some ((i, None), q') ->
  Inv T h (set_qfifo q' s).
Proof.
  intros H Hq%q_dequeue_items. inv_move; qf_simpl; rewrite ?Hq; qf_simpl; try lia.
  intros i0 p' Hin. apply (inv_qfifo _ _ _ H i0 p'). rewrite Hq. by right.
Qed.

Lemma Inv_qfifo_enq T h s i p q' : Inv T (p :: h) s -> valid_if T i -> q_enqueue (Some i, Some p) (qfifo s) = Some q' ->
  Inv T h (set_qfifo q' s).
Proof.
  intros H Hi Hq%q_enqueue_items. inv_move; qf_simpl; rewrite ?Hq; qf_simpl; simpl (omap snd []); rewrite ?cnt_nil; try lia.
  intros i0 p' [Hin|Hin%list_elem_of_singleton]%elem_of_app; [by apply (inv_qfifo _ _ _ H i0 p')|].
  simplify_eq. by eexists.
Qed.

Lemma Inv_promisc_enq T h s p q q' : Inv T (p :: h) s -> promisc_queue s = Some q -> q_enqueue p q = Some q' ->
  Inv T h (set_promisc_queue (Some q') s).
Proof.
  intros H Hpq Hq%q_enqueue_items. inv_move; simpl; rewrite ?Hpq; simpl; rewrite ?Hq, ?cnt_app, ?cnt_cons, ?cnt_nil; lia.
Qed.

(** *** The pool *)

Definition held_same (h : list nat) (s s' : node) : Prop := forall q, q ∈ h -> pkt_at q s' = pkt_at q s.

Lemma packet_zero_ok p : packet_ok (packet_zero p).
Proof. split; [reflexivity|]. unfold CSP_BUFFER_SIZE. simpl. lia. Qed.

(** A buffer leaves the pool. *)
Lemma Inv_alloc T h s p rest n : Inv T h s -> q_items (csp_buffers s) = p :: rest -> n = q_cap (csp_buffers s) ->
  Inv T (p :: h) (set_pool (<[p := mkSkbf 1 p (packet_zero p)]> (pool s)) (set_csp_buffers (Queue n rest) s)) /\
  held_same h s (set_pool (<[p := mkSkbf 1 p (packet_zero p)]> (pool s)) (set_csp_buffers (Queue n rest) s)).
Proof.
  intros H Hq ->.
  assert (Hlt : (p < length (pool s))%nat).
  { rewrite (inv_pool _ _ _ H). apply (inv_free _ _ _ H). rewrite Hq. left. }
  assert (Hno : (p ∉ h) /\ p ∉ refs s).
  { pose proof (own_le _ _ _ p H) as Hc. rewrite Hq, cnt_cons in Hc. destruct (Nat.eq_dec p p); [|done].
    split; intros Hin%cnt_pos; lia. }
  destruct Hno as [Hnh Hnr]. split.
  2: { intros q Hin. unfold pkt_at. simpl. rewrite list_lookup_insert_ne; [done|]. by intros ->. }
  destruct H. constructor; try assumption.
  - simpl. by rewrite length_insert.
  - simpl. intros i b Hi. destruct (decide (p = i)) as [<-|].
    + rewrite list_lookup_insert_eq in Hi by done. by simplify_eq.
    + rewrite list_lookup_insert_ne in Hi by done. eauto.
  - intros q Hqlt. specialize (inv_own0 q Hqlt). rewrite Hq in inv_own0. simpl q_items.
    change (refs (set_pool _ _)) with (refs s). rewrite cnt_cons in *. lia.
  - intros q Hin. unfold live. simpl. destruct (decide (p = q)) as [<-|Hne].
    + rewrite list_lookup_insert_eq by done. eexists. split; [done|]. split; [done|apply packet_zero_ok].
    + rewrite list_lookup_insert_ne by done. apply inv_live0.
      destruct Hin as [Hin|Hin]; [left|by right]. apply elem_of_cons in Hin as [|]; [by subst|done].
  - simpl. intros q Hin. apply inv_free0. rewrite Hq. by right.
  - simpl. intros q Hin. destruct (inv_rx0 q Hin) as (k & Hk & Hl). exists k. split; [|done].
    unfold pkt_at in *. simpl. rewrite list_lookup_insert_ne; [done|]. intros ->. apply Hnr.
    unfold refs. rewrite !elem_of_app. tauto.
  - apply (kiss_ok_same s); [|done|done|done]. intros q Hq'. unfold pkt_at. simpl. rewrite list_lookup_insert_ne; [done|]. by intros ->.
Qed.

Lemma wp_buffer_get_actual T h s reserve isr : Inv T h s ->
  wp (csp_buffer_get_actual reserve isr) (fun r s' =>
    match r with Some p => Inv T (p :: h) s' | None => Inv T h s' end /\ held_same h s s') s.
Proof.
  intros H. unfold csp_buffer_get_actual. apply wp_bind, wp_gets.
  destruct (_ <? reserve); [by apply wp_ret|]. destruct (q_dequeue (csp_buffers s)) as [[p q']|] eqn:E.
  - pose proof (q_dequeue_items _ _ _ E) as Hq. unfold q_dequeue in E. rewrite Hq in E. injection E as <-.
    cbn [q_items] in *. apply wp_bind, wp_modify. apply wp_bind.
    assert (Hlt : (p < length (pool s))%nat).
    { rewrite (inv_pool _ _ _ H). apply (inv_free _ _ _ H). rewrite Hq. left. }
    destruct (lookup_lt_is_Some_2 (pool s) p Hlt) as [b Hb].
    unfold wp at 1, get_skbf. simpl. rewrite Hb. pose proof (inv_addr _ _ _ H p b Hb) as Ha.
    rewrite Ha, Nat.eqb_refl. simpl. apply wp_bind. unfold wp at 1, mod_skbf. simpl. rewrite Hb.
    apply wp_bind. unfold wp at 1, csp_packet_init, mod_pkt, mod_skbf. simpl.
    rewrite list_lookup_insert_eq by done. apply wp_ret. rewrite list_insert_insert_eq.
    destruct b as [r a k]. simpl in Ha. subst a. by apply (Inv_alloc T h s p _ (q_cap (csp_buffers s))).
  - apply wp_bind. apply wp_modify, wp_ret. split; [destruct H; by constructor|done].
Qed.

Lemma wp_buffer_get T h s : Inv T h s ->
  wp csp_buffer_get (fun r s' =>
    match r with Some p => Inv T (p :: h) s' | None => Inv T h s' end /\ held_same h s s') s.
Proof. apply wp_buffer_get_actual. Qed.

(** There is always room for a buffer that is not free. *)
Lemma free_room T h s p : Inv T h s -> p ∈ h -> (q_size (csp_buffers s) < q_cap (csp_buffers s))%nat.
Proof.
  intros H Hp. pose proof (held_not_ref _ _ _ _ H Hp) as [_ Hn]. rewrite (inv_cap _ _ _ H). unfold q_size.
  apply (nodup_bound (p :: _)).
  - constructor; [done|]. apply cnt_unique. intros q. pose proof (own_le _ _ _ q H). lia.
  - intros q [->|Hq]%elem_of_cons; [eapply own_range; [exact H|by left]|by apply (inv_free _ _ _ H)].
Qed.

(** A buffer goes back to the pool. *)
Lemma Inv_release T h s p b q' : Inv T (p :: h) s -> pool s !! p = Some b -> skbf_addr b = p ->
  q_enqueue p (csp_buffers s) = Some q' ->
  Inv T h (set_csp_buffers q' (set_pool (<[p := set_refcount 0 b]> (pool s)) s)).
Proof.
  intros H Hb Ha E. pose proof (q_enqueue_bound _ _ _ E) as [Hcap _]. apply q_enqueue_items in E.
  assert (Hno : (p ∉ h) /\ p ∉ refs s).
  { pose proof (own_le _ _ _ p H) as Hc. rewrite cnt_cons in Hc. destruct (Nat.eq_dec p p); [|done].
    split; intros Hin%cnt_pos; lia. }
  destruct Hno as (Hnh & Hnr). destruct H. constructor; try assumption.
  - simpl. by rewrite length_insert.
  - simpl. intros i b' Hi. destruct (decide (p = i)) as [<-|].
    + rewrite list_lookup_insert_eq in Hi by (apply lookup_lt_is_Some; by eexists). by simplify_eq.
    + rewrite list_lookup_insert_ne in Hi by done. eauto.
  - intros q Hlt. specialize (inv_own0 q Hlt). simpl. rewrite E, cnt_app, cnt_cons, cnt_nil.
    change (refs (set_csp_buffers _ _)) with (refs s). rewrite cnt_cons in inv_own0. lia.
  - simpl. congruence.
  - intros q Hin. unfold live. simpl. rewrite list_lookup_insert_ne; [|by intros ->; destruct Hin].
    apply inv_live0. destruct Hin; [left; by right|by right].
  - simpl. rewrite E. intros q [Hin| ->%list_elem_of_singleton]%elem_of_app; [by apply inv_free0|].
    rewrite <- inv_pool0. apply lookup_lt_is_Some. by eexists.
  - simpl. intros q Hin. destruct (inv_rx0 q Hin) as (k & Hk & Hl). exists k. split; [|done].
    unfold pkt_at in *. simpl. rewrite list_lookup_insert_ne; [done|]. intros ->. apply Hnr.
    unfold refs. rewrite !elem_of_app. tauto.
  - apply (kiss_ok_same s); [|done|done|done]. intros q Hq'. unfold pkt_at. simpl. rewrite list_lookup_insert_ne; [done|]. by intros ->.
Qed.

Lemma wp_buffer_free T h s p : Inv T (p :: h) s ->
  wp (csp_buffer_free (Some p)) (fun _ s' => Inv T h s' /\ held_same h s s') s.
Proof.
  intros H. unfold csp_buffer_free, csp_buffer_free_pkt. apply wp_bind.
  eapply wp_get_skbf; [exact H|left; left|]. intros b Hb Hr Ha Hok.
  rewrite Ha, Nat.eqb_refl. simpl negb. rewrite Hr. apply wp_bind. unfold wp at 1, mod_skbf. rewrite Hb.
  change (u32 (1 - 1)) with 0. change (0 <? 0) with false. cbv iota. apply wp_bind, wp_gets.
  cbn [csp_buffers set_pool]. assert (Hroom : (q_size (csp_buffers s) < q_cap (csp_buffers s))%nat).
  { eapply free_room; [exact H|left]. }
  destruct (q_enqueue p (csp_buffers s)) as [q'|] eqn:E.
  - apply wp_modify. split; [by apply Inv_release|]. intros q Hin. unfold pkt_at. simpl.
    rewrite list_lookup_insert_ne; [done|]. intros ->. pose proof (own_le _ _ _ q H) as Hc. rewrite cnt_cons in Hc.
    destruct (Nat.eq_dec q q); [|done]. apply cnt_pos in Hin. lia.
  - unfold q_enqueue in E. by rewrite decide_True in E.
Qed.

Lemma wp_free T h s p : Inv T (p :: h) s -> wp (csp_buffer_free (Some p)) (fun _ s' => Inv T h s') s.
Proof. intros H. eapply wp_conseq; [by apply wp_buffer_free|]. by intros ? ? [? ?]. Qed.

Lemma Inv_pool_ok T h s : Inv T h s -> pool_ok s.
Proof.
  intros HI. constructor; try apply HI. apply cnt_unique. intros p. pose proof (own_le _ _ _ p HI). lia.
Qed.

(** Clone: the copy comes into the hands of the caller. *)
Lemma wp_buffer_clone T h s p : Inv T h s -> p ∈ h ->
  wp (csp_buffer_clone (Some p)) (fun r s' =>
    match r with Some c => Inv T (c :: h) s' | None => Inv T h s' end) s.
Proof.
  intros H Hp. unfold csp_buffer_clone. apply wp_bind. eapply wp_conseq; [by apply wp_buffer_get|].
  intros [c|] s1 [H1 _]; apply wp_bind; simpl.
  - apply wp_bind. eapply wp_get_pkt; [exact H1|left; by right|]. intros k Hk Hok.
    eapply wp_conseq; [eapply wp_mod_pkt; [exact H1|left|done]|]. intros [] s2 H2. by apply wp_ret.
  - by apply wp_ret, wp_ret.
Qed.

(** The router queue takes the packet, or frees it. *)
Lemma wp_qfifo_write T h s i p isr : Inv T (p :: h) s -> valid_if T i ->
  wp (csp_qfifo_write (Some p) (Some i) isr) (fun _ s' => Inv T h s') s.
Proof.
  intros HI Hi. unfold csp_qfifo_write. apply wp_bind, wp_gets. destruct (q_enqueue _ _) as [q'|] eqn:E.
  - apply wp_modify. by eapply Inv_qfifo_enq.
  - apply wp_bind. wp_use (by apply wp_incr_conn_ovf). intros [] s1 H1.
    apply wp_bind. wp_use (by apply wp_mod_iface). intros [] s2 H2. destruct isr; by apply wp_free.
Qed.
