(* ===== verification/OwnIo.v ===== *)
(** * OwnIo: the output path respects buffer ownership

    [csp_send_direct] consumes its packet on every branch, never frees a
    buffer twice, and its walks over interfaces and routes end. *)

From S2P Require Import Prelude State Monad Id Buffer Crc32 Hmac Iflist Rtable Qfifo Io RdpQueue Rdp Conn Own.

(** ** What may change in the configuration while a task waits

    The interfaces of the bridge stay, and a socket that listens goes on
    listening with its options. *)
Definition stable (T T' : config) : Prop :=
  cf_bridge T' = cf_bridge T /\ forall k o, cf_socks T !! k = Some (true, o) -> cf_socks T' !! k = Some (true, o).

#[export] Instance stable_preorder : PreOrder stable.
Proof. split; [by intros T|]. intros T1 T2 T3 [B1 S1] [B2 S2]. split; [congruence|auto]. Qed.

Lemma stable_refl T : stable T T.
Proof. reflexivity. Qed.
#[export] Hint Resolve stable_refl : core.

Lemma stable_listening T T' k : stable T T' -> listening T k -> listening T' k.
Proof. intros [_ Hs] [o Ho]. exists o. auto. Qed.

(** ** What the environment promises

    A transmit function disposes of the packet when it returns [CSP_ERR_NONE]
    and leaves it to the caller otherwise; a callback disposes of its packet.
    The tasks that run while this one waits keep the node well formed: they may
    come to hold packets ([o]) and change the configuration within [stable],
    but leave the packets of this task alone. *)
Class OwnLaws `{Platform} : Prop := {
  law_nexthop : forall T h s k i via p from_me, Inv T (p :: h) s -> valid_if T i ->
    wp (plat_nexthop k i via p from_me)
      (fun r s' => if r =? CSP_ERR_NONE then Inv T h s' else Inv T (p :: h) s') s;
  law_callback : forall T h s k p, Inv T (p :: h) s ->
    wp (plat_callback k p) (fun _ s' => exists T', Inv T' h s' /\ stable T T') s;
  law_yield : forall T h s n, Inv T h s -> exists T' o, Inv T' (h ++ o) (plat_yield n s) /\ stable T T'
}.

(** ** Checksums and tags *)

Lemma wp_hmac_tag T h s data (Q : list Z -> node -> Prop) : Inv T h s ->
  (forall tag, zlen tag = 4 -> Q tag s) -> wp (hmac_tag data) Q s.
Proof.
  intros H HQ. unfold wp. rewrite hmac_tag_run; [apply HQ, length_hmac_wire|].
  pose proof (cf_key_ok _ (inv_conf_ok _ _ _ H)) as Hk. by rewrite <- (inv_conf _ _ _ H) in Hk.
Qed.

(** Four bytes behind the data, as both [append] functions write them. *)
Lemma wp_append4 T h s p k tag : Inv T h s -> p ∈ h -> pkt_at p s = Some k -> zlen tag = 4 ->
  pkt_length k + 4 <= 256 ->
  wp (write_mem p (pkt_length k) tag ;;
      mod_pkt p (fun k => set_pkt_length (u16 (pkt_length k + 4)) k)) (fun _ s' => Inv T h s') s.
Proof.
  intros H Hp Hk Ht Hl. destruct (live_pkt s p) as (k' & Hk' & Hok); [by eapply Inv_live_h|]. simplify_eq.
  pose proof Hok as [Hm Hlen]. apply wp_bind. eapply wp_conseq; [eapply wp_write_mem; [done|done|done|lia|lia]|].
  intros [] s1 (H1 & m & Hk1). destruct (live_pkt s1 p) as (k1 & Hk1' & Hok1); [by eapply Inv_live_h|]. simplify_eq.
  eapply wp_conseq; [eapply (wp_mod_pkt_at _ _ _ _ _ _ H1 Hp Hk1)|by intros [] ? [? _]].
  destruct Hok1 as [Hm1 _]. split; [done|]. simpl in *. unfold CSP_BUFFER_SIZE. rewrite u16_small by lia. lia.
Qed.

Lemma wp_hmac_append T h s p : Inv T h s -> p ∈ h -> wp (csp_hmac_append p false) (fun _ s' => Inv T h s') s.
Proof.
  intros H Hp. unfold csp_hmac_append. apply wp_bind. eapply wp_get_pkt; [done|by left|]. intros k Hk Hok.
  destruct (Z.ltb_spec CSP_BUFFER_SIZE (pkt_length k + CSP_HMAC_LENGTH)); [by apply wp_ret|].
  destruct Hok as [Hm Hl]. unfold CSP_BUFFER_SIZE, CSP_HMAC_LENGTH in *.
  apply wp_bind, wp_bind. eapply wp_read_mem; [done|by left|lia..|]. intros data _.
  apply wp_bind. eapply wp_hmac_tag; [done|]. intros tag Ht.
  eapply wp_conseq; [by apply wp_append4|]. intros [] s1 H1. by apply wp_ret.
Qed.

Lemma wp_crc32_append T h s p : Inv T h s -> p ∈ h -> wp (csp_crc32_append p) (fun _ s' => Inv T h s') s.
Proof.
  intros H Hp. unfold csp_crc32_append. apply wp_bind. eapply wp_get_pkt; [done|by left|]. intros k Hk Hok.
  destruct (Z.ltb_spec CSP_BUFFER_SIZE (pkt_length k + 4)); [by apply wp_ret|].
  destruct Hok as [Hm Hl]. unfold CSP_BUFFER_SIZE in *.
  apply wp_bind. eapply wp_read_mem; [done|by left|lia..|]. intros data _. cbv zeta.
  apply wp_bind_assoc. apply wp_bind.
  eapply wp_conseq; [apply wp_append4; [done|done|done| |lia]|].
  - by rewrite length_le_bytes.
  - intros [] s1 H1. by apply wp_ret.
Qed.

(** ** The interface list *)

Lemma chain_of_static a h l : chain (map if_static a) h l -> chain a h l.
Proof.
  intros H. induction H as [|i x l Hx H IH]; [constructor|]. rewrite map_lookup in Hx.
  destruct (a !! i) as [y|] eqn:E; [|done]. simplify_eq/=. by apply (chain_cons _ _ y).
Qed.

Lemma Inv_bits T h s : Inv T h s -> csp_id_get_host_bits s = cf_bits T.
Proof. intros H. by rewrite <- (inv_conf _ _ _ H). Qed.

Lemma Inv_iflist T h s : Inv T h s -> exists l, chain (cf_ifs T) (cf_head T) l /\ iflist s l.
Proof.
  intros H. destruct (cf_list _ (inv_conf_ok _ _ _ H)) as [l Hl]. exists l. split; [done|].
  rewrite <- (inv_conf _ _ _ H) in Hl. by apply chain_of_static.
Qed.

(** The list of the configuration is the list of every state with it. *)
Lemma Inv_iflist_of T h s l : Inv T h s -> chain (cf_ifs T) (cf_head T) l -> iflist s l.
Proof. intros H Hl. rewrite <- (inv_conf _ _ _ H) in Hl. by apply chain_of_static. Qed.

Lemma Inv_mask T h s i x : Inv T h s -> ifs s !! i = Some x -> 0 <= if_netmask x <= csp_id_get_host_bits s.
Proof.
  intros H Hx. rewrite (Inv_bits _ _ _ H).
  change (if_netmask x) with (if_netmask (if_static x)).
  apply (cf_masks _ (inv_conf_ok _ _ _ H) i). rewrite <- (inv_conf _ _ _ H). simpl. by rewrite map_lookup, Hx.
Qed.

Lemma Inv_masks_ok T h s l : Inv T h s -> masks_ok s l.
Proof. intros H i x _ Hx. by eapply Inv_mask. Qed.

Lemma chain_valid T l i : chain (cf_ifs T) (cf_head T) l -> i ∈ l -> valid_if T i.
Proof. intros Hl Hi. apply lookup_lt_is_Some. by eapply chain_lookup. Qed.

Lemma find_rest {P : nat -> bool} l ifc r i : rest_after l ifc r -> find P r = Some i ->
  i ∈ l /\ exists r', rest_after l (Some i) r' /\ (length r' < length r)%nat.
Proof.
  intros Hr Hf. assert (Hsplit : exists a b, r = a ++ i :: b).
  { clear Hr. induction r as [|x r IH]; simpl in Hf; [done|]. destruct (P x).
    - simplify_eq. by exists [], r.
    - destruct (IH Hf) as (a & b & ->). by exists (x :: a), b. }
  destruct Hsplit as (a & b & ->). rewrite length_app. simpl.
  inversion Hr as [|l1 j l2]; subst.
  - split; [rewrite elem_of_app; right; left|]. exists b. split; [by apply (rest_some _ a)|lia].
  - split; [rewrite elem_of_app; right; right; rewrite elem_of_app; right; left|].
    exists b. split; [|lia]. apply (rest_some _ (l1 ++ j :: a)). by rewrite <- app_assoc.
Qed.

Lemma wp_within_subnet T h s addr i : Inv T h s -> valid_if T i ->
  wp (csp_iflist_is_within_subnet addr (Some i)) (fun _ s' => Inv T h s') s.
Proof.
  intros H Hi. simpl. apply wp_bind. eapply wp_get_iface; [done|done|]. intros x Hx.
  apply wp_bind, wp_gets, wp_of_option. unfold is_within_subnet, id.
  pose proof (Inv_mask _ _ _ _ _ H Hx). rewrite (proj2 (Z.ltb_ge _ _)) by lia. by eexists.
Qed.

Definition opt_valid (T : config) (i : option nat) : Prop := match i with Some i => valid_if T i | None => True end.

Lemma wp_split_horizon T h s i from : Inv T h s -> valid_if T i -> opt_valid T from ->
  wp (split_horizon i from) (fun _ s' => Inv T h s') s.
Proof.
  intros H Hi Hf. unfold split_horizon. case_bool_decide; [by apply wp_ret|].
  apply wp_bind. eapply wp_get_iface; [done|done|]. intros x Hx.
  destruct from; [by apply wp_within_subnet|by apply wp_ret].
Qed.

Lemma wp_is_broadcast T h s addr i x (Q : bool -> node -> Prop) : Inv T h s -> ifs s !! i = Some x ->
  (forall b, Q b s) -> wp (of_option (csp_id_is_broadcast s addr x)) Q s.
Proof.
  intros H Hx HQ. apply wp_of_option. unfold csp_id_is_broadcast.
  pose proof (Inv_mask _ _ _ _ _ H Hx). rewrite (proj2 (Z.ltb_ge _ _)) by lia. by eexists.
Qed.

(** ** Transmitting *)

Section Send.
Context `{OwnLaws}.

Lemma keeps_clone_promisc o : keeps promisc_queue (csp_buffer_clone o).
Proof.
  unfold csp_buffer_clone, csp_buffer_get, csp_buffer_get_actual, csp_packet_init, csp_buffer_copy. keeps_tac.
Qed.

Lemma wp_promisc_add T h s p : Inv T h s -> p ∈ h -> wp (csp_promisc_add p) (fun _ s' => Inv T h s') s.
Proof.
  intros HI Hp. unfold csp_promisc_add. apply wp_bind, wp_gets. destruct (_ =? 0); [by apply wp_ret|].
  apply wp_bind, wp_gets. destruct (promisc_queue s) as [q|] eqn:Eq0; [|by apply wp_ret].
  apply wp_bind.
  eapply wp_conseq; [apply (wp_keeps promisc_queue); [apply keeps_clone_promisc|by apply wp_buffer_clone]|].
  cbv beta. intros [c|] s1 [H1 Hk]; [|by apply wp_ret].
  apply wp_bind, wp_gets. destruct (promisc_queue s1) as [q1|] eqn:Eq; [|congruence].
  destruct (q_enqueue c q1) eqn:Ee.
  - apply wp_modify. by eapply Inv_promisc_enq.
  - apply wp_bind. eapply wp_conseq; [by apply wp_incr_conn_ovf|]. intros [] s2 H2. by apply wp_free.
Qed.

Lemma wp_send_prepare T h s idout p i from_me : Inv T h s -> p ∈ h ->
  wp (send_prepare idout p i from_me) (fun _ s' => Inv T h s') s.
Proof.
  intros HI Hp. unfold send_prepare. apply wp_bind. eapply wp_conseq; [by apply wp_mod_pkt|].
  intros [] s1 H1. destruct from_me; simpl negb; [|by apply wp_ret].
  apply wp_bind. apply (wp_conseq _ (fun _ s' => Inv T h s')).
  { destruct (_ &.& _); [|by apply wp_ret]. apply wp_bind. eapply wp_conseq; [by apply wp_hmac_append|].
    intros r s2 H2. by apply wp_ret. }
  intros ok s2 H2. destruct ok; simpl negb; [|by apply wp_ret].
  apply wp_bind. apply (wp_conseq _ (fun _ s' => Inv T h s')).
  { destruct (_ &.& _); [|by apply wp_ret]. apply wp_bind. eapply wp_conseq; [by apply wp_crc32_append|].
    intros r s3 H3. by apply wp_ret. }
  intros ok s3 H3. destruct ok; simpl negb; [|by apply wp_ret].
  apply wp_bind, wp_when; intros _; [|by apply wp_ret].
  eapply wp_conseq; [by apply wp_promisc_add|]. intros [] s4 H4. by apply wp_ret.
Qed.

Lemma wp_tx_err T h s p i : Inv T (p :: h) s -> valid_if T i -> wp (tx_err p i) (fun _ s' => Inv T h s') s.
Proof.
  intros HI Hi. unfold tx_err. apply wp_bind. eapply wp_conseq; [by apply wp_free|].
  intros [] s1 H1. by apply wp_incr_tx_error.
Qed.

Lemma wp_send_direct_iface T h s idout p i via from_me : Inv T (p :: h) s -> valid_if T i ->
  wp (csp_send_direct_iface idout p i via from_me) (fun _ s' => Inv T h s') s.
Proof.
  intros HI Hi. unfold csp_send_direct_iface. apply wp_bind.
  eapply wp_conseq; [apply wp_send_prepare; [done|left]|]. intros ok s1 H1.
  destruct ok; simpl negb; [|by apply wp_tx_err].
  apply wp_bind. eapply wp_get_pkt; [done|left; left|]. intros k Hk Hok.
  apply wp_bind. eapply wp_get_iface; [done|done|]. intros x Hx. apply wp_bind.
  eapply wp_conseq; [by apply law_nexthop|]. cbv beta; intros r s2 H2.
  destruct (r =? CSP_ERR_NONE); simpl negb; [by apply wp_mod_iface|by apply wp_tx_err].
Qed.

Lemma wp_send_copy T h s idout p i via from_me : Inv T h s -> p ∈ h -> valid_if T i ->
  wp (send_copy idout p i via from_me) (fun _ s' => Inv T h s') s.
Proof.
  intros HI Hp Hi. unfold send_copy. apply wp_bind. eapply wp_conseq; [by apply wp_buffer_clone|].
  intros [c|] s1 H1; [by apply wp_send_direct_iface|by apply wp_ret].
Qed.

(** The walk over the subnet interfaces; [r] is what is left of the list. *)
Lemma wp_send_local T h l fuel idout idout' p from from_me found ifc r s :
  chain (cf_ifs T) (cf_head T) l -> Inv T h s -> p ∈ h -> opt_valid T from ->
  rest_after l ifc r -> (length r < fuel)%nat ->
  wp (send_local fuel idout idout' p from from_me found ifc) (fun _ s' => Inv T h s') s.
Proof.
  intros Hl HI Hp Hfrom. revert idout' found ifc r s HI.
  induction fuel as [|fuel IH]; intros idout' found ifc r s HI Hr Hf; [lia|]. simpl.
  apply wp_bind. unfold wp at 1.
  erewrite get_by_subnet_find; [|by eapply Inv_iflist_of|exact Hr|by eapply Inv_masks_ok].
  destruct (find _ r) as [i|] eqn:Ef; [|by apply wp_ret].
  destruct (find_rest _ _ _ _ Hr Ef) as (Hi & r' & Hr' & Hlt).
  pose proof (chain_valid _ _ _ Hl Hi) as Hvi.
  apply wp_bind. eapply wp_conseq; [by apply wp_split_horizon|]. intros skip s1 H1.
  destruct skip; [apply (IH _ _ _ r'); [done|done|lia]|].
  apply wp_bind. eapply wp_get_iface; [done|done|]. intros x Hx. cbv zeta.
  apply wp_bind, wp_gets. unfold id. apply wp_bind. eapply wp_is_broadcast; [done|done|]. intros bc.
  apply wp_bind. eapply wp_conseq; [by apply wp_send_copy|]. intros [] s2 H2.
  apply (IH _ _ _ r'); [done|done|lia].
Qed.

Lemma wp_send_default T h l fuel idout p from from_me ifc r s :
  chain (cf_ifs T) (cf_head T) l -> Inv T h s -> p ∈ h -> opt_valid T from ->
  rest_after l ifc r -> (length r < fuel)%nat ->
  wp (send_default fuel idout p from from_me ifc) (fun _ s' => Inv T h s') s.
Proof.
  intros Hl HI Hp Hfrom. revert idout ifc r s HI.
  induction fuel as [|fuel IH]; intros idout ifc r s HI Hr Hf; [lia|]. simpl.
  apply wp_bind. unfold wp at 1. erewrite get_by_isdfl_find; [|by eapply Inv_iflist_of|exact Hr].
  destruct (find _ r) as [i|] eqn:Ef; [|by apply wp_ret].
  destruct (find_rest _ _ _ _ Hr Ef) as (Hi & r' & Hr' & Hlt).
  pose proof (chain_valid _ _ _ Hl Hi) as Hvi.
  apply wp_bind. eapply wp_conseq; [by apply wp_split_horizon|]. intros skip s1 H1.
  destruct skip; [apply (IH _ _ r'); [done|done|lia]|].
  apply wp_bind. eapply wp_get_iface; [done|done|]. intros x Hx. cbv zeta.
  apply wp_bind. eapply wp_conseq; [by apply wp_send_copy|]. intros [] s2 H2.
  apply (IH _ _ r'); [done|done|lia].
Qed.

(** ** Routes *)

Lemma rt_best_defined hb addr l : (forall j r, l !! j = Some r -> 0 <= rt_netmask r <= hb) ->
  forall n best mask, exists res, rt_best hb addr n l best mask = Some res /\
    (res = best \/ exists i, res = Some i /\ (i < n + length l)%nat).
Proof.
  induction l as [|r l IH]; intros Hl n best mask; simpl; [eexists; by eauto|].
  assert (Hr : 0 <= rt_netmask r <= hb) by (by apply (Hl O)).
  assert (Hl' : forall j r, l !! j = Some r -> 0 <= rt_netmask r <= hb) by (intros j; apply (Hl (S j))).
  unfold rt_match. rewrite (proj2 (Z.ltb_ge _ _)) by lia.
  destruct (_ =? _); [destruct (mask <=? _)|].
  - destruct (IH Hl' (S n) (Some n) (rt_netmask r)) as (res & -> & [->|(i & -> & Hi)]);
      eexists; (split; [done|]); right; eexists; (split; [done|lia]).
  - destruct (IH Hl' (S n) best mask) as (res & -> & [->|(i & -> & Hi)]); eexists; (split; [done|]);
      [by left|right; eexists; split; [done|lia]].
  - destruct (IH Hl' (S n) best mask) as (res & -> & [->|(i & -> & Hi)]); eexists; (split; [done|]);
      [by left|right; eexists; split; [done|lia]].
Qed.

Definition row_used (T : config) (j : nat) : Prop := (j < Z.to_nat (cf_inptr T))%nat.

Lemma wp_get_route T h s j (Q : csp_route -> node -> Prop) : Inv T h s -> row_used T j ->
  (forall r i, rt_iface r = Some i -> valid_if T i -> Q r s) -> wp (get_route j) Q s.
Proof.
  intros HI Hj HQ. unfold get_route. apply wp_bind, wp_gets. unfold id.
  pose proof (inv_conf_ok _ _ _ HI) as Hok. pose proof (cf_inptr_le _ Hok).
  destruct (lookup_lt_is_Some_2 (cf_rtable T) j) as [r Hr]; [unfold row_used in Hj; lia|].
  destruct (cf_routes _ Hok j r Hr Hj) as (_ & i & Hi & Hv).
  rewrite <- (inv_conf _ _ _ HI) in Hr. simpl in Hr. rewrite Hr. by apply (HQ r i).
Qed.

Lemma wp_find_route T h s addr : Inv T h s ->
  wp (csp_rtable_find_route addr) (fun r s' => Inv T h s' /\ match r with Some j => row_used T j | None => True end) s.
Proof.
  intros HI. unfold csp_rtable_find_route. apply wp_bind, wp_gets. unfold id.
  pose proof (inv_conf_ok _ _ _ HI) as Hok. pose proof (cf_inptr_le _ Hok).
  destruct (rt_best_defined (csp_id_get_host_bits s) addr (rt_used s)) with (n := O) (best := @None nat) (mask := 0)
    as (res & Hres & Hcase).
  - intros j r Hj. unfold rt_used in Hj. apply lookup_take_Some in Hj as [Hj Hlt].
    rewrite (Inv_bits _ _ _ HI). apply (cf_routes _ Hok j r); rewrite <- (inv_conf _ _ _ HI); done.
  - rewrite Hres. apply wp_ret. split; [done|]. destruct Hcase as [->|(i & -> & Hi)]; [done|].
    unfold row_used. rewrite <- (inv_conf _ _ _ HI). simpl. unfold rt_used in Hi. rewrite length_take in Hi. lia.
Qed.

Lemma rt_back_lt t start n j : rt_back t start n = Some j -> (j < n)%nat.
Proof.
  induction n as [|n IH]; simpl; [done|]. destruct (t !! n); [|done].
  destruct (_ && _); [intros; simplify_eq; lia|]. intros Hj. apply IH in Hj. lia.
Qed.

Lemma wp_send_routes T h fuel idout p from from_me route s :
  Inv T h s -> p ∈ h -> opt_valid T from -> row_used T route -> (route < fuel)%nat ->
  wp (send_routes fuel idout p from from_me route) (fun _ s' => Inv T h s') s.
Proof.
  intros HI Hp Hfrom. revert idout route s HI.
  induction fuel as [|fuel IH]; intros idout route s HI Hr Hf; [lia|]. simpl.
  apply wp_bind. eapply wp_get_route; [done|done|]. intros r i Hi Hv. rewrite Hi.
  apply wp_bind, wp_ret. apply wp_bind. eapply wp_conseq; [by apply wp_split_horizon|]. intros skip s1 H1.
  apply wp_bind. apply (wp_conseq _ (fun _ s' => Inv T h s')).
  { destruct skip; [by apply wp_ret|]. apply wp_bind. eapply wp_get_iface; [done|done|]. intros x Hx. cbv zeta.
    apply wp_bind. eapply wp_conseq; [by apply wp_send_copy|]. intros [] s2 H2. by apply wp_ret. }
  intros idout' s2 H2. apply wp_bind. simpl. apply wp_bind, wp_gets. unfold id. apply wp_bind.
  pose proof (inv_conf_ok _ _ _ H2) as Hok. pose proof (cf_inptr_le _ Hok). unfold row_used in Hr.
  destruct (lookup_lt_is_Some_2 (cf_rtable T) route) as [r2 Hr2]; [lia|].
  rewrite <- (inv_conf _ _ _ H2) in Hr2. simpl in Hr2. rewrite Hr2. apply wp_ret, wp_ret.
  destruct (rt_back _ r2 route) as [j|] eqn:Eb; [|by apply wp_ret]. apply rt_back_lt in Eb.
  apply IH; [done|unfold row_used; lia|lia].
Qed.

(** ** [csp_send_direct] *)

Lemma wp_send_direct T h s idout p from : Inv T (p :: h) s -> opt_valid T from ->
  wp (csp_send_direct idout p from) (fun _ s' => Inv T h s') s.
Proof.
  intros HI Hfrom. unfold csp_send_direct. cbv zeta. apply wp_bind.
  eapply wp_get_iface; [done|apply (cf_lo _ (inv_conf_ok _ _ _ HI))|]. intros lo Hlo.
  destruct (_ =? if_addr lo).
  { apply wp_bind. eapply wp_conseq; [apply wp_send_direct_iface; [done|apply (cf_lo _ (inv_conf_ok _ _ _ HI))]|].
    intros [] s1 H1. by apply wp_ret. }
  apply wp_bind, wp_gets. unfold id. destruct (cf_list _ (inv_conf_ok _ _ _ HI)) as [l Hl].
  assert (Hfuel : (length l < if_fuel s)%nat).
  { unfold if_fuel. rewrite <- (Inv_nifs _ _ _ HI). apply chain_length in Hl. lia. }
  assert (Hfree : forall s1 (i : csp_id), Inv T (p :: h) s1 ->
    wp (csp_buffer_free (Some p) ;; mret i) (fun _ s' => Inv T h s') s1).
  { intros s1 i H1. apply wp_bind. eapply wp_conseq; [by apply wp_free|]. intros [] s2 H2. by apply wp_ret. }
  apply wp_bind. eapply wp_conseq; [apply (wp_send_local T (p :: h) l) with (r := l); [done|done|left|done|constructor|done]|].
  intros found s1 H1. destruct found; [by apply Hfree|].
  apply wp_bind. apply (wp_conseq _ (fun r s' => Inv T (p :: h) s' /\ match r with Some j => row_used T j | None => True end)).
  { destruct CSP_USE_RTABLE; [by apply wp_find_route|by apply wp_ret]. }
  intros [j|] s2 [H2 Hj].
  - apply wp_bind. eapply wp_conseq; [apply (wp_send_routes T); [done|left|done|done|]|].
    + pose proof (cf_inptr_le _ (inv_conf_ok _ _ _ HI)) as Hle. unfold row_used in Hj.
      rewrite <- (inv_conf _ _ _ HI) in Hle, Hj. simpl in *. lia.
    + intros i s3 H3. by apply Hfree.
  - apply wp_bind. eapply wp_conseq; [apply (wp_send_default T (p :: h) l) with (r := l); [done|done|left|done|constructor|done]|].
    intros i s3 H3. by apply Hfree.
Qed.

End Send.
