(* ===== verification/OwnRdp.v ===== *)
(** * OwnRdp: the RDP engine respects buffer ownership

    Every packet given to [csp_rdp_new_packet] ends in one queue or back in the
    pool, the retransmission and reordering queues keep what they own, and all
    loops over them end. *)

From S2P Require Import Prelude State Monad Id Buffer Iflist Io RdpQueue Rdp Conn RdpProto Own OwnIo.

(** ** The shared packet queues *)

Definition rq_len (d : rdp_dir) (s : node) : nat := length (q_items (rq_get d s)).
Definition rq_cap (d : rdp_dir) (s : node) : nat := q_cap (rq_get d s).

(** The packet carries at least an RDP header. *)
Definition long (p : nat) (s : node) : Prop := exists k, pkt_at p s = Some k /\ RDP_HEADER_SIZE <= pkt_length k.

Lemma rq_get_set d q s : rq_get d (rq_set d q s) = q.
Proof. by destruct d. Qed.
Lemma rq_set_pkt d q s p : pkt_at p (rq_set d q s) = pkt_at p s.
Proof. by destruct d. Qed.

Lemma held_cons_not T p h s : Inv T (p :: h) s -> p ∉ h.
Proof.
  intros H Hin%cnt_pos. pose proof (own_le _ _ _ p H) as Hc. rewrite cnt_cons in Hc.
  destruct (Nat.eq_dec p p); [lia|done].
Qed.

Lemma keeps_buffer_free {B} (f : node -> B) o :
  (forall v s, f (set_pool v s) = f s) -> (forall v s, f (set_csp_buffers v s) = f s) ->
  (forall v s, f (set_dbg v s) = f s) -> keeps f (csp_buffer_free o).
Proof.
  intros H1 H2 H3. unfold csp_buffer_free, csp_buffer_free_pkt, set_errno. destruct o; [|apply keeps_ret].
  apply keeps_bind; [apply keeps_get_skbf|]. intros b.
  assert (Hm : forall g, (forall s, f (g s) = f s) -> keeps f (modify g)) by (intros; by apply keeps_modify).
  destruct (negb _); [by apply Hm|]. destruct (_ =? 0); [by apply Hm|]. cbv zeta.
  apply keeps_bind; [by apply keeps_mod_skbf|]. intros _. destruct (_ <? _); [by apply Hm|].
  apply keeps_bind; [apply keeps_gets|]. intros q. destruct (q_enqueue n q); [by apply Hm|apply keeps_ret].
Qed.

Lemma wp_rdp_queue_add T h s d c p : Inv T (p :: h) s -> (d = RdpRx -> long p s) ->
  wp (csp_rdp_queue_add d c p)
    (fun _ s' => Inv T h s' /\ held_same h s s' /\ (rq_len d s' <= S (rq_len d s))%nat /\ rq_cap d s' = rq_cap d s /\
       ((rq_len d s < rq_cap d s)%nat -> p ∈ q_items (rq_get d s'))) s.
Proof.
  intros H Hd. pose proof (held_cons_not _ _ _ _ H) as Hn. unfold csp_rdp_queue_add. apply wp_bind.
  destruct (live_pkt s p) as (k & Hk & Hok); [eapply Inv_live_h; [done|left]|].
  unfold wp at 1. rewrite (mod_pkt_at _ _ _ _ Hk). set (s1 := put_pkt _ _ _).
  assert (H1 : Inv T (p :: h) s1) by (apply Inv_put_pkt; [done|left|done]).
  assert (Hk1 : pkt_at p s1 = Some (set_pkt_conn (Some c) k)) by (by eapply pkt_at_put).
  assert (Hs : held_same h s s1).
  { intros q Hq. unfold pkt_at, s1, put_pkt. simpl. rewrite list_lookup_alter_ne; [done|]. by intros ->. }
  assert (Hl : rq_len d s1 = rq_len d s) by (by destruct d).
  apply wp_bind, wp_gets. destruct (q_enqueue p (rq_get d s1)) as [q'|] eqn:E.
  - apply wp_modify. pose proof (q_enqueue_items _ _ _ E) as Hq. split_and!.
    + eapply Inv_rq_enq; [exact H1|exact E|]. intros Hd'. specialize (Hd Hd') as (k' & Hk' & Hlen).
      simplify_eq. by eexists.
    + intros q Hq'. rewrite rq_set_pkt. auto.
    + unfold rq_len at 1. rewrite rq_get_set, Hq, length_app. unfold rq_len in *. simpl. lia.
    + unfold rq_cap. rewrite rq_get_set. apply q_enqueue_bound in E as [-> _]. by destruct d.
    + intros _. rewrite rq_get_set, Hq. apply elem_of_app. right. left.
  - eapply wp_conseq; [apply (wp_keeps (rq_get d)); [apply keeps_buffer_free; by destruct d|by apply wp_buffer_free]|].
    cbv beta. intros [] s2 [[H2 Hs2] Hrq]. split_and!; [done| | | |].
    + intros q Hq. rewrite Hs2 by done. auto.
    + unfold rq_len in *. rewrite Hrq. lia.
    + unfold rq_cap. rewrite Hrq. by destruct d.
    + intros Hroom. exfalso. unfold q_enqueue in E. case_decide as Hfull; [done|]. apply Hfull.
      unfold rq_len, rq_cap in Hroom. unfold q_size. destruct d; exact Hroom.
Qed.

Lemma held_same_trans h s1 s2 s3 : held_same h s1 s2 -> held_same h s2 s3 -> held_same h s1 s3.
Proof. intros H1 H2 q Hq. rewrite H2 by done. auto. Qed.

Lemma held_same_cons h p s s' : held_same (p :: h) s s' -> held_same h s s'.
Proof. intros H q Hq. apply H. by right. Qed.

Lemma wp_rdp_rotate T h s n d c : Inv T h s ->
  wp (rdp_queue_rotate n d c) (fun r s' => held_same h s s' /\
    match r with
    | Some p => Inv T (p :: h) s' /\ (d = RdpRx -> long p s') /\ (rq_len d s' < rq_len d s)%nat /\ rq_cap d s' = rq_cap d s
    | None => Inv T h s' /\ (rq_len d s' <= rq_len d s)%nat /\ rq_cap d s' = rq_cap d s
    end) s.
Proof.
  revert s. induction n as [|n IH]; intros s H; [by apply wp_ret|]. simpl.
  apply wp_bind, wp_gets. destruct (q_dequeue (rq_get d s)) as [[p q']|] eqn:E; [|by apply wp_ret].
  destruct (Inv_rq_deq _ _ _ _ _ _ H E) as [H1 Hlong]. pose proof (q_dequeue_bound _ _ _ E) as [Hcq _].
  apply q_dequeue_items in E.
  assert (Hl : rq_len d s = S (rq_len d (rq_set d q' s))) by (unfold rq_len; by rewrite rq_get_set, E).
  assert (Hcap : rq_cap d (rq_set d q' s) = rq_cap d s) by (unfold rq_cap; by rewrite rq_get_set).
  apply wp_bind, wp_modify. apply wp_bind. eapply wp_get_pkt; [done|left; left|]. intros k Hk Hok.
  case_bool_decide.
  - apply wp_ret. split; [intros q _; apply rq_set_pkt|]. split_and!; [done| |lia|done].
    intros Hd. destruct (Hlong Hd) as (k' & Hk' & Hlen). exists k'. by rewrite rq_set_pkt.
  - apply wp_bind. wp_use (apply wp_rdp_queue_add; [exact H1|]; intros Hd; destruct (Hlong Hd) as (k' & Hk' & Hlen);
      exists k'; by rewrite rq_set_pkt).
    intros [] s2 (H2 & Hs2 & Hl2 & Hc2 & _). eapply wp_conseq; [by apply IH|]. cbv beta.
    intros r s3 [Hs3 Hr]. split.
    + intros q Hq. rewrite Hs3, Hs2 by done. apply rq_set_pkt.
    + destruct r; [destruct Hr as (? & ? & ? & ?)|destruct Hr as (? & ? & ?)]; split_and!; try done; try lia; congruence.
Qed.

Lemma wp_rdp_queue_get T h s d c : Inv T h s ->
  wp (csp_rdp_queue_get d c) (fun r s' => held_same h s s' /\
    match r with
    | Some p => Inv T (p :: h) s' /\ (d = RdpRx -> long p s') /\ (rq_len d s' < rq_len d s)%nat /\ rq_cap d s' = rq_cap d s
    | None => Inv T h s' /\ (rq_len d s' <= rq_len d s)%nat /\ rq_cap d s' = rq_cap d s
    end) s.
Proof. intros H. unfold csp_rdp_queue_get, csp_rdp_queue_size. apply wp_bind, wp_gets. by apply wp_rdp_rotate. Qed.

Lemma wp_rdp_drain T h s n d c : Inv T h s -> wp (rdp_queue_drain n d c) (fun _ s' => Inv T h s') s.
Proof.
  revert s. induction n as [|n IH]; intros s H; [by apply wp_ret|]. simpl.
  apply wp_bind, wp_gets. destruct (q_dequeue (rq_get d s)) as [[p q']|] eqn:E; [|by apply wp_ret].
  destruct (Inv_rq_deq _ _ _ _ _ _ H E) as [H1 Hlong].
  apply wp_bind, wp_modify. apply wp_bind. eapply wp_get_pkt; [done|left; left|]. intros k Hk Hok.
  case_bool_decide.
  - apply wp_bind. wp_use (by apply wp_free). intros [] s2 H2. by apply IH.
  - apply wp_bind, wp_gets. rewrite rq_get_set. destruct (q_enqueue p q') as [q2|] eqn:E2.
    2: { pose proof (q_dequeue_bound _ _ _ E) as [Hcap Hsz]. pose proof (inv_rq _ _ _ H d). unfold q_enqueue in E2.
         rewrite decide_True in E2; [done|]. lia. }
    apply wp_bind, wp_modify. apply IH. eapply Inv_rq_enq; [done|by rewrite rq_get_set|].
    intros Hd. destruct (Hlong Hd) as (k' & Hk' & Hlen). exists k'. by rewrite rq_set_pkt.
Qed.

Lemma wp_rdp_flush T h s c : Inv T h s -> wp (csp_rdp_queue_flush (Some c)) (fun _ s' => Inv T h s') s.
Proof.
  intros H. simpl. unfold csp_rdp_queue_size. apply wp_bind, wp_gets. apply wp_bind.
  wp_use (by apply wp_rdp_drain). intros [] s1 H1. apply wp_bind, wp_gets. by apply wp_rdp_drain.
Qed.

(** ** Headers *)

Lemma wp_header_add T h s p : Inv T h s -> p ∈ h ->
  wp (csp_rdp_header_add p) (fun r s' => Inv T h s' /\
    match r with Some off => 0 <= off /\ off + RDP_HEADER_SIZE <= 256 | None => True end) s.
Proof.
  intros H Hp. unfold csp_rdp_header_add. apply wp_bind. eapply wp_get_pkt; [done|by left|]. intros k Hk Hok.
  destruct (Z.ltb_spec CSP_BUFFER_SIZE (pkt_length k + RDP_HEADER_SIZE)); [by apply wp_ret|].
  pose proof Hok as [Hm Hl]. unfold CSP_BUFFER_SIZE, RDP_HEADER_SIZE in *.
  apply wp_bind. eapply wp_conseq; [eapply (wp_mod_pkt_at _ _ _ _ _ _ H Hp Hk)|].
  { split; [done|]. simpl. unfold CSP_BUFFER_SIZE. rewrite u16_small; lia. }
  cbv beta. intros [] s1 [H1 Hk1]. apply wp_bind.
  eapply wp_conseq; [eapply (wp_write_mem _ _ _ _ _ _ _ H1 Hp Hk1); [lia|simpl; lia]|].
  cbv beta. intros [] s2 [H2 _]. apply wp_ret. split; [done|lia].
Qed.

Lemma length_hdr_bytes h : zlen (hdr_bytes h) = RDP_HEADER_SIZE.
Proof. unfold hdr_bytes. cbn [length]. rewrite length_app, !length_le_bytes. done. Qed.

Lemma wp_write_hdr T h s p off hd : Inv T h s -> p ∈ h -> -8 <= off -> off + RDP_HEADER_SIZE <= 256 ->
  wp (write_hdr p off hd) (fun _ s' => Inv T h s') s.
Proof.
  intros H Hp Ho Hl. destruct (live_pkt s p) as (k & Hk & _); [by eapply Inv_live_h|]. unfold write_hdr.
  eapply wp_conseq; [eapply (wp_write_mem _ _ _ _ _ _ _ H Hp Hk); [done|rewrite length_hdr_bytes; lia]|].
  by intros [] ? [? _].
Qed.

Lemma wp_read_hdr T h s p off (Q : rdp_header -> node -> Prop) : Inv T h s -> (p ∈ h \/ p ∈ refs s) ->
  -8 <= off -> off + RDP_HEADER_SIZE <= 256 -> (forall hd, Q hd s) -> wp (read_hdr p off) Q s.
Proof.
  intros H Hp Ho Hl HQ. unfold read_hdr. apply wp_bind. unfold RDP_HEADER_SIZE in *.
  eapply wp_read_mem; [done|done|lia..|]. intros bs _. by apply wp_ret.
Qed.

Lemma wp_header_ref T h s p (Q : Z -> node -> Prop) : Inv T h s -> (p ∈ h \/ p ∈ refs s) ->
  (forall off, -5 <= off -> off + RDP_HEADER_SIZE <= 256 -> Q off s) -> wp (csp_rdp_header_ref p) Q s.
Proof.
  intros H Hp HQ. unfold csp_rdp_header_ref. apply wp_bind. eapply wp_get_pkt; [done|done|].
  intros k Hk [_ Hl]. apply wp_ret. apply HQ; unfold RDP_HEADER_SIZE, CSP_BUFFER_SIZE in *; lia.
Qed.

Lemma wp_sem_post T h s c : Inv T h s -> (c < CSP_CONN_MAX)%nat -> wp (csp_bin_sem_post c) (fun _ s' => Inv T h s') s.
Proof. intros. by apply wp_mod_rdp. Qed.

(** ** Sending control messages and closing *)

Section RdpOwn.
Context `{OwnLaws}.

(** Up to [n] buffers were lost: no one holds them, no queue has them. *)
Definition Lost (n : nat) (T : config) (h : list nat) (s : node) : Prop :=
  exists L, (length L <= n)%nat /\ Inv T (h ++ L) s.

Lemma Lost_none n T h s : Inv T h s -> Lost n T h s.
Proof. intros HI. exists []. split; [simpl; lia|by rewrite app_nil_r]. Qed.

Lemma Lost_one T h s p : Inv T (p :: h) s -> Lost 1 T h s.
Proof.
  intros HI. exists [p]. split; [done|]. eapply Inv_perm; [|exact HI]. intros q. rewrite cnt_app, !cnt_cons, cnt_nil. lia.
Qed.

Lemma wp_Lost {A} (m : M A) n T h s : wp m (fun _ s' => Inv T h s') s -> wp m (fun _ s' => Lost n T h s') s.
Proof. apply wp_mono. intros a s' H1. by apply Lost_none. Qed.

(** The retransmission copy of a SYN. *)
Lemma wp_syn_clone T h s c p : Inv T h s -> p ∈ h ->
  wp (rdp_packet ← csp_buffer_clone (Some p);
      match rdp_packet with
      | None => mret false
      | Some r => now ← csp_get_ms; mod_pkt r (set_timestamp_tx now) ;; csp_rdp_queue_tx_add c r ;; mret true
      end) (fun _ s' => Inv T h s') s.
Proof.
  intros HI Hp. apply wp_bind. wp_use (by apply wp_buffer_clone). intros [r|] s1 H1; [|by apply wp_ret].
  apply wp_bind. wp_use (by apply (wp_get_ms T (r :: h))). intros now s2 H2.
  apply wp_bind. wp_use (apply (wp_mod_pkt T (r :: h)); [done|left|done]). intros [] s3 H3.
  apply wp_bind. wp_use (by apply (wp_rdp_queue_add T h)). intros [] s4 (H4 & _). by apply wp_ret.
Qed.

(** A control message.  When the copy of a SYN cannot be made, its packet is
    neither sent nor freed. *)
Lemma wp_send_cmp T h s c packet flg seq_nr ack_nr : Inv T (opt_held packet h) s -> (c < CSP_CONN_MAX)%nat ->
  wp (csp_rdp_send_cmp c packet flg seq_nr ack_nr)
    (fun _ s' => if flg &.& RDP_SYN then Lost 1 T h s' else Inv T h s') s.
Proof.
  intros HI Hc. assert (Hlift : forall s', Inv T h s' -> if flg &.& RDP_SYN then Lost 1 T h s' else Inv T h s').
  { intros s' Hs'. destruct (_ &.& _); [by apply Lost_none|done]. }
  unfold csp_rdp_send_cmp. apply wp_bind.
  apply (wp_conseq _ (fun r s' => match r with Some p => Inv T (p :: h) s' | None => Inv T h s' end)).
  { destruct packet as [p|]; simpl in HI; [by apply wp_ret|]. apply wp_bind. wp_use (by apply wp_buffer_get).
    intros [p|] s1 [H1 _]; [|by apply wp_ret]. apply wp_bind.
    wp_use (apply (wp_mod_pkt T (p :: h)); [done|left|];
      intros k [Hm Hl]; split; [done|simpl; unfold CSP_BUFFER_SIZE; lia]).
    intros [] s2 H2. by apply wp_ret. }
  clear s HI packet. intros [p|] s H1; [|by apply wp_ret, Hlift].
  apply wp_bind. apply (wp_conseq _ (fun _ s' => Inv T (p :: h) s')).
  { apply wp_when; intros _; [by apply wp_mod_rdp|done]. }
  intros [] s2 H2. apply wp_bind. wp_use (by apply wp_get_ms). intros now s3 H3.
  apply wp_bind. wp_use (by apply wp_mod_rdp). intros [] s4 H4.
  apply wp_bind. wp_use (apply wp_header_add; [done|left]). intros [off|] s5 [H5 Hoff].
  2: { apply wp_bind. wp_use (by apply wp_free). intros [] s6 H6. by apply wp_ret, Hlift. }
  apply wp_bind, wp_gets. unfold id. apply wp_bind.
  wp_use (apply (wp_write_hdr T (p :: h)); [done|left|lia|lia]). intros [] s6 H6.
  apply wp_bind, wp_modify. apply wp_bind.
  apply (wp_conseq _ (fun ok s' => Inv T (p :: h) s' /\ (flg &.& RDP_SYN = false -> ok = true))).
  { set (s7 := set_rdp_incr _ s6). assert (H7 : Inv T (p :: h) s7) by (destruct H6; by constructor).
    destruct (flg &.& RDP_SYN); [|by apply wp_ret]. eapply wp_conseq; [apply (wp_syn_clone T (p :: h)); [done|left]|].
    cbv beta. by intros ok s8 H8. }
  intros ok s7 [H7 Hok]. destruct ok; simpl negb.
  2: { apply wp_ret. destruct (flg &.& RDP_SYN); [by apply (Lost_one T h s7 p)|]. discriminate (Hok eq_refl). }
  apply wp_bind. eapply wp_get_conn; [done|done|]. intros x Hx.
  apply wp_bind. wp_use (by apply wp_send_direct). intros i s8 H8. by apply wp_ret, Hlift.
Qed.

(** A control message without a packet of its own. *)
Lemma wp_ctl T h s c flg a b : Inv T h s -> (c < CSP_CONN_MAX)%nat -> flg &.& RDP_SYN = false ->
  wp (_ ← csp_rdp_send_cmp c None flg a b; mret tt) (fun _ s' => Inv T h s') s.
Proof.
  intros HI Hc Hf. apply wp_bind. wp_use (by apply (wp_send_cmp T h)). intros r s1 H1. rewrite Hf in H1. by apply wp_ret.
Qed.

Lemma wp_close_internal T h s c closed rst : Inv T h s -> (c < CSP_CONN_MAX)%nat ->
  wp (csp_rdp_close_internal c closed rst) (fun _ s' => Inv T h s') s.
Proof.
  intros HI Hc. unfold csp_rdp_close_internal. apply wp_bind. eapply wp_get_conn; [done|done|]. intros x Hx.
  destruct (decide _); [by apply wp_ret|]. apply wp_bind. wp_use (by apply wp_mod_rdp). intros [] s1 H1.
  apply wp_bind. eapply wp_get_conn; [done|done|]. intros x1 Hx1. apply wp_bind.
  apply (wp_conseq _ (fun _ s' => Inv T h s')).
  { apply wp_when; intros _; [|done]. apply wp_bind. wp_use (by apply wp_mod_rdp). intros [] s2 H2.
    apply wp_bind. wp_use (by apply wp_get_ms). intros now s3 H3.
    apply wp_bind. wp_use (apply wp_mod_conn; [done|done|]; intros y; split; [done|by left]). intros [] s4 H4.
    apply wp_bind. apply (wp_conseq _ (fun _ s' => Inv T h s')).
    - apply wp_when; intros _; [|done]. apply wp_bind. eapply wp_get_conn; [done|done|]. intros y Hy. by apply wp_ctl.
    - intros [] s5 H5. by apply wp_sem_post. }
  intros [] s2 H2. apply wp_bind. eapply wp_get_conn; [done|done|]. intros x2 Hx2.
  destruct (negb _); [by apply wp_ret|]. apply wp_bind. wp_use (by apply wp_mod_rdp). intros [] s3 H3. by apply wp_ret.
Qed.

(** Emptying the receive queue of a connection, with its length as variant. *)
Lemma wp_flush_rx T h s c : Inv T h s -> (c < CSP_CONN_MAX)%nat ->
  wp (csp_conn_flush_rx_queue c) (fun _ s' => Inv T h s') s.
Proof.
  intros HI Hc. unfold csp_conn_flush_rx_queue. apply wp_bind. eapply wp_get_conn; [done|done|]. intros x Hx.
  apply (wp_while_loop (fun k s => Inv T h s /\ exists y, arr_conn s !! c = Some y /\ length (q_items (conn_rxq y)) = k))
    with (k := q_size (conn_rxq x)); [lia|by eauto|].
  clear s HI x Hx. intros k s (HI & y & Hy & <-). apply wp_bind. eapply wp_get_conn; [done|done|].
  intros y' Hy'. simplify_eq. destruct (q_dequeue (conn_rxq y)) as [[o q']|] eqn:E; [|by apply wp_ret].
  apply q_dequeue_items in E. apply wp_bind.
  eapply wp_conseq; [apply wp_and; [eapply (wp_conn_rxq T h (opt_held o h) _ _ _ q' HI Hy)|]|].
  - intros p. unfold conn_refs. rewrite E.
    destruct o as [p'|]; rewrite ?omap_id_some, ?omap_id_none; cbn [opt_held]; rewrite ?cnt_cons; lia.
  - instantiate (1 := fun _ s' => exists y', arr_conn s' !! c = Some y' /\ q_items (conn_rxq y') = q_items q').
    unfold wp, mod_conn. rewrite Hy. eexists. simpl. rewrite list_lookup_insert_eq; [done|].
    apply lookup_lt_is_Some. by eexists.
  - cbv beta. intros [] s1 [[H1 _] (y1 & Hy1 & Hq1)].
    assert (Hlen : (length (q_items (conn_rxq y1)) < length (q_items (conn_rxq y)))%nat) by (rewrite Hq1, E; simpl; lia).
    apply wp_bind. destruct o as [p|]; simpl in H1.
    + eapply wp_conseq; [apply (wp_keeps arr_conn); [apply keeps_buffer_free; done|by apply wp_free]|].
      cbv beta. intros [] s2 [H2 Hk]. apply wp_ret. eexists. split; [exact Hlen|]. split; [done|].
      exists y1. by rewrite Hk.
    + apply wp_ret, wp_ret. eexists. split; [exact Hlen|]. split; [done|]. by exists y1.
Qed.

Lemma wp_conn_close T h s c closed : Inv T h s -> (c < CSP_CONN_MAX)%nat ->
  wp (csp_conn_close (Some c) closed) (fun _ s' => Inv T h s') s.
Proof.
  intros HI Hc. simpl. apply wp_bind. eapply wp_get_conn; [done|done|]. intros x Hx.
  destruct (decide _).
  { apply wp_bind. wp_use (by apply wp_set_errno). intros [] s1 H1. by apply wp_ret. }
  apply wp_bind. apply (wp_conseq _ (fun _ s' => Inv T h s')).
  { destruct (is_rdp x); [by apply wp_close_internal|by apply wp_ret]. }
  intros r s1 H1. destruct (r =? CSP_ERR_AGAIN); [by apply wp_ret|].
  apply wp_bind. wp_use (by apply wp_flush_rx). intros [] s2 H2.
  apply wp_bind. eapply wp_get_conn; [done|done|]. intros x2 Hx2. apply wp_bind.
  apply (wp_conseq _ (fun _ s' => Inv T h s')).
  { apply wp_when; intros _; [by apply wp_rdp_flush|done]. }
  intros [] s3 H3. apply wp_bind. wp_use (apply wp_mod_conn; [done|done|]; intros y; split; [done|by left]).
  intros [] s4 H4. by apply wp_ret.
Qed.

(** ** Receiving *)

Lemma wp_conn_enqueue T h s c o : Inv T (opt_held o h) s -> (c < CSP_CONN_MAX)%nat ->
  wp (csp_conn_enqueue_packet c o)
    (fun r s' => if r =? CSP_ERR_NONE then Inv T h s' else Inv T (opt_held o h) s') s.
Proof.
  intros HI Hc. unfold csp_conn_enqueue_packet. apply wp_bind. eapply wp_get_conn; [done|done|]. intros x Hx.
  destruct (q_enqueue o (conn_rxq x)) as [q'|] eqn:E.
  - apply q_enqueue_items in E. apply wp_bind.
    eapply wp_conseq; [eapply (wp_conn_rxq T _ h _ _ _ q' HI Hx)|].
    + intros p. unfold conn_refs. rewrite E, omap_app', cnt_app.
      destruct o as [p'|]; rewrite ?omap_id_some, ?omap_id_none; cbn [opt_held]; rewrite ?cnt_cons;
        change (omap id []) with (@nil nat); rewrite cnt_nil; lia.
    + cbv beta. intros [] s1 [H1 _]. by apply wp_ret.
  - apply wp_bind. wp_use (by apply wp_incr_conn_ovf). intros [] s1 H1. by apply wp_ret.
Qed.

Lemma wp_receive_data T h s c p : Inv T (p :: h) s -> (c < CSP_CONN_MAX)%nat -> long p s ->
  wp (csp_rdp_receive_data c p) (fun r s' => if r =? CSP_ERR_NONE then Inv T h s' else Inv T (p :: h) s') s.
Proof.
  intros HI Hc (k & Hk & Hl). unfold csp_rdp_receive_data, csp_rdp_header_remove.
  destruct (live_pkt s p) as (k' & Hk' & Hok); [eapply Inv_live_h; [done|left]|]. simplify_eq. destruct Hok as [Hm Hlen].
  apply wp_bind. eapply wp_conseq; [eapply (wp_mod_pkt_at _ _ _ _ _ _ HI); [left|exact Hk|]|].
  { split; [done|]. simpl. unfold RDP_HEADER_SIZE, CSP_BUFFER_SIZE in *. rewrite u16_small; lia. }
  cbv beta. intros [] s1 [H1 _]. apply wp_bind. wp_use (by apply (wp_conn_enqueue T h)). intros r s2 H2.
  destruct (r =? CSP_ERR_NONE) eqn:E; simpl negb; [by apply wp_ret|].
  apply wp_bind. wp_use (by apply wp_incr_conn_ovf). intros [] s3 H3. by apply wp_ret.
Qed.

Lemma keeps_receive_data c p : keeps (rq_get RdpRx) (csp_rdp_receive_data c p).
Proof. unfold csp_rdp_receive_data, csp_rdp_header_remove, csp_conn_enqueue_packet. keeps_tac. Qed.

Lemma wp_hdr_seq T h s p (Q : Z -> node -> Prop) : Inv T h s -> (p ∈ h \/ p ∈ refs s) ->
  (forall z, Q z s) -> wp (hdr_seq p) Q s.
Proof.
  intros HI Hp HQ. unfold hdr_seq. apply wp_bind. eapply wp_header_ref; [done|done|]. intros off Ho Hl.
  apply wp_bind. eapply wp_read_hdr; [done|done|lia|done|]. intros hd. by apply wp_ret.
Qed.

Lemma wp_rx_flush_pass T h s n c : Inv T h s -> (c < CSP_CONN_MAX)%nat ->
  wp (rx_flush_pass n c) (fun again s' => Inv T h s' /\
    (if again : bool then (rq_len RdpRx s' < rq_len RdpRx s)%nat else True)) s.
Proof.
  intros HI Hc. revert s HI. assert (Hgen : forall s0 s, Inv T h s -> (rq_len RdpRx s <= rq_len RdpRx s0)%nat ->
    wp (rx_flush_pass n c) (fun again s' => Inv T h s' /\
      (if again : bool then (rq_len RdpRx s' < rq_len RdpRx s0)%nat else True)) s).
  2: { intros s HI. by apply Hgen. }
  intros s0. induction n as [|n IH]; intros s HI Hle; [by apply wp_ret|]. simpl.
  apply wp_bind. eapply wp_get_conn; [done|done|]. intros x Hx. destruct (Nat.leb _ 2); [by apply wp_ret|].
  apply wp_bind. wp_use (by apply (wp_rdp_queue_get T h)). intros [p|] s1 [_ H1]; [|destruct H1; by apply wp_ret].
  destruct H1 as (H1 & Hlong & Hlt & _). specialize (Hlong eq_refl).
  apply wp_bind. eapply wp_hdr_seq; [done|left; left|]. intros seq.
  apply wp_bind. eapply wp_get_conn; [done|done|]. intros x1 Hx1. destruct (seq =? _).
  - apply wp_bind. eapply wp_conseq; [eapply (wp_keeps (rq_get RdpRx)); [apply keeps_receive_data|by apply (wp_receive_data T h)]|].
    cbv beta. intros r s2 [H2 Hk2]. apply wp_bind.
    apply (wp_conseq _ (fun _ s' => Inv T h s' /\ rq_get RdpRx s' = rq_get RdpRx s2)).
    { apply wp_when; intros Hr.
      - apply wp_keeps; [by apply (keeps_buffer_free (rq_get RdpRx) (Some p))|]. apply negb_true_iff in Hr. rewrite Hr in H2. by apply wp_free.
      - apply negb_false_iff in Hr. by rewrite Hr in H2. }
    intros [] s3 [H3 Hk3]. apply wp_bind.
    eapply wp_conseq; [apply (wp_keeps (rq_get RdpRx)); [unfold mod_rdp; by apply keeps_mod_conn|by apply wp_mod_rdp]|].
    cbv beta. intros [] s4 [H4 Hk4]. apply wp_ret. split; [done|]. unfold rq_len in *. rewrite Hk4, Hk3, Hk2. lia.
  - apply wp_bind. wp_use (by apply (wp_rdp_queue_add T h)). intros [] s2 (H2 & _ & Hl2 & _). apply IH; [done|]. lia.
Qed.

Lemma wp_rx_queue_flush T h s c : Inv T h s -> (c < CSP_CONN_MAX)%nat ->
  wp (csp_rdp_rx_queue_flush c) (fun _ s' => Inv T h s') s.
Proof.
  intros HI Hc. unfold csp_rdp_rx_queue_flush, csp_rdp_queue_rx_size, csp_rdp_queue_size. apply wp_bind, wp_gets.
  apply (wp_while_loop (fun k s => Inv T h s /\ rq_len RdpRx s = k)) with (k := rq_len RdpRx s);
    [unfold rq_len, q_size; lia|done|].
  clear s HI. intros k s [HI <-]. apply wp_bind, wp_gets. apply wp_bind. wp_use (by apply (wp_rx_flush_pass T h)).
  intros [|] s1 [H1 Hl]; apply wp_ret; [|done]. by exists (rq_len RdpRx s1).
Qed.

(** [p] stays in hand, with its contents, while the queue is searched. *)
Lemma wp_seq_in_rx T h s n c z : Inv T h s ->
  wp (seq_in_rx n c z) (fun _ s' => Inv T h s' /\ held_same h s s') s.
Proof.
  revert s. induction n as [|n IH]; intros s HI; [by apply wp_ret|]. simpl.
  apply wp_bind. wp_use (by apply (wp_rdp_queue_get T h)). intros [p|] s1 [Hs1 H1]; [|destruct H1; by apply wp_ret].
  destruct H1 as (H1 & Hlong & Hlt & Hcap). specialize (Hlong eq_refl).
  assert (Hroom : (rq_len RdpRx s1 < rq_cap RdpRx s1)%nat).
  { pose proof (inv_rq _ _ _ HI RdpRx) as Hb. unfold rq_len, rq_cap, q_size in *. lia. }
  apply wp_bind. wp_use (by apply (wp_rdp_queue_add T h)). intros [] s2 (H2 & Hs2 & _ & _ & Hin). specialize (Hin Hroom).
  apply wp_bind. eapply wp_hdr_seq; [done| |].
  { right. unfold refs. rewrite !elem_of_app. tauto. }
  intros seq. destruct (seq =? z).
  - apply wp_ret. split; [done|]. by eapply held_same_trans.
  - eapply wp_conseq; [by apply IH|]. cbv beta. intros b s3 [H3 Hs3]. split; [done|].
    eapply held_same_trans; [|done]. by eapply held_same_trans.
Qed.

Lemma long_same h p s s' : held_same h s s' -> p ∈ h -> long p s -> long p s'.
Proof. intros Hs Hp (k & Hk & Hl). exists k. by rewrite Hs. Qed.

Lemma wp_rx_queue_add T h s c p z : Inv T (p :: h) s -> long p s ->
  wp (csp_rdp_rx_queue_add c p z) (fun r s' => if r =? CSP_ERR_NONE then Inv T h s' else Inv T (p :: h) s') s.
Proof.
  intros HI Hl. unfold csp_rdp_rx_queue_add, csp_rdp_seq_in_rx_queue, csp_rdp_queue_rx_size, csp_rdp_queue_size.
  apply wp_bind, wp_bind, wp_gets. wp_use (by apply (wp_seq_in_rx T (p :: h))). intros found s1 [H1 Hs1].
  destruct found; [by apply wp_ret|]. apply wp_bind.
  wp_use (apply (wp_rdp_queue_add T h); [done|]; intros _; eapply long_same; [exact Hs1|left|done]).
  intros [] s2 (H2 & _). by apply wp_ret.
Qed.

Lemma wp_should_ack T h s c : Inv T h s -> (c < CSP_CONN_MAX)%nat ->
  wp (csp_rdp_should_ack c) (fun _ s' => Inv T h s') s.
Proof.
  intros HI Hc. unfold csp_rdp_should_ack. apply wp_bind. eapply wp_get_conn; [done|done|]. intros x Hx.
  destruct (_ =? 0); [by apply wp_ret|]. apply wp_bind. wp_use (by apply wp_get_ms). intros now s1 H1. cbv zeta.
  destruct (csp_rdp_time_after _ _); by apply wp_ret.
Qed.

Lemma wp_check_ack T h s c : Inv T h s -> (c < CSP_CONN_MAX)%nat ->
  wp (csp_rdp_check_ack c) (fun _ s' => Inv T h s') s.
Proof.
  intros HI Hc. unfold csp_rdp_check_ack. apply wp_bind. eapply wp_get_conn; [done|done|]. intros x Hx.
  destruct (_ <=? _); [by apply wp_ret|]. apply wp_bind. wp_use (by apply wp_should_ack). intros ack s1 H1.
  apply wp_bind. apply (wp_conseq _ (fun _ s' => Inv T h s')).
  { apply wp_when; intros _; [|done]. apply wp_bind. eapply wp_get_conn; [done|done|]. intros y Hy. by apply wp_ctl. }
  intros [] s2 H2. by apply wp_ret.
Qed.

(** The same, for the call sites that drop the result. *)
Lemma wp_check_ack' T h s c : Inv T h s -> (c < CSP_CONN_MAX)%nat ->
  wp (_ ← csp_rdp_check_ack c; mret tt) (fun _ s' => Inv T h s') s.
Proof. intros. apply wp_bind. wp_use (by apply wp_check_ack). intros r s1 H2'. by apply wp_ret. Qed.

(** ** Timeouts *)

(** The copy that goes out again. *)
Lemma wp_resend T h s c p off hd : Inv T (p :: h) s -> (c < CSP_CONN_MAX)%nat ->
  -8 <= off -> off + RDP_HEADER_SIZE <= 256 ->
  wp (new_packet ← csp_buffer_get;
      match new_packet with
      | None => mret tt
      | Some n =>
          write_hdr p off hd ;;
          now ← csp_get_ms;
          mod_rdp c (set_ack_timestamp now) ;;
          now ← csp_get_ms;
          mod_pkt p (set_timestamp_tx now) ;;
          csp_buffer_copy (Some p) (Some n) ;;
          x ← get_conn c;
          i ← csp_send_direct (idout x) n None;
          mod_conn c (set_idout i)
      end) (fun _ s' => Inv T (p :: h) s') s.
Proof.
  intros HI Hc Ho Hl. apply wp_bind. wp_use (by apply wp_buffer_get). intros [n|] s1 [H1 _]; [|by apply wp_ret].
  assert (Hp : p ∈ n :: p :: h) by (right; left).
  apply wp_bind. wp_use (by apply (wp_write_hdr T (n :: p :: h))). intros [] s2 H2.
  apply wp_bind. wp_use (by apply (wp_get_ms T (n :: p :: h))). intros now s3 H3.
  apply wp_bind. wp_use (by apply (wp_mod_rdp T (n :: p :: h))). intros [] s4 H4.
  apply wp_bind. wp_use (by apply (wp_get_ms T (n :: p :: h))). intros now' s5 H5.
  apply wp_bind. wp_use (by apply (wp_mod_pkt T (n :: p :: h))). intros [] s6 H6.
  apply wp_bind. simpl. apply wp_bind. eapply wp_get_pkt; [done|by left|]. intros k Hk Hok.
  wp_use (apply (wp_mod_pkt T (n :: p :: h)); [done|left|done]). intros [] s7 H7.
  apply wp_bind. eapply wp_get_conn; [done|done|]. intros x Hx.
  apply wp_bind. wp_use (by apply (wp_send_direct T (p :: h))). intros i s8 H8.
  apply wp_mod_conn; [done|done|]. intros y. split; [done|by left].
Qed.

Lemma wp_retransmit_one T h s c now : Inv T h s -> (c < CSP_CONN_MAX)%nat ->
  wp (retransmit_one c now) (fun _ s' => Inv T h s') s.
Proof.
  intros HI Hc. unfold retransmit_one. apply wp_bind. wp_use (by apply (wp_rdp_queue_get T h _ RdpTx)).
  intros [p|] s1 [_ H1]; [|destruct H1; by apply wp_ret]. destruct H1 as (H1 & _).
  apply wp_bind. eapply wp_header_ref; [done|left; left|]. intros off Ho Hl.
  apply wp_bind. eapply wp_read_hdr; [done|left; left|lia|done|]. intros hd.
  apply wp_bind. eapply wp_get_conn; [done|done|]. intros x Hx.
  destruct (csp_rdp_seq_before _ _).
  { apply wp_bind. wp_use (by apply wp_free). intros [] s2 H2. by apply wp_ret. }
  apply wp_bind. eapply wp_get_pkt; [done|left; left|]. intros k Hk Hok. apply wp_bind.
  apply (wp_conseq _ (fun _ s' => Inv T (p :: h) s')).
  { apply wp_when; intros _; [apply wp_resend; [done|done|lia|done]|done]. }
  intros [] s2 H2. apply wp_bind. wp_use (by apply (wp_rdp_queue_add T h)). intros [] s3 (H3 & _). by apply wp_ret.
Qed.

Lemma wp_retransmit T h s n c now : Inv T h s -> (c < CSP_CONN_MAX)%nat ->
  wp (retransmit n c now) (fun _ s' => Inv T h s') s.
Proof.
  intros HI Hc. revert s HI. induction n as [|n IH]; intros s HI; [by apply wp_ret|]. simpl.
  apply wp_bind. wp_use (by apply wp_retransmit_one). intros go s1 H1. destruct go; [by apply IH|by apply wp_ret].
Qed.

Lemma wp_close_if_expired T h s c now : Inv T h s -> (c < CSP_CONN_MAX)%nat ->
  wp (close_if_expired c now) (fun _ s' => Inv T h s') s.
Proof.
  intros HI Hc. unfold close_if_expired. apply wp_bind. eapply wp_get_conn; [done|done|]. intros x Hx. cbv zeta.
  destruct (_ && _); [|destruct (_ && _)]; [| |by apply wp_ret];
    (apply wp_bind; wp_use (by apply wp_conn_close); intros r s1 H1; by apply wp_ret).
Qed.

Lemma wp_rdp_check_timeouts T h s c : Inv T h s -> (c < CSP_CONN_MAX)%nat ->
  wp (csp_rdp_check_timeouts c) (fun _ s' => Inv T h s') s.
Proof.
  intros HI Hc. unfold csp_rdp_check_timeouts, csp_rdp_queue_tx_size, csp_rdp_queue_size.
  apply wp_bind. wp_use (by apply wp_get_ms). intros now s1 H1.
  apply wp_bind. wp_use (by apply wp_close_if_expired). intros closed s2 H2. destruct closed; [by apply wp_ret|].
  apply wp_bind, wp_gets. apply wp_bind. wp_use (by apply wp_retransmit). intros [] s3 H3.
  apply wp_bind. eapply wp_get_conn; [done|done|]. intros x Hx. apply wp_bind.
  apply (wp_conseq _ (fun _ s' => Inv T h s')).
  { apply wp_when; intros _; [|done]. apply wp_bind. apply (wp_conseq _ (fun _ s' => Inv T h s')).
    - apply wp_when; intros _; [by apply wp_check_ack'|done].
    - intros [] s4 H4. apply wp_bind. eapply wp_get_conn; [done|done|]. intros y Hy.
      apply wp_when; intros _; [by apply wp_sem_post|done]. }
  intros [] s4 H4. by apply wp_rx_queue_flush.
Qed.

(** ** Incoming packets *)

(** Whether the packet was taken depends on the label the handler leaves by. *)
Definition exit_inv (T : config) (h : list nat) (p : nat) (e : rdp_exit) (s : node) : Prop :=
  match e with accepted_open => Inv T h s | _ => Inv T (p :: h) s end.

(** The same, with a SYN+ACK that may have been lost on the way. *)
Definition exit_lost (T : config) (h : list nat) (p : nat) (e : rdp_exit) (s : node) : Prop :=
  exists L, (length L <= 1)%nat /\ exit_inv T (h ++ L) p e s.

Lemma exit_lift T h p e s : exit_inv T h p e s -> exit_lost T h p e s.
Proof. intros He. exists []. split; [simpl; lia|]. by rewrite app_nil_r. Qed.

Lemma wp_send_ctl T h s c flg : Inv T h s -> (c < CSP_CONN_MAX)%nat -> flg &.& RDP_SYN = false ->
  wp (send_ctl c flg) (fun _ s' => Inv T h s') s.
Proof. intros HI Hc Hf. unfold send_ctl. apply wp_bind. eapply wp_get_conn; [done|done|]. intros x Hx. by apply wp_ctl. Qed.

Lemma wp_send_synack T h s c : Inv T h s -> (c < CSP_CONN_MAX)%nat -> wp (send_synack c) (fun _ s' => Lost 1 T h s') s.
Proof.
  intros HI Hc. unfold send_synack. apply wp_bind. eapply wp_get_conn; [done|done|]. intros x Hx.
  apply wp_bind. wp_use (by apply (wp_send_cmp T h)). intros r s1 H1. by apply wp_ret.
Qed.

Lemma wp_stamp T h s c : Inv T h s -> (c < CSP_CONN_MAX)%nat ->
  wp (now ← csp_get_ms; mod_conn c (set_conn_timestamp now)) (fun _ s' => Inv T h s') s.
Proof.
  intros HI Hc. apply wp_bind. wp_use (by apply wp_get_ms). intros now s1 H1.
  apply wp_mod_conn; [done|done|]. intros y. split; [done|by left].
Qed.

Lemma wp_new_packet_rst T h s c p hd : Inv T (p :: h) s -> (c < CSP_CONN_MAX)%nat ->
  wp (new_packet_rst c hd) (exit_inv T h p) s.
Proof.
  intros HI Hc. unfold new_packet_rst. apply wp_bind. apply (wp_conseq _ (fun _ s' => Inv T (p :: h) s')).
  { apply wp_when; intros _; [by apply wp_mod_rdp|done]. }
  intros [] s1 H1. apply wp_bind. eapply wp_get_conn; [done|done|]. intros x Hx. cbv zeta.
  destruct (decide _); [by apply wp_ret|]. destruct (decide _); [by apply wp_ret|].
  destruct (_ =? _); [|by apply wp_ret].
  apply wp_bind. wp_use (by apply wp_mod_rdp). intros [] s2 H2. apply wp_bind_assoc, wp_bind.
  wp_use (by apply wp_stamp). intros [] s3 H3. apply wp_bind. wp_use (by apply wp_send_ctl). intros [] s4 H4. by apply wp_ret.
Qed.

Lemma wp_new_packet_closed T h s c p hd : Inv T (p :: h) s -> (c < CSP_CONN_MAX)%nat ->
  wp (new_packet_closed c p hd) (exit_lost T h p) s.
Proof.
  intros HI Hc. unfold new_packet_closed. destruct (negb _).
  { apply wp_bind. wp_use (by apply wp_send_ctl). intros [] s1 H1. by apply wp_ret, exit_lift. }
  apply wp_bind. wp_use (by apply wp_get_ms). intros seed s1 H1. cbv zeta.
  apply wp_bind. wp_use (by apply wp_mod_rdp). intros [] s2 H2.
  apply wp_bind. wp_use (by apply wp_mod_rdp). intros [] s3 H3.
  apply wp_bind. eapply wp_read_mem; [done|left; left|lia..|]. intros opts _.
  apply wp_bind. wp_use (by apply wp_mod_rdp). intros [] s4 H4.
  apply wp_bind. wp_use (by apply wp_mod_rdp). intros [] s5 H5.
  apply wp_bind. wp_use (by apply wp_send_synack). intros [] s6 H6. by apply wp_ret.
Qed.

Lemma wp_new_packet_syn_sent T h s c p hd : Inv T (p :: h) s -> (c < CSP_CONN_MAX)%nat ->
  wp (new_packet_syn_sent c hd) (exit_inv T h p) s.
Proof.
  intros HI Hc. unfold new_packet_syn_sent. destruct (_ && _); [|destruct (_ &.& _); [|by apply wp_ret]].
  - apply wp_bind. wp_use (by apply wp_mod_rdp). intros [] s1 H1.
    apply wp_bind. wp_use (by apply wp_get_ms). intros now s2 H2.
    apply wp_bind. wp_use (by apply wp_mod_rdp). intros [] s3 H3.
    apply wp_bind. wp_use (by apply wp_send_ctl). intros [] s4 H4.
    apply wp_bind. wp_use (by apply wp_sem_post). intros [] s5 H5. by apply wp_ret.
  - apply wp_bind. wp_use (by apply wp_send_ctl). intros [] s4 H4.
    apply wp_bind. wp_use (by apply wp_sem_post). intros [] s5 H5. by apply wp_ret.
Qed.

(** A connection goes into the queue of its socket. *)
Lemma wp_sock_push_conn T h s k so q c q' : Inv T h s -> accepting T k -> (c < CSP_CONN_MAX)%nat ->
  socks s !! k = Some so -> sock_rxq so = Some q ->
  q_enqueue (SConn c) q = Some q' -> wp (mod_sock k (set_sock_rxq (Some q'))) (fun _ s' => Inv T h s') s.
Proof.
  intros HI Hacc Hc Hk Hq He. eapply wp_sock_rxq; [done|done|done| |].
  { eapply sock_ok_enqueue; [by eapply (inv_socks _ _ _ HI)|done|done|]. split; [by eapply accepting_opts|done]. }
  intros p. apply q_enqueue_items in He.
  unfold sock_refs. simpl. rewrite Hq, He, omap_app', cnt_app. simpl. rewrite ?cnt_nil. lia.
Qed.

Lemma wp_syn_rcvd_ack T h s c hd : Inv T h s -> (c < CSP_CONN_MAX)%nat -> conn_dest T c s ->
  wp (syn_rcvd_ack c hd) (fun _ s' => Inv T h s') s.
Proof.
  intros HI Hc Hdest. unfold syn_rcvd_ack. apply wp_bind. eapply wp_get_conn; [done|done|]. intros x Hx.
  destruct (negb _); [by apply wp_ret|]. apply wp_bind. wp_use (by apply wp_mod_rdp). intros [] s1 H1.
  destruct (dest_socket x) as [k|] eqn:Ed; [|by apply wp_ret].
  pose proof (Hdest x Hx k Ed) as Hacc. pose proof (accepting_listening _ _ Hacc) as Hlis.
  apply wp_bind. eapply wp_get_sock; [done|done|]. intros so q Hso Hq. rewrite Hq. apply wp_bind, wp_ret.
  destruct (q_enqueue (SConn c) q) as [q'|] eqn:E; [|by apply wp_ret].
  apply wp_bind. wp_use (by eapply wp_sock_push_conn). intros [] s2 H2.
  apply wp_bind. wp_use (apply wp_mod_conn; [done|done|]; intros y; split; [done|intros _ k' Hk'; discriminate]).
  intros [] s3 H3. by apply wp_ret.
Qed.

Lemma wp_new_packet_data T h s c p hd : Inv T (p :: h) s -> (c < CSP_CONN_MAX)%nat -> long p s ->
  wp (new_packet_data c p hd) (exit_inv T h p) s.
Proof.
  intros HI Hc Hl. unfold new_packet_data. apply wp_bind. eapply wp_get_conn; [done|done|]. intros x Hx.
  destruct (negb _).
  - apply wp_bind. wp_use (by apply (wp_rx_queue_add T h)). intros r s1 H1.
    destruct (r =? CSP_ERR_NONE); simpl negb; [by apply wp_ret|].
    apply wp_bind. wp_use (by apply wp_check_ack). intros z s2 H2. by apply wp_ret.
  - apply wp_bind. wp_use (by apply (wp_receive_data T h)). intros r s1 H1.
    destruct (r =? CSP_ERR_NONE); simpl negb; [|by apply wp_ret].
    apply wp_bind. wp_use (by apply wp_mod_rdp). intros [] s2 H2.
    apply wp_bind. wp_use (by apply wp_check_ack). intros z s3 H3.
    apply wp_bind. wp_use (by apply wp_rx_queue_flush). intros [] s4 H4. by apply wp_ret.
Qed.

Lemma wp_new_packet_open T h s c p hd : Inv T (p :: h) s -> (c < CSP_CONN_MAX)%nat -> conn_dest T c s ->
  wp (new_packet_open c p hd) (exit_lost T h p) s.
Proof.
  intros HI Hc Hdest. unfold new_packet_open. apply wp_bind. eapply wp_get_conn; [done|done|]. intros x Hx. cbv zeta.
  destruct (_ || _); [apply wp_ret, exit_lift; by destruct (negb _)|].
  destruct (negb (seq_in_window _ _)).
  { apply wp_bind. apply wp_when; intros _; [|by apply wp_ret, exit_lift]. wp_use (by apply wp_send_synack). intros [] s1 H1. by apply wp_ret. }
  apply (wp_mono _ (exit_inv T h p)); [intros e s'; apply exit_lift|].
  destruct (negb (ack_in_window _ _)); [by apply wp_ret|].
  apply wp_bind. apply (wp_conseq _ (fun _ s' => Inv T (p :: h) s')).
  { destruct (decide _); [by apply wp_syn_rcvd_ack|by apply wp_ret]. }
  intros ok s1 H1. destruct (negb ok); [by apply wp_ret|].
  apply wp_bind. eapply wp_get_conn; [done|done|]. intros x1 Hx1. apply wp_bind.
  apply (wp_conseq _ (fun _ s' => Inv T (p :: h) s')).
  { apply wp_when; intros _; [by apply wp_stamp|done]. }
  intros [] s2 H2. apply wp_bind. wp_use (by apply wp_mod_rdp). intros [] s3 H3.
  destruct (_ &.& _); [by apply wp_ret|].
  apply wp_bind. eapply wp_get_pkt; [done|left; left|]. intros k Hk Hok.
  destruct (Z.leb_spec (pkt_length k) RDP_HEADER_SIZE); [by apply wp_ret|].
  apply wp_new_packet_data; [done|done|]. exists k. split; [done|lia].
Qed.

Lemma wp_new_packet_close_wait T h s c p hd : Inv T (p :: h) s -> (c < CSP_CONN_MAX)%nat ->
  wp (new_packet_close_wait c hd) (exit_inv T h p) s.
Proof.
  intros HI Hc. unfold new_packet_close_wait. destruct (_ || _); [by apply wp_ret|].
  apply wp_bind. eapply wp_get_conn; [done|done|]. intros x Hx. destruct (negb _); [by apply wp_ret|].
  apply wp_bind. wp_use (by apply wp_mod_rdp). intros [] s1 H1.
  apply wp_bind. wp_use (by apply wp_send_ctl). intros [] s2 H2. by apply wp_ret.
Qed.

Lemma wp_new_packet_exit_exact T h s c p e : exit_inv T h p e s -> (c < CSP_CONN_MAX)%nat ->
  wp (new_packet_exit c p e) (fun _ s' => Inv T h s') s.
Proof.
  intros HI Hc. unfold new_packet_exit. destruct e; simpl in HI; [| |by apply wp_ret].
  - apply wp_bind. eapply wp_get_conn; [done|done|]. intros x Hx. apply wp_bind.
    apply (wp_conseq _ (fun _ s' => Inv T (p :: h) s')).
    + destruct (dest_socket x).
      * apply wp_bind. wp_use (by apply wp_conn_close). intros r s1 H1. by apply wp_ret.
      * apply wp_bind. wp_use (by apply wp_conn_close). intros r s1 H1. apply wp_bind.
        wp_use (by apply (wp_conn_enqueue T (p :: h) _ _ None)). intros z s2 H2. apply wp_ret. by destruct (z =? _).
    + intros [] s1 H1. apply wp_bind. wp_use (by apply wp_free). intros [] s2 H2. by apply wp_ret.
  - apply wp_bind. wp_use (by apply wp_free). intros [] s2 H2. by apply wp_ret.
Qed.

Lemma wp_new_packet_exit T h s c p e : exit_lost T h p e s -> (c < CSP_CONN_MAX)%nat ->
  wp (new_packet_exit c p e) (fun _ s' => Lost 1 T h s') s.
Proof.
  intros (L & HL & He) Hc. wp_use (by apply (wp_new_packet_exit_exact T (h ++ L))). intros z s1 H1. by exists L.
Qed.

(** Every packet given to the engine is consumed. *)
Lemma wp_rdp_new_packet T h s c p : Inv T (p :: h) s -> (c < CSP_CONN_MAX)%nat -> conn_dest T c s ->
  wp (csp_rdp_new_packet c p) (fun _ s' => Lost 1 T h s') s.
Proof.
  intros HI Hc Hdest. unfold csp_rdp_new_packet. apply wp_bind. eapply wp_header_ref; [done|left; left|]. intros off Ho Hl.
  apply wp_bind. eapply wp_read_hdr; [done|left; left|lia|done|]. intros hd. cbv zeta. set (hd' := mkHdr _ _ _).
  apply wp_bind. eapply wp_conseq; [apply (wp_keeps arr_conn); [unfold write_hdr; keeps_tac|apply (wp_write_hdr T (p :: h)); [done|left|lia|done]]|].
  cbv beta. intros [] s1 [H1 Ec]. assert (Hd1 : conn_dest T c s1) by (unfold conn_dest; by rewrite Ec).
  apply wp_bind. apply (wp_conseq _ (exit_lost T h p)); [|intros e s2 H2; by apply wp_new_packet_exit].
  assert (Hlift : forall m, wp m (exit_inv T h p) s1 -> wp m (exit_lost T h p) s1).
  { intros m. apply wp_mono. intros e s'. apply exit_lift. }
  unfold new_packet_switch. destruct (_ &.& _); [by apply Hlift, wp_new_packet_rst|].
  apply wp_bind. eapply wp_get_conn; [done|done|]. intros x Hx. destruct (rdp_state (conn_rdp x)).
  - by apply wp_new_packet_closed.
  - by apply Hlift, wp_new_packet_syn_sent.
  - by apply wp_new_packet_open.
  - by apply wp_new_packet_open.
  - by apply Hlift, wp_new_packet_close_wait.
Qed.

End RdpOwn.
