(* ===== verification/OwnRoute.v ===== *)
(** * OwnRoute: the router is safe

    One turn of the router ([csp_route_work]) or of the bridge, from a
    well-formed node: it returns, meets no undefined behaviour, consumes the
    packet it took, and leaves the node well formed. *)

From S2P Require Import Prelude State Monad Id Buffer Crc32 Hmac Iflist Qfifo Io RdpQueue Rdp Conn RdpProto Api.
From S2P Require Import Route Own OwnIo OwnRdp.

(** ** Checks on a packet *)

Lemma wp_crc32_verify T h s p : Inv T h s -> p ∈ h -> wp (csp_crc32_verify p) (fun _ s' => Inv T h s') s.
Proof.
  intros HI Hp. destruct (live_pkt s p) as (k & Hk & Hok); [by eapply Inv_live_h|]. pose proof Hok as [Hm Hl].
  pose proof (crc_verify_run p k s Hk Hm Hl) as Hrun. unfold wp.
  destruct (Z.ltb_spec (pkt_length k) 4); [by rewrite Hrun|].
  destruct Hrun as (data & tail & m & _ & _ & Hw & ->). apply mem_write_length in Hw.
  assert (Hf : packet_ok (framed p (hdr_size s) m k)) by (split; [simpl; by rewrite Hw|done]).
  destruct (crc_accepts _ _ _ _); apply Inv_put_pkt; try done.
  destruct Hf as [Hf1 Hf2]. split; [done|]. simpl in *. lia.
Qed.

Lemma wp_hmac_verify T h s p : Inv T h s -> p ∈ h -> wp (csp_hmac_verify p false) (fun _ s' => Inv T h s') s.
Proof.
  intros HI Hp. unfold csp_hmac_verify. apply wp_bind. eapply wp_get_pkt; [done|by left|]. intros k Hk Hok.
  pose proof Hok as [Hm Hl]. unfold CSP_HMAC_LENGTH, CSP_BUFFER_SIZE in *.
  destruct (Z.ltb_spec (pkt_length k) 4); [by apply wp_ret|].
  apply wp_bind. eapply wp_read_mem; [done|by left|lia..|]. intros data _.
  apply wp_bind. eapply wp_hmac_tag; [done|]. intros tag _.
  apply wp_bind. eapply wp_read_mem; [done|by left|lia..|]. intros got _.
  case_bool_decide; [|by apply wp_ret]. apply wp_bind.
  eapply wp_conseq; [eapply (wp_mod_pkt_at _ _ _ _ _ _ HI Hp Hk)|].
  - split; [done|]. simpl. unfold CSP_BUFFER_SIZE. rewrite u16_small; lia.
  - cbv beta. intros [] s1 [H1 _]. by apply wp_ret.
Qed.

Lemma wp_security_check T h s opts i p : Inv T h s -> p ∈ h -> valid_if T i ->
  wp (csp_route_security_check opts i p) (fun _ s' => Inv T h s') s.
Proof.
  intros HI Hp Hi. unfold csp_route_security_check. apply wp_bind. eapply wp_get_pkt; [done|by left|]. intros k Hk Hok.
  apply wp_bind. apply (wp_conseq _ (fun _ s' => Inv T h s')).
  { destruct (_ &.& _); [|by apply wp_ret]. apply wp_bind. wp_use (by apply wp_crc32_verify). intros r s1 H1. by apply wp_ret. }
  intros ok s1 H1. destruct (negb ok).
  { apply wp_bind. wp_use (by apply wp_incr_rx_error). intros [] s2 H2. by apply wp_ret. }
  apply wp_bind. apply (wp_conseq _ (fun _ s' => Inv T h s')).
  { destruct (_ &.& _); [|by apply wp_ret]. apply wp_bind. wp_use (by apply wp_hmac_verify). intros r s2 H2. by apply wp_ret. }
  intros ok2 s2 H2. destruct (negb ok2).
  { apply wp_bind. wp_use (by apply wp_incr_autherr). intros [] s3 H3. by apply wp_ret. }
  destruct (_ && _); [|by apply wp_ret]. apply wp_bind. wp_use (by apply wp_incr_rx_error). intros [] s3 H3. by apply wp_ret.
Qed.

Lemma keeps_security_check opts i p : keeps arr_conn (csp_route_security_check opts i p).
Proof.
  unfold csp_route_security_check, csp_crc32_verify, csp_hmac_verify, incr_rx_error, incr_autherr, crc_matches, hmac_tag,
    csp_id_prepend, csp_id1_prepend, csp_id2_prepend. keeps_tac.
Qed.

Section RouteOwn.
Context `{OwnLaws}.

Lemma wp_is_duplicate T h s p : Inv T h s -> p ∈ h -> wp (csp_dedup_is_duplicate p) (fun _ s' => Inv T h s') s.
Proof.
  intros HI Hp. destruct (live_pkt s p) as (k & Hk & Hok); [by eapply Inv_live_h|].
  destruct (is_duplicate_run p k s Hk Hok (inv_dedup _ _ _ HI)) as (m & Hok1 & _ & Hrun).
  unfold wp. rewrite Hrun. clear Hrun.
  assert (H1 : Inv T h (put_pkt p (framed p (hdr_size s) m k) s)) by (by apply Inv_put_pkt).
  destruct (dedup_ref _ _ _ _ _); destruct H1; constructor; try assumption.
  unfold dedup_record, CSP_DEDUP_COUNT. simpl. apply Z.mod_pos_bound. lia.
Qed.

(** ** Connections *)

Lemma conn_search_lt f i l j : conn_search f i l = Some j -> (i <= j < i + length l)%nat.
Proof.
  revert i. induction l as [|x l IH]; intros i; simpl; [done|]. destruct (f x); [intros; simplify_eq; lia|].
  intros Hj%IH. lia.
Qed.

Lemma conn_search_found f i l j : conn_search f i l = Some j -> exists x, l !! (j - i)%nat = Some x /\ f x = true.
Proof.
  revert i. induction l as [|x l IH]; intros i; simpl; [done|]. destruct (f x) eqn:E.
  - intros [= <-]. exists x. by rewrite Nat.sub_diag.
  - intros Hj. pose proof (conn_search_lt _ _ _ _ Hj). apply IH in Hj as (y & Hy & Hf). exists y. split; [|done].
    by replace (j - i)%nat with (S (j - S i)) by lia.
Qed.

Lemma alloc_search_lt n l i j : alloc_search n l i = Some j -> (j < length l)%nat.
Proof.
  revert i. induction n as [|n IH]; intros i; simpl; [done|].
  destruct (l !! _) as [x|] eqn:E; [|done]. destruct (conn_is_open x); [apply IH|].
  intros [= <-]. apply lookup_lt_is_Some. by eexists.
Qed.

Lemma wp_find_existing T h s i : Inv T h s ->
  wp (csp_conn_find_existing i) (fun r s' => s' = s /\ match r with Some c => (c < CSP_CONN_MAX)%nat /\ conn_dest T c s' | None => True end) s.
Proof.
  intros HI. apply wp_gets. split; [done|]. destruct (conn_search _ _ _) as [c|] eqn:E; [|done].
  pose proof (conn_search_lt _ _ _ _ E) as Hlt. rewrite (inv_conns _ _ _ HI) in Hlt. split; [lia|].
  apply conn_search_found in E as (x & Hx & Hm). rewrite Nat.sub_0_r in Hx. eapply open_dest; [done|done|]. left.
  unfold id_matches in Hm. apply andb_true_iff in Hm as [Hm _]. unfold conn_is_open in Hm. by apply bool_decide_eq_true in Hm.
Qed.

(** *** A new connection

    Until its caller sets it, [dest_socket] of the connection [csp_conn_new] opens
    holds what it held before.  [clr c s] is the node where it is NULL; the steps
    of [csp_conn_new] do not look at it. *)

Definition clr (c : nat) (s : node) : node := set_arr_conn (alter (set_dest_socket None) c (arr_conn s)) s.

Definition map_out {A} (f : node -> node) (o : outcome A) : outcome A :=
  match o with Ret a s => Ret a (f s) | Undef => Undef | Halt => Halt | Wait => Wait end.
Definition commutes {A} (f : node -> node) (m : M A) : Prop := forall s, m (f s) = map_out f (m s).

Lemma wp_commutes {A} f (m : M A) (Q : A -> node -> Prop) s : commutes f m -> wp m Q (f s) -> wp m (fun a s' => Q a (f s')) s.
Proof. intros Hb. unfold wp. rewrite Hb. by destruct (m s). Qed.

Lemma commutes_bind {A B} f (m : M A) (k : A -> M B) : commutes f m -> (forall a, commutes f (k a)) -> commutes f (mbind k m).
Proof. intros Hm Hk s. unfold mbind, M_bind. rewrite Hm. destruct (m s); [apply Hk|done..]. Qed.

Lemma commutes_while f n body : commutes f body -> commutes f (while_loop n body).
Proof. intros Hb. induction n as [|n IH]; [done|]. cbn [while_loop]. apply commutes_bind; [done|]. by intros []. Qed.

Lemma commutes_mod_conn c g : (forall x, g (set_dest_socket None x) = set_dest_socket None (g x)) -> commutes (clr c) (mod_conn c g).
Proof.
  intros Hg s. unfold mod_conn, clr. simpl. rewrite list_lookup_alter_eq. destruct (arr_conn s !! c) as [x|] eqn:E; [|done]. simpl.
  unfold set_arr_conn. simpl. do 2 f_equal. rewrite Hg. apply list_eq. intros j. destruct (decide (c = j)) as [<-|].
  - rewrite list_lookup_alter_eq, !list_lookup_insert_eq; [done|by eapply lookup_lt_Some|]. rewrite length_alter. by eapply lookup_lt_Some.
  - by rewrite list_lookup_alter_ne, !list_lookup_insert_ne, list_lookup_alter_ne by done.
Qed.

Lemma commutes_get_conn {A} c (k : csp_conn -> M A) : (forall x, k (set_dest_socket None x) = k x) -> (forall x, commutes (clr c) (k x)) ->
  commutes (clr c) (x ← get_conn c; k x).
Proof.
  intros Hk Hb s. unfold mbind, M_bind, get_conn. unfold clr at 1 2. simpl. rewrite list_lookup_alter_eq.
  destruct (arr_conn s !! c) as [x|]; [|done]. simpl. rewrite Hk. apply Hb.
Qed.

Lemma commutes_free c o : commutes (clr c) (csp_buffer_free o).
Proof.
  intros s. destruct o as [p|]; [|done]. unfold csp_buffer_free, csp_buffer_free_pkt, mod_skbf, get_skbf, mbind, M_bind.
  change (pool (clr c s)) with (pool s). destruct (pool s !! p) as [b|] eqn:E; [|done]. destruct (negb _); [done|]. destruct (_ =? _); [done|].
  change (pool (clr c s)) with (pool s). rewrite E. cbv zeta. match goal with |- context [0 <? ?z] => destruct (0 <? z) end; [done|].
  unfold gets. cbn [csp_buffers set_pool clr set_arr_conn]. by destruct (q_enqueue p (csp_buffers s)).
Qed.

Lemma commutes_flush c : commutes (clr c) (csp_conn_flush_rx_queue c).
Proof.
  unfold csp_conn_flush_rx_queue. apply commutes_get_conn; [done|]. intros x. apply commutes_while. apply commutes_get_conn; [done|]. intros y.
  destruct (q_dequeue (conn_rxq y)) as [[o q']|]; [|done]. apply commutes_bind; [by apply commutes_mod_conn|]. intros _.
  apply commutes_bind; [apply commutes_free|]. by intros _ s.
Qed.

Lemma Inv_clr T h s c : Inv T h s -> (c < CSP_CONN_MAX)%nat -> Inv T h (clr c s).
Proof.
  intros HI Hc. rewrite <- (inv_conns _ _ _ HI) in Hc. destruct (lookup_lt_is_Some_2 _ _ Hc) as [x Hx].
  assert (Hs : conn_step T x (set_dest_socket None x)) by (split; [done|by intros ? ? [=]]).
  pose proof (wp_mod_conn_at T h s c (set_dest_socket None) x HI Hx Hs) as Hw.
  unfold wp, mod_conn in Hw. rewrite Hx in Hw. unfold clr.
  replace (alter _ c (arr_conn s)) with (<[c := set_dest_socket None x]> (arr_conn s)); [done|].
  rewrite list_insert_alter. apply list_alter_ext; [|done]. intros y Hy. by simplify_eq.
Qed.

(** A change of the new connection. *)
Lemma wp_mod_new T h s c g : Inv T h (clr c s) -> (c < CSP_CONN_MAX)%nat ->
  (forall x, g (set_dest_socket None x) = set_dest_socket None (g x)) -> (forall x, conn_rxq (g x) = conn_rxq x) ->
  wp (mod_conn c g) (fun _ s' => Inv T h (clr c s')) s.
Proof.
  intros HI Hc Hg Hq. apply (wp_commutes (clr c) _ (fun _ s' => Inv T h s')); [by apply commutes_mod_conn|].
  assert (Hl : (c < length (arr_conn s))%nat) by (rewrite <- (inv_conns _ _ _ HI) in Hc; unfold clr in Hc; simpl in Hc; by rewrite length_alter in Hc).
  destruct (lookup_lt_is_Some_2 _ _ Hl) as [x Hx]. apply (wp_mod_conn_at _ _ _ _ _ (set_dest_socket None x)); [done| |].
  - unfold clr. simpl. by rewrite list_lookup_alter_eq, Hx.
  - rewrite Hg. split; [simpl; apply Hq|by intros ? ? [=]].
Qed.

(** The caller gives it its destination. *)
Lemma wp_mod_dest T h s c g : Inv T h (clr c s) -> (c < CSP_CONN_MAX)%nat -> (forall x, g (set_dest_socket None x) = g x) ->
  (forall x, conn_rxq (g x) = conn_rxq x) -> (forall x, dest_ok T (g x)) -> wp (mod_conn c g) (fun _ s' => Inv T h s' /\ conn_dest T c s') s.
Proof.
  intros HI Hc Hg Hq Hd.
  assert (Hl : (c < length (arr_conn s))%nat) by (rewrite <- (inv_conns _ _ _ HI) in Hc; unfold clr in Hc; simpl in Hc; by rewrite length_alter in Hc).
  destruct (lookup_lt_is_Some_2 _ _ Hl) as [x Hx]. assert (Hx' : arr_conn (clr c s) !! c = Some (set_dest_socket None x)).
  { unfold clr. simpl. by rewrite list_lookup_alter_eq, Hx. }
  assert (Hstep : conn_step T (set_dest_socket None x) (g (set_dest_socket None x))).
  { split; [apply Hq|]. intros _ k Hk. right. by eapply Hd. }
  pose proof (wp_mod_conn_at T h (clr c s) c g _ HI Hx' Hstep) as Hw. unfold wp, mod_conn in *. rewrite Hx' in Hw. rewrite Hx. rewrite Hg in Hw.
  assert (E : set_arr_conn (<[c:=g x]> (arr_conn (clr c s))) (clr c s) = set_arr_conn (<[c:=g x]> (arr_conn s)) s).
  { unfold clr, set_arr_conn. simpl. f_equal. apply list_eq. intros j. destruct (decide (c = j)) as [<-|].
    - rewrite !list_lookup_insert_eq; [done|done|by rewrite length_alter].
    - by rewrite !list_lookup_insert_ne, list_lookup_alter_ne by done. }
  rewrite E in Hw. split; [done|]. intros y Hy. simpl in Hy. rewrite list_lookup_insert_eq in Hy by done. injection Hy as <-. apply Hd.
Qed.

Lemma wp_conn_allocate T h s type : Inv T h s ->
  wp (csp_conn_allocate type) (fun r s' => match r with Some c => (c < CSP_CONN_MAX)%nat /\ Inv T h (clr c s') | None => Inv T h s' end) s.
Proof.
  intros HI. unfold csp_conn_allocate. apply wp_bind, wp_gets. unfold id.
  destruct (alloc_search _ _ _) as [c|] eqn:E.
  - apply alloc_search_lt in E. rewrite (inv_conns _ _ _ HI) in E. pose proof (Inv_clr T h s c HI E) as Hclr.
    apply wp_bind. wp_use (by apply (wp_mod_new T h)). intros [] s1 H1.
    apply wp_bind, wp_modify. apply wp_bind.
    assert (H1' : Inv T h (clr c (set_conn_last_given (u8 (Z.of_nat c)) s1))) by (destruct H1; by constructor).
    wp_use (by apply (wp_mod_new T h)). intros [] s2 H2. by apply wp_ret.
  - apply wp_bind. wp_use (by apply wp_incr_conn_out). intros [] s1 H1. by apply wp_ret.
Qed.

Lemma wp_conn_new T h s a b type : Inv T h s ->
  wp (csp_conn_new a b type) (fun r s' => match r with Some c => (c < CSP_CONN_MAX)%nat /\ Inv T h (clr c s') | None => Inv T h s' end) s.
Proof.
  intros HI. unfold csp_conn_new. apply wp_bind. wp_use (by apply wp_conn_allocate). intros [c|] s1 H1; [|by apply wp_ret].
  destruct H1 as [Hc H1]. apply wp_bind. wp_use (by apply (wp_mod_new T h)). intros [] s2 H2.
  apply wp_bind. unfold wp at 1, csp_get_ms. assert (H2' : Inv T h (clr c (set_tick (S (tick s2)) s2))) by (destruct H2; by constructor).
  apply wp_bind. wp_use (by apply (wp_mod_new T h)). intros [] s3 H3.
  apply wp_bind. wp_use (apply (wp_commutes (clr c) _ (fun _ s' => Inv T h s')); [apply commutes_flush|]; by apply (wp_flush_rx T h)). intros [] s4 H4. by apply wp_ret.
Qed.

Lemma wp_check_timeouts T h s : Inv T h s -> wp csp_conn_check_timeouts (fun _ s' => Inv T h s') s.
Proof.
  intros HI. apply (wp_for_loop (fun _ s => Inv T h s)); [done|]. intros j s1 Hj H1.
  apply wp_bind. eapply wp_get_conn; [done|lia|]. intros x Hx.
  apply wp_when; intros _; [apply wp_rdp_check_timeouts; [done|lia]|done].
Qed.

(** ** Delivery *)

Lemma wp_route_connection T h s i p socket : Inv T h s -> p ∈ h -> valid_if T i ->
  (forall k, socket = Some k -> accepting T k) ->
  wp (route_connection i p socket) (fun r s' => Inv T h s' /\ match r with Some c => (c < CSP_CONN_MAX)%nat /\ conn_dest T c s' | None => True end) s.
Proof.
  intros HI Hp Hi Hs. unfold route_connection. apply wp_bind. eapply wp_get_pkt; [done|by left|]. intros k Hk Hok.
  apply wp_bind. wp_use (by apply (wp_find_existing T h)). intros [c|] s1 [-> Hc].
  - destruct Hc as [Hc Hd]. apply wp_bind. eapply wp_get_conn; [done|done|]. intros x Hx.
    apply wp_bind. eapply wp_conseq; [apply (wp_keeps arr_conn); [apply keeps_security_check|by apply wp_security_check]|].
    cbv beta. intros r s2 [H2 Ec]. apply wp_ret. destruct (r =? CSP_ERR_NONE); [|done]. split; [done|]. split; [done|]. unfold conn_dest. by rewrite Ec.
  - destruct socket as [sk|]; [|by apply wp_ret]. specialize (Hs sk eq_refl). pose proof (accepting_listening _ _ Hs) as Hl.
    apply wp_bind. eapply wp_get_sock; [done|done|]. intros so q Hso Hq.
    apply wp_bind. wp_use (by apply wp_security_check). intros r s2 H2. destruct (negb _); [by apply wp_ret|].
    apply wp_bind. eapply wp_get_pkt; [done|by left|]. intros k2 Hk2 Hok2.
    apply wp_bind. wp_use (by apply wp_conn_new). intros [c|] s3 H3.
    + destruct H3 as [Hc' H3]. apply wp_bind. apply (wp_conseq _ (fun _ s' => s' = s3)).
      { pose proof (wp_get_sock T h (clr c s3) sk (fun _ _ => True) H3 Hl (fun _ _ _ _ => I)) as Hw. unfold wp, get_sock in Hw |- *.
        change (socks (clr c s3)) with (socks s3) in Hw. by destruct (socks s3 !! sk). }
      intros so2 ? ->. apply wp_bind. wp_use (apply (wp_mod_dest T h); [done|done|done|done|]; intros y k' Hk'; by simplify_eq/=).
      intros [] s4 [H4 Hd4]. by apply wp_ret.
    + apply wp_bind. wp_use (by apply wp_incr_conn_out). intros [] s4 H4. by apply wp_ret.
Qed.

Lemma wp_close' T h s c : Inv T h s -> (c < CSP_CONN_MAX)%nat ->
  wp (_ ← csp_close (Some c); mret tt) (fun _ s' => Inv T h s') s.
Proof. intros. apply wp_bind. wp_use (by apply wp_conn_close). intros r s1 H3. by apply wp_ret. Qed.

(** The destinations of the connections. *)
Definition dests (s : node) : list (option nat) := dest_socket <$> arr_conn s.

Lemma keeps_enqueue_dests c o : keeps dests (csp_conn_enqueue_packet c o).
Proof.
  unfold csp_conn_enqueue_packet. apply keeps_bind; [apply keeps_get_conn|]. intros x. destruct (q_enqueue o (conn_rxq x)) as [q'|].
  - apply keeps_bind; [|intros _; apply keeps_ret]. intros s. unfold mod_conn. destruct (arr_conn s !! c) as [y|] eqn:E; [|done].
    unfold dests. simpl. rewrite list_fmap_insert. simpl. apply list_insert_id. by rewrite list_lookup_fmap, E.
  - keeps_tac.
Qed.

Lemma dests_dest T c s s' : dests s' = dests s -> conn_dest T c s -> conn_dest T c s'.
Proof.
  intros E Hd x Hx k Hk. assert (Hl : dests s' !! c = Some (Some k)) by (unfold dests; by rewrite list_lookup_fmap, Hx; simpl; rewrite Hk).
  rewrite E in Hl. unfold dests in Hl. rewrite list_lookup_fmap in Hl. destruct (arr_conn s !! c) as [y|] eqn:Ey; [|done].
  injection Hl as Hl. by eapply (Hd y).
Qed.

Lemma wp_route_enqueue T h s c p : Inv T (p :: h) s -> (c < CSP_CONN_MAX)%nat -> conn_dest T c s ->
  wp (route_enqueue c p) (fun _ s' => Inv T h s') s.
Proof.
  intros HI Hc Hd. unfold route_enqueue. apply wp_bind.
  eapply wp_conseq; [apply (wp_keeps dests); [apply keeps_enqueue_dests|by apply (wp_conn_enqueue T h _ _ (Some p))]|].
  cbv beta. intros r s1 [H1 Ed1]. pose proof (dests_dest T c s s1 Ed1 Hd) as Hd1.
  destruct (r =? CSP_ERR_NONE); simpl negb.
  - apply wp_bind. eapply wp_get_conn; [done|done|]. intros x Hx. destruct (dest_socket x) as [sk|] eqn:Ed; [|by apply wp_ret].
    pose proof (Hd1 x Hx sk Ed) as Hacc. pose proof (accepting_listening _ _ Hacc) as Hlis.
    apply wp_bind. eapply wp_get_sock; [done|done|]. intros so q Hso Hq. rewrite Hq. apply wp_bind, wp_ret.
    destruct (q_enqueue (SConn c) q) as [q'|] eqn:E.
    + apply wp_bind. wp_use (by eapply wp_sock_push_conn). intros [] s2 H2.
      apply wp_mod_conn; [done|done|]. intros y. split; [done|]. intros _ k' Hk'. discriminate.
    + apply wp_bind. wp_use (by apply wp_incr_conn_ovf). intros [] s2 H2. by apply wp_close'.
  - apply wp_bind. wp_use (by apply wp_incr_conn_ovf). intros [] s2 H2. by apply wp_free.
Qed.

Lemma wp_route_deliver T h s i p socket : Inv T (p :: h) s -> valid_if T i ->
  (forall k, socket = Some k -> accepting T k) ->
  wp (route_deliver i p socket) (fun _ s' => Lost 1 T h s') s.
Proof.
  intros HI Hi Hs. unfold route_deliver. apply wp_bind.
  wp_use (apply wp_route_connection; [done|left|done|done]). intros [c|] s1 [H1 Hc]; [|by apply wp_Lost, wp_free].
  destruct Hc as [Hc Hd]. apply wp_bind. eapply wp_get_pkt; [done|left; left|]. intros k Hk Hok.
  destruct (_ &.& _); [|by apply wp_Lost, wp_route_enqueue].
  apply wp_bind. wp_use (by apply wp_rdp_new_packet). intros close s2 H2.
  apply wp_when; intros _; [|done]. destruct H2 as (L & HL & H2). wp_use (by apply (wp_close' T (h ++ L))).
  intros [] s3 H3. by exists L.
Qed.

Lemma wp_route_conn_less T h s i p sk : Inv T (p :: h) s -> valid_if T i -> listening T sk ->
  (forall so, socks s !! sk = Some so -> sock_opts so &.& CSP_SO_CONN_LESS = true) ->
  wp (route_conn_less i p sk) (fun _ s' => Inv T h s') s.
Proof.
  intros HI Hi Hs Hcl. unfold route_conn_less. apply wp_bind. eapply wp_get_sock; [done|done|]. intros so q Hso Hq.
  apply wp_bind. wp_use (apply wp_security_check; [done|left|done]). intros r s1 H1.
  destruct (negb _); [by apply wp_free|].
  apply wp_bind. eapply wp_get_sock; [done|done|]. intros so1 q1 Hso1 Hq1. rewrite Hq1. apply wp_bind, wp_ret.
  destruct (q_enqueue (SPkt p) q1) as [q'|] eqn:E.
  - eapply wp_sock_rxq; [done|done|done| |].
    { eapply sock_ok_enqueue; [by eapply (inv_socks _ _ _ H1)|done|done|]. simpl. rewrite (sock_opts_conf _ _ _ _ _ _ _ _ HI H1 Hso Hso1). by apply Hcl. }
    intros p'. apply q_enqueue_items in E.
    unfold sock_refs. cbn [sock_rxq set_sock_rxq]. rewrite Hq1, E, omap_app', cnt_app.
    change (omap _ [SPkt p]) with [p]. rewrite !cnt_cons, cnt_nil. lia.
  - apply wp_bind. wp_use (by apply wp_incr_conn_ovf). intros [] s2 H2. by apply wp_free.
Qed.

Lemma port_socket_listening T h s port k : Inv T h s -> csp_port_get_socket port s = Some k -> listening T k.
Proof.
  intros HI. pose proof (cf_bound _ (inv_conf_ok _ _ _ HI)) as Hb. rewrite <- (inv_conf _ _ _ HI) in Hb. simpl in Hb.
  rewrite <- (inv_conf _ _ _ HI). unfold csp_port_get_socket. destruct (_ <? _); [done|].
  destruct (ports s !! Z.to_nat port) as [[| |]|] eqn:E; intros Hs; simplify_eq; eauto.
  - destruct (ports s !! PORT_ANY) as [[| |]|] eqn:E2; simplify_eq; eauto.
  - destruct (ports s !! PORT_ANY) as [[| |]|] eqn:E2; simplify_eq; eauto.
Qed.

(** The node is well formed under some configuration; besides the packets [h]
    there are packets [o] that other tasks hold, or that were lost. *)
Definition WF (h : list nat) (s : node) : Prop := exists T o, Inv T (h ++ o) s.

Lemma WF_intro T h s : Inv T h s -> WF h s.
Proof. intros HI. exists T, []. by rewrite app_nil_r. Qed.

Lemma WF_lost n T h o s : Lost n T (h ++ o) s -> WF h s.
Proof. intros (L & _ & HI). exists T, (o ++ L). by rewrite app_assoc. Qed.

Lemma wp_WF {A} (m : M A) T h o s : wp m (fun _ s' => Inv T (h ++ o) s') s -> wp m (fun _ s' => WF h s') s.
Proof. apply wp_mono. intros a s' H1. by exists T, o. Qed.

(** One packet leaves at most one buffer lost, the SYN+ACK of [wp_send_cmp]. *)
Definition route_post (T : config) (h : list nat) (s : node) : Prop := exists T', stable T T' /\ Lost 1 T' h s.

Lemma wp_route_post {A} (m : M A) T h s : wp m (fun _ s' => Lost 1 T h s') s -> wp m (fun _ s' => route_post T h s') s.
Proof. apply wp_mono. intros a s' H1. by exists T. Qed.

Lemma wp_route_local T h s i p : Inv T (p :: h) s -> valid_if T i ->
  wp (route_local i p) (fun _ s' => route_post T h s') s.
Proof.
  intros HI Hi. unfold route_local. apply wp_bind, wp_ret. simpl negb.
  apply wp_bind. eapply wp_get_pkt; [done|left; left|]. intros k Hk Hok. apply wp_bind, wp_gets. unfold id.
  destruct (csp_port_get_callback _ s) as [cb|].
  - apply wp_bind. wp_use (apply wp_security_check; [done|left|done]). intros r s1 H1.
    destruct (negb _); [by apply (wp_route_post _ T), wp_Lost, wp_free|].
    eapply wp_mono; [|by apply (law_callback T)]. cbv beta. intros [] s2 (T' & H2 & Hs). exists T'. split; [done|by apply Lost_none].
  - destruct (csp_port_get_socket _ s) as [sk|] eqn:Es.
    + pose proof (port_socket_listening _ _ _ _ _ HI Es) as Hl. apply wp_bind.
      eapply wp_get_sock; [done|done|]. intros so q Hso Hq.
      destruct (_ &.& _) eqn:Ecl.
      { apply (wp_route_post _ T), wp_Lost, wp_route_conn_less; [done|done|done|]. intros so' Hso'. by simplify_eq. }
      apply (wp_route_post _ T), wp_route_deliver; [done|done|]. intros k' [= <-]. by eapply listening_accepting.
    + apply (wp_route_post _ T), wp_route_deliver; [done|done|]. by intros k' [=].
Qed.

Lemma wp_route_is_to_me T h s i p : Inv T h s -> p ∈ h -> valid_if T i ->
  wp (route_is_to_me p i) (fun _ s' => Inv T h s') s.
Proof.
  intros HI Hp Hi. unfold route_is_to_me. apply wp_bind. eapply wp_get_pkt; [done|by left|]. intros k Hk Hok.
  apply wp_bind. destruct (Inv_iflist _ _ _ HI) as (l & _ & Hl). unfold wp at 1. erewrite get_by_addr_find by exact Hl.
  destruct (find _ l); [by apply wp_ret|]. apply wp_bind. eapply wp_get_iface; [done|done|]. intros x Hx.
  apply wp_bind, wp_gets. unfold id. by eapply wp_is_broadcast.
Qed.

Lemma wp_route_packet T h s i p : Inv T (p :: h) s -> valid_if T i ->
  wp (route_packet i p) (fun _ s' => route_post T h s') s.
Proof.
  intros HI Hi. unfold route_packet. apply wp_bind. eapply wp_get_pkt; [done|left; left|]. intros k Hk Hok.
  apply wp_bind. wp_use (by apply wp_mod_iface). intros [] s1 H1.
  apply wp_bind. wp_use (apply wp_route_is_to_me; [done|left|done]). intros is_to_me s2 H2.
  apply wp_bind. apply (wp_conseq _ (fun _ s' => Inv T (p :: h) s')).
  { unfold route_dedup. apply wp_bind, wp_gets. cbv zeta. destruct (_ || _); [apply wp_is_duplicate; [done|left]|by apply wp_ret]. }
  intros dup s3 H3. destruct dup.
  { apply wp_bind. wp_use (by apply wp_incr_drop). intros [] s4 H4. by apply (wp_route_post _ T), wp_Lost, wp_free. }
  apply wp_bind. wp_use (apply wp_promisc_add; [done|left]). intros [] s4 H4.
  destruct (negb is_to_me); [|by eapply wp_route_local].
  apply wp_bind. eapply wp_get_pkt; [done|left; left|]. intros k4 Hk4 Hok4.
  apply wp_bind. wp_use (by apply wp_send_direct). intros z s5 H5. apply wp_ret. exists T. split; [done|by apply Lost_none].
Qed.

(** What reading the router queue hands over. *)
Definition input_inv (T : config) (h : list nat) (r : option (option nat * option nat)) (s : node) : Prop :=
  match r with
  | Some (i, Some p) => exists T' o j, i = Some j /\ valid_if T' j /\ Inv T' (p :: h ++ o) s /\ stable T T'
  | _ => exists T' o, Inv T' (h ++ o) s /\ stable T T'
  end.

Lemma deq_input T0 T h o s x q' : Inv T (h ++ o) s -> stable T0 T ->
  q_dequeue (qfifo s) = Some (x, q') -> input_inv T0 h (Some x) (set_qfifo q' s).
Proof.
  intros HI Hb E. destruct x as [i [p|]].
  - destruct (Inv_qfifo_deq _ _ _ _ _ _ HI E) as (H1 & j & -> & Hj). by exists T, o, j.
  - exists T, o. split; [by eapply Inv_qfifo_deq_none|done].
Qed.

Lemma wp_qfifo_read T h s : Inv T h s -> wp csp_qfifo_read (fun r s' => input_inv T h r s') s.
Proof.
  intros HI. unfold csp_qfifo_read. apply wp_bind, wp_gets. destruct (q_dequeue (qfifo s)) as [[x q']|] eqn:E.
  - apply wp_bind, wp_modify. apply wp_ret. apply (deq_input T T h []); [by rewrite app_nil_r|done|done].
  - apply wp_bind. unfold wp at 1, yield.
    assert (Hw : Inv T h (set_waits (S (waits s)) s)) by (destruct HI; by constructor).
    destruct (law_yield T h _ (waits s) Hw) as (T' & o & H1 & Hb1). apply wp_bind, wp_gets.
    set (s1 := plat_yield (waits s) (set_waits (S (waits s)) s)) in *. clearbody s1.
    destruct (q_dequeue (qfifo s1)) as [[x q']|] eqn:E2; [|apply wp_ret; by exists T', o].
    apply wp_bind, wp_modify. apply wp_ret. by apply (deq_input T T' h o).
Qed.

Lemma input_none T h o r s : input_inv T (h ++ o) r s ->
  match r with Some (_, Some _) => False | _ => True end -> WF h s.
Proof.
  intros Hi Hr. assert (Hx : exists T' o', Inv T' ((h ++ o) ++ o') s).
  { destruct r as [[i [p|]]|]; [done|destruct Hi as (T' & o' & HI & _)..]; by exists T', o'. }
  destruct Hx as (T' & o' & HI). exists T', (o ++ o'). by rewrite app_assoc.
Qed.

(** A turn of the router, with what it leaves of the configuration. *)
Lemma wp_route_work T h s : Inv T h s -> wp csp_route_work (fun _ s' => exists T' o, Inv T' (h ++ o) s' /\ stable T T') s.
Proof.
  intros HI. unfold csp_route_work. apply wp_bind. wp_use (by apply wp_check_timeouts). intros [] s1 H1.
  apply wp_bind. wp_use (by apply (wp_qfifo_read T h)). intros r s2 Hr.
  destruct r as [[i [p|]]|]; [|try destruct i; by apply wp_ret..].
  destruct Hr as (T' & o & j & -> & Hj & H2 & Hs). apply wp_bind. wp_use (by apply (wp_route_packet T' (h ++ o))).
  intros [] s3 (T3 & Hs3 & L & _ & H3). apply wp_ret. exists T3, (o ++ L). rewrite app_assoc. split; [done|by etransitivity].
Qed.

Lemma route_work_wp h s : WF h s -> wp csp_route_work (fun _ s' => WF h s') s.
Proof.
  intros (T & o & HI). wp_use (by apply (wp_route_work T (h ++ o))). intros r s' (T' & o' & H1 & _).
  exists T', (o ++ o'). by rewrite app_assoc.
Qed.

Lemma bridge_work_wp h s : WF h s -> wp csp_bridge_work (fun _ s' => WF h s') s.
Proof.
  intros (T & o & HI). unfold csp_bridge_work. apply wp_bind, wp_gets. unfold id.
  destruct (bif_a s) as [a|] eqn:Ea; [|apply wp_ret; by exists T, o].
  destruct (bif_b s) as [b|] eqn:Eb; [|apply wp_ret; by exists T, o].
  assert (Hbr : cf_bridge T = (Some a, Some b)) by (by rewrite <- (inv_conf _ _ _ HI), <- Ea, <- Eb).
  apply wp_bind. wp_use (by apply (wp_qfifo_read T (h ++ o))). intros r s1 Hr.
  destruct r as [[i [p|]]|]; [|try destruct i; apply wp_ret; exact (input_none T h o _ _ Hr I)..].
  destruct Hr as (T' & o' & j & -> & Hj & H1 & Hb1 & _). rewrite Hbr in Hb1. rewrite <- app_assoc in H1.
  apply wp_bind. wp_use (apply wp_is_duplicate; [done|left]). intros dup s2 H2.
  destruct dup; [by apply (wp_WF _ T' _ (o ++ o')), wp_free|].
  apply wp_bind. wp_use (apply wp_promisc_add; [done|left]). intros [] s3 H3.
  apply wp_bind, wp_gets. unfold id.
  assert (Ha3 : bif_a s3 = Some a /\ bif_b s3 = Some b).
  { pose proof (inv_conf _ _ _ H3) as E3. rewrite <- E3 in Hb1. simpl in Hb1. by simplify_eq. }
  destruct Ha3 as [Ha3 Hb3]. rewrite Ha3, Hb3.
  pose proof (cf_bridge_ok _ (inv_conf_ok _ _ _ H3)) as Hv. rewrite Hb1 in Hv. simpl in Hv.
  apply wp_bind. case_bool_decide; apply wp_ret; apply wp_bind; (eapply wp_get_pkt; [done|left; left|]);
    intros k Hk Hok; apply (wp_WF _ T' _ (o ++ o')), wp_send_direct_iface; auto.
Qed.
End RouteOwn.
