(* ===== verification/KissSpec.v ===== *)
(** * KissSpec: the KISS receiver on any byte stream

    [csp_kiss_rx] ([src/interfaces/csp_if_kiss.c]) takes whatever comes from a
    serial line: it stays within its packet, keeps the invariant of the node and
    returns as long as there are buffers for the frames that begin. *)

From S2P Require Import Prelude State Monad Id Buffer Crc32 Iflist Qfifo Kiss Io RdpQueue Rdp Conn RdpProto Route Own OwnIo OwnRdp OwnRoute.

(** ** The receive state under the invariant *)

Definition rx_refs (d : csp_kiss) : list nat := match rx_packet d with Some p => [p] | None => [] end.

Lemma omap_kiss_refs l : omap kiss_ref l = flat_map (fun x => match x with Some d => rx_refs d | None => [] end) l.
Proof. induction l as [|[d|] l IH]; [done| |exact IH]. simpl. unfold rx_refs at 1. rewrite <- IH. by destruct (rx_packet d). Qed.

Lemma Inv_at_kiss T h h' s i d d' : Inv T h s -> kiss s !! i = Some (Some d) -> kiss_ok s d' ->
  (forall q, (cnt q h' + cnt q (rx_refs d') = cnt q h + cnt q (rx_refs d))%nat) -> Inv T h' (at_kiss i d' s).
Proof.
  intros HI Hd Hok Hc. eapply (Inv_move _ _ _ s); try done; try apply HI.
  - intros j y Hy. unfold at_kiss in Hy. cbn [kiss set_kiss] in Hy.
    apply list_lookup_insert_Some in Hy as [(-> & [= <-] & _)|[_ Hy]]; [exact Hok|exact (inv_kiss _ _ _ HI _ _ Hy)].
  - intros q. unfold refs, at_kiss. cbn [qfifo arr_conn socks rdp_tx rdp_rx promisc_queue kiss set_kiss]. rewrite !cnt_app, !omap_kiss_refs.
    pose proof (cnt_flat_map_insert (fun x => match x with Some d => rx_refs d | None => [] end) (kiss s) i (Some d) (Some d') q Hd) as E.
    specialize (Hc q). lia.
Qed.

(** The packet in reception, taken out. *)
Definition idle (d : csp_kiss) : csp_kiss := set_rx_packet None (set_rx_mode KISS_MODE_NOT_STARTED d).

Lemma kiss_take T h s i d p : Inv T h s -> kiss s !! i = Some (Some d) -> rx_packet d = Some p -> Inv T (p :: h) (at_kiss i (idle d) s).
Proof.
  intros HI Hd Hp. destruct (inv_kiss _ _ _ HI _ _ Hd) as (_ & Hl & _). eapply Inv_at_kiss; [exact HI|exact Hd| |].
  - split; [by left|]. by split; [|intros ? [=]].
  - intros q. unfold rx_refs. change (rx_packet (idle d)) with (@None nat). rewrite Hp, !cnt_cons, !cnt_nil. lia.
Qed.

(** The packet changes, and the receive state with it. *)
Lemma kiss_put T h s i d d' p k : Inv T h s -> kiss s !! i = Some (Some d) -> rx_packet d = Some p -> rx_packet d' = Some p ->
  packet_ok k -> kiss_ok (put_pkt p k s) d' -> Inv T h (at_kiss i d' (put_pkt p k s)).
Proof.
  intros HI Hd Hp Hp' Hk Hok. pose proof (kiss_take _ _ _ _ _ _ HI Hd Hp) as H1.
  assert (H2 : Inv T (p :: h) (put_pkt p k (at_kiss i (idle d) s))) by (apply Inv_put_pkt; [done|left|done]).
  rewrite put_at_kiss in H2. rewrite <- (at_kiss_twice i d' (idle d)).
  assert (Hd2 : kiss (at_kiss i (idle d) (put_pkt p k s)) !! i = Some (Some (idle d))) by (by eapply kiss_at_kiss).
  eapply Inv_at_kiss; [exact H2|exact Hd2|exact Hok|]. intros q. unfold rx_refs. change (rx_packet (idle d)) with (@None nat). rewrite Hp', !cnt_cons, !cnt_nil. lia.
Qed.

(** ** Steps *)

(** A program that neither looks at the receive states nor changes them. *)
Definition blind {A} (m : M A) : Prop := forall j d s a s',
  m s = Ret a s' -> m (at_kiss j d s) = Ret a (at_kiss j d s') /\ kiss s' = kiss s.

Lemma blind_bind {A B} (m : M A) (f : A -> M B) : blind m -> (forall a, blind (f a)) -> blind (mbind f m).
Proof.
  intros Hm Hf j d s b s' Hr. apply bind_Ret in Hr as (a & s1 & H1 & H2). destruct (Hm j d _ _ _ H1) as [E1 K1].
  destruct (Hf a j d _ _ _ H2) as [E2 K2]. rewrite (bind_ret _ _ _ _ _ E1). split; [done|congruence].
Qed.

Lemma blind_ret {A} (a : A) : blind (mret a).
Proof. intros j d s a' s' [= -> ->]. done. Qed.

Lemma blind_gets {A} (f : node -> A) : (forall j d s, f (at_kiss j d s) = f s) -> blind (gets f).
Proof. intros Hf j d s a s' [= <- <-]. unfold gets. by rewrite Hf. Qed.

Lemma blind_modify g : (forall j d s, g (at_kiss j d s) = at_kiss j d (g s)) -> (forall s, kiss (g s) = kiss s) -> blind (modify g).
Proof. intros H1 H2 j d s a s' [= <- <-]. unfold modify. by rewrite H1. Qed.

Lemma blind_get_skbf p : blind (get_skbf p).
Proof. intros j d s a s' H. unfold get_skbf in *. simpl. destruct (pool s !! p); [|done]. by injection H as <- <-. Qed.

Lemma blind_mod_skbf p f : blind (mod_skbf p f).
Proof. intros j d s a s' H. unfold mod_skbf in *. simpl. destruct (pool s !! p); [|done]. by injection H as <- <-. Qed.

Lemma blind_mod_iface i f : blind (mod_iface i f).
Proof. intros j d s a s' H. unfold mod_iface in *. simpl. destruct (ifs s !! i); [|done]. by injection H as <- <-. Qed.

Ltac blind_step :=
  lazymatch goal with
  | |- blind (mbind _ _) => apply blind_bind; [|intros ?]
  | |- blind (mret _) => apply blind_ret
  | |- blind (gets _) => apply blind_gets; reflexivity
  | |- blind (modify _) => apply blind_modify; reflexivity
  | |- blind (get_skbf _) => apply blind_get_skbf
  | |- blind (mod_skbf _ _) => apply blind_mod_skbf
  | |- blind (mod_iface _ _) => apply blind_mod_iface
  | |- blind (if ?b then _ else _) => destruct b
  | |- blind (match ?x with _ => _ end) => destruct x
  end.

Lemma blind_free p : blind (csp_buffer_free (Some p)).
Proof. unfold csp_buffer_free, csp_buffer_free_pkt, set_errno. repeat blind_step. Qed.

Lemma blind_qfifo_write p i isr : blind (csp_qfifo_write (Some p) (Some i) isr).
Proof. unfold csp_qfifo_write, incr_conn_ovf, incr_tx_error, csp_buffer_free_isr. repeat first [apply blind_free|blind_step]. Qed.

(** No buffer leaves the pool. *)
Lemma qfifo_write_size p i isr s s' : csp_qfifo_write (Some p) (Some i) isr s = Ret tt s' ->
  (q_size (csp_buffers s) <= q_size (csp_buffers s'))%nat.
Proof.
  unfold csp_qfifo_write. intros Hr. rewrite (bind_ret _ _ _ (qfifo s) s) in Hr by done. destruct (q_enqueue _ _) as [q'|]; [by injection Hr as <-|].
  apply bind_Ret in Hr as ([] & s1 & [= <-] & Hr). apply bind_Ret in Hr as ([] & s2 & H2 & Hr).
  assert (K : csp_buffers s2 = csp_buffers s) by exact (keeps_run csp_buffers _ _ _ _ (keeps_mod_iface csp_buffers _ _ ltac:(done)) H2).
  assert (Hf : csp_buffer_free (Some p) s2 = Ret tt s') by (by destruct isr). clear Hr. rewrite <- K. clear K H2.
  unfold csp_buffer_free, csp_buffer_free_pkt in Hf. apply bind_Ret in Hf as (b & s3 & Hb & Hf). unfold get_skbf in Hb.
  destruct (pool s2 !! p) as [b'|] eqn:Ep; [|done]. injection Hb as <- <-.
  destruct (negb _); [by injection Hf as <-|]. destruct (_ =? 0); [by injection Hf as <-|].
  apply bind_Ret in Hf as ([] & s4 & H4 & Hf). unfold mod_skbf in H4. rewrite Ep in H4. injection H4 as <-.
  destruct (0 <? _); [by injection Hf as <-|]. rewrite (bind_ret _ _ _ (csp_buffers s2) _) in Hf by done.
  destruct (q_enqueue p _) as [q'|] eqn:E; [|by injection Hf as <-]. injection Hf as <-. simpl.
  apply q_enqueue_bound in E. lia.
Qed.

(** ** The receiver *)

(** Interface [i] is in receive state [d], and [n] buffers at most have left
    the pool since [s0]. *)
Record rx_at (T : config) (h : list nat) (i : nat) (d : csp_kiss) (s0 : node) (n : nat) (s : node) : Prop := {
  ra_inv : Inv T h s;
  ra_kiss : kiss s !! i = Some (Some d);
  ra_free : (q_size (csp_buffers s0) <= q_size (csp_buffers s) + n)%nat
}.

Section Rx.
Variables (T : config) (h : list nat) (i : nat).
Hypothesis Hi : valid_if T i.

Lemma wp_get_kiss s0 n s d (Q : csp_kiss -> node -> Prop) : rx_at T h i d s0 n s -> Q d s -> wp (get_kiss i) Q s.
Proof. intros [_ Hd _] HQ. unfold wp. by rewrite (get_kiss_at _ _ _ Hd). Qed.

(** The receive state changes, the packet stays. *)
Lemma wp_mod_kiss f s0 n s d : rx_at T h i d s0 n s -> rx_packet (f d) = rx_packet d -> kiss_ok s (f d) ->
  wp (mod_kiss i f) (fun _ s' => rx_at T h i (f d) s0 n s') s.
Proof.
  intros [HI Hd Hf] Hp Hok. unfold wp. rewrite (mod_kiss_at _ _ _ _ Hd). constructor; [|by eapply kiss_at_kiss|done].
  eapply Inv_at_kiss; [exact HI|exact Hd|exact Hok|]. intros q. unfold rx_refs. by rewrite Hp.
Qed.

Lemma wp_count_kiss f s0 n s d : rx_at T h i d s0 n s -> (forall x, if_static (f x) = if_static x) ->
  wp (mod_iface i f) (fun _ s' => rx_at T h i d s0 n s') s.
Proof.
  intros [HI Hd Hf] Hs. eapply wp_conseq; [apply (wp_keeps (fun s => (kiss s, csp_buffers s))); [keeps_tac|by apply (wp_mod_iface T h)]|].
  cbv beta. intros [] s' [H1 [= Ek Eb]]. constructor; [done|congruence|congruence].
Qed.

(** The packet of the receiver changes in place. *)
Lemma rx_put s0 n s d p k : rx_at T h i d s0 n s -> rx_packet d = Some p -> packet_ok k -> frame_buf k = p -> frame_off k = - hdr_size s ->
  rx_at T h i d s0 n (put_pkt p k s).
Proof.
  intros [HI Hd Hf] Hp Hk Hb Ho. constructor; [|done|done].
  destruct (inv_kiss _ _ _ HI _ _ Hd) as (Hm & Hl & Hr). destruct (Hr p Hp) as (k0 & Hk0 & _ & Ho0 & Hroom).
  rewrite <- (at_kiss_id i d (put_pkt p k s)) by exact Hd. eapply kiss_put; [exact HI|exact Hd|exact Hp|exact Hp|exact Hk|].
  split; [exact Hm|]. split; [exact Hl|]. intros q Hq. rewrite Hp in Hq. injection Hq as <-. exists k.
  split; [by eapply pkt_at_put|]. split; [done|]. split; [done|]. lia.
Qed.

(** Back to the state before a frame, the packet kept for the next one. *)
Lemma wp_drop_frame s0 n s d : rx_at T h i d s0 n s -> rx_packet d <> None ->
  wp (incr_frame i ;; mod_kiss i (set_rx_mode KISS_MODE_NOT_STARTED)) (fun _ s' => exists d', rx_at T h i d' s0 n s') s.
Proof.
  intros HR Hp. apply wp_bind. wp_use (by apply (wp_count_kiss _ s0 n _ d)). intros [] s1 H1.
  eapply wp_conseq; [eapply wp_mod_kiss; [exact H1|done|]|].
  - destruct (inv_kiss _ _ _ (ra_inv _ _ _ _ _ _ _ H1) _ _ (ra_kiss _ _ _ _ _ _ _ H1)) as (_ & Hl & Hr). split; [by left|done].
  - intros [] s2 H2. by eexists.
Qed.

(** A byte of the frame. *)
Lemma wp_kiss_store b s0 n s d p : rx_at T h i d s0 n s -> rx_packet d = Some p ->
  (forall k, pkt_at p s = Some k -> frame_off k + rx_length d < CSP_BUFFER_SIZE) ->
  wp (kiss_store i b) (fun _ s' => rx_at T h i (set_rx_length (rx_length d + 1) d) s0 n s') s.
Proof.
  intros HR Hp Hroom. pose proof HR as [HI Hd Hf]. destruct (inv_kiss _ _ _ HI _ _ Hd) as (Hm & Hl & Hr).
  destruct (Hr p Hp) as (k & Hk & Hb & Ho & _). specialize (Hroom k Hk). pose proof (hdr_size_bound s) as Hh. unfold CSP_BUFFER_SIZE in *.
  destruct (live_pkt s p) as (k' & Hk' & Hok); [apply (inv_live _ _ _ HI); right; by eapply kiss_in_refs|].
  rewrite Hk in Hk'. injection Hk' as <-. pose proof Hok as [Hml Hlen]. unfold CSP_PACKET_PADDING_BYTES, CSP_BUFFER_SIZE in Hml.
  destruct (mem_write_ok (pkt_mem k) (8 + (frame_off k + rx_length d)) [b]) as [m Hw]; [simpl; lia|simpl; lia|].
  unfold wp. erewrite store_run; [|exact Hd|exact Hp|exact Hk|exact Hb|lia|exact Hw].
  constructor; [|by eapply kiss_at_kiss|done]. eapply kiss_put; [exact HI|exact Hd|exact Hp|exact Hp| |].
  - split; [|done]. simpl. by rewrite (mem_write_length _ _ _ _ Hw).
  - split; [exact Hm|]. split; [simpl; lia|]. intros q Hq. simpl in Hq. rewrite Hp in Hq. injection Hq as <-.
    exists (set_pkt_mem m k). split; [by eapply pkt_at_put|]. split; [done|]. split; [done|]. simpl. unfold CSP_BUFFER_SIZE. lia.
Qed.

(** The packet goes to the router, and leaves the receiver. *)
Lemma wp_hand_over isr s0 n s d p : rx_at T h i d s0 n s -> rx_packet d = Some p ->
  wp (csp_qfifo_write (Some p) (Some i) isr ;; mod_kiss i (fun d => set_rx_mode KISS_MODE_NOT_STARTED (set_rx_packet None d)))
    (fun _ s' => exists d', rx_at T h i d' s0 n s') s.
Proof.
  intros [HI Hd Hf] Hp. pose proof (kiss_take _ _ _ _ _ _ HI Hd Hp) as Ht.
  assert (Es : at_kiss i d (at_kiss i (idle d) s) = s) by (by rewrite at_kiss_twice, at_kiss_id).
  pose proof (wp_qfifo_write T h _ i p isr Ht Hi) as Hw. apply wp_run in Hw as ([] & s1 & Hr & H1).
  destruct (blind_qfifo_write p i isr i d _ _ _ Hr) as [Hr' Hk]. rewrite Es in Hr'. pose proof (qfifo_write_size _ _ _ _ _ Hr) as Hs.
  apply wp_bind. unfold wp at 1. rewrite Hr'. unfold wp.
  assert (Hk1 : kiss s1 !! i = Some (Some (idle d))) by (rewrite Hk; by eapply kiss_at_kiss).
  erewrite mod_kiss_at by (eapply kiss_at_kiss; exact Hk1). rewrite at_kiss_twice. eexists. constructor; [|by eapply kiss_at_kiss|simpl in *; lia].
  eapply Inv_at_kiss; [exact H1|exact Hk1| |].
  - destruct (inv_kiss _ _ _ HI _ _ Hd) as (_ & Hl & _). split; [by left|]. split; [exact Hl|by intros ? [=]].
  - intros q. reflexivity.
Qed.

Lemma wp_kiss_accept isr s0 n s d p : rx_at T h i d s0 n s -> rx_packet d = Some p ->
  wp (kiss_accept i p isr) (fun _ s' => exists d', rx_at T h i d' s0 n s') s.
Proof.
  intros HR Hp. pose proof HR as [HI Hd Hf]. destruct (inv_kiss _ _ _ HI _ _ Hd) as (_ & Hl & Hr).
  destruct (Hr p Hp) as (k & Hk & Hb & Ho & Hroom). pose proof (hdr_size_bound s) as Hh.
  destruct (live_pkt s p) as (k' & Hk' & Hok); [apply (inv_live _ _ _ HI); right; by eapply kiss_in_refs|].
  rewrite Hk in Hk'. injection Hk' as <-. pose proof Hok as [Hml Hlen].
  unfold kiss_accept. apply wp_bind. eapply wp_get_kiss; [exact HR|].
  apply wp_bind. unfold wp at 1. rewrite (mod_pkt_at _ _ _ _ Hk). set (k1 := set_frame_length _ k).
  assert (HR1 : rx_at T h i d s0 n (put_pkt p k1 s)) by (by apply rx_put).
  assert (Hk1 : pkt_at p (put_pkt p k1 s) = Some k1) by (by eapply pkt_at_put).
  assert (Efl : frame_length k1 = rx_length d) by (unfold CSP_BUFFER_SIZE in *; simpl; rewrite u16_small; lia).
  set (s1 := put_pkt p k1 s) in *. change (csp_id_strip p) with (strip_any false p). apply wp_bind.
  destruct (Z.lt_ge_cases (frame_length k1) (hdr_size s1)) as [Hs|Hs].
  { unfold wp at 1. rewrite (strip_short false p k1 s1 Hk1 Hs). simpl. by apply (wp_drop_frame s0 n _ d); [|rewrite Hp]. }
  unfold CSP_PACKET_PADDING_BYTES, CSP_BUFFER_SIZE in *.
  destruct (mem_read_ok (pkt_mem k1) (8 + frame_off k1) (hdr_size s1)) as [bs Hbs]; [change (hdr_size s1) with (hdr_size s); simpl; lia..|].
  unfold wp at 1. rewrite (strip_at false p k1 s1 bs Hk1 Hb Hs Hbs). simpl (0 <? 0). cbv iota.
  set (k2 := stripped _ _ k1). assert (Hok2 : packet_ok k2).
  { split; [exact Hml|]. change (0 <= u16 (frame_length k1 - hdr_size s) <= 256). change (hdr_size s1) with (hdr_size s) in Hs.
    rewrite Efl in *. rewrite u16_small; lia. }
  assert (HR2 : rx_at T h i d s0 n (put_pkt p k2 s1)) by (by apply rx_put).
  assert (Hk2 : pkt_at p (put_pkt p k2 s1) = Some k2) by (by eapply pkt_at_put).
  set (s2 := put_pkt p k2 s1) in *. pose proof (crc_verify_run p k2 s2 Hk2 (proj1 Hok2) (proj2 Hok2)) as Hcrc.
  apply wp_bind. unfold wp at 1. destruct (pkt_length k2 <? 4) eqn:E4.
  { rewrite Hcrc. simpl. by apply (wp_drop_frame s0 n _ d); [|rewrite Hp]. }
  destruct Hcrc as (data & tail & m & _ & _ & Hw & ->). apply mem_write_length in Hw.
  assert (Hfr : forall x, 0 <= x <= 256 -> rx_at T h i d s0 n (put_pkt p (set_pkt_length x (framed p (hdr_size s2) m k2)) s2)).
  { intros x Hx. apply rx_put; [done|done| |done|done]. split; [|exact Hx]. simpl. rewrite Hw. exact (proj1 Hok2). }
  pose proof (proj2 Hok2) as Hl2. unfold CSP_BUFFER_SIZE in Hl2.
  destruct (crc_accepts _ _ _ _); simpl negb; cbv iota.
  - eapply wp_hand_over; [|exact Hp]. apply Hfr. apply Z.ltb_ge in E4. lia.
  - apply (wp_drop_frame s0 n _ d); [|by rewrite Hp]. exact (Hfr (pkt_length k2) Hl2).
Qed.

(** A start character outside a frame. *)
Lemma wp_kiss_start isr s0 n s d : rx_at T h i d s0 n s -> (n < q_size (csp_buffers s0))%nat ->
  wp (kiss_start i isr) (fun _ s' => exists d', rx_at T h i d' s0 (S n) s') s.
Proof.
  intros HR Hn. pose proof HR as [HI Hd Hf]. pose proof (hdr_size_bound s) as Hh.
  unfold kiss_start. apply wp_bind. eapply wp_get_kiss; [exact HR|]. destruct (inv_kiss _ _ _ HI _ _ Hd) as (Hm & Hl & Hr).
  set (d' := set_rx_first true (set_rx_mode KISS_MODE_STARTED (set_rx_length 0 d))).
  destruct (rx_packet d) as [p|] eqn:Hp.
  - destruct (Hr p eq_refl) as (k & Hk & Hb & Ho & _). destruct (live_pkt s p) as (k' & Hk' & Hok); [apply (inv_live _ _ _ HI); right; by eapply kiss_in_refs|].
    rewrite Hk in Hk'. injection Hk' as <-.
    apply wp_bind, wp_ret. apply wp_bind. unfold wp at 1. rewrite (mod_kiss_at _ _ _ _ Hd).
    replace (set_rx_packet (Some p) d) with d by (destruct d; simpl in *; by subst). rewrite at_kiss_id by exact Hd.
    apply wp_bind. unfold wp at 1. rewrite (setup_rx_at p k s Hk). set (k1 := set_frame_length _ _).
    assert (HR1 : rx_at T h i d s0 n (put_pkt p k1 s)) by (by apply rx_put).
    eapply wp_conseq; [eapply wp_mod_kiss; [exact HR1|done|]|].
    + split; [simpl; congruence|]. split; [simpl; lia|]. intros q Hq. simpl in Hq. rewrite Hp in Hq. injection Hq as <-. exists k1.
      split; [by eapply pkt_at_put|]. split; [done|]. split; [done|]. unfold CSP_BUFFER_SIZE. simpl. lia.
    + intros [] s2 [H2 H3 H4]. eexists. constructor; [exact H2|exact H3|lia].
  - pose proof (get_actual_run s 0 isr (Inv_pool_ok _ _ _ HI)) as Hg. rewrite (proj2 (Z.ltb_ge _ _)) in Hg by lia.
    destruct (q_items (csp_buffers s)) as [|p rest] eqn:Ei; [unfold q_size in Hf at 2; rewrite Ei in Hf; simpl in Hf; lia|].
    set (sg := set_pool _ _) in Hg. assert (Hlp : (p < length (pool s))%nat) by (rewrite (inv_pool _ _ _ HI); apply (inv_free _ _ _ HI); rewrite Ei; left).
    assert (Hpk : pkt_at p sg = Some (packet_zero p)) by (unfold pkt_at, sg; simpl; by rewrite list_lookup_insert_eq).
    destruct (Inv_alloc T h s p rest CSP_BUFFER_COUNT HI Ei (eq_sym (inv_cap _ _ _ HI))) as [Hsg _]. fold sg in Hsg.
    apply wp_bind. unfold wp at 1.
    assert (Ealw : (if isr then csp_buffer_get_always_isr else csp_buffer_get_always) s = Ret p sg).
    { destruct isr; unfold csp_buffer_get_always_isr, csp_buffer_get_always; by rewrite (bind_ret _ _ _ _ _ Hg). }
    rewrite Ealw. apply wp_bind. unfold wp at 1. rewrite (mod_kiss_at _ _ _ sg Hd). set (dp := set_rx_packet (Some p) d).
    apply wp_bind. unfold wp at 1. erewrite setup_rx_at by exact Hpk. set (k1 := set_frame_length _ _).
    unfold wp. erewrite mod_kiss_at by (eapply kiss_at_kiss; exact Hd). rewrite put_at_kiss, at_kiss_twice.
    eexists. constructor; [|by eapply kiss_at_kiss|simpl; unfold q_size in *; rewrite Ei in Hf; simpl in *; lia].
    assert (H1 : Inv T (p :: h) (put_pkt p k1 sg)) by (apply Inv_put_pkt; [done|left|apply packet_zero_ok]).
    eapply Inv_at_kiss; [exact H1|exact Hd| |].
    + split; [done|]. split; [simpl; lia|]. intros q [= <-]. exists k1. split; [by eapply pkt_at_put|]. split; [done|]. split; [done|].
      unfold CSP_BUFFER_SIZE. change (hdr_size (at_kiss i dp sg)) with (hdr_size s). simpl. change (hdr_size (at_kiss i dp sg)) with (hdr_size s). lia.
    + intros q. unfold rx_refs. simpl rx_packet. rewrite Hp, !cnt_cons, !cnt_nil. lia.
Qed.

(** One byte: a buffer leaves the pool only for a frame character. *)
Definition fend (b : Z) : nat := if b =? FEND then 1%nat else 0%nat.

Lemma rx_more s0 n m s d : rx_at T h i d s0 n s -> (n <= m)%nat -> rx_at T h i d s0 m s.
Proof. intros [H1 H2 H3] Hm. constructor; [done|done|lia]. Qed.

Lemma wp_kiss_switch isr b s0 n s d : rx_at T h i d s0 n s -> (n + fend b <= q_size (csp_buffers s0))%nat ->
  (forall p k, rx_packet d = Some p -> pkt_at p s = Some k -> frame_off k + rx_length d < CSP_BUFFER_SIZE) ->
  wp (kiss_switch i isr b) (fun _ s' => exists d', rx_at T h i d' s0 (n + fend b) s') s.
Proof.
  intros HR Hn Hroom. pose proof HR as [HI Hd Hf]. destruct (inv_kiss _ _ _ HI _ _ Hd) as (Hm & Hl & Hr).
  assert (Hstay : forall s1 d1, rx_at T h i d1 s0 n s1 -> exists d', rx_at T h i d' s0 (n + fend b) s1).
  { intros s1 d1 H1. exists d1. eapply rx_more; [exact H1|lia]. }
  assert (Hmode : forall f, rx_packet (f d) = rx_packet d -> rx_length (f d) = rx_length d -> rx_packet d <> None ->
    wp (mod_kiss i f) (fun _ s' => exists d', rx_at T h i d' s0 (n + fend b) s') s).
  { intros f Hp Hln Hne. eapply wp_conseq; [eapply wp_mod_kiss; [exact HR|exact Hp|]|intros [] s1 H1; by eapply Hstay].
    split; [by rewrite Hp|]. rewrite Hp, Hln. by split. }
  unfold kiss_switch. apply wp_bind. eapply wp_get_kiss; [exact HR|]. unfold fend in *. destruct (rx_mode d) eqn:Emode.
  - destruct (b =? FEND); simpl negb; cbv iota; [|by apply wp_ret, (Hstay s d)].
    eapply wp_conseq; [apply (wp_kiss_start isr s0 n s d HR); lia|]. intros [] s1 (d' & H1). exists d'. by rewrite Nat.add_1_r.
  - destruct (rx_packet d) as [p|] eqn:Hp; [|destruct (Hm eq_refl); discriminate].
    destruct (b =? FESC); [by apply Hmode|]. destruct (b =? FEND).
    + destruct (0 <? rx_length d); [|by apply wp_ret, (Hstay s d)]. apply wp_bind, wp_ret.
      eapply wp_conseq; [by apply (wp_kiss_accept isr s0 n s d p HR)|]. intros [] s1 (d' & H1). by eapply Hstay.
    + destruct (rx_first d); [by apply Hmode|].
      eapply wp_conseq; [apply (wp_kiss_store b s0 n s d p HR Hp); intros k Hk; by apply (Hroom p)|]. intros [] s1 H1. by eapply Hstay.
  - destruct (rx_packet d) as [p|] eqn:Hp; [|destruct (Hm eq_refl); discriminate].
    assert (Hstore : forall c, wp (kiss_store i c) (fun _ s' => exists d', rx_at T h i d' s0 n s' /\ rx_packet d' <> None) s).
    { intros c. eapply wp_conseq; [apply (wp_kiss_store c s0 n s d p HR Hp); intros k Hk; by apply (Hroom p)|]. intros [] s1 H1. eexists. split; [exact H1|].
      simpl. by rewrite Hp. }
    assert (Hend : forall s1 d1, rx_at T h i d1 s0 n s1 -> rx_packet d1 <> None ->
      wp (mod_kiss i (set_rx_mode KISS_MODE_STARTED)) (fun _ s' => exists d', rx_at T h i d' s0 (n + (if b =? FEND then 1 else 0)) s') s1).
    { intros s1 d1 H1 Hne. eapply wp_conseq; [eapply wp_mod_kiss; [exact H1|done|]|intros [] s2 H2; by eapply Hstay].
      destruct (inv_kiss _ _ _ (ra_inv _ _ _ _ _ _ _ H1) _ _ (ra_kiss _ _ _ _ _ _ _ H1)) as (_ & Hl1 & Hr1). by split. }
    destruct (Z.eqb_spec b TFESC) as [->|Hne].
    + apply wp_bind. eapply wp_conseq; [apply Hstore|]. intros [] s1 (d1 & H1 & Hd1).
      apply wp_bind, wp_ret. by eapply Hend.
    + apply wp_bind, wp_ret. apply wp_bind. destruct (b =? TFEND).
      * eapply wp_conseq; [apply Hstore|]. intros [] s1 (d1 & H1 & Hd1). by eapply Hend.
      * apply wp_ret. eapply Hend; [exact HR|by rewrite Hp].
  - destruct (b =? FEND); [|by apply wp_ret, (Hstay s d)].
    eapply wp_conseq; [eapply wp_mod_kiss; [exact HR|done|]|intros [] s1 H1; by eapply Hstay].
    split; [by left|done].
Qed.

Lemma wp_kiss_rx_byte isr b s0 n s d : rx_at T h i d s0 n s -> (n + fend b <= q_size (csp_buffers s0))%nat ->
  wp (kiss_rx_byte i isr b) (fun _ s' => exists d', rx_at T h i d' s0 (n + fend b) s') s.
Proof.
  intros HR Hn. pose proof HR as [HI Hd Hf]. destruct (inv_kiss _ _ _ HI _ _ Hd) as (Hm & Hl & Hr). pose proof (hdr_size_bound s) as Hh.
  unfold kiss_rx_byte. apply wp_bind. eapply wp_get_kiss; [exact HR|]. apply wp_bind. unfold kiss_overrun.
  destruct (rx_packet d) as [p|] eqn:Hp.
  - destruct (Hr p eq_refl) as (k & Hk & Hb & Ho & Hroom). apply wp_bind. unfold wp at 1. rewrite (get_pkt_at _ _ _ Hk), Hb, Nat.eqb_refl. apply wp_ret.
    apply wp_bind. destruct (Z.leb_spec CSP_BUFFER_SIZE (frame_off k + rx_length d)) as [Ho1|Ho1].
    + apply wp_bind. eapply wp_conseq; [eapply wp_count_kiss; [exact HR|done]|]. intros [] s1 H1. pose proof (ra_inv _ _ _ _ _ _ _ H1) as HI1.
      destruct (inv_kiss _ _ _ HI1 _ _ (ra_kiss _ _ _ _ _ _ _ H1)) as (_ & _ & Hr1). pose proof (hdr_size_bound s1) as Hh1.
      set (d1 := set_rx_length 0 (set_rx_mode KISS_MODE_NOT_STARTED d)).
      assert (Hd1 : forall s2, rx_at T h i d1 s0 n s2 -> wp (kiss_switch i isr b) (fun _ s' => exists d', rx_at T h i d' s0 (n + fend b) s') s2).
      { intros s2 H2. pose proof (ra_inv _ _ _ _ _ _ _ H2) as HI2. apply (wp_kiss_switch isr b s0 n s2 d1 H2 Hn). intros q k2 Hq Hk2.
        destruct (inv_kiss _ _ _ HI2 _ _ (ra_kiss _ _ _ _ _ _ _ H2)) as (_ & _ & Hr2). destruct (Hr2 q Hq) as (k3 & Hk3 & _ & Ho3 & _).
        rewrite Hk2 in Hk3. injection Hk3 as <-. pose proof (hdr_size_bound s2). simpl. unfold CSP_BUFFER_SIZE. lia. }
      eapply wp_conseq; [eapply wp_mod_kiss; [exact H1|done|]|intros [] s2 H2; by apply Hd1].
      split; [by left|]. split; [simpl; lia|]. intros q Hq. destruct (Hr1 q Hq) as (k1 & Hk1 & Hb1 & Ho2 & _). exists k1.
      split; [done|]. split; [done|]. split; [done|]. simpl. unfold CSP_BUFFER_SIZE. lia.
    + apply wp_ret. apply (wp_kiss_switch isr b s0 n s d HR Hn). intros q k' Hq Hk'. rewrite Hp in Hq. injection Hq as <-. by simplify_eq.
  - apply wp_ret, wp_bind, wp_ret. apply (wp_kiss_switch isr b s0 n s d HR Hn). intros q k' Hq. congruence.
Qed.

Lemma wp_kiss_rx isr buf : forall s0 n s d, rx_at T h i d s0 n s -> (n + length (filter (fun b => b = FEND) buf) <= q_size (csp_buffers s0))%nat ->
  wp (csp_kiss_rx i buf isr) (fun _ s' => exists d', rx_at T h i d' s0 (n + length (filter (fun b => b = FEND) buf)) s') s.
Proof.
  induction buf as [|b buf IH]; intros s0 n s d HR Hn; simpl.
  - apply wp_ret. exists d. eapply rx_more; [exact HR|lia].
  - assert (Ef : length (filter (fun b => b = FEND) (b :: buf)) = (fend b + length (filter (fun b => b = FEND) buf))%nat).
    { rewrite filter_cons. unfold fend. destruct (Z.eqb_spec b FEND); [by rewrite decide_True by done|by rewrite decide_False by done]. }
    rewrite Ef in *. apply wp_bind. eapply wp_conseq; [apply (wp_kiss_rx_byte isr b s0 n s d HR); lia|]. intros [] s1 (d1 & H1).
    eapply wp_conseq; [apply (IH s0 _ s1 d1 H1); lia|]. intros [] s2 (d2 & H2). exists d2. by rewrite Nat.add_assoc.
Qed.

End Rx.

(** C28. The KISS receiver is safe on every byte stream.  Whatever bytes come from
    the line, cut into frames or not, with good and bad escapes, headers and
    checksums, too short or too long: [csp_kiss_rx] returns, writes only inside
    the packet in reception and keeps the invariant of the node (each buffer
    is in one place, the packet in reception in the interface), as long as the
    pool holds a buffer for each frame character of the stream; it takes no
    more. *)
Theorem kiss_rx_safe T h s i d buf isr : Inv T h s -> valid_if T i -> kiss s !! i = Some (Some d) ->
  (length (filter (fun b => b = FEND) buf) <= q_size (csp_buffers s))%nat ->
  exists s', csp_kiss_rx i buf isr s = Ret tt s' /\ Inv T h s' /\ (exists d', kiss s' !! i = Some (Some d')) /\
    (q_size (csp_buffers s) <= q_size (csp_buffers s') + length (filter (fun b => b = FEND) buf))%nat.
Proof.
  intros HI Hi Hd Hn. pose proof (wp_kiss_rx T h i Hi isr buf s 0 s d) as Hw.
  destruct (proj1 (wp_run _ _ _) (Hw ltac:(constructor; [done|done|lia]) Hn)) as ([] & s' & Hr & d' & [H1 H2 H3]).
  exists s'. split; [done|]. split; [done|]. split; [by exists d'|done].
Qed.
