(* ===== verification/OwnApi.v ===== *)
(** * OwnApi: the calls of the application keep the node well formed

    The calls of [Api] run beside the router: they take packets from the
    application and give it packets, and they wait.  Each returns without
    undefined behaviour and leaves the node well formed; [WF h] counts the
    packets the caller holds. *)

From S2P Require Import Prelude State Monad Id Buffer Iflist Qfifo Io RdpQueue Rdp Conn RdpProto Api Route Own.
From S2P Require Import OwnIo OwnRdp OwnRoute.

Section ApiOwn.
Context `{OwnLaws}.

(** ** Waiting *)

Lemma wp_yield h s : WF h s -> wp yield (fun _ s' => WF h s') s.
Proof.
  intros (T & o & HI). unfold wp, yield.
  assert (Hw : Inv T (h ++ o) (set_waits (S (waits s)) s)) by (destruct HI; by constructor).
  destruct (law_yield T _ _ (waits s) Hw) as (T' & o' & H1 & _). exists T', (o ++ o'). by rewrite app_assoc.
Qed.

Lemma wp_when_WF h s b m : WF h s -> (b = true -> wp m (fun _ s' => WF h s') s) -> wp (when b m) (fun _ s' => WF h s') s.
Proof. intros Hs Hm. apply wp_when; intros Hb; [by apply Hm|done]. Qed.

(** The rules for connections, for whatever configuration. *)
Lemma WF_get_conn h s c (Q : csp_conn -> node -> Prop) : WF h s -> (c < CSP_CONN_MAX)%nat ->
  (forall x, arr_conn s !! c = Some x -> Q x s) -> wp (get_conn c) Q s.
Proof. intros (T & o & HI). by apply wp_get_conn with (T := T) (h := h ++ o). Qed.

Lemma WF_mod_rdp h s c f : WF h s -> (c < CSP_CONN_MAX)%nat -> wp (mod_rdp c f) (fun _ s' => WF h s') s.
Proof. intros (T & o & HI) Hc. by apply (wp_WF _ T h o), wp_mod_rdp. Qed.

Lemma WF_get_ms h s : WF h s -> wp csp_get_ms (fun _ s' => WF h s') s.
Proof. intros (T & o & HI). by apply (wp_WF _ T h o), wp_get_ms. Qed.

(** What a task that waits is known to do, in either logic [w]. *)
Lemma WF_sem_wait `{WaitLogic w} h s c t : WF h s -> (c < CSP_CONN_MAX)%nat -> wl_may w t -> w _ (csp_bin_sem_wait c t) (fun _ s' => WF h s') s.
Proof.
  intros HI Hc Ht. unfold csp_bin_sem_wait. apply wl_seq. eapply WF_get_conn; [done|done|]. intros x Hx.
  destruct (_ <? _). { apply wl_seq. wp_use (by apply WF_mod_rdp). intros [] s1 H2. by apply wl_ret. }
  destruct (_ =? _); [by apply wl_ret|]. apply wl_seq. wp_use (by apply wp_yield). intros [] s1 H2.
  apply wl_seq. eapply WF_get_conn; [done|done|]. intros x1 Hx1.
  destruct (_ <? _); [|by apply wl_timed_out]. apply wl_seq. wp_use (by apply WF_mod_rdp). intros [] s2 H3. by apply wl_ret.
Qed.

(** ** Connecting *)

Lemma length_data32 vs : zlen (data32_bytes vs) = 4 * zlen vs.
Proof.
  unfold data32_bytes. induction vs as [|v vs IH]; [done|]. cbn [flat_map length]. rewrite length_app, length_le_bytes. lia.
Qed.

Lemma WF_connect_error h s c : WF h s -> (c < CSP_CONN_MAX)%nat -> wp (connect_error c) (fun _ s' => WF h s') s.
Proof.
  intros (T & o & HI) Hc. unfold connect_error. apply (wp_WF _ T h o). apply wp_bind. wp_use (by apply wp_close_internal).
  intros r s1 H1. by apply wp_ret.
Qed.

Lemma WF_send_syn h s c : WF h s -> (c < CSP_CONN_MAX)%nat -> wp (csp_rdp_send_syn c) (fun _ s' => WF h s') s.
Proof.
  intros (T & o & HI) Hc. unfold csp_rdp_send_syn.
  apply wp_bind. wp_use (by apply wp_buffer_get). intros [p|] s1 [H1 _]; [|apply wp_ret; by exists T, o].
  apply wp_bind, wp_gets. unfold id. cbv zeta.
  destruct (live_pkt s1 p) as (k & Hk & Hok); [eapply Inv_live_h; [done|left]|].
  apply wp_bind. wp_use (eapply (wp_write_mem T (p :: h ++ o)); [done|left|done|lia|]; rewrite length_data32; simpl; lia).
  intros [] s2 [H2 (m & Hm)].
  apply wp_bind. wp_use (apply (wp_mod_pkt T (p :: h ++ o)); [done|left|];
    intros k2 [Hm2 _]; split; [done|simpl; unfold CSP_BUFFER_SIZE; lia]).
  intros [] s3 H3. apply wp_bind. eapply wp_get_conn; [done|done|]. intros x Hx.
  wp_use (by apply (wp_send_cmp T (h ++ o))). intros r s4 H4. exact (WF_lost 1 T h o s4 H4).
Qed.

Lemma WF_connect_try `{WaitLogic w} n c h s : WF h s -> (c < CSP_CONN_MAX)%nat -> (forall t, wl_may w t) ->
  w _ (rdp_connect_try n c) (fun _ s' => WF h s') s.
Proof.
  intros HI Hc Ht. revert s HI. induction n as [|n IH]; intros s HI; simpl;
    (apply wl_seq; eapply WF_get_conn; [done|done|]); intros x Hx; (destruct (decide _); [by apply wl_ret|]);
    apply wl_seq; (wp_use (by apply WF_get_ms)); intros seed s1 H1';
    apply wl_seq; (wp_use (by apply WF_mod_rdp)); intros [] s2 H2;
    apply wl_seq; (wp_use (by apply (WF_sem_wait (w := @wp)))); intros _b s3 H3;
    apply wl_seq; (wp_use (by apply WF_mod_rdp)); intros [] s4 H4;
    apply wl_seq; (wp_use (by apply WF_send_syn)); intros r s5 H5;
    (destruct (negb _); [by apply wl_wp, WF_connect_error|]);
    apply wl_seq; (eapply WF_get_conn; [done|done|]); intros x5 Hx5;
    apply wl_bind; (eapply wl_conseq; [by apply (WF_sem_wait h)|]); cbv beta; intros ok s6 H6;
    (destruct (negb _); [by apply wl_wp, WF_connect_error|]);
    apply wl_seq; (eapply WF_get_conn; [done|done|]); intros x6 Hx6;
    (destruct (rdp_state (conn_rdp x6)); try (by apply wl_ret); try (by apply wl_wp, WF_connect_error)).
  apply wl_seq. destruct H6 as (T & o & H6). wp_use (by apply (wp_rdp_flush T (h ++ o))). intros [] s7 H7. apply IH. by exists T, o.
Qed.

Lemma WF_rdp_connect `{WaitLogic w} c h s : WF h s -> (c < CSP_CONN_MAX)%nat -> (forall t, wl_may w t) ->
  w _ (csp_rdp_connect c) (fun _ s' => WF h s') s.
Proof.
  intros HI Hc Ht. unfold csp_rdp_connect. apply wl_seq, wp_gets. unfold id.
  apply wl_seq. wp_use (by apply WF_mod_rdp). intros [] s1 H2.
  apply wl_seq. wp_use (by apply WF_get_ms). intros now s2 H3.
  apply wl_seq. wp_use (by apply WF_mod_rdp). intros [] s3 H4. by apply WF_connect_try.
Qed.

(** The options and the node's defaults ask for no RDP. *)
Definition plain (opts : Z) (s : node) : Prop :=
  connect_flags (connect_opts (Z.lor opts (conn_dfl_so (conf s)))) &.& CSP_FRDP = false.

(** Only the handshake of RDP waits. *)
Lemma WF_connect `{WaitLogic w} prio d dp opts h s : WF h s -> plain opts s \/ (forall t, wl_may w t) ->
  w _ (csp_connect prio d dp opts)
    (fun r s' => WF h s' /\ match r with Some c => (c < CSP_CONN_MAX)%nat | None => True end) s.
Proof.
  intros (T & o & HI) Hp. unfold csp_connect. apply wl_seq, wp_gets. unfold id. cbv zeta.
  apply wl_seq. wp_use (by apply wp_conn_new). intros [c|] s1 H2; [|apply wl_ret; by split; [exists T, o|]]. destruct H2 as [Hc H2].
  apply wl_seq. wp_use (by apply (wp_mod_dest T (h ++ o))). intros [] s2 [H3 _].
  destruct (_ &.& _) eqn:Ef; [|apply wl_ret; by split; [exists T, o|]]. destruct Hp as [Hp|Hp]; [unfold plain in Hp; congruence|].
  apply wl_bind. eapply wl_conseq; [apply (WF_rdp_connect _ h); [by exists T, o|done|done]|]. cbv beta. intros r s3 H4.
  destruct (negb _); [|by apply wl_ret].
  apply wl_seq. destruct H4 as (T3 & o3 & H4). wp_use (by apply (wp_conn_close T3 (h ++ o3))). intros r' s4 H5.
  apply wl_ret. by split; [exists T3, o3|].
Qed.

(** ** Reading and sending *)

(** The time [csp_read] waits: at least that of the RDP connection. *)
Definition read_timeout (timeout : Z) (x : csp_conn) : Z :=
  if negb (timeout =? 0) && (flags (idin x) &.& CSP_FRDP) && (timeout <? conn_timeout (conn_rdp x))
  then conn_timeout (conn_rdp x) else timeout.

Lemma WF_read `{WaitLogic w} c t h s : WF h s -> (c < CSP_CONN_MAX)%nat ->
  (forall x, arr_conn s !! c = Some x -> wl_may w (read_timeout t x)) ->
  w _ (csp_read (Some c) t) (fun r s' => WF (opt_held r h) s') s.
Proof.
  intros HI Hc Ht. cbn [csp_read]. apply wl_seq. eapply WF_get_conn; [done|done|]. intros x Hx.
  destruct (negb _); [by apply wl_ret|]. cbv zeta. fold (read_timeout t x). apply wl_seq.
  wp_use (apply wp_when_WF; [done|]; intros _; by apply wp_yield). intros [] s1 H2.
  apply wl_seq. eapply WF_get_conn; [done|done|]. intros y Hy. destruct H2 as (T & o & H2).
  destruct (q_dequeue (conn_rxq y)) as [[r q']|] eqn:E; [|apply wl_timed_out; [by apply Ht|by exists T, o]].
  apply q_dequeue_items in E. apply wl_seq.
  eapply wp_conseq; [eapply (wp_conn_rxq T (h ++ o) (opt_held r h ++ o) _ _ _ q' H2 Hy)|].
  { intros p. unfold conn_refs. rewrite E.
    destruct r as [p'|]; rewrite ?omap_id_some, ?omap_id_none; cbn [opt_held app]; rewrite ?cnt_cons; lia. }
  cbv beta. intros [] s2 [H3 _]. apply wl_seq.
  wp_use (apply (wp_when_WF (opt_held r h)); [by exists T, o|]; intros _; by apply (wp_WF _ T _ o), wp_check_ack').
  intros [] s3 H4. by apply wl_ret.
Qed.

(** [csp_send] need not wait for the RDP window. *)
Definition sendable (x : csp_conn) : Prop :=
  conn_is_open x = false \/ flags (idout x) &.& CSP_FRDP = false \/
  rdp_state (conn_rdp x) <> RDP_OPEN \/ csp_rdp_is_conn_ready_for_tx (conn_rdp x) = true.

Lemma wp_rdp_send T h s fuel c p x : Inv T (p :: h) s -> (c < CSP_CONN_MAX)%nat -> arr_conn s !! c = Some x ->
  rdp_state (conn_rdp x) <> RDP_OPEN \/ csp_rdp_is_conn_ready_for_tx (conn_rdp x) = true ->
  wp (csp_rdp_send fuel c p) (fun _ s' => Inv T (p :: h) s') s.
Proof.
  intros HI Hc Hx Hr. unfold csp_rdp_send, rdp_send_ready. apply wp_bind. eapply wp_get_conn; [done|done|]. intros x' Hx'. simplify_eq.
  case_bool_decide as Ho; simpl negb; [|by apply wp_ret]. destruct Hr as [Hr|Hr]; [done|].
  apply wp_bind. apply (wp_conseq _ (fun _ s' => Inv T (p :: h) s')).
  { destruct fuel; simpl; (apply wp_bind; eapply wp_get_conn; [done|done|]); intros x' Hx'; simplify_eq; rewrite Ho, Hr;
      by apply wp_ret. }
  intros ready s1 H1. destruct (negb ready); [by apply wp_ret|].
  apply wp_bind. wp_use (apply wp_header_add; [done|left]). intros [off|] s2 [H2 Hoff]; [|by apply wp_ret].
  apply wp_bind. eapply wp_get_conn; [done|done|]. intros x2 Hx2.
  apply wp_bind. wp_use (apply (wp_write_hdr T (p :: h)); [done|left|lia|lia]). intros [] s3 H3.
  apply wp_bind. wp_use (apply wp_buffer_clone; [done|left]). intros [r|] s4 H4; [|by apply wp_ret].
  apply wp_bind. wp_use (by apply (wp_get_ms T)). intros now s5 H5.
  apply wp_bind. wp_use (apply (wp_mod_pkt T (r :: p :: h)); [done|left|done]). intros [] s6 H6.
  apply wp_bind. wp_use (by apply (wp_rdp_queue_add T (p :: h))). intros [] s7 (H7 & _).
  apply wp_bind. wp_use (by apply wp_mod_rdp). intros [] s8 H8.
  apply wp_bind. wp_use (by apply (wp_get_ms T)). intros now2 s9 H9.
  apply wp_bind. wp_use (by apply wp_mod_rdp). intros [] s10 H10. by apply wp_ret.
Qed.

Lemma wp_send T h s fuel c p x : Inv T (p :: h) s -> (c < CSP_CONN_MAX)%nat -> arr_conn s !! c = Some x -> sendable x ->
  wp (csp_send fuel (Some c) (Some p)) (fun _ s' => Inv T h s') s.
Proof.
  intros HI Hc Hx Hs. simpl. apply wp_bind. eapply wp_get_conn; [done|done|]. intros x' Hx'. simplify_eq.
  destruct (conn_is_open x) eqn:Eo; simpl negb; [|by apply wp_free].
  apply wp_bind. apply (wp_conseq _ (fun _ s' => Inv T (p :: h) s')).
  { destruct (_ &.& _) eqn:Ef; [|by apply wp_ret]. eapply wp_rdp_send; [done..|].
    destruct Hs as [Hs|[Hs|Hs]]; [congruence|congruence|done]. }
  intros r s1 H1. destruct (negb _); [by apply wp_free|].
  apply wp_bind. eapply wp_get_conn; [done|done|]. intros x1 Hx1.
  apply wp_bind. wp_use (by apply wp_send_direct). intros i s2 H2.
  apply wp_mod_conn; [done|done|]. intros y. split; [done|by left].
Qed.

Lemma wp_sendto T h s prio d dp sp opts p : Inv T (p :: h) s ->
  wp (csp_sendto prio d dp sp opts p) (fun _ s' => Inv T h s') s.
Proof.
  intros HI. unfold csp_sendto.
  assert (Hid : forall b f s, Inv T (p :: h) s -> wp (when b (mod_pkt p (fun k => set_pkt_id (f k) k))) (fun _ s' => Inv T (p :: h) s') s).
  { intros b f s1 H1. apply wp_when; intros _; [|done]. apply wp_mod_pkt; [done|left|done]. }
  apply wp_bind. wp_use (by apply Hid). intros [] s1 H1. destruct (_ &.& _).
  { apply wp_bind. wp_use (by apply (wp_set_errno T (p :: h))). intros [] s2 H2. by apply wp_free. }
  apply wp_bind. wp_use (by apply Hid). intros [] s2 H2.
  apply wp_bind. wp_use (by apply Hid). intros [] s3 H3.
  apply wp_bind. wp_use (apply (wp_mod_pkt T (p :: h)); [done|left|done]). intros [] s4 H4.
  apply wp_bind. eapply wp_get_pkt; [done|left; left|]. intros k Hk Hok.
  apply wp_bind. wp_use (by apply wp_send_direct). intros i s5 H5. by apply wp_ret.
Qed.

(** ** Sockets *)

Lemma socket_listens T h s k x q : Inv T h s -> socks s !! k = Some x -> sock_rxq x = Some q -> cf_socks T !! k = Some (true, sock_opts x).
Proof. intros HI Hx Hq. rewrite <- (inv_conf _ _ _ HI). simpl. rewrite map_lookup, Hx. unfold sock_static. simpl. by rewrite Hq. Qed.

(** The wait for something in the queue of a socket that listens. *)
Lemma wp_sock_wait b T h s k x q : Inv T h s -> socks s !! k = Some x -> sock_rxq x = Some q ->
  wp (when b yield ;; get_sock k) (fun so s' => exists T' o q', Inv T' (h ++ o) s' /\ socks s' !! k = Some so /\
    sock_rxq so = Some q' /\ sock_opts so = sock_opts x) s.
Proof.
  intros HI Hx Hq. pose proof (socket_listens _ _ _ _ _ _ HI Hx Hq) as Hl. apply wp_bind.
  apply (wp_conseq _ (fun _ s' => exists T' o, Inv T' (h ++ o) s' /\ stable T T')).
  { apply wp_when; intros _; [|exists T, []; by rewrite app_nil_r]. unfold wp, yield. apply law_yield. destruct HI; by constructor. }
  intros [] s1 (T' & o & H1 & Hs). pose proof (proj2 Hs _ _ Hl) as Hl1. eapply wp_get_sock; [exact H1|by eexists|]. intros so q1 Hso Hq1.
  exists T', o, q1. split; [done|]. split; [done|]. split; [done|]. pose proof (socket_listens _ _ _ _ _ _ H1 Hso Hq1). congruence.
Qed.

(** The head of the queue comes out. *)
Lemma wp_sock_pop T h s k x q it q' : Inv T h s -> socks s !! k = Some x -> sock_rxq x = Some q -> q_dequeue q = Some (it, q') ->
  item_ok (sock_opts x) it /\
  wp (mod_sock k (set_sock_rxq (Some q'))) (fun _ s' => Inv T (match it with SPkt p => p :: h | SConn _ => h end) s') s.
Proof.
  intros HI Hx Hq E. apply q_dequeue_items in E. pose proof (inv_socks _ _ _ HI _ _ Hx) as Hok.
  unfold sock_ok, sock_items in Hok. rewrite Hq, E in Hok. apply Forall_cons_iff in Hok as [Hit Hrest]. split; [exact Hit|].
  eapply wp_sock_rxq; [exact HI|exact Hx|exact Hq|exact Hrest|]. intros p. unfold sock_refs. simpl. rewrite Hq, E.
  destruct it as [c|p']; [done|]. change (omap _ (SPkt p' :: _)) with (p' :: sock_refs (set_sock_rxq (Some q') x)). rewrite !cnt_cons. unfold sock_refs. simpl. lia.
Qed.

Lemma WF_accept `{WaitLogic w} k t h s x : WF h s -> socks s !! k = Some x -> sock_opts x &.& CSP_SO_CONN_LESS = false -> wl_may w t ->
  w _ (csp_accept (Some k) t) (fun r s' => WF h s' /\ match r with Some c => (c < CSP_CONN_MAX)%nat | None => True end) s.
Proof.
  intros (T & o & HI) Hx Ho Ht. unfold csp_accept. apply wl_seq. unfold wp at 1, get_sock. rewrite Hx. destruct (sock_rxq x) as [q|] eqn:Hq.
  - apply (wl_seq_assoc _ _ _), wl_seq. eapply wp_conseq; [by apply (wp_sock_wait _ T (h ++ o) s k x q)|].
    intros so s1 (T1 & o1 & q1 & H2 & Hso & Hq1 & Eo). rewrite Hq1. apply wl_seq, wp_ret. rewrite <- app_assoc in H2.
    destruct (q_dequeue q1) as [[it q']|] eqn:E; [|apply wl_timed_out; [done|]; split; [by exists T1, (o ++ o1)|done]].
    destruct (wp_sock_pop _ _ _ _ _ _ _ _ H2 Hso Hq1 E) as [Hit Hw]. rewrite Eo in Hit. destruct it as [c|p]; simpl in Hit; [|congruence].
    apply wl_seq. wp_use (exact Hw). intros [] s2 H3. apply wl_ret. split; [by exists T1, (o ++ o1)|apply Hit].
  - apply wl_seq. wp_use (by apply (wp_set_errno T (h ++ o))). intros [] s1 H2. apply wl_ret. split; [by exists T, o|done].
Qed.

Lemma WF_recvfrom `{WaitLogic w} k t h s x : WF h s -> socks s !! k = Some x -> wl_may w t ->
  w _ (csp_recvfrom (Some k) t) (fun r s' => WF (opt_held r h) s') s.
Proof.
  intros (T & o & HI) Hx Ht. unfold csp_recvfrom. apply wl_seq. unfold wp at 1, get_sock. rewrite Hx.
  destruct (sock_opts x &.& CSP_SO_CONN_LESS) eqn:Ho; simpl negb; cbv iota; [|apply wl_ret; by exists T, o].
  destruct (sock_rxq x) as [q|] eqn:Hq; [|apply wl_ret; by exists T, o].
  apply (wl_seq_assoc _ _ _), wl_seq. eapply wp_conseq; [by apply (wp_sock_wait _ T (h ++ o) s k x q)|].
  intros so s1 (T1 & o1 & q1 & H2 & Hso & Hq1 & Eo). rewrite Hq1. apply wl_seq, wp_ret. rewrite <- app_assoc in H2.
  destruct (q_dequeue q1) as [[it q']|] eqn:E; [|apply wl_timed_out; [done|]; by exists T1, (o ++ o1)].
  destruct (wp_sock_pop _ _ _ _ _ _ _ _ H2 Hso Hq1 E) as [Hit Hw]. rewrite Eo in Hit. destruct it as [c|p]; simpl in Hit; [destruct Hit; congruence|].
  apply wl_seq. wp_use (exact Hw). intros [] s2 H3. apply wl_ret. by exists T1, (o ++ o1).
Qed.

End ApiOwn.
