(* ===== verification/RdpSpec.v ===== *)
(** * RdpSpec: sequence arithmetic, headers, the shared RDP queues and the
    send window *)

From S2P Require Import Prelude State Monad Id Buffer Iflist Io RdpQueue Rdp Conn RdpProto Own OwnIo OwnRdp.
From S2P Require Import OwnRoute OwnApi.

(** ** Wrapping comparisons *)

Lemma wrap_diff m a d : 0 < m -> (((a + d) mod m - a mod m) mod m) = d mod m.
Proof.
  intros Hm. rewrite <- Zminus_mod_idemp_l, Zmod_mod, Zminus_mod_idemp_l, Zminus_mod_idemp_r. f_equal. lia.
Qed.

(** [(int16_t)(seq - cmp)] is the signed distance, when it fits. *)
Lemma i16_diff a d : -32768 <= d < 32768 -> i16 (u16 (a + d) - u16 a) = d.
Proof.
  intros Hd. unfold i16, u16. rewrite <- Zplus_mod_idemp_l, wrap_diff by lia. rewrite Zplus_mod_idemp_l.
  rewrite Z.mod_small by lia. lia.
Qed.

Lemma i32_diff a d : -2147483648 <= d < 2147483648 -> i32 (u32 (a + d) - u32 a) = d.
Proof.
  intros Hd. unfold i32, u32. rewrite <- Zplus_mod_idemp_l, wrap_diff by lia. rewrite Zplus_mod_idemp_l.
  rewrite Z.mod_small by lia. lia.
Qed.

(** The RDP comparisons are right across the wrap-around: for any base [a]
    and any distance [d] below half the range, [a + d] is before (after) [a]
    exactly when [d] is negative (positive), for 16-bit sequence numbers and
    for 32-bit millisecond timestamps; and [csp_rdp_seq_between] is membership
    in the cyclic interval from [a] to [a + n]. *)
Theorem rdp_wrap_compare a d :
  (-32768 < d < 32768 ->
     csp_rdp_seq_before (a + d) a = (d <? 0) /\ csp_rdp_seq_after (a + d) a = (0 <? d)) /\
  (-2147483648 < d < 2147483648 ->
     csp_rdp_time_before (a + d) a = (d <? 0) /\ csp_rdp_time_after (a + d) a = (0 <? d)) /\
  (forall n, 0 <= d < 65536 -> 0 <= n < 65536 -> csp_rdp_seq_between (a + d) a (a + n) = (d <=? n)).
Proof.
  split; [|split].
  - intros Hd. unfold csp_rdp_seq_after, csp_rdp_seq_before. rewrite i16_diff by lia. split; [done|].
    replace (u16 a) with (u16 (a + d + - d)) by (f_equal; lia). rewrite i16_diff by lia.
    destruct (Z.ltb_spec 0 d), (Z.ltb_spec (- d) 0); lia.
  - intros Hd. unfold csp_rdp_time_after, csp_rdp_time_before. rewrite i32_diff by lia. split; [done|].
    replace (u32 a) with (u32 (a + d + - d)) by (f_equal; lia). rewrite i32_diff by lia.
    destruct (Z.ltb_spec 0 d), (Z.ltb_spec (- d) 0); lia.
  - intros n Hd Hn. unfold csp_rdp_seq_between, u16. rewrite !wrap_diff by lia. by rewrite !Z.mod_small by lia.
Qed.

(** ** Headers *)

(** The RDP header on the wire: flags, sequence number and acknowledgement
    number are five bytes with the numbers in network order, and what the
    receiver reads is what the sender wrote. *)
Theorem rdp_header_roundtrip f sq ak : 0 <= f < 256 -> 0 <= sq < 65536 -> 0 <= ak < 65536 ->
  let wire := hdr_bytes (mkHdr f (htobe16 sq) (htobe16 ak)) in
  wire = [f; sq / 256; sq mod 256; ak / 256; ak mod 256] /\
  h_flags (hdr_of_bytes wire) = f /\ be16toh (h_seq (hdr_of_bytes wire)) = sq /\ be16toh (h_ack (hdr_of_bytes wire)) = ak.
Proof.
  intros Hf Hs Ha wire.
  assert (E : forall z, 0 <= z < 65536 -> le_bytes 2 (htobe16 z) = [z / 256; z mod 256]).
  { intros z Hz. unfold htobe16. rewrite le_bytes_swap. unfold be_bytes. simpl. rewrite reverse_cons, reverse_singleton. simpl.
    rewrite (Z.mod_small (z / 256)); [done|]. split; [apply Z.div_pos; lia|apply Z.div_lt_upper_bound; lia]. }
  assert (Hw : wire = [f; sq / 256; sq mod 256; ak / 256; ak mod 256])
    by (unfold wire, hdr_bytes; cbn [h_flags h_seq h_ack]; rewrite !E, u8_small by lia; done).
  split; [done|]. split; [by rewrite Hw|].
  unfold wire, hdr_bytes, hdr_of_bytes. cbn [h_flags h_seq h_ack].
  change (take 2 (drop 1 (u8 f :: ?l))) with (take 2 l).
  split.
  - change (drop 1 (?x :: ?l)) with l. rewrite take_app_length' by (by rewrite length_le_bytes).
    rewrite le_val_small by (apply htobe16_range). by apply be16toh_htobe16.
  - change (drop 3 (?x :: ?l)) with (drop 2 l). rewrite drop_app_length' by (by rewrite length_le_bytes).
    rewrite take_ge by (by rewrite length_le_bytes).
    rewrite le_val_small by (apply htobe16_range). by apply be16toh_htobe16.
Qed.

Lemma rdp_header_roundtrip_witness :
  hdr_bytes (mkHdr 0x84 (htobe16 0xfffe) (htobe16 0x0102)) = [0x84; 0xff; 0xfe; 0x01; 0x02].
Proof.
  destruct (rdp_header_roundtrip 0x84 0xfffe 0x0102) as [H _]; [lia|lia|lia|]. rewrite H. reflexivity.
Defined.

(** ** The shared queues *)

Lemma pkt_at_put_other p q k s : p <> q -> pkt_at q (put_pkt p k s) = pkt_at q s.
Proof. intros Hne. unfold pkt_at, put_pkt. simpl. by rewrite list_lookup_alter_ne. Qed.

(** Buffer [p] exists and is marked as belonging to connection [c]. *)
Definition of_conn (s : node) (c : nat) (p : nat) : Prop := exists k, pkt_at p s = Some k /\ pkt_conn k = Some c.
Definition not_of_conn (s : node) (c : nat) (p : nat) : Prop := exists k, pkt_at p s = Some k /\ pkt_conn k <> Some c.

(** The buffers of [l] are re-marked with connection [c]; the others are as they were. *)
Definition remarked (c : nat) (l : list nat) (s s' : node) : Prop :=
  forall p, pkt_at p s' = if bool_decide (p ∈ l) then set_pkt_conn (Some c) <$> pkt_at p s else pkt_at p s.

Lemma queue_add_run d c p q s k : q_enqueue p (rq_get d s) = Some q -> pkt_at p s = Some k ->
  csp_rdp_queue_add d c p s = Ret tt (rq_set d q (put_pkt p (set_pkt_conn (Some c) k) s)).
Proof.
  intros Hq Hk. unfold csp_rdp_queue_add. erewrite bind_ret by (by apply mod_pkt_at). erewrite bind_ret by reflexivity.
  replace (rq_get d (put_pkt _ _ s)) with (rq_get d s) by (by destruct d). by rewrite Hq.
Qed.

(** The packets of other connections at the front are rotated to the back. *)
Lemma rotate_front d c m l1 l2 s : NoDup l1 ->
  q_items (rq_get d s) = l1 ++ l2 -> (q_size (rq_get d s) <= q_cap (rq_get d s))%nat ->
  Forall (not_of_conn s c) l1 ->
  exists s', rdp_queue_rotate (length l1 + m) d c s = rdp_queue_rotate m d c s' /\
    rq_get d s' = Queue (q_cap (rq_get d s)) (l2 ++ l1) /\ remarked c l1 s s'.
Proof.
  revert l2 s. induction l1 as [|p l1 IH]; intros l2 s Hnd Hl Hcap Ho.
  { exists s. split; [done|]. rewrite app_nil_r. split; [|done]. destruct (rq_get d s); simpl in *. by subst. }
  apply Forall_cons_1 in Ho as [(k & Hk & Hne) Ho]. apply list.NoDup_cons in Hnd as [Hp Hnd].
  cbn [length Nat.add rdp_queue_rotate]. erewrite bind_ret by reflexivity.
  unfold q_dequeue. rewrite Hl. cbn [app]. erewrite bind_ret by reflexivity.
  set (cap := q_cap (rq_get d s)) in *. set (s1 := rq_set d (Queue cap (l1 ++ l2)) s).
  assert (Hk1 : pkt_at p s1 = Some k) by (unfold s1; by rewrite rq_set_pkt).
  erewrite bind_ret by (by apply get_pkt_at). rewrite bool_decide_false by done.
  assert (Hg : rq_get d s1 = Queue cap (l1 ++ l2)) by (apply rq_get_set).
  assert (Hlen : (length (l1 ++ l2) < cap)%nat) by (unfold q_size in Hcap; rewrite Hl in Hcap; simpl in Hcap; lia).
  erewrite bind_ret; [|eapply queue_add_run; [|exact Hk1]; rewrite Hg; unfold q_enqueue, q_size; cbn [q_items q_cap];
    by rewrite decide_True].
  set (s2 := rq_set d _ _).
  assert (Hg2 : rq_get d s2 = Queue cap (l1 ++ (l2 ++ [p]))) by (unfold s2; rewrite rq_get_set, app_assoc; done).
  assert (Hk2 : forall q, pkt_at q s2 = if decide (q = p) then Some (set_pkt_conn (Some c) k) else pkt_at q s).
  { intros q. unfold s2. rewrite rq_set_pkt. destruct (decide (q = p)) as [->|Hq].
    - by eapply pkt_at_put.
    - rewrite pkt_at_put_other by done. unfold s1. by rewrite rq_set_pkt. }
  destruct (IH (l2 ++ [p]) s2) as (s' & Hrun & Hq' & Hr'); [done| | | |].
  - by rewrite Hg2.
  - rewrite Hg2. unfold q_size. cbn [q_items q_cap]. rewrite !length_app in *. simpl. lia.
  - apply list.Forall_forall. intros q Hq. destruct (proj1 (list.Forall_forall _ _) Ho q Hq) as (kq & Hkq & Hnq). exists kq.
    rewrite Hk2, decide_False; [done|]. by intros ->.
  - exists s'. split; [exact Hrun|]. rewrite Hg2 in Hq'. split; [by rewrite Hq', <- app_assoc|].
    intros q. rewrite Hr', Hk2. destruct (decide (q = p)) as [->|Hq].
    + rewrite bool_decide_false by done. rewrite bool_decide_true by left. by rewrite Hk.
    + destruct (decide (q ∈ l1)); [rewrite !bool_decide_true by (done || by right)|rewrite !bool_decide_false]; try done.
      by intros [->|?]%elem_of_cons.
Qed.

(** What [csp_rdp_queue_get] does to the queue all connections share.  It
    returns the first packet of its own connection, if any; but every packet
    of another connection in front of it goes to the back of the queue marked
    as a packet of the caller.  In particular, when none is its own, it
    returns NULL and takes over all packets in the queue. *)
Theorem rdp_queue_get_takes_over d c s l1 rest : NoDup (l1 ++ rest) ->
  q_items (rq_get d s) = l1 ++ rest -> (q_size (rq_get d s) <= q_cap (rq_get d s))%nat ->
  Forall (not_of_conn s c) l1 ->
  match rest with
  | [] => exists s', csp_rdp_queue_get d c s = Ret None s' /\ q_items (rq_get d s') = l1 /\ Forall (of_conn s' c) l1
  | p :: l2 => of_conn s c p ->
      exists s', csp_rdp_queue_get d c s = Ret (Some p) s' /\ q_items (rq_get d s') = l2 ++ l1 /\ Forall (of_conn s' c) l1
  end.
Proof.
  intros Hnd Hl Hcap Ho. apply list.NoDup_app in Hnd as (Hn1 & Hdis & _).
  assert (Hall : forall s', remarked c l1 s s' -> Forall (of_conn s' c) l1).
  { intros s' Hr. apply list.Forall_forall. intros q Hq. destruct (proj1 (list.Forall_forall _ _) Ho q Hq) as (k & Hk & _).
    exists (set_pkt_conn (Some c) k). split; [|done]. by rewrite Hr, bool_decide_true, Hk. }
  unfold csp_rdp_queue_get, csp_rdp_queue_size. erewrite bind_ret by reflexivity. unfold q_size. rewrite Hl, length_app.
  destruct (rotate_front d c (length rest) l1 rest s Hn1 Hl Hcap Ho) as (s' & -> & Hq & Hr). destruct rest as [|p l2].
  - exists s'. split; [done|]. split; [by rewrite Hq|by apply Hall].
  - intros (k & Hk & Hc). cbn [length rdp_queue_rotate]. erewrite bind_ret by reflexivity. rewrite Hq.
    unfold q_dequeue. cbn [q_items app]. erewrite bind_ret by reflexivity.
    assert (Hk' : pkt_at p (rq_set d (Queue (q_cap (rq_get d s)) (l2 ++ l1)) s') = Some k).
    { rewrite rq_set_pkt, Hr, bool_decide_false; [done|]. intros Hp. apply (Hdis p Hp). left. }
    cbn [q_cap]. erewrite bind_ret by (by apply get_pkt_at). rewrite bool_decide_true by done.
    eexists. split; [done|]. split; [by rewrite rq_get_set|].
    apply list.Forall_forall. intros q Hin. destruct (proj1 (list.Forall_forall _ _) (Hall s' Hr) q Hin) as (kq & Hkq & Hcq).
    exists kq. by rewrite rq_set_pkt.
Qed.

(** A node with packet 0, of connection 1, queued for retransmission. *)
Definition queued_node : node :=
  set_rdp_tx (Queue 10 [0%nat]) (packet_node (set_pkt_conn (Some 1%nat) blank_packet)).

Lemma rdp_queue_get_takes_over_witness :
  exists s', csp_rdp_queue_get RdpTx 2 queued_node = Ret None s' /\ q_items (rq_get RdpTx s') = [0%nat] /\
    Forall (of_conn s' 2) [0%nat].
Proof.
  apply (rdp_queue_get_takes_over RdpTx 2 queued_node [0%nat] []).
  - apply NoDup_singleton.
  - reflexivity.
  - vm_compute. lia.
  - constructor; [|constructor]. eexists. split; [reflexivity|]. discriminate.
Defined.

(** ** The send window *)

Lemma ready_iff r f : snd_nxt r = u16 (snd_una r + f) -> 0 <= f < 32768 -> 1 <= window_size r <= 32768 ->
  csp_rdp_is_conn_ready_for_tx r = (f <? window_size r).
Proof.
  intros Hn Hf Hw. unfold csp_rdp_is_conn_ready_for_tx, csp_rdp_seq_after, csp_rdp_seq_before. rewrite Hn.
  assert (E : u16 (u16 (snd_una r + f)) = u16 (snd_una r + f)) by (apply u16_small, u16_range). rewrite E.
  replace (snd_una r + window_size r - 1) with ((snd_una r + f) + (window_size r - 1 - f)) by lia.
  rewrite i16_diff by lia. destruct (Z.ltb_spec (window_size r - 1 - f) 0), (Z.ltb_spec f (window_size r)); lia || done.
Qed.

(** A call that leaves the connections alone. *)
Ltac wp_keep t := eapply wp_conseq; [apply (wp_keeps arr_conn); [keeps_tac|solve [t]]|cbv beta].

Lemma mod_rdp_run c g s x : arr_conn s !! c = Some x ->
  mod_rdp c g s = Ret tt (set_arr_conn (<[c := set_conn_rdp (g (conn_rdp x)) x]> (arr_conn s)) s).
Proof. intros Hx. unfold mod_rdp, mod_conn. by rewrite Hx. Qed.

Lemma keeps_buffer_get : keeps arr_conn csp_buffer_get.
Proof. unfold csp_buffer_get, csp_buffer_get_actual, csp_packet_init. keeps_tac. Qed.

Lemma keeps_buffer_clone p : keeps arr_conn (csp_buffer_clone p).
Proof. unfold csp_buffer_clone, csp_buffer_copy. pose proof keeps_buffer_get. keeps_tac. Qed.

Lemma keeps_queue_add d c p : keeps arr_conn (csp_rdp_queue_add d c p).
Proof. unfold csp_rdp_queue_add. keeps_tac; try apply keeps_buffer_free; destruct d; done. Qed.

Lemma keeps_header_add p : keeps arr_conn (csp_rdp_header_add p).
Proof. unfold csp_rdp_header_add. keeps_tac. Qed.

Lemma keeps_write_hdr p off h : keeps arr_conn (write_hdr p off h).
Proof. unfold write_hdr. keeps_tac. Qed.

#[export] Hint Resolve keeps_buffer_get keeps_buffer_clone keeps_queue_add keeps_header_add keeps_write_hdr : keeps.

Section Window.
Context `{OwnLaws}.

Definition sent_one (r : Z) (x x' : csp_conn) : Prop :=
  snd_una (conn_rdp x') = snd_una (conn_rdp x) /\ window_size (conn_rdp x') = window_size (conn_rdp x) /\
  snd_nxt (conn_rdp x') = if r =? CSP_ERR_NONE then u16 (snd_nxt (conn_rdp x) + 1) else snd_nxt (conn_rdp x).

(** The end of [csp_rdp_send]. *)
Lemma send_commit_conn c s x : arr_conn s !! c = Some x ->
  wp (mod_rdp c (fun r => set_snd_nxt (u16 (snd_nxt r + 1)) r) ;;
      now ← csp_get_ms;
      mod_rdp c (set_ack_timestamp now) ;;
      mret CSP_ERR_NONE)
    (fun r s' => exists x', arr_conn s' !! c = Some x' /\ sent_one r x x') s.
Proof.
  intros Hx. apply wp_bind. unfold wp at 1. rewrite (mod_rdp_run _ _ _ _ Hx).
  set (y := set_conn_rdp _ x). set (s1 := set_arr_conn _ s).
  assert (Hy : arr_conn s1 !! c = Some y)
    by (unfold s1; simpl; apply list_lookup_insert_eq; by eapply lookup_lt_Some).
  apply wp_bind. unfold wp at 1, csp_get_ms. set (s2 := set_tick _ s1).
  apply wp_bind. unfold wp at 1. rewrite (mod_rdp_run _ _ s2 y Hy). apply wp_ret.
  eexists. split; [simpl; apply list_lookup_insert_eq; by eapply lookup_lt_Some|]. done.
Qed.

Lemma rdp_send_conn T h s fuel c p x : Inv T (p :: h) s -> (c < CSP_CONN_MAX)%nat -> arr_conn s !! c = Some x ->
  rdp_state (conn_rdp x) = RDP_OPEN -> csp_rdp_is_conn_ready_for_tx (conn_rdp x) = true ->
  wp (csp_rdp_send fuel c p) (fun r s' => exists x', arr_conn s' !! c = Some x' /\ sent_one r x x') s.
Proof.
  intros HI Hc Hx Ho Hr. unfold csp_rdp_send, rdp_send_ready. apply wp_bind. eapply wp_get_conn; [done|done|]. intros x' Hx'. simplify_eq.
  rewrite bool_decide_true by done. simpl negb. apply wp_bind. apply (wp_conseq _ (fun b s' => b = true /\ s' = s)).
  { destruct fuel; simpl; (apply wp_bind; eapply wp_get_conn; [done|done|]); intros x' Hx'; simplify_eq; rewrite Ho, Hr;
      by apply wp_ret. }
  intros ready s1 [-> ->]. lazy beta iota delta [negb].
  apply wp_bind. wp_keep ltac:(apply wp_header_add; [exact HI|left]). intros [off|] s2 [[H2 Hoff] Hk2].
  2: { apply wp_ret. exists x. by rewrite Hk2. }
  apply wp_bind. eapply wp_get_conn; [done|done|]. intros x2 Hx2. rewrite Hk2 in Hx2. simplify_eq.
  apply wp_bind. wp_keep ltac:(apply (wp_write_hdr T (p :: h)); [done|left|lia|lia]). intros [] s3 [H3 Hk3].
  apply wp_bind. wp_keep ltac:(apply wp_buffer_clone; [exact H3|left]). intros [r|] s4 [H4 Hk4].
  2: { apply wp_ret. exists x. by rewrite Hk4, Hk3, Hk2. }
  apply wp_bind. wp_keep ltac:(by apply (wp_get_ms T (r :: p :: h))). intros now s5 [H5 Hk5].
  apply wp_bind. wp_keep ltac:(apply (wp_mod_pkt T (r :: p :: h)); [done|left|done]). intros [] s6 [H6 Hk6].
  unfold csp_rdp_queue_tx_add.
  apply wp_bind. wp_keep ltac:(by apply (wp_rdp_queue_add T (p :: h))). intros [] s7 [(H7 & _) Hk7].
  apply send_commit_conn. by rewrite Hk7, Hk6, Hk5, Hk4, Hk3, Hk2.
Qed.

(** A window that stays closed: as long as the other tasks leave the connection
    alone, [csp_rdp_send] waits, however often the semaphore wakes it. *)
Lemma wait_window_closed c fuel : (forall n s, arr_conn (plat_yield n s) !! c = arr_conn s !! c) ->
  forall s x, arr_conn s !! c = Some x -> rdp_state (conn_rdp x) = RDP_OPEN -> csp_rdp_is_conn_ready_for_tx (conn_rdp x) = false ->
  rdp_wait_window fuel c s = Wait.
Proof.
  intros Hy. induction fuel as [|fuel IH]; intros s x Hx Ho Hr; cbn [rdp_wait_window];
    (erewrite bind_ret by (unfold get_conn; by rewrite Hx)); (rewrite bool_decide_false by (rewrite Ho; intros [E|E]; discriminate E)); rewrite Hr; [done|].
  assert (Hnext : forall s', arr_conn s' = <[c := set_conn_rdp (set_tx_wait (tx_wait (conn_rdp x) - 1) (conn_rdp x)) x]> (arr_conn s) \/ arr_conn s' !! c = Some x ->
    rdp_wait_window fuel c s' = Wait).
  { intros s' [E|E]; [|by apply (IH s' x)]. eapply IH; [rewrite E; apply list_lookup_insert_eq; by eapply lookup_lt_Some|done|done]. }
  unfold csp_bin_sem_wait, mbind, M_bind. unfold get_conn at 1. rewrite Hx. destruct (0 <? _) eqn:Et.
  { rewrite (mod_rdp_run _ _ _ _ Hx). apply Hnext. by left. }
  destruct (conn_timeout (conn_rdp x) =? 0); [apply Hnext; by right|]. unfold yield. set (s1 := plat_yield _ _).
  assert (Hx1 : arr_conn s1 !! c = Some x) by (unfold s1; by rewrite Hy). unfold get_conn. rewrite Hx1, Et.
  unfold timed_out. destruct (_ =? CSP_MAX_TIMEOUT); [done|]. by apply (IH s1 x).
Qed.

(** C5. The send window.  On an open connection with [f] packets sent and not
    acknowledged and a window of [w] of at most 32768 packets, [csp_rdp_send]
    sends exactly when [f < w]: then it returns, and unless it runs out of
    buffers ([r] is then not [CSP_ERR_NONE] and nothing changed) [f + 1 <= w]
    packets are in flight and the next sequence number has advanced by one,
    across the wrap-around.  When [f >= w] it sends nothing: the first thing it
    does is to wait on the semaphore for as long as the connection's timeout says,
    after which it looks at the window again ([rdp_send_ready]); as long as the
    other tasks leave the connection alone it does not return, however many waits
    are looked at. *)
Theorem rdp_send_window T h s fuel c p x f :
  Inv T (p :: h) s -> arr_conn s !! c = Some x -> rdp_state (conn_rdp x) = RDP_OPEN ->
  snd_nxt (conn_rdp x) = u16 (snd_una (conn_rdp x) + f) -> 0 <= f < 32768 -> 1 <= window_size (conn_rdp x) <= 32768 ->
  if f <? window_size (conn_rdp x) then
    exists r s' x', csp_rdp_send fuel c p s = Ret r s' /\ arr_conn s' !! c = Some x' /\ Inv T (p :: h) s' /\
      snd_una (conn_rdp x') = snd_una (conn_rdp x) /\ window_size (conn_rdp x') = window_size (conn_rdp x) /\
      (r = CSP_ERR_NONE -> snd_nxt (conn_rdp x') = u16 (snd_una (conn_rdp x') + (f + 1)) /\ f + 1 <= window_size (conn_rdp x')) /\
      (r <> CSP_ERR_NONE -> snd_nxt (conn_rdp x') = snd_nxt (conn_rdp x))
  else csp_rdp_send (S fuel) c p s = (_ ← csp_bin_sem_wait c (conn_timeout (conn_rdp x)); rdp_send_ready fuel c p) s /\
    ((forall n s, arr_conn (plat_yield n s) !! c = arr_conn s !! c) -> csp_rdp_send fuel c p s = Wait).
Proof.
  intros HI Hx Ho Hn Hf Hw. pose proof (ready_iff _ _ Hn Hf Hw) as Hr.
  assert (Hc : (c < CSP_CONN_MAX)%nat) by (rewrite <- (inv_conns _ _ _ HI); by eapply lookup_lt_Some).
  destruct (Z.ltb_spec f (window_size (conn_rdp x))) as [Hlt|Hge].
  - pose proof (rdp_send_conn T h s fuel c p x HI Hc Hx Ho Hr) as Hs.
    pose proof (wp_rdp_send T h s fuel c p x HI Hc Hx (or_intror Hr)) as Hi.
    pose proof (wp_and _ _ _ _ Hs Hi) as Hb. apply wp_run in Hb as (r & s' & Hrun & (x' & Hx' & Hu & Hw' & Hn') & HI').
    exists r, s', x'. do 5 (split; [done|]). split.
    + intros ->. split; [|lia]. simpl in Hn'. rewrite Hn', Hu, Hn. unfold u16. rewrite Zplus_mod_idemp_l. f_equal. lia.
    + intros Hne. destruct (Z.eqb_spec r CSP_ERR_NONE); [done|exact Hn'].
  - assert (Hg : get_conn c s = Ret x s) by (unfold get_conn; by rewrite Hx). unfold csp_rdp_send.
    rewrite !(bind_ret _ _ _ x s) by exact Hg. rewrite bool_decide_true by done. lazy beta iota delta [negb]. split.
    + unfold rdp_send_ready. cbn [rdp_wait_window]. unfold mbind at 1, M_bind at 1. rewrite (bind_ret _ _ _ x s) by exact Hg. rewrite Ho, Hr.
      rewrite bool_decide_false by (intros [E|E]; discriminate E). unfold mbind, M_bind. by destruct (csp_bin_sem_wait c _ s).
    + intros Hy. unfold rdp_send_ready, mbind, M_bind. by rewrite (wait_window_closed c fuel Hy s x Hx Ho Hr).
Qed.

(** Where the window goes wrong: one of more than 32768 packets, which a peer may
    ask for in its SYN, counts as full with nothing in flight. *)
Lemma rdp_window_too_large r : window_size r = 40000 -> snd_una r = 1000 -> snd_nxt r = 1000 -> csp_rdp_is_conn_ready_for_tx r = false.
Proof. intros E1 E2 E3. unfold csp_rdp_is_conn_ready_for_tx. by rewrite E1, E2, E3. Qed.

End Window.
