(* ===== verification/RdpState.v ===== *)
(** * RdpState: the RDP state machine

    Which connection states [csp_rdp_new_packet] can move a connection to, and
    that it touches the state of no other connection. *)

From S2P Require Import Prelude State Monad Id Buffer Crc32 Hmac Iflist Rtable Qfifo Io RdpQueue Rdp Conn.
From S2P Require Import RdpProto Own OwnIo OwnRdp OwnRoute OwnApi RdpSpec.

(** What a driver leaves alone: the connection table. *)
Class DriverLaws `{Platform} : Prop :=
  law_nexthop_conns : forall k i via p from_me, keeps arr_conn (plat_nexthop k i via p from_me).

(** ** The send path leaves the connections alone *)

Lemma keeps_free o : keeps arr_conn (csp_buffer_free o).
Proof. by apply keeps_buffer_free. Qed.
#[export] Hint Resolve keeps_free : keeps.

Lemma keeps_if_search fuel test i : keeps arr_conn (if_search fuel test i).
Proof. revert i. induction fuel as [|n IH]; intros i; simpl; keeps_tac. Qed.
#[export] Hint Resolve keeps_if_search : keeps.

Lemma keeps_promisc_add p : keeps arr_conn (csp_promisc_add p).
Proof. unfold csp_promisc_add. keeps_tac. Qed.
#[export] Hint Resolve keeps_promisc_add : keeps.

Section Send.
Context `{DriverLaws}.

Lemma keeps_send_prepare i p f m : keeps arr_conn (send_prepare i p f m).
Proof. unfold send_prepare, csp_hmac_append, hmac_tag, csp_crc32_append. keeps_tac. Qed.

Lemma keeps_direct_iface i p f via m : keeps arr_conn (csp_send_direct_iface i p f via m).
Proof.
  unfold csp_send_direct_iface, tx_err. pose proof keeps_send_prepare. pose proof law_nexthop_conns. keeps_tac.
Qed.

Lemma keeps_send_copy i p f via m : keeps arr_conn (send_copy i p f via m).
Proof. unfold send_copy. pose proof keeps_direct_iface. keeps_tac. Qed.

Lemma keeps_split i from : keeps arr_conn (split_horizon i from).
Proof. unfold split_horizon, csp_iflist_is_within_subnet. keeps_tac. Qed.

Lemma keeps_by_subnet a i : keeps arr_conn (csp_iflist_get_by_subnet a i).
Proof. unfold csp_iflist_get_by_subnet, if_after. keeps_tac. Qed.

Lemma keeps_by_isdfl i : keeps arr_conn (csp_iflist_get_by_isdfl i).
Proof. unfold csp_iflist_get_by_isdfl, if_after. keeps_tac. Qed.

#[local] Hint Resolve keeps_send_copy keeps_split keeps_by_subnet keeps_by_isdfl : keeps.

Lemma keeps_send_local fuel i i' p from m found f : keeps arr_conn (send_local fuel i i' p from m found f).
Proof. revert i' found f. induction fuel as [|n IH]; intros i' found f; simpl; keeps_tac. Qed.

Lemma keeps_send_routes fuel i p from m r : keeps arr_conn (send_routes fuel i p from m r).
Proof.
  revert i r. induction fuel as [|n IH]; intros i r; simpl; unfold get_route, csp_rtable_search_backward; keeps_tac.
Qed.

Lemma keeps_send_default fuel i p from m f : keeps arr_conn (send_default fuel i p from m f).
Proof. revert i f. induction fuel as [|n IH]; intros i f; simpl; keeps_tac. Qed.

#[local] Hint Resolve keeps_direct_iface keeps_send_local keeps_send_routes keeps_send_default : keeps.

Lemma keeps_send_direct i p from : keeps arr_conn (csp_send_direct i p from).
Proof. unfold csp_send_direct, csp_rtable_find_route. keeps_tac. Qed.

End Send.
#[export] Hint Resolve keeps_send_direct : keeps.

(** ** The state of one connection *)

Definition rst (c : nat) (s : node) : option csp_rdp_state := (fun x => rdp_state (conn_rdp x)) <$> arr_conn s !! c.

Lemma keeps_rst {A} d (m : M A) : keeps arr_conn m -> keeps (rst d) m.
Proof. intros Hm s. specialize (Hm s). destruct (m s); [|done..]. unfold rst. by rewrite Hm. Qed.

Lemma keeps_mod_rst d c g : (forall x, rdp_state (conn_rdp (g x)) = rdp_state (conn_rdp x)) -> keeps (rst d) (mod_conn c g).
Proof.
  intros Hg s. unfold mod_conn. destruct (arr_conn s !! c) as [x|] eqn:E; [|done]. unfold rst. simpl.
  destruct (decide (c = d)) as [<-|]; [|by rewrite list_lookup_insert_ne].
  rewrite list_lookup_insert_eq by (by eapply lookup_lt_Some). rewrite E. simpl. by rewrite Hg.
Qed.

Lemma keeps_mod_other d c g : d <> c -> keeps (rst d) (mod_conn c g).
Proof.
  intros Hd s. unfold mod_conn. destruct (arr_conn s !! c) as [x|] eqn:E; [|done]. unfold rst. simpl.
  by rewrite list_lookup_insert_ne.
Qed.

(** Walk through a function, for the state of a connection. *)
Ltac st_step :=
  lazymatch goal with
  | |- keeps (rst _) (mod_rdp _ _) => unfold mod_rdp
  | |- keeps (rst _) (mod_conn _ _) =>
      first [by apply keeps_mod_rst|by apply keeps_mod_other|apply keeps_mod_rst; intros ?; repeat case_match; reflexivity]
  | |- keeps (rst _) (csp_bin_sem_post _) => unfold csp_bin_sem_post
  | |- keeps (rst _) (read_mem _ _ _) => apply keeps_rst; keeps_tac
  | |- keeps (rst _) _ => first [solve [apply keeps_rst; eauto 2 with keeps]|keeps_step]
  end.
Ltac st_tac := repeat st_step.

Lemma keeps_rx_get d c : keeps arr_conn (csp_rdp_queue_get d c).
Proof.
  unfold csp_rdp_queue_get, csp_rdp_queue_size. apply keeps_bind; [apply keeps_gets|]. intros n.
  induction n as [|n IH]; simpl; keeps_tac; by destruct d.
Qed.
#[export] Hint Resolve keeps_rx_get : keeps.

Lemma keeps_enqueue_st d c o : keeps (rst d) (csp_conn_enqueue_packet c o).
Proof. unfold csp_conn_enqueue_packet. st_tac. Qed.

Lemma keeps_receive_st d c p : keeps (rst d) (csp_rdp_receive_data c p).
Proof. unfold csp_rdp_receive_data, csp_rdp_header_remove. pose proof keeps_enqueue_st. st_tac. Qed.

Lemma keeps_hdr_seq p : keeps arr_conn (hdr_seq p).
Proof. unfold hdr_seq, csp_rdp_header_ref, read_hdr. keeps_tac. Qed.
#[export] Hint Resolve keeps_enqueue_st keeps_receive_st keeps_hdr_seq : keeps.

Lemma keeps_rx_pass d n c : keeps (rst d) (rx_flush_pass n c).
Proof. induction n as [|n IH]; cbn [rx_flush_pass]; unfold csp_rdp_queue_rx_get, csp_rdp_queue_rx_add; st_tac. Qed.
#[export] Hint Resolve keeps_rx_pass : keeps.

Lemma keeps_rx_flush d c : keeps (rst d) (csp_rdp_rx_queue_flush c).
Proof. unfold csp_rdp_rx_queue_flush, csp_rdp_queue_rx_size, csp_rdp_queue_size. st_tac. Qed.

Lemma keeps_seq_in_rx n c z : keeps arr_conn (seq_in_rx n c z).
Proof. induction n as [|n IH]; simpl; unfold csp_rdp_queue_rx_get, csp_rdp_queue_rx_add; keeps_tac. Qed.
#[export] Hint Resolve keeps_rx_flush keeps_seq_in_rx : keeps.

Lemma keeps_rx_queue_add c p z : keeps arr_conn (csp_rdp_rx_queue_add c p z).
Proof.
  unfold csp_rdp_rx_queue_add, csp_rdp_seq_in_rx_queue, csp_rdp_queue_rx_size, csp_rdp_queue_size, csp_rdp_queue_rx_add.
  keeps_tac.
Qed.
#[export] Hint Resolve keeps_rx_queue_add : keeps.

(** ** Partial correctness, for following a state through a function *)

Definition wlp {A} (m : M A) (Q : A -> node -> Prop) (s : node) : Prop :=
  match m s with Ret a s' => Q a s' | _ => True end.

Lemma wlp_ret {A} (a : A) Q s : Q a s -> wlp (mret a) Q s.
Proof. done. Qed.
Lemma wlp_bind {A B} (m : M A) (f : A -> M B) Q s : wlp m (fun a s' => wlp (f a) Q s') s -> wlp (mbind f m) Q s.
Proof. unfold wlp, mbind, M_bind. by destruct (m s). Qed.
Lemma wlp_mono {A} (m : M A) (P Q : A -> node -> Prop) s : wlp m P s -> (forall a s', P a s' -> Q a s') -> wlp m Q s.
Proof. unfold wlp. destruct (m s); auto. Qed.
Lemma wlp_get_conn c (Q : csp_conn -> node -> Prop) s : (forall x, arr_conn s !! c = Some x -> Q x s) -> wlp (get_conn c) Q s.
Proof. intros HQ. unfold wlp, get_conn. destruct (arr_conn s !! c) eqn:E; [by apply HQ|done]. Qed.

Lemma rst_of c s x : arr_conn s !! c = Some x -> rst c s = Some (rdp_state (conn_rdp x)).
Proof. intros Hx. unfold rst. by rewrite Hx. Qed.

(** A call that does not touch the state. *)
Lemma wlp_st {A} c (m : M A) Q s o : keeps (rst c) m -> rst c s = Some o ->
  (forall a s', rst c s' = Some o -> Q a s') -> wlp m Q s.
Proof. intros Hm Ho HQ. specialize (Hm s). unfold wlp. destruct (m s); [|done..]. apply HQ. congruence. Qed.

Lemma wlp_same {A} c (m : M A) (Q : A -> node -> Prop) s (P : option csp_rdp_state -> Prop) : keeps (rst c) m -> P (rst c s) ->
  (forall a s', P (rst c s') -> Q a s') -> wlp m Q s.
Proof. intros Hm Ho HQ. specialize (Hm s). unfold wlp. destruct (m s); [|done..]. apply HQ. by rewrite Hm. Qed.

(** An assignment to it. *)
Lemma wlp_set_state c g n (Q : unit -> node -> Prop) s : (forall r, rdp_state (g r) = n) ->
  (forall s', rst c s' = Some n -> Q tt s') -> wlp (mod_rdp c g) Q s.
Proof.
  intros Hg HQ. unfold wlp, mod_rdp, mod_conn. destruct (arr_conn s !! c) as [x|] eqn:E; [|done]. apply HQ.
  unfold rst. simpl. rewrite list_lookup_insert_eq by (by eapply lookup_lt_Some). simpl. by rewrite Hg.
Qed.

Section States.
Context `{DriverLaws}.

Lemma keeps_send_cmp d c o f a b : keeps (rst d) (csp_rdp_send_cmp c o f a b).
Proof. unfold csp_rdp_send_cmp, csp_rdp_queue_tx_add. st_tac. Qed.
#[local] Hint Resolve keeps_send_cmp : keeps.

Lemma keeps_send_ctl d c f : keeps (rst d) (send_ctl c f).
Proof. unfold send_ctl. st_tac. Qed.
Lemma keeps_send_synack d c : keeps (rst d) (send_synack c).
Proof. unfold send_synack. st_tac. Qed.
Lemma keeps_check_ack d c : keeps (rst d) (csp_rdp_check_ack c).
Proof. unfold csp_rdp_check_ack, csp_rdp_should_ack. st_tac. Qed.
#[local] Hint Resolve keeps_send_ctl keeps_send_synack keeps_check_ack : keeps.

Lemma keeps_new_packet_data d c p h : keeps (rst d) (new_packet_data c p h).
Proof. unfold new_packet_data. st_tac. Qed.
Lemma keeps_new_packet_close_wait d c h : keeps (rst d) (new_packet_close_wait c h).
Proof. unfold new_packet_close_wait. st_tac. Qed.
#[local] Hint Resolve keeps_new_packet_data keeps_new_packet_close_wait : keeps.

(** *** Closing *)

Lemma keeps_flush_rx d c : keeps (rst d) (csp_conn_flush_rx_queue c).
Proof. unfold csp_conn_flush_rx_queue. st_tac. Qed.
Lemma keeps_drain n d c : keeps arr_conn (rdp_queue_drain n d c).
Proof. induction n as [|n IH]; cbn [rdp_queue_drain]; keeps_tac; by destruct d. Qed.
#[local] Hint Resolve keeps_flush_rx keeps_drain : keeps.

Lemma close_internal_st c closed b o s : rst c s = Some o ->
  wlp (csp_rdp_close_internal c closed b)
    (fun _ s' => rst c s' = Some RDP_CLOSED \/ (o <> RDP_CLOSED /\ rst c s' = Some RDP_CLOSE_WAIT)) s.
Proof.
  intros Ho. unfold csp_rdp_close_internal. apply wlp_bind, wlp_get_conn. intros x Hx.
  rewrite (rst_of _ _ _ Hx) in Ho. injection Ho as Ho. destruct (decide _) as [E|E].
  { apply wlp_ret. left. by rewrite (rst_of _ _ _ Hx), E. }
  apply wlp_bind. eapply (wlp_st c); [st_tac|by apply rst_of|]. intros [] s1 H1.
  apply wlp_bind, wlp_get_conn. intros x1 Hx1. apply wlp_bind.
  apply (wlp_mono _ (fun _ s' => rst c s' = Some RDP_CLOSE_WAIT)).
  - unfold when. case_bool_decide as Ec; lazy beta iota delta [negb].
    { apply wlp_ret. by rewrite (rst_of _ _ _ Hx1), Ec. }
    apply wlp_bind, (wlp_set_state _ _ RDP_CLOSE_WAIT); [done|]. intros s2 H2. eapply (wlp_st c); [st_tac|done|]. by intros.
  - intros [] s2 H2. apply wlp_bind, wlp_get_conn. intros x2 Hx2. destruct (negb _); [apply wlp_ret; right; by subst|].
    apply wlp_bind, (wlp_set_state _ _ RDP_CLOSED); [done|]. intros s3 H3. apply wlp_ret. by left.
Qed.

Lemma conn_close_st c closed o s : rst c s = Some o ->
  wlp (csp_conn_close (Some c) closed)
    (fun _ s' => rst c s' = Some o \/ rst c s' = Some RDP_CLOSED \/ (o <> RDP_CLOSED /\ rst c s' = Some RDP_CLOSE_WAIT)) s.
Proof.
  intros Ho. cbn [csp_conn_close]. apply wlp_bind, wlp_get_conn. intros x Hx. destruct (decide _).
  { eapply (wlp_st c); [st_tac|done|]. by left. }
  apply wlp_bind. eapply wlp_mono with (P := fun _ s' => rst c s' = Some o \/ rst c s' = Some RDP_CLOSED \/
    (o <> RDP_CLOSED /\ rst c s' = Some RDP_CLOSE_WAIT)).
  { destruct (is_rdp x); [|apply wlp_ret; by left]. eapply wlp_mono; [by apply close_internal_st|]. intros r s1 H1. by right. }
  intros r s1 H1. destruct (r =? _); [by apply wlp_ret|].
  apply (wlp_same c _ _ _ (fun o' => o' = Some o \/ o' = Some RDP_CLOSED \/ (o <> RDP_CLOSED /\ o' = Some RDP_CLOSE_WAIT))); [|done|done].
  cbn [csp_rdp_queue_flush]. unfold csp_rdp_queue_size. st_tac.
Qed.

(** *** The transitions *)

(** The moves a packet with flag byte [fl] can cause. *)
Inductive rdp_trans (fl : Z) : csp_rdp_state -> csp_rdp_state -> Prop :=
| tr_stay st : rdp_trans fl st st
| tr_syn : Z.land fl 0x0f = RDP_SYN -> rdp_trans fl RDP_CLOSED RDP_SYN_RCVD
| tr_synack : fl &.& RDP_RST = false -> fl &.& RDP_SYN = true -> fl &.& RDP_ACK = true ->
    rdp_trans fl RDP_SYN_SENT RDP_OPEN
| tr_ack : fl &.& RDP_RST = false -> fl &.& RDP_SYN = false -> fl &.& RDP_ACK = true ->
    rdp_trans fl RDP_SYN_RCVD RDP_OPEN
| tr_close st : st <> RDP_CLOSED -> rdp_trans fl st RDP_CLOSE_WAIT
| tr_closed st : rdp_trans fl st RDP_CLOSED.

(** What the switch leaves for the labels at its end. *)
Definition switched (fl : Z) (c : nat) (o : csp_rdp_state) (e : rdp_exit) (s : node) : Prop :=
  exists n, rst c s = Some n /\ rdp_trans fl o n /\
    match e with discard_close _ => o = RDP_CLOSED -> n = RDP_CLOSED | _ => True end.

Lemma switched_stay fl c o e s : rst c s = Some o -> switched fl c o e s.
Proof. intros Ho. exists o. split; [done|]. split; [constructor|]. by destruct e. Qed.

Lemma rst_st fl h c o s : fl = h_flags h -> rst c s = Some o -> wlp (new_packet_rst c h) (switched fl c o) s.
Proof.
  intros -> Ho. unfold new_packet_rst. apply wlp_bind. eapply (wlp_st c); [st_tac|done|]. intros [] s1 H1.
  apply wlp_bind, wlp_get_conn. intros x Hx. cbv zeta. rewrite (rst_of _ _ _ Hx) in H1. injection H1 as H1.
  pose proof (rst_of _ _ _ Hx) as Hs. rewrite H1 in Hs.
  destruct (decide _) as [E|E]; [by apply wlp_ret, switched_stay|].
  destruct (decide _) as [E2|E2]; [by apply wlp_ret, switched_stay|].
  destruct (_ =? _); [|by apply wlp_ret, switched_stay].
  apply wlp_bind, (wlp_set_state _ _ RDP_CLOSE_WAIT); [done|]. intros s2 H2.
  eapply (wlp_st c); [st_tac|done|]. intros e s3 H3. exists RDP_CLOSE_WAIT. split; [done|]. subst o.
  split; [by constructor|]. by destruct e.
Qed.

Lemma closed_st h c p s : rst c s = Some RDP_CLOSED -> wlp (new_packet_closed c p h) (switched (h_flags h) c RDP_CLOSED) s.
Proof.
  intros Ho. unfold new_packet_closed. destruct (Z.eqb_spec (Z.land (h_flags h) 15) RDP_SYN) as [E|E]; lazy beta iota delta [negb].
  2: { eapply (wlp_st c); [st_tac|done|]. intros e s1 H1. by apply switched_stay. }
  apply wlp_bind. eapply (wlp_st c); [st_tac|done|]. intros seed s1 H1. cbv zeta.
  apply wlp_bind. eapply (wlp_st c); [st_tac|done|]. intros [] s2 H2.
  apply wlp_bind. eapply (wlp_st c); [st_tac|done|]. intros [] s3 H3.
  apply wlp_bind. eapply (wlp_st c); [st_tac|done|]. intros opts s4 H4.
  apply wlp_bind. eapply (wlp_st c); [st_tac|done|]. intros [] s5 H5.
  apply wlp_bind, (wlp_set_state _ _ RDP_SYN_RCVD); [done|]. intros s6 H6.
  apply wlp_bind. eapply (wlp_st c); [st_tac|done|]. intros [] s7 H7.
  apply wlp_ret. exists RDP_SYN_RCVD. split; [done|]. split; [by constructor|done].
Qed.

Lemma syn_sent_st h c s : h_flags h &.& RDP_RST = false -> rst c s = Some RDP_SYN_SENT ->
  wlp (new_packet_syn_sent c h) (switched (h_flags h) c RDP_SYN_SENT) s.
Proof.
  intros Hr Ho. unfold new_packet_syn_sent. destruct (h_flags h &.& RDP_SYN) eqn:E1, (h_flags h &.& RDP_ACK) eqn:E2; simpl andb;
    try (eapply (wlp_st c); [st_tac|done|]; intros e s1 H1; by apply switched_stay).
  apply wlp_bind. eapply (wlp_st c); [st_tac|done|]. intros [] s1 H1.
  apply wlp_bind. eapply (wlp_st c); [st_tac|done|]. intros now s2 H2.
  apply wlp_bind, (wlp_set_state _ _ RDP_OPEN); [done|]. intros s3 H3.
  eapply (wlp_st c); [st_tac|done|]. intros e s4 H4. exists RDP_OPEN. split; [done|].
  split; [by constructor|]. by destruct e.
Qed.

Lemma syn_rcvd_ack_st h c s o : rst c s = Some o ->
  wlp (syn_rcvd_ack c h) (fun ok s' => rst c s' = Some RDP_OPEN \/ (ok = false /\ rst c s' = Some o)) s.
Proof.
  intros Ho. unfold syn_rcvd_ack. apply wlp_bind, wlp_get_conn. intros x Hx.
  destruct (negb _); [by apply wlp_ret; right|].
  apply wlp_bind, (wlp_set_state _ _ RDP_OPEN); [done|]. intros s1 H1.
  eapply (wlp_st c); [st_tac|done|]. by left.
Qed.

Lemma open_st h c p s o : h_flags h &.& RDP_RST = false -> rst c s = Some o -> o = RDP_SYN_RCVD \/ o = RDP_OPEN ->
  wlp (new_packet_open c p h) (switched (h_flags h) c o) s.
Proof.
  intros Hr Ho Hcase. unfold new_packet_open. apply wlp_bind, wlp_get_conn. intros x Hx. cbv zeta.
  pose proof (rst_of _ _ _ Hx) as Hs. rewrite Ho in Hs. injection Hs as Hs.
  destruct (h_flags h &.& RDP_SYN) eqn:Esyn, (h_flags h &.& RDP_ACK) eqn:Eack; cbn [orb negb];
    try (apply wlp_ret, switched_stay; done).
  destruct (negb _).
  { eapply (wlp_st c); [st_tac|done|]. intros e s1 H1. by apply switched_stay. }
  destruct (negb _); [by apply wlp_ret, switched_stay|].
  assert (Hsw : forall n e s', rst c s' = Some n -> n = RDP_OPEN \/ n = o -> switched (h_flags h) c o e s').
  { intros n e s' Hn Hc. exists n. split; [done|]. split; [|destruct Hcase, e; naive_solver].
    destruct Hcase as [->| ->], Hc as [->| ->]; by constructor. }
  apply wlp_bind. apply (wlp_mono _ (fun _ s' => exists n, rst c s' = Some n /\ (n = RDP_OPEN \/ n = o))).
  { destruct (decide _) as [E|E]; [|apply wlp_ret; by eauto].
    eapply wlp_mono; [by apply syn_rcvd_ack_st|]. intros ok s1 [H1|[_ H1]]; eauto. }
  intros ok s1 (n & H1 & Hn).
  assert (Hkeep : forall m, keeps (rst c) m -> wlp m (switched (h_flags h) c o) s1).
  { intros m Hm. eapply (wlp_st c); [exact Hm|exact H1|]. intros e s2 H2. by eapply Hsw. }
  apply Hkeep. st_tac.
Qed.

Lemma switch_st c p h o s : rst c s = Some o -> wlp (new_packet_switch c p h) (switched (h_flags h) c o) s.
Proof.
  intros Ho. unfold new_packet_switch. destruct (h_flags h &.& RDP_RST) eqn:Er; [by apply rst_st|].
  apply wlp_bind, wlp_get_conn. intros x Hx. pose proof (rst_of _ _ _ Hx) as Hs. rewrite Ho in Hs. injection Hs as Hs.
  rewrite <- Hs. destruct o.
  - by apply closed_st.
  - by apply syn_sent_st.
  - apply open_st; auto.
  - apply open_st; auto.
  - eapply (wlp_st c); [st_tac|done|]. intros e s1 H1. by apply switched_stay.
Qed.

Lemma exit_st fl c p o e s : switched fl c o e s ->
  wlp (new_packet_exit c p e) (fun _ s' => exists n, rst c s' = Some n /\ rdp_trans fl o n) s.
Proof.
  intros (n & Hn & Ht & He).
  destruct e as [closed|b|]; cbn [new_packet_exit]; try (eapply (wlp_st c); [st_tac|done|]; intros a s1 H1; by exists n).
  assert (Hclose : forall cl, wlp (csp_conn_close (Some c) cl) (fun _ s' => exists n, rst c s' = Some n /\ rdp_trans fl o n) s).
  { intros cl. eapply wlp_mono; [by apply conn_close_st|]. intros r s1 [H1|[H1|[Hne H1]]]; eexists; (split; [exact H1|]).
    - done.
    - constructor.
    - constructor. intros ->. by apply Hne, He. }
  apply wlp_bind, wlp_get_conn. intros x Hx. apply wlp_bind.
  apply (wlp_mono _ (fun _ s' => exists n, rst c s' = Some n /\ rdp_trans fl o n)).
  - destruct (dest_socket x); apply wlp_bind; (eapply wlp_mono; [apply Hclose|]); cbv beta; intros r s1 (n1 & H1 & Ht1).
    + apply wlp_ret. by exists n1.
    + eapply (wlp_st c); [st_tac|exact H1|]. intros a s2 H2. by exists n1.
  - intros [] s1 (n1 & H1 & Ht1). eapply (wlp_st c); [st_tac|exact H1|]. intros a s2 H2. by exists n1.
Qed.

(** *** Other connections *)

Lemma keeps_conn_close_other d c closed : d <> c -> keeps (rst d) (csp_conn_close (Some c) closed).
Proof.
  intros Hd. cbn [csp_conn_close csp_rdp_queue_flush]. unfold csp_rdp_close, csp_rdp_close_internal, csp_rdp_queue_size. st_tac.
Qed.

Lemma keeps_new_packet_other d c p : d <> c -> keeps (rst d) (csp_rdp_new_packet c p).
Proof.
  intros Hd. pose proof (keeps_conn_close_other d c).
  unfold csp_rdp_new_packet, csp_rdp_header_ref, read_hdr, new_packet_switch, new_packet_exit, new_packet_rst, new_packet_closed,
    new_packet_syn_sent, new_packet_open, syn_rcvd_ack. st_tac.
Qed.

Lemma new_packet_st c p s k hd o : pkt_at p s = Some k -> read_hdr p (pkt_length k - RDP_HEADER_SIZE) s = Ret hd s ->
  rst c s = Some o ->
  wlp (csp_rdp_new_packet c p) (fun _ s' => exists n, rst c s' = Some n /\ rdp_trans (h_flags hd) o n) s.
Proof.
  intros Hk Hh Ho. unfold csp_rdp_new_packet, csp_rdp_header_ref. apply wlp_bind. unfold wlp at 1.
  erewrite bind_ret by (by apply get_pkt_at). cbv beta. unfold mret, M_ret. apply wlp_bind. unfold wlp at 1. rewrite Hh. cbv zeta.
  apply wlp_bind. eapply (wlp_st c); [st_tac|done|]. intros [] s1 H1.
  apply wlp_bind. eapply wlp_mono; [by apply switch_st|]. cbn [h_flags]. intros e s2 He. by apply exit_st.
Qed.

End States.

(** C4. The RDP state machine.  Whatever packet arrives for an open connection
    (or one whose destination socket is none or listens), in whatever state of
    the protocol, [csp_rdp_new_packet] returns and moves the connection only
    along the protocol's edges: from CLOSED a bare SYN leads to SYN_RCVD; from
    SYN_SENT only a packet with SYN and ACK, from SYN_RCVD only an ACK without
    SYN, and in both cases no RST, leads to OPEN; any state may go to CLOSED,
    any but CLOSED to CLOSE_WAIT; nothing leaves CLOSE_WAIT but CLOSED.  No
    other connection changes its state. *)
Theorem rdp_transitions `{OwnLaws} {D : DriverLaws} T h c p s k hd x :
  Inv T (p :: h) s -> arr_conn s !! c = Some x -> conn_state x = CONN_OPEN \/ dest_ok T x -> pkt_at p s = Some k ->
  read_hdr p (pkt_length k - RDP_HEADER_SIZE) s = Ret hd s ->
  exists b s' n, csp_rdp_new_packet c p s = Ret b s' /\ Lost 1 T h s' /\
    rst c s' = Some n /\ rdp_trans (h_flags hd) (rdp_state (conn_rdp x)) n /\
    (forall d, d <> c -> rst d s' = rst d s).
Proof.
  intros HI Hx Hdo Hk Hh. assert (Hc : (c < CSP_CONN_MAX)%nat) by (rewrite <- (inv_conns _ _ _ HI); by eapply lookup_lt_Some).
  pose proof (wp_rdp_new_packet T h s c p HI Hc (open_dest _ _ _ _ _ HI Hx Hdo)) as Hw. apply wp_run in Hw as (b & s' & Hrun & HI').
  pose proof (new_packet_st c p s k hd _ Hk Hh (rst_of _ _ _ Hx)) as Hst. unfold wlp in Hst. rewrite Hrun in Hst.
  destruct Hst as (n & Hn & Ht). exists b, s', n. do 4 (split; [done|]).
  intros d Hd. eapply keeps_run; [by apply keeps_new_packet_other|exact Hrun].
Qed.
