(* ===== verification/OwnConf.v ===== *)
(** * OwnConf: operations that change the configuration

    Interfaces, routes, the bridge, ports, sockets, the key and the tap
    ([src/csp_iflist.c], [src/csp_rtable_cidr.c], [src/csp_bridge.c],
    [src/csp_port.c], [src/crypto/csp_hmac.c], [src/csp_promisc.c]): each leaves
    a sound configuration and a well-formed node. *)

From S2P Require Import Prelude State Monad Id Buffer Sha1 Hmac Iflist Rtable Qfifo Kiss Io RdpQueue Rdp Conn RdpProto Api Route.
From S2P Require Import Own OwnIo OwnRdp OwnRoute KissSpec OwnApi RdpSpec.

(** ** Looking up an interface by its name *)

Lemma Inv_named T h s l : Inv T h s -> iflist s l -> named (ifs s) l.
Proof.
  intros HI Hl j y Hj Hy. pose proof (cf_named _ (inv_conf_ok _ _ _ HI)) as Hn. rewrite <- (inv_conf _ _ _ HI) in Hn.
  destruct (Inv_iflist _ _ _ HI) as (l' & Hc & Hl'). rewrite <- (inv_conf _ _ _ HI) in Hc.
  rewrite (chain_fun _ _ _ _ Hl Hl') in Hj. apply (Hn l' j (if_static y) Hc Hj). simpl. by rewrite map_lookup, Hy.
Qed.

Lemma wp_get_by_name T h s name : Inv T h s ->
  wp (csp_iflist_get_by_name name) (fun r s' => s' = s /\ match r with Some i => valid_if T i | None => True end) s.
Proof.
  intros HI. destruct (Inv_iflist _ _ _ HI) as (l & Hc & Hl). unfold wp.
  rewrite (get_by_name_find s l) by (done || by eapply Inv_named). split; [done|].
  destruct (find _ l) as [i|] eqn:E; [|done]. eapply chain_valid; [done|].
  apply find_some in E as [E _]. by apply list_elem_of_In.
Qed.

(** ** The routing table *)

(** Configuration [T] with another routing table. *)
Definition with_routes (T : config) (rows : list csp_route) (n : Z) : config :=
  mkConfig (cf_conf T) (cf_ifs T) (cf_head T) rows n (cf_ports T) (cf_socks T) (cf_key T) (cf_bridge T).

Definition routes_only (T T' : config) : Prop := T' = with_routes T (cf_rtable T') (cf_inptr T').

Lemma routes_only_refl T : routes_only T T.
Proof. by destruct T. Qed.

Lemma routes_stable T T' : routes_only T T' -> stable T T'.
Proof. intros ->. by split. Qed.

Lemma Inv_routes T h s rows n : Inv T h s -> config_ok (with_routes T rows n) ->
  Inv (with_routes T rows n) h (set_rtable rows (set_rtable_inptr n s)).
Proof. intros HI Hok. destruct HI. subst T. by constructor. Qed.

Lemma set_rtable_same s : set_rtable_inptr (rtable_inptr s) s = s.
Proof. by destruct s. Qed.

(** A row that may be put into the table. *)
Definition row_ok (T : config) (r : csp_route) : Prop :=
  0 <= rt_netmask r <= cf_bits T /\ exists i, rt_iface r = Some i /\ valid_if T i.

(** One row overwritten or added. *)
Lemma config_row T j r n : config_ok T -> row_ok T r -> (j < Z.to_nat n)%nat ->
  n = cf_inptr T \/ j = Z.to_nat (cf_inptr T) /\ n = cf_inptr T + 1 -> n <= Z.of_nat CSP_RTABLE_SIZE ->
  config_ok (with_routes T (<[j := r]> (cf_rtable T)) n).
Proof.
  intros [Hl Hm Hr Hle Hb Hlo Hk Hbr Hn [Hlen H0]] Hrow Hj Hcase Hsz.
  split; try assumption; cbn [cf_rtable cf_inptr with_routes].
  - intros i r' Hi Hi'. destruct (decide (i = j)) as [->|Hne].
    + rewrite list_lookup_insert_eq in Hi by lia. injection Hi as <-. exact Hrow.
    + rewrite list_lookup_insert_ne in Hi by done. apply (Hr i r' Hi). destruct Hcase as [->|[-> ->]]; lia.
  - rewrite length_insert. lia.
  - rewrite length_insert. lia.
Qed.

Lemma wp_rtable_set T h s a m i via : Inv T h s -> valid_if T i ->
  wp (csp_rtable_set a m (Some i) via) (fun _ s' => exists T', Inv T' h s' /\ routes_only T T') s.
Proof.
  intros HI Hi. unfold csp_rtable_set. apply wp_bind, wp_gets. unfold id. cbv zeta.
  set (m' := if _ || _ then _ else m).
  assert (Hm : 0 <= m' <= cf_bits T).
  { rewrite <- (Inv_bits _ _ _ HI). unfold m'. pose proof (host_bits_range s).
    destruct (_ || _) eqn:E; [lia|]. apply orb_false_iff in E as [?%Z.ltb_ge ?%Z.ltb_ge]. lia. }
  clearbody m'. unfold csp_rtable_set_internal. apply wp_bind, wp_gets. unfold id. cbv zeta.
  set (r := mkRoute a m' via (Some i)). assert (Hrow : row_ok T r) by (split; [exact Hm|by exists i]). clearbody r.
  pose proof (inv_conf_ok _ _ _ HI) as Hok. pose proof (inv_conf _ _ _ HI) as HT.
  assert (ER : cf_rtable T = rtable s) by (by rewrite <- HT). assert (EN : cf_inptr T = rtable_inptr s) by (by rewrite <- HT).
  destruct (csp_rtable_find_exact s a m' (Some i)) as [j|] eqn:E.
  - apply wp_bind, wp_modify, wp_ret. eexists (with_routes T _ _). split; [|reflexivity].
    rewrite <- (set_rtable_same s) at 2. apply (Inv_routes T); [done|]. rewrite <- ER, <- EN.
    apply config_row; [done|done| |by left|].
    + pose proof (find_index_find (route_eq a m' (Some i)) (rt_used s) 0) as Hx. unfold csp_rtable_find_exact in E.
      rewrite E in Hx. destruct Hx as (j' & x & -> & Hx & _). simpl. apply lookup_lt_Some in Hx. unfold rt_used in Hx.
      rewrite length_take in Hx. rewrite EN. lia.
    + pose proof (cf_inptr_le _ Hok). pose proof (cf_rows _ Hok). lia.
  - destruct (_ <=? _) eqn:Hf; [apply wp_ret; exists T; split; [done|apply routes_only_refl]|]. apply Z.leb_gt in Hf.
    apply wp_bind, wp_modify, wp_ret. eexists (with_routes T _ _). split; [|reflexivity].
    apply (Inv_routes T); [done|]. rewrite <- ER, <- EN in *. pose proof (cf_rows _ Hok).
    apply config_row; [done|done|lia|by right|lia].
Qed.


(** ** Another configuration, the same packets *)

(** The memory but for the configuration. *)
Definition unconf (s : node) : node :=
  set_interfaces None (set_ifs [] (set_rtable [] (set_rtable_inptr 0 (set_ports [] (set_hmac_key [] (set_bif_a None (set_bif_b None s))))))).

Lemma Inv_conf T h s s' : Inv T h s -> unconf s' = unconf s -> config_ok (config_of s') -> (length (ifs s) <= length (ifs s'))%nat ->
  Inv (config_of s') h s'.
Proof.
  intros HI E Hok Hlen. assert (P : forall A (f : node -> A), (forall x, f (unconf x) = f x) -> f s' = f s).
  { intros A f Hf. rewrite <- (Hf s'), <- (Hf s). by rewrite E. }
  assert (Ep : pool s' = pool s) by (by apply P). assert (Eb : csp_buffers s' = csp_buffers s) by (by apply P).
  assert (Er : refs s' = refs s) by (by apply P). assert (Ec : arr_conn s' = arr_conn s) by (by apply P).
  assert (Ek : socks s' = socks s) by (by apply P). assert (Eq : qfifo s' = qfifo s) by (by apply P).
  assert (Erx : rdp_rx s' = rdp_rx s) by (by apply P). assert (Ed : dedup_in s' = dedup_in s) by (by apply P).
  assert (Eg : dbg s' = dbg s) by (by apply P). assert (Ef : conf s' = conf s) by (by apply P).
  assert (Ekk : kiss s' = kiss s) by (by apply P). assert (Epk : forall p, pkt_at p s' = pkt_at p s) by (intros p; by apply (P _ (pkt_at p))).
  assert (Erq : forall d, rq_get d s' = rq_get d s) by (intros d; apply (P _ (rq_get d)); by destruct d).
  assert (Eacc : forall k, accepting T k -> accepting (config_of s') k).
  { intros k (o & Ho & Hc). exists o. split; [|done]. rewrite <- (inv_conf _ _ _ HI) in Ho. simpl in Ho |- *. by rewrite Ek. }
  destruct HI as [H1 H2 H3 H4 H5 H6 inv_live0 H8 H9 H10 H11 inv_qfifo0 H13 H14 H15 H16 H17]. constructor; try done; rewrite ?Ep, ?Eb, ?Er, ?Ec, ?Ek, ?Eq, ?Erx, ?Ed, ?Eg; try assumption.
  - intros p Hp. destruct (inv_live0 p Hp) as (b & Hb & HR). exists b. by rewrite Ep.
  - intros p Hp. rewrite Epk. auto.
  - apply (kiss_ok_same s); auto.
  - intros d. rewrite Erq. auto.
  - intros i p Hp. destruct (inv_qfifo0 i p Hp) as (j & Hj & Hv). exists j. split; [done|]. unfold valid_if in *.
    rewrite <- H1 in Hv. simpl in Hv |- *. rewrite length_map in *. lia.
  - intros c x k Hx Hk. eauto.
Qed.

Lemma WF_conf h s s' : WF h s -> unconf s' = unconf s -> (forall T, config_of s = T -> config_ok T -> config_ok (config_of s')) ->
  (length (ifs s) <= length (ifs s'))%nat -> WF h s'.
Proof.
  intros (T & o & HI) E Hok Hl. exists (config_of s'), o. eapply Inv_conf; [exact HI|exact E| |exact Hl].
  eapply Hok; [exact (inv_conf _ _ _ HI)|exact (inv_conf_ok _ _ _ HI)].
Qed.

(** ** Sockets *)

Lemma listen_run k h s : WF h s -> (k < length (socks s))%nat -> wp (csp_listen k) (fun _ s' => WF h s') s.
Proof.
  intros (T & o & HI) Hk. unfold csp_listen. destruct (lookup_lt_is_Some_2 _ _ Hk) as [x Hx].
  set (x' := set_sock_rxq (Some (q_create CSP_CONN_RXQUEUE_LEN)) x). set (s' := set_socks (<[k := x']> (socks s)) s).
  apply wp_bind. unfold wp at 1, mod_sock. rewrite Hx. apply wp_ret.
  assert (HT : config_of s = T) by (apply (inv_conf _ _ _ HI)).
  assert (Hcs : forall j o, cf_socks T !! j = Some (true, o) -> cf_socks (config_of s') !! j = Some (true, o)).
  { intros j o' Hj. rewrite <- HT in Hj. simpl in Hj |- *. rewrite map_lookup in Hj |- *.
    destruct (decide (k = j)) as [<-|]; [|by rewrite list_lookup_insert_ne by done].
    rewrite list_lookup_insert_eq by done. rewrite Hx in Hj. unfold sock_static in Hj |- *. simpl in Hj |- *. by simplify_eq. }
  assert (Hl : forall j, listening T j -> listening (config_of s') j) by (intros j [o' Hj]; exists o'; auto).
  assert (Hacc : forall j, accepting T j -> accepting (config_of s') j) by (intros j (o' & Hj & ?); exists o'; auto).
  assert (Hrefs : forall p, (cnt p (refs s') + cnt p (sock_refs x) = cnt p (refs s))%nat).
  { intros p. unfold refs. cbn [socks set_socks s' qfifo arr_conn rdp_tx rdp_rx promisc_queue kiss]. rewrite !cnt_app.
    pose proof (cnt_flat_map_insert sock_refs (socks s) k x x' p Hx) as E. unfold sock_refs at 4 in E. simpl in E.
    change (cnt p []) with 0%nat in E. lia. }
  exists (config_of s'), (o ++ sock_refs x). pose proof (inv_conf_ok _ _ _ HI) as Hok. rewrite <- HT in Hok, Hl.
  change (Inv (config_of s') (h ++ o ++ sock_refs x) s'). constructor; try apply HI; try done.
  - destruct Hok. split; try assumption. intros j k' Hj. apply Hl. by eapply cf_bound.
  - intros p Hlt. pose proof (inv_own _ _ _ HI p Hlt) as Ho. specialize (Hrefs p). change (csp_buffers s') with (csp_buffers s).
    rewrite !cnt_app in *. lia.
  - intros p Hp. apply (inv_live _ _ _ HI). specialize (Hrefs p). rewrite app_assoc, elem_of_app in Hp.
    destruct Hp as [[Hp|Hp]|Hp]; [by left|right..]; apply cnt_pos; apply cnt_pos in Hp; lia.
  - pose proof (inv_qfifo _ _ _ HI) as Hq. rewrite <- HT in Hq. exact Hq.
  - intros c y j Hy Ho Hd. apply Hacc. by eapply (inv_dest _ _ _ HI).
  - intros j y Hy. cbn [socks set_socks s'] in Hy.
    apply list_lookup_insert_Some in Hy as [(-> & <- & _)|[_ Hy]]; [by constructor|by eapply (inv_socks _ _ _ HI)].
Qed.

(** A port table in which every bound socket listens. *)
Lemma set_ports_run ps h s : WF h s -> (forall i k, ps !! i = Some (PORT_OPEN k) -> exists x q, socks s !! k = Some x /\ sock_rxq x = Some q) ->
  WF h (set_ports ps s).
Proof.
  intros (T & o & HI) Hps. exists (config_of (set_ports ps s)), o. pose proof (inv_conf _ _ _ HI) as HT.
  pose proof (inv_conf_ok _ _ _ HI) as Hok. rewrite <- HT in Hok. constructor; try apply HI; try done;
    try (pose proof (inv_qfifo _ _ _ HI) as Hq; pose proof (inv_dest _ _ _ HI) as Hd; rewrite <- HT in Hq, Hd; assumption).
  destruct Hok. split; try assumption. intros j k Hj. destruct (Hps j k Hj) as (x & q & Hx & Hq).
  exists (sock_opts x). simpl. rewrite map_lookup, Hx. unfold sock_static. simpl. by rewrite Hq.
Qed.

Lemma bound_listens h s i k : WF h s -> ports s !! i = Some (PORT_OPEN k) -> exists x q, socks s !! k = Some x /\ sock_rxq x = Some q.
Proof.
  intros (T & o & HI) Hi. pose proof (cf_bound _ (inv_conf_ok _ _ _ HI)) as Hb. rewrite <- (inv_conf _ _ _ HI) in Hb.
  destruct (Hb i k Hi) as [opts Ho]. simpl in Ho. rewrite map_lookup in Ho. destruct (socks s !! k) as [x|]; [|done].
  exists x. unfold sock_static in Ho. simpl in Ho. destruct (sock_rxq x) as [q|] eqn:E; [|done]. by exists q.
Qed.

Lemma bind_run k port h s : WF h s -> (exists x q, socks s !! k = Some x /\ sock_rxq x = Some q) ->
  wp (csp_bind (Some k) port) (fun _ s' => WF h s') s.
Proof.
  intros Hs Hk. unfold csp_bind. destruct (bind_index port) as [i|].
  - apply wp_bind, wp_gets. unfold id. destruct (negb _).
    + apply wp_bind. destruct Hs as (T & o & HI). wp_use (by apply (wp_set_errno T (h ++ o))). intros [] s1 H1. apply wp_ret. by exists T, o.
    + apply wp_bind, wp_modify. apply wp_ret. apply set_ports_run; [done|]. intros j k' Hj.
      apply list_lookup_insert_Some in Hj as [(-> & [= ->] & _)|[_ Hj]]; [done|by eapply bound_listens].
  - apply wp_bind. destruct Hs as (T & o & HI). wp_use (by apply (wp_set_errno T (h ++ o))). intros [] s1 H1. apply wp_ret. by exists T, o.
Qed.

(** ** Interfaces *)

(** What of an interface the list operations leave alone. *)
Definition unlinked (x : csp_iface) : csp_iface := set_if_next None (if_static x).

Definition but_links (s : node) : csp_conf * list csp_iface * list csp_route * Z * list csp_port * list (bool * Z) * list Z * (option nat * option nat) :=
  (conf s, map unlinked (ifs s), rtable s, rtable_inptr s, ports s, map sock_static (socks s), hmac_key s, (bif_a s, bif_b s)).

Lemma chain_to_static a h l : chain a h l -> chain (map if_static a) h l.
Proof.
  induction 1 as [|i x l Hx H IH]; [constructor|]. apply (chain_cons _ _ (if_static x)); [by rewrite map_lookup, Hx|done].
Qed.

Lemma unlinked_at (a b : list csp_iface) i y : map unlinked a = map unlinked b -> a !! i = Some y ->
  exists x, b !! i = Some x /\ if_netmask x = if_netmask y /\ if_name x = if_name y.
Proof.
  intros E Hy. apply (f_equal (lookup i)) in E. rewrite !map_lookup, Hy in E. destruct (b !! i) as [x|]; [|done]. exists x.
  split; [done|]. by injection E as _ -> -> _ _.
Qed.

Lemma config_links s s' l l' : config_ok (config_of s) -> but_links s' = but_links s -> iflist s l -> iflist s' l' ->
  (forall j y, j ∈ l' -> ifs s !! j = Some y -> if_name y <> None) -> config_ok (config_of s').
Proof.
  intros [Hl Hm Hr Hle Hb Hlo Hk Hbr Hn Hrw] E Hc Hc' Hnm. unfold but_links in E.
  assert (Ei : map unlinked (ifs s') = map unlinked (ifs s)) by congruence. assert (Elen : length (ifs s') = length (ifs s)).
  { apply (f_equal length) in Ei. by rewrite !length_map in Ei. }
  assert (Hv : forall i, valid_if (config_of s) i -> valid_if (config_of s') i).
  { unfold valid_if. simpl. intros i. rewrite !length_map. lia. }
  assert (Ec : conf s' = conf s) by congruence. assert (Er : rtable s' = rtable s) by congruence.
  assert (Ein : rtable_inptr s' = rtable_inptr s) by congruence. assert (Ep : ports s' = ports s) by congruence.
  assert (Es : map sock_static (socks s') = map sock_static (socks s)) by congruence. assert (Eh : hmac_key s' = hmac_key s) by congruence.
  assert (Eb : (bif_a s', bif_b s') = (bif_a s, bif_b s)) by congruence.
  assert (Hbits : cf_bits (config_of s') = cf_bits (config_of s)) by (unfold cf_bits; simpl; by rewrite Ec).
  split; rewrite ?Hbits; simpl in *; rewrite ?Er, ?Ein, ?Ep, ?Eh, ?Eb; try assumption.
  - exists l'. by apply chain_to_static.
  - intros i x Hx. rewrite map_lookup in Hx. destruct (ifs s' !! i) as [y|] eqn:Ey; [|done]. injection Hx as <-.
    destruct (unlinked_at _ _ _ _ Ei Ey) as (z & Hz & Em & _). specialize (Hm i (if_static z)). simpl in Hm.
    rewrite map_lookup, Hz in Hm. specialize (Hm eq_refl). simpl in *. congruence.
  - intros j r Hj Hlt. destruct (Hr j r Hj Hlt) as (H1 & i & H2 & H3). split; [done|]. exists i. auto.
  - intros j k Hj. destruct (Hb j k Hj) as [o Ho]. exists o. simpl in *. by rewrite Es.
  - exact (Hv _ Hlo).
  - injection Eb as Ea Eb'. intros i Hi. rewrite Ea, Eb' in Hi. exact (Hv _ (Hbr i Hi)).
  - intros l2 i x Hl2 Hi Hx. rewrite map_lookup in Hx. destruct (ifs s' !! i) as [y|] eqn:Ey; [|done]. injection Hx as <-. simpl.
    destruct (unlinked_at _ _ _ _ Ei Ey) as (z & Hz & _ & En). rewrite <- En. apply (Hnm i); [|exact Hz].
    apply chain_of_static in Hl2. by rewrite <- (chain_fun _ _ _ _ Hl2 Hc').
Qed.

Lemma keeps_links i f : (forall x, unlinked (f x) = unlinked x) -> keeps but_links (mod_iface i f).
Proof.
  intros Hf s. unfold mod_iface. destruct (ifs s !! i) as [x|] eqn:Hx; [|done]. unfold but_links. simpl.
  by rewrite (map_insert_same _ _ _ x).
Qed.

Lemma keeps_if_last {B} (f : node -> B) fuel i name last cur : keeps f (if_last fuel i name last cur).
Proof. revert last cur. induction fuel as [|fuel IH]; intros last [c|]; simpl; keeps_tac. Qed.

Lemma keeps_add_links o : keeps but_links (csp_iflist_add o).
Proof. unfold csp_iflist_add. destruct o; repeat first [by apply keeps_links|apply keeps_if_last|keeps_step]. Qed.

Lemma keeps_add_unconf o : keeps unconf (csp_iflist_add o).
Proof. unfold csp_iflist_add. destruct o; repeat first [apply keeps_if_last|keeps_step]. Qed.

Lemma Inv_iflist_ok T h s : Inv T h s -> exists l, iflist s l /\ named (ifs s) l.
Proof. intros HI. destruct (Inv_iflist _ _ _ HI) as (l & _ & Hl). exists l. split; [done|by eapply Inv_named]. Qed.

Lemma links_length s s' : but_links s' = but_links s -> length (ifs s') = length (ifs s).
Proof.
  intros El. unfold but_links in El. assert (E : map unlinked (ifs s') = map unlinked (ifs s)) by congruence. apply (f_equal length) in E.
  by rewrite !length_map in E.
Qed.

(** Relinking the list of interfaces. *)
Lemma Inv_relink T h s s' l l' : Inv T h s -> but_links s' = but_links s -> unconf s' = unconf s -> iflist s l -> iflist s' l' ->
  (forall j y, j ∈ l' -> ifs s !! j = Some y -> if_name y <> None) -> Inv (config_of s') h s'.
Proof.
  intros HI El Eu Hl Hl' Hn. apply (Inv_conf T h s); [done|done| |rewrite (links_length _ _ El); lia].
  pose proof (inv_conf_ok _ _ _ HI) as Hok. rewrite <- (inv_conf _ _ _ HI) in Hok. by apply (config_links s s' l l').
Qed.

Lemma Inv_iflist_add T i h s : Inv T h s -> (i < length (ifs s))%nat ->
  exists s', csp_iflist_add (Some i) s = Ret tt s' /\ Inv (config_of s') h s' /\ unconf s' = unconf s /\ length (ifs s') = length (ifs s).
Proof.
  intros HI Hi. destruct (lookup_lt_is_Some_2 _ _ Hi) as [x Hx].
  destruct (Inv_iflist_ok _ _ _ HI) as (l & Hl & Hnm). destruct (iflist_add_any s l i x Hl Hnm Hx) as (s' & l' & Hr & Hl' & Hin).
  pose proof (keeps_run _ _ _ _ _ (keeps_add_links _) Hr) as El. pose proof (keeps_run _ _ _ _ _ (keeps_add_unconf _) Hr) as Eu.
  exists s'. split; [done|]. split; [|split; [done|by apply links_length]].
  apply (Inv_relink T h s s' l l'); [done..|]. intros j y Hj Hy. destruct (Hin j Hj) as [Hj'|[-> Hne]]; [by eapply Hnm|congruence].
Qed.

Lemma WF_iflist_add i h s : WF h s -> (i < length (ifs s))%nat -> wp (csp_iflist_add (Some i)) (fun _ s' => WF h s') s.
Proof.
  intros (T & o & HI) Hi. destruct (Inv_iflist_add T i (h ++ o) s HI Hi) as (s' & Hr & HI' & _). unfold wp. rewrite Hr. by exists (config_of s'), o.
Qed.

Lemma keeps_remove_links o : keeps but_links (csp_iflist_remove o).
Proof.
  unfold csp_iflist_remove. destruct o as [i|]; [|apply keeps_ret]. apply keeps_bind; [apply keeps_gets|]. intros s0. destruct (bool_decide _).
  - repeat first [by apply keeps_links|keeps_step].
  - generalize (interfaces s0). induction (if_fuel s0) as [|fuel IH]; intros [c|]; simpl; repeat first [by apply keeps_links|apply IH|keeps_step].
Qed.

Lemma keeps_remove_unconf o : keeps unconf (csp_iflist_remove o).
Proof.
  unfold csp_iflist_remove. destruct o as [i|]; [|apply keeps_ret]. apply keeps_bind; [apply keeps_gets|]. intros s0. destruct (bool_decide _); [keeps_tac|].
  generalize (interfaces s0). induction (if_fuel s0) as [|fuel IH]; intros [c|]; simpl; repeat first [apply IH|keeps_step].
Qed.

Lemma Inv_iflist_remove T i h s l : Inv T h s -> iflist s l ->
  exists s', csp_iflist_remove (Some i) s = Ret tt s' /\ Inv (config_of s') h s' /\ iflist s' (filter (fun j => j <> i) l) /\
    unconf s' = unconf s /\ length (ifs s') = length (ifs s).
Proof.
  intros HI Hl. pose proof (Inv_named _ _ _ _ HI Hl) as Hnm. destruct (iflist_remove_spec s l i Hl) as (s' & Hr & Hl').
  pose proof (keeps_run _ _ _ _ _ (keeps_remove_links _) Hr) as El. pose proof (keeps_run _ _ _ _ _ (keeps_remove_unconf _) Hr) as Eu.
  exists s'. split; [done|]. split; [|split; [done|split; [done|by apply links_length]]].
  apply (Inv_relink T h s s' l _ HI El Eu Hl Hl'). intros j y Hj Hy. apply list_elem_of_filter in Hj as [_ Hj]. by eapply Hnm.
Qed.

Lemma WF_iflist_remove i h s : WF h s -> wp (csp_iflist_remove (Some i)) (fun _ s' => WF h s') s.
Proof.
  intros (T & o & HI). destruct (Inv_iflist_ok _ _ _ HI) as (l & Hl & _). destruct (Inv_iflist_remove T i (h ++ o) s l HI Hl) as (s' & Hr & HI' & _).
  unfold wp. rewrite Hr. by exists (config_of s'), o.
Qed.

(** A new interface at the end of the array, not yet in the list. *)
Lemma Inv_append T h s x : Inv T h s -> if_netmask x = 0 -> let s' := set_ifs (ifs s ++ [x]) s in
  Inv (config_of s') h s' /\ forall l, iflist s l -> iflist s' l.
Proof.
  intros HI Hx s'. assert (Hl' : forall l, iflist s l -> iflist s' l) by (intros l Hl; by apply chain_app). split; [|done].
  assert (Hlen : length (ifs s') = S (length (ifs s))) by (cbn; rewrite length_app; cbn; lia).
  apply (Inv_conf T h s); [done|done| |lia]. pose proof (inv_conf_ok _ _ _ HI) as Hok. rewrite <- (inv_conf _ _ _ HI) in Hok.
  destruct (Inv_iflist_ok _ _ _ HI) as (l & Hl & Hnm). destruct Hok as [_ Hm Hr Hle Hb Hlo Hk Hbr Hn Hrw].
  assert (Hv : forall i, valid_if (config_of s) i -> valid_if (config_of s') i) by (unfold valid_if; intros i; cbn [cf_ifs config_of]; rewrite !length_map; lia).
  assert (Hbits : cf_bits (config_of s') = cf_bits (config_of s)) by done. split; rewrite ?Hbits; try assumption; cbn [cf_ifs cf_head config_of] in *.
  - exists l. apply chain_to_static. by apply Hl'.
  - intros i y Hy. rewrite map_lookup in Hy. destruct (ifs s' !! i) as [z|] eqn:Ez; [|done]. injection Hy as <-. cbn.
    apply lookup_app_Some in Ez as [Ez|[_ Ez]]; [apply (Hm i (if_static z)); by rewrite map_lookup, Ez|].
    apply list_lookup_singleton_Some in Ez as [_ <-]. rewrite Hx. unfold cf_bits. destruct (_ =? 2); vm_compute; split; congruence.
  - intros j r Hj Hlt. destruct (Hr j r Hj Hlt) as (H1 & i & H2 & H3). split; [done|]. exists i. auto.
  - exact (Hv _ Hlo).
  - intros i Hi. apply Hv. auto.
  - intros l2 i y Hl2 Hi Hy. apply chain_of_static in Hl2. rewrite (chain_fun _ _ _ _ Hl2 (Hl' l Hl)) in Hi. rewrite map_lookup in Hy.
    destruct (ifs s' !! i) as [z|] eqn:Ez; [|done]. injection Hy as <-. cbn. apply (Hnm i z Hi).
    cbn in Ez. by rewrite lookup_app_l in Ez by (by eapply chain_lt).
Qed.

(** ** Routes, bridge, ports and key *)

Lemma WF_rtable_set a m i via h s : WF h s -> (i < length (ifs s))%nat -> wp (csp_rtable_set a m (Some i) via) (fun _ s' => WF h s') s.
Proof.
  intros (T & o & HI) Hi. eapply wp_conseq; [apply (wp_rtable_set T (h ++ o)); [done|]|intros r s' (T' & H1 & _); by exists T', o].
  unfold valid_if. rewrite <- (inv_conf _ _ _ HI). simpl. by rewrite length_map.
Qed.

Lemma WF_rtable_clear h s : WF h s -> wp csp_rtable_clear (fun _ s' => WF h s') s.
Proof.
  intros HW. apply wp_modify. apply (WF_conf h s); [done|done| |done]. intros T <- [Hl Hm Hr Hle Hb Hlo Hk Hbr Hn Hrw].
  split; try assumption; cbn [config_of cf_rtable cf_inptr rtable rtable_inptr set_rtable set_rtable_inptr].
  - intros j r _ Hj. change (Z.to_nat 0) with 0%nat in Hj. lia.
  - change (Z.to_nat 0) with 0%nat. lia.
  - rewrite length_replicate. lia.
Qed.

Lemma WF_bridge_set a b h s : WF h s -> (forall i, a = Some i \/ b = Some i -> (i < length (ifs s))%nat) ->
  wp (csp_bridge_set_interfaces a b) (fun _ s' => WF h s') s.
Proof.
  intros HW Hab. apply wp_modify. apply (WF_conf h s); [done|done| |done]. intros T <- [Hl Hm Hr Hle Hb Hlo Hk Hbr Hn Hrw].
  split; try assumption. intros i Hi. unfold valid_if. simpl. rewrite length_map. auto.
Qed.

Lemma WF_set_key key h s : WF h s -> wp (csp_hmac_set_key key) (fun _ s' => WF h s') s.
Proof.
  intros HW. apply wp_bind, wp_modify, wp_ret. apply (WF_conf h s); [done|done| |done]. intros T <- [Hl Hm Hr Hle Hb Hlo Hk Hbr Hn Hrw].
  split; try assumption. simpl. intros E. apply (f_equal length) in E. unfold csp_sha1_memory in E.
  rewrite length_take, process_init_done, length_sha1_spec in E. discriminate E.
Qed.

Lemma bind_callback_run cb port h s : WF h s -> wp (csp_bind_callback (Some cb) port) (fun _ s' => WF h s') s.
Proof.
  intros Hs. unfold csp_bind_callback. destruct (bind_index port) as [i|].
  - apply wp_bind, wp_gets. unfold id. destruct (negb _).
    + apply wp_bind. destruct Hs as (T & o & HI). wp_use (by apply (wp_set_errno T (h ++ o))). intros [] s1 H1. apply wp_ret. by exists T, o.
    + apply wp_bind, wp_modify. apply wp_ret. apply set_ports_run; [done|]. intros j k Hj.
      apply list_lookup_insert_Some in Hj as [(-> & [=] & _)|[_ Hj]]. by eapply bound_listens.
  - apply wp_bind. destruct Hs as (T & o & HI). wp_use (by apply (wp_set_errno T (h ++ o))). intros [] s1 H1. apply wp_ret. by exists T, o.
Qed.

(** ** Closing a socket *)

Lemma unbind_open k l i j : unbind k l !! i = Some (PORT_OPEN j) -> l !! i = Some (PORT_OPEN j).
Proof.
  revert i. induction l as [|[| k'|cb] l IH]; intros [|i]; simpl; try done; try apply IH.
  - destruct (Nat.eqb k' k); done.
  - destruct (Nat.eqb k' k); [done|apply IH].
Qed.

(** The queue of a socket that holds packets only is drained. *)
Lemma wp_drain T h s k x q : Inv T h s -> socks s !! k = Some x -> sock_rxq x = Some q -> (forall c, SConn c ∉ q_items q) ->
  wp (while_loop (S (q_size q))
    (x ← get_sock k;
     match sock_rxq x with
     | None => undef
     | Some q =>
         match q_dequeue q with
         | None => mret Break
         | Some (SPkt p, q') => mod_sock k (set_sock_rxq (Some q')) ;; csp_buffer_free (Some p) ;; mret Continue
         | Some (SConn _, _) => undef
         end
     end)) (fun _ s' => Inv T h s') s.
Proof.
  intros HI Hx Hq Hp.
  apply (wp_while_loop (fun n s => Inv T h s /\ exists y q, socks s !! k = Some y /\ sock_rxq y = Some q /\ length (q_items q) = n /\ forall c, SConn c ∉ q_items q))
    with (k := q_size q); [lia|by eauto 10|].
  clear s x q HI Hx Hq Hp. intros n s (HI & y & q & Hy & Hq & <- & Hp). apply wp_bind. unfold wp at 1, get_sock. rewrite Hy, Hq.
  destruct (q_dequeue q) as [[it q']|] eqn:E; [|by apply wp_ret]. destruct (wp_sock_pop _ _ _ _ _ _ _ _ HI Hy Hq E) as [_ Hw].
  apply q_dequeue_items in E. rewrite E in Hp. destruct it as [c|p]; [destruct (Hp c); left|].
  assert (Hlt : (k < length (socks s))%nat) by (by eapply lookup_lt_Some).
  apply wp_bind. eapply wp_conseq; [apply wp_and; [exact Hw|]|].
  { instantiate (1 := fun _ s' => socks s' !! k = Some (set_sock_rxq (Some q') y)). unfold wp, mod_sock. rewrite Hy. simpl. by apply list_lookup_insert_eq. }
  cbv beta. intros [] s1 [H1 Hy1]. apply wp_bind.
  eapply wp_conseq; [apply (wp_keeps socks); [by apply keeps_buffer_free|by apply wp_free]|]. cbv beta. intros [] s2 [H2 E2].
  apply wp_ret. exists (length (q_items q')). rewrite E. split; [simpl; lia|]. split; [done|]. exists (set_sock_rxq (Some q') y), q'.
  rewrite E2. split; [done|]. split; [done|]. split; [done|]. intros c Hc. apply (Hp c). by right.
Qed.

Lemma WF_socket_close k h s x : WF h s -> socks s !! k = Some x -> sock_opts x &.& CSP_SO_CONN_LESS = true \/ sock_items x = [] ->
  wp (csp_socket_close (Some k)) (fun _ s' => WF h s') s.
Proof.
  intros HW Hx Hpk. unfold csp_socket_close. apply wp_bind, wp_modify.
  assert (H1 : WF h (set_ports (unbind k (ports s)) s)).
  { apply set_ports_run; [done|]. intros i j Hi%unbind_open. by eapply bound_listens. }
  apply wp_bind. unfold wp at 1, get_sock. cbn [socks set_ports]. rewrite Hx. destruct (sock_rxq x) as [q|] eqn:Hq; [|by apply wp_ret].
  destruct H1 as (T & o & HI). apply wp_bind. eapply wp_conseq; [eapply (wp_drain T (h ++ o)); [exact HI|exact Hx|exact Hq|]|].
  - intros c Hc. pose proof (inv_socks _ _ _ HI k x Hx) as Hok. unfold sock_ok, sock_items in *. rewrite Hq in *.
    destruct Hpk as [Ho|E]; [|rewrite E in Hc; by apply not_elem_of_nil in Hc].
    rewrite Forall_forall in Hok. specialize (Hok (SConn c) (proj1 (list_elem_of_In _ _) Hc)). simpl in Hok. destruct Hok. congruence.
  - intros [] s2 H2. apply wp_ret. by exists T, o.
Qed.

(** ** The tap *)

Lemma WF_promisc_enable h s : WF h s -> wp csp_promisc_enable (fun _ s' => WF h s') s.
Proof.
  intros (T & o & HI). unfold csp_promisc_enable. apply wp_bind, wp_gets. destruct (promisc_queue s) as [q|] eqn:Eq.
  - apply wp_bind, wp_modify, wp_ret. exists T, o. destruct HI; by constructor.
  - apply wp_bind, wp_modify, wp_bind, wp_modify, wp_ret. exists T, o. eapply (Inv_move _ _ _ s _ HI); try done; try apply HI.
    intros p. unfold refs. simpl. rewrite Eq. reflexivity.
Qed.

Lemma WF_promisc_pop h s p q q' : WF h s -> promisc_queue s = Some q -> q_dequeue q = Some (p, q') -> WF (p :: h) (set_promisc_queue (Some q') s).
Proof.
  intros (T & o & HI) Hq E%q_dequeue_items. exists T, o. simpl. eapply (Inv_move _ _ _ s _ HI); try done; try apply HI.
  intros p'. unfold refs. simpl. rewrite Hq. simpl. rewrite E. repeat (rewrite ?cnt_app, ?cnt_cons; simpl). destruct (Nat.eq_dec p p'); lia.
Qed.

Section Tap.
Context `{OwnLaws}.

Lemma WF_promisc_read `{WaitLogic w} t h s : WF h s -> wl_may w t -> w _ (csp_promisc_read t) (fun r s' => WF (opt_held r h) s') s.
Proof.
  intros HW Ht. unfold csp_promisc_read. apply wl_seq, wp_gets. destruct (promisc_queue s) as [q|] eqn:Eq; [|by apply wl_ret].
  destruct (q_dequeue q) as [[p q']|] eqn:E; [apply wl_wp, wp_bind, wp_modify, wp_ret; by eapply WF_promisc_pop|].
  destruct (t =? 0); [by apply wl_ret|]. apply wl_seq. wp_use (by apply wp_yield). intros [] s1 H2.
  apply wl_seq, wp_gets. destruct (promisc_queue s1) as [q1|] eqn:Eq1; [|by apply wl_ret].
  destruct (q_dequeue q1) as [[p q']|] eqn:E1; [|by apply wl_timed_out]. apply wl_wp, wp_bind, wp_modify, wp_ret. by eapply WF_promisc_pop.
Qed.

End Tap.

(** ** A serial line *)

(** The driver's memory for the interface data of a KISS interface, as [calloc]
    gives it: interface [i] gets a receive state. *)
Definition attach_kiss (i : nat) : M unit :=
  modify (fun s => set_kiss (<[i := Some (mkKiss (Some 0%nat) KISS_MODE_NOT_STARTED 0 false None)]>
                               (kiss s ++ replicate (S i - length (kiss s)) None)) s).

Lemma WF_attach_kiss i h s : WF h s -> (forall d, kiss s !! i <> Some (Some d)) -> wp (attach_kiss i) (fun _ s' => WF h s') s.
Proof.
  intros (T & o & HI) Hn. apply wp_modify. exists T, o. set (pad := kiss s ++ _). set (d0 := mkKiss _ _ _ _ _).
  assert (Hpad : forall j y, pad !! j = Some (Some y) -> kiss s !! j = Some (Some y)).
  { intros j y Hj. apply lookup_app_Some in Hj as [Hj|[_ Hj]]; [done|]. by apply lookup_replicate in Hj as [Hj _]. }
  assert (Hi : pad !! i = Some None).
  { destruct (lookup_lt_is_Some_2 pad i) as [[y|] Hy]; [unfold pad; rewrite length_app, length_replicate; lia| |done]. by apply Hpad, Hn in Hy. }
  eapply (Inv_move _ _ _ s _ HI); try done; try apply HI.
  - intros j y Hj. cbn [kiss set_kiss] in Hj. apply list_lookup_insert_Some in Hj as [(-> & [= <-] & _)|[_ Hj]].
    + split; [by left|]. split; [simpl; lia|by intros ? [=]].
    + exact (inv_kiss _ _ _ HI j y (Hpad j y Hj)).
  - intros p. unfold refs. cbn [qfifo arr_conn socks rdp_tx rdp_rx promisc_queue kiss set_kiss]. rewrite !cnt_app, !omap_kiss_refs.
    pose proof (cnt_flat_map_insert (fun x => match x with Some d => rx_refs d | None => [] end) pad i None (Some d0) p Hi) as E.
    assert (Ep : flat_map (fun x => match x with Some d => rx_refs d | None => [] end) pad = flat_map (fun x => match x with Some d => rx_refs d | None => [] end) (kiss s)).
    { unfold pad. rewrite flat_map_app. replace (flat_map _ (replicate _ _)) with (@nil nat); [by rewrite app_nil_r|].
      generalize (S i - length (kiss s))%nat as m. induction m as [|m IH]; [done|exact IH]. }
    rewrite Ep in E. change (rx_refs d0) with (@nil nat) in E. rewrite cnt_nil in E. lia.
Qed.

(** ** The calls that set a node up

    The calls an application and its drivers make to configure a node, at any
    time: they take and give no packet. *)

Inductive conf_op :=
| CfListen (k : nat)
| CfBind (k : nat) (port : Z)
| CfBindCallback (callback : nat) (port : Z)
| CfSocketClose (k : nat)
| CfAddIf (i : nat)
| CfRemoveIf (i : nat)
| CfRtableSet (address netmask : Z) (i : nat) (via : Z)
| CfRtableClear
| CfBridge (a b : option nat)
| CfKey (key : list Z)
| CfRdpOpts (w ct pt da at_ adc : Z)
| CfPromiscOn
| CfPromiscOff
| CfAttachKiss (i : nat).

Definition run_conf (o : conf_op) : M unit :=
  match o with
  | CfListen k => _ ← csp_listen k; mret tt
  | CfBind k port => _ ← csp_bind (Some k) port; mret tt
  | CfBindCallback callback port => _ ← csp_bind_callback (Some callback) port; mret tt
  | CfSocketClose k => _ ← csp_socket_close (Some k); mret tt
  | CfAddIf i => csp_iflist_add (Some i)
  | CfRemoveIf i => csp_iflist_remove (Some i)
  | CfRtableSet address netmask i via => _ ← csp_rtable_set address netmask (Some i) via; mret tt
  | CfRtableClear => csp_rtable_clear
  | CfBridge a b => csp_bridge_set_interfaces a b
  | CfKey key => _ ← csp_hmac_set_key key; mret tt
  | CfRdpOpts w ct pt da at_ adc => csp_rdp_set_opt w ct pt da at_ adc
  | CfPromiscOn => _ ← csp_promisc_enable; mret tt
  | CfPromiscOff => csp_promisc_disable
  | CfAttachKiss i => attach_kiss i
  end.

(** When they may be called: on interfaces and sockets that exist, on listening
    sockets for [csp_bind], and, for [csp_socket_close], on a socket whose queue
    holds no connection (it frees what it finds there as packets). *)
Definition conf_allowed (o : conf_op) (s : node) : Prop :=
  match o with
  | CfListen k => (k < length (socks s))%nat
  | CfBind k _ => exists x q, socks s !! k = Some x /\ sock_rxq x = Some q
  | CfSocketClose k => exists x, socks s !! k = Some x /\ (sock_opts x &.& CSP_SO_CONN_LESS = true \/ sock_items x = [])
  | CfAddIf i | CfRtableSet _ _ i _ => (i < length (ifs s))%nat
  | CfBridge a b => forall i, a = Some i \/ b = Some i -> (i < length (ifs s))%nat
  | CfAttachKiss i => forall d, kiss s !! i <> Some (Some d)
  | CfBindCallback _ _ | CfRemoveIf _ | CfRtableClear | CfKey _ | CfRdpOpts _ _ _ _ _ _ | CfPromiscOn | CfPromiscOff => True
  end.

Lemma wp_after {A} (m : M A) (Q : node -> Prop) s : wp m (fun _ s' => Q s') s -> wp (_ ← m; mret tt) (fun _ s' => Q s') s.
Proof. intros Hm. apply wp_bind. eapply wp_conseq; [exact Hm|]. intros a s' Hs. by apply wp_ret. Qed.

Lemma conf_wp o h s : WF h s -> conf_allowed o s -> wp (run_conf o) (fun _ s' => WF h s') s.
Proof.
  intros Hs Ha. destruct o; cbn [run_conf conf_allowed] in Ha |- *; try apply wp_after.
  - by apply listen_run.
  - by apply bind_run.
  - by apply bind_callback_run.
  - destruct Ha as (x & Hx & Hc). by eapply WF_socket_close.
  - by apply WF_iflist_add.
  - by apply WF_iflist_remove.
  - by apply WF_rtable_set.
  - by apply WF_rtable_clear.
  - by apply WF_bridge_set.
  - by apply WF_set_key.
  - apply wp_modify. destruct Hs as (T & o & HI). exists T, o. destruct HI; by constructor.
  - by apply WF_promisc_enable.
  - apply wp_modify. destruct Hs as (T & o & HI). exists T, o. destruct HI; by constructor.
  - by apply WF_attach_kiss.
Qed.
