(* ===== verification/OwnClient.v ===== *)
(** * OwnClient: transactions respect buffer ownership

    [csp_sendto_reply] and the transactions of [src/csp_io.c] over connections
    without RDP. *)

From S2P Require Import Prelude State Monad Id Buffer Sha1 Hmac Iflist Rtable Qfifo Kiss Io RdpQueue Rdp Conn RdpProto Api Route.
From S2P Require Import Own OwnIo OwnRdp OwnRoute OwnApi RdpSpec RdpState.

(** ** Packets in hand *)

Lemma wp_put_mem T h s p off bs : Inv T h s -> p ∈ h -> -8 <= off -> off + zlen bs <= 256 ->
  wp (write_mem p off bs) (fun _ s' => Inv T h s') s.
Proof.
  intros HI Hp Ho Hl. destruct (live_pkt s p) as (k & Hk & _); [by eapply Inv_live_h|].
  eapply wp_conseq; [by eapply wp_write_mem|]. by intros [] s' [H1 _].
Qed.

Lemma wp_resize T h s p n : Inv T h s -> p ∈ h -> 0 <= n <= CSP_BUFFER_SIZE ->
  wp (mod_pkt p (set_pkt_length n)) (fun _ s' => Inv T h s') s.
Proof. intros HI Hp Hn. apply wp_mod_pkt; [done|done|]. by intros k [Hm _]. Qed.

(** ** The identifiers of the connections *)

Definition conn_ids (x : csp_conn) : csp_id * csp_id := (idin x, idout x).
Definition ids (s : node) : list (csp_id * csp_id) := conn_ids <$> arr_conn s.

Lemma keeps_mod_conn_ids c f : (forall x, conn_ids (f x) = conn_ids x) -> keeps ids (mod_conn c f).
Proof.
  intros Hf s. unfold mod_conn. destruct (arr_conn s !! c) as [x|] eqn:E; [|done].
  unfold ids. simpl. rewrite list_fmap_insert, Hf. apply list_insert_id. by rewrite list_lookup_fmap, E.
Qed.

Lemma keeps_flush_ids c : keeps ids (csp_conn_flush_rx_queue c).
Proof.
  unfold csp_conn_flush_rx_queue. apply keeps_bind; [apply keeps_get_conn|]. intros x. apply keeps_while.
  apply keeps_bind; [apply keeps_get_conn|]. intros y. destruct (q_dequeue _) as [[o q']|]; [|apply keeps_ret].
  apply keeps_bind; [by apply keeps_mod_conn_ids|]. intros _.
  apply keeps_bind; [by apply keeps_buffer_free|]. intros _. apply keeps_ret.
Qed.

(** What a program that returns is known to establish. *)
Lemma wp_returns {A} (m : M A) P Q s : wp m P s -> (forall a s', m s = Ret a s' -> Q a s') -> wp m (fun a s' => P a s' /\ Q a s') s.
Proof. unfold wp. intros Hw Hr. destruct (m s) as [a s'| | |]; [|done..]. by split; [|apply Hr]. Qed.

Lemma mod_conn_returns c f s a s' : mod_conn c f s = Ret a s' ->
  exists x, arr_conn s !! c = Some x /\ arr_conn s' !! c = Some (f x).
Proof.
  unfold mod_conn. destruct (arr_conn s !! c) as [x|] eqn:E; [|done]. intros [= _ <-]. exists x. split; [done|].
  simpl. rewrite list_lookup_insert_eq; [done|]. by eapply lookup_lt_Some.
Qed.

Section Clients.
Context `{L : OwnLaws}.

Lemma wp_sendto_reply T h s r p opts : Inv T (p :: h) s -> r ∈ p :: h ->
  wp (csp_sendto_reply (Some r) p opts) (fun _ s' => Inv T h s') s.
Proof.
  intros HI Hr. unfold csp_sendto_reply.
  apply wp_bind. eapply wp_get_pkt; [done|by left|]. intros k Hk Hok.
  apply wp_bind. apply (wp_conseq _ (fun _ s' => Inv T (p :: h) s')).
  { apply wp_when; intros _; [|done]. apply wp_mod_pkt; [done|left|done]. }
  intros [] s1 H1. apply wp_bind. eapply wp_get_pkt; [done|by left|]. intros k1 Hk1 Hok1. cbv zeta.
  apply wp_bind, wp_gets. apply wp_bind.
  wp_use (apply (wp_mod_pkt T (p :: h)); [done|left|done]). intros [] s2 H2.
  apply wp_bind. eapply wp_get_pkt; [done|by left|]. intros k2 Hk2 Hok2. by apply wp_sendto.
Qed.

(** A connection from [csp_conn_new] has the identifiers it was given. *)
Lemma conn_new_out a b type s c s' : csp_conn_new a b type s = Ret (Some c) s' ->
  exists x, arr_conn s' !! c = Some x /\ idin x = csp_id_copy a /\ idout x = csp_id_copy b.
Proof.
  unfold csp_conn_new. intros ([i|] & s1 & H1 & H2)%bind_Ret; [|discriminate H2].
  apply bind_Ret in H2 as ([] & s2 & H2 & H3). apply mod_conn_returns in H2 as (x & _ & Hx).
  apply bind_Ret in H3 as (now & s3 & H3 & H4). injection H3 as _ <-.
  apply bind_Ret in H4 as ([] & s4 & H4 & H5). apply mod_conn_returns in H4 as (y & Hy & Hy').
  apply bind_Ret in H5 as ([] & s5 & H5 & H6). injection H6 as -> ->.
  simpl in Hy. rewrite Hx in Hy. injection Hy as <-.
  pose proof (keeps_run _ _ _ _ _ (keeps_flush_ids c) H5) as Ho. unfold ids in Ho.
  assert (E : (conn_ids <$> arr_conn s') !! c = Some (csp_id_copy a, csp_id_copy b)) by (by rewrite Ho, list_lookup_fmap, Hy').
  rewrite list_lookup_fmap in E. destruct (arr_conn s' !! c) as [z|]; [|done]. exists z. split; [done|]. by injection E as -> ->.
Qed.

(** No RDP on the connection, in either direction. *)
Definition unreliable (x : csp_conn) : Prop := flags (idin x) &.& CSP_FRDP = false /\ flags (idout x) &.& CSP_FRDP = false.

Lemma unreliable_sendable x : unreliable x -> sendable x.
Proof. intros [_ Ho]. right. by left. Qed.

Lemma connect_out prio d dp opts s c s' : plain opts s -> csp_connect prio d dp opts s = Ret (Some c) s' ->
  exists x, arr_conn s' !! c = Some x /\ unreliable x.
Proof.
  unfold plain, csp_connect. intros Hp H1. apply bind_Ret in H1 as (s0 & s1 & [= <- <-] & H2). unfold id in H2.
  set (f := connect_flags _) in *. cbv zeta in H2. apply bind_Ret in H2 as ([i|] & s2 & H2 & H3); [|discriminate H3].
  apply conn_new_out in H2 as (x & Hx & Hi & Ho). apply bind_Ret in H3 as ([] & s3 & H3 & H4).
  apply mod_conn_returns in H3 as (y & Hy & Hy'). rewrite Hx in Hy. injection Hy as <-.
  rewrite Hp in H4. injection H4 as -> ->. eexists. split; [exact Hy'|]. unfold unreliable. simpl. rewrite Hi, Ho. by split.
Qed.

Lemma WF_connect_plain prio d dp opts h s : WF h s -> plain opts s ->
  wp (csp_connect prio d dp opts) (fun r s' => WF h s' /\
    match r with Some c => (c < CSP_CONN_MAX)%nat /\ exists x, arr_conn s' !! c = Some x /\ unreliable x | None => True end) s.
Proof.
  intros HW Hp. eapply wp_conseq; [apply wp_returns; [apply (WF_connect (w := @wp)); [exact HW|by left]|]|].
  - intros r s' Hr. instantiate (1 := fun r s' => match r with Some c => exists x, arr_conn s' !! c = Some x /\ unreliable x | None => True end).
    destruct r as [c|]; [|done]. by eapply connect_out.
  - cbv beta. intros [c|] s' [[H1 H2] H3]; auto.
Qed.

(** Sending on such a connection leaves it one, when the drivers leave the
    connection table alone. *)
Lemma send_unreliable `{!DriverLaws} fuel c p x s s' : arr_conn s !! c = Some x -> unreliable x ->
  csp_send fuel (Some c) (Some p) s = Ret tt s' -> exists y, arr_conn s' !! c = Some y /\ idin y = idin x.
Proof.
  intros Hx Hu. cbn [csp_send]. intros (x' & s1 & E1 & E)%bind_Ret. unfold get_conn in E1.
  rewrite Hx in E1. injection E1 as <- <-. destruct (negb _).
  { exists x. split; [|done]. by rewrite (keeps_run arr_conn _ _ _ _ (keeps_free _) E). }
  rewrite (proj2 Hu) in E. rewrite (bind_ret _ _ s CSP_ERR_NONE s) in E by done. cbn [negb Z.eqb] in E.
  apply bind_Ret in E as (y & s1 & E1 & E). unfold get_conn in E1. rewrite Hx in E1. injection E1 as <- <-.
  apply bind_Ret in E as (i & s2 & E2 & E). apply (keeps_run arr_conn) in E2; [|apply keeps_send_direct].
  apply mod_conn_returns in E as (y & Hy & Hy'). rewrite E2, Hx in Hy. injection Hy as <-. by eexists.
Qed.

(** A read after it waits for the time the caller gives. *)
Lemma send_read_timeout `{!DriverLaws} fuel c p x t s s' y : arr_conn s !! c = Some x -> unreliable x ->
  csp_send fuel (Some c) (Some p) s = Ret tt s' -> arr_conn s' !! c = Some y -> read_timeout t y = t.
Proof.
  intros Hx Hu Hs Hy. destruct (send_unreliable fuel c p x s s' Hx Hu Hs) as (y' & Hy' & Ei).
  rewrite Hy in Hy'. injection Hy' as ->. unfold read_timeout. by rewrite Ei, (proj1 Hu), andb_false_r.
Qed.

(** ** The calls on a well-formed node *)

Lemma WF_close c h s : WF h s -> (c < CSP_CONN_MAX)%nat -> wp (csp_close (Some c)) (fun _ s' => WF h s') s.
Proof. intros (T & o & HI) Hc. unfold csp_close. by apply (wp_WF _ T h o), wp_conn_close. Qed.

Lemma WF_free p h s : WF (p :: h) s -> wp (csp_buffer_free (Some p)) (fun _ s' => WF h s') s.
Proof. intros (T & o & HI). by apply (wp_WF _ T h o), wp_free. Qed.

(** A task may take a packet and fill it; the connections stay as they are. *)
Lemma WF_take h s : WF h s -> wp csp_buffer_get (fun r s' => WF (opt_held r h) s' /\ arr_conn s' = arr_conn s) s.
Proof.
  intros (T & o & HI). apply (wp_keeps arr_conn); [apply keeps_buffer_get|].
  eapply wp_conseq; [by apply wp_buffer_get|]. cbv beta. intros [p|] s' [H1 _]; by exists T, o.
Qed.

Lemma WF_put_mem p off bs h s : WF h s -> p ∈ h -> -8 <= off -> off + zlen bs <= 256 ->
  wp (write_mem p off bs) (fun _ s' => WF h s' /\ arr_conn s' = arr_conn s) s.
Proof.
  intros (T & o & HI) Hp Ho Hl. apply (wp_keeps arr_conn); [keeps_tac|].
  apply (wp_WF _ T h o), wp_put_mem; [done|apply elem_of_app; by left|done|done].
Qed.

Lemma WF_resize p n h s : WF h s -> p ∈ h -> 0 <= n <= CSP_BUFFER_SIZE ->
  wp (mod_pkt p (set_pkt_length n)) (fun _ s' => WF h s' /\ arr_conn s' = arr_conn s) s.
Proof.
  intros (T & o & HI) Hp Hn. apply (wp_keeps arr_conn); [keeps_tac|].
  apply (wp_WF _ T h o), wp_resize; [done|apply elem_of_app; by left|done].
Qed.

Lemma WF_send fuel c p x h s : WF (p :: h) s -> (c < CSP_CONN_MAX)%nat -> arr_conn s !! c = Some x -> sendable x ->
  wp (csp_send fuel (Some c) (Some p)) (fun _ s' => WF h s') s.
Proof. intros (T & o & HI) Hc Hx Hs. by eapply (wp_WF _ T h o), wp_send. Qed.

Lemma WF_get_pkt p h s (Q : csp_packet -> node -> Prop) : WF (p :: h) s ->
  (forall k, pkt_at p s = Some k -> packet_ok k -> Q k s) -> wp (get_pkt p) Q s.
Proof. intros (T & o & HI) HQ. eapply wp_get_pkt; [exact HI|left; left|done]. Qed.

Lemma WF_read_mem p off n h s (Q : list Z -> node -> Prop) : WF (p :: h) s -> 0 <= off -> 0 <= n -> off + n <= 256 ->
  (forall bs, zlen bs = n -> Q bs s) -> wp (read_mem p off n) Q s.
Proof. intros (T & o & HI) Ho Hn Hl HQ. eapply wp_read_mem; [exact HI|left; left|lia..|done]. Qed.

Lemma WF_inval_reply h s : WF h s -> wp incr_inval_reply (fun _ s' => WF h s') s.
Proof. intros (T & o & HI). exists T, o. destruct HI. by constructor. Qed.

Lemma WF_transaction `{WaitLogic w} fuel c t out inlen x h s : WF h s -> (c < CSP_CONN_MAX)%nat -> arr_conn s !! c = Some x -> sendable x ->
  (inlen <> 0 -> forall p s1 s2 y, arr_conn s1 = arr_conn s -> csp_send fuel (Some c) (Some p) s1 = Ret tt s2 ->
    arr_conn s2 !! c = Some y -> wl_may w (read_timeout t y)) ->
  w _ (csp_transaction_persistent fuel (Some c) t out inlen) (fun _ s' => WF h s') s.
Proof.
  intros HW Hc Hx Hs Ht. unfold csp_transaction_persistent. destruct (_ <? zlen out) eqn:El; [by apply wl_ret|].
  apply Z.ltb_ge in El. unfold CSP_BUFFER_SIZE in El.
  apply wl_seq. wp_use (by apply WF_take). intros [p|] s1 [H1 E1]; [|by apply wl_ret]. cbn [opt_held] in H1.
  apply wl_seq. apply (wp_conseq _ (fun _ s' => WF (p :: h) s' /\ arr_conn s' = arr_conn s)).
  { apply wp_when; intros _; [|done]. eapply wp_conseq; [apply WF_put_mem; [done|left|lia|lia]|]. cbv beta.
    intros [] s2 [H2 E2]. split; [done|congruence]. }
  intros [] s2 [H2 E2]. apply wl_seq. wp_use (apply WF_resize; [done|left|unfold CSP_BUFFER_SIZE; lia]). intros [] s3 [H3 E3].
  apply wl_seq. eapply wp_conseq; [apply wp_returns; [by eapply (WF_send fuel c p x h); [|done|rewrite E3, E2|]|intros a s4; exact id]|].
  cbv beta. intros [] s4 [H4 E4].
  destruct (Z.eqb_spec inlen 0) as [Ei|Ei]; [by apply wl_ret|]. specialize (Ht Ei).
  apply wl_bind. eapply wl_conseq; [apply (WF_read c t h); [done|done|]|].
  { intros y. apply (Ht p s3); [congruence|done]. } cbv beta. intros [q|] s5 H5; [|by apply wl_ret]. cbn [opt_held] in H5.
  apply wl_seq. eapply WF_get_pkt; [done|]. intros k Hk [_ Hlen]. destruct (negb _ && _).
  - apply wl_seq. wp_use (by apply (WF_inval_reply (q :: h))). intros [] s6 H6.
    apply wl_seq. wp_use (by apply WF_free). intros [] s7 H7. by apply wl_ret.
  - apply wl_seq. eapply WF_read_mem; [done|lia|lia|unfold CSP_BUFFER_SIZE in *; lia|]. intros bs _.
    apply wl_seq. wp_use (by apply WF_free). intros [] s6 H6. by apply wl_ret.
Qed.

Lemma WF_transaction_w_opts `{WaitLogic w} fuel prio d port t out inlen opts h s : WF h s -> plain opts s ->
  (inlen <> 0 -> (forall y, wl_may w (read_timeout t y)) \/ DriverLaws /\ wl_may w t) ->
  w _ (csp_transaction_w_opts fuel prio d port t out inlen opts) (fun _ s' => WF h s') s.
Proof.
  intros HW Hp Ht. unfold csp_transaction_w_opts. apply wl_seq. wp_use (by apply WF_connect_plain).
  intros [c|] s1 [H1 Hc]; [|by apply wl_ret]. destruct Hc as (Hc & x & Hx & Hu).
  apply wl_bind. eapply wl_conseq; [eapply (WF_transaction fuel c t out inlen x); [done|done|done|by apply unreliable_sendable|]|].
  { intros Hn p s2 s3 y E Hs Hy. destruct (Ht Hn) as [Ha|[Hd Ha]]; [by apply Ha|].
    rewrite (send_read_timeout fuel c p x t s2 s3 y); [exact Ha|by rewrite E|done..]. }
  cbv beta. intros st s2 H2. apply wl_seq. wp_use (by apply WF_close). intros r s3 H3. by apply wl_ret.
Qed.

End Clients.
