(* ===== verification/Node.v ===== *)
(** * Node: a whole node, from [csp_init] to the router's turns

    The loopback interface ([src/interfaces/csp_if_lo.c]) as the driver of
    interface 0, the proof that it meets the interface a driver must meet,
    that [csp_init] ([src/csp_init.c]) sets up a well-formed node, and the
    safety theorems of the router, the bridge, the send path, the RDP engine
    and the application calls. *)

From S2P Require Import Prelude State Monad Id Buffer Crc32 Hmac Iflist Rtable Qfifo Kiss Io RdpQueue Rdp Conn.
From S2P Require Import RdpProto Api Route Own OwnIo OwnRdp OwnRoute OwnApi RdpSpec RdpState KissSpec OwnConf OwnClient.

(** ** The loopback driver *)

(** [csp_lo_tx]: the packet goes back to the router queue. *)
Definition csp_lo_tx (iface : nat) (via : Z) (packet : nat) (from_me : bool) : M Z :=
  csp_qfifo_write (Some packet) (Some csp_if_lo) false ;;
  mret CSP_ERR_NONE.

(** The platform [P] with the loopback driver under tag 0, the tag of
    [csp_if_lo]. *)
Definition with_lo (P : Platform) : Platform := {|
  plat_ms := plat_ms;
  plat_rand := plat_rand;
  plat_yield := plat_yield;
  plat_nexthop k := match k with O => csp_lo_tx | S _ => plat_nexthop k end;
  plat_callback := plat_callback;
  plat_overflow := plat_overflow;
  CSP_USE_RTABLE := CSP_USE_RTABLE
|}.

#[export] Instance with_lo_laws P : @OwnLaws P -> @OwnLaws (with_lo P).
Proof.
  intros L. split.
  - intros T h s [|k] i via p from_me HI Hi; [|by apply (law_nexthop (H := P))]. simpl. unfold csp_lo_tx.
    apply wp_bind. wp_use (apply (wp_qfifo_write T h); [done|apply (cf_lo _ (inv_conf_ok _ _ _ HI))]).
    intros [] s1 H1. by apply wp_ret.
  - apply (law_callback (H := P)).
  - apply (law_yield (H := P)).
Qed.

#[export] Instance with_lo_driver P : @DriverLaws P -> @DriverLaws (with_lo P).
Proof.
  intros D [|k] i via p from_me; [|apply (law_nexthop_conns (H := P))].
  simpl. unfold csp_lo_tx, csp_qfifo_write. keeps_tac.
Qed.

(** ** A router beside the application

    The platform [P] on which a task that waits lets the router run: wait
    [n] gives it [turns n] turns ([csp_route_work]) before the task goes on. *)

Fixpoint router_turns `{Platform} (n : nat) : M unit :=
  match n with
  | O => mret tt
  | S n => _ ← csp_route_work; router_turns n
  end.

Definition with_router (turns : nat -> nat) (P : Platform) : Platform := {|
  plat_ms := plat_ms;
  plat_rand := plat_rand;
  plat_yield n s := match router_turns (turns n) s with Ret _ s' => s' | _ => s end;
  plat_nexthop := plat_nexthop;
  plat_callback := plat_callback;
  plat_overflow := plat_overflow;
  CSP_USE_RTABLE := CSP_USE_RTABLE
|}.

Lemma wp_router_turns `{OwnLaws} n : forall T h s, Inv T h s ->
  wp (router_turns n) (fun _ s' => exists T' o, Inv T' (h ++ o) s' /\ stable T T') s.
Proof.
  induction n as [|n IH]; intros T h s HI; simpl.
  - apply wp_ret. exists T, []. by rewrite app_nil_r.
  - apply wp_bind. wp_use (by apply (wp_route_work T h)). intros r s1 (T1 & o1 & H1 & Hs1).
    eapply wp_conseq; [by apply (IH T1 (h ++ o1))|]. intros [] s2 (T2 & o2 & H2 & Hs2). exists T2, (o1 ++ o2).
    rewrite app_assoc. split; [done|]. by transitivity T1.
Qed.

#[export] Instance with_router_laws turns P : @OwnLaws P -> @OwnLaws (with_router turns P).
Proof.
  intros L. split.
  - apply (law_nexthop (H := P)).
  - apply (law_callback (H := P)).
  - intros T h s n HI. pose proof (wp_router_turns (H := P) (turns n) T h s HI) as Hw. unfold wp in Hw.
    simpl. by destruct (router_turns _ s).
Qed.

(** ** Initialisation *)

(** The configuration [csp_init] settles on. *)
Definition valid_conf (c : csp_conf) : csp_conf :=
  let c := if (version c =? 0) || (2 <? version c) then set_version 2 c else c in
  if CSP_DEDUP_ALL <? conf_dedup c then set_conf_dedup CSP_DEDUP_OFF c else c.

Definition conf_bits (c : csp_conf) : Z := if version c =? 2 then CSP_ID2_HOST_SIZE else CSP_ID1_HOST_SIZE.

(** Everything but the buffer pool, and everything but the connections. *)
Definition but_pool (s : node) : node := set_pool [] (set_csp_buffers (Queue 0 []) s).
Definition but_conns (s : node) : node := set_arr_conn [] s.

Lemma keeps_buffer_init : keeps but_pool csp_buffer_init.
Proof. unfold csp_buffer_init. keeps_tac. Qed.

Lemma keeps_conn_init : keeps but_conns csp_conn_init.
Proof. unfold csp_conn_init, csp_rdp_init, mod_rdp. keeps_tac. Qed.

Lemma conn_init_run s : length (arr_conn s) = CSP_CONN_MAX ->
  wp csp_conn_init (fun _ s' => length (arr_conn s') = CSP_CONN_MAX /\
    forall c x, arr_conn s' !! c = Some x -> conn_state x = CONN_CLOSED /\ conn_rxq x = q_create CSP_CONN_RXQUEUE_LEN) s.
Proof.
  intros Hl. set (I i s := length (arr_conn s) = CSP_CONN_MAX /\ forall c x, arr_conn s !! c = Some x ->
    (c < i)%nat -> conn_state x = CONN_CLOSED /\ conn_rxq x = q_create CSP_CONN_RXQUEUE_LEN).
  apply (wp_mono _ (fun _ s' => I CSP_CONN_MAX s')).
  { intros [] s' [Hl' Hc]. split; [done|]. intros c x Hx. apply (Hc c x Hx). apply lookup_lt_Some in Hx. lia. }
  unfold csp_conn_init. apply (wp_for_loop I _ CSP_CONN_MAX 0).
  { split; [done|]. intros c x Hx. lia. }
  intros j s1 Hj [Hl1 Hc]. destruct (lookup_lt_is_Some_2 (arr_conn s1) j) as [x Hx]; [lia|].
  apply wp_bind. unfold wp at 1, mod_conn. rewrite Hx. unfold csp_rdp_init, mod_rdp. apply wp_bind, wp_gets.
  unfold wp, mod_conn. simpl. rewrite list_lookup_insert_eq by lia. unfold I. simpl. rewrite !length_insert.
  split; [done|]. intros c y Hy. rewrite list_insert_insert_eq in Hy. destruct (decide (j = c)) as [<-|].
  - rewrite list_lookup_insert_eq in Hy by lia. by simplify_eq/=.
  - rewrite list_lookup_insert_ne in Hy by done. intros. apply (Hc c y Hy). lia.
Qed.

(** The last steps of [csp_init]: the loopback interface becomes the list. *)
Lemma init_lo_run s lo more name : ifs s = lo :: more -> if_name lo = Some name -> if_next lo = None -> interfaces s = None ->
  (s ← gets id;
   mod_iface csp_if_lo (set_if_netmask (csp_id_get_host_bits s)) ;;
   csp_iflist_add (Some csp_if_lo)) s =
  Ret tt (set_interfaces (Some csp_if_lo) (set_ifs (set_if_netmask (csp_id_get_host_bits s) lo :: more) s)).
Proof.
  intros Hi Hn Hx Hh. erewrite bind_ret by reflexivity. unfold id.
  erewrite bind_ret by (apply mod_iface_at; rewrite Hi; reflexivity).
  erewrite iflist_add_run; [|rewrite Hi; reflexivity|simpl; exact Hn]. cbn [interfaces set_ifs]. rewrite Hh, Hi.
  unfold modify. do 2 f_equal. simpl. destruct lo. simpl in *. by subst.
Qed.

(** The node [csp_init] leaves, by the fields it changes. *)
Definition init_node (c : csp_conf) (P : list csp_skbf) (C : list csp_conn) (more : list csp_iface) (s : node) : node :=
  set_interfaces (Some csp_if_lo) (set_ifs (set_if_netmask (conf_bits (valid_conf c)) lo_iface :: more)
    (set_rdp_rx (q_create (CSP_RDP_MAX_WINDOW * 2)) (set_rdp_tx (q_create (CSP_RDP_MAX_WINDOW * 2))
      (set_qfifo (q_create CSP_QFIFO_LEN) (set_arr_conn C (set_pool P
        (set_csp_buffers (Queue CSP_BUFFER_COUNT (seq 0 CSP_BUFFER_COUNT)) (set_conf (valid_conf c) s)))))))).

Lemma init_run c mem conns more sockets :
  length mem = CSP_BUFFER_COUNT -> length conns = CSP_CONN_MAX ->
  wp csp_init (fun _ s' => exists P C, s' = init_node c P C more (power_up mem conns more sockets) /\
    length P = CSP_BUFFER_COUNT /\ (forall j b, P !! j = Some b -> skbf_addr b = j) /\
    length C = CSP_CONN_MAX /\
    (forall i x, C !! i = Some x -> conn_state x = CONN_CLOSED /\ conn_rxq x = q_create CSP_CONN_RXQUEUE_LEN))
  (set_conf c (power_up mem conns more sockets)).
Proof.
  intros Hm Hc. unfold csp_init. apply wp_bind, wp_modify.
  set (s0 := set_conf _ (set_conf c _)). set (pu := power_up _ _ _ _).
  assert (Es0 : s0 = set_conf (valid_conf c) pu) by reflexivity. clearbody s0.
  apply wp_bind. eapply wp_conseq; [apply (wp_keeps but_pool); [apply keeps_buffer_init|apply buffer_init_run; by rewrite Es0]|].
  cbv beta. intros [] s1 [(Hl1 & Ha1 & Hq1) Hk1].
  assert (Es1 : s1 = set_pool (pool s1) (set_csp_buffers (csp_buffers s1) s0)).
  { transitivity (set_pool (pool s1) (set_csp_buffers (csp_buffers s1) (but_pool s1))); [by destruct s1|]. by rewrite Hk1. }
  rewrite Hq1 in Es1. apply wp_bind.
  eapply wp_conseq; [apply (wp_keeps but_conns); [apply keeps_conn_init|apply conn_init_run]|].
  { rewrite Es1, Es0. exact Hc. }
  cbv beta. intros [] s2 [(Hl2 & Hc2) Hk2].
  assert (Es2 : s2 = set_arr_conn (arr_conn s2) s1).
  { transitivity (set_arr_conn (arr_conn s2) (but_conns s2)); [by destruct s2|]. by rewrite Hk2. }
  apply wp_bind, wp_modify. apply wp_bind. unfold csp_rdp_queue_init. apply wp_bind, wp_modify. apply wp_modify.
  set (s3 := set_rdp_rx _ _).
  assert (Es3 : s3 = set_rdp_rx (q_create (CSP_RDP_MAX_WINDOW * 2)) (set_rdp_tx (q_create (CSP_RDP_MAX_WINDOW * 2))
    (set_qfifo (q_create CSP_QFIFO_LEN) (set_arr_conn (arr_conn s2) (set_pool (pool s1)
      (set_csp_buffers (Queue CSP_BUFFER_COUNT (seq 0 CSP_BUFFER_COUNT)) (set_conf (valid_conf c) pu)))))))
    by (unfold s3; rewrite Es2, Es1, Es0; reflexivity).
  clearbody s3. unfold wp. rewrite (init_lo_run s3 lo_iface more lo_name) by (by rewrite ?Es3).
  exists (pool s1), (arr_conn s2). split; [|done]. unfold init_node. rewrite Es3. reflexivity.
Qed.

Lemma flat_map_nil {A B} (f : A -> list B) l : (forall i x, l !! i = Some x -> f x = []) -> flat_map f l = [].
Proof.
  induction l as [|x l IH]; intros Hf; [done|]. simpl. rewrite (Hf 0%nat x eq_refl), IH; [done|].
  intros i y Hy. exact (Hf (S i) y Hy).
Qed.

(** An interface table and sockets the application may have before [csp_init]. *)
Definition fresh_ifs (c : csp_conf) (more : list csp_iface) : Prop :=
  forall i x, more !! i = Some x -> 0 <= if_netmask x <= conf_bits (valid_conf c).
Definition fresh_socks (sockets : list csp_socket) : Prop := forall k x, sockets !! k = Some x -> sock_rxq x = None.

Lemma init_config_ok c P C more mem conns sockets : fresh_ifs c more ->
  config_ok (config_of (init_node c P C more (power_up mem conns more sockets))).
Proof.
  intros Hi. split; simpl.
  - exists [0%nat]. eapply chain_cons; [reflexivity|]. simpl. constructor.
  - intros i x Hx. change (cf_bits _) with (conf_bits (valid_conf c)).
    assert (Hb : 0 <= conf_bits (valid_conf c)) by (unfold conf_bits, CSP_ID2_HOST_SIZE, CSP_ID1_HOST_SIZE; destruct (_ =? _); lia).
    destruct i as [|i]; simpl in Hx; [by simplify_eq/=|]. rewrite map_lookup in Hx.
    destruct (more !! i) as [y|] eqn:E; simplify_eq/=. by apply (Hi i).
  - intros j r _ Hj. change (Z.to_nat 0) with 0%nat in Hj. lia.
  - unfold CSP_RTABLE_SIZE. simpl. lia.
  - intros j k Hj%list_elem_of_lookup_2. apply (elem_of_replicate (CSP_PORT_MAX_BIND + 2)) in Hj. by destruct Hj.
  - unfold valid_if, csp_if_lo. simpl. lia.
  - done.
  - intros i [Hj|Hj]; discriminate.
  - intros l i x Hl Hi' Hx. inversion Hl as [|? y ? Hy Hn]; subst. simpl in Hy. injection Hy as <-.
    inversion Hn; subst. apply list_elem_of_singleton in Hi' as ->. by injection Hx as <-.
  - done.
Qed.

Lemma init_refs c P C more mem conns sockets : fresh_socks sockets ->
  (forall i x, C !! i = Some x -> conn_state x = CONN_CLOSED /\ conn_rxq x = q_create CSP_CONN_RXQUEUE_LEN) ->
  refs (init_node c P C more (power_up mem conns more sockets)) = [].
Proof.
  intros Hk Hc. set (s := init_node _ _ _ _ _). unfold refs. change (arr_conn s) with C. change (socks s) with sockets.
  rewrite (flat_map_nil conn_refs C) by (intros i x Hx; unfold conn_refs; by rewrite (proj2 (Hc i x Hx))).
  rewrite (flat_map_nil sock_refs sockets) by (intros i x Hx; unfold sock_refs; by rewrite (Hk i x Hx)). reflexivity.
Qed.

Lemma init_node_inv c P C more mem conns sockets :
  fresh_ifs c more -> fresh_socks sockets ->
  length P = CSP_BUFFER_COUNT -> (forall j b, P !! j = Some b -> skbf_addr b = j) -> length C = CSP_CONN_MAX ->
  (forall i x, C !! i = Some x -> conn_state x = CONN_CLOSED /\ conn_rxq x = q_create CSP_CONN_RXQUEUE_LEN) ->
  exists T, Inv T [] (init_node c P C more (power_up mem conns more sockets)).
Proof.
  intros Hi Hk HP Ha HC Hc. pose proof (init_refs c P C more mem conns sockets Hk Hc) as Hr. set (s := init_node _ _ _ _ _) in *.
  exists (config_of s). constructor.
  - done.
  - by apply init_config_ok.
  - done.
  - exact Ha.
  - intros p Hlt. rewrite Hr, !cnt_nil. change (q_items (csp_buffers s)) with (seq 0 CSP_BUFFER_COUNT).
    assert (Hle : (cnt p (seq 0 CSP_BUFFER_COUNT) <= 1)%nat) by apply cnt_nodup, NoDup_seq.
    assert (Hge : (1 <= cnt p (seq 0 CSP_BUFFER_COUNT))%nat) by (apply cnt_pos, elem_of_seq; lia). lia.
  - done.
  - intros p [Hp|Hp]; [by apply not_elem_of_nil in Hp|]. rewrite Hr in Hp. by apply not_elem_of_nil in Hp.
  - intros p Hp. apply (elem_of_seq 0 CSP_BUFFER_COUNT) in Hp. lia.
  - intros p Hp. by apply not_elem_of_nil in Hp.
  - intros i d Hd. change (kiss s) with (@nil (option csp_kiss)) in Hd. by rewrite lookup_nil in Hd.
  - intros []; simpl; unfold q_size; simpl; lia.
  - intros i p Hp. by apply not_elem_of_nil in Hp.
  - done.
  - intros i x k Hx Ho Hd. destruct (Hc i x Hx). congruence.
  - intros k x Hx. unfold sock_ok, sock_items. by rewrite (Hk k x Hx).
  - simpl. lia.
  - simpl. unfold CSP_DBG_ERR_ALREADY_FREE, CSP_DBG_ERR_CORRUPT_BUFFER. lia.
Qed.

(** ** The node as a transition system

    The router, the bridge, the drivers and the application take turns; each
    turn is one of the operations below.  The list [h] holds the packets that
    are in the hands of the application and of the drivers. *)

Inductive op :=
| OpRoute
| OpBridge
| OpGet
| OpFill (p : nat) (payload : list Z)
| OpFree (p : nat)
| OpInput (p i : nat)
| OpConnect (prio dest port opts : Z)
| OpSend (c p : nat)
| OpSendto (prio dest dport sport opts : Z) (p : nat)
| OpRead (c : nat) (timeout : Z)
| OpClose (c : nat)
| OpClone (p : nat)
| OpAccept (k : nat) (timeout : Z)
| OpRecvfrom (k : nat) (timeout : Z)
| OpReply (request reply : nat) (opts : Z)
| OpTransaction (prio dest port timeout : Z) (out : list Z) (inlen opts : Z)
| OpTap (timeout : Z)
| OpSerial (i : nat) (bytes : list Z) (isr : bool)
| OpConf (o : conf_op).

Definition given (p : nat) (h : list nat) : list nat := filter (fun q => q <> p) h.

Section System.
Context `{OwnLaws}.

(** What the operation does, and who holds which packets after it. *)
Definition run_op (o : op) (h : list nat) : M (list nat) :=
  match o with
  | OpRoute => _ ← csp_route_work; mret h
  | OpBridge => csp_bridge_work ;; mret h
  | OpGet => r ← csp_buffer_get; mret (opt_held r h)
  | OpFill p payload => write_mem p 0 payload ;; mod_pkt p (set_pkt_length (zlen payload)) ;; mret h
  | OpFree p => csp_buffer_free (Some p) ;; mret (given p h)
  | OpInput p i => csp_qfifo_write (Some p) (Some i) false ;; mret (given p h)
  | OpConnect prio dest port opts => _ ← csp_connect prio dest port opts; mret h
  | OpSend c p => csp_send 0 (Some c) (Some p) ;; mret (given p h)
  | OpSendto prio dest dport sport opts p => csp_sendto prio dest dport sport opts p ;; mret (given p h)
  | OpRead c timeout => r ← csp_read (Some c) timeout; mret (opt_held r h)
  | OpClose c => _ ← csp_close (Some c); mret h
  | OpClone p => r ← csp_buffer_clone (Some p); mret (opt_held r h)
  | OpAccept k timeout => _ ← csp_accept (Some k) timeout; mret h
  | OpRecvfrom k timeout => r ← csp_recvfrom (Some k) timeout; mret (opt_held r h)
  | OpReply r p opts => csp_sendto_reply (Some r) p opts ;; mret (given p h)
  | OpTransaction prio dest port timeout out inlen opts => _ ← csp_transaction_w_opts 0 prio dest port timeout out inlen opts; mret h
  | OpTap timeout => r ← csp_promisc_read timeout; mret (opt_held r h)
  | OpSerial i bytes isr => csp_kiss_rx i bytes isr ;; mret h
  | OpConf o => run_conf o ;; mret h
  end.

(** When it may be called: on packets the caller holds, on interfaces,
    connections and sockets that exist; [csp_send] when the RDP window is open
    (otherwise it blocks), [csp_accept] on a socket for connections, a
    transaction without RDP, and the bytes of a serial line when a buffer is
    free for each frame they can start. *)
Definition allowed (o : op) (h : list nat) (s : node) : Prop :=
  match o with
  | OpRoute | OpBridge | OpGet | OpConnect _ _ _ _ | OpTap _ => True
  | OpFill p payload => p ∈ h /\ zlen payload <= CSP_BUFFER_SIZE
  | OpFree p | OpSendto _ _ _ _ _ p | OpClone p => p ∈ h
  | OpInput p i => p ∈ h /\ (i < length (ifs s))%nat
  | OpSend c p => p ∈ h /\ exists x, arr_conn s !! c = Some x /\ sendable x
  | OpRead c _ | OpClose c => (c < CSP_CONN_MAX)%nat
  | OpAccept k _ => exists x, socks s !! k = Some x /\ sock_opts x &.& CSP_SO_CONN_LESS = false
  | OpRecvfrom k _ => (k < length (socks s))%nat
  | OpReply r p _ => p ∈ h /\ r ∈ h
  | OpTransaction _ _ _ _ _ _ opts => plain opts s
  | OpSerial i bytes _ => (i < length (ifs s))%nat /\ (exists d, kiss s !! i = Some (Some d)) /\
      (length (filter (fun b => b = FEND) bytes) <= q_size (csp_buffers s))%nat
  | OpConf o => conf_allowed o s
  end.

Lemma Inv_given T h o s p : Inv T (h ++ o) s -> p ∈ h -> Inv T (p :: given p h ++ o) s.
Proof.
  intros HI Hp. apply (Inv_perm T (h ++ o)); [|done]. intros q. rewrite cnt_cons, !cnt_app. unfold given.
  pose proof (own_le _ _ _ p HI) as Ho. rewrite cnt_app in Ho. apply cnt_pos in Hp.
  destruct (Nat.eq_dec p q) as [<-|Hne].
  - rewrite (proj2 (cnt_zero p (filter _ h))); [lia|]. intros Hin. apply list_elem_of_filter in Hin. by destruct Hin.
  - simpl. f_equal. clear Ho Hp HI. induction h as [|y h IH]; [done|]. rewrite filter_cons, cnt_cons.
    destruct (decide (y <> p)) as [|E]; [rewrite cnt_cons; lia|]. destruct (Nat.eq_dec y q); [|lia].
    destruct E. congruence.
Qed.

(** Operations that may wait for ever when what they wait for does not come: an
    RDP connection whose peer does not answer, a wait without timeout.  (A read
    waits at least as long as the RDP timeout of its connection.) *)
Definition may_wait (o : op) (s : node) : Prop :=
  match o with
  | OpConnect _ _ _ opts => ~ plain opts s
  | OpRead c timeout => exists x, arr_conn s !! c = Some x /\ read_timeout timeout x = CSP_MAX_TIMEOUT
  | OpAccept _ timeout | OpRecvfrom _ timeout | OpTap timeout => timeout = CSP_MAX_TIMEOUT
  | OpTransaction _ _ _ timeout _ inlen _ => inlen <> 0 /\ timeout <> 0
  | _ => False
  end.

Lemma wl_then `{WaitLogic w} {A} (m : M A) (f : A -> list nat) s : w _ m (fun a s' => WF (f a) s') s ->
  w _ (r ← m; mret (f r)) (fun h s' => WF h s') s.
Proof. intros Hm. apply wl_bind. eapply wl_conseq; [exact Hm|]. cbv beta. intros a s' Hs. by apply wl_ret. Qed.

Lemma WF_clone T h others s p : Inv T (h ++ others) s -> p ∈ h -> wp (csp_buffer_clone (Some p)) (fun r s' => WF (opt_held r h) s') s.
Proof.
  intros HI Hp. wp_use (apply (wp_buffer_clone T (h ++ others)); [done|apply elem_of_app; by left]). intros [c|] s1 H1; by exists T, others.
Qed.

Lemma WF_reply T h others s r p opts : Inv T (h ++ others) s -> p ∈ h -> r ∈ h ->
  wp (csp_sendto_reply (Some r) p opts) (fun _ s' => WF (given p h) s') s.
Proof.
  intros HI Hp Hr. apply (wp_WF _ T _ others), wp_sendto_reply; [by apply Inv_given|].
  destruct (decide (r = p)) as [->|]; [by left|]. right. apply elem_of_app. left. by apply list_elem_of_filter.
Qed.

Lemma WF_kiss_rx T h others s i d bytes isr : Inv T (h ++ others) s -> (i < length (ifs s))%nat -> kiss s !! i = Some (Some d) ->
  (length (filter (fun b => b = FEND) bytes) <= q_size (csp_buffers s))%nat -> wp (csp_kiss_rx i bytes isr) (fun _ s' => WF h s') s.
Proof.
  intros HI Hi Hd Hn. assert (Hv : valid_if T i) by (unfold valid_if; rewrite <- (inv_conf _ _ _ HI); simpl; by rewrite length_map).
  eapply wp_conseq; [apply (wp_kiss_rx T (h ++ others) i Hv isr bytes s 0 s d); [by constructor; [..|lia]|done]|].
  intros [] s' (d' & [H1 _ _]). by exists T, others.
Qed.

(** Its waits are of the kind the logic [w] admits. *)
Definition waits_ok w `{WaitLogic w} (o : op) (s : node) : Prop :=
  match o with
  | OpConnect _ _ _ opts => plain opts s \/ forall t, wl_may w t
  | OpRead c timeout => forall x, arr_conn s !! c = Some x -> wl_may w (read_timeout timeout x)
  | OpAccept _ timeout | OpRecvfrom _ timeout | OpTap timeout => wl_may w timeout
  | OpTransaction _ _ _ timeout _ inlen _ => inlen <> 0 -> forall x, wl_may w (read_timeout timeout x)
  | _ => True
  end.

Lemma op_wl `{WaitLogic w} o h s : WF h s -> allowed o h s -> waits_ok w o s -> w _ (run_op o h) (fun h' s' => WF h' s') s.
Proof.
  intros Hs Ha Hwait. pose proof Hs as (T & others & HI). destruct o; cbn [run_op allowed waits_ok] in Ha, Hwait |- *.
  - apply (wl_then _ (fun _ => h)), wl_wp. by apply route_work_wp.
  - apply (wl_then _ (fun _ => h)), wl_wp. by apply bridge_work_wp.
  - apply (wl_then _ (fun r => opt_held r h)), wl_wp.
    wp_use (by apply wp_buffer_get). intros [p|] s1 [H2 _]; by exists T, others.
  - destruct Ha as [Hp Hl]. assert (Hp' : p ∈ h ++ others) by (apply elem_of_app; by left).
    destruct (live_pkt s p) as (k & Hk & Hok); [by eapply Inv_live_h|].
    apply wl_seq. wp_use (by eapply (wp_write_mem T (h ++ others))). intros [] s1 [H2 (m & Hm)].
    apply (wl_then _ (fun _ => h)), wl_wp. apply (wp_WF _ T h others), wp_mod_pkt; [done|done|].
    intros k' [Hm' _]. split; [done|]. simpl. lia.
  - apply (wl_then _ (fun _ => given p h)), wl_wp. by apply (wp_WF _ T _ others), wp_free, Inv_given.
  - destruct Ha as [Hp Hi]. apply (wl_then _ (fun _ => given p h)), wl_wp.
    apply (wp_WF _ T _ others), wp_qfifo_write; [by apply Inv_given|]. unfold valid_if.
    rewrite <- (inv_conf _ _ _ HI). simpl. by rewrite length_map.
  - apply (wl_then _ (fun _ => h)). eapply wl_conseq; [by apply (WF_connect _ _ _ _ h)|]. by intros r s1 [H2 _].
  - destruct Ha as (Hp & x & Hx & Hsend). apply (wl_then _ (fun _ => given p h)), wl_wp.
    apply (wp_WF _ T _ others). eapply wp_send; [by apply Inv_given| |done|done].
    rewrite <- (inv_conns _ _ _ HI). by eapply lookup_lt_Some.
  - apply (wl_then _ (fun _ => given p h)), wl_wp. by apply (wp_WF _ T _ others), wp_sendto, Inv_given.
  - apply (wl_then _ (fun r => opt_held r h)). by apply WF_read.
  - apply (wl_then _ (fun _ => h)), wl_wp. by apply (wp_WF _ T _ others), wp_conn_close.
  - apply (wl_then _ (fun r => opt_held r h)), wl_wp. by apply (WF_clone T _ others).
  - destruct Ha as (x & Hx & Ho). apply (wl_then _ (fun _ => h)). eapply wl_conseq; [by eapply (WF_accept k)|]. by intros r s1 [H2 _].
  - destruct (lookup_lt_is_Some_2 _ _ Ha) as [x Hx]. apply (wl_then _ (fun r => opt_held r h)). by eapply WF_recvfrom.
  - destruct Ha as [Hp Hr]. apply (wl_then _ (fun _ => given reply h)), wl_wp. by apply (WF_reply T _ others).
  - apply (wl_then _ (fun _ => h)). apply WF_transaction_w_opts; [done|done|]. intros Hn. left. by apply Hwait.
  - apply (wl_then _ (fun r => opt_held r h)). by apply WF_promisc_read.
  - destruct Ha as (Hi & (d & Hd) & Hn). apply (wl_then _ (fun _ => h)), wl_wp. by eapply (WF_kiss_rx T h others).
  - apply (wl_then _ (fun _ => h)), wl_wp. by apply conf_wp.
Qed.

Lemma op_wpw o h s : WF h s -> allowed o h s -> wpw (run_op o h) (fun h' s' => WF h' s') s.
Proof. intros Hs Ha. apply op_wl; [done|done|]. destruct o; cbn; auto. Qed.

Lemma may_wait_cases o s : may_wait o s \/ waits_ok (@wp) o s.
Proof.
  destruct o; cbn; auto; try (destruct (decide (timeout = CSP_MAX_TIMEOUT)); by auto).
  - destruct (connect_flags (connect_opts (Z.lor opts (conn_dfl_so (conf s)))) &.& CSP_FRDP) eqn:E; [left|right; by left].
    unfold plain. by rewrite E.
  - destruct (arr_conn s !! c) as [x|]; [|by right]. destruct (decide (read_timeout timeout x = CSP_MAX_TIMEOUT)); [by eauto|].
    right. by intros ? [= <-].
  - destruct (decide (inlen = 0)), (decide (timeout = 0)) as [->|]; auto.
Qed.

(** The states a node goes through, from power-up and [csp_init]. *)
Inductive reach : list nat -> node -> Prop :=
| reach_init c mem conns more sockets s :
    length mem = CSP_BUFFER_COUNT -> length conns = CSP_CONN_MAX ->
    fresh_ifs c more -> fresh_socks sockets ->
    csp_init (set_conf c (power_up mem conns more sockets)) = Ret tt s ->
    reach [] s
| reach_step h s o h' s' :
    reach h s -> allowed o h s -> run_op o h s = Ret h' s' -> reach h' s'.

Lemma reach_WF h s : reach h s -> WF h s.
Proof.
  induction 1 as [c mem conns more sockets s Hm Hc Hi Hk Hrun|h s o h' s' _ IH Ha Hrun].
  - pose proof (init_run c mem conns more sockets Hm Hc) as Hw. apply wp_run in Hw as ([] & s1 & Hr & P & C & -> & HP & Ha & HC & Hx).
    rewrite Hrun in Hr. simplify_eq.
    destruct (init_node_inv c P C more mem conns sockets) as [T HI]; [done..|]. by apply (WF_intro T).
  - destruct (op_wpw o h s IH Ha) as [Hw|Hw]; [congruence|]. unfold wp in Hw. by rewrite Hrun in Hw.
Qed.

(** Every buffer is in one place at most: held outside the stack, in a queue of
    the stack, or free. *)
Definition exclusive (h : list nat) (s : node) : Prop :=
  forall p, (cnt p h + cnt p (refs s) + cnt p (q_items (csp_buffers s)) <= 1)%nat.

(** The buffer pool never saw a double free or a foreign pointer. *)
Definition pool_unharmed (s : node) : Prop :=
  dbg_errno (dbg s) <> CSP_DBG_ERR_ALREADY_FREE /\ dbg_errno (dbg s) <> CSP_DBG_ERR_CORRUPT_BUFFER.

Lemma op_safe h s o : WF h s -> allowed o h s ->
  (exists h' s', run_op o h s = Ret h' s' /\ exclusive h' s' /\ pool_unharmed s') \/ (may_wait o s /\ run_op o h s = Wait).
Proof.
  intros Hs Ha. assert (Hret : forall h' s', run_op o h s = Ret h' s' -> WF h' s' ->
    exists h' s', run_op o h s = Ret h' s' /\ exclusive h' s' /\ pool_unharmed s').
  { intros h' s' Hrun (T & others & HI). exists h', s'. split; [done|]. split; [|exact (inv_errno _ _ _ HI)].
    intros p. pose proof (own_le _ _ _ p HI) as Hle. rewrite cnt_app in Hle. lia. }
  destruct (may_wait_cases o s) as [Hm|Hm].
  - destruct (op_wpw o h s Hs Ha) as [Hw|Hw]; [by right|]. apply wp_run in Hw as (h' & s' & Hrun & Hw). left. by eapply Hret.
  - pose proof (op_wl (w := @wp) o h s Hs Ha Hm) as Hw. apply wp_run in Hw as (h' & s' & Hrun & Hw). left. by eapply Hret.
Qed.

(** C1. System safety.  In every state a node can reach from power-up, with any
    contents of the buffer and connection memory, through [csp_init] and any
    interleaving of router turns, bridge turns, packets and serial bytes handed
    in by drivers, calls of the application and changes of the configuration,
    every operation that may be called ([allowed]) returns: it accesses no memory
    it should not, no loop runs for ever, the buffer pool is not used up where
    that stops the node.  Afterwards every buffer is still in one place at most
    and no buffer was ever freed twice.  Only an operation that waits ([may_wait])
    may stay in its wait: a wait without timeout, a transaction for a reply, the
    handshake of RDP.  Signed overflow, which a peer can bring about in
    [csp_rdp_check_ack] by a window of 2^30 or more, gives some number
    ([plat_overflow]). *)
Theorem system_safe h s o : reach h s -> allowed o h s ->
  (exists h' s', run_op o h s = Ret h' s' /\ exclusive h' s' /\ pool_unharmed s') \/ (may_wait o s /\ run_op o h s = Wait).
Proof. intros Hr Ha. by apply op_safe, Ha; apply reach_WF. Qed.

(** One turn of the router, on any well-formed node: it returns
    [CSP_ERR_NONE] or [CSP_ERR_TIMEDOUT], the packets others hold are left to
    them, the router keeps hold of none, and the node is well formed again. *)
Theorem route_work_safe h s : WF h s ->
  exists r s', csp_route_work s = Ret r s' /\ (r = CSP_ERR_NONE \/ r = CSP_ERR_TIMEDOUT) /\ WF h s'.
Proof.
  intros Hs. pose proof (route_work_wp h s Hs) as Hw. apply wp_run in Hw as (r & s' & Hr & Hs').
  exists r, s'. split; [done|]. split; [|done].
  unfold csp_route_work in Hr. apply bind_Ret in Hr as (? & s1 & _ & Hr). apply bind_Ret in Hr as (i & s2 & _ & Hr).
  destruct i as [[[i|] [p|]]|]; try (injection Hr; auto); [|discriminate].
  apply bind_Ret in Hr as (? & s3 & _ & Hr). injection Hr. auto.
Qed.

(** C6. Every buffer is accounted for: the router's work on one packet returns,
    and the packet is then in exactly one queue, or free, or gone with a driver
    or callback that freed it; so is every buffer the router took meanwhile,
    but for one at most: the SYN+ACK whose retransmission copy could not be
    allocated ([csp_rdp_send_cmp]). *)
Theorem route_packet_accounts T h s i p : Inv T (p :: h) s -> valid_if T i ->
  exists s' T' lost, route_packet i p s = Ret tt s' /\ (length lost <= 1)%nat /\ Inv T' (h ++ lost) s'.
Proof.
  intros HI Hi. pose proof (wp_route_packet T h s i p HI Hi) as Hw.
  apply wp_run in Hw as ([] & s' & Hr & T' & _ & L & HL & HI'). by exists s', T', L.
Qed.

(** One turn of the bridge, on any well-formed node: it returns, the packets
    others hold are left to them, the bridge keeps hold of none, and the node
    is well formed again. *)
Theorem bridge_work_safe h s : WF h s -> exists s', csp_bridge_work s = Ret tt s' /\ WF h s'.
Proof.
  intros Hs. pose proof (bridge_work_wp h s Hs) as Hw. apply wp_run in Hw as ([] & s' & Hr & Hs'). by exists s'.
Qed.

(** [csp_send_direct] consumes its packet and loses nothing, on every path:
    sent on each matching interface, by the routing table, by the default
    interfaces, or freed when nothing matches or no buffer is left for a copy.
    [Inv T h] accounts for all buffers: each is in exactly one of [h], the
    queues and the pool. *)
Theorem send_direct_consumes T h s idout p from : Inv T (p :: h) s -> opt_valid T from ->
  exists r s', csp_send_direct idout p from s = Ret r s' /\ Inv T h s'.
Proof. intros HI Hf. by apply wp_run, wp_send_direct. Qed.

(** [csp_rdp_new_packet] is safe on any packet: whatever length and bytes
    the packet and whatever state of the protocol the open connection is in, it returns and consumes
    the packet; of the buffers it took, it loses one at most (a SYN+ACK without
    a retransmission copy). *)
Theorem rdp_new_packet_safe T h s c p x : Inv T (p :: h) s -> arr_conn s !! c = Some x -> conn_state x = CONN_OPEN \/ dest_ok T x ->
  exists close s' lost, csp_rdp_new_packet c p s = Ret close s' /\ (length lost <= 1)%nat /\ Inv T (h ++ lost) s'.
Proof.
  intros HI Hx Hd. assert (Hc : (c < CSP_CONN_MAX)%nat) by (rewrite <- (inv_conns _ _ _ HI); by eapply lookup_lt_Some).
  pose proof (wp_rdp_new_packet T h s c p HI Hc (open_dest _ _ _ _ _ HI Hx Hd)) as Hw. apply wp_run in Hw as (close & s' & Hr & L & HL & HI').
  by exists close, s', L.
Qed.

End System.

(** [csp_init] returns a node that satisfies the invariant. *)
Lemma init_inv c mem conns more sockets :
  length mem = CSP_BUFFER_COUNT -> length conns = CSP_CONN_MAX ->
  fresh_ifs c more -> fresh_socks sockets ->
  exists s', csp_init (set_conf c (power_up mem conns more sockets)) = Ret tt s' /\ exists T, Inv T [] s'.
Proof.
  intros Hm Hc Hi Hk. pose proof (init_run c mem conns more sockets Hm Hc) as Hw.
  apply wp_run in Hw as ([] & s1 & Hr & P & C & -> & HP & Ha & HC & Hx). eexists. split; [exact Hr|]. by apply init_node_inv.
Qed.

(** C2. [csp_init] from any contents of the buffer and connection memory, which is
    not initialised at power-up, sets up a well-formed node: every buffer is free,
    no connection holds a packet, the version is valid, and the loopback interface
    with a netmask of all host bits is the interface list. *)
Theorem init_establishes c mem conns more sockets :
  length mem = CSP_BUFFER_COUNT -> length conns = CSP_CONN_MAX ->
  fresh_ifs c more -> fresh_socks sockets ->
  exists s', csp_init (set_conf c (power_up mem conns more sockets)) = Ret tt s' /\ (exists T, Inv T [] s') /\
    q_items (csp_buffers s') = seq 0 CSP_BUFFER_COUNT /\ refs s' = [] /\ conf s' = valid_conf c /\
    iflist s' [csp_if_lo] /\ ifs s' = set_if_netmask (csp_id_get_host_bits s') lo_iface :: more.
Proof.
  intros Hm Hc Hi Hk. pose proof (init_run c mem conns more sockets Hm Hc) as Hw.
  apply wp_run in Hw as ([] & s1 & Hr & P & C & -> & HP & Ha & HC & Hx). eexists. split; [exact Hr|].
  split; [by apply init_node_inv|]. split; [done|]. split; [by apply init_refs|]. split; [done|]. split; [|done].
  eapply chain_cons; [reflexivity|]. simpl. constructor.
Qed.

(** ** Witnesses *)

(** A platform with a driver that sends the frame and frees the packet, a
    callback that frees its packet, and the loopback driver. *)
Definition sink_platform : Platform := {|
  plat_ms n := Z.of_nat n * 10;
  plat_rand z := z;
  plat_yield _ s := s;
  plat_nexthop _ _ _ p _ := csp_buffer_free (Some p) ;; mret CSP_ERR_NONE;
  plat_callback _ p := csp_buffer_free (Some p);
  plat_overflow := i32;
  CSP_USE_RTABLE := true
|}.

#[export] Instance sink_laws : @OwnLaws sink_platform.
Proof.
  split.
  - intros T h s k i via p from_me HI Hi. simpl. apply wp_bind. wp_use (by apply (wp_free T h)).
    intros [] s1 H1. by apply wp_ret.
  - intros T h s k p HI. eapply wp_mono; [|by apply (wp_free T h)]. cbv beta. intros [] s1 H1. by exists T.
  - intros T h s n HI. exists T, []. by rewrite app_nil_r.
Qed.

#[export] Instance sink_driver : @DriverLaws sink_platform.
Proof. intros k i via p from_me. unfold plat_nexthop, sink_platform. keeps_tac. Qed.

Definition lo_platform : Platform := with_lo sink_platform.

(** A node after [csp_init], and after the application took a buffer. *)
Definition state_of {A} (m : outcome A) : node := match m with Ret _ s => s | _ => boot end.
Definition started : node := state_of (csp_init boot).
Definition started_1 : node := state_of (csp_buffer_get started).

Lemma init_establishes_witness :
  exists s', csp_init boot = Ret tt s' /\ (exists T, Inv T [] s') /\ iflist s' [csp_if_lo].
Proof.
  destruct (init_establishes (conf boot) (pool boot) (arr_conn boot) [] []) as (s' & Hrun & Hs & _ & _ & _ & Hl & _).
  - reflexivity.
  - reflexivity.
  - intros i x Hx. discriminate.
  - intros k x Hx. discriminate.
  - exists s'. split; [exact Hrun|]. split; [exact Hs|exact Hl].
Defined.

Lemma started_reach : @reach lo_platform [] started.
Proof.
  apply (reach_init (conf boot) (pool boot) (arr_conn boot) [] []).
  - reflexivity.
  - reflexivity.
  - intros i x Hx. discriminate.
  - intros k x Hx. discriminate.
  - vm_compute. reflexivity.
Qed.

Lemma started_1_reach : @reach lo_platform [0%nat] started_1.
Proof.
  apply (reach_step [] started OpGet); [exact started_reach|exact I|]. vm_compute. reflexivity.
Qed.

Lemma started_1_WF : WF [0%nat] started_1.
Proof. apply (reach_WF (H := lo_platform)). exact started_1_reach. Qed.

Lemma system_safe_witness :
  exists h' s', run_op (H := lo_platform) (OpSendto 2 0 10 20 CSP_O_CRC32 0) [0%nat] started_1 = Ret h' s' /\ exclusive h' s'.
Proof.
  destruct (system_safe (H := lo_platform) [0%nat] started_1 (OpSendto 2 0 10 20 CSP_O_CRC32 0)) as [(h' & s' & Hr & He & _)|[[] _]].
  - exact started_1_reach.
  - apply list_elem_of_singleton. reflexivity.
  - exists h', s'. split; [exact Hr|exact He].
Defined.

(** The packet sent to address 0 comes back through the loopback interface;
    the router drops it, for no socket is bound to its port. *)
Example loopback_turn :
  match run_op (H := lo_platform) (OpSendto 2 0 10 20 CSP_O_CRC32 0) [0%nat] started_1 with
  | Ret _ s1 =>
      match csp_route_work (H := lo_platform) s1 with
      | Ret r s2 => (q_size (qfifo s1), q_size (csp_buffers s1), r, q_size (qfifo s2), q_size (csp_buffers s2)) = (1%nat, 14%nat, 0, 0%nat, 15%nat)
      | _ => False
      end
  | _ => False
  end.
Proof. vm_compute. reflexivity. Qed.

Lemma route_work_safe_witness : exists r s', csp_route_work (H := lo_platform) started_1 = Ret r s' /\ WF [0%nat] s'.
Proof.
  destruct (route_work_safe (H := lo_platform) [0%nat] started_1 started_1_WF) as (r & s' & Hr & _ & Hs).
  exists r, s'. split; [exact Hr|exact Hs].
Defined.

Lemma bridge_work_safe_witness : exists s', csp_bridge_work (H := lo_platform) started_1 = Ret tt s' /\ WF [0%nat] s'.
Proof.
  destruct (bridge_work_safe (H := lo_platform) [0%nat] started_1 started_1_WF) as (s' & Hr & Hs).
  exists s'. split; [exact Hr|exact Hs].
Defined.

Lemma send_direct_consumes_witness :
  exists T h r s', csp_send_direct (H := lo_platform) id_zero 0 None started_1 = Ret r s' /\ Inv T h s'.
Proof.
  destruct started_1_WF as (T & o & HI).
  destruct (send_direct_consumes (H := lo_platform) T o started_1 id_zero 0 None) as (r & s' & Hr & Hs).
  - exact HI.
  - exact I.
  - exists T, o, r, s'. split; [exact Hr|exact Hs].
Defined.

Lemma rdp_new_packet_safe_witness :
  exists T h r s', csp_rdp_new_packet (H := lo_platform) 0 0 started_1 = Ret r s' /\ Inv T h s'.
Proof.
  destruct started_1_WF as (T & o & HI).
  assert (Hx : exists x, arr_conn started_1 !! 0%nat = Some x /\ dest_socket x = None) by (eexists; split; [vm_compute; reflexivity|reflexivity]).
  destruct Hx as (x & Hx & Hd). destruct (rdp_new_packet_safe (H := lo_platform) T o started_1 0 0 x) as (r & s' & L & Hr & _ & Hs).
  - exact HI.
  - exact Hx.
  - right. intros k Hk. congruence.
  - exists T, (o ++ L), r, s'. split; [exact Hr|exact Hs].
Defined.

Lemma route_packet_accounts_witness :
  exists T h s', route_packet (H := lo_platform) 0 0 started_1 = Ret tt s' /\ Inv T h s'.
Proof.
  destruct started_1_WF as (T & o & HI).
  destruct (route_packet_accounts (H := lo_platform) T o started_1 0 0) as (s' & T' & L & Hr & _ & Hs).
  - exact HI.
  - exact (cf_lo _ (inv_conf_ok _ _ _ HI)).
  - exists T', (o ++ L), s'. split; [exact Hr|exact Hs].
Defined.

(** A frame on the serial line of interface 0: header, one byte and CRC-32, all
    of it random; and a frame that is cut short. *)
Definition serial_node : node := state_of (attach_kiss 0 started).
Definition noise : list Z := [FEND; 0; 11; 12; FESC; TFEND; 14; 15; 16; 17; 18; 19; FEND; FEND; 0; 1; FEND].

Lemma wp_state_of {A} (m : M A) (Q : node -> Prop) s : wp m (fun _ s' => Q s') s -> Q (state_of (m s)).
Proof. unfold wp. by destruct (m s). Qed.

Lemma started_kiss : kiss started = [].
Proof. vm_compute. reflexivity. Qed.

Lemma serial_node_WF : WF [] serial_node.
Proof.
  unfold serial_node. apply (wp_state_of (attach_kiss 0) (WF []) started), WF_attach_kiss.
  - apply (reach_WF (H := lo_platform)). exact started_reach.
  - intros d. rewrite started_kiss. discriminate.
Qed.

Lemma serial_node_kiss : kiss serial_node !! 0%nat = Some (Some (mkKiss (Some 0%nat) KISS_MODE_NOT_STARTED 0 false None)) /\
  (length (filter (fun b => b = FEND) noise) <= q_size (csp_buffers serial_node))%nat.
Proof. split; [vm_compute; reflexivity|]. vm_compute. lia. Qed.

Lemma kiss_rx_safe_witness : exists T h s', csp_kiss_rx 0 noise false serial_node = Ret tt s' /\ Inv T h s'.
Proof.
  destruct serial_node_WF as (T & o & HI).
  destruct (kiss_rx_safe T o serial_node 0 (mkKiss (Some 0%nat) KISS_MODE_NOT_STARTED 0 false None) noise false) as (s' & Hr & Hs & _).
  - exact HI.
  - exact (cf_lo _ (inv_conf_ok _ _ _ HI)).
  - exact (proj1 serial_node_kiss).
  - exact (proj2 serial_node_kiss).
  - exists T, o, s'. split; [exact Hr|exact Hs].
Defined.

(** A server and a client on one node: the client sends to port 10 of address
    0, the server waits in [csp_accept], the router runs meanwhile, and the
    server gets the connection and the packet. *)
Definition router_platform : Platform := with_router (fun _ => 1%nat) lo_platform.

Example accept_through_router :
  match ((p ← csp_buffer_get;
          match p with
          | None => undef
          | Some p =>
              mod_pkt p (set_pkt_length 2) ;;
              run_conf (CfListen 0) ;; run_conf (CfBind 0 10) ;;
              csp_sendto (H := router_platform) 2 0 10 20 0 p ;;
              c ← csp_accept (H := router_platform) (Some 0%nat) 100;
              r ← csp_read (H := router_platform) c 0;
              mret (c, r)
          end) (set_socks [mkSocket None 0] started)) with
  | Ret r _ => r = (Some 1%nat, Some 0%nat)
  | _ => False
  end.
Proof. vm_compute. reflexivity. Qed.

(** A lost buffer: with two free buffers, [csp_rdp_send_syn] takes one, cannot
    copy it, and returns with neither sent nor freed. *)
Example syn_copy_leak :
  match csp_rdp_send_syn (H := lo_platform) 0 (set_csp_buffers (Queue CSP_BUFFER_COUNT [3; 4]%nat) started) with
  | Ret r s => (r, q_items (csp_buffers s), refs s) = (CSP_ERR_NOMEM, [4%nat], [])
  | _ => False
  end.
Proof. vm_compute. reflexivity. Qed.

(** The node with connection 0 open, a window of 2 and one packet in flight
    across the wrap-around. *)
Definition open_rdp (r : csp_rdp) : csp_rdp :=
  set_window_size 2 (set_snd_una 0xffff (set_snd_nxt 0 (set_rdp_state RDP_OPEN r))).
Definition open_node : node := state_of (mod_rdp 0 open_rdp started_1).

Lemma mod_rdp_WF h s c f : WF h s -> (c < CSP_CONN_MAX)%nat -> WF h (state_of (mod_rdp c f s)).
Proof. intros HW Hc. by apply (wp_state_of (mod_rdp c f) (WF h) s), WF_mod_rdp. Qed.

Lemma open_node_WF : WF [0%nat] open_node.
Proof. apply mod_rdp_WF; [exact started_1_WF|]. unfold CSP_CONN_MAX. lia. Qed.

Lemma open_node_conn : exists x, arr_conn open_node !! 0%nat = Some x /\ rdp_state (conn_rdp x) = RDP_OPEN /\
  snd_nxt (conn_rdp x) = 0 /\ snd_una (conn_rdp x) = 0xffff /\ window_size (conn_rdp x) = 2.
Proof. eexists. split; [vm_compute; reflexivity|]. repeat split. Qed.

Lemma open_node_pkt : exists k, pkt_at 0 open_node = Some k /\
  read_hdr 0 (pkt_length k - RDP_HEADER_SIZE) open_node = Ret (mkHdr 0 0 0) open_node.
Proof. eexists. split; [vm_compute; reflexivity|]. vm_compute. reflexivity. Qed.

Lemma rdp_send_window_witness :
  exists r s', csp_rdp_send (H := lo_platform) 0 0 0 open_node = Ret r s'.
Proof.
  destruct open_node_WF as (T & o & HI). destruct open_node_conn as (x & Hx & Ho & Hn & Hu & Hw).
  pose proof (rdp_send_window (H := lo_platform) T o open_node 0 0 0 x 1 HI Hx Ho) as Hs.
  rewrite Hn, Hu, Hw in Hs. destruct Hs as (r & s' & x' & Hrun & _); [reflexivity|lia|lia|]. exists r, s'. exact Hrun.
Defined.

Lemma rdp_transitions_witness :
  exists b s' n, csp_rdp_new_packet (H := lo_platform) 0 0 open_node = Ret b s' /\ rst 0 s' = Some n /\
    rdp_trans 0 RDP_OPEN n.
Proof.
  destruct open_node_WF as (T & o & HI). destruct open_node_conn as (x & Hx & Ho & _). destruct open_node_pkt as (k & Hk & Hh).
  assert (Hd : dest_ok T x) by (revert Hx; vm_compute; by intros [= <-] k' [=]).
  destruct (rdp_transitions (H := lo_platform) T o 0 0 open_node k (mkHdr 0 0 0) x HI Hx (or_intror Hd) Hk Hh)
    as (b & s' & n & Hr & _ & Hn & Ht & _).
  exists b, s', n. split; [exact Hr|]. split; [exact Hn|]. rewrite Ho in Ht. exact Ht.
Defined.

(** A node whose interface 1 has the data of a CAN and of an Ethernet interface. *)
Definition bus_if_at (addr : Z) : csp_iface := set_if_addr addr (set_if_name (Some [67; 65; 78]) lo_iface).
Definition bus_mac : list Z := [2; 0; 0; 0; 0; 5].
Definition bus_data (s : node) : node :=
  set_can [None; Some (mkCan 0 (Some 0%nat) None)] (set_eth [None; Some (mkEth false 100 (replicate 1500 0) None bus_mac)] s).
Definition bus_at (addr : Z) : node := bus_data (state_of (csp_init (power_up (pool boot) (arr_conn boot) [bus_if_at addr] []))).

Lemma bus_at_inv addr : Inv (config_of (bus_at addr)) [] (bus_at addr).
Proof.
  destruct (init_inv (conf boot) (pool boot) (arr_conn boot) [bus_if_at addr] []) as (s' & Hrun & T & HI).
  - reflexivity.
  - reflexivity.
  - intros [|i] x Hx; [|discriminate]. injection Hx as <-. vm_compute. split; discriminate.
  - intros k x Hx. discriminate.
  - change (set_conf _ _) with (power_up (pool boot) (arr_conn boot) [bus_if_at addr] []) in Hrun.
    assert (E : bus_at addr = bus_data s') by (unfold bus_at; by rewrite Hrun).
    rewrite E. clear E Hrun. pose proof (inv_conf _ _ _ HI) as <-. destruct HI. by constructor.
Qed.

(** Such a node at address 5. *)
Definition bus_if : csp_iface := bus_if_at 5.
Definition bus_node : node := bus_at 5.

Lemma bus_node_inv : Inv (config_of bus_node) [] bus_node.
Proof. apply bus_at_inv. Qed.

(** A packet of 13 bytes from this node to address 9. *)
Definition bus_payload : list Z := [10; 11; 12; 13; 14; 15; 16; 17; 18; 19; 20; 21; 22].
Definition bus_sender : node := state_of ((p ← csp_buffer_get;
  match p with
  | Some p => mod_pkt p (fun k => set_pkt_length 13 (set_pkt_id (mkId 2 1 5 9 10 20) k)) ;; write_mem p 0 bus_payload
  | None => mret tt
  end) bus_node).

(** A driver that takes every frame. *)
Definition good_drivers : Drivers := {| drv_tx _ := CSP_ERR_NONE |}.
