(* ===== verification/Pbuf.v ===== *)
(** * Pbuf: the lists of packets being reassembled
    ([src/interfaces/csp_if_can_pbuf.c], [src/interfaces/csp_if_eth_pbuf.c])

    A CAN or Ethernet interface keeps the packets of which fragments are still
    missing in a list: [ifdata->pbufs] is the head, [packet->next] the link.
    The two files have the same walks over the list; they are written here once
    over the device [pb_dev] that says whose head is meant, and the functions
    of each file are instances. *)

From S2P Require Import Prelude State Monad Id Buffer Own Node.

(** ** The head of the list *)

Inductive pb_dev := PbCan (i : nat) | PbEth (i : nat).

(** [ifdata->pbufs]; [None] when the interface has no such data. *)
Definition pb_head (d : pb_dev) (s : node) : option (option nat) :=
  match d with
  | PbCan i => can_pbufs <$> mjoin (can s !! i)
  | PbEth i => eth_pbufs <$> mjoin (eth s !! i)
  end.

(** [ifdata->pbufs = v] *)
Definition pb_put (d : pb_dev) (v : option nat) (s : node) : node :=
  match d with
  | PbCan i => set_can (alter (option_map (set_can_pbufs v)) i (can s)) s
  | PbEth i => set_eth (alter (option_map (set_eth_pbufs v)) i (eth s)) s
  end.

Definition pb_get (d : pb_dev) : M (option nat) := fun s =>
  match pb_head d s with Some h => Ret h s | None => Undef end.
Definition pb_set (d : pb_dev) (v : option nat) : M unit := fun s =>
  match pb_head d s with Some _ => Ret tt (pb_put d v s) | None => Undef end.

Definition PBUF_TIMEOUT_MS : Z := 1000.

(** A list without a cycle has no more elements than the pool. *)
Definition pb_fuel : nat := S CSP_BUFFER_COUNT.

(** [if (prev) prev->next = next; else ifdata->pbufs = next;] *)
Definition pb_unlink (d : pb_dev) (prev next : option nat) : M unit :=
  match prev with
  | Some q => mod_pkt q (set_pkt_next next)
  | None => pb_set d next
  end.

(** [if (task_woken == NULL) csp_buffer_free(packet); else csp_buffer_free_isr(packet);] *)
Definition pb_buffer_free (isr : bool) (p : nat) : M unit :=
  if isr then csp_buffer_free_isr (Some p) else csp_buffer_free (Some p).

(** ** The walks *)

(** The loop of [csp_can_pbuf_free] and [csp_eth_pbuf_free]. *)
Fixpoint pb_free_loop (fuel : nat) (d : pb_dev) (buffer : nat) (buf_free isr : bool) (prev packet : option nat) : M unit :=
  match packet with
  | None => mret tt
  | Some p =>
      match fuel with
      | O => undef
      | S fuel' =>
          when (Nat.eqb p buffer)
            (k ← get_pkt p;
             pb_unlink d prev (pkt_next k) ;;
             when buf_free (pb_buffer_free isr p)) ;;
          k ← get_pkt p;
          pb_free_loop fuel' d buffer buf_free isr (Some p) (pkt_next k)
      end
  end.

Definition pbuf_free (d : pb_dev) (buffer : nat) (buf_free isr : bool) : M unit :=
  packet ← pb_get d;
  pb_free_loop pb_fuel d buffer buf_free isr None packet.

(** [now - packet->last_used > PBUF_TIMEOUT_MS], on [uint32_t]. *)
Definition expired (now : Z) (k : csp_packet) : bool := PBUF_TIMEOUT_MS <? u32 (now - last_used k).

(** The loop of [csp_can_pbuf_cleanup] and [csp_eth_pbuf_cleanup]. *)
Fixpoint pb_cleanup_loop (fuel : nat) (d : pb_dev) (now : Z) (isr : bool) (prev packet : option nat) : M unit :=
  match packet with
  | None => mret tt
  | Some p =>
      match fuel with
      | O => undef
      | S fuel' =>
          k ← get_pkt p;
          when (expired now k)
            (pb_unlink d prev (pkt_next k) ;;
             pb_buffer_free isr p) ;;
          k ← get_pkt p;
          pb_cleanup_loop fuel' d now isr (Some p) (pkt_next k)
      end
  end.

Definition pbuf_cleanup (d : pb_dev) (now : Z) (isr : bool) : M unit :=
  packet ← pb_get d;
  pb_cleanup_loop pb_fuel d now isr None packet.

(** The search of [csp_can_pbuf_find] and [csp_eth_pbuf_find]. *)
Fixpoint pb_find_loop (fuel : nat) (test : csp_packet -> bool) (packet : option nat) : M (option nat) :=
  match packet with
  | None => mret None
  | Some p =>
      match fuel with
      | O => undef
      | S fuel' =>
          k ← get_pkt p;
          if test k then mret (Some p) else pb_find_loop fuel' test (pkt_next k)
      end
  end.

(** [packet->next = ifdata->pbufs; ifdata->pbufs = packet;] *)
Definition pb_push (d : pb_dev) (p : nat) : M unit :=
  h ← pb_get d;
  mod_pkt p (set_pkt_next h) ;;
  pb_set d (Some p).

(** ** [csp_if_can_pbuf.c] *)

Section Pbuf.
Context `{Platform}.

Definition csp_can_pbuf_free (i buffer : nat) (buf_free isr : bool) : M unit :=
  pbuf_free (PbCan i) buffer buf_free isr.

Definition csp_can_pbuf_cleanup (i : nat) (isr : bool) : M unit :=
  now ← csp_get_ms;
  pbuf_cleanup (PbCan i) now isr.

Definition csp_can_pbuf_new (i : nat) (id : Z) (isr : bool) : M nat :=
  csp_can_pbuf_cleanup i isr ;;
  now ← csp_get_ms;
  p ← (if isr then csp_buffer_get_always_isr else csp_buffer_get_always);
  mod_pkt p (fun k => set_remain 0 (set_cfpid id (set_last_used now k))) ;;
  pb_push (PbCan i) p ;;
  mret p.

Definition csp_can_pbuf_find (i : nat) (id mask : Z) (isr : bool) : M (option nat) :=
  packet ← pb_get (PbCan i);
  r ← pb_find_loop pb_fuel (fun k => Z.land (cfpid k) mask =? Z.land id mask) packet;
  match r with
  | None => mret None
  | Some p =>
      now ← csp_get_ms;
      mod_pkt p (set_last_used now) ;;
      mret (Some p)
  end.

(** ** [csp_if_eth_pbuf.c] *)

Definition csp_eth_pbuf_free (i buffer : nat) (buf_free isr : bool) : M unit :=
  pbuf_free (PbEth i) buffer buf_free isr.

Definition csp_eth_pbuf_cleanup (i : nat) (now : Z) (isr : bool) : M unit :=
  pbuf_cleanup (PbEth i) now isr.

Definition csp_eth_pbuf_new (i : nat) (id now : Z) (isr : bool) : M (option nat) :=
  csp_eth_pbuf_cleanup i now isr ;;
  r ← (if isr then csp_buffer_get_isr else csp_buffer_get);
  match r with
  | None => mret None
  | Some p =>
      mod_pkt p (fun k => set_frame_length 0 (set_cfpid id (set_last_used now k))) ;;
      pb_push (PbEth i) p ;;
      mret (Some p)
  end.

Definition csp_eth_pbuf_find (i : nat) (id : Z) (isr : bool) : M (option nat) :=
  now ← csp_get_ms;
  packet ← pb_get (PbEth i);
  r ← pb_find_loop pb_fuel (fun k => cfpid k =? id) packet;
  match r with
  | None => csp_eth_pbuf_new i id now isr
  | Some p => mod_pkt p (set_last_used now) ;; mret (Some p)
  end.

End Pbuf.

(** ** The list as a sequence *)

(** The buffers on the list from [h], as [packet->next] links them. *)
Inductive pchain (P : list csp_skbf) : option nat -> list nat -> Prop :=
| pchain_nil : pchain P None []
| pchain_cons p b l : P !! p = Some b -> pchain P (pkt_next (skbf_data b)) l -> pchain P (Some p) (p :: l).

(** The list of device [d] is [l]. *)
Definition pbuf_list (d : pb_dev) (l : list nat) (s : node) : Prop :=
  exists h, pb_head d s = Some h /\ pchain (pool s) h l.

Lemma pchain_fun P h l l' : pchain P h l -> pchain P h l' -> l = l'.
Proof.
  intros Hc. revert l'. induction Hc as [|p b l Hb Hc IH]; intros l' Hc'; inversion Hc' as [|? b' ? Hb']; subst; [done|].
  simplify_eq. f_equal. by apply IH.
Qed.

Lemma pbuf_list_fun d l l' s : pbuf_list d l s -> pbuf_list d l' s -> l = l'.
Proof. intros (h & Hh & Hc) (h' & Hh' & Hc'). simplify_eq. by eapply pchain_fun. Qed.

(** The list, by walking it. *)
Fixpoint pb_walk (fuel : nat) (P : list csp_skbf) (h : option nat) : list nat :=
  match fuel, h with
  | S fuel', Some p => match P !! p with Some b => p :: pb_walk fuel' P (pkt_next (skbf_data b)) | None => [] end
  | _, _ => []
  end.
Definition pbufs_of (d : pb_dev) (s : node) : list nat :=
  match pb_head d s with Some h => pb_walk pb_fuel (pool s) h | None => [] end.

Lemma pb_walk_chain P h l : pchain P h l -> forall fuel, (length l < fuel)%nat -> pb_walk fuel P h = l.
Proof.
  induction 1 as [|p b l Hb Hc IH]; intros [|fuel] Hf; try (simpl in Hf; lia); [done|]. cbn [pb_walk]. rewrite Hb.
  f_equal. apply IH. simpl in Hf. lia.
Qed.

Lemma pbufs_of_list d l s : pbuf_list d l s -> (length l < pb_fuel)%nat -> pbufs_of d s = l.
Proof. intros (h & Hh & Hc) Hl. unfold pbufs_of. rewrite Hh. by apply pb_walk_chain. Qed.

(** A packet up to its link. *)
Definition content (k : csp_packet) : csp_packet := set_pkt_next None k.
Definition content_at (p : nat) (s : node) : option csp_packet := content <$> pkt_at p s.

(** [s'] differs from [s] in the links of the packets in [l] at most. *)
Definition relinked (l : list nat) (s s' : node) : Prop :=
  (forall q, content_at q s' = content_at q s) /\ (forall q, q ∉ l -> pkt_at q s' = pkt_at q s).

Lemma relinked_refl l s : relinked l s s.
Proof. done. Qed.
Lemma relinked_trans l s1 s2 s3 : relinked l s1 s2 -> relinked l s2 s3 -> relinked l s1 s3.
Proof. intros [H1 H2] [H3 H4]. split; intros; [by rewrite H3|by rewrite H4, H2]. Qed.
Lemma relinked_mono l l' s s' : (forall q, q ∈ l -> q ∈ l') -> relinked l s s' -> relinked l' s s'.
Proof. intros Hl [H1 H2]. split; [done|]. intros q Hq. apply H2. intros Hin. auto. Qed.

Lemma pchain_ext P P' h l : pchain P h l -> (forall q, q ∈ l -> P' !! q = P !! q) -> pchain P' h l.
Proof.
  induction 1 as [|p b l Hp Hl IH]; intros HP; [constructor|]. econstructor; [rewrite HP; [done|left]|].
  apply IH. intros q Hq. apply HP. by right.
Qed.

(** Only the links matter. *)
Lemma pchain_next P P' h l : pchain P h l ->
  (forall q b, q ∈ l -> P !! q = Some b -> exists b', P' !! q = Some b' /\ pkt_next (skbf_data b') = pkt_next (skbf_data b)) ->
  pchain P' h l.
Proof.
  induction 1 as [|p b l Hp Hl IH]; intros HP; [constructor|]. destruct (HP p b) as (b' & Hb' & Hn); [left|done|].
  econstructor; [exact Hb'|]. rewrite Hn. apply IH. intros q c Hq. apply HP. by right.
Qed.

Lemma pchain_app P h l1 l2 : pchain P h (l1 ++ l2) -> exists h2, pchain P h2 l2.
Proof.
  revert h. induction l1 as [|p l1 IH]; intros h Hc; [by exists h|]. inversion Hc; subst. by eapply IH.
Qed.

(** Taking [p] out, by writing its link into the element before it. *)
Lemma pchain_splice P h l1 q p l2 b bq : pchain P h (l1 ++ q :: p :: l2) -> NoDup (l1 ++ q :: p :: l2) ->
  P !! p = Some b -> P !! q = Some bq ->
  pchain (<[q := set_skbf_data (set_pkt_next (pkt_next (skbf_data b)) (skbf_data bq)) bq]> P) h (l1 ++ q :: l2).
Proof.
  revert h. induction l1 as [|x l1 IH]; intros h Hc Hn Hp Hq; inversion Hc as [|? bx ? Hx Hl]; subst.
  - inversion Hl as [|? bp ? Hp' Hl2]; subst. simplify_eq. econstructor.
    + apply list_lookup_insert_eq. by eapply lookup_lt_Some.
    + simpl. eapply pchain_ext; [exact Hl2|]. intros y Hy. rewrite list_lookup_insert_ne; [done|].
      intros ->. apply NoDup_cons_1_1 in Hn. apply Hn. by right.
  - econstructor.
    + rewrite list_lookup_insert_ne; [exact Hx|]. intros ->. apply NoDup_cons_1_1 in Hn. apply Hn.
      apply elem_of_app. right. left.
    + apply IH; [done|by apply NoDup_cons_1_2 in Hn|done..].
Qed.

(** ** Facts about the head *)

Lemma pb_head_put d v s h : pb_head d s = Some h -> pb_head d (pb_put d v s) = Some v.
Proof.
  destruct d; simpl; rewrite list_lookup_alter_eq;
    [destruct (can s !! i) as [[]|]|destruct (eth s !! i) as [[]|]]; done.
Qed.

Lemma pool_pb_put d v s : pool (pb_put d v s) = pool s.
Proof. by destruct d. Qed.

Lemma Inv_pb_put d v T h s : Inv T h s -> Inv T h (pb_put d v s).
Proof. intros H. destruct d, H; by constructor. Qed.

Lemma pb_head_pool d P s : pb_head d (set_pool P s) = pb_head d s.
Proof. by destruct d. Qed.

(** A held packet has one owner. *)
Lemma held_nodup T h s : Inv T h s -> NoDup h.
Proof. intros H. apply cnt_unique. intros p. pose proof (own_le _ _ _ p H). lia. Qed.

(** *** One element leaves the list *)

Lemma wp_unlink d T l1 p l2 h hd s k : Inv T ((l1 ++ p :: l2) ++ h) s -> pb_head d s = Some hd ->
  pchain (pool s) hd (l1 ++ p :: l2) -> pkt_at p s = Some k ->
  wp (pb_unlink d (list.last l1) (pkt_next k)) (fun _ s' =>
    pbuf_list d (l1 ++ l2) s' /\ Inv T ((l1 ++ p :: l2) ++ h) s' /\ relinked l1 s s') s.
Proof.
  intros HI Hh Hc Hk. destruct (pool s !! p) as [b|] eqn:Hb; [|unfold pkt_at in Hk; by rewrite Hb in Hk].
  assert (k = skbf_data b) as -> by (unfold pkt_at in Hk; rewrite Hb in Hk; by injection Hk).
  pose proof (held_nodup _ _ _ HI) as Hn. apply list.NoDup_app in Hn as [Hn _].
  destruct l1 as [|q l1' _] using rev_ind.
  - simpl. unfold wp, pb_set. rewrite Hh. split; [|split; [by apply Inv_pb_put|]].
    + eexists. split; [by eapply pb_head_put|]. rewrite pool_pb_put. inversion Hc; subst. by simplify_eq.
    + split; intros; unfold content_at, pkt_at; by rewrite pool_pb_put.
  - rewrite last_snoc.
    assert (Ea : (l1' ++ [q]) ++ p :: l2 = l1' ++ q :: p :: l2) by (by rewrite <- app_assoc). rewrite Ea in *.
    assert (Hq : q ∈ (l1' ++ q :: p :: l2) ++ h) by (rewrite !elem_of_app; left; right; left).
    destruct (Inv_live_h _ _ _ _ HI Hq) as (bq & Hbq & _ & Hok).
    assert (Hkq : pkt_at q s = Some (skbf_data bq)) by (unfold pkt_at; by rewrite Hbq).
    set (k' := set_pkt_next (pkt_next (skbf_data b)) (skbf_data bq)).
    cbn [pb_unlink]. unfold wp. rewrite (mod_pkt_at _ _ _ _ Hkq). fold k'. split; [|split; [by apply Inv_put_pkt|]].
    + exists hd. unfold put_pkt. rewrite pb_head_pool. split; [done|]. simpl.
      replace (alter (set_skbf_data k') q (pool s)) with (<[q := set_skbf_data k' bq]> (pool s)).
      * rewrite <- app_assoc. by apply pchain_splice with p.
      * rewrite list_insert_alter. apply list_alter_ext; [|done]. intros x Hx. by simplify_eq.
    + split; intros x.
      * unfold content_at, pkt_at, put_pkt. simpl. destruct (decide (q = x)) as [<-|].
        -- rewrite list_lookup_alter_eq, Hbq. done.
        -- by rewrite list_lookup_alter_ne.
      * intros Hx. unfold pkt_at, put_pkt. simpl. rewrite list_lookup_alter_ne; [done|]. intros ->.
        apply Hx. apply elem_of_app. right. left.
Qed.

(** Freeing a buffer changes no packet. *)
Lemma keeps_free_pkts p q : keeps (pkt_at q) (csp_buffer_free (Some p)).
Proof.
  intros s. unfold csp_buffer_free, csp_buffer_free_pkt, mbind, M_bind, get_skbf, mod_skbf.
  destruct (pool s !! p) as [b|] eqn:E; [|done]. destruct (negb _); [done|]. destruct (_ =? 0); [done|]. cbv zeta.
  set (v := set_refcount (u32 (refcount b - 1)) b).
  assert (Hq : pkt_at q (set_pool (<[p := v]> (pool s)) s) = pkt_at q s).
  { unfold pkt_at. simpl. destruct (decide (p = q)) as [<-|]; [|by rewrite list_lookup_insert_ne].
    rewrite list_lookup_insert_eq by (by eapply lookup_lt_Some). by rewrite E. }
  rewrite E. fold v. destruct (0 <? _); [exact Hq|]. simpl. destruct (q_enqueue p _); exact Hq.
Qed.

(** What the list operations leave alone: everything but the pool, the debug
    counters, the clock readings and the list heads. *)
Definition rest (s : node) : node :=
  set_pool [] (set_csp_buffers (Queue 0 []) (set_dbg (mkDbg 0 0 0 0 0 0) (set_tick 0
    (set_can (map (option_map (set_can_pbufs None)) (can s)) (set_eth (map (option_map (set_eth_pbufs None)) (eth s)) s))))).

Lemma rest_put p k s : rest (put_pkt p k s) = rest s.
Proof. reflexivity. Qed.

Lemma rest_refs s s' : rest s' = rest s -> refs s' = refs s.
Proof. intros E. exact (f_equal refs E). Qed.

Lemma map_alter_absorb {A B} (f : A -> B) g i (l : list A) : (forall x, f (g x) = f x) -> map f (alter g i l) = map f l.
Proof.
  intros Hf. revert i. induction l as [|x l IH]; intros [|i]; [done..| |]; simpl; [by rewrite Hf|]. f_equal. apply IH.
Qed.

Lemma rest_pb_put d v s : rest (pb_put d v s) = rest s.
Proof.
  destruct d; unfold rest, pb_put, set_can, set_eth; simpl; rewrite map_alter_absorb; [done|by intros []|done|by intros []].
Qed.

Lemma keeps_pb_set_rest d v : keeps rest (pb_set d v).
Proof. intros s. unfold pb_set. destruct (pb_head d s); [apply rest_pb_put|done]. Qed.
Lemma keeps_pb_get {B} (f : node -> B) d : keeps f (pb_get d).
Proof. intros s. unfold pb_get. by destruct (pb_head d s). Qed.
#[export] Hint Resolve keeps_pb_set_rest keeps_pb_get : keeps.

Lemma keeps_free_rest p : keeps rest (csp_buffer_free (Some p)).
Proof. unfold csp_buffer_free, csp_buffer_free_pkt. keeps_tac. Qed.
Lemma keeps_pb_free_rest isr p : keeps rest (pb_buffer_free isr p).
Proof. destruct isr; apply keeps_free_rest. Qed.
Lemma keeps_unlink_rest d prev next : keeps rest (pb_unlink d prev next).
Proof. unfold pb_unlink. keeps_tac. Qed.
#[export] Hint Resolve keeps_pb_free_rest keeps_unlink_rest : keeps.

Lemma keeps_free_loop_rest fuel d p bf isr : forall prev packet, keeps rest (pb_free_loop fuel d p bf isr prev packet).
Proof. induction fuel as [|fuel IH]; intros prev [q|]; cbn [pb_free_loop]; keeps_tac; apply IH. Qed.
Lemma keeps_cleanup_loop_rest fuel d now isr : forall prev packet, keeps rest (pb_cleanup_loop fuel d now isr prev packet).
Proof. induction fuel as [|fuel IH]; intros prev [q|]; cbn [pb_cleanup_loop]; keeps_tac; apply IH. Qed.
Lemma keeps_pbuf_free_rest d p bf isr : keeps rest (pbuf_free d p bf isr).
Proof. unfold pbuf_free. keeps_tac. apply keeps_free_loop_rest. Qed.
Lemma keeps_pbuf_cleanup_rest d now isr : keeps rest (pbuf_cleanup d now isr).
Proof. unfold pbuf_cleanup. keeps_tac. apply keeps_cleanup_loop_rest. Qed.
#[export] Hint Resolve keeps_pbuf_free_rest keeps_pbuf_cleanup_rest : keeps.

Lemma keeps_free_head p d : keeps (pb_head d) (csp_buffer_free (Some p)).
Proof. unfold csp_buffer_free, csp_buffer_free_pkt. destruct d; keeps_tac. Qed.

(** *** The whole walks *)

Lemma wp_pb_free d T l p h isr s : Inv T ((p :: l) ++ h) s -> pbuf_list d l s -> p ∉ l ->
  wp (pb_buffer_free isr p) (fun _ s' => pbuf_list d l s' /\ Inv T (l ++ h) s' /\ forall q, pkt_at q s' = pkt_at q s) s.
Proof.
  intros HI (hd & Hh & Hc) Hp. assert (E : pb_buffer_free isr p = csp_buffer_free (Some p)) by (by destruct isr). rewrite E.
  eapply (wp_conseq _ (fun _ s' => (Inv T (l ++ h) s' /\ pb_head d s' = pb_head d s) /\ forall q, pkt_at q s' = pkt_at q s)).
  - assert (W : wp (csp_buffer_free (Some p)) (fun _ s' => Inv T (l ++ h) s' /\ pb_head d s' = pb_head d s) s)
      by (apply wp_keeps; [apply keeps_free_head|by apply wp_free]).
    unfold wp in *. pose proof (fun q => keeps_free_pkts p q s) as K. by destruct (csp_buffer_free (Some p) s).
  - intros [] s' [[HI' Hh'] Hk]. split; [|done]. exists hd. split; [congruence|].
    eapply pchain_next; [exact Hc|]. intros q b Hq Hb. specialize (Hk q). unfold pkt_at in Hk. rewrite Hb in Hk.
    destruct (pool s' !! q) as [b'|]; [|done]. simpl in Hk. injection Hk as Hk. exists b'. by rewrite Hk.
Qed.

(** A walk that does not meet [buffer] changes nothing. *)
Lemma pb_free_absent l : forall fuel d buffer bf isr prev packet s, pchain (pool s) packet l -> buffer ∉ l ->
  (length l < fuel)%nat -> pb_free_loop fuel d buffer bf isr prev packet s = Ret tt s.
Proof.
  induction l as [|p l IH]; intros fuel d buffer bf isr prev packet s Hc Hn Hf; inversion Hc as [|? b ? Hb Hl]; subst;
    (destruct fuel as [|fuel]; [simpl in Hf; lia|]); [done|]. simpl.
  destruct (Nat.eqb_spec p buffer) as [->|Hne]; [by destruct Hn; left|].
  erewrite bind_ret by reflexivity. erewrite bind_ret by (apply get_pkt_at; unfold pkt_at; by rewrite Hb).
  apply IH; [done| |simpl in Hf; lia]. intros Hin. apply Hn. by right.
Qed.

Lemma pb_free_skip l : forall fuel d buffer bf isr l0 l2 packet s, pchain (pool s) packet (l ++ buffer :: l2) -> buffer ∉ l ->
  (length l < fuel)%nat -> exists f, (fuel = length l + f)%nat /\
  pb_free_loop fuel d buffer bf isr (list.last l0) packet s = pb_free_loop f d buffer bf isr (list.last (l0 ++ l)) (Some buffer) s.
Proof.
  induction l as [|p l IH]; intros fuel d buffer bf isr l0 l2 packet s Hc Hn Hf; inversion Hc as [|? b ? Hb Hl]; subst.
  - exists fuel. by rewrite app_nil_r.
  - destruct fuel as [|fuel]; [simpl in Hf; lia|].
    destruct (IH fuel d buffer bf isr (l0 ++ [p]) l2 _ s Hl) as (f & Ef & Er); [by intros ?; apply Hn; right|simpl in Hf; lia|].
    exists f. split; [simpl; lia|]. rewrite <- app_assoc, last_snoc in Er. simpl in Er |- *. rewrite <- Er.
    destruct (Nat.eqb_spec p buffer) as [->|Hne]; [by destruct Hn; left|].
    erewrite bind_ret by reflexivity. by erewrite bind_ret by (apply get_pkt_at; unfold pkt_at; by rewrite Hb).
Qed.

Lemma pchain_bound T h l s hd : Inv T (l ++ h) s -> pchain (pool s) hd l -> (length l < pb_fuel)%nat.
Proof.
  intros HI _. unfold pb_fuel. assert (length l <= CSP_BUFFER_COUNT)%nat; [|lia].
  pose proof (held_nodup _ _ _ HI) as Hn. apply list.NoDup_app in Hn as [Hn _].
  rewrite <- (length_seq CSP_BUFFER_COUNT 0). apply submseteq_length, NoDup_submseteq; [done|].
  intros q Hq. apply elem_of_seq. assert (q < CSP_BUFFER_COUNT)%nat; [|lia].
  eapply own_range; [exact HI|]. left. apply elem_of_app. by left.
Qed.

(** The list from an element on is a list. *)
Lemma pchain_tail P h l1 p l2 b : pchain P h (l1 ++ p :: l2) -> P !! p = Some b -> pchain P (pkt_next (skbf_data b)) l2.
Proof.
  intros Hc Hb. destruct (pchain_app _ _ l1 (p :: l2) Hc) as [h2 Hc2]. inversion Hc2; subst. by simplify_eq.
Qed.

Lemma pchain_same P s' h l s : P = pool s -> pchain P h l -> (forall q, q ∈ l -> pkt_at q s' = pkt_at q s) -> pchain (pool s') h l.
Proof.
  intros -> Hc Hs. eapply pchain_next; [exact Hc|]. intros q b Hq Hb. specialize (Hs q Hq). unfold pkt_at in Hs.
  rewrite Hb in Hs. destruct (pool s' !! q) as [b'|]; [|done]. injection Hs as Hs. exists b'. by rewrite Hs.
Qed.

Lemma nodup_mid (l1 l2 : list nat) p : NoDup (l1 ++ p :: l2) -> (p ∉ l1) /\ (p ∉ l2) /\ (forall q, q ∈ l2 -> q ∉ l1).
Proof.
  intros (H1 & Hd & H2)%list.NoDup_app. split_and!.
  - intros Hin. apply (Hd p Hin). left.
  - by apply NoDup_cons_1_1 in H2.
  - intros q Hq Hin. apply (Hd q Hin). by right.
Qed.

(** What taking packet [p] off the list achieves. *)
Definition taken_off (d : pb_dev) (T : config) (l1 : list nat) (p : nat) (l2 h : list nat) (bf : bool) (s s' : node) : Prop :=
  pbuf_list d (l1 ++ l2) s' /\ Inv T ((if bf then [] else [p]) ++ (l1 ++ l2) ++ h) s' /\ relinked l1 s s'.

Lemma wp_take_off d T l1 p l2 h bf isr k s : Inv T ((l1 ++ p :: l2) ++ h) s -> pbuf_list d (l1 ++ p :: l2) s -> pkt_at p s = Some k ->
  wp (pb_unlink d (list.last l1) (pkt_next k) ;; when bf (pb_buffer_free isr p))
    (fun _ s' => taken_off d T l1 p l2 h bf s s') s.
Proof.
  intros HI (hd & Hh & Hc) Hk. pose proof (held_nodup _ _ _ HI) as Hn. apply list.NoDup_app in Hn as [Hn _].
  apply nodup_mid in Hn as (Hp1 & Hp2 & _). apply wp_bind.
  wp_use (by eapply wp_unlink). intros [] s1 (HL1 & HI1 & HR1).
  assert (HI1' : Inv T ((p :: l1 ++ l2) ++ h) s1).
  { eapply Inv_perm; [|exact HI1]. intros x. rewrite !cnt_app, !cnt_cons, !cnt_app. lia. }
  apply wp_when; intros ->; [|by split_and!].
  wp_use (apply (wp_pb_free d T (l1 ++ l2)); [done..|rewrite elem_of_app; tauto]).
  intros [] s2 (HL2 & HI2 & HP2). split_and!; [done..|]. destruct HR1 as [HR HS].
  split; intros q; unfold content_at; rewrite HP2; [apply HR|apply HS].
Qed.

(** The walk arrives at [p]. *)
Lemma wp_free_here f d T l1 p l2 h bf isr s : Inv T ((l1 ++ p :: l2) ++ h) s -> pbuf_list d (l1 ++ p :: l2) s -> (length l2 < f)%nat ->
  wp (pb_free_loop (S f) d p bf isr (list.last l1) (Some p)) (fun _ s' => taken_off d T l1 p l2 h bf s s') s.
Proof.
  intros HI HL Hf. pose proof (held_nodup _ _ _ HI) as Hn. apply list.NoDup_app in Hn as [Hn _].
  apply nodup_mid in Hn as (Hp1 & Hp2 & H21).
  destruct (live_pkt s p) as (k & Hk & _); [eapply Inv_live_h; [exact HI|]; rewrite !elem_of_app; left; right; left|].
  cbn [pb_free_loop]. rewrite Nat.eqb_refl. apply wp_bind, wp_bind. unfold wp at 1. rewrite (get_pkt_at _ _ _ Hk).
  wp_use (by apply (wp_take_off d T l1 p l2 h)). intros [] s1 HQ. destruct (HQ) as (_ & _ & _ & HS).
  apply wp_bind. unfold wp at 1. rewrite (get_pkt_at p k) by (by rewrite HS). unfold wp.
  rewrite (pb_free_absent l2); [exact HQ| |done|done].
  destruct HL as (hd & _ & Hc). destruct (pool s !! p) as [b|] eqn:Hb; [|unfold pkt_at in Hk; by rewrite Hb in Hk].
  assert (k = skbf_data b) as -> by (unfold pkt_at in Hk; rewrite Hb in Hk; by injection Hk).
  eapply pchain_same; [done|by eapply pchain_tail|]. auto.
Qed.

(** [pbuf_free] takes one packet off the list; it goes back to the pool, or
    stays in the hands of the caller. *)
Lemma wp_pbuf_free d T l1 p l2 h bf isr s : Inv T ((l1 ++ p :: l2) ++ h) s -> pbuf_list d (l1 ++ p :: l2) s ->
  wp (pbuf_free d p bf isr) (fun _ s' => taken_off d T l1 p l2 h bf s s') s.
Proof.
  intros HI HL. destruct (HL) as (hd & Hh & Hc). unfold pbuf_free. apply wp_bind. unfold wp at 1, pb_get. rewrite Hh.
  pose proof (held_nodup _ _ _ HI) as Hn. apply list.NoDup_app in Hn as [Hn _]. apply nodup_mid in Hn as (Hp1 & _).
  pose proof (pchain_bound _ _ _ _ _ HI Hc) as Hlen. rewrite length_app in Hlen. cbn [length] in Hlen.
  destruct (pb_free_skip l1 pb_fuel d p bf isr [] l2 hd s Hc Hp1) as (f & Ef & Er); [lia|].
  unfold wp. cbn [list.last app] in Er. rewrite Er. destruct f as [|f]; [lia|]. apply wp_free_here; [done..|lia].
Qed.

(** *** Expiry *)

Definition expired_at (now : Z) (s : node) (p : nat) : bool :=
  match pkt_at p s with Some k => expired now k | None => false end.

(** The packets of [l] that a cleanup at [now] leaves. *)
Definition unexpired (now : Z) (s : node) (l : list nat) : list nat := filter (fun p => expired_at now s p = false) l.

(** No two neighbours in the list have both expired. *)
Fixpoint sparse (e : nat -> bool) (l : list nat) : Prop :=
  match l with
  | p :: l' => match l' with q :: _ => e p = true -> e q = false | [] => True end /\ sparse e l'
  | [] => True
  end.

Lemma sparse_ext e e' l : (forall p, e' p = e p) -> sparse e l -> sparse e' l.
Proof. intros He. induction l as [|p [|q l] IH]; [done..|]. intros [H1 H2]. split; [by rewrite !He|by apply IH]. Qed.

Lemma expired_relinked now l s s' p : relinked l s s' -> expired_at now s' p = expired_at now s p.
Proof.
  intros [HR _]. specialize (HR p). unfold content_at, expired_at, expired in *.
  destruct (pkt_at p s') as [k'|], (pkt_at p s) as [k|]; try done. apply (inj Some) in HR.
  assert (E : last_used k' = last_used k) by exact (f_equal last_used HR). by rewrite E.
Qed.

Lemma unexpired_relinked now l s s' l2 : relinked l s s' -> unexpired now s' l2 = unexpired now s l2.
Proof.
  intros HR. unfold unexpired. induction l2 as [|p l2 IH]; [done|]. rewrite !filter_cons, IH.
  by rewrite (expired_relinked _ _ _ _ _ HR).
Qed.

Lemma wp_cleanup_loop d T h now isr : forall l2 l1 fuel prev packet s,
  Inv T ((l1 ++ l2) ++ h) s -> pbuf_list d (l1 ++ l2) s -> pchain (pool s) packet l2 ->
  (prev = list.last l1 \/ match l2 with p :: _ => expired_at now s p = false | [] => True end) ->
  sparse (expired_at now s) l2 -> (length l2 < fuel)%nat ->
  wp (pb_cleanup_loop fuel d now isr prev packet) (fun _ s' => pbuf_list d (l1 ++ unexpired now s l2) s' /\
    Inv T ((l1 ++ unexpired now s l2) ++ h) s' /\ relinked (l1 ++ l2) s s') s.
Proof.
  induction l2 as [|p l2 IH]; intros l1 fuel prev packet s HI HL Hc Hprev Hsp Hf; inversion Hc as [|? b ? Hb Hl]; subst;
    (destruct fuel as [|fuel]; [simpl in Hf; lia|]); cbn [pb_cleanup_loop].
  { apply wp_ret. rewrite !app_nil_r in *. by split_and!. }
  assert (Hk : pkt_at p s = Some (skbf_data b)) by (unfold pkt_at; by rewrite Hb).
  destruct Hsp as [Hnext Hsp]. apply wp_bind. unfold wp at 1. rewrite (get_pkt_at _ _ _ Hk).
  assert (Hexp : expired now (skbf_data b) = expired_at now s p) by (unfold expired_at; by rewrite Hk). rewrite Hexp.
  unfold unexpired. rewrite filter_cons. fold (unexpired now s l2). apply wp_bind, wp_when; intros E; rewrite E.
  - destruct Hprev as [->|Hprev]; [|congruence]. rewrite decide_False by done.
    wp_use (apply (wp_take_off d T l1 p l2 h true isr (skbf_data b)); done). intros [] s1 (HL1 & HI1 & HR1).
    pose proof (held_nodup _ _ _ HI) as Hn. apply list.NoDup_app in Hn as [Hn _]. apply nodup_mid in Hn as (Hp1 & Hp2 & H21).
    apply wp_bind. unfold wp at 1. rewrite (get_pkt_at p (skbf_data b)) by (by rewrite (proj2 HR1)).
    assert (Hl1 : pchain (pool s1) (pkt_next (skbf_data b)) l2).
    { eapply pchain_same; [done|exact Hl|]. intros q Hq. apply HR1. auto. }
    wp_use (apply (IH l1); [exact HI1|exact HL1|exact Hl1| |by eapply sparse_ext; [intros; eapply expired_relinked|]|simpl in Hf; lia];
      right; destruct l2 as [|q l2]; [done|]; rewrite (expired_relinked _ _ _ _ _ HR1); auto).
    intros [] s2. rewrite (unexpired_relinked _ _ _ _ _ HR1). intros (HL2 & HI2 & HR2). split_and!; [done..|].
    eapply relinked_trans; (eapply relinked_mono; [|eassumption]); intros q; rewrite ?elem_of_app, ?elem_of_cons; tauto.
  - rewrite decide_True by done. apply wp_bind. unfold wp at 1. rewrite (get_pkt_at p (skbf_data b)) by done.
    assert (Ea : forall l, (l1 ++ [p]) ++ l = l1 ++ p :: l) by (intros; by rewrite <- app_assoc).
    wp_use (apply (IH (l1 ++ [p])); rewrite ?Ea; try done; [by left; rewrite last_snoc|simpl in Hf; lia]).
    intros [] s2. by rewrite !Ea.
Qed.

(** A cleanup frees the packets that timed out and keeps the others in order,
    provided that no two neighbours timed out. *)
Lemma wp_pbuf_cleanup d T l h now isr s : Inv T (l ++ h) s -> pbuf_list d l s -> sparse (expired_at now s) l ->
  wp (pbuf_cleanup d now isr) (fun _ s' => pbuf_list d (unexpired now s l) s' /\
    Inv T (unexpired now s l ++ h) s' /\ relinked l s s') s.
Proof.
  intros HI HL Hsp. destruct (HL) as (hd & Hh & Hc). unfold pbuf_cleanup. apply wp_bind. unfold wp at 1, pb_get. rewrite Hh.
  apply (wp_cleanup_loop d T h now isr l []); try done; [by left|]. by eapply pchain_bound.
Qed.

(** ** The defect of the cleanup

    After a removal, [prev] is the packet just freed, so the next removal
    writes into it instead of into the list. *)

(** A walk over packets that have not expired changes nothing, whatever [prev] is. *)
Lemma cleanup_unexpired l : forall fuel d now isr prev packet s, pchain (pool s) packet l -> (length l < fuel)%nat ->
  (forall q, q ∈ l -> expired_at now s q = false) -> pb_cleanup_loop fuel d now isr prev packet s = Ret tt s.
Proof.
  induction l as [|q l IH]; intros fuel d now isr prev packet s Hc Hf Hun; inversion Hc as [|? x ? Hx Hc']; subst;
    (destruct fuel as [|fuel]; [simpl in Hf; lia|]); [done|]. cbn [pb_cleanup_loop].
  assert (Hk : pkt_at q s = Some (skbf_data x)) by (unfold pkt_at; by rewrite Hx).
  erewrite bind_ret by (by apply get_pkt_at). pose proof (Hun q ltac:(left)) as Hq. unfold expired_at in Hq. rewrite Hk in Hq.
  rewrite Hq. erewrite bind_ret by reflexivity. erewrite bind_ret by (by apply get_pkt_at).
  apply IH; [done|simpl in Hf; lia|]. intros. apply Hun. by right.
Qed.

(** A buffer that was held and is so no more is free. *)
Lemma released_free T T' h s s' p : Inv T (p :: h) s -> Inv T' h s' -> rest s' = rest s -> p ∈ q_items (csp_buffers s').
Proof.
  intros HI HI' Hr%rest_refs. pose proof (own_le _ _ _ p HI) as Ho. rewrite cnt_cons in Ho. destruct (Nat.eq_dec p p); [|done].
  assert (Hlt : (p < CSP_BUFFER_COUNT)%nat) by (eapply own_range; [exact HI|left; left]).
  pose proof (inv_own _ _ _ HI' p Hlt) as Ho'. rewrite Hr in Ho'. apply cnt_pos. lia.
Qed.

(** The second removal in a row: [b] is freed, but the list still starts with it. *)
Lemma wp_cleanup_second d T a b l h now isr k s fuel : Inv T ((b :: l) ++ h) s -> pbuf_list d (b :: l) s -> a ∉ b :: l ->
  a ∈ q_items (csp_buffers s) -> pkt_at a s = Some k -> expired_at now s b = true ->
  (forall q, q ∈ l -> expired_at now s q = false) -> (length (b :: l) < fuel)%nat ->
  wp (pb_cleanup_loop fuel d now isr (Some a) (Some b))
    (fun _ s' => pbuf_list d (b :: l) s' /\ b ∈ q_items (csp_buffers s')) s.
Proof.
  intros HI (hd & Hh & Hc) Hna Hfa Hka Hb Hl Hf. inversion Hc as [|? xb ? Hxb Hcb]; subst.
  destruct fuel as [|fuel]; [simpl in Hf; lia|]. assert (Hkb : pkt_at b s = Some (skbf_data xb)) by (unfold pkt_at; by rewrite Hxb).
  cbn [pb_cleanup_loop]. apply wp_bind. unfold wp at 1. rewrite (get_pkt_at _ _ _ Hkb).
  unfold expired_at in Hb. rewrite Hkb in Hb. rewrite Hb. apply wp_bind, wp_bind. cbn [pb_unlink]. unfold wp at 1.
  rewrite (mod_pkt_at _ _ _ _ Hka). set (s2 := put_pkt a _ s).
  assert (Hno : (a ∉ refs s) /\ a ∉ (b :: l) ++ h).
  { pose proof (own_le _ _ _ a HI). apply cnt_pos in Hfa. split; intros Hq%cnt_pos; lia. }
  assert (HI2 : Inv T ((b :: l) ++ h) s2) by (apply Inv_put_any; [done|tauto|intros; tauto]).
  assert (Hs2 : forall q, q ∈ b :: l -> pkt_at q s2 = pkt_at q s).
  { intros q Hq. unfold pkt_at, s2, put_pkt. simpl. rewrite list_lookup_alter_ne; [done|]. by intros ->. }
  assert (HL2 : pbuf_list d (b :: l) s2).
  { exists (Some b). unfold s2 at 1, put_pkt. rewrite pb_head_pool. split; [done|]. by eapply pchain_same. }
  assert (W : wp (pb_buffer_free isr b) (fun _ s' => ((Inv T (l ++ h) s' /\ rest s' = rest s2) /\ pb_head d s' = pb_head d s2) /\
     forall q, pkt_at q s' = pkt_at q s2) s2).
  { assert (E : pb_buffer_free isr b = csp_buffer_free (Some b)) by (by destruct isr). rewrite E.
    assert (W : wp (csp_buffer_free (Some b)) (fun _ s' => (Inv T (l ++ h) s' /\ rest s' = rest s2) /\ pb_head d s' = pb_head d s2) s2)
      by (apply wp_keeps; [apply keeps_free_head|apply wp_keeps; [apply keeps_free_rest|by apply wp_free]]).
    unfold wp in *. pose proof (fun q => keeps_free_pkts b q s2) as K. by destruct (csp_buffer_free (Some b) s2). }
  eapply wp_conseq; [exact W|]. intros [] s3 [[[HI3 Hr3] Hh3] Hk3]. apply wp_bind.
  assert (Hk3' : forall q, q ∈ b :: l -> pkt_at q s3 = pkt_at q s) by (intros; by rewrite Hk3, Hs2).
  unfold wp at 1. rewrite (get_pkt_at b (skbf_data xb)) by (rewrite Hk3'; [done|left]). unfold wp.
  rewrite (cleanup_unexpired l); [|eapply pchain_same; [done|exact Hcb|intros; apply Hk3'; by right]|simpl in Hf; lia|].
  - split; [|by eapply (released_free T T (l ++ h) s2 s3)]. destruct HL2 as (h2 & Hh2 & Hc2). exists h2.
    split; [congruence|]. eapply pchain_same; [done|exact Hc2|]. intros. apply Hk3.
  - intros q Hq. rewrite <- (Hl q Hq). unfold expired_at. rewrite Hk3'; [done|by right].
Qed.

Lemma wp_cleanup_dangling d T a b l h now isr s : Inv T ((a :: b :: l) ++ h) s -> pbuf_list d (a :: b :: l) s ->
  expired_at now s a = true -> expired_at now s b = true -> (forall q, q ∈ l -> expired_at now s q = false) ->
  wp (pbuf_cleanup d now isr) (fun _ s' => pbuf_list d (b :: l) s' /\ b ∈ q_items (csp_buffers s')) s.
Proof.
  intros HI HL Ha Hb Hl. destruct (HL) as (hd & Hh & Hc). unfold pbuf_cleanup. apply wp_bind. unfold wp at 1, pb_get. rewrite Hh.
  pose proof (pchain_bound _ _ _ _ _ HI Hc) as Hlen. set (fuel := pb_fuel) in *. clearbody fuel.
  pose proof (held_nodup _ _ _ HI) as Hn. apply list.NoDup_app in Hn as [Hn _]. apply NoDup_cons_1_1 in Hn as Hna.
  inversion Hc as [|? xa ? Hxa Hca]; subst. inversion Hca as [|? xb ? Hxb Hcb E1]; subst.
  assert (Hka : pkt_at a s = Some (skbf_data xa)) by (unfold pkt_at; by rewrite Hxa).
  destruct fuel as [|fuel]; [simpl in Hlen; lia|]. cbn [pb_cleanup_loop].
  apply wp_bind. unfold wp at 1. rewrite (get_pkt_at _ _ _ Hka). unfold expired_at in Ha. rewrite Hka in Ha. rewrite Ha. apply wp_bind.
  eapply (wp_conseq _ (fun _ s' => taken_off d T [] a (b :: l) h true s s' /\ rest s' = rest s)).
  { apply wp_keeps; [keeps_tac|]. by apply (wp_take_off d T [] a (b :: l) h true isr (skbf_data xa)). }
  intros [] s1 [(HL1 & HI1 & HR1) Hr1]. cbn [app] in HL1, HI1.
  assert (Hs1 : forall q, pkt_at q s1 = pkt_at q s) by (intros q; apply HR1; by apply not_elem_of_nil).
  apply wp_bind. unfold wp at 1. rewrite (get_pkt_at a (skbf_data xa)) by (by rewrite Hs1). rewrite <- E1.
  apply (wp_cleanup_second d T a b l h now isr (skbf_data xa)); try done.
  - by eapply (released_free T T (b :: l ++ h) s s1 a).
  - by rewrite Hs1.
  - by rewrite (expired_relinked _ _ _ _ _ HR1).
  - intros q Hq. rewrite (expired_relinked _ _ _ _ _ HR1). auto.
  - simpl in *. lia.
Qed.

(** ** Finding and adding packets *)

Fixpoint first_match (test : csp_packet -> bool) (s : node) (l : list nat) : option nat :=
  match l with
  | [] => None
  | p :: l' => match pkt_at p s with
               | Some k => if test k then Some p else first_match test s l'
               | None => None
               end
  end.

Lemma find_loop_run test : forall l fuel packet s, pchain (pool s) packet l -> (length l < fuel)%nat ->
  pb_find_loop fuel test packet s = Ret (first_match test s l) s.
Proof.
  induction l as [|p l IH]; intros fuel packet s Hc Hf; inversion Hc as [|? b ? Hb Hl]; subst;
    (destruct fuel as [|fuel]; [simpl in Hf; lia|]); [done|]. cbn [pb_find_loop first_match].
  assert (Hk : pkt_at p s = Some (skbf_data b)) by (unfold pkt_at; by rewrite Hb).
  erewrite bind_ret by (by apply get_pkt_at). rewrite Hk. destruct (test _); [done|]. apply IH; [done|simpl in Hf; lia].
Qed.

Lemma first_match_Some test s l p : first_match test s l = Some p ->
  exists l1 l2 k, l = l1 ++ p :: l2 /\ pkt_at p s = Some k /\ test k = true.
Proof.
  induction l as [|q l IH]; [done|]. simpl. destruct (pkt_at q s) as [k|] eqn:Hk; [|done].
  destruct (test k) eqn:Ht; [intros [= ->]; by exists [], l, k|].
  intros Hf. destruct (IH Hf) as (l1 & l2 & k' & -> & Hk' & Ht'). by exists (q :: l1), l2, k'.
Qed.

(** A list of live packets, none of which matches. *)
Lemma first_match_None test s l : (forall q k, q ∈ l -> pkt_at q s = Some k -> test k = false) -> first_match test s l = None.
Proof.
  induction l as [|q l IH]; intros H; [done|]. simpl. destruct (pkt_at q s) as [k|] eqn:Hk; [|done].
  rewrite (H q k) by (done || left). apply IH. intros q' k' Hq'. apply H. by right.
Qed.

(** Changing packets, but not their links, keeps a list. *)
Lemma pbuf_list_pkt d l s p f k : pbuf_list d l s -> pkt_at p s = Some k -> pkt_next (f k) = pkt_next k ->
  pbuf_list d l (put_pkt p (f k) s).
Proof.
  intros (h & Hh & Hc) Hk Hf. exists h. unfold put_pkt. rewrite pb_head_pool. split; [done|]. simpl.
  eapply pchain_next; [exact Hc|]. intros q b Hq Hb. destruct (decide (p = q)) as [<-|].
  - exists (set_skbf_data (f k) b). rewrite list_lookup_alter_eq, Hb. split; [done|]. simpl.
    unfold pkt_at in Hk. rewrite Hb in Hk. injection Hk as <-. done.
  - exists b. by rewrite list_lookup_alter_ne.
Qed.

Lemma pbuf_list_tick d l s n : pbuf_list d l s -> pbuf_list d l (set_tick n s).
Proof. intros (h & Hh & Hc). exists h. split; [by destruct d|done]. Qed.

Lemma wp_pb_push d T l p h s : Inv T ((p :: l) ++ h) s -> pbuf_list d l s ->
  wp (pb_push d p) (fun _ s' => pbuf_list d (p :: l) s' /\ Inv T ((p :: l) ++ h) s' /\ relinked [p] s s' /\ rest s' = rest s) s.
Proof.
  intros HI (hd & Hh & Hc). unfold pb_push. apply wp_bind. unfold wp at 1, pb_get. rewrite Hh.
  destruct (Inv_live_h _ _ _ p HI) as (b & Hb & _ & Hok); [left|].
  assert (Hk : pkt_at p s = Some (skbf_data b)) by (unfold pkt_at; by rewrite Hb).
  apply wp_bind. unfold wp at 1. rewrite (mod_pkt_at _ _ _ _ Hk). set (s1 := put_pkt p _ s).
  assert (Hh1 : pb_head d s1 = Some hd) by (unfold s1, put_pkt; by rewrite pb_head_pool).
  pose proof (held_nodup _ _ _ HI) as Hn. apply NoDup_cons_1_1 in Hn.
  unfold wp, pb_set. rewrite Hh1. split_and!.
  - exists (Some p). split; [by eapply pb_head_put|]. rewrite pool_pb_put. unfold s1, put_pkt. simpl. econstructor.
    + rewrite list_lookup_alter_eq, Hb. reflexivity.
    + simpl. eapply pchain_ext; [exact Hc|]. intros q Hq. rewrite list_lookup_alter_ne; [done|]. intros ->. apply Hn, elem_of_app. by left.
  - apply Inv_pb_put. apply Inv_put_pkt; [done|left|exact Hok].
  - split; intros q; [|intros Hq]; unfold content_at, pkt_at; rewrite pool_pb_put; unfold s1, put_pkt; simpl.
    + destruct (decide (p = q)) as [<-|]; [|by rewrite list_lookup_alter_ne]. by rewrite list_lookup_alter_eq, Hb.
    + rewrite list_lookup_alter_ne; [done|]. intros ->. apply Hq. left.
  - by rewrite rest_pb_put.
Qed.

(** [csp_buffer_get_always] with a free buffer. *)
Lemma wp_new_packet T h s : Inv T h s -> q_items (csp_buffers s) <> [] ->
  wp csp_buffer_get_always (fun p s' => Inv T (p :: h) s' /\ (p ∉ h) /\ pkt_at p s' = Some (packet_zero p) /\
    (forall q, q <> p -> pkt_at q s' = pkt_at q s) /\ rest s' = rest s /\ forall d, pb_head d s' = pb_head d s) s.
Proof.
  intros HI Hfree. unfold csp_buffer_get_always. apply wp_bind. unfold wp at 1.
  rewrite get_actual_run by (by eapply Inv_pool_ok). rewrite (proj2 (Z.ltb_ge _ _)) by lia.
  destruct (q_items (csp_buffers s)) as [|p rest'] eqn:E; [done|].
  destruct (Inv_alloc T h s p rest' CSP_BUFFER_COUNT HI E) as [HI' Hs']; [by rewrite (inv_cap _ _ _ HI)|].
  set (s' := set_pool _ _) in *. apply wp_ret.
  assert (Hp : p ∉ h). { pose proof (held_nodup _ _ _ HI') as Hn. by apply NoDup_cons_1_1 in Hn. }
  assert (Hlt : (p < length (pool s))%nat) by (rewrite (inv_pool _ _ _ HI); apply (inv_free _ _ _ HI); rewrite E; left).
  split_and!; try done.
  - unfold pkt_at, s'. simpl. by rewrite list_lookup_insert_eq.
  - intros q Hq. unfold pkt_at, s'. simpl. by rewrite list_lookup_insert_ne.
Qed.

Lemma wp_get_always T l h d (isr : bool) s : Inv T (l ++ h) s -> pbuf_list d l s -> q_items (csp_buffers s) <> [] ->
  wp (if isr then csp_buffer_get_always_isr else csp_buffer_get_always) (fun p s' => Inv T ((p :: l) ++ h) s' /\ pbuf_list d l s' /\
    (p ∉ l ++ h) /\ pkt_at p s' = Some (packet_zero p) /\ (forall q, q <> p -> pkt_at q s' = pkt_at q s) /\ rest s' = rest s) s.
Proof.
  intros HI HL Hfree. assert (Ei : (if isr then csp_buffer_get_always_isr else csp_buffer_get_always) = csp_buffer_get_always)
    by (by destruct isr). rewrite Ei. eapply wp_conseq; [by apply wp_new_packet|]. cbv beta.
  intros p s' (HI' & Hp & Hk & Hs & Hr & Hd). split_and!; try done.
  destruct HL as (hd & Hh & Hc). exists hd. split; [by rewrite Hd|].
  eapply pchain_same; [done|exact Hc|]. intros q Hq. apply Hs. intros ->. apply Hp, elem_of_app. by left.
Qed.

(** Buffers that were free stay free when the code holds less. *)
Lemma free_grows T T' h h' s s' : Inv T h s -> Inv T' h' s' -> (forall q, (cnt q h' <= cnt q h)%nat) -> rest s' = rest s ->
  q_items (csp_buffers s) <> [] -> q_items (csp_buffers s') <> [].
Proof.
  intros HI HI' Hh Hr%rest_refs Hne. destruct (q_items (csp_buffers s)) as [|p f] eqn:E; [done|].
  assert (Hp : p ∈ q_items (csp_buffers s)) by (rewrite E; left). pose proof (own_le _ _ _ p HI) as Ho. apply cnt_pos in Hp as Hc.
  pose proof (inv_own _ _ _ HI' p (inv_free _ _ _ HI p Hp)) as Ho'. specialize (Hh p). rewrite Hr in Ho'.
  intros E'. rewrite E', cnt_nil in Ho'. lia.
Qed.

Lemma cnt_filter p (P : nat -> Prop) `{forall x, Decision (P x)} l : (cnt p (filter P l) <= cnt p l)%nat.
Proof.
  induction l as [|x l IH]; [done|]. rewrite filter_cons, cnt_cons. destruct (decide (P x)); rewrite ?cnt_cons; lia.
Qed.

Section Laws.
Context `{Platform}.

(** The clock reading a list operation is about to make. *)
Definition now_of (s : node) : Z := u32 (plat_ms (tick s)).

Lemma Inv_tick T h s n : Inv T h s -> Inv T h (set_tick n s).
Proof. intros HI. destruct HI. by constructor. Qed.

(** A fresh packet at the head of the list. *)
Definition new_pbuf (id now : Z) (p : nat) : csp_packet := set_remain 0 (set_cfpid id (set_last_used now (packet_zero p))).

(** [p] heads the list now; the packets that timed out are gone and the others are as they were. *)
Definition pbuf_added (d : pb_dev) (T : config) (p : nat) (k : csp_packet) (l h : list nat) (s s' : node) : Prop :=
  pbuf_list d (p :: l) s' /\ Inv T ((p :: l) ++ h) s' /\ content_at p s' = Some (content k) /\ (p ∉ l ++ h) /\
  (forall q, q ∈ l ++ h -> content_at q s' = content_at q s) /\ rest s' = rest s.

Lemma wp_can_pbuf_new T i l h id isr s : Inv T (l ++ h) s -> pbuf_list (PbCan i) l s -> sparse (expired_at (now_of s) s) l ->
  q_items (csp_buffers s) <> [] ->
  wp (csp_can_pbuf_new i id isr) (fun p s' => exists now,
    pbuf_added (PbCan i) T p (new_pbuf id now p) (unexpired (now_of s) s l) h s s') s.
Proof.
  intros HI HL Hsp Hfree. unfold csp_can_pbuf_new, csp_can_pbuf_cleanup. set (now := now_of s) in *. set (l' := unexpired now s l).
  apply wp_bind, wp_bind. unfold wp at 1, csp_get_ms. fold (now_of s). fold now.
  eapply wp_conseq; [apply (wp_keeps rest); [apply keeps_pbuf_cleanup_rest|
    apply (wp_pbuf_cleanup (PbCan i) T l h now isr); [by apply Inv_tick|by apply pbuf_list_tick|done]]|].
  cbv beta. intros [] s1 [(HL1 & HI1 & HR1) Hr1]. change (unexpired now (set_tick _ s) l) with l' in *.
  change (rest (set_tick _ s)) with (rest s) in Hr1.
  apply wp_bind. unfold wp at 1, csp_get_ms. set (now2 := u32 _). apply wp_bind.
  assert (Hf1 : q_items (csp_buffers s1) <> []).
  { eapply (free_grows T T (l ++ h) (l' ++ h) s s1); try done. intros q. rewrite !cnt_app.
    pose proof (cnt_filter q (fun p => expired_at now s p = false) l). unfold l', unexpired. lia. }
  wp_use (apply (wp_get_always T l' h (PbCan i) isr); [by apply Inv_tick|by apply pbuf_list_tick|done]).
  intros p s2 (HI2 & HL2 & Hp & Hk2 & Hs2 & Hr2). apply wp_bind. unfold wp at 1. rewrite (mod_pkt_at _ _ _ _ Hk2).
  fold (new_pbuf id now2 p). set (s3 := put_pkt p (new_pbuf id now2 p) s2).
  assert (HI3 : Inv T ((p :: l') ++ h) s3) by (apply Inv_put_pkt; [done|left|exact (packet_zero_ok p)]).
  assert (HL3 : pbuf_list (PbCan i) l' s3)
    by exact (pbuf_list_pkt _ _ s2 p (fun k => set_remain 0 (set_cfpid id (set_last_used now2 k))) _ HL2 Hk2 eq_refl).
  apply wp_bind. eapply wp_conseq; [by apply (wp_pb_push (PbCan i) T l' p h)|cbv beta].
  intros [] s4 (HL4 & HI4 & HR4 & Hr4). apply wp_ret. exists now2. split_and!; [done|done| |done| |].
  - rewrite (proj1 HR4). unfold content_at, s3. by erewrite pkt_at_put.
  - intros q Hq. rewrite (proj1 HR4). assert (Hne : q <> p) by (by intros ->). unfold content_at, s3, pkt_at, put_pkt. simpl.
    rewrite list_lookup_alter_ne by done. change (content_at q s2 = content_at q s). unfold content_at. rewrite (Hs2 q Hne).
    exact (proj1 HR1 q).
  - rewrite Hr4. change (rest s3) with (rest s2). rewrite Hr2. exact Hr1.
Qed.
(** The identifier of packet [k] agrees with [id] under [mask]. *)
Definition key_match (id mask : Z) (k : csp_packet) : bool := Z.land (cfpid k) mask =? Z.land id mask.

Lemma can_find_run T i l h id mask isr s : Inv T (l ++ h) s -> pbuf_list (PbCan i) l s ->
  match first_match (key_match id mask) s l with
  | None => csp_can_pbuf_find i id mask isr s = Ret None s
  | Some p => exists k, pkt_at p s = Some k /\ p ∈ l /\ key_match id mask k = true /\
      csp_can_pbuf_find i id mask isr s = Ret (Some p) (put_pkt p (set_last_used (now_of s) k) (set_tick (S (tick s)) s))
  end.
Proof.
  intros HI (hd & Hh & Hc). pose proof (pchain_bound _ _ _ _ _ HI Hc) as Hf.
  assert (E : csp_can_pbuf_find i id mask isr s =
    (r ← mret (first_match (key_match id mask) s l);
     match r with None => mret None | Some p => now ← csp_get_ms; mod_pkt p (set_last_used now) ;; mret (Some p) end) s).
  { unfold csp_can_pbuf_find. erewrite bind_ret by (unfold pb_get; by rewrite Hh).
    fold (key_match id mask). erewrite bind_ret by (by apply find_loop_run). done. }
  destruct (first_match _ s l) as [p|] eqn:Em; [|exact E].
  destruct (first_match_Some _ _ _ _ Em) as (l1 & l2 & k & -> & Hk & Ht). exists k. split_and!; try done.
  { apply elem_of_app. right. left. }
  rewrite E. erewrite bind_ret by reflexivity. cbv iota. erewrite bind_ret by reflexivity.
  erewrite bind_ret; [|apply (mod_pkt_at p _ k); exact Hk]. done.
Qed.

End Laws.

(** A packet that left the list goes to the router. *)
Lemma wp_deliver d T l p h i isr s : Inv T ((p :: l) ++ h) s -> pbuf_list d l s -> valid_if T i ->
  wp (Qfifo.csp_qfifo_write (Some p) (Some i) isr) (fun _ s' => Inv T (l ++ h) s' /\ pbuf_list d l s' /\
    (forall q, pkt_at q s' = pkt_at q s) /\
    (forall q', q_enqueue (Some i, Some p) (qfifo s) = Some q' -> s' = set_qfifo q' s)) s.
Proof.
  intros HI (hd & Hh & Hc) Hi.
  assert (W : wp (Qfifo.csp_qfifo_write (Some p) (Some i) isr) (fun _ s' => Inv T (l ++ h) s' /\ pb_head d s' = pb_head d s) s).
  { apply wp_keeps; [|by apply wp_qfifo_write]. unfold Qfifo.csp_qfifo_write. destruct d; keeps_tac; apply keeps_free_head. }
  assert (K : forall q, keeps (pkt_at q) (Qfifo.csp_qfifo_write (Some p) (Some i) isr)).
  { intros q. unfold Qfifo.csp_qfifo_write. keeps_tac; apply keeps_free_pkts. }
  unfold wp in *. pose proof (fun q => K q s) as K'. destruct (Qfifo.csp_qfifo_write (Some p) (Some i) isr s) as [[] s'| | |] eqn:E; [|done..].
  destruct W as [HI' Hh']. split_and!; [done| |done|].
  - exists hd. split; [congruence|]. eapply pchain_same; [done|exact Hc|]. auto.
  - intros q' Hq. unfold Qfifo.csp_qfifo_write in E. erewrite bind_ret in E by reflexivity. rewrite Hq in E. by injection E.
Qed.

(** ** Properties *)

(** [csp_can_pbuf_cleanup] takes the packets that timed out off the list and
    back to the pool, and keeps the others, in order and unchanged, provided that
    no two neighbours on the list have timed out. *)
Theorem can_pbuf_cleanup_spec `{Platform} T i l h isr s : Inv T (l ++ h) s -> pbuf_list (PbCan i) l s ->
  sparse (expired_at (now_of s) s) l ->
  exists s', csp_can_pbuf_cleanup i isr s = Ret tt s' /\ pbuf_list (PbCan i) (unexpired (now_of s) s l) s' /\
    Inv T (unexpired (now_of s) s l ++ h) s' /\ forall q, content_at q s' = content_at q s.
Proof.
  intros HI HL Hsp.
  destruct (proj1 (wp_run _ _ _) (wp_pbuf_cleanup (PbCan i) T l h (now_of s) isr (set_tick (S (tick s)) s)
    (Inv_tick _ _ _ _ HI) (pbuf_list_tick _ _ _ _ HL) Hsp)) as ([] & s' & Hr & HL' & HI' & HR & _).
  exists s'. by split_and!.
Qed.

(** Two neighbours that timed out together: [csp_can_pbuf_cleanup] frees both
    buffers, but leaves the second on the list (after the first removal, [prev]
    is the packet just freed, and the second is unlinked from that one). *)
Theorem can_pbuf_cleanup_dangling `{Platform} T i a b l h isr s : Inv T ((a :: b :: l) ++ h) s -> pbuf_list (PbCan i) (a :: b :: l) s ->
  expired_at (now_of s) s a = true -> expired_at (now_of s) s b = true -> (forall q, q ∈ l -> expired_at (now_of s) s q = false) ->
  exists s', csp_can_pbuf_cleanup i isr s = Ret tt s' /\ pbuf_list (PbCan i) (b :: l) s' /\ b ∈ q_items (csp_buffers s').
Proof.
  intros HI HL Ha Hb Hl.
  destruct (proj1 (wp_run _ _ _) (wp_cleanup_dangling (PbCan i) T a b l h (now_of s) isr (set_tick (S (tick s)) s)
    (Inv_tick _ _ _ _ HI) (pbuf_list_tick _ _ _ _ HL) Ha Hb Hl)) as ([] & s' & Hr & HL' & Hf).
  by exists s'.
Qed.

(** ** Witnesses *)

(** Interface 1 has begun packet 0 with identifier 32, and packet 1 with identifier 64. *)
Definition one_begun : node := state_of (csp_can_pbuf_new (H := lo_platform) 1 32 false bus_node).
Definition two_begun : node := state_of (csp_can_pbuf_new (H := lo_platform) 1 64 false one_begun).

Lemma pbuf_new_state T l id s : Inv T l s -> pbuf_list (PbCan 1) l s -> unexpired (now_of (H := lo_platform) s) s l = l ->
  q_items (csp_buffers s) <> [] -> exists p s', csp_can_pbuf_new (H := lo_platform) 1 id false s = Ret p s' /\
    Inv T (p :: l) s' /\ pbuf_list (PbCan 1) (p :: l) s'.
Proof.
  intros HI HL Hu Hf. rewrite <- (app_nil_r l) in HI.
  assert (Hsp : sparse (expired_at (now_of (H := lo_platform) s) s) l).
  { assert (Hall : forall q, q ∈ l -> expired_at (now_of (H := lo_platform) s) s q = false).
    { intros q Hq. rewrite <- Hu in Hq. by apply list_elem_of_filter in Hq as [Hq _]. }
    clear -Hall. induction l as [|a [|b l] IH]; [done..|]. split; [intros _; apply Hall; right; left|].
    apply IH. intros q Hq. apply Hall. by right. }
  destruct (proj1 (wp_run _ _ _) (wp_can_pbuf_new (H := lo_platform) T 1 l [] id false s HI HL Hsp Hf))
    as (p & s' & Hr & now & HL' & HI' & _). rewrite Hu, app_nil_r in *. by exists p, s'.
Qed.

Lemma one_begun_ok : Inv (config_of bus_node) [0%nat] one_begun /\ pbuf_list (PbCan 1) [0%nat] one_begun.
Proof.
  destruct (pbuf_new_state (config_of bus_node) [] 32 bus_node) as (p & s' & Hr & HI & HL).
  - exact bus_node_inv.
  - exists None. split; [reflexivity|constructor].
  - reflexivity.
  - vm_compute. discriminate.
  - unfold one_begun. rewrite Hr. assert (p = 0%nat) as -> by (apply (f_equal (fun o => match o with Ret a _ => a | _ => 7%nat end)) in Hr; vm_compute in Hr; by rewrite Hr).
    split; [exact HI|exact HL].
Qed.

Lemma two_begun_ok : Inv (config_of bus_node) [1; 0]%nat two_begun /\ pbuf_list (PbCan 1) [1; 0]%nat two_begun.
Proof.
  destruct one_begun_ok as [HI0 HL0]. destruct (pbuf_new_state (config_of bus_node) [0%nat] 64 one_begun) as (p & s' & Hr & HI & HL).
  - exact HI0.
  - exact HL0.
  - vm_compute. reflexivity.
  - vm_compute. discriminate.
  - unfold two_begun. rewrite Hr. assert (p = 1%nat) as -> by (apply (f_equal (fun o => match o with Ret a _ => a | _ => 7%nat end)) in Hr; vm_compute in Hr; by rewrite Hr).
    split; [exact HI|exact HL].
Qed.

Lemma can_pbuf_cleanup_spec_witness : exists s',
  csp_can_pbuf_cleanup (H := lo_platform) 1 false two_begun = Ret tt s' /\ pbuf_list (PbCan 1) [1; 0]%nat s'.
Proof.
  destruct two_begun_ok as [HI HL].
  destruct (can_pbuf_cleanup_spec (H := lo_platform) (config_of bus_node) 1 [1; 0]%nat [] false two_begun) as (s' & Hr & HL' & _).
  - exact HI.
  - exact HL.
  - vm_compute. repeat split; intros; reflexivity.
  - exists s'. split; [exact Hr|]. vm_compute in HL'. vm_compute. exact HL'.
Defined.

(** Two seconds later both have timed out. *)
Lemma can_pbuf_cleanup_dangling_witness : exists s',
  csp_can_pbuf_cleanup (H := lo_platform) 1 false (set_tick 200 two_begun) = Ret tt s' /\
  pbuf_list (PbCan 1) [0%nat] s' /\ 0%nat ∈ q_items (csp_buffers s').
Proof.
  destruct two_begun_ok as [HI HL].
  destruct (can_pbuf_cleanup_dangling (H := lo_platform) (config_of bus_node) 1 1 0 [] [] false (set_tick 200 two_begun)) as (s' & Hr & HL' & Hf).
  - apply Inv_tick. exact HI.
  - apply pbuf_list_tick. exact HL.
  - vm_compute. reflexivity.
  - vm_compute. reflexivity.
  - intros q Hq. by apply not_elem_of_nil in Hq.
  - exists s'. split; [exact Hr|]. split; [exact HL'|exact Hf].
Defined.
