(* ===== verification/Reassembly.v ===== *)
(** * Reassembly: what a receiver of fragments relies on

    The state of an interface that puts packets together: the list of packets in
    the making ([receiver]), the packet a frame belongs to ([rx_origin]), the work
    on that packet ([At], [Busy]), and what a frame may leave behind ([Left]).
    The CAN and Ethernet receivers are proved against these. *)

From S2P Require Import Prelude State Monad Id Buffer Qfifo Own Pbuf.

(** ** Work on one packet of a list

    While a frame is processed, one packet [p] of the list is worked on.  [At l s]:
    the list is [l] now; apart from [p] it holds packets of the list [l0] of the
    state [s0] before, unchanged, and at least those with [keep]. *)

Section Work.
Context (d : pb_dev) (T : config) (h : list nat) (p : nat) (l0 : list nat) (s0 : node) (keep : nat -> Prop).

Record At (l : list nat) (s : node) : Prop := {
  at_inv : Inv T (l ++ h) s;
  at_list : pbuf_list d l s;
  at_old : forall q, q ∈ l -> q <> p -> q ∈ l0 /\ content_at q s = content_at q s0;
  at_keep : forall q, q ∈ l0 -> q <> p -> keep q -> q ∈ l
}.

Lemma At_errno l s e : At l s -> At l (set_dbg (set_dbg_can_errno e (dbg s)) s).
Proof.
  intros [HI (hd & Hh & Hc) Ho Hk]. constructor; [destruct HI; by constructor| |done..].
  exists hd. split; [by destruct d|done].
Qed.

Lemma wp_at_can_errno l s e : At l s -> wp (set_can_errno e) (fun _ s' => At l s') s.
Proof. intros HA. apply wp_modify. by apply At_errno. Qed.

Lemma wp_at_iface l s i f : At l s -> valid_if T i -> (forall x, if_static (f x) = if_static x) ->
  wp (mod_iface i f) (fun _ s' => At l s') s.
Proof.
  intros [HI (hd & Hh & Hc) Ho Hk] Hi Hf.
  assert (W : wp (mod_iface i f) (fun _ s' => Inv T (l ++ h) s') s) by (by apply wp_mod_iface).
  unfold wp, mod_iface in *. destruct (ifs s !! i); [|done]. constructor; [done| |done..]. exists hd. split; [by destruct d|done].
Qed.

Lemma wp_at_incr_frame l s i : At l s -> valid_if T i -> wp (incr_frame i) (fun _ s' => At l s') s.
Proof. intros. by apply wp_at_iface. Qed.
Lemma wp_at_incr_rx_error l s i : At l s -> valid_if T i -> wp (incr_rx_error i) (fun _ s' => At l s') s.
Proof. intros. by apply wp_at_iface. Qed.

(** The packet itself may change as long as it stays well formed. *)
Lemma At_put l s k f : At l s -> p ∈ l -> pkt_at p s = Some k -> pkt_next (f k) = pkt_next k -> Qfifo.packet_ok (f k) ->
  At l (put_pkt p (f k) s).
Proof.
  intros [HI HL Ho Hk] Hp Hkp Hn Hok. constructor; [|by apply pbuf_list_pkt| |done].
  - apply Inv_put_pkt; [done|apply elem_of_app; by left|done].
  - intros q Hq Hne. destruct (Ho q Hq Hne) as [H1 H2]. split; [done|]. rewrite <- H2.
    unfold content_at, pkt_at, put_pkt. simpl. by rewrite list_lookup_alter_ne.
Qed.

(** The packet leaves the list; [bf] says whether it is freed. *)
Lemma wp_at_free l s bf isr : At l s -> p ∈ l -> wp (pbuf_free d p bf isr) (fun _ s' => exists l', (p ∉ l') /\
    Inv T ((if bf then [] else [p]) ++ l' ++ h) s' /\ pbuf_list d l' s' /\
    (forall q, q ∈ l' -> q ∈ l0 /\ content_at q s' = content_at q s0) /\
    (forall q, q ∈ l0 -> q <> p -> keep q -> q ∈ l') /\
    content_at p s' = content_at p s /\ rest s' = rest s) s.
Proof.
  intros [HI HL Ho Hk] Hp. apply list_elem_of_split in Hp as (l1 & l2 & ->).
  pose proof (held_nodup _ _ _ HI) as Hn. apply list.NoDup_app in Hn as [Hn _]. apply nodup_mid in Hn as (Hp1 & Hp2 & _).
  eapply wp_conseq; [apply (wp_keeps rest); [apply keeps_pbuf_free_rest|by apply (wp_pbuf_free d T l1 p l2 h)]|].
  cbv beta. intros [] s' [(HL' & HI' & HR) Hr]. exists (l1 ++ l2). split_and!; try done.
  - rewrite elem_of_app. tauto.
  - intros q Hq. assert (Hne : q <> p) by (intros ->; rewrite elem_of_app in Hq; tauto).
    destruct (Ho q) as [H1 H2]; [rewrite elem_of_app, elem_of_cons in *; tauto|done|]. split; [done|]. by rewrite (proj1 HR).
  - intros q Hq Hne Hkq. specialize (Hk q Hq Hne Hkq). rewrite elem_of_app, elem_of_cons in *. tauto.
  - apply HR.
Qed.

(** The packet is dropped. *)
Lemma wp_at_drop l s isr : At l s -> p ∈ l -> wp (pbuf_free d p true isr) (fun _ s' => exists l', (p ∉ l') /\ At l' s') s.
Proof.
  intros HA Hp. eapply wp_conseq; [by apply (wp_at_free l s true isr)|]. cbv beta.
  intros [] s' (l' & Hn & HI & HL & Ho & Hk & _). exists l'. split; [done|]. constructor; try done. intros q Hq _. auto.
Qed.

End Work.

(** ** Which packet a frame belongs to *)

(** The receiver of device [d]: the packets [l] are on its list, each as [ok]
    says and with an identifier of its own. *)
Record receiver (d : pb_dev) (ok : nat -> csp_packet -> Prop) (mask : Z) (T : config) (h l : list nat) (s : node) : Prop := {
  rcv_inv : Inv T (l ++ h) s;
  rcv_list : pbuf_list d l s;
  rcv_ok : forall q k, q ∈ l -> pkt_at q s = Some k -> ok q k;
  rcv_keys : forall q q' k k', q ∈ l -> q' ∈ l -> pkt_at q s = Some k -> pkt_at q' s = Some k' ->
    Z.land (cfpid k) mask = Z.land (cfpid k') mask -> q = q'
}.

Section Origin.
Context `{Platform}.

Definition not_expired (s : node) (q : nat) : Prop := expired_at (now_of s) s q = false.

(** The receiver can take a frame now: a buffer is free, and no two neighbours on
    the list have timed out (see [can_pbuf_cleanup_dangling]). *)
Definition can_take (l : list nat) (s : node) : Prop :=
  sparse (expired_at (now_of s) s) l /\ q_items (csp_buffers s) <> [].

(** Where the packet [p] with contents [k] comes from: it was on the list [l] with
    a matching identifier, or it is new and nothing on the list matched. *)
Definition rx_origin (l : list nat) (id mask : Z) (begin : bool) (s : node) (p : nat) (k : csp_packet) : Prop :=
  (exists k0, p ∈ l /\ pkt_at p s = Some k0 /\ key_match id mask k0 = true /\ content k = content (set_last_used (now_of s) k0)) \/
  (exists now, begin = true /\ first_match (key_match id mask) s l = None /\ content k = content (new_pbuf id now p) /\
     forall q, q ∈ l -> not_expired s q -> q <> p).

(** The packet worked on has the identifier of the frame, and no other has. *)
Lemma origin_key l id mask begin s p k : rx_origin l id mask begin s p k -> Z.land (cfpid k) mask = Z.land id mask.
Proof.
  intros [(k0 & _ & _ & Hm & Hc)|(now & _ & _ & Hc & _)].
  - apply Z.eqb_eq in Hm. rewrite <- Hm. f_equal. exact (f_equal cfpid Hc).
  - f_equal. exact (f_equal cfpid Hc).
Qed.

Lemma first_match_false test s l q k : first_match test s l = None -> (forall q, q ∈ l -> pkt_at q s <> None) ->
  q ∈ l -> pkt_at q s = Some k -> test k = false.
Proof.
  induction l as [|x l IH]; intros Hf Ha Hq Hk; [by apply not_elem_of_nil in Hq|]. simpl in Hf.
  destruct (pkt_at x s) as [kx|] eqn:Hx; [|by destruct (Ha x ltac:(left))].
  destruct (test kx) eqn:Ht; [done|]. apply elem_of_cons in Hq as [->|Hq]; [congruence|].
  apply IH; try done. intros y Hy. apply Ha. by right.
Qed.

Lemma origin_key_other d ok T h l id mask begin s p k q kq : receiver d ok mask T h l s -> rx_origin l id mask begin s p k ->
  q ∈ l -> q <> p -> pkt_at q s = Some kq -> Z.land (cfpid kq) mask <> Z.land id mask.
Proof.
  intros HR [(k0 & Hp & Hk0 & Hm & _)|(now & _ & Hf & _ & _)] Hq Hne Hkq E.
  - apply Z.eqb_eq in Hm. apply Hne. eapply (rcv_keys _ _ _ _ _ _ _ HR); try done. congruence.
  - assert (Hx : key_match id mask kq = false).
    { eapply first_match_false; [exact Hf| |exact Hq|exact Hkq]. intros y Hy Hn.
      destruct (live_pkt s y) as (ky & Hky & _); [|congruence].
      eapply Inv_live_h; [apply (rcv_inv _ _ _ _ _ _ _ HR)|apply elem_of_app; by left]. }
    unfold key_match in Hx. by apply Z.eqb_neq in Hx.
Qed.

(** A packet that does not match the frame is not the one worked on. *)
Lemma origin_other l id mask begin s p k q kq : rx_origin l id mask begin s p k -> q ∈ l -> pkt_at q s = Some kq ->
  key_match id mask kq = false -> not_expired s q -> q <> p.
Proof.
  intros [(k0 & _ & Hk0 & Hm & _)|(now & _ & _ & _ & Hne)] Hq Hk Hkm Hn; [|by apply Hne]. intros ->. congruence.
Qed.

End Origin.

Section Receive.
Context `{Platform}.
Context (d : pb_dev) (ok : nat -> csp_packet -> Prop) (mask : Z) (T : config) (h : list nat).
Context (ok_content : forall p k k', content k = content k' -> ok p k -> ok p k').

(** What a frame may leave behind: the packet is gone from the list or well formed. *)
Definition Left (p : nat) (c : Z) (l0 : list nat) (s0 : node) (l : list nat) (s : node) : Prop :=
  At d T h p l0 s0 (not_expired s0) l s /\
  (p ∈ l -> exists k, pkt_at p s = Some k /\ ok p k /\ cfpid k = c).

Lemma left_gone p c l0 s0 l s : p ∉ l -> At d T h p l0 s0 (not_expired s0) l s -> Left p c l0 s0 l s.
Proof. intros Hp HA. split; [done|]. done. Qed.

(** The packet [p] of [l] is being worked on. *)
Definition Busy (p : nat) (l0 : list nat) (s0 : node) (l : list nat) (k : csp_packet) (s : node) : Prop :=
  At d T h p l0 s0 (not_expired s0) l s /\ p ∈ l /\ pkt_at p s = Some k.

Lemma busy_pkt_ok p l0 s0 l k s : Busy p l0 s0 l k s -> packet_ok k.
Proof.
  intros (HA & Hp & Hk). destruct (live_pkt s p) as (k' & Hk' & Hpk); [|by simplify_eq].
  eapply Inv_live_h; [exact (at_inv _ _ _ _ _ _ _ _ _ HA)|apply elem_of_app; by left].
Qed.

Lemma busy_put p l0 s0 l k s f : Busy p l0 s0 l k s -> pkt_next (f k) = pkt_next k -> packet_ok (f k) ->
  Busy p l0 s0 l (f k) (put_pkt p (f k) s).
Proof. intros (HA & Hp & Hk) Hn Hok. split_and!; [by apply At_put|done|by eapply pkt_at_put]. Qed.

(** The frames of other packets are not disturbed. *)
Definition others_kept (id : Z) (l : list nat) (s : node) (l' : list nat) (s' : node) : Prop :=
  forall q k, q ∈ l -> pkt_at q s = Some k -> key_match id mask k = false -> not_expired s q ->
    q ∈ l' /\ content_at q s' = content_at q s.

Lemma content_Some q s s' k : content_at q s' = content_at q s -> pkt_at q s' = Some k ->
  exists k0, pkt_at q s = Some k0 /\ content k0 = content k.
Proof.
  unfold content_at. intros E Hk. rewrite Hk in E. destruct (pkt_at q s) as [k0|]; [|done].
  apply (inj Some) in E. by exists k0.
Qed.

(** Fewer packets, the same contents. *)
Lemma receiver_sub l s l' s' : receiver d ok mask T h l s -> Inv T (l' ++ h) s' -> pbuf_list d l' s' ->
  (forall q, q ∈ l' -> q ∈ l /\ content_at q s' = content_at q s) -> receiver d ok mask T h l' s'.
Proof.
  intros HR HI HL Hc. constructor; [done|done| |].
  - intros q k Hq Hk. destruct (Hc q Hq) as [Hql Hcq]. destruct (content_Some _ _ _ _ Hcq Hk) as (k0 & Hk0 & E).
    eapply ok_content; [exact E|]. by eapply (rcv_ok _ _ _ _ _ _ _ HR).
  - intros q q' k k' Hq Hq' Hk Hk' E. destruct (Hc q Hq) as [Hql Hcq], (Hc q' Hq') as [Hql' Hcq'].
    destruct (content_Some _ _ _ _ Hcq Hk) as (k0 & Hk0 & E0), (content_Some _ _ _ _ Hcq' Hk') as (k0' & Hk0' & E0').
    eapply (rcv_keys _ _ _ _ _ _ _ HR q q' k0 k0'); try done.
    rewrite (f_equal cfpid E0 : cfpid k0 = cfpid k). rewrite E. f_equal. symmetry. exact (f_equal cfpid E0').
Qed.

Lemma left_receiver p l id begin s k l' s' : receiver d ok mask T h l s ->
  rx_origin l id mask begin s p k -> Left p (cfpid k) l s l' s' ->
  receiver d ok mask T h l' s' /\ others_kept id l s l' s'.
Proof.
  intros HR Ho [[HI HL Hold Hkeep] Hp]. pose proof (rcv_ok _ _ _ _ _ _ _ HR) as Hok.
  assert (Hpk : forall kq, p ∈ l' -> pkt_at p s' = Some kq -> Z.land (cfpid kq) mask = Z.land id mask).
  { intros kq Hq Hkq. destruct (Hp Hq) as (k' & Hk' & _ & Hc). simplify_eq. rewrite Hc. by eapply origin_key. }
  assert (Hqk : forall q kq, q ∈ l' -> q <> p -> pkt_at q s' = Some kq -> exists k0, q ∈ l /\ pkt_at q s = Some k0 /\ content k0 = content kq /\
    Z.land (cfpid kq) mask <> Z.land id mask).
  { intros q kq Hq Hne Hkq. destruct (Hold q Hq Hne) as [Hql Hc]. destruct (content_Some _ _ _ _ Hc Hkq) as (k0 & Hk0 & E).
    exists k0. split_and!; try done. rewrite <- (f_equal cfpid E : cfpid k0 = cfpid kq). by eapply origin_key_other. }
  split; [constructor; [done|done| |]|].
  - intros q kq Hq Hkq. destruct (decide (q = p)) as [->|Hne].
    + destruct (Hp Hq) as (k' & Hk' & Hok' & _). by simplify_eq.
    + destruct (Hqk q kq Hq Hne Hkq) as (k0 & Hql & Hk0 & E & _). eapply ok_content; [exact E|]. by apply Hok.
  - intros q q' kq kq' Hq Hq' Hkq Hkq' E. destruct (decide (q = p)) as [->|Hne], (decide (q' = p)) as [->|Hne']; try done.
    + destruct (Hqk q' kq' Hq' Hne' Hkq') as (_ & _ & _ & _ & Hx). destruct Hx. rewrite <- E. by apply Hpk.
    + destruct (Hqk q kq Hq Hne Hkq) as (_ & _ & _ & _ & Hx). destruct Hx. rewrite E. by apply Hpk.
    + destruct (Hqk q kq Hq Hne Hkq) as (k0 & Hql & Hk0 & E0 & _), (Hqk q' kq' Hq' Hne' Hkq') as (k0' & Hql' & Hk0' & E0' & _).
      eapply (rcv_keys _ _ _ _ _ _ _ HR); try done. rewrite (f_equal cfpid E0 : cfpid k0 = cfpid kq). rewrite E. f_equal. symmetry. exact (f_equal cfpid E0').
  - intros q kq Hq Hkq Hm Hn. pose proof (origin_other _ _ _ _ _ _ _ _ _ Ho Hq Hkq Hm Hn) as Hne.
    assert (Hq' : q ∈ l') by (by apply Hkeep). split; [done|]. by apply Hold.
Qed.

(** What is on the list afterwards belongs to the frame or was there before. *)
Definition others_only (id : Z) (l : list nat) (s : node) (l' : list nat) (s' : node) : Prop :=
  forall q k, q ∈ l' -> pkt_at q s' = Some k -> key_match id mask k = true \/ (q ∈ l /\ content_at q s' = content_at q s).

Lemma left_only p l id begin s k l' s' : rx_origin l id mask begin s p k -> Left p (cfpid k) l s l' s' -> others_only id l s l' s'.
Proof.
  intros Ho [[HI HL Hold Hkeep] Hp] q kq Hq Hkq. destruct (decide (q = p)) as [->|Hne]; [left|right; by apply Hold].
  destruct (Hp Hq) as (k' & Hk' & _ & Hc). simplify_eq. apply Z.eqb_eq. rewrite Hc. by eapply origin_key.
Qed.

End Receive.

(** ** Sequences of frames *)

Section Sequence.
Context {F : Type} (rx : F -> M Z) (quiet : node -> bool).

(** The frames arrive one after the other. *)
Fixpoint rx_all (fs : list F) : M unit :=
  match fs with
  | [] => mret tt
  | f :: fs' => _ ← rx f; rx_all fs'
  end.

(** [quiet] holds whenever a frame arrives. *)
Fixpoint all_quiet (fs : list F) (s : node) : bool :=
  match fs with
  | [] => true
  | f :: fs' => quiet s && match rx f s with Ret _ s' => all_quiet fs' s' | _ => true end
  end.

Lemma quiet_step f fs s (Q1 Q2 : node -> Prop) : all_quiet (f :: fs) s = true ->
  (quiet s = true -> wp (rx f) (fun _ s' => Q1 s') s) ->
  (forall s', Q1 s' -> all_quiet fs s' = true -> wp (rx_all fs) (fun _ s' => Q2 s') s') ->
  wp (rx_all (f :: fs)) (fun _ s' => Q2 s') s.
Proof.
  cbn [all_quiet rx_all]. intros [Hq Hrest]%andb_prop Hw Hnext. specialize (Hw Hq).
  unfold wp, mbind, M_bind in *. destruct (rx f s) as [r s'| | |]; [|done..]. by apply Hnext.
Qed.

(** The last frame is one of those that [P] selects. *)
Definition ends_with (P : F -> bool) (fs : list F) : Prop :=
  match list.last fs with Some f => P f = true | None => False end.

Lemma ends_cons P f fs : ends_with P (f :: fs) -> fs <> [] -> ends_with P fs.
Proof. unfold ends_with. destruct fs as [|g fs]; [done|]. by rewrite last_cons_cons. Qed.

(** None is left, so nothing follows. *)
Lemma ends_done P f fs : ends_with P (f :: fs) -> List.filter P fs = [] -> fs = [].
Proof.
  intros He Hf. destruct (decide (fs = [])) as [|Hne]; [done|]. exfalso. pose proof (ends_cons _ _ _ He Hne) as He'.
  unfold ends_with in He'. destruct (list.last fs) as [z|] eqn:El; [|done]. apply last_Some_elem_of in El.
  assert (Hin : In z (List.filter P fs)) by (apply filter_In; split; [by apply list_elem_of_In|done]).
  by rewrite Hf in Hin.
Qed.
End Sequence.
