(* ===== verification/Can.v ===== *)
(** * Can: the CAN interface and its fragmentation protocols
    ([src/interfaces/csp_if_can.c], [include/csp/interfaces/csp_if_can.h])

    CFP 1 splits a packet into a BEGIN frame (header, length, two bytes of
    data) and MORE frames of up to eight bytes that count down; CFP 2 puts half
    of the header into the CAN identifier and counts fragments up modulo 8.
    The receiver collects the frames of each identifier in a list of packets
    ([Pbuf]). *)

From S2P Require Import Prelude State Monad Id Buffer Iflist Qfifo Own Pbuf Reassembly.

(** ** Fields of the CAN identifier *)

Definition CAN_FRAME_SIZE : Z := 8.
Definition CFP1_CSP_HEADER_SIZE : Z := 4.
Definition CFP1_DATA_LEN_SIZE : Z := 2.
Definition CFP1_DATA_OFFSET : Z := 6.
Definition CFP1_DATA_SIZE_BEGIN : Z := 2.
Definition CFP_BEGIN : Z := 0.
Definition CFP_MORE : Z := 1.

Definition CFP_HOST_SIZE : Z := 5.
Definition CFP_TYPE_SIZE : Z := 1.
Definition CFP_REMAIN_SIZE : Z := 8.
Definition CFP_ID_SIZE : Z := 10.

Definition CFP_FIELD (id rsiz fsiz : Z) : Z := Z.land (u32 (Z.shiftr id rsiz)) (Z.shiftl 1 fsiz - 1).
Definition CFP_TYPE (id : Z) : Z := CFP_FIELD id (CFP_REMAIN_SIZE + CFP_ID_SIZE) CFP_TYPE_SIZE.
Definition CFP_REMAIN (id : Z) : Z := CFP_FIELD id CFP_ID_SIZE CFP_REMAIN_SIZE.

Definition CFP_MAKE_FIELD (id fsiz rsiz : Z) : Z := u32 (Z.shiftl (Z.land id (Z.shiftl 1 fsiz - 1)) rsiz).
Definition CFP_MAKE_SRC (id : Z) : Z :=
  CFP_MAKE_FIELD id CFP_HOST_SIZE (CFP_HOST_SIZE + CFP_TYPE_SIZE + CFP_REMAIN_SIZE + CFP_ID_SIZE).
Definition CFP_MAKE_DST (id : Z) : Z := CFP_MAKE_FIELD id CFP_HOST_SIZE (CFP_TYPE_SIZE + CFP_REMAIN_SIZE + CFP_ID_SIZE).
Definition CFP_MAKE_TYPE (id : Z) : Z := CFP_MAKE_FIELD id CFP_TYPE_SIZE (CFP_REMAIN_SIZE + CFP_ID_SIZE).
Definition CFP_MAKE_REMAIN (id : Z) : Z := CFP_MAKE_FIELD id CFP_REMAIN_SIZE CFP_ID_SIZE.
Definition CFP_MAKE_ID (id : Z) : Z := CFP_MAKE_FIELD id CFP_ID_SIZE 0.
Definition CFP_ID_CONN_MASK : Z :=
  Z.lor (Z.lor (CFP_MAKE_SRC (Z.shiftl 1 CFP_HOST_SIZE - 1)) (CFP_MAKE_DST (Z.shiftl 1 CFP_HOST_SIZE - 1)))
    (CFP_MAKE_ID (Z.shiftl 1 CFP_ID_SIZE - 1)).

Definition CFP2_PRIO_MASK : Z := 0x3.
Definition CFP2_PRIO_OFFSET : Z := 27.
Definition CFP2_DST_MASK : Z := 0x3FFF.
Definition CFP2_DST_OFFSET : Z := 13.
Definition CFP2_SENDER_MASK : Z := 0x3F.
Definition CFP2_SENDER_OFFSET : Z := 7.
Definition CFP2_SC_MASK : Z := 0x3.
Definition CFP2_SC_OFFSET : Z := 5.
Definition CFP2_FC_MASK : Z := 0x7.
Definition CFP2_FC_OFFSET : Z := 2.
Definition CFP2_BEGIN_MASK : Z := 0x1.
Definition CFP2_BEGIN_OFFSET : Z := 1.
Definition CFP2_END_MASK : Z := 0x1.
Definition CFP2_END_OFFSET : Z := 0.
Definition CFP2_SRC_MASK : Z := 0x3FFF.
Definition CFP2_SRC_OFFSET : Z := 18.
Definition CFP2_DPORT_MASK : Z := 0x3F.
Definition CFP2_DPORT_OFFSET : Z := 12.
Definition CFP2_SPORT_MASK : Z := 0x3F.
Definition CFP2_SPORT_OFFSET : Z := 6.
Definition CFP2_FLAGS_MASK : Z := 0x3F.
Definition CFP2_FLAGS_OFFSET : Z := 0.
Definition CFP2_ID_CONN_MASK : Z :=
  Z.lor (Z.lor (Z.lor (Z.shiftl CFP2_DST_MASK CFP2_DST_OFFSET) (Z.shiftl CFP2_SENDER_MASK CFP2_SENDER_OFFSET))
    (Z.shiftl CFP2_PRIO_MASK CFP2_PRIO_OFFSET)) (Z.shiftl CFP2_SC_MASK CFP2_SC_OFFSET).

(** The tags of the transmit functions as nexthop functions. *)
Definition CAN1_NEXTHOP : nat := 2.
Definition CAN2_NEXTHOP : nat := 3.

(** [iface->interface_data] *)
Definition get_can (i : nat) : M csp_can := fun s =>
  match can s !! i with Some (Some d) => Ret d s | _ => Undef end.
Definition mod_can (i : nat) (f : csp_can -> csp_can) : M unit := fun s =>
  match can s !! i with Some (Some d) => Ret tt (set_can (<[i := Some (f d)]> (can s)) s) | _ => Undef end.

(** ** Transmit *)

Section Tx.
Context `{Drivers}.

(** A driver call that fails: the packet stays with the caller. *)
Definition can_tx_frame (iface : nat) (can_id : Z) (data : list Z) (next : M Z) : M Z :=
  r ← drv_send iface can_id data;
  if negb (r =? CSP_ERR_NONE) then incr_tx_error iface ;; mret CSP_ERR_DRIVER else next.

(** The identifier of a CFP 1 frame. *)
Definition can1_id (src' dest ident type remain' : Z) : Z :=
  Z.lor (Z.lor (Z.lor (Z.lor (CFP_MAKE_SRC src') (CFP_MAKE_DST dest)) (CFP_MAKE_ID ident))
    (CFP_MAKE_TYPE type)) (CFP_MAKE_REMAIN remain').

(** The [while (tx_count < packet->length)] of [csp_can1_tx], and its end. *)
Fixpoint can1_tx_more (fuel : nat) (iface packet : nat) (ident dest tx_count : Z) : M Z :=
  match fuel with
  | O => undef
  | S fuel' =>
      k ← get_pkt packet;
      if tx_count <? pkt_length k then
        let data_bytes := if CAN_FRAME_SIZE <=? pkt_length k - tx_count then CAN_FRAME_SIZE else pkt_length k - tx_count in
        let can_id := can1_id (src (pkt_id k)) dest ident CFP_MORE
          ((pkt_length k - tx_count - data_bytes + CAN_FRAME_SIZE - 1) / CAN_FRAME_SIZE) in
        let tx_count := u16 (tx_count + data_bytes) in
        data ← read_mem packet (tx_count - data_bytes) data_bytes;
        can_tx_frame iface can_id data (can1_tx_more fuel' iface packet ident dest tx_count)
      else
        csp_buffer_free (Some packet) ;;
        mret CSP_ERR_NONE
  end.

Definition csp_can1_tx (iface : nat) (via : Z) (packet : nat) (from_me : bool) : M Z :=
  k ← get_pkt packet;
  x ← get_iface iface;
  if dst (pkt_id k) =? if_addr x then
    csp_qfifo_write (Some packet) (Some iface) false ;; mret CSP_ERR_NONE
  else
  d ← get_can iface;
  let ident := cfp_packet_counter d in
  mod_can iface (fun d => set_cfp_packet_counter (u32 (cfp_packet_counter d + 1)) d) ;;
  let dest := u8 (if negb (via =? CSP_NO_VIA_ADDRESS) then via else dst (pkt_id k)) in
  let can_id := can1_id (src (pkt_id k)) dest ident CFP_BEGIN ((pkt_length k + CFP1_DATA_OFFSET - 1) / CAN_FRAME_SIZE) in
  csp_id_prepend packet ;;
  header ← read_frame packet CFP1_CSP_HEADER_SIZE;
  let len := le_bytes 2 (htobe16 (pkt_length k)) in
  let data_bytes := if pkt_length k <=? CFP1_DATA_SIZE_BEGIN then pkt_length k else CFP1_DATA_SIZE_BEGIN in
  data ← read_mem packet 0 data_bytes;
  can_tx_frame iface can_id (header ++ len ++ data)
    (can1_tx_more (S (Z.to_nat (pkt_length k))) iface packet ident dest data_bytes).

(** The fields of the identifier that all frames of a CFP 2 packet share. *)
Definition can2_id (k : csp_packet) (addr sender_count : Z) : Z :=
  Z.lor (Z.lor (Z.lor
    (Z.shiftl (Z.land (pri (pkt_id k)) CFP2_PRIO_MASK) CFP2_PRIO_OFFSET)
    (Z.shiftl (Z.land (dst (pkt_id k)) CFP2_DST_MASK) CFP2_DST_OFFSET))
    (Z.shiftl (Z.land addr CFP2_SENDER_MASK) CFP2_SENDER_OFFSET))
    (Z.shiftl (Z.land sender_count CFP2_SC_MASK) CFP2_SC_OFFSET).

Definition CFP2_BEGIN : Z := Z.shiftl (Z.land 1 CFP2_BEGIN_MASK) CFP2_BEGIN_OFFSET.
Definition CFP2_END : Z := Z.shiftl (Z.land 1 CFP2_END_MASK) CFP2_END_OFFSET.

(** The rest of the header, in the first four data bytes. *)
Definition can2_extension (k : csp_packet) : Z :=
  Z.lor (Z.lor (Z.lor
    (u32 (Z.shiftl (Z.land (src (pkt_id k)) CFP2_SRC_MASK) CFP2_SRC_OFFSET))
    (Z.shiftl (Z.land (dport (pkt_id k)) CFP2_DPORT_MASK) CFP2_DPORT_OFFSET))
    (Z.shiftl (Z.land (sport (pkt_id k)) CFP2_SPORT_MASK) CFP2_SPORT_OFFSET))
    (Z.shiftl (Z.land (flags (pkt_id k)) CFP2_FLAGS_MASK) CFP2_FLAGS_OFFSET).

(** The [while (tx_count < packet->length)] of [csp_can2_tx], and its end. *)
Fixpoint can2_tx_more (fuel : nat) (iface packet : nat) (sender_count fragment_count tx_count : Z) : M Z :=
  match fuel with
  | O => undef
  | S fuel' =>
      k ← get_pkt packet;
      if tx_count <? pkt_length k then
        x ← get_iface iface;
        let can_id := can2_id k (if_addr x) sender_count in
        let can_id := Z.lor can_id (Z.shiftl (Z.land fragment_count CFP2_FC_MASK) CFP2_FC_OFFSET) in
        let data_bytes := if CAN_FRAME_SIZE <=? pkt_length k - tx_count then CAN_FRAME_SIZE else pkt_length k - tx_count in
        let can_id := if tx_count + data_bytes =? pkt_length k then Z.lor can_id CFP2_END else can_id in
        data ← read_mem packet tx_count data_bytes;
        can_tx_frame iface can_id data
          (can2_tx_more fuel' iface packet sender_count (fragment_count + 1) (tx_count + data_bytes))
      else
        csp_buffer_free (Some packet) ;;
        mret CSP_ERR_NONE
  end.

Definition csp_can2_tx (iface : nat) (via : Z) (packet : nat) (from_me : bool) : M Z :=
  k ← get_pkt packet;
  x ← get_iface iface;
  if dst (pkt_id k) =? if_addr x then
    csp_qfifo_write (Some packet) (Some iface) false ;; mret CSP_ERR_NONE
  else
  d ← get_can iface;
  let sender_count := i32 (cfp_packet_counter d) in
  mod_can iface (fun d => set_cfp_packet_counter (u32 (cfp_packet_counter d + 1)) d) ;;
  let can_id := Z.lor (can2_id k (if_addr x) sender_count) CFP2_BEGIN in
  let header_extension := htobe32 (can2_extension k) in
  let data_bytes := if 4 <=? pkt_length k then 4 else pkt_length k in
  data ← read_mem packet 0 data_bytes;
  let tx_count := data_bytes in
  let can_id := if tx_count =? pkt_length k then Z.lor can_id CFP2_END else can_id in
  can_tx_frame iface can_id (le_bytes 4 header_extension ++ data)
    (can2_tx_more (S (Z.to_nat (pkt_length k))) iface packet sender_count 1 tx_count).

End Tx.

(** ** Receive *)

Section Rx.
Context `{Platform}.

(** The packet a frame belongs to: one on the list, or a new one when the frame
    begins a packet; [None] when there is none. *)
Definition can_rx_packet (iface : nat) (id mask : Z) (begin isr : bool) : M (option nat) :=
  r ← csp_can_pbuf_find iface id mask isr;
  match r with
  | Some p => mret (Some p)
  | None =>
      if begin then p ← csp_can_pbuf_new iface id isr; mret (Some p)
      else incr_frame iface ;; mret None
  end.

(** [case CFP_BEGIN]: the result says whether control falls through. *)
Definition can1_begin (iface p : nat) (id : Z) (data : list Z) (dlc : Z) (isr : bool) : M bool :=
  if dlc <? 6 then
    set_can_errno CSP_DBG_CAN_ERR_SHORT_BEGIN ;;
    incr_frame iface ;;
    csp_can_pbuf_free iface p true isr ;;
    mret false
  else
  _ ← csp_id_setup_rx p;
  hdr ← rx_bytes data 0 4;
  k ← get_pkt p;
  write_mem (frame_buf k) (frame_off k) hdr ;;
  mod_pkt p (fun k => set_frame_length (u16 (frame_length k + 4)) k) ;;
  _ ← csp_id_strip p;
  len ← rx_bytes data 4 2;
  mod_pkt p (set_pkt_length (be16toh (le_val len))) ;;
  k ← get_pkt p;
  if CSP_BUFFER_SIZE <? pkt_length k then
    incr_rx_error iface ;;
    csp_can_pbuf_free iface p true isr ;;
    mret false
  else
  mod_pkt p (set_rx_count 0) ;;
  mod_pkt p (set_remain (u16 (CFP_REMAIN id + 1))) ;;
  mret true.

(** [case CFP_MORE] *)
Definition can1_more (iface p : nat) (id : Z) (data : list Z) (dlc offset : Z) (isr : bool) : M unit :=
  k ← get_pkt p;
  if negb (u16 (CFP_REMAIN id) =? remain k - 1) then
    set_can_errno CSP_DBG_CAN_ERR_FRAME_LOST ;;
    csp_can_pbuf_free iface p true isr ;;
    incr_frame iface
  else
  mod_pkt p (fun k => set_remain (u16 (remain k - 1)) k) ;;
  if pkt_length k <? rx_count k + dlc - offset then
    set_can_errno CSP_DBG_CAN_ERR_RX_OVF ;;
    incr_frame iface ;;
    csp_can_pbuf_free iface p true isr
  else
  bs ← rx_bytes data offset (dlc - offset);
  write_mem p (rx_count k) bs ;;
  mod_pkt p (fun k => set_rx_count (u16 (rx_count k + (dlc - offset))) k) ;;
  k ← get_pkt p;
  if negb (rx_count k =? pkt_length k) then mret tt else
  x ← get_iface iface;
  when (dst (pkt_id k) =? 0x1F) (mod_pkt p (fun k => set_pkt_id (set_dst (if_addr x) (pkt_id k)) k)) ;;
  csp_can_pbuf_free iface p false isr ;;
  csp_qfifo_write (Some p) (Some iface) isr.

Definition csp_can1_rx (iface : nat) (id : Z) (data : list Z) (dlc : Z) (isr : bool) : M Z :=
  r ← can_rx_packet iface id CFP_ID_CONN_MASK (CFP_TYPE id =? CFP_BEGIN) isr;
  match r with
  | None => mret CSP_ERR_INVAL
  | Some p =>
      (if CFP_TYPE id =? CFP_BEGIN then
         fall ← can1_begin iface p id data dlc isr;
         when fall (can1_more iface p id data dlc 6 isr)
       else if CFP_TYPE id =? CFP_MORE then can1_more iface p id data dlc 0 isr
       else
         set_can_errno CSP_DBG_CAN_ERR_UNKNOWN ;;
         csp_can_pbuf_free iface p true isr) ;;
      mret CSP_ERR_NONE
  end.

Definition can2_is_begin (id : Z) : bool := flagged id (Z.shiftl CFP2_BEGIN_MASK CFP2_BEGIN_OFFSET).
Definition can2_is_end (id : Z) : bool := flagged id (Z.shiftl CFP2_END_MASK CFP2_END_OFFSET).

(** The BEGIN branch of [csp_can2_rx]: [None] is the early return, [Some n] the
    number of bytes of the frame that were consumed. *)
Definition can2_begin (iface p : nat) (id : Z) (data : list Z) (dlc : Z) (isr : bool) : M (option Z) :=
  if dlc <? 4 then
    set_can_errno CSP_DBG_CAN_ERR_SHORT_BEGIN ;;
    incr_frame iface ;;
    csp_can_pbuf_free iface p true isr ;;
    mret None
  else
  _ ← csp_id_setup_rx p;
  k ← get_pkt p;
  let first_two := htobe16 (u16 (Z.shiftr id CFP2_DST_OFFSET)) in
  write_mem (frame_buf k) (frame_off k) (le_bytes 2 first_two) ;;
  hdr ← rx_bytes data 0 4;
  write_mem (frame_buf k) (frame_off k + 2) hdr ;;
  mod_pkt p (fun k => set_pkt_length 0 (set_frame_length 6 k)) ;;
  mod_pkt p (set_rx_count 1) ;;
  mret (Some 4).

(** The FRAGMENT branch. *)
Definition can2_fragment (iface p : nat) (id : Z) (isr : bool) : M (option Z) :=
  let fragment_counter := Z.land (Z.shiftr id CFP2_FC_OFFSET) CFP2_FC_MASK in
  k ← get_pkt p;
  if negb (rx_count k =? fragment_counter) then
    set_can_errno CSP_DBG_CAN_ERR_FRAME_LOST ;;
    csp_can_pbuf_free iface p true isr ;;
    incr_frame iface ;;
    mret None
  else
    mod_pkt p (fun k => set_rx_count (Z.land (rx_count k + 1) CFP2_FC_MASK) k) ;;
    mret (Some 0).

(** After the END frame: parse the header, rewrite a broadcast destination, hand
    the packet to the router. *)
Definition can2_deliver (iface p : nat) (isr : bool) : M unit :=
  _ ← csp_id_strip p;
  k ← get_pkt p;
  x ← get_iface iface;
  when (dst (pkt_id k) =? 0x3FFF) (mod_pkt p (fun k => set_pkt_id (set_dst (if_addr x) (pkt_id k)) k)) ;;
  csp_can_pbuf_free iface p false isr ;;
  csp_qfifo_write (Some p) (Some iface) isr.

(** The rest: append the bytes from [off], and deliver after the END frame. *)
Definition can2_append (iface p : nat) (id : Z) (data : list Z) (off dlc : Z) (isr : bool) : M Z :=
  k ← get_pkt p;
  if negb (Nat.eqb (frame_buf k) p) then undef else
  if CSP_BUFFER_SIZE <? frame_off k + frame_length k + dlc then
    set_can_errno CSP_DBG_CAN_ERR_RX_OVF ;;
    incr_rx_error iface ;;
    csp_can_pbuf_free iface p true isr ;;
    mret CSP_ERR_INVAL
  else
  bs ← rx_bytes data off dlc;
  write_mem p (frame_off k + frame_length k) bs ;;
  mod_pkt p (fun k => set_frame_length (u16 (frame_length k + dlc)) k) ;;
  when (can2_is_end id) (can2_deliver iface p isr) ;;
  mret CSP_ERR_NONE.

Definition csp_can2_rx (iface : nat) (id : Z) (data : list Z) (dlc : Z) (isr : bool) : M Z :=
  r ← can_rx_packet iface id CFP2_ID_CONN_MASK (can2_is_begin id) isr;
  match r with
  | None => mret CSP_ERR_INVAL
  | Some p =>
      c ← (if can2_is_begin id then can2_begin iface p id data dlc isr else can2_fragment iface p id isr);
      match c with
      | None => mret CSP_ERR_INVAL
      | Some off => can2_append iface p id data off (dlc - off) isr
      end
  end.

Definition csp_can_rx (iface : nat) (id : Z) (data : list Z) (dlc : Z) (isr : bool) : M Z :=
  s ← gets (fun s => s);
  if version (conf s) =? 1 then csp_can1_rx iface id data dlc isr else csp_can2_rx iface id data dlc isr.

End Rx.

(** ** Adding and removing the interface *)

Definition csp_can_add_interface (iface : option nat) : M Z :=
  match iface with
  | None => mret CSP_ERR_INVAL
  | Some i =>
      x ← get_iface i;
      s ← gets (fun s => s);
      match if_name x, mjoin (can s !! i) with
      | Some _, Some d =>
          match can_tx_func d with
          | None => mret CSP_ERR_INVAL
          | Some _ =>
              mod_can i (set_cfp_packet_counter 0) ;;
              mod_iface i (set_if_nexthop (if version (conf s) =? 1 then CAN1_NEXTHOP else CAN2_NEXTHOP)) ;;
              csp_iflist_add iface ;;
              mret CSP_ERR_NONE
          end
      | _, _ => mret CSP_ERR_INVAL
      end
  end.

Definition csp_can_remove_interface (iface : option nat) : M Z :=
  match iface with
  | None => mret CSP_ERR_INVAL
  | Some _ => csp_iflist_remove iface ;; mret CSP_ERR_NONE
  end.

(** ** Which packet a frame belongs to *)

Section RxLaws.
Context `{Platform}.
Context (T : config) (i : nat) (h : list nat).

Lemma wp_can_rx_packet l id mask (begin isr : bool) s : Inv T (l ++ h) s -> pbuf_list (PbCan i) l s -> valid_if T i ->
  can_take l s -> wp (can_rx_packet i id mask begin isr) (fun r s' => match r with
    | Some p => exists l' k, p ∈ l' /\ At (PbCan i) T h p l s (not_expired s) l' s' /\ pkt_at p s' = Some k /\
        rx_origin l id mask begin s p k /\ rest s' = rest s
    | None => Inv T (l ++ h) s' /\ pbuf_list (PbCan i) l s' /\ (forall q, content_at q s' = content_at q s) /\
        begin = false /\ first_match (key_match id mask) s l = None
    end) s.
Proof.
  intros HI HL Hi [Hsp Hfree]. unfold can_rx_packet. apply wp_bind. pose proof (can_find_run T i l h id mask isr s HI HL) as Hf.
  destruct (first_match (key_match id mask) s l) as [p|] eqn:Em.
  - destruct Hf as (k & Hk & Hp & Hm & Hf). unfold wp at 1. rewrite Hf. apply wp_ret.
    set (s1 := set_tick (S (tick s)) s). assert (Hk1 : pkt_at p s1 = Some k) by done.
    exists l, (set_last_used (now_of s) k). split_and!; [done| |by eapply pkt_at_put|left; by exists k|done].
    assert (HA : At (PbCan i) T h p l s (not_expired s) l s1) by (constructor; [by apply Inv_tick|by apply pbuf_list_tick|done..]).
    apply (At_put _ _ _ _ _ _ _ l s1 k (set_last_used (now_of s))); try done.
    destruct (live_pkt s p) as (k' & Hk' & Hok); [eapply Inv_live_h; [exact HI|apply elem_of_app; by left]|]. by simplify_eq.
  - unfold wp at 1. rewrite Hf. destruct begin.
    + apply wp_bind. wp_use (by apply (wp_can_pbuf_new T i l h id isr)). intros p s' (now & HL' & HI' & Hk & Hp & Ho & Hr).
      apply wp_ret. unfold content_at in Hk. destruct (pkt_at p s') as [k|] eqn:Hkp; [|done]. apply (inj Some) in Hk.
      exists (p :: unexpired (now_of s) s l), k. split_and!; [left| |done| |done].
      * constructor; [done|done| |].
        -- intros q [->|Hq]%elem_of_cons Hne; [done|]. split; [by apply list_elem_of_filter in Hq as [_ Hq]|].
           apply Ho, elem_of_app. by left.
        -- intros q Hq Hne Hk'. right. by apply list_elem_of_filter.
      * right. exists now. split_and!; try done. intros q Hq Hn ->. apply Hp, elem_of_app. left. by apply list_elem_of_filter.
    + apply wp_bind. assert (HA : forall p, At (PbCan i) T h p l s (fun _ => True) l s) by done.
      eapply wp_conseq; [apply (wp_keeps pool); [unfold incr_frame; keeps_tac|by apply (wp_at_incr_frame (PbCan i) T h 0%nat l s (fun _ => True))]|].
      cbv beta. intros [] s1 [[HI1 HL1 _ _] Hp]. apply wp_ret. split_and!; [done|done| |done|done]. intros q. unfold content_at, pkt_at. by rewrite Hp.
Qed.

(** No packet on the list has timed out, and there is a free buffer and room in
    the router queue. *)
Definition quiet (s : node) : bool :=
  forallb (fun q => negb (expired_at (now_of s) s q)) (pbufs_of (PbCan i) s) &&
  negb (Nat.eqb (length (q_items (csp_buffers s))) 0) && Nat.ltb (q_size (qfifo s)) (q_cap (qfifo s)).

Lemma quiet_take ok mask l s : receiver (PbCan i) ok mask T h l s -> quiet s = true ->
  can_take l s /\ (forall q, q ∈ l -> not_expired s q) /\ (q_size (qfifo s) < q_cap (qfifo s))%nat.
Proof.
  intros HR [[Hq Hf]%andb_prop Hr]%andb_prop. destruct (rcv_list _ _ _ _ _ _ _ HR) as (hd & Hh & Hc).
  rewrite (pbufs_of_list _ l) in Hq; [|apply HR|eapply pchain_bound; [apply (rcv_inv _ _ _ _ _ _ _ HR)|exact Hc]].
  assert (Hn : forall q, q ∈ l -> not_expired s q).
  { intros q Hin. rewrite forallb_forall in Hq. specialize (Hq q ltac:(by apply list_elem_of_In)). by apply negb_true_iff in Hq. }
  split_and!; [|done|by apply Nat.ltb_lt in Hr]. split.
  - clear -Hn. induction l as [|p l IH]; [done|]. split; [|apply IH; intros; apply Hn; by right].
    destruct l as [|q l]; [done|]. intros _. apply Hn. right. left.
  - intros E. rewrite E in Hf. done.
Qed.
(** A finished packet leaves the list, and is queued if there is room. *)
Lemma wp_hand_on p l0 s0 l s isr k : Busy (PbCan i) T h p l0 s0 l k s -> valid_if T i ->
  wp (csp_can_pbuf_free i p false isr ;; csp_qfifo_write (Some p) (Some i) isr) (fun _ s' =>
    (exists l', (p ∉ l') /\ At (PbCan i) T h p l0 s0 (not_expired s0) l' s') /\
    forall q', q_enqueue (Some i, Some p) (qfifo s) = Some q' -> qfifo s' = q' /\ content_at p s' = Some (content k)) s.
Proof.
  intros (HA & Hp & Hk) Hi. apply wp_bind. unfold csp_can_pbuf_free. wp_use (by apply (wp_at_free (PbCan i) T h p l0 s0 (not_expired s0) l s false isr)).
  intros [] s3 (l' & Hp' & HI3 & HL3 & Ho3 & Hk3 & Hc3 & Hr3).
  wp_use (by apply (wp_deliver (PbCan i) T l' p h i isr)). intros [] s4 (HI4 & HL4 & Hp4 & Hq4).
  assert (Ec : forall q, content_at q s4 = content_at q s3) by (intros q; unfold content_at; by rewrite Hp4). split.
  - exists l'. split; [done|]. constructor; [exact HI4|exact HL4| |exact Hk3]. intros q Hq _. rewrite Ec. by apply Ho3.
  - intros q' Hq. assert (Eq : qfifo s3 = qfifo s) by exact (f_equal qfifo Hr3). rewrite <- Eq in Hq.
    split; [by rewrite (Hq4 q' Hq)|]. rewrite Ec, Hc3. unfold content_at. by rewrite Hk.
Qed.
End RxLaws.

(** ** Frames on the bus *)

Abbreviation can_frame := (Z * list Z)%type.

(** The state with the frames [fs] more on the wire. *)
Definition put_frames (i : nat) (fs : list can_frame) (s : node) : node :=
  set_wire (rev (map (fun f => WireBytes i (fst f) (snd f)) fs) ++ wire s) s.

Lemma put_frames_app i a b s : put_frames i b (put_frames i a s) = put_frames i (a ++ b) s.
Proof. unfold put_frames. simpl. by rewrite map_app, rev_app_distr, <- app_assoc. Qed.

Lemma get_can_at i d s : can s !! i = Some (Some d) -> get_can i s = Ret d s.
Proof. intros Hd. unfold get_can. by rewrite Hd. Qed.
Lemma mod_can_at i d f s : can s !! i = Some (Some d) -> mod_can i f s = Ret tt (set_can (<[i := Some (f d)]> (can s)) s).
Proof. intros Hd. unfold mod_can. by rewrite Hd. Qed.

Lemma tx_frame_run `{Drivers} (Hdrv : forall n, drv_tx n = CSP_ERR_NONE) i id bs next s : can_tx_frame i id bs next s = next (put_frames i [(id, bs)] s).
Proof. unfold can_tx_frame. erewrite bind_ret by reflexivity. rewrite Hdrv. reflexivity. Qed.
