(* ===== verification/CanCfp2.v ===== *)
(** * CanCfp2: correctness of CAN fragmentation, version 2

    The receiver is safe on any frame, does not disturb the packets of other
    senders, and puts together what the transmitter took apart. *)

From S2P Require Import Prelude State Monad Id Buffer Iflist Qfifo Own Node Pbuf Reassembly Can.

(** ** Runs of the receiver's parts on one packet *)

(** A packet that is being put together: the header and data so far lie in the
    buffer from 6 bytes below [data]. *)
Record pbuf2_ok (p : nat) (k : csp_packet) : Prop := {
  pb2_mem : zlen (pkt_mem k) = CSP_PACKET_PADDING_BYTES + CSP_BUFFER_SIZE;
  pb2_buf : frame_buf k = p;
  pb2_off : frame_off k = -6;
  pb2_len : 6 <= frame_length k <= 6 + CSP_BUFFER_SIZE
}.

Lemma pbuf2_content p k k' : content k = content k' -> pbuf2_ok p k -> pbuf2_ok p k'.
Proof.
  intros E [Hm Hb Ho Hl]. assert (E2 : forall {A} (f : csp_packet -> A), f (content k) = f (content k')) by (intros; by rewrite E).
  constructor; [rewrite <- Hm; symmetry; exact (f_equal (fun m => zlen m) (E2 _ pkt_mem))
    |rewrite <- Hb; symmetry; exact (E2 _ frame_buf)|rewrite <- Ho; symmetry; exact (E2 _ frame_off)|].
  pose proof (E2 _ frame_length) as El. simpl in El. by rewrite <- El.
Qed.

(** The header bytes of a packet, from its first frame. *)
Definition can2_header (id : Z) (hdr : list Z) : list Z := be_bytes 2 (u16 (Z.shiftr id CFP2_DST_OFFSET)) ++ hdr.

(** The packet after a BEGIN frame, without the data. *)
Definition begun2 (p : nat) (m : list Z) (k : csp_packet) : csp_packet :=
  set_rx_count 1 (set_pkt_length 0 (set_frame_length 6 (set_pkt_mem m (set_frame_off (-6) (set_frame_buf p k))))).

Lemma begin2_run i p id data dlc isr k hdr s : is_v2 s = true -> pkt_at p s = Some k ->
  zlen (pkt_mem k) = CSP_PACKET_PADDING_BYTES + CSP_BUFFER_SIZE -> 4 <= dlc -> mem_read data 0 4 = Some hdr ->
  exists m, can2_begin i p id data dlc isr s = Ret (Some 4) (put_pkt p (begun2 p m k) s) /\
    zlen m = zlen (pkt_mem k) /\ mem_read m 2 6 = Some (can2_header id hdr).
Proof.
  intros Hv Hk Hm Hd Hr. unfold CSP_PACKET_PADDING_BYTES, CSP_BUFFER_SIZE in *.
  pose proof (mem_read_length _ _ _ _ Hr) as Hh. assert (Hs : hdr_size s = 6) by (unfold hdr_size; by rewrite Hv).
  set (two := le_bytes 2 (htobe16 (u16 (Z.shiftr id CFP2_DST_OFFSET)))).
  assert (Htwo : zlen two = 2) by (unfold two; by rewrite length_le_bytes).
  destruct (mem_write_ok (pkt_mem k) (8 + -6) two) as [m1 Hw1]; [lia..|]. pose proof (mem_write_length _ _ _ _ Hw1) as Hl1.
  destruct (mem_write_ok m1 (8 + (-6 + 2)) hdr) as [m2 Hw2]; [lia..|]. pose proof (mem_write_length _ _ _ _ Hw2) as Hl2.
  exists m2. split_and!; [|lia|].
  - unfold can2_begin. rewrite (proj2 (Z.ltb_ge _ _)) by lia. erewrite bind_ret by (by apply setup_rx_at). rewrite Hs.
    set (k1 := set_frame_length 0 _). erewrite bind_ret by (eapply get_pkt_at, pkt_at_put; exact Hk).
    erewrite bind_ret by (eapply write_mem_at; [eapply pkt_at_put; exact Hk|exact Hw1]). rewrite put_pkt_put.
    erewrite bind_ret by (by apply rx_bytes_at).
    erewrite bind_ret by (eapply write_mem_at; [eapply pkt_at_put; exact Hk|exact Hw2]). rewrite put_pkt_put.
    erewrite bind_ret by (eapply mod_pkt_at, pkt_at_put; exact Hk). rewrite put_pkt_put.
    erewrite bind_ret by (eapply mod_pkt_at, pkt_at_put; exact Hk). by rewrite put_pkt_put.
  - unfold can2_header. rewrite <- le_bytes_swap. fold (htobe16 (u16 (Z.shiftr id CFP2_DST_OFFSET))). fold two.
    change 6 with (2 + 4). apply mem_read_app.
    + erewrite mem_read_write_before by (first [exact Hw2|lia]). rewrite <- Htwo at 2. by apply (mem_read_write (pkt_mem k)).
    + rewrite <- Hh. by apply (mem_read_write m1).
Qed.

(** A further frame with the expected fragment number. *)
Lemma fragment2_run i p id isr k s : pkt_at p s = Some k -> rx_count k = Z.land (Z.shiftr id CFP2_FC_OFFSET) CFP2_FC_MASK ->
  can2_fragment i p id isr s = Ret (Some 0) (put_pkt p (set_rx_count (Z.land (rx_count k + 1) CFP2_FC_MASK) k) s).
Proof.
  intros Hk Hc. unfold can2_fragment. cbv zeta. erewrite bind_ret by (by apply get_pkt_at). rewrite <- Hc, Z.eqb_refl.
  cbv [negb]. erewrite bind_ret by (eapply mod_pkt_at; exact Hk). done.
Qed.

(** ** Appending a frame *)

(** The packet with the bytes of one more frame. *)
Definition grown2 (m : list Z) (n : Z) (k : csp_packet) : csp_packet :=
  set_frame_length (frame_length k + n) (set_pkt_mem m k).

(** The packet as the router gets it: header parsed, broadcast rewritten. *)
Definition arrived2 (addr : Z) (k : csp_packet) (bs : list Z) : csp_packet :=
  let k' := stripped 6 (dec2 bs) k in
  if dst (pkt_id k') =? 0x3FFF then set_pkt_id (set_dst addr (pkt_id k')) k' else k'.

Lemma append2_run i p id data off n isr k prev bs s : pkt_at p s = Some k -> pbuf2_ok p k ->
  mem_read data off n = Some bs -> frame_off k + frame_length k + n <= CSP_BUFFER_SIZE ->
  mem_read (pkt_mem k) 2 (frame_length k) = Some prev ->
  exists m, can2_append i p id data off n isr s =
      (when (can2_is_end id) (can2_deliver i p isr) ;; mret CSP_ERR_NONE) (put_pkt p (grown2 m n k) s) /\
    pbuf2_ok p (grown2 m n k) /\ mem_read m 2 (frame_length k + n) = Some (prev ++ bs).
Proof.
  intros Hk [Hm Hb Ho Hl] Hr Hfit Hprev. unfold CSP_PACKET_PADDING_BYTES, CSP_BUFFER_SIZE in *.
  pose proof (mem_read_length _ _ _ _ Hr) as Hn. pose proof (mem_read_length _ _ _ _ Hprev) as Hp.
  destruct (mem_write_ok (pkt_mem k) (8 + (frame_off k + frame_length k)) bs) as [m Hw]; [lia..|].
  pose proof (mem_write_length _ _ _ _ Hw) as Hml. exists m. split_and!.
  - unfold can2_append. erewrite bind_ret by (by apply get_pkt_at). rewrite Hb, Nat.eqb_refl. cbv [negb].
    rewrite (proj2 (Z.ltb_ge _ _)) by (unfold CSP_BUFFER_SIZE; lia). erewrite bind_ret by (by apply rx_bytes_at).
    erewrite bind_ret by (by eapply write_mem_at). erewrite bind_ret by (eapply mod_pkt_at, pkt_at_put; exact Hk).
    rewrite put_pkt_put. unfold grown2. simpl frame_length. rewrite u16_small by lia. done.
  - constructor; simpl; unfold CSP_PACKET_PADDING_BYTES, CSP_BUFFER_SIZE; [lia|done|done|lia].
  - apply mem_read_app.
    + erewrite mem_read_write_before by (first [exact Hw|lia]). done.
    + replace (2 + frame_length k) with (8 + (frame_off k + frame_length k)) by lia. rewrite <- Hn. by eapply mem_read_write.
Qed.

Section Safe.
Context `{Platform}.
Context (T : config) (i : nat) (h : list nat).
Context (Hver : version (cf_conf T) = 2) (Hi : valid_if T i).

Lemma inv_is_v2 l s : Inv T l s -> is_v2 s = true.
Proof. intros HI. unfold is_v2. change (conf s) with (cf_conf (config_of s)). by rewrite (inv_conf _ _ _ HI), Hver. Qed.

Abbreviation Left := (Left (PbCan i) pbuf2_ok T h).
Abbreviation Busy := (Busy (PbCan i) T h).

Lemma wp_left_drop {A} p c l0 s0 l s (m : M A) isr : At (PbCan i) T h p l0 s0 (not_expired s0) l s -> p ∈ l ->
  (forall s', (exists l', (p ∉ l') /\ At (PbCan i) T h p l0 s0 (not_expired s0) l' s') -> wp m (fun _ s2 => exists l', Left p c l0 s0 l' s2) s') ->
  wp (csp_can_pbuf_free i p true isr ;; m) (fun _ s2 => exists l', Left p c l0 s0 l' s2) s.
Proof.
  intros HA Hp Hm. apply wp_bind. unfold csp_can_pbuf_free. wp_use (by apply (wp_at_drop (PbCan i) T h p l0 s0 (not_expired s0) l)).
  intros [] s1 H1. by apply Hm.
Qed.

(** Delivery: the packet leaves the list, and is queued if there is room. *)
Lemma wp_deliver2 p l0 s0 l s isr k hdr : Busy p l0 s0 l k s -> pbuf2_ok p k -> mem_read (pkt_mem k) 2 6 = Some hdr ->
  wp (can2_deliver i p isr) (fun _ s' => (exists l', (p ∉ l') /\ At (PbCan i) T h p l0 s0 (not_expired s0) l' s') /\
    forall q' x, q_enqueue (Some i, Some p) (qfifo s) = Some q' -> ifs s !! i = Some x ->
      qfifo s' = q' /\ content_at p s' = Some (content (arrived2 (if_addr x) k hdr))) s.
Proof.
  intros HB Hok Hr. pose proof (busy_pkt_ok _ _ _ _ _ _ _ _ _ HB) as [Hmem _]. pose proof HB as (HA & Hp & Hk).
  destruct Hok as [Hm Hb Ho Hl]. unfold CSP_PACKET_PADDING_BYTES, CSP_BUFFER_SIZE in *.
  pose proof (at_inv _ _ _ _ _ _ _ _ _ HA) as HI. pose proof (inv_is_v2 _ _ HI) as Hv.
  assert (Hs : hdr_size s = 6) by (unfold hdr_size; by rewrite Hv). unfold can2_deliver.
  apply wp_bind. unfold wp at 1. change (csp_id_strip p) with (strip_any false p).
  rewrite (strip_at false p k s hdr) by (rewrite ?Hs, ?Ho; done || lia). rewrite Hs. unfold dec. rewrite Hv.
  set (k1 := stripped 6 (dec2 hdr) k).
  assert (HB1 : Busy p l0 s0 l k1 (put_pkt p k1 s)).
  { apply (busy_put _ _ _ _ _ _ _ _ _ (stripped 6 (dec2 hdr)) HB); [done|]. split; [done|]. simpl. unfold CSP_BUFFER_SIZE. rewrite u16_small; lia. }
  set (s1 := put_pkt p k1 s) in *. pose proof HB1 as (HA1 & _ & Hk1). pose proof (busy_pkt_ok _ _ _ _ _ _ _ _ _ HB1) as Hpk1.
  apply wp_bind. unfold wp at 1. rewrite (get_pkt_at _ _ _ Hk1). apply wp_bind.
  eapply wp_get_iface; [exact (at_inv _ _ _ _ _ _ _ _ _ HA1)|done|]. intros x Hx. change (ifs s1) with (ifs s) in Hx.
  set (k2 := arrived2 (if_addr x) k hdr).
  assert (W : wp (when (dst (pkt_id k1) =? 0x3FFF) (mod_pkt p (fun k => set_pkt_id (set_dst (if_addr x) (pkt_id k)) k)))
    (fun _ s2 => Busy p l0 s0 l k2 s2 /\ rest s2 = rest s) s1).
  { unfold k2, arrived2. fold k1. cbv zeta. destruct (dst (pkt_id k1) =? 0x3FFF); cbn [when]; [|apply wp_ret; split; [exact HB1|apply rest_put]].
    unfold wp. rewrite (mod_pkt_at _ _ _ _ Hk1). split; [|rewrite rest_put; apply rest_put].
    by apply (busy_put _ _ _ _ _ _ _ _ _ (fun k => set_pkt_id (set_dst (if_addr x) (pkt_id k)) k) HB1). }
  apply wp_bind. eapply wp_conseq; [exact W|]. intros [] s2 [HB2 Hr2].
  eapply wp_conseq; [by apply (wp_hand_on T i h p l0 s0 l s2 isr k2)|]. cbv beta. intros [] s4 [H4 Hq4]. split; [done|].
  intros q' x' Hq Hx'. rewrite Hx in Hx'. apply (inj Some) in Hx' as <-. apply Hq4. by rewrite (f_equal qfifo Hr2 : qfifo s2 = qfifo s).
Qed.

Lemma wp_append2 p l0 s0 l s id data off n isr k bs : Busy p l0 s0 l k s -> pbuf2_ok p k -> mem_read data off n = Some bs ->
  wp (can2_append i p id data off n isr) (fun _ s' => exists l', Left p (cfpid k) l0 s0 l' s') s.
Proof.
  intros HB Hok Hr. pose proof HB as (HA & Hp & Hk). pose proof Hok as [Hm Hb Ho Hl].
  destruct (mem_read_ok (pkt_mem k) 2 (frame_length k)) as [prev Hprev];
    [unfold CSP_PACKET_PADDING_BYTES, CSP_BUFFER_SIZE in *; lia..|].
  destruct (Z.ltb_spec CSP_BUFFER_SIZE (frame_off k + frame_length k + n)) as [Hov|Hfit].
  - unfold can2_append. apply wp_bind. unfold wp at 1. rewrite (get_pkt_at _ _ _ Hk). rewrite Hb, Nat.eqb_refl. cbv [negb].
    rewrite (proj2 (Z.ltb_lt _ _)) by done.
    apply wp_bind. wp_use (by apply wp_at_can_errno). intros [] s1 H1. apply wp_bind. wp_use (by apply wp_at_incr_rx_error).
    intros [] s2 H2. apply (wp_left_drop p (cfpid k) l0 s0 l); [done|done|]. intros s3 (l' & Hp' & HA'). apply wp_ret. exists l'. by apply left_gone.
  - destruct (append2_run i p id data off n isr k prev bs s) as (m & E & Hok1 & Hr1); try done. unfold wp. rewrite E.
    pose proof (busy_pkt_ok _ _ _ _ _ _ _ _ _ HB) as Hpk. pose proof (pb2_mem _ _ Hok1) as Hm1.
    assert (HB1 : Busy p l0 s0 l (grown2 m n k) (put_pkt p (grown2 m n k) s)).
    { apply (busy_put _ _ _ _ _ _ _ _ _ (grown2 m n) HB); [done|]. split; [exact Hm1|]. apply Hpk. }
    apply wp_bind, wp_when; intros _; [|apply wp_ret; exists l; split; [apply HB1|intros _; eexists; split_and!; [apply HB1|done|done]]].
    destruct (mem_read_ok m 2 6) as [hdr Hhdr]; [simpl in Hm1; unfold CSP_PACKET_PADDING_BYTES, CSP_BUFFER_SIZE in *; lia..|].
    wp_use (by eapply wp_deliver2). intros [] s2 [(l' & Hp' & HA') _]. apply wp_ret. exists l'. by apply left_gone.
Qed.

Lemma wp_can2_rx l id data dlc isr s : receiver (PbCan i) pbuf2_ok CFP2_ID_CONN_MASK T h l s -> can_take l s -> 0 <= dlc <= zlen data ->
  wp (csp_can2_rx i id data dlc isr) (fun _ s' => exists l', receiver (PbCan i) pbuf2_ok CFP2_ID_CONN_MASK T h l' s' /\ others_kept CFP2_ID_CONN_MASK id l s l' s') s.
Proof.
  intros HR Htake Hd. pose proof HR as [HI HL Hok Hkeys]. unfold csp_can2_rx. apply wp_bind.
  wp_use (by apply (wp_can_rx_packet T i h l)). intros [p|] s1; cbv beta iota.
  2:{ intros (HI1 & HL1 & Hc & _). apply wp_ret. exists l. split; [|by intros ? ? ? ? ? ?].
      eapply (receiver_sub (PbCan i) pbuf2_ok); [exact pbuf2_content|done|done|done|]. auto. }
  intros (l1 & k & Hp & HA & Hk & Horg & _).
  assert (Hfin : forall s', (exists l', Left p (cfpid k) l s l' s') -> exists l', receiver (PbCan i) pbuf2_ok CFP2_ID_CONN_MASK T h l' s' /\ others_kept CFP2_ID_CONN_MASK id l s l' s').
  { intros s' (l' & Hl'). exists l'. eapply (left_receiver (PbCan i) pbuf2_ok); [exact pbuf2_content|done..]. }
  assert (HB : Busy p l s l1 k s1) by done. pose proof (busy_pkt_ok _ _ _ _ _ _ _ _ _ HB) as Hpk. pose proof Hpk as [Hm Hl].
  eapply wp_conseq; [|intros ? s'; apply Hfin]. apply wp_bind. destruct (can2_is_begin id) eqn:Eb.
  - destruct (Z.ltb_spec dlc 4) as [Hs|Hs].
    + unfold can2_begin. rewrite (proj2 (Z.ltb_lt _ _)) by done.
      apply wp_bind. wp_use (by apply wp_at_can_errno). intros [] s2 H2. apply wp_bind. wp_use (by apply wp_at_incr_frame).
      intros [] s3 H3. apply wp_bind. wp_use (by apply (wp_at_drop (PbCan i) T h p l s (not_expired s) l1)).
      intros [] s4 (l' & Hp' & HA'). apply wp_ret, wp_ret. exists l'. by apply left_gone.
    + destruct (mem_read_ok data 0 4) as [hdr Hr]; [lia..|].
      destruct (begin2_run i p id data dlc isr k hdr s1) as (m & E & Hml & Hh); try done; [by eapply inv_is_v2, HA|].
      unfold wp. rewrite E. destruct (mem_read_ok data 4 (dlc - 4)) as [bs Hbs]; [lia..|].
      assert (Hok1 : pbuf2_ok p (begun2 p m k)) by (constructor; simpl; unfold CSP_BUFFER_SIZE in *; [congruence|done|done|lia]).
      apply (wp_append2 p l s l1 _ id data 4 _ isr (begun2 p m k) bs); [|exact Hok1|exact Hbs]. apply (busy_put _ _ _ _ _ _ _ _ _ (begun2 p m) HB); [done|].
      split; [apply Hok1|]. simpl. unfold CSP_BUFFER_SIZE. lia.
  - destruct Horg as [(k0 & Hpl & Hk0 & _ & Hc)|(now & ? & _)]; [|done].
    assert (Hok1 : pbuf2_ok p k) by (eapply pbuf2_content; [symmetry; exact Hc|]; destruct (Hok p k0 Hpl Hk0); by constructor).
    destruct (decide (rx_count k = Z.land (Z.shiftr id CFP2_FC_OFFSET) CFP2_FC_MASK)) as [Hfc|Hfc].
    + unfold wp at 1. rewrite (fragment2_run _ _ _ _ k) by done. rewrite Z.sub_0_r.
      destruct (mem_read_ok data 0 dlc) as [bs Hbs]; [lia..|].
      apply (wp_append2 p l s l1 _ id data 0 _ isr (set_rx_count (Z.land (rx_count k + 1) CFP2_FC_MASK) k) bs);
        [apply (busy_put _ _ _ _ _ _ _ _ _ (set_rx_count (Z.land (rx_count k + 1) CFP2_FC_MASK)) HB); done
        |destruct Hok1; by constructor|exact Hbs].
    + unfold can2_fragment. cbv zeta. apply wp_bind. unfold wp at 1. rewrite (get_pkt_at _ _ _ Hk).
      rewrite (proj2 (Z.eqb_neq _ _)) by done. cbv [negb]. apply wp_bind. wp_use (by apply wp_at_can_errno). intros [] s2 H2.
      apply wp_bind. wp_use (by apply (wp_at_drop (PbCan i) T h p l s (not_expired s) l1)). intros [] s3 (l' & Hp' & HA').
      apply wp_bind. wp_use (by apply wp_at_incr_frame). intros [] s4 H4. apply wp_ret, wp_ret. exists l'. by apply left_gone.
Qed.

End Safe.

(** ** The identifiers of the frames of a packet *)

Lemma land_low a n m : m = 2 ^ n - 1 -> 0 <= n -> Z.land a m = a mod 2 ^ n.
Proof. intros -> Hn. by apply land_hostmask. Qed.

Lemma can2_id_sum k addr sc : id2_ok (pkt_id k) ->
  can2_id k addr sc = pri (pkt_id k) * 2 ^ 27 + dst (pkt_id k) * 2 ^ 13 + (addr mod 64) * 2 ^ 7 + (sc mod 4) * 2 ^ 5.
Proof.
  intros (Hp & Hd & _). unfold can2_id, CFP2_PRIO_MASK, CFP2_DST_MASK, CFP2_SENDER_MASK, CFP2_SC_MASK,
    CFP2_PRIO_OFFSET, CFP2_DST_OFFSET, CFP2_SENDER_OFFSET, CFP2_SC_OFFSET.
  rewrite (land_low (pri (pkt_id k)) 2 3 eq_refl), (land_low (dst (pkt_id k)) 14 16383 eq_refl), (land_low addr 6 63 eq_refl), (land_low sc 2 3 eq_refl) by done.
  rewrite (Z.mod_small (pri (pkt_id k))), (Z.mod_small (dst (pkt_id k))) by lia.
  pose proof (Z.mod_pos_bound addr (2 ^ 6)). pose proof (Z.mod_pos_bound sc (2 ^ 2)).
  rewrite !Z.shiftl_mul_pow2 by done.
  rewrite (lor_add (pri (pkt_id k) * 2 ^ 27) _ 27) by zlia. rewrite (lor_add _ ((addr mod 2 ^ 6) * 2 ^ 7) 13) by zlia.
  rewrite (lor_add _ ((sc mod 2 ^ 2) * 2 ^ 5) 7) by zlia. change (2 ^ 6) with 64. change (2 ^ 2) with 4. lia.
Qed.

(** What the receiver reads off an identifier. *)
Record frame_id (idb c : Z) (b e : bool) (id : Z) : Prop := {
  fid_key : Z.land id CFP2_ID_CONN_MASK = idb;
  fid_begin : can2_is_begin id = b;
  fid_end : can2_is_end id = e;
  fid_count : Z.land (Z.shiftr id CFP2_FC_OFFSET) CFP2_FC_MASK = c;
  fid_hi : u16 (Z.shiftr id CFP2_DST_OFFSET) = idb / 2 ^ 13
}.

Lemma frame_id_sum X c b e : 0 <= X < 2 ^ 24 -> 0 <= c < 8 ->
  frame_id (32 * X) c b e (32 * X + 4 * c + (if b then 2 else 0) + (if e then 1 else 0)).
Proof.
  intros HX Hc. set (id := 32 * X + _ + _ + _). assert (Hr : 0 <= id < 2 ^ 29) by (unfold id; destruct b, e; lia).
  constructor.
  - assert (Em : CFP2_ID_CONN_MASK = Z.shiftl (Z.ones 24) 5) by reflexivity. rewrite Em, land_window by lia. unfold id. destruct b, e; zlia.
  - unfold can2_is_begin. change (Z.shiftl CFP2_BEGIN_MASK CFP2_BEGIN_OFFSET) with (2 ^ 1). rewrite flagged_pow2, testbit_mod by lia.
    unfold id. destruct b, e; first [apply Z.eqb_eq|apply Z.eqb_neq]; zlia.
  - unfold can2_is_end. change (Z.shiftl CFP2_END_MASK CFP2_END_OFFSET) with (2 ^ 0). rewrite flagged_pow2, testbit_mod by lia.
    unfold id. destruct b, e; first [apply Z.eqb_eq|apply Z.eqb_neq]; zlia.
  - unfold CFP2_FC_OFFSET, CFP2_FC_MASK. change 0x7 with (2 ^ 3 - 1). rewrite (field_divmod id 2 3) by lia. unfold id. destruct b, e; zlia.
  - unfold CFP2_DST_OFFSET. rewrite Z.shiftr_div_pow2 by lia. rewrite u16_small by (change 65536 with (2 ^ 16); zlia).
    unfold id. destruct b, e; zlia.
Qed.

(** The identifiers as the transmitter forms them. *)
Definition more2_id (idb fc : Z) (e : bool) : Z :=
  let id := Z.lor idb (Z.shiftl (Z.land fc CFP2_FC_MASK) CFP2_FC_OFFSET) in if e then Z.lor id CFP2_END else id.
Definition begin2_id (idb : Z) (e : bool) : Z := let id := Z.lor idb CFP2_BEGIN in if e then Z.lor id CFP2_END else id.

Lemma more2_frame X fc e : 0 <= X < 2 ^ 24 -> frame_id (32 * X) (fc mod 8) false e (more2_id (32 * X) fc e).
Proof.
  intros HX. pose proof (Z.mod_pos_bound fc 8). unfold more2_id, CFP2_FC_MASK, CFP2_FC_OFFSET. change CFP2_END with 1.
  rewrite (land_low fc 3 7 eq_refl) by done. change (2 ^ 3) with 8. rewrite Z.shiftl_mul_pow2 by done. rewrite (lor_add (32 * X) _ 5) by zlia.
  pose proof (frame_id_sum X (fc mod 8) false e HX ltac:(lia)) as F. destruct e; cbv beta iota zeta in F |- *.
  - rewrite (lor_add _ 1 2) by zlia. by replace (32 * X + fc mod 8 * 2 ^ 2 + 1) with (32 * X + 4 * (fc mod 8) + 0 + 1) by lia.
  - by replace (32 * X + fc mod 8 * 2 ^ 2) with (32 * X + 4 * (fc mod 8) + 0 + 0) by lia.
Qed.

Lemma begin2_frame X e : 0 <= X < 2 ^ 24 -> frame_id (32 * X) 0 true e (begin2_id (32 * X) e).
Proof.
  intros HX. unfold begin2_id. change CFP2_END with 1. change CFP2_BEGIN with 2. rewrite (lor_add (32 * X) 2 5) by zlia.
  pose proof (frame_id_sum X 0 true e HX ltac:(lia)) as F. destruct e; cbv beta iota zeta in F |- *.
  - rewrite (lor_add _ 1 1) by zlia. by replace (32 * X + 2 + 1) with (32 * X + 4 * 0 + 2 + 1) by lia.
  - by replace (32 * X + 2) with (32 * X + 4 * 0 + 2 + 0) by lia.
Qed.

(** The header bytes in the first frame are those of [csp_id_prepend]. *)
Lemma can2_header_enc k addr sc id e : id2_ok (pkt_id k) -> frame_id (can2_id k addr sc) 0 true e id ->
  can2_header id (le_bytes 4 (htobe32 (can2_extension k))) = enc2 (pkt_id k).
Proof.
  intros Hid [_ _ _ _ Hhi]. unfold can2_header. rewrite Hhi, (can2_id_sum _ _ _ Hid), (enc2_be _ Hid).
  change 6%nat with (2 + 4)%nat. rewrite be_bytes_app. rewrite (id2_pack_sum _ Hid). destruct Hid as (? & ? & ? & ? & ? & ?).
  pose proof (Z.mod_pos_bound addr 64). pose proof (Z.mod_pos_bound sc 4). change (256 ^ Z.of_nat 4) with (2 ^ 32). f_equal; [f_equal; zlia|].
  unfold htobe32. rewrite le_bytes_swap. rewrite <- (be_bytes_mod 4 (_ + _)). change (256 ^ Z.of_nat 4) with (2 ^ 32). f_equal.
  unfold can2_extension, CFP2_SRC_MASK, CFP2_DPORT_MASK, CFP2_SPORT_MASK, CFP2_FLAGS_MASK, CFP2_SRC_OFFSET, CFP2_DPORT_OFFSET,
    CFP2_SPORT_OFFSET, CFP2_FLAGS_OFFSET.
  rewrite (land_low (src _) 14 16383 eq_refl), (land_low (dport _) 6 63 eq_refl), (land_low (sport _) 6 63 eq_refl), (land_low (flags _) 6 63 eq_refl) by done.
  rewrite !(Z.mod_small (_ (pkt_id k)) (2 ^ _)) by lia. rewrite !Z.shiftl_mul_pow2 by done. rewrite u32_small by lia.
  rewrite (lor_add (src (pkt_id k) * 2 ^ 18) _ 18) by zlia. rewrite (lor_add _ (sport (pkt_id k) * 2 ^ 6) 12) by zlia.
  rewrite (lor_add _ (flags (pkt_id k) * 2 ^ 0) 6) by zlia. zlia.
Qed.

Lemma can2_id_32 k addr sc : id2_ok (pkt_id k) -> exists X, 0 <= X < 2 ^ 24 /\ can2_id k addr sc = 32 * X.
Proof.
  intros Hid. exists (pri (pkt_id k) * 2 ^ 22 + dst (pkt_id k) * 2 ^ 8 + (addr mod 64) * 2 ^ 2 + (sc mod 4)).
  rewrite (can2_id_sum _ _ _ Hid). destruct Hid as (? & ? & _). pose proof (Z.mod_pos_bound addr 64). pose proof (Z.mod_pos_bound sc 4). lia.
Qed.

(** ** The frames of a packet *)

(** The frames after the first: eight bytes each, numbered from [fc]. *)
Fixpoint can2_chunks (n : nat) (idb fc : Z) (data : list Z) : list can_frame :=
  match n, data with
  | S n', _ :: _ => (more2_id idb fc (zlen data <=? 8), take 8 data) :: can2_chunks n' idb (fc + 1) (drop 8 data)
  | _, _ => []
  end.

Lemma chunks2_fuel idb : forall n n' fc data, (length data <= n)%nat -> (length data <= n')%nat ->
  can2_chunks n idb fc data = can2_chunks n' idb fc data.
Proof.
  induction n as [|n IH]; intros n' fc [|b data] Hn Hn'; try (simpl in *; lia); [by destruct n'..|].
  destruct n' as [|n']; [simpl in Hn'; lia|]. cbn [can2_chunks]. f_equal. apply IH; rewrite length_drop; simpl in *; lia.
Qed.

Definition can2_frames (k : csp_packet) (addr sc : Z) (data : list Z) : list can_frame :=
  (begin2_id (can2_id k addr sc) (zlen data <=? 4), le_bytes 4 (htobe32 (can2_extension k)) ++ take 4 data)
    :: can2_chunks (length data) (can2_id k addr sc) 1 (drop 4 data).

(** ** The transmitter *)

Section Tx2.
Context `{Drivers}.
Context (Hdrv : forall n, drv_tx n = CSP_ERR_NONE).

Lemma tx2_more_run i p k x sc data : forall fuel fc tx s, pkt_at p s = Some k -> ifs s !! i = Some x ->
  mem_read (pkt_mem k) CSP_PACKET_PADDING_BYTES (pkt_length k) = Some data -> 0 <= tx <= pkt_length k ->
  (Z.to_nat (pkt_length k - tx) < fuel)%nat ->
  can2_tx_more fuel i p sc fc tx s =
    (csp_buffer_free (Some p) ;; mret CSP_ERR_NONE) (put_frames i (can2_chunks (Z.to_nat (pkt_length k - tx)) (can2_id k (if_addr x) sc) fc (drop (Z.to_nat tx) data)) s).
Proof.
  induction fuel as [|fuel IH]; intros fc tx s Hk Hx Hr Ht Hf; [lia|]. pose proof (mem_read_length _ _ _ _ Hr) as Hd.
  cbn [can2_tx_more]. erewrite bind_ret by (by apply get_pkt_at).
  assert (Hdl : zlen (drop (Z.to_nat tx) data) = pkt_length k - tx) by (rewrite length_drop; lia).
  destruct (Z.ltb_spec tx (pkt_length k)) as [Hlt|Hge].
  2:{ replace (Z.to_nat (pkt_length k - tx)) with O by lia. unfold put_frames. simpl. by destruct s. }
  erewrite bind_ret by (by apply get_iface_at). cbv zeta. unfold CAN_FRAME_SIZE.
  set (n := if 8 <=? pkt_length k - tx then 8 else pkt_length k - tx).
  assert (Hn : n = Z.min 8 (pkt_length k - tx)) by (unfold n; destruct (Z.leb_spec 8 (pkt_length k - tx)); lia).
  assert (Hsl : mem_read (pkt_mem k) (CSP_PACKET_PADDING_BYTES + tx) n = Some (take 8 (drop (Z.to_nat tx) data))).
  { rewrite (mem_read_slice _ _ _ data tx n Hr) by lia. f_equal.
    destruct (Z.leb_spec 8 (pkt_length k - tx)); [by replace (Z.to_nat n) with 8%nat by lia|].
    by rewrite (take_ge _ (Z.to_nat n)), (take_ge _ 8) by (rewrite length_drop; lia). }
  erewrite bind_ret by (eapply read_mem_at; [exact Hk|exact Hsl]). rewrite (tx_frame_run Hdrv).
  rewrite IH by (done || lia). rewrite put_frames_app. do 2 f_equal.
  destruct (Z.to_nat (pkt_length k - tx)) as [|m] eqn:Em; [lia|].
  destruct (drop (Z.to_nat tx) data) as [|b bs] eqn:Edr; [simpl in Hdl; lia|]. rewrite <- Edr in *.
  assert (Ech : can2_chunks (S m) (can2_id k (if_addr x) sc) fc (drop (Z.to_nat tx) data) =
    (more2_id (can2_id k (if_addr x) sc) fc (zlen (drop (Z.to_nat tx) data) <=? 8), take 8 (drop (Z.to_nat tx) data)) ::
     can2_chunks m (can2_id k (if_addr x) sc) (fc + 1) (drop 8 (drop (Z.to_nat tx) data))) by (rewrite Edr; done).
  rewrite Ech. simpl app. f_equal.
  - f_equal. unfold more2_id. rewrite Hdl. destruct (Z.eqb_spec (tx + n) (pkt_length k)), (Z.leb_spec (pkt_length k - tx) 8); lia || done.
  - rewrite drop_drop. replace (Z.to_nat tx + 8)%nat with (Z.to_nat (tx + 8)) by lia.
    destruct (Z.leb_spec 8 (pkt_length k - tx)) as [H8|H8].
    + rewrite Hn, Z.min_l by lia. apply chunks2_fuel; rewrite length_drop; lia.
    + rewrite (drop_ge _ (Z.to_nat (tx + n))), (drop_ge _ (Z.to_nat (tx + 8))) by lia. apply chunks2_fuel; simpl; lia.
Qed.
(** [csp_can2_tx] sends the frames of the packet and frees it. *)
Lemma tx2_run i via p from_me k x d data s : pkt_at p s = Some k -> ifs s !! i = Some x -> can s !! i = Some (Some d) ->
  dst (pkt_id k) <> if_addr x -> mem_read (pkt_mem k) CSP_PACKET_PADDING_BYTES (pkt_length k) = Some data ->
  exists s', csp_can2_tx i via p from_me s = Ret CSP_ERR_NONE s' /\
    wire s' = wire (put_frames i (can2_frames k (if_addr x) (i32 (cfp_packet_counter d)) data) s).
Proof.
  intros Hk Hx Hd Hne Hr. pose proof (mem_read_length _ _ _ _ Hr) as Hl.
  set (s1 := set_can (<[i := Some (set_cfp_packet_counter (u32 (cfp_packet_counter d + 1)) d)]> (can s)) s).
  set (s2 := put_frames i (can2_frames k (if_addr x) (i32 (cfp_packet_counter d)) data) s1).
  assert (Hb : exists b, pool s2 !! p = Some b) by (unfold pkt_at in Hk; change (pool s2) with (pool s); destruct (pool s !! p); by eauto).
  destruct Hb as [b Hb]. destruct (free_keeps_wire p b s2 Hb) as (s' & Hfree & Hw). exists s'. split; [|done].
  unfold csp_can2_tx. erewrite bind_ret by (by apply get_pkt_at). erewrite bind_ret by (by apply get_iface_at).
  rewrite (proj2 (Z.eqb_neq _ _)) by done. erewrite bind_ret by (by apply get_can_at). cbv zeta.
  erewrite bind_ret by (by apply mod_can_at). fold s1. set (n := if 4 <=? pkt_length k then 4 else pkt_length k).
  assert (Hn : n = Z.min 4 (pkt_length k)) by (unfold n; destruct (Z.leb_spec 4 (pkt_length k)); lia).
  assert (Hsl : mem_read (pkt_mem k) (CSP_PACKET_PADDING_BYTES + 0) n = Some (take 4 data)).
  { rewrite (mem_read_slice _ _ _ data 0 n Hr) by lia. rewrite drop_0. f_equal.
    destruct (Z.leb_spec 4 (pkt_length k)); [by replace (Z.to_nat n) with 4%nat by lia|].
    by rewrite (take_ge _ (Z.to_nat n)), (take_ge _ 4) by lia. }
  erewrite bind_ret by (eapply read_mem_at; [exact Hk|exact Hsl]). rewrite (tx_frame_run Hdrv).
  rewrite (tx2_more_run i p k x _ data) by (done || lia). rewrite put_frames_app.
  assert (Ef : [(if n =? pkt_length k then Z.lor (Z.lor (can2_id k (if_addr x) (i32 (cfp_packet_counter d))) CFP2_BEGIN) CFP2_END
      else Z.lor (can2_id k (if_addr x) (i32 (cfp_packet_counter d))) CFP2_BEGIN, le_bytes 4 (htobe32 (can2_extension k)) ++ take 4 data)] ++
      can2_chunks (Z.to_nat (pkt_length k - n)) (can2_id k (if_addr x) (i32 (cfp_packet_counter d))) 1 (drop (Z.to_nat n) data) =
      can2_frames k (if_addr x) (i32 (cfp_packet_counter d)) data).
  { unfold can2_frames, begin2_id. simpl app. f_equal.
    - f_equal. destruct (Z.eqb_spec n (pkt_length k)), (Z.leb_spec (zlen data) 4); lia || done.
    - destruct (Z.leb_spec 4 (pkt_length k)).
      + replace (Z.to_nat n) with 4%nat by lia. apply chunks2_fuel; rewrite length_drop; lia.
      + rewrite (drop_ge _ (Z.to_nat n)), (drop_ge _ 4) by lia. apply chunks2_fuel; simpl; lia. }
  rewrite Ef. fold s2. by erewrite bind_ret by exact Hfree.
Qed.
End Tx2.

(** ** The receiver puts a packet together *)

Section Reassemble.
Context `{Platform}.
Context (T : config) (i : nat) (h : list nat).
Context (Hver : version (cf_conf T) = 2) (Hi : valid_if T i).

Abbreviation Rcv := (receiver (PbCan i) pbuf2_ok CFP2_ID_CONN_MASK T h).

(** The packet with identifier [key] is on the list: [bytes] of it have arrived
    and fragment [fc] is next. *)
Definition partly (key fc : Z) (bytes : list Z) (l : list nat) (s : node) : Prop :=
  exists p k, p ∈ l /\ pkt_at p s = Some k /\ Z.land (cfpid k) CFP2_ID_CONN_MASK = key /\ rx_count k = fc /\
    frame_length k = zlen bytes /\ mem_read (pkt_mem k) 2 (zlen bytes) = Some bytes.

(** The destination as the router sees it. *)
Definition local_dst (addr : Z) (id : csp_id) : csp_id := if dst id =? 0x3FFF then set_dst addr id else id.

(** The packet made of [bytes] is the newest in the router queue. *)
Definition arrived (addr : Z) (bytes : list Z) (s : node) : Prop :=
  exists p k, list.last (q_items (qfifo s)) = Some (Some i, Some p) /\ pkt_at p s = Some k /\
    pkt_id k = local_dst addr (dec2 (take 6 bytes)) /\ pkt_length k = zlen bytes - 6 /\
    mem_read (pkt_mem k) CSP_PACKET_PADDING_BYTES (zlen bytes - 6) = Some (drop 6 bytes).

(** A frame of another packet. *)
Lemma other_frame l s key fc bytes id data isr : Rcv l s -> quiet i s = true -> partly key fc bytes l s ->
  Z.land id CFP2_ID_CONN_MASK <> key ->
  wp (csp_can2_rx i id data (zlen data) isr) (fun _ s' => exists l', Rcv l' s' /\ partly key fc bytes l' s') s.
Proof.
  intros HR HQ (p & k & Hp & Hk & Hkey & Hrc & Hfl & Hmem) Hne. destruct (quiet_take T i h _ _ l s HR HQ) as (Htake & Hun & _).
  wp_use (apply (wp_can2_rx T i h Hver Hi l); [done|done|lia]). intros r s' (l' & HR' & Hoth). exists l'. split; [done|].
  destruct (Hoth p k) as [Hp' Hc]; [done|done| |by apply Hun|].
  { unfold key_match. apply Z.eqb_neq. by rewrite Hkey. }
  unfold content_at in Hc. rewrite Hk in Hc. destruct (pkt_at p s') as [k'|] eqn:Hk'; [|done]. apply (inj Some) in Hc.
  assert (E : forall {A} (f : csp_packet -> A), f (content k') = f (content k)) by (intros; by rewrite Hc).
  exists p, k'. split_and!; [done..|rewrite <- Hkey; f_equal; exact (E _ cfpid)|rewrite <- Hrc; exact (E _ rx_count)
    |rewrite <- Hfl; exact (E _ frame_length)|]. rewrite <- Hmem. f_equal. exact (E _ pkt_mem).
Qed.

(** Before the BEGIN frame nothing is assumed of the list. *)
Lemma any_frame l s id data isr : Rcv l s -> quiet i s = true ->
  wp (csp_can2_rx i id data (zlen data) isr) (fun _ s' => exists l', Rcv l' s') s.
Proof.
  intros HR HQ. destruct (quiet_take T i h _ _ l s HR HQ) as (Htake & _ & _).
  wp_use (apply (wp_can2_rx T i h Hver Hi l); [done|done|lia]). intros r s' (l' & HR' & _). by exists l'.
Qed.

Lemma arrived2_fields addr k hdr : pkt_id (arrived2 addr k hdr) = local_dst addr (dec2 hdr) /\
  pkt_length (arrived2 addr k hdr) = u16 (frame_length k - 6) /\ pkt_mem (arrived2 addr k hdr) = pkt_mem k.
Proof.
  unfold arrived2, local_dst. generalize (dec2 hdr) as id. intros id. cbv zeta.
  change (pkt_id (stripped 6 id k)) with id. destruct (dst id =? 0x3FFF); split_and!; reflexivity.
Qed.

(** Appending one of the packet's own frames. *)
Lemma own_append p l0 s0 l s id data off n isr k bytes bs x : Busy (PbCan i) T h p l0 s0 l k s -> pbuf2_ok p k ->
  mem_read data off n = Some bs -> frame_length k = zlen bytes -> mem_read (pkt_mem k) 2 (zlen bytes) = Some bytes ->
  zlen bytes + n <= 6 + CSP_BUFFER_SIZE -> ifs s !! i = Some x -> (q_size (qfifo s) < q_cap (qfifo s))%nat ->
  wp (can2_append i p id data off n isr) (fun _ s' =>
    if can2_is_end id then arrived (if_addr x) (bytes ++ bs) s'
    else forall l', pbuf_list (PbCan i) l' s' -> partly (Z.land (cfpid k) CFP2_ID_CONN_MASK) (rx_count k) (bytes ++ bs) l' s') s.
Proof.
  intros HB Hok Hr Hfl Hmem Hlen Hx Hroom. pose proof HB as (HA & Hp & Hk). pose proof Hok as [Hm _ Ho Hl6].
  pose proof (mem_read_length _ _ _ _ Hr) as Hn.
  destruct (append2_run i p id data off n isr k bytes bs s) as (m & E & Hok1 & Hr1); try done; [lia|by rewrite Hfl|].
  unfold wp. rewrite E. set (k1 := grown2 m n k) in *.
  assert (HB1 : Busy (PbCan i) T h p l0 s0 l k1 (put_pkt p k1 s)).
  { apply (busy_put _ _ _ _ _ _ _ _ _ (grown2 m n) HB); [done|]. split; [exact (pb2_mem _ _ Hok1)|]. by apply (busy_pkt_ok _ _ _ _ _ _ _ _ _ HB). }
  assert (Hall : mem_read m 2 (zlen (bytes ++ bs)) = Some (bytes ++ bs)) by (rewrite length_app, Nat2Z.inj_add, Hn, <- Hfl; done).
  assert (Hfl1 : frame_length k1 = zlen (bytes ++ bs)) by (unfold k1; simpl; rewrite length_app; lia).
  apply wp_bind, wp_when; intros Hend; rewrite Hend.
  2:{ apply wp_ret. intros l' HL'. pose proof HB1 as (HA1 & Hp1 & Hk1).
      rewrite (pbuf_list_fun _ _ _ _ HL' (at_list _ _ _ _ _ _ _ _ _ HA1)). by exists p, k1. }
  assert (H6 : mem_read m 2 6 = Some (take 6 (bytes ++ bs))).
  { pose proof (mem_read_slice _ _ _ _ 0 6 Hall) as Hs. rewrite drop_0 in Hs. apply Hs; rewrite ?length_app; lia. }
  eapply wp_conseq; [by eapply wp_deliver2|]. cbv beta. intros [] s' [_ Harr]. apply wp_ret.
  destruct (Harr (Queue (q_cap (qfifo s)) (q_items (qfifo s) ++ [(Some i, Some p)])) x) as [Hq Hc]; [|done|].
  { unfold q_enqueue. by rewrite decide_True. }
  unfold content_at in Hc. destruct (pkt_at p s') as [k'|] eqn:Hk'; [|done]. apply (inj Some) in Hc.
  assert (Ek : forall {A} (f : csp_packet -> A), f (content k') = f (content (arrived2 (if_addr x) k1 (take 6 (bytes ++ bs))))) by (intros; by rewrite Hc).
  destruct (arrived2_fields (if_addr x) k1 (take 6 (bytes ++ bs))) as (E1 & E2 & E3).
  exists p, k'. split_and!; [rewrite Hq; apply last_snoc|done| | |].
  - exact (eq_trans (Ek _ pkt_id) E1).
  - rewrite <- Hfl1, <- (u16_small (frame_length k1 - 6)) by (pose proof (pb2_len _ _ Hok1); unfold CSP_BUFFER_SIZE in *; lia).
    exact (eq_trans (Ek _ pkt_length) E2).
  - assert (Em : pkt_mem k' = m) by exact (eq_trans (Ek _ pkt_mem) E3). rewrite Em.
    assert (Hge : 6 <= zlen (bytes ++ bs)) by (rewrite length_app; lia).
    pose proof (mem_read_slice _ _ _ _ 6 (zlen (bytes ++ bs) - 6) Hall ltac:(lia) ltac:(lia) ltac:(lia)) as Hs.
    rewrite take_ge in Hs by (rewrite length_drop; lia). exact Hs.
Qed.

(** What a frame of the packet leads to: more of it, or all of it. *)
Definition advanced (addr key fc : Z) (e : bool) (bytes : list Z) (s : node) : Prop :=
  if e then arrived addr bytes s else exists l, Rcv l s /\ partly key fc bytes l s.

Lemma own_join l s id data isr (Q : bool -> node -> Prop) : Rcv l s -> quiet i s = true ->
  wp (csp_can2_rx i id data (zlen data) isr) (fun _ s' => if can2_is_end id then Q true s' else
    forall l', pbuf_list (PbCan i) l' s' -> Rcv l' s' -> Q false s') s ->
  wp (csp_can2_rx i id data (zlen data) isr) (fun _ s' => Q (can2_is_end id) s') s.
Proof.
  intros HR HQ W. pose proof (wp_and _ _ _ _ (any_frame l s id data isr HR HQ) W) as W2.
  eapply wp_conseq; [exact W2|]. cbv beta. intros r s' [(l' & HR') HW]. destruct (can2_is_end id); [done|].
  apply (HW l'); [apply HR'|done].
Qed.

Lemma own_fragment l s key fc bytes e id data isr x : Rcv l s -> quiet i s = true -> partly key fc bytes l s ->
  frame_id key fc false e id -> zlen bytes + zlen data <= 6 + CSP_BUFFER_SIZE -> ifs s !! i = Some x ->
  wp (csp_can2_rx i id data (zlen data) isr) (fun _ s' => advanced (if_addr x) key ((fc + 1) mod 8) e (bytes ++ data) s') s.
Proof.
  intros HR HQ (p & k & Hp & Hk & Hkey & Hrc & Hfl & Hmem) [Fkey Fb Fe Fc _] Hlen Hx.
  destruct (quiet_take T i h _ _ l s HR HQ) as (Htake & Hun & Hroom). rewrite <- Fe.
  apply (own_join l s id data isr (fun e s' => advanced (if_addr x) key ((fc + 1) mod 8) e (bytes ++ data) s') HR HQ).
  unfold csp_can2_rx. rewrite Fb. apply wp_bind. wp_use (apply (wp_can_rx_packet T i h l); [apply HR|apply HR|done|done]).
  intros [p'|] s1; cbv beta iota.
  2:{ intros (_ & _ & _ & _ & Hnone). exfalso. assert (Hf : key_match id CFP2_ID_CONN_MASK k = false).
      { eapply first_match_false; [exact Hnone| |exact Hp|exact Hk]. intros q Hq Hn.
        destruct (live_pkt s q) as (kq & Hkq & _); [eapply Inv_live_h; [apply HR|apply elem_of_app; by left]|congruence]. }
      unfold key_match in Hf. apply Z.eqb_neq in Hf. congruence. }
  intros (l1 & k1 & Hp1 & HA1 & Hk1 & [(k0 & Hpl & Hk0 & Hm & Hc)|(? & ? & _)] & Hr1); [|done].
  apply Z.eqb_eq in Hm. assert (p' = p) as -> by (eapply (rcv_keys _ _ _ _ _ _ _ HR); try done; congruence).
  rewrite Hk in Hk0. apply (inj Some) in Hk0 as <-.
  assert (E : forall {A} (f : csp_packet -> A), f (content k1) = f (content (set_last_used (now_of s) k))) by (intros; by rewrite Hc).
  pose proof (rcv_ok _ _ _ _ _ _ _ HR p k Hp Hk) as Hok.
  assert (Hok1 : pbuf2_ok p k1) by (eapply pbuf2_content; [symmetry; exact Hc|]; destruct Hok; by constructor).
  assert (HB : Busy (PbCan i) T h p l s l1 k1 s1) by done. assert (Hrc1 : rx_count k1 = rx_count k) by exact (E _ rx_count).
  apply wp_bind. unfold wp at 1. rewrite (fragment2_run _ _ _ _ k1 s1 Hk1) by (rewrite Hrc1, Hrc, Fc; done). rewrite Z.sub_0_r.
  set (k2 := set_rx_count (Z.land (rx_count k1 + 1) CFP2_FC_MASK) k1).
  assert (HB2 : Busy (PbCan i) T h p l s l1 k2 (put_pkt p k2 s1))
    by (apply (busy_put _ _ _ _ _ _ _ _ _ (set_rx_count (Z.land (rx_count k1 + 1) CFP2_FC_MASK)) HB); [done|by apply (busy_pkt_ok _ _ _ _ _ _ _ _ _ HB)]).
  assert (Hdata : mem_read data 0 (zlen data) = Some data) by (rewrite mem_read_eq by lia; by rewrite Nat2Z.id, firstn_all).
  assert (Eq : qfifo s1 = qfifo s) by exact (f_equal qfifo Hr1). assert (Ei : ifs s1 = ifs s) by exact (f_equal ifs Hr1).
  eapply wp_conseq; [eapply (own_append p l s l1 _ id data 0 (zlen data) isr k2 bytes data x)|].
  - exact HB2.
  - destruct Hok1. by constructor.
  - exact Hdata.
  - rewrite <- Hfl. exact (E _ frame_length).
  - assert (Em : pkt_mem k1 = pkt_mem k) by exact (E _ pkt_mem). change (pkt_mem k2) with (pkt_mem k1). by rewrite Em.
  - done.
  - change (ifs (put_pkt p k2 s1)) with (ifs s1). by rewrite Ei.
  - change (qfifo (put_pkt p k2 s1)) with (qfifo s1). by rewrite Eq.
  - cbv beta. intros r s' Hres. destruct (can2_is_end id); [exact Hres|]. intros l' HL' HR'. exists l'. split; [done|].
    specialize (Hres l' HL'). assert (Ek : Z.land (cfpid k2) CFP2_ID_CONN_MASK = Z.land (cfpid k) CFP2_ID_CONN_MASK) by (f_equal; exact (E _ cfpid)).
    rewrite Ek, Hkey in Hres. assert (Er : rx_count k2 = (rx_count k + 1) mod 8).
    { unfold k2. simpl. rewrite Hrc1. by apply (land_low _ 3 7). }
    rewrite Er, Hrc in Hres. exact Hres.
Qed.

Lemma own_begin l s key e id data isr x : Rcv l s -> quiet i s = true -> frame_id key 0 true e id -> 4 <= zlen data <= 8 ->
  ifs s !! i = Some x ->
  wp (csp_can2_rx i id data (zlen data) isr)
    (fun _ s' => advanced (if_addr x) key 1 e (can2_header id (take 4 data) ++ drop 4 data) s') s.
Proof.
  intros HR HQ [Fkey Fb Fe Fc _] Hlen Hx. destruct (quiet_take T i h _ _ l s HR HQ) as (Htake & Hun & Hroom). rewrite <- Fe.
  set (hdr := can2_header id (take 4 data)).
  apply (own_join l s id data isr (fun e s' => advanced (if_addr x) key 1 e (hdr ++ drop 4 data) s') HR HQ).
  unfold csp_can2_rx. rewrite Fb. apply wp_bind. wp_use (apply (wp_can_rx_packet T i h l); [apply HR|apply HR|done|done]).
  intros [p|] s1; cbv beta iota; [|by intros (_ & _ & _ & Hb & _)].
  intros (l1 & k1 & Hp1 & HA1 & Hk1 & Horg & Hr1). assert (HB : Busy (PbCan i) T h p l s l1 k1 s1) by done.
  pose proof (busy_pkt_ok _ _ _ _ _ _ _ _ _ HB) as [Hm _]. pose proof (origin_key _ _ _ _ _ _ _ Horg) as Hkey.
  assert (Hdata : mem_read data 0 (zlen data) = Some data) by (rewrite mem_read_eq by lia; by rewrite Nat2Z.id, firstn_all).
  pose proof (mem_read_slice _ _ _ _ 0 4 Hdata ltac:(lia) ltac:(lia) ltac:(lia)) as H4. rewrite drop_0 in H4.
  pose proof (mem_read_slice _ _ _ _ 4 (zlen data - 4) Hdata ltac:(lia) ltac:(lia) ltac:(lia)) as Hd.
  rewrite take_ge in Hd by (rewrite length_drop; lia).
  destruct (begin2_run i p id data (zlen data) isr k1 (take 4 data) s1) as (m & E & Hml & Hh); try done;
    [eapply inv_is_v2; [exact Hver|apply HA1]|lia|].
  apply wp_bind. unfold wp at 1. rewrite E. set (k2 := begun2 p m k1).
  assert (Hhl : zlen hdr = 6) by (by apply (mem_read_length m 2)). fold hdr in Hh.
  assert (Hok2 : pbuf2_ok p k2) by (constructor; simpl; unfold CSP_BUFFER_SIZE in *; [congruence|done|done|lia]).
  assert (HB2 : Busy (PbCan i) T h p l s l1 k2 (put_pkt p k2 s1)).
  { apply (busy_put _ _ _ _ _ _ _ _ _ (begun2 p m) HB); [done|]. split; [apply Hok2|]. simpl. unfold CSP_BUFFER_SIZE. lia. }
  assert (Eq : qfifo s1 = qfifo s) by exact (f_equal qfifo Hr1). assert (Ei : ifs s1 = ifs s) by exact (f_equal ifs Hr1).
  eapply wp_conseq; [eapply (own_append p l s l1 _ id data 4 (zlen data - 4) isr k2 hdr (drop 4 data) x)|]; try done.
  - by rewrite Hhl.
  - rewrite Hhl. unfold CSP_BUFFER_SIZE. lia.
  - change (ifs (put_pkt p k2 s1)) with (ifs s1). by rewrite Ei.
  - change (qfifo (put_pkt p k2 s1)) with (qfifo s1). by rewrite Eq.
  - cbv beta. intros r s' Hres. destruct (can2_is_end id); [exact Hres|]. intros l' HL' HR'. exists l'. split; [done|].
    specialize (Hres l' HL'). change (cfpid k2) with (cfpid k1) in Hres. rewrite Hkey, Fkey in Hres. exact Hres.
Qed.

(** *** A sequence of frames *)

Definition can2_rx_one (isr : bool) (f : can_frame) : M Z := csp_can2_rx i (fst f) (snd f) (zlen (snd f)) isr.

End Reassemble.

(** Two frames belong to the same packet. *)
Definition of_packet (key : Z) (f : can_frame) : bool := Z.land (fst f) CFP2_ID_CONN_MASK =? key.

Section Sequence.
Context `{Platform}.
Context (T : config) (i : nat) (h : list nat) (isr : bool) (xs : csp_iface).
Context (Hver : version (cf_conf T) = 2) (Hxs : cf_ifs T !! i = Some xs).

Abbreviation Rcv := (receiver (PbCan i) pbuf2_ok CFP2_ID_CONN_MASK T h).

Lemma seq_valid : valid_if T i.
Proof. by eapply lookup_lt_Some. Qed.

Lemma seq_iface l s : Rcv l s -> exists x, ifs s !! i = Some x /\ if_addr x = if_addr xs.
Proof.
  intros HR. pose proof Hxs as E. rewrite <- (inv_conf _ _ _ (rcv_inv _ _ _ _ _ _ _ HR)) in E. simpl in E.
  rewrite map_lookup in E. destruct (ifs s !! i) as [x|]; [|done]. injection E as <-. by exists x.
Qed.

(** Whatever frames come, the receiver keeps its list and its buffers. *)
Lemma rx_receiver fs : forall l s, Rcv l s -> all_quiet (can2_rx_one i isr) (quiet i) fs s = true ->
  wp (rx_all (can2_rx_one i isr) fs) (fun _ s' => exists l', Rcv l' s') s.
Proof.
  induction fs as [|f fs IH]; intros l s HR HQ; [apply wp_ret; by exists l|].
  eapply quiet_step; [exact HQ|unfold can2_rx_one; intros Hq; by apply (any_frame T i h Hver seq_valid l)|].
  intros s' (l' & HR') HQ'. by eapply IH.
Qed.

(** The frames after the first, in any company. *)
Lemma rx_chunks X : 0 <= X < 2 ^ 24 -> forall fs n fc bytes data l s,
  Rcv l s -> all_quiet (can2_rx_one i isr) (quiet i) fs s = true -> partly (32 * X) (fc mod 8) bytes l s ->
  List.filter (of_packet (32 * X)) fs = can2_chunks n (32 * X) fc data -> (length data <= n)%nat -> data <> [] ->
  zlen bytes + zlen data <= 6 + CSP_BUFFER_SIZE -> ends_with (of_packet (32 * X)) fs ->
  wp (rx_all (can2_rx_one i isr) fs) (fun _ s' => arrived i (if_addr xs) (bytes ++ data) s') s.
Proof.
  intros HX. induction fs as [|f fs IH]; intros n fc bytes data l s HR HQ HP Hf Hn Hd Hlen He; [done|].
  pose proof seq_valid as Hi. destruct (seq_iface l s HR) as (x & Hx & Hxa).
  simpl in Hf. destruct (of_packet (32 * X) f) eqn:Em.
  - destruct n as [|n]; [destruct data; simpl in Hn; [done|lia]|]. destruct data as [|b data'] eqn:Edata; [done|]. rewrite <- Edata in *.
    assert (Ech : can2_chunks (S n) (32 * X) fc data = (more2_id (32 * X) fc (zlen data <=? 8), take 8 data) :: can2_chunks n (32 * X) (fc + 1) (drop 8 data))
      by (rewrite Edata; done). rewrite Ech in Hf. injection Hf as -> Hf. pose proof (more2_frame X fc (zlen data <=? 8) HX) as Hid.
    assert (Htk : zlen (take 8 data) <= zlen data) by (rewrite length_take; lia).
    eapply quiet_step; [exact HQ|unfold can2_rx_one|].
    { intros Hq. cbn [fst snd]. eapply (own_fragment T i h Hver Hi l); try done. lia. }
    intros s' Hadv HQ'. rewrite Hxa in Hadv. unfold advanced in Hadv. destruct (Z.leb_spec (zlen data) 8) as [H8|H8].
    + rewrite take_ge in Hadv by lia. assert (Hfs : fs = []).
      { eapply ends_done; [exact He|]. rewrite Hf, drop_ge by lia. by destruct n. }
      subst fs. by apply wp_ret.
    + destruct Hadv as (l' & HR' & HP'). assert (Hdr : drop 8 data <> []) by (intros E; apply (f_equal length) in E; rewrite length_drop in E; simpl in E; lia).
      rewrite <- (take_drop 8 data), app_assoc.
      assert (Emod : (fc mod 8 + 1) mod 8 = (fc + 1) mod 8) by (rewrite Z.add_mod_idemp_l; done). rewrite Emod in HP'.
      eapply (IH n (fc + 1)); try done.
      * rewrite length_drop. lia.
      * rewrite length_app, length_drop, length_take. lia.
      * apply (ends_cons _ _ _ He). intros ->. simpl in Hf. destruct n, (drop 8 data); simpl in *; try done; lia.
  - eapply quiet_step; [exact HQ|unfold can2_rx_one|].
    { intros Hq. eapply (other_frame T i h Hver Hi l); try done. unfold of_packet in Em. by apply Z.eqb_neq in Em. }
    intros s' (l' & HR' & HP') HQ'. eapply IH; try done. apply (ends_cons _ _ _ He). intros ->. simpl in Hf.
    unfold ends_with in He. simpl in He. congruence.
Qed.

(** All frames of the packet. *)
Lemma rx_packet2 k addr sc data : id2_ok (pkt_id k) -> zlen data <= CSP_BUFFER_SIZE -> forall fs l s,
  Rcv l s -> all_quiet (can2_rx_one i isr) (quiet i) fs s = true -> List.filter (of_packet (can2_id k addr sc)) fs = can2_frames k addr sc data ->
  ends_with (of_packet (can2_id k addr sc)) fs ->
  wp (rx_all (can2_rx_one i isr) fs) (fun _ s' => arrived i (if_addr xs) (enc2 (pkt_id k) ++ data) s') s.
Proof.
  intros Hid Hlen. destruct (can2_id_32 k addr sc Hid) as (X & HX & EX).
  induction fs as [|f fs IH]; intros l s HR HQ Hf He; [done|].
  pose proof seq_valid as Hi. destruct (seq_iface l s HR) as (x & Hx & Hxa). simpl in Hf.
  destruct (of_packet (can2_id k addr sc) f) eqn:Em.
  2:{ eapply quiet_step; [exact HQ|unfold can2_rx_one|]. { intros Hq. by apply (any_frame T i h Hver Hi l). }
      intros s' (l' & HR') HQ'. eapply IH; try done. apply (ends_cons _ _ _ He). intros ->. done. }
  unfold can2_frames in Hf. rewrite EX in *. set (ext := le_bytes 4 (htobe32 (can2_extension k))) in *.
  pose proof (begin2_frame X (zlen data <=? 4) HX) as Fid.
  assert (Hext : length ext = 4%nat) by (unfold ext; apply length_le_bytes).
  assert (Ehdr : can2_header (begin2_id (32 * X) (zlen data <=? 4)) ext = enc2 (pkt_id k)).
  { apply (can2_header_enc k addr sc _ (zlen data <=? 4)); [done|]. by rewrite EX. }
  clearbody ext. injection Hf as -> Hf. eapply quiet_step; [exact HQ|unfold can2_rx_one|].
  { intros Hq. cbn [fst snd]. apply (own_begin T i h Hver Hi l s (32 * X) (zlen data <=? 4)); try done.
    pose proof (length_take data 4). pose proof (length_app ext (take 4 data)). lia. }
  intros s' Hadv HQ'. rewrite (take_app_le _ _ 4), take_ge, (drop_app_ge _ _ 4), Hext in Hadv by lia. simpl (drop (4 - 4) _) in Hadv.
  rewrite Ehdr, Hxa in Hadv. unfold advanced in Hadv. destruct (Z.leb_spec (zlen data) 4) as [H4|H4].
  - rewrite take_ge in Hadv by lia. assert (Hfs : fs = []).
    { eapply ends_done; [exact He|]. rewrite Hf, (drop_ge data 4) by lia. by destruct (length data). }
    subst fs. by apply wp_ret.
  - destruct Hadv as (l' & HR' & HP'). assert (Hdr : drop 4 data <> []) by (intros E; apply (f_equal length) in E; rewrite length_drop in E; simpl in E; lia).
    rewrite <- (take_drop 4 data), app_assoc. eapply (rx_chunks X HX fs (length data) 1); try done.
    + rewrite length_drop. lia.
    + rewrite length_app, length_enc2, length_drop, length_take. unfold CSP_BUFFER_SIZE in *. lia.
    + apply (ends_cons _ _ _ He). intros ->. simpl in Hf. destruct (length data) eqn:El, (drop 4 data); simpl in *; try done; lia.
Qed.
End Sequence.

(** ** Properties *)

(** C11. CAN reception is safe: on any frame (identifier, bytes, length), with at
    least one free buffer and no two neighbouring packets on the list timed out,
    [csp_can2_rx] returns without undefined behaviour, keeps the ownership
    invariant and a well-formed list with one packet per identifier, and leaves
    the unexpired packets of other identifiers as they were. *)
Theorem can2_rx_safe `{Platform} T i h l s id data dlc isr :
  version (cf_conf T) = 2 -> valid_if T i -> receiver (PbCan i) pbuf2_ok CFP2_ID_CONN_MASK T h l s -> can_take l s -> 0 <= dlc <= zlen data ->
  exists r s' l', csp_can2_rx i id data dlc isr s = Ret r s' /\ receiver (PbCan i) pbuf2_ok CFP2_ID_CONN_MASK T h l' s' /\
    others_kept CFP2_ID_CONN_MASK id l s l' s'.
Proof.
  intros Hver Hi HR Ht Hd. destruct (proj1 (wp_run _ _ _) (wp_can2_rx T i h Hver Hi l id data dlc isr s HR Ht Hd)) as (r & s' & E & l' & HR' & Ho).
  by exists r, s', l'.
Qed.


(** ** Witnesses *)

Lemma bus_receiver : receiver (PbCan 1) pbuf2_ok CFP2_ID_CONN_MASK (config_of bus_node) [] [] bus_node.
Proof.
  constructor; [exact bus_node_inv|exists None; split; [reflexivity|constructor]|..]; intros q; intros; exfalso; by eapply not_elem_of_nil.
Qed.

Lemma bus_if_valid : valid_if (config_of bus_node) 1.
Proof. vm_compute. lia. Qed.

Lemma can2_rx_safe_witness : exists r s' l',
  csp_can2_rx (H := lo_platform) 1 0x1fffffff [1; 2; 3; 4; 5; 6; 7; 8] 8 false bus_node = Ret r s' /\
  receiver (PbCan 1) pbuf2_ok CFP2_ID_CONN_MASK (config_of bus_node) [] l' s'.
Proof.
  destruct (can2_rx_safe (H := lo_platform) (config_of bus_node) 1 [] [] bus_node 0x1fffffff [1; 2; 3; 4; 5; 6; 7; 8] 8 false)
    as (r & s' & l' & Hr & HR & _).
  - reflexivity.
  - exact bus_if_valid.
  - exact bus_receiver.
  - split; [exact I|]. vm_compute. discriminate.
  - simpl. lia.
  - exists r, s', l'. split; [exact Hr|exact HR].
Defined.

