(* ===== verification/Eth.v ===== *)
(** * Eth: the Ethernet interface and its segmentation protocol
    ([src/interfaces/csp_if_eth.c], [include/csp/interfaces/csp_if_eth.h])

    A packet with its header is cut into segments; each Ethernet frame carries a
    segment behind a header of 22 bytes.  The receiver puts the segments of a
    packet one behind the other in the order in which they arrive, and learns
    which hardware address a node has from the packets it receives. *)

From S2P Require Import Prelude State Monad Id Buffer Qfifo Own Node Pbuf.

(** ** The header *)

Definition CSP_ETH_TYPE_CSP : Z := 0x88B5.
Definition CSP_ETH_FRAME_SIZE_MAX : Z := 1500.

(** [sizeof(csp_eth_header_t)] and the offsets of its fields. *)
Definition ETH_HEADER_SIZE : Z := 22.
Definition ETH_DHOST : Z := 0.
Definition ETH_SHOST : Z := 6.
Definition ETH_TYPE : Z := 12.
Definition ETH_PACKET_ID : Z := 14.
Definition ETH_SRC_ADDR : Z := 16.
Definition ETH_SEG_SIZE : Z := 18.
Definition ETH_PACKET_LENGTH : Z := 20.

(** A [uint16_t] of the header in memory (little-endian host). *)
Definition eth_get16 (buf : list Z) (off : Z) : option Z := le_val <$> mem_read buf off 2.
Definition eth_set16 (off v : Z) (buf : list Z) : option (list Z) := mem_write buf off (le_bytes 2 v).

(** [buf] is never [NULL], so the result is [true] always; [None] is an access
    outside the memory at [buf]. *)
Definition csp_eth_pack_header (buf : list Z) (packet_id src_addr seg_size packet_length : Z) : option (list Z) :=
  buf ← eth_set16 ETH_PACKET_ID (htobe16 packet_id) buf;
  buf ← eth_set16 ETH_SRC_ADDR (htobe16 src_addr) buf;
  buf ← eth_set16 ETH_SEG_SIZE (htobe16 seg_size) buf;
  eth_set16 ETH_PACKET_LENGTH (htobe16 packet_length) buf.

(** The three results; their addresses are never [NULL].  The shift is one of the
    promoted [int], which overflows from 0x8000 on. *)
Definition csp_if_eth_unpack_header `{Platform} (buf : list Z) : option (Z * Z * Z) :=
  packet_id ← eth_get16 buf ETH_PACKET_ID;
  src_addr ← eth_get16 buf ETH_SRC_ADDR;
  seg_size ← eth_get16 buf ETH_SEG_SIZE;
  packet_length ← eth_get16 buf ETH_PACKET_LENGTH;
  Some (u32 (Z.lor (int_value (Z.shiftl packet_id 16)) src_addr), be16toh seg_size, be16toh packet_length).

(** ** Address resolution *)

Definition arp_get (j : nat) : M arp_entry := fun s =>
  match arp_array s !! j with Some e => Ret e s | None => Undef end.
Definition arp_mod (j : nat) (f : arp_entry -> arp_entry) : M unit := fun s =>
  match arp_array s !! j with Some e => Ret tt (set_arp_array (<[j := f e]> (arp_array s)) s) | None => Undef end.

Definition arp_alloc : M (option nat) := fun s =>
  if Z.of_nat ARP_MAX_ENTRIES <=? arp_used s then Ret None s
  else Ret (Some (Z.to_nat (arp_used s))) (set_arp_used (arp_used s + 1) s).

(** The [for] loops over [arp_list]: the entry with [csp_addr], and the last
    entry visited before it. *)
Fixpoint arp_search (fuel : nat) (csp_addr : Z) (last arp : option nat) : M (option arp_entry * option nat) :=
  match arp with
  | None => mret (None, last)
  | Some j =>
      match fuel with
      | O => undef
      | S fuel' =>
          e ← arp_get j;
          if arp_csp_addr e =? csp_addr then mret (Some e, Some j)
          else arp_search fuel' csp_addr (Some j) (arp_next e)
      end
  end.

Definition csp_eth_arp_set_addr (mac_addr : list Z) (csp_addr : Z) : M unit :=
  arp ← gets arp_list;
  r ← arp_search (S ARP_MAX_ENTRIES) csp_addr None arp;
  let '(found, last_arp) := r in
  match found with
  | Some _ => mret tt
  | None =>
      new_arp ← arp_alloc;
      match new_arp with
      | None => mret tt
      | Some j =>
          arp_mod j (set_arp_csp_addr csp_addr) ;;
          mac ← of_option (mem_read mac_addr 0 CSP_ETH_ALEN);
          arp_mod j (set_arp_mac mac) ;;
          arp_mod j (set_arp_next None) ;;
          match last_arp with
          | Some l => arp_mod l (set_arp_next (Some j))
          | None => modify (set_arp_list (Some j))
          end
      end
  end.

Definition csp_eth_arp_get_addr (csp_addr : Z) : M (list Z) :=
  arp ← gets arp_list;
  r ← arp_search (S ARP_MAX_ENTRIES) csp_addr None arp;
  match fst r with
  | Some e => mret (arp_mac e)
  | None => mret (replicate (Z.to_nat CSP_ETH_ALEN) 0xff)
  end.

(** ** Receive *)

Definition get_eth (i : nat) : M csp_eth := fun s =>
  match eth s !! i with Some (Some d) => Ret d s | _ => Undef end.
Definition mod_eth (i : nat) (f : csp_eth -> csp_eth) : M unit := fun s =>
  match eth s !! i with Some (Some d) => Ret tt (set_eth (<[i := Some (f d)]> (eth s)) s) | _ => Undef end.

Section Rx.
Context `{Platform}.

(** [iface->frame++; return CSP_ERR_INVAL;] *)
Definition eth_reject (iface : nat) : M Z := incr_frame iface ;; mret CSP_ERR_INVAL.

(** The packet is complete and off the list. *)
Definition eth_deliver (iface p : nat) (eth_frame : list Z) (isr : bool) : M Z :=
  r ← csp_id_strip p;
  if negb (r =? 0) then
    incr_frame iface ;;
    pb_buffer_free isr p ;;
    mret CSP_ERR_INVAL
  else
  k ← get_pkt p;
  shost ← rx_bytes eth_frame ETH_SHOST CSP_ETH_ALEN;
  csp_eth_arp_set_addr shost (src (pkt_id k)) ;;
  x ← get_iface iface;
  d ← get_eth iface;
  if negb (dst (pkt_id k) =? if_addr x) && negb (eth_promisc d) then
    csp_eth_pbuf_free iface p true isr ;;
    pb_buffer_free isr p ;;
    mret CSP_ERR_NONE
  else
  csp_qfifo_write (Some p) (Some iface) isr ;;
  mret CSP_ERR_NONE.

(** A segment for packet [p] arrived. *)
Definition eth_segment (iface p : nat) (eth_frame : list Z) (seg_size frame_len : Z) (isr : bool) : M Z :=
  k ← get_pkt p;
  when (frame_length k =? 0)
    (_ ← csp_id_setup_rx p;
     mod_pkt p (fun k => set_rx_count 0 (set_frame_length frame_len k))) ;;
  k ← get_pkt p;
  if negb (frame_len =? frame_length k) then
    csp_eth_pbuf_free iface p true isr ;;
    eth_reject iface
  else
  if frame_length k <? rx_count k + seg_size then
    csp_eth_pbuf_free iface p true isr ;;
    eth_reject iface
  else
  bs ← rx_bytes eth_frame ETH_HEADER_SIZE seg_size;
  write_mem (frame_buf k) (frame_off k + rx_count k) bs ;;
  mod_pkt p (fun k => set_rx_count (u16 (rx_count k + seg_size)) k) ;;
  k ← get_pkt p;
  if rx_count k <? frame_length k then mret CSP_ERR_NONE else
  csp_eth_pbuf_free iface p false isr ;;
  eth_deliver iface p eth_frame isr.

(** [eth_frame] is the memory the driver received into, [received_len] the
    length of the frame in it. *)
Definition csp_eth_rx (iface : nat) (eth_frame : list Z) (received_len : Z) (isr : bool) : M Z :=
  ether_type ← of_option (eth_get16 eth_frame ETH_TYPE);
  if negb (be16toh ether_type =? CSP_ETH_TYPE_CSP) then eth_reject iface else
  if received_len <? ETH_HEADER_SIZE then eth_reject iface else
  hdr ← of_option (csp_if_eth_unpack_header eth_frame);
  let '(packet_id, seg_size, frame_len) := hdr in
  if (seg_size =? 0) || (CSP_ETH_FRAME_SIZE_MAX <? seg_size) then eth_reject iface else
  if frame_len <? seg_size then eth_reject iface else
  if received_len <? ETH_HEADER_SIZE + seg_size then eth_reject iface else
  if (frame_len =? 0) || (CSP_BUFFER_SIZE <? frame_len) then eth_reject iface else
  r ← csp_eth_pbuf_find iface packet_id isr;
  match r with
  | None => incr_drop iface ;; mret CSP_ERR_INVAL
  | Some p => eth_segment iface p eth_frame seg_size frame_len isr
  end.

End Rx.

(** ** Transmit *)

Section Tx.
Context `{Drivers}.

(** The bytes of a frame: destination, source, type and the packet's fields,
    written into the memory at [tx_buf]. *)
Definition eth_fill (tx_buf dhost shost : list Z) (packet_id src_addr seg_size packet_length : Z) (seg : list Z) : option (list Z) :=
  buf ← eth_set16 ETH_TYPE (htobe16 CSP_ETH_TYPE_CSP) tx_buf;
  buf ← mem_write buf ETH_DHOST dhost;
  buf ← mem_write buf ETH_SHOST shost;
  buf ← csp_eth_pack_header buf packet_id src_addr seg_size packet_length;
  mem_write buf ETH_HEADER_SIZE seg.

(** The [while (offset < packet->frame_length)] of [csp_eth_tx], and its end.
    The driver sends the header and [seg_size] bytes of [tx_buf]. *)
Fixpoint eth_tx_loop (fuel : nat) (iface packet : nat) (packet_id offset : Z) : M Z :=
  match fuel with
  | O => undef
  | S fuel' =>
      k ← get_pkt packet;
      if offset <? frame_length k then
        d ← get_eth iface;
        let seg_size_max := u16 (tx_mtu d - ETH_HEADER_SIZE) in
        let seg_size := u16 (frame_length k - offset) in
        let seg_size := if seg_size_max <? seg_size then seg_size_max else seg_size in
        dhost ← csp_eth_arp_get_addr (dst (pkt_id k));
        seg ← read_mem (frame_buf k) (frame_off k + offset) seg_size;
        buf ← of_option (eth_fill (eth_tx_buf d) dhost (if_mac d) packet_id (src (pkt_id k)) seg_size (frame_length k) seg);
        mod_eth iface (set_eth_tx_buf buf) ;;
        r ← drv_send iface 0 (take (Z.to_nat (ETH_HEADER_SIZE + seg_size)) buf);
        if negb (r =? CSP_ERR_NONE) then incr_tx_error iface ;; mret CSP_ERR_DRIVER
        else eth_tx_loop fuel' iface packet packet_id (u16 (offset + seg_size))
      else
        csp_buffer_free (Some packet) ;;
        mret CSP_ERR_NONE
  end.

(** One turn per segment, so [frame_length + 1] turns suffice when segments are
    not empty. *)
Definition csp_eth_tx (iface : nat) (via : Z) (packet : nat) (from_me : bool) : M Z :=
  k ← get_pkt packet;
  x ← get_iface iface;
  if dst (pkt_id k) =? if_addr x then
    csp_qfifo_write (Some packet) (Some iface) false ;; mret CSP_ERR_NONE
  else
  csp_id_prepend packet ;;
  modify (fun s => set_eth_packet_id (u16 (eth_packet_id s + 1)) s) ;;
  packet_id ← gets eth_packet_id;
  k ← get_pkt packet;
  eth_tx_loop (S (Z.to_nat (frame_length k))) iface packet packet_id 0.

End Tx.

(** ** Address resolution as a table *)

(** The first [n] entries of the array are in use and linked in order. *)
Record arp_linked (n : nat) (s : node) : Prop := {
  arp_len : length (arp_array s) = ARP_MAX_ENTRIES;
  arp_use : arp_used s = Z.of_nat n /\ (n <= ARP_MAX_ENTRIES)%nat;
  arp_head : arp_list s = if (0 <? n)%nat then Some 0%nat else None;
  arp_link : forall j e, (j < n)%nat -> arp_array s !! j = Some e ->
    arp_next e = if (S j <? n)%nat then Some (S j) else None;
  arp_macs : forall j e, arp_array s !! j = Some e -> zlen (arp_mac e) = CSP_ETH_ALEN
}.

Definition arp_pair (e : arp_entry) : Z * list Z := (arp_csp_addr e, arp_mac e).

(** The table: which address has which hardware address, oldest first. *)
Definition arp_table (s : node) : list (Z * list Z) := arp_pair <$> take (Z.to_nat (arp_used s)) (arp_array s).

Definition arp_is (addr : Z) (e : arp_entry) : bool := arp_csp_addr e =? addr.

(** The search from entry [j] on. *)
Lemma arp_search_run n s addr : arp_linked n s -> forall m j fuel last, (j + m = n)%nat -> (m < fuel)%nat ->
  exists last', arp_search fuel addr last (if (j <? n)%nat then Some j else None) s =
    Ret (List.find (arp_is addr) (drop j (take n (arp_array s))), last') s /\
    (List.find (arp_is addr) (drop j (take n (arp_array s))) = None -> last' = if (j <? n)%nat then Some (n - 1)%nat else last).
Proof.
  intros [Hlen [_ Hn] _ Hlink _]. induction m as [|m IH]; intros j fuel last Hj Hf; (destruct fuel as [|fuel]; [lia|]).
  - assert (j = n) as -> by lia. rewrite Nat.ltb_irrefl, drop_ge by (rewrite length_take; lia). by exists last.
  - assert (Hlt : (j < n)%nat) by lia. rewrite (proj2 (Nat.ltb_lt _ _) Hlt).
    destruct (arp_array s !! j) as [e|] eqn:He; [|apply lookup_ge_None in He; lia].
    assert (Ed : drop j (take n (arp_array s)) = e :: drop (S j) (take n (arp_array s))).
    { apply drop_S. by rewrite lookup_take_lt. }
    rewrite Ed. cbn [arp_search List.find]. unfold arp_is at 1 3. erewrite bind_ret by (unfold arp_get; by rewrite He).
    destruct (arp_csp_addr e =? addr) eqn:Ea; [by exists (Some j)|]. rewrite (Hlink j e Hlt He).
    destruct (IH (S j) fuel (Some j)) as (last' & Hr & Hl); [lia..|]. exists last'. split; [exact Hr|].
    intros Hf'. rewrite (Hl Hf'). destruct (Nat.ltb_spec (S j) n); [done|]. f_equal. lia.
Qed.

Lemma arp_search_all n s addr : arp_linked n s ->
  exists last', arp_search (S ARP_MAX_ENTRIES) addr None (arp_list s) s = Ret (List.find (arp_is addr) (take n (arp_array s)), last') s /\
    (List.find (arp_is addr) (take n (arp_array s)) = None -> last' = if (0 <? n)%nat then Some (n - 1)%nat else None).
Proof.
  intros HL. rewrite (arp_head _ _ HL). pose proof (arp_use _ _ HL) as [_ Hn].
  destruct (arp_search_run n s addr HL n 0 (S ARP_MAX_ENTRIES) None) as (l' & Hr & Hl); [lia..|]. exists l'.
  rewrite drop_0 in *. by split.
Qed.

(** What the table says. *)
Definition arp_lookup (addr : Z) (t : list (Z * list Z)) : list Z :=
  match List.find (fun e => fst e =? addr) t with Some e => snd e | None => replicate (Z.to_nat CSP_ETH_ALEN) 0xff end.

(** What the table becomes: the first address seen stays, and so does a full table. *)
Definition arp_learn (addr : Z) (mac : list Z) (t : list (Z * list Z)) : list (Z * list Z) :=
  if existsb (fun e => fst e =? addr) t || (ARP_MAX_ENTRIES <=? length t)%nat then t else t ++ [(addr, mac)].

Lemma find_pair addr l : List.find (fun e => fst e =? addr) (arp_pair <$> l) = arp_pair <$> List.find (arp_is addr) l.
Proof. induction l as [|e l IH]; [done|]. simpl. unfold arp_is at 1. destruct (arp_csp_addr e =? addr); [done|exact IH]. Qed.

Lemma exists_pair addr l : existsb (fun e => fst e =? addr) (arp_pair <$> l) = match List.find (arp_is addr) l with Some _ => true | None => false end.
Proof. induction l as [|e l IH]; [done|]. simpl. unfold arp_is at 1. destruct (arp_csp_addr e =? addr); [done|exact IH]. Qed.

(** The new entry at the end of the array's used part, and the link to it. *)
Definition arp_added (n : nat) (e : arp_entry) (arr : list arp_entry) : list arp_entry :=
  match n with O => <[O := e]> arr | S m => alter (set_arp_next (Some n)) m (<[n := e]> arr) end.

Lemma arp_added_table n e arr : (n < length arr)%nat ->
  arp_pair <$> take (S n) (arp_added n e arr) = (arp_pair <$> take n arr) ++ [arp_pair e].
Proof.
  intros Hn. assert (Hpair : arp_pair <$> arp_added n e arr = <[n := arp_pair e]> (arp_pair <$> arr)).
  { apply list_eq. intros j. unfold arp_added. destruct n as [|m]; [by rewrite list_fmap_insert|].
    rewrite list_lookup_fmap. destruct (decide (j = m)) as [->|].
    - rewrite list_lookup_alter_eq, list_lookup_insert_ne by lia. rewrite list_lookup_insert_ne by lia. rewrite list_lookup_fmap.
      by destruct (arr !! m).
    - rewrite list_lookup_alter_ne by done. by rewrite <- list_lookup_fmap, list_fmap_insert. }
  rewrite !fmap_take, Hpair. rewrite (take_S_r _ _ (arp_pair e)) by (apply list_lookup_insert_eq; by rewrite length_fmap).
  by rewrite take_insert_ge by lia.
Qed.

(** [s'] differs from [s] in the table at most. *)
Definition arp_only (s s' : node) : Prop :=
  exists a u l, s' = set_arp_list l (set_arp_used u (set_arp_array a s)).

Lemma arp_only_refl s : arp_only s s.
Proof. exists (arp_array s), (arp_used s), (arp_list s). by destruct s. Qed.

Lemma arp_mod_at j f e s : arp_array s !! j = Some e -> arp_mod j f s = Ret tt (set_arp_array (<[j := f e]> (arp_array s)) s).
Proof. intros He. unfold arp_mod. by rewrite He. Qed.

Lemma arp_array_twice a b s : set_arp_array a (set_arp_array b s) = set_arp_array a s.
Proof. reflexivity. Qed.
Lemma arp_array_used a u s : set_arp_array a (set_arp_used u s) = set_arp_used u (set_arp_array a s).
Proof. reflexivity. Qed.
Lemma arp_list_id l s : arp_list s = l -> set_arp_list l s = s.
Proof. intros <-. by destruct s. Qed.

(** The writes that append an entry. *)
Lemma arp_append_run n s addr mac m : arp_linked n s -> (n < ARP_MAX_ENTRIES)%nat -> mem_read mac 0 CSP_ETH_ALEN = Some m ->
  (new_arp ← arp_alloc;
   match new_arp with
   | None => mret tt
   | Some j =>
       arp_mod j (set_arp_csp_addr addr) ;;
       mac ← of_option (mem_read mac 0 CSP_ETH_ALEN);
       arp_mod j (set_arp_mac mac) ;;
       arp_mod j (set_arp_next None) ;;
       match (if (0 <? n)%nat then Some (n - 1)%nat else None) with
       | Some l => arp_mod l (set_arp_next (Some j))
       | None => modify (set_arp_list (Some j))
       end
   end) s = Ret tt (set_arp_list (Some 0%nat) (set_arp_used (Z.of_nat (S n)) (set_arp_array (arp_added n (mkArp addr m None) (arp_array s)) s))).
Proof.
  intros [Hlen [Hu Hn] Hh Hl _] Hlt Hm. assert (Hj : (n < length (arp_array s))%nat) by (rewrite Hlen; lia).
  destruct (lookup_lt_is_Some_2 _ _ Hj) as [e He].
  erewrite bind_ret; [|unfold arp_alloc; rewrite Hu, (proj2 (Z.leb_gt _ _)) by lia; rewrite Nat2Z.id; reflexivity]. cbv beta iota.
  erewrite bind_ret by (apply arp_mod_at; exact He). erewrite bind_ret by (by rewrite Hm).
  erewrite bind_ret by (apply arp_mod_at; apply list_lookup_insert_eq; exact Hj).
  erewrite bind_ret by (apply arp_mod_at; apply list_lookup_insert_eq; simpl; by rewrite length_insert).
  cbn [arp_array set_arp_array]. rewrite !list_insert_insert_eq. rewrite !arp_array_twice.
  change (set_arp_next None _) with (mkArp addr m None). change (arp_array (set_arp_used _ s)) with (arp_array s).
  replace (Z.of_nat n + 1) with (Z.of_nat (S n)) by lia. destruct n as [|m']; [by rewrite arp_array_used|].
  cbn [Nat.ltb Nat.leb Nat.sub]. rewrite Nat.sub_0_r. destruct (lookup_lt_is_Some_2 (arp_array s) m') as [e' He']; [lia|].
  erewrite arp_mod_at by (cbn [arp_array set_arp_array]; rewrite list_lookup_insert_ne by lia; exact He').
  cbn [arp_array set_arp_array]. rewrite arp_array_twice, arp_array_used, arp_list_id by exact Hh. do 3 f_equal.
  unfold arp_added. rewrite list_insert_alter. apply list_alter_ext; [|done].
  intros x Hx. rewrite list_lookup_insert_ne in Hx by lia. by simplify_eq.
Qed.

Lemma arp_added_linked n s e : arp_linked n s -> (n < ARP_MAX_ENTRIES)%nat -> arp_next e = None -> zlen (arp_mac e) = CSP_ETH_ALEN ->
  arp_linked (S n) (set_arp_list (Some 0%nat) (set_arp_used (Z.of_nat (S n)) (set_arp_array (arp_added n e (arp_array s)) s))).
Proof.
  intros [Hlen [Hu Hn] Hh Hl Hmac] Hlt He Hme. constructor; simpl.
  - unfold arp_added. destruct n; [by rewrite length_insert|]. by rewrite length_alter, length_insert.
  - split; [lia|done].
  - done.
  - intros j x Hj Hx. unfold arp_added in Hx. destruct n as [|m].
    { assert (j = 0)%nat as -> by lia. rewrite list_lookup_insert_eq in Hx by lia. by simplify_eq. }
    destruct (decide (j = m)) as [->|Hne].
    + rewrite list_lookup_alter_eq, list_lookup_insert_ne in Hx by lia. destruct (arp_array s !! m) as [y|]; [|done].
      injection Hx as <-. simpl. by rewrite (proj2 (Nat.ltb_lt _ _)) by lia.
    + rewrite list_lookup_alter_ne in Hx by done. destruct (decide (j = S m)) as [->|].
      * rewrite list_lookup_insert_eq in Hx by lia. simplify_eq. by rewrite He, Nat.ltb_irrefl.
      * rewrite list_lookup_insert_ne in Hx by done. rewrite (Hl j x ltac:(lia) Hx).
        rewrite !(proj2 (Nat.ltb_lt _ _)) by lia. done.
  - assert (Hi : forall j x, <[n := e]> (arp_array s) !! j = Some x -> zlen (arp_mac x) = CSP_ETH_ALEN).
    { intros j x [[-> [<- _]]|[_ Hx]]%list_lookup_insert_Some; [done|]. by eapply Hmac. }
    intros j x Hx. unfold arp_added in Hx. destruct n as [|m]; [by eapply Hi|].
    destruct (decide (j = m)) as [->|Hne]; [|rewrite list_lookup_alter_ne in Hx by done; by eapply Hi].
    rewrite list_lookup_alter_eq in Hx. destruct (<[S m := e]> (arp_array s) !! m) as [y|] eqn:Ey; [|done].
    injection Hx as <-. exact (Hi m y Ey).
Qed.

Lemma arp_table_linked n s : arp_linked n s -> arp_table s = arp_pair <$> take n (arp_array s) /\ length (arp_table s) = n.
Proof.
  intros [Hlen [Hu Hn] _ _ _]. unfold arp_table. rewrite Hu, Nat2Z.id. split; [done|]. rewrite length_fmap, length_take. lia.
Qed.

(** Well-formedness of the ARP table. *)
Definition arp_ok (s : node) : Prop := exists n, arp_linked n s.

Lemma arp_set_run s mac addr : arp_ok s -> CSP_ETH_ALEN <= zlen mac ->
  exists s', csp_eth_arp_set_addr mac addr s = Ret tt s' /\ arp_ok s' /\ arp_only s s' /\
    arp_table s' = arp_learn addr (take (Z.to_nat CSP_ETH_ALEN) mac) (arp_table s).
Proof.
  intros [n HL] Hm. destruct (arp_table_linked n s HL) as [Et El]. unfold arp_learn. rewrite El, Et, exists_pair.
  destruct (arp_search_all n s addr HL) as (last' & Hr & Hl). unfold csp_eth_arp_set_addr.
  erewrite bind_ret by reflexivity. erewrite bind_ret by exact Hr. cbv beta iota.
  destruct (List.find (arp_is addr) (take n (arp_array s))) as [e|] eqn:Ef.
  { exists s. split_and!; [done|by exists n|apply arp_only_refl|done]. }
  rewrite (Hl eq_refl). pose proof (arp_use _ _ HL) as [Hu Hn]. destruct (Nat.leb_spec ARP_MAX_ENTRIES n) as [Hfull|Hfree].
  - exists s. erewrite bind_ret; [|unfold arp_alloc; rewrite Hu, (proj2 (Z.leb_le _ _)) by lia; reflexivity].
    split_and!; [done|by exists n|apply arp_only_refl|by rewrite Et].
  - set (m := take (Z.to_nat CSP_ETH_ALEN) mac). rewrite (arp_append_run n s addr mac m HL Hfree) by (by rewrite mem_read_eq by (unfold CSP_ETH_ALEN in *; lia)).
    eexists. split; [reflexivity|]. split; [exists (S n); apply arp_added_linked; [done..|]; simpl; unfold m, CSP_ETH_ALEN in *; rewrite length_take; lia|]. split; [by eexists _, _, _|].
    unfold arp_table. cbn [arp_used arp_array set_arp_list set_arp_used set_arp_array]. rewrite Nat2Z.id. simpl orb. cbv iota.
    rewrite arp_added_table by (rewrite (arp_len _ _ HL); lia). done.
Qed.

Lemma arp_get_run s addr : arp_ok s -> csp_eth_arp_get_addr addr s = Ret (arp_lookup addr (arp_table s)) s.
Proof.
  intros [n HL]. destruct (arp_table_linked n s HL) as [Et _]. unfold arp_lookup. rewrite Et, find_pair.
  destruct (arp_search_all n s addr HL) as (last' & Hr & _). unfold csp_eth_arp_get_addr.
  erewrite bind_ret by reflexivity. erewrite bind_ret by exact Hr. simpl fst.
  by destruct (List.find (arp_is addr) (take n (arp_array s))).
Qed.
