(* ===== verification/EthSpec.v ===== *)
(** * EthSpec: correctness of the Ethernet interface

    The receiver is safe on any frame and keeps the packets of other senders;
    what the transmitter cut up arrives in one piece; ARP refines a table. *)

From S2P Require Import Prelude State Monad Id Buffer Qfifo Own Node Pbuf Reassembly Eth.

(** ** The packet a segment belongs to *)

(** Identifiers are compared as a whole. *)
Definition ETH_MASK : Z := -1.

Lemma eth_key_match id k : (cfpid k =? id) = key_match id ETH_MASK k.
Proof. unfold key_match, ETH_MASK. by rewrite !Z.land_m1_r. Qed.

(** [csp_buffer_get] beside a list: a fresh buffer, or nothing when only the
    reserve is left. *)
Lemma wp_get_beside T l h d (isr : bool) s : Inv T (l ++ h) s -> pbuf_list d l s ->
  wp (if isr then csp_buffer_get_isr else csp_buffer_get) (fun r s' => match r with
    | Some p => Inv T ((p :: l) ++ h) s' /\ pbuf_list d l s' /\ (p ∉ l ++ h) /\ pkt_at p s' = Some (packet_zero p) /\
        (forall q, q <> p -> pkt_at q s' = pkt_at q s) /\ rest s' = rest s
    | None => s' = s /\ (q_size (csp_buffers s) < 2)%nat end) s.
Proof.
  intros HI HL. assert (Ei : (if isr then csp_buffer_get_isr else csp_buffer_get) s = csp_buffer_get s) by (by destruct isr).
  destruct (Z.ltb_spec (Z.of_nat (q_size (csp_buffers s))) 2) as [Hlt|Hge].
  - unfold wp. rewrite Ei. unfold csp_buffer_get. rewrite get_actual_run by (by eapply Inv_pool_ok).
    rewrite (proj2 (Z.ltb_lt _ _)) by done. split; [done|lia].
  - destruct (q_items (csp_buffers s)) as [|p f] eqn:E; [unfold q_size in Hge; rewrite E in Hge; simpl in Hge; lia|].
    assert (Hne : q_items (csp_buffers s) <> []) by (by rewrite E).
    pose proof (wp_get_always T l h d isr s HI HL Hne) as W. unfold wp in *. rewrite Ei.
    assert (Ea : (if isr then csp_buffer_get_always_isr else csp_buffer_get_always) s = csp_buffer_get_always s) by (by destruct isr).
    rewrite Ea in W. unfold csp_buffer_get_always, csp_buffer_get in *. unfold mbind, M_bind in W.
    rewrite get_actual_run in * by (by eapply Inv_pool_ok). rewrite (proj2 (Z.ltb_ge _ _)) in W by lia.
    rewrite (proj2 (Z.ltb_ge _ _)) by lia. rewrite E in *. exact W.
Qed.

Section Find.
Context `{Platform}.
Context (T : config) (i : nat) (h : list nat).

(** A packet for the frame with identifier [id]. *)
Lemma wp_eth_find l id isr s : Inv T (l ++ h) s -> pbuf_list (PbEth i) l s -> sparse (expired_at (now_of s) s) l ->
  wp (csp_eth_pbuf_find i id isr) (fun r s' => match r with
    | Some p => exists l' k, Busy (PbEth i) T h p l s l' k s' /\ rx_origin l id ETH_MASK true s p k /\ rest s' = rest s
    | None => rest s' = rest s /\ (exists l', forall p, At (PbEth i) T h p l s (not_expired s) l' s') /\
        ((forall q, q ∈ l -> not_expired s q) -> (q_size (csp_buffers s) < 2)%nat)
    end) s.
Proof.
  intros HI HL Hsp. destruct (HL) as (hd & Hh & Hc). unfold csp_eth_pbuf_find.
  apply wp_bind. unfold wp at 1, csp_get_ms. fold (now_of s). set (now := now_of s) in *. set (s0 := set_tick (S (tick s)) s).
  assert (HI0 : Inv T (l ++ h) s0) by (by apply Inv_tick). assert (HL0 : pbuf_list (PbEth i) l s0) by (by apply pbuf_list_tick).
  apply wp_bind. unfold wp at 1, pb_get. change (pb_head (PbEth i) s0) with (pb_head (PbEth i) s). rewrite Hh. apply wp_bind. unfold wp at 1.
  rewrite (find_loop_run _ l) by (first [exact Hc|by eapply pchain_bound]).
  assert (Ef : first_match (fun k => cfpid k =? id) s0 l = first_match (key_match id ETH_MASK) s l).
  { clear. induction l as [|q l IH]; [done|]. cbn [first_match]. change (pkt_at q s0) with (pkt_at q s).
    destruct (pkt_at q s) as [k|]; [|done]. by rewrite eth_key_match, IH. }
  rewrite Ef. destruct (first_match (key_match id ETH_MASK) s l) as [p|] eqn:Em.
  - destruct (first_match_Some _ _ _ _ Em) as (l1 & l2 & k & El & Hk & Ht).
    assert (Hp : p ∈ l) by (rewrite El; apply elem_of_app; right; left).
    apply wp_bind. unfold wp at 1. rewrite (mod_pkt_at p _ k) by exact Hk. apply wp_ret.
    exists l, (set_last_used now k). split_and!; [|by left; exists k|done]. 
    assert (HB : Busy (PbEth i) T h p l s l k s0) by (split_and!; [by constructor|done|done]).
    apply (busy_put _ _ _ _ _ _ _ _ _ (set_last_used now) HB); [done|]. exact (busy_pkt_ok _ _ _ _ _ _ _ _ _ HB).
  - unfold csp_eth_pbuf_new, csp_eth_pbuf_cleanup. apply wp_bind. set (l' := unexpired now s l).
    assert (Wid : wp (pbuf_cleanup (PbEth i) now isr) (fun _ s1 => (forall q, q ∈ l -> not_expired s q) -> s1 = s0) s0).
    { destruct (decide (Forall (fun q => expired_at now s0 q = false) l)) as [Hall|Hno].
      - unfold wp, pbuf_cleanup. erewrite bind_ret by (unfold pb_get; change (pb_head (PbEth i) s0) with (pb_head (PbEth i) s); by rewrite Hh).
        rewrite (cleanup_unexpired l); [done|exact Hc|by eapply pchain_bound|by apply list.Forall_forall].
      - wp_use (apply (wp_pbuf_cleanup (PbEth i) T l h now isr); [done|done|exact Hsp]). intros _ s1 _ Hall. destruct Hno. by apply list.Forall_forall. }
    eapply wp_conseq; [apply wp_and; [exact Wid|apply (wp_keeps rest); [apply keeps_pbuf_cleanup_rest|
      apply (wp_pbuf_cleanup (PbEth i) T l h now isr); [done|done|exact Hsp]]]|].
    cbv beta. intros [] s1 [Hsame [(HL1 & HI1 & HR1) Hr1]]. change (unexpired now s0 l) with l' in *. change (rest s0) with (rest s) in Hr1.
    assert (Hin : forall q, q ∈ l' <-> not_expired s q /\ q ∈ l) by (intros q; apply list_elem_of_filter).
    apply wp_bind. wp_use (by apply (wp_get_beside T l' h (PbEth i))). intros [p|] s2; cbv beta iota.
    2:{ intros [-> Hq]. apply wp_ret. split_and!; [done| |intros Hall; by rewrite (Hsame Hall) in Hq]. exists l'. intros p. constructor; [done|done| |].
        - intros q Hq' _. apply Hin in Hq' as [_ Hq']. split; [done|]. apply HR1.
        - intros q Hq' _ Hk. by apply Hin. }
    intros (HI2 & HL2 & Hp & Hk2 & Hs2 & Hr2). apply wp_bind. unfold wp at 1. rewrite (mod_pkt_at _ _ _ _ Hk2).
    set (k := set_frame_length 0 _). set (s3 := put_pkt p k s2).
    assert (HI3 : Inv T ((p :: l') ++ h) s3) by (apply Inv_put_pkt; [done|left|exact (packet_zero_ok p)]).
    assert (HL3 : pbuf_list (PbEth i) l' s3)
      by exact (pbuf_list_pkt _ _ s2 p (fun k => set_frame_length 0 (set_cfpid id (set_last_used now k))) _ HL2 Hk2 eq_refl).
    apply wp_bind. wp_use (by apply (wp_pb_push (PbEth i) T l' p h)). intros [] s4 (HL4 & HI4 & HR4 & Hr4). apply wp_ret.
    assert (Hc4 : content_at p s4 = Some (content k)) by (rewrite (proj1 HR4); unfold content_at, s3; by erewrite pkt_at_put).
    unfold content_at in Hc4. destruct (pkt_at p s4) as [k4|] eqn:Hk4; [|done]. apply (inj Some) in Hc4.
    exists (p :: l'), k4. unfold Busy. split_and!.
    + constructor; [done|done| |].
      * intros q [->|Hq]%elem_of_cons Hne; [done|]. split; [by apply Hin in Hq as [_ Hq]|]. rewrite (proj1 HR4).
        unfold content_at, s3, pkt_at, put_pkt. simpl. rewrite list_lookup_alter_ne by done.
        change (content_at q s2 = content_at q s). unfold content_at. rewrite (Hs2 q Hne). exact (proj1 HR1 q).
      * intros q Hq Hne Hkq. right. by apply Hin.
    + left.
    + done.
    + right. exists now. split_and!; [done|done|rewrite Hc4; reflexivity|]. intros q Hq Hn ->. apply Hp, elem_of_app. left. by apply Hin.
    + rewrite Hr4. change (rest s3) with (rest s2). by rewrite Hr2.
Qed.
End Find.

(** ** A packet in the making *)

(** The first [rx_count] bytes of the frame have arrived; a frame of [hz] header
    bytes and data lies [hz] bytes below [data]. *)
Record pbufE_ok (hz : Z) (p : nat) (k : csp_packet) : Prop := {
  pbe_mem : zlen (pkt_mem k) = CSP_PACKET_PADDING_BYTES + CSP_BUFFER_SIZE;
  pbe_buf : frame_buf k = p;
  pbe_off : frame_off k = - hz;
  pbe_len : 0 < frame_length k <= CSP_BUFFER_SIZE;
  pbe_cnt : 0 <= rx_count k < frame_length k
}.

Lemma pbufE_content hz p k k' : content k = content k' -> pbufE_ok hz p k -> pbufE_ok hz p k'.
Proof.
  intros E [Hm Hb Ho Hl Hc]. assert (E2 : forall {A} (f : csp_packet -> A), f (content k) = f (content k')) by (intros; by rewrite E).
  pose proof (E2 _ frame_length) as El. pose proof (E2 _ rx_count) as Ec. simpl in El, Ec.
  constructor; [rewrite <- Hm; symmetry; exact (f_equal (fun m => zlen m) (E2 _ pkt_mem))
    |rewrite <- Hb; symmetry; exact (E2 _ frame_buf)|rewrite <- Ho; symmetry; exact (E2 _ frame_off)|by rewrite <- El|by rewrite <- El, <- Ec].
Qed.

(** The header size of a configuration. *)
Definition conf_hdr (T : config) : Z := if version (cf_conf T) =? 2 then CSP_ID2_HEADER_SIZE else CSP_ID1_HEADER_SIZE.

Lemma inv_hdr T l s : Inv T l s -> hdr_size s = conf_hdr T.
Proof. intros HI. by rewrite <- (inv_conf _ _ _ HI). Qed.

Lemma conf_hdr_bound T : 4 <= conf_hdr T <= 6.
Proof. unfold conf_hdr. destruct (_ =? 2); done. Qed.

(** [arp_only] changes leave the rest of the node alone. *)
Lemma Inv_arp T h s s' : arp_only s s' -> Inv T h s -> Inv T h s'.
Proof. intros (a & u & l & ->) HI. destruct HI. by constructor. Qed.

Lemma pbuf_list_arp d l s s' : arp_only s s' -> pbuf_list d l s -> pbuf_list d l s'.
Proof. intros (a & u & t & ->) (hd & Hh & Hc). exists hd. split; [by destruct d|done]. Qed.

Definition arp_of (s : node) : list arp_entry * Z * option nat := (arp_array s, arp_used s, arp_list s).

Lemma arp_ok_of s s' : arp_of s' = arp_of s -> arp_ok s -> arp_ok s'.
Proof. intros [= Ea Eu El] [n [H1 H2 H3 H4 H5]]. exists n. constructor; rewrite ?Ea, ?Eu, ?El; done. Qed.

Lemma arp_ok_rest s s' : rest s' = rest s -> arp_ok s -> arp_ok s'.
Proof. intros Hr. apply arp_ok_of. exact (f_equal arp_of Hr). Qed.

(** A whole packet before it is looked at: its buffer, frame and memory. *)
Record whole (hz : Z) (p : nat) (k : csp_packet) : Prop := {
  who_mem : zlen (pkt_mem k) = CSP_PACKET_PADDING_BYTES + CSP_BUFFER_SIZE;
  who_buf : frame_buf k = p;
  who_off : frame_off k = - hz;
  who_len : 0 < frame_length k <= CSP_BUFFER_SIZE;
  who_pkt : packet_ok k
}.

Section SafeE.
Context `{Platform}.
Context (T : config) (i : nat) (h : list nat).
Context (Hi : valid_if T i).

Abbreviation dev := (PbEth i).

Lemma eth_data l s : pbuf_list dev l s -> exists d, eth s !! i = Some (Some d).
Proof. intros (hd & Hh & _). simpl in Hh. destruct (eth s !! i) as [[d|]|]; try done. by exists d. Qed.

(** The short header: the packet goes back. *)
Lemma wp_eth_short l p s isr (r : Z) : Inv T (p :: l ++ h) s -> pbuf_list dev l s ->
  wp (incr_frame i ;; pb_buffer_free isr p ;; mret r) (fun _ s' => Inv T (l ++ h) s' /\ pbuf_list dev l s' /\
    (forall q, pkt_at q s' = pkt_at q s) /\ (arp_ok s -> arp_ok s')) s.
Proof.
  intros HI HL. assert (Hp : p ∉ l).
  { pose proof (held_nodup _ _ _ HI) as Hn. apply NoDup_cons_1_1 in Hn. intros Hq. apply Hn, elem_of_app. by left. }
  apply wp_bind.
  assert (W : wp (incr_frame i) (fun _ s1 => ((Inv T (p :: l ++ h) s1 /\ pool s1 = pool s) /\ pb_head dev s1 = pb_head dev s) /\
     arp_of s1 = arp_of s) s).
  { apply (wp_keeps arp_of); [unfold incr_frame; keeps_tac|].
    apply (wp_keeps (pb_head dev)); [unfold incr_frame; keeps_tac|].
    apply (wp_keeps pool); [unfold incr_frame; keeps_tac|]. by apply wp_mod_iface. }
  wp_use (exact W). intros [] s1 [[[HI1 Hp1] Hh1] Ha1].
  assert (HL1 : pbuf_list dev l s1) by (destruct HL as (hd & Hh & Hc); exists hd; split; [congruence|by rewrite Hp1]).
  apply wp_bind. eapply wp_conseq; [apply (wp_keeps rest); [apply keeps_pb_free_rest|by apply (wp_pb_free dev T l p h)]|].
  cbv beta. intros [] s2 [(HL2 & HI2 & Hk2) Hr2]. apply wp_ret. split_and!; [done|done| |].
  - intros q. rewrite Hk2. unfold pkt_at. by rewrite Hp1.
  - intros Ha. apply (arp_ok_rest s1 s2 Hr2). by apply (arp_ok_of s).
Qed.

(** A packet off the list is delivered, or given back. *)
Lemma wp_eth_deliver l p s isr k frame : Inv T (p :: l ++ h) s -> pbuf_list dev l s -> pkt_at p s = Some k -> whole (conf_hdr T) p k ->
  arp_ok s -> 12 <= zlen frame ->
  wp (eth_deliver i p frame isr) (fun r s' =>
    (Inv T (l ++ h) s' /\ pbuf_list dev l s' /\ (forall q, q ∈ l -> pkt_at q s' = pkt_at q s) /\ arp_ok s') /\
    forall x d q' hdr, conf_hdr T <= frame_length k -> mem_read (pkt_mem k) (CSP_PACKET_PADDING_BYTES - conf_hdr T) (conf_hdr T) = Some hdr ->
      ifs s !! i = Some x -> eth s !! i = Some (Some d) -> q_enqueue (Some i, Some p) (qfifo s) = Some q' ->
      dst (dec s false hdr) = if_addr x \/ eth_promisc d = true ->
      r = CSP_ERR_NONE /\ qfifo s' = q' /\ pkt_at p s' = Some (stripped (conf_hdr T) (dec s false hdr) k)) s.
Proof.
  intros HI HL Hk [Hm Hb Ho Hl Hpk] Harp Hf. pose proof (inv_hdr _ _ _ HI) as Hz. pose proof (conf_hdr_bound T) as Hzb.
  unfold eth_deliver. apply wp_bind. change (csp_id_strip p) with (strip_any false p). unfold wp at 1.
  destruct (Z.ltb_spec (frame_length k) (conf_hdr T)) as [Hs|Hs].
  { rewrite (strip_short false p k) by (done || lia). change (negb (-1 =? 0)) with true. cbv iota.
    wp_use (by apply (wp_eth_short l)). intros r s' (HI' & HL' & Hk' & Ha'). split; [|intros; lia]. split_and!; try done. by apply Ha'. }
  destruct (mem_read_ok (pkt_mem k) (CSP_PACKET_PADDING_BYTES - conf_hdr T) (conf_hdr T)) as [hdr Hhdr];
    [unfold CSP_PACKET_PADDING_BYTES, CSP_BUFFER_SIZE in *; lia..|].
  rewrite (strip_at false p k s hdr) by (rewrite ?Hz, ?Ho; done). rewrite Hz. set (k1 := stripped (conf_hdr T) (dec s false hdr) k).
  set (s1 := put_pkt p k1 s). change (negb (0 =? 0)) with false. cbv iota.
  assert (Hk1 : pkt_at p s1 = Some k1) by (by eapply pkt_at_put).
  assert (Hp : p ∉ l). { pose proof (held_nodup _ _ _ HI) as Hn. apply NoDup_cons_1_1 in Hn. intros Hq. apply Hn, elem_of_app. by left. }
  assert (HI1 : Inv T (p :: l ++ h) s1).
  { apply Inv_put_pkt; [done|left|]. split; [done|]. simpl. unfold CSP_BUFFER_SIZE in *. rewrite u16_small; lia. }
  assert (HL1 : pbuf_list dev l s1) by exact (pbuf_list_pkt _ _ s p (stripped (conf_hdr T) (dec s false hdr)) _ HL Hk eq_refl).
  assert (Ho1 : forall q, q <> p -> pkt_at q s1 = pkt_at q s).
  { intros q Hq. unfold pkt_at, s1, put_pkt. simpl. by rewrite list_lookup_alter_ne. }
  apply wp_bind. unfold wp at 1. rewrite (get_pkt_at _ _ _ Hk1). apply wp_bind. unfold wp at 1.
  destruct (mem_read_ok frame ETH_SHOST CSP_ETH_ALEN) as [mac Hmac]; [unfold ETH_SHOST, CSP_ETH_ALEN; lia..|].
  rewrite (rx_bytes_at _ _ _ _ _ Hmac). apply wp_bind. unfold wp at 1.
  destruct (arp_set_run s1 mac (src (pkt_id k1))) as (s2 & E2 & Ha2 & Ho2 & _); [by apply (arp_ok_rest s)|by rewrite (mem_read_length _ _ _ _ Hmac)|].
  rewrite E2. clear E2. pose proof (Inv_arp _ _ _ _ Ho2 HI1) as HI2. pose proof (pbuf_list_arp _ _ _ _ Ho2 HL1) as HL2.
  assert (Hs2 : pool s2 = pool s1 /\ ifs s2 = ifs s /\ eth s2 = eth s /\ qfifo s2 = qfifo s) by (by destruct Ho2 as (a & u & t & ->)).
  destruct Hs2 as (Hp2 & Hi2 & He2 & Hq2). assert (Hk2 : forall q, pkt_at q s2 = pkt_at q s1) by (intros q; unfold pkt_at; by rewrite Hp2).
  apply wp_bind. eapply wp_get_iface; [exact HI2|done|]. intros x Hx. apply wp_bind. destruct (eth_data _ _ HL2) as [d Hd].
  unfold wp at 1, get_eth. rewrite Hd. destruct (negb (dst (pkt_id k1) =? if_addr x) && negb (eth_promisc d)) eqn:Ec.
  - apply wp_bind. unfold csp_eth_pbuf_free, pbuf_free. destruct (HL2) as (hd & Hh & Hc). apply wp_bind.
    unfold wp at 1, pb_get. rewrite Hh. unfold wp at 1.
    assert (HI2l : Inv T (l ++ p :: h) s2) by (eapply Inv_perm; [|exact HI2]; intros y; rewrite cnt_cons, !cnt_app, cnt_cons; lia).
    rewrite (pb_free_absent l) by (try done; by eapply pchain_bound). apply wp_bind.
    eapply wp_conseq; [apply (wp_keeps rest); [apply keeps_pb_free_rest|by apply (wp_pb_free dev T l p h)]|].
    cbv beta. intros [] s3 [(HL3 & HI3 & Hk3) Hr3]. apply wp_ret. split.
    + split_and!; [done|done| |by apply (arp_ok_rest s2)]. intros q Hq. rewrite Hk3, Hk2. apply Ho1. intros ->. done.
    + intros x' d' q' hdr' _ Hhdr' Hx' Hd' _ Hc'. rewrite Hhdr in Hhdr'. apply (inj Some) in Hhdr' as <-.
      rewrite Hi2 in Hx. rewrite He2 in Hd. simplify_eq. apply andb_prop in Ec as [E1%negb_true_iff E2%negb_true_iff].
      apply Z.eqb_neq in E1. destruct Hc' as [Hc'|Hc']; [by destruct E1|congruence].
  - apply wp_bind. eapply wp_conseq; [apply (wp_keeps arp_of);
      [|by apply (wp_deliver dev T l p h i isr)]|].
    { unfold Qfifo.csp_qfifo_write, csp_buffer_free, csp_buffer_free_isr, csp_buffer_free, csp_buffer_free_pkt. keeps_tac. }
    cbv beta. intros [] s3 [(HI3 & HL3 & Hk3 & Hq3) Ha3]. apply wp_ret. split.
    + split_and!; [done|done| |].
      * intros q Hq. rewrite Hk3, Hk2. apply Ho1. by intros ->.
      * by apply (arp_ok_of s2).
    + intros x' d' q' hdr' _ Hhdr' Hx' Hd' Hq' _. rewrite Hhdr in Hhdr'. apply (inj Some) in Hhdr' as <-. split; [done|].
      rewrite <- Hq2 in Hq'. rewrite (Hq3 q' Hq'). split; [done|]. change (pkt_at p s2 = Some k1). by rewrite Hk2.
Qed.
End SafeE.

(** ** One segment *)

(** The packet when its first segment arrives; a later segment finds it as it is. *)
Definition opened (hz frame_len : Z) (p : nat) (k : csp_packet) : csp_packet :=
  if frame_length k =? 0
  then set_rx_count 0 (set_frame_length frame_len (set_frame_length 0 (set_frame_off (- hz) (set_frame_buf p k))))
  else k.

(** The packet with one more segment. *)
Definition grownE (m : list Z) (n : Z) (k : csp_packet) : csp_packet := set_rx_count (rx_count k + n) (set_pkt_mem m k).

Lemma opened_ok hz frame_len p k : frame_length k = 0 \/ pbufE_ok hz p k -> 0 < frame_len <= CSP_BUFFER_SIZE ->
  zlen (pkt_mem k) = CSP_PACKET_PADDING_BYTES + CSP_BUFFER_SIZE -> pbufE_ok hz p (opened hz frame_len p k).
Proof.
  intros Hk Hf Hm. unfold opened. destruct (Z.eqb_spec (frame_length k) 0); [|by destruct Hk]. constructor; simpl; (done || lia).
Qed.

Lemma open_run `{Platform} p k frame_len s : pkt_at p s = Some k ->
  (when (frame_length k =? 0) (_ ← csp_id_setup_rx p; mod_pkt p (fun k => set_rx_count 0 (set_frame_length frame_len k)))) s =
    Ret tt (put_pkt p (opened (hdr_size s) frame_len p k) s).
Proof.
  intros Hk. unfold opened. destruct (frame_length k =? 0); cbn [when]; [|by rewrite put_pkt_same].
  erewrite bind_ret by (by apply setup_rx_at). erewrite mod_pkt_at by (by eapply pkt_at_put). by rewrite put_pkt_put.
Qed.

Section Segment.
Context `{Platform}.
Context (T : config) (i : nat) (h : list nat).
Context (Hi : valid_if T i).

Abbreviation dev := (PbEth i).
Abbreviation hz := (conf_hdr T).

(** What follows the copy of the segment. *)
Definition eth_finish (p : nat) (frame : list Z) (isr : bool) : M Z :=
  k ← get_pkt p;
  if rx_count k <? frame_length k then mret CSP_ERR_NONE else
  csp_eth_pbuf_free i p false isr ;;
  eth_deliver i p frame isr.

(** A segment that fits. *)
Lemma segment_run p k frame seg frame_len isr prev bs s : hdr_size s = hz -> pkt_at p s = Some k ->
  pbufE_ok hz p (opened hz frame_len p k) -> frame_length (opened hz frame_len p k) = frame_len ->
  rx_count (opened hz frame_len p k) + seg <= frame_len -> mem_read frame ETH_HEADER_SIZE seg = Some bs ->
  mem_read (pkt_mem k) (CSP_PACKET_PADDING_BYTES - hz) (rx_count (opened hz frame_len p k)) = Some prev ->
  exists m, eth_segment i p frame seg frame_len isr s =
      eth_finish p frame isr (put_pkt p (grownE m seg (opened hz frame_len p k)) s) /\
    zlen m = CSP_PACKET_PADDING_BYTES + CSP_BUFFER_SIZE /\
    mem_read m (CSP_PACKET_PADDING_BYTES - hz) (rx_count (opened hz frame_len p k) + seg) = Some (prev ++ bs).
Proof.
  intros Hz Hk Hok Hlen Hfit Hbs Hprev. set (k1 := opened hz frame_len p k) in *. pose proof Hok as [Hm Hb Ho Hl Hc].
  pose proof (conf_hdr_bound T) as Hzb. unfold CSP_PACKET_PADDING_BYTES, CSP_BUFFER_SIZE in *.
  assert (Em : pkt_mem k1 = pkt_mem k) by (unfold k1, opened; by destruct (_ =? 0)).
  pose proof (mem_read_length _ _ _ _ Hbs) as Hn. pose proof (mem_read_length _ _ _ _ Hprev) as Hpl.
  destruct (mem_write_ok (pkt_mem k1) (8 + (frame_off k1 + rx_count k1)) bs) as [m Hw]; [lia..|].
  pose proof (mem_write_length _ _ _ _ Hw) as Hml. exists m. split_and!; [|lia|].
  - unfold eth_segment. erewrite bind_ret by (by apply get_pkt_at). erewrite bind_ret by (by apply open_run). rewrite Hz. fold k1.
    assert (Hk1 : pkt_at p (put_pkt p k1 s) = Some k1) by (by eapply pkt_at_put). erewrite bind_ret by (by apply get_pkt_at).
    rewrite Hlen, Z.eqb_refl. cbv [negb]. rewrite (proj2 (Z.ltb_ge _ _)) by lia. erewrite bind_ret by (by apply rx_bytes_at).
    rewrite Hb. erewrite bind_ret by (by eapply write_mem_at). rewrite put_pkt_put.
    erewrite bind_ret by (eapply mod_pkt_at, pkt_at_put; exact Hk). rewrite put_pkt_put. simpl rx_count.
    rewrite u16_small by lia. done.
  - apply mem_read_app.
    + erewrite mem_read_write_before by (first [exact Hw|lia]). by rewrite Em.
    + replace (8 - hz + rx_count k1) with (8 + (frame_off k1 + rx_count k1)) by lia. rewrite <- Hn. by eapply mem_read_write.
Qed.

Abbreviation LeftE := (Left dev (pbufE_ok hz) T h).

Lemma whole_content p k k' : content k = content k' -> whole hz p k -> whole hz p k'.
Proof.
  intros E [Hm Hb Ho Hl [Hm' Hp]]. assert (E2 : forall {A} (f : csp_packet -> A), f (content k) = f (content k')) by (intros; by rewrite E).
  pose proof (E2 _ frame_length) as El. pose proof (E2 _ pkt_length) as Ep. pose proof (E2 _ pkt_mem) as Em. simpl in El, Ep, Em.
  constructor; [by rewrite <- Em|rewrite <- Hb; symmetry; exact (E2 _ frame_buf)|rewrite <- Ho; symmetry; exact (E2 _ frame_off)|by rewrite <- El|].
  split; [by rewrite <- Em|by rewrite <- Ep].
Qed.

(** After the copy: wait for more, or deliver. *)
Lemma wp_finish p l0 s0 l k s frame isr : Busy dev T h p l0 s0 l k s -> whole hz p k ->
  (rx_count k < frame_length k -> pbufE_ok hz p k) -> arp_ok s -> 12 <= zlen frame ->
  wp (eth_finish p frame isr) (fun r s' => (exists l', LeftE p (cfpid k) l0 s0 l' s') /\ arp_ok s' /\
    (rx_count k < frame_length k -> s' = s) /\
    (frame_length k <= rx_count k -> forall x d q' hdr, conf_hdr T <= frame_length k ->
      mem_read (pkt_mem k) (CSP_PACKET_PADDING_BYTES - conf_hdr T) (conf_hdr T) = Some hdr ->
      ifs s !! i = Some x -> eth s !! i = Some (Some d) -> q_enqueue (Some i, Some p) (qfifo s) = Some q' ->
      dst (dec s false hdr) = if_addr x \/ eth_promisc d = true ->
      r = CSP_ERR_NONE /\ qfifo s' = q' /\ content_at p s' = Some (content (stripped (conf_hdr T) (dec s false hdr) k)))) s.
Proof.
  intros (HA & Hp & Hk) Hw Hok Harp Hf. unfold eth_finish. apply wp_bind. unfold wp at 1. rewrite (get_pkt_at _ _ _ Hk).
  destruct (Z.ltb_spec (rx_count k) (frame_length k)) as [Hlt|Hge].
  { apply wp_ret. split_and!; [|done|done|lia]. exists l. split; [done|]. intros _. exists k. split_and!; [done|by apply Hok|done]. }
  apply wp_bind. unfold csp_eth_pbuf_free. wp_use (by apply (wp_at_free dev T h p l0 s0 (not_expired s0) l s false isr)).
  intros [] s1 (l' & Hp' & HI1 & HL1 & Ho1 & Hk1 & Hc1 & Hr1). unfold content_at in Hc1. rewrite Hk in Hc1.
  destruct (pkt_at p s1) as [k1|] eqn:Hkp; [|done]. apply (inj Some) in Hc1.
  wp_use (apply (wp_eth_deliver T i h Hi l' p s1 isr k1 frame); [exact HI1|exact HL1|done|by eapply whole_content|by eapply arp_ok_rest|done]).
  intros r s2 [(HI2 & HL2 & Hk2 & Ha2) Hfun]. split_and!; [|done|lia|].
  - exists l'. split; [|done]. constructor; [exact HI2|exact HL2| |exact Hk1]. intros q Hq _. destruct (Ho1 q Hq) as [Hq0 Hcq].
    split; [done|]. unfold content_at in *. by rewrite Hk2.
  - intros _ x d q' hdr Hh Hhdr Hx Hd Hq Hdst.
    assert (E2 : forall {A} (f : csp_packet -> A), f (content k1) = f (content k)) by (intros; by rewrite Hc1).
    pose proof (E2 _ frame_length) as El. pose proof (E2 _ pkt_mem) as Em. simpl in El, Em.
    assert (Ed : dec s1 false hdr = dec s false hdr).
    { unfold dec, is_v2. assert (Ec : conf s1 = conf s) by exact (f_equal conf Hr1). by rewrite Ec. }
    destruct (eth_data _ _ _ HL1) as [d1 Hd1].
    assert (Epr : eth_promisc d1 = eth_promisc d).
    { pose proof (f_equal (fun s => eth s !! i) Hr1) as Er. cbn [rest eth set_eth set_can set_tick set_dbg set_csp_buffers set_pool] in Er.
      rewrite !map_lookup in Er. rewrite Hd, Hd1 in Er. cbn in Er. injection Er as Er _. done. }
    destruct (Hfun x d1 q' hdr) as (-> & Hq2 & Hk3).
    + by rewrite El.
    + by rewrite Em.
    + by rewrite (f_equal ifs Hr1 : ifs s1 = ifs s).
    + done.
    + by rewrite (f_equal qfifo Hr1 : qfifo s1 = qfifo s).
    + rewrite Ed, Epr. done.
    + split_and!; [done|done|]. unfold content_at. rewrite Hk3, Ed. simpl. f_equal.
      assert (Est : content (stripped hz (dec s false hdr) k1) = stripped hz (dec s false hdr) (content k1)) by (unfold content, stripped; simpl; by rewrite El).
      rewrite Est, Hc1. done.
Qed.

Lemma wp_eth_reject p l0 s0 l s : At dev T h p l0 s0 (not_expired s0) l s -> arp_ok s ->
  wp (eth_reject i) (fun _ s' => At dev T h p l0 s0 (not_expired s0) l s' /\ arp_ok s') s.
Proof.
  intros HA Ha. unfold eth_reject. apply wp_bind.
  eapply wp_conseq; [apply (wp_keeps arp_of); [unfold incr_frame; keeps_tac|by apply wp_at_incr_frame]|].
  cbv beta. intros [] s1 [HA1 Ha1]. apply wp_ret. split; [done|]. by apply (arp_ok_of s).
Qed.

(** The packet is dropped and the frame rejected. *)
Lemma wp_eth_drop p l0 s0 l s isr c : At dev T h p l0 s0 (not_expired s0) l s -> p ∈ l -> arp_ok s ->
  wp (csp_eth_pbuf_free i p true isr ;; eth_reject i) (fun _ s' => (exists l', LeftE p c l0 s0 l' s') /\ arp_ok s') s.
Proof.
  intros HA Hp Ha. apply wp_bind. unfold csp_eth_pbuf_free.
  eapply wp_conseq; [apply (wp_keeps rest); [apply keeps_pbuf_free_rest|by apply (wp_at_drop dev T h p l0 s0 (not_expired s0) l)]|].
  cbv beta. intros [] s1 [(l' & Hp' & HA1) Hr1]. wp_use (apply (wp_eth_reject p l0 s0 l'); [done|by apply (arp_ok_rest s)]).
  intros r s2 [HA2 Ha2]. split; [|done]. exists l'. by apply left_gone.
Qed.

Lemma wp_eth_segment p l0 s0 l k s frame seg frame_len isr : Busy dev T h p l0 s0 l k s ->
  frame_length k = 0 \/ pbufE_ok hz p k -> 0 < seg -> 0 < frame_len <= CSP_BUFFER_SIZE -> ETH_HEADER_SIZE + seg <= zlen frame -> arp_ok s ->
  wp (eth_segment i p frame seg frame_len isr) (fun _ s' => (exists l', LeftE p (cfpid k) l0 s0 l' s') /\ arp_ok s') s.
Proof.
  intros HB Hk0 Hseg Hlen Hf Ha. pose proof HB as (HA & Hp & Hk). pose proof (busy_pkt_ok _ _ _ _ _ _ _ _ _ HB) as Hpk. pose proof Hpk as [Hm Hpl].
  pose proof (inv_hdr _ _ _ (at_inv _ _ _ _ _ _ _ _ _ HA)) as Hz. set (k1 := opened hz frame_len p k).
  assert (Hok : pbufE_ok hz p k1) by (by apply opened_ok).
  assert (Ek : cfpid k1 = cfpid k /\ pkt_mem k1 = pkt_mem k /\ pkt_length k1 = pkt_length k /\ pkt_next k1 = pkt_next k)
    by (unfold k1, opened; destruct (_ =? 0); done). destruct Ek as (Ec & Em & Epl & Enx).
  assert (HB1 : Busy dev T h p l0 s0 l k1 (put_pkt p k1 s)).
  { apply (busy_put _ _ _ _ _ _ _ _ _ (opened hz frame_len p) HB); [done|]. fold k1. split; [by rewrite Em|by rewrite Epl]. }
  destruct (decide (frame_len = frame_length k1 /\ rx_count k1 + seg <= frame_length k1)) as [[E1 E2]|Hbad].
  - unfold ETH_HEADER_SIZE in *. pose proof (conf_hdr_bound T) as Hzb. destruct Hok as [Hm1 Hb1 Ho1 Hl1 Hc1].
    unfold CSP_PACKET_PADDING_BYTES, CSP_BUFFER_SIZE in *.
    destruct (mem_read_ok frame 22 seg) as [bs Hbs]; [lia..|].
    destruct (mem_read_ok (pkt_mem k) (8 - hz) (rx_count k1)) as [prev Hprev]; [lia..|].
    destruct (segment_run p k frame seg frame_len isr prev bs s) as (m & E & Hml & _); try done; [fold k1; lia..|]. fold k1 in E. unfold wp. rewrite E.
    set (k2 := grownE m seg k1). assert (HB2 : Busy dev T h p l0 s0 l k2 (put_pkt p k2 s)).
    { rewrite <- (put_pkt_put p k2 k1). apply (busy_put _ _ _ _ _ _ _ _ _ (grownE m seg) HB1); [done|]. split; [exact Hml|]. simpl. by rewrite Epl. }
    rewrite <- Ec. eapply wp_conseq; [apply (wp_finish p l0 s0 l k2 _ frame isr HB2)|].
    + constructor; try done. split; [exact Hml|]. simpl. by rewrite Epl.
    + intros Hlt. constructor; try done. simpl in *. lia.
    + by apply (arp_ok_rest s).
    + lia.
    + cbv beta. intros r s' (HL & Ha' & _). done.
  - unfold eth_segment. apply wp_bind. unfold wp at 1. rewrite (get_pkt_at _ _ _ Hk). apply wp_bind. unfold wp at 1. rewrite (open_run p k) by done.
    rewrite Hz. fold k1. pose proof HB1 as (HA1 & _ & Hk1). apply wp_bind. unfold wp at 1. rewrite (get_pkt_at _ _ _ Hk1).
    assert (Ha1 : arp_ok (put_pkt p k1 s)) by (by apply (arp_ok_rest s)).
    destruct (Z.eqb_spec frame_len (frame_length k1)) as [E1|E1]; cbv [negb]; [|by apply (wp_eth_drop p l0 s0 l)].
    rewrite (proj2 (Z.ltb_lt _ _)) by lia. by apply (wp_eth_drop p l0 s0 l).
Qed.

Abbreviation RcvE := (receiver dev (pbufE_ok hz) ETH_MASK T h).
Abbreviation keptE := (fun id l s l' s' => others_kept ETH_MASK id l s l' s' /\ others_only ETH_MASK id l s l' s').

Lemma unpack_ok frame : ETH_HEADER_SIZE <= zlen frame ->
  exists id seg len, csp_if_eth_unpack_header frame = Some (id, seg, len) /\ 0 <= seg < 2 ^ 16.
Proof.
  unfold ETH_HEADER_SIZE, csp_if_eth_unpack_header, eth_get16, ETH_PACKET_ID, ETH_SRC_ADDR, ETH_SEG_SIZE, ETH_PACKET_LENGTH. intros Hl.
  destruct (mem_read_ok frame 14 2) as [a Ha]; [lia..|]. destruct (mem_read_ok frame 16 2) as [b Hb]; [lia..|].
  destruct (mem_read_ok frame 18 2) as [c Hc]; [lia..|]. destruct (mem_read_ok frame 20 2) as [d Hd]; [lia..|].
  rewrite Ha, Hb, Hc, Hd. eexists _, _, _. split; [reflexivity|]. apply htobe16_range.
Qed.

(** A rejected frame changes a counter only. *)
Lemma wp_rx_reject l s id : RcvE l s -> arp_ok s -> wp (eth_reject i) (fun _ s' => exists l', RcvE l' s' /\ arp_ok s' /\ keptE id l s l' s') s.
Proof.
  intros HR Ha. assert (HA : At dev T h CSP_BUFFER_COUNT l s (not_expired s) l s) by (constructor; [apply HR|apply HR|done..]).
  wp_use (by apply (wp_eth_reject CSP_BUFFER_COUNT l s l)). intros r s' [[HI' HL' Ho Hk] Ha'].
  assert (Hc : forall q, q ∈ l -> q ∈ l /\ content_at q s' = content_at q s).
  { intros q Hq. apply Ho; [done|]. intros ->.
    assert (CSP_BUFFER_COUNT < CSP_BUFFER_COUNT)%nat; [|lia]. eapply own_range; [apply HR|]. left. apply elem_of_app. by left. }
  exists l. split_and!; [|done|..].
  - eapply (receiver_sub dev (pbufE_ok hz)); [apply pbufE_content|done..].
  - intros q k Hq _ _ _. by apply Hc.
  - intros q k Hq _. right. by apply Hc.
Qed.

Lemma wp_eth_rx l frame received_len isr s : RcvE l s -> sparse (expired_at (now_of s) s) l -> arp_ok s ->
  ETH_HEADER_SIZE <= zlen frame -> received_len <= zlen frame ->
  wp (csp_eth_rx i frame received_len isr) (fun _ s' => exists l', RcvE l' s' /\ arp_ok s' /\
    forall id seg len, csp_if_eth_unpack_header frame = Some (id, seg, len) -> keptE id l s l' s') s.
Proof.
  intros HR Hsp Ha Hf Hrl. destruct (unpack_ok frame Hf) as (id & seg & len & Eu & Hseg).
  eapply (wp_conseq _ (fun _ s' => exists l', RcvE l' s' /\ arp_ok s' /\ keptE id l s l' s')).
  2:{ intros _ s' (l' & HR' & Ha' & Ho). exists l'. split_and!; [done|done|]. intros id' seg' len' E. rewrite Eu in E. by simplify_eq. }
  unfold csp_eth_rx. apply wp_bind. destruct (mem_read_ok frame ETH_TYPE 2) as [ty Hty]; [unfold ETH_TYPE, ETH_HEADER_SIZE in *; lia..|].
  apply wp_of_option. exists (le_val ty). split; [unfold eth_get16; by rewrite Hty|].
  do 2 (wp_step; [by apply wp_rx_reject|]). apply wp_bind, wp_of_option. exists (id, seg, len). split; [done|].
  do 4 (wp_step; [by apply wp_rx_reject|]). bsimpl.
  apply wp_bind. pose proof HR as [HI HL Hok Hkeys]. wp_use (by apply (wp_eth_find T i h l)). intros [p|] s1; cbv beta iota.
  - intros (l1 & k & HB & Horg & Hr1). eapply wp_conseq; [apply (wp_eth_segment p l s l1 k s1); try done|].
    + destruct Horg as [(k0 & Hpl & Hk0 & _ & Hc)|(now & _ & _ & Hc & _)]; [right|left].
      * eapply pbufE_content; [symmetry; exact Hc|]. destruct (Hok p k0 Hpl Hk0). by constructor.
      * exact (f_equal frame_length Hc).
    + lia.
    + lia.
    + lia.
    + by apply (arp_ok_rest s).
    + cbv beta. intros _ s2 [(l' & HLf) Ha2]. exists l'.
      destruct (left_receiver dev (pbufE_ok hz) ETH_MASK T h (pbufE_content hz) p l id true s k l' s2 HR Horg HLf) as [HR' Ho].
      split_and!; [done..|]. by eapply left_only.
  - intros (Hr1 & (l' & HA1) & _). apply wp_bind. pose proof (HA1 CSP_BUFFER_COUNT) as HAc.
    eapply wp_conseq; [apply (wp_keeps arp_of); [unfold incr_drop; keeps_tac|by apply (wp_at_iface dev T h CSP_BUFFER_COUNT l s (not_expired s) l')]|].
    cbv beta. intros [] s2 [[HI2 HL2 Ho2 Hk2] Ha2]. apply wp_ret.
    assert (Hnb : forall q, q ∈ l -> q <> CSP_BUFFER_COUNT).
    { intros q Hq ->. assert (CSP_BUFFER_COUNT < CSP_BUFFER_COUNT)%nat; [|lia]. eapply own_range; [exact HI|]. left. apply elem_of_app. by left. }
    assert (Hsub : forall q, q ∈ l' -> q ∈ l /\ content_at q s2 = content_at q s).
    { intros q Hq. apply Ho2; [done|]. intros ->. assert (CSP_BUFFER_COUNT < CSP_BUFFER_COUNT)%nat; [|lia].
      eapply own_range; [exact HI2|]. left. apply elem_of_app. by left. }
    exists l'. split_and!; [|by apply (arp_ok_of s1); [|by apply (arp_ok_rest s)]|..].
    + eapply (receiver_sub dev (pbufE_ok hz)); [apply pbufE_content|done..].
    + intros q k Hq _ _ Hn. assert (Hq' : q ∈ l') by (apply Hk2; [done|by apply Hnb|done]). split; [done|]. by apply Hsub.
    + intros q k Hq _. right. by apply Hsub.
Qed.
End Segment.

(** ** Properties *)

(** C15. ARP refines a table of at most ten entries: [csp_eth_arp_get_addr] returns
    the hardware address the table has for the node and the broadcast address
    otherwise; [csp_eth_arp_set_addr] adds an entry unless the node has one
    already or the table is full, and changes nothing else. *)
Theorem arp_refines s : arp_ok s ->
  (forall addr, csp_eth_arp_get_addr addr s = Ret (arp_lookup addr (arp_table s)) s) /\
  (forall mac addr, CSP_ETH_ALEN <= zlen mac -> exists s', csp_eth_arp_set_addr mac addr s = Ret tt s' /\ arp_ok s' /\ arp_only s s' /\
    arp_table s' = arp_learn addr (take (Z.to_nat CSP_ETH_ALEN) mac) (arp_table s)).
Proof. intros Ha. split; [intros addr; by apply arp_get_run|]. intros mac addr Hm. by apply arp_set_run. Qed.

(** C13. Ethernet reception is safe: on any frame in a buffer of at least a
    header's 22 bytes, of a length that is not more than the buffer's, with no
    two neighbouring packets on the list timed out, [csp_eth_rx] returns and
    stays within the frame and its packets, whatever the overflowing shift of
    the identifier gives ([plat_overflow]); it keeps the ownership
    invariant, a well-formed list with one packet per identifier and a
    well-formed ARP table, and leaves the unexpired packets of other identifiers
    as they were. *)
Theorem eth_rx_safe `{Platform} T i h l s frame received_len isr :
  valid_if T i -> receiver (PbEth i) (pbufE_ok (conf_hdr T)) ETH_MASK T h l s -> sparse (expired_at (now_of s) s) l -> arp_ok s ->
  ETH_HEADER_SIZE <= zlen frame -> received_len <= zlen frame ->
  exists r s' l', csp_eth_rx i frame received_len isr s = Ret r s' /\ receiver (PbEth i) (pbufE_ok (conf_hdr T)) ETH_MASK T h l' s' /\ arp_ok s' /\
    forall id seg len, csp_if_eth_unpack_header frame = Some (id, seg, len) -> others_kept ETH_MASK id l s l' s'.
Proof.
  intros Hi HR Hsp Ha Hf Hl.
  destruct (proj1 (wp_run _ _ _) (wp_eth_rx T i h Hi l frame received_len isr s HR Hsp Ha Hf Hl)) as (r & s' & E & l' & HR' & Ha' & Hk).
  exists r, s', l'. split_and!; [done..|]. intros id seg len Eu. by apply (Hk id seg len).
Qed.

(** ** Witnesses *)

Lemma bus_arp_ok addr : arp_ok (bus_at addr).
Proof.
  exists 0%nat. constructor.
  - vm_compute. reflexivity.
  - split; [vm_compute; reflexivity|lia].
  - vm_compute. reflexivity.
  - intros j e Hj. lia.
  - intros j e He. assert (E : arp_array (bus_at addr) = arp_array boot) by (vm_compute; reflexivity). rewrite E in He.
    apply lookup_replicate in He as [-> _]. reflexivity.
Qed.

Lemma bus_eth_receiver addr : receiver (PbEth 1) (pbufE_ok (conf_hdr (config_of (bus_at addr)))) ETH_MASK (config_of (bus_at addr)) [] [] (bus_at addr).
Proof.
  constructor; [exact (bus_at_inv addr)|exists None; split; [reflexivity|constructor]|..]; intros q; intros; exfalso; by eapply not_elem_of_nil.
Qed.

Lemma arp_refines_witness : exists s', csp_eth_arp_set_addr bus_mac 9 bus_node = Ret tt s' /\ arp_table s' = [(9, bus_mac)].
Proof.
  destruct (arp_refines bus_node (bus_arp_ok 5)) as [_ Hset]. destruct (Hset bus_mac 9) as (s' & Hr & _ & _ & Ht).
  - vm_compute. discriminate.
  - exists s'. split; [exact Hr|]. rewrite Ht. vm_compute. reflexivity.
Defined.

(** A frame of 24 bytes with a segment that claims to be all of a packet of 2. *)
Lemma eth_rx_safe_witness : exists r s' l',
  csp_eth_rx (H := lo_platform) 1 (replicate 12 0 ++ [0x88; 0xB5; 0; 1; 0; 9; 0; 2; 0; 2; 7; 8]) 24 false bus_node = Ret r s' /\
  receiver (PbEth 1) (pbufE_ok (conf_hdr (config_of bus_node))) ETH_MASK (config_of bus_node) [] l' s'.
Proof.
  destruct (eth_rx_safe (H := lo_platform) (config_of bus_node) 1 [] [] bus_node (replicate 12 0 ++ [0x88; 0xB5; 0; 1; 0; 9; 0; 2; 0; 2; 7; 8]) 24 false)
    as (r & s' & l' & Hr & HR & _).
  - vm_compute. lia.
  - exact (bus_eth_receiver 5).
  - exact I.
  - exact (bus_arp_ok 5).
  - vm_compute. discriminate.
  - vm_compute. discriminate.
  - exists r, s', l'. split; [exact Hr|exact HR].
Defined.
