(* ===== verification/EthTrip.v ===== *)
(** * EthTrip: what the Ethernet transmitter cuts up arrives in one piece *)

From S2P Require Import Prelude State Monad Id Buffer Iflist Qfifo Own Node Pbuf Reassembly Eth EthSpec.

(** ** The bytes of a frame *)

Definition eth_frame_of (dhost shost : list Z) (pid src_addr len : Z) (seg : list Z) : list Z :=
  dhost ++ shost ++ be_bytes 2 CSP_ETH_TYPE_CSP ++ be_bytes 2 pid ++ be_bytes 2 src_addr ++ be_bytes 2 (zlen seg) ++ be_bytes 2 len ++ seg.

Lemma eth_set16_at off v m m' : eth_set16 off (htobe16 v) m = Some m' -> mem_write m off (be_bytes 2 v) = Some m'.
Proof. unfold eth_set16, htobe16. by rewrite le_bytes_swap. Qed.

Lemma eth_set16_ok off v m : 0 <= off -> off + 2 <= zlen m -> exists m', eth_set16 off v m = Some m' /\ zlen m' = zlen m.
Proof.
  intros Ho Hl. unfold eth_set16. destruct (mem_write_ok m off (le_bytes 2 v)) as [m' Hw]; [done|by rewrite length_le_bytes|].
  exists m'. split; [done|]. by rewrite (mem_write_length _ _ _ _ Hw).
Qed.

Ltac mem_skip Hw := first [erewrite mem_read_write_before by (first [exact Hw|lia])|erewrite mem_read_write_after by (first [exact Hw|lia])].

Lemma eth_fill_frame tx_buf dhost shost pid src_addr len seg : zlen dhost = 6 -> zlen shost = 6 -> 22 + zlen seg <= zlen tx_buf ->
  exists buf, eth_fill tx_buf dhost shost pid src_addr (zlen seg) len seg = Some buf /\ zlen buf = zlen tx_buf /\
    take (Z.to_nat (ETH_HEADER_SIZE + zlen seg)) buf = eth_frame_of dhost shost pid src_addr len seg.
Proof.
  intros Hd Hs Hl. unfold eth_fill, csp_eth_pack_header.
  unfold ETH_TYPE, ETH_DHOST, ETH_SHOST, ETH_PACKET_ID, ETH_SRC_ADDR, ETH_SEG_SIZE, ETH_PACKET_LENGTH, ETH_HEADER_SIZE.
  destruct (eth_set16_ok 12 (htobe16 CSP_ETH_TYPE_CSP) tx_buf) as (m1 & E1 & L1); [lia..|]. rewrite E1. cbn [mbind option_bind].
  destruct (mem_write_ok m1 0 dhost) as [m2 E2]; [lia..|]. pose proof (mem_write_length _ _ _ _ E2) as L2. rewrite E2. cbn [mbind option_bind].
  destruct (mem_write_ok m2 6 shost) as [m3 E3]; [lia..|]. pose proof (mem_write_length _ _ _ _ E3) as L3. rewrite E3. cbn [mbind option_bind].
  destruct (eth_set16_ok 14 (htobe16 pid) m3) as (m4 & E4 & L4); [lia..|]. rewrite E4. cbn [mbind option_bind].
  destruct (eth_set16_ok 16 (htobe16 src_addr) m4) as (m5 & E5 & L5); [lia..|]. rewrite E5. cbn [mbind option_bind].
  destruct (eth_set16_ok 18 (htobe16 (zlen seg)) m5) as (m6 & E6 & L6); [lia..|]. rewrite E6. cbn [mbind option_bind].
  destruct (eth_set16_ok 20 (htobe16 len) m6) as (m7 & E7 & L7); [lia..|]. rewrite E7. cbn [mbind option_bind].
  destruct (mem_write_ok m7 22 seg) as [m8 E8]; [lia..|]. pose proof (mem_write_length _ _ _ _ E8) as L8.
  exists m8. split_and!; [done|lia|].
  apply eth_set16_at in E1, E4, E5, E6, E7. assert (B2 : forall v, zlen (be_bytes 2 v) = 2) by (intros v; reflexivity).
  pose proof (B2 CSP_ETH_TYPE_CSP). pose proof (B2 pid). pose proof (B2 src_addr). pose proof (B2 (zlen seg)). pose proof (B2 len).
  assert (R : mem_read m8 0 (22 + zlen seg) = Some (eth_frame_of dhost shost pid src_addr len seg)).
  { unfold eth_frame_of. replace (22 + zlen seg) with (6 + (6 + (2 + (2 + (2 + (2 + (2 + zlen seg))))))) by lia.
    repeat apply mem_read_app; cbn [Z.add].
    - mem_skip E8. mem_skip E7. mem_skip E6. mem_skip E5. mem_skip E4. mem_skip E3. rewrite <- Hd. by apply (mem_read_write m1).
    - mem_skip E8. mem_skip E7. mem_skip E6. mem_skip E5. mem_skip E4. change (0 + 6) with 6. rewrite <- Hs at 2. by apply (mem_read_write m2).
    - change (0 + 6 + 6) with 12. mem_skip E8. mem_skip E7. mem_skip E6. mem_skip E5. mem_skip E4. mem_skip E3. mem_skip E2.
      change 2 with (zlen (be_bytes 2 CSP_ETH_TYPE_CSP)). by apply (mem_read_write tx_buf).
    - mem_skip E8. mem_skip E7. mem_skip E6. mem_skip E5. change 2 with (zlen (be_bytes 2 pid)). by apply (mem_read_write m3).
    - mem_skip E8. mem_skip E7. mem_skip E6. change 2 with (zlen (be_bytes 2 src_addr)). by apply (mem_read_write m4).
    - mem_skip E8. mem_skip E7. change 2 with (zlen (be_bytes 2 (zlen seg))). by apply (mem_read_write m5).
    - mem_skip E8. change 2 with (zlen (be_bytes 2 len)). by apply (mem_read_write m6).
    - by apply (mem_read_write m7). }
  rewrite mem_read_eq in R by lia. injection R as R. rewrite <- R. done.
Qed.

(** ** The transmitter *)

(** The segments of a frame of bytes. *)
Fixpoint eth_segs (fuel max : nat) (bytes : list Z) : list (list Z) :=
  match fuel, bytes with
  | S fuel', _ :: _ => take max bytes :: eth_segs fuel' max (drop max bytes)
  | _, _ => []
  end.

Lemma eth_segs_fuel max : (0 < max)%nat -> forall n n' bytes, (length bytes <= n)%nat -> (length bytes <= n')%nat ->
  eth_segs n max bytes = eth_segs n' max bytes.
Proof.
  intros Hm. induction n as [|n IH]; intros n' [|b bytes] Hn Hn'; try (simpl in *; lia); [by destruct n'..|].
  destruct n' as [|n']; [simpl in Hn'; lia|]. cbn [eth_segs]. f_equal. apply IH; rewrite length_drop; simpl in *; lia.
Qed.

Section TxE.
Context `{Drivers}.
Context (Hdrv : forall n, drv_tx n = CSP_ERR_NONE).
Context (i p : nat) (k : csp_packet) (pid mtu : Z) (mac dhost bytes : list Z) (table : list (Z * list Z)).
Context (Hmtu : 22 < mtu < 2 ^ 16) (Hmac : zlen mac = 6) (Hdh : zlen dhost = 6) (Hd : arp_lookup (dst (pkt_id k)) table = dhost).
Context (Hlen : 0 <= frame_length k < 2 ^ 16) (Hfb : frame_buf k = p).
Context (Hbytes : mem_read (pkt_mem k) (CSP_PACKET_PADDING_BYTES + frame_off k) (frame_length k) = Some bytes).

(** The node in the middle of a transmission. *)
Definition sending (s : node) : Prop := pkt_at p s = Some k /\ arp_ok s /\ arp_table s = table /\
  exists d, eth s !! i = Some (Some d) /\ tx_mtu d = mtu /\ if_mac d = mac /\ mtu <= zlen (eth_tx_buf d).

Definition seg_event (seg : list Z) : wire_event :=
  WireBytes i 0 (eth_frame_of dhost mac pid (src (pkt_id k)) (frame_length k) seg).

Lemma eth_loop_run : forall fuel off s, sending s -> 0 <= off <= frame_length k -> (Z.to_nat (frame_length k - off) < fuel)%nat ->
  exists s', eth_tx_loop fuel i p pid off s = (csp_buffer_free (Some p) ;; mret CSP_ERR_NONE) s' /\ pool s' = pool s /\
    wire s' = rev (map seg_event (eth_segs (Z.to_nat (frame_length k - off)) (Z.to_nat (mtu - 22)) (drop (Z.to_nat off) bytes))) ++ wire s.
Proof.
  pose proof (mem_read_length _ _ _ _ Hbytes) as Hbl.
  induction fuel as [|fuel IH]; intros off s (Hk & Ha & Ht & d & He & Hm & Hmc & Hb) Hoff Hf; [lia|]. cbn [eth_tx_loop].
  erewrite bind_ret by (by apply get_pkt_at).
  assert (Hdl : zlen (drop (Z.to_nat off) bytes) = frame_length k - off) by (rewrite length_drop; lia).
  destruct (Z.ltb_spec off (frame_length k)) as [Hlt|Hge].
  2:{ exists s. split_and!; [done|done|]. by replace (Z.to_nat (frame_length k - off)) with O by lia. }
  erewrite bind_ret by (unfold get_eth; by rewrite He). cbv zeta. rewrite Hm. unfold ETH_HEADER_SIZE.
  rewrite (u16_small (mtu - 22)), (u16_small (frame_length k - off)) by lia.
  set (n := if mtu - 22 <? frame_length k - off then mtu - 22 else frame_length k - off).
  assert (Hn : n = Z.min (mtu - 22) (frame_length k - off)) by (unfold n; destruct (Z.ltb_spec (mtu - 22) (frame_length k - off)); lia).
  erewrite bind_ret by (by apply arp_get_run). rewrite Ht, Hd. set (seg := take (Z.to_nat (mtu - 22)) (drop (Z.to_nat off) bytes)).
  assert (Hsn : zlen seg = n) by (unfold seg; rewrite length_take; lia).
  assert (Hsl : mem_read (pkt_mem k) (CSP_PACKET_PADDING_BYTES + (frame_off k + off)) n = Some seg).
  { rewrite Z.add_assoc, (mem_read_slice _ _ _ bytes off n Hbytes) by lia. f_equal. unfold seg.
    destruct (Z.ltb_spec (mtu - 22) (frame_length k - off)); [by replace n with (mtu - 22) by lia|].
    by rewrite (take_ge _ (Z.to_nat n)), (take_ge _ (Z.to_nat (mtu - 22))) by lia. }
  rewrite Hfb. erewrite bind_ret by (eapply read_mem_at; [exact Hk|exact Hsl]).
  destruct (eth_fill_frame (eth_tx_buf d) dhost mac pid (src (pkt_id k)) (frame_length k) seg) as (buf & Ef & Hbuf & Htk); [done..|lia|].
  rewrite Hmc, <- Hsn. erewrite bind_ret by (by rewrite Ef). erewrite bind_ret by (unfold mod_eth; by rewrite He).
  erewrite bind_ret by reflexivity. rewrite Hdrv. change (negb (CSP_ERR_NONE =? CSP_ERR_NONE)) with false. cbv iota.
  change (ETH_HEADER_SIZE) with 22 in Htk. rewrite Htk. rewrite (u16_small (off + zlen seg)) by lia.
  set (s1 := set_wire _ _). destruct (IH (off + zlen seg) s1) as (s' & Hr & Hp & Hw); [|lia|lia|].
  { split_and!; [done| |exact Ht|].
    - destruct Ha as [m [H1 H2 H3 H4 H5]]. exists m. by constructor.
    - exists (set_eth_tx_buf buf d). simpl. rewrite list_lookup_insert_eq by (by eapply lookup_lt_Some). split_and!; [done..|]. simpl. lia. }
  exists s'. split_and!; [exact Hr|exact Hp|]. rewrite Hw.
  destruct (Z.to_nat (frame_length k - off)) as [|m] eqn:Em; [lia|].
  destruct (drop (Z.to_nat off) bytes) as [|b bs] eqn:Edr; [simpl in Hdl; lia|].
  assert (Es : eth_segs (S m) (Z.to_nat (mtu - 22)) (b :: bs) = seg :: eth_segs m (Z.to_nat (mtu - 22)) (drop (Z.to_nat (mtu - 22)) (b :: bs))) by done.
  rewrite Es. cbn [map rev]. rewrite <- app_assoc. f_equal. do 2 f_equal. rewrite <- Edr.
  replace (drop (Z.to_nat (off + zlen seg)) bytes) with (drop (Z.to_nat (mtu - 22)) (drop (Z.to_nat off) bytes)).
  - apply eth_segs_fuel; [lia|rewrite !length_drop; lia|]. rewrite !length_drop. lia.
  - rewrite drop_drop. destruct (Z.ltb_spec (mtu - 22) (frame_length k - off)); [f_equal; lia|]. rewrite !drop_ge by lia. done.
Qed.
End TxE.

(** ** What the receiver reads off a frame *)

Definition eth_key `{Platform} (pid src_addr : Z) : Z :=
  u32 (Z.lor (int_value (Z.shiftl (le_val (be_bytes 2 pid)) 16)) (le_val (be_bytes 2 src_addr))).

Lemma mem_read_mid (a b c m : list Z) off n : m = a ++ b ++ c -> zlen a = off -> zlen b = n -> mem_read m off n = Some b.
Proof.
  intros -> <- <-. change (zlen a) with (0 + zlen a). eapply (mem_read_sub (a ++ b ++ c) 0 (zlen (a ++ b ++ c)) a b c).
  rewrite mem_read_eq by lia. by rewrite Nat2Z.id, firstn_all.
Qed.

Lemma be16_read v : 0 <= v < 2 ^ 16 -> be16toh (le_val (be_bytes 2 v)) = v.
Proof.
  intros Hv. unfold be16toh, htobe16. change 2%nat with (length (be_bytes 2 v)) at 1. rewrite be_val_swap by apply be_bytes_ok.
  rewrite be_val_bytes. by apply Z.mod_small.
Qed.

Lemma eth_frame_parse `{Platform} dhost shost pid src_addr len seg : zlen dhost = 6 -> zlen shost = 6 -> 0 <= len < 2 ^ 16 -> zlen seg < 2 ^ 16 ->
  let f := eth_frame_of dhost shost pid src_addr len seg in
  (exists t, eth_get16 f ETH_TYPE = Some t /\ be16toh t = CSP_ETH_TYPE_CSP) /\
  csp_if_eth_unpack_header f = Some (eth_key pid src_addr, zlen seg, len) /\ mem_read f ETH_HEADER_SIZE (zlen seg) = Some seg /\
  zlen f = ETH_HEADER_SIZE + zlen seg.
Proof.
  intros Hd Hs Hl Hsg f. unfold ETH_TYPE, ETH_HEADER_SIZE. pose proof (fun v => eq_refl : zlen (be_bytes 2 v) = 2) as B2.
  assert (Hf : forall a b c off, f = a ++ be_bytes 2 b ++ c -> zlen a = off -> eth_get16 f off = Some (le_val (be_bytes 2 b))).
  { intros a b c off Ef Ea. unfold eth_get16. by rewrite (mem_read_mid a (be_bytes 2 b) c f off 2). }
  split_and!.
  - eexists. split; [|by apply be16_read]. eapply (Hf (dhost ++ shost)); [unfold f, eth_frame_of; by rewrite <- !app_assoc|rewrite length_app; lia].
  - unfold csp_if_eth_unpack_header, ETH_PACKET_ID, ETH_SRC_ADDR, ETH_SEG_SIZE, ETH_PACKET_LENGTH.
    set (ty := be_bytes 2 CSP_ETH_TYPE_CSP). assert (Lt : zlen ty = 2) by done.
    rewrite (Hf (dhost ++ shost ++ ty) pid _ 14 ltac:(unfold f, eth_frame_of; by rewrite <- !app_assoc) ltac:(rewrite !length_app; lia)).
    rewrite (Hf (dhost ++ shost ++ ty ++ be_bytes 2 pid) src_addr _ 16 ltac:(unfold f, eth_frame_of; by rewrite <- !app_assoc) ltac:(rewrite !length_app; pose proof (B2 pid); lia)).
    rewrite (Hf (dhost ++ shost ++ ty ++ be_bytes 2 pid ++ be_bytes 2 src_addr) (zlen seg) _ 18 ltac:(unfold f, eth_frame_of; by rewrite <- !app_assoc)
      ltac:(rewrite !length_app; pose proof (B2 pid); pose proof (B2 src_addr); lia)).
    rewrite (Hf (dhost ++ shost ++ ty ++ be_bytes 2 pid ++ be_bytes 2 src_addr ++ be_bytes 2 (zlen seg)) len seg 20 ltac:(unfold f, eth_frame_of; by rewrite <- !app_assoc)
      ltac:(rewrite !length_app; pose proof (B2 pid); pose proof (B2 src_addr); pose proof (B2 (zlen seg)); lia)).
    cbn [mbind option_bind]. rewrite !be16_read by lia. done.
  - apply (mem_read_mid (dhost ++ shost ++ be_bytes 2 CSP_ETH_TYPE_CSP ++ be_bytes 2 pid ++ be_bytes 2 src_addr ++ be_bytes 2 (zlen seg) ++ be_bytes 2 len) seg []).
    + unfold f, eth_frame_of. by rewrite <- !app_assoc, app_nil_r.
    + rewrite !length_app. pose proof (B2 CSP_ETH_TYPE_CSP). pose proof (B2 pid). pose proof (B2 src_addr). pose proof (B2 (zlen seg)). pose proof (B2 len). lia.
    + done.
  - unfold f, eth_frame_of. rewrite !length_app. pose proof (B2 CSP_ETH_TYPE_CSP). pose proof (B2 pid). pose proof (B2 src_addr). pose proof (B2 (zlen seg)). pose proof (B2 len). lia.
Qed.

(** ** The receiver puts a packet together *)

(** The identifier in a header, as a node with configuration [T] reads it. *)
Definition conf_dec (T : config) (bs : list Z) : csp_id := if version (cf_conf T) =? 2 then dec2 bs else dec1 false bs.

Lemma inv_dec T h s bs : Inv T h s -> dec s false bs = conf_dec T bs.
Proof. intros HI. by rewrite <- (inv_conf _ _ _ HI). Qed.

Section RxE.
Context `{Platform}.
Context (T : config) (i : nat) (h : list nat) (xs : csp_iface) (isr : bool).
Context (Hxs : cf_ifs T !! i = Some xs).

Abbreviation dev := (PbEth i).
Abbreviation hz := (conf_hdr T).
Abbreviation RcvE := (receiver dev (pbufE_ok hz) ETH_MASK T h).

(** The receiver in order: list and ARP table well formed. *)
Definition ready (l : list nat) (s : node) : Prop := RcvE l s /\ arp_ok s.

(** No packet on the list has timed out, more than the reserve of buffers is
    free, and the router queue has room. *)
Definition quietE (s : node) : bool :=
  forallb (fun q => negb (expired_at (now_of s) s q)) (pbufs_of dev s) &&
  Nat.leb 2 (q_size (csp_buffers s)) && Nat.ltb (q_size (qfifo s)) (q_cap (qfifo s)).

Lemma quietE_take l s : RcvE l s -> quietE s = true ->
  sparse (expired_at (now_of s) s) l /\ (forall q, q ∈ l -> not_expired s q) /\ (2 <= q_size (csp_buffers s))%nat /\
  (q_size (qfifo s) < q_cap (qfifo s))%nat.
Proof.
  intros HR [[Hq Hf]%andb_prop Hr]%andb_prop. destruct (rcv_list _ _ _ _ _ _ _ HR) as (hd & Hh & Hc).
  rewrite (pbufs_of_list _ l) in Hq; [|apply HR|eapply pchain_bound; [apply (rcv_inv _ _ _ _ _ _ _ HR)|exact Hc]].
  assert (Hn : forall q, q ∈ l -> not_expired s q).
  { intros q Hin. rewrite forallb_forall in Hq. specialize (Hq q ltac:(by apply list_elem_of_In)). by apply negb_true_iff in Hq. }
  split_and!; [|done|by apply Nat.leb_le in Hf|by apply Nat.ltb_lt in Hr]. clear -Hn. induction l as [|p l IH]; [done|].
  split; [|apply IH; intros; apply Hn; by right]. destruct l as [|q l]; [done|]. intros _. apply Hn. right. left.
Qed.

Lemma rx_valid : valid_if T i.
Proof. by eapply lookup_lt_Some. Qed.

(** Of the frame with identifier [key] and length [flen], [bytes] have arrived. *)
Definition progress (key flen : Z) (bytes : list Z) (l : list nat) (s : node) : Prop :=
  (bytes = [] /\ forall q k, q ∈ l -> pkt_at q s = Some k -> cfpid k <> key) \/
  (exists p k, p ∈ l /\ pkt_at p s = Some k /\ cfpid k = key /\ rx_count k = zlen bytes /\ frame_length k = flen /\
    mem_read (pkt_mem k) (CSP_PACKET_PADDING_BYTES - hz) (zlen bytes) = Some bytes).

(** The packet made of [bytes] is the newest in the router queue. *)
Definition arrivedE (bytes : list Z) (s : node) : Prop :=
  exists p k, list.last (q_items (qfifo s)) = Some (Some i, Some p) /\ pkt_at p s = Some k /\
    pkt_id k = conf_dec T (take (Z.to_nat hz) bytes) /\ pkt_length k = zlen bytes - hz /\
    mem_read (pkt_mem k) CSP_PACKET_PADDING_BYTES (zlen bytes - hz) = Some (drop (Z.to_nat hz) bytes).

(** A frame of another packet. *)
Lemma other_segE l s key flen bytes f id seg len : ready l s -> quietE s = true -> progress key flen bytes l s ->
  ETH_HEADER_SIZE <= zlen f -> csp_if_eth_unpack_header f = Some (id, seg, len) -> id <> key ->
  wp (csp_eth_rx i f (zlen f) isr) (fun _ s' => exists l', ready l' s' /\ progress key flen bytes l' s') s.
Proof.
  intros [HR Ha] HQ HP Hf Eu Hne. destruct (quietE_take l s HR HQ) as (Hsp & Hun & _).
  wp_use (apply (wp_eth_rx T i h rx_valid l); [done|done|done|done|lia]). intros r s' (l' & HR' & Ha' & Hk).
  destruct (Hk id seg len Eu) as [Hkept Honly]. exists l'. split; [done|]. destruct HP as [[-> Hno]|(p & k & Hp & Hkp & Hkey & Hrc & Hfl & Hmem)].
  - left. split; [done|]. intros q k Hq Hkq E. destruct (Honly q k Hq Hkq) as [Hm|[Hql Hc]].
    + rewrite <- eth_key_match in Hm. apply Z.eqb_eq in Hm. congruence.
    + destruct (content_Some _ _ _ _ Hc Hkq) as (k0 & Hk0 & Ec). apply (Hno q k0 Hql Hk0). rewrite <- E. exact (f_equal cfpid Ec).
  - right. destruct (Hkept p k) as [Hp' Hc]; [done|done| |by apply Hun|].
    { rewrite <- eth_key_match. apply Z.eqb_neq. congruence. }
    unfold content_at in Hc. rewrite Hkp in Hc. destruct (pkt_at p s') as [k'|] eqn:Hk'; [|done]. apply (inj Some) in Hc.
    assert (E : forall {A} (f : csp_packet -> A), f (content k') = f (content k)) by (intros; by rewrite Hc).
    exists p, k'. split_and!; [done..|rewrite <- Hkey; exact (E _ cfpid)|rewrite <- Hrc; exact (E _ rx_count)
      |rewrite <- Hfl; exact (E _ frame_length)|]. rewrite <- Hmem. f_equal. exact (E _ pkt_mem).
Qed.

(** The packet found for a frame of the expected identifier. *)
Lemma own_packet l s key flen bytes p k : RcvE l s -> progress key flen bytes l s -> rx_origin l key ETH_MASK true s p k ->
  cfpid k = key /\ rx_count (opened hz flen p k) = zlen bytes /\ (flen <> 0 -> frame_length (opened hz flen p k) = flen) /\
  mem_read (pkt_mem k) (CSP_PACKET_PADDING_BYTES - hz) (zlen bytes) = Some bytes /\ (frame_length k = 0 \/ pbufE_ok hz p k).
Proof.
  intros HR HP Ho. pose proof (conf_hdr_bound T) as Hzb. destruct HP as [[-> Hno]|(q & kq & Hq & Hkq & Hkey & Hrc & Hfl & Hmem)].
  - destruct Ho as [(k0 & Hp & Hk0 & Hm & _)|(now & _ & _ & Hc & _)].
    { rewrite <- eth_key_match in Hm. apply Z.eqb_eq in Hm. by destruct (Hno p k0). }
    assert (E : forall {A} (f : csp_packet -> A), f (content k) = f (content (new_pbuf key now p))) by (intros; by rewrite Hc).
    assert (E0 : frame_length k = 0) by exact (E _ frame_length). unfold opened. rewrite E0.
    split_and!; [exact (E _ cfpid)|done|done| |by left].
    assert (Em : pkt_mem k = pkt_mem (packet_zero p)) by exact (E _ pkt_mem). rewrite Em. destruct (packet_zero_ok p) as [Hml _].
    destruct (mem_read_ok (pkt_mem (packet_zero p)) (CSP_PACKET_PADDING_BYTES - hz) 0) as [bs Hbs];
      [unfold CSP_PACKET_PADDING_BYTES, CSP_BUFFER_SIZE in *; lia..|]. 
    pose proof (mem_read_length _ _ _ _ Hbs). destruct bs; [exact Hbs|done].
  - assert (Hpq : p = q /\ content k = content (set_last_used (now_of s) kq)).
    { destruct Ho as [(k0 & Hp & Hk0 & Hm & Hc)|(now & _ & Hf & _ & _)].
      - rewrite <- eth_key_match in Hm. apply Z.eqb_eq in Hm. assert (p = q) as ->.
        { apply (rcv_keys _ _ _ _ _ _ _ HR p q k0 kq); try done. congruence. }
        rewrite Hkq in Hk0. by apply (inj Some) in Hk0 as <-.
      - exfalso. assert (Hx : key_match key ETH_MASK kq = false).
        { eapply first_match_false; [exact Hf| |exact Hq|exact Hkq]. intros y Hy Hn. destruct (live_pkt s y) as (ky & Hky & _); [|congruence].
          eapply Inv_live_h; [apply (rcv_inv _ _ _ _ _ _ _ HR)|apply elem_of_app; by left]. }
        rewrite <- eth_key_match in Hx. by apply Z.eqb_neq in Hx. }
    destruct Hpq as [-> Hc]. assert (E : forall {A} (f : csp_packet -> A), f (content k) = f (content (set_last_used (now_of s) kq))) by (intros; by rewrite Hc).
    pose proof (rcv_ok _ _ _ _ _ _ _ HR q kq Hq Hkq) as Hok. pose proof Hok as [_ _ _ Hl _].
    assert (Efl : frame_length k = frame_length kq) by exact (E _ frame_length).
    unfold opened. rewrite (proj2 (Z.eqb_neq _ _)) by lia. assert (Em : pkt_mem k = pkt_mem kq) by exact (E _ pkt_mem).
    split_and!; [rewrite <- Hkey; exact (E _ cfpid)|rewrite <- Hrc; exact (E _ rx_count)|intros _; lia|by rewrite Em|right].
    eapply pbufE_content; [symmetry; exact Hc|]. destruct Hok. by constructor.
Qed.

Lemma rx_iface l s : RcvE l s -> exists x, ifs s !! i = Some x /\ if_addr x = if_addr xs.
Proof.
  intros HR. pose proof Hxs as E. rewrite <- (inv_conf _ _ _ (rcv_inv _ _ _ _ _ _ _ HR)) in E. simpl in E.
  rewrite map_lookup in E. destruct (ifs s !! i) as [x|]; [|done]. injection E as <-. by exists x.
Qed.

(** After the segment: the packet is in the queue, or waits for more. *)
Definition advancedE (key flen : Z) (bytes : list Z) (s : node) : Prop :=
  if zlen bytes =? flen then arrivedE bytes s else exists l, ready l s /\ progress key flen bytes l s.

(** A segment of the packet. *)
Lemma own_segE l s key flen bytes seg f : ready l s -> quietE s = true -> progress key flen bytes l s ->
  (exists t, eth_get16 f ETH_TYPE = Some t /\ be16toh t = CSP_ETH_TYPE_CSP) -> csp_if_eth_unpack_header f = Some (key, zlen seg, flen) ->
  mem_read f ETH_HEADER_SIZE (zlen seg) = Some seg -> zlen f = ETH_HEADER_SIZE + zlen seg ->
  0 < zlen seg <= CSP_ETH_FRAME_SIZE_MAX -> zlen bytes + zlen seg <= flen <= CSP_BUFFER_SIZE -> hz <= flen ->
  (zlen bytes + zlen seg = flen -> dst (conf_dec T (take (Z.to_nat hz) (bytes ++ seg))) = if_addr xs) ->
  wp (csp_eth_rx i f (zlen f) isr) (fun _ s' => advancedE key flen (bytes ++ seg) s') s.
Proof.
  intros [HR Ha] HQ HP (t & Et & Ht) Eu Hsg Hf Hs Hfit Hhz Hdst. destruct (quietE_take l s HR HQ) as (Hsp & Hun & Hfree & Hroom).
  pose proof HR as [HI HL Hok Hkeys]. pose proof (conf_hdr_bound T) as Hzb. unfold CSP_ETH_FRAME_SIZE_MAX in *.
  unfold csp_eth_rx. apply wp_bind, wp_of_option. exists t. split; [done|].
  rewrite Ht, Z.eqb_refl. cbv [negb]. rewrite (proj2 (Z.ltb_ge _ _)) by lia. apply wp_bind, wp_of_option. eexists. split; [exact Eu|]. cbv beta iota.
  rewrite (proj2 (Z.eqb_neq (zlen seg) 0)) by lia. rewrite (proj2 (Z.ltb_ge CSP_ETH_FRAME_SIZE_MAX _)) by (unfold CSP_ETH_FRAME_SIZE_MAX; lia). cbv [orb].
  rewrite (proj2 (Z.ltb_ge flen _)) by lia. rewrite (proj2 (Z.ltb_ge (zlen f) _)) by lia. rewrite (proj2 (Z.eqb_neq flen 0)) by lia.
  rewrite (proj2 (Z.ltb_ge CSP_BUFFER_SIZE _)) by lia. apply wp_bind. wp_use (by apply (wp_eth_find T i h l)).
  intros [p|] s1; cbv beta iota; [|intros (_ & _ & Hlt); specialize (Hlt Hun); lia].
  intros (l1 & k & HB & Horg & Hr1). destruct (own_packet l s key flen bytes p k HR HP Horg) as (Hkey & Hrc & Hfl & Hprev & Hok0).
  specialize (Hfl ltac:(lia)). pose proof HB as (HA1 & Hp1 & Hk1). pose proof (busy_pkt_ok _ _ _ _ _ _ _ _ _ HB) as [Hm Hpl].
  set (k1 := opened hz flen p k) in *. assert (Hok1 : pbufE_ok hz p k1) by (apply opened_ok; [done|lia|done]).
  pose proof (inv_hdr _ _ _ (at_inv _ _ _ _ _ _ _ _ _ HA1)) as Hz.
  destruct (segment_run T i p k f (zlen seg) flen isr bytes seg s1) as (m & E & Hml & Hmr); try done; [fold k1; lia|fold k1; by rewrite Hrc|].
  fold k1 in E, Hmr. unfold wp. rewrite E. rewrite Hrc in Hmr. set (k2 := grownE m (zlen seg) k1) in *.
  assert (Ek : cfpid k1 = cfpid k /\ pkt_length k1 = pkt_length k /\ pkt_next k1 = pkt_next k)
    by (unfold k1, opened; destruct (_ =? 0); done). destruct Ek as (Ec & Epl & Enx).
  assert (HB2 : Busy dev T h p l s l1 k2 (put_pkt p k2 s1)).
  { apply (busy_put _ _ _ _ _ _ _ _ _ (fun _ => k2) HB); [done|]. split; [exact Hml|]. simpl. by rewrite Epl. }
  unfold advancedE. rewrite length_app, Nat2Z.inj_add. set (s2 := put_pkt p k2 s1) in *.
  destruct (Z.eqb_spec (zlen bytes + zlen seg) flen) as [Hdone|Hmore].
  - specialize (Hdst Hdone). assert (Hwh : whole hz p k2).
    { destruct Hok1. constructor; try done. split; [exact Hml|]. simpl. by rewrite Epl. }
    destruct (rx_iface l s HR) as (x & Hx & Hxa). destruct (eth_data i l1 s2) as [d Hd]; [apply HB2|].
    assert (Hr2 : rest s2 = rest s) by exact Hr1. assert (Hq2 : qfifo s2 = qfifo s) by exact (f_equal qfifo Hr2).
    pose proof (inv_dec T _ _ (take (Z.to_nat hz) (bytes ++ seg)) (at_inv _ _ _ _ _ _ _ _ _ (proj1 HB2))) as Hdec.
    assert (Hq : exists q', q_enqueue (Some i, Some p) (qfifo s2) = Some q' /\ list.last (q_items q') = Some (Some i, Some p)).
    { rewrite Hq2. unfold q_enqueue. rewrite decide_True by done. eexists. split; [reflexivity|]. simpl. apply last_snoc. }
    destruct Hq as (q' & Hq & Hlast).
    eapply wp_conseq; [apply (wp_finish T i h rx_valid p l s l1 k2 s2 f isr HB2 Hwh)|].
    + simpl. lia.
    + by apply (arp_ok_rest s).
    + unfold ETH_HEADER_SIZE in *. lia.
    + cbv beta. intros r s' ((l' & HLf) & _ & _ & Hfun).
      destruct (Hfun ltac:(simpl; lia) x d q' (take (Z.to_nat hz) (bytes ++ seg))) as (_ & Hqs & Hc).
      * simpl. lia.
      * change (pkt_mem k2) with m. rewrite <- (Z.add_0_r (CSP_PACKET_PADDING_BYTES - hz)). rewrite (mem_read_slice _ _ _ _ 0 hz Hmr) by lia. by rewrite drop_0.
      * by rewrite (f_equal ifs Hr2 : ifs s2 = ifs s).
      * done.
      * done.
      * left. by rewrite Hdec, Hxa.
      * unfold content_at in Hc. destruct (pkt_at p s') as [k'|] eqn:Hk'; [|done]. apply (inj Some) in Hc.
        assert (E2 : forall {A} (g : csp_packet -> A), g (content k') = g (content (stripped hz (dec s2 false (take (Z.to_nat hz) (bytes ++ seg))) k2))) by (intros; by rewrite Hc).
        exists p, k'. split_and!; [by rewrite Hqs|done|rewrite <- Hdec; exact (E2 _ pkt_id)| |].
        -- assert (El : pkt_length k' = u16 (frame_length k1 - hz)) by exact (E2 _ pkt_length). rewrite El, u16_small, length_app by (unfold CSP_BUFFER_SIZE in *; lia). lia.
        -- assert (Em : pkt_mem k' = m) by exact (E2 _ pkt_mem). rewrite Em, length_app.
           replace CSP_PACKET_PADDING_BYTES with (CSP_PACKET_PADDING_BYTES - hz + hz) by lia.
           rewrite (mem_read_slice _ _ _ _ hz _ Hmr) by lia. f_equal. apply take_ge. rewrite length_drop, length_app. lia.
  - unfold eth_finish. erewrite bind_ret by (apply get_pkt_at, HB2). simpl rx_count. rewrite (proj2 (Z.ltb_lt _ _)) by (simpl; lia).
    cbn [mret M_ret]. exists l1.
    assert (HLf : Left dev (pbufE_ok hz) T h p (cfpid k) l s l1 s2).
    { split; [apply HB2|]. intros _. exists k2. split_and!; [apply HB2| |done]. destruct Hok1. constructor; try done. simpl. lia. }
    destruct (left_receiver dev (pbufE_ok hz) ETH_MASK T h (pbufE_content hz) p l key true s k l1 s2 HR Horg HLf) as [HR2 _].
    split; [split; [done|by apply (arp_ok_rest s)]|]. right. exists p, k2. split_and!; [done|apply HB2|by rewrite <- Hkey| | |].
    + simpl. rewrite Hrc, length_app. lia.
    + done.
    + by rewrite length_app, Nat2Z.inj_add.
Qed.

(** *** A sequence of frames *)

Definition eth_rx_one (f : list Z) : M Z := csp_eth_rx i f (zlen f) isr.

(** The frame belongs to the packet with identifier [key]. *)
Definition of_packetE (key : Z) (f : list Z) : bool :=
  match csp_if_eth_unpack_header f with Some (id, _, _) => id =? key | None => false end.

Lemma rx_segsE dhost shost pid src_addr flen : zlen dhost = 6 -> zlen shost = 6 -> hz <= flen <= CSP_BUFFER_SIZE ->
  forall fs segs bytes l s, ready l s -> all_quiet eth_rx_one quietE fs s = true -> progress (eth_key pid src_addr) flen bytes l s ->
  Forall (fun f => ETH_HEADER_SIZE <= zlen f) fs ->
  List.filter (of_packetE (eth_key pid src_addr)) fs = map (eth_frame_of dhost shost pid src_addr flen) segs -> segs <> [] ->
  Forall (fun seg => 0 < zlen seg <= CSP_ETH_FRAME_SIZE_MAX) segs -> zlen bytes + zlen (concat segs) = flen ->
  dst (conf_dec T (take (Z.to_nat hz) (bytes ++ concat segs))) = if_addr xs -> ends_with (of_packetE (eth_key pid src_addr)) fs ->
  wp (rx_all eth_rx_one fs) (fun _ s' => arrivedE (bytes ++ concat segs) s') s.
Proof.
  intros Hd Hs Hfl. set (key := eth_key pid src_addr). induction fs as [|f fs IH]; intros segs bytes l s HR HQ HP Hall Hf Hne Hseg Hlen Hdst He; [done|].
  apply Forall_cons_iff in Hall as [Hf0 Hall]. simpl in Hf. destruct (of_packetE key f) eqn:Em.
  - destruct segs as [|seg segs]; [done|]. injection Hf as -> Hf. apply Forall_cons_iff in Hseg as [Hs1 Hseg].
    cbn [concat] in *. rewrite length_app in Hlen. unfold CSP_ETH_FRAME_SIZE_MAX, CSP_BUFFER_SIZE in *. pose proof (conf_hdr_bound T) as Hzb.
    destruct (eth_frame_parse dhost shost pid src_addr flen seg) as (Pt & Pu & Pr & Pl); [done|done|lia|lia|].
    eapply quiet_step; [exact HQ| |].
    { intros Hq. apply (own_segE l s key flen bytes seg); try done; unfold CSP_BUFFER_SIZE; [lia|lia|].
      intros Hdone. assert (concat segs = []) as E0 by (destruct (concat segs); [done|simpl in Hlen; lia]). rewrite E0, app_nil_r in Hdst. exact Hdst. }
    intros s' Hadv HQ'. unfold advancedE in Hadv. rewrite length_app in Hadv. destruct (Z.eqb_spec (Z.of_nat (length bytes + length seg)) flen) as [Hdone|Hmore].
    + assert (concat segs = []) as E0 by (destruct (concat segs); [done|simpl in Hlen; lia]). rewrite E0, app_nil_r in *.
      assert (segs = []) as ->.
      { destruct segs as [|sg segs]; [done|]. apply Forall_cons_iff in Hseg as [Hs2 _]. apply (f_equal length) in E0. simpl in E0. rewrite length_app in E0. simpl in E0. lia. }
      assert (fs = []) as -> by (eapply ends_done; [exact He|exact Hf]). by apply wp_ret.
    + destruct Hadv as (l' & HR' & HP'). rewrite app_assoc in *. eapply IH; try done.
      * intros ->. simpl in Hlen. lia.
      * rewrite length_app. lia.
      * apply (ends_cons _ _ _ He). intros ->. destruct segs; [simpl in Hlen; lia|done].
  - destruct (unpack_ok f Hf0) as (id & sz & len & Eu & _). eapply quiet_step; [exact HQ| |].
    { intros Hq. eapply (other_segE l s key flen bytes f id sz len); try done. unfold of_packetE in Em. rewrite Eu in Em. by apply Z.eqb_neq in Em. }
    intros s' (l' & HR' & HP') HQ'. eapply IH; try done. apply (ends_cons _ _ _ He). intros ->.
    unfold ends_with in He. simpl in He. congruence.
Qed.
End RxE.

(** ** The transmission as a whole *)

Lemma concat_segs max : (0 < max)%nat -> forall n bytes, (length bytes <= n)%nat -> concat (eth_segs n max bytes) = bytes.
Proof.
  intros Hm. induction n as [|n IH]; intros [|b bytes] Hn; try done; [simpl in Hn; lia|]. cbn [eth_segs concat].
  rewrite IH by (rewrite length_drop; simpl in *; lia). apply take_drop.
Qed.

Lemma segs_size max : (0 < max)%nat -> forall n bytes, Forall (fun seg => 0 < zlen seg <= zlen bytes) (eth_segs n max bytes).
Proof.
  intros Hm. induction n as [|n IH]; intros [|b bytes]; try by constructor. cbn [eth_segs]. constructor; [rewrite length_take; simpl; lia|].
  eapply Forall_impl; [|apply IH]. cbv beta. intros seg. rewrite length_drop. lia.
Qed.

Section TxAll.
Context `{Drivers}.
Context (Hdrv : forall n, drv_tx n = CSP_ERR_NONE).

(** An interface that can send: the transmit buffer holds a frame of [tx_mtu] bytes. *)
Record can_send (d : csp_eth) (s : node) : Prop := {
  snd_mtu : ETH_HEADER_SIZE < tx_mtu d < 2 ^ 16;
  snd_buf : tx_mtu d <= zlen (eth_tx_buf d);
  snd_mac : zlen (if_mac d) = CSP_ETH_ALEN;
  snd_arp : arp_ok s
}.

Lemma lookup_mac s addr : arp_ok s -> zlen (arp_lookup addr (arp_table s)) = CSP_ETH_ALEN.
Proof.
  intros [n HL]. destruct (arp_table_linked n s HL) as [Et _]. unfold arp_lookup. rewrite Et, find_pair.
  destruct (List.find (arp_is addr) (take n (arp_array s))) as [e|] eqn:E; [|done].
  apply find_some in E as [E _]. apply list_elem_of_In, elem_of_take in E as (j & Hj & _). simpl. by apply (arp_macs _ _ HL j).
Qed.

Lemma eth_tx_run i via p from_me k x d data s : pkt_at p s = Some k -> packet_ok k -> ifs s !! i = Some x -> eth s !! i = Some (Some d) ->
  can_send d s -> dst (pkt_id k) <> if_addr x -> 0 <= pkt_length k <= CSP_BUFFER_SIZE ->
  mem_read (pkt_mem k) CSP_PACKET_PADDING_BYTES (pkt_length k) = Some data ->
  let bytes := enc s false (pkt_id k) ++ data in
  let frame := eth_frame_of (arp_lookup (dst (pkt_id k)) (arp_table s)) (if_mac d) (u16 (eth_packet_id s + 1)) (src (pkt_id k)) (zlen bytes) in
  exists s', csp_eth_tx i via p from_me s = Ret CSP_ERR_NONE s' /\
    wire s' = rev (map (fun seg => WireBytes i 0 (frame seg)) (eth_segs (length bytes) (Z.to_nat (tx_mtu d - 22)) bytes)) ++ wire s.
Proof.
  intros Hk [Hml _] Hx He [Hmtu Hbuf Hmac Harp] Hne Hlen Hdata bytes frame. unfold ETH_HEADER_SIZE, CSP_ETH_ALEN in *.
  pose proof (hdr_size_bound s) as Hz. pose proof (mem_read_length _ _ _ _ Hdata) as Hdl. pose proof (length_enc s false (pkt_id k)) as Hel.
  unfold CSP_PACKET_PADDING_BYTES, CSP_BUFFER_SIZE in *.
  destruct (mem_write_ok (pkt_mem k) (8 + - hdr_size s) (enc s false (pkt_id k))) as [m Hw]; [lia..|].
  set (k1 := framed p (hdr_size s) m k).
  assert (Hb1 : zlen bytes = pkt_length k + hdr_size s) by (unfold bytes; rewrite length_app; lia).
  assert (Hfl : frame_length k1 = zlen bytes) by (simpl; rewrite u16_small; lia).
  assert (Hbytes : mem_read (pkt_mem k1) (8 + frame_off k1) (frame_length k1) = Some bytes).
  { rewrite Hfl, Hb1, (Z.add_comm (pkt_length k)). change (frame_off k1) with (- hdr_size s). change (pkt_mem k1) with m. apply mem_read_app.
    - rewrite <- Hel at 2. by apply (mem_read_write (pkt_mem k)).
    - replace (8 + - hdr_size s + hdr_size s) with 8 by lia. erewrite mem_read_write_after by (first [exact Hw|lia]). exact Hdata. }
  set (s1 := set_eth_packet_id (u16 (eth_packet_id s + 1)) (put_pkt p k1 s)).
  assert (Hk1 : pkt_at p s1 = Some k1) by exact (pkt_at_put p k1 k s Hk).
  destruct (eth_loop_run Hdrv i p k1 (u16 (eth_packet_id s + 1)) (tx_mtu d) (if_mac d) (arp_lookup (dst (pkt_id k)) (arp_table s)) bytes (arp_table s))
    with (fuel := S (Z.to_nat (frame_length k1))) (off := 0) (s := s1) as (s2 & Hr & Hp & Hwire).
  - lia.
  - done.
  - by apply lookup_mac.
  - done.
  - rewrite Hfl. lia.
  - done.
  - exact Hbytes.
  - split_and!; [exact Hk1|by apply (arp_ok_of s)|done|]. exists d. by split_and!.
  - lia.
  - lia.
  - assert (Hpl : exists b, pool s2 !! p = Some b).
    { rewrite Hp. unfold pkt_at in Hk1. destruct (pool s1 !! p) as [b|]; [by exists b|done]. }
    destruct Hpl as [b Hpl]. destruct (free_keeps_wire p b s2 Hpl) as (s3 & Hfree & Hw3). exists s3. split.
    + unfold csp_eth_tx. erewrite bind_ret by (by apply get_pkt_at). erewrite bind_ret by (by apply get_iface_at).
      rewrite (proj2 (Z.eqb_neq _ _)) by done. change (csp_id_prepend p) with (prepend_any false p).
      erewrite bind_ret by (by eapply prepend_at). fold k1. erewrite bind_ret by reflexivity. erewrite bind_ret by reflexivity.
      erewrite bind_ret by (apply get_pkt_at; exact Hk1). etransitivity; [exact Hr|]. by erewrite bind_ret by exact Hfree.
    + rewrite Hw3, Hwire, Z.sub_0_r, drop_0. change (wire s1) with (wire s). do 2 f_equal.
      assert (En : Z.to_nat (frame_length k1) = length bytes) by lia. rewrite En.
      apply map_ext. intros seg. unfold seg_event, frame. rewrite Hfl. done.
Qed.
End TxAll.

(** With a transmit unit of just the header, every segment is empty. *)
Lemma eth_stall_run `{Drivers} i p k pid bytes : (forall n, drv_tx n = CSP_ERR_NONE) -> frame_buf k = p -> 0 < frame_length k < 2 ^ 16 ->
  mem_read (pkt_mem k) (CSP_PACKET_PADDING_BYTES + frame_off k) (frame_length k) = Some bytes ->
  forall fuel s d, pkt_at p s = Some k -> arp_ok s -> eth s !! i = Some (Some d) -> tx_mtu d = 22 -> zlen (if_mac d) = 6 -> 22 <= zlen (eth_tx_buf d) ->
  eth_tx_loop fuel i p pid 0 s = Undef.
Proof.
  intros Hdrv Hfb Hlen Hbytes. induction fuel as [|fuel IH]; intros s d Hk Ha He Hm Hmac Hb; [done|]. cbn [eth_tx_loop].
  erewrite bind_ret by (by apply get_pkt_at). rewrite (proj2 (Z.ltb_lt _ _)) by lia.
  erewrite bind_ret by (unfold get_eth; by rewrite He). cbv zeta. rewrite Hm. change (u16 (22 - ETH_HEADER_SIZE)) with 0.
  rewrite Z.sub_0_r, (u16_small (frame_length k)) by lia. rewrite (proj2 (Z.ltb_lt 0 _)) by lia.
  erewrite bind_ret by (by apply arp_get_run). rewrite Hfb.
  erewrite bind_ret by (eapply (read_mem_at p _ _ _ _ []); [exact Hk|rewrite Z.add_assoc, (mem_read_slice _ _ _ bytes 0 0 Hbytes) by lia; done]).
  pose proof (lookup_mac s (dst (pkt_id k)) Ha) as Hdh. unfold CSP_ETH_ALEN in Hdh.
  destruct (eth_fill_frame (eth_tx_buf d) (arp_lookup (dst (pkt_id k)) (arp_table s)) (if_mac d) pid (src (pkt_id k)) (frame_length k) [])
    as (buf & Ef & Hbuf & _); [done|done|simpl; lia|]. change (zlen []) with 0 in Ef. erewrite bind_ret by (by rewrite Ef).
  erewrite bind_ret by (unfold mod_eth; by rewrite He). erewrite bind_ret by reflexivity. rewrite Hdrv.
  change (negb (CSP_ERR_NONE =? CSP_ERR_NONE)) with false. cbv iota. apply (IH _ (set_eth_tx_buf buf d)); try done.
  - by apply (arp_ok_of s).
  - simpl. by rewrite list_lookup_insert_eq by (by eapply lookup_lt_Some).
  - simpl. lia.
Qed.

(** ** Properties *)

(** C9. Ethernet round trip: when the driver accepts the frames, [csp_eth_tx]
    sends the segments of the packet; whatever frames of other packets come in
    between, the addressed receiver, which has nothing of a packet with the same
    identifier, puts a packet with the same header, length and payload at the end
    of its router queue, provided that header and payload fit a buffer's payload
    and that meanwhile no packet times out and buffers and queue have room. *)
Theorem eth_roundtrip `{Platform} `{Drivers} s1 i1 via p from_me k x1 d1 data T i h l s2 xs isr :
  (forall n, drv_tx n = CSP_ERR_NONE) -> pkt_at p s1 = Some k -> packet_ok k -> ifs s1 !! i1 = Some x1 -> eth s1 !! i1 = Some (Some d1) ->
  can_send d1 s1 -> dst (pkt_id k) <> if_addr x1 -> id_ok s1 (pkt_id k) -> 0 <= pkt_length k -> hdr_size s1 + pkt_length k <= CSP_BUFFER_SIZE ->
  mem_read (pkt_mem k) CSP_PACKET_PADDING_BYTES (pkt_length k) = Some data ->
  (version (cf_conf T) =? 2) = is_v2 s1 -> cf_ifs T !! i = Some xs -> dst (pkt_id k) = if_addr xs -> ready T i h l s2 ->
  let pid := u16 (eth_packet_id s1 + 1) in let key := eth_key pid (src (pkt_id k)) in let bytes := enc s1 false (pkt_id k) ++ data in
  let sent := map (eth_frame_of (arp_lookup (dst (pkt_id k)) (arp_table s1)) (if_mac d1) pid (src (pkt_id k)) (zlen bytes))
    (eth_segs (length bytes) (Z.to_nat (tx_mtu d1 - 22)) bytes) in
  (forall q kq, q ∈ l -> pkt_at q s2 = Some kq -> cfpid kq <> key) ->
  (exists s1', csp_eth_tx i1 via p from_me s1 = Ret CSP_ERR_NONE s1' /\ wire s1' = rev (map (WireBytes i1 0) sent) ++ wire s1) /\
  forall fs, List.filter (of_packetE key) fs = sent -> ends_with (of_packetE key) fs -> Forall (fun f => ETH_HEADER_SIZE <= zlen f) fs ->
    all_quiet (eth_rx_one i isr) (quietE i) fs s2 = true ->
    exists s2' p' k', rx_all (eth_rx_one i isr) fs s2 = Ret tt s2' /\ list.last (q_items (qfifo s2')) = Some (Some i, Some p') /\
      pkt_at p' s2' = Some k' /\ pkt_id k' = pkt_id k /\ pkt_length k' = pkt_length k /\
      mem_read (pkt_mem k') CSP_PACKET_PADDING_BYTES (pkt_length k) = Some data.
Proof.
  intros Hdrv Hk Hpk Hx Hd Hs Hne Hid Hl0 Hl Hr Hver Hxs Hdst Hrdy pid key bytes sent Hkey.
  pose proof (hdr_size_bound s1) as Hzb. pose proof (mem_read_length _ _ _ _ Hr) as Hdl. pose proof (length_enc s1 false (pkt_id k)) as Hel.
  assert (Hbl : zlen bytes = hdr_size s1 + pkt_length k) by (unfold bytes; rewrite length_app; lia).
  assert (Hz : conf_hdr T = hdr_size s1) by (unfold conf_hdr, hdr_size; by rewrite Hver).
  assert (Hm : (0 < Z.to_nat (tx_mtu d1 - 22))%nat) by (destruct Hs as [Hmtu _ _ _]; unfold ETH_HEADER_SIZE in Hmtu; lia).
  assert (Hcat : concat (eth_segs (length bytes) (Z.to_nat (tx_mtu d1 - 22)) bytes) = bytes) by (by apply concat_segs).
  assert (Hdec : conf_dec T (take (Z.to_nat (conf_hdr T)) bytes) = pkt_id k).
  { unfold bytes. rewrite take_app_le, take_ge by lia. unfold conf_dec. rewrite Hver. unfold enc, id_ok in *.
    destruct (is_v2 s1); [by apply dec2_enc2|by apply dec1_enc1]. }
  split.
  - destruct (eth_tx_run Hdrv i1 via p from_me k x1 d1 data s1) as (s1' & Htx & Hw); try done; [lia|].
    exists s1'. split; [done|]. rewrite Hw. unfold sent. by rewrite map_map.
  - intros fs Hf He Hlen HQ.
    destruct (proj1 (wp_run _ _ _) (rx_segsE T i h xs isr Hxs (arp_lookup (dst (pkt_id k)) (arp_table s1)) (if_mac d1) pid (src (pkt_id k)) (zlen bytes)
      ltac:(by apply lookup_mac; apply Hs) ltac:(apply Hs) ltac:(lia) fs (eth_segs (length bytes) (Z.to_nat (tx_mtu d1 - 22)) bytes) [] l s2 Hrdy HQ
      ltac:(by left) Hlen Hf ltac:(intros E; rewrite E in Hcat; simpl in Hcat; rewrite <- Hcat in Hbl; simpl in Hbl; lia)
      ltac:(eapply Forall_impl; [|by apply segs_size]; cbv beta; unfold CSP_ETH_FRAME_SIZE_MAX, CSP_BUFFER_SIZE in *; intros; lia)
      ltac:(rewrite Hcat; simpl; lia) ltac:(rewrite Hcat; simpl app; by rewrite Hdec) He))
      as ([] & s2' & Hrun & p' & k' & Hq & Hk' & Hid' & Hl' & Hm').
    rewrite Hcat in *. simpl app in *. exists s2', p', k'. rewrite Hz, Hbl in *. split_and!; [done..| |lia|].
    + by rewrite Hid', Hdec.
    + replace (pkt_length k) with (hdr_size s1 + pkt_length k - hdr_size s1) by lia. rewrite Hm'. f_equal. unfold bytes.
      rewrite drop_app_ge by lia. by replace (Z.to_nat (hdr_size s1) - length (enc s1 false (pkt_id k)))%nat with O by lia.
Qed.

(** An Ethernet interface with [tx_mtu] equal to the header size never
    finishes a transmission: no number of turns of the loop in [csp_eth_tx] is
    enough, because every segment is empty. *)
Theorem eth_tx_stalls `{Drivers} i p k pid bytes fuel s d : (forall n, drv_tx n = CSP_ERR_NONE) -> frame_buf k = p -> 0 < frame_length k < 2 ^ 16 ->
  mem_read (pkt_mem k) (CSP_PACKET_PADDING_BYTES + frame_off k) (frame_length k) = Some bytes -> pkt_at p s = Some k -> arp_ok s ->
  eth s !! i = Some (Some d) -> tx_mtu d = ETH_HEADER_SIZE -> zlen (if_mac d) = CSP_ETH_ALEN -> ETH_HEADER_SIZE <= zlen (eth_tx_buf d) ->
  eth_tx_loop fuel i p pid 0 s = Undef.
Proof. intros Hdrv Hfb Hlen Hbytes Hk Ha He Hm Hmac Hb. by eapply (eth_stall_run i p k pid bytes). Qed.

(** The longest packets do not get through: a frame of a packet whose header
    and payload exceed [CSP_BUFFER_SIZE] together (a payload of 251 bytes or more
    in version 2) is rejected by [csp_eth_rx], which only counts it. *)
Theorem eth_rx_long_lost `{Platform} i dhost shost pid src_addr len seg isr s x : zlen dhost = CSP_ETH_ALEN -> zlen shost = CSP_ETH_ALEN ->
  CSP_BUFFER_SIZE < len < 2 ^ 16 -> 0 < zlen seg <= CSP_ETH_FRAME_SIZE_MAX -> zlen seg <= len -> ifs s !! i = Some x ->
  let f := eth_frame_of dhost shost pid src_addr len seg in
  csp_eth_rx i f (zlen f) isr s = Ret CSP_ERR_INVAL (set_ifs (<[i := set_if_frame (u32 (if_frame x + 1)) x]> (ifs s)) s).
Proof.
  intros Hd Hs Hlen Hseg Hle Hx f. unfold CSP_ETH_FRAME_SIZE_MAX, CSP_BUFFER_SIZE in *.
  destruct (eth_frame_parse dhost shost pid src_addr len seg) as ((t & Et & Ht) & Eu & _ & Hf); [done|done|lia|lia|]. fold f in Et, Eu, Hf.
  unfold csp_eth_rx. erewrite bind_ret by (by rewrite Et). rewrite Ht, Z.eqb_refl. cbv [negb]. unfold ETH_HEADER_SIZE in *.
  rewrite (proj2 (Z.ltb_ge _ _)) by lia. erewrite bind_ret by (by rewrite Eu). cbv beta iota.
  rewrite (proj2 (Z.eqb_neq (zlen seg) 0)) by lia. rewrite (proj2 (Z.ltb_ge CSP_ETH_FRAME_SIZE_MAX _)) by (unfold CSP_ETH_FRAME_SIZE_MAX; lia). cbv [orb].
  rewrite (proj2 (Z.ltb_ge len _)) by lia. rewrite (proj2 (Z.ltb_ge (zlen f) _)) by lia. rewrite (proj2 (Z.eqb_neq len 0)) by lia.
  rewrite (proj2 (Z.ltb_lt CSP_BUFFER_SIZE _)) by (unfold CSP_BUFFER_SIZE; lia).
  unfold eth_reject. erewrite bind_ret by (unfold incr_frame, mod_iface; by rewrite Hx). done.
Qed.

(** ** Witnesses *)

Lemma eth_roundtrip_witness : exists k s1' s2' p' k', pkt_at 0 bus_sender = Some k /\
  csp_eth_tx (H := good_drivers) 1 0 0 false bus_sender = Ret CSP_ERR_NONE s1' /\
  rx_all (eth_rx_one (H := lo_platform) 1 false)
    (map (eth_frame_of (replicate 6 255) bus_mac 1 5 19) (eth_segs 19 78 (enc bus_sender false (pkt_id k) ++ bus_payload))) (bus_at 9) = Ret tt s2' /\
  pkt_at p' s2' = Some k' /\ pkt_id k' = pkt_id k.
Proof.
  destruct (pkt_at 0 bus_sender) as [k|] eqn:Hk; [|vm_compute in Hk; discriminate].
  destruct (eth_roundtrip (H := lo_platform) (H0 := good_drivers) bus_sender 1 0 0 false k bus_if (mkEth false 100 (replicate 1500 0) None bus_mac) bus_payload
    (config_of (bus_at 9)) 1 [] [] (bus_at 9) (if_static (bus_if_at 9)) false) as ((s1' & Htx & _) & Hrx).
  - intros n. reflexivity.
  - exact Hk.
  - vm_compute in Hk. injection Hk as <-. vm_compute. repeat split; discriminate.
  - vm_compute. reflexivity.
  - vm_compute. reflexivity.
  - constructor; [vm_compute; split; reflexivity|vm_compute; discriminate|reflexivity|]. apply (arp_ok_of bus_node); [vm_compute; reflexivity|exact (bus_arp_ok 5)].
  - vm_compute in Hk. injection Hk as <-. vm_compute. discriminate.
  - vm_compute in Hk. injection Hk as <-. vm_compute. repeat split; discriminate.
  - vm_compute in Hk. injection Hk as <-. vm_compute. discriminate.
  - vm_compute in Hk. injection Hk as <-. vm_compute. discriminate.
  - vm_compute in Hk. injection Hk as <-. vm_compute. reflexivity.
  - vm_compute. reflexivity.
  - vm_compute. reflexivity.
  - vm_compute in Hk. injection Hk as <-. vm_compute. reflexivity.
  - split; [exact (bus_eth_receiver 9)|exact (bus_arp_ok 9)].
  - intros q kq Hq. exfalso. exact (not_elem_of_nil _ Hq).
  - destruct (Hrx (map (eth_frame_of (replicate 6 255) bus_mac 1 5 19) (eth_segs 19 78 (enc bus_sender false (pkt_id k) ++ bus_payload))))
      as (s2' & p' & k' & Hr & _ & Hp & Hi & _).
    + vm_compute in Hk. injection Hk as <-. vm_compute. reflexivity.
    + vm_compute in Hk. injection Hk as <-. vm_compute. reflexivity.
    + vm_compute in Hk. injection Hk as <-. vm_compute. repeat constructor; discriminate.
    + vm_compute in Hk. injection Hk as <-. vm_compute. reflexivity.
    + exists k, s1', s2', p', k'. split; [reflexivity|]. split; [exact Htx|]. split; [exact Hr|]. split; [exact Hp|exact Hi].
Defined.

(** The sender with a transmit unit of 22 bytes and a framed packet. *)
Definition stalled : node :=
  state_of ((csp_id_prepend 0 ;; mod_eth 1 (set_tx_mtu 22)) bus_sender).

Lemma eth_tx_stalls_witness : eth_tx_loop (H := good_drivers) 1000 1 0 1 0 stalled = Undef.
Proof.
  destruct (pkt_at 0 stalled) as [k|] eqn:Hk; [|vm_compute in Hk; discriminate].
  destruct (mem_read (pkt_mem k) (CSP_PACKET_PADDING_BYTES + frame_off k) (frame_length k)) as [bytes|] eqn:Hb;
    [|vm_compute in Hk; injection Hk as <-; vm_compute in Hb; discriminate].
  apply (eth_tx_stalls (H := good_drivers) 1 0 k 1 bytes 1000 stalled (mkEth false 22 (replicate 1500 0) None bus_mac)).
  - intros n. reflexivity.
  - vm_compute in Hk. injection Hk as <-. vm_compute. reflexivity.
  - vm_compute in Hk. injection Hk as <-. vm_compute. split; reflexivity.
  - exact Hb.
  - exact Hk.
  - apply (arp_ok_of bus_node); [vm_compute; reflexivity|exact (bus_arp_ok 5)].
  - vm_compute. reflexivity.
  - reflexivity.
  - reflexivity.
  - vm_compute. discriminate.
Defined.

Lemma eth_rx_long_lost_witness : exists s', csp_eth_rx (H := lo_platform) 1 (eth_frame_of bus_mac bus_mac 1 5 257 [1; 2; 3]) 25 false bus_node = Ret CSP_ERR_INVAL s'.
Proof.
  pose proof (eth_rx_long_lost (H := lo_platform) 1 bus_mac bus_mac 1 5 257 [1; 2; 3] false bus_node bus_if) as Hl. eexists. apply Hl.
  - reflexivity.
  - reflexivity.
  - vm_compute. split; reflexivity.
  - vm_compute. split; [reflexivity|discriminate].
  - vm_compute. discriminate.
  - vm_compute. reflexivity.
Defined.
