(* ===== verification/Sfp.v ===== *)
(** * Sfp: the simple fragmentation protocol ([src/csp_sfp.c], [include/csp/csp_sfp.h])

    A block of data goes over a connection in packets of up to [mtu] bytes; each
    carries its offset and the total size behind the data, and the flag
    [CSP_FFRAG].  The receiver takes fragments in order only. *)

From S2P Require Import Prelude State Monad Id Buffer Qfifo Io RdpQueue Rdp Conn RdpProto Api Own OwnIo OwnRdp OwnRoute OwnApi Node Pbuf.

(** [sizeof(sfp_header_t)]: offset, then totalsize. *)
Definition SFP_HEADER_SIZE : Z := 8.

(** [csp_sfp_header_add]: the offset of the header in [data]. *)
Definition csp_sfp_header_add (packet : nat) : M Z :=
  k ← get_pkt packet;
  mod_pkt packet (fun k => set_pkt_length (u16 (pkt_length k + SFP_HEADER_SIZE)) k) ;;
  mret (pkt_length k).

(** [csp_sfp_header_remove]: the header's fields, or [None] for [NULL]; the fields
    are swapped in place. *)
Definition csp_sfp_header_remove (packet : nat) : M (option (Z * Z)) :=
  k ← get_pkt packet;
  if negb (flags (pkt_id k) &.& CSP_FFRAG) then mret None else
  if pkt_length k <? SFP_HEADER_SIZE then mret None else
  let header := pkt_length k - SFP_HEADER_SIZE in
  mod_pkt packet (fun k => set_pkt_length (u16 (pkt_length k - SFP_HEADER_SIZE)) k) ;;
  o ← read_mem packet header 4;
  let offset := be32toh (le_val o) in
  write_mem packet header (le_bytes 4 offset) ;;
  t ← read_mem packet (header + 4) 4;
  let totalsize := be32toh (le_val t) in
  write_mem packet (header + 4) (le_bytes 4 totalsize) ;;
  if totalsize <? offset then mret None else mret (Some (offset, totalsize)).

Section Sfp.
Context `{Platform}.

(** ** Sending *)

(** The loop of [csp_sfp_send_own_memcpy].  [fetch count size] are the bytes that
    [memcpyfcn] copies from [data + count]; [rfuel] bounds the waits for the RDP
    window. *)
Fixpoint sfp_send_loop (fuel rfuel : nat) (c : nat) (fetch : Z -> Z -> option (list Z)) (totalsize mtu count : Z) : M Z :=
  match fuel with
  | O => undef
  | S fuel' =>
      if count <? totalsize then
        active ← csp_conn_is_active c;
        if negb active then mret CSP_ERR_NONE else
        packet ← csp_buffer_get;
        match packet with
        | None => mret CSP_ERR_NOMEM
        | Some p =>
            let size := u32 (totalsize - count) in
            let size := if mtu <? size then mtu else size in
            bs ← of_option (fetch count size);
            write_mem p 0 bs ;;
            mod_pkt p (set_pkt_length (u16 size)) ;;
            mod_conn c (fun x => set_idout (set_flags (Z.lor (flags (idout x)) CSP_FFRAG) (idout x)) x) ;;
            sfp_header ← csp_sfp_header_add p;
            write_mem p (sfp_header + 4) (le_bytes 4 (htobe32 totalsize)) ;;
            write_mem p sfp_header (le_bytes 4 (htobe32 count)) ;;
            csp_send rfuel (Some c) (Some p) ;;
            sfp_send_loop fuel' rfuel c fetch totalsize mtu (u32 (count + size))
        end
      else mret CSP_ERR_NONE
  end.

(** Every turn sends a byte at least, so [totalsize + 1] turns suffice. *)
Definition csp_sfp_send_own_memcpy (rfuel c : nat) (fetch : Z -> Z -> option (list Z)) (totalsize mtu : Z) : M Z :=
  if (mtu =? 0) || (CSP_BUFFER_SIZE <? mtu + SFP_HEADER_SIZE) then mret CSP_ERR_INVAL
  else sfp_send_loop (S (Z.to_nat totalsize)) rfuel c fetch totalsize mtu 0.

(** With [memcpy], from the memory [data]. *)
Definition csp_sfp_send (rfuel c : nat) (data : list Z) (totalsize mtu : Z) : M Z :=
  csp_sfp_send_own_memcpy rfuel c (mem_read data) totalsize mtu.

(** ** Receiving

    [malloc n] is the memory the C library gives out, if any. *)
Context (malloc : Z -> option (list Z)).

(** What one packet does to the transfer: an error, the end, or more to come. *)
Inductive sfp_next := SfpError (e : Z) | SfpDone (data : list Z) (datasize : Z) | SfpMore (data : list Z) (datasize data_offset : Z).

(** The body of the loop.  [data] is [None] before the memory is allocated. *)
Definition sfp_recv_packet (packet : nat) (data : option (list Z)) (datasize data_offset : Z) : M sfp_next :=
  sfp_header ← csp_sfp_header_remove packet;
  match sfp_header with
  | None => csp_buffer_free (Some packet) ;; mret (SfpError CSP_ERR_SFP)
  | Some (offset, totalsize) =>
      if negb (offset =? data_offset) then csp_buffer_free (Some packet) ;; mret (SfpError CSP_ERR_SFP) else
      let datasize := match data with None => totalsize | Some _ => datasize end in
      match (match data with None => malloc datasize | Some d => Some d end) with
      | None => csp_buffer_free (Some packet) ;; mret (SfpError CSP_ERR_NOMEM)
      | Some d =>
          k ← get_pkt packet;
          if (datasize <? u32 (data_offset + pkt_length k)) || negb (datasize =? totalsize) then
            csp_buffer_free (Some packet) ;; mret (SfpError CSP_ERR_SFP)
          else
          bs ← read_mem packet 0 (pkt_length k);
          d ← of_option (mem_write d data_offset bs);
          let data_offset := u32 (data_offset + pkt_length k) in
          if datasize <=? data_offset then
            csp_buffer_free (Some packet) ;; mret (SfpDone d datasize)
          else if pkt_length k =? 0 then
            csp_buffer_free (Some packet) ;; mret (SfpError CSP_ERR_SFP)
          else
            csp_buffer_free (Some packet) ;; mret (SfpMore d datasize data_offset)
      end
  end.

(** The [do ... while ((packet = csp_read(conn, timeout)) != NULL)].  The result is
    the return value and [*return_data] with [*return_datasize], an [int]. *)
Fixpoint sfp_recv_loop (fuel c : nat) (timeout : Z) (packet : nat) (data : option (list Z)) (datasize data_offset : Z)
    : M (Z * option (list Z * Z)) :=
  match fuel with
  | O => undef
  | S fuel' =>
      r ← sfp_recv_packet packet data datasize data_offset;
      match r with
      | SfpError e => mret (e, None)
      | SfpDone d n => mret (CSP_ERR_NONE, Some (d, i32 n))
      | SfpMore d n off =>
          packet ← csp_read (Some c) timeout;
          match packet with
          | None => mret (CSP_ERR_TIMEDOUT, None)
          | Some p => sfp_recv_loop fuel' c timeout p (Some d) n off
          end
      end
  end.

(** [fuel] bounds the number of packets read. *)
Definition csp_sfp_recv_fp (fuel c : nat) (timeout : Z) (first_packet : option nat) : M (Z * option (list Z * Z)) :=
  packet ← match first_packet with None => csp_read (Some c) timeout | Some p => mret (Some p) end;
  match packet with
  | None => mret (CSP_ERR_TIMEDOUT, None)
  | Some p => sfp_recv_loop fuel c timeout p None 0 0
  end.

Definition csp_sfp_recv (fuel c : nat) (timeout : Z) : M (Z * option (list Z * Z)) := csp_sfp_recv_fp fuel c timeout None.

End Sfp.

(** ** One packet, as a function

    What [sfp_recv_packet] makes of a packet with flags [f] and payload [bytes]. *)

(** The header behind a payload. *)
Definition sfp_header (bytes : list Z) : Z * Z :=
  let h := drop (length bytes - 8) bytes in (be32toh (le_val (take 4 h)), be32toh (le_val (drop 4 h))).

(** The fields after [csp_sfp_header_remove], [None] for a packet it refuses. *)
Definition sfp_parse (f : Z) (bytes : list Z) : option (Z * Z) :=
  if negb (f &.& CSP_FFRAG) || (zlen bytes <? SFP_HEADER_SIZE) || (snd (sfp_header bytes) <? fst (sfp_header bytes)) then None
  else Some (sfp_header bytes).

(** The packet after [csp_sfp_header_remove]: the header is cut off and swapped in place. *)
Lemma header_remove_run p k s bytes : pkt_at p s = Some k -> packet_ok k ->
  mem_read (pkt_mem k) CSP_PACKET_PADDING_BYTES (pkt_length k) = Some bytes ->
  exists k', csp_sfp_header_remove p s = Ret (sfp_parse (flags (pkt_id k)) bytes) (put_pkt p k' s) /\ packet_ok k' /\ pkt_next k' = pkt_next k /\
    (sfp_parse (flags (pkt_id k)) bytes <> None -> pkt_length k' = zlen bytes - 8 /\
       mem_read (pkt_mem k') CSP_PACKET_PADDING_BYTES (zlen bytes - 8) = Some (take (length bytes - 8) bytes)).
Proof.
  intros Hk Hok Hb. pose proof Hok as [Hm Hl]. pose proof (mem_read_length _ _ _ _ Hb) as Hbl. unfold csp_sfp_header_remove, sfp_parse.
  erewrite bind_ret by (by apply get_pkt_at). unfold SFP_HEADER_SIZE. rewrite Hbl.
  destruct (flags (pkt_id k) &.& CSP_FFRAG); cbn [negb orb]; [|exists k; by rewrite put_pkt_same].
  destruct (Z.ltb_spec (pkt_length k) 8) as [Hs|Hs]; cbn [orb]; [exists k; by rewrite put_pkt_same|].
  unfold CSP_PACKET_PADDING_BYTES, CSP_BUFFER_SIZE in *.
  erewrite bind_ret by (by apply mod_pkt_at). set (k1 := set_pkt_length (u16 (pkt_length k - 8)) k).
  assert (Hk1 : pkt_at p (put_pkt p k1 s) = Some k1) by (by eapply pkt_at_put).
  assert (El : Z.to_nat (pkt_length k - 8) = (length bytes - 8)%nat) by lia.
  set (hd := drop (length bytes - 8) bytes). assert (Hhd : length hd = 8%nat) by (unfold hd; rewrite length_drop; lia).
  assert (Ro : mem_read (pkt_mem k) (8 + (pkt_length k - 8)) 4 = Some (take 4 hd)).
  { rewrite (mem_read_slice _ _ _ bytes _ 4 Hb) by lia. by rewrite El. }
  assert (Rt : mem_read (pkt_mem k) (8 + (pkt_length k - 8 + 4)) 4 = Some (drop 4 hd)).
  { rewrite (mem_read_slice _ _ _ bytes _ 4 Hb) by lia. f_equal. replace (Z.to_nat (pkt_length k - 8 + 4)) with (length bytes - 8 + 4)%nat by lia.
    rewrite <- drop_drop. fold hd. apply take_ge. rewrite length_drop. simpl. lia. }
  erewrite bind_ret by (eapply read_mem_at; [exact Hk1|exact Ro]). cbv zeta. set (off := be32toh (le_val (take 4 hd))). set (tot := be32toh (le_val (drop 4 hd))).
  destruct (mem_write_ok (pkt_mem k) (8 + (pkt_length k - 8)) (le_bytes 4 off)) as [m1 W1]; [lia|rewrite length_le_bytes; lia|].
  pose proof (mem_write_length _ _ _ _ W1) as L1.
  erewrite bind_ret by (eapply write_mem_at; [exact Hk1|exact W1]). rewrite put_pkt_put.
  assert (Rt1 : mem_read m1 (8 + (pkt_length k - 8 + 4)) 4 = Some (drop 4 hd)).
  { erewrite mem_read_write_after by (first [exact W1|rewrite length_le_bytes; lia|lia]). exact Rt. }
  erewrite bind_ret by (eapply read_mem_at; [eapply pkt_at_put; exact Hk|exact Rt1]).
  destruct (mem_write_ok m1 (8 + (pkt_length k - 8 + 4)) (le_bytes 4 tot)) as [m2 W2]; [lia|rewrite length_le_bytes; lia|].
  pose proof (mem_write_length _ _ _ _ W2) as L2.
  erewrite bind_ret by (eapply write_mem_at; [eapply pkt_at_put; exact Hk|exact W2]). rewrite put_pkt_put.
  exists (set_pkt_mem m2 (set_pkt_mem m1 k1)). split; [|split; [|split]].
  - unfold sfp_header. fold hd. cbn [fst snd]. fold off tot. by destruct (tot <? off).
  - split; [simpl; unfold CSP_PACKET_PADDING_BYTES, CSP_BUFFER_SIZE; lia|]. simpl. rewrite u16_small by lia. unfold CSP_BUFFER_SIZE. lia.
  - done.
  - intros _. simpl. rewrite u16_small by lia. split; [lia|]. erewrite mem_read_write_before by (first [exact W2|lia]).
    erewrite mem_read_write_before by (first [exact W1|lia]). rewrite <- (Z.add_0_r 8) at 1. rewrite (mem_read_slice _ _ _ bytes 0 _ Hb) by lia.
    by rewrite drop_0, El.
Qed.

(** What becomes of the transfer; [None] is a write outside the allocated memory. *)
Definition sfp_step (malloc : Z -> option (list Z)) (f : Z) (bytes : list Z) (data : option (list Z)) (datasize data_offset : Z) : option sfp_next :=
  match sfp_parse f bytes with
  | None => Some (SfpError CSP_ERR_SFP)
  | Some (offset, totalsize) =>
      if negb (offset =? data_offset) then Some (SfpError CSP_ERR_SFP) else
      let datasize := match data with None => totalsize | Some _ => datasize end in
      match (match data with None => malloc datasize | Some d => Some d end) with
      | None => Some (SfpError CSP_ERR_NOMEM)
      | Some d =>
          let payload := take (length bytes - 8) bytes in
          let next := u32 (data_offset + zlen payload) in
          if (datasize <? next) || negb (datasize =? totalsize) then Some (SfpError CSP_ERR_SFP) else
          d' ← mem_write d data_offset payload;
          Some (if datasize <=? next then SfpDone d' datasize
                else if zlen payload =? 0 then SfpError CSP_ERR_SFP else SfpMore d' datasize next)
      end
  end.

Lemma recv_packet_run malloc p k s bytes data datasize off : pkt_at p s = Some k -> packet_ok k ->
  mem_read (pkt_mem k) CSP_PACKET_PADDING_BYTES (pkt_length k) = Some bytes ->
  exists k', packet_ok k' /\ pkt_next k' = pkt_next k /\
    sfp_recv_packet malloc p data datasize off s =
      match sfp_step malloc (flags (pkt_id k)) bytes data datasize off with
      | None => Undef
      | Some r => (csp_buffer_free (Some p) ;; mret r) (put_pkt p k' s)
      end.
Proof.
  intros Hk Hok Hb. destruct (header_remove_run p k s bytes Hk Hok Hb) as (k' & Hr & Hok' & Hnx & Hpay). exists k'. split; [done|]. split; [done|].
  unfold sfp_recv_packet, sfp_step. erewrite bind_ret by exact Hr. destruct (sfp_parse (flags (pkt_id k)) bytes) as [[offset total]|] eqn:Ep; [|done].
  destruct Hpay as [Hl Hm]; [done|]. destruct (negb (offset =? off)); [done|]. cbv zeta.
  destruct (match data with Some d => Some d | None => _ end) as [d|]; [|done].
  erewrite bind_ret by (eapply get_pkt_at, pkt_at_put; exact Hk). set (pay := take (length bytes - 8) bytes) in *.
  assert (Epl : zlen pay = pkt_length k').
  { pose proof (mem_read_length _ _ _ _ Hm) as Hpl. lia. }
  rewrite Epl. destruct ((_ <? _) || _); [done|]. rewrite <- Hl in Hm.
  erewrite bind_ret by (eapply read_mem_at; [eapply pkt_at_put; exact Hk|rewrite Z.add_0_r; exact Hm]).
  destruct (mem_write d off pay) as [d'|]; [|done]. erewrite bind_ret by reflexivity. cbn [mbind option_bind].
  destruct (_ <=? _); [done|]. by destruct (pkt_length k' =? 0).
Qed.

(** ** Safety *)

(** Memory as large as asked for, and below 4 GB by a buffer. *)
Definition malloc_ok (limit : Z) (malloc : Z -> option (list Z)) : Prop :=
  forall n m, malloc n = Some m -> zlen m = n /\ n <= limit.

(** The state of a transfer, and what it has received. *)
Definition sfp_data_ok (limit : Z) (data : option (list Z)) (datasize off : Z) : Prop :=
  match data with None => off = 0 | Some d => zlen d = datasize /\ 0 <= off < datasize /\ datasize <= limit end.
Definition sfp_got (data : option (list Z)) (off : Z) : list Z :=
  match data with None => [] | Some d => take (Z.to_nat off) d end.

(** The bytes a packet carries, without its header. *)
Definition sfp_payload (bytes : list Z) : list Z := take (length bytes - 8) bytes.

Lemma mem_write_got d off bs d' : mem_write d off bs = Some d' -> take (Z.to_nat (off + zlen bs)) d' = take (Z.to_nat off) d ++ bs.
Proof.
  unfold mem_write. case_if; intros E; simplify_eq. bsimpl. rewrite app_assoc.
  replace (Z.to_nat (off + zlen bs)) with (length (take (Z.to_nat off) d ++ bs)) by (rewrite length_app, length_take; lia). apply take_app_length.
Qed.

Lemma sfp_step_ok limit malloc f bytes data datasize off : malloc_ok limit malloc -> limit + CSP_BUFFER_SIZE < 2 ^ 32 ->
  zlen bytes <= CSP_BUFFER_SIZE -> sfp_data_ok limit data datasize off ->
  exists r, sfp_step malloc f bytes data datasize off = Some r /\
    match r with
    | SfpError e => e = CSP_ERR_SFP \/ e = CSP_ERR_NOMEM
    | SfpDone d n => d = sfp_got data off ++ sfp_payload bytes /\ zlen d = n
    | SfpMore d n off' => sfp_data_ok limit (Some d) n off' /\ off < off' /\ (data <> None -> n = datasize) /\
        sfp_got (Some d) off' = sfp_got data off ++ sfp_payload bytes
    end.
Proof.
  intros Hm Hlim Hb Hd. unfold sfp_step. destruct (sfp_parse f bytes) as [[offset total]|] eqn:Ep; [|exists (SfpError CSP_ERR_SFP); by split; [|left]].
  assert (Htot : 0 <= offset <= total).
  { unfold sfp_parse, sfp_header in Ep. destruct (_ || _) eqn:E; [done|]. injection Ep as <- <-. apply orb_false_iff in E as [_ E].
    apply Z.ltb_ge in E. split; [apply htobe32_range|exact E]. }
  destruct (Z.eqb_spec offset off) as [->|]; cbn [negb]; [|exists (SfpError CSP_ERR_SFP); by split; [|left]]. cbv zeta.
  set (n := match data with None => total | Some _ => datasize end).
  destruct (match data with Some d => Some d | None => malloc n end) as [d|] eqn:Ed; [|exists (SfpError CSP_ERR_NOMEM); by split; [|right]].
  assert (Hdn : zlen d = n /\ n <= limit /\ 0 <= off <= n).
  { destruct data as [d0|]; simpl in Hd; [injection Ed as ->; unfold n; lia|]. destruct (Hm _ _ Ed). unfold n in *. lia. }
  assert (Hg : take (Z.to_nat off) d = sfp_got data off).
  { destruct data as [d0|]; simpl in Hd |- *; [by injection Ed as ->|]. by rewrite Hd. }
  fold (sfp_payload bytes). set (pay := sfp_payload bytes). assert (Hpl : zlen pay <= CSP_BUFFER_SIZE) by (unfold pay, sfp_payload; rewrite length_take; lia).
  assert (E32 : u32 (off + zlen pay) = off + zlen pay) by (rewrite u32_small; lia). rewrite E32.
  destruct (Z.ltb_spec n (off + zlen pay)) as [|Hfit]; cbn [orb]; [exists (SfpError CSP_ERR_SFP); by split; [|left]|].
  destruct (negb (n =? total)); [exists (SfpError CSP_ERR_SFP); by split; [|left]|].
  destruct (mem_write_ok d off pay) as [d' Hw]; [lia..|]. rewrite Hw. cbn [mbind option_bind]. pose proof (mem_write_length _ _ _ _ Hw) as Hl.
  pose proof (mem_write_got _ _ _ _ Hw) as Hgot. rewrite Hg in Hgot.
  eexists. split; [reflexivity|]. destruct (Z.leb_spec n (off + zlen pay)).
  - split; [|lia]. rewrite <- Hgot. symmetry. apply take_ge. lia.
  - destruct (Z.eqb_spec (zlen pay) 0); [by left|]. simpl. split_and!; try lia; [by destruct data|done].
Qed.

(** A packet with flags and contents. *)
Definition sfp_packet (p : nat) (fr : Z * list Z) (s : node) : Prop :=
  exists k, pkt_at p s = Some k /\ packet_ok k /\ flags (pkt_id k) = fst fr /\
    mem_read (pkt_mem k) CSP_PACKET_PADDING_BYTES (pkt_length k) = Some (snd fr).

(** The turns of the loop of [csp_sfp_recv_fp], from packet [p] on: the contents of
    the packets it took, each but the first from [csp_read], and the node after the
    last of them. *)
Inductive sfp_took `{Platform} (malloc : Z -> option (list Z)) (c : nat) (timeout : Z) :
  nat -> option (list Z) -> Z -> Z -> node -> list (Z * list Z) -> node -> Prop :=
| took_last p data n off s fr r s' : sfp_packet p fr s -> sfp_recv_packet malloc p data n off s = Ret r s' ->
    sfp_took malloc c timeout p data n off s [fr] s'
| took_more p data n off s fr d m off' s1 p' s2 frs s' : sfp_packet p fr s ->
    sfp_recv_packet malloc p data n off s = Ret (SfpMore d m off') s1 -> csp_read (Some c) timeout s1 = Ret (Some p') s2 ->
    sfp_took malloc c timeout p' (Some d) m off' s2 frs s' -> sfp_took malloc c timeout p data n off s (fr :: frs) s'.

(** What a transfer that took the packets [frs] returns, having received [got]. *)
Definition sfp_result (got : list Z) (frs : list (Z * list Z)) (r : Z * option (list Z * Z)) : Prop :=
  match r with
  | (e, Some (d, n)) => e = CSP_ERR_NONE /\ d = got ++ concat (sfp_payload ∘ snd <$> frs) /\ n = i32 (zlen d)
  | (e, None) => e <> CSP_ERR_NONE
  end.

(** A [csp_read] that waits for ever has no timeout, of its own or of its RDP connection. *)
Definition read_blocks `{Platform} (c : nat) (timeout : Z) (s : node) : Prop :=
  csp_read (Some c) timeout s = Wait /\ exists x, arr_conn s !! c = Some x /\ read_timeout timeout x = CSP_MAX_TIMEOUT.

Section SafeSfp.
Context `{OwnLaws}.
Context (malloc : Z -> option (list Z)) (limit : Z).
Context (Hmal : malloc_ok limit malloc) (Hlim : 0 <= limit) (Hlim2 : limit + CSP_BUFFER_SIZE < 2 ^ 32).

Lemma read_or_blocks c timeout h s : WF h s -> (c < CSP_CONN_MAX)%nat ->
  read_blocks c timeout s \/ exists o s', csp_read (Some c) timeout s = Ret o s' /\ WF (opt_held o h) s'.
Proof.
  intros Hs Hc. pose proof (WF_read (w := @wpw) c timeout h s Hs Hc (fun _ _ => I)) as [E|Hw]; [|right; by apply wp_run in Hw].
  destruct Hs as (T & o & HI). pose proof Hc as Hl. rewrite <- (inv_conns _ _ _ HI) in Hl. destruct (lookup_lt_is_Some_2 _ _ Hl) as [x Hx].
  destruct (decide (read_timeout timeout x = CSP_MAX_TIMEOUT)) as [Hm|Hm]; [left; split; [done|by exists x]|].
  assert (W : wp (csp_read (Some c) timeout) (fun r s' => WF (opt_held r h) s') s).
  { apply (WF_read (w := @wp)); [by exists T, o|done|]. intros y Hy. by simplify_eq. }
  unfold wp in W. by rewrite E in W.
Qed.

Lemma recv_packet_safe p data datasize off h s : WF (p :: h) s -> sfp_data_ok limit data datasize off ->
  exists fr r s', sfp_packet p fr s /\ sfp_recv_packet malloc p data datasize off s = Ret r s' /\ WF h s' /\
    match r with
    | SfpError e => e = CSP_ERR_SFP \/ e = CSP_ERR_NOMEM
    | SfpDone d n => d = sfp_got data off ++ sfp_payload (snd fr) /\ zlen d = n
    | SfpMore d n off' => sfp_data_ok limit (Some d) n off' /\ off < off' /\ (data <> None -> n = datasize) /\
        sfp_got (Some d) off' = sfp_got data off ++ sfp_payload (snd fr)
    end.
Proof.
  intros (T & o & HI) Hd. destruct (live_pkt s p) as (k & Hk & Hok); [eapply Inv_live_h; [exact HI|left]|]. pose proof Hok as [Hm Hl].
  destruct (mem_read_ok (pkt_mem k) CSP_PACKET_PADDING_BYTES (pkt_length k)) as [bytes Hb];
    [unfold CSP_PACKET_PADDING_BYTES, CSP_BUFFER_SIZE in *; lia..|]. pose proof (mem_read_length _ _ _ _ Hb) as Hbl.
  destruct (recv_packet_run malloc p k s bytes data datasize off Hk Hok Hb) as (k' & Hok' & _ & E).
  destruct (sfp_step_ok limit malloc (flags (pkt_id k)) bytes data datasize off) as (r & Es & Hr); try done; [lia|]. rewrite Es in E.
  assert (W : wp (csp_buffer_free (Some p) ;; mret r) (fun a s' => a = r /\ WF h s') (put_pkt p k' s)).
  { apply wp_bind. wp_use (apply (wp_free T (h ++ o)), Inv_put_pkt; [done|left|done]). intros [] s1 H1. apply wp_ret. split; [done|by exists T, o]. }
  apply wp_run in W as (a & s' & Hrun & -> & Hs'). exists (flags (pkt_id k), bytes), r, s'. rewrite E. split; [by exists k|done].
Qed.

Lemma recv_loop_safe c timeout : (c < CSP_CONN_MAX)%nat -> forall fuel p data datasize off h s, WF (p :: h) s ->
  sfp_data_ok limit data datasize off ->
  (Z.to_nat (match data with Some _ => datasize - off | None => limit + 1 end) < fuel)%nat ->
  exists frs s1, sfp_took malloc c timeout p data datasize off s frs s1 /\
    ((exists r s', sfp_recv_loop malloc fuel c timeout p data datasize off s = Ret r s' /\ WF h s' /\ sfp_result (sfp_got data off) frs r) \/
     (sfp_recv_loop malloc fuel c timeout p data datasize off s = Wait /\ read_blocks c timeout s1)).
Proof.
  intros Hc. induction fuel as [|fuel IH]; intros p data datasize off h s Hs Hd Hf; [lia|]. cbn [sfp_recv_loop].
  destruct (recv_packet_safe p data datasize off h s Hs Hd) as (fr & r & s1 & Hp & Hr & H1 & Hpost). rewrite (bind_ret _ _ _ _ _ Hr).
  destruct r as [e|d n|d n off'].
  - exists [fr], s1. split; [by eapply took_last|]. left. exists (e, None), s1. split; [done|]. split; [done|]. by destruct Hpost as [->| ->].
  - exists [fr], s1. split; [by eapply took_last|]. left. destruct Hpost as [-> Hn]. exists (CSP_ERR_NONE, Some (sfp_got data off ++ sfp_payload (snd fr), i32 n)), s1.
    split; [done|]. split; [done|]. split; [done|]. split; [simpl; by rewrite app_nil_r|by rewrite Hn].
  - destruct Hpost as ((Hdl & Ho & Hn) & Hlt & Hdn & Hgot). destruct (read_or_blocks c timeout h s1 H1 Hc) as [Hb|(o & s2 & E2 & H2)].
    { exists [fr], s1. split; [by eapply took_last|]. right. split; [|done]. unfold mbind, M_bind. by rewrite (proj1 Hb). }
    rewrite (bind_ret _ _ _ _ _ E2). destruct o as [p'|].
    + destruct (IH p' (Some d) n off' h s2) as (frs & s3 & Ht & Hres); [done|done|destruct data; [rewrite Hdn in * by done|simpl in Hd]; lia|].
      exists (fr :: frs), s3. split; [by eapply took_more|]. destruct Hres as [(r & s' & Hrun & Hs' & Hr')|[Hw Hbl]]; [left|by right].
      exists r, s'. split; [done|]. split; [done|]. destruct r as [e [[d' m]|]]; [|done]. destruct Hr' as (-> & -> & ->).
      split; [done|]. by rewrite Hgot, fmap_cons, <- app_assoc.
    + exists [fr], s1. split; [by eapply took_last|]. left. by exists (CSP_ERR_TIMEDOUT, None), s2.
Qed.
End SafeSfp.

(** ** Reading from the queue of a connection *)

(** The packets that wait in the queue of connection [c], with flags and payload;
    the connection does not use RDP. *)
Definition sfp_waiting (c : nat) (ps : list nat) (frs : list (Z * list Z)) (s : node) : Prop :=
  NoDup ps /\ Forall2 (fun p fr => sfp_packet p fr s) ps frs /\
  exists x, arr_conn s !! c = Some x /\ conn_is_open x = true /\ flags (idin x) &.& CSP_FRDP = false /\ q_items (conn_rxq x) = map Some ps.

(** The transfer as a function of the packets. *)
Fixpoint sfp_run (malloc : Z -> option (list Z)) (frs : list (Z * list Z)) (data : option (list Z)) (datasize off : Z) : option (Z * option (list Z * Z)) :=
  match frs with
  | [] => Some (CSP_ERR_TIMEDOUT, None)
  | (f, bytes) :: frs' =>
      r ← sfp_step malloc f bytes data datasize off;
      match r with
      | SfpError e => Some (e, None)
      | SfpDone d n => Some (CSP_ERR_NONE, Some (d, i32 n))
      | SfpMore d n off' => sfp_run malloc frs' (Some d) n off'
      end
  end.

Lemma waiting_same c ps frs s s' : sfp_waiting c ps frs s -> arr_conn s' = arr_conn s -> (forall q, q ∈ ps -> pkt_at q s' = pkt_at q s) ->
  sfp_waiting c ps frs s'.
Proof.
  intros (Hn & Hf & x & Hx & Hr) Ha Hp. split; [done|]. split; [|exists x; by rewrite Ha].
  clear -Hf Hp. induction Hf as [|p fr ps frs (k & Hk & Hrest) Hf IH]; constructor.
  - exists k. split; [|done]. rewrite Hp; [done|left].
  - apply IH. intros q Hq. apply Hp. by right.
Qed.

Section Queue.
Context `{Platform}.

(** A packet is there: it is read without waiting. *)
Lemma read_waiting c timeout p ps fr frs s : sfp_waiting c (p :: ps) (fr :: frs) s ->
  exists s', csp_read (Some c) timeout s = Ret (Some p) s' /\ sfp_packet p fr s' /\ sfp_waiting c ps frs s' /\ (p ∉ ps).
Proof.
  intros (Hn & Hf & x & Hx & Ho & Hr & Hq). inversion Hf as [|? ? ? ? Hp Hf']; subst. apply list.NoDup_cons in Hn as [Hnp Hn]. cbn [map] in Hq.
  set (s1 := set_arr_conn (<[c := set_conn_rxq (Queue (q_cap (conn_rxq x)) (map Some ps)) x]> (arr_conn s)) s).
  assert (Eg : get_conn c s = Ret x s) by (unfold get_conn; by rewrite Hx).
  exists s1. split_and!; [|exact Hp| |done].
  - unfold csp_read. erewrite bind_ret by exact Eg. rewrite Ho. cbn [negb]. cbv zeta. rewrite bool_decide_false by (by rewrite Hq). cbn [andb when].
    erewrite bind_ret by reflexivity. erewrite bind_ret by exact Eg. unfold q_dequeue. rewrite Hq.
    erewrite bind_ret by (unfold mod_conn; by rewrite Hx). rewrite Hr. cbn [andb when]. erewrite bind_ret by reflexivity. done.
  - split; [done|]. split; [exact Hf'|]. exists (set_conn_rxq (Queue (q_cap (conn_rxq x)) (map Some ps)) x).
    split_and!; try done. simpl. by rewrite list_lookup_insert_eq by (by eapply lookup_lt_Some).
Qed.

(** None is there and there is no time to wait. *)
Lemma read_empty c s : sfp_waiting c [] [] s -> csp_read (Some c) 0 s = Ret None s.
Proof.
  intros (_ & _ & x & Hx & Ho & Hr & Hq). assert (Eg : get_conn c s = Ret x s) by (unfold get_conn; by rewrite Hx).
  unfold csp_read. erewrite bind_ret by exact Eg. rewrite Ho. cbn [negb Z.eqb]. cbv zeta. cbn [andb]. rewrite andb_false_r. cbn [when].
  erewrite bind_ret by reflexivity. erewrite bind_ret by exact Eg. unfold q_dequeue. by rewrite Hq.
Qed.

Context (malloc : Z -> option (list Z)).

Lemma recv_packet_waiting c p ps fr frs data n off s r : sfp_packet p fr s -> sfp_waiting c ps frs s -> p ∉ ps ->
  sfp_step malloc (fst fr) (snd fr) data n off = Some r ->
  exists s', sfp_recv_packet malloc p data n off s = Ret r s' /\ sfp_waiting c ps frs s'.
Proof.
  intros (k & Hk & Hok & Hf & Hb) Hw Hp Es. destruct (recv_packet_run malloc p k s (snd fr) data n off Hk Hok Hb) as (k' & _ & _ & E).
  rewrite Hf, Es in E. set (s1 := put_pkt p k' s) in *.
  assert (Hb1 : exists b, pool s1 !! p = Some b).
  { pose proof (pkt_at_put p k' k s Hk) as Hk1. unfold pkt_at in Hk1. fold s1 in Hk1. destruct (pool s1 !! p) as [b|]; [by exists b|done]. }
  destruct Hb1 as [b Hb1]. destruct (free_keeps_wire p b s1 Hb1) as (s2 & Hfree & _). exists s2. split; [rewrite E; by erewrite bind_ret by exact Hfree|].
  eapply waiting_same; [exact Hw| |].
  - assert (K : keeps arr_conn (csp_buffer_free (Some p))) by (unfold csp_buffer_free, csp_buffer_free_pkt; keeps_tac).
    specialize (K s1). rewrite Hfree in K. exact K.
  - intros q Hq. pose proof (keeps_free_pkts p q s1) as K. rewrite Hfree in K. rewrite K.
    unfold pkt_at, s1, put_pkt. simpl. rewrite list_lookup_alter_ne; [done|]. by intros ->.
Qed.

Lemma recv_loop_run c timeout : forall frs ps fuel fr p data n off s r, sfp_packet p fr s -> sfp_waiting c ps frs s -> p ∉ ps ->
  (length frs < fuel)%nat -> sfp_run malloc (fr :: frs) data n off = Some r -> timeout = 0 \/ fst r <> CSP_ERR_TIMEDOUT ->
  exists s', sfp_recv_loop malloc fuel c timeout p data n off s = Ret r s'.
Proof.
  induction frs as [|fr' frs IH]; intros ps fuel [f bytes] p data n off s r Hp Hw Hn Hf Hr Ht; (destruct fuel as [|fuel]; [simpl in Hf; lia|]);
    cbn [sfp_run] in Hr; destruct (sfp_step malloc f bytes data n off) as [r1|] eqn:Es; try done; cbn [mbind option_bind] in Hr;
    destruct (recv_packet_waiting c p ps (f, bytes) _ data n off s r1 Hp Hw Hn Es) as (s1 & E1 & Hw1); cbn [sfp_recv_loop];
    rewrite (bind_ret _ _ _ _ _ E1); (destruct r1 as [e|d m|d m off']; [injection Hr as <-; by eexists..|]).
  - injection Hr as <-. destruct Ht as [->|Ht]; [|done]. assert (ps = []) as -> by (destruct Hw as (_ & Hf2 & _); by inversion Hf2).
    erewrite bind_ret by (by apply read_empty). by eexists.
  - destruct ps as [|p' ps]; [destruct Hw as (_ & Hf2 & _); by inversion Hf2|].
    destruct (read_waiting c timeout p' ps fr' frs s1 Hw1) as (s2 & E2 & Hp2 & Hw2 & Hn2). erewrite bind_ret by exact E2.
    by apply (IH ps fuel fr'); [..|simpl in Hf; lia| |].
Qed.
End Queue.

(** ** Fragments *)

(** The payloads of the packets of a transfer of [total] bytes from [count] on. *)
Fixpoint sfp_fragments (fuel mtu : nat) (total count : Z) (data : list Z) : list (list Z) :=
  match fuel, data with
  | S fuel', _ :: _ => (take mtu data ++ be_bytes 4 count ++ be_bytes 4 total)
      :: sfp_fragments fuel' mtu total (count + zlen (take mtu data)) (drop mtu data)
  | _, _ => []
  end.

Lemma sfp_fragments_fuel mtu total : (0 < mtu)%nat -> forall n n' count data, (length data <= n)%nat -> (length data <= n')%nat ->
  sfp_fragments n mtu total count data = sfp_fragments n' mtu total count data.
Proof.
  intros Hm. induction n as [|n IH]; intros n' count [|b data] Hn Hn'; try (simpl in *; lia); [by destruct n'..|].
  destruct n' as [|n']; [simpl in Hn'; lia|]. cbn [sfp_fragments]. f_equal. apply IH; rewrite length_drop; simpl in *; lia.
Qed.

Lemma sfp_header_frag pay count total : 0 <= count < 2 ^ 32 -> 0 <= total < 2 ^ 32 ->
  sfp_header (pay ++ be_bytes 4 count ++ be_bytes 4 total) = (count, total).
Proof.
  intros Hc Ht. unfold sfp_header. set (hd := be_bytes 4 count ++ be_bytes 4 total).
  assert (Hh : length hd = 8%nat) by done. rewrite length_app, Hh. replace (length pay + 8 - 8)%nat with (length pay + 0)%nat by lia.
  rewrite drop_app_add, drop_0. assert (B4 : forall v, 0 <= v < 2 ^ 32 -> be32toh (le_val (be_bytes 4 v)) = v).
  { intros v Hv. unfold be32toh, htobe32. change 4%nat with (length (be_bytes 4 v)) at 1. rewrite be_val_swap by apply be_bytes_ok.
    rewrite be_val_bytes. by apply Z.mod_small. }
  unfold hd. f_equal; [rewrite (take_app_le _ _ 4), take_ge by (simpl; lia)|rewrite (drop_app_ge _ _ 4), drop_0 by (simpl; lia)]; by apply B4.
Qed.

Lemma sfp_run_fragments malloc f mtu : f &.& CSP_FFRAG = true -> (0 < mtu)%nat -> forall fuel got data mem total, total = zlen got + zlen data ->
  total + CSP_BUFFER_SIZE < 2 ^ 32 -> Z.of_nat mtu + 8 <= CSP_BUFFER_SIZE -> (length data <= fuel)%nat -> data <> [] ->
  zlen mem = total -> take (length got) mem = got -> (got = [] -> malloc total = Some mem) ->
  sfp_run malloc (map (pair f) (sfp_fragments fuel mtu total (zlen got) data)) (if (length got =? 0)%nat then None else Some mem) total (zlen got) =
    Some (CSP_ERR_NONE, Some (got ++ data, i32 total)).
Proof.
  intros Hf Hm. induction fuel as [|fuel IH]; intros got data mem total Ht Hlim Hmtu Hfu Hd Hmem Hdone Hmal; [destruct data; simpl in Hfu; [done|lia]|].
  destruct data as [|b data'] eqn:Ed; [done|]. rewrite <- Ed in *. assert (Efr : sfp_fragments (S fuel) mtu total (zlen got) data =
    (take mtu data ++ be_bytes 4 (zlen got) ++ be_bytes 4 total) :: sfp_fragments fuel mtu total (zlen got + zlen (take mtu data)) (drop mtu data)) by (by rewrite Ed).
  rewrite Efr. cbn [map sfp_run]. set (pay := take mtu data). assert (Hpl : 0 < zlen pay <= zlen data) by (unfold pay; rewrite length_take, Ed; simpl; lia).
  assert (Hpm : zlen pay <= Z.of_nat mtu) by (unfold pay; rewrite length_take; lia). unfold CSP_BUFFER_SIZE in *.
  unfold sfp_step. assert (Ep : sfp_parse f (pay ++ be_bytes 4 (zlen got) ++ be_bytes 4 total) = Some (zlen got, total)).
  { unfold sfp_parse. rewrite Hf, sfp_header_frag by lia. cbn [negb orb fst snd]. unfold SFP_HEADER_SIZE.
    rewrite !(proj2 (Z.ltb_ge _ _)) by (rewrite ?length_app; change (length (be_bytes 4 _)) with 4%nat; lia). done. }
  rewrite Ep, Z.eqb_refl. cbn [negb]. cbv zeta.
  assert (En : match (if (length got =? 0)%nat then None else Some mem) with None => total | Some _ => total end = total) by (by destruct (_ =? 0)%nat).
  rewrite En. assert (Emem : match (if (length got =? 0)%nat then None else Some mem) with Some d => Some d | None => malloc total end = Some mem).
  { destruct (Nat.eqb_spec (length got) 0) as [E0|]; [|done]. apply Hmal. by destruct got. }
  rewrite Emem. assert (Etk : take (length (pay ++ be_bytes 4 (zlen got) ++ be_bytes 4 total) - 8) (pay ++ be_bytes 4 (zlen got) ++ be_bytes 4 total) = pay).
  { rewrite !length_app. change (length (be_bytes 4 _)) with 4%nat. rewrite take_app_le, take_ge by lia. done. }
  rewrite Etk. rewrite u32_small by lia. rewrite (proj2 (Z.ltb_ge _ _)), Z.eqb_refl by lia. cbn [negb orb].
  assert (Ew : mem_write mem (zlen got) pay = Some (got ++ pay ++ drop (length got + length pay) mem)).
  { unfold mem_write. rewrite !(proj2 (Z.leb_le _ _)) by lia. cbn [andb]. by rewrite Nat2Z.id, Hdone. }
  rewrite Ew. cbn [mbind option_bind]. rewrite (proj2 (Z.eqb_neq (zlen pay) 0)) by lia.
  assert (Hsplit : data = pay ++ drop mtu data) by (unfold pay; by rewrite take_drop).
  destruct (Z.leb_spec total (zlen got + zlen pay)) as [Hall|Hmore].
  - assert (Er : drop mtu data = []) by (apply (f_equal length) in Hsplit; rewrite length_app in Hsplit; destruct (drop mtu data); [done|simpl in Hsplit; lia]).
    rewrite Er, app_nil_r in Hsplit. rewrite (drop_ge mem), app_nil_r by lia. by rewrite <- Hsplit.
  - assert (Hne : drop mtu data <> []) by (intros E; rewrite E, app_nil_r in Hsplit; rewrite Hsplit in Ht; lia).
    specialize (IH (got ++ pay) (drop mtu data) (got ++ pay ++ drop (length got + length pay) mem) total).
    rewrite length_app, Nat2Z.inj_add in IH. assert (Hnz : (length got + length pay =? 0)%nat = false) by (apply Nat.eqb_neq; lia). rewrite Hnz in IH.
    rewrite IH; [by rewrite <- app_assoc, <- Hsplit| | | | | | | |].
    + apply (f_equal length) in Hsplit. rewrite length_app in Hsplit. lia.
    + lia.
    + lia.
    + rewrite length_drop. lia.
    + done.
    + rewrite !length_app, length_drop. lia.
    + rewrite app_assoc, take_app_le, take_ge by (rewrite length_app; lia). done.
    + intros E. apply (f_equal length) in E. rewrite length_app in E. simpl in E. lia.
Qed.

(** ** Sending as a list of packets *)

Lemma mod_pkt_inv p f s s' : mod_pkt p f s = Ret tt s' -> exists k, pkt_at p s = Some k /\ s' = put_pkt p (f k) s.
Proof.
  intros E. destruct (pkt_at p s) as [k|] eqn:Hk; [exists k; rewrite (mod_pkt_at _ _ _ _ Hk) in E; by injection E|].
  exfalso. unfold pkt_at in Hk. unfold mod_pkt, mod_skbf in E. by destruct (pool s !! p).
Qed.

Lemma buffer_get_fresh p s s1 : csp_buffer_get s = Ret (Some p) s1 -> pkt_at p s1 = Some (packet_zero p).
Proof.
  unfold csp_buffer_get, csp_buffer_get_actual. intros (q & s0 & _ & E)%bind_Ret. destruct (_ <? 2); [done|].
  destruct (q_dequeue q) as [[b q']|]; [|by apply bind_Ret in E as (? & ? & _ & E)].
  apply bind_Ret in E as ([] & s2 & _ & E). apply bind_Ret in E as (x & s3 & _ & E).
  destruct (negb _); [by apply bind_Ret in E as (? & ? & _ & E)|].
  apply bind_Ret in E as (? & s4 & _ & E). apply bind_Ret in E as ([] & s5 & Ei & E). injection E as <- <-.
  apply mod_pkt_inv in Ei as (k & Hk & ->). by eapply pkt_at_put.
Qed.

Lemma bind_ext {A B} (m : M A) (f g : A -> M B) s : (forall a s', m s = Ret a s' -> f a s' = g a s') -> mbind f m s = mbind g m s.
Proof. unfold mbind, M_bind. destruct (m s) as [a s'| | |]; intros E; [by apply E|done..]. Qed.

Section SendSpec.
Context `{Platform}.
Context (rfuel c : nat).

Definition set_frag (x : csp_conn) : csp_conn := set_idout (set_flags (Z.lor (flags (idout x)) CSP_FFRAG) (idout x)) x.

(** One packet per payload goes to [csp_send], as long as the connection is
    active and buffers are free. *)
Fixpoint send_payloads (frs : list (list Z)) : M Z :=
  match frs with
  | [] => mret CSP_ERR_NONE
  | bytes :: frs' =>
      active ← csp_conn_is_active c;
      if negb active then mret CSP_ERR_NONE else
      packet ← csp_buffer_get;
      match packet with
      | None => mret CSP_ERR_NOMEM
      | Some p =>
          write_mem p 0 bytes ;;
          mod_pkt p (set_pkt_length (zlen bytes)) ;;
          mod_conn c set_frag ;;
          csp_send rfuel (Some c) (Some p) ;;
          send_payloads frs'
      end
  end.

(** The packet of one turn is filled in pieces. *)
Lemma fill_run {A} p (k : M A) pay count total s : pkt_at p s = Some (packet_zero p) -> zlen pay + 8 <= CSP_BUFFER_SIZE ->
  (write_mem p 0 pay ;;
   mod_pkt p (set_pkt_length (u16 (zlen pay))) ;;
   mod_conn c set_frag ;;
   sfp_header ← csp_sfp_header_add p;
   write_mem p (sfp_header + 4) (le_bytes 4 (htobe32 total)) ;;
   write_mem p sfp_header (le_bytes 4 (htobe32 count)) ;;
   k) s =
  (write_mem p 0 (pay ++ be_bytes 4 count ++ be_bytes 4 total) ;;
   mod_pkt p (set_pkt_length (zlen (pay ++ be_bytes 4 count ++ be_bytes 4 total))) ;;
   mod_conn c set_frag ;;
   k) s.
Proof.
  intros Hk Hl. unfold htobe32. rewrite !le_bytes_swap. set (cb := be_bytes 4 count). set (tb := be_bytes 4 total).
  assert (Hcb : zlen cb = 4) by done. assert (Htb : zlen tb = 4) by done. clearbody cb tb. destruct (packet_zero_ok p) as [Hm _].
  set (m := pkt_mem (packet_zero p)) in *. unfold CSP_PACKET_PADDING_BYTES, CSP_BUFFER_SIZE in *.
  destruct (mem_write_ok m (8 + 0) pay) as [m1 W1]; [lia..|]. pose proof (mem_write_length _ _ _ _ W1) as L1.
  destruct (mem_write_ok m1 (8 + (zlen pay + 4)) tb) as [m2 W2]; [lia..|]. pose proof (mem_write_length _ _ _ _ W2) as L2.
  destruct (mem_write_ok m2 (8 + zlen pay) cb) as [m3 W3]; [lia..|].
  assert (W : mem_write m (8 + 0) (pay ++ cb ++ tb) = Some m3).
  { destruct (mem_write_swap _ _ _ _ _ _ _ W2 W3) as (m2' & W2' & W3'); [lia..|].
    eapply mem_write_app; [exact W1|]. replace (8 + 0 + zlen pay) with (8 + zlen pay) by lia. eapply mem_write_app; [exact W2'|].
    by replace (8 + zlen pay + zlen cb) with (8 + (zlen pay + 4)) by lia. }
  erewrite bind_ret by (eapply write_mem_at; [exact Hk|exact W1]).
  erewrite (bind_ret (write_mem p 0 (pay ++ cb ++ tb))) by (eapply write_mem_at; [exact Hk|exact W]).
  erewrite bind_ret by (eapply mod_pkt_at, pkt_at_put; exact Hk). rewrite put_pkt_put.
  erewrite (bind_ret (mod_pkt p (set_pkt_length (zlen (pay ++ cb ++ tb))))) by (eapply mod_pkt_at, pkt_at_put; exact Hk). rewrite put_pkt_put.
  rewrite u16_small by lia. set (kB := set_pkt_length (zlen pay) _). set (kF := set_pkt_length (zlen (pay ++ cb ++ tb)) _).
  destruct (arr_conn s !! c) as [x|] eqn:Ex.
  2:{ assert (U : forall k, mod_conn c set_frag (put_pkt p k s) = Undef) by (intros k'; unfold mod_conn; change (arr_conn (put_pkt p k' s)) with (arr_conn s); by rewrite Ex).
      unfold mbind at 1, M_bind at 1. rewrite U. symmetry. unfold mbind, M_bind. by rewrite U. }
  set (A' := <[c := set_frag x]> (arr_conn s)).
  assert (R : forall k, mod_conn c set_frag (put_pkt p k s) = Ret tt (set_arr_conn A' (put_pkt p k s)))
    by (intros k'; unfold mod_conn; change (arr_conn (put_pkt p k' s)) with (arr_conn s); by rewrite Ex).
  erewrite bind_ret by apply R. rewrite (bind_ret (mod_conn c set_frag) _ (put_pkt p kF s) tt _ (R kF)).
  change (set_arr_conn A' (put_pkt p kB s)) with (put_pkt p kB (set_arr_conn A' s)).
  change (set_arr_conn A' (put_pkt p kF s)) with (put_pkt p kF (set_arr_conn A' s)). set (s1 := set_arr_conn A' s).
  assert (Hk1 : pkt_at p s1 = Some (packet_zero p)) by exact Hk.
  unfold csp_sfp_header_add. erewrite bind_ret; [|erewrite bind_ret by (eapply get_pkt_at, pkt_at_put; exact Hk1);
    erewrite bind_ret by (eapply mod_pkt_at, pkt_at_put; exact Hk1); rewrite put_pkt_put; reflexivity].
  unfold SFP_HEADER_SIZE. change (pkt_length kB) with (zlen pay). rewrite u16_small by lia.
  erewrite bind_ret by (eapply write_mem_at; [eapply pkt_at_put; exact Hk1|exact W2]). rewrite put_pkt_put.
  erewrite bind_ret by (eapply write_mem_at; [eapply pkt_at_put; exact Hk1|exact W3]). rewrite put_pkt_put.
  f_equal. f_equal. unfold kB, kF. rewrite !length_app. replace (Z.of_nat (length pay + (length cb + length tb))) with (zlen pay + 8) by lia. reflexivity.
Qed.

(** The loop of [csp_sfp_send] sends the fragments. *)
Lemma sfp_send_run data mtu : 0 < mtu -> mtu + 8 <= CSP_BUFFER_SIZE -> zlen data < 2 ^ 32 -> forall fuel count s, 0 <= count <= zlen data ->
  (Z.to_nat (zlen data - count) < fuel)%nat ->
  sfp_send_loop fuel rfuel c (mem_read data) (zlen data) mtu count s =
    send_payloads (sfp_fragments (Z.to_nat (zlen data - count)) (Z.to_nat mtu) (zlen data) count (drop (Z.to_nat count) data)) s.
Proof.
  intros Hm Hb Hl. induction fuel as [|fuel IH]; intros count s Hc Hf; [lia|]. cbn [sfp_send_loop].
  assert (Hdl : zlen (drop (Z.to_nat count) data) = zlen data - count) by (rewrite length_drop; lia).
  destruct (Z.ltb_spec count (zlen data)) as [Hlt|Hge].
  2:{ replace (Z.to_nat (zlen data - count)) with O by lia. done. }
  destruct (Z.to_nat (zlen data - count)) as [|n] eqn:En; [lia|]. set (rest' := drop (Z.to_nat count) data) in *.
  assert (Efr : sfp_fragments (S n) (Z.to_nat mtu) (zlen data) count rest' =
    (take (Z.to_nat mtu) rest' ++ be_bytes 4 count ++ be_bytes 4 (zlen data)) ::
      sfp_fragments n (Z.to_nat mtu) (zlen data) (count + zlen (take (Z.to_nat mtu) rest')) (drop (Z.to_nat mtu) rest')).
  { destruct rest'; [simpl in Hdl; lia|done]. }
  rewrite Efr. cbn [send_payloads]. set (pay := take (Z.to_nat mtu) rest').
  apply bind_ext. intros [] s0 _; cbn [negb]; [|done]. apply bind_ext. intros [p|] s1 Eg; [|done]. apply buffer_get_fresh in Eg. cbv zeta.
  rewrite (u32_small (zlen data - count)) by lia. set (n' := if mtu <? zlen data - count then mtu else zlen data - count).
  assert (Hn' : zlen pay = n').
  { unfold pay, n'. rewrite length_take. destruct (Z.ltb_spec mtu (zlen data - count)); lia. }
  assert (Hpm : 0 < zlen pay <= mtu) by (unfold pay; rewrite length_take; lia).
  assert (Hpr : zlen pay <= zlen data - count) by (unfold pay; rewrite length_take; lia).
  assert (Hrd : mem_read data count n' = Some pay).
  { assert (Hle : 0 <= n' <= zlen data - count) by (unfold n'; destruct (Z.ltb_spec mtu (zlen data - count)); lia). unfold mem_read. rewrite !(proj2 (Z.leb_le _ _)) by lia. cbv [andb]. fold rest'. apply (f_equal Some). unfold pay, n'.
    destruct (Z.ltb_spec mtu (zlen data - count)) as [|Hall]; [done|]. by rewrite !take_ge by lia. }
  erewrite bind_ret by (by rewrite Hrd). rewrite <- Hn'. fold set_frag. rewrite fill_run by (done || lia).
  apply bind_ext. intros [] s2 _. apply bind_ext. intros [] s3 _. apply bind_ext. intros [] s4 _. apply bind_ext. intros [] s5 _.
  rewrite (u32_small (count + zlen pay)) by lia. rewrite IH by lia. f_equal.
  replace (drop (Z.to_nat (count + zlen pay)) data) with (drop (Z.to_nat mtu) rest').
  - apply sfp_fragments_fuel; [lia|rewrite !length_drop; lia|]. rewrite !length_drop. lia.
  - unfold rest'. rewrite drop_drop. destruct (Z.ltb_spec mtu (zlen data - count)); [f_equal; lia|]. rewrite !drop_ge by lia. done.
Qed.
End SendSpec.

(** ** Properties *)


(** C10. SFP round trip: for data of at least one byte, a buffer below 4 GB,
    [csp_sfp_send] is exactly the sending, packet by packet, of the fragments of
    the data; a receiver on whose connection (without RDP) these fragments wait in
    order, and whose C library has the memory, gets the data back from
    [csp_sfp_recv], with its size as an [int] (negative from 2 GB on). *)
Theorem sfp_roundtrip `{Platform} malloc mem data mtu :
  0 < mtu -> mtu + SFP_HEADER_SIZE <= CSP_BUFFER_SIZE -> data <> [] -> zlen data + CSP_BUFFER_SIZE < 2 ^ 32 ->
  malloc (zlen data) = Some mem -> zlen mem = zlen data ->
  let frs := sfp_fragments (length data) (Z.to_nat mtu) (zlen data) 0 data in
  (forall rfuel c s, csp_sfp_send rfuel c data (zlen data) mtu s = send_payloads rfuel c frs s) /\
  (forall fuel c timeout f ps s, f &.& CSP_FFRAG = true -> sfp_waiting c ps (map (pair f) frs) s -> (length frs < fuel)%nat ->
    exists s', csp_sfp_recv malloc fuel c timeout s = Ret (CSP_ERR_NONE, Some (data, i32 (zlen data))) s').
Proof.
  intros Hm Hb Hd Hl Hmal Hmem frs. unfold SFP_HEADER_SIZE in *. split.
  - intros rfuel c s. unfold csp_sfp_send, csp_sfp_send_own_memcpy, SFP_HEADER_SIZE. rewrite (proj2 (Z.eqb_neq _ _)), (proj2 (Z.ltb_ge _ _)) by lia. cbn [orb].
    rewrite sfp_send_run by (done || lia). unfold frs. rewrite Z.sub_0_r, drop_0, Nat2Z.id. done.
  - intros fuel c timeout f ps s Hf Hw Hfu.
    pose proof (sfp_run_fragments malloc f (Z.to_nat mtu) Hf ltac:(lia) (length data) [] data mem (zlen data)) as Hrun.
    cbn [length app Nat.eqb] in Hrun. change (Z.of_nat 0) with 0 in Hrun. fold frs in Hrun. specialize (Hrun ltac:(lia) Hl ltac:(lia) ltac:(lia) Hd Hmem eq_refl (fun _ => Hmal)).
    clearbody frs. unfold csp_sfp_recv, csp_sfp_recv_fp. destruct frs as [|fr frs']; [done|].
    destruct ps as [|p ps]; [destruct Hw as (_ & Hf2 & _); by inversion Hf2|]. cbn [map] in Hw, Hrun.
    destruct (read_waiting c timeout p ps (f, fr) (map (pair f) frs') s Hw) as (s1 & E1 & Hp & Hw1 & Hn). erewrite bind_ret by exact E1.
    apply (recv_loop_run malloc c timeout (map (pair f) frs') ps fuel (f, fr)); try done; [rewrite length_map; simpl in Hfu; lia|by right].
Qed.

(** The size check of [csp_sfp_recv_fp] wraps: near 4 GB the sum of offset and
    packet length overflows [uint32_t], the packet passes, and [memcpy] writes past
    the end of the memory. *)
Theorem sfp_recv_wraps `{Platform} malloc p k s bytes d datasize off : pkt_at p s = Some k -> packet_ok k ->
  mem_read (pkt_mem k) CSP_PACKET_PADDING_BYTES (pkt_length k) = Some bytes ->
  sfp_parse (flags (pkt_id k)) bytes = Some (off, datasize) -> zlen d = datasize -> 0 <= off <= datasize -> datasize < 2 ^ 32 ->
  2 ^ 32 <= off + (zlen bytes - 8) -> sfp_recv_packet malloc p (Some d) datasize off s = Undef.
Proof.
  intros Hk Hok Hb Hp Hd Ho Hs Hov. destruct (recv_packet_run malloc p k s bytes (Some d) datasize off Hk Hok Hb) as (k' & _ & _ & E).
  rewrite E. clear E. pose proof (mem_read_length _ _ _ _ Hb) as Hbl. destruct Hok as [_ Hl]. unfold CSP_BUFFER_SIZE in Hl.
  unfold sfp_step. rewrite Hp, Z.eqb_refl. cbn [negb]. cbv zeta. set (pay := take (length bytes - 8) bytes).
  assert (Hpl : zlen pay = zlen bytes - 8) by (unfold pay; rewrite length_take; lia).
  assert (Eu : u32 (off + zlen pay) = off + zlen pay - 2 ^ 32) by (unfold u32; zlia).
  rewrite Eu, (proj2 (Z.ltb_ge _ _)), Z.eqb_refl by lia. cbn [negb orb].
  assert (W : mem_write d off pay = None) by (unfold mem_write; case_if; [bsimpl; lia|done]). by rewrite W.
Qed.

(** An inactive connection is not an error for the sender: [csp_sfp_send]
    returns [CSP_ERR_NONE] without having sent anything. *)
Theorem sfp_send_inactive `{Platform} rfuel c data totalsize mtu s s' : 0 < mtu -> mtu + SFP_HEADER_SIZE <= CSP_BUFFER_SIZE -> 0 < totalsize ->
  csp_conn_is_active c s = Ret false s' -> csp_sfp_send rfuel c data totalsize mtu s = Ret CSP_ERR_NONE s'.
Proof.
  intros Hm Hb Ht Ha. unfold csp_sfp_send, csp_sfp_send_own_memcpy. rewrite (proj2 (Z.eqb_neq _ _)), (proj2 (Z.ltb_ge _ _)) by lia. cbn [orb sfp_send_loop].
  rewrite (proj2 (Z.ltb_lt _ _)) by lia. by erewrite bind_ret by exact Ha.
Qed.

(** ** Witnesses *)

(** Memory of up to 100 bytes. *)
Definition small_malloc (n : Z) : option (list Z) := if (0 <=? n) && (n <=? 100) then Some (replicate (Z.to_nat n) 0) else None.

Lemma small_malloc_ok : malloc_ok 100 small_malloc.
Proof.
  intros n m. unfold small_malloc. destruct (Z.leb_spec 0 n), (Z.leb_spec n 100); try discriminate. intros [= <-]. rewrite length_replicate. lia.
Qed.


(** Packets 0 and 1 with two fragments of a transfer of five bytes, in the queue of
    connection 0. *)
Definition sfp_bytes : list Z := [11; 12; 13; 14; 15].
Definition sfp_load (p : nat) (f : Z) (bytes : list Z) : M unit :=
  write_mem p 0 bytes ;; mod_pkt p (fun k => set_pkt_id (set_flags f (pkt_id k)) (set_pkt_length (zlen bytes) k)).
Definition sfp_receiver : node := state_of ((_ ← csp_buffer_get; _ ← csp_buffer_get;
  sfp_load 0 CSP_FFRAG [11; 12; 13; 0; 0; 0; 0; 0; 0; 0; 5] ;;
  sfp_load 1 CSP_FFRAG [14; 15; 0; 0; 0; 3; 0; 0; 0; 5] ;;
  mod_conn 0 (fun x => set_conn_state CONN_OPEN (set_conn_rxq (Queue CSP_CONN_RXQUEUE_LEN [Some 0%nat; Some 1%nat]) x))) started).

Lemma sfp_receiver_waiting : sfp_waiting 0 [0; 1]%nat (map (pair CSP_FFRAG) (sfp_fragments 5 3 5 0 sfp_bytes)) sfp_receiver.
Proof.
  split; [|split].
  - apply NoDup_cons_2; [rewrite list_elem_of_singleton; discriminate|]. apply NoDup_singleton.
  - constructor; [|constructor; [|constructor]]; eexists; (split; [vm_compute; reflexivity|]); (split; [vm_compute; repeat split; discriminate|]);
      split; vm_compute; reflexivity.
  - eexists. split; [vm_compute; reflexivity|]. vm_compute. repeat split.
Qed.

Lemma sfp_roundtrip_witness : (forall s, csp_sfp_send (H := lo_platform) 0 0 sfp_bytes 5 3 s = send_payloads (H := lo_platform) 0 0 (sfp_fragments 5 3 5 0 sfp_bytes) s) /\
  exists s', csp_sfp_recv (H := lo_platform) small_malloc 10 0 100 sfp_receiver = Ret (CSP_ERR_NONE, Some (sfp_bytes, 5)) s'.
Proof.
  destruct (sfp_roundtrip (H := lo_platform) small_malloc (replicate 5 0) sfp_bytes 3) as [Hsend Hrecv].
  - lia.
  - vm_compute. discriminate.
  - discriminate.
  - vm_compute. reflexivity.
  - vm_compute. reflexivity.
  - reflexivity.
  - split; [intros s; exact (Hsend 0%nat 0%nat s)|].
    apply (Hrecv 10%nat 0%nat 100 CSP_FFRAG [0; 1]%nat sfp_receiver); [vm_compute; reflexivity|exact sfp_receiver_waiting|vm_compute; lia].
Defined.

(** A packet of 32 bytes at offset [2^32 - 16] of [2^32 - 1]. *)
Definition sfp_tail : list Z := replicate 32 7 ++ [255; 255; 255; 240; 255; 255; 255; 255].
Definition sfp_late : node := state_of (sfp_load 0 CSP_FFRAG sfp_tail started_1).

Lemma sfp_recv_wraps_witness :
  sfp_recv_packet small_malloc 0 (Some (replicate (Z.to_nat (2 ^ 32 - 1)) 0)) (2 ^ 32 - 1) (2 ^ 32 - 16) sfp_late = Undef.
Proof.
  destruct (pkt_at 0 sfp_late) as [k|] eqn:Hk; [|vm_compute in Hk; discriminate].
  apply (sfp_recv_wraps (H := lo_platform) small_malloc 0 k sfp_late sfp_tail).
  - exact Hk.
  - vm_compute in Hk. injection Hk as <-. vm_compute. repeat split; discriminate.
  - vm_compute in Hk. injection Hk as <-. vm_compute. reflexivity.
  - vm_compute in Hk. injection Hk as <-. vm_compute. reflexivity.
  - rewrite length_replicate, Z2Nat.id; [reflexivity|lia].
  - lia.
  - lia.
  - change (zlen sfp_tail) with 40. lia.
Defined.

(** Connection 0 uses RDP and is closed. *)
Definition sfp_closed : node := state_of (mod_conn 0 (fun x => set_idin (set_flags CSP_FRDP (idin x)) x) started).

Lemma sfp_send_inactive_witness : exists s', csp_sfp_send (H := lo_platform) 0 0 sfp_bytes 5 3 sfp_closed = Ret CSP_ERR_NONE s'.
Proof.
  eexists. apply (sfp_send_inactive (H := lo_platform) 0 0 sfp_bytes 5 3 sfp_closed).
  - lia.
  - vm_compute. discriminate.
  - lia.
  - vm_compute. reflexivity.
Defined.
