(* ===== verification/Service.v ===== *)
(** * Service: the built-in services and their clients

    [src/csp_service_handler.c] (ping, process list, free memory, reboot, free
    buffers, uptime and the management protocol CMP of [csp_cmp.h]),
    [src/csp_services.c] (the calls by which another node uses them) and the
    hooks of [src/arch/posix/csp_clock.c], [csp_system.c] and [csp_time.c]. *)

From S2P Require Import Prelude State Monad Id Buffer Iflist Rtable Qfifo Io RdpQueue Rdp Conn RdpProto Api.

(** [csp_service_port_t] and the constants of [csp_types.h] and [csp_cmp.h] *)
Definition CSP_CMP : Z := 0.
Definition CSP_PING : Z := 1.
Definition CSP_PS : Z := 2.
Definition CSP_MEMFREE : Z := 3.
Definition CSP_REBOOT : Z := 4.
Definition CSP_BUF_FREE : Z := 5.
Definition CSP_UPTIME : Z := 6.
Definition CSP_HOSTNAME_LEN : Z := 20.
Definition CSP_MODEL_LEN : Z := 30.
Definition CSP_REBOOT_MAGIC : Z := 0x80078007.
Definition CSP_REBOOT_SHUTDOWN_MAGIC : Z := 0xD1E5529A.
Definition CSP_CMP_REQUEST : Z := 0x00.
Definition CSP_CMP_REPLY : Z := 0xff.
Definition CSP_CMP_IDENT : Z := 1.
Definition CSP_CMP_ROUTE_SET_V1 : Z := 2.
Definition CSP_CMP_IF_STATS : Z := 3.
Definition CSP_CMP_PEEK : Z := 4.
Definition CSP_CMP_POKE : Z := 5.
Definition CSP_CMP_CLOCK : Z := 6.
Definition CSP_CMP_ROUTE_SET_V2 : Z := 7.
Definition CSP_CMP_IDENT_REV_LEN : Z := 20.
Definition CSP_CMP_IDENT_DATE_LEN : Z := 12.
Definition CSP_CMP_IDENT_TIME_LEN : Z := 9.
Definition CSP_CMP_ROUTE_IFACE_LEN : Z := 11.
Definition CSP_CMP_PEEK_MAX_LEN : Z := 200.
Definition CSP_CMP_POKE_MAX_LEN : Z := 200.

(** ** [struct csp_cmp_message]

    The offsets of the fields in the message, which starts at [packet->data].
    The outer struct is packed; of the inner ones only [if_stats] is, so
    [route_set_v2] and [peek] end in padding up to their alignment. *)
Definition CMP_TYPE : Z := 0.
Definition CMP_CODE : Z := 1.
Definition CMP_HOSTNAME : Z := 2.
Definition CMP_MODEL : Z := CMP_HOSTNAME + CSP_HOSTNAME_LEN.
Definition CMP_REVISION : Z := CMP_MODEL + CSP_MODEL_LEN.
Definition CMP_DATE : Z := CMP_REVISION + CSP_CMP_IDENT_REV_LEN.
Definition CMP_TIME : Z := CMP_DATE + CSP_CMP_IDENT_DATE_LEN.
Definition CMP_DEST_NODE1 : Z := 2.
Definition CMP_NEXT_HOP_VIA1 : Z := 3.
Definition CMP_INTERFACE1 : Z := 4.
Definition CMP_DEST_NODE2 : Z := 2.
Definition CMP_NEXT_HOP_VIA2 : Z := 4.
Definition CMP_NETMASK2 : Z := 6.
Definition CMP_INTERFACE2 : Z := 8.
Definition CMP_INTERFACE : Z := 2.
Definition CMP_TX : Z := 13.
Definition CMP_ADDR : Z := 2.
Definition CMP_LEN : Z := 6.
Definition CMP_DATA : Z := 7.
Definition CMP_TV_SEC : Z := 2.
Definition CMP_TV_NSEC : Z := 6.

(** [CMP_SIZE] of the members of the union *)
Definition CMP_SIZE_ident : Z := CMP_TIME + CSP_CMP_IDENT_TIME_LEN.
Definition CMP_SIZE_route_set_v1 : Z := 2 + 13.
Definition CMP_SIZE_route_set_v2 : Z := 2 + 18.
Definition CMP_SIZE_if_stats : Z := 2 + 51.
Definition CMP_SIZE_peek : Z := 2 + 208.
Definition CMP_SIZE_clock : Z := 2 + 8.

(** ** C strings *)

(** [strncpy]: the bytes it writes. *)
Definition strncpy (src : list Z) (n : Z) : list Z :=
  let l := take (Z.to_nat n) (c_str src) in l ++ replicate (Z.to_nat n - length l) 0.

(** ** Hooks

    What the operating system port and the application supply
    ([csp_hooks.h], [csp_time.h], [csp_cmp_set_memcpy]): the process list, free
    memory, reboot and shutdown, the seconds since start, the clock, the memory
    access of peek and poke, and the compiler's [__DATE__] and [__TIME__]. *)
Class Hooks := {
  csp_ps_hook : nat -> M Z;
  csp_memfree_hook : M Z;
  csp_reboot_hook : M unit;
  csp_shutdown_hook : M unit;
  csp_get_s : M Z;
  csp_clock_get_time : M (Z * Z);
  csp_clock_set_time : Z * Z -> M Z;
  cmp_memcpy_from : Z -> Z -> M (list Z);
  cmp_memcpy_to : Z -> list Z -> M unit;
  build_date : list Z;
  build_time : list Z
}.

(** *** The hooks of the POSIX port, over the system calls they make

    [clock_gettime] answers with the seconds and nanoseconds or fails;
    [sysinfo] with the free memory and its unit; [reboot] is recorded by the
    operating system and does not return to the stack. *)
Class Posix := {
  clock_realtime : node -> option (Z * Z);
  clock_monotonic : node -> option (Z * Z);
  clock_settime : Z * Z -> M Z;
  sysinfo : node -> Z * Z;
  reboot : bool -> M unit;
  posix_memcpy_from : Z -> Z -> M (list Z);
  posix_memcpy_to : Z -> list Z -> M unit;
  posix_date : list Z;
  posix_time : list Z
}.

Section PosixHooks.
Context `{Posix}.

Definition posix_clock_get_time : M (Z * Z) :=
  s ← gets id;
  match clock_realtime s with
  | Some (sec, nsec) => mret (u32 sec, u32 nsec)
  | None => mret (0, 0)
  end.

Definition posix_clock_set_time (time : Z * Z) : M Z :=
  r ← clock_settime time;
  if r =? 0 then mret CSP_ERR_NONE else mret CSP_ERR_INVAL.

Definition posix_memfree_hook : M Z :=
  s ← gets id;
  let info := sysinfo s in
  mret (u32 (fst info * snd info)).

Definition posix_ps_hook (packet : nat) : M Z := mret 0.

Definition posix_reboot_hook : M unit := reboot false.
Definition posix_shutdown_hook : M unit := reboot true.

(** [csp_get_ms] and [csp_get_s] *)
Definition posix_get_ms (s : node) : Z :=
  match clock_monotonic s with
  | Some (sec, nsec) => u32 (sec * 1000 + Z.quot nsec 1000000)
  | None => 0
  end.

Definition posix_get_s : M Z :=
  s ← gets id;
  match clock_monotonic s with Some (sec, _) => mret (u32 sec) | None => mret 0 end.

Definition posix_hooks : Hooks := {|
  csp_ps_hook := posix_ps_hook;
  csp_memfree_hook := posix_memfree_hook;
  csp_reboot_hook := posix_reboot_hook;
  csp_shutdown_hook := posix_shutdown_hook;
  csp_get_s := posix_get_s;
  csp_clock_get_time := posix_clock_get_time;
  csp_clock_set_time := posix_clock_set_time;
  cmp_memcpy_from := posix_memcpy_from;
  cmp_memcpy_to := posix_memcpy_to;
  build_date := posix_date;
  build_time := posix_time
|}.

End PosixHooks.

(** ** The service handler *)

Section Handler.
Context `{Platform} `{Hooks}.

(** [strncpy(field, src, len); field[len - 1] = '\0'] *)
Definition cmp_set_str (packet : nat) (off : Z) (src : list Z) (len : Z) : M unit :=
  write_mem packet off (strncpy src len) ;;
  write_mem packet (off + len - 1) [0].

Definition do_cmp_ident (packet : nat) : M Z :=
  s ← gets id;
  cmp_set_str packet CMP_REVISION (revision (conf s)) CSP_CMP_IDENT_REV_LEN ;;
  cmp_set_str packet CMP_DATE build_date CSP_CMP_IDENT_DATE_LEN ;;
  cmp_set_str packet CMP_TIME build_time CSP_CMP_IDENT_TIME_LEN ;;
  cmp_set_str packet CMP_HOSTNAME (hostname (conf s)) CSP_HOSTNAME_LEN ;;
  cmp_set_str packet CMP_MODEL (model (conf s)) CSP_MODEL_LEN ;;
  mret CSP_ERR_NONE.

(** An unsigned integer of [n] bytes in network order. *)
Definition read_be (packet : nat) (off n : Z) : M Z :=
  b ← read_mem packet off n; mret (be_val b mod 256 ^ n).

(** [csp_iflist_get_by_name] on the name in the message, which need not be
    terminated: the comparison ends within the field. *)
Definition cmp_get_iface (packet : nat) (off : Z) : M (option nat) :=
  name ← read_mem packet off CSP_CMP_ROUTE_IFACE_LEN;
  csp_iflist_get_by_name (c_str name).

(** The end of both forms of [do_cmp_route_set]. *)
Definition cmp_route (dest_node netmask : Z) (ifc : nat) (via : Z) : M Z :=
  if CSP_USE_RTABLE then
    r ← csp_rtable_set dest_node netmask (Some ifc) via;
    if negb (r =? CSP_ERR_NONE) then mret CSP_ERR_INVAL else mret CSP_ERR_NONE
  else mret CSP_ERR_NONE.

Definition do_cmp_route_set_v1 (packet : nat) : M Z :=
  ifc ← cmp_get_iface packet CMP_INTERFACE1;
  match ifc with
  | None => mret CSP_ERR_INVAL
  | Some i =>
      dest_node ← read_be packet CMP_DEST_NODE1 1;
      next_hop_via ← read_be packet CMP_NEXT_HOP_VIA1 1;
      s ← gets id;
      cmp_route dest_node (csp_id_get_host_bits s) i next_hop_via
  end.

Definition do_cmp_route_set_v2 (packet : nat) : M Z :=
  ifc ← cmp_get_iface packet CMP_INTERFACE2;
  match ifc with
  | None => mret CSP_ERR_INVAL
  | Some i =>
      dest_node ← read_be packet CMP_DEST_NODE2 2;
      netmask ← read_be packet CMP_NETMASK2 2;
      next_hop_via ← read_be packet CMP_NEXT_HOP_VIA2 2;
      cmp_route dest_node netmask i next_hop_via
  end.

(** The counters in the order of [if_stats]. *)
Definition if_counters (x : csp_iface) : list Z :=
  [if_tx x; if_rx x; tx_error x; rx_error x; if_drop x; autherr x; if_frame x; txbytes x; rxbytes x; if_irq x].

Definition do_cmp_if_stats (packet : nat) : M Z :=
  ifc ← cmp_get_iface packet CMP_INTERFACE;
  match ifc with
  | None => mret CSP_ERR_INVAL
  | Some i =>
      x ← get_iface i;
      write_mem packet CMP_TX (flat_map (be_bytes 4) (if_counters x)) ;;
      mret CSP_ERR_NONE
  end.

(** [addr = htobe32(addr)]: the field is left in the byte order of this
    machine, also in the reply. *)
Definition cmp_swap_addr (packet : nat) : M Z :=
  addr ← read_be packet CMP_ADDR 4;
  write_mem packet CMP_ADDR (le_bytes 4 addr) ;;
  mret addr.

Definition do_cmp_peek (packet : nat) : M Z :=
  addr ← cmp_swap_addr packet;
  len ← read_be packet CMP_LEN 1;
  if CSP_CMP_PEEK_MAX_LEN <? len then mret CSP_ERR_INVAL else
  data ← cmp_memcpy_from addr (len);
  write_mem packet CMP_DATA data ;;
  mret CSP_ERR_NONE.

Definition do_cmp_poke (packet : nat) : M Z :=
  addr ← cmp_swap_addr packet;
  len ← read_be packet CMP_LEN 1;
  if CSP_CMP_POKE_MAX_LEN <? len then mret CSP_ERR_INVAL else
  data ← read_mem packet CMP_DATA (len);
  cmp_memcpy_to addr data ;;
  mret CSP_ERR_NONE.

Definition do_cmp_clock (packet : nat) : M Z :=
  sec ← read_be packet CMP_TV_SEC 4;
  nsec ← read_be packet CMP_TV_NSEC 4;
  res ← (if negb (sec =? 0) then
           res ← csp_clock_set_time (sec, nsec);
           when (negb (res =? CSP_ERR_NONE)) (set_errno CSP_DBG_ERR_CLOCK_SET_FAIL) ;;
           mret res
         else mret CSP_ERR_NONE);
  clock ← csp_clock_get_time;
  write_mem packet CMP_TV_SEC (be_bytes 4 (fst clock)) ;;
  write_mem packet CMP_TV_NSEC (be_bytes 4 (snd clock)) ;;
  mret res.

(** [ret = do_cmp_...(cmp); packet->length = CMP_SIZE(...)] *)
Definition cmp_sized (packet : nat) (m : M Z) (size : Z) : M Z :=
  ret ← m; mod_pkt packet (set_pkt_length size) ;; mret ret.

(** The switch of [csp_cmp_handler]. *)
Definition cmp_switch (packet : nat) (code : Z) : M Z :=
  if code =? CSP_CMP_IDENT then cmp_sized packet (do_cmp_ident packet) CMP_SIZE_ident
  else if code =? CSP_CMP_ROUTE_SET_V1 then cmp_sized packet (do_cmp_route_set_v1 packet) CMP_SIZE_route_set_v1
  else if code =? CSP_CMP_ROUTE_SET_V2 then cmp_sized packet (do_cmp_route_set_v2 packet) CMP_SIZE_route_set_v2
  else if code =? CSP_CMP_IF_STATS then cmp_sized packet (do_cmp_if_stats packet) CMP_SIZE_if_stats
  else if code =? CSP_CMP_PEEK then do_cmp_peek packet
  else if code =? CSP_CMP_POKE then do_cmp_poke packet
  else if code =? CSP_CMP_CLOCK then do_cmp_clock packet
  else mret CSP_ERR_INVAL.

Definition csp_cmp_handler (packet : nat) : M Z :=
  type ← read_be packet CMP_TYPE 1;
  if negb (type =? CSP_CMP_REQUEST) then mret CSP_ERR_INVAL else
  code ← read_be packet CMP_CODE 1;
  ret ← cmp_switch packet code;
  write_mem packet CMP_TYPE [CSP_CMP_REPLY] ;;
  mret ret.

(** [memcpy(packet->data, &value, 4); packet->length = 4] with the value in
    network order *)
Definition reply_u32 (packet : nat) (value : Z) : M unit :=
  write_mem packet 0 (be_bytes 4 value) ;;
  mod_pkt packet (set_pkt_length 4).

(** What the switch of [csp_service_handler] does before [break] ([true]) or
    [return] ([false]). *)
Definition service_switch (packet : nat) (port : Z) : M bool :=
  if port =? CSP_CMP then
    r ← csp_cmp_handler packet;
    if negb (r =? CSP_ERR_NONE) then csp_buffer_free (Some packet) ;; mret false else mret true
  else if port =? CSP_PING then mret true
  else if port =? CSP_PS then
    n ← csp_ps_hook packet;
    mod_pkt packet (set_pkt_length (u16 n)) ;;
    when (u16 n =? 0) (csp_buffer_free (Some packet)) ;;
    mret true
  else if port =? CSP_MEMFREE then
    total ← csp_memfree_hook;
    reply_u32 packet total ;; mret true
  else if port =? CSP_REBOOT then
    magic_word ← read_be packet 0 4;
    (if magic_word =? CSP_REBOOT_MAGIC then csp_reboot_hook
     else when (magic_word =? CSP_REBOOT_SHUTDOWN_MAGIC) csp_shutdown_hook) ;;
    csp_buffer_free (Some packet) ;; mret false
  else if port =? CSP_BUF_FREE then
    size ← csp_buffer_remaining;
    reply_u32 packet size ;; mret true
  else if port =? CSP_UPTIME then
    time ← csp_get_s;
    reply_u32 packet time ;; mret true
  else csp_buffer_free (Some packet) ;; mret false.

Definition csp_service_handler (packet : nat) : M unit :=
  k ← get_pkt packet;
  reply ← service_switch packet (dport (pkt_id k));
  when reply (csp_sendto_reply (Some packet) packet CSP_O_SAME).

End Handler.

(** ** The clients

    The fuel bounds the waits for the RDP window in [csp_send]; [csp_ps] also
    has a bound on the packets it reads. *)

Section Clients.
Context `{Platform}.

(** [data[i] = i] for [i < size] *)
Definition ping_data (size : Z) : list Z := map (fun i => u8 (Z.of_nat i)) (seq 0 (Z.to_nat size)).

(** Between the read and [out]: whether the data came back. *)
Definition ping_check (packet : nat) (size : Z) : M bool :=
  b ← read_mem packet 0 size;
  mret (bool_decide (b = ping_data size)).

(** The label [out]: [status] tells whether there was a good reply. *)
Definition ping_out (c : nat) (packet : option nat) (status : bool) (start : Z) : M Z :=
  csp_buffer_free packet ;;
  _ ← csp_close (Some c);
  now ← csp_get_ms;
  mret (if status then i32 (u32 (now - start)) else -1).

Definition csp_ping (fuel : nat) (node timeout size conn_options : Z) : M Z :=
  if CSP_BUFFER_SIZE <? size then mret (-1) else
  start ← csp_get_ms;
  conn ← csp_connect CSP_PRIO_NORM node CSP_PING conn_options;
  match conn with
  | None => mret (-1)
  | Some c =>
      packet ← csp_buffer_get;
      match packet with
      | None => ping_out c None false start
      | Some p =>
          mod_pkt p (set_pkt_length size) ;;
          write_mem p 0 (ping_data size) ;;
          csp_send fuel (Some c) (Some p) ;;
          packet ← csp_read (Some c) timeout;
          match packet with
          | None => ping_out c None false start
          | Some p => ok ← ping_check p size; ping_out c (Some p) ok start
          end
      end
  end.

(** [data[0] = 0x55; length = 1] *)
Definition poll_packet (p : nat) : M unit :=
  write_mem p 0 [0x55] ;; mod_pkt p (set_pkt_length 1).

Definition csp_ping_noreply (fuel : nat) (node : Z) : M unit :=
  packet ← csp_buffer_get;
  match packet with
  | None => mret tt
  | Some p =>
      conn ← csp_connect CSP_PRIO_NORM node CSP_PING CSP_O_CRC32;
      match conn with
      | None => csp_buffer_free (Some p)
      | Some c =>
          poll_packet p ;;
          csp_send fuel (Some c) (Some p) ;;
          _ ← csp_close (Some c);
          mret tt
      end
  end.

Definition csp_reboot (fuel : nat) (node : Z) : M unit :=
  _ ← csp_transaction_w_opts fuel CSP_PRIO_NORM node CSP_REBOOT 0 (be_bytes 4 CSP_REBOOT_MAGIC) 0 CSP_O_CRC32;
  mret tt.

Definition csp_shutdown (fuel : nat) (node : Z) : M unit :=
  _ ← csp_transaction_w_opts fuel CSP_PRIO_NORM node CSP_REBOOT 0 (be_bytes 4 CSP_REBOOT_SHUTDOWN_MAGIC) 0 CSP_O_CRC32;
  mret tt.

(** The loop of [csp_ps] over the packets of the reply, up to the first read
    that times out; [Halt] when there are more than [fuel]. *)
Fixpoint ps_loop (fuel : nat) (c : nat) (timeout : Z) : M unit :=
  match fuel with
  | O => halt
  | S fuel' =>
      packet ← csp_read (Some c) timeout;
      match packet with
      | None => mret tt
      | Some p =>
          k ← get_pkt p;
          let length := if pkt_length k <? CSP_BUFFER_SIZE then pkt_length k else CSP_BUFFER_SIZE - 1 in
          write_mem p length [0] ;;
          csp_buffer_free (Some p) ;;
          ps_loop fuel' c timeout
      end
  end.

Definition csp_ps (fuel : nat) (node timeout : Z) : M unit :=
  conn ← csp_connect CSP_PRIO_NORM node CSP_PS CSP_O_CRC32;
  match conn with
  | None => mret tt
  | Some c =>
      packet ← csp_buffer_get;
      match packet with
      | None => mret tt
      | Some p => poll_packet p ;; csp_send fuel (Some c) (Some p) ;; ps_loop fuel c timeout
      end ;;
      csp_buffer_free None ;;
      _ ← csp_close (Some c);
      mret tt
  end.

(** [csp_get_memfree], [csp_get_buf_free] and [csp_get_uptime]: the status and
    the value. *)
Definition get_u32 (fuel : nat) (node port timeout : Z) : M (Z * Z) :=
  '(status, size) ← csp_transaction_w_opts fuel CSP_PRIO_NORM node port timeout [] 4 CSP_O_CRC32;
  mret (if status =? 4 then (CSP_ERR_NONE, be_val size) else (CSP_ERR_TIMEDOUT, 0)).

Definition csp_get_memfree (fuel : nat) (node timeout : Z) : M (Z * Z) := get_u32 fuel node CSP_MEMFREE timeout.
Definition csp_get_buf_free (fuel : nat) (node timeout : Z) : M (Z * Z) := get_u32 fuel node CSP_BUF_FREE timeout.
Definition csp_get_uptime (fuel : nat) (node timeout : Z) : M (Z * Z) := get_u32 fuel node CSP_UPTIME timeout.

(** [csp_cmp] on the first [msg_size] bytes of the message: the status and the
    message. *)
Definition csp_cmp (fuel : nat) (node timeout code : Z) (msg : list Z) : M (Z * list Z) :=
  let msg := CSP_CMP_REQUEST :: code :: drop 2 msg in
  '(status, reply) ← csp_transaction_w_opts fuel CSP_PRIO_NORM node CSP_CMP timeout msg (zlen msg) CSP_O_CRC32;
  mret (if status =? 0 then (CSP_ERR_TIMEDOUT, msg) else (CSP_ERR_NONE, reply)).

(** The functions [CMP_MESSAGE] and the two below it define; the message
    struct is longer than what they send. *)
Definition cmp_message (code size : Z) (fuel : nat) (node timeout : Z) (msg : list Z) : M (Z * list Z) :=
  csp_cmp fuel node timeout code (take (Z.to_nat size) msg).

Definition csp_cmp_ident := cmp_message CSP_CMP_IDENT CMP_SIZE_ident.
Definition csp_cmp_route_set_v1 := cmp_message CSP_CMP_ROUTE_SET_V1 CMP_SIZE_route_set_v1.
Definition csp_cmp_if_stats := cmp_message CSP_CMP_IF_STATS CMP_SIZE_if_stats.
Definition csp_cmp_clock := cmp_message CSP_CMP_CLOCK CMP_SIZE_clock.
Definition csp_cmp_route_set_v2 := cmp_message CSP_CMP_ROUTE_SET_V2 CMP_SIZE_route_set_v2.

Definition cmp_len (msg : list Z) : Z := default 0 (msg !! Z.to_nat CMP_LEN).

Definition csp_cmp_peek (fuel : nat) (node timeout : Z) (msg : list Z) : M (Z * list Z) :=
  cmp_message CSP_CMP_PEEK (CMP_SIZE_peek - CSP_CMP_PEEK_MAX_LEN + cmp_len msg) fuel node timeout msg.
Definition csp_cmp_poke (fuel : nat) (node timeout : Z) (msg : list Z) : M (Z * list Z) :=
  cmp_message CSP_CMP_POKE (CMP_SIZE_peek - CSP_CMP_POKE_MAX_LEN + cmp_len msg) fuel node timeout msg.

End Clients.
