(* ===== verification/ServiceSpec.v ===== *)
(** * ServiceSpec: the service handler as a port callback

    The handler of [Service.v] meets the interface a port callback must meet
    ([law_callback]), provided that the hooks behave and the process list is
    not empty ([HookLaws], [PsLaws]), so that the theorems on
    the whole node ([Node.v]) hold for a node that offers the services. *)

From S2P Require Import Prelude State Monad Id Buffer Iflist Rtable Qfifo Io RdpQueue Rdp Conn RdpProto Api Route.
From S2P Require Import Own OwnIo OwnRdp OwnRoute OwnApi RdpSpec RdpState OwnConf OwnClient Node Service.

(** ** What the hooks promise

    They leave the stack alone, and the process list fits the packet.  Memory
    access by peek and poke stays outside the stack ([csp_cmp_set_memcpy] lets
    the application see to it; the default is [memcpy]). *)
Class HookLaws `{Hooks} : Prop := {
  law_ps : forall T h s p, Inv T h s -> p ∈ h ->
    wp (csp_ps_hook p) (fun n s' => Inv T h s' /\ 0 <= n <= CSP_BUFFER_SIZE) s;
  law_memfree : forall T h s, Inv T h s -> wp csp_memfree_hook (fun _ s' => Inv T h s') s;
  law_reboot : forall T h s, Inv T h s -> wp csp_reboot_hook (fun _ s' => Inv T h s') s;
  law_shutdown : forall T h s, Inv T h s -> wp csp_shutdown_hook (fun _ s' => Inv T h s') s;
  law_get_s : forall T h s, Inv T h s -> wp csp_get_s (fun _ s' => Inv T h s') s;
  law_clock_get : forall T h s, Inv T h s -> wp csp_clock_get_time (fun _ s' => Inv T h s') s;
  law_clock_set : forall T h s t, Inv T h s -> wp (csp_clock_set_time t) (fun _ s' => Inv T h s') s;
  law_peek : forall T h s a n, Inv T h s -> 0 <= n <= CSP_CMP_PEEK_MAX_LEN ->
    wp (cmp_memcpy_from a n) (fun bs s' => Inv T h s' /\ zlen bs = n) s;
  law_poke : forall T h s a bs, Inv T h s -> wp (cmp_memcpy_to a bs) (fun _ s' => Inv T h s') s
}.

(** The process list is never empty.  (It always is in the POSIX port.) *)
Class PsLaws `{Hooks} : Prop :=
  law_ps_some : forall p s, wp (csp_ps_hook p) (fun n _ => n <> 0) s.

(** ** Messages in the packet *)

Lemma wp_read_be T h s p off n (Q : Z -> node -> Prop) : Inv T h s -> p ∈ h -> -8 <= off -> 0 <= n -> off + n <= 256 ->
  (forall v, 0 <= v < 256 ^ n -> Q v s) -> wp (read_be p off n) Q s.
Proof.
  intros HI Hp Ho Hn Hl HQ. unfold read_be. apply wp_bind. eapply wp_read_mem; [done|by left|done..|].
  intros bs _. apply wp_ret, HQ. apply Z.mod_pos_bound. lia.
Qed.

Lemma length_strncpy src n : 0 <= n -> zlen (strncpy src n) = n.
Proof. intros Hn. unfold strncpy. rewrite length_app, length_replicate, length_take. lia. Qed.

Lemma wp_set_str T h s p off src n : Inv T h s -> p ∈ h -> 0 <= off -> 0 < n -> off + n <= 256 ->
  wp (cmp_set_str p off src n) (fun _ s' => Inv T h s') s.
Proof.
  intros HI Hp Ho Hn Hl. unfold cmp_set_str. apply wp_bind.
  wp_use (apply (wp_put_mem T h); [done|done|lia|rewrite length_strncpy; lia]). intros [] s1 H1.
  apply wp_put_mem; [done|done|lia|]. simpl. lia.
Qed.

(** The node is well formed, and its configuration differs from [T] in the
    routing table only. *)
Definition routed (T : config) (h : list nat) (s : node) : Prop := exists T', Inv T' h s /\ routes_only T T'.

Lemma routed_same T h s : Inv T h s -> routed T h s.
Proof. intros HI. exists T. split; [done|apply routes_only_refl]. Qed.
#[local] Hint Resolve routed_same : core.

(** ** The management protocol *)

Section HandlerSafe.
Context `{L : OwnLaws} `{HL : HookLaws}.

(** Read a field of the message. *)
Ltac fetch := eapply wp_read_be; [done|done|vm_compute; discriminate..|].

Lemma wp_do_ident T h s p : Inv T h s -> p ∈ h -> wp (do_cmp_ident p) (fun _ s' => routed T h s') s.
Proof.
  intros HI Hp. unfold do_cmp_ident. apply wp_bind, wp_gets. unfold id.
  do 5 (apply wp_bind; wp_use (apply (wp_set_str T h); [done|done|vm_compute; congruence..]); clear HI; intros [] ? HI).
  apply wp_ret. auto.
Qed.

Lemma wp_cmp_iface T h s p off (Q : option nat -> node -> Prop) : Inv T h s -> p ∈ h -> 0 <= off <= 8 ->
  Q None s -> (forall i, valid_if T i -> Q (Some i) s) -> wp (cmp_get_iface p off) Q s.
Proof.
  intros HI Hp Ho HN HS. unfold cmp_get_iface. apply wp_bind.
  eapply wp_read_mem; [done|by left|lia|vm_compute; discriminate|unfold CSP_CMP_ROUTE_IFACE_LEN; lia|]. intros bs _.
  eapply wp_conseq; [by apply (wp_get_by_name T h)|]. cbv beta. intros [i|] s' [-> Hi]; auto.
Qed.

Lemma wp_cmp_route T h s a m i via : Inv T h s -> valid_if T i -> wp (cmp_route a m i via) (fun _ s' => routed T h s') s.
Proof.
  intros HI Hi. unfold cmp_route. destruct CSP_USE_RTABLE; [|apply wp_ret; auto].
  apply wp_bind. wp_use (by apply (wp_rtable_set T h)). intros r s1 H1. destruct (negb _); by apply wp_ret.
Qed.

Lemma wp_do_route1 T h s p : Inv T h s -> p ∈ h -> wp (do_cmp_route_set_v1 p) (fun _ s' => routed T h s') s.
Proof.
  intros HI Hp. unfold do_cmp_route_set_v1. apply wp_bind. eapply wp_cmp_iface; [done|done|vm_compute; split; discriminate|apply wp_ret; auto|].
  intros i Hi. apply wp_bind. fetch. intros d Hd. apply wp_bind. fetch. intros v Hv.
  apply wp_bind, wp_gets. by apply wp_cmp_route.
Qed.

Lemma wp_do_route2 T h s p : Inv T h s -> p ∈ h -> wp (do_cmp_route_set_v2 p) (fun _ s' => routed T h s') s.
Proof.
  intros HI Hp. unfold do_cmp_route_set_v2. apply wp_bind. eapply wp_cmp_iface; [done|done|vm_compute; split; discriminate|apply wp_ret; auto|].
  intros i Hi. apply wp_bind. fetch. intros d Hd. apply wp_bind. fetch. intros m Hm. apply wp_bind. fetch. intros v Hv.
  by apply wp_cmp_route.
Qed.

Lemma wp_do_stats T h s p : Inv T h s -> p ∈ h -> wp (do_cmp_if_stats p) (fun _ s' => routed T h s') s.
Proof.
  intros HI Hp. unfold do_cmp_if_stats. apply wp_bind. eapply wp_cmp_iface; [done|done|vm_compute; split; discriminate|apply wp_ret; auto|].
  intros i Hi. apply wp_bind. eapply wp_get_iface; [done|done|]. intros x Hx.
  assert (Hlen : zlen (flat_map (be_bytes 4) (if_counters x)) = 40).
  { unfold if_counters. cbn [flat_map]. rewrite !length_app, !length_be_bytes. reflexivity. }
  apply wp_bind. wp_use (apply (wp_put_mem T h); [done|done|vm_compute; discriminate|unfold CMP_TX; lia]).
  intros [] s1 H1. apply wp_ret. auto.
Qed.

Lemma wp_swap_addr T h s p : Inv T h s -> p ∈ h -> wp (cmp_swap_addr p) (fun _ s' => Inv T h s') s.
Proof.
  intros HI Hp. unfold cmp_swap_addr. apply wp_bind. fetch. intros a Ha.
  apply wp_bind. wp_use (apply (wp_put_mem T h); [done|done|vm_compute; discriminate|rewrite length_le_bytes; vm_compute; discriminate]).
  intros [] s1 H1. by apply wp_ret.
Qed.

Lemma wp_do_peek T h s p : Inv T h s -> p ∈ h -> wp (do_cmp_peek p) (fun _ s' => routed T h s') s.
Proof.
  intros HI Hp. unfold do_cmp_peek. apply wp_bind. wp_use (by apply (wp_swap_addr T h)). intros a s1 H1.
  apply wp_bind. fetch. intros n Hn. destruct (_ <? n) eqn:E; [apply wp_ret; auto|]. apply Z.ltb_ge in E.
  apply wp_bind. wp_use (apply (law_peek T h); [done|lia]). intros bs s2 [H2 Hl].
  apply wp_bind. wp_use (apply (wp_put_mem T h); [done|done|vm_compute; discriminate|unfold CMP_DATA, CSP_CMP_PEEK_MAX_LEN in *; lia]).
  intros [] s3 H3. apply wp_ret. auto.
Qed.

Lemma wp_do_poke T h s p : Inv T h s -> p ∈ h -> wp (do_cmp_poke p) (fun _ s' => routed T h s') s.
Proof.
  intros HI Hp. unfold do_cmp_poke. apply wp_bind. wp_use (by apply (wp_swap_addr T h)). intros a s1 H1.
  apply wp_bind. fetch. intros n Hn. destruct (_ <? n) eqn:E; [apply wp_ret; auto|]. apply Z.ltb_ge in E.
  apply wp_bind. eapply wp_read_mem; [done|by left|vm_compute; discriminate|lia|unfold CMP_DATA, CSP_CMP_POKE_MAX_LEN in *; lia|].
  intros bs _. apply wp_bind. wp_use (by apply (law_poke T h)). intros [] s2 H2. apply wp_ret. auto.
Qed.

Lemma wp_do_clock T h s p : Inv T h s -> p ∈ h -> wp (do_cmp_clock p) (fun _ s' => routed T h s') s.
Proof.
  intros HI Hp. unfold do_cmp_clock. apply wp_bind. fetch. intros sec Hs. apply wp_bind. fetch. intros nsec Hns.
  apply wp_bind. apply (wp_conseq _ (fun _ s' => Inv T h s')).
  { destruct (negb _); [|by apply wp_ret]. apply wp_bind. wp_use (by apply (law_clock_set T h)). intros r s1 H1.
    apply wp_bind. apply (wp_conseq _ (fun _ s' => Inv T h s')); [|by intros [] s2 H2; apply wp_ret].
    apply wp_when; intros _; [by apply (wp_set_errno T h)|done]. }
  intros r s1 H1. apply wp_bind. wp_use (by apply (law_clock_get T h)). intros c s2 H2.
  do 2 (apply wp_bind; wp_use (apply (wp_put_mem T h); [done|done|vm_compute; discriminate|rewrite length_be_bytes; vm_compute; discriminate]);
    intros [] ? ?).
  apply wp_ret. auto.
Qed.

Lemma wp_sized T h s p m n : p ∈ h -> 0 <= n <= CSP_BUFFER_SIZE -> wp m (fun _ s' => routed T h s') s ->
  wp (cmp_sized p m n) (fun _ s' => routed T h s') s.
Proof.
  intros Hp Hn Hm. unfold cmp_sized. apply wp_bind. eapply wp_conseq; [exact Hm|]. intros r s1 (T1 & H1 & Hr).
  apply wp_bind. wp_use (by apply (wp_resize T1 h)). intros [] s2 H2. apply wp_ret. by exists T1.
Qed.

Lemma wp_cmp_handler T h s p : Inv T h s -> p ∈ h -> wp (csp_cmp_handler p) (fun _ s' => routed T h s') s.
Proof.
  intros HI Hp. unfold csp_cmp_handler. apply wp_bind. fetch. intros ty _. destruct (negb _); [apply wp_ret; auto|].
  apply wp_bind. fetch. intros code _. apply wp_bind.
  apply (wp_conseq _ (fun _ s' => routed T h s')).
  { unfold cmp_switch. repeat (destruct (code =? _);
      [try (apply wp_sized; [done|vm_compute; split; discriminate|]);
       first [by apply wp_do_ident|by apply wp_do_route1|by apply wp_do_route2|by apply wp_do_stats
             |by apply wp_do_peek|by apply wp_do_poke|by apply wp_do_clock]|]). apply wp_ret. auto. }
  intros r s1 (T1 & H1 & Hr). apply wp_bind.
  wp_use (apply (wp_put_mem T1 h); [done|done|vm_compute; discriminate..]). intros [] s2 H2. apply wp_ret. by exists T1.
Qed.

(** ** The services *)

Lemma wp_reply_u32 T h s p v : Inv T h s -> p ∈ h -> wp (reply_u32 p v) (fun _ s' => Inv T h s') s.
Proof.
  intros HI Hp. unfold reply_u32. apply wp_bind.
  wp_use (apply (wp_put_mem T h); [done|done|lia|rewrite length_be_bytes; lia]). intros [] s1 H1.
  apply wp_resize; [done|done|vm_compute; split; discriminate].
Qed.

(** The packet is still ours after [break] and gone after [return]. *)
Lemma wp_service_switch T h s p port : Inv T (p :: h) s -> (port = CSP_PS -> wp (csp_ps_hook p) (fun n _ => n <> 0) s) ->
  wp (service_switch p port) (fun (b : bool) s' => routed T (if b then p :: h else h) s') s.
Proof.
  intros HI Hps. assert (Hp : p ∈ p :: h) by left.
  assert (Hfree : forall T1 s1, Inv T1 (p :: h) s1 -> routes_only T T1 ->
    wp (csp_buffer_free (Some p) ;; mret false) (fun (b : bool) s' => routed T (if b then p :: h else h) s') s1).
  { intros T1 s1 H1 Hr. apply wp_bind. wp_use (by apply (wp_free T1 h)). intros [] s2 H2. apply wp_ret. by exists T1. }
  assert (Hreply : forall s1 v, Inv T (p :: h) s1 ->
    wp (reply_u32 p v ;; mret true) (fun (b : bool) s' => routed T (if b then p :: h else h) s') s1).
  { intros s1 v H1. apply wp_bind. wp_use (by apply (wp_reply_u32 T (p :: h))). intros [] s2 H2. apply wp_ret. auto. }
  unfold service_switch. destruct (port =? CSP_CMP).
  { apply wp_bind. wp_use (by apply (wp_cmp_handler T (p :: h))). intros r s1 (T1 & H1 & Hr).
    destruct (negb _); [by apply (Hfree T1)|]. apply wp_ret. by exists T1. }
  destruct (port =? CSP_PING); [apply wp_ret; auto|]. destruct (Z.eqb_spec port CSP_PS) as [Es|_].
  { apply wp_bind. specialize (Hps Es). apply wp_run in Hps as (n & s1 & En & Hnz).
    pose proof (law_ps T (p :: h) s p HI Hp) as Hl. unfold wp in Hl |- *. rewrite En in Hl |- *. destruct Hl as [H1 Hn]. unfold CSP_BUFFER_SIZE in *.
    assert (E : u16 n = n) by (unfold u16; apply Z.mod_small; lia). rewrite !E.
    change (wp (mod_pkt p (set_pkt_length n) ;; when (n =? 0) (csp_buffer_free (Some p)) ;; mret true) (fun (b : bool) s' => routed T (if b then p :: h else h) s') s1).
    apply wp_bind. wp_use (apply (wp_resize T (p :: h)); [done|done|unfold CSP_BUFFER_SIZE; lia]). intros [] s2 H2.
    rewrite (proj2 (Z.eqb_neq n 0)) by lia. apply wp_bind, wp_ret, wp_ret. auto. }
  destruct (port =? CSP_MEMFREE); [apply wp_bind; wp_use (by apply (law_memfree T (p :: h))); intros v s1 H1; by apply Hreply|].
  destruct (port =? CSP_REBOOT).
  { apply wp_bind. fetch. intros w _. apply wp_bind. apply (wp_conseq _ (fun _ s' => Inv T (p :: h) s')).
    - destruct (w =? _); [by apply law_reboot|]. apply wp_when; intros _; [by apply law_shutdown|done].
    - intros [] s1 H1. by apply (Hfree T); [|apply routes_only_refl]. }
  destruct (port =? CSP_BUF_FREE); [apply wp_bind, wp_gets; by apply Hreply|].
  destruct (port =? CSP_UPTIME); [apply wp_bind; wp_use (by apply (law_get_s T (p :: h))); intros v s1 H1; by apply Hreply|].
  by apply (Hfree T); [|apply routes_only_refl].
Qed.

Lemma wp_service_handler T h s p : Inv T (p :: h) s ->
  (forall k, pkt_at p s = Some k -> dport (pkt_id k) = CSP_PS -> wp (csp_ps_hook p) (fun n _ => n <> 0) s) ->
  wp (csp_service_handler p) (fun _ s' => routed T h s') s.
Proof.
  intros HI Hps. unfold csp_service_handler. apply wp_bind. eapply wp_get_pkt; [done|left; left|]. intros k Hk Hok.
  apply wp_bind. wp_use (apply (wp_service_switch T h); [done|by apply Hps]). intros [|] s1 (T1 & H1 & Hr); simpl.
  - eapply wp_mono; [|apply (wp_sendto_reply T1 h); [done|left]]. cbv beta. intros [] s2 H2. by exists T1.
  - apply wp_ret. by exists T1.
Qed.

End HandlerSafe.

(** ** A node that offers the services

    [P] with the service handler under callback tag [tag]. *)
Definition with_services (P : Platform) (HK : Hooks) (tag : nat) : Platform := {|
  plat_ms := plat_ms;
  plat_rand := plat_rand;
  plat_yield := plat_yield;
  plat_nexthop := plat_nexthop;
  plat_callback k := if Nat.eqb k tag then csp_service_handler else plat_callback k;
  plat_overflow := plat_overflow;
  CSP_USE_RTABLE := CSP_USE_RTABLE
|}.

(** The handler is a lawful callback, so every theorem on the node under
    [OwnLaws] holds for a node with the services and a process list. *)
#[export] Instance with_services_laws P HK tag : @OwnLaws P -> @HookLaws HK -> @PsLaws HK -> @OwnLaws (with_services P HK tag).
Proof.
  intros L HL HP. split.
  - apply (law_nexthop (H := P)).
  - intros T h s k p HI. simpl. destruct (Nat.eqb k tag); [|by apply (law_callback (H := P) T)].
    eapply wp_mono; [|apply (wp_service_handler (H := P) T h); [done|intros; by apply law_ps_some]]. cbv beta. intros [] s' (T' & H1 & Hr). exists T'. split; [done|by apply routes_stable].
  - apply (law_yield (H := P)).
Qed.
