(* ===== verification/ServiceReply.v ===== *)
(** * ServiceReply: what the services answer

    The safety of the handler on every request; the replies of the services and
    of the management protocol, field by field; the client calls of
    [csp_services.c]; and what goes wrong when the process list is empty. *)

From S2P Require Import Prelude State Monad Id Buffer Iflist Rtable Qfifo Io RdpQueue Rdp Conn RdpProto Api Route.
From S2P Require Import Own OwnIo OwnRdp OwnRoute OwnApi RdpSpec RdpState OwnConf OwnClient Node Pbuf Service ServiceSpec.

(** ** Fields of a message *)

(** The [n] bytes at [off] of the packet's data. *)
Definition field (k : csp_packet) (off n : Z) : option (list Z) :=
  mem_read (pkt_mem k) (CSP_PACKET_PADDING_BYTES + off) n.

(** The string in a field. *)
Definition str_field (k : csp_packet) (off n : Z) : option (list Z) := c_str <$> field k off n.

(** The integer in a field, as the other node decodes it. *)
Definition be_field (k : csp_packet) (off n : Z) : option Z := be_val <$> field k off n.

(** Packet [k'] is [k] with the bytes [bs] at [off]. *)
Record patched (k : csp_packet) (off : Z) (bs : list Z) (k' : csp_packet) : Prop := {
  patch_rest : k' = set_pkt_mem (pkt_mem k') k;
  patch_size : zlen (pkt_mem k') = zlen (pkt_mem k);
  patch_at : field k' off (zlen bs) = Some bs;
  patch_else : forall o n, -8 <= o -> 0 <= n -> o + n <= off \/ off + zlen bs <= o -> field k' o n = field k o n
}.

Definition full_size (k : csp_packet) : Prop := zlen (pkt_mem k) = CSP_PACKET_PADDING_BYTES + CSP_BUFFER_SIZE.

Lemma write_patch p k s off bs : pkt_at p s = Some k -> full_size k -> -8 <= off -> off + zlen bs <= 256 ->
  exists k', write_mem p off bs s = Ret tt (put_pkt p k' s) /\ patched k off bs k' /\ full_size k'.
Proof.
  intros Hk Hs Ho Hl. unfold full_size, CSP_PACKET_PADDING_BYTES, CSP_BUFFER_SIZE in *.
  destruct (mem_write_ok (pkt_mem k) (8 + off) bs) as [m Hw]; [lia..|].
  exists (set_pkt_mem m k). split; [by apply (write_mem_at _ _ _ _ _ _ Hk)|].
  assert (Hm : zlen m = zlen (pkt_mem k)) by (by rewrite (mem_write_length _ _ _ _ Hw)). split; [|by rewrite <- Hs].
  split; [by destruct k|done| |].
  - unfold field. simpl. by eapply mem_read_write.
  - intros o n Ho' Hn [Hd|Hd]; unfold field, CSP_PACKET_PADDING_BYTES; simpl.
    + apply (mem_read_write_before _ _ _ _ _ _ Hw); lia.
    + apply (mem_read_write_after _ _ _ _ _ _ Hw); lia.
Qed.

(** ** Strings *)

(** [strncpy] and the zero behind it: the string, cut to the field. *)
Lemma strncpy_cut src n : 0 < n ->
  exists l, strncpy src n = take (Z.to_nat n - 1) (strncpy src n) ++ l /\ length l = 1%nat /\
    c_str (take (Z.to_nat n - 1) (strncpy src n) ++ [0]) = take (Z.to_nat n - 1) (c_str src).
Proof.
  intros Hn. exists (drop (Z.to_nat n - 1) (strncpy src n)). pose proof (length_strncpy src n ltac:(lia)) as Hl.
  split; [by rewrite take_drop|]. split; [rewrite length_drop; lia|]. unfold strncpy. set (c := c_str src).
  assert (Hc : Forall (fun b => b <> 0) c) by apply c_str_nonzero. clearbody c. set (N := Z.to_nat n). assert (0 < N)%nat by lia.
  rewrite length_take. destruct (decide (length c <= N - 1)%nat) as [Hle|Hgt].
  - rewrite (take_ge c N) by lia. rewrite (take_ge c (N - 1)) by lia.
    rewrite take_app_ge by lia. rewrite take_replicate, <- app_assoc.
    destruct (_ `min` _)%nat; simpl; by apply c_str_app_zero.
  - rewrite take_app_le by (rewrite length_take; lia). rewrite take_take, Nat.min_l by lia.
    apply c_str_app_zero. by apply Forall_take.
Qed.

Lemma field_app k off n1 n2 a b : field k off n1 = Some a -> field k (off + n1) n2 = Some b ->
  field k off (n1 + n2) = Some (a ++ b).
Proof. unfold field. intros Ha Hb. rewrite Z.add_assoc in Hb. by apply mem_read_app. Qed.

Lemma field_slice k off n data a c : field k off n = Some data -> 0 <= a -> 0 <= c -> a + c <= n ->
  field k (off + a) c = Some (take (Z.to_nat c) (drop (Z.to_nat a) data)).
Proof. unfold field. intros Hf Ha Hc Hn. rewrite Z.add_assoc. by apply (mem_read_slice _ _ n). Qed.

(** Packet [k'] is [k] with the string [src], cut to the field, at [off]. *)
Definition titled (k : csp_packet) (off n : Z) (src : list Z) (k' : csp_packet) : Prop :=
  exists bs, zlen bs = n /\ c_str bs = take (Z.to_nat n - 1) (c_str src) /\ patched k off bs k'.

Lemma set_str_run p k s off src n : pkt_at p s = Some k -> full_size k -> 0 <= off -> 0 < n -> off + n <= 256 ->
  exists k', cmp_set_str p off src n s = Ret tt (put_pkt p k' s) /\ titled k off n src k' /\ full_size k'.
Proof.
  intros Hk Hs Ho Hn Hl. pose proof (length_strncpy src n ltac:(lia)) as Hlen.
  destruct (strncpy_cut src n Hn) as (x & Ex & Hx & Hc). set (a := take (Z.to_nat n - 1) (strncpy src n)) in *.
  assert (Ha : zlen a = n - 1) by (unfold a; rewrite length_take; lia).
  destruct (write_patch p k s off (strncpy src n)) as (k1 & Hr1 & [P1 Z1 A1 E1] & S1); [done|done|lia|lia|].
  destruct (write_patch p k1 (put_pkt p k1 s) (off + n - 1) [0]) as (k2 & Hr2 & [P2 Z2 A2 E2] & S2);
    [by eapply pkt_at_put|done|lia|simpl; lia|].
  exists k2. split; [|split; [|done]].
  { unfold cmp_set_str. rewrite (bind_ret _ _ _ _ _ Hr1), Hr2. by rewrite put_pkt_put. }
  exists (a ++ [0]). split; [rewrite length_app; simpl; lia|]. split; [done|]. split.
  - rewrite P2, P1. simpl. by destruct k.
  - lia.
  - rewrite length_app, Nat2Z.inj_add, Ha. simpl. apply field_app.
    + rewrite E2 by lia. rewrite Hlen in A1. pose proof (field_slice k1 off n _ 0 (n - 1) A1) as F.
      rewrite Z.add_0_r in F. rewrite F by lia. f_equal. unfold a. simpl. f_equal. lia.
    + replace (off + (n - 1)) with (off + n - 1) by lia. exact A2.
  - intros o m Ho' Hm Hd. rewrite length_app, Nat2Z.inj_add, Ha in Hd. simpl in Hd.
    rewrite E2 by (simpl; lia). apply E1; lia.
Qed.

Lemma titled_at k off n src k' : titled k off n src k' -> str_field k' off n = Some (take (Z.to_nat n - 1) (c_str src)).
Proof. intros (bs & Hl & Hc & HP). unfold str_field. rewrite <- Hl, (patch_at _ _ _ _ HP). simpl. by rewrite Hc, Hl. Qed.

Lemma titled_else k off n src k' o m : titled k off n src k' -> 0 <= o -> 0 <= m -> o + m <= off \/ off + n <= o ->
  field k' o m = field k o m.
Proof. intros (bs & Hl & _ & HP) Ho Hm Hd. apply (patch_else _ _ _ _ HP); lia. Qed.

Lemma titled_rest k off n src k' : titled k off n src k' -> pkt_id k' = pkt_id k.
Proof. intros (bs & _ & _ & HP). rewrite (patch_rest _ _ _ _ HP). done. Qed.

Lemma read_be_run p k s off n v : pkt_at p s = Some k -> be_field k off n = Some v -> 0 <= v < 256 ^ n ->
  read_be p off n s = Ret v s.
Proof.
  intros Hk Hf Hv. unfold be_field, field in Hf. destruct (mem_read _ _ n) as [bs|] eqn:E; [|done]. injection Hf as <-.
  unfold read_be. rewrite (bind_ret _ _ _ _ _ (read_mem_at _ _ _ _ _ _ Hk E)). unfold mret, M_ret. f_equal.
  by apply Z.mod_small.
Qed.

(** The first two bytes of a message. *)
Definition headed (k : csp_packet) (type code : Z) : Prop :=
  field k CMP_TYPE 1 = Some [type] /\ field k CMP_CODE 1 = Some [code].

Section Replies.
Context `{Platform} `{Hooks}.

(** Offsets and sizes as numbers. *)
Ltac offs := unfold CMP_TYPE, CMP_CODE, CMP_TIME, CMP_DATE, CMP_REVISION, CMP_MODEL, CMP_HOSTNAME, CMP_TX, CMP_INTERFACE,
  CMP_TV_SEC, CMP_TV_NSEC, CSP_CMP_ROUTE_IFACE_LEN,
  CSP_CMP_IDENT_TIME_LEN, CSP_CMP_IDENT_DATE_LEN, CSP_CMP_IDENT_REV_LEN, CSP_MODEL_LEN, CSP_HOSTNAME_LEN; simpl; lia.

(** A request: the handler's switch runs on it, and its answer becomes the
    reply. *)
Lemma cmp_handler_run p k s code ret k' s' : pkt_at p s = Some k -> headed k CSP_CMP_REQUEST code -> is_byte code ->
  cmp_switch p code s = Ret ret s' -> pkt_at p s' = Some k' -> full_size k' ->
  exists k'', csp_cmp_handler p s = Ret ret (put_pkt p k'' s') /\ patched k' CMP_TYPE [CSP_CMP_REPLY] k''.
Proof.
  intros Hk [Ht Hc] Hb Hr Hk' Hs. destruct (write_patch p k' s' CMP_TYPE [CSP_CMP_REPLY]) as (k'' & Hw & HP & _); [done|done|offs..|].
  exists k''. split; [|done]. unfold csp_cmp_handler.
  rewrite (bind_ret _ _ _ CSP_CMP_REQUEST s) by (apply (read_be_run _ k); [done|unfold be_field; by rewrite Ht|vm_compute; split; congruence]).
  change (negb (CSP_CMP_REQUEST =? CSP_CMP_REQUEST)) with false. cbv iota.
  rewrite (bind_ret _ _ _ code s).
  2: { apply (read_be_run _ k); [done|unfold be_field; rewrite Hc|]; unfold is_byte in Hb.
       - simpl. unfold be_val. simpl. f_equal. lia.
       - lia. }
  rewrite (bind_ret _ _ _ _ _ Hr). by rewrite (bind_ret _ _ _ _ _ Hw).
Qed.

(** The same for the requests whose reply has a fixed size. *)
Lemma cmp_sized_run p k s code m n ret k1 : pkt_at p s = Some k -> headed k CSP_CMP_REQUEST code -> is_byte code ->
  cmp_switch p code = cmp_sized p m n -> m s = Ret ret (put_pkt p k1 s) -> full_size k1 ->
  field k1 CMP_CODE 1 = field k CMP_CODE 1 ->
  exists k', csp_cmp_handler p s = Ret ret (put_pkt p k' s) /\ pkt_length k' = n /\ pkt_id k' = pkt_id k1 /\
    headed k' CSP_CMP_REPLY code /\ forall o c, 0 <= c -> 1 <= o -> field k' o c = field k1 o c.
Proof.
  intros Hk Hh Hb Hm R1 S1 C1. set (k2 := set_pkt_length n k1).
  destruct (cmp_handler_run p k s code ret k2 (put_pkt p k2 s) Hk Hh Hb) as (k3 & R & HP); [|by eapply pkt_at_put|exact S1|].
  { rewrite Hm. unfold cmp_sized.
    rewrite (bind_ret _ _ _ _ _ R1). erewrite bind_ret by (apply mod_pkt_at; by eapply pkt_at_put). by rewrite put_pkt_put. }
  rewrite put_pkt_put in R. exists k3. split; [done|].
  assert (F : forall o c, 0 <= c -> 1 <= o -> field k3 o c = field k1 o c).
  { intros o c Hc Ho. apply (patch_else _ _ _ _ HP); [lia|lia|]. right. offs. }
  split; [by rewrite (patch_rest _ _ _ _ HP)|]. split; [by rewrite (patch_rest _ _ _ _ HP)|].
  split; [|done]. split; [exact (patch_at _ _ _ _ HP)|]. rewrite F by offs. rewrite C1. apply Hh.
Qed.

(** To an identification request [csp_cmp_handler] answers with the node's
    host name, model and revision and the build date and time, each cut to its
    field and terminated, in a reply of the size of the message, addressed as
    the request was; nothing but the packet changes. *)
Theorem cmp_ident_reply p k s : pkt_at p s = Some k -> full_size k -> headed k CSP_CMP_REQUEST CSP_CMP_IDENT ->
  exists k', csp_cmp_handler p s = Ret CSP_ERR_NONE (put_pkt p k' s) /\
    pkt_length k' = CMP_SIZE_ident /\ pkt_id k' = pkt_id k /\ headed k' CSP_CMP_REPLY CSP_CMP_IDENT /\
    str_field k' CMP_HOSTNAME CSP_HOSTNAME_LEN = Some (take 19 (c_str (hostname (conf s)))) /\
    str_field k' CMP_MODEL CSP_MODEL_LEN = Some (take 29 (c_str (model (conf s)))) /\
    str_field k' CMP_REVISION CSP_CMP_IDENT_REV_LEN = Some (take 19 (c_str (revision (conf s)))) /\
    str_field k' CMP_DATE CSP_CMP_IDENT_DATE_LEN = Some (take 11 (c_str build_date)) /\
    str_field k' CMP_TIME CSP_CMP_IDENT_TIME_LEN = Some (take 8 (c_str build_time)).
Proof.
  intros Hk Hs Hh.
  destruct (set_str_run p k s CMP_REVISION (revision (conf s)) CSP_CMP_IDENT_REV_LEN) as (k1 & R1 & T1 & S1); [done|done|offs..|].
  pose proof (pkt_at_put p k1 k s Hk) as K1.
  destruct (set_str_run p k1 _ CMP_DATE build_date CSP_CMP_IDENT_DATE_LEN K1 S1) as (k2 & R2 & T2 & S2); [offs..|].
  rewrite put_pkt_put in R2. pose proof (pkt_at_put p k2 k s Hk) as K2.
  destruct (set_str_run p k2 _ CMP_TIME build_time CSP_CMP_IDENT_TIME_LEN K2 S2) as (k3 & R3 & T3 & S3); [offs..|].
  rewrite put_pkt_put in R3. pose proof (pkt_at_put p k3 k s Hk) as K3.
  destruct (set_str_run p k3 _ CMP_HOSTNAME (hostname (conf s)) CSP_HOSTNAME_LEN K3 S3) as (k4 & R4 & T4 & S4); [offs..|].
  rewrite put_pkt_put in R4. pose proof (pkt_at_put p k4 k s Hk) as K4.
  destruct (set_str_run p k4 _ CMP_MODEL (model (conf s)) CSP_MODEL_LEN K4 S4) as (k5 & R5 & T5 & S5); [offs..|].
  rewrite put_pkt_put in R5. pose proof (pkt_at_put p k5 k s Hk) as K5.
  destruct (cmp_sized_run p k s CSP_CMP_IDENT (do_cmp_ident p) CMP_SIZE_ident CSP_ERR_NONE k5 Hk Hh) as (k6 & R & HL & HI & HH & F);
    [vm_compute; split; congruence|reflexivity| |exact S5| |].
  { unfold do_cmp_ident. rewrite (bind_ret _ _ _ s s) by done. unfold id.
    rewrite (bind_ret _ _ _ _ _ R1), (bind_ret _ _ _ _ _ R2), (bind_ret _ _ _ _ _ R3), (bind_ret _ _ _ _ _ R4).
    by rewrite (bind_ret _ _ _ _ _ R5). }
  { by rewrite (titled_else _ _ _ _ _ _ _ T5), (titled_else _ _ _ _ _ _ _ T4), (titled_else _ _ _ _ _ _ _ T3),
      (titled_else _ _ _ _ _ _ _ T2), (titled_else _ _ _ _ _ _ _ T1) by offs. }
  exists k6. split; [done|]. split; [done|]. split.
  { by rewrite HI, (titled_rest _ _ _ _ _ T5), (titled_rest _ _ _ _ _ T4), (titled_rest _ _ _ _ _ T3),
      (titled_rest _ _ _ _ _ T2), (titled_rest _ _ _ _ _ T1). }
  split; [done|].
  unfold str_field. rewrite !F by offs.
  split_and!.
  - rewrite (titled_else _ _ _ _ _ _ _ T5) by offs. exact (titled_at _ _ _ _ _ T4).
  - exact (titled_at _ _ _ _ _ T5).
  - rewrite (titled_else _ _ _ _ _ _ _ T5), (titled_else _ _ _ _ _ _ _ T4), (titled_else _ _ _ _ _ _ _ T3),
      (titled_else _ _ _ _ _ _ _ T2) by offs. exact (titled_at _ _ _ _ _ T1).
  - rewrite (titled_else _ _ _ _ _ _ _ T5), (titled_else _ _ _ _ _ _ _ T4), (titled_else _ _ _ _ _ _ _ T3) by offs.
    exact (titled_at _ _ _ _ _ T2).
  - rewrite (titled_else _ _ _ _ _ _ _ T5), (titled_else _ _ _ _ _ _ _ T4) by offs. exact (titled_at _ _ _ _ _ T3).
Qed.

(** The [j]-th integer of a run of big-endian ones. *)
Lemma be_run_nth (vs : list Z) j v : vs !! j = Some v ->
  take 4 (drop (4 * j) (flat_map (be_bytes 4) vs)) = be_bytes 4 v.
Proof.
  revert j. induction vs as [|w vs IH]; intros j Hj; [done|]. cbn [flat_map]. destruct j as [|j].
  - injection Hj as ->. change (4 * 0)%nat with 0%nat. rewrite drop_0. rewrite <- (length_be_bytes 4 v) at 1. apply take_app_length.
  - replace (4 * S j)%nat with (length (be_bytes 4 w) + 4 * j)%nat by (rewrite length_be_bytes; lia).
    rewrite drop_app_add. by apply IH.
Qed.

(** To a statistics request [csp_cmp_handler] answers with the counters of
    the listed interface of that name, which the other node decodes modulo
    [2 ^ 32]; a name that no listed interface has is an error.  Nothing but
    the packet changes. *)
Theorem cmp_if_stats_reply p k s l name : pkt_at p s = Some k -> full_size k -> headed k CSP_CMP_REQUEST CSP_CMP_IF_STATS ->
  iflist s l -> named (ifs s) l -> str_field k CMP_INTERFACE CSP_CMP_ROUTE_IFACE_LEN = Some name ->
  exists k' ret, csp_cmp_handler p s = Ret ret (put_pkt p k' s) /\ pkt_length k' = CMP_SIZE_if_stats /\
    pkt_id k' = pkt_id k /\ headed k' CSP_CMP_REPLY CSP_CMP_IF_STATS /\
    match find (passes (ifs s) (fun _ => name_is name)) l with
    | None => ret = CSP_ERR_INVAL
    | Some i => ret = CSP_ERR_NONE /\ exists x, ifs s !! i = Some x /\
        forall j c, if_counters x !! j = Some c -> be_field k' (CMP_TX + 4 * Z.of_nat j) 4 = Some (u32 c)
    end.
Proof.
  intros Hk Hs Hh Hl Hn Hname. unfold str_field in Hname.
  destruct (field k CMP_INTERFACE _) as [nb|] eqn:Enb; [|done]. injection Hname as <-.
  assert (Hget : cmp_get_iface p CMP_INTERFACE s = Ret (find (passes (ifs s) (fun _ => name_is (c_str nb))) l) s).
  { unfold cmp_get_iface. rewrite (bind_ret _ _ _ _ _ (read_mem_at _ _ _ _ _ _ Hk Enb)). by apply get_by_name_find. }
  pose proof (cmp_sized_run p k s CSP_CMP_IF_STATS (do_cmp_if_stats p) CMP_SIZE_if_stats) as Hdone.
  destruct (find _ l) as [i|] eqn:Ef.
  - assert (Hx : exists x, ifs s !! i = Some x).
    { apply find_some in Ef as [Ei%list_elem_of_In _]. destruct (chain_lookup _ _ _ _ Hl Ei) as [x Hx]. by exists x. }
    destruct Hx as [x Hx]. set (bs := flat_map (be_bytes 4) (if_counters x)).
    assert (Hlen : zlen bs = 40) by (unfold bs, if_counters; cbn [flat_map]; by rewrite !length_app, !length_be_bytes).
    destruct (write_patch p k s CMP_TX bs) as (k1 & R1 & P1 & S1); [done|done|offs|unfold CMP_TX; lia|].
    destruct (Hdone CSP_ERR_NONE k1 Hk Hh) as (k' & R & HL & HId & HH & F).
    + vm_compute. split; congruence.
    + reflexivity.
    + unfold do_cmp_if_stats. rewrite (bind_ret _ _ _ _ _ Hget). erewrite bind_ret by (by apply get_iface_at).
      by rewrite (bind_ret _ _ _ _ _ R1).
    + done.
    + apply (patch_else _ _ _ _ P1); [offs|lia|left; offs].
    + exists k', CSP_ERR_NONE. rewrite HId, (patch_rest _ _ _ _ P1). split_and!; try done. exists x. split; [done|]. intros j c Hj.
      assert (Hj' : (j < 10)%nat) by (apply lookup_lt_Some in Hj; exact Hj).
      unfold be_field. rewrite F by offs. pose proof (patch_at _ _ _ _ P1) as PA. rewrite Hlen in PA.
      rewrite (field_slice k1 CMP_TX 40 bs) by (done || lia).
      replace (Z.to_nat (4 * Z.of_nat j)) with (4 * j)%nat by lia. change (Z.to_nat 4) with 4%nat.
      unfold bs. rewrite (be_run_nth _ _ _ Hj). cbn [fmap option_fmap option_map]. by rewrite be_val_bytes.
  - destruct (Hdone CSP_ERR_INVAL k Hk Hh) as (k' & R & HL & HId & HH & F); [vm_compute; split; congruence|reflexivity| |done..|].
    + unfold do_cmp_if_stats. rewrite (bind_ret _ _ _ _ _ Hget). by rewrite (put_pkt_same _ _ _ Hk).
    + by exists k', CSP_ERR_INVAL.
Qed.

(** ** Answers *)

(** The identifier of the answer: source and destination exchanged, and the
    ports; a broadcast is answered from address 0, which the output path
    replaces by the interface's. *)
Definition answer_id (s : node) (i : csp_id) : csp_id :=
  mkId (pri i) (flags i) (if dst i =? csp_id_get_max_nodeid s then 0 else dst i) (src i) (sport i) (dport i).

(** Packet [p], with content [k] and addressed as the answer to the request of
    that identifier, enters the output path. *)
Definition send_answer (p : nat) (k : csp_packet) : M unit := fun s =>
  (_ ← csp_send_direct (answer_id s (pkt_id k)) p None; mret tt) (put_pkt p (set_pkt_id (answer_id s (pkt_id k)) k) s).

Lemma sendto_reply_run p k s : pkt_at p s = Some k -> csp_sendto_reply (Some p) p CSP_O_SAME s = send_answer p k s.
Proof.
  intros Hk. unfold csp_sendto_reply, send_answer.
  rewrite (bind_ret _ _ _ _ _ (get_pkt_at _ _ _ Hk)). change (CSP_O_SAME &.& CSP_O_SAME) with true. cbn [when].
  rewrite (bind_ret _ _ _ _ _ (mod_pkt_at _ _ _ _ Hk)).
  replace (set_pkt_id (set_flags (flags (pkt_id k)) (pkt_id k)) k) with k
    by (replace (set_flags _ _) with (pkt_id k) by (by destruct (pkt_id k)); by destruct k).
  rewrite (put_pkt_same _ _ _ Hk), (bind_ret _ _ _ _ _ (get_pkt_at _ _ _ Hk)). rewrite (bind_ret _ _ _ s s) by done. unfold id.
  rewrite (bind_ret _ _ _ _ _ (mod_pkt_at _ _ _ _ Hk)). set (k1 := set_pkt_id _ k).
  pose proof (pkt_at_put p k1 k s Hk) as K1. rewrite (bind_ret _ _ _ _ _ (get_pkt_at _ _ _ K1)).
  unfold csp_sendto. change (CSP_O_SAME &.& CSP_O_SAME) with true. change (CSP_O_SAME &.& CSP_O_RDP) with false.
  change (CSP_O_SAME &.& CSP_O_HMAC) with false. change (CSP_O_SAME &.& CSP_O_CRC32) with false. cbn [when negb].
  do 3 (rewrite (bind_ret _ _ _ tt (put_pkt p k1 s)) by done).
  rewrite (bind_ret _ _ _ _ _ (mod_pkt_at _ _ _ _ K1)), put_pkt_put. set (k2 := set_pkt_id _ k1).
  pose proof (pkt_at_put p k2 k s Hk) as K2. rewrite (bind_ret _ _ _ _ _ (get_pkt_at _ _ _ K2)). reflexivity.
Qed.

(** The services that answer with one number. *)
Definition value_service (port : Z) : option (M Z) :=
  if port =? CSP_MEMFREE then Some csp_memfree_hook
  else if port =? CSP_BUF_FREE then Some csp_buffer_remaining
  else if port =? CSP_UPTIME then Some csp_get_s
  else None.

(** The replies: a ping is sent back with its data as it came; a request
    for free memory, free buffers or uptime is answered with the number, in
    four bytes that the client decodes modulo [2 ^ 32]; each answer goes to the
    node and port the request came from. *)
Theorem service_answers p k s : pkt_at p s = Some k -> full_size k ->
  (dport (pkt_id k) = CSP_PING -> csp_service_handler p s = send_answer p k s) /\
  (forall m v s1, value_service (dport (pkt_id k)) = Some m -> m s = Ret v s1 -> pkt_at p s1 = Some k ->
    exists k', csp_service_handler p s = send_answer p k' s1 /\ pkt_id k' = pkt_id k /\
      pkt_length k' = 4 /\ be_field k' 0 4 = Some (u32 v)).
Proof.
  intros Hk Hs. unfold csp_service_handler. split.
  - intros Hp. rewrite (bind_ret _ _ _ _ _ (get_pkt_at _ _ _ Hk)), Hp. unfold service_switch.
    change (CSP_PING =? CSP_CMP) with false. change (CSP_PING =? CSP_PING) with true. cbv iota.
    rewrite (bind_ret _ _ _ true s) by done. by apply sendto_reply_run.
  - intros m v s1 Hv Hm Hk1. destruct (write_patch p k s1 0 (be_bytes 4 v)) as (k1 & R1 & P1 & S1);
      [done|done|lia|rewrite length_be_bytes; lia|].
    set (k2 := set_pkt_length 4 k1). pose proof (pkt_at_put p k1 k s1 Hk1) as K1.
    assert (Hr : reply_u32 p v s1 = Ret tt (put_pkt p k2 s1)).
    { unfold reply_u32. rewrite (bind_ret _ _ _ _ _ R1), (mod_pkt_at _ _ _ _ K1). by rewrite put_pkt_put. }
    exists k2. split_and!.
    + rewrite (bind_ret _ _ _ _ _ (get_pkt_at _ _ _ Hk)). revert Hv. unfold value_service, service_switch.
      generalize (dport (pkt_id k)). intros port Hv.
      assert (Hsw : (m ≫= fun v => reply_u32 p v ;; mret true) s = Ret true (put_pkt p k2 s1)).
      { rewrite (bind_ret _ _ _ _ _ Hm). by rewrite (bind_ret _ _ _ _ _ Hr). }
      assert (Hgo : forall sw, sw s = Ret true (put_pkt p k2 s1) ->
        (sw ≫= fun reply : bool => when reply (csp_sendto_reply (Some p) p CSP_O_SAME)) s = send_answer p k2 s1).
      { intros sw Hsw'. rewrite (bind_ret _ _ _ _ _ Hsw'). cbn [when].
        rewrite (sendto_reply_run p k2) by (by eapply pkt_at_put). unfold send_answer. by rewrite put_pkt_put. }
      destruct (port =? CSP_MEMFREE) eqn:E1; [|destruct (port =? CSP_BUF_FREE) eqn:E2; [|destruct (port =? CSP_UPTIME) eqn:E3; [|done]]];
        injection Hv as <-; match goal with E : (port =? _) = true |- _ => apply Z.eqb_eq in E; subst port end;
        apply Hgo; exact Hsw.
    + unfold k2. simpl. by rewrite (patch_rest _ _ _ _ P1).
    + done.
    + unfold be_field. change (field k2) with (field k1). pose proof (patch_at _ _ _ _ P1) as PA.
      rewrite length_be_bytes in PA. change (Z.of_nat 4) with 4 in PA. rewrite PA. cbn [fmap option_fmap option_map].
      by rewrite be_val_bytes.
Qed.

(** When the process list is empty, as it always is in the POSIX port, the
    handler returns the packet to the pool and then sends it: the buffer enters
    the output path while it is on the free list. *)
Theorem service_ps_sends_freed T h s s0 p k : pkt_at p s = Some k -> dport (pkt_id k) = CSP_PS ->
  csp_ps_hook p s = Ret 0 s0 -> Inv T (p :: h) s0 ->
  exists s1 k1, csp_service_handler p s = send_answer p k1 s1 /\ Inv T h s1 /\ p ∈ q_items (csp_buffers s1).
Proof.
  intros Hk Hp Hz HI. destruct (live_pkt s0 p) as (k0 & Hk0 & [Hm _]); [by eapply Inv_live_h; [|left]|].
  set (k1 := set_pkt_length 0 k0). set (s0' := put_pkt p k1 s0).
  pose proof (mod_pkt_at p (set_pkt_length (u16 0)) k0 s0 Hk0) as Hset.
  assert (HI0 : Inv T (p :: h) s0').
  { apply Inv_put_pkt; [done|left|]. split; [exact Hm|vm_compute; split; discriminate]. }
  assert (Hf : wp (csp_buffer_free (Some p)) (fun _ s' => (Inv T h s' /\ refs s' = refs s0') /\ pkt_at p s' = pkt_at p s0') s0').
  { apply (wp_keeps (pkt_at p)); [apply keeps_free_pkts|]. apply (wp_keeps refs); [by apply keeps_buffer_free|]. by apply wp_free. }
  apply wp_run in Hf as ([] & s1 & Hfree & (H1 & Hrefs) & Hk1). unfold s0' in Hk1. rewrite (pkt_at_put _ _ _ _ Hk0) in Hk1.
  exists s1, k1. split; [|split; [done|]].
  - unfold csp_service_handler. rewrite (bind_ret _ _ _ _ _ (get_pkt_at _ _ _ Hk)), Hp. unfold service_switch.
    change (CSP_PS =? CSP_CMP) with false. change (CSP_PS =? CSP_PING) with false. change (CSP_PS =? CSP_PS) with true. cbv iota.
    rewrite (bind_ret _ _ _ true s1); [by apply sendto_reply_run|].
    rewrite (bind_ret _ _ _ _ _ Hz), (bind_ret _ _ _ _ _ Hset). change (u16 0 =? 0) with true. cbn [when].
    by rewrite (bind_ret _ _ _ _ _ Hfree).
  - assert (Hlt : (p < CSP_BUFFER_COUNT)%nat) by (eapply own_range; [exact HI0|left; left]).
    pose proof (inv_own _ _ _ H1 p Hlt) as Ho. pose proof (own_le _ _ _ p HI0) as Hle. rewrite cnt_cons in Hle.
    destruct (Nat.eq_dec p p); [|done]. rewrite Hrefs in Ho. apply cnt_pos. lia.
Qed.

End Replies.

(** C16. Whatever a request to any port contains, of whatever length, on a node
    whose drivers and hooks keep their laws (peek and poke only reach memory
    outside the stack): [csp_service_handler] returns without undefined
    behaviour, has passed the packet on or freed it, keeps every other buffer
    accounted for, and changes no part of the node's configuration but the
    routing table, which stays well formed.  The one exception is a request for
    the process list that [csp_ps_hook] answers with nothing, as that of the
    POSIX port does: then the packet is on the free list when it is sent. *)
Theorem service_handler_safe `{L : OwnLaws} `{HL : HookLaws} T h s p k : Inv T (p :: h) s -> pkt_at p s = Some k ->
  (exists s' T', csp_service_handler p s = Ret tt s' /\ Inv T' h s' /\ routes_only T T') \/
  (dport (pkt_id k) = CSP_PS /\ exists s0 s1 k1, csp_ps_hook p s = Ret 0 s0 /\
     csp_service_handler p s = send_answer p k1 s1 /\ Inv T h s1 /\ p ∈ q_items (csp_buffers s1)).
Proof.
  intros HI Hk. assert (Hps : dport (pkt_id k) <> CSP_PS \/ (exists s0, csp_ps_hook p s = Ret 0 s0 /\ Inv T (p :: h) s0) \/
    wp (csp_ps_hook p) (fun n _ => n <> 0) s).
  { pose proof (law_ps T (p :: h) s p HI ltac:(left)) as Hl. apply wp_run in Hl as (n & s0 & En & Hi0 & Hn).
    destruct (decide (n = 0)) as [->|]; [eauto|]. right. right. unfold wp. by rewrite En. }
  destruct (decide (dport (pkt_id k) = CSP_PS)) as [Hd|Hd]; [destruct Hps as [|[(s0 & E0 & Hi0)|Hnz]]; [done|..]|].
  - right. split; [done|]. destruct (service_ps_sends_freed T h s s0 p k Hk Hd E0 Hi0) as (s1 & k1 & Hr & H1 & Hin). by exists s0, s1, k1.
  - left. pose proof (wp_service_handler T h s p HI (fun _ _ _ => Hnz)) as Hw. apply wp_run in Hw as ([] & s' & Hr & T' & HT & Ho). eauto.
  - left. pose proof (wp_service_handler T h s p HI) as Hw. apply wp_run in Hw as ([] & s' & Hr & T' & HT & Ho); [eauto|].
    intros k' Hk' Hd'. rewrite Hk in Hk'. by injection Hk' as <-.
Qed.

