(* ===== verification/ServiceClient.v ===== *)
(** * ServiceClient: the client calls are safe

    The calls of [csp_services.c] over connections without RDP, on any
    well-formed node, whatever the other tasks and the remote nodes do. *)

From S2P Require Import Prelude State Monad Id Buffer Iflist Rtable Qfifo Io RdpQueue Rdp Conn RdpProto Api Route.
From S2P Require Import Own OwnIo OwnRdp OwnRoute OwnApi RdpSpec RdpState OwnConf OwnClient Node Service ServiceSpec ServiceReply.

Section Clients.
Context `{L : OwnLaws} {D : DriverLaws}.

Lemma WF_ping_out c p st start h s : WF (opt_held p h) s -> (c < CSP_CONN_MAX)%nat ->
  wp (ping_out c p st start) (fun _ s' => WF h s') s.
Proof.
  intros HW Hc. unfold ping_out. apply wp_bind. apply (wp_conseq _ (fun _ s' => WF h s')).
  { destruct p as [p|]; [by apply WF_free|by apply wp_ret]. }
  intros [] s1 H1. apply wp_bind. wp_use (by apply WF_close). intros r s2 H2.
  apply wp_bind. wp_use (by apply WF_get_ms). intros now s3 H3. by apply wp_ret.
Qed.

Lemma length_ping_data size : 0 <= size -> zlen (ping_data size) = size.
Proof. intros Hs. unfold ping_data. rewrite length_map, length_seq. lia. Qed.

Lemma WF_ping `{WaitLogic w} fuel d t size opts h s : WF h s -> plain opts s -> 0 <= size -> wl_may w t ->
  w _ (csp_ping fuel d t size opts) (fun _ s' => WF h s') s.
Proof.
  intros HW Hp Hsz Ht. unfold csp_ping. destruct (_ <? size) eqn:El; [by apply wl_ret|]. apply Z.ltb_ge in El. unfold CSP_BUFFER_SIZE in El.
  apply wl_seq. eapply wp_conseq; [apply (wp_keeps conf); [keeps_tac|by apply WF_get_ms]|]. cbv beta. intros start s1 [H1 E1].
  apply wl_seq. wp_use (apply WF_connect_plain; [done|unfold plain; by rewrite E1]).
  intros [c|] s2 [H2 Hc]; [|by apply wl_ret]. destruct Hc as (Hc & x & Hx & Hu).
  apply wl_seq. wp_use (by apply WF_take). intros [p|] s3 [H3 E3]; [|by apply wl_wp, WF_ping_out]. cbn [opt_held] in H3.
  apply wl_seq. wp_use (apply WF_resize; [done|left|unfold CSP_BUFFER_SIZE; lia]). intros [] s4 [H4 E4].
  apply wl_seq. wp_use (apply WF_put_mem; [done|left|lia|rewrite length_ping_data; lia]). intros [] s5 [H5 E5].
  assert (Hx5 : arr_conn s5 !! c = Some x) by (by rewrite E5, E4, E3).
  apply wl_seq. eapply wp_conseq; [apply wp_returns; [by eapply (WF_send fuel c p x h); [..|apply unreliable_sendable]|intros a s6; exact id]|].
  cbv beta. intros [] s6 [H6 E6].
  apply wl_bind. eapply wl_conseq; [apply (WF_read c t h); [done|done|]|].
  { intros y Hy. by rewrite (send_read_timeout fuel c p x t s5 s6 y). }
  cbv beta. intros [q|] s7 H7; [|by apply wl_wp, WF_ping_out]. cbn [opt_held] in H7. apply wl_wp.
  unfold ping_check. apply wp_bind, wp_bind. eapply WF_read_mem; [done|lia..|]. intros bs _. apply wp_ret. by apply WF_ping_out.
Qed.

Lemma plain_conf opts s s' : plain opts s -> conf s' = conf s -> plain opts s'.
Proof. unfold plain. by intros Hp ->. Qed.

Lemma WF_ping_noreply fuel d h s : WF h s -> plain CSP_O_CRC32 s -> wp (csp_ping_noreply fuel d) (fun _ s' => WF h s') s.
Proof.
  intros HW Hp. unfold csp_ping_noreply. apply wp_bind.
  eapply wp_conseq; [apply (wp_keeps conf); [|by apply WF_take]|].
  { unfold csp_buffer_get, csp_buffer_get_actual, csp_packet_init. keeps_tac. }
  cbv beta. intros [p|] s1 [[H1 _] E1]; [|by apply wp_ret]. cbn [opt_held] in H1.
  apply wp_bind. wp_use (apply WF_connect_plain; [done|by eapply plain_conf]). intros [c|] s2 [H2 Hc]; [|by apply WF_free].
  destruct Hc as (Hc & x & Hx & Hu%unreliable_sendable). unfold poll_packet. apply wp_bind, wp_bind.
  wp_use (apply WF_put_mem; [done|left|lia|simpl; lia]). intros [] s3 [H3 E3].
  wp_use (apply WF_resize; [done|left|vm_compute; split; discriminate]). intros [] s4 [H4 E4].
  apply wp_bind. wp_use (by eapply (WF_send fuel c p x h); [|done|rewrite E4, E3|]). intros [] s5 H5.
  apply wp_bind. wp_use (by apply WF_close). intros r s6 H6. by apply wp_ret.
Qed.

(** [m] returns on [s], and leaves the node well formed and the caller's
    packets [h] alone. *)
Definition served {A} (h : list nat) (s : node) (m : M A) : Prop := exists a s', m s = Ret a s' /\ WF h s'.

Lemma served_wp {A} (m : M A) h s : wp m (fun _ s' => WF h s') s -> served h s m.
Proof. intros Hw. apply wp_run in Hw as (a & s' & Hr & HW). by exists a, s'. Qed.

(** It may wait instead, but only when it is given no timeout. *)
Definition answered {A} (timeout : Z) (h : list nat) (s : node) (m : M A) : Prop :=
  served h s m \/ (timeout = CSP_MAX_TIMEOUT /\ m s = Wait).

Lemma answered_wl {A} (m : M A) t h s : (forall w (W : WaitLogic w), wl_may w t -> w _ m (fun _ s' => WF h s') s) -> answered t h s m.
Proof.
  intros Hw. destruct (decide (t = CSP_MAX_TIMEOUT)) as [Ht|Ht]; [|left; by apply served_wp, (Hw (@wp) _)].
  specialize (Hw (@wpw) _ I). apply wpw_run in Hw as [Hw|(a & s' & Hr & HW)]; [by right|]. left. by exists a, s'.
Qed.

Lemma WF_client fuel d port t out inlen h s : WF h s -> plain CSP_O_CRC32 s ->
  forall w (W : WaitLogic w), (inlen <> 0 -> wl_may w t) ->
  w _ (csp_transaction_w_opts fuel CSP_PRIO_NORM d port t out inlen CSP_O_CRC32) (fun _ s' => WF h s') s.
Proof. intros HW Hp w W Ht. apply WF_transaction_w_opts; [done|done|]. intros Hn. right. auto. Qed.

Lemma WF_discard `{WaitLogic w} {A B} (m : M A) (f : A -> B) h s : w _ m (fun _ s' => WF h s') s -> w _ (a ← m; mret (f a)) (fun _ s' => WF h s') s.
Proof. intros Hw. apply wl_bind. eapply wl_conseq; [exact Hw|]. intros a s' H1. by apply wl_ret. Qed.

Lemma WF_get_u32 fuel d port t h s : WF h s -> plain CSP_O_CRC32 s ->
  forall w (W : WaitLogic w), wl_may w t -> w _ (get_u32 fuel d port t) (fun _ s' => WF h s') s.
Proof.
  intros HW Hp w W Ht. unfold get_u32. apply wl_bind. eapply wl_conseq; [exact (WF_client fuel d port t [] 4 h s HW Hp w W (fun _ => Ht))|].
  cbv beta. intros [st v] s' H1. by apply wl_ret.
Qed.


End Clients.

(** ** Witnesses *)

(** Hooks of a small machine. *)
Definition small_hooks : Hooks := {|
  csp_ps_hook _ := mret 5;
  csp_memfree_hook := mret 70000;
  csp_reboot_hook := mret tt;
  csp_shutdown_hook := mret tt;
  csp_get_s := mret 42;
  csp_clock_get_time := mret (1700000000, 7);
  csp_clock_set_time _ := mret CSP_ERR_NONE;
  cmp_memcpy_from _ n := mret (replicate (Z.to_nat n) 0xAA);
  cmp_memcpy_to _ _ := mret tt;
  build_date := [74; 97; 110; 32; 32; 49; 32; 50; 48; 50; 52];
  build_time := [49; 50; 58; 51; 52; 58; 53; 54]
|}.

#[export] Instance small_hook_laws : @HookLaws small_hooks.
Proof.
  split; intros; apply wp_ret; try done.
  split; [done|]. rewrite length_replicate. lia.
Qed.

#[export] Instance small_ps_laws : @PsLaws small_hooks.
Proof. intros p s. by apply wp_ret. Qed.

(** Packet 0 in the hands of the router, as a request to [port]. *)
Definition ask (port : Z) (bytes : list Z) : M unit := write_mem 0 0 bytes ;;
  mod_pkt 0 (fun k => set_pkt_length (zlen bytes) (set_pkt_id (mkId 2 0 9 0 port 20) k)).
Definition request (port : Z) (bytes : list Z) : node := state_of (ask port bytes started_1).

Lemma ask_inv T o s port bytes : Inv T (0%nat :: o) s -> zlen bytes <= 256 -> Inv T (0%nat :: o) (state_of (ask port bytes s)).
Proof.
  intros HI Hl. assert (Hw : wp (ask port bytes) (fun _ s' => Inv T (0%nat :: o) s') s).
  { apply wp_bind. wp_use (apply (wp_put_mem T (0%nat :: o)); [exact HI|left|lia|lia]). intros [] s1 H1.
    apply wp_mod_pkt; [done|left|]. intros k [Hm _]. split; [exact Hm|]. unfold CSP_BUFFER_SIZE. simpl. lia. }
  apply wp_run in Hw as ([] & s' & Hr & H1). rewrite Hr. exact H1.
Qed.

Lemma request_inv port bytes : zlen bytes <= 256 -> exists T o, Inv T (0%nat :: o) (request port bytes).
Proof.
  intros Hl. destruct started_1_WF as (T & o & HI). exists T, o. apply ask_inv; [exact HI|exact Hl].
Qed.

(** A poke request of 250 bytes where 200 are allowed. *)
Definition long_poke : list Z := [0; 5; 0; 0; 1; 0; 250].

Definition poke_packet : csp_packet := default blank_packet (pkt_at 0 (request CSP_CMP long_poke)).

Lemma service_handler_safe_witness : exists s' T' o, csp_service_handler (H := lo_platform) (H0 := small_hooks) 0 (request CSP_CMP long_poke) = Ret tt s' /\ Inv T' o s'.
Proof.
  destruct (request_inv CSP_CMP long_poke) as (T & o & HI); [vm_compute; discriminate|].
  destruct (service_handler_safe (H := lo_platform) (H0 := small_hooks) T o (request CSP_CMP long_poke) 0 poke_packet HI)
    as [(s' & T' & Hr & H1 & _)|[Hd _]].
  - vm_compute. reflexivity.
  - exists s', T', o. split; [exact Hr|exact H1].
  - vm_compute in Hd. discriminate Hd.
Defined.

Definition ident_request : node := request CSP_CMP [0; 1].
Definition ident_packet : csp_packet := default blank_packet (pkt_at 0 ident_request).

Lemma cmp_ident_reply_witness : exists k', csp_cmp_handler (H := lo_platform) (H0 := small_hooks) 0 ident_request = Ret CSP_ERR_NONE (put_pkt 0 k' ident_request) /\
  str_field k' CMP_TIME CSP_CMP_IDENT_TIME_LEN = Some [49; 50; 58; 51; 52; 58; 53; 54].
Proof.
  destruct (cmp_ident_reply (H := lo_platform) (H0 := small_hooks) 0 ident_packet ident_request) as (k' & Hr & _ & _ & _ & _ & _ & _ & _ & Ht).
  - vm_compute. reflexivity.
  - vm_compute. reflexivity.
  - split; vm_compute; reflexivity.
  - exists k'. split; [exact Hr|exact Ht].
Defined.

(** A statistics request for the interface [LOOP]. *)
Definition stats_request : node := request CSP_CMP ([0; 3] ++ lo_name).
Definition stats_packet : csp_packet := default blank_packet (pkt_at 0 stats_request).

Definition stats_iface : csp_iface := default lo_iface (ifs stats_request !! 0%nat).

Lemma stats_list : iflist stats_request [0%nat].
Proof.
  assert (Ei : interfaces stats_request = Some 0%nat) by (vm_compute; reflexivity).
  assert (Ex : ifs stats_request !! 0%nat = Some stats_iface) by (vm_compute; reflexivity).
  assert (En : if_next stats_iface = None) by (vm_compute; reflexivity).
  unfold iflist. rewrite Ei. generalize dependent stats_iface. intros x Ex En.
  apply (chain_cons _ _ x); [exact Ex|]. rewrite En. constructor.
Qed.

Lemma cmp_if_stats_reply_witness : exists k', csp_cmp_handler (H := lo_platform) (H0 := small_hooks) 0 stats_request = Ret CSP_ERR_NONE (put_pkt 0 k' stats_request).
Proof.
  destruct (cmp_if_stats_reply (H := lo_platform) (H0 := small_hooks) 0 stats_packet stats_request [0%nat] lo_name) as (k' & r & Hr & _ & _ & _ & Hf).
  - vm_compute. reflexivity.
  - vm_compute. reflexivity.
  - split; vm_compute; reflexivity.
  - exact stats_list.
  - intros j y Hj Hy. apply list_elem_of_singleton in Hj as ->.
    assert (Ex : ifs stats_request !! 0%nat = Some stats_iface) by (vm_compute; reflexivity). rewrite Ex in Hy.
    apply (inj Some) in Hy as <-. vm_compute. discriminate.
  - vm_compute. reflexivity.
  - exists k'. destruct (find _ _) as [i|] eqn:E; [|vm_compute in E; discriminate E]. destruct Hf as [-> _]. exact Hr.
Defined.

Definition uptime_request : node := request CSP_UPTIME [].
Definition uptime_packet : csp_packet := default blank_packet (pkt_at 0 uptime_request).

Lemma service_answers_witness : exists k', csp_service_handler (H := lo_platform) (H0 := small_hooks) 0 uptime_request = send_answer (H := lo_platform) 0 k' uptime_request /\
  be_field k' 0 4 = Some 42.
Proof.
  destruct (service_answers (H := lo_platform) (H0 := small_hooks) 0 uptime_packet uptime_request) as [_ Hv].
  - vm_compute. reflexivity.
  - vm_compute. reflexivity.
  - destruct (Hv (mret 42) 42 uptime_request) as (k' & Hr & _ & _ & Hf).
    + reflexivity.
    + reflexivity.
    + vm_compute. reflexivity.
    + exists k'. split; [exact Hr|exact Hf].
Defined.

(** A machine without process list, as the POSIX port has it. *)
Definition small_posix : Posix := {|
  clock_realtime _ := Some (1700000000, 7);
  clock_monotonic _ := Some (42, 0);
  clock_settime _ := mret 0;
  sysinfo _ := (70, 1000);
  reboot _ := mret tt;
  posix_memcpy_from _ n := mret (replicate (Z.to_nat n) 0xAA);
  posix_memcpy_to _ _ := mret tt;
  posix_date := [];
  posix_time := []
|}.

Definition ps_request : node := request CSP_PS [0x55].
Definition ps_packet : csp_packet := default blank_packet (pkt_at 0 ps_request).

Lemma service_ps_sends_freed_witness : exists s1 k1,
  csp_service_handler (H := lo_platform) (H0 := posix_hooks (H := small_posix)) 0 ps_request = send_answer (H := lo_platform) 0 k1 s1 /\
  0%nat ∈ q_items (csp_buffers s1).
Proof.
  destruct (request_inv CSP_PS [0x55]) as (T & o & HI); [vm_compute; discriminate|].
  destruct (service_ps_sends_freed (H := lo_platform) (H0 := posix_hooks (H := small_posix)) T o ps_request ps_request 0 ps_packet) as (s1 & k1 & Hr & _ & Hin).
  - vm_compute. reflexivity.
  - vm_compute. reflexivity.
  - reflexivity.
  - exact HI.
  - exists s1, k1. split; [exact Hr|exact Hin].
Defined.


(** *** A node that pings itself

    The router takes its turn while the client waits; the service handler
    answers. *)
Definition service_platform : Platform := with_services lo_platform small_hooks 7.
Definition live_platform : Platform := {|
  plat_ms := plat_ms (Platform := service_platform);
  plat_rand := plat_rand (Platform := service_platform);
  plat_yield _ s := state_of ((_ ← csp_route_work (H := service_platform); csp_route_work (H := service_platform)) s);
  plat_nexthop := plat_nexthop (Platform := service_platform);
  plat_callback := plat_callback (Platform := service_platform);
  plat_overflow := i32;
  CSP_USE_RTABLE := true
|}.
Definition offering : node := state_of (csp_bind_callback (Some 7%nat) CSP_PING (state_of (csp_bind_callback (Some 7%nat) CSP_BUF_FREE started))).

(** What a call returns. *)
Definition result_of {A} (m : outcome A) : option A := match m with Ret a _ => Some a | _ => None end.

(** The free buffers of this node, as it tells them itself: one of the fifteen
    carries the request. *)
Example ask_free_buffers : result_of (csp_get_buf_free (H := live_platform) 5 0 100 offering) = Some (CSP_ERR_NONE, 14).
Proof. vm_compute. reflexivity. Qed.

Lemma ping_self_upto : forallb (fun n => bool_decide (result_of (csp_ping (H := live_platform) 5 0 100 (Z.of_nat n) CSP_O_CRC32 offering) =
  Some (if Z.of_nat n <=? 252 then 20 else -1))) (seq 0 257) = true.
Proof. vm_compute. reflexivity. Qed.

(** On this node, which offers the services and whose router runs while the
    client waits, a ping with checksum to the node itself is answered, after
    the 20 ms the clock advances, for every size up to 252 bytes; longer pings,
    for which there is no room for the checksum, fail. *)
Theorem ping_self_answered size : 0 <= size ->
  exists s', csp_ping (H := live_platform) 5 0 100 size CSP_O_CRC32 offering = Ret (if size <=? 252 then 20 else -1) s'.
Proof.
  intros H0. destruct (decide (size <= 256)) as [Hle|Hgt].
  - pose proof ping_self_upto as Hall. rewrite forallb_forall in Hall.
    specialize (Hall (Z.to_nat size)). rewrite Z2Nat.id in Hall by lia. specialize (Hall ltac:(apply in_seq; lia)).
    apply bool_decide_eq_true in Hall. destruct (csp_ping _ _ _ _ _ _) as [a s'| | |]; [|discriminate Hall..].
    apply (inj Some) in Hall as ->. by exists s'.
  - exists offering. unfold csp_ping. rewrite (proj2 (Z.ltb_lt CSP_BUFFER_SIZE size)) by (unfold CSP_BUFFER_SIZE; lia).
    by rewrite (proj2 (Z.leb_gt size 252)) by lia.
Qed.
