(* ===== verification/RtableText.v ===== *)
(** * RtableText: the routing table as text

    [src/csp_rtable_stdio.c]: reading, checking and writing a table such as
    ["10/8 CAN, 0/0 LOOP 3"], over models of [sscanf], [strtok_r] and
    [snprintf].  A string is the list of its characters, without the zero. *)

From S2P Require Import Prelude State Monad Id Iflist Rtable Node.

(** The length limit of [csp_rtable_load], as the build sets it by default. *)
Definition CSP_RTABLE_STRING_MAX_LEN : Z := 100.

(** ** Scanning *)

(** What a directive of [sscanf] does: fail to match; meet a number that its
    type cannot represent, on which C leaves the behaviour undefined; or
    convert, with the rest of the input. *)
Inductive scan (A : Type) := NoMatch | Overflow | Scanned (a : A) (rest : list Z).
Arguments NoMatch {A}.
Arguments Overflow {A}.
Arguments Scanned {A} _ _.

Definition scan_bind {A B} (m : scan A) (f : A -> list Z -> scan B) : scan B :=
  match m with
  | NoMatch => NoMatch
  | Overflow => Overflow
  | Scanned a rest => f a rest
  end.

(** [isspace] *)
Definition is_space (c : Z) : bool := (c =? 32) || ((9 <=? c) && (c <=? 13)).
Definition is_digit (c : Z) : bool := (48 <=? c) && (c <=? 57).

(** White space in a format. *)
Fixpoint skip_ws (l : list Z) : list Z :=
  match l with
  | [] => []
  | c :: l' => if is_space c then skip_ws l' else l
  end.

(** The leading characters of a class, and the rest; at most [n]. *)
Fixpoint span (p : Z -> bool) (n : nat) (l : list Z) : list Z * list Z :=
  match n, l with
  | S n', c :: l' => if p c then let '(a, b) := span p n' l' in (c :: a, b) else ([], l)
  | _, _ => ([], l)
  end.

Definition dec_val (ds : list Z) : Z := foldl (fun a d => 10 * a + (d - 48)) 0 ds.

(** An optional sign and decimal digits. *)
Definition scan_sign (l : list Z) : bool * list Z :=
  match l with
  | c :: l' => if c =? 45 then (true, l') else if c =? 43 then (false, l') else (false, l)
  | [] => (false, [])
  end.

Definition scan_number (ok : Z -> bool) (l : list Z) : scan Z :=
  let '(neg, l) := scan_sign (skip_ws l) in
  let '(ds, rest) := span is_digit (length l) l in
  if bool_decide (ds = []) then NoMatch else
  let v := if neg then - dec_val ds else dec_val ds in
  if ok v then Scanned v rest else Overflow.

(** [%u]: a negative number is taken modulo [2 ^ 32]. *)
Definition scan_u (l : list Z) : scan Z :=
  scan_bind (scan_number (fun v => (- 2 ^ 32 <? v) && (v <? 2 ^ 32)) l) (fun v rest => Scanned (u32 v) rest).

(** [%d] *)
Definition scan_d (l : list Z) : scan Z := scan_number (fun v => (- 2 ^ 31 <=? v) && (v <? 2 ^ 31)) l.

(** [%14s] *)
Definition scan_s (l : list Z) : scan (list Z) :=
  let '(w, rest) := span (fun c => negb (is_space c)) 14 (skip_ws l) in
  if bool_decide (w = []) then NoMatch else Scanned w rest.

(** A character of the format. *)
Definition scan_char (c : Z) (l : list Z) : scan unit :=
  match l with
  | b :: rest => if b =? c then Scanned tt rest else NoMatch
  | [] => NoMatch
  end.

(** ** One entry *)

Record rt_entry := mkEntry { e_address : Z; e_netmask : Z; e_name : list Z; e_via : Z }.

(** ["%u/%d %14s %u %n"] and the three shorter formats; the rest is what [%n]
    points at. *)
Definition scan_mask_via (str : list Z) : scan rt_entry :=
  scan_bind (scan_u str) (fun address l =>
  scan_bind (scan_char 47 l) (fun _ l =>
  scan_bind (scan_d l) (fun netmask l =>
  scan_bind (scan_s l) (fun name l =>
  scan_bind (scan_u l) (fun via l => Scanned (mkEntry address netmask name via) (skip_ws l)))))).

Definition scan_mask (str : list Z) : scan rt_entry :=
  scan_bind (scan_u str) (fun address l =>
  scan_bind (scan_char 47 l) (fun _ l =>
  scan_bind (scan_d l) (fun netmask l =>
  scan_bind (scan_s l) (fun name l => Scanned (mkEntry address netmask name CSP_NO_VIA_ADDRESS) (skip_ws l))))).

Definition scan_via (host_bits : Z) (str : list Z) : scan rt_entry :=
  scan_bind (scan_u str) (fun address l =>
  scan_bind (scan_s l) (fun name l =>
  scan_bind (scan_u l) (fun via l => Scanned (mkEntry address host_bits name via) (skip_ws l)))).

Definition scan_plain (host_bits : Z) (str : list Z) : scan rt_entry :=
  scan_bind (scan_u str) (fun address l =>
  scan_bind (scan_s l) (fun name l => Scanned (mkEntry address host_bits name CSP_NO_VIA_ADDRESS) (skip_ws l))).

(** The next format when this one does not match. *)
Definition or_else {A} (m n : scan A) : scan A := match m with NoMatch => n | _ => m end.

Definition scan_entry (host_bits : Z) (str : list Z) : scan rt_entry :=
  or_else (scan_mask_via str) (or_else (scan_mask str) (or_else (scan_via host_bits str) (scan_plain host_bits str))).

(** [strtok_r] with [","]: the tokens are the non-empty pieces. *)
Fixpoint pieces (l : list Z) : list (list Z) :=
  match l with
  | [] => [[]]
  | c :: l' =>
      match pieces l' with
      | p :: ps => if c =? 44 then [] :: p :: ps else (c :: p) :: ps
      | [] => [[c]]
      end
  end.
Definition tokens (l : list Z) : list (list Z) := filter (fun p => p <> []) (pieces l).




(** Is the name known, and as which interface: from the list [names], or from
    the node. *)
Definition known_iface (names : option (list (list Z))) (name : list Z) : M (bool * option nat) :=
  match names with
  | Some ns => mret (existsb (fun n => bool_decide (name = n)) ns, None)
  | None => ifc ← csp_iflist_get_by_name name; mret (bool_decide (ifc <> None), ifc)
  end.

Definition entry_valid (host_bits : Z) (e : rt_entry) (known : bool) : bool :=
  let max_address := 2 ^ host_bits - 1 in
  negb ((max_address <? e_address e) || (e_netmask e <? 0) || (host_bits <? e_netmask e) || negb known ||
        (negb (e_via e =? CSP_NO_VIA_ADDRESS) && (max_address <? e_via e))).

(** The loop of [csp_rtable_parse]. *)
Fixpoint parse_loop (toks : list (list Z)) (dry_run : bool) (host_bits : Z) (names : option (list (list Z)))
    (valid_entries : Z) : M Z :=
  match toks with
  | [] => mret valid_entries
  | str :: toks' =>
      match scan_entry host_bits str with
      | Overflow => undef
      | NoMatch => mret CSP_ERR_INVAL
      | Scanned e rest =>
          if negb (bool_decide (rest = [])) then mret CSP_ERR_INVAL else
          let netmask := if e_netmask e =? -1 then host_bits else e_netmask e in
          let e := mkEntry (e_address e) netmask (e_name e) (e_via e) in
          '(known, ifc) ← known_iface names (e_name e);
          if negb (entry_valid host_bits e known) then
            set_errno CSP_DBG_ERR_INVALID_RTABLE_ENTRY ;; mret CSP_ERR_INVAL
          else
          res ← (if dry_run then mret CSP_ERR_NONE
                 else csp_rtable_set (e_address e) (e_netmask e) ifc (u16 (e_via e)));
          if negb (res =? CSP_ERR_NONE) then
            set_errno CSP_DBG_ERR_INVALID_RTABLE_ENTRY ;; mret res
          else
          if Z.of_nat CSP_RTABLE_SIZE <? valid_entries + 1 then mret CSP_ERR_NOMEM else
          parse_loop toks' dry_run host_bits names (valid_entries + 1)
      end
  end.



Definition csp_rtable_parse (rtable : option (list Z)) (dry_run : bool) (host_bits : Z) (names : option (list (list Z))) : M Z :=
  match rtable with
  | None => mret CSP_ERR_INVAL
  | Some text =>
      if CSP_RTABLE_STRING_MAX_LEN <? zlen text then mret CSP_ERR_INVAL else
      parse_loop (tokens text) dry_run host_bits names 0
  end.

Definition csp_rtable_check (rtable : option (list Z)) : M Z :=
  s ← gets id;
  csp_rtable_parse rtable true (csp_id_get_host_bits s) None.

Definition csp_rtable_load (rtable : option (list Z)) : M Z :=
  ret ← csp_rtable_check rtable;
  if ret <? 0 then mret ret else
  s ← gets id;
  csp_rtable_parse rtable false (csp_id_get_host_bits s) None.

Definition csp_rtable_check_config (rtable : option (list Z)) (version : Z) (names : option (list (list Z))) : M Z :=
  if negb ((version =? 1) || (version =? 2)) || bool_decide (names = None) then mret CSP_ERR_INVAL else
  csp_rtable_parse rtable true (if version =? 1 then 5 else 14) names.

(** ** Writing *)

(** [%u]: ten digits are enough for 32 bits. *)
Fixpoint udec_le (fuel : nat) (n : Z) : list Z :=
  match fuel with
  | O => []
  | S fuel' => (48 + n mod 10) :: if n / 10 =? 0 then [] else udec_le fuel' (n / 10)
  end.
Definition udec (n : Z) : list Z := reverse (udec_le 10 n).

(** [csp_rtable_save_ctx_t] *)
Record save_ctx := mkCtx { ctx_buffer : list Z; ctx_len : Z; ctx_maxlen : Z; ctx_error : Z }.

(** [snprintf] at [off] with [size] bytes of room: the text, cut to the room,
    and a zero.  The result is the length of the whole text. *)
Definition snprintf_at (buffer : list Z) (off size : Z) (text : list Z) : option (list Z) :=
  if size <=? 0 then Some buffer
  else mem_write buffer off (take (Z.to_nat (size - 1)) text ++ [0]).

Definition csp_rtable_save_route (ctx : save_ctx) (route : csp_route) : M save_ctx :=
  i ← of_option (rt_iface route);
  ifc ← get_iface i;
  name ← of_option (if_name ifc);
  if bool_decide (name = lo_name) then mret ctx else
  s ← gets id;
  let sep := if ctx_len ctx =? 0 then [] else [44] in
  let mask_str := if negb (rt_netmask route =? csp_id_get_host_bits s) then 47 :: udec (rt_netmask route) else [] in
  let via_str := if negb (rt_via route =? CSP_NO_VIA_ADDRESS) then 32 :: udec (rt_via route) else [] in
  let text := sep ++ udec (rt_address route) ++ mask_str ++ 32 :: name ++ via_str in
  let remain_buf_size := ctx_maxlen ctx - ctx_len ctx in
  buffer ← of_option (snprintf_at (ctx_buffer ctx) (ctx_len ctx) remain_buf_size text);
  if i32 remain_buf_size <=? zlen text then
    mret (mkCtx buffer (ctx_len ctx) (ctx_maxlen ctx) CSP_ERR_NOMEM)
  else
    mret (mkCtx buffer (ctx_len ctx + zlen text) (ctx_maxlen ctx) (ctx_error ctx)).

(** [csp_rtable_iterate] with this iterator: every row, whatever it returns. *)
Fixpoint save_rows (rows : list csp_route) (ctx : save_ctx) : M save_ctx :=
  match rows with
  | [] => mret ctx
  | r :: rows' => ctx ← csp_rtable_save_route ctx r; save_rows rows' ctx
  end.

(** [csp_rtable_save] into memory [buffer] of [maxlen] bytes: the status and
    the memory. *)
Definition csp_rtable_save (buffer : list Z) (maxlen : Z) : M (Z * list Z) :=
  buffer ← of_option (mem_write buffer 0 [0]);
  s ← gets id;
  ctx ← save_rows (rt_used s) (mkCtx buffer 0 maxlen CSP_ERR_NONE);
  mret (ctx_error ctx, ctx_buffer ctx).

(** ** Numbers *)

Lemma dec_le_digits fuel n : 0 <= n -> Forall (fun c => is_digit c = true) (udec_le fuel n).
Proof.
  revert n. induction fuel as [|fuel IH]; intros n Hn; simpl; [done|]. constructor.
  - unfold is_digit. pose proof (Z.mod_pos_bound n 10). rewrite !(proj2 (Z.leb_le _ _)) by lia. done.
  - destruct (_ =? 0); [done|]. apply IH. by apply Z.div_pos.
Qed.

Lemma dec_digits n : 0 <= n -> Forall (fun c => is_digit c = true) (udec n).
Proof. intros Hn. by apply Forall_reverse, dec_le_digits. Qed.

Lemma dec_ne n : udec n <> [].
Proof. unfold udec. intros E. apply (f_equal length) in E. rewrite length_reverse in E. simpl in E. lia. Qed.

Fixpoint le_dec_val (ds : list Z) : Z := match ds with [] => 0 | d :: ds' => (d - 48) + 10 * le_dec_val ds' end.

Lemma dec_le_val fuel n : 0 <= n < 10 ^ Z.of_nat fuel -> le_dec_val (udec_le fuel n) = n.
Proof.
  revert n. induction fuel as [|fuel IH]; intros n Hn; [simpl in *; lia|]. cbn [udec_le le_dec_val].
  rewrite Nat2Z.inj_succ, Z.pow_succ_r in Hn by lia.
  pose proof (Z.div_mod n 10 ltac:(lia)). destruct (Z.eqb_spec (n / 10) 0) as [E|E]; simpl; [lia|].
  rewrite IH; [lia|]. split; [apply Z.div_pos; lia|]. apply Z.div_lt_upper_bound; lia.
Qed.

Lemma dec_val_reverse ds : dec_val (reverse ds) = le_dec_val ds.
Proof.
  unfold dec_val. induction ds as [|d ds IH]; [done|]. rewrite reverse_cons, foldl_app. simpl. rewrite IH. lia.
Qed.

Lemma dec_val_dec n : 0 <= n < 2 ^ 32 -> dec_val (udec n) = n.
Proof. intros Hn. unfold udec. rewrite dec_val_reverse. apply dec_le_val. simpl. lia. Qed.

(** ** What the scanner makes of written text *)

(** The next character, if any, is not in the class. *)
Definition stops (p : Z -> bool) (l : list Z) : Prop := match l with [] => True | c :: _ => p c = false end.

Lemma span_app p n a l : Forall (fun c => p c = true) a -> stops p l -> (length a <= n)%nat -> span p n (a ++ l) = (a, l).
Proof.
  intros Ha Hl. revert n. induction Ha as [|c a Hc _ IH]; intros n Hn; simpl in *.
  - destruct n; [done|]. destruct l as [|d l]; [done|]. simpl in *. by rewrite Hl.
  - destruct n; [lia|]. simpl. rewrite Hc, IH by lia. done.
Qed.

Lemma digit_not_space c : is_digit c = true -> is_space c = false.
Proof. unfold is_digit, is_space. lia. Qed.

Lemma skip_ws_stop l : stops is_space l -> skip_ws l = l.
Proof. destruct l as [|c l]; simpl; [done|]. by intros ->. Qed.

Lemma scan_number_dec ok n l : 0 <= n < 2 ^ 32 -> ok n = true -> stops is_digit l ->
  scan_number ok (udec n ++ l) = Scanned n l.
Proof.
  intros Hn Hok Hl. pose proof (dec_digits n ltac:(lia)) as Hd. pose proof (dec_ne n) as Hne. unfold scan_number.
  destruct (udec n) as [|c ds] eqn:E; [done|]. apply Forall_cons_iff in Hd as Hcd. destruct Hcd as [Hc _].
  rewrite skip_ws_stop by (simpl; by apply digit_not_space). simpl. unfold is_digit in Hc.
  rewrite (proj2 (Z.eqb_neq c 45)), (proj2 (Z.eqb_neq c 43)) by lia.
  change (c :: ds ++ l) with ((c :: ds) ++ l). rewrite (span_app is_digit); [|done|done|rewrite length_app; simpl; lia].
  rewrite bool_decide_eq_false_2 by done. rewrite <- E, dec_val_dec, Hok by done. done.
Qed.

Lemma scan_number_sp ok l : scan_number ok (32 :: l) = scan_number ok l.
Proof. reflexivity. Qed.

Lemma scan_u_dec n l : 0 <= n < 2 ^ 32 -> stops is_digit l -> scan_u (udec n ++ l) = Scanned n l.
Proof.
  intros Hn Hl. unfold scan_u. rewrite scan_number_dec; [|done|lia|done]. simpl. f_equal. unfold u32. by apply Z.mod_small.
Qed.

Lemma scan_d_dec n l : 0 <= n < 2 ^ 31 -> stops is_digit l -> scan_d (udec n ++ l) = Scanned n l.
Proof. intros Hn Hl. unfold scan_d. apply scan_number_dec; [lia|lia|done]. Qed.

(** An interface name that survives being written. *)
Definition text_name (name : list Z) : Prop :=
  name <> [] /\ (length name <= 14)%nat /\ Forall (fun c => is_space c = false /\ c <> 44 /\ c <> 0) name.

Lemma scan_s_name name l : text_name name -> stops (fun c => negb (is_space c)) l -> scan_s (32 :: name ++ l) = Scanned name l.
Proof.
  intros (Hne & Hlen & Hall) Hl. unfold scan_s. cbn [skip_ws]. change (is_space 32) with true. cbv iota.
  rewrite skip_ws_stop by (destruct name as [|c name]; [done|]; simpl; by apply Forall_cons_iff in Hall as [[? _] _]).
  rewrite span_app; [|eapply Forall_impl; [|exact Hall]; intros c [Hc _]; by rewrite Hc|done|done].
  by rewrite bool_decide_eq_false_2.
Qed.

(** ** The text of a table *)

Definition mask_text (hb mask : Z) : list Z := if negb (mask =? hb) then 47 :: udec mask else [].
Definition via_text (via : Z) : list Z := if negb (via =? CSP_NO_VIA_ADDRESS) then 32 :: udec via else [].
Definition row_text (hb : Z) (r : csp_route) (name : list Z) : list Z :=
  udec (rt_address r) ++ mask_text hb (rt_netmask r) ++ 32 :: name ++ via_text (rt_via r).

(** A row whose numbers [csp_rtable_parse] accepts. *)
Record row_fits (hb : Z) (r : csp_route) : Prop := {
  fits_hb : 0 <= hb <= 14;
  fits_address : 0 <= rt_address r <= 2 ^ hb - 1;
  fits_mask : 0 <= rt_netmask r <= hb;
  fits_via : rt_via r = CSP_NO_VIA_ADDRESS \/ 0 <= rt_via r <= 2 ^ hb - 1
}.

Lemma fits_small hb r : row_fits hb r -> 0 <= rt_address r < 2 ^ 14 /\ 0 <= rt_netmask r < 2 ^ 14 /\ 0 <= rt_via r < 2 ^ 16.
Proof.
  intros [Hh Ha Hm Hv]. assert (2 ^ hb <= 2 ^ 14) by (apply Z.pow_le_mono_r; lia).
  change (2 ^ 14) with 16384 in *. change (2 ^ 16) with 65536. unfold CSP_NO_VIA_ADDRESS in Hv. lia.
Qed.

Lemma scan_row hb r name : row_fits hb r -> text_name name ->
  scan_entry hb (row_text hb r name) = Scanned (mkEntry (rt_address r) (rt_netmask r) name (rt_via r)) [].
Proof.
  intros Hf Hn. pose proof (fits_small _ _ Hf) as (Ha & Hm & Hv). change (2 ^ 14) with 16384 in *. change (2 ^ 16) with 65536 in *.
  unfold scan_entry, scan_mask_via, scan_mask, scan_via, scan_plain, row_text.
  set (tl := via_text (rt_via r)).
  assert (Hs : scan_s (32 :: name ++ tl) = Scanned name tl).
  { apply scan_s_name; [done|]. unfold tl, via_text. by destruct (negb _). }
  assert (Hu : scan_u tl = if rt_via r =? CSP_NO_VIA_ADDRESS then NoMatch else Scanned (rt_via r) []).
  { unfold tl, via_text. destruct (_ =? _); [done|]. simpl negb. cbv iota.
    change (scan_u (32 :: udec (rt_via r))) with (scan_u (udec (rt_via r))).
    rewrite <- (app_nil_r (udec (rt_via r))). apply scan_u_dec; [lia|done]. }
  unfold mask_text. destruct (Z.eqb_spec (rt_netmask r) hb) as [Em|Em]; simpl negb; cbv iota.
  - cbn [app]. rewrite (scan_u_dec (rt_address r) (32 :: name ++ tl)) by (done || lia). cbn [scan_bind].
    change (scan_char 47 (32 :: name ++ tl)) with (@NoMatch unit). cbn [scan_bind or_else]. rewrite Hs. cbn [scan_bind].
    rewrite Hu. destruct (Z.eqb_spec (rt_via r) CSP_NO_VIA_ADDRESS) as [Ev|Ev]; cbn [scan_bind or_else]; rewrite Em; [|done].
    unfold tl, via_text. rewrite Ev. done.
  - rewrite <- app_comm_cons. rewrite (scan_u_dec (rt_address r) (47 :: _)) by (done || lia). cbn [scan_bind].
    change (scan_char 47 (47 :: ?l)) with (Scanned tt l). cbn [scan_bind].
    rewrite (scan_d_dec (rt_netmask r) (32 :: name ++ tl)) by (done || lia). cbn [scan_bind]. rewrite Hs. cbn [scan_bind].
    rewrite Hu. destruct (Z.eqb_spec (rt_via r) CSP_NO_VIA_ADDRESS) as [Ev|Ev]; cbn [scan_bind or_else]; [|done].
    unfold tl, via_text. rewrite Ev. done.
Qed.

(** Entries with commas between them. *)
Fixpoint join (l : list (list Z)) : list Z :=
  match l with
  | [] => []
  | [a] => a
  | a :: l' => a ++ 44 :: join l'
  end.

Lemma join_cons a l : join (a :: l) = a ++ (if decide (l = []) then [] else 44 :: join l).
Proof. destruct l; simpl; [by rewrite app_nil_r|done]. Qed.

Lemma join_snoc l a : join (l ++ [a]) = join l ++ (if decide (l = []) then [] else [44]) ++ a.
Proof.
  induction l as [|b l IH]; [done|]. rewrite <- app_comm_cons, !join_cons.
  destruct (decide (l ++ [a] = [])) as [E|_]; [by destruct l|]. rewrite IH.
  destruct (decide (l = [])) as [->|]; destruct (decide (_ :: _ = [])); try done; simpl; by rewrite <- ?app_assoc.
Qed.

(** An entry: not empty, and without comma or zero. *)
Definition entry_text (a : list Z) : Prop := a <> [] /\ Forall (fun c => c <> 44 /\ c <> 0) a.

Lemma pieces_app a l : Forall (fun c => c <> 44 /\ c <> 0) a -> pieces (a ++ 44 :: l) = a :: pieces l.
Proof.
  induction 1 as [|c a [Hc _] _ IH]; simpl.
  - destruct (pieces l) eqn:E; [|done]. destruct l as [|c l]; [done|]. simpl in E. destruct (pieces l); [done|].
    by destruct (c =? 44).
  - rewrite IH. by rewrite (proj2 (Z.eqb_neq c 44) Hc).
Qed.

Lemma pieces_one a : Forall (fun c => c <> 44 /\ c <> 0) a -> pieces a = [a].
Proof. induction 1 as [|c a [Hc _] _ IH]; simpl; [done|]. rewrite IH. by rewrite (proj2 (Z.eqb_neq c 44) Hc). Qed.

Lemma tokens_join l : Forall entry_text l -> tokens (join l) = l.
Proof.
  intros H. unfold tokens. induction H as [|a l [Hne Ha] Hl IH]; [done|]. rewrite join_cons. destruct (decide (l = [])) as [->|Hl'].
  - rewrite app_nil_r, pieces_one by done. by rewrite filter_cons_True.
  - rewrite pieces_app by done. rewrite filter_cons_True by done. by rewrite IH.
Qed.

Lemma join_no_zero l : Forall entry_text l -> Forall (fun c => c <> 0) (join l).
Proof.
  induction 1 as [|a l [_ Ha] Hl IH]; [done|]. rewrite join_cons. apply Forall_app. split.
  - eapply Forall_impl; [|exact Ha]. by intros c [_ Hc].
  - destruct (decide _); [done|]. by constructor.
Qed.

Lemma join_nil l : Forall entry_text l -> join l = [] -> l = [].
Proof. destruct 1 as [|a l [Ha _] _]; [done|]. rewrite join_cons. intros [E _]%app_eq_nil. done. Qed.

Lemma dec_text n : 0 <= n -> Forall (fun c => c <> 44 /\ c <> 0) (udec n).
Proof. intros Hn. eapply Forall_impl; [|by apply dec_digits]. intros c Hc. unfold is_digit in Hc. lia. Qed.

Lemma row_entry hb r name : row_fits hb r -> text_name name -> entry_text (row_text hb r name).
Proof.
  intros Hf (_ & _ & Hn). pose proof (fits_small _ _ Hf) as (Ha & Hm & Hv). unfold row_text, mask_text, via_text. split.
  - intros E. apply app_eq_nil in E as [E _]. by apply dec_ne in E.
  - apply Forall_app. split; [apply dec_text; lia|]. apply Forall_app. split.
    + destruct (negb _); [|done]. constructor; [lia|]. apply dec_text. lia.
    + constructor; [lia|]. apply Forall_app. split; [eapply Forall_impl; [|exact Hn]; by intros c [_ Hc]|].
      destruct (negb _); [|done]. constructor; [lia|]. apply dec_text. lia.
Qed.

Lemma join_grows l l' : zlen (join l) <= zlen (join (l ++ l')).
Proof.
  induction l' as [|a l' IH] using rev_ind; [rewrite app_nil_r; lia|]. rewrite app_assoc, join_snoc, length_app. lia.
Qed.

(** ** Saving *)

(** The row is written as the entry with this name, and read back as this row:
    its interface is the first of the list with the name. *)
Record saved (s : node) (l : list nat) (r : csp_route) (name : list Z) : Prop := {
  saved_fits : row_fits (csp_id_get_host_bits s) r;
  saved_name : text_name name;
  saved_lo : name <> lo_name;
  saved_iface : exists i x, rt_iface r = Some i /\ ifs s !! i = Some x /\ if_name x = Some name /\
    find (passes (ifs s) (fun _ => name_is name)) l = Some i
}.

(** The buffer starts with this string. *)
Definition holds (buffer : list Z) (text : list Z) : Prop := mem_read buffer 0 (zlen text + 1) = Some (text ++ [0]).

Lemma holds_c_str buffer text : holds buffer text -> Forall (fun c => c <> 0) text -> c_str buffer = text.
Proof.
  intros H Hz. apply mem_read_inv in H as (_ & _ & _ & E). rewrite drop_0 in E.
  rewrite <- (take_drop (Z.to_nat (zlen text + 1)) buffer), <- E, <- app_assoc. by apply c_str_app_zero.
Qed.

Lemma holds_append buffer a b buffer' : holds buffer a -> mem_write buffer (zlen a) (b ++ [0]) = Some buffer' -> holds buffer' (a ++ b).
Proof.
  intros H Hw. unfold holds in *. rewrite length_app, Nat2Z.inj_add, <- app_assoc.
  replace (zlen a + zlen b + 1) with (zlen a + (zlen b + 1)) by lia. apply mem_read_app.
  - rewrite (mem_read_write_before _ _ _ _ _ _ Hw) by lia.
    pose proof (mem_read_slice _ _ _ _ 0 (zlen a) H ltac:(lia) ltac:(lia) ltac:(lia)) as F.
    change (0 + 0) with 0 in F. rewrite F, Nat2Z.id. f_equal. apply take_app_length.
  - rewrite Z.add_0_l. pose proof (mem_read_write _ _ _ _ Hw) as F. by rewrite length_app, Nat2Z.inj_add in F.
Qed.

(** A context in which the entries [done] have been written. *)
Record saving (texts : list (list Z)) (maxlen : Z) (ctx : save_ctx) : Prop := {
  sv_len : ctx_len ctx = zlen (join texts);
  sv_max : ctx_maxlen ctx = maxlen;
  sv_err : ctx_error ctx = CSP_ERR_NONE;
  sv_size : zlen (ctx_buffer ctx) = maxlen;
  sv_holds : holds (ctx_buffer ctx) (join texts)
}.

Lemma save_row_run s l texts maxlen ctx r name : Forall entry_text texts -> saving texts maxlen ctx -> saved s l r name ->
  let texts' := texts ++ [row_text (csp_id_get_host_bits s) r name] in
  zlen (join texts') < maxlen < 2 ^ 31 ->
  exists ctx', csp_rtable_save_route ctx r s = Ret ctx' s /\ saving texts' maxlen ctx'.
Proof.
  intros Ht [Sl Sm Se Ss Sh] [Hf Hn Hlo (i & x & Hi & Hx & Hname & _)] texts' Hlt.
  set (t := row_text _ r name) in *. set (sep := if ctx_len ctx =? 0 then [] else [44]).
  assert (Hsep : join texts' = join texts ++ sep ++ t).
  { unfold texts'. rewrite join_snoc. do 2 f_equal. unfold sep. rewrite Sl. destruct (decide (texts = [])) as [->|Hne]; [done|].
    rewrite (proj2 (Z.eqb_neq _ 0)); [done|]. intros E. apply Hne, join_nil; [done|]. destruct (join texts); [done|simpl in E; lia]. }
  unfold csp_rtable_save_route. rewrite Hi. rewrite (bind_ret _ _ _ i s) by done.
  rewrite (bind_ret _ _ _ _ _ (get_iface_at _ _ _ Hx)), Hname. rewrite (bind_ret _ _ _ name s) by done.
  rewrite bool_decide_eq_false_2 by done. rewrite (bind_ret _ _ _ s s) by done. cbv zeta. unfold id. fold sep.
  change (udec (rt_address r) ++ _) with t. rewrite Hsep, !length_app, !Nat2Z.inj_add in Hlt. rewrite Sm, Sl.
  destruct (mem_write_ok (ctx_buffer ctx) (zlen (join texts)) ((sep ++ t) ++ [0])) as [b Hb]; [lia|rewrite !length_app; simpl; lia|].
  unfold snprintf_at. rewrite (proj2 (Z.leb_gt _ 0)) by lia. rewrite take_ge by (rewrite length_app; lia). rewrite Hb.
  rewrite (bind_ret _ _ _ b s) by done.
  assert (E32 : i32 (maxlen - zlen (join texts)) = maxlen - zlen (join texts)) by (unfold i32; rewrite Z.mod_small; lia).
  rewrite E32, (proj2 (Z.leb_gt _ _)) by (rewrite length_app; lia).
  eexists. split; [reflexivity|]. split; simpl; try done.
  - rewrite Hsep, !length_app. lia.
  - rewrite (mem_write_length _ _ _ _ Hb). done.
  - rewrite Hsep. by eapply holds_append.
Qed.

Lemma save_rows_run s l rows names texts maxlen ctx : Forall entry_text texts -> saving texts maxlen ctx ->
  Forall2 (saved s l) rows names ->
  let texts' := texts ++ zip_with (row_text (csp_id_get_host_bits s)) rows names in
  zlen (join texts') < maxlen < 2 ^ 31 ->
  exists ctx', save_rows rows ctx s = Ret ctx' s /\ saving texts' maxlen ctx'.
Proof.
  intros Ht Hs Hf. revert texts ctx Ht Hs. induction Hf as [|r name rows names Hr Hrs IH]; intros texts ctx Ht Hs texts' Hlt.
  - exists ctx. unfold texts'. simpl. by rewrite app_nil_r.
  - set (t := row_text (csp_id_get_host_bits s) r name).
    assert (Et : texts' = (texts ++ [t]) ++ zip_with (row_text (csp_id_get_host_bits s)) rows names).
    { unfold texts'. simpl. by rewrite <- app_assoc. }
    pose proof (join_grows (texts ++ [t]) (zip_with (row_text (csp_id_get_host_bits s)) rows names)) as Hg. rewrite <- Et in Hg.
    destruct (save_row_run s l texts maxlen ctx r name Ht Hs Hr) as (c1 & R1 & S1); [fold t; lia|]. fold t in S1.
    assert (Ht1 : Forall entry_text (texts ++ [t])).
    { apply Forall_app. split; [done|]. constructor; [|done]. apply row_entry; apply Hr. }
    destruct (IH (texts ++ [t]) c1 Ht1 S1) as (c2 & R2 & S2); [rewrite <- Et; done|].
    exists c2. split; [|by rewrite Et]. simpl. rewrite (bind_ret _ _ _ _ _ R1). exact R2.
Qed.

(** ** Loading *)

(** Node [s] with just these rows in its table. *)
Definition table_state (s : node) (rows : list csp_route) : node :=
  set_rtable (rows ++ replicate (CSP_RTABLE_SIZE - length rows) route_zero) (set_rtable_inptr (zlen rows) s).

Lemma table_used s rows : rt_used (table_state s rows) = rows.
Proof. unfold rt_used, table_state. simpl. rewrite Nat2Z.id. apply take_app_length. Qed.

Definition rt_key (r : csp_route) : Z * Z * option nat := (rt_address r, rt_netmask r, rt_iface r).

Lemma find_exact_none s rows a m ifc : (a, m, ifc) ∉ map rt_key rows -> csp_rtable_find_exact (table_state s rows) a m ifc = None.
Proof.
  intros Hk. unfold csp_rtable_find_exact. rewrite table_used. generalize 0%nat.
  induction rows as [|r rows IH]; intros n; [done|]. simpl in *. apply not_elem_of_cons in Hk as [Hne Hk].
  destruct (route_eq a m ifc r) eqn:E; [|by apply IH]. apply route_eq_key in E as (<- & <- & <-). done.
Qed.

Lemma set_appends s rows r i : rt_iface r = Some i -> row_fits (csp_id_get_host_bits s) r -> rt_key r ∉ map rt_key rows ->
  (length rows < CSP_RTABLE_SIZE)%nat ->
  csp_rtable_set (rt_address r) (rt_netmask r) (Some i) (rt_via r) (table_state s rows) = Ret CSP_ERR_NONE (table_state s (rows ++ [r])).
Proof.
  intros Hi Hf Hk Hl. unfold csp_rtable_set. rewrite (bind_ret _ _ _ (table_state s rows) (table_state s rows)) by done. cbv zeta. unfold id.
  change (csp_id_get_host_bits (table_state s rows)) with (csp_id_get_host_bits s). pose proof (fits_mask _ _ Hf) as Hm.
  rewrite (proj2 (Z.ltb_ge (rt_netmask r) 0)), (proj2 (Z.ltb_ge _ (rt_netmask r))) by lia. cbn [orb].
  unfold csp_rtable_set_internal. rewrite (bind_ret _ _ _ (table_state s rows) (table_state s rows)) by done. unfold id.
  rewrite find_exact_none by (by unfold rt_key in Hk; rewrite Hi in Hk).
  change (rtable_inptr (table_state s rows)) with (zlen rows). rewrite (proj2 (Z.leb_gt _ _)) by lia.
  rewrite (bind_ret _ _ _ tt (table_state s (rows ++ [r]))); [done|]. unfold modify. f_equal. unfold table_state. cbn [rtable rtable_inptr set_rtable set_rtable_inptr].
  rewrite Nat2Z.id, length_app. simpl length. rewrite insert_app_r_alt, Nat.sub_diag by lia.
  replace (CSP_RTABLE_SIZE - length rows)%nat with (S (CSP_RTABLE_SIZE - (length rows + 1))) by lia. cbn [replicate list_insert insert].
  replace (zlen rows + 1) with (Z.of_nat (length rows + 1)) by lia. rewrite <- app_assoc. cbn [app].
  replace (mkRoute (rt_address r) (rt_netmask r) (rt_via r) (Some i)) with r by (by destruct r; simpl in *; subst). reflexivity.
Qed.

(** Reading back the entries of [rows], into a table that holds [rows0]. *)
Lemma parse_rows_run s l rows0 rows names (dry : bool) n : iflist s l -> named (ifs s) l -> Forall2 (saved s l) rows names ->
  NoDup (map rt_key (rows0 ++ rows)) -> (length (rows0 ++ rows) <= CSP_RTABLE_SIZE)%nat ->
  0 <= n -> n + zlen rows <= Z.of_nat CSP_RTABLE_SIZE ->
  parse_loop (zip_with (row_text (csp_id_get_host_bits s)) rows names) dry (csp_id_get_host_bits s) None n (table_state s rows0) =
  Ret (n + zlen rows) (table_state s (if dry then rows0 else rows0 ++ rows)).
Proof.
  intros Hl Hn Hf. revert rows0 n. induction Hf as [|r name rows names Hr Hrs IH]; intros rows0 n Hnd Hlen H0 Hmax.
  { simpl. rewrite Z.add_0_r, app_nil_r. by destruct dry. }
  destruct Hr as [Hfit Hname Hlo (i & x & Hi & Hx & Hnx & Hfind)].
  cbn [zip_with parse_loop]. rewrite scan_row by done. rewrite bool_decide_eq_true_2 by done. cbn [negb e_netmask e_address e_name e_via].
  pose proof (fits_mask _ _ Hfit) as Hm. pose proof (fits_address _ _ Hfit) as Ha. pose proof (fits_via _ _ Hfit) as Hv.
  rewrite (proj2 (Z.eqb_neq _ (-1))) by lia.
  assert (Hk : known_iface None name (table_state s rows0) = Ret (true, Some i) (table_state s rows0)).
  { unfold known_iface. rewrite (bind_ret _ _ _ (Some i) (table_state s rows0)).
    - rewrite bool_decide_eq_true_2 by done. reflexivity.
    - rewrite (get_by_name_find (table_state s rows0) l) by done. f_equal. exact Hfind. }
  rewrite (bind_ret _ _ _ _ _ Hk).
  assert (Hval : entry_valid (csp_id_get_host_bits s) (mkEntry (rt_address r) (rt_netmask r) name (rt_via r)) true = true).
  { unfold entry_valid. cbn [e_address e_netmask e_via]. rewrite (proj2 (Z.ltb_ge _ (rt_address r))), (proj2 (Z.ltb_ge _ 0)),
      (proj2 (Z.ltb_ge _ (rt_netmask r))) by lia. cbn [negb orb].
    destruct Hv as [->|Hv]; [done|]. rewrite (proj2 (Z.ltb_ge _ (rt_via r))) by lia. by rewrite andb_false_r. }
  rewrite Hval. cbn [negb]. pose proof (fits_small _ _ Hfit) as (_ & _ & Hv16). change (2 ^ 16) with 65536 in Hv16.
  assert (Hu : u16 (rt_via r) = rt_via r) by (unfold u16; by apply Z.mod_small). rewrite Hu.
  rewrite map_app in Hnd. cbn [map] in Hnd. rewrite !length_app in Hlen. cbn [length] in *.
  assert (Hnin : rt_key r ∉ map rt_key rows0).
  { intros Hin. apply list.NoDup_app in Hnd as (_ & Hd & _). apply (Hd _ Hin). left. }
  set (rows1 := if dry then rows0 else rows0 ++ [r]).
  erewrite (bind_ret _ _ _ CSP_ERR_NONE (table_state s rows1)).
  2: { unfold rows1. destruct dry; [done|]. rewrite <- Hi at 1. rewrite Hi. apply set_appends; [done|done|done|lia]. }
  change (negb (CSP_ERR_NONE =? CSP_ERR_NONE)) with false. cbv iota. rewrite (proj2 (Z.ltb_ge _ _)) by lia.
  rewrite IH; [|unfold rows1; destruct dry|unfold rows1; destruct dry; rewrite !length_app; simpl; lia|lia|lia].
  - unfold rows1. f_equal; [lia|]. f_equal. destruct dry; [done|]. by rewrite <- app_assoc.
  - rewrite map_app. apply list.NoDup_app in Hnd as (N1 & N2 & N3). apply list.NoDup_cons in N3 as [_ N3].
    apply list.NoDup_app. split_and!; [done| |done]. intros k Hk1 Hk2. apply (N2 k Hk1). by right.
  - rewrite <- app_assoc, map_app. done.
Qed.

(** The text of a table. *)
Definition table_text (s : node) (rows : list csp_route) (names : list (list Z)) : list Z :=
  join (zip_with (row_text (csp_id_get_host_bits s)) rows names).

Lemma rows_entries s l rows names : Forall2 (saved s l) rows names ->
  Forall entry_text (zip_with (row_text (csp_id_get_host_bits s)) rows names).
Proof. induction 1 as [|r name rows names Hr _ IH]; simpl; [done|]. constructor; [|done]. apply row_entry; apply Hr. Qed.

(** C17. A routing table survives being saved and loaded.  For a table of distinct
    rows, none of them to the loopback interface (which is not saved), with
    numbers in the range of the header and interfaces found in the list by names
    that the text format can carry ([text_name]), and whose text has at most the
    100 characters that [csp_rtable_load] takes: [csp_rtable_save] into a large
    enough buffer writes the text of every row, and [csp_rtable_load] of that
    text into the cleared table puts back the same rows in the same order, and
    returns their number. *)
Theorem rtable_save_load s l rows names buffer : iflist s l -> named (ifs s) l ->
  rt_used s = rows -> Forall2 (saved s l) rows names -> NoDup (map rt_key rows) -> (length rows <= CSP_RTABLE_SIZE)%nat ->
  zlen (table_text s rows names) <= CSP_RTABLE_STRING_MAX_LEN -> zlen (table_text s rows names) < zlen buffer < 2 ^ 31 ->
  exists buffer', csp_rtable_save buffer (zlen buffer) s = Ret (CSP_ERR_NONE, buffer') s /\
    c_str buffer' = table_text s rows names /\
    exists s', (csp_rtable_clear ;; csp_rtable_load (Some (c_str buffer'))) s = Ret (zlen rows) s' /\ rt_used s' = rows.
Proof.
  intros Hl Hn Hrows Hf Hnd Hsz Hmax Hbuf. pose proof (rows_entries _ _ _ _ Hf) as He.
  destruct (mem_write_ok buffer 0 [0]) as [b0 Hb0]; [lia|simpl; lia|].
  assert (S0 : saving [] (zlen buffer) (mkCtx b0 0 (zlen buffer) CSP_ERR_NONE)).
  { split; try done; simpl.
    - by rewrite (mem_write_length _ _ _ _ Hb0).
    - exact (mem_read_write _ _ _ _ Hb0). }
  destruct (save_rows_run s l rows names [] (zlen buffer) _ ltac:(constructor) S0 Hf) as (ctx & Hrun & [Sl Sm Se Ss Sh]); [exact Hbuf|].
  simpl in Sh. assert (Ec : c_str (ctx_buffer ctx) = table_text s rows names) by (apply holds_c_str; [done|by apply join_no_zero]).
  exists (ctx_buffer ctx). split; [|split; [exact Ec|]].
  { unfold csp_rtable_save. rewrite Hb0. rewrite (bind_ret _ _ _ b0 s) by done. rewrite (bind_ret _ _ _ s s) by done. unfold id.
    rewrite Hrows, (bind_ret _ _ _ _ _ Hrun). by rewrite Se. }
  exists (table_state s rows). split; [|apply table_used]. rewrite Ec. rewrite (bind_ret _ _ _ tt (table_state s [])) by done.
  assert (Hparse : forall dry, csp_rtable_parse (Some (table_text s rows names)) dry (csp_id_get_host_bits s) None (table_state s []) =
    Ret (zlen rows) (table_state s (if dry then [] else rows))).
  { intros dry. unfold csp_rtable_parse. rewrite (proj2 (Z.ltb_ge _ _)) by done. unfold table_text. rewrite tokens_join by done.
    rewrite (parse_rows_run s l [] rows names dry 0); [done|done|done|done|done|done|lia|unfold CSP_RTABLE_SIZE in *; lia]. }
  unfold csp_rtable_load. rewrite (bind_ret _ _ _ (zlen rows) (table_state s [])).
  - rewrite (proj2 (Z.ltb_ge _ 0)) by lia. rewrite (bind_ret _ _ _ (table_state s []) (table_state s [])) by done. exact (Hparse false).
  - unfold csp_rtable_check. rewrite (bind_ret _ _ _ (table_state s []) (table_state s [])) by done. exact (Hparse true).
Qed.

(** ** Errors *)

(** Everything but the debug record. *)
Definition but_dbg (s : node) : node := set_dbg (mkDbg 0 0 0 0 0 0) s.

Lemma keeps_get_by_name {B} (f : node -> B) name : keeps f (csp_iflist_get_by_name name).
Proof.
  unfold csp_iflist_get_by_name. apply keeps_bind; [apply keeps_gets|]. intros s. generalize (interfaces s). generalize (if_fuel s).
  intros fuel. induction fuel as [|fuel IH]; intros i; simpl; [destruct i; keeps_tac|].
  destruct i as [i|]; [|apply keeps_ret]. keeps_tac.
Qed.

Lemma keeps_dry_parse toks hb names n : keeps but_dbg (parse_loop toks true hb names n).
Proof.
  revert n. induction toks as [|t toks IH]; intros n; simpl; [apply keeps_ret|]. destruct (scan_entry hb t); [apply keeps_ret|apply keeps_undef|].
  destruct (negb _); [apply keeps_ret|]. apply keeps_bind.
  { unfold known_iface. destruct names; [apply keeps_ret|]. apply keeps_bind; [apply keeps_get_by_name|]. intros. apply keeps_ret. }
  intros [known ifc]. destruct (negb _); [keeps_tac|]. apply keeps_bind; [apply keeps_ret|]. intros res.
  destruct (negb _); [keeps_tac|]. destruct (_ <? _); [apply keeps_ret|apply IH].
Qed.

(** No error code is a count. *)
Ltac negative := let H := fresh in intros H; exfalso; unfold CSP_ERR_NOMEM, CSP_ERR_INVAL in H; lia.

(** An entry that [csp_rtable_check_config] accepts: the whole text of it is
    scanned, the address and the node to send via fit the host bits, the
    netmask does or is -1, and the name is one of [names]. *)
Definition acceptable (hb : Z) (names : list (list Z)) (str : list Z) : Prop :=
  exists e, scan_entry hb str = Scanned e [] /\ e_address e <= 2 ^ hb - 1 /\
    (e_netmask e = -1 \/ 0 <= e_netmask e <= hb) /\ e_name e ∈ names /\
    (e_via e = CSP_NO_VIA_ADDRESS \/ e_via e <= 2 ^ hb - 1).

Lemma entry_valid_acceptable hb names str e : 0 <= hb -> scan_entry hb str = Scanned e [] ->
  let e' := mkEntry (e_address e) (if e_netmask e =? -1 then hb else e_netmask e) (e_name e) (e_via e) in
  entry_valid hb e' (existsb (fun n => bool_decide (e_name e = n)) names) = true <-> acceptable hb names str.
Proof.
  intros Hhb Hsc e'. unfold entry_valid. cbn [e_address e_netmask e_via e'].
  rewrite negb_true_iff, !orb_false_iff, andb_false_iff, !negb_false_iff, !Z.ltb_ge, existsb_exists, Z.eqb_eq. split.
  - intros ((((Ha & Hm0) & Hm1) & (n & Hn & Hen)) & Hv). apply bool_decide_eq_true in Hen as <-. exists e.
    split; [done|]. split; [lia|]. split; [|split; [by apply list_elem_of_In|lia]].
    destruct (Z.eqb_spec (e_netmask e) (-1)); [by left|right; lia].
  - intros (e2 & Hsc2 & Ha & Hm & Hn & Hv). rewrite Hsc in Hsc2. injection Hsc2 as <-.
    assert (Hm' : 0 <= (if e_netmask e =? -1 then hb else e_netmask e) <= hb) by (destruct (Z.eqb_spec (e_netmask e) (-1)); lia).
    split; [split; [lia|]|lia]. exists (e_name e). split; [by apply list_elem_of_In|by apply bool_decide_eq_true].
Qed.

Lemma check_loop_run hb names toks n s : 0 <= hb -> 0 <= n -> Forall (fun t => scan_entry hb t <> Overflow) toks ->
  exists r s', parse_loop toks true hb (Some names) n s = Ret r s' /\
    (0 <= r <-> (toks = [] \/ n + zlen toks <= Z.of_nat CSP_RTABLE_SIZE) /\ Forall (acceptable hb names) toks) /\ (0 <= r -> r = n + zlen toks).
Proof.
  intros Hhb H0 Hno. revert n s H0. induction Hno as [|t toks Ht Hts IH]; intros n s H0; cbn [parse_loop].
  { exists n, s. split; [done|]. split; [|simpl; lia]. split; [intros _; split; [by left|done]|lia]. }
  assert (Hbad : forall r s', r < 0 -> ~ acceptable hb names t ->
    exists r' s'', Ret r s' = Ret r' s'' /\
    (0 <= r' <-> (t :: toks = [] \/ n + zlen (t :: toks) <= Z.of_nat CSP_RTABLE_SIZE) /\ Forall (acceptable hb names) (t :: toks)) /\
    (0 <= r' -> r' = n + zlen (t :: toks))).
  { intros r s' Hr Hna. exists r, s'. split; [done|]. split; [|lia]. split; [lia|]. intros [_ HF]. by apply Forall_cons_iff in HF as [HF _]. }
  destruct (scan_entry hb t) as [| |e rest] eqn:E; [|done|].
  - apply (Hbad CSP_ERR_INVAL s); [done|]. intros (e & He & _). congruence.
  - case_bool_decide as Hrest; cbn [negb].
    2: { apply (Hbad CSP_ERR_INVAL s); [done|]. intros (e2 & He & _). congruence. }
    subst rest. cbn [e_name]. unfold known_iface. rewrite (bind_ret _ _ _ (existsb (fun n => bool_decide (e_name e = n)) names, None) s) by done.
    cbv beta iota. pose proof (entry_valid_acceptable hb names t e Hhb E) as Hacc.
    destruct (entry_valid hb _ _) eqn:Ev; cbn [negb].
    + rewrite (bind_ret _ _ _ CSP_ERR_NONE s) by done. change (negb (CSP_ERR_NONE =? CSP_ERR_NONE)) with false. cbv iota.
      pose proof (proj1 Hacc Ev) as Hok. destruct (Z.ltb_spec (Z.of_nat CSP_RTABLE_SIZE) (n + 1)) as [Hfull|Hfree].
      * exists CSP_ERR_NOMEM, s. split; [done|]. split; [|negative].
        split; [negative|]. intros [[?|Hle] _]; [done|]. simpl in Hle. lia.
      * destruct (IH (n + 1) s) as (r & s' & Hr & Hiff & Hval); [lia|]. exists r, s'. split; [done|].
        cbn [length]. split; [|intros Hp; rewrite (Hval Hp); lia]. rewrite Hiff, Forall_cons_iff. split.
        -- intros [Hl HF]. split; [|done]. right. destruct Hl as [->|Hl]; simpl; lia.
        -- intros [[?|Hl] [_ HF]]; [done|]. split; [right; lia|done].
    + apply (Hbad CSP_ERR_INVAL); [done|]. intros Ha. apply (proj2 Hacc) in Ha. congruence.
Qed.

(** C18. [csp_rtable_check_config] accepts exactly the texts of at most 100
    characters and ten entries whose every entry is acceptable for the header
    version, and then returns the number of entries; otherwise the result is
    negative.  It changes nothing but the last-error variable (which
    [csp_rtable.h] does not say).  The numbers of the text must not overflow
    what [sscanf] reads them into, which C leaves undefined. *)
Theorem rtable_check_accepts text version names s : version = 1 \/ version = 2 ->
  let hb := if version =? 1 then 5 else 14 in
  Forall (fun t => scan_entry hb t <> Overflow) (tokens text) ->
  exists r s', csp_rtable_check_config (Some text) version (Some names) s = Ret r s' /\ but_dbg s' = but_dbg s /\
    (0 <= r <-> zlen text <= CSP_RTABLE_STRING_MAX_LEN /\ zlen (tokens text) <= Z.of_nat CSP_RTABLE_SIZE /\
       Forall (acceptable hb names) (tokens text)) /\
    (0 <= r -> r = zlen (tokens text)).
Proof.
  intros Hv hb Hno. unfold csp_rtable_check_config.
  assert (E : negb ((version =? 1) || (version =? 2)) || bool_decide (Some names = None) = false).
  { rewrite bool_decide_eq_false_2 by done. destruct Hv as [->| ->]; done. }
  rewrite E. fold hb. unfold csp_rtable_parse. destruct (Z.ltb_spec CSP_RTABLE_STRING_MAX_LEN (zlen text)) as [Hlong|Hshort].
  - exists CSP_ERR_INVAL, s. split; [done|]. split; [done|]. split; [|negative].
    split; [negative|lia].
  - assert (Hhb : 0 <= hb) by (unfold hb; destruct (version =? 1); lia).
    destruct (check_loop_run hb names (tokens text) 0 s Hhb ltac:(lia) Hno) as (r & s' & Hr & Hiff & Hval).
    exists r, s'. split; [done|]. split; [by eapply keeps_run; [apply keeps_dry_parse|]|]. split; [|done]. rewrite Hiff. split.
    + intros [Hl HF]. split; [lia|]. split; [|done]. destruct Hl as [->|Hl]; [vm_compute; discriminate|lia].
    + intros (_ & Hl & HF). split; [right; lia|done].
Qed.

(** A text that [csp_rtable_check] refuses is not loaded: [csp_rtable_load]
    returns the same error and leaves the table and the rest of the node as
    they were, up to the last-error variable. *)
Theorem rtable_load_refuses text s r s1 : csp_rtable_check text s = Ret r s1 -> r < 0 ->
  csp_rtable_load text s = Ret r s1 /\ but_dbg s1 = but_dbg s.
Proof.
  intros Hc Hr. split.
  - unfold csp_rtable_load. rewrite (bind_ret _ _ _ _ _ Hc). by rewrite (proj2 (Z.ltb_lt r 0)).
  - revert Hc. unfold csp_rtable_check, csp_rtable_parse. intros Hc. apply bind_Ret in Hc as (s0 & s2 & [= <- <-] & Hc).
    destruct text as [text|]; [|by injection Hc as _ <-]. destruct (_ <? _); [by injection Hc as _ <-|].
    by eapply keeps_run; [apply keeps_dry_parse|].
Qed.

(** ** Witnesses *)

(** A node with the loopback interface and an interface [CAN], and two routes. *)
Definition can_name : list Z := [67; 65; 78].
Definition routed_node : node := state_of ((csp_iflist_add (Some 1%nat) ;;
  _ ← csp_rtable_set 1024 8 (Some 1%nat) CSP_NO_VIA_ADDRESS; _ ← csp_rtable_set 3 14 (Some 1%nat) 7; mret tt) bus_node).
Definition routed_rows : list csp_route := [mkRoute 1024 8 CSP_NO_VIA_ADDRESS (Some 1%nat); mkRoute 3 14 7 (Some 1%nat)].
Definition routed_if (i : nat) : csp_iface := default lo_iface (ifs routed_node !! i).

Lemma routed_list : iflist routed_node [0%nat; 1%nat].
Proof.
  assert (Ei : interfaces routed_node = Some 0%nat) by (vm_compute; reflexivity).
  assert (E0 : ifs routed_node !! 0%nat = Some (routed_if 0)) by (vm_compute; reflexivity).
  assert (E1 : ifs routed_node !! 1%nat = Some (routed_if 1)) by (vm_compute; reflexivity).
  assert (N0 : if_next (routed_if 0) = Some 1%nat) by (vm_compute; reflexivity).
  assert (N1 : if_next (routed_if 1) = None) by (vm_compute; reflexivity).
  unfold iflist. rewrite Ei. generalize dependent routed_if. intros f E0 E1 N0 N1.
  apply (chain_cons _ _ (f 0%nat)); [exact E0|]. rewrite N0. apply (chain_cons _ _ (f 1%nat)); [exact E1|]. rewrite N1. constructor.
Qed.

Lemma routed_named : named (ifs routed_node) [0%nat; 1%nat].
Proof.
  intros j y Hj Hy. assert (E : ifs routed_node = [routed_if 0; routed_if 1]) by (vm_compute; reflexivity). rewrite E in Hy.
  apply elem_of_cons in Hj as [->|Hj%list_elem_of_singleton]; [|subst j]; apply (inj Some) in Hy as <-; vm_compute; discriminate.
Qed.

Lemma can_text_name : text_name can_name.
Proof. split; [discriminate|]. split; [simpl; lia|]. repeat constructor; vm_compute; congruence. Qed.

Lemma routed_saved_row r : rt_iface r = Some 1%nat -> row_fits 14 r -> saved routed_node [0%nat; 1%nat] r can_name.
Proof.
  intros Hr Hf. assert (Hb : csp_id_get_host_bits routed_node = 14) by (vm_compute; reflexivity). split.
  - rewrite Hb. exact Hf.
  - exact can_text_name.
  - discriminate.
  - exists 1%nat, (routed_if 1). split; [exact Hr|]. split; [vm_compute; reflexivity|]. split; vm_compute; reflexivity.
Qed.

Lemma routed_saved : Forall2 (saved routed_node [0%nat; 1%nat]) routed_rows [can_name; can_name].
Proof.
  apply Forall2_cons; [|apply Forall2_cons; [|apply Forall2_nil]]; apply routed_saved_row;
    try reflexivity; split; simpl; unfold CSP_NO_VIA_ADDRESS; lia.
Qed.

Lemma rtable_save_load_witness : exists buffer' s', csp_rtable_save (replicate 40 0) 40 routed_node = Ret (CSP_ERR_NONE, buffer') routed_node /\
  (csp_rtable_clear ;; csp_rtable_load (Some (c_str buffer'))) routed_node = Ret 2 s' /\ rt_used s' = routed_rows.
Proof.
  destruct (rtable_save_load routed_node [0%nat; 1%nat] routed_rows [can_name; can_name] (replicate 40 0)) as (b & Hs & _ & s' & Hl & Hu).
  - exact routed_list.
  - exact routed_named.
  - vm_compute. reflexivity.
  - exact routed_saved.
  - apply list.NoDup_cons. split; [|apply NoDup_singleton]. intros Hin%list_elem_of_singleton. discriminate.
  - simpl. unfold CSP_RTABLE_SIZE. lia.
  - vm_compute. discriminate.
  - vm_compute. split; reflexivity.
  - exists b, s'. split; [exact Hs|]. split; [exact Hl|exact Hu].
Defined.

(** ["10/8 CAN, 5 LOOP 3"] and ["10/40 CAN"] *)
Definition good_text : list Z := [49; 48; 47; 56; 32; 67; 65; 78; 44; 32; 53; 32; 76; 79; 79; 80; 32; 51].
Definition bad_text : list Z := [49; 48; 47; 52; 48; 32; 67; 65; 78].

Lemma rtable_check_accepts_witness : exists r s', csp_rtable_check_config (Some good_text) 2 (Some [can_name; lo_name]) bus_node = Ret r s' /\ (0 <= r -> r = 2).
Proof.
  destruct (rtable_check_accepts good_text 2 [can_name; lo_name] bus_node) as (r & s' & Hr & _ & _ & Hv).
  - by right.
  - change (tokens good_text) with [[49; 48; 47; 56; 32; 67; 65; 78]; [32; 53; 32; 76; 79; 79; 80; 32; 51]].
    repeat constructor; vm_compute; discriminate.
  - exists r, s'. split; [exact Hr|exact Hv].
Defined.

Lemma rtable_load_refuses_witness : exists s1, csp_rtable_load (Some bad_text) routed_node = Ret CSP_ERR_INVAL s1 /\ but_dbg s1 = but_dbg routed_node.
Proof.
  exists (state_of (csp_rtable_check (Some bad_text) routed_node)).
  apply (rtable_load_refuses (Some bad_text) routed_node CSP_ERR_INVAL); [vm_compute; reflexivity|vm_compute; reflexivity].
Defined.
