(* ===== verification/Links.v ===== *)
(** * Links: the I2C, UDP and tunnel interfaces

    [src/interfaces/csp_if_i2c.c], [csp_if_udp.c] and [csp_if_tun.c].  The I2C
    driver, the sockets and the cipher of the tunnel are outside the stack. *)

From S2P Require Import Prelude State Monad Id Buffer Iflist Qfifo.

(** Tags of the transmit functions. *)
Definition I2C_NEXTHOP : nat := 4.
Definition UDP_NEXTHOP : nat := 5.
Definition TUN_NEXTHOP : nat := 6.

(** [n] bytes written at [packet->frame_begin] *)
Definition write_frame (p : nat) (bs : list Z) : M unit :=
  k ← get_pkt p; write_mem (frame_buf k) (frame_off k) bs.

(** ** I2C *)

(** The driver's [tx_func]: it takes the packet when it returns
    [CSP_ERR_NONE]. *)
Class I2cDriver := { i2c_tx : nat -> nat -> M Z }.

Section I2c.
Context `{I2cDriver}.

Definition csp_i2c_tx (iface : nat) (via : Z) (packet : nat) (from_me : bool) : M Z :=
  k ← get_pkt packet;
  x ← get_iface iface;
  if dst (pkt_id k) =? if_addr x then
    csp_qfifo_write (Some packet) (Some iface) false ;; mret CSP_ERR_NONE
  else
  csp_id_prepend packet ;;
  mod_pkt packet (fun k => set_cfpid (if negb (via =? CSP_NO_VIA_ADDRESS) then via else dst (pkt_id k)) k) ;;
  mod_pkt packet (fun k => set_cfpid (Z.land (cfpid k) 0x7F) k) ;;
  s ← gets id;
  d ← of_option (mjoin (i2c s !! iface));
  _ ← of_option (i2c_tx_func d);
  i2c_tx iface packet.

Definition csp_i2c_rx (iface : nat) (packet : option nat) (isr : bool) : M unit :=
  match packet with
  | None => mret tt
  | Some p =>
      k ← get_pkt p;
      if frame_length k <? 4 then
        incr_frame iface ;;
        if isr then csp_buffer_free_isr (Some p) else csp_buffer_free (Some p)
      else
      _ ← csp_id_strip p;
      csp_qfifo_write (Some p) (Some iface) isr
  end.

Definition csp_i2c_add_interface (iface : option nat) : M Z :=
  match iface with
  | None => mret CSP_ERR_INVAL
  | Some i =>
      x ← get_iface i;
      s ← gets id;
      match if_name x, mjoin (i2c s !! i) with
      | Some _, Some d =>
          match i2c_tx_func d with
          | None => mret CSP_ERR_INVAL
          | Some _ =>
              mod_iface i (set_if_nexthop I2C_NEXTHOP) ;;
              csp_iflist_add iface ;;
              mret CSP_ERR_NONE
          end
      | _, _ => mret CSP_ERR_INVAL
      end
  end.

End I2c.

(** ** UDP *)

Section Udp.
Context `{Drivers}.

(** The address and port a datagram is sent to, as one number. *)
Definition udp_dest (d : csp_udp) : Z := Z.lor (Z.shiftl (peer_addr d) 16) (u16 (rport d)).

(** The frame goes to [sendto], whose result is not looked at. *)
Definition csp_if_udp_tx (iface : nat) (via : Z) (packet : nat) (from_me : bool) : M Z :=
  s ← gets id;
  d ← of_option (mjoin (udp s !! iface));
  if sockfd d =? 0 then csp_buffer_free (Some packet) ;; mret CSP_ERR_NONE else
  csp_id_prepend packet ;;
  k ← get_pkt packet;
  bs ← read_frame packet (frame_length k);
  _ ← drv_send iface (udp_dest d) bs;
  csp_buffer_free (Some packet) ;;
  mret CSP_ERR_NONE.

(** [recvfrom] into [size] bytes: -1, or the datagram cut to the size. *)
Definition recv_into (p : nat) (size : Z) (datagram : option (list Z)) : M Z :=
  match datagram with
  | None => mret (-1)
  | Some bytes => let bs := take (Z.to_nat size) bytes in write_frame p bs ;; mret (zlen bs)
  end.

Definition csp_if_udp_rx_work (iface : nat) (datagram : option (list Z)) : M Z :=
  packet ← csp_buffer_get;
  match packet with
  | None => mret CSP_ERR_NOMEM
  | Some p =>
      header_size ← csp_id_setup_rx p;
      received_len ← recv_into p (CSP_BUFFER_SIZE + header_size) datagram;
      if received_len <? header_size then csp_buffer_free (Some p) ;; mret CSP_ERR_NOMEM else
      mod_pkt p (set_frame_length (u16 received_len)) ;;
      r ← csp_id_strip p;
      if negb (r =? 0) then csp_buffer_free (Some p) ;; mret CSP_ERR_INVAL else
      csp_qfifo_write (Some p) (Some iface) false ;;
      mret CSP_ERR_NONE
  end.

(** One turn of [csp_if_udp_rx_loop]. *)
Definition udp_rx_turn (iface : nat) (datagram : option (list Z)) : M unit :=
  ret ← csp_if_udp_rx_work iface datagram;
  when (ret =? CSP_ERR_INVAL) (incr_rx_error iface).

(** The first loop of [csp_if_udp_rx_loop]: [sockets n] is what the [n]-th call of
    [socket] returns; the result of [bind] is not looked at.  [None] when the loop
    is not over. *)
Fixpoint udp_socket_loop (fuel : nat) (sockets : nat -> Z) (n : nat) (sockfd : Z) : option Z :=
  if negb (sockfd =? 0) then Some sockfd else
  match fuel with
  | O => None
  | S fuel' =>
      let sockfd := sockets n in
      if sockfd <? 0 then udp_socket_loop fuel' sockets (S n) sockfd else Some sockfd
  end.

End Udp.

(** [inet_aton] of the C library: the address a text stands for. *)
Class Inet := { inet_aton : list Z -> option Z }.

(** [csp_if_udp_init] of an interface with its configuration, without the start
    of the receive thread.  The address stays what it was when the host is not
    one. *)
Definition csp_if_udp_init `{Inet} (iface : nat) : M unit :=
  s ← gets id;
  d ← of_option (mjoin (udp s !! iface));
  (match inet_aton (udp_host d) with
   | Some a => modify (set_udp (<[iface := Some (set_peer_addr a d)]> (udp s)))
   | None => mret tt
   end) ;;
  mod_iface iface (set_if_name (Some [85; 68; 80])) ;;
  mod_iface iface (set_if_nexthop UDP_NEXTHOP) ;;
  csp_iflist_add (Some iface).

(** ** The encrypted tunnel *)

(** [csp_crypto_encrypt] and [csp_crypto_decrypt] of [csp_hooks.h] on the bytes
    they are given: the bytes they write, or [None] for the result -1. *)
Class Crypto := {
  csp_crypto_encrypt : list Z -> option (list Z);
  csp_crypto_decrypt : list Z -> option (list Z)
}.

(** The default ones, when the application supplies none. *)
Definition weak_crypto : Crypto := {| csp_crypto_encrypt _ := None; csp_crypto_decrypt _ := None |}.

Section Tun.
Context `{Crypto}.

(** The lengths are passed as [uint8_t]. *)
Definition tun_incoming (iface packet new_packet : nat) : M Z :=
  _ ← csp_id_setup_rx new_packet;
  k ← get_pkt packet;
  data ← read_mem packet 0 (u8 (pkt_length k));
  match csp_crypto_decrypt data with
  | None =>
      csp_buffer_free (Some new_packet) ;;
      csp_buffer_free (Some packet) ;;
      incr_rx_error iface ;;
      mret CSP_ERR_NONE
  | Some msg =>
      write_frame new_packet msg ;;
      mod_pkt new_packet (set_frame_length (u16 (zlen msg))) ;;
      csp_buffer_free (Some packet) ;;
      _ ← csp_id_strip new_packet;
      csp_qfifo_write (Some new_packet) (Some iface) false ;;
      mret CSP_ERR_NONE
  end.

(** Every field of the tunnel header but the flags, which are those of a new
    packet.  The result -1 becomes the length. *)
Definition tun_outgoing (iface packet new_packet : nat) (d : csp_tun) : M Z :=
  csp_id_prepend packet ;;
  k ← get_pkt packet;
  mod_pkt new_packet (fun n => set_pkt_length (frame_length k)
    (set_pkt_id (mkId (pri (pkt_id k)) (flags (pkt_id n)) (u16 (tun_src d)) (u16 (tun_dst d)) 0 0) n)) ;;
  frame ← read_frame packet (u8 (frame_length k));
  match csp_crypto_encrypt frame with
  | None => mod_pkt new_packet (set_pkt_length (u16 (-1)))
  | Some c => write_mem new_packet 0 c ;; mod_pkt new_packet (set_pkt_length (u16 (zlen c)))
  end ;;
  csp_buffer_free (Some packet) ;;
  csp_id_prepend new_packet ;;
  csp_qfifo_write (Some new_packet) (Some iface) false ;;
  mret CSP_ERR_NONE.

Definition csp_if_tun_tx (iface : nat) (via : Z) (packet : nat) (from_me : bool) : M Z :=
  s ← gets id;
  d ← of_option (mjoin (tun s !! iface));
  new_packet ← csp_buffer_get_always;
  k ← get_pkt packet;
  if dst (pkt_id k) =? tun_src d then tun_incoming iface packet new_packet
  else tun_outgoing iface packet new_packet d.

Definition csp_if_tun_init (iface : nat) : M unit :=
  mod_iface iface (set_if_name (Some [84; 85; 78])) ;;
  mod_iface iface (set_if_nexthop TUN_NEXTHOP) ;;
  csp_iflist_add (Some iface).

End Tun.
