(* ===== verification/Frames.v ===== *)
(** * Frames: a frame in a packet, from and to the link

    What the interfaces that carry whole frames share: a packet's frame after
    [csp_id_prepend], the packet [csp_id_strip] makes of a received frame, a new
    packet from the pool, and its place in the router queue.  [fixup] chooses
    the functions with the byte order of the version 1 ZMQ format. *)

From S2P Require Import Prelude State Monad Id Buffer Iflist Qfifo Own OwnIo OwnRdp Pbuf Links.

(** ** Frames in a packet *)

(** The packet has this header and these data. *)
Record carries (i : csp_id) (data : list Z) (k : csp_packet) : Prop := {
  car_id : pkt_id k = i;
  car_len : pkt_length k = zlen data;
  car_data : mem_read (pkt_mem k) CSP_PACKET_PADDING_BYTES (zlen data) = Some data
}.

(** The packet of buffer [p] holds the frame [bs], [hz] bytes below its data. *)
Record frame_in (hz : Z) (p : nat) (bs : list Z) (k : csp_packet) : Prop := {
  fr_buf : frame_buf k = p;
  fr_off : frame_off k = - hz;
  fr_len : frame_length k = zlen bs;
  fr_mem : zlen (pkt_mem k) = CSP_PACKET_PADDING_BYTES + CSP_BUFFER_SIZE;
  fr_bytes : mem_read (pkt_mem k) (CSP_PACKET_PADDING_BYTES - hz) (zlen bs) = Some bs
}.

Lemma strip_frame fixup p k s bs : pkt_at p s = Some k -> frame_in (hdr_size s) p bs k ->
  hdr_size s <= zlen bs <= CSP_BUFFER_SIZE + hdr_size s ->
  exists k', strip_any fixup p s = Ret 0 (put_pkt p k' s) /\ packet_ok k' /\
    carries (Id.dec s fixup (take (Z.to_nat (hdr_size s)) bs)) (drop (Z.to_nat (hdr_size s)) bs) k'.
Proof.
  intros Hk [Hb Ho Hl Hm Hr] Hlen. pose proof (hdr_size_bound s) as Hz. unfold CSP_PACKET_PADDING_BYTES, CSP_BUFFER_SIZE in *.
  pose proof (mem_read_slice _ _ _ _ 0 (hdr_size s) Hr ltac:(lia) ltac:(lia) ltac:(lia)) as Hh. rewrite Z.add_0_r, drop_0 in Hh.
  pose proof (mem_read_slice _ _ _ _ (hdr_size s) (zlen bs - hdr_size s) Hr ltac:(lia) ltac:(lia) ltac:(lia)) as Hd.
  exists (stripped (hdr_size s) (Id.dec s fixup (take (Z.to_nat (hdr_size s)) bs)) k).
  assert (Hu : u16 (frame_length k - hdr_size s) = zlen bs - hdr_size s) by (rewrite Hl; unfold u16; apply Z.mod_small; lia).
  split; [|split].
  - apply (strip_at fixup p k); [done|done|lia|]. rewrite Ho. exact Hh.
  - split; [done|]. simpl. rewrite Hu. unfold CSP_BUFFER_SIZE. lia.
  - assert (Edrop : zlen (drop (Z.to_nat (hdr_size s)) bs) = zlen bs - hdr_size s) by (rewrite length_drop; lia).
    split; simpl; [done|rewrite Hu; lia|]. rewrite Edrop. unfold CSP_PACKET_PADDING_BYTES.
    replace 8 with (8 - hdr_size s + hdr_size s) at 1 by lia. rewrite Hd. f_equal. apply take_ge. rewrite length_drop. lia.
Qed.

(** The frame of a packet after [csp_id_prepend]. *)
Lemma prepend_frame fixup p k s data : pkt_at p s = Some k -> packet_ok k ->
  mem_read (pkt_mem k) CSP_PACKET_PADDING_BYTES (pkt_length k) = Some data ->
  exists k', prepend_any fixup p s = Ret tt (put_pkt p k' s) /\ packet_ok k' /\ carries (pkt_id k) data k' /\
    frame_in (hdr_size s) p (enc s fixup (pkt_id k) ++ data) k'.
Proof.
  unfold packet_ok. intros Hk [Hm Hl] Hd. pose proof (hdr_size_bound s) as Hh. pose proof (length_enc s fixup (pkt_id k)) as He.
  pose proof (mem_read_length _ _ _ _ Hd) as Hdl.
  destruct (mem_write_ok (pkt_mem k) (CSP_PACKET_PADDING_BYTES + - hdr_size s) (enc s fixup (pkt_id k))) as [m Hw];
    [unfold CSP_PACKET_PADDING_BYTES, CSP_BUFFER_SIZE in *; lia..|].
  exists (framed p (hdr_size s) m k). pose proof (mem_write_length _ _ _ _ Hw) as Hml.
  split; [by apply (prepend_at fixup)|]. split; [split; simpl; [by rewrite Hml|done]|].
  assert (Hd' : mem_read m CSP_PACKET_PADDING_BYTES (pkt_length k) = Some data)
    by (rewrite (mem_read_write_after _ _ _ _ _ _ Hw) by lia; exact Hd).
  split; [split; simpl; [done|lia|rewrite <- Hd'; f_equal; lia]|].
  assert (Elen : zlen (enc s fixup (pkt_id k) ++ data) = hdr_size s + pkt_length k) by (rewrite length_app; lia).
  split; simpl; try done.
  - rewrite Elen. unfold u16. rewrite Z.mod_small; [lia|]. unfold CSP_BUFFER_SIZE in *. lia.
  - by rewrite Hml.
  - rewrite Elen. apply mem_read_app.
    + rewrite <- He at 2. by eapply mem_read_write.
    + replace (CSP_PACKET_PADDING_BYTES - hdr_size s + hdr_size s) with CSP_PACKET_PADDING_BYTES by lia. exact Hd'.
Qed.

(** The same for the functions without the fix-up. *)
Lemma plain_prepend_frame p k s data : pkt_at p s = Some k -> packet_ok k ->
  mem_read (pkt_mem k) CSP_PACKET_PADDING_BYTES (pkt_length k) = Some data ->
  exists k', csp_id_prepend p s = Ret tt (put_pkt p k' s) /\ packet_ok k' /\ carries (pkt_id k) data k' /\
    frame_in (hdr_size s) p (enc s false (pkt_id k) ++ data) k'.
Proof. exact (prepend_frame false p k s data). Qed.

Lemma plain_strip_frame p k s bs : pkt_at p s = Some k -> frame_in (hdr_size s) p bs k ->
  hdr_size s <= zlen bs <= CSP_BUFFER_SIZE + hdr_size s ->
  exists k', csp_id_strip p s = Ret 0 (put_pkt p k' s) /\ packet_ok k' /\
    carries (Id.dec s false (take (Z.to_nat (hdr_size s)) bs)) (drop (Z.to_nat (hdr_size s)) bs) k'.
Proof. exact (strip_frame false p k s bs). Qed.

(** Reading the frame back. *)
Lemma read_whole_frame p k s hz bs : pkt_at p s = Some k -> frame_in hz p bs k -> read_frame p (zlen bs) s = Ret bs s.
Proof.
  intros Hk [Hb Ho Hl Hm Hr]. unfold read_frame. rewrite (bind_ret _ _ _ _ _ (get_pkt_at _ _ _ Hk)), Hb, Ho.
  by apply (read_mem_at _ _ _ k).
Qed.

(** [csp_id_setup_rx], and a frame written at [frame_begin]. *)
Definition begun (hz : Z) (p : nat) (k : csp_packet) : csp_packet := set_frame_length 0 (set_frame_off (- hz) (set_frame_buf p k)).

Lemma write_frame_run p k s hz bs : pkt_at p s = Some (begun hz p k) -> packet_ok k -> 0 <= hz <= 8 -> zlen bs <= CSP_BUFFER_SIZE + hz ->
  exists m, write_frame p bs s = Ret tt (put_pkt p (set_pkt_mem m (begun hz p k)) s) /\ packet_ok (set_pkt_mem m (begun hz p k)) /\
    forall k', k' = set_frame_length (u16 (zlen bs)) (set_pkt_mem m (begun hz p k)) -> frame_in hz p bs k'.
Proof.
  unfold CSP_BUFFER_SIZE. intros Hk [Hm Hl] Hz Hb.
  destruct (mem_write_ok (pkt_mem k) (CSP_PACKET_PADDING_BYTES + - hz) bs) as [m Hw];
    [unfold CSP_PACKET_PADDING_BYTES, CSP_BUFFER_SIZE in *; lia..|]. pose proof (mem_write_length _ _ _ _ Hw) as Hml.
  exists m. split; [|split].
  - unfold write_frame. rewrite (bind_ret _ _ _ _ _ (get_pkt_at _ _ _ Hk)). by apply (write_mem_at _ _ _ _ _ _ Hk).
  - split; simpl; [by rewrite Hml|done].
  - intros k' ->. split; simpl; try done.
    + unfold u16. apply Z.mod_small. lia.
    + by rewrite Hml.
    + by eapply mem_read_write.
Qed.

(** ** A buffer from the pool *)

Lemma wp_get_some T h s reserve isr : Inv T h s -> (0 < q_size (csp_buffers s))%nat -> reserve <= Z.of_nat (q_size (csp_buffers s)) ->
  wp (csp_buffer_get_actual reserve isr) (fun r s' => exists p, r = Some p /\ Inv T (p :: h) s' /\ qfifo s' = qfifo s /\
    forall q, q ∈ h -> pkt_at q s' = pkt_at q s) s.
Proof.
  intros HI Hne Hr. apply (wp_mono _ (fun r s' => ((exists p, r = Some p /\ Inv T (p :: h) s') /\ held_same h s s') /\ qfifo s' = qfifo s)).
  { intros r s' [[(p & -> & H1) H2] H3]. by exists p. }
  apply (wp_keeps qfifo); [unfold csp_buffer_get_actual, csp_packet_init; keeps_tac|].
  pose proof (wp_buffer_get_actual T h s reserve isr HI) as Hw. apply wp_run in Hw as (r & s' & Hrun & H1 & H2).
  unfold wp. rewrite Hrun. split; [|exact H2]. destruct r as [p|]; [by exists p|]. exfalso. revert Hrun.
  unfold csp_buffer_get_actual. rewrite (bind_ret _ _ _ (csp_buffers s) s) by done. rewrite (proj2 (Z.ltb_ge _ _)) by lia.
  unfold q_dequeue. destruct (q_items (csp_buffers s)) as [|p q] eqn:E; [unfold q_size in Hne; rewrite E in Hne; simpl in Hne; lia|].
  assert (Hlt : (p < length (pool s))%nat) by (rewrite (inv_pool _ _ _ HI); apply (inv_free _ _ _ HI); rewrite E; left).
  destruct (lookup_lt_is_Some_2 (pool s) p Hlt) as [b Hb]. pose proof (inv_addr _ _ _ HI p b Hb) as Ha.
  intros Hrun. apply bind_Ret in Hrun as ([] & s1 & [= <-] & Hrun). apply bind_Ret in Hrun as (b' & s2 & Hg & Hrun).
  unfold get_skbf in Hg. simpl in Hg. rewrite Hb in Hg. injection Hg as <- <-. rewrite Ha, Nat.eqb_refl in Hrun. simpl negb in Hrun.
  apply bind_Ret in Hrun as ([] & s3 & _ & Hrun). apply bind_Ret in Hrun as ([] & s4 & _ & Hrun). discriminate Hrun.
Qed.

(** [csp_buffer_get] as the receiving side uses it. *)
Lemma wp_get_rx T h s : Inv T h s ->
  wp csp_buffer_get (fun r s' => (qfifo s' = qfifo s /\ conf s' = conf s) /\ ((2 <= q_size (csp_buffers s))%nat -> r <> None) /\
    match r with
    | Some p => Inv T (p :: h) s' /\ exists k, pkt_at p s' = Some k /\ packet_ok k
    | None => Inv T h s'
    end) s.
Proof.
  intros HI. pose proof (wp_buffer_get T h s HI) as Hw. apply wp_run in Hw as (r & s' & Hr & H1 & _).
  unfold wp. rewrite Hr. split; [|split].
  - assert (K : keeps (fun s => (qfifo s, conf s)) csp_buffer_get) by (unfold csp_buffer_get, csp_buffer_get_actual, csp_packet_init; keeps_tac).
    specialize (K s). rewrite Hr in K. by injection K as -> ->.
  - intros H2 ->. pose proof (wp_get_some T h s 2 false HI ltac:(lia) ltac:(lia)) as Hw. apply wp_run in Hw as (r & s2 & Hr2 & p & -> & _).
    unfold csp_buffer_get in Hr. congruence.
  - destruct r as [p|]; [|done]. split; [done|]. apply live_pkt. eapply Inv_live_h; [exact H1|left].
Qed.

(** Putting a frame of [bs] into a held packet and parsing it: the steps that
    reception from a socket and from the tunnel share. *)
Definition take_frame (fixup : bool) (p : nat) (bs : list Z) : M Z :=
  write_frame p bs ;;
  mod_pkt p (set_frame_length (u16 (zlen bs))) ;;
  strip_any fixup p.

Lemma take_frame_run fixup p k s bs : pkt_at p s = Some (begun (hdr_size s) p k) -> packet_ok k ->
  hdr_size s <= zlen bs <= CSP_BUFFER_SIZE + hdr_size s ->
  exists k', take_frame fixup p bs s = Ret 0 (put_pkt p k' s) /\ packet_ok k' /\
    carries (Id.dec s fixup (take (Z.to_nat (hdr_size s)) bs)) (drop (Z.to_nat (hdr_size s)) bs) k'.
Proof.
  intros Hk Hok Hlen. pose proof (hdr_size_bound s) as Hz.
  destruct (write_frame_run p k s (hdr_size s) bs Hk Hok ltac:(lia) ltac:(lia)) as (m & Hw & Hok1 & Hf).
  set (k1 := set_pkt_mem m (begun (hdr_size s) p k)) in *. pose proof (pkt_at_put p k1 _ s Hk) as K1.
  set (k2 := set_frame_length (u16 (zlen bs)) k1) in *. pose proof (pkt_at_put p k2 _ s Hk) as K2.
  destruct (strip_frame fixup p k2 (put_pkt p k2 s) bs K2 (Hf k2 eq_refl) Hlen) as (k3 & Hs & Hok3 & Hc). rewrite put_pkt_put in Hs.
  exists k3. split; [|split; [done|exact Hc]].
  unfold take_frame. rewrite (bind_ret _ _ _ _ _ Hw), (bind_ret _ _ _ _ _ (mod_pkt_at _ _ _ _ K1)), put_pkt_put. exact Hs.
Qed.

Lemma wp_take_frame {B} fixup p k s bs (f : Z -> M B) Q : pkt_at p s = Some (begun (hdr_size s) p k) -> packet_ok k ->
  hdr_size s <= zlen bs <= CSP_BUFFER_SIZE + hdr_size s ->
  (forall k', packet_ok k' -> carries (Id.dec s fixup (take (Z.to_nat (hdr_size s)) bs)) (drop (Z.to_nat (hdr_size s)) bs) k' ->
     wp (f 0) Q (put_pkt p k' s)) ->
  wp (write_frame p bs ;; mod_pkt p (set_frame_length (u16 (zlen bs))) ;; r ← strip_any fixup p; f r) Q s.
Proof.
  intros Hk Hok Hlen HQ. destruct (take_frame_run fixup p k s bs Hk Hok Hlen) as (k' & Hrun & Hok' & Hc).
  apply wp_bind_assoc, wp_bind_assoc, wp_bind. unfold wp at 1.
  assert (E : ((write_frame p bs ;; mod_pkt p (set_frame_length (u16 (zlen bs)))) ;; strip_any fixup p) s = take_frame fixup p bs s).
  { unfold take_frame, mbind, M_bind. by destruct (write_frame p bs s). }
  rewrite E, Hrun. by apply HQ.
Qed.

(** The last item of the router queue is a packet from [i] that satisfies [P]. *)
Definition queued (i : nat) (P : csp_packet -> Prop) (s : node) : Prop :=
  exists p k, list.last (q_items (qfifo s)) = Some (Some i, Some p) /\ pkt_at p s = Some k /\ P k.

Lemma wp_queue T h s i p isr k (P : csp_packet -> Prop) : Inv T (p :: h) s -> valid_if T i -> pkt_at p s = Some k ->
  wp (csp_qfifo_write (Some p) (Some i) isr) (fun _ s' => Inv T h s' /\
    ((q_size (qfifo s) < q_cap (qfifo s))%nat -> P k -> queued i P s')) s.
Proof.
  intros HI Hi Hk. apply wp_and; [by apply wp_qfifo_write|].
  pose proof (wp_qfifo_write T h s i p isr HI Hi) as Hw. apply wp_run in Hw as ([] & s' & Hr & _). unfold wp. rewrite Hr.
  intros Hroom HP. revert Hr. unfold csp_qfifo_write. rewrite (bind_ret _ _ _ (qfifo s) s) by done.
  unfold q_enqueue. rewrite decide_True by done. intros [= <-]. exists p, k. split; [|split; [exact Hk|exact HP]].
  simpl. apply last_snoc.
Qed.

Lemma dec_enc fixup s1 s2 i : is_v2 s1 = is_v2 s2 -> id_ok s1 i -> Id.dec s2 fixup (enc s1 fixup i) = i.
Proof. unfold id_ok, Id.dec, enc. intros <-. destruct (is_v2 s1); [apply dec2_enc2|apply dec1_enc1]. Qed.
