(* ===== verification/CanCfp1.v ===== *)
(** * CanCfp1: correctness of CAN fragmentation, version 1

    The receiver is safe on any frame, does not disturb the packets of other
    senders, and puts together what the transmitter took apart. *)

From S2P Require Import Prelude State Monad Id Buffer Iflist Qfifo Api Own OwnRdp Node Pbuf Reassembly Can Frames.

(** ** Dropping a packet whose length field is too large

    While [csp_can1_rx] looks at the length field of a BEGIN frame, the packet has
    that length, however large.  Freeing the packet does not look at it. *)

Definition relen (p : nat) (n : Z) (s : node) : node :=
  set_pool (alter (fun b => set_skbf_data (set_pkt_length n (skbf_data b)) b) p (pool s)) s.

Lemma relen_put p n k s : relen p n (put_pkt p k s) = put_pkt p (set_pkt_length n k) s.
Proof.
  unfold relen, put_pkt, set_pool. simpl. f_equal. apply list_eq. intros j. destruct (decide (p = j)) as [<-|].
  - rewrite !list_lookup_alter_eq. by destruct (pool s !! p).
  - by rewrite !list_lookup_alter_ne.
Qed.

(** A program that does the same whatever the length of [p]. *)
Definition lengthless {A} (p : nat) (m : M A) : Prop := forall n s a s', m s = Ret a s' -> m (relen p n s) = Ret a (relen p n s').

Lemma lengthless_bind {A B} p (m : M A) (f : A -> M B) : lengthless p m -> (forall a, lengthless p (f a)) -> lengthless p (mbind f m).
Proof.
  intros Hm Hf n s b s' Hr. apply bind_Ret in Hr as (a & s1 & H1 & H2). rewrite (bind_ret _ _ _ _ _ (Hm n _ _ _ H1)). by apply Hf.
Qed.

Lemma lengthless_ret {A} p (a : A) : lengthless p (mret a).
Proof. intros n s a' s' [= -> ->]. done. Qed.

Lemma lengthless_gets {A} p (f : node -> A) : (forall n s, f (relen p n s) = f s) -> lengthless p (gets f).
Proof. intros Hf n s a s' [= <- <-]. unfold gets. by rewrite Hf. Qed.

Lemma lengthless_modify p g : (forall n s, g (relen p n s) = relen p n (g s)) -> lengthless p (modify g).
Proof. intros H1 n s a s' [= <- <-]. unfold modify. by rewrite H1. Qed.

Lemma relen_lookup p n q s b : pool s !! q = Some b ->
  pool (relen p n s) !! q = Some (if decide (p = q) then set_skbf_data (set_pkt_length n (skbf_data b)) b else b).
Proof. intros Hb. unfold relen. simpl. destruct (decide (p = q)) as [<-|]; [rewrite list_lookup_alter_eq|rewrite list_lookup_alter_ne by done]; by rewrite Hb. Qed.

Lemma lengthless_mod_skbf p q f : (forall n b, f (set_skbf_data (set_pkt_length n (skbf_data b)) b) = set_skbf_data (set_pkt_length n (skbf_data (f b))) (f b)) ->
  lengthless p (mod_skbf q f).
Proof.
  intros Hf n s a s' Hr. unfold mod_skbf in *. destruct (pool s !! q) as [b|] eqn:Eb; [|done]. injection Hr as <- <-.
  rewrite (relen_lookup p n q s b Eb). f_equal. unfold relen, set_pool. simpl. f_equal.
  pose proof (lookup_lt_Some _ _ _ Eb) as Hlt. apply list_eq. intros i.
  destruct (decide (q = i)) as [<-|Hqi].
  - rewrite list_lookup_insert_eq by (by rewrite length_alter). destruct (decide (p = q)) as [<-|].
    + rewrite list_lookup_alter_eq, list_lookup_insert_eq by done. simpl. by rewrite Hf.
    + by rewrite list_lookup_alter_ne, list_lookup_insert_eq.
  - rewrite list_lookup_insert_ne by done. destruct (decide (p = i)) as [<-|].
    + by rewrite !list_lookup_alter_eq, list_lookup_insert_ne.
    + by rewrite !list_lookup_alter_ne, list_lookup_insert_ne.
Qed.

Lemma lengthless_get_skbf {B} p q (f : csp_skbf -> M B) : (forall b, lengthless p (f b)) ->
  (forall n b, f (set_skbf_data (set_pkt_length n (skbf_data b)) b) = f b) -> lengthless p (b ← get_skbf q; f b).
Proof.
  intros Hf Hn n s a s' Hr. apply bind_Ret in Hr as (b & s1 & H1 & H2). unfold get_skbf in H1. destruct (pool s !! q) as [b0|] eqn:Eb; [|done].
  injection H1 as -> ->. pose proof (relen_lookup p n q s1 b Eb) as E. unfold mbind, M_bind, get_skbf. rewrite E.
  destruct (decide (p = q)); [rewrite Hn|]; by apply Hf.
Qed.

Lemma lengthless_get_pkt {B} p q (f : csp_packet -> M B) : (forall k, lengthless p (f k)) ->
  (forall n k, f (set_pkt_length n k) = f k) -> lengthless p (k ← get_pkt q; f k).
Proof.
  intros Hf Hn n s a s'.
  assert (E : forall s, (k ← get_pkt q; f k) s = (b ← get_skbf q; f (skbf_data b)) s)
    by (intros s0; unfold get_pkt, mbind, M_bind, get_skbf; by destruct (pool s0 !! q)).
  rewrite !E. apply (lengthless_get_skbf p q (fun b => f (skbf_data b))); [intros b; apply Hf|]. intros n' b. apply Hn.
Qed.

Lemma lengthless_mod_iface p i f : lengthless p (mod_iface i f).
Proof. intros n s a s' Hr. unfold mod_iface in *. simpl. destruct (ifs s !! i); [|done]. by injection Hr as <- <-. Qed.

Lemma lengthless_head p d : lengthless p (pb_get d) /\ forall v, lengthless p (pb_set d v).
Proof.
  assert (E : forall n s, pb_head d (relen p n s) = pb_head d s) by (by destruct d). split; [|intros v]; intros n s a s' Hr; unfold pb_get, pb_set in *; rewrite E;
    (destruct (pb_head d s); [|done]); injection Hr as <- <-; [done|]. f_equal. by destruct d.
Qed.

Ltac lengthless_step :=
  lazymatch goal with
  | |- lengthless _ (mbind _ (get_skbf _)) => apply lengthless_get_skbf; [intros ?|reflexivity]
  | |- lengthless _ (mbind _ (get_pkt _)) => apply lengthless_get_pkt; [intros ?|reflexivity]
  | |- lengthless _ (mbind _ _) => apply lengthless_bind; [|intros ?]
  | |- lengthless _ (mret _) => apply lengthless_ret
  | |- lengthless _ (gets _) => apply lengthless_gets; reflexivity
  | |- lengthless _ (modify _) => apply lengthless_modify; reflexivity
  | |- lengthless _ (mod_skbf _ _) => apply lengthless_mod_skbf; reflexivity
  | |- lengthless _ (mod_pkt _ _) => apply lengthless_mod_skbf; reflexivity
  | |- lengthless _ (mod_iface _ _) => apply lengthless_mod_iface
  | |- lengthless _ (when ?b _) => destruct b; cbn [when]
  | |- lengthless _ (if ?b then _ else _) => destruct b
  | |- lengthless _ (match ?x with _ => _ end) => destruct x
  end.

Lemma lengthless_buffer_free p q isr : lengthless p (pb_buffer_free isr q).
Proof. unfold pb_buffer_free, csp_buffer_free_isr, csp_buffer_free, csp_buffer_free_pkt, set_errno. repeat lengthless_step. Qed.

Lemma lengthless_free_loop p d q bf isr : forall fuel prev packet, lengthless p (pb_free_loop fuel d q bf isr prev packet).
Proof.
  induction fuel as [|fuel IH]; intros prev [r|]; try apply lengthless_ret; cbn [pb_free_loop]; [intros n s a s' [=]|].
  apply lengthless_bind; [|intros []; apply lengthless_get_pkt; [intros k; apply IH|done]].
  destruct (Nat.eqb r q); cbn [when]; [|apply lengthless_ret]. apply lengthless_get_pkt; [intros k|done].
  apply lengthless_bind; [|intros []; destruct bf; [apply lengthless_buffer_free|apply lengthless_ret]].
  unfold pb_unlink. destruct prev; [lengthless_step|apply lengthless_head].
Qed.

Lemma lengthless_pbuf_free p d q bf isr : lengthless p (pbuf_free d q bf isr).
Proof. apply lengthless_bind; [apply lengthless_head|intros packet; apply lengthless_free_loop]. Qed.

(** ** Runs of the receiver's parts on one packet *)

(** A packet that is being put together. *)
Definition pbuf1_ok (p : nat) (k : csp_packet) : Prop := 0 <= rx_count k.

Lemma pbuf1_content p k k' : content k = content k' -> pbuf1_ok p k -> pbuf1_ok p k'.
Proof. unfold pbuf1_ok. intros E. by rewrite (f_equal rx_count E : rx_count k = rx_count k'). Qed.

(** The packet after a BEGIN frame with header [hdr] and length field [n]. *)
Definition headed1 (p : nat) (m : list Z) (hdr : list Z) (n : Z) (k : csp_packet) : csp_packet :=
  set_pkt_length n (stripped 4 (dec1 false hdr) (set_frame_length 4 (set_pkt_mem m (set_frame_off (-4) (set_frame_buf p k))))).
Definition begun1 (id : Z) (k : csp_packet) : csp_packet := set_remain (u16 (CFP_REMAIN id + 1)) (set_rx_count 0 k).

Lemma begin1_run i p id data dlc isr k hdr len s : is_v2 s = false -> pkt_at p s = Some k ->
  zlen (pkt_mem k) = CSP_PACKET_PADDING_BYTES + CSP_BUFFER_SIZE -> 6 <= dlc -> mem_read data 0 4 = Some hdr -> mem_read data 4 2 = Some len ->
  exists m, zlen m = zlen (pkt_mem k) /\ let k1 := headed1 p m hdr (be16toh (le_val len)) k in
    can1_begin i p id data dlc isr s =
      (if CSP_BUFFER_SIZE <? be16toh (le_val len) then incr_rx_error i ;; csp_can_pbuf_free i p true isr ;; mret false
       else fun s => Ret true (put_pkt p (begun1 id k1) s)) (put_pkt p k1 s).
Proof.
  intros Hv Hk Hm Hd Hr Hl. unfold CSP_PACKET_PADDING_BYTES, CSP_BUFFER_SIZE in Hm. pose proof (mem_read_length _ _ _ _ Hr) as Hh.
  assert (Hs : hdr_size s = 4) by (unfold hdr_size; by rewrite Hv).
  destruct (mem_write_ok (pkt_mem k) (8 + -4) hdr) as [m Hw]; [lia..|]. pose proof (mem_write_length _ _ _ _ Hw) as Hml.
  exists m. split; [lia|]. cbv zeta. unfold can1_begin. rewrite (proj2 (Z.ltb_ge dlc 6)) by lia.
  erewrite bind_ret by (by apply setup_rx_at). rewrite Hs. erewrite bind_ret by (by apply rx_bytes_at).
  erewrite bind_ret by (eapply get_pkt_at, pkt_at_put; exact Hk).
  erewrite bind_ret by (eapply write_mem_at; [eapply pkt_at_put; exact Hk|exact Hw]). rewrite put_pkt_put.
  erewrite bind_ret by (eapply mod_pkt_at, pkt_at_put; exact Hk). rewrite put_pkt_put.
  set (k2 := set_frame_length _ _). pose proof (pkt_at_put p k2 k s Hk) as K2.
  assert (Hst : csp_id_strip p (put_pkt p k2 s) = Ret 0 (put_pkt p (stripped 4 (dec1 false hdr) k2) s)).
  { change (csp_id_strip p) with (strip_any false p). rewrite (strip_at false p k2 (put_pkt p k2 s) hdr K2);
      change (hdr_size (put_pkt p k2 s)) with (hdr_size s); rewrite ?Hs; [|done|cbn; done|].
    - rewrite put_pkt_put. unfold dec. change (is_v2 (put_pkt p k2 s)) with (is_v2 s). by rewrite Hv.
    - change (CSP_PACKET_PADDING_BYTES + frame_off k2) with (8 + -4). change (pkt_mem k2) with m. rewrite <- Hh. by eapply mem_read_write. }
  erewrite bind_ret by exact Hst. erewrite bind_ret by (by apply rx_bytes_at).
  erewrite bind_ret by (eapply mod_pkt_at, pkt_at_put; exact Hk). rewrite put_pkt_put.
  erewrite bind_ret by (eapply get_pkt_at, pkt_at_put; exact Hk). cbn [pkt_length set_pkt_length].
  change (set_pkt_length (be16toh (le_val len)) (stripped 4 (dec1 false hdr) k2)) with (headed1 p m hdr (be16toh (le_val len)) k).
  destruct (CSP_BUFFER_SIZE <? _); [done|].
  erewrite bind_ret by (eapply mod_pkt_at, pkt_at_put; exact Hk). rewrite put_pkt_put.
  erewrite bind_ret by (eapply mod_pkt_at, pkt_at_put; exact Hk). by rewrite !put_pkt_put.
Qed.

(** The packet with the bytes of one more frame. *)
Definition grown1 (m : list Z) (n : Z) (k : csp_packet) : csp_packet :=
  set_rx_count (rx_count k + n) (set_pkt_mem m (set_remain (u16 (remain k - 1)) k)).

(** The end of a packet: a broadcast destination is rewritten, the packet leaves
    the list and is queued. *)
Definition can1_deliver (i p : nat) (isr : bool) (k : csp_packet) : M unit :=
  x ← get_iface i;
  when (dst (pkt_id k) =? 0x1F) (mod_pkt p (fun k => set_pkt_id (set_dst (if_addr x) (pkt_id k)) k)) ;;
  csp_can_pbuf_free i p false isr ;;
  csp_qfifo_write (Some p) (Some i) isr.

Lemma more1_run i p id data dlc off isr k prev bs s : pkt_at p s = Some k -> packet_ok k -> 0 <= rx_count k ->
  u16 (CFP_REMAIN id) = remain k - 1 -> mem_read data off (dlc - off) = Some bs -> 0 <= dlc - off -> rx_count k + dlc - off <= pkt_length k ->
  mem_read (pkt_mem k) CSP_PACKET_PADDING_BYTES (rx_count k) = Some prev ->
  exists m, can1_more i p id data dlc off isr s =
      (if rx_count k + (dlc - off) =? pkt_length k then can1_deliver i p isr (grown1 m (dlc - off) k) else mret tt) (put_pkt p (grown1 m (dlc - off) k) s) /\
    packet_ok (grown1 m (dlc - off) k) /\ mem_read m CSP_PACKET_PADDING_BYTES (rx_count k + (dlc - off)) = Some (prev ++ bs).
Proof.
  intros Hk [Hm Hl] H0 Hrem Hr Hn Hfit Hprev. unfold CSP_PACKET_PADDING_BYTES, CSP_BUFFER_SIZE in *.
  pose proof (mem_read_length _ _ _ _ Hr) as Hbs. pose proof (mem_read_length _ _ _ _ Hprev) as Hp.
  destruct (mem_write_ok (pkt_mem k) (8 + rx_count k) bs) as [m Hw]; [lia..|]. pose proof (mem_write_length _ _ _ _ Hw) as Hml.
  exists m. split_and!.
  - unfold can1_more. erewrite bind_ret by (by apply get_pkt_at). rewrite Hrem, Z.eqb_refl. cbv [negb].
    erewrite bind_ret by (by eapply mod_pkt_at). rewrite (proj2 (Z.ltb_ge _ _)) by lia. erewrite bind_ret by (by apply rx_bytes_at).
    erewrite bind_ret by (eapply write_mem_at; [eapply pkt_at_put; exact Hk|exact Hw]). rewrite put_pkt_put.
    erewrite bind_ret by (eapply mod_pkt_at, pkt_at_put; exact Hk). rewrite put_pkt_put.
    erewrite bind_ret by (eapply get_pkt_at, pkt_at_put; exact Hk). cbn [rx_count set_rx_count set_pkt_mem set_remain pkt_length].
    rewrite (u16_small (rx_count k + (dlc - off))) by lia.
    change (set_rx_count (rx_count k + (dlc - off)) _) with (grown1 m (dlc - off) k). by destruct (_ =? pkt_length k).
  - split; simpl; [by rewrite Hml|done].
  - apply mem_read_app.
    + erewrite mem_read_write_before by (first [exact Hw|lia]). done.
    + rewrite <- Hbs. by eapply mem_read_write.
Qed.

(** ** Safety *)

Section Safe.
Context `{Platform}.
Context (T : config) (i : nat) (h : list nat).
Context (Hver : version (cf_conf T) <> 2) (Hi : valid_if T i).

Lemma inv_is_v1 l s : Inv T l s -> is_v2 s = false.
Proof. intros HI. unfold is_v2. change (conf s) with (cf_conf (config_of s)). rewrite (inv_conf _ _ _ HI). by apply Z.eqb_neq. Qed.

Abbreviation Left := (Left (PbCan i) pbuf1_ok T h).
Abbreviation Busy := (Busy (PbCan i) T h).
(** The packet is no longer on the list. *)
Definition Gone (p : nat) (l0 : list nat) (s0 s : node) : Prop := exists l, (p ∉ l) /\ At (PbCan i) T h p l0 s0 (not_expired s0) l s.

Lemma wp_drop_oversize p l0 s0 l k n s isr : Busy p l0 s0 l k s ->
  wp (incr_rx_error i ;; csp_can_pbuf_free i p true isr ;; mret false) (fun b s' => b = false /\ Gone p l0 s0 s') (put_pkt p (set_pkt_length n k) s).
Proof.
  intros (HA & Hp & Hk).
  assert (W : wp (incr_rx_error i ;; csp_can_pbuf_free i p true isr ;; mret false) (fun b s' => b = false /\ refs s' = refs s /\ Gone p l0 s0 s') s).
  { apply wp_bind. eapply wp_conseq; [apply (wp_keeps refs); [unfold incr_rx_error; keeps_tac|by apply (wp_at_incr_rx_error (PbCan i) T h p l0 s0 (not_expired s0) l)]|].
    intros [] s1 [H1 E1]. apply wp_bind. unfold csp_can_pbuf_free.
    eapply wp_conseq; [apply (wp_keeps rest); [apply keeps_pbuf_free_rest|by apply (wp_at_drop (PbCan i) T h p l0 s0 (not_expired s0) l)]|].
    intros [] s2 [(l' & Hp' & H2) E2]. apply wp_ret. split; [done|]. split; [rewrite (rest_refs _ _ E2); exact E1|]. by exists l'. }
  apply wp_run in W as (b & s' & Hr & -> & Er & l' & Hp' & [HI HL Ho Hkeep]).
  assert (Hll : lengthless p (incr_rx_error i ;; csp_can_pbuf_free i p true isr ;; mret false)).
  { apply lengthless_bind; [apply lengthless_mod_iface|intros []]. apply lengthless_bind; [apply lengthless_pbuf_free|intros []; apply lengthless_ret]. }
  pose proof (Hll n _ _ _ Hr) as Hr'. rewrite <- (put_pkt_same _ _ _ Hk), relen_put in Hr' at 1. unfold wp. rewrite Hr'. split; [done|]. exists l'. split; [done|].
  pose proof (held_not_ref _ _ _ p (at_inv _ _ _ _ _ _ _ _ _ HA) ltac:(apply elem_of_app; by left)) as [Hnr _].
  assert (Hh : p ∉ h). { pose proof (held_nodup _ _ _ (at_inv _ _ _ _ _ _ _ _ _ HA)) as Hn. apply list.NoDup_app in Hn as (_ & Hn & _). by apply Hn. }
  assert (Ek : exists k', pkt_at p s' = Some k').
  { unfold pkt_at. destruct (lookup_lt_is_Some_2 (pool s') p) as [b Hb]; [|rewrite Hb; by eexists]. rewrite (inv_pool _ _ _ HI), <- (inv_pool _ _ _ (at_inv _ _ _ _ _ _ _ _ _ HA)).
    unfold pkt_at in Hk. destruct (pool s !! p) eqn:E; [by eapply lookup_lt_Some|done]. }
  destruct Ek as [k' Hk']. assert (E : relen p n s' = put_pkt p (set_pkt_length n k') s') by (by rewrite <- relen_put, (put_pkt_same _ _ _ Hk')).
  rewrite E. constructor; [|by apply (pbuf_list_pkt _ _ _ _ (set_pkt_length n))| |done].
  - apply Inv_put_any; [done|by rewrite Er|]. intros [Hin|Hin]%elem_of_app; done.
  - intros q Hq Hne. destruct (Ho q Hq Hne) as [H1 H2]. split; [done|]. rewrite <- H2. unfold content_at, pkt_at, put_pkt. simpl. by rewrite list_lookup_alter_ne.
Qed.

(** The packet as the router gets it: a broadcast destination is rewritten. *)
Definition local1 (addr : Z) (k : csp_packet) : csp_packet :=
  if dst (pkt_id k) =? 0x1F then set_pkt_id (set_dst addr (pkt_id k)) k else k.

Lemma wp_deliver1 p l0 s0 l s isr k : Busy p l0 s0 l k s ->
  wp (can1_deliver i p isr k) (fun _ s' => Gone p l0 s0 s' /\
    forall q' x, q_enqueue (Some i, Some p) (qfifo s) = Some q' -> ifs s !! i = Some x ->
      qfifo s' = q' /\ content_at p s' = Some (content (local1 (if_addr x) k))) s.
Proof.
  intros HB. pose proof HB as (HA & Hp & Hk). unfold can1_deliver. apply wp_bind.
  eapply wp_get_iface; [exact (at_inv _ _ _ _ _ _ _ _ _ HA)|done|]. intros x Hx.
  assert (W : wp (when (dst (pkt_id k) =? 0x1F) (mod_pkt p (fun k => set_pkt_id (set_dst (if_addr x) (pkt_id k)) k)))
    (fun _ s2 => Busy p l0 s0 l (local1 (if_addr x) k) s2 /\ qfifo s2 = qfifo s) s).
  { unfold local1. destruct (dst (pkt_id k) =? 0x1F); cbn [when]; [|by apply wp_ret]. unfold wp. rewrite (mod_pkt_at _ _ _ _ Hk). split; [|done].
    apply (busy_put _ _ _ _ _ _ _ _ _ (fun k => set_pkt_id (set_dst (if_addr x) (pkt_id k)) k) HB); [done|]. by apply (busy_pkt_ok _ _ _ _ _ _ _ _ _ HB). }
  apply wp_bind. eapply wp_conseq; [exact W|]. intros [] s2 [HB2 Eq].
  eapply wp_conseq; [by apply (wp_hand_on T i h p l0 s0 l s2 isr)|]. cbv beta. intros [] s4 [H4 Hq4]. split; [done|].
  intros q' x' Hq Hx'. rewrite Hx in Hx'. apply (inj Some) in Hx' as <-. apply Hq4. by rewrite Eq.
Qed.

Lemma wp_more1 p l0 s0 l s id data dlc off isr k : Busy p l0 s0 l k s -> pbuf1_ok p k -> 0 <= off <= dlc -> dlc <= zlen data ->
  wp (can1_more i p id data dlc off isr) (fun _ s' => exists l', Left p (cfpid k) l0 s0 l' s') s.
Proof.
  intros HB Hok Hoff Hd. pose proof HB as (HA & Hp & Hk). pose proof (busy_pkt_ok _ _ _ _ _ _ _ _ _ HB) as Hpk. pose proof Hpk as [Hm Hl].
  unfold pbuf1_ok in Hok. unfold CSP_PACKET_PADDING_BYTES, CSP_BUFFER_SIZE in *.
  assert (Hend : forall s', Gone p l0 s0 s' -> exists l', Left p (cfpid k) l0 s0 l' s') by (intros s' (l' & Hp' & HA'); exists l'; by apply left_gone).
  destruct (Z.eqb_spec (u16 (CFP_REMAIN id)) (remain k - 1)) as [Hrem|Hrem].
  2:{ unfold can1_more. apply wp_bind. unfold wp at 1. rewrite (get_pkt_at _ _ _ Hk). rewrite (proj2 (Z.eqb_neq _ _)) by done. cbv [negb].
      apply wp_bind. wp_use (by apply wp_at_can_errno). intros [] s1 H1. apply wp_bind. unfold csp_can_pbuf_free.
      wp_use (by apply (wp_at_drop (PbCan i) T h p l0 s0 (not_expired s0) l)). intros [] s2 (l' & Hp' & H2).
      wp_use (by apply (wp_at_incr_frame (PbCan i) T h p l0 s0 (not_expired s0) l')). intros [] s3 H3. apply Hend. by exists l'. }
  destruct (Z.ltb_spec (pkt_length k) (rx_count k + dlc - off)) as [Hov|Hfit].
  { unfold can1_more. apply wp_bind. unfold wp at 1. rewrite (get_pkt_at _ _ _ Hk). rewrite (proj2 (Z.eqb_eq _ _) Hrem). cbv [negb].
    apply wp_bind. unfold wp at 1. rewrite (mod_pkt_at _ _ _ _ Hk). rewrite (proj2 (Z.ltb_lt _ _)) by done.
    assert (HB1 : Busy p l0 s0 l (set_remain (u16 (remain k - 1)) k) (put_pkt p (set_remain (u16 (remain k - 1)) k) s))
      by (by apply (busy_put _ _ _ _ _ _ _ _ _ (set_remain (u16 (remain k - 1))) HB)). pose proof HB1 as (HA1 & _ & _).
    apply wp_bind. wp_use (by apply (wp_at_can_errno (PbCan i) T h p l0 s0 (not_expired s0) l)). intros [] s1 H1.
    apply wp_bind. wp_use (by apply (wp_at_incr_frame (PbCan i) T h p l0 s0 (not_expired s0) l)). intros [] s2 H2. unfold csp_can_pbuf_free.
    wp_use (by apply (wp_at_drop (PbCan i) T h p l0 s0 (not_expired s0) l)). intros [] s3 H3. by apply Hend. }
  destruct (mem_read_ok data off (dlc - off)) as [bs Hbs]; [lia..|].
  destruct (mem_read_ok (pkt_mem k) CSP_PACKET_PADDING_BYTES (rx_count k)) as [prev Hprev]; [unfold CSP_PACKET_PADDING_BYTES; lia..|].
  destruct (more1_run i p id data dlc off isr k prev bs s) as (m & E & Hok1 & _); try done; [lia|]. unfold wp. rewrite E.
  assert (HB1 : Busy p l0 s0 l (grown1 m (dlc - off) k) (put_pkt p (grown1 m (dlc - off) k) s)) by (by apply (busy_put _ _ _ _ _ _ _ _ _ (grown1 m (dlc - off)) HB)).
  destruct (_ =? pkt_length k).
  - eapply wp_conseq; [exact (wp_deliver1 p l0 s0 l _ isr _ HB1)|]. cbv beta. intros [] s2 [H2 _]. by apply Hend.
  - apply wp_ret. exists l. split; [apply HB1|]. intros _. eexists. split_and!; [apply HB1|unfold pbuf1_ok; simpl; lia|done].
Qed.

Lemma wp_can1_rx l id data dlc isr s : receiver (PbCan i) pbuf1_ok CFP_ID_CONN_MASK T h l s -> can_take l s -> 0 <= dlc <= zlen data ->
  wp (csp_can1_rx i id data dlc isr) (fun _ s' => exists l', receiver (PbCan i) pbuf1_ok CFP_ID_CONN_MASK T h l' s' /\ others_kept CFP_ID_CONN_MASK id l s l' s') s.
Proof.
  intros HR Htake Hd. pose proof HR as [HI HL Hok Hkeys]. unfold csp_can1_rx. apply wp_bind.
  wp_use (by apply (wp_can_rx_packet T i h l)). intros [p|] s1; cbv beta iota.
  2:{ intros (HI1 & HL1 & Hc & _). apply wp_ret. exists l. split; [|by intros ? ? ? ? ? ?].
      eapply (receiver_sub (PbCan i) pbuf1_ok); [exact pbuf1_content|done|done|done|]. auto. }
  intros (l1 & k & Hp & HA & Hk & Horg & _).
  assert (Hfin : forall s', (exists l', Left p (cfpid k) l s l' s') -> exists l', receiver (PbCan i) pbuf1_ok CFP_ID_CONN_MASK T h l' s' /\ others_kept CFP_ID_CONN_MASK id l s l' s').
  { intros s' (l' & Hl'). exists l'. eapply (left_receiver (PbCan i) pbuf1_ok); [exact pbuf1_content|done..]. }
  assert (Hend : forall s', Gone p l s s' -> exists l', Left p (cfpid k) l s l' s') by (intros s' (l' & Hp' & HA'); exists l'; by apply left_gone).
  assert (HB : Busy p l s l1 k s1) by done. pose proof (busy_pkt_ok _ _ _ _ _ _ _ _ _ HB) as Hpk. pose proof Hpk as [Hm Hl].
  apply wp_bind. eapply (wp_conseq _ (fun _ s' => exists l', Left p (cfpid k) l s l' s')); [|intros [] s' Hs'; apply wp_ret; by apply Hfin].
  destruct (CFP_TYPE id =? CFP_BEGIN) eqn:Eb; [|destruct (CFP_TYPE id =? CFP_MORE)].
  - apply wp_bind. destruct (Z.ltb_spec dlc 6) as [Hs|Hs].
    + unfold can1_begin. rewrite (proj2 (Z.ltb_lt _ _)) by done.
      apply wp_bind. wp_use (by apply wp_at_can_errno). intros [] s2 H2. apply wp_bind. wp_use (by apply wp_at_incr_frame).
      intros [] s3 H3. apply wp_bind. unfold csp_can_pbuf_free. wp_use (by apply (wp_at_drop (PbCan i) T h p l s (not_expired s) l1)).
      intros [] s4 H4. apply wp_ret, wp_ret. by apply Hend.
    + destruct (mem_read_ok data 0 4) as [hdr Hr]; [lia..|]. destruct (mem_read_ok data 4 2) as [len Hlen]; [lia..|].
      destruct (begin1_run i p id data dlc isr k hdr len s1) as (m & Hml & E); try done; [by eapply inv_is_v1, HA|]. cbv zeta in E.
      unfold wp at 1. rewrite E. destruct (Z.ltb_spec CSP_BUFFER_SIZE (be16toh (le_val len))) as [Hbig|Hfits].
      * assert (HB1 : Busy p l s l1 (headed1 p m hdr 0 k) (put_pkt p (headed1 p m hdr 0 k) s1)).
        { apply (busy_put _ _ _ _ _ _ _ _ _ (headed1 p m hdr 0) HB); [done|]. split; simpl; [by rewrite Hml|unfold CSP_BUFFER_SIZE; lia]. }
        pose proof (wp_drop_oversize p l s l1 _ (be16toh (le_val len)) _ isr HB1) as W. rewrite put_pkt_put in W.
        change (set_pkt_length (be16toh (le_val len)) (headed1 p m hdr 0 k)) with (headed1 p m hdr (be16toh (le_val len)) k) in W.
        eapply wp_conseq; [exact W|]. cbv beta. intros b s2 [-> H2]. apply wp_ret. by apply Hend.
      * rewrite put_pkt_put. set (k2 := begun1 id (headed1 p m hdr (be16toh (le_val len)) k)).
        assert (HB2 : Busy p l s l1 k2 (put_pkt p k2 s1)).
        { apply (busy_put _ _ _ _ _ _ _ _ _ (fun k => begun1 id (headed1 p m hdr (be16toh (le_val len)) k)) HB); [done|]. split; simpl; [by rewrite Hml|].
          split; [apply (htobe16_range (le_val len))|done]. }
        cbn [when]. apply (wp_more1 p l s l1 _ id data dlc 6 isr k2 HB2); [unfold pbuf1_ok; simpl; lia|lia|lia].
  - destruct Horg as [(k0 & Hpl & Hk0 & _ & Hc)|(now & ? & _)]; [|done].
    apply (wp_more1 p l s l1 _ id data dlc 0 isr k HB); [|lia|lia]. eapply pbuf1_content; [symmetry; exact Hc|]. exact (Hok p k0 Hpl Hk0).
  - apply wp_bind. wp_use (by apply wp_at_can_errno). intros [] s2 H2. unfold csp_can_pbuf_free.
    wp_use (by apply (wp_at_drop (PbCan i) T h p l s (not_expired s) l1)). intros [] s3 H3. by apply Hend.
Qed.

End Safe.

(** ** The identifiers of the frames of a packet *)

(** What the frames of a packet share. *)
Definition can1_key (src' dest ident : Z) : Z := (src' mod 32) * 2 ^ 24 + (dest mod 32) * 2 ^ 19 + ident mod 1024.

(** What the receiver reads off an identifier. *)
Record frame1_id (key type rem id : Z) : Prop := {
  f1_key : Z.land id CFP_ID_CONN_MASK = key;
  f1_type : CFP_TYPE id = type;
  f1_remain : CFP_REMAIN id = rem
}.

Lemma make_field z n k : 0 <= n -> 0 <= k -> n + k <= 32 -> CFP_MAKE_FIELD z n k = (z mod 2 ^ n) * 2 ^ k.
Proof.
  intros Hn Hk Hnk. unfold CFP_MAKE_FIELD. rewrite (Z.shiftl_mul_pow2 1) by done. rewrite Z.mul_1_l, land_hostmask by done. rewrite Z.shiftl_mul_pow2 by done.
  pose proof (Z.mod_pos_bound z (2 ^ n) ltac:(lia)). apply u32_small. split; [lia|].
  apply (Z.lt_le_trans _ (2 ^ n * 2 ^ k)); [apply Z.mul_lt_mono_pos_r; lia|]. rewrite <- Z.pow_add_r by done. by apply (Z.pow_le_mono_r 2 (n + k) 32).
Qed.

Lemma can1_id_sum src' dest ident t r : 0 <= t < 2 -> 0 <= r < 256 ->
  can1_id src' dest ident t r = (src' mod 32) * 2 ^ 24 + (dest mod 32) * 2 ^ 19 + t * 2 ^ 18 + r * 2 ^ 10 + ident mod 1024.
Proof.
  intros Ht Hr. unfold can1_id, CFP_MAKE_SRC, CFP_MAKE_DST, CFP_MAKE_ID, CFP_MAKE_TYPE, CFP_MAKE_REMAIN, CFP_HOST_SIZE, CFP_TYPE_SIZE, CFP_REMAIN_SIZE, CFP_ID_SIZE.
  rewrite !make_field by done. simpl (_ + _). change (2 ^ 5) with 32. change (2 ^ 10) with 1024 at 1. change (2 ^ 1) with 2. change (2 ^ 8) with 256.
  rewrite (Z.mod_small t), (Z.mod_small r) by lia.
  pose proof (Z.mod_pos_bound src' 32 ltac:(lia)). pose proof (Z.mod_pos_bound dest 32 ltac:(lia)). pose proof (Z.mod_pos_bound ident 1024 ltac:(lia)).
  rewrite (lor_swap (Z.lor _ _) (ident mod _ * _)), (lor_swap _ (ident mod _ * _)). change (2 ^ 0) with 1. rewrite Z.mul_1_r.
  rewrite (lor_add (src' mod 32 * 2 ^ 24) _ 24) by zlia. rewrite (lor_add _ (t * 2 ^ 18) 19) by zlia.
  rewrite (lor_add _ (r * 2 ^ 10) 18) by zlia. rewrite (lor_add _ (ident mod 1024) 10) by zlia. reflexivity.
Qed.

Lemma can1_frame src' dest ident t r : 0 <= t < 2 -> 0 <= r < 256 -> frame1_id (can1_key src' dest ident) t r (can1_id src' dest ident t r).
Proof.
  intros Ht Hr. rewrite (can1_id_sum src' dest ident t r Ht Hr). unfold can1_key.
  pose proof (Z.mod_pos_bound src' 32 ltac:(lia)) as H1. pose proof (Z.mod_pos_bound dest 32 ltac:(lia)) as H2. pose proof (Z.mod_pos_bound ident 1024 ltac:(lia)) as H3.
  revert H1 H2 H3. generalize (src' mod 32) as S, (dest mod 32) as D, (ident mod 1024) as I. intros S D I HS HD HI.
  set (id := S * 2 ^ 24 + _ + _ + _ + _). constructor.
  - assert (Em : CFP_ID_CONN_MASK = Z.lor (Z.shiftl (Z.ones 10) 19) (Z.ones 10)) by reflexivity.
    rewrite Em, Z.land_lor_distr_r, land_window, Z.land_ones by lia. rewrite (lor_add _ _ 19) by zlia. unfold id. zlia.
  - unfold CFP_TYPE, CFP_FIELD, CFP_REMAIN_SIZE, CFP_ID_SIZE, CFP_TYPE_SIZE. simpl (8 + 10). rewrite Z.shiftr_div_pow2 by lia.
    rewrite u32_small by (unfold id; zlia). change (Z.shiftl 1 1 - 1) with (2 ^ 1 - 1). rewrite land_hostmask by lia. unfold id. zlia.
  - unfold CFP_REMAIN, CFP_FIELD, CFP_REMAIN_SIZE, CFP_ID_SIZE. rewrite Z.shiftr_div_pow2 by lia.
    rewrite u32_small by (unfold id; zlia). change (Z.shiftl 1 8 - 1) with (2 ^ 8 - 1). rewrite land_hostmask by lia. unfold id. zlia.
Qed.

(** ** The frames of a packet *)

(** The frames after the first: eight bytes each, with the number of frames
    that follow. *)
Fixpoint can1_chunks (n : nat) (src' dest ident : Z) (data : list Z) : list can_frame :=
  match n, data with
  | S n', _ :: _ => (can1_id src' dest ident CFP_MORE ((zlen (drop 8 data) + 7) / 8), take 8 data) :: can1_chunks n' src' dest ident (drop 8 data)
  | _, _ => []
  end.

Lemma chunks1_fuel src' dest ident : forall n n' data, (length data <= n)%nat -> (length data <= n')%nat ->
  can1_chunks n src' dest ident data = can1_chunks n' src' dest ident data.
Proof.
  induction n as [|n IH]; intros n' [|b data] Hn Hn'; try (simpl in *; lia); [by destruct n'..|].
  destruct n' as [|n']; [simpl in Hn'; lia|]. cbn [can1_chunks]. f_equal. apply IH; rewrite length_drop; simpl in *; lia.
Qed.

Definition can1_frames (id : csp_id) (dest ident : Z) (data : list Z) : list can_frame :=
  (can1_id (src id) dest ident CFP_BEGIN ((zlen data + 5) / 8), enc1 false id ++ be_bytes 2 (zlen data) ++ take 2 data)
    :: can1_chunks (length data) (src id) dest ident (drop 2 data).

(** ** The transmitter *)

Section Tx1.
Context `{Drivers}.
Context (Hdrv : forall n, drv_tx n = CSP_ERR_NONE).

(** The next [m] bytes, or what is left. *)
Lemma slice_min (mem : list Z) L data tx (m : nat) n : mem_read mem CSP_PACKET_PADDING_BYTES L = Some data -> 0 <= tx <= L ->
  n = Z.min (Z.of_nat m) (L - tx) -> mem_read mem (CSP_PACKET_PADDING_BYTES + tx) n = Some (take m (drop (Z.to_nat tx) data)).
Proof.
  intros Hr Ht ->. pose proof (mem_read_length _ _ _ _ Hr) as Hd. rewrite (mem_read_slice _ _ _ data tx _ Hr) by lia. f_equal.
  destruct (Z.min_spec (Z.of_nat m) (L - tx)) as [[_ ->]|[Hle ->]]; [by rewrite Nat2Z.id|].
  by rewrite !take_ge by (rewrite length_drop; lia).
Qed.

Lemma tx1_more_run i p k ident dest data : forall fuel tx s, pkt_at p s = Some k -> pkt_length k < 2 ^ 16 ->
  mem_read (pkt_mem k) CSP_PACKET_PADDING_BYTES (pkt_length k) = Some data -> 0 <= tx <= pkt_length k ->
  (Z.to_nat (pkt_length k - tx) < fuel)%nat ->
  can1_tx_more fuel i p ident dest tx s =
    (csp_buffer_free (Some p) ;; mret CSP_ERR_NONE) (put_frames i (can1_chunks (Z.to_nat (pkt_length k - tx)) (src (pkt_id k)) dest ident (drop (Z.to_nat tx) data)) s).
Proof.
  induction fuel as [|fuel IH]; intros tx s Hk H16 Hr Ht Hf; [lia|]. pose proof (mem_read_length _ _ _ _ Hr) as Hd.
  cbn [can1_tx_more]. erewrite bind_ret by (by apply get_pkt_at).
  assert (Hdl : zlen (drop (Z.to_nat tx) data) = pkt_length k - tx) by (rewrite length_drop; lia).
  destruct (Z.ltb_spec tx (pkt_length k)) as [Hlt|Hge].
  2:{ replace (Z.to_nat (pkt_length k - tx)) with O by lia. unfold put_frames. simpl. by destruct s. }
  cbv zeta. unfold CAN_FRAME_SIZE. set (n := if 8 <=? pkt_length k - tx then 8 else pkt_length k - tx).
  assert (Hn : n = Z.min (Z.of_nat 8) (pkt_length k - tx)) by (unfold n; destruct (Z.leb_spec 8 (pkt_length k - tx)); lia).
  assert (Hu : u16 (tx + n) = tx + n) by (apply u16_small; lia). rewrite Hu. replace (tx + n - n) with tx by lia.
  erewrite bind_ret by (eapply read_mem_at; [exact Hk|by eapply slice_min]). rewrite (tx_frame_run Hdrv).
  rewrite IH by (done || lia). rewrite put_frames_app. do 2 f_equal.
  destruct (Z.to_nat (pkt_length k - tx)) as [|m] eqn:Em; [lia|].
  destruct (drop (Z.to_nat tx) data) as [|b bs] eqn:Edr; [simpl in Hdl; lia|]. rewrite <- Edr in *.
  assert (E8 : zlen (drop 8 (drop (Z.to_nat tx) data)) = pkt_length k - tx - n) by (rewrite length_drop; lia).
  assert (Ech : can1_chunks (S m) (src (pkt_id k)) dest ident (drop (Z.to_nat tx) data) =
    (can1_id (src (pkt_id k)) dest ident CFP_MORE ((zlen (drop 8 (drop (Z.to_nat tx) data)) + 7) / 8), take 8 (drop (Z.to_nat tx) data)) ::
     can1_chunks m (src (pkt_id k)) dest ident (drop 8 (drop (Z.to_nat tx) data))) by (rewrite Edr; done).
  rewrite Ech, E8. simpl app. f_equal; [f_equal; f_equal; f_equal; lia|].
  rewrite drop_drop. replace (Z.to_nat tx + 8)%nat with (Z.to_nat (tx + 8)) by lia.
  destruct (Z.leb_spec 8 (pkt_length k - tx)) as [H8|H8].
  - replace (tx + n) with (tx + 8) by lia. apply chunks1_fuel; rewrite length_drop; lia.
  - rewrite (drop_ge _ (Z.to_nat (tx + n))), (drop_ge _ (Z.to_nat (tx + 8))) by lia. apply chunks1_fuel; simpl; lia.
Qed.

(** [csp_can1_tx] sends the frames of the packet and frees it. *)
Lemma tx1_run i via p from_me k x d data s : is_v2 s = false -> pkt_at p s = Some k -> packet_ok k -> ifs s !! i = Some x -> can s !! i = Some (Some d) ->
  dst (pkt_id k) <> if_addr x -> mem_read (pkt_mem k) CSP_PACKET_PADDING_BYTES (pkt_length k) = Some data ->
  exists s', csp_can1_tx i via p from_me s = Ret CSP_ERR_NONE s' /\
    wire s' = wire (put_frames i (can1_frames (pkt_id k) (u8 (if negb (via =? CSP_NO_VIA_ADDRESS) then via else dst (pkt_id k))) (cfp_packet_counter d) data) s).
Proof.
  intros Hv Hk Hok Hx Hd Hne Hr. pose proof (mem_read_length _ _ _ _ Hr) as Hl. pose proof Hok as [Hm Hpl]. unfold CSP_BUFFER_SIZE in Hpl.
  set (dest := u8 _). set (ident := cfp_packet_counter d).
  set (s1 := set_can (<[i := Some (set_cfp_packet_counter (u32 (ident + 1)) d)]> (can s)) s).
  assert (K1 : pkt_at p s1 = Some k) by done. assert (Hs : hdr_size s1 = 4) by (unfold hdr_size; change (is_v2 s1) with (is_v2 s); by rewrite Hv).
  destruct (plain_prepend_frame p k s1 data K1 Hok Hr) as (k2 & Hrun & Hok2 & Hc & Hf). pose proof (pkt_at_put p k2 k s1 K1) as K2.
  assert (El : pkt_length k2 = pkt_length k) by (rewrite (car_len _ _ _ Hc); lia). assert (Ei : pkt_id k2 = pkt_id k) by apply (car_id _ _ _ Hc).
  assert (Hr2 : mem_read (pkt_mem k2) CSP_PACKET_PADDING_BYTES (pkt_length k) = Some data) by (rewrite <- Hl; apply (car_data _ _ _ Hc)).
  set (s2 := put_pkt p k2 s1) in *. set (s3 := put_frames i (can1_frames (pkt_id k) dest ident data) s2).
  assert (Hb : exists b, pool s3 !! p = Some b) by (unfold pkt_at in K2; change (pool s3) with (pool s2); destruct (pool s2 !! p); by eauto).
  destruct Hb as [b Hb]. destruct (free_keeps_wire p b s3 Hb) as (s' & Hfree & Hw). exists s'. split; [|done].
  unfold csp_can1_tx. erewrite bind_ret by (by apply get_pkt_at). erewrite bind_ret by (by apply get_iface_at).
  rewrite (proj2 (Z.eqb_neq _ _)) by done. erewrite bind_ret by (by apply get_can_at). cbv zeta. fold ident.
  erewrite bind_ret by (by apply mod_can_at). fold s1 dest. erewrite bind_ret by exact Hrun.
  assert (Hhd : read_frame p CFP1_CSP_HEADER_SIZE s2 = Ret (enc1 false (pkt_id k)) s2).
  { destruct Hf as [Fb Fo _ _ Fr]. unfold read_frame. rewrite (bind_ret _ _ _ _ _ (get_pkt_at _ _ _ K2)), Fb, Fo, Hs. rewrite Hs in Fr.
    assert (He : enc s1 false (pkt_id k) = enc1 false (pkt_id k)) by (unfold enc; change (is_v2 s1) with (is_v2 s); by rewrite Hv).
    pose proof (length_le_bytes 4 (htobe32 (id1_pack (pkt_id k)))) as H4. change (le_bytes 4 (htobe32 (id1_pack (pkt_id k)))) with (enc1 false (pkt_id k)) in H4.
    rewrite He in Fr. apply (read_mem_at _ _ _ k2); [exact K2|].
    pose proof (mem_read_slice _ _ _ _ 0 4 Fr ltac:(lia) ltac:(lia) ltac:(rewrite length_app; lia)) as Hsl. rewrite drop_0 in Hsl.
    rewrite (take_app_le _ _ (Z.to_nat 4)), take_ge in Hsl by lia. exact Hsl. }
  erewrite bind_ret by exact Hhd. set (n := if pkt_length k <=? CFP1_DATA_SIZE_BEGIN then _ else _).
  assert (Hn : n = Z.min (Z.of_nat 2) (pkt_length k - 0)) by (unfold n, CFP1_DATA_SIZE_BEGIN; destruct (Z.leb_spec (pkt_length k) 2); lia).
  erewrite bind_ret by (eapply read_mem_at; [exact K2|by eapply (slice_min _ _ _ 0); [exact Hr2|lia|exact Hn]]). rewrite (tx_frame_run Hdrv).
  rewrite <- El. rewrite (tx1_more_run i p k2 ident dest data) by (rewrite ?El; done || lia). rewrite put_frames_app, Ei, El.
  assert (Ef : [(can1_id (src (pkt_id k)) dest ident CFP_BEGIN ((pkt_length k + CFP1_DATA_OFFSET - 1) / CAN_FRAME_SIZE),
      enc1 false (pkt_id k) ++ le_bytes 2 (htobe16 (pkt_length k)) ++ take 2 data)] ++
      can1_chunks (Z.to_nat (pkt_length k - n)) (src (pkt_id k)) dest ident (drop (Z.to_nat n) data) = can1_frames (pkt_id k) dest ident data).
  { unfold can1_frames, CFP1_DATA_OFFSET, CAN_FRAME_SIZE. apply (f_equal2 cons).
    - apply (f_equal2 pair); [f_equal; f_equal; lia|]. apply (f_equal (app _)), (f_equal (fun l => l ++ _)). rewrite <- Hl. apply (le_bytes_swap 2).
    - destruct (Z.leb_spec (pkt_length k) 2).
      + rewrite (drop_ge _ (Z.to_nat n)), (drop_ge _ 2) by lia. apply chunks1_fuel; simpl; lia.
      + replace (Z.to_nat n) with 2%nat by lia. apply chunks1_fuel; rewrite length_drop; lia. }
  change (drop (Z.to_nat 0) data) with data. rewrite Ef. fold s3. by erewrite bind_ret by exact Hfree.
Qed.
End Tx1.

(** ** The receiver puts a packet together *)

Section Reassemble.
Context `{Platform}.
Context (T : config) (i : nat) (h : list nat).
Context (Hver : version (cf_conf T) <> 2) (Hi : valid_if T i).

Abbreviation Rcv := (receiver (PbCan i) pbuf1_ok CFP_ID_CONN_MASK T h).

(** The packet with identifier [key] is on the list: of its [len] bytes [bytes]
    have arrived, and [rem] frames are to come. *)
Record part1 (key rem : Z) (id : csp_id) (len : Z) (bytes : list Z) (k : csp_packet) : Prop := {
  p1_key : Z.land (cfpid k) CFP_ID_CONN_MASK = key;
  p1_rem : remain k = rem;
  p1_id : pkt_id k = id;
  p1_len : pkt_length k = len;
  p1_count : rx_count k = zlen bytes;
  p1_mem : mem_read (pkt_mem k) CSP_PACKET_PADDING_BYTES (zlen bytes) = Some bytes
}.
Definition partly1 (key rem : Z) (id : csp_id) (len : Z) (bytes : list Z) (l : list nat) (s : node) : Prop :=
  exists p k, p ∈ l /\ pkt_at p s = Some k /\ part1 key rem id len bytes k.

Lemma part1_content key rem id len bytes k k' : content k' = content k -> part1 key rem id len bytes k -> part1 key rem id len bytes k'.
Proof.
  intros Hc [H1 H2 H3 H4 H5 H6]. assert (E : forall {A} (f : csp_packet -> A), f (content k') = f (content k)) by (intros; by rewrite Hc).
  constructor; [rewrite <- H1; f_equal; exact (E _ cfpid)|rewrite <- H2; exact (E _ remain)|rewrite <- H3; exact (E _ pkt_id)
    |rewrite <- H4; exact (E _ pkt_length)|rewrite <- H5; exact (E _ rx_count)|]. rewrite <- H6. f_equal. exact (E _ pkt_mem).
Qed.

(** The destination as the router sees it. *)
Definition local_dst1 (addr : Z) (id : csp_id) : csp_id := if dst id =? 0x1F then set_dst addr id else id.

(** The packet is the newest in the router queue. *)
Definition arrived1 (addr : Z) (id : csp_id) (data : list Z) (s : node) : Prop :=
  exists p k, list.last (q_items (qfifo s)) = Some (Some i, Some p) /\ pkt_at p s = Some k /\
    pkt_id k = local_dst1 addr id /\ pkt_length k = zlen data /\ mem_read (pkt_mem k) CSP_PACKET_PADDING_BYTES (zlen data) = Some data.

(** What a frame of the packet leads to: more of it, or all of it. *)
Definition advanced1 (addr key rem : Z) (id : csp_id) (len : Z) (bytes : list Z) (s : node) : Prop :=
  if zlen bytes =? len then arrived1 addr id bytes s else exists l, Rcv l s /\ partly1 key rem id len bytes l s.

Lemma any_frame1 l s id data isr : Rcv l s -> quiet i s = true ->
  wp (csp_can1_rx i id data (zlen data) isr) (fun _ s' => exists l', Rcv l' s' /\ others_kept CFP_ID_CONN_MASK id l s l' s') s.
Proof. intros HR HQ. destruct (quiet_take T i h _ _ l s HR HQ) as (Htake & _ & _). apply (wp_can1_rx T i h Hver Hi l); [done|done|lia]. Qed.

(** A frame of another packet. *)
Lemma other_frame1 l s key rem pid len bytes id data isr : Rcv l s -> quiet i s = true -> partly1 key rem pid len bytes l s ->
  Z.land id CFP_ID_CONN_MASK <> key ->
  wp (csp_can1_rx i id data (zlen data) isr) (fun _ s' => exists l', Rcv l' s' /\ partly1 key rem pid len bytes l' s') s.
Proof.
  intros HR HQ (p & k & Hp & Hk & Hpt) Hne. destruct (quiet_take T i h _ _ l s HR HQ) as (_ & Hun & _).
  eapply wp_conseq; [by apply (any_frame1 l)|]. cbv beta. intros r s' (l' & HR' & Hoth). exists l'. split; [done|].
  destruct (Hoth p k) as [Hp' Hc]; [done|done| |by apply Hun|].
  { unfold key_match. apply Z.eqb_neq. by rewrite (p1_key _ _ _ _ _ _ Hpt). }
  unfold content_at in Hc. rewrite Hk in Hc. destruct (pkt_at p s') as [k'|] eqn:Hk'; [|done]. apply (inj Some) in Hc.
  exists p, k'. split_and!; [done..|]. by eapply part1_content.
Qed.

(** Appending one of the packet's own frames. *)
Lemma own_more1 p l0 s0 l s fid data dlc off isr k key rem id len bytes bs x : Busy (PbCan i) T h p l0 s0 l k s -> part1 key (rem + 1) id len bytes k ->
  CFP_REMAIN fid = rem -> 0 <= rem < 256 -> mem_read data off (dlc - off) = Some bs -> 0 <= dlc - off -> zlen bytes + (dlc - off) <= len ->
  ifs s !! i = Some x -> (q_size (qfifo s) < q_cap (qfifo s))%nat ->
  wp (can1_more i p fid data dlc off isr) (fun _ s' =>
    if zlen (bytes ++ bs) =? len then arrived1 (if_addr x) id (bytes ++ bs) s'
    else forall l', pbuf_list (PbCan i) l' s' -> partly1 key rem id len (bytes ++ bs) l' s') s.
Proof.
  intros HB [Hkey Hrem Hid Hlen Hcnt Hmem] Fr Hr256 Hr Hn Hfit Hx Hroom. pose proof HB as (HA & Hp & Hk). pose proof (mem_read_length _ _ _ _ Hr) as Hbs.
  destruct (more1_run i p fid data dlc off isr k bytes bs s) as (m & E & Hok1 & Hr1);
    [done|by apply (busy_pkt_ok _ _ _ _ _ _ _ _ _ HB)|lia|rewrite Fr, u16_small; lia|done|done|lia|by rewrite Hcnt|].
  unfold wp. rewrite E. set (k1 := grown1 m (dlc - off) k) in *. rewrite Hcnt in Hr1.
  assert (HB1 : Busy (PbCan i) T h p l0 s0 l k1 (put_pkt p k1 s)) by (by apply (busy_put _ _ _ _ _ _ _ _ _ (grown1 m (dlc - off)) HB)).
  assert (Eall : zlen (bytes ++ bs) = zlen bytes + (dlc - off)) by (rewrite length_app; lia). rewrite Hcnt, Hlen, <- Eall. rewrite <- Eall in Hr1.
  destruct (zlen (bytes ++ bs) =? len) eqn:Eend.
  - eapply wp_conseq; [exact (wp_deliver1 T i h Hi p l0 s0 l _ isr k1 HB1)|]. cbv beta. intros [] s' [_ Harr].
    destruct (Harr (Queue (q_cap (qfifo s)) (q_items (qfifo s) ++ [(Some i, Some p)])) x) as [Hq Hc]; [|done|].
    { unfold q_enqueue. simpl. by rewrite decide_True. }
    unfold content_at in Hc. destruct (pkt_at p s') as [k'|] eqn:Hk'; [|done]. apply (inj Some) in Hc.
    assert (Ek : forall {A} (f : csp_packet -> A), f (content k') = f (content (local1 (if_addr x) k1))) by (intros; by rewrite Hc).
    assert (Efs : pkt_id (local1 (if_addr x) k1) = local_dst1 (if_addr x) id /\ pkt_length (local1 (if_addr x) k1) = len /\ pkt_mem (local1 (if_addr x) k1) = m).
    { unfold local1, local_dst1. change (pkt_id k1) with (pkt_id k). rewrite Hid. by destruct (dst id =? 0x1F). }
    destruct Efs as (E1 & E2 & E3). apply Z.eqb_eq in Eend. exists p, k'. split_and!; [rewrite Hq; apply last_snoc|done| | |].
    + exact (eq_trans (Ek _ pkt_id) E1).
    + rewrite Eend. exact (eq_trans (Ek _ pkt_length) E2).
    + assert (Em : pkt_mem k' = m) by exact (eq_trans (Ek _ pkt_mem) E3). by rewrite Em.
  - apply wp_ret. intros l' HL'. pose proof HB1 as (HA1 & Hp1 & Hk1). rewrite (pbuf_list_fun _ _ _ _ HL' (at_list _ _ _ _ _ _ _ _ _ HA1)).
    exists p, k1. split_and!; [done..|]. constructor; try done; simpl; [rewrite Hrem, u16_small; lia|lia].
Qed.

Lemma own_join1 l s fid data isr b (Q : bool -> node -> Prop) : Rcv l s -> quiet i s = true ->
  wp (csp_can1_rx i fid data (zlen data) isr) (fun _ s' => if b : bool then Q true s' else
    forall l', pbuf_list (PbCan i) l' s' -> Rcv l' s' -> Q false s') s ->
  wp (csp_can1_rx i fid data (zlen data) isr) (fun _ s' => Q b s') s.
Proof.
  intros HR HQ W. pose proof (wp_and _ _ _ _ (any_frame1 l s fid data isr HR HQ) W) as W2.
  eapply wp_conseq; [exact W2|]. cbv beta. intros r s' [(l' & HR' & _) HW]. destruct b; [done|]. apply (HW l'); [apply HR'|done].
Qed.

Lemma own_fragment1 l s key rem id len bytes fid data isr x : Rcv l s -> quiet i s = true -> partly1 key (rem + 1) id len bytes l s ->
  frame1_id key CFP_MORE rem fid -> 0 <= rem < 256 -> zlen bytes + zlen data <= len -> ifs s !! i = Some x ->
  wp (csp_can1_rx i fid data (zlen data) isr) (fun _ s' => advanced1 (if_addr x) key rem id len (bytes ++ data) s') s.
Proof.
  intros HR HQ (p & k & Hp & Hk & Hpt) [Fkey Ft Fr] Hrem Hlen Hx. destruct (quiet_take T i h _ _ l s HR HQ) as (Htake & Hun & Hroom).
  unfold advanced1.
  apply (own_join1 l s fid data isr (zlen (bytes ++ data) =? len) (fun b s' => if b then arrived1 (if_addr x) id (bytes ++ data) s'
    else exists l', Rcv l' s' /\ partly1 key rem id len (bytes ++ data) l' s') HR HQ).
  unfold csp_can1_rx. rewrite Ft. change (CFP_MORE =? CFP_BEGIN) with false. change (CFP_MORE =? CFP_MORE) with true. cbv iota.
  apply wp_bind. wp_use (apply (wp_can_rx_packet T i h l); [apply HR|apply HR|done|done]). intros [p'|] s1; cbv beta iota.
  2:{ intros (_ & _ & _ & _ & Hnone). exfalso. assert (Hf : key_match fid CFP_ID_CONN_MASK k = false).
      { eapply first_match_false; [exact Hnone| |exact Hp|exact Hk]. intros q Hq Hn.
        destruct (live_pkt s q) as (kq & Hkq & _); [eapply Inv_live_h; [apply HR|apply elem_of_app; by left]|congruence]. }
      unfold key_match in Hf. apply Z.eqb_neq in Hf. rewrite (p1_key _ _ _ _ _ _ Hpt) in Hf. congruence. }
  intros (l1 & k1 & Hp1 & HA1 & Hk1 & [(k0 & Hpl & Hk0 & Hm & Hc)|(? & ? & _)] & Hr1); [|done].
  apply Z.eqb_eq in Hm. assert (p' = p) as -> by (eapply (rcv_keys _ _ _ _ _ _ _ HR); try done; rewrite Hm, (p1_key _ _ _ _ _ _ Hpt); congruence).
  rewrite Hk in Hk0. apply (inj Some) in Hk0 as <-.
  assert (Hpt1 : part1 key (rem + 1) id len bytes k1) by (eapply part1_content; [exact Hc|]; destruct Hpt; by constructor).
  assert (Hdata : mem_read data 0 (zlen data - 0) = Some data) by (rewrite mem_read_eq by lia; by rewrite Z.sub_0_r, Nat2Z.id, firstn_all).
  assert (Eq : qfifo s1 = qfifo s) by exact (f_equal qfifo Hr1). assert (Ei : ifs s1 = ifs s) by exact (f_equal ifs Hr1).
  apply wp_bind. eapply wp_conseq; [apply (own_more1 p l s l1 s1 fid data (zlen data) 0 isr k1 key rem id len bytes data x); try done; [lia|lia|by rewrite Ei|by rewrite Eq]|].
  cbv beta. intros [] s' Hres. apply wp_ret. destruct (_ =? len); [exact Hres|]. intros l' HL' HR'. exists l'. split; [done|by apply Hres].
Qed.

Lemma own_begin1 l s key rem fid hdr len data isr x (frame := hdr ++ be_bytes 2 len ++ data) : Rcv l s -> quiet i s = true ->
  frame1_id key CFP_BEGIN rem fid -> 0 <= rem < 256 -> length hdr = 4%nat -> zlen data <= len <= CSP_BUFFER_SIZE -> ifs s !! i = Some x ->
  wp (csp_can1_rx i fid frame (zlen frame) isr) (fun _ s' => advanced1 (if_addr x) key rem (dec1 false hdr) len data s') s.
Proof.
  intros HR HQ [Fkey Ft Fr] Hrem Hh Hlen Hx. destruct (quiet_take T i h _ _ l s HR HQ) as (Htake & Hun & Hroom). unfold CSP_BUFFER_SIZE in Hlen.
  pose proof (length_be_bytes 2 len) as H2. assert (Ef : zlen frame = 6 + zlen data) by (unfold frame; rewrite !length_app; lia).
  unfold advanced1.
  apply (own_join1 l s fid frame isr (zlen data =? len) (fun b s' => if b then arrived1 (if_addr x) (dec1 false hdr) data s'
    else exists l', Rcv l' s' /\ partly1 key rem (dec1 false hdr) len data l' s') HR HQ).
  unfold csp_can1_rx. rewrite Ft. change (CFP_BEGIN =? CFP_BEGIN) with true. cbv iota.
  apply wp_bind. wp_use (apply (wp_can_rx_packet T i h l); [apply HR|apply HR|done|done]). intros [p|] s1; cbv beta iota; [|by intros (_ & _ & _ & Hb & _)].
  intros (l1 & k1 & Hp1 & HA1 & Hk1 & Horg & Hr1). assert (HB : Busy (PbCan i) T h p l s l1 k1 s1) by done.
  pose proof (busy_pkt_ok _ _ _ _ _ _ _ _ _ HB) as [Hm _]. pose proof (origin_key _ _ _ _ _ _ _ Horg) as Hkey.
  assert (Hall : mem_read frame 0 (zlen frame) = Some frame) by (rewrite mem_read_eq by lia; by rewrite Nat2Z.id, firstn_all).
  assert (R1 : mem_read frame 0 4 = Some hdr).
  { pose proof (mem_read_slice _ _ _ _ 0 4 Hall ltac:(lia) ltac:(lia) ltac:(lia)) as Hs. rewrite drop_0 in Hs.
    change (Z.to_nat 4) with 4%nat in Hs. unfold frame in Hs at 2. rewrite (take_app_length' hdr _ 4) in Hs by done. exact Hs. }
  assert (R2 : mem_read frame 4 2 = Some (be_bytes 2 len)).
  { pose proof (mem_read_slice _ _ _ _ 4 2 Hall ltac:(lia) ltac:(lia) ltac:(lia)) as Hs. change (Z.to_nat 4) with 4%nat in Hs. change (Z.to_nat 2) with 2%nat in Hs.
    unfold frame in Hs at 2. rewrite (drop_app_length' hdr _ 4), (take_app_length' _ _ 2) in Hs by done. exact Hs. }
  assert (R3 : mem_read frame 6 (zlen frame - 6) = Some data).
  { pose proof (mem_read_slice _ _ _ _ 6 (zlen frame - 6) Hall ltac:(lia) ltac:(lia) ltac:(lia)) as Hs. change (Z.to_nat 6) with 6%nat in Hs.
    assert (Ed : drop 6 frame = data) by (unfold frame; rewrite app_assoc, (drop_app_length' (hdr ++ be_bytes 2 len) _ 6); [done|rewrite length_app; lia]).
    rewrite Ed, take_ge in Hs by lia. exact Hs. }
  assert (El : be16toh (le_val (be_bytes 2 len)) = len).
  { rewrite <- (le_bytes_swap 2 len). fold (htobe16 len). rewrite (le_val_small 2) by apply htobe16_range. by apply be16toh_htobe16; lia. }
  destruct (begin1_run i p fid frame (zlen frame) isr k1 hdr (be_bytes 2 len) s1) as (m & Hml & E); try done;
    [eapply inv_is_v1; [exact Hver|apply HA1]|lia|]. cbv zeta in E. rewrite El in E.
  rewrite (proj2 (Z.ltb_ge CSP_BUFFER_SIZE len)) in E by (unfold CSP_BUFFER_SIZE; lia). rewrite put_pkt_put in E.
  apply wp_bind, wp_bind. unfold wp at 1. rewrite E. cbn [when]. set (k2 := begun1 fid (headed1 p m hdr len k1)).
  assert (HB2 : Busy (PbCan i) T h p l s l1 k2 (put_pkt p k2 s1)).
  { apply (busy_put _ _ _ _ _ _ _ _ _ (fun k => begun1 fid (headed1 p m hdr len k)) HB); [done|]. split; simpl; [by rewrite Hml|unfold CSP_BUFFER_SIZE; lia]. }
  assert (Hpt : part1 key (rem + 1) (dec1 false hdr) len [] k2).
  { constructor; try done; [simpl; by rewrite Hkey|simpl; rewrite Fr, u16_small; lia|]. simpl. rewrite mem_read_eq; [done|..]; unfold CSP_PACKET_PADDING_BYTES, CSP_BUFFER_SIZE in *; lia. }
  assert (Eq : qfifo s1 = qfifo s) by exact (f_equal qfifo Hr1). assert (Ei : ifs s1 = ifs s) by exact (f_equal ifs Hr1).
  eapply wp_conseq; [apply (own_more1 p l s l1 _ fid frame (zlen frame) 6 isr k2 key rem (dec1 false hdr) len [] data x HB2 Hpt Fr Hrem R3);
    [lia|simpl; lia|change (ifs (put_pkt p k2 s1)) with (ifs s1); by rewrite Ei|change (qfifo (put_pkt p k2 s1)) with (qfifo s1); by rewrite Eq]|].
  cbv beta. simpl app. intros [] s' Hres. apply wp_ret. destruct (_ =? len); [exact Hres|]. intros l' HL' HR'. exists l'. split; [done|by apply Hres].
Qed.

End Reassemble.

(** *** A sequence of frames *)

Definition can1_rx_one `{Platform} (i : nat) (isr : bool) (f : can_frame) : M Z := csp_can1_rx i (fst f) (snd f) (zlen (snd f)) isr.

(** Two frames belong to the same packet. *)
Definition of_packet1 (key : Z) (f : can_frame) : bool := Z.land (fst f) CFP_ID_CONN_MASK =? key.

Section Sequence.
Context `{Platform}.
Context (T : config) (i : nat) (h : list nat) (isr : bool) (xs : csp_iface).
Context (Hver : version (cf_conf T) <> 2) (Hxs : cf_ifs T !! i = Some xs).
Context (src' dest ident : Z).

Abbreviation Rcv := (receiver (PbCan i) pbuf1_ok CFP_ID_CONN_MASK T h).
Abbreviation key := (can1_key src' dest ident).

Lemma seq1_valid : valid_if T i.
Proof. by eapply lookup_lt_Some. Qed.

Lemma seq1_iface l s : Rcv l s -> exists x, ifs s !! i = Some x /\ if_addr x = if_addr xs.
Proof.
  intros HR. pose proof Hxs as E. rewrite <- (inv_conf _ _ _ (rcv_inv _ _ _ _ _ _ _ HR)) in E. simpl in E.
  rewrite map_lookup in E. destruct (ifs s !! i) as [x|]; [|done]. injection E as <-. by exists x.
Qed.

(** The frames after the first, in any company. *)
Lemma rx_chunks1 id len : len <= CSP_BUFFER_SIZE -> forall fs n bytes data l s,
  Rcv l s -> all_quiet (can1_rx_one i isr) (quiet i) fs s = true -> partly1 key ((zlen data + 7) / 8) id len bytes l s ->
  List.filter (of_packet1 key) fs = can1_chunks n src' dest ident data -> (length data <= n)%nat -> data <> [] ->
  zlen bytes + zlen data = len -> ends_with (of_packet1 key) fs ->
  wp (rx_all (can1_rx_one i isr) fs) (fun _ s' => arrived1 i (if_addr xs) id (bytes ++ data) s') s.
Proof.
  intros Hmax. unfold CSP_BUFFER_SIZE in Hmax. induction fs as [|f fs IH]; intros n bytes data l s HR HQ HP Hf Hn Hd Hlen He; [done|].
  pose proof seq1_valid as Hi. destruct (seq1_iface l s HR) as (x & Hx & Hxa). simpl in Hf. destruct (of_packet1 key f) eqn:Em.
  - destruct n as [|n]; [destruct data; simpl in Hn; [done|lia]|]. destruct data as [|b data'] eqn:Edata; [done|]. rewrite <- Edata in *.
    assert (Hpos : 0 < zlen data) by (rewrite Edata; simpl; lia).
    set (rem := (zlen (drop 8 data) + 7) / 8).
    assert (Ech : can1_chunks (S n) src' dest ident data = (can1_id src' dest ident CFP_MORE rem, take 8 data) :: can1_chunks n src' dest ident (drop 8 data))
      by (unfold rem; rewrite Edata; done). rewrite Ech in Hf. injection Hf as -> Hf.
    assert (Erem : (zlen data + 7) / 8 = rem + 1) by (unfold rem; rewrite length_drop; zlia).
    assert (Hrem : 0 <= rem < 256) by (unfold rem; rewrite length_drop; zlia).
    pose proof (can1_frame src' dest ident CFP_MORE rem ltac:(unfold CFP_MORE; lia) Hrem) as Fid.
    assert (Htk : zlen (take 8 data) <= zlen data) by (rewrite length_take; lia). rewrite Erem in HP.
    eapply quiet_step; [exact HQ|unfold can1_rx_one|].
    { intros Hq. cbn [fst snd]. eapply (own_fragment1 T i h Hver Hi l); try done. lia. }
    intros s' Hadv HQ'. rewrite Hxa in Hadv. unfold advanced1 in Hadv. destruct (Z.leb_spec (zlen data) 8) as [H8|H8].
    + rewrite (take_ge data 8) in Hadv by lia. rewrite (proj2 (Z.eqb_eq _ _)) in Hadv by (rewrite length_app; lia). assert (Hfs : fs = []).
      { eapply ends_done; [exact He|]. rewrite Hf, drop_ge by lia. by destruct n. }
      subst fs. by apply wp_ret.
    + rewrite (proj2 (Z.eqb_neq _ _)) in Hadv by (rewrite length_app, length_take; lia). destruct Hadv as (l' & HR' & HP').
      assert (Hdr : drop 8 data <> []) by (intros E; apply (f_equal length) in E; rewrite length_drop in E; simpl in E; lia).
      rewrite <- (take_drop 8 data), app_assoc. eapply (IH n); try done.
      * rewrite length_drop. lia.
      * rewrite length_app, length_drop, length_take. lia.
      * apply (ends_cons _ _ _ He). intros ->. simpl in Hf. destruct n, (drop 8 data); simpl in *; try done; lia.
  - eapply quiet_step; [exact HQ|unfold can1_rx_one|].
    { intros Hq. eapply (other_frame1 T i h Hver Hi l); try done. unfold of_packet1 in Em. by apply Z.eqb_neq in Em. }
    intros s' (l' & HR' & HP') HQ'. eapply IH; try done. apply (ends_cons _ _ _ He). intros ->. simpl in Hf.
    unfold ends_with in He. simpl in He. congruence.
Qed.

(** All frames of the packet. *)
Lemma rx_packet1 id data : src id = src' -> id1_ok id -> zlen data <= CSP_BUFFER_SIZE -> forall fs l s,
  Rcv l s -> all_quiet (can1_rx_one i isr) (quiet i) fs s = true -> List.filter (of_packet1 key) fs = can1_frames id dest ident data ->
  ends_with (of_packet1 key) fs ->
  wp (rx_all (can1_rx_one i isr) fs) (fun _ s' => arrived1 i (if_addr xs) id data s') s.
Proof.
  intros Hsrc Hid Hlen. induction fs as [|f fs IH]; intros l s HR HQ Hf He; [done|].
  pose proof seq1_valid as Hi. destruct (seq1_iface l s HR) as (x & Hx & Hxa). simpl in Hf. destruct (of_packet1 key f) eqn:Em.
  2:{ eapply quiet_step; [exact HQ|unfold can1_rx_one|]. { intros Hq. by apply (any_frame1 T i h Hver Hi l). }
      intros s' (l' & HR' & _) HQ'. eapply IH; try done. apply (ends_cons _ _ _ He). intros ->. done. }
  unfold can1_frames in Hf. rewrite Hsrc in Hf. injection Hf as -> Hf. set (rem := (zlen data + 5) / 8) in *. unfold CSP_BUFFER_SIZE in Hlen.
  assert (Hrem : 0 <= rem < 256) by (unfold rem; zlia).
  pose proof (can1_frame src' dest ident CFP_BEGIN rem ltac:(unfold CFP_BEGIN; lia) Hrem) as Fid.
  assert (Htk : zlen (take 2 data) <= zlen data) by (rewrite length_take; lia).
  eapply quiet_step; [exact HQ|unfold can1_rx_one|].
  { intros Hq. cbn [fst snd]. apply (own_begin1 T i h Hver Hi l s key rem _ (enc1 false id) (zlen data) (take 2 data) isr x); done. }
  intros s' Hadv HQ'. rewrite dec1_enc1, Hxa in Hadv by done. unfold advanced1 in Hadv. destruct (Z.leb_spec (zlen data) 2) as [H2|H2].
  - rewrite (take_ge data 2) in Hadv by lia. rewrite Z.eqb_refl in Hadv. assert (Hfs : fs = []).
    { eapply ends_done; [exact He|]. rewrite Hf, (drop_ge data 2) by lia. by destruct (length data). }
    subst fs. by apply wp_ret.
  - rewrite (proj2 (Z.eqb_neq _ _)) in Hadv by (rewrite length_take; lia). destruct Hadv as (l' & HR' & HP').
    assert (Hdr : drop 2 data <> []) by (intros E; apply (f_equal length) in E; rewrite length_drop in E; simpl in E; lia).
    rewrite <- (take_drop 2 data). eapply (rx_chunks1 id (zlen data) Hlen fs (length data)); try done.
    + replace ((zlen (drop 2 data) + 7) / 8) with rem; [done|]. unfold rem. rewrite length_drop. f_equal. lia.
    + rewrite length_drop. lia.
    + rewrite length_drop, length_take. lia.
    + apply (ends_cons _ _ _ He). intros ->. simpl in Hf. destruct (length data) eqn:El, (drop 2 data); simpl in *; try done; lia.
Qed.
End Sequence.

(** ** Properties *)

(** C12. CAN reception (CFP 1) is safe: on any frame (identifier, bytes, length),
    with at least one free buffer and no two neighbouring packets on the list
    timed out, [csp_can1_rx] returns without undefined behaviour, also when the
    length field is larger than a packet; it keeps the ownership invariant and a
    well-formed list with one packet per identifier, and leaves the unexpired
    packets of other identifiers as they were. *)
Theorem can1_rx_safe `{Platform} T i h l s id data dlc isr :
  version (cf_conf T) <> 2 -> valid_if T i -> receiver (PbCan i) pbuf1_ok CFP_ID_CONN_MASK T h l s -> can_take l s -> 0 <= dlc <= zlen data ->
  exists r s' l', csp_can1_rx i id data dlc isr s = Ret r s' /\ receiver (PbCan i) pbuf1_ok CFP_ID_CONN_MASK T h l' s' /\
    others_kept CFP_ID_CONN_MASK id l s l' s'.
Proof.
  intros Hver Hi HR Ht Hd. destruct (proj1 (wp_run _ _ _) (wp_can1_rx T i h Hver Hi l id data dlc isr s HR Ht Hd)) as (r & s' & E & l' & HR' & Ho).
  by exists r, s', l'.
Qed.

(** C8. CAN round trip (CFP 1): when the driver accepts the frames, [csp_can1_tx]
    sends the fragments of the packet; whatever frames of other packets come in
    between, a receiver that gets them in order puts a packet with the same
    identifier (a broadcast destination replaced by its own address), length and
    payload at the end of its router queue, provided that meanwhile no packet
    times out and buffers and queue have room. *)
Theorem can1_roundtrip `{Platform} `{Drivers} s1 i1 via p from_me k x1 d1 data T i h l s2 xs isr :
  (forall n, drv_tx n = CSP_ERR_NONE) -> is_v2 s1 = false -> pkt_at p s1 = Some k -> packet_ok k -> ifs s1 !! i1 = Some x1 -> can s1 !! i1 = Some (Some d1) ->
  dst (pkt_id k) <> if_addr x1 -> id1_ok (pkt_id k) -> mem_read (pkt_mem k) CSP_PACKET_PADDING_BYTES (pkt_length k) = Some data ->
  version (cf_conf T) <> 2 -> cf_ifs T !! i = Some xs -> receiver (PbCan i) pbuf1_ok CFP_ID_CONN_MASK T h l s2 ->
  let dest := u8 (if negb (via =? CSP_NO_VIA_ADDRESS) then via else dst (pkt_id k)) in let ident := cfp_packet_counter d1 in
  let key := can1_key (src (pkt_id k)) dest ident in let sent := can1_frames (pkt_id k) dest ident data in
  (exists s1', csp_can1_tx i1 via p from_me s1 = Ret CSP_ERR_NONE s1' /\ wire s1' = wire (put_frames i1 sent s1)) /\
  Forall (fun f => of_packet1 key f = true) sent /\
  forall fs, List.filter (of_packet1 key) fs = sent -> ends_with (of_packet1 key) fs -> all_quiet (can1_rx_one i isr) (quiet i) fs s2 = true ->
    exists s2' p' k', rx_all (can1_rx_one i isr) fs s2 = Ret tt s2' /\ list.last (q_items (qfifo s2')) = Some (Some i, Some p') /\
      pkt_at p' s2' = Some k' /\ pkt_id k' = local_dst1 (if_addr xs) (pkt_id k) /\ pkt_length k' = pkt_length k /\
      mem_read (pkt_mem k') CSP_PACKET_PADDING_BYTES (pkt_length k) = Some data.
Proof.
  intros Hdrv Hv Hk Hok Hx Hd Hne Hid Hr Hver Hxs HR. pose proof (mem_read_length _ _ _ _ Hr) as Hl. pose proof Hok as [_ Hpl]. unfold CSP_BUFFER_SIZE in Hpl.
  destruct (tx1_run Hdrv i1 via p from_me k x1 d1 data s1) as (s1' & Htx & Hw); try done.
  intros dest ident key sent. split_and!; [by exists s1'| |].
  { assert (Hmine : forall t r, 0 <= t < 2 -> 0 <= r < 256 -> of_packet1 key (can1_id (src (pkt_id k)) dest ident t r, []) = true)
      by (intros t r Ht Hr'; apply Z.eqb_eq, (f1_key _ _ _ _ (can1_frame (src (pkt_id k)) dest ident t r Ht Hr'))).
    unfold sent, can1_frames. constructor; [apply (Hmine CFP_BEGIN); [unfold CFP_BEGIN; lia|zlia]|].
    assert (Hd2 : zlen (drop 2 data) <= 256) by (rewrite length_drop; lia). revert Hd2.
    generalize (length data) as n, (drop 2 data) as rest'. induction n as [|n IH]; intros [|b rest'] Hle; try by constructor.
    assert (Hle8 : zlen (drop 8 (b :: rest')) <= 256) by (rewrite length_drop; lia).
    constructor; [apply (Hmine CFP_MORE); [unfold CFP_MORE; lia|zlia]|]. by apply IH. }
  intros fs Hf He HQ.
  destruct (proj1 (wp_run _ _ _) (rx_packet1 T i h isr xs Hver Hxs (src (pkt_id k)) dest ident (pkt_id k) data eq_refl Hid ltac:(unfold CSP_BUFFER_SIZE; lia) fs l s2 HR HQ Hf He))
    as ([] & s2' & Hrun & p' & k' & Hq & Hk' & Hid' & Hl' & Hm').
  exists s2', p', k'. split_and!; [done..|lia|by rewrite <- Hl].
Qed.

(** ** Witnesses *)

(** A version 1 node at address 5, and the same with a packet to address 9. *)
Definition bus1_node : node :=
  bus_data (state_of (csp_init (set_conf (set_version 1 (conf boot)) (power_up (pool boot) (arr_conn boot) [bus_if] [])))).
Definition bus1_sender : node := state_of ((p ← csp_buffer_get;
  match p with
  | Some p => mod_pkt p (fun k => set_pkt_length 13 (set_pkt_id (mkId 2 1 5 9 10 20) k)) ;; write_mem p 0 bus_payload
  | None => mret tt
  end) bus1_node).

Lemma bus1_inv : Inv (config_of bus1_node) [] bus1_node.
Proof.
  destruct (init_inv (set_version 1 (conf boot)) (pool boot) (arr_conn boot) [bus_if] []) as (s' & Hrun & T & HI).
  - reflexivity.
  - reflexivity.
  - intros [|i] x Hx; [|discriminate]. injection Hx as <-. vm_compute. split; discriminate.
  - intros k x Hx. discriminate.
  - assert (E : bus1_node = bus_data s') by (unfold bus1_node; by rewrite Hrun).
    rewrite E. clear E Hrun. pose proof (inv_conf _ _ _ HI) as <-. destruct HI. by constructor.
Qed.

Lemma bus1_receiver : receiver (PbCan 1) pbuf1_ok CFP_ID_CONN_MASK (config_of bus1_node) [] [] bus1_node.
Proof.
  constructor; [exact bus1_inv|exists None; split; [reflexivity|constructor]|..]; intros q; intros; exfalso; by eapply not_elem_of_nil.
Qed.

Lemma bus1_if_valid : valid_if (config_of bus1_node) 1.
Proof. vm_compute. lia. Qed.

(** A BEGIN frame with a length field of 65535. *)
Lemma can1_rx_safe_witness : exists r s' l',
  csp_can1_rx (H := lo_platform) 1 0x05480005 [1; 2; 3; 4; 255; 255; 7; 8] 8 false bus1_node = Ret r s' /\
  receiver (PbCan 1) pbuf1_ok CFP_ID_CONN_MASK (config_of bus1_node) [] l' s'.
Proof.
  destruct (can1_rx_safe (H := lo_platform) (config_of bus1_node) 1 [] [] bus1_node 0x05480005 [1; 2; 3; 4; 255; 255; 7; 8] 8 false)
    as (r & s' & l' & Hr & HR & _).
  - vm_compute. discriminate.
  - exact bus1_if_valid.
  - exact bus1_receiver.
  - split; [exact I|]. vm_compute. discriminate.
  - simpl. lia.
  - exists r, s', l'. split; [exact Hr|exact HR].
Defined.

Lemma can1_roundtrip_witness : exists k d s1' s2' p' k', pkt_at 0 bus1_sender = Some k /\ can bus1_sender !! 1%nat = Some (Some d) /\
  csp_can1_tx (H := good_drivers) 1 CSP_NO_VIA_ADDRESS 0 false bus1_sender = Ret CSP_ERR_NONE s1' /\
  rx_all (can1_rx_one (H := lo_platform) 1 false) (can1_frames (pkt_id k) 9 (cfp_packet_counter d) bus_payload) bus1_node = Ret tt s2' /\
  pkt_at p' s2' = Some k' /\ mem_read (pkt_mem k') CSP_PACKET_PADDING_BYTES 13 = Some bus_payload.
Proof.
  destruct (pkt_at 0 bus1_sender) as [k|] eqn:Hk; [|vm_compute in Hk; discriminate].
  destruct (can1_roundtrip (H := lo_platform) (H0 := good_drivers) bus1_sender 1 CSP_NO_VIA_ADDRESS 0 false k bus_if (mkCan 0 (Some 0%nat) None) bus_payload
    (config_of bus1_node) 1 [] [] bus1_node (if_static bus_if) false) as ((s1' & Htx & _) & _ & Hrx).
  - intros n. reflexivity.
  - vm_compute. reflexivity.
  - exact Hk.
  - vm_compute in Hk. injection Hk as <-. vm_compute. repeat split; discriminate.
  - vm_compute. reflexivity.
  - vm_compute. reflexivity.
  - vm_compute in Hk. injection Hk as <-. vm_compute. discriminate.
  - vm_compute in Hk. injection Hk as <-. vm_compute. repeat split; discriminate.
  - vm_compute in Hk. injection Hk as <-. vm_compute. reflexivity.
  - vm_compute. discriminate.
  - vm_compute. reflexivity.
  - exact bus1_receiver.
  - destruct (Hrx (can1_frames (pkt_id k) 9 0 bus_payload)) as (s2' & p' & k' & Hr & _ & Hp & _ & _ & Hm).
    + vm_compute in Hk. injection Hk as <-. vm_compute. reflexivity.
    + vm_compute in Hk. injection Hk as <-. vm_compute. reflexivity.
    + vm_compute in Hk. injection Hk as <-. vm_compute. reflexivity.
    + exists k, (mkCan 0 (Some 0%nat) None), s1', s2', p', k'. split; [reflexivity|]. split; [vm_compute; reflexivity|].
      split; [exact Htx|]. split; [exact Hr|]. split; [exact Hp|].
      assert (E : pkt_length k = 13) by (vm_compute in Hk; by injection Hk as <-). rewrite E in Hm. exact Hm.
Defined.
