(* ===== verification/LinksSpec.v ===== *)
(** * LinksSpec: what the UDP and tunnel interfaces deliver

    A datagram that [csp_if_udp_rx_work] accepts becomes a packet in the router
    queue; what [csp_if_udp_tx] sends arrives as the packet that was sent; a
    packet that goes through the tunnel comes out as it went in; and what goes
    wrong without a cipher, and with short I2C frames. *)

From S2P Require Import Prelude State Monad Id Buffer Iflist Rtable Qfifo Io RdpQueue Rdp Conn RdpProto Api Route.
From S2P Require Import Own OwnIo OwnRdp OwnRoute OwnApi RdpSpec RdpState OwnConf OwnClient Node Pbuf Links Frames.

Section UdpRx.
Context (T : config) (h : list nat) (i : nat) (Hi : valid_if T i).

Lemma wp_udp_rx s datagram : Inv T h s ->
  wp (csp_if_udp_rx_work i datagram) (fun r s' => Inv T h s' /\ forall bs, datagram = Some bs -> hdr_size s <= zlen bs <= CSP_BUFFER_SIZE + hdr_size s ->
    (2 <= q_size (csp_buffers s))%nat -> (q_size (qfifo s) < q_cap (qfifo s))%nat ->
    r = CSP_ERR_NONE /\ queued i (carries (Id.dec s false (take (Z.to_nat (hdr_size s)) bs)) (drop (Z.to_nat (hdr_size s)) bs)) s') s.
Proof.
  intros HI. pose proof (hdr_size_bound s) as Hz. unfold csp_if_udp_rx_work. apply wp_bind.
  eapply wp_conseq; [by apply wp_get_rx|]. cbv beta. intros r s1 ([Eq Ec] & Hnone & Hr).
  assert (Ev : is_v2 s1 = is_v2 s) by (unfold is_v2; by rewrite Ec). destruct r as [p|].
  2: { apply wp_ret. split; [done|]. intros bs _ _ H2 _. by destruct (Hnone H2). }
  destruct Hr as [H1 (k & Hk & Hok)].
  assert (Ehz : forall s', is_v2 s' = is_v2 s -> hdr_size s' = hdr_size s) by (intros s' E; unfold hdr_size; by rewrite E).
  apply wp_bind. unfold wp at 1. rewrite (setup_rx_at _ _ _ Hk), (Ehz s1 Ev). fold (begun (hdr_size s) p k).
  set (s2 := put_pkt p (begun (hdr_size s) p k) s1).
  assert (HI2 : Inv T (p :: h) s2) by (apply Inv_put_pkt; [done|left|exact Hok]).
  assert (Hk2 : pkt_at p s2 = Some (begun (hdr_size s) p k)) by (by eapply pkt_at_put).
  destruct datagram as [bytes|].
  2: { apply wp_bind, wp_ret. rewrite (proj2 (Z.ltb_lt (-1) _)) by lia. apply wp_bind. wp_use (by apply wp_free). intros [] s3 H3.
       apply wp_ret. by split. }
  cbn [recv_into]. set (bs := take _ bytes).
  assert (Hbs : zlen bs <= CSP_BUFFER_SIZE + hdr_size s) by (unfold bs, CSP_BUFFER_SIZE; rewrite length_take; lia).
  destruct (write_frame_run p k s2 (hdr_size s) bs Hk2 Hok ltac:(lia) Hbs) as (m & Hw & Hok1 & _).
  set (s3 := put_pkt p _ s2) in Hw. apply wp_bind, wp_bind. unfold wp at 1. rewrite Hw. apply wp_ret.
  destruct (Z.ltb_spec (zlen bs) (hdr_size s)) as [Hs|Hs].
  { apply wp_bind. wp_use (apply wp_free; apply Inv_put_pkt; [done|left|exact Hok1]). intros [] s4 H4. apply wp_ret. split; [done|].
    intros bs' [= <-] Hlen. exfalso. unfold bs in Hs. rewrite take_ge in Hs by (unfold CSP_BUFFER_SIZE in *; lia). lia. }
  assert (Ez2 : hdr_size s2 = hdr_size s) by (apply Ehz; exact Ev).
  destruct (take_frame_run false p k s2 bs) as (k3 & Hrun & Hok3 & Hc); [by rewrite Ez2|done|rewrite Ez2; lia|].
  unfold take_frame in Hrun. change (strip_any false p) with (csp_id_strip p) in Hrun. rewrite (bind_ret _ _ _ _ _ Hw) in Hrun.
  apply wp_bind_assoc. apply wp_bind. unfold wp at 1. rewrite Hrun. change (negb (0 =? 0)) with false. cbv iota.
  assert (HI4 : Inv T (p :: h) (put_pkt p k3 s2)) by (apply Inv_put_pkt; [done|left|done]).
  apply wp_bind. eapply wp_conseq; [apply (wp_queue T h _ i p false k3); [done|done|by eapply pkt_at_put]|]. cbv beta.
  intros [] s5 [H5 Hq]. apply wp_ret. split; [done|]. intros bs' [= <-] Hlen H2 Hroom. split; [done|]. apply Hq; [simpl; by rewrite Eq|].
  rewrite Ez2 in Hc. unfold Id.dec in *. change (is_v2 s2) with (is_v2 s1) in Hc. rewrite Ev in Hc.
  unfold bs in Hc. by rewrite (take_ge bytes) in Hc by (unfold CSP_BUFFER_SIZE in *; lia).
Qed.

End UdpRx.

Lemma wp_udp_tx `{Drivers} T h s i via p from_me k d data : Inv T (p :: h) s -> pkt_at p s = Some k ->
  udp s !! i = Some (Some d) -> sockfd d <> 0 ->
  mem_read (pkt_mem k) CSP_PACKET_PADDING_BYTES (pkt_length k) = Some data ->
  wp (csp_if_udp_tx i via p from_me) (fun r s' => r = CSP_ERR_NONE /\ Inv T h s' /\
    wire s' = WireBytes i (udp_dest d) (enc s false (pkt_id k) ++ data) :: wire s) s.
Proof.
  intros HI Hk Hd Hfd Hdata. destruct (live_pkt s p) as (k' & Hk' & Hok); [eapply Inv_live_h; [exact HI|left]|].
  rewrite Hk in Hk'. apply (inj Some) in Hk' as <-. unfold csp_if_udp_tx. apply wp_bind, wp_gets. unfold id. rewrite Hd.
  apply wp_bind, wp_ret. rewrite (proj2 (Z.eqb_neq _ _) Hfd).
  destruct (plain_prepend_frame p k s data Hk Hok Hdata) as (k1 & Hrun & Hok1 & _ & Hf). pose proof (pkt_at_put p k1 k s Hk) as K1.
  apply wp_bind. unfold wp at 1. rewrite Hrun. apply wp_bind. unfold wp at 1. rewrite (get_pkt_at _ _ _ K1).
  apply wp_bind. unfold wp at 1. rewrite (fr_len _ _ _ _ Hf), (read_whole_frame p k1 _ _ _ K1 Hf).
  apply wp_bind. unfold wp at 1, drv_send. set (s2 := set_wire _ _).
  assert (HI2 : Inv T (p :: h) s2).
  { assert (H1 : Inv T (p :: h) (put_pkt p k1 s)) by (apply Inv_put_pkt; [done|left|done]). destruct H1. by constructor. }
  apply wp_bind. eapply wp_conseq; [apply (wp_keeps wire); [by apply keeps_buffer_free|by apply (wp_free T h)]|]. cbv beta.
  intros [] s3 [H3 Hw]. apply wp_ret. split; [done|]. split; [done|]. exact Hw.
Qed.

(** C22. UDP round trip: with an open socket [csp_if_udp_tx] sends the packet as one
    datagram to the address and remote port of its configuration and frees it;
    [csp_if_udp_rx_work] of a node with the same header version, two free buffers
    ([csp_buffer_get] leaves the last one) and room in its router queue turns
    that datagram into a packet with the same header and data.  Both nodes stay
    well formed, and the receiver does so whatever it receives. *)
Theorem udp_roundtrip `{Drivers} T1 h1 s1 i1 via p from_me k d data T2 h2 i2 s2 :
  Inv T1 (p :: h1) s1 -> pkt_at p s1 = Some k -> udp s1 !! i1 = Some (Some d) -> sockfd d <> 0 -> id_ok s1 (pkt_id k) ->
  mem_read (pkt_mem k) CSP_PACKET_PADDING_BYTES (pkt_length k) = Some data ->
  Inv T2 h2 s2 -> valid_if T2 i2 -> is_v2 s1 = is_v2 s2 ->
  (exists s1', csp_if_udp_tx i1 via p from_me s1 = Ret CSP_ERR_NONE s1' /\ Inv T1 h1 s1' /\
     wire s1' = WireBytes i1 (udp_dest d) (enc s1 false (pkt_id k) ++ data) :: wire s1) /\
  (forall datagram, exists r s2', csp_if_udp_rx_work i2 datagram s2 = Ret r s2' /\ Inv T2 h2 s2') /\
  ((2 <= q_size (csp_buffers s2))%nat -> (q_size (qfifo s2) < q_cap (qfifo s2))%nat ->
   exists s2', csp_if_udp_rx_work i2 (Some (enc s1 false (pkt_id k) ++ data)) s2 = Ret CSP_ERR_NONE s2' /\ Inv T2 h2 s2' /\
     queued i2 (carries (pkt_id k) data) s2').
Proof.
  intros HI1 Hk Hd Hfd Hid Hdata HI2 Hi Hv. pose proof (mem_read_length _ _ _ _ Hdata) as Hdl.
  destruct (live_pkt s1 p) as (k' & Hk' & Hok); [eapply Inv_live_h; [exact HI1|left]|]. rewrite Hk in Hk'. apply (inj Some) in Hk' as <-.
  pose proof (length_enc s1 false (pkt_id k)) as Hel. assert (Ehz : hdr_size s2 = hdr_size s1) by (unfold hdr_size; by rewrite Hv). split_and!.
  - pose proof (wp_udp_tx T1 h1 s1 i1 via p from_me k d data HI1 Hk Hd Hfd Hdata) as Hw.
    apply wp_run in Hw as (r & s1' & Hr & -> & H1 & H2). by exists s1'.
  - intros datagram. pose proof (wp_udp_rx T2 h2 i2 Hi s2 datagram HI2) as Hw. apply wp_run in Hw as (r & s2' & Hr & H1 & _). by exists r, s2'.
  - intros Hb Hq. pose proof (wp_udp_rx T2 h2 i2 Hi s2 (Some (enc s1 false (pkt_id k) ++ data)) HI2) as Hw.
    apply wp_run in Hw as (r & s2' & Hr & H1 & Hdel). destruct Hok as [_ Hlen].
    destruct (Hdel _ eq_refl) as [-> HQ]; [rewrite length_app; lia|done|done|]. exists s2'. split; [done|]. split; [done|].
    rewrite Ehz, <- Hel, Nat2Z.id, take_app_length, drop_app_length in HQ. by rewrite (dec_enc false s1 s2) in HQ.
Qed.

(** The socket is asked for once: a failure sets the descriptor that the loop
    tests to -1, so that it is not tried again, and every datagram is lost. *)
Lemma udp_socket_once sockets fuel : udp_socket_loop (S fuel) sockets 0 0 = Some (sockets 0%nat).
Proof.
  cbn. destruct (Z.ltb_spec (sockets 0%nat) 0) as [E|E]; [|done]. destruct fuel; cbn; by rewrite (proj2 (Z.eqb_neq _ _)) by lia.
Qed.

(** ** The tunnel *)

(** What the cipher must do: undo itself, and fit a packet. *)
Class CryptoLaws `{Crypto} : Prop := {
  law_decrypt : forall m c, csp_crypto_encrypt m = Some c -> csp_crypto_decrypt c = Some m;
  law_cipher_size : forall m c, csp_crypto_encrypt m = Some c -> zlen c < 256
}.

Section Tunnel.
Context `{CryptoLaws}.

(** The packet as the tunnel takes it: a new one is allocated, both are held. *)
Lemma wp_tun_start T h s i via p from_me k d Q : Inv T (p :: h) s -> pkt_at p s = Some k -> tun s !! i = Some (Some d) ->
  (0 < q_size (csp_buffers s))%nat ->
  (forall n s', Inv T (n :: p :: h) s' -> n <> p -> pkt_at n s' = Some (packet_zero n) -> pkt_at p s' = Some k -> rest s' = rest s ->
     wp (if dst (pkt_id k) =? tun_src d then tun_incoming i p n else tun_outgoing i p n d) Q s') ->
  wp (csp_if_tun_tx i via p from_me) Q s.
Proof.
  intros HI Hk Hd Hfree HQ. unfold csp_if_tun_tx. apply wp_bind, wp_gets. unfold id. rewrite Hd. apply wp_bind, wp_ret, wp_bind.
  eapply wp_conseq; [apply (wp_new_packet T (p :: h)); [done|]|].
  { unfold q_size in Hfree. intros E. rewrite E in Hfree. simpl in Hfree. lia. }
  cbv beta. intros n s' (HI' & Hn & Hz & Hs & Hr & _). assert (Hne : n <> p) by (intros ->; apply Hn; left).
  rewrite <- (Hs p) in Hk by done. apply wp_bind. unfold wp at 1. rewrite (get_pkt_at _ _ _ Hk). by apply HQ.
Qed.

(** The end of both directions: the old packet is freed, the new one queued. *)
Lemma wp_swap_free T h s p n : Inv T (n :: p :: h) s ->
  wp (csp_buffer_free (Some p)) (fun _ s' => Inv T (n :: h) s' /\ pkt_at n s' = pkt_at n s /\ qfifo s' = qfifo s /\ is_v2 s' = is_v2 s) s.
Proof.
  intros HI. apply (wp_mono _ (fun (_ : unit) s' => (Inv T (n :: h) s' /\ held_same (n :: h) s s') /\ (qfifo s', is_v2 s') = (qfifo s, is_v2 s))).
  { intros _ s' [[H1 H2] [= E1 E2]]. split_and!; try done. apply H2. left. }
  apply (wp_keeps (fun s => (qfifo s, is_v2 s))); [by apply keeps_buffer_free|].
  apply wp_buffer_free. eapply Inv_perm; [|exact HI]. intros q. rewrite !cnt_cons. lia.
Qed.

(** The header of the tunnel packet. *)
Definition tun_id (k : csp_packet) (d : csp_tun) : csp_id := mkId (pri (pkt_id k)) 0 (u16 (tun_src d)) (u16 (tun_dst d)) 0 0.

Lemma wp_tun_outgoing T h s i p n k d data c : Inv T (n :: p :: h) s -> valid_if T i -> n <> p ->
  pkt_at n s = Some (packet_zero n) -> pkt_at p s = Some k ->
  mem_read (pkt_mem k) CSP_PACKET_PADDING_BYTES (pkt_length k) = Some data -> hdr_size s + pkt_length k < 256 ->
  csp_crypto_encrypt (enc s false (pkt_id k) ++ data) = Some c -> (q_size (qfifo s) < q_cap (qfifo s))%nat ->
  wp (tun_outgoing i p n d) (fun r s' => r = CSP_ERR_NONE /\ Inv T h s' /\ queued i (carries (tun_id k d) c) s') s.
Proof.
  intros HI Hi Hne Hn Hk Hdata Hshort Henc Hroom. pose proof (law_cipher_size _ _ Henc) as Hc. pose proof (hdr_size_bound s) as Hz.
  destruct (live_pkt s p) as (k' & Hk' & Hok); [eapply Inv_live_h; [exact HI|right; left]|].
  rewrite Hk in Hk'. apply (inj Some) in Hk' as <-. pose proof (mem_read_length _ _ _ _ Hdata) as Hdl.
  destruct (plain_prepend_frame p k s data Hk Hok Hdata) as (k1 & Hrun & Hok1 & Hc1 & Hf). pose proof (pkt_at_put p k1 k s Hk) as K1.
  assert (N1 : pkt_at n (put_pkt p k1 s) = Some (packet_zero n)) by (by rewrite pkt_at_put_other).
  unfold tun_outgoing. apply wp_bind. unfold wp at 1. rewrite Hrun. apply wp_bind. unfold wp at 1. rewrite (get_pkt_at _ _ _ K1).
  apply wp_bind. unfold wp at 1. rewrite (mod_pkt_at _ _ _ _ N1), (car_id _ _ _ Hc1), (fr_len _ _ _ _ Hf).
  set (n2 := set_pkt_length _ _). set (s2 := put_pkt n n2 _). assert (N2 : pkt_at n s2 = Some n2) by (by eapply pkt_at_put).
  assert (K2 : pkt_at p s2 = Some k1) by (unfold s2; by rewrite pkt_at_put_other).
  assert (Elen : zlen (enc s false (pkt_id k) ++ data) = hdr_size s + pkt_length k) by (rewrite length_app, Nat2Z.inj_add, length_enc; lia).
  apply wp_bind. unfold wp at 1. replace (u8 _) with (zlen (enc s false (pkt_id k) ++ data)); [|unfold u8; rewrite Z.mod_small; destruct Hok; lia].
  rewrite (read_whole_frame p k1 s2 _ _ K2 Hf), Henc.
  destruct (mem_write_ok (pkt_mem n2) (CSP_PACKET_PADDING_BYTES + 0) c) as [m Hw];
    [simpl; rewrite ?length_replicate; unfold CSP_PACKET_PADDING_BYTES, CSP_BUFFER_SIZE; lia..|]. pose proof (mem_write_length _ _ _ _ Hw) as Hml.
  apply wp_bind, wp_bind. unfold wp at 1. rewrite (write_mem_at _ _ _ _ _ _ N2 Hw).
  pose proof (pkt_at_put n (set_pkt_mem m n2) _ s2 N2) as N3. unfold wp at 1. rewrite (mod_pkt_at _ _ _ _ N3), put_pkt_put.
  set (n4 := set_pkt_length _ (set_pkt_mem m n2)). set (s4 := put_pkt n n4 s2). pose proof (pkt_at_put n n4 _ s2 N2) as N4. fold s4 in N4.
  assert (En : pkt_length n4 = zlen c) by (simpl; unfold u16; rewrite Z.mod_small; lia).
  assert (Hok4 : packet_ok n4). { split; [simpl; by rewrite Hml|]. rewrite En. unfold CSP_BUFFER_SIZE. lia. }
  assert (HI4 : Inv T (n :: p :: h) s4).
  { unfold s4, s2. rewrite put_pkt_put. apply Inv_put_pkt; [apply Inv_put_pkt; [done|right; left|done]|left|done]. }
  apply wp_bind. eapply wp_conseq; [apply (wp_swap_free T h s4 p n HI4)|]. cbv beta. intros [] s5 (H5 & N5 & Eq5 & Ev5). rewrite N4 in N5.
  destruct (plain_prepend_frame n n4 s5 c) as (k6 & Hrun6 & Hok6 & Hc6 & _); [done|done| |].
  { rewrite En. simpl. by eapply mem_read_write. }
  apply wp_bind. unfold wp at 1. rewrite Hrun6. apply wp_bind.
  eapply wp_conseq; [apply (wp_queue T h _ i n false k6 (carries (tun_id k d) c)); [apply Inv_put_pkt; [done|left|done]|done|by eapply pkt_at_put]|].
  cbv beta. intros [] s7 [H7 Hq]. apply wp_ret. split_and!; [done|done|]. apply Hq; [simpl; by rewrite Eq5|exact Hc6].
Qed.

Lemma wp_tun_incoming T h s i p n k c msg : Inv T (n :: p :: h) s -> valid_if T i -> n <> p ->
  pkt_at n s = Some (packet_zero n) -> pkt_at p s = Some k ->
  mem_read (pkt_mem k) CSP_PACKET_PADDING_BYTES (pkt_length k) = Some c -> pkt_length k < 256 -> csp_crypto_decrypt c = Some msg ->
  hdr_size s <= zlen msg <= CSP_BUFFER_SIZE + hdr_size s -> (q_size (qfifo s) < q_cap (qfifo s))%nat ->
  wp (tun_incoming i p n) (fun r s' => r = CSP_ERR_NONE /\ Inv T h s' /\
    queued i (carries (Id.dec s false (take (Z.to_nat (hdr_size s)) msg)) (drop (Z.to_nat (hdr_size s)) msg)) s') s.
Proof.
  intros HI Hi Hne Hn Hk Hdata Hshort Hdec Hlen Hroom. pose proof (hdr_size_bound s) as Hz.
  destruct (live_pkt s p) as (k' & Hk' & Hok); [eapply Inv_live_h; [exact HI|right; left]|].
  rewrite Hk in Hk'. apply (inj Some) in Hk' as <-. unfold tun_incoming.
  apply wp_bind. unfold wp at 1. rewrite (setup_rx_at _ _ _ Hn). fold (begun (hdr_size s) n (packet_zero n)).
  set (s1 := put_pkt n _ s). pose proof (pkt_at_put n (begun (hdr_size s) n (packet_zero n)) _ s Hn) as N1. fold s1 in N1.
  assert (K1 : pkt_at p s1 = Some k) by (unfold s1; by rewrite pkt_at_put_other).
  apply wp_bind. unfold wp at 1. rewrite (get_pkt_at _ _ _ K1). apply wp_bind. unfold wp at 1.
  rewrite (read_mem_at p 0 _ k s1 c K1); [|unfold u8; rewrite Z.mod_small; [exact Hdata|destruct Hok; lia]]. rewrite Hdec.
  destruct (write_frame_run n (packet_zero n) s1 (hdr_size s) msg N1 (packet_zero_ok n) ltac:(lia) ltac:(lia)) as (m & Hw & Hok2 & Hf).
  apply wp_bind. unfold wp at 1. rewrite Hw. set (n2 := set_pkt_mem m _) in *. pose proof (pkt_at_put n n2 _ s1 N1) as N2.
  apply wp_bind. unfold wp at 1. rewrite (mod_pkt_at _ _ _ _ N2), put_pkt_put. set (n3 := set_frame_length _ n2) in *. set (s3 := put_pkt n n3 s1).
  pose proof (pkt_at_put n n3 _ s1 N1) as N3. fold s3 in N3.
  assert (HI3 : Inv T (n :: p :: h) s3) by (unfold s3, s1; rewrite put_pkt_put; apply Inv_put_pkt; [done|left|done]).
  apply wp_bind. eapply wp_conseq; [apply (wp_swap_free T h s3 p n HI3)|]. cbv beta. intros [] s5 (H5 & N5 & Eq5 & Ev5). rewrite N3 in N5.
  assert (Ez : hdr_size s5 = hdr_size s) by (unfold hdr_size; by rewrite Ev5).
  destruct (plain_strip_frame n n3 s5 msg N5) as (k6 & Hs & Hok6 & Hc); [rewrite Ez; by apply Hf|by rewrite Ez|].
  apply wp_bind. unfold wp at 1. rewrite Hs. apply wp_bind.
  eapply wp_conseq; [apply (wp_queue T h _ i n false k6 (carries (Id.dec s false (take (Z.to_nat (hdr_size s)) msg)) (drop (Z.to_nat (hdr_size s)) msg)));
    [apply Inv_put_pkt; [done|left|done]|done|by eapply pkt_at_put]|].
  cbv beta. intros [] s7 [H7 Hq]. apply wp_ret. split_and!; [done|done|]. apply Hq; [simpl; by rewrite Eq5|].
  rewrite Ez in Hc. unfold Id.dec in *. by rewrite Ev5 in Hc.
Qed.

(** The encrypted tunnel is transparent.  Take a cipher whose decryption
    undoes its encryption and whose ciphertexts fit a length byte.  A packet
    whose frame is shorter than 256 bytes, sent into the tunnel, is replaced in
    the router queue by a packet addressed to the far end that carries the
    ciphertext; when a packet with that header and those data reaches
    [csp_if_tun_tx] of the far end, which listens on the address the first end
    sends to, it is replaced by a packet with the original header and data. *)
Theorem tun_roundtrip T1 h1 s1 i1 via1 p1 from1 k1 d1 data c T2 h2 s2 i2 via2 p2 from2 k2 d2 :
  Inv T1 (p1 :: h1) s1 -> valid_if T1 i1 -> pkt_at p1 s1 = Some k1 -> tun s1 !! i1 = Some (Some d1) -> dst (pkt_id k1) <> tun_src d1 ->
  id_ok s1 (pkt_id k1) -> mem_read (pkt_mem k1) CSP_PACKET_PADDING_BYTES (pkt_length k1) = Some data -> hdr_size s1 + pkt_length k1 < 256 ->
  csp_crypto_encrypt (enc s1 false (pkt_id k1) ++ data) = Some c ->
  (0 < q_size (csp_buffers s1))%nat -> (q_size (qfifo s1) < q_cap (qfifo s1))%nat ->
  Inv T2 (p2 :: h2) s2 -> valid_if T2 i2 -> pkt_at p2 s2 = Some k2 -> tun s2 !! i2 = Some (Some d2) -> is_v2 s1 = is_v2 s2 ->
  carries (tun_id k1 d1) c k2 -> tun_src d2 = u16 (tun_dst d1) ->
  (0 < q_size (csp_buffers s2))%nat -> (q_size (qfifo s2) < q_cap (qfifo s2))%nat ->
  (exists s1', csp_if_tun_tx i1 via1 p1 from1 s1 = Ret CSP_ERR_NONE s1' /\ Inv T1 h1 s1' /\ queued i1 (carries (tun_id k1 d1) c) s1') /\
  (exists s2', csp_if_tun_tx i2 via2 p2 from2 s2 = Ret CSP_ERR_NONE s2' /\ Inv T2 h2 s2' /\ queued i2 (carries (pkt_id k1) data) s2').
Proof.
  intros HI1 Hi1 Hk1 Hd1 Hout Hid Hdata Hshort Henc Hf1 Hq1 HI2 Hi2 Hk2 Hd2 Hv [Hid2 Hl2 Hm2] Hsrc Hf2 Hq2.
  assert (Er : forall s s', rest s' = rest s -> qfifo s' = qfifo s /\ is_v2 s' = is_v2 s).
  { intros s s' E. exact (conj (f_equal qfifo E) (f_equal is_v2 E)). }
  assert (Eh : forall s s', is_v2 s' = is_v2 s -> hdr_size s' = hdr_size s) by (intros s s' E; unfold hdr_size; by rewrite E).
  assert (Ee : forall s s' x, is_v2 s' = is_v2 s -> enc s' false x = enc s false x) by (intros s s' x E; unfold enc; by rewrite E).
  pose proof (length_enc s1 false (pkt_id k1)) as Hel. pose proof (mem_read_length _ _ _ _ Hdata) as Hdl. split.
  - assert (W : wp (csp_if_tun_tx i1 via1 p1 from1) (fun r s' => r = CSP_ERR_NONE /\ Inv T1 h1 s' /\ queued i1 (carries (tun_id k1 d1) c) s') s1).
    { eapply wp_tun_start; [done..|]. intros n s' H1 Hne Hn Hp [Eq Ev]%Er. rewrite (proj2 (Z.eqb_neq _ _) Hout).
      eapply wp_tun_outgoing; try done; [by rewrite (Eh _ _ Ev)|by rewrite (Ee _ _ _ Ev)|by rewrite Eq]. }
    apply wp_run in W as (r & s1' & Hr & -> & H1 & H2). by exists s1'.
  - set (Q := fun (r : Z) s' => r = CSP_ERR_NONE /\ Inv T2 h2 s' /\ queued i2 (carries (pkt_id k1) data) s').
    assert (W : wp (csp_if_tun_tx i2 via2 p2 from2) Q s2).
    { eapply wp_tun_start; [done..|]. intros n s' H1 Hne Hn Hp [Eq Ev]%Er. rewrite Hid2, Hsrc. cbn [dst tun_id]. rewrite Z.eqb_refl.
      assert (Ez : hdr_size s' = hdr_size s1) by (apply Eh; congruence). pose proof (law_cipher_size _ _ Henc) as Hcs.
      eapply wp_conseq; [eapply (wp_tun_incoming T2 h2 s' i2 p2 n k2 c); try done|].
      + by rewrite Hl2.
      + lia.
      + by apply law_decrypt.
      + rewrite Ez, length_app. unfold CSP_BUFFER_SIZE. lia.
      + by rewrite Eq.
      + cbv beta. intros r s3 (-> & HI3 & HQ). split_and!; [done|done|].
        rewrite Ez, <- Hel, Nat2Z.id, take_app_length, drop_app_length in HQ. rewrite (dec_enc false s1 s') in HQ; [done|congruence|done]. }
    apply wp_run in W as (r & s2' & Hr & -> & H1 & H2). by exists s2'.
Qed.

End Tunnel.

(** ** Without a cipher *)

Lemma pool_ok_put p k s : pool_ok s -> pool_ok (put_pkt p k s).
Proof.
  intros [Hl Ha Hc Hn Hr]. constructor; simpl; try done.
  - by rewrite length_alter.
  - intros i b. destruct (decide (p = i)) as [<-|Hne]; [|rewrite list_lookup_alter_ne by done; apply Ha].
    rewrite list_lookup_alter_eq.
    destruct (pool s !! p) as [b0|] eqn:E; simpl; [intros [= <-]; simpl; by apply Ha|done].
Qed.

(** Freeing a held packet when another packet [n] may hold any length. *)
Lemma free_beside T h s p n kn : Inv T (n :: p :: h) s -> n <> p ->
  exists s', csp_buffer_free (Some p) (put_pkt n kn s) = Ret tt s' /\ pkt_at n s' = pkt_at n (put_pkt n kn s) /\ qfifo s' = qfifo s /\ is_v2 s' = is_v2 s.
Proof.
  intros HI Hne. assert (Hp : p ∈ n :: p :: h) by (right; left). destruct (held_not_ref _ _ _ _ HI Hp) as [_ Hnf].
  destruct (Inv_live_h _ _ _ _ HI Hp) as (b & Hb & Hr & _).
  assert (Hb' : pool (put_pkt n kn s) !! p = Some b) by (simpl; by rewrite list_lookup_alter_ne).
  destruct (buffer_free_spec (put_pkt n kn s) p b) as (s' & Hrun & _ & Hs); [by eapply pool_ok_put, Inv_pool_ok|done|lia|done|].
  rewrite Hr in Hs. simpl in Hs. destruct Hs as [Hpool _]. exists s'. split; [exact Hrun|]. split.
  - unfold pkt_at. rewrite Hpool. simpl. by rewrite list_lookup_insert_ne.
  - pose proof (keeps_buffer_free (fun s => (qfifo s, is_v2 s)) (Some p) ltac:(done) ltac:(done) ltac:(done) (put_pkt n kn s)) as Hk.
    rewrite Hrun in Hk. injection Hk as E1 E2. by split.
Qed.

(** A code bug.  Without an application cipher [csp_crypto_encrypt] returns
    -1, and [csp_if_tun_tx] stores that in the packet length without a check:
    any packet sent into the tunnel is replaced in the router queue by a packet
    that claims to hold 65535 bytes, in a buffer of 256. *)
Theorem tun_no_cipher_length T h s i via p from_me k d : Inv T (p :: h) s -> pkt_at p s = Some k ->
  tun s !! i = Some (Some d) -> dst (pkt_id k) <> tun_src d ->
  (0 < q_size (csp_buffers s))%nat -> (q_size (qfifo s) < q_cap (qfifo s))%nat ->
  exists s', csp_if_tun_tx (H := weak_crypto) i via p from_me s = Ret CSP_ERR_NONE s' /\
    queued i (fun k' => pkt_id k' = tun_id k d /\ pkt_length k' = 65535 /\ zlen (pkt_mem k') = CSP_PACKET_PADDING_BYTES + CSP_BUFFER_SIZE) s'.
Proof.
  intros HI Hk Hd Hout Hfree Hroom.
  assert (W : wp (csp_if_tun_tx (H := weak_crypto) i via p from_me) (fun r s' => r = CSP_ERR_NONE /\ queued i (fun k' => pkt_id k' = tun_id k d /\
    pkt_length k' = 65535 /\ zlen (pkt_mem k') = CSP_PACKET_PADDING_BYTES + CSP_BUFFER_SIZE) s') s);
    [|apply wp_run in W as (r & s' & Hr & -> & Hq); by exists s'].
  eapply wp_tun_start; [done..|]. intros n s1 H1 Hne Hn Hp Er. rewrite (proj2 (Z.eqb_neq _ _) Hout).
  assert (Eq : qfifo s1 = qfifo s) by exact (f_equal qfifo Er).
  destruct (live_pkt s1 p) as (k' & Hk' & Hok); [eapply Inv_live_h; [exact H1|right; left]|]. rewrite Hp in Hk'. apply (inj Some) in Hk' as <-.
  pose proof Hok as [Hm Hl]. pose proof (hdr_size_bound s1) as Hz.
  destruct (mem_read_ok (pkt_mem k) CSP_PACKET_PADDING_BYTES (pkt_length k)) as [data Hdata]; [unfold CSP_PACKET_PADDING_BYTES in *; lia..|].
  destruct (plain_prepend_frame p k s1 data Hp Hok Hdata) as (k1 & Hrun & Hok1 & Hc1 & Hf). pose proof (pkt_at_put p k1 k s1 Hp) as K1.
  assert (N1 : pkt_at n (put_pkt p k1 s1) = Some (packet_zero n)) by (by rewrite pkt_at_put_other).
  unfold tun_outgoing. apply wp_bind. unfold wp at 1. rewrite Hrun. apply wp_bind. unfold wp at 1. rewrite (get_pkt_at _ _ _ K1).
  apply wp_bind. unfold wp at 1. rewrite (mod_pkt_at _ _ _ _ N1), (car_id _ _ _ Hc1).
  set (n2 := set_pkt_length _ _). set (s2 := put_pkt n n2 _). assert (N2 : pkt_at n s2 = Some n2) by (by eapply pkt_at_put).
  assert (K2 : pkt_at p s2 = Some k1) by (unfold s2; by rewrite pkt_at_put_other).
  assert (Hu : 0 <= u8 (frame_length k1) < 256) by (unfold u8; apply Z.mod_pos_bound; lia).
  pose proof (proj1 Hok1) as Hm1. destruct (mem_read_ok (pkt_mem k1) (CSP_PACKET_PADDING_BYTES + - hdr_size s1) (u8 (frame_length k1))) as [bs Hbs];
    [unfold CSP_PACKET_PADDING_BYTES, CSP_BUFFER_SIZE in *; lia..|].
  apply wp_bind. unfold wp at 1, read_frame. rewrite (bind_ret _ _ _ _ _ (get_pkt_at _ _ _ K2)), (fr_buf _ _ _ _ Hf), (fr_off _ _ _ _ Hf).
  rewrite (read_mem_at _ _ _ _ _ _ K2 Hbs). cbn [csp_crypto_encrypt weak_crypto]. apply wp_bind. unfold wp at 1. rewrite (mod_pkt_at _ _ _ _ N2).
  set (n4 := set_pkt_length (u16 (-1)) n2).
  assert (HI2 : Inv T (n :: p :: h) (put_pkt p k1 s1)) by (apply Inv_put_pkt; [done|right; left|done]).
  destruct (free_beside T h (put_pkt p k1 s1) p n n4 HI2 Hne) as (s5 & Hfr & N5 & Eq5 & _). unfold s2. rewrite put_pkt_put.
  apply wp_bind. unfold wp at 1. rewrite Hfr. rewrite (pkt_at_put _ _ _ _ N1) in N5. pose proof (hdr_size_bound s5) as Hz5.
  pose proof (length_enc s5 false (pkt_id n4)) as He5. assert (Hm4 : zlen (pkt_mem n4) = CSP_PACKET_PADDING_BYTES + CSP_BUFFER_SIZE) by reflexivity.
  destruct (mem_write_ok (pkt_mem n4) (CSP_PACKET_PADDING_BYTES + - hdr_size s5) (enc s5 false (pkt_id n4))) as [m Hw];
    [unfold CSP_PACKET_PADDING_BYTES, CSP_BUFFER_SIZE in *; lia..|]. pose proof (mem_write_length _ _ _ _ Hw) as Hml.
  apply wp_bind. unfold wp at 1. change (csp_id_prepend n s5) with (prepend_any false n s5). rewrite (prepend_at false n n4 s5 m N5 Hw). apply wp_bind.
  unfold wp at 1, csp_qfifo_write. rewrite (bind_ret _ _ _ (qfifo s5) _) by done. rewrite Eq5. change (qfifo (put_pkt p k1 s1)) with (qfifo s1).
  rewrite Eq. unfold q_enqueue. rewrite decide_True by done. split; [done|]. exists n, (framed n (hdr_size s5) m n4).
  split; [apply last_snoc|]. split; [by apply (pkt_at_put n _ n4)|]. split_and!; [done|done|]. simpl. by rewrite Hml, Hm4.
Qed.

(** ** I2C *)

(** What [csp_i2c_rx] makes of a frame: too short for the version 1 header, it
    is dropped and counted; long enough for the header, it is a packet; in
    between, it is queued without having been parsed. *)
Definition i2c_outcome (i : nat) (s : node) (k : csp_packet) (bs : list Z) (s' : node) : Prop :=
  if zlen bs <? 4 then
    (if_frame <$> ifs s' !! i) = ((fun x => u32 (if_frame x + 1)) <$> ifs s !! i) /\ qfifo s' = qfifo s
  else (q_size (qfifo s) < q_cap (qfifo s))%nat ->
    if zlen bs <? hdr_size s then queued i (fun k' => k' = k) s'
    else queued i (carries (Id.dec s false (take (Z.to_nat (hdr_size s)) bs)) (drop (Z.to_nat (hdr_size s)) bs)) s'.

(** I2C reception, on every branch: the driver hands over a packet with a
    frame of any length up to the buffer and [csp_i2c_rx] disposes of it
    as [i2c_outcome] says; the node stays well formed and the packet is never
    lost.  The check is for 4 bytes whatever the version, and the result of
    [csp_id_strip] is not looked at: with version 2 headers of 6 bytes, a frame
    of 4 or 5 bytes goes to the router with the header the buffer had before. *)
Theorem i2c_rx_spec T h s i p k bs isr : Inv T (p :: h) s -> valid_if T i -> pkt_at p s = Some k -> frame_in (hdr_size s) p bs k ->
  zlen bs <= CSP_BUFFER_SIZE + hdr_size s ->
  exists s', csp_i2c_rx i (Some p) isr s = Ret tt s' /\ Inv T h s' /\ i2c_outcome i s k bs s'.
Proof.
  intros HI Hi Hk Hf Hlen. pose proof (hdr_size_bound s) as Hz.
  assert (W : wp (csp_i2c_rx i (Some p) isr) (fun _ s' => Inv T h s' /\ i2c_outcome i s k bs s') s);
    [|apply wp_run in W as ([] & s' & Hr & H1 & H2); by exists s'].
  unfold csp_i2c_rx, i2c_outcome. apply wp_bind. unfold wp at 1. rewrite (get_pkt_at _ _ _ Hk), (fr_len _ _ _ _ Hf).
  destruct (Z.ltb_spec (zlen bs) 4) as [Hs|Hs].
  - pose proof Hi as Hv. unfold valid_if in Hv. rewrite (Inv_nifs _ _ _ HI) in Hv. destruct (lookup_lt_is_Some_2 _ _ Hv) as [x Hx].
    apply wp_bind. pose proof (wp_mod_iface T (p :: h) s i (fun x => set_if_frame (u32 (if_frame x + 1)) x) HI Hi ltac:(done)) as W.
    unfold wp, mod_iface in W. unfold wp at 1, incr_frame, mod_iface. rewrite Hx in *. set (s1 := set_ifs _ s) in *.
    apply (wp_mono _ (fun (_ : unit) s' => Inv T h s' /\ (ifs s', qfifo s') = (ifs s1, qfifo s1))).
    { intros [] s' [H1 [= -> ->]]. split; [done|]. split; [|done]. simpl. by rewrite list_lookup_insert_eq. }
    assert (Hfree : wp (csp_buffer_free (Some p)) (fun _ s' => Inv T h s' /\ (ifs s', qfifo s') = (ifs s1, qfifo s1)) s1)
      by (apply (wp_keeps (fun s => (ifs s, qfifo s))); [by apply keeps_buffer_free|by apply wp_free]).
    destruct isr; exact Hfree.
  - destruct (Z.ltb_spec (zlen bs) (hdr_size s)) as [Hs2|Hs2].
    + apply wp_bind. unfold wp at 1. change (csp_id_strip p s) with (strip_any false p s).
      rewrite (strip_short false p k s Hk); [|by rewrite (fr_len _ _ _ _ Hf)].
      eapply wp_conseq; [by apply (wp_queue T h s i p isr k (fun k' => k' = k))|]. cbv beta. intros [] s' [H1 H2]. split; [done|]. auto.
    + destruct (plain_strip_frame p k s bs Hk Hf ltac:(lia)) as (k1 & Hrun & Hok1 & Hc). apply wp_bind. unfold wp at 1. rewrite Hrun.
      eapply wp_conseq; [apply (wp_queue T h _ i p isr k1); [apply Inv_put_pkt; [done|left|done]|done|by eapply pkt_at_put]|].
      cbv beta. intros [] s' [H1 H2]. split; [done|]. intros Hroom. by apply H2.
Qed.

(** ** Concrete nodes *)

(** The node with a UDP socket and a tunnel from [a] to [b] on interface 1. *)
Definition link_udp : csp_udp := mkUdp [49; 46; 50; 46; 51; 46; 52] 9600 9601 0x01020304 3.
Definition linked (a b : Z) (s : node) : node := set_udp [None; Some link_udp] (set_tun [None; Some (mkTun a b)] s).

Lemma linked_inv T h a b s : Inv T h s -> Inv T h (linked a b s).
Proof. intros []. by constructor. Qed.

(** A node that holds a packet with this header and these data in buffer 0. *)
Definition fill (i : csp_id) (data : list Z) : M unit :=
  p ← csp_buffer_get;
  match p with
  | Some p => mod_pkt p (fun k => set_pkt_length (zlen data) (set_pkt_id i k)) ;; write_mem p 0 data
  | None => mret tt
  end.
Definition holding (i : csp_id) (data : list Z) : node := state_of (fill i data bus_node).

Lemma first_buffer : exists s, csp_buffer_get bus_node = Ret (Some 0%nat) s /\ Inv (config_of bus_node) [0%nat] s /\
  pkt_at 0 s = Some (packet_zero 0) /\ csp_buffers s = Queue 15 (seq 1 14) /\ qfifo s = Queue 15 [].
Proof.
  assert (E : csp_buffers bus_node = Queue 15 (0%nat :: seq 1 14)) by (vm_compute; reflexivity).
  assert (Ef : qfifo bus_node = Queue 15 []) by (vm_compute; reflexivity).
  pose proof bus_node_inv as HI. revert E Ef HI. generalize bus_node as s. intros s E Ef HI.
  unfold csp_buffer_get. rewrite get_actual_run by (by eapply Inv_pool_ok). rewrite E. change (_ <? 2) with false. cbn [q_items].
  eexists. split; [reflexivity|]. destruct (Inv_alloc (config_of s) [] s 0 (seq 1 14) CSP_BUFFER_COUNT HI) as [H1 _];
    [by rewrite E|by rewrite E|]. split; [exact H1|]. split; [|split; [reflexivity|exact Ef]].
  unfold pkt_at. simpl. rewrite list_lookup_insert_eq; [done|]. rewrite (inv_pool _ _ _ HI). unfold CSP_BUFFER_COUNT. lia.
Qed.

Lemma holding_ok i data : zlen data <= CSP_BUFFER_SIZE ->
  Inv (config_of bus_node) [0%nat] (holding i data) /\ (exists k, pkt_at 0 (holding i data) = Some k /\ carries i data k) /\
  csp_buffers (holding i data) = Queue 15 (seq 1 14) /\ qfifo (holding i data) = Queue 15 [].
Proof.
  intros Hlen. destruct first_buffer as (s & Hget & HI & Hk & Hb & Hq). unfold holding, fill. rewrite (bind_ret _ _ _ _ _ Hget). clear Hget.
  rewrite (bind_ret _ _ _ _ _ (mod_pkt_at _ _ _ _ Hk)). set (k1 := set_pkt_length _ _). pose proof (pkt_at_put 0 k1 _ s Hk) as K1.
  destruct (mem_write_ok (pkt_mem k1) (CSP_PACKET_PADDING_BYTES + 0) data) as [m Hw].
  { unfold CSP_PACKET_PADDING_BYTES. lia. }
  { change (zlen (pkt_mem k1)) with 264. unfold CSP_PACKET_PADDING_BYTES, CSP_BUFFER_SIZE in *. lia. }
  rewrite (write_mem_at _ _ _ _ _ _ K1 Hw), put_pkt_put. cbn [state_of]. pose proof (mem_write_length _ _ _ _ Hw) as Hml.
  split_and!; [|eexists; split; [by eapply pkt_at_put|]|exact Hb|exact Hq].
  - apply Inv_put_pkt; [done|left|]. split; simpl; [by rewrite Hml|lia].
  - split; [done|done|]. simpl. by eapply mem_read_write.
Qed.

(** The header and the node of the packets below: version 2, from 5 to 9. *)
Definition link_id : csp_id := mkId 2 1 5 9 10 20.
Definition link_node : node := linked 40 41 (holding link_id bus_payload).

Lemma linked_ok a b i data : zlen data <= CSP_BUFFER_SIZE -> let s := linked a b (holding i data) in
  Inv (config_of bus_node) [0%nat] s /\ (exists k, pkt_at 0 s = Some k /\ carries i data k) /\
  csp_buffers s = Queue 15 (seq 1 14) /\ qfifo s = Queue 15 [].
Proof.
  intros Hlen. destruct (holding_ok i data Hlen) as (HI & Hk & Hb & Hq).
  revert HI Hk Hb Hq. generalize (holding i data) as s. intros s HI Hk Hb Hq.
  split; [by apply linked_inv|]. split; [exact Hk|]. split; [exact Hb|exact Hq].
Qed.

Lemma link_node_ok : Inv (config_of bus_node) [0%nat] link_node /\ (exists k, pkt_at 0 link_node = Some k /\ carries link_id bus_payload k) /\
  csp_buffers link_node = Queue 15 (seq 1 14) /\ qfifo link_node = Queue 15 [].
Proof. apply linked_ok. unfold CSP_BUFFER_SIZE. simpl. lia. Qed.

Lemma link_node_v2 : is_v2 link_node = true.
Proof. vm_compute. reflexivity. Qed.

Lemma link_if : valid_if (config_of bus_node) 1.
Proof. vm_compute. lia. Qed.

Lemma udp_roundtrip_witness : exists k s1' s2', pkt_at 0 link_node = Some k /\
  csp_if_udp_tx (H := good_drivers) 1 0 0 true link_node = Ret CSP_ERR_NONE s1' /\
  csp_if_udp_rx_work 1 (Some (enc link_node false link_id ++ bus_payload)) bus_node = Ret CSP_ERR_NONE s2' /\
  queued 1 (carries link_id bus_payload) s2'.
Proof.
  destruct link_node_ok as (HI & (k & Hk & [Hid Hl Hm]) & _). pose proof link_node_v2 as Hv.
  destruct (udp_roundtrip (H := good_drivers) (config_of bus_node) [] link_node 1 0 0 true k link_udp bus_payload (config_of bus_node) [] 1 bus_node)
    as ((s1' & Htx & _) & _ & Hrx).
  - exact HI.
  - exact Hk.
  - reflexivity.
  - discriminate.
  - unfold id_ok. rewrite Hid, Hv. vm_compute. repeat split; discriminate.
  - rewrite Hl. exact Hm.
  - exact bus_node_inv.
  - exact link_if.
  - rewrite Hv. vm_compute. reflexivity.
  - destruct Hrx as (s2' & Hrun & _ & HQ).
    + apply Nat.leb_le. vm_compute. reflexivity.
    + apply Nat.ltb_lt. vm_compute. reflexivity.
    + exists k, s1', s2'. rewrite Hid in Hrun, HQ. split_and!; assumption.
Defined.

Lemma i2c_rx_spec_witness : exists k1 s', csp_i2c_rx 1 (Some 0%nat) false (put_pkt 0 k1 link_node) = Ret tt s' /\
  queued 1 (carries link_id bus_payload) s'.
Proof.
  pose proof link_node_ok as Hok. pose proof link_node_v2 as Hv. revert Hok Hv. generalize link_node as s.
  intros s (HI & (k & Hk & [Hid Hl Hm]) & _ & Hq) Hv.
  destruct (live_pkt s 0) as (k' & Hk' & Hkok); [eapply Inv_live_h; [exact HI|left]|]. rewrite Hk in Hk'. apply (inj Some) in Hk' as <-.
  destruct (plain_prepend_frame 0 k s bus_payload Hk Hkok) as (k1 & _ & Hok1 & _ & Hf); [rewrite Hl; exact Hm|].
  assert (Ez : hdr_size s = 6) by (unfold hdr_size; by rewrite Hv).
  pose proof (length_enc s false link_id) as Hel. rewrite Hid in Hf.
  destruct (i2c_rx_spec (config_of bus_node) [] (put_pkt 0 k1 s) 1 0 k1 (enc s false link_id ++ bus_payload) false) as (s' & Hr & _ & Ho).
  - apply Inv_put_pkt; [exact HI|left|exact Hok1].
  - exact link_if.
  - by eapply pkt_at_put.
  - exact Hf.
  - change (hdr_size (put_pkt 0 k1 s)) with (hdr_size s). rewrite length_app, Nat2Z.inj_add, Hel, Ez. vm_compute. discriminate.
  - exists k1, s'. split; [exact Hr|]. unfold i2c_outcome in Ho. change (hdr_size (put_pkt 0 k1 s)) with (hdr_size s) in Ho.
    change (qfifo (put_pkt 0 k1 s)) with (qfifo s) in Ho.
    rewrite (proj2 (Z.ltb_ge _ 4)), (proj2 (Z.ltb_ge _ (hdr_size _))) in Ho; [|rewrite length_app, Nat2Z.inj_add, Hel; lia..].
    rewrite Hq, <- Hel, Nat2Z.id, take_app_length, drop_app_length, (dec_enc false s) in Ho.
    + apply Ho. apply Nat.ltb_lt. reflexivity.
    + reflexivity.
    + unfold id_ok. rewrite Hv. vm_compute. repeat split; discriminate.
Defined.

Lemma tun_no_cipher_length_witness : exists s', csp_if_tun_tx (H := weak_crypto) 1 0 0 true link_node = Ret CSP_ERR_NONE s' /\
  queued 1 (fun k => pkt_length k = 65535) s'.
Proof.
  destruct link_node_ok as (HI & (k & Hk & [Hid Hl Hm]) & Hb & Hq).
  destruct (tun_no_cipher_length (config_of bus_node) [] link_node 1 0 0 true k (mkTun 40 41)) as (s' & Hr & p' & k' & H1 & H2 & H3).
  - exact HI.
  - exact Hk.
  - reflexivity.
  - rewrite Hid. discriminate.
  - rewrite Hb. apply Nat.ltb_lt. reflexivity.
  - rewrite Hq. apply Nat.ltb_lt. reflexivity.
  - exists s'. split; [exact Hr|]. exists p', k'. split; [exact H1|]. split; [exact H2|]. apply H3.
Defined.

(** A cipher: every byte is masked, and no message may exceed a length byte. *)
Definition mask_crypto : Crypto := {|
  csp_crypto_encrypt m := if zlen m <? 256 then Some (map (Z.lxor 0x5A) m) else None;
  csp_crypto_decrypt c := Some (map (Z.lxor 0x5A) c)
|}.

#[local] Instance mask_laws : @CryptoLaws mask_crypto.
Proof.
  constructor; simpl; intros m c; destruct (Z.ltb_spec (zlen m) 256); intros E; [|discriminate| |discriminate]; injection E as <-.
  - f_equal. rewrite map_map. rewrite <- (map_id m) at 2. apply map_ext. intros x. by rewrite <- Z.lxor_assoc, Z.lxor_nilpotent, Z.lxor_0_l.
  - by rewrite length_map.
Qed.

Lemma tun_roundtrip_witness : exists k s1' c s2',
  csp_if_tun_tx (H := mask_crypto) 1 0 0 true link_node = Ret CSP_ERR_NONE s1' /\
  queued 1 (carries (tun_id k (mkTun 40 41)) c) s1' /\
  csp_if_tun_tx (H := mask_crypto) 1 0 0 false (linked 41 40 (holding (mkId 2 0 40 41 0 0) c)) = Ret CSP_ERR_NONE s2' /\
  queued 1 (carries link_id bus_payload) s2'.
Proof.
  destruct link_node_ok as (HI & (k & Hk & [Hid Hl Hm]) & Hb & Hq). pose proof link_node_v2 as Hv.
  assert (Ez : hdr_size link_node = 6) by (unfold hdr_size; by rewrite Hv).
  set (c := map (Z.lxor 0x5A) (enc link_node false link_id ++ bus_payload)).
  assert (Elen : zlen (enc link_node false link_id ++ bus_payload) = 19) by (rewrite length_app, Nat2Z.inj_add, length_enc, Ez; reflexivity).
  assert (Ec : zlen c = 19) by (unfold c; by rewrite length_map).
  destruct (linked_ok 41 40 (mkId 2 0 40 41 0 0) c) as (HI2 & (k2 & Hk2 & Hc2) & Hb2 & Hq2); [unfold CSP_BUFFER_SIZE; lia|].
  destruct (tun_roundtrip (H := mask_crypto) (config_of bus_node) [] link_node 1 0 0 true k (mkTun 40 41) bus_payload c
    (config_of bus_node) [] (linked 41 40 (holding (mkId 2 0 40 41 0 0) c)) 1 0 0 false k2 (mkTun 41 40)) as ((s1' & Ht1 & _ & Q1) & (s2' & Ht2 & _ & Q2)).
  - exact HI.
  - exact link_if.
  - exact Hk.
  - reflexivity.
  - rewrite Hid. discriminate.
  - unfold id_ok. rewrite Hid, Hv. vm_compute. repeat split; discriminate.
  - rewrite Hl. exact Hm.
  - rewrite Ez, Hl. reflexivity.
  - rewrite Hid. cbn [csp_crypto_encrypt mask_crypto]. rewrite Elen. reflexivity.
  - rewrite Hb. apply Nat.ltb_lt. reflexivity.
  - rewrite Hq. apply Nat.ltb_lt. reflexivity.
  - exact HI2.
  - exact link_if.
  - exact Hk2.
  - reflexivity.
  - rewrite Hv. unfold c. symmetry. vm_compute. reflexivity.
  - unfold tun_id. rewrite Hid. exact Hc2.
  - reflexivity.
  - rewrite Hb2. apply Nat.ltb_lt. reflexivity.
  - rewrite Hq2. apply Nat.ltb_lt. reflexivity.
  - exists k, s1', c, s2'. rewrite Hid in Q2. split; [exact Ht1|]. split; [exact Q1|]. split; [exact Ht2|exact Q2].
Defined.
