(* ===== verification/Zmq.v ===== *)
(** * Zmq: the interface to a ZMQ hub

    [src/interfaces/csp_if_zmqhub.c].  A node publishes its frames on a hub and
    subscribes to the frames others publish, with filters on the first bytes.
    The ZMQ library, its sockets and the threads are outside the stack. *)

From S2P Require Import Prelude State Monad Id Buffer Iflist Qfifo Links RtableText.

Definition ZMQ_NEXTHOP : nat := 7.
Definition ZMQ_DEST_ADDR_SIZE_FIXUP_CSPV1 : Z := 1.
Definition CSP_ZMQPROXY_SUBSCRIBE_PORT : Z := 6000.
Definition CSP_ZMQPROXY_PUBLISH_PORT : Z := 7000.
(** ["ZMQHUB"] *)
Definition CSP_ZMQHUB_IF_NAME : list Z := [90; 77; 81; 72; 85; 66].

(** ** Frames *)

Definition is_v1 (s : node) : bool := version (conf s) =? 1.

Definition csp_zmqhub_fixup_cspv1_add_dest_addr (packet : nat) : M unit :=
  v1 ← gets is_v1;
  when v1
    (mod_pkt packet (fun k => set_frame_off (frame_off k - ZMQ_DEST_ADDR_SIZE_FIXUP_CSPV1) k) ;;
     k ← get_pkt packet;
     write_mem (frame_buf k) (frame_off k) [u8 (dst (pkt_id k))] ;;
     mod_pkt packet (fun k => set_frame_length (u16 (frame_length k + ZMQ_DEST_ADDR_SIZE_FIXUP_CSPV1)) k)).

Definition csp_zmqhub_fixup_cspv1_del_dest_addr (rx_data : list Z) : M (list Z) :=
  v1 ← gets is_v1;
  mret (if v1 : bool then drop (Z.to_nat ZMQ_DEST_ADDR_SIZE_FIXUP_CSPV1) rx_data else rx_data).

Section Tx.
Context `{Drivers}.

(** An error of [zmq_send] is only printed. *)
Definition csp_zmqhub_tx (iface : nat) (via : Z) (packet : nat) (from_me : bool) : M Z :=
  csp_id_prepend_fixup_cspv1 packet ;;
  csp_zmqhub_fixup_cspv1_add_dest_addr packet ;;
  k ← get_pkt packet;
  bs ← read_frame packet (frame_length k);
  _ ← drv_send iface 0 bs;
  csp_buffer_free (Some packet) ;;
  mret CSP_ERR_NONE.

End Tx.

Definition zmq_header_size (s : node) : Z :=
  if version (conf s) =? 2 then 6 else 4 + ZMQ_DEST_ADDR_SIZE_FIXUP_CSPV1.

(** One turn of the loop of [csp_zmqhub_task]; [None] when the receive fails.
    A message has the size it was sent with: the size given to
    [zmq_msg_init_size] is not a limit. *)
Definition zmqhub_turn (iface : nat) (msg : option (list Z)) : M unit :=
  match msg with
  | None => mret tt
  | Some rx_data =>
      s ← gets id;
      if zlen rx_data <? zmq_header_size s then mret tt else
      packet ← csp_buffer_get;
      match packet with
      | None => mret tt
      | Some p =>
          rx_data ← csp_zmqhub_fixup_cspv1_del_dest_addr rx_data;
          _ ← csp_id_setup_rx p;
          write_frame p rx_data ;;
          mod_pkt p (set_frame_length (u16 (zlen rx_data))) ;;
          r ← csp_id_strip_fixup_cspv1 p;
          if negb (r =? 0) then incr_rx_error iface ;; csp_buffer_free (Some p)
          else csp_qfifo_write (Some p) (Some iface) false
      end
  end.

(** [csp_zmqhub_task] over the messages it receives, in order. *)
Fixpoint csp_zmqhub_task (iface : nat) (msgs : list (option (list Z))) : M unit :=
  match msgs with
  | [] => mret tt
  | m :: msgs' => zmqhub_turn iface m ;; csp_zmqhub_task iface msgs'
  end.

(** ** Setting up *)

(** ["tcp://%s:%u"] into [buf_size] bytes: the status and the text. *)
Definition csp_zmqhub_make_endpoint (host : list Z) (port buf_size : Z) : Z * list Z :=
  let text := [116; 99; 112; 58; 47; 47] ++ host ++ 58 :: udec port in
  if i32 buf_size <=? zlen text then (CSP_ERR_NOMEM, []) else (CSP_ERR_NONE, text).

(** What the ZMQ and thread libraries answer: whether contexts, sockets, options
    and the thread could be made, whether a socket could connect to an
    endpoint, and which messages a subscriber receives. *)
Class Zmq := {
  zmq_available : bool;
  zmq_connect : list Z -> bool;
  zmq_delivers : list (list Z) -> list Z -> bool
}.

(** As ZMQ documents it, a subscriber receives the messages that begin with the
    bytes of one of its filters. *)
Class ZmqLaws `{Zmq} : Prop := {
  law_delivers : forall filters msg, zmq_delivers filters msg = true <-> exists f, f ∈ filters /\ f `prefix_of` msg
}.

Section Init.
Context `{Zmq}.

Definition zmq_assert (b : bool) : M unit := if b then mret tt else halt.

(** [calloc] of a [zmq_driver_t], with the name and transmit function of its
    interface; the new interface is the last one. *)
Definition zmq_drv_new (ifname : option (list Z)) : M nat :=
  s ← gets id;
  let name := take 10 (default CSP_ZMQHUB_IF_NAME ifname) in
  let iface := mkIface 0 0 (Some name) ZMQ_NEXTHOP 0 0 0 0 0 0 0 0 0 0 0 None in
  modify (set_ifs (ifs s ++ [iface])) ;;
  mret (length (ifs s)).

(** The result is the status, the interface and the filters of the
    subscriber. *)
Definition csp_zmqhub_init_w_name_endpoints_rxfilter (ifname : option (list Z)) (addr : Z)
    (publish_endpoint subscribe_endpoint : list Z) : M (Z * nat * list (list Z)) :=
  i ← zmq_drv_new ifname;
  mod_iface i (set_if_addr (u16 addr)) ;;
  zmq_assert zmq_available ;;
  zmq_assert (zmq_connect publish_endpoint) ;;
  csp_iflist_add (Some i) ;;
  mret (CSP_ERR_NONE, i, [[]]).

Definition csp_zmqhub_init_w_endpoints (addr : Z) (publisher_endpoint subscriber_endpoint : list Z)
    : M (Z * nat * list (list Z)) :=
  csp_zmqhub_init_w_name_endpoints_rxfilter None addr publisher_endpoint subscriber_endpoint.

Definition csp_zmqhub_init (addr : Z) (host : list Z) : M (Z * nat * list (list Z)) :=
  let pub := snd (csp_zmqhub_make_endpoint host CSP_ZMQPROXY_SUBSCRIBE_PORT 100) in
  let sub := snd (csp_zmqhub_make_endpoint host CSP_ZMQPROXY_PUBLISH_PORT 100) in
  csp_zmqhub_init_w_endpoints addr pub sub.

(** The filters for one priority, each of two bytes in network order. *)
Definition zmq_filt (addr hostmask i : Z) : list (list Z) :=
  [be_bytes 2 (Z.lor (Z.shiftl i 14) addr);
   be_bytes 2 (Z.lor (Z.lor (Z.shiftl i 14) addr) hostmask);
   be_bytes 2 (Z.lor (Z.shiftl i 14) 16383)].

(** The mask's shift count is negative, and the shift undefined, when the
    netmask exceeds the host bits. *)
Definition csp_zmqhub_init_filter2 (ifname : option (list Z)) (host : list Z) (addr netmask : Z) (promisc : bool)
    (subport pubport : Z) : M (Z * nat * list (list Z)) :=
  let pub := snd (csp_zmqhub_make_endpoint host subport 100) in
  let sub := snd (csp_zmqhub_make_endpoint host pubport 100) in
  i ← zmq_drv_new ifname;
  zmq_assert zmq_available ;;
  s ← gets id;
  if csp_id_get_host_bits s <? netmask then undef else
  let hostmask := u16 (Z.shiftl 1 (csp_id_get_host_bits s - netmask) - 1) in
  zmq_assert (zmq_connect pub) ;;
  zmq_assert (zmq_connect sub) ;;
  let filters := if promisc then [[]] else flat_map (zmq_filt addr hostmask) [0; 1; 2; 3] in
  csp_iflist_add (Some i) ;;
  mret (CSP_ERR_NONE, i, filters).

End Init.
