(* ===== verification/ZmqSpec.v ===== *)
(** * ZmqSpec: what a node receives over a ZMQ hub

    The subscription of [csp_zmqhub_init_filter2] against the addresses the
    node accepts; the frames from publisher to subscriber; and the messages
    that overrun the packet. *)

From S2P Require Import Prelude State Monad Id Buffer Iflist Rtable Qfifo Io RdpQueue Rdp Conn RdpProto Api Route.
From S2P Require Import Own OwnIo OwnRdp OwnRoute OwnApi RdpSpec RdpState OwnConf OwnClient Node Pbuf Links Frames LinksSpec Zmq.

(** ** Filters *)

(** The first two bytes of a version 2 header are priority and destination. *)
Lemma enc2_head i data : id2_ok i -> take 2 (enc2 i ++ data) = be_bytes 2 (pri i * 2 ^ 14 + dst i).
Proof.
  intros Hi. rewrite enc2_be by done. change 6%nat with (2 + 4)%nat. rewrite be_bytes_app, <- app_assoc.
  rewrite take_app_le by (rewrite length_be_bytes; lia). rewrite take_ge by (rewrite length_be_bytes; lia).
  f_equal. rewrite (id2_pack_sum i Hi). change (256 ^ Z.of_nat 4) with (2 ^ 32). unfold id2_ok in Hi.
  symmetry. apply Z.div_unique with (r := src i * 2 ^ 18 + (dport i * 2 ^ 12 + (sport i * 2 ^ 6 + flags i))); lia.
Qed.

Lemma be_bytes_inj n a b : 0 <= a < 256 ^ Z.of_nat n -> 0 <= b < 256 ^ Z.of_nat n -> be_bytes n a = be_bytes n b -> a = b.
Proof. intros Ha Hb E. apply (f_equal be_val) in E. rewrite !be_val_bytes in E. by rewrite !Z.mod_small in E. Qed.

Lemma prefix_2 (f l : list Z) : length f = 2%nat -> f `prefix_of` l <-> take 2 l = f.
Proof.
  intros Hf. split.
  - intros [r ->]. rewrite <- Hf. by rewrite take_app_length.
  - intros <-. exists (drop 2 l). by rewrite take_drop.
Qed.

(** A filter for priority [i] and address [a]. *)
Lemma filter_head i j data a : id2_ok i -> 0 <= j < 4 -> 0 <= a < 2 ^ 14 ->
  be_bytes 2 (Z.lor (Z.shiftl j 14) a) `prefix_of` enc2 i ++ data <-> pri i = j /\ dst i = a.
Proof.
  intros Hi Hj Ha. pose proof Hi as (Hp & Hd & _). rewrite prefix_2 by apply length_be_bytes. rewrite enc2_head by done.
  assert (E : Z.lor (Z.shiftl j 14) a = j * 2 ^ 14 + a).
  { by apply lor_shiftl_add. }
  rewrite E. split; [|by intros [-> ->]]. intros Hb. apply be_bytes_inj in Hb; [|simpl; lia|simpl; lia]. lia.
Qed.

(** Setting the host bits of an address. *)
Lemma lor_hostmask a n : 0 <= n -> 0 <= a -> Z.lor a (2 ^ n - 1) = a / 2 ^ n * 2 ^ n + (2 ^ n - 1).
Proof.
  intros Hn Ha. pose proof (Z.pow_pos_nonneg 2 n ltac:(lia) Hn) as Hp. rewrite <- lor_shiftl_add by lia.
  rewrite <- Z.shiftr_div_pow2 by lia. replace (2 ^ n - 1) with (Z.ones n) by (rewrite Z.ones_equiv; lia).
  apply Z.bits_inj'. intros m Hm. rewrite !Z.lor_spec, Z.testbit_ones_nonneg by lia.
  destruct (Z.ltb_spec m n); [by rewrite !orb_true_r|]. rewrite !orb_false_r.
  rewrite Z.shiftl_spec, Z.shiftr_spec by lia. f_equal. lia.
Qed.

Section Filters.
Context `{ZmqLaws}.

Lemma delivers_filters i data addr mask : id2_ok i -> 0 <= addr < 2 ^ 14 -> 0 <= Z.lor addr mask < 2 ^ 14 ->
  zmq_delivers (flat_map (zmq_filt addr mask) [0; 1; 2; 3]) (enc2 i ++ data) = true <->
  dst i = addr \/ dst i = Z.lor addr mask \/ dst i = 16383.
Proof.
  intros Hi Ha Hm. rewrite law_delivers. split.
  - intros (f & Hf & Hpre). apply list_elem_of_In, in_flat_map in Hf as (j & Hj & Hf).
    assert (Hj4 : 0 <= j < 4) by (simpl in Hj; lia). unfold zmq_filt in Hf. rewrite <- Z.lor_assoc in Hf.
    destruct Hf as [<-|[<-|[<-|[]]]]; apply filter_head in Hpre as [_ Hd]; auto; lia.
  - intros Hd. pose proof Hi as (Hp & _).
    assert (Hin : forall f, f ∈ zmq_filt addr mask (pri i) -> f ∈ flat_map (zmq_filt addr mask) [0; 1; 2; 3]).
    { intros f Hf. apply list_elem_of_In, in_flat_map. exists (pri i). split; [simpl; lia|by apply list_elem_of_In]. }
    unfold zmq_filt in Hin. rewrite <- Z.lor_assoc in Hin.
    destruct Hd as [Hd|[Hd|Hd]]; (eexists; split; [apply Hin|apply filter_head; [done|done| |done]]).
    all: first [lia|apply list_elem_of_In; simpl; tauto].
Qed.

(** C21. The subscription of a version 2 node is exact.  When the hub can be
    reached, [csp_zmqhub_init_filter2] adds a new interface at the end of the
    interface list, and without [promisc] its subscriber receives, of the
    frames that nodes publish, of any priority, exactly those for the address
    and those that [csp_id_is_broadcast] takes for broadcasts on an interface
    of that address and netmask; with [promisc], all. *)
Theorem zmq_filter_exact s l ifname host addr netmask subport pubport ifc :
  is_v2 s = true -> 0 <= addr < 2 ^ 14 -> 0 <= netmask <= 14 -> if_addr ifc = addr -> if_netmask ifc = netmask ->
  iflist s l -> named (ifs s) l -> existsb (name_taken (ifs s) (take 10 (default CSP_ZMQHUB_IF_NAME ifname))) l = false ->
  zmq_available = true -> (forall e, zmq_connect e = true) ->
  forall promisc, exists subs s', csp_zmqhub_init_filter2 ifname host addr netmask promisc subport pubport s =
      Ret (CSP_ERR_NONE, length (ifs s), subs) s' /\
    iflist s' (l ++ [length (ifs s)]) /\
    forall i data, id2_ok i -> exists b, csp_id_is_broadcast s (dst i) ifc = Some b /\
      (zmq_delivers subs (enc2 i ++ data) = true <-> promisc = true \/ dst i = addr \/ b = true).
Proof.
  intros Hv Ha Hn Eaddr Emask Hl Hnm Ht Hav Hcon promisc.
  assert (Ehb : csp_id_get_host_bits s = 14) by (unfold csp_id_get_host_bits; by rewrite Hv).
  set (name := take 10 _) in Ht. set (x := mkIface 0 0 (Some name) ZMQ_NEXTHOP 0 0 0 0 0 0 0 0 0 0 0 None).
  set (s1 := set_ifs (ifs s ++ [x]) s). set (j := length (ifs s)).
  destruct (iflist_add_new s s1 l x name) as (s2 & Hadd & Hl2); [done..|].
  eexists _, s2. split; [|split; [exact Hl2|]].
  - unfold csp_zmqhub_init_filter2. rewrite (bind_ret _ _ _ j s1) by reflexivity. rewrite Hav. rewrite (bind_ret _ _ _ tt s1) by done.
    rewrite (bind_ret _ _ _ s1 s1) by done. change (csp_id_get_host_bits s1) with (csp_id_get_host_bits s). rewrite Ehb.
    rewrite (proj2 (Z.ltb_ge _ _)) by lia. rewrite !Hcon. rewrite !(bind_ret _ _ _ tt s1) by done.
    rewrite (bind_ret _ _ _ _ _ Hadd). reflexivity.
  - intros i data Hi. pose proof Hi as (_ & Hd & _).
    destruct (is_broadcast_spec s (dst i) ifc) as (b & Hb & Hiff); rewrite ?Ehb, ?Emask, ?Eaddr; [lia|simpl; lia|simpl; lia|].
    exists b. split; [exact Hb|]. rewrite Hiff, Ehb, Emask, Eaddr. clear Hb Hiff. destruct promisc.
    { split; [by left|]. intros _. apply law_delivers. exists []. split; [left|by eexists]. }
    set (n := 14 - netmask). assert (Hpn : 1 <= 2 ^ n <= 2 ^ 14) by (split; [pose proof (Z.pow_pos_nonneg 2 n); lia|apply Z.pow_le_mono_r; lia]).
    rewrite Z.shiftl_1_l, u16_small by lia. pose proof (lor_hostmask addr n ltac:(lia) ltac:(lia)) as El.
    pose proof (Z.div_mod addr (2 ^ n) ltac:(lia)) as Dm. pose proof (Z.mod_pos_bound addr (2 ^ n) ltac:(lia)) as Mb.
    pose proof (Z.div_mod (dst i) (2 ^ n) ltac:(lia)) as Dd. pose proof (Z.mod_pos_bound (dst i) (2 ^ n) ltac:(lia)) as Md.
    assert (Hup : Z.lor addr (2 ^ n - 1) < 2 ^ 14).
    { assert (E14 : 2 ^ 14 = 2 ^ n * 2 ^ netmask) by (rewrite <- Z.pow_add_r by lia; f_equal; lia).
      assert (addr / 2 ^ n < 2 ^ netmask) by (apply Z.div_lt_upper_bound; lia). rewrite El. nia. }
    rewrite delivers_filters; [|done|done|rewrite El; nia]. rewrite El. change (2 ^ 14 - 1) with 16383.
    assert (Hs : dst i = addr / 2 ^ n * 2 ^ n + (2 ^ n - 1) <-> dst i / 2 ^ n = addr / 2 ^ n /\ dst i mod 2 ^ n = 2 ^ n - 1).
    { split; [|intros [E1 E2]; rewrite E1, E2 in Dd; lia]. intros E. split.
      - symmetry. apply Z.div_unique with (r := 2 ^ n - 1); lia.
      - symmetry. apply Z.mod_unique with (q := addr / 2 ^ n); lia. }
    rewrite Hs. clear. intuition discriminate.
Qed.

(** A code bug: the filters are those of the version 2 header, but a version 1
    message begins with the destination in a byte of its own.  Without
    [promisc] a version 1 node receives no frame for any address but 0. *)
Theorem zmq_v1_deaf addr mask i data : 0 <= addr < 32 -> 0 <= mask < 32 -> id1_ok i -> dst i <> 0 ->
  zmq_delivers (flat_map (zmq_filt addr mask) [0; 1; 2; 3]) (u8 (dst i) :: enc1 true i ++ data) = false.
Proof.
  intros Ha Hm (_ & Hd & _) Hne. apply not_true_is_false. rewrite law_delivers. intros (f & Hf & Hpre).
  apply list_elem_of_In, in_flat_map in Hf as (j & Hj & Hf). assert (Hj4 : 0 <= j < 4) by (simpl in Hj; lia).
  assert (Hhead : forall a, 0 <= a < 2 ^ 14 -> (a < 256 \/ a = 16383) -> be_bytes 2 (Z.lor (Z.shiftl j 14) a) `prefix_of` u8 (dst i) :: enc1 true i ++ data -> False).
  { intros a Ha14 Hcase Hp. rewrite lor_shiftl_add in Hp by lia. change 2%nat with (1 + 1)%nat in Hp. rewrite be_bytes_app in Hp.
    destruct Hp as [r Hr]. apply (f_equal head) in Hr. cbn in Hr. injection Hr as E. change (256 ^ Z.of_nat 1) with 256 in E.
    unfold u8 in E. rewrite Z.mod_small in E by lia. rewrite Z.mod_small in E.
    - change (256 ^ Z.of_nat 1) with 256 in E. pose proof (Z.div_mod (j * 2 ^ 14 + a) 256) as Dm. pose proof (Z.mod_pos_bound (j * 2 ^ 14 + a) 256) as Mb. rewrite <- E in Dm. destruct Hcase as [Hs|Hs]; lia.
    - split; [apply Z.div_pos; lia|]. apply Z.div_lt_upper_bound; lia. }
  assert (Hlor : 0 <= Z.lor addr mask < 32).
  { split; [apply Z.lor_nonneg; lia|]. destruct (Z.eq_dec (Z.lor addr mask) 0) as [->|Hz]; [lia|].
    assert (0 <= Z.lor addr mask) by (apply Z.lor_nonneg; lia). apply (Z.log2_lt_pow2 _ 5); [lia|].
    rewrite Z.log2_lor by lia. pose proof (Z.log2_le_mono addr 31 ltac:(lia)). pose proof (Z.log2_le_mono mask 31 ltac:(lia)).
    change (Z.log2 31) with 4 in *. lia. }
  unfold zmq_filt in Hf. rewrite <- Z.lor_assoc in Hf.
  destruct Hf as [<-|[<-|[<-|[]]]]; apply Hhead in Hpre; auto; lia.
Qed.

End Filters.

(** ** From publisher to subscriber *)

(** What a node publishes for a packet. *)
Definition zmq_head (s : node) (i : csp_id) : list Z := if is_v1 s then [u8 (dst i)] else [].
Definition zmq_msg (s : node) (i : csp_id) (data : list Z) : list Z := zmq_head s i ++ enc s true i ++ data.

Definition version_ok (s : node) : Prop := version (conf s) = 1 \/ version (conf s) = 2.

Lemma v2_version s : is_v2 s = true -> version (conf s) = 2.
Proof. apply Z.eqb_eq. Qed.

Lemma version_cases s : version_ok s -> is_v1 s = negb (is_v2 s).
Proof. unfold is_v1, is_v2. intros [-> | ->]; reflexivity. Qed.

Lemma zmq_header_hdr s i : version_ok s -> zmq_header_size s = hdr_size s + zlen (zmq_head s i).
Proof. unfold zmq_header_size, zmq_head, hdr_size, is_v1, is_v2. intros [-> | ->]; reflexivity. Qed.

Lemma add_dest_run p k s bs : version_ok s -> pkt_at p s = Some k -> packet_ok k -> frame_in (hdr_size s) p bs k ->
  zlen bs <= CSP_BUFFER_SIZE + hdr_size s ->
  exists k' hz, csp_zmqhub_fixup_cspv1_add_dest_addr p s = Ret tt (put_pkt p k' s) /\ packet_ok k' /\
    frame_in hz p (zmq_head s (pkt_id k) ++ bs) k'.
Proof.
  intros Hv Hk Hok Hf Hlen. unfold csp_zmqhub_fixup_cspv1_add_dest_addr. rewrite (bind_ret _ _ _ (is_v1 s) s) by done.
  unfold zmq_head. rewrite (version_cases s Hv). unfold hdr_size in *. destruct (is_v2 s); simpl negb; cbv iota.
  { exists k, CSP_ID2_HEADER_SIZE. split; [|split; [done|exact Hf]]. unfold when. by rewrite (put_pkt_same _ _ _ Hk). }
  unfold CSP_ID1_HEADER_SIZE, CSP_BUFFER_SIZE in *. destruct Hf as [Hb Ho Hl Hm Hr]. destruct Hok as [Hm' Hpl].
  unfold when. rewrite (bind_ret _ _ _ _ _ (mod_pkt_at _ _ _ _ Hk)). set (k1 := set_frame_off _ k). pose proof (pkt_at_put p k1 _ s Hk) as K1.
  rewrite (bind_ret _ _ _ _ _ (get_pkt_at _ _ _ K1)). change (frame_buf k1) with (frame_buf k). rewrite Hb.
  destruct (mem_write_ok (pkt_mem k1) (CSP_PACKET_PADDING_BYTES + frame_off k1) [u8 (dst (pkt_id k1))]) as [m Hw];
    [simpl; rewrite Ho; unfold CSP_PACKET_PADDING_BYTES, CSP_BUFFER_SIZE, ZMQ_DEST_ADDR_SIZE_FIXUP_CSPV1 in *; simpl; lia..|].
  rewrite (bind_ret _ _ _ _ _ (write_mem_at _ _ _ _ _ _ K1 Hw)), put_pkt_put. pose proof (pkt_at_put p (set_pkt_mem m k1) _ s Hk) as K2.
  rewrite (mod_pkt_at _ _ _ _ K2), put_pkt_put. eexists _, 5. split; [reflexivity|]. pose proof (mem_write_length _ _ _ _ Hw) as Hml.
  split; [split; simpl; [by rewrite Hml|done]|]. simpl in Hw. rewrite Ho in Hw.
  split; simpl; try done.
  - rewrite Ho. reflexivity.
  - rewrite Hl. unfold ZMQ_DEST_ADDR_SIZE_FIXUP_CSPV1, u16. rewrite Z.mod_small; lia.
  - by rewrite Hml.
  - change (u8 (dst (pkt_id k)) :: bs) with ([u8 (dst (pkt_id k))] ++ bs).
    replace (Z.of_nat (S (length bs))) with (zlen [u8 (dst (pkt_id k))] + zlen bs) by (simpl; lia). apply mem_read_app.
    + change (CSP_PACKET_PADDING_BYTES - 5) with (CSP_PACKET_PADDING_BYTES + (- (4) - ZMQ_DEST_ADDR_SIZE_FIXUP_CSPV1)). by eapply mem_read_write.
    + rewrite (mem_read_write_after _ _ _ _ _ _ Hw) by (simpl; unfold CSP_PACKET_PADDING_BYTES, ZMQ_DEST_ADDR_SIZE_FIXUP_CSPV1; lia).
      exact Hr.
Qed.

Lemma wp_zmq_tx `{Drivers} T h s i via p from_me k data : Inv T (p :: h) s -> version_ok s -> pkt_at p s = Some k ->
  mem_read (pkt_mem k) CSP_PACKET_PADDING_BYTES (pkt_length k) = Some data ->
  wp (csp_zmqhub_tx i via p from_me) (fun r s' => r = CSP_ERR_NONE /\ Inv T h s' /\
    wire s' = WireBytes i 0 (zmq_msg s (pkt_id k) data) :: wire s) s.
Proof.
  intros HI Hv Hk Hdata. destruct (live_pkt s p) as (k' & Hk' & Hok); [eapply Inv_live_h; [exact HI|left]|].
  rewrite Hk in Hk'. apply (inj Some) in Hk' as <-. pose proof (mem_read_length _ _ _ _ Hdata) as Hdl. destruct Hok as [Hm Hpl].
  destruct (prepend_frame true p k s data Hk (conj Hm Hpl) Hdata) as (k1 & Hrun & Hok1 & Hc1 & Hf). pose proof (pkt_at_put p k1 k s Hk) as K1.
  pose proof (length_enc s true (pkt_id k)) as Hel.
  destruct (add_dest_run p k1 (put_pkt p k1 s) _ Hv K1 Hok1 Hf) as (k2 & hz & Hrun2 & Hok2 & Hf2).
  { change (hdr_size (put_pkt p k1 s)) with (hdr_size s). rewrite length_app. lia. }
  change (zmq_head (put_pkt p k1 s)) with (zmq_head s) in Hf2. rewrite (car_id _ _ _ Hc1) in Hf2. fold (zmq_msg s (pkt_id k) data) in Hf2.
  rewrite put_pkt_put in Hrun2. pose proof (pkt_at_put p k2 k s Hk) as K2. unfold csp_zmqhub_tx.
  apply wp_bind. unfold wp at 1. change (csp_id_prepend_fixup_cspv1 p s) with (prepend_any true p s). rewrite Hrun.
  apply wp_bind. unfold wp at 1. rewrite Hrun2. apply wp_bind. unfold wp at 1. rewrite (get_pkt_at _ _ _ K2).
  apply wp_bind. unfold wp at 1. rewrite (fr_len _ _ _ _ Hf2), (read_whole_frame p k2 _ _ _ K2 Hf2).
  apply wp_bind. unfold wp at 1, drv_send. set (s2 := set_wire _ _).
  assert (HI2 : Inv T (p :: h) s2).
  { assert (H1 : Inv T (p :: h) (put_pkt p k2 s)) by (apply Inv_put_pkt; [done|left|done]). destruct H1. by constructor. }
  apply wp_bind. eapply wp_conseq; [apply (wp_keeps wire); [by apply keeps_buffer_free|by apply (wp_free T h)]|]. cbv beta.
  intros [] s3 [H3 Hw]. apply wp_ret. split; [done|]. split; [done|]. exact Hw.
Qed.

(** One message at the subscriber.  The message must fit the packet. *)
Lemma wp_zmq_turn T h i s msg : Inv T h s -> valid_if T i -> version_ok s ->
  (forall m, msg = Some m -> zlen m <= CSP_BUFFER_SIZE + zmq_header_size s) ->
  wp (zmqhub_turn i msg) (fun _ s' => Inv T h s' /\ forall hd m, msg = Some (hd ++ m) -> length hd = length (zmq_head s csp_id_clear) ->
    hdr_size s <= zlen m -> (2 <= q_size (csp_buffers s))%nat -> (q_size (qfifo s) < q_cap (qfifo s))%nat ->
    queued i (carries (Id.dec s true (take (Z.to_nat (hdr_size s)) m)) (drop (Z.to_nat (hdr_size s)) m)) s') s.
Proof.
  intros HI Hi Hv Hfit. pose proof (hdr_size_bound s) as Hz. unfold zmqhub_turn. destruct msg as [m0|]; [|apply wp_ret; split; [done|discriminate]].
  specialize (Hfit m0 eq_refl). rewrite (zmq_header_hdr s csp_id_clear Hv) in Hfit. apply wp_bind, wp_gets. unfold id.
  rewrite (zmq_header_hdr s csp_id_clear Hv). destruct (Z.ltb_spec (zlen m0) (hdr_size s + zlen (zmq_head s csp_id_clear))) as [Hs|Hs].
  { apply wp_ret. split; [done|]. intros hd m [= ->] Hhd Hm. exfalso. rewrite length_app in Hs. lia. }
  apply wp_bind. eapply wp_conseq; [by apply wp_get_rx|]. cbv beta. intros r s1 ([Eq Ec] & Hnone & Hr).
  assert (Ev : is_v2 s1 = is_v2 s) by (unfold is_v2; by rewrite Ec). assert (Ev1 : is_v1 s1 = is_v1 s) by (unfold is_v1; by rewrite Ec).
  assert (Ehz : hdr_size s1 = hdr_size s) by (unfold hdr_size; by rewrite Ev).
  destruct r as [p|].
  2: { apply wp_ret. split; [done|]. intros hd m _ _ _ H2 _. by destruct (Hnone H2). }
  destruct Hr as [H1 (k & Hk & Hok)]. apply wp_bind. unfold csp_zmqhub_fixup_cspv1_del_dest_addr. apply wp_bind, wp_gets, wp_ret. rewrite Ev1.
  set (bs := if is_v1 s then drop _ m0 else m0).
  assert (Ebs : bs = drop (length (zmq_head s csp_id_clear)) m0) by (unfold bs, zmq_head; by destruct (is_v1 s)).
  assert (Hbl : zlen bs = zlen m0 - zlen (zmq_head s csp_id_clear)) by (rewrite Ebs, length_drop; lia). clearbody bs.
  apply wp_bind. unfold wp at 1. rewrite (setup_rx_at _ _ _ Hk), Ehz. fold (begun (hdr_size s) p k).
  set (s2 := put_pkt p (begun (hdr_size s) p k) s1).
  assert (HI2 : Inv T (p :: h) s2) by (apply Inv_put_pkt; [done|left|exact Hok]).
  assert (Hk2 : pkt_at p s2 = Some (begun (hdr_size s) p k)) by (by eapply pkt_at_put).
  assert (Ez2 : hdr_size s2 = hdr_size s) by exact Ehz.
  apply (wp_take_frame true p k s2 bs); [by rewrite Ez2|done|rewrite Ez2; lia|]. intros k3 Hok3 Hc. change (negb (0 =? 0)) with false. cbv iota.
  assert (HI4 : Inv T (p :: h) (put_pkt p k3 s2)) by (apply Inv_put_pkt; [done|left|done]).
  set (P := carries (Id.dec s true (take (Z.to_nat (hdr_size s)) bs)) (drop (Z.to_nat (hdr_size s)) bs)).
  assert (HP : P k3) by (rewrite Ez2 in Hc; unfold P, Id.dec in *; change (is_v2 s2) with (is_v2 s1) in Hc; by rewrite Ev in Hc).
  eapply wp_conseq; [apply (wp_queue T h _ i p false k3 P); [done|done|by eapply pkt_at_put]|]. cbv beta.
  intros [] s5 [H5 Hq]. split; [done|]. intros hd m [= ->] Hhd Hm H2 Hroom.
  rewrite <- Hhd, drop_app_length in Ebs. subst bs. apply Hq; [simpl; by rewrite Eq|exact HP].
Qed.

Lemma Inv_same_conf T h h' s s' : Inv T h s -> Inv T h' s' -> conf s' = conf s.
Proof. intros H H'. pose proof (inv_conf _ _ _ H) as E. pose proof (inv_conf _ _ _ H') as E'. rewrite <- E in E'. exact (f_equal cf_conf E'). Qed.

Lemma wp_zmq_task T h i msgs s : Inv T h s -> valid_if T i -> version_ok s ->
  Forall (fun msg => forall m, msg = Some m -> zlen m <= CSP_BUFFER_SIZE + zmq_header_size s) msgs ->
  wp (csp_zmqhub_task i msgs) (fun _ s' => Inv T h s') s.
Proof.
  intros HI Hi Hv Hf. revert s HI Hv Hf. induction msgs as [|m msgs IH]; intros s HI Hv Hf; [by apply wp_ret|].
  apply Forall_cons_iff in Hf as [Hm Hf]. simpl. apply wp_bind. eapply wp_conseq; [by apply (wp_zmq_turn T h)|]. cbv beta.
  intros [] s1 [H1 _]. pose proof (Inv_same_conf _ _ _ _ _ HI H1) as Ec. apply IH; [done| |].
  - unfold version_ok. by rewrite Ec.
  - unfold zmq_header_size in *. by rewrite Ec.
Qed.

(** C23. ZMQ: [csp_zmqhub_tx] publishes the packet as one message and frees it;
    a turn of [csp_zmqhub_task] of a node with the same header version, a
    buffer and room in its router queue turns that message into a packet with
    the same header and data.  Both versions are covered, version 1 with the
    destination in front and the header in the other byte order.  Any sequence
    of messages that fit a packet, and of failing receives, keeps the
    subscriber well formed. *)
Theorem zmq_roundtrip `{Drivers} T1 h1 s1 i1 via p from_me k data T2 h2 i2 s2 :
  Inv T1 (p :: h1) s1 -> pkt_at p s1 = Some k -> version_ok s1 -> id_ok s1 (pkt_id k) ->
  mem_read (pkt_mem k) CSP_PACKET_PADDING_BYTES (pkt_length k) = Some data ->
  Inv T2 h2 s2 -> valid_if T2 i2 -> version (conf s2) = version (conf s1) ->
  (exists s1', csp_zmqhub_tx i1 via p from_me s1 = Ret CSP_ERR_NONE s1' /\ Inv T1 h1 s1' /\
     wire s1' = WireBytes i1 0 (zmq_msg s1 (pkt_id k) data) :: wire s1) /\
  (forall msgs, Forall (fun msg => forall m, msg = Some m -> zlen m <= CSP_BUFFER_SIZE + zmq_header_size s2) msgs ->
     exists s2', csp_zmqhub_task i2 msgs s2 = Ret tt s2' /\ Inv T2 h2 s2') /\
  ((2 <= q_size (csp_buffers s2))%nat -> (q_size (qfifo s2) < q_cap (qfifo s2))%nat ->
   exists s2', zmqhub_turn i2 (Some (zmq_msg s1 (pkt_id k) data)) s2 = Ret tt s2' /\ Inv T2 h2 s2' /\
     queued i2 (carries (pkt_id k) data) s2').
Proof.
  intros HI1 Hk Hv Hid Hdata HI2 Hi Ever. assert (Hv2 : version_ok s2) by (unfold version_ok; by rewrite Ever).
  assert (E2 : is_v2 s2 = is_v2 s1) by (unfold is_v2; by rewrite Ever). assert (Ehz : hdr_size s2 = hdr_size s1) by (unfold hdr_size; by rewrite E2).
  assert (Ehd : length (zmq_head s1 (pkt_id k)) = length (zmq_head s2 csp_id_clear)).
  { unfold zmq_head, is_v1. rewrite Ever. by destruct (_ =? 1). }
  destruct (live_pkt s1 p) as (k' & Hk' & Hok); [eapply Inv_live_h; [exact HI1|left]|]. rewrite Hk in Hk'. apply (inj Some) in Hk' as <-.
  pose proof (mem_read_length _ _ _ _ Hdata) as Hdl. pose proof (length_enc s1 true (pkt_id k)) as Hel. destruct Hok as [_ Hlen]. split_and!.
  - pose proof (wp_zmq_tx T1 h1 s1 i1 via p from_me k data HI1 Hv Hk Hdata) as Hw.
    apply wp_run in Hw as (r & s1' & Hr & -> & H1 & H2). by exists s1'.
  - intros msgs Hf. pose proof (wp_zmq_task T2 h2 i2 msgs s2 HI2 Hi Hv2 Hf) as Hw. apply wp_run in Hw as ([] & s2' & Hr & H1). by exists s2'.
  - intros Hb Hq. pose proof (wp_zmq_turn T2 h2 i2 s2 (Some (zmq_msg s1 (pkt_id k) data)) HI2 Hi Hv2) as Hw.
    apply wp_run in Hw as ([] & s2' & Hr & H1 & Hdel).
    + exists s2'. split; [done|]. split; [done|]. specialize (Hdel _ _ eq_refl Ehd). rewrite Ehz, <- Hel, Nat2Z.id, take_app_length, drop_app_length in Hdel.
      rewrite (dec_enc true s1 s2) in Hdel; [|done|done]. apply Hdel; [rewrite length_app; lia|done|done].
    + intros m [= <-]. rewrite (zmq_header_hdr s2 csp_id_clear Hv2), <- Ehd, Ehz. unfold zmq_msg. rewrite !length_app. lia.
Qed.

(** A code bug.  ZMQ hands over messages of any size and
    [csp_zmqhub_task] does not compare the size with the packet: a message of
    more than [CSP_BUFFER_SIZE] bytes of data, for which there is a free buffer,
    makes [memcpy] write past the end of the packet. *)
Theorem zmq_rx_overruns T h i s m : Inv T h s -> version_ok s -> (2 <= q_size (csp_buffers s))%nat ->
  CSP_BUFFER_SIZE + zmq_header_size s < zlen m -> zmqhub_turn i (Some m) s = Undef.
Proof.
  intros HI Hv Hb Hlen. pose proof (zmq_header_hdr s csp_id_clear Hv) as Eh. pose proof (hdr_size_bound s) as Hz. unfold zmqhub_turn.
  rewrite (bind_ret _ _ _ s s) by done. rewrite (proj2 (Z.ltb_ge _ _)) by (unfold CSP_BUFFER_SIZE in *; lia).
  pose proof (wp_get_rx T h s HI) as Hw. apply wp_run in Hw as (r & s1 & Hr & [_ Ec] & Hnone & Hp). rewrite (bind_ret _ _ _ _ _ Hr).
  destruct r as [p|]; [|by destruct (Hnone Hb)]. destruct Hp as [H1 (k & Hk & [Hm Hl])].
  assert (Ehz : hdr_size s1 = hdr_size s) by (unfold hdr_size, is_v2; by rewrite Ec).
  unfold csp_zmqhub_fixup_cspv1_del_dest_addr. rewrite (bind_ret _ _ _ _ s1) by reflexivity.
  assert (Ev1 : is_v1 s1 = is_v1 s) by (unfold is_v1; by rewrite Ec). rewrite Ev1. set (bs := if is_v1 s then _ else m).
  assert (Hbl : zlen bs = zlen m - zlen (zmq_head s csp_id_clear)).
  { unfold bs, zmq_head. destruct (is_v1 s); [rewrite length_drop; unfold ZMQ_DEST_ADDR_SIZE_FIXUP_CSPV1; simpl; unfold CSP_BUFFER_SIZE in *; lia|simpl; lia]. }
  rewrite (bind_ret _ _ _ _ _ (setup_rx_at _ _ _ Hk)). fold (begun (hdr_size s1) p k). set (s2 := put_pkt p _ s1).
  pose proof (pkt_at_put p (begun (hdr_size s1) p k) _ s1 Hk) as K2. fold s2 in K2.
  unfold write_frame, mbind, M_bind. rewrite (get_pkt_at _ _ _ K2). unfold write_mem, mbind, M_bind. simpl frame_buf. rewrite (get_pkt_at _ _ _ K2).
  unfold mem_write. simpl. case_if; [exfalso|done]. unfold CSP_BUFFER_SIZE, CSP_PACKET_PADDING_BYTES in *. lia.
Qed.

(** ** Concrete nodes *)

(** A ZMQ library that behaves as documented. *)
Definition good_zmq : Zmq := {|
  zmq_available := true;
  zmq_connect _ := true;
  zmq_delivers filters msg := existsb (fun f => bool_decide (f `prefix_of` msg)) filters
|}.

#[export] Instance good_zmq_laws : @ZmqLaws good_zmq.
Proof.
  constructor. intros filters msg. simpl. rewrite existsb_exists. split; intros (f & Hf & Hp); exists f; split; try by apply list_elem_of_In.
  - by apply bool_decide_eq_true in Hp.
  - by apply bool_decide_eq_true.
Qed.

Lemma zmq_filter_exact_witness : exists subs s',
  csp_zmqhub_init_filter2 (H := good_zmq) None [104] 520 6 false 6000 7000 bus_node = Ret (CSP_ERR_NONE, 2%nat, subs) s' /\
  zmq_delivers (Zmq := good_zmq) subs (enc2 (mkId 3 0 1 767 10 20)) = true.
Proof.
  destruct (zmq_filter_exact (H := good_zmq) bus_node [csp_if_lo] None [104] 520 6 6000 7000 (set_if_netmask 6 (set_if_addr 520 lo_iface)))
    with (promisc := false) as (subs & s' & Hr & _ & Hd).
  - vm_compute. reflexivity.
  - lia.
  - lia.
  - reflexivity.
  - reflexivity.
  - unfold iflist. assert (E1 : interfaces bus_node = Some csp_if_lo) by (vm_compute; reflexivity). rewrite E1.
    apply (chain_cons _ _ (set_if_netmask 14 lo_iface)); [vm_compute; reflexivity|exact (chain_nil _)].
  - intros j y Hj Hy. apply list_elem_of_singleton in Hj as ->. vm_compute in Hy. injection Hy as <-. discriminate.
  - vm_compute. reflexivity.
  - reflexivity.
  - reflexivity.
  - exists subs, s'. split; [exact Hr|]. destruct (Hd (mkId 3 0 1 767 10 20) []) as (b & Hb & Hiff); [vm_compute; repeat split; discriminate|].
    rewrite app_nil_r in Hiff. apply Hiff. right. right. vm_compute in Hb. injection Hb as <-. reflexivity.
Defined.

Lemma zmq_roundtrip_witness : exists k s1' s2', pkt_at 0 link_node = Some k /\
  csp_zmqhub_tx (H := good_drivers) 1 0 0 true link_node = Ret CSP_ERR_NONE s1' /\
  zmqhub_turn 1 (Some (zmq_msg link_node link_id bus_payload)) bus_node = Ret tt s2' /\
  queued 1 (carries link_id bus_payload) s2'.
Proof.
  destruct link_node_ok as (HI & (k & Hk & [Hid Hl Hm]) & _). pose proof link_node_v2 as Hv.
  destruct (zmq_roundtrip (H := good_drivers) (config_of bus_node) [] link_node 1 0 0 true k bus_payload (config_of bus_node) [] 1 bus_node)
    as ((s1' & Htx & _) & _ & Hrx).
  - exact HI.
  - exact Hk.
  - right. exact (v2_version _ Hv).
  - unfold id_ok. rewrite Hid, Hv. vm_compute. repeat split; discriminate.
  - rewrite Hl. exact Hm.
  - exact bus_node_inv.
  - exact link_if.
  - rewrite (v2_version _ Hv). vm_compute. reflexivity.
  - destruct Hrx as (s2' & Hrun & _ & HQ).
    + apply Nat.leb_le. vm_compute. reflexivity.
    + apply Nat.ltb_lt. vm_compute. reflexivity.
    + exists k, s1', s2'. rewrite Hid in Hrun, HQ. split_and!; assumption.
Defined.

Lemma zmq_rx_overruns_witness : zmqhub_turn 1 (Some (replicate 263 0)) bus_node = Undef.
Proof.
  apply (zmq_rx_overruns (config_of bus_node) [] 1 bus_node (replicate 263 0)).
  - exact bus_node_inv.
  - right. vm_compute. reflexivity.
  - apply Nat.leb_le. vm_compute. reflexivity.
  - vm_compute. reflexivity.
Defined.

(** Address 5 of a version 1 network, and a frame for it that never arrives. *)
Lemma zmq_v1_deaf_witness : zmq_delivers (Zmq := good_zmq) (flat_map (zmq_filt 5 31) [0; 1; 2; 3]) (u8 5 :: enc1 true (mkId 2 0 1 5 10 20)) = false.
Proof.
  pose proof (zmq_v1_deaf (H := good_zmq) 5 31 (mkId 2 0 1 5 10 20) []) as Hd. rewrite app_nil_r in Hd.
  apply Hd; [lia|lia|vm_compute; repeat split; discriminate|discriminate].
Defined.
