(* ===== verification/Wired.v ===== *)
(** * Wired: the stack with its interfaces

    The transmit functions of the KISS, CAN, I2C, UDP and ZMQ interfaces
    ([src/interfaces/]) as the nexthop functions of a node: each meets the
    interface that the send path, the router and the bridge are proved against
    ([OwnLaws]), so that their theorems, and those of the whole node, hold of a
    node with these interfaces. *)

From S2P Require Import Prelude State Monad Id Buffer Crc32 Iflist Rtable Qfifo Kiss Io RdpQueue Rdp Conn RdpProto Api Route.
From S2P Require Import Own OwnIo OwnRdp OwnRoute KissSpec OwnApi OwnConf Node Pbuf Can Service ServiceSpec Links Frames LinksSpec Zmq ZmqSpec.

(** What a nexthop function owes the send path in state [s]. *)
Definition consumes (m : M Z) (p : nat) (T : config) (h : list nat) (s : node) : Prop :=
  wp m (fun r s' => if r =? CSP_ERR_NONE then Inv T h s' else Inv T (p :: h) s') s.

Lemma Inv_wire T h w s : Inv T h s -> Inv T h (set_wire w s).
Proof. intros HI. destruct HI. by constructor. Qed.

Lemma Inv_can T h c s : Inv T h s -> Inv T h (set_can c s).
Proof. intros HI. destruct HI. by constructor. Qed.

(** The ends the transmit functions share: back to the router queue, and the
    packet freed. *)
Lemma consumes_queue T h s i p : Inv T (p :: h) s -> valid_if T i ->
  consumes (csp_qfifo_write (Some p) (Some i) false ;; mret CSP_ERR_NONE) p T h s.
Proof. intros HI Hi. apply wp_bind. eapply wp_conseq; [by apply (wp_qfifo_write T h)|]. intros [] s1 H1. by apply wp_ret. Qed.

Lemma consumes_free T h s p : Inv T (p :: h) s -> consumes (csp_buffer_free (Some p) ;; mret CSP_ERR_NONE) p T h s.
Proof. intros HI. apply wp_bind. eapply wp_conseq; [by apply (wp_free T h)|]. intros [] s1 H1. by apply wp_ret. Qed.

Lemma held_pkt T h s p : Inv T (p :: h) s -> exists k, pkt_at p s = Some k /\ packet_ok k.
Proof. intros HI. apply live_pkt. eapply Inv_live_h; [exact HI|left]. Qed.

Lemma packet_data k : packet_ok k -> exists data, mem_read (pkt_mem k) CSP_PACKET_PADDING_BYTES (pkt_length k) = Some data.
Proof.
  intros [Hm Hl]. destruct (mem_read_ok (pkt_mem k) CSP_PACKET_PADDING_BYTES (pkt_length k)) as [data Hd]; [|lia| |by exists data];
    unfold CSP_PACKET_PADDING_BYTES, CSP_BUFFER_SIZE in *; lia.
Qed.

(** [csp_id_prepend]: afterwards the packet holds its frame. *)
Lemma wp_prepend_frame T h s p fixup : Inv T (p :: h) s ->
  wp (prepend_any fixup p) (fun _ s' => Inv T (p :: h) s' /\ ifs s' = ifs s /\ can s' = can s /\ i2c s' = i2c s /\ conf s' = conf s /\
    exists k bs, pkt_at p s' = Some k /\ packet_ok k /\ frame_in (hdr_size s') p bs k /\ hdr_size s' <= zlen bs <= CSP_BUFFER_SIZE + hdr_size s') s.
Proof.
  intros HI. destruct (held_pkt _ _ _ _ HI) as (k & Hk & Hok). destruct (packet_data k Hok) as [data Hd].
  destruct (prepend_frame fixup p k s data Hk Hok Hd) as (k1 & Hrun & Hok1 & _ & Hf). unfold wp. rewrite Hrun.
  split; [by apply Inv_put_pkt; [..|left|]|]. do 4 (split; [done|]). exists k1, (enc s fixup (pkt_id k) ++ data).
  split; [by eapply pkt_at_put|]. split; [done|]. split; [done|]. change (hdr_size (put_pkt p k1 s)) with (hdr_size s).
  pose proof (length_enc s fixup (pkt_id k)) as He. pose proof (mem_read_length _ _ _ _ Hd). destruct Hok. rewrite length_app. lia.
Qed.

(** ** KISS *)

Lemma wp_kiss_write T h i bs s : Inv T h s -> wp (kiss_write i bs) (fun _ s' => Inv T h s' /\ pool s' = pool s) s.
Proof. intros HI. apply wp_modify. split; [by apply Inv_wire|done]. Qed.

Lemma wp_kiss_tx_bytes T h i data : forall s, Inv T h s -> wp (kiss_tx_bytes i data) (fun _ s' => Inv T h s') s.
Proof.
  induction data as [|b data IH]; intros s HI; simpl; [by apply wp_ret|]. apply wp_bind. unfold kiss_tx_byte.
  repeat (case_match; [|]); (eapply wp_conseq; [by apply (wp_kiss_write T h)|]); intros [] s1 [H1 _]; by apply IH.
Qed.

Lemma kiss_tx_consumes T h s i via p from_me d : Inv T (p :: h) s -> kiss s !! i = Some (Some d) -> consumes (csp_kiss_tx i via p from_me) p T h s.
Proof.
  intros HI Hd. unfold csp_kiss_tx. apply wp_bind. unfold wp at 1, get_kiss. rewrite Hd.
  apply wp_bind. eapply wp_conseq; [apply (wp_crc32_append T (p :: h)); [done|left]|]. intros r s1 H1.
  apply wp_bind. eapply wp_conseq; [exact (wp_prepend_frame T h s1 p false H1)|]. intros [] s2 (H2 & _ & _ & _ & _ & k & bs & Hk & Hok & Hf & _).
  apply wp_bind. eapply wp_conseq; [by apply (wp_kiss_write T (p :: h))|]. intros [] s3 [H3 E3].
  assert (K3 : pkt_at p s3 = Some k) by (unfold pkt_at; rewrite E3; exact Hk).
  apply wp_bind. unfold wp at 1. rewrite (get_pkt_at _ _ _ K3). apply wp_bind. unfold wp at 1. rewrite (fr_len _ _ _ _ Hf), (read_whole_frame p k s3 _ _ K3 Hf).
  apply wp_bind. eapply wp_conseq; [by apply (wp_kiss_tx_bytes T (p :: h))|]. intros [] s4 H4.
  apply wp_bind. eapply wp_conseq; [by apply (wp_kiss_write T (p :: h))|]. intros [] s5 [H5 _]. by apply consumes_free.
Qed.

(** ** UDP and ZMQ: the frame as one message *)

Section Frame.
Context `{Drivers}.

Lemma wp_drv_send T h i id bs s : Inv T h s -> wp (drv_send i id bs) (fun _ s' => Inv T h s' /\ forall q, pkt_at q s' = pkt_at q s) s.
Proof. intros HI. split; [by apply Inv_wire|done]. Qed.

Lemma send_frame_consumes T h s i id p hz k bs : Inv T (p :: h) s -> pkt_at p s = Some k -> frame_in hz p bs k ->
  consumes (k ← get_pkt p; bs ← read_frame p (frame_length k); _ ← drv_send i id bs; csp_buffer_free (Some p) ;; mret CSP_ERR_NONE) p T h s.
Proof.
  intros HI Hk Hf. apply wp_bind. unfold wp at 1. rewrite (get_pkt_at _ _ _ Hk).
  apply wp_bind. unfold wp at 1. rewrite (fr_len _ _ _ _ Hf), (read_whole_frame p k s _ _ Hk Hf).
  apply wp_bind. eapply wp_conseq; [by apply (wp_drv_send T (p :: h))|]. intros r s1 [H1 _]. by apply consumes_free.
Qed.

Lemma udp_tx_consumes T h s i via p from_me d : Inv T (p :: h) s -> udp s !! i = Some (Some d) -> consumes (csp_if_udp_tx i via p from_me) p T h s.
Proof.
  intros HI Hd. unfold csp_if_udp_tx. apply wp_bind, wp_gets. unfold id. rewrite Hd. apply wp_bind, wp_ret.
  destruct (sockfd d =? 0); [by apply consumes_free|]. apply wp_bind.
  eapply wp_conseq; [exact (wp_prepend_frame T h s p false HI)|]. intros [] s1 (H1 & _ & _ & _ & _ & k & bs & Hk & _ & Hf & _). by eapply send_frame_consumes.
Qed.

Lemma zmq_tx_consumes T h s i via p from_me : Inv T (p :: h) s -> consumes (csp_zmqhub_tx i via p from_me) p T h s.
Proof.
  intros HI. unfold csp_zmqhub_tx. apply wp_bind.
  eapply wp_conseq; [exact (wp_prepend_frame T h s p true HI)|]. intros [] s1 (H1 & _ & _ & _ & _ & k & bs & Hk & Hok & Hf & Hl). apply wp_bind.
  destruct (is_v1 s1) eqn:Ev.
  - destruct (add_dest_run p k s1 bs) as (k2 & hz & Hrun & Hok2 & Hf2); [left; by apply Z.eqb_eq|done|done|done|lia|].
    unfold wp at 1. rewrite Hrun. eapply send_frame_consumes; [apply Inv_put_pkt; [done|left|done]|by eapply pkt_at_put|exact Hf2].
  - unfold csp_zmqhub_fixup_cspv1_add_dest_addr. apply wp_bind, wp_gets. rewrite Ev. apply wp_ret. by eapply send_frame_consumes.
Qed.

End Frame.

(** ** I2C *)

(** What the I2C driver owes: it takes the packet when it succeeds. *)
Class I2cLaws `{I2cDriver} : Prop :=
  law_i2c : forall T h s i p, Inv T (p :: h) s -> valid_if T i -> consumes (i2c_tx i p) p T h s.

Lemma i2c_tx_consumes `{I2cLaws} T h s i via p from_me d f : Inv T (p :: h) s -> valid_if T i -> i2c s !! i = Some (Some d) -> i2c_tx_func d = Some f ->
  consumes (csp_i2c_tx i via p from_me) p T h s.
Proof.
  intros HI Hi Hd Hf. unfold csp_i2c_tx. apply wp_bind. eapply wp_get_pkt; [done|left; left|]. intros k Hk Hok.
  apply wp_bind. eapply wp_get_iface; [done|done|]. intros x Hx. destruct (_ =? _); [by apply consumes_queue|].
  apply wp_bind. eapply wp_conseq; [exact (wp_prepend_frame T h s p false HI)|]. intros [] s1 (H1 & _ & _ & E1 & _ & _).
  assert (Hkeep : forall f s0, Inv T (p :: h) s0 -> (forall k, packet_ok k -> packet_ok (f k)) ->
    wp (mod_pkt p f) (fun _ s' => Inv T (p :: h) s' /\ i2c s' = i2c s0) s0).
  { intros g s0 Hs0 Hg. apply (wp_keeps i2c); [keeps_tac|]. by apply wp_mod_pkt; [..|left|]. }
  apply wp_bind. eapply wp_conseq; [apply (Hkeep _ s1 H1); by intros|]. intros [] s2 [H2 E2].
  apply wp_bind. eapply wp_conseq; [apply (Hkeep _ s2 H2); by intros|]. intros [] s3 [H3 E3].
  apply wp_bind, wp_gets. unfold id. rewrite E3, E2, E1, Hd. apply wp_bind, wp_ret. rewrite Hf. apply wp_bind, wp_ret. by apply law_i2c.
Qed.

(** ** CAN *)

Section CanTx.
Context `{Drivers}.

(** One frame: when the driver fails, the packet stays with the caller. *)
Lemma can_frame_consumes T h s i can_id bs next p k : Inv T (p :: h) s -> valid_if T i -> pkt_at p s = Some k ->
  (forall s', Inv T (p :: h) s' -> pkt_at p s' = Some k -> consumes next p T h s') -> consumes (can_tx_frame i can_id bs next) p T h s.
Proof.
  intros HI Hi Hk Hn. unfold can_tx_frame. apply wp_bind. eapply wp_conseq; [by apply (wp_drv_send T (p :: h))|]. intros r s1 [H1 E1].
  destruct (r =? CSP_ERR_NONE); simpl negb; cbv iota; [apply Hn; [done|by rewrite E1]|].
  apply wp_bind. eapply wp_conseq; [by apply (wp_incr_tx_error T (p :: h))|]. intros [] s2 H2. by apply wp_ret.
Qed.

(** The next piece of the data. *)
Lemma piece_bounds L tx (n := if CAN_FRAME_SIZE <=? L - tx then CAN_FRAME_SIZE else L - tx) :
  0 <= tx < L -> 0 < n /\ tx + n <= L.
Proof. unfold n, CAN_FRAME_SIZE. destruct (Z.leb_spec 8 (L - tx)); lia. Qed.

Lemma can1_more_consumes T h i p ident dest k : valid_if T i -> packet_ok k -> forall fuel s tx, Inv T (p :: h) s -> pkt_at p s = Some k ->
  0 <= tx <= pkt_length k -> pkt_length k - tx < Z.of_nat fuel -> consumes (can1_tx_more fuel i p ident dest tx) p T h s.
Proof.
  intros Hi Hok. induction fuel as [|fuel IH]; intros s tx HI Hk Htx Hf; [lia|]. cbn [can1_tx_more]. apply wp_bind. unfold wp at 1. rewrite (get_pkt_at _ _ _ Hk).
  destruct Hok as [Hm Hl]. unfold CSP_BUFFER_SIZE in Hl. destruct (Z.ltb_spec tx (pkt_length k)) as [Hlt|]; [|by apply consumes_free].
  pose proof (piece_bounds (pkt_length k) tx ltac:(lia)) as [Hn Hle]. cbv zeta. set (n := if CAN_FRAME_SIZE <=? _ then _ else _) in *.
  assert (Eu : u16 (tx + n) = tx + n) by (unfold u16; apply Z.mod_small; lia). rewrite Eu.
  apply wp_bind. eapply wp_read_mem; [done|left; left|lia..|]. intros bs _.
  eapply can_frame_consumes; [done|done|done|]. intros s' H' Hk'. apply IH; [done|done|lia|lia].
Qed.

Lemma can2_more_consumes T h i p sc k : valid_if T i -> packet_ok k -> forall fuel s fc tx, Inv T (p :: h) s -> pkt_at p s = Some k ->
  0 <= tx <= pkt_length k -> pkt_length k - tx < Z.of_nat fuel -> consumes (can2_tx_more fuel i p sc fc tx) p T h s.
Proof.
  intros Hi Hok. induction fuel as [|fuel IH]; intros s fc tx HI Hk Htx Hf; [lia|]. cbn [can2_tx_more]. apply wp_bind. unfold wp at 1. rewrite (get_pkt_at _ _ _ Hk).
  destruct Hok as [Hm Hl]. unfold CSP_BUFFER_SIZE in Hl. destruct (Z.ltb_spec tx (pkt_length k)) as [Hlt|]; [|by apply consumes_free].
  apply wp_bind. eapply wp_get_iface; [done|done|]. intros x Hx.
  pose proof (piece_bounds (pkt_length k) tx ltac:(lia)) as [Hn Hle]. cbv zeta. set (n := if CAN_FRAME_SIZE <=? _ then _ else _) in *.
  apply wp_bind. eapply wp_read_mem; [done|left; left|lia..|]. intros bs _.
  eapply can_frame_consumes; [done|done|done|]. intros s' H' Hk'. apply IH; [done|done|lia|lia].
Qed.

Lemma wp_mod_can T h s i f d : Inv T h s -> can s !! i = Some (Some d) ->
  wp (mod_can i f) (fun _ s' => Inv T h s' /\ forall q, pkt_at q s' = pkt_at q s) s.
Proof. intros HI Hd. unfold wp, mod_can. rewrite Hd. split; [by apply Inv_can|done]. Qed.

Lemma can1_tx_consumes T h s i via p from_me d : Inv T (p :: h) s -> valid_if T i -> can s !! i = Some (Some d) -> consumes (csp_can1_tx i via p from_me) p T h s.
Proof.
  intros HI Hi Hd. unfold csp_can1_tx. apply wp_bind. eapply wp_get_pkt; [done|left; left|]. intros k Hk [Hm Hl]. unfold CSP_BUFFER_SIZE in Hl.
  apply wp_bind. eapply wp_get_iface; [done|done|]. intros x Hx. destruct (_ =? _); [by apply consumes_queue|].
  apply wp_bind. unfold wp at 1, get_can. rewrite Hd. cbv zeta. apply wp_bind. eapply wp_conseq; [by eapply wp_mod_can|]. intros [] s1 [H1 E1].
  assert (K1 : pkt_at p s1 = Some k) by (by rewrite E1). destruct (packet_data k (conj Hm Hl)) as [data Hdata].
  destruct (plain_prepend_frame p k s1 data K1 (conj Hm Hl) Hdata) as (k2 & Hrun & Hok2 & Hc & [Hb Ho _ Hm2 _]). pose proof (pkt_at_put p k2 k s1 K1) as K2.
  apply wp_bind. unfold wp at 1. rewrite Hrun. assert (H2 : Inv T (p :: h) (put_pkt p k2 s1)) by (apply Inv_put_pkt; [done|left|done]).
  pose proof (hdr_size_bound s1) as Hh. unfold read_frame. apply wp_bind, wp_bind. unfold wp at 1. rewrite (get_pkt_at _ _ _ K2), Hb, Ho.
  eapply wp_read_mem; [exact H2|left; left|lia|unfold CFP1_CSP_HEADER_SIZE; lia..|]. intros hdr _.
  pose proof (mem_read_length _ _ _ _ Hdata) as Hdl. pose proof (car_len _ _ _ Hc) as Hcl. assert (El : pkt_length k2 = pkt_length k) by lia.
  apply wp_bind. eapply wp_read_mem; [exact H2|left; left|destruct (Z.leb_spec (pkt_length k) CFP1_DATA_SIZE_BEGIN); unfold CFP1_DATA_SIZE_BEGIN in *; lia..|]. intros bs _.
  eapply can_frame_consumes; [done|done|exact K2|]. intros s3 H3 K3. eapply can1_more_consumes; [done|exact Hok2|done|exact K3|..];
    rewrite El; destruct (Z.leb_spec (pkt_length k) CFP1_DATA_SIZE_BEGIN); unfold CFP1_DATA_SIZE_BEGIN in *; lia.
Qed.

Lemma can2_tx_consumes T h s i via p from_me d : Inv T (p :: h) s -> valid_if T i -> can s !! i = Some (Some d) -> consumes (csp_can2_tx i via p from_me) p T h s.
Proof.
  intros HI Hi Hd. unfold csp_can2_tx. apply wp_bind. eapply wp_get_pkt; [done|left; left|]. intros k Hk [Hm Hl]. pose proof Hl as Hl'. unfold CSP_BUFFER_SIZE in Hl'.
  apply wp_bind. eapply wp_get_iface; [done|done|]. intros x Hx. destruct (_ =? _); [by apply consumes_queue|].
  apply wp_bind. unfold wp at 1, get_can. rewrite Hd. cbv zeta. apply wp_bind. eapply wp_conseq; [by eapply wp_mod_can|]. intros [] s1 [H1 E1].
  assert (K1 : pkt_at p s1 = Some k) by (by rewrite E1).
  apply wp_bind. eapply wp_read_mem; [exact H1|left; left|destruct (Z.leb_spec 4 (pkt_length k)); lia..|]. intros bs _.
  eapply can_frame_consumes; [done|done|exact K1|]. intros s2 H2 K2.
  eapply can2_more_consumes; [done|by split|done|exact K2|..]; destruct (Z.leb_spec 4 (pkt_length k)); lia.
Qed.

End CanTx.

(** ** The interfaces together *)

Section Links.
Context `{Drivers} `{I2cDriver}.

(** The transmit function of tag [k] for interface [i], when the interface has
    the data the function works on; adding the interface makes sure of it
    ([csp_kiss_add_interface], [csp_can_add_interface],
    [csp_i2c_add_interface], [csp_if_udp_init]). *)
Definition link_tx (k i : nat) (s : node) : option (nat -> Z -> nat -> bool -> M Z) :=
  if Nat.eqb k KISS_NEXTHOP then match mjoin (kiss s !! i) with Some _ => Some csp_kiss_tx | None => None end
  else if Nat.eqb k CAN1_NEXTHOP then match mjoin (can s !! i) with Some _ => Some csp_can1_tx | None => None end
  else if Nat.eqb k CAN2_NEXTHOP then match mjoin (can s !! i) with Some _ => Some csp_can2_tx | None => None end
  else if Nat.eqb k I2C_NEXTHOP then match d ← mjoin (i2c s !! i); i2c_tx_func d with Some _ => Some csp_i2c_tx | None => None end
  else if Nat.eqb k UDP_NEXTHOP then match mjoin (udp s !! i) with Some _ => Some csp_if_udp_tx | None => None end
  else if Nat.eqb k ZMQ_NEXTHOP then Some csp_zmqhub_tx
  else None.

Lemma mjoin_lookup {A} (l : list (option A)) i d : mjoin (l !! i) = Some d -> l !! i = Some (Some d).
Proof. by destruct (l !! i) as [[?|]|]; intros [= ->]. Qed.

Lemma link_tx_consumes `{!I2cLaws} T h s k i tx via p from_me : link_tx k i s = Some tx -> Inv T (p :: h) s -> valid_if T i ->
  consumes (tx i via p from_me) p T h s.
Proof.
  intros Htx HI Hi. unfold link_tx in Htx.
  destruct (Nat.eqb k KISS_NEXTHOP).
  { destruct (mjoin _) as [d|] eqn:E; [|done]. injection Htx as <-. by eapply kiss_tx_consumes, mjoin_lookup. }
  destruct (Nat.eqb k CAN1_NEXTHOP).
  { destruct (mjoin _) as [d|] eqn:E; [|done]. injection Htx as <-. by eapply can1_tx_consumes; [..|apply mjoin_lookup]. }
  destruct (Nat.eqb k CAN2_NEXTHOP).
  { destruct (mjoin _) as [d|] eqn:E; [|done]. injection Htx as <-. by eapply can2_tx_consumes; [..|apply mjoin_lookup]. }
  destruct (Nat.eqb k I2C_NEXTHOP).
  { destruct (mjoin (i2c s !! i)) as [d|] eqn:E; [|done]. simpl in Htx. destruct (i2c_tx_func d) eqn:Ef; [|done]. injection Htx as <-.
    by eapply i2c_tx_consumes; [..|apply mjoin_lookup; exact E|exact Ef]. }
  destruct (Nat.eqb k UDP_NEXTHOP).
  { destruct (mjoin _) as [d|] eqn:E; [|done]. injection Htx as <-. by eapply udp_tx_consumes, mjoin_lookup. }
  destruct (Nat.eqb k ZMQ_NEXTHOP); [|done]. injection Htx as <-. by apply zmq_tx_consumes.
Qed.

(** The platform [P] with these interfaces; every other nexthop function is that
    of [P]. *)
Definition with_links (P : Platform) : Platform := {|
  plat_ms := plat_ms;
  plat_rand := plat_rand;
  plat_yield := plat_yield;
  plat_nexthop k i via p from_me s :=
    match link_tx k i s with Some tx => tx i via p from_me s | None => plat_nexthop k i via p from_me s end;
  plat_callback := plat_callback;
  plat_overflow := plat_overflow;
  CSP_USE_RTABLE := CSP_USE_RTABLE
|}.

#[export] Instance with_links_laws `{!I2cLaws} P : @OwnLaws P -> @OwnLaws (with_links P).
Proof.
  intros L. split; [|apply (law_callback (H := P))|apply (law_yield (H := P))].
  intros T h s k i via p from_me HI Hi. unfold wp. simpl. destruct (link_tx k i s) as [tx|] eqn:E.
  - exact (link_tx_consumes T h s k i tx via p from_me E HI Hi).
  - exact (law_nexthop (H := P) T h s k i via p from_me HI Hi).
Qed.

(** C29. The transmit functions keep their contract with the send path.  On any
    packet of any node, whatever the driver answers, the transmit functions of
    the KISS, CAN (both fragmentation protocols), I2C, UDP and ZMQ interfaces
    return; after [CSP_ERR_NONE] they have freed the packet or handed it on,
    after any other result the caller still has it; they stay within the
    packet's buffer and lose no other buffer. *)
Theorem links_consume `{!I2cLaws} T h s k i tx via p from_me : Inv T (p :: h) s -> valid_if T i -> link_tx k i s = Some tx ->
  exists r s', tx i via p from_me s = Ret r s' /\ (if r =? CSP_ERR_NONE then Inv T h s' else Inv T (p :: h) s').
Proof. intros HI Hi Htx. by apply wp_run, (link_tx_consumes T h s k i tx via p from_me). Qed.

(** A complete node: these interfaces, the loopback interface, the service
    handler under callback tag [tag], and a router that takes [turns n] turns
    while a task is in its wait [n]. *)
Definition complete_node (turns : nat -> nat) (HK : Hooks) (tag : nat) (P : Platform) : Platform :=
  with_router turns (with_services (with_lo (with_links P)) HK tag).

(** C3. Safety of a complete node.  In every state which a node with the loopback,
    KISS, CAN, I2C, UDP and ZMQ interfaces and the service handler can reach,
    from power-up through [csp_init] and any sequence of turns of the router
    and the bridge, driver input, application calls, changes of the
    configuration, and router turns inside the calls that wait, whatever the
    drivers answer: every operation that may be called returns, or is one that
    may wait for ever ([may_wait]) and does; after it returns every buffer is in
    one place at most and none was ever freed twice.  The hooks of the service
    handler leave the stack alone ([HookLaws]: peek and poke only reach memory
    outside it) and their process list is not empty ([PsLaws]: with an empty
    one, as in the POSIX port, a request for it has the packet sent after it is
    freed). *)
Theorem complete_node_safe `{!I2cLaws} P HK turns tag h s o : @OwnLaws P -> @HookLaws HK -> @PsLaws HK ->
  reach (H := complete_node turns HK tag P) h s -> allowed o h s ->
  (exists h' s', run_op (H := complete_node turns HK tag P) o h s = Ret h' s' /\ exclusive h' s' /\ pool_unharmed s') \/
  (may_wait o s /\ run_op (H := complete_node turns HK tag P) o h s = Wait).
Proof. intros L HL HP Hr Ha. exact (op_safe (H := complete_node turns HK tag P) h s o (reach_WF _ _ Hr) Ha). Qed.

End Links.
