(* ===== verification/Session.v ===== *)
(** * Session: reliable delivery from end to end

    A node with its interfaces, the services and a router that runs while a task
    waits ([complete_node]), run from [csp_connect] to [csp_close]: the
    three-way handshake of RDP, the transfer, the acknowledgements and the
    closing of both ends happen through the router queue and the loopback
    interface, as the router's turns come. *)

From S2P Require Import Prelude State Monad Id Buffer Crc32 Iflist Rtable Qfifo Kiss Io RdpQueue Rdp Conn RdpProto Api Route.
From S2P Require Import Own OwnIo OwnRdp OwnRoute KissSpec OwnApi OwnConf Node Pbuf Can Service ServiceSpec ServiceClient Links Frames LinksSpec Zmq ZmqSpec Wired.

(** Drivers that succeed every other time, and an I2C driver that frees the
    packets it sends. *)
#[local] Instance fickle_drivers : Drivers := {| drv_tx n := if Nat.even n then CSP_ERR_NONE else CSP_ERR_DRIVER |}.
#[local] Instance sink_i2c : I2cDriver := {| i2c_tx _ p := csp_buffer_free (Some p) ;; mret CSP_ERR_NONE |}.

#[local] Instance sink_i2c_laws : I2cLaws.
Proof. intros T h s i p HI Hi. by apply consumes_free. Qed.

(** The router takes three turns in every wait. *)
Definition whole : Platform := complete_node (fun _ => 3%nat) small_hooks 7 sink_platform.

(** One socket, for connections, listening on port 10. *)
Definition server_node : node := state_of ((run_conf (CfListen 0) ;; run_conf (CfBind 0 10) ;; csp_rdp_set_opt 4 10000 1000 0 0 0)
  (set_socks [mkSocket None 0] started)).

(** A client's message. *)
Definition send_bytes (c : nat) (data : list Z) : M unit :=
  p ← csp_buffer_get;
  match p with
  | Some p => write_mem p 0 data ;; mod_pkt p (set_pkt_length (zlen data)) ;; csp_send (H := whole) 8 (Some c) (Some p)
  | None => mret tt
  end.

(** The next message of a connection, its packet freed. *)
Definition receive_bytes (conn : option nat) : M (option (list Z)) :=
  r ← csp_read (H := whole) conn 100;
  match r with
  | None => mret None
  | Some r =>
      k ← get_pkt r;
      data ← read_mem r 0 (pkt_length k);
      csp_buffer_free (Some r) ;;
      mret (Some data)
  end.

(** Connect, send [msgs], accept, receive as many, close both ends. *)
Definition session (msgs : list (list Z)) : M (list (option (list Z))) :=
  conn ← csp_connect (H := whole) 2 0 10 CSP_O_RDP;
  match conn with
  | None => mret []
  | Some c =>
      foldr (fun data m => send_bytes c data ;; m) (mret tt) msgs ;;
      server ← csp_accept (H := whole) (Some 0%nat) 100;
      got ← foldr (fun _ m => x ← receive_bytes server; xs ← m; mret (x :: xs)) (mret []) msgs;
      _ ← csp_close (H := whole) conn;
      router_turns (H := whole) 4 ;;
      _ ← csp_close (H := whole) server;
      router_turns (H := whole) 4 ;;
      mret got
  end.

(** What is left of a session: the messages received, the free buffers, and the
    connections that are not closed. *)
Definition outcome_of (m : outcome (list (option (list Z)))) : option (list (option (list Z)) * nat * nat) :=
  match m with
  | Ret r s => Some (r, q_size (csp_buffers s), length (filter (fun x => conn_state x <> CONN_CLOSED) (arr_conn s)))
  | _ => None
  end.

(** The longest message: with its RDP header it fills the packet. *)
Definition MESSAGE_MAX : nat := 251.

Lemma message_max_fits : Z.of_nat MESSAGE_MAX + RDP_HEADER_SIZE = CSP_BUFFER_SIZE.
Proof. reflexivity. Qed.

(** Each length is one run of the node on unknown bytes. *)
Ltac run_session := vm_compute; reflexivity.

Lemma session_message data : (1 <= length data <= MESSAGE_MAX)%nat -> outcome_of (session [data] server_node) = Some ([Some data], CSP_BUFFER_COUNT, 0%nat).
Proof.
  unfold MESSAGE_MAX. intros Hl. destruct data as [|b data]; [simpl in Hl; lia|].
  do 251 (destruct data as [|? data]; [run_session|]). simpl in Hl. lia.
Qed.

Lemma session_order bytes : (length bytes <= 5)%nat ->
  outcome_of (session (map (fun b => [b]) bytes) server_node) = Some (map (fun b => Some [b]) bytes, CSP_BUFFER_COUNT, 0%nat).
Proof. intros Hl. do 6 (destruct bytes as [|? bytes]; [run_session|]). simpl in Hl. lia. Qed.

(** Delivery over RDP, run.  On this node, whose router takes its turns while the client
    and the server wait, an RDP connection of the node with itself opens, and
    carries a message of any 1 to 251 bytes, and up to five one-byte messages in
    their order; after both ends are closed every buffer is free again and every
    connection closed.  A message without data, which the sender numbers and
    the receiver takes for an acknowledgement, is lost, and with it the one
    behind it. *)
Theorem rdp_session_delivers :
  (forall data, (1 <= length data <= MESSAGE_MAX)%nat ->
     outcome_of (session [data] server_node) = Some ([Some data], CSP_BUFFER_COUNT, 0%nat)) /\
  (forall bytes, (length bytes <= 5)%nat ->
     outcome_of (session (map (fun b => [b]) bytes) server_node) = Some (map (fun b => Some [b]) bytes, CSP_BUFFER_COUNT, 0%nat)) /\
  (forall b, exists free open, outcome_of (session [[]; [b]] server_node) = Some ([None; None], free, open)).
Proof.
  split; [exact session_message|]. split; [exact session_order|]. intros b. eexists _, _. vm_compute. reflexivity.
Qed.

(** ** Witnesses *)

Lemma whole_reach : reach (H := whole) [] started.
Proof.
  apply (reach_init (conf boot) (pool boot) (arr_conn boot) [] []).
  - reflexivity.
  - reflexivity.
  - intros i x Hx. discriminate.
  - intros k x Hx. discriminate.
  - vm_compute. reflexivity.
Qed.

Lemma complete_node_safe_witness :
  exists h' s', run_op (H := whole) (OpConnect 2 0 10 CSP_O_RDP) [] started = Ret h' s' /\ exclusive h' s'.
Proof.
  destruct (complete_node_safe sink_platform small_hooks (fun _ => 3%nat) 7 [] started (OpConnect 2 0 10 CSP_O_RDP)) as [(h' & s' & Hr & He & _)|[_ Hw]].
  - exact sink_laws.
  - exact small_hook_laws.
  - exact small_ps_laws.
  - exact whole_reach.
  - exact I.
  - exists h', s'. split; [exact Hr|exact He].
  - vm_compute in Hw. discriminate Hw.
Defined.

(** A packet and a serial line. *)
Definition serial_1 : node := state_of (attach_kiss 0 started_1).

Lemma serial_1_kiss : link_tx KISS_NEXTHOP 0 serial_1 = Some csp_kiss_tx.
Proof. reflexivity. Qed.

Lemma serial_1_WF : WF [0%nat] serial_1.
Proof.
  unfold serial_1. apply (wp_state_of (attach_kiss 0) (WF [0%nat]) started_1), WF_attach_kiss; [exact started_1_WF|].
  intros d. assert (E : kiss started_1 = []) by (vm_compute; reflexivity). rewrite E. discriminate.
Qed.

Lemma links_consume_witness : exists T h r s', csp_kiss_tx 0 CSP_NO_VIA_ADDRESS 0 true serial_1 = Ret r s' /\
  (if r =? CSP_ERR_NONE then Inv T h s' else Inv T (0%nat :: h) s').
Proof.
  destruct serial_1_WF as (T & o & HI).
  destruct (links_consume T o serial_1 KISS_NEXTHOP 0 csp_kiss_tx CSP_NO_VIA_ADDRESS 0 true) as (r & s' & Hr & Hs).
  - exact HI.
  - exact (cf_lo _ (inv_conf_ok _ _ _ HI)).
  - exact serial_1_kiss.
  - exists T, o, r, s'. split; [exact Hr|exact Hs].
Defined.
