(* ===== verification/Linux.v ===== *)
(** * Linux: the drivers for Linux

    [src/drivers/usart/usart_linux.c] and [usart_kiss.c] (KISS over a serial
    line), [src/drivers/can/can_socketcan.c] (CAN) and
    [src/drivers/eth/eth_linux.c] (Ethernet).  The system calls are the class
    [Sys]; a driver's receive thread is modelled by what one turn of it does
    with what it has read. *)

From S2P Require Import Prelude State Monad Id Buffer Iflist Qfifo Own Pbuf Reassembly Kiss Can Eth.

(** What the system calls answer.  A result below 0 is a failure. *)
Class Sys := {
  sys_calloc : bool;
  sys_thread : Z (* pthread_create *);
  sys_attr_init : Z (* pthread_attr_init *);
  sys_open : option (list Z) -> Z (* NULL is a device name that fails *);
  sys_tcsetattr : Z -> Z;
  sys_tcflush : Z -> Z;
  sys_socket : Z;
  sys_ifindex : list Z -> Z (* ioctl SIOCGIFINDEX *);
  sys_hwaddr : list Z -> option (list Z) (* ioctl SIOCGIFHWADDR *);
  sys_bind : Z;
  sys_setsockopt : Z;
  sys_cancel : Z (* pthread_cancel *);
  sys_join : Z (* pthread_join *)
}.

(** ** A new interface

    [calloc] of a context: the interface is the last of the node, with the name
    cut to its field, and its interface data are in the table [dev] of its
    kind. *)
Definition iface_zero : csp_iface := mkIface 0 0 None 0 0 0 0 0 0 0 0 0 0 0 0 None.

Definition ctx_new (name : list Z) (addr : Z) : M nat :=
  s ← gets id;
  modify (set_ifs (ifs s ++ [set_if_addr (u16 addr) (set_if_name (Some (take CSP_IFLIST_NAME_MAX name)) iface_zero)])) ;;
  mret (length (ifs s)).

Definition put_dev {A} (i : nat) (d : A) (dev : list (option A)) : list (option A) :=
  take i dev ++ replicate (i - length dev) None ++ [Some d].

(** ** Serial lines *)

Section Usart.
Context `{Sys}.

(** The rates [csp_usart_open] accepts. *)
Definition usart_baudrates : list Z :=
  [4800; 9600; 19200; 38400; 57600; 115200; 230400; 460800; 500000; 576000; 921600; 1000000; 1152000; 1500000;
   2000000; 2500000; 3000000; 3500000; 4000000].

(** [csp_usart_write] with the result of [write]. *)
Definition csp_usart_write (fd res : Z) : Z :=
  if (0 <=? fd) && (0 <=? res) then res else CSP_ERR_TX.

Definition kiss_driver_tx (fd res data_length : Z) : Z :=
  if csp_usart_write fd res =? data_length then CSP_ERR_NONE else CSP_ERR_TX.

(** [csp_usart_open] with a receive callback: the status, the descriptor
    stored, and the descriptors it leaves open. *)
Definition csp_usart_open (device : option (list Z)) (baudrate : Z) : Z * option Z * list Z :=
  if negb (existsb (Z.eqb baudrate) usart_baudrates) then (CSP_ERR_INVAL, None, []) else
  let fd := sys_open device in
  if fd <? 0 then (CSP_ERR_INVAL, None, []) else
  if negb (sys_tcsetattr fd =? 0) then (CSP_ERR_DRIVER, None, []) else
  if negb (sys_tcflush fd =? 0) then (CSP_ERR_DRIVER, None, []) else
  if negb sys_calloc then (CSP_ERR_NOMEM, None, []) else
  if negb (sys_attr_init =? 0) then (CSP_ERR_NOMEM, None, []) else
  if negb (sys_thread =? 0) then (CSP_ERR_NOMEM, None, []) else
  (CSP_ERR_NONE, Some fd, [fd]).

(** [usart_rx_thread] over the chunks that [read] returns, with the callback
    [kiss_driver_rx]; a failing read ([None]) ends the program. *)
Fixpoint usart_rx_thread (iface : nat) (chunks : list (option (list Z))) : M unit :=
  match chunks with
  | [] => mret tt
  | None :: _ => halt
  | Some cbuf :: chunks' => csp_kiss_rx iface cbuf false ;; usart_rx_thread iface chunks'
  end.

(** ["KISS"] *)
Definition CSP_IF_KISS_DEFAULT_NAME : list Z := [75; 73; 83; 83].

(** The status and the interface, which is stored whatever the status. *)
Definition csp_usart_open_and_add_kiss_interface (device : option (list Z)) (baudrate : Z) (ifname : option (list Z)) (addr : Z)
    : M (Z * option nat) :=
  if negb sys_calloc then mret (CSP_ERR_NOMEM, None) else
  i ← ctx_new (default CSP_IF_KISS_DEFAULT_NAME ifname) addr;
  modify (fun s => set_kiss (put_dev i (mkKiss (Some 0%nat) KISS_MODE_NOT_STARTED 0 false None) (kiss s)) s) ;;
  res ← csp_kiss_add_interface (Some i);
  let res := if res =? CSP_ERR_NONE then fst (fst (csp_usart_open device baudrate)) else res in
  mret (res, Some i).

End Usart.

(** ** CAN *)

Definition CAN_MAX_DLEN : Z := 8.
Definition CAN_EFF_FLAG : Z := 0x80000000.
Definition CAN_RTR_FLAG : Z := 0x40000000.
Definition CAN_ERR_FLAG : Z := 0x20000000.
Definition CAN_EFF_MASK : Z := 0x1FFFFFFF.

(** [struct can_frame] *)
Record can_frame := mkCanFrame { can_id : Z (* uint32_t *); can_dlc : Z (* uint8_t *); can_data : list Z (* 8 bytes *) }.
Definition CAN_STRUCT_SIZE : Z := 16.
Definition can_frame_bytes (f : can_frame) : list Z := le_bytes 4 (can_id f) ++ can_dlc f :: [0; 0; 0] ++ can_data f.

(** What [read] gives: a failure, or the frame and how many bytes of it. *)
Definition socketcan_rx_turn `{Platform} (iface : nat) (r : option (Z * can_frame)) : M unit :=
  match r with
  | None => mret tt
  | Some (nbytes, f) =>
      if negb (nbytes =? CAN_STRUCT_SIZE) then mret tt else
      if CAN_MAX_DLEN <? can_dlc f then mret tt else
      if negb (flagged (can_id f) CAN_EFF_FLAG) then mret tt else
      if flagged (can_id f) (Z.lor CAN_ERR_FLAG CAN_RTR_FLAG) then mret tt else
      _ ← csp_can_rx iface (Z.land (can_id f) CAN_EFF_MASK) (can_data f) (can_dlc f) false;
      mret tt
  end.

(** What a call of [write] gives: the bytes written, or the error. *)
Inductive write_result := Wrote (n : Z) | ENOBUFS | EAGAIN | EINTR | EOTHER.

(** The loop of [csp_can_tx_frame]: [writes n] is what the [n]-th call gives,
    [pos] the bytes written so far.  [None] when the loop is not over. *)
Fixpoint can_write_loop (fuel : nat) (writes : nat -> write_result) (n : nat) (pos waiting_ms : Z) : option Z :=
  if CAN_STRUCT_SIZE <=? pos then Some CSP_ERR_NONE else
  match fuel with
  | O => None
  | S fuel' =>
      match writes n with
      | Wrote w => can_write_loop fuel' writes (S n) (pos + w) 0
      | EOTHER => Some CSP_ERR_TX
      | ENOBUFS | EAGAIN | EINTR =>
          let waiting_ms := waiting_ms + 5 in
          if 1000 <=? waiting_ms then Some CSP_ERR_TX else can_write_loop fuel' writes (S n) pos waiting_ms
      end
  end.

(** The frame, and the status. *)
Definition tx_can_frame (id : Z) (data : list Z) (dlc : Z) : can_frame :=
  mkCanFrame (Z.lor id CAN_EFF_FLAG) dlc (take (Z.to_nat dlc) data ++ replicate (8 - Z.to_nat dlc) 0).

Definition csp_can_tx_frame (fuel : nat) (writes : nat -> write_result) (id : Z) (data : list Z) (dlc : Z) : option Z :=
  if CAN_MAX_DLEN <? dlc then Some CSP_ERR_INVAL else can_write_loop fuel writes 0 0 0.

(** [struct can_filter], and which frames the kernel lets through. *)
Record can_filter := mkFilter { filter_id : Z; filter_mask : Z }.

Class CanRaw := { raw_accepts : can_filter -> Z -> bool }.
(** As documented: the masked identifiers agree. *)
Class CanRawLaws `{CanRaw} : Prop := {
  law_accepts : forall f id, raw_accepts f id = true <-> Z.land id (filter_mask f) = Z.land (filter_id f) (filter_mask f)
}.

Definition socketcan_filter (s : node) (promisc : bool) (addr : Z) : can_filter :=
  if promisc then mkFilter (CFP_MAKE_DST addr) 0
  else if version (conf s) =? 1 then mkFilter (CFP_MAKE_DST addr) (CFP_MAKE_DST (Z.shiftl 1 CFP_HOST_SIZE - 1))
  else mkFilter (u32 (Z.shiftl addr CFP2_DST_OFFSET)) (Z.shiftl CFP2_DST_MASK CFP2_DST_OFFSET).

Section SocketCan.
Context `{Sys}.

(** The status and the filter that was set. *)
Definition csp_can_socketcan_set_promisc (promisc : bool) (iface : nat) (socket : Z) : M (Z * option can_filter) :=
  if socket =? 0 then mret (CSP_ERR_INVAL, None) else
  s ← gets id;
  x ← get_iface iface;
  if sys_setsockopt <? 0 then mret (CSP_ERR_INVAL, None)
  else mret (CSP_ERR_NONE, Some (socketcan_filter s promisc (if_addr x))).

(** ["CAN"] *)
Definition CSP_IF_CAN_DEFAULT_NAME : list Z := [67; 65; 78].

(** The status, the interface and the filter; setting up the device with
    libsocketcan has no effect on the node.  On the early returns the context
    is freed and no interface remains; it is made known to the stack
    only when the socket is ready. *)
Definition csp_can_socketcan_open_and_add_interface (device : list Z) (ifname : option (list Z)) (node_id : Z) (promisc : bool)
    : M (Z * option nat * option can_filter) :=
  if negb sys_calloc then mret (CSP_ERR_NOMEM, None, None) else
  if sys_socket <? 0 then mret (CSP_ERR_INVAL, None, None) else
  if sys_ifindex device <? 0 then mret (CSP_ERR_INVAL, None, None) else
  if sys_bind <? 0 then mret (CSP_ERR_INVAL, None, None) else
  i ← ctx_new (default CSP_IF_CAN_DEFAULT_NAME ifname) node_id;
  modify (fun s => set_can (put_dev i (mkCan 0 (Some 0%nat) None) (can s)) s) ;;
  '(res, filter) ← csp_can_socketcan_set_promisc promisc i sys_socket;
  if negb (res =? CSP_ERR_NONE) then mret (CSP_ERR_INVAL, None, None) else
  res ← csp_can_add_interface (Some i);
  if negb (res =? CSP_ERR_NONE) then mret (res, None, filter) else
  if negb (sys_thread =? 0) then mret (CSP_ERR_NOMEM, None, filter) else
  mret (CSP_ERR_NONE, Some i, filter).

(** The status, and whether the context with the interface in it is freed. *)
Definition csp_can_socketcan_stop : Z * bool :=
  if negb (sys_cancel =? 0) then (CSP_ERR_DRIVER, false) else
  if negb (sys_join =? 0) then (CSP_ERR_DRIVER, false) else
  (CSP_ERR_NONE, true).

Definition csp_can_socketcan_init (device : list Z) (node_id : Z) (promisc : bool) : M (option nat) :=
  '(res, i, _) ← csp_can_socketcan_open_and_add_interface device (Some CSP_IF_CAN_DEFAULT_NAME) node_id promisc;
  mret (if res =? CSP_ERR_NONE then i else None).

End SocketCan.

(** ** Ethernet *)

Definition CSP_ETH_BUF_SIZE : Z := 3000.
Definition ETH_NEXTHOP : nat := 8.

(** The bytes [csp_eth_tx_frame] gives to [sendto], and the status. *)
Definition csp_eth_tx_frame (eth_frame : list Z) (res : Z) : option (list Z * Z) :=
  seg_size ← eth_get16 eth_frame ETH_SEG_SIZE;
  frame ← mem_read eth_frame 0 (ETH_HEADER_SIZE + be16toh seg_size);
  Some (frame, if res <? 0 then CSP_ERR_DRIVER else CSP_ERR_NONE).

(** One turn of [csp_eth_rx_loop] with the static buffer [recvbuf]: [None] is
    a failing [recvfrom], whose -1 becomes the length of an unsigned
    variable. *)
Definition eth_rx_turn `{Platform} (iface : nat) (recvbuf : list Z) (datagram : option (list Z)) : M (list Z) :=
  match datagram with
  | None => _ ← csp_eth_rx iface recvbuf (u32 (-1)) false; mret recvbuf
  | Some bytes =>
      let bs := take (Z.to_nat CSP_ETH_BUF_SIZE) bytes in
      let recvbuf := bs ++ drop (length bs) recvbuf in
      _ ← csp_eth_rx iface recvbuf (zlen bs) false;
      mret recvbuf
  end.

Section EthLinux.
Context `{Sys}.

(** The name is copied with [strcpy], past its field when it is too long. *)
Definition csp_eth_init (device ifname : list Z) (mtu node_id : Z) (promisc : bool) : M (Z * option nat) :=
  if negb sys_calloc then mret (CSP_ERR_NOMEM, None) else
  if Z.of_nat CSP_IFLIST_NAME_MAX <? zlen ifname then undef else
  if mtu <? 24 then mret (CSP_ERR_INVAL, None) else
  if sys_socket =? -1 then mret (CSP_ERR_INVAL, None) else
  if sys_ifindex device <? 0 then mret (CSP_ERR_INVAL, None) else
  match sys_hwaddr device with
  | None => mret (CSP_ERR_INVAL, None)
  | Some mac =>
      if sys_setsockopt =? -1 then mret (CSP_ERR_INVAL, None) else
      i ← ctx_new ifname node_id;
      mod_iface i (set_if_nexthop ETH_NEXTHOP) ;;
      modify (fun s => set_eth (put_dev i (mkEth promisc (u16 mtu) (replicate (Z.to_nat CSP_ETH_BUF_SIZE) 0) None
                                             (take (Z.to_nat CSP_ETH_ALEN) mac)) (eth s)) s) ;;
      csp_iflist_add (Some i) ;;
      mret (CSP_ERR_NONE, Some i)
  end.

End EthLinux.
