(* ===== verification/LinuxSpec.v ===== *)
(** * LinuxSpec: the Linux drivers keep what the interfaces rely on

    The serial driver hands the bytes to KISS as they came, however [read] cuts
    them; the CAN driver's transmit loop ends; its kernel filter lets through
    exactly the node's own address; what the CAN and Ethernet receive threads
    hand to the interfaces is safe, failing calls included; and an Ethernet
    interface that was opened can send. *)

From S2P Require Import Prelude State Monad Id Buffer Iflist Qfifo Own OwnConf Node Pbuf Reassembly Kiss Can CanCfp2 Eth EthSpec EthTrip Linux.

(** ** Serial lines *)

Lemma kiss_rx_seq i a b isr s : csp_kiss_rx i (a ++ b) isr s = (csp_kiss_rx i a isr ;; csp_kiss_rx i b isr) s.
Proof.
  revert s. induction a as [|x a IH]; intros s; [done|]. simpl. unfold mbind, M_bind. destruct (kiss_rx_byte i isr x s) as [[] s'| | |]; [|done..].
  rewrite IH. done.
Qed.

(** How [read] cuts the bytes of a serial line does not matter:
    [usart_rx_thread] on any chunks does what one call of [csp_kiss_rx] on all
    the bytes does. *)
Theorem usart_chunks i chunks s : usart_rx_thread i (map Some chunks) s = csp_kiss_rx i (concat chunks) false s.
Proof.
  revert s. induction chunks as [|c chunks IH]; intros s; [done|]. simpl. rewrite kiss_rx_seq. unfold mbind, M_bind.
  destruct (csp_kiss_rx i c false s) as [[] s'| | |]; [|done..]. apply IH.
Qed.

(** [csp_usart_open] leaves no descriptor behind when it fails, and exactly
    the one it returns when it succeeds. *)
Lemma usart_open_closes `{Sys} device baudrate :
  let '(status, fd, open) := csp_usart_open device baudrate in
  (status = CSP_ERR_NONE <-> fd <> None) /\ open = match fd with Some d => [d] | None => [] end.
Proof.
  unfold csp_usart_open. repeat case_match; simplify_eq; (split; [split; [|done]; intros E; try discriminate E; done|done]).
Qed.

(** ** CAN *)

(** How far the loop is from its end. *)
Definition tx_left (pos waiting_ms : Z) : Z := (CAN_STRUCT_SIZE - pos) * 200 + (1000 - waiting_ms) / 5.

Lemma can_write_ends writes fuel n pos waiting_ms : (forall m w, writes m = Wrote w -> 0 < w) -> 0 <= waiting_ms < 1000 -> waiting_ms mod 5 = 0 ->
  pos < CAN_STRUCT_SIZE -> tx_left pos waiting_ms < Z.of_nat fuel ->
  exists r, can_write_loop fuel writes n pos waiting_ms = Some r /\ (r = CSP_ERR_NONE \/ r = CSP_ERR_TX).
Proof.
  intros Hw. unfold tx_left, CAN_STRUCT_SIZE. revert n pos waiting_ms. induction fuel as [|fuel IH]; intros n pos wt Hwt Hm Hpos Hf.
  - pose proof (Z.div_pos (1000 - wt) 5). lia.
  - simpl. unfold CAN_STRUCT_SIZE. rewrite (proj2 (Z.leb_gt _ _)) by lia.
    assert (Hd : 5 * ((1000 - wt) / 5) = 1000 - wt).
    { pose proof (Z.div_mod (1000 - wt) 5 ltac:(lia)) as E. rewrite (Z.mod_divide _ 5) in Hm by lia. destruct Hm as [q ->].
      replace (1000 - q * 5) with ((200 - q) * 5) by lia. rewrite Z.div_mul by lia. lia. }
    assert (Herr : exists r, (if 1000 <=? wt + 5 then Some CSP_ERR_TX else can_write_loop fuel writes (S n) pos (wt + 5)) = Some r /\
      (r = CSP_ERR_NONE \/ r = CSP_ERR_TX)).
    { destruct (Z.leb_spec 1000 (wt + 5)); [exists CSP_ERR_TX; auto|]. apply IH; [lia| |done|].
      - rewrite <- Z.add_mod_idemp_l, Hm by lia. done.
      - replace (1000 - (wt + 5)) with (1000 - wt + (-1) * 5) by lia. rewrite Z.div_add by lia. lia. }
    destruct (writes n) as [w| | | |] eqn:E; [|exact Herr..|exists CSP_ERR_TX; auto].
    specialize (Hw n w E). destruct (Z.le_gt_cases 16 (pos + w)) as [Hend|Hmore].
    + exists CSP_ERR_NONE. split; [|by left]. destruct fuel; simpl; unfold CAN_STRUCT_SIZE; by rewrite (proj2 (Z.leb_le _ _)).
    + apply IH; [lia|done|done|]. change ((1000 - 0) / 5) with 200. nia.
Qed.

(** The bytes of the first [n] calls. *)
Fixpoint written (writes : nat -> write_result) (n : nat) : Z :=
  match n with
  | O => 0
  | S n' => written writes n' + match writes n' with Wrote w => w | _ => 0 end
  end.

Definition fails (r : write_result) : Prop := match r with ENOBUFS | EAGAIN | EINTR => True | _ => False end.

(** Why the loop ended: [c] failures in a row so far. *)
Definition tx_reason (writes : nat -> write_result) (r : Z) : Prop :=
  (r = CSP_ERR_NONE /\ exists n, CAN_STRUCT_SIZE <= written writes n) \/
  (r = CSP_ERR_TX /\ exists n, writes n = EOTHER \/ forall j, (j < 200)%nat -> fails (writes (n + j)%nat)).

Lemma can_write_reason writes fuel n pos c r : (c <= n)%nat -> pos = written writes n -> (c < 200)%nat ->
  (forall j, (j < c)%nat -> fails (writes (n - c + j)%nat)) ->
  can_write_loop fuel writes n pos (5 * Z.of_nat c) = Some r -> tx_reason writes r.
Proof.
  revert n pos c. induction fuel as [|fuel IH]; intros n pos c Hcn Hpos Hc Hf; simpl; destruct (Z.leb_spec CAN_STRUCT_SIZE pos) as [Hp|Hp];
    try (intros [= <-]; left; split; [done|exists n; lia]); [discriminate|].
  assert (Hfail : fails (writes n) -> (if 1000 <=? 5 * Z.of_nat c + 5 then Some CSP_ERR_TX else can_write_loop fuel writes (S n) pos (5 * Z.of_nat c + 5)) = Some r ->
    tx_reason writes r).
  { intros Hn. assert (Hf' : forall j, (j < S c)%nat -> fails (writes (S n - S c + j)%nat)).
    { intros j Hj. destruct (decide (j = c)) as [->|]; [replace (S n - S c + c)%nat with n by lia; done|].
      replace (S n - S c + j)%nat with (n - c + j)%nat by lia. apply Hf. lia. }
    destruct (Z.leb_spec 1000 (5 * Z.of_nat c + 5)) as [Hend|Hgo].
    - intros [= <-]. right. split; [done|]. exists (S n - S c)%nat. right. intros j Hj. apply Hf'. lia.
    - replace (5 * Z.of_nat c + 5) with (5 * Z.of_nat (S c)) by lia. apply IH; [lia| |lia|done].
      simpl. destruct (writes n); [destruct Hn|lia..|destruct Hn]. }
  destruct (writes n) as [w| | | |] eqn:E; [|by apply Hfail..|].
  - intros Hr. apply (IH (S n) (pos + w) 0%nat); [lia|simpl; rewrite E; lia|lia|intros j Hj; lia|exact Hr].
  - intros [= <-]. right. split; [done|]. exists n. by left.
Qed.

(** The transmit loop of the CAN driver ends.  As long as [write] makes
    progress when it succeeds, [csp_can_tx_frame] returns within 3401 calls,
    whatever errors come in between: with success when all 16 bytes of the
    frame were written, and with an error only on an error other than full
    buffers or an interruption, or after 200 such failures in a row (1000 ms).
    A data length of more than 8 is refused. *)
Theorem can_tx_terminates writes id data dlc : (forall m w, writes m = Wrote w -> 0 < w) ->
  exists r, csp_can_tx_frame 3401 writes id data dlc = Some r /\
    (if CAN_MAX_DLEN <? dlc then r = CSP_ERR_INVAL else tx_reason writes r).
Proof.
  intros Hw. unfold csp_can_tx_frame. destruct (CAN_MAX_DLEN <? dlc); [by exists CSP_ERR_INVAL|].
  destruct (can_write_ends writes 3401 0 0 0 Hw) as (r & Hr & _); [lia|done|done|vm_compute; reflexivity|].
  exists r. split; [exact Hr|]. apply (can_write_reason writes 3401 0 0 0 r); [lia|done|lia|intros j Hj; lia|exact Hr].
Qed.

(** *** The kernel filter *)

Section Filter.
Context `{CanRawLaws}.

Lemma land_field x m off : 0 <= off -> 0 <= m -> Z.land x (Z.shiftl (Z.ones m) off) = Z.shiftl ((x / 2 ^ off) mod 2 ^ m) off.
Proof.
  intros Ho Hm. rewrite <- Z.land_ones, <- Z.shiftr_div_pow2 by lia. apply Z.bits_inj'. intros n Hn.
  rewrite Z.land_spec, !Z.shiftl_spec by lia. destruct (Z.ltb_spec n off).
  - rewrite !(Z.testbit_neg_r _ (n - off)) by lia. by rewrite andb_false_r.
  - rewrite Z.land_spec, Z.shiftr_spec by lia. replace (n - off + off) with n by lia. done.
Qed.

Lemma shiftl_inj a b off : 0 <= off -> Z.shiftl a off = Z.shiftl b off -> a = b.
Proof. intros Ho. rewrite !Z.shiftl_mul_pow2 by lia. intros E. pose proof (Z.pow_pos_nonneg 2 off). nia. Qed.

(** The filter that [csp_can_socketcan_set_promisc] sets without [promisc]
    lets through, of the frames of version 2 nodes (any frame [id] of a packet
    that [csp_can2_tx] sends, with the flags of the kernel above bit 28),
    exactly those whose destination is the interface's address: a broadcast
    does not pass, although [csp_can2_rx] would deliver it.  With [promisc]
    every frame passes. *)
Theorem socketcan_filter_exact s addr k sender_addr sc low flags :
  version (conf s) = 2 -> 0 <= addr < 2 ^ 14 -> id2_ok (pkt_id k) -> 0 <= low < 2 ^ 5 -> 0 <= flags < 8 ->
  let id := flags * 2 ^ 29 + can2_id k sender_addr sc + low in
  (raw_accepts (socketcan_filter s false addr) id = true <-> dst (pkt_id k) = addr) /\
  raw_accepts (socketcan_filter s true addr) id = true.
Proof.
  intros Hv Ha Hid Hlow Hfl id. unfold socketcan_filter. rewrite Hv. change (2 =? 1) with false. cbv iota. rewrite !law_accepts. cbn [filter_id filter_mask].
  split; [|by rewrite !Z.land_0_r]. change CFP2_DST_MASK with (Z.ones 14). unfold CFP2_DST_OFFSET. rewrite !land_field by lia.
  assert (E1 : (id / 2 ^ 13) mod 2 ^ 14 = dst (pkt_id k)).
  { unfold id. rewrite (can2_id_sum _ _ _ Hid). destruct Hid as (Hp & Hd & _). pose proof (Z.mod_pos_bound sender_addr 64). pose proof (Z.mod_pos_bound sc 4).
    rewrite <- (Z.div_unique _ (2 ^ 13) (flags * 2 ^ 16 + pri (pkt_id k) * 2 ^ 14 + dst (pkt_id k)) (sender_addr mod 64 * 2 ^ 7 + sc mod 4 * 2 ^ 5 + low)); [|lia..].
    symmetry. apply Z.mod_unique with (q := flags * 4 + pri (pkt_id k)); lia. }
  assert (E2 : (u32 (Z.shiftl addr 13) / 2 ^ 13) mod 2 ^ 14 = addr).
  { rewrite Z.shiftl_mul_pow2 by lia. unfold u32. rewrite (Z.mod_small (addr * _)) by lia. rewrite Z.div_mul by lia. apply Z.mod_small. lia. }
  rewrite E1, E2. split; [apply shiftl_inj; lia|by intros ->].
Qed.

End Filter.

(** *** Receiving *)

(** What the CAN receive thread hands to the interface is safe: on a failed
    read, an incomplete read or any frame of 8 bytes of data with any
    identifier, flags and length field, one turn returns, keeps the ownership
    invariant and the list of packets being received, and calls [csp_can_rx]
    only with a 29-bit identifier and at most 8 bytes. *)
Theorem socketcan_rx_safe `{Platform} T i h l s r : version (cf_conf T) = 2 -> valid_if T i ->
  receiver (PbCan i) pbuf2_ok CFP2_ID_CONN_MASK T h l s -> can_take l s ->
  (forall n f, r = Some (n, f) -> zlen (can_data f) = CAN_MAX_DLEN /\ 0 <= can_dlc f < 256) ->
  exists s' l', socketcan_rx_turn i r s = Ret tt s' /\ receiver (PbCan i) pbuf2_ok CFP2_ID_CONN_MASK T h l' s'.
Proof.
  intros Hver Hi HR Ht Hfr. assert (Hidle : exists s' l', Ret tt s = Ret tt s' /\ receiver (PbCan i) pbuf2_ok CFP2_ID_CONN_MASK T h l' s') by (by exists s, l).
  unfold socketcan_rx_turn. destruct r as [[n f]|]; [|exact Hidle]. destruct (Hfr n f eq_refl) as [Hdata Hdlc].
  destruct (negb (n =? _)); [exact Hidle|]. destruct (Z.ltb_spec CAN_MAX_DLEN (can_dlc f)) as [Hd|Hd]; [exact Hidle|].
  destruct (negb (flagged _ CAN_EFF_FLAG)); [exact Hidle|]. destruct (flagged _ _); [exact Hidle|].
  assert (Ev : version (conf s) = 2) by (pose proof (inv_conf _ _ _ (rcv_inv _ _ _ _ _ _ _ HR)) as <-; exact Hver).
  destruct (proj1 (wp_run _ _ _) (wp_can2_rx T i h Hver Hi l (Z.land (can_id f) CAN_EFF_MASK) (can_data f) (can_dlc f) false s HR Ht ltac:(lia)))
    as (r & s' & E & l' & HR' & _). exists s', l'. split; [|exact HR']. erewrite bind_ret; [reflexivity|].
  unfold csp_can_rx. rewrite (bind_ret _ _ _ s s) by done. rewrite Ev. exact E.
Qed.

(** ** Ethernet *)

(** Beyond the largest frame the received length makes no difference. *)
Lemma eth_rx_len `{Platform} i frame R isr s : ETH_HEADER_SIZE + CSP_ETH_FRAME_SIZE_MAX <= zlen frame ->
  csp_eth_rx i frame R isr s = csp_eth_rx i frame (Z.min R (zlen frame)) isr s.
Proof.
  intros Hf. unfold csp_eth_rx. unfold ETH_HEADER_SIZE, CSP_ETH_FRAME_SIZE_MAX in *. unfold mbind, M_bind.
  destruct (of_option (eth_get16 frame ETH_TYPE) s) as [ty s1| | |]; [|done..]. destruct (negb _); [done|].
  assert (E1 : (R <? 22) = (Z.min R (zlen frame) <? 22)) by lia. rewrite <- E1. destruct (R <? 22); [done|].
  destruct (of_option (csp_if_eth_unpack_header frame) s1) as [[[id seg] len] s2| | |]; [|done..].
  destruct ((seg =? 0) || (1500 <? seg)) eqn:Es; [done|]. destruct (len <? seg); [done|].
  assert (E2 : (R <? 22 + seg) = (Z.min R (zlen frame) <? 22 + seg)) by lia. by rewrite <- E2.
Qed.

(** Ethernet reception on Linux is safe: one turn of [csp_eth_rx_loop] with
    its static buffer of 3000 bytes, on any datagram and on a failing
    [recvfrom], whose -1 is taken as a length of [2 ^ 32 - 1], returns, keeps
    the ownership invariant, the list of packets being received and the ARP
    table. *)
Theorem linux_eth_rx_safe `{Platform} T i h l s recvbuf datagram :
  valid_if T i -> receiver (PbEth i) (pbufE_ok (conf_hdr T)) ETH_MASK T h l s -> sparse (expired_at (now_of s) s) l -> arp_ok s ->
  zlen recvbuf = CSP_ETH_BUF_SIZE ->
  exists recvbuf' s' l', eth_rx_turn i recvbuf datagram s = Ret recvbuf' s' /\ zlen recvbuf' = CSP_ETH_BUF_SIZE /\
    receiver (PbEth i) (pbufE_ok (conf_hdr T)) ETH_MASK T h l' s' /\ arp_ok s'.
Proof.
  intros Hi HR Hsp Ha Hb. unfold CSP_ETH_BUF_SIZE in *.
  assert (Hrun : forall buf R, zlen buf = 3000 -> exists r s' l', csp_eth_rx i buf R false s = Ret r s' /\
    receiver (PbEth i) (pbufE_ok (conf_hdr T)) ETH_MASK T h l' s' /\ arp_ok s').
  { intros buf R Hbuf. rewrite eth_rx_len by (unfold ETH_HEADER_SIZE, CSP_ETH_FRAME_SIZE_MAX; lia).
    destruct (proj1 (wp_run _ _ _) (wp_eth_rx T i h Hi l buf (Z.min R (zlen buf)) false s HR Hsp Ha ltac:(unfold ETH_HEADER_SIZE; lia) ltac:(lia)))
      as (r & s' & E & l' & HR' & Ha' & _). by exists r, s', l'. }
  unfold eth_rx_turn, CSP_ETH_BUF_SIZE. destruct datagram as [bytes|].
  - set (bs := take _ bytes). set (buf := bs ++ drop (length bs) recvbuf).
    assert (Hbuf : zlen buf = 3000). { unfold buf, bs. rewrite length_app, length_drop, length_take. lia. }
    destruct (Hrun buf (zlen bs) Hbuf) as (r & s' & l' & E & HR' & Ha'). exists buf, s', l'. by rewrite (bind_ret _ _ _ _ _ E).
  - destruct (Hrun recvbuf (u32 (-1)) Hb) as (r & s' & l' & E & HR' & Ha'). exists recvbuf, s', l'. by rewrite (bind_ret _ _ _ _ _ E).
Qed.

(** *** Opening *)

Lemma keeps_iflist_add {B} (f : node -> B) o : (forall v s, f (set_ifs v s) = f s) -> (forall v s, f (set_interfaces v s) = f s) ->
  keeps f (csp_iflist_add o).
Proof. intros H1 H2. unfold csp_iflist_add. destruct o; keeps_tac.
  all: first [by apply keeps_mod_iface|by apply keeps_modify|apply keeps_if_last|by intros ? ?]. Qed.

Lemma put_dev_at {A} i (d : A) dev : (length dev <= i)%nat -> put_dev i d dev !! i = Some (Some d).
Proof.
  intros Hl. unfold put_dev. rewrite take_ge by lia. rewrite lookup_app_r by lia. rewrite lookup_app_r by (rewrite length_replicate; lia).
  rewrite length_replicate. by replace (i - length dev - (i - length dev))%nat with O by lia.
Qed.

Lemma put_dev_other {A} i (d : A) dev j : (length dev <= i)%nat -> j <> i -> mjoin (put_dev i d dev !! j) = mjoin (dev !! j).
Proof.
  intros Hl Hj. unfold put_dev. rewrite take_ge by lia. destruct (decide (j < length dev)%nat) as [E|E]; [by rewrite lookup_app_l|].
  rewrite lookup_app_r by lia. rewrite (lookup_ge_None_2 dev) by lia. destruct (decide (j < i)%nat) as [E'|E'].
  - rewrite lookup_app_l by (rewrite length_replicate; lia). by rewrite lookup_replicate_2 by lia.
  - rewrite lookup_ge_None_2; [done|]. rewrite length_app, length_replicate. cbn. lia.
Qed.

Lemma put_dev_length {A} i (d : A) dev : (length dev <= i)%nat -> length (put_dev i d dev) = S i.
Proof. intros Hl. unfold put_dev. rewrite !length_app, length_take, length_replicate. cbn. lia. Qed.

(** A name that the search does not find is not taken. *)
Lemma unfound_untaken (a : list csp_iface) name l : find (passes a (fun _ => name_is name)) l = None -> existsb (name_taken a name) l = false.
Proof.
  intros Hf. apply not_true_is_false. intros (j & Hj & Ht)%existsb_exists. pose proof (find_none _ _ Hf j Hj) as Hp.
  unfold passes, name_is, name_taken in *. destruct (a !! j) as [y|]; [|done]. destruct (if_name y) as [n|]; [|done].
  unfold name_eq in *. apply bool_decide_eq_true in Ht. by rewrite bool_decide_true in Hp.
Qed.

(** The interface that [ctx_new] appends. *)
Definition new_iface (name : list Z) (addr : Z) : csp_iface := set_if_addr (u16 addr) (set_if_name (Some (take CSP_IFLIST_NAME_MAX name)) iface_zero).

(** An Ethernet interface that [csp_eth_init] has opened can send: an MTU
    below 24 is refused, and with an MTU of 16 bits the interface's segments
    are not empty, so that [csp_eth_tx] ends ([eth_tx_stalls] is excluded).
    The test comes before the conversion to [uint16_t], however: an MTU of
    65558 is accepted and becomes the size of the header, on which
    [csp_eth_tx] never ends. *)
Theorem eth_init_mtu `{Sys} device ifname mtu node_id promisc s i s' : (length (eth s) <= length (ifs s))%nat ->
  csp_eth_init device ifname mtu node_id promisc s = Ret (CSP_ERR_NONE, Some i) s' ->
  exists d, eth s' !! i = Some (Some d) /\ tx_mtu d = u16 mtu /\ 24 <= mtu /\
    (mtu < 2 ^ 16 -> ETH_HEADER_SIZE + 2 <= tx_mtu d) /\ (mtu = 65558 -> tx_mtu d = ETH_HEADER_SIZE).
Proof.
  intros Hlen. unfold csp_eth_init. destruct (negb sys_calloc); [discriminate|]. destruct (_ <? zlen ifname); [discriminate|].
  destruct (Z.ltb_spec mtu 24) as [Hm|Hm]; [discriminate|]. destruct (sys_socket =? -1); [discriminate|].
  destruct (sys_ifindex device <? 0); [discriminate|]. destruct (sys_hwaddr device) as [mac|]; [|discriminate].
  destruct (sys_setsockopt =? -1); [discriminate|]. intros Hrun.
  apply bind_Ret in Hrun as (j & s1 & H1 & Hrun). unfold ctx_new in H1. injection H1 as <- <-.
  apply bind_Ret in Hrun as ([] & s2 & H2 & Hrun). apply bind_Ret in Hrun as ([] & s3 & H3 & Hrun). apply bind_Ret in Hrun as ([] & s4 & H4 & Hrun).
  injection Hrun as <- <-. assert (K2 : eth s2 = eth s) by exact (keeps_run eth _ _ _ _ (keeps_mod_iface eth _ _ ltac:(done)) H2).
  injection H3 as <-. pose proof (keeps_run eth _ _ _ _ (keeps_iflist_add eth _ ltac:(done) ltac:(done)) H4) as K4. rewrite K4. simpl. rewrite K2.
  eexists. split; [by apply put_dev_at|]. simpl. split; [done|]. split; [lia|]. split.
  - intros H16. unfold u16, ETH_HEADER_SIZE. rewrite Z.mod_small; lia.
  - by intros ->.
Qed.

(** ** Concrete systems *)

(** A system where every call succeeds. *)
Definition good_sys : Sys := {|
  sys_calloc := true; sys_thread := 0; sys_attr_init := 0; sys_open _ := 4; sys_tcsetattr _ := 0; sys_tcflush _ := 0;
  sys_socket := 5; sys_ifindex _ := 2; sys_hwaddr _ := Some [2; 0; 0; 0; 0; 7]; sys_bind := 0; sys_setsockopt := 0;
  sys_cancel := 0; sys_join := 0
|}.

Definition good_raw : CanRaw := {| raw_accepts f id := Z.land id (filter_mask f) =? Z.land (filter_id f) (filter_mask f) |}.

#[local] Instance good_raw_laws : @CanRawLaws good_raw.
Proof. constructor. intros f id. apply Z.eqb_eq. Qed.

(** A full buffer first, then two writes. *)
Lemma can_tx_terminates_witness :
  exists r, csp_can_tx_frame 3401 (fun n => match n with O => ENOBUFS | 1%nat => Wrote 10 | _ => Wrote 6 end) 5 [1; 2] 2 = Some r.
Proof.
  destruct (can_tx_terminates (fun n => match n with O => ENOBUFS | 1%nat => Wrote 10 | _ => Wrote 6 end) 5 [1; 2] 2) as (r & Hr & _).
  - intros [|[|m]] w E; [discriminate E|injection E as <-; lia|injection E as <-; lia].
  - exists r. exact Hr.
Defined.

Lemma socketcan_filter_exact_witness :
  let k := set_pkt_id (mkId 2 0 5 9 10 20) blank_packet in
  raw_accepts (CanRaw := good_raw) (socketcan_filter boot false 9) (4 * 2 ^ 29 + can2_id k 5 0 + 3) = true.
Proof.
  destruct (socketcan_filter_exact (H := good_raw) boot 9 (set_pkt_id (mkId 2 0 5 9 10 20) blank_packet) 5 0 3 4) as [Hiff _].
  - reflexivity.
  - lia.
  - vm_compute. repeat split; discriminate.
  - lia.
  - lia.
  - apply Hiff. reflexivity.
Defined.

Lemma socketcan_rx_safe_witness : exists s' l',
  socketcan_rx_turn (H := lo_platform) 1 (Some (16, mkCanFrame 0x9fffffff 8 [1; 2; 3; 4; 5; 6; 7; 8])) bus_node = Ret tt s' /\
  receiver (PbCan 1) pbuf2_ok CFP2_ID_CONN_MASK (config_of bus_node) [] l' s'.
Proof.
  destruct (socketcan_rx_safe (H := lo_platform) (config_of bus_node) 1 [] [] bus_node (Some (16, mkCanFrame 0x9fffffff 8 [1; 2; 3; 4; 5; 6; 7; 8])))
    as (s' & l' & Hr & HR).
  - reflexivity.
  - exact bus_if_valid.
  - exact bus_receiver.
  - split; [exact I|]. vm_compute. discriminate.
  - intros n f E. injection E as <- <-. split; [reflexivity|cbn [can_dlc]; lia].
  - exists s', l'. split; [exact Hr|exact HR].
Defined.

Lemma linux_eth_rx_safe_witness : exists b s' l',
  eth_rx_turn (H := lo_platform) 1 (replicate 3000 0) None bus_node = Ret b s' /\
  receiver (PbEth 1) (pbufE_ok (conf_hdr (config_of bus_node))) ETH_MASK (config_of bus_node) [] l' s'.
Proof.
  destruct (linux_eth_rx_safe (H := lo_platform) (config_of bus_node) 1 [] [] bus_node (replicate 3000 0) None) as (b & s' & l' & Hr & _ & HR & _).
  - vm_compute. lia.
  - exact (bus_eth_receiver 5).
  - exact I.
  - exact (bus_arp_ok 5).
  - rewrite length_replicate. reflexivity.
  - exists b, s', l'. split; [exact Hr|exact HR].
Defined.

Lemma eth_init_mtu_witness : exists s' d, csp_eth_init (H := good_sys) [101] [69] 100 7 false bus_node = Ret (CSP_ERR_NONE, Some 2%nat) s' /\
  eth s' !! 2%nat = Some (Some d) /\ ETH_HEADER_SIZE + 2 <= tx_mtu d.
Proof.
  assert (Hrun : exists s', csp_eth_init (H := good_sys) [101] [69] 100 7 false bus_node = Ret (CSP_ERR_NONE, Some 2%nat) s').
  { vm_compute. eexists. reflexivity. }
  destruct Hrun as [s' Hrun]. destruct (eth_init_mtu (H := good_sys) [101] [69] 100 7 false bus_node 2 s') as (d & Hd & _ & _ & Hm & _).
  - apply Nat.leb_le. vm_compute. reflexivity.
  - exact Hrun.
  - exists s', d. split; [exact Hrun|]. split; [exact Hd|]. apply Hm. lia.
Defined.
