(* ===== verification/GsUsb.v ===== *)
(** * GsUsb: the driver for USB to CAN adapters

    [src/drivers/can/can_gsusb.c]: the search for the bit timing, the frames on
    the USB pipes, a turn of the receive thread, opening, stopping and listing
    devices.  The USB library is the class [Usb]. *)

From S2P Require Import Prelude State Monad Id Buffer Iflist Qfifo Own Pbuf Reassembly Can Linux.

Definition GS_USB_BREQ_HOST_FORMAT : Z := 0.
Definition GS_USB_BREQ_BITTIMING : Z := 1.
Definition GS_USB_BREQ_MODE : Z := 2.
Definition GS_USB_BREQ_BT_CONST : Z := 4.
Definition GS_USB_BREQ_DEVICE_CONFIG : Z := 5.
Definition GS_CAN_MODE_RESET : Z := 0.
Definition GS_CAN_MODE_START : Z := 1.
Definition GS_USB_VID_CANDLELIGHT : Z := 0x1d50.
Definition GS_USB_PID_CANDLELIGHT : Z := 0x606f.
Definition CANFD_MAX_DLEN : Z := 64.
Definition LIBUSB_SUCCESS : Z := 0.
Definition UINT32_MAX : Z := 0xFFFFFFFF.

(** ** Bit timing *)

(** [gs_device_bt_const_t] *)
Record gs_device_bt_const := mkBtConst {
  feature : Z; fclk_can : Z; tseg1_min : Z; tseg1_max : Z; tseg2_min : Z; tseg2_max : Z; sjw_max : Z; brp_min : Z; brp_max : Z; brp_inc : Z
}.

(** [gs_device_bittiming_t] *)
Record gs_device_bittiming := mkBittiming { prop_seg : Z; phase_seg1 : Z; phase_seg2 : Z; sjw : Z; brp : Z }.

(** What a computation with unsigned division and loops comes to. *)
Inductive search (A : Type) := Done (a : A) | DivByZero | Unfinished.
Arguments Done {A} _.
Arguments DivByZero {A}.
Arguments Unfinished {A}.

#[global] Instance search_ret : MRet search := @Done.
#[global] Instance search_bind : MBind search := fun A B f m => match m with Done a => f a | DivByZero => DivByZero | Unfinished => Unfinished end.

Definition udiv (a b : Z) : search Z := if b =? 0 then DivByZero else Done (a / b).

(** The variables [best_...]. *)
Record best := mkBest { best_error : Z; best_sp_error : Z; best_brp : Z; best_tseg1 : Z; best_tseg2 : Z }.
Definition best_none : best := mkBest UINT32_MAX 1000 0 0 0.

Section Bittiming.
Context (c : gs_device_bt_const) (bitrate : Z).

Definition target_sp : Z := 875.

(** The body of the inner loop. *)
Definition bt_try (brp tq_per_bit tseg1 : Z) (b : best) : search best :=
  let tseg2 := u32 (u32 (tq_per_bit - 1) - tseg1) in
  if (tseg2 <? tseg2_min c) || (tseg2_max c <? tseg2) then mret b else
  let tqs := u32 (u32 (1 + tseg1) + tseg2) in
  actual_bitrate ← udiv (fclk_can c) (u32 (brp * tqs));
  let bitrate_error := if bitrate <? actual_bitrate then u32 (actual_bitrate - bitrate) else u32 (bitrate - actual_bitrate) in
  sp ← udiv (u32 (u32 (1 + tseg1) * 1000)) tqs;
  let sample_point := i32 sp in
  let sp_error := if target_sp <? sample_point then sample_point - target_sp else target_sp - sample_point in
  mret (if (bitrate_error <? best_error b) || ((bitrate_error =? best_error b) && (sp_error <? best_sp_error b))
        then mkBest bitrate_error sp_error brp tseg1 tseg2 else b).

(** The loop over [tseg1]. *)
Fixpoint bt_tseg1_loop (fuel : nat) (brp tq_per_bit tseg1 : Z) (b : best) : search best :=
  if tseg1_max c <? tseg1 then mret b else
  match fuel with
  | O => Unfinished
  | S fuel' => b ← bt_try brp tq_per_bit tseg1 b; bt_tseg1_loop fuel' brp tq_per_bit (u32 (tseg1 + 1)) b
  end.

(** The loop over [brp]; [fuel] bounds the turns of either loop. *)
Fixpoint bt_brp_loop (fuel inner : nat) (brp : Z) (b : best) : search best :=
  if brp_max c <? brp then mret b else
  match fuel with
  | O => Unfinished
  | S fuel' =>
      tq_per_bit ← udiv (fclk_can c) (u32 (brp * bitrate));
      b ← (if (tq_per_bit <? 8) || (25 <? tq_per_bit) then mret b else bt_tseg1_loop inner brp tq_per_bit (tseg1_min c) b);
      bt_brp_loop fuel' inner (u32 (brp + brp_inc c)) b
  end.

(** The status and the timing. *)
Definition gsusb_calc_bittiming (fuel : nat) : search (Z * option gs_device_bittiming) :=
  b ← bt_brp_loop fuel fuel (brp_min c) best_none;
  if best_error b =? UINT32_MAX then mret (CSP_ERR_INVAL, None) else
  let sjw := if best_tseg2 b <? sjw_max c then best_tseg2 b else sjw_max c in
  mret (CSP_ERR_NONE, Some (mkBittiming 0 (best_tseg1 b) (best_tseg2 b) sjw (best_brp b))).

End Bittiming.

(** ** The USB library *)

Class Usb := {
  usb_calloc : bool;
  usb_init : Z (* libusb_init *);
  usb_open : Z -> Z -> bool (* libusb_open_device_with_vid_pid *);
  usb_claim : Z (* libusb_claim_interface *);
  usb_out : Z -> Z -> list Z -> Z (* libusb_control_transfer to the device: request, channel, data *);
  usb_in : Z -> Z -> Z -> Z * list Z (* from it: request, channel, size; the result and the data *);
  usb_thread : Z (* pthread_create *)
}.

(** *** The structures as bytes, in little-endian order *)

Definition gs_u8 (bs : list Z) (off : nat) : Z := nth off bs 0.
Definition gs_u32 (bs : list Z) (off : nat) : Z := le_val (take 4 (drop off bs)).

Definition bt_const_of (bs : list Z) : gs_device_bt_const :=
  mkBtConst (gs_u32 bs 0) (gs_u32 bs 4) (gs_u32 bs 8) (gs_u32 bs 12) (gs_u32 bs 16) (gs_u32 bs 20) (gs_u32 bs 24) (gs_u32 bs 28) (gs_u32 bs 32)
    (gs_u32 bs 36).
Definition bittiming_bytes (bt : gs_device_bittiming) : list Z :=
  le_bytes 4 (prop_seg bt) ++ le_bytes 4 (phase_seg1 bt) ++ le_bytes 4 (phase_seg2 bt) ++ le_bytes 4 (sjw bt) ++ le_bytes 4 (brp bt).
Definition mode_bytes (mode flags : Z) : list Z := le_bytes 4 mode ++ le_bytes 4 flags.

(** [gs_host_frame_t]: 12 bytes of header and 64 of data. *)
Definition GS_FRAME_SIZE : nat := 76.
Definition gs_frame_bytes (echo_id can_id can_dlc channel flags : Z) (data : list Z) : list Z :=
  le_bytes 4 echo_id ++ le_bytes 4 can_id ++ [can_dlc; channel; flags; 0] ++ data.

(** ** Frames *)

(** The status, and the frame that was written; [bulk] is the result of
    [libusb_bulk_transfer]. *)
Definition csp_can_gsusb_tx_frame (channel : Z) (bulk : list Z -> Z) (id : Z) (data : list Z) (dlc : Z) : Z * option (list Z) :=
  if CAN_MAX_DLEN <? dlc then (CSP_ERR_INVAL, None) else
  let frame := gs_frame_bytes 0 (Z.lor id 0x80000000) dlc channel 0 (take (Z.to_nat dlc) data ++ replicate (64 - Z.to_nat dlc) 0) in
  if bulk frame =? LIBUSB_SUCCESS then (CSP_ERR_NONE, Some frame) else (CSP_ERR_TX, Some frame).

(** What reading from the device gives. *)
Inductive bulk_result := BulkTimeout | BulkError | BulkRead (bytes : list Z).

(** A turn of [gsusb_rx_thread] with its variable [frame], which keeps what a
    short transfer does not overwrite. *)
Definition gsusb_rx_turn `{Platform} (iface : nat) (channel : Z) (frame : list Z) (r : bulk_result) : M (list Z) :=
  match r with
  | BulkTimeout | BulkError => mret frame
  | BulkRead bytes =>
      let bytes := take GS_FRAME_SIZE bytes in
      let frame := bytes ++ drop (length bytes) frame in
      if zlen bytes <? 12 then mret frame else
      if negb (gs_u8 frame 9 =? channel) then mret frame else
      if negb (gs_u32 frame 0 =? 0xFFFFFFFF) then mret frame else
      let can_id := gs_u32 frame 4 in
      let is_extended := flagged can_id 0x80000000 in
      let is_rtr := flagged can_id 0x40000000 in
      let is_error := flagged can_id 0x20000000 in
      if is_error || is_rtr then mret frame else
      if negb is_extended then mret frame else
      let dlc := if CAN_MAX_DLEN <? gs_u8 frame 8 then CAN_MAX_DLEN else gs_u8 frame 8 in
      _ ← csp_can_rx iface (Z.land can_id 0x1FFFFFFF) (drop 12 frame) dlc false;
      mret frame
  end.

(** ** Opening and closing *)

(** What the context holds: its memory, the library's context, the device. *)
Record gsusb_held := mkHeld { held_mem : bool; held_usb : bool; held_dev : bool }.
Definition held_none : gsusb_held := mkHeld false false false.

Definition gsusb_free (h : gsusb_held) : gsusb_held :=
  if held_mem h then
    let h := if held_dev h then mkHeld true (held_usb h) false else h in
    let h := if held_usb h then mkHeld true false (held_dev h) else h in
    mkHeld false (held_usb h) (held_dev h)
  else h.

(** [csp_can_gsusb_conf_t]; the driver does not read [fd_mode]. *)
Record csp_can_gsusb_conf := mkGsConf { vendor_id : Z; product_id : Z; gs_channel : Z; gs_bitrate : Z }.
Definition CSP_CAN_GSUSB_CONF_DEFAULT : csp_can_gsusb_conf := mkGsConf 0 0 0 1000000.

(** The outcome of opening: the status, the interface, what is still held and
    the requests that were sent (request, channel, data). *)
Record gsusb_opened := mkOpened { op_status : Z; op_iface : option nat; op_held : gsusb_held; op_sent : list (Z * Z * list Z) }.

Section Open.
Context `{Usb}.

Definition gsusb_control_out (request channel : Z) (data : list Z) : Z :=
  if usb_out request channel data =? zlen data then CSP_ERR_NONE else CSP_ERR_DRIVER.

Definition gsusb_control_in (request channel size : Z) : Z * list Z :=
  let '(ret, data) := usb_in request channel size in
  (if ret =? size then CSP_ERR_NONE else CSP_ERR_DRIVER, data).

(** The device is set up, or the error: from the format of numbers to the
    start of the interface. *)
Definition gsusb_setup (fuel : nat) (conf : csp_can_gsusb_conf) : M (Z * list (Z * Z * list Z)) :=
  let channel := gs_channel conf in
  let host := (GS_USB_BREQ_HOST_FORMAT, 0, le_bytes 4 0x0000BEEF) in
  if negb (gsusb_control_out GS_USB_BREQ_HOST_FORMAT 0 (le_bytes 4 0x0000BEEF) =? CSP_ERR_NONE) then mret (CSP_ERR_DRIVER, [host]) else
  let '(ret, dev_conf) := gsusb_control_in GS_USB_BREQ_DEVICE_CONFIG 0 12 in
  if negb (ret =? CSP_ERR_NONE) then mret (CSP_ERR_DRIVER, [host]) else
  let num_channels := u8 (gs_u8 dev_conf 3 + 1) in
  if num_channels <=? channel then mret (CSP_ERR_INVAL, [host]) else
  let '(ret, consts) := gsusb_control_in GS_USB_BREQ_BT_CONST channel 40 in
  if negb (ret =? CSP_ERR_NONE) then mret (CSP_ERR_DRIVER, [host]) else
  match gsusb_calc_bittiming (bt_const_of consts) (gs_bitrate conf) fuel with
  | DivByZero => undef
  | Unfinished => halt
  | Done (ret, None) => mret (ret, [host])
  | Done (_, Some bt) =>
      let sent := [host; (GS_USB_BREQ_BITTIMING, channel, bittiming_bytes bt)] in
      if negb (gsusb_control_out GS_USB_BREQ_BITTIMING channel (bittiming_bytes bt) =? CSP_ERR_NONE) then mret (CSP_ERR_DRIVER, sent) else
      let sent := sent ++ [(GS_USB_BREQ_MODE, channel, mode_bytes GS_CAN_MODE_START 0)] in
      if negb (gsusb_control_out GS_USB_BREQ_MODE channel (mode_bytes GS_CAN_MODE_START 0) =? CSP_ERR_NONE) then mret (CSP_ERR_DRIVER, sent) else
      mret (CSP_ERR_NONE, sent)
  end.

Definition csp_can_gsusb_open_and_add_interface (fuel : nat) (conf : option csp_can_gsusb_conf) (ifname : option (list Z)) (node_id : Z)
    : M gsusb_opened :=
  let conf := default CSP_CAN_GSUSB_CONF_DEFAULT conf in
  let ifname := default CSP_IF_CAN_DEFAULT_NAME ifname in
  if negb usb_calloc then mret (mkOpened CSP_ERR_NOMEM None held_none []) else
  if negb (usb_init =? LIBUSB_SUCCESS) then mret (mkOpened CSP_ERR_DRIVER None (gsusb_free (mkHeld true false false)) []) else
  let '(vid, pid) := if (vendor_id conf =? 0) || (product_id conf =? 0) then (GS_USB_VID_CANDLELIGHT, GS_USB_PID_CANDLELIGHT)
                     else (vendor_id conf, product_id conf) in
  if negb (usb_open vid pid) then mret (mkOpened CSP_ERR_DRIVER None (gsusb_free (mkHeld true true false)) []) else
  let held := mkHeld true true true in
  if negb (usb_claim =? LIBUSB_SUCCESS) then mret (mkOpened CSP_ERR_DRIVER None (gsusb_free held) []) else
  '(ret, sent) ← gsusb_setup fuel conf;
  if negb (ret =? CSP_ERR_NONE) then mret (mkOpened ret None (gsusb_free held) sent) else
  i ← ctx_new ifname node_id;
  modify (fun s => set_can (put_dev i (mkCan 0 (Some 0%nat) None) (can s)) s) ;;
  ret ← csp_can_add_interface (Some i);
  if negb (ret =? CSP_ERR_NONE) then mret (mkOpened ret None (gsusb_free held) sent) else
  if negb (usb_thread =? 0) then mret (mkOpened CSP_ERR_NOMEM None held sent) else
  mret (mkOpened CSP_ERR_NONE (Some i) held sent).

(** The interface stays in the list although its context is freed. *)
Definition csp_can_gsusb_stop (channel : Z) (h : gsusb_held) : Z * gsusb_held * list (Z * Z * list Z) :=
  (CSP_ERR_NONE, gsusb_free h, [(GS_USB_BREQ_MODE, channel, mode_bytes GS_CAN_MODE_RESET 0)]).

(** [known_devices] *)
Definition known_devices : list (Z * Z) := [(0x1d50, 0x606f); (0x1d50, 0x606d); (0x1209, 0x2323); (0x16d0, 0x0f30)].

(** The list of devices is what the library reports, [None] an error; a device
    without a descriptor is skipped. *)
Fixpoint gsusb_count (list : list (option (Z * Z))) : Z :=
  match list with
  | [] => 0
  | None :: list' => gsusb_count list'
  | Some (vid, pid) :: list' =>
      (if existsb (fun d => (vid =? fst d) && (pid =? snd d)) known_devices then 1 else 0) + gsusb_count list'
  end.

Definition csp_can_gsusb_enumerate (devices : option (list (option (Z * Z)))) : Z :=
  if negb (usb_init =? LIBUSB_SUCCESS) then -1 else
  match devices with
  | None => -1
  | Some list => gsusb_count list
  end.

End Open.
