(* ===== verification/GsUsbSpec.v ===== *)
(** * GsUsbSpec: the USB to CAN driver

    The bit timing the driver chooses is the best one there is; what goes out on
    the USB pipe comes back as the frame it was; reception is safe; and opening
    leaves nothing behind when it fails. *)

From S2P Require Import Prelude State Monad Id Buffer Iflist Qfifo Own OwnConf Node Pbuf Reassembly Can CanCfp1 CanCfp2 Linux LinuxSpec GsUsb.

(** ** Bit timing *)

Section Timing.
Context (c : gs_device_bt_const) (bitrate : Z).

(** The constants are those of a device on which nothing wraps around. *)
Record bt_sane : Prop := {
  sane_clock : 0 <= fclk_can c < 2 ^ 32;
  sane_rate : 0 < bitrate;
  sane_brp : 0 < brp_min c;
  sane_inc : 0 < brp_inc c;
  sane_brp_max : brp_max c + brp_inc c < 2 ^ 32;
  sane_product : brp_max c * bitrate < 2 ^ 32;
  sane_tseg1 : 0 <= tseg1_min c;
  sane_tseg1_max : tseg1_max c < 2 ^ 32 - 1;
  sane_tseg2 : 0 <= tseg2_min c;
  sane_tsegs : tseg1_max c + tseg2_max c < 2 ^ 32
}.

(** The timings the device can be set to: a prescaler of its raster, and the
    two segments around the sample point, which fill the 8 to 25 quanta of a
    bit. *)
Record timing := mkTiming { t_brp : Z; t_seg1 : Z; t_seg2 : Z }.

Definition quanta (p : Z) : Z := fclk_can c / (p * bitrate).

Record admissible (t : timing) : Prop := {
  adm_brp : brp_min c <= t_brp t <= brp_max c;
  adm_raster : (t_brp t - brp_min c) mod brp_inc c = 0;
  adm_quanta : 8 <= quanta (t_brp t) <= 25;
  adm_seg1 : tseg1_min c <= t_seg1 t <= tseg1_max c;
  adm_seg2 : tseg2_min c <= t_seg2 t <= tseg2_max c;
  adm_sum : 1 + t_seg1 t + t_seg2 t = quanta (t_brp t)
}.

(** The bit rate a timing gives, its sample point in tenths of a percent, and
    how far both are from what is wanted. *)
Definition rate (t : timing) : Z := fclk_can c / (t_brp t * (1 + t_seg1 t + t_seg2 t)).
Definition sample (t : timing) : Z := (1 + t_seg1 t) * 1000 / (1 + t_seg1 t + t_seg2 t).
Definition rate_error (t : timing) : Z := Z.abs (rate t - bitrate).
Definition sample_error (t : timing) : Z := Z.abs (sample t - target_sp).

(** [t] is at least as good as [t']: the bit rate decides, then the sample
    point, then the smaller prescaler and first segment. *)
Definition better (t t' : timing) : Prop :=
  rate_error t < rate_error t' \/ rate_error t = rate_error t' /\
    (sample_error t < sample_error t' \/ sample_error t = sample_error t' /\
      (t_brp t < t_brp t' \/ t_brp t = t_brp t' /\ t_seg1 t <= t_seg1 t')).

Definition as_best (t : timing) : best := mkBest (rate_error t) (sample_error t) (t_brp t) (t_seg1 t) (t_seg2 t).

(** [b] is the best of the timings in [V]. *)
Definition best_of (V : timing -> Prop) (b : best) : Prop :=
  (b = best_none /\ forall t, ~ V t) \/ exists t, V t /\ b = as_best t /\ forall t', V t' -> better t t'.

(** The timings the loops have seen when they come to [p] and [t1]. *)
Definition seen (p t1 : Z) (t : timing) : Prop := admissible t /\ (t_brp t < p \/ t_brp t = p /\ t_seg1 t < t1).

Lemma best_of_ext V V' b : (forall t, V t <-> V' t) -> best_of V b -> best_of V' b.
Proof.
  intros E [[-> Hn]|(t & Ht & -> & Hb)]; [left|right].
  - split; [done|]. intros t Ht. by apply (Hn t), E.
  - exists t. split; [by apply E|]. split; [done|]. intros t' Ht'. by apply Hb, E.
Qed.

Lemma better_refl t : better t t.
Proof. unfold better. lia. Qed.

Lemma better_trans t1 t2 t3 : better t1 t2 -> better t2 t3 -> better t1 t3.
Proof. unfold better. lia. Qed.

(** A timing that comes after all of [V] enters if it is strictly better. *)
Lemma best_of_add V b t : best_of V b -> rate_error t < UINT32_MAX ->
  (forall t', V t' -> t_brp t' < t_brp t \/ t_brp t' = t_brp t /\ t_seg1 t' < t_seg1 t) ->
  best_of (fun t' => V t' \/ t' = t)
    (if (rate_error t <? best_error b) || ((rate_error t =? best_error b) && (sample_error t <? best_sp_error b)) then as_best t else b).
Proof.
  intros Hb Hmax Hlate. destruct Hb as [[-> Hn]|(u & Hu & -> & Hbest)].
  - rewrite (proj2 (Z.ltb_lt _ _)) by (simpl; lia). right. exists t. split; [by right|]. split; [done|].
    intros t' [Ht'| ->]; [by destruct (Hn t')|apply better_refl].
  - cbn [best_error best_sp_error as_best]. specialize (Hlate u Hu). right.
    destruct ((rate_error t <? rate_error u) || _) eqn:E; [exists t|exists u]; (split; [auto|]); (split; [done|]).
    + intros t' [Ht'| ->]; [|apply better_refl]. apply (better_trans _ u); [unfold better; lia|by apply Hbest].
    + intros t' [Ht'| ->]; [by apply Hbest|unfold better; lia].
Qed.

Context (Hs : bt_sane).

(** The wrap-around the code allows for does not happen. *)
Lemma quanta_spec p : brp_min c <= p <= brp_max c -> udiv (fclk_can c) (u32 (p * bitrate)) = Done (quanta p).
Proof.
  intros Hp. destruct Hs. rewrite u32_small by nia. unfold udiv. by rewrite (proj2 (Z.eqb_neq _ _)) by nia.
Qed.

Lemma quanta_product p : brp_min c <= p <= brp_max c -> 8 <= quanta p -> 0 < p * quanta p < 2 ^ 32 /\ p * quanta p * bitrate <= fclk_can c.
Proof.
  intros Hp Hq. destruct Hs. pose proof (Z.mul_div_le (fclk_can c) (p * bitrate) ltac:(nia)) as Hle. fold (quanta p) in Hle.
  assert (0 < p * quanta p) by nia. assert (p * quanta p * bitrate <= fclk_can c) by nia. split; [|done]. nia.
Qed.

(** The bit rate is never below the one asked for, and less than an eighth
    above it. *)
Lemma rate_bounds t : admissible t -> bitrate <= rate t /\ 8 * rate t < 9 * bitrate.
Proof.
  intros [Hp _ Hq _ _ Hsum]. unfold rate. rewrite Hsum. destruct (quanta_product (t_brp t) Hp ltac:(lia)) as [[Hpos _] Hle]. destruct Hs.
  split; [apply Z.div_le_lower_bound; nia|].
  assert (Hub : fclk_can c < t_brp t * bitrate * (quanta (t_brp t) + 1)).
  { unfold quanta. pose proof (Z.mul_succ_div_gt (fclk_can c) (t_brp t * bitrate) ltac:(nia)). lia. }
  assert (Hd : t_brp t * quanta (t_brp t) * (fclk_can c / (t_brp t * quanta (t_brp t))) <= fclk_can c) by (apply Z.mul_div_le; lia).
  set (q := quanta (t_brp t)) in *. set (r := fclk_can c / (t_brp t * q)) in *.
  assert (Hqr : q * r < bitrate * (q + 1)) by nia. nia.
Qed.

Lemma rate_error_max t : admissible t -> rate_error t < UINT32_MAX.
Proof.
  intros Ht. destruct (rate_bounds t Ht) as [Hl Hu]. unfold rate_error, UINT32_MAX. destruct Ht as [Hp _ Hq _ _ Hsum]. destruct Hs.
  destruct (quanta_product (t_brp t) Hp ltac:(lia)) as [_ Hle]. nia.
Qed.

(** The second segment, which wraps around when the first is too long. *)
Lemma seg2_spec q t1 : 8 <= q <= 25 -> 0 <= t1 <= tseg1_max c ->
  let t2 := u32 (u32 (q - 1) - t1) in
  if (t2 <? tseg2_min c) || (tseg2_max c <? t2) then forall t2', 1 + t1 + t2' = q -> ~ tseg2_min c <= t2' <= tseg2_max c
  else t2 = q - 1 - t1 /\ tseg2_min c <= t2 <= tseg2_max c.
Proof.
  intros Hq Ht1. destruct Hs. rewrite (u32_small (q - 1)) by lia. unfold u32. cbv zeta.
  destruct (Z.le_gt_cases t1 (q - 1)) as [Hle|Hgt].
  - rewrite Z.mod_small by lia. destruct ((_ <? _) || _) eqn:E; [|lia]. intros t2' Hsum. lia.
  - replace ((q - 1 - t1) mod 2 ^ 32) with (q - 1 - t1 + 2 ^ 32) by (apply Z.mod_unique with (-1); lia).
    rewrite (proj2 (Z.ltb_lt (tseg2_max c) _)) by lia. rewrite orb_true_r. intros t2' Hsum. lia.
Qed.

(** On an admissible timing the body computes both errors. *)
Lemma bt_try_run t b : admissible t ->
  bt_try c bitrate (t_brp t) (quanta (t_brp t)) (t_seg1 t) b =
  Done (if (rate_error t <? best_error b) || ((rate_error t =? best_error b) && (sample_error t <? best_sp_error b)) then as_best t else b).
Proof.
  intros Ht. pose proof (rate_bounds t Ht) as [Hrl Hru]. pose proof (rate_error_max t Ht) as Hmax. unfold UINT32_MAX in Hmax.
  destruct Ht as [Hp _ Hq H1 H2 Hsum]. destruct (quanta_product (t_brp t) Hp ltac:(lia)) as [Hprod Hle]. destruct Hs.
  assert (E2 : u32 (u32 (quanta (t_brp t) - 1) - t_seg1 t) = t_seg2 t).
  { rewrite (u32_small (quanta _ - 1)) by lia. replace (quanta (t_brp t) - 1 - t_seg1 t) with (t_seg2 t) by lia. apply u32_small. lia. }
  unfold bt_try. rewrite E2. replace ((t_seg2 t <? _) || _) with false by lia.
  assert (Et : u32 (u32 (1 + t_seg1 t) + t_seg2 t) = quanta (t_brp t)) by (rewrite (u32_small (1 + _)) by lia; rewrite u32_small; lia).
  rewrite Et, (u32_small (t_brp t * _)) by lia. unfold udiv. rewrite (proj2 (Z.eqb_neq (t_brp t * _) 0)), (proj2 (Z.eqb_neq (quanta _) 0)) by lia.
  assert (Er : fclk_can c / (t_brp t * quanta (t_brp t)) = rate t) by (unfold rate; by rewrite Hsum).
  assert (Ee : (if bitrate <? rate t then u32 (rate t - bitrate) else u32 (bitrate - rate t)) = rate_error t).
  { unfold rate_error in *. destruct (Z.ltb_spec bitrate (rate t)); rewrite u32_small; lia. }
  assert (Es : i32 (u32 (u32 (1 + t_seg1 t) * 1000) / quanta (t_brp t)) = sample t /\ 0 <= sample t < 1000 * 25).
  { rewrite (u32_small (1 + _)), u32_small by lia. unfold sample. rewrite Hsum.
    assert (0 <= (1 + t_seg1 t) * 1000 / quanta (t_brp t) < 1000 * 25); [|split; [unfold i32; rewrite Z.mod_small; lia|done]].
    split; [apply Z.div_pos; lia|apply Z.div_lt_upper_bound; nia]. }
  destruct Es as [Es Hsb]. cbv [mbind search_bind mret search_ret]. rewrite Er, Ee, Es.
  assert (Esp : (if target_sp <? sample t then sample t - target_sp else target_sp - sample t) = sample_error t).
  { unfold sample_error. destruct (Z.ltb_spec target_sp (sample t)); lia. }
  by rewrite Esp.
Qed.

Definition on_raster (p : Z) : Prop := (p - brp_min c) mod brp_inc c = 0.

(** A turn of the inner loop. *)
Lemma bt_try_best p t1 b : brp_min c <= p <= brp_max c -> on_raster p -> 8 <= quanta p <= 25 -> tseg1_min c <= t1 <= tseg1_max c ->
  best_of (seen p t1) b -> exists b', bt_try c bitrate p (quanta p) t1 b = Done b' /\ best_of (seen p (t1 + 1)) b'.
Proof.
  intros Hp Hr Hq H1 Hb. pose proof (seg2_spec (quanta p) t1 Hq ltac:(destruct Hs; lia)) as H2. cbv zeta in H2.
  destruct ((_ <? tseg2_min c) || _) eqn:E.
  - exists b. split; [unfold bt_try; by rewrite E|]. revert Hb. apply best_of_ext. intros t. unfold seen.
    split; [intros [Ha Ho]; split; [done|lia]|]. intros [Ha Ho]. split; [done|]. destruct Ho as [Ho|[Ho1 Ho2]]; [by left|].
    right. split; [done|]. destruct (decide (t_seg1 t = t1)) as [Et|]; [|lia]. destruct Ha as [_ _ _ _ A2 Asum].
    destruct (H2 (t_seg2 t)); [|done]. rewrite <- Et, <- Ho1. exact Asum.
  - destruct H2 as [E2 H2]. set (t := mkTiming p t1 (quanta p - 1 - t1)).
    assert (Ht : admissible t) by (constructor; cbn [t_brp t_seg1 t_seg2 t]; [done|done|done|done|lia|lia]).
    eexists. split; [exact (bt_try_run t b Ht)|]. eapply best_of_ext; [|apply best_of_add; [exact Hb|by apply rate_error_max|]].
    + intros t'. unfold seen. cbn [t_brp t_seg1 t]. split; [intros [[Ha Ho]| ->]; split; [done|lia|done|cbn; lia]|].
      intros [Ha Ho]. destruct (decide (t_brp t' = p /\ t_seg1 t' = t1)) as [[Ep E1]|]; [right|left; split; [done|lia]].
      destruct t' as [p' t1' t2']; cbn [t_brp t_seg1] in *; subst p' t1'. pose proof (adm_sum _ Ha) as A. cbn in A. unfold t. f_equal. lia.
    + intros t' [_ Ho]. cbn. lia.
Qed.

Lemma bt_tseg1_loop_best fuel p t1 b : brp_min c <= p <= brp_max c -> on_raster p -> 8 <= quanta p <= 25 -> tseg1_min c <= t1 ->
  tseg1_max c - t1 < Z.of_nat fuel -> best_of (seen p t1) b ->
  exists b', bt_tseg1_loop c bitrate fuel p (quanta p) t1 b = Done b' /\ best_of (fun t => admissible t /\ t_brp t <= p) b'.
Proof.
  intros Hp Hr Hq. assert (Hend : forall x b, tseg1_max c < x -> best_of (seen p x) b -> best_of (fun t => admissible t /\ t_brp t <= p) b).
  { intros x b0 Hm. apply best_of_ext. intros t. unfold seen. split; intros [Ha Ho]; (split; [done|]); [lia|]. pose proof (adm_seg1 _ Ha). lia. }
  revert t1 b. induction fuel as [|fuel IH]; intros t1 b H1 Hf Hb; simpl; destruct (Z.ltb_spec (tseg1_max c) t1) as [Hm|Hgo].
  1, 3: exists b; split; [done|by apply (Hend t1)].
  - lia.
  - destruct (bt_try_best p t1 b Hp Hr Hq ltac:(lia) Hb) as (b' & E & Hb'). rewrite E. cbn [mbind search_bind].
    rewrite u32_small by (destruct Hs; lia). apply IH; [lia..|done].
Qed.

(** On the raster, below the next prescaler is up to this one. *)
Lemma raster_next p p' : on_raster p -> on_raster p' -> p' < p + brp_inc c <-> p' <= p.
Proof.
  intros Hp Hp'. destruct Hs. unfold on_raster in *. apply Z.mod_divide in Hp as [k Hk], Hp' as [k' Hk']; [|lia..].
  split; [|lia]. intros Hlt. assert (k' < k + 1) by nia. nia.
Qed.

Lemma raster_step p : on_raster p -> on_raster (p + brp_inc c).
Proof.
  unfold on_raster. intros Hp. destruct Hs. replace (p + brp_inc c - brp_min c) with (p - brp_min c + 1 * brp_inc c) by lia.
  by rewrite Z.mod_add by lia.
Qed.

Lemma bt_brp_loop_best fuel inner p b : on_raster p -> brp_min c <= p -> brp_max c - p < Z.of_nat fuel ->
  tseg1_max c - tseg1_min c < Z.of_nat inner -> best_of (fun t => admissible t /\ t_brp t < p) b ->
  exists b', bt_brp_loop c bitrate fuel inner p b = Done b' /\ best_of admissible b'.
Proof.
  intros Hr Hp Hf Hi. revert p b Hr Hp Hf. induction fuel as [|fuel IH]; intros p b Hr Hp Hf Hb; simpl; destruct (Z.ltb_spec (brp_max c) p) as [Hm|Hgo].
  1, 3: exists b; split; [done|]; revert Hb; apply best_of_ext; intros t; split; [by intros [Ha _]|]; intros Ha; (split; [done|]);
    pose proof (adm_brp _ Ha); lia.
  { lia. }
  rewrite quanta_spec by lia. cbn [mbind search_bind].
  assert (Hturn : exists b', (if (quanta p <? 8) || (25 <? quanta p) then mret b else bt_tseg1_loop c bitrate inner p (quanta p) (tseg1_min c) b) = Done b' /\
    best_of (fun t => admissible t /\ t_brp t <= p) b').
  { destruct ((quanta p <? 8) || _) eqn:E.
    - exists b. split; [done|]. revert Hb. apply best_of_ext. intros t. split; intros [Ha Ho]; (split; [done|]); [lia|].
      destruct (decide (t_brp t = p)) as [Et|]; [|lia]. pose proof (adm_quanta _ Ha) as Hq. rewrite Et in Hq. lia.
    - apply bt_tseg1_loop_best; [lia|done|lia..|]. revert Hb. apply best_of_ext. intros t. unfold seen.
      split; intros [Ha Ho]; (split; [done|]); [by left|]. pose proof (adm_seg1 _ Ha). lia. }
  destruct Hturn as (b' & -> & Hb'). cbn [mbind search_bind]. destruct Hs. rewrite u32_small by lia. apply IH; [by apply raster_step|lia..|].
  revert Hb'. apply best_of_ext. intros t. split; intros [Ha Ho]; (split; [done|]).
  - apply (raster_next p (t_brp t)); [done|exact (adm_raster _ Ha)|done].
  - apply (raster_next p (t_brp t)) in Ho; [done|done|exact (adm_raster _ Ha)].
Qed.

End Timing.

(** C27. The bit timing search finds the best timing.  On the constants of a
    device for which nothing wraps around, [gsusb_calc_bittiming] ends; it
    returns an error exactly when the device has no timing of 8 to 25 quanta
    for the bit rate, and otherwise the one timing of all admissible ones whose
    bit rate is nearest, among these the one whose sample point is nearest to
    87.5 per cent, and then the first; the resulting bit rate is at least the
    one asked for and less than an eighth above it, and the jump width is
    bounded by the device and by the second segment. *)
Theorem gsusb_bittiming_best c bitrate fuel : bt_sane c bitrate -> brp_max c - brp_min c < Z.of_nat fuel -> tseg1_max c - tseg1_min c < Z.of_nat fuel ->
  (gsusb_calc_bittiming c bitrate fuel = Done (CSP_ERR_INVAL, None) /\ forall t, ~ admissible c bitrate t) \/
  exists bt, gsusb_calc_bittiming c bitrate fuel = Done (CSP_ERR_NONE, Some bt) /\
    let t := mkTiming (brp bt) (phase_seg1 bt) (phase_seg2 bt) in
    admissible c bitrate t /\ (forall t', admissible c bitrate t' -> better c bitrate t t') /\
    bitrate <= rate c t /\ 8 * rate c t < 9 * bitrate /\ prop_seg bt = 0 /\ sjw bt = Z.min (phase_seg2 bt) (sjw_max c).
Proof.
  intros Hs Hf Hi. destruct (bt_brp_loop_best c bitrate Hs fuel fuel (brp_min c) best_none) as (b & E & Hb); [|lia..| |].
  - unfold on_raster. rewrite Z.sub_diag. apply Z.mod_0_l. destruct Hs. lia.
  - left. split; [done|]. intros t [Ha Ho]. pose proof (adm_brp _ _ _ Ha). lia.
  - unfold gsusb_calc_bittiming. rewrite E. cbn [mbind search_bind]. destruct Hb as [[-> Hn]|(t & Ht & -> & Hbest)]; [by left|right].
    cbn [best_error as_best best_tseg1 best_tseg2 best_brp]. pose proof (rate_error_max c bitrate Hs t Ht) as Hmax. rewrite (proj2 (Z.eqb_neq (rate_error c bitrate t) UINT32_MAX)) by lia.
    eexists. split; [reflexivity|]. cbn [brp phase_seg1 phase_seg2 prop_seg sjw]. destruct t as [p t1 t2]. cbn [t_brp t_seg1 t_seg2].
    destruct (rate_bounds c bitrate Hs _ Ht). do 5 (split; [done|]). destruct (Z.ltb_spec t2 (sjw_max c)); lia.
Qed.

(** The constants of an adapter with the candleLight firmware. *)
Definition candlelight : gs_device_bt_const := mkBtConst 0 48000000 1 16 1 8 4 1 1024 1.

Lemma candlelight_sane r : 0 < r <= 4194303 -> bt_sane candlelight r.
Proof. intros Hr. constructor; cbn; lia. Qed.

Lemma gsusb_bittiming_best_witness : admissible candlelight 1000000 (mkTiming 3 13 2) /\
  forall t', admissible candlelight 1000000 t' -> better candlelight 1000000 (mkTiming 3 13 2) t'.
Proof.
  destruct (gsusb_bittiming_best candlelight 1000000 1024) as [[E _]|(bt & E & Ha & Hb & _)].
  - constructor; cbn; lia.
  - cbn. lia.
  - cbn. lia.
  - vm_compute in E. discriminate E.
  - vm_compute in E. injection E as <-. split; [exact Ha|exact Hb].
Defined.

(** Where the guards are missing: an increment of 0 keeps the search going for
    ever, a bit rate of 0 divides by zero, and a bit rate that wraps around the
    product with the prescaler is accepted with a timing that gives a thousandth
    of it. *)
Lemma bittiming_stalls c bitrate fuel : brp_inc c = 0 -> 0 <= brp_min c <= brp_max c -> brp_min c < 2 ^ 32 -> quanta c bitrate (brp_min c) < 8 ->
  0 < brp_min c * bitrate < 2 ^ 32 -> gsusb_calc_bittiming c bitrate fuel = Unfinished.
Proof.
  intros Hinc Hp Hp32 Hq Hprod. unfold gsusb_calc_bittiming. generalize fuel at 2 as inner, best_none as b. intros inner.
  induction fuel as [|fuel IH]; intros b; simpl; rewrite (proj2 (Z.ltb_ge _ _)) by lia; [done|].
  rewrite (u32_small (_ * _)) by lia. unfold udiv. rewrite (proj2 (Z.eqb_neq _ _)) by lia. cbn [mbind search_bind]. fold (quanta c bitrate (brp_min c)).
  rewrite (proj2 (Z.ltb_lt _ _)) by lia. cbn [orb mret search_ret search_bind]. rewrite Hinc, Z.add_0_r, u32_small by lia. exact (IH b).
Qed.

Lemma bittiming_zero_rate : gsusb_calc_bittiming candlelight 0 1024 = DivByZero.
Proof. reflexivity. Qed.

Lemma bittiming_wraps : exists bt, gsusb_calc_bittiming candlelight 6100000 1024 = Done (CSP_ERR_NONE, Some bt) /\
  rate candlelight (mkTiming (brp bt) (phase_seg1 bt) (phase_seg2 bt)) = 8510.
Proof. eexists. split; vm_compute; reflexivity. Qed.

(** ** Frames *)

Lemma gs_frame_fields echo_id can_id can_dlc channel flags data :
  let f := gs_frame_bytes echo_id can_id can_dlc channel flags data in
  gs_u32 f 0 = u32 echo_id /\ gs_u32 f 4 = u32 can_id /\ gs_u8 f 8 = can_dlc /\ gs_u8 f 9 = channel /\ drop 12 f = data /\
  length f = (12 + length data)%nat.
Proof.
  assert (Hu : forall z, le_val (le_bytes 4 z) = u32 z) by (intros z; by rewrite le_val_bytes). cbv zeta.
  repeat split; [exact (Hu echo_id)|exact (Hu can_id)].
Qed.

(** The identifier with its flag, taken apart. *)
Lemma ext_id_flags id : 0 <= id < 2 ^ 29 ->
  let x := Z.lor id 0x80000000 in
  0 <= x < 2 ^ 32 /\ flagged x 0x80000000 = true /\ flagged x 0x40000000 = false /\ flagged x 0x20000000 = false /\ Z.land x 0x1FFFFFFF = id.
Proof.
  intros Hid x. assert (E : x = 0x80000000 + id).
  { unfold x. rewrite Z.lor_comm. change 0x80000000 with (Z.shiftl 1 31) at 1. by rewrite lor_shiftl_add by lia. }
  rewrite E. change (Z.land (0x80000000 + id) 0x1FFFFFFF) with (Z.land (0x80000000 + id) (Z.ones 29)). rewrite Z.land_ones by lia.
  rewrite (flagged_pow2 _ 31 ltac:(lia)), (flagged_pow2 _ 30 ltac:(lia)), (flagged_pow2 _ 29 ltac:(lia)).
  split; [lia|]. split; [apply Z.testbit_true; [lia|]|split; [apply Z.testbit_false; [lia|]|split; [apply Z.testbit_false; [lia|]|]]].
  - by rewrite <- (Z.div_unique_pos (0x80000000 + id) (2 ^ 31) 1 id) by lia.
  - by rewrite <- (Z.div_unique_pos (0x80000000 + id) (2 ^ 30) 2 id) by lia.
  - by rewrite <- (Z.div_unique_pos (0x80000000 + id) (2 ^ 29) 4 id) by lia.
  - symmetry. apply Z.mod_unique_pos with 4; lia.
Qed.

(** A report of the frame by an adapter, read into a variable of its size. *)
Lemma gsusb_rx_report `{Platform} i channel echo id dlc payload frame s : 0 <= id < 2 ^ 29 -> 0 <= dlc <= 8 -> length payload = 64%nat ->
  length frame = GS_FRAME_SIZE -> 0 <= echo < 2 ^ 32 ->
  let f := gs_frame_bytes echo (Z.lor id 0x80000000) dlc channel 0 payload in
  gsusb_rx_turn i channel frame (BulkRead f) s =
  if echo =? 0xFFFFFFFF then (_ ← csp_can_rx i id payload dlc false; mret f) s else Ret f s.
Proof.
  intros Hid Hdlc Hp Hfr Hecho f. destruct (gs_frame_fields echo (Z.lor id 0x80000000) dlc channel 0 payload) as (F0 & F4 & F8 & F9 & F12 & Fl).
  fold f in F0, F4, F8, F9, F12, Fl. rewrite Hp in Fl. destruct (ext_id_flags id Hid) as (Hx & X31 & X30 & X29 & Xm).
  unfold gsusb_rx_turn. rewrite take_ge by (unfold GS_FRAME_SIZE; lia). rewrite drop_ge, app_nil_r by (unfold GS_FRAME_SIZE in Hfr; lia).
  rewrite (proj2 (Z.ltb_ge (zlen f) 12)) by lia. rewrite F9, Z.eqb_refl, F0, F4, F8, F12, !u32_small by lia. cbn [negb].
  destruct (echo =? 0xFFFFFFFF); [|done]. cbn [negb]. rewrite X29, X30, X31, Xm. cbn [orb negb].
  unfold CAN_MAX_DLEN. by rewrite (proj2 (Z.ltb_ge 8 dlc)) by lia.
Qed.

(** What [csp_can_gsusb_tx_frame] writes reaches the other end of the bus: the
    adapter there reports the frame with its own channel number and without an
    echo number, and [gsusb_rx_turn] hands to [csp_can_rx] the identifier, the
    data and the length that were sent.  The confirmation the sender's adapter
    returns is ignored. *)
Theorem gsusb_frame_passes `{Platform} i channel channel' bulk id data dlc frame s :
  0 <= id < 2 ^ 29 -> 0 <= dlc <= 8 -> dlc <= zlen data -> length frame = GS_FRAME_SIZE ->
  exists sent, snd (csp_can_gsusb_tx_frame channel bulk id data dlc) = Some sent /\
    gsusb_rx_turn i channel frame (BulkRead sent) s = Ret sent s /\
    let payload := take (Z.to_nat dlc) data ++ replicate (64 - Z.to_nat dlc) 0 in
    let reported := gs_frame_bytes 0xFFFFFFFF (gs_u32 sent 4) (gs_u8 sent 8) channel' 0 (drop 12 sent) in
    gsusb_rx_turn i channel' frame (BulkRead reported) s = (_ ← csp_can_rx i id payload dlc false; mret reported) s.
Proof.
  intros Hid Hdlc Hdata Hfr. unfold csp_can_gsusb_tx_frame, CAN_MAX_DLEN. rewrite (proj2 (Z.ltb_ge 8 dlc)) by lia.
  set (payload := take (Z.to_nat dlc) data ++ replicate (64 - Z.to_nat dlc) 0).
  assert (Hlen : length payload = 64%nat) by (unfold payload; rewrite length_app, length_take, length_replicate; lia).
  set (sent := gs_frame_bytes _ _ _ _ _ payload). exists sent. split; [by destruct (bulk sent =? LIBUSB_SUCCESS)|].
  destruct (gs_frame_fields 0 (Z.lor id 0x80000000) dlc channel 0 payload) as (_ & F4 & F8 & _ & F12 & _). fold sent in F4, F8, F12.
  destruct (ext_id_flags id Hid) as (Hx & _). cbv zeta. rewrite F4, F8, F12, u32_small by lia. split.
  - exact (gsusb_rx_report i channel 0 id dlc payload frame s Hid Hdlc Hlen Hfr ltac:(lia)).
  - exact (gsusb_rx_report i channel' 0xFFFFFFFF id dlc payload frame s Hid Hdlc Hlen Hfr ltac:(lia)).
Qed.

(** Whatever the device sends, a turn does nothing or calls [csp_can_rx] with
    at most eight bytes. *)
Lemma gsusb_rx_cases `{Platform} i channel frame r s : length frame = GS_FRAME_SIZE -> bytes_ok frame ->
  (forall bs, r = BulkRead bs -> bytes_ok bs) ->
  exists frame', length frame' = GS_FRAME_SIZE /\ bytes_ok frame' /\
    (gsusb_rx_turn i channel frame r s = Ret frame' s \/
     exists id data dlc, 0 <= id < 2 ^ 29 /\ 0 <= dlc <= 8 /\ zlen data = 64 /\
       gsusb_rx_turn i channel frame r s = (_ ← csp_can_rx i id data dlc false; mret frame') s).
Proof.
  intros Hl Hb Hr. destruct r as [| |bs]; [by exists frame; auto..|]. specialize (Hr bs eq_refl). unfold gsusb_rx_turn.
  set (b := take GS_FRAME_SIZE bs). set (f := b ++ drop (length b) frame). unfold GS_FRAME_SIZE in *.
  assert (Hf : length f = 76%nat) by (unfold f, b; rewrite length_app, length_drop, length_take; lia).
  assert (Hok : bytes_ok f) by (unfold f, b, bytes_ok; apply Forall_app; split; [by apply Forall_take|by apply Forall_drop]).
  exists f. split; [done|]. split; [done|]. destruct (zlen b <? 12); [by left|]. destruct (negb (gs_u8 f 9 =? _)); [by left|].
  destruct (negb (gs_u32 f 0 =? _)); [by left|]. destruct (flagged _ _ || _); [by left|]. destruct (negb (flagged _ _)); [by left|]. right.
  do 3 eexists. split; [|split; [|split; [|reflexivity]]].
  - change 0x1FFFFFFF with (Z.ones 29). rewrite Z.land_ones by lia. apply Z.mod_pos_bound. lia.
  - assert (0 <= gs_u8 f 8).
    { unfold gs_u8. destruct (nth_in_or_default 8 f 0) as [Hin| ->]; [|done].
      pose proof (proj1 (Forall_forall _ _) Hok _ Hin) as Hb8. unfold is_byte in Hb8. lia. }
    unfold CAN_MAX_DLEN. destruct (Z.ltb_spec 8 (gs_u8 f 8)); lia.
  - rewrite length_drop. lia.
Qed.

(** The receive thread is safe: on a timeout, an error or any bytes the device
    transfers, a turn returns, keeps the size of the frame variable, the
    ownership invariant and the list of packets being received, whichever
    fragmentation protocol the node uses. *)
Theorem gsusb_rx_safe `{Platform} T i h l s channel frame r (v2 : bool) :
  let ok := if v2 then pbuf2_ok else pbuf1_ok in
  let mask := if v2 then CFP2_ID_CONN_MASK else CFP_ID_CONN_MASK in
  version (cf_conf T) = (if v2 then 2 else 1) -> valid_if T i -> receiver (PbCan i) ok mask T h l s -> can_take l s ->
  length frame = GS_FRAME_SIZE -> bytes_ok frame -> (forall bs, r = BulkRead bs -> bytes_ok bs) ->
  exists frame' s' l', gsusb_rx_turn i channel frame r s = Ret frame' s' /\ length frame' = GS_FRAME_SIZE /\ bytes_ok frame' /\
    receiver (PbCan i) ok mask T h l' s'.
Proof.
  cbv zeta. intros Hver Hi HR Ht Hl Hb Hr. destruct (gsusb_rx_cases i channel frame r s Hl Hb Hr) as (f & Hfl & Hfb & [E|(id & data & dlc & _ & Hd & Hz & E)]).
  { by exists f, s, l. }
  assert (Hrx : exists v s' l', csp_can_rx i id data dlc false s = Ret v s' /\
    receiver (PbCan i) (if v2 then pbuf2_ok else pbuf1_ok) (if v2 then CFP2_ID_CONN_MASK else CFP_ID_CONN_MASK) T h l' s').
  { assert (Ev : version (conf s) = version (cf_conf T)) by (by rewrite <- (inv_conf _ _ _ (rcv_inv _ _ _ _ _ _ _ HR))).
    unfold csp_can_rx. rewrite (bind_ret _ _ _ s s) by done. rewrite Ev, Hver. destruct v2.
    - destruct (proj1 (wp_run _ _ _) (wp_can2_rx T i h Hver Hi l id data dlc false s HR Ht ltac:(lia))) as (v & s' & Ec & l' & HR' & _). by exists v, s', l'.
    - destruct (proj1 (wp_run _ _ _) (wp_can1_rx T i h ltac:(lia) Hi l id data dlc false s HR Ht ltac:(lia))) as (v & s' & Ec & l' & HR' & _).
      by exists v, s', l'. }
  destruct Hrx as (v & s' & l' & Ec & HR'). exists f, s', l'. by rewrite E, (bind_ret _ _ _ _ _ Ec).
Qed.

(** ** Opening *)

Section Open.
Context `{Usb} (fuel : nat) (cfg : csp_can_gsusb_conf).

(** The search on the constants the device reports. *)
Definition device_timing : search (Z * option gs_device_bittiming) :=
  gsusb_calc_bittiming (bt_const_of (snd (usb_in GS_USB_BREQ_BT_CONST (gs_channel cfg) 40))) (gs_bitrate cfg) fuel.

(** The requests that set a device up. *)
Definition setup_requests (bt : gs_device_bittiming) : list (Z * Z * list Z) :=
  [(GS_USB_BREQ_HOST_FORMAT, 0, le_bytes 4 0x0000BEEF); (GS_USB_BREQ_BITTIMING, gs_channel cfg, bittiming_bytes bt);
   (GS_USB_BREQ_MODE, gs_channel cfg, mode_bytes GS_CAN_MODE_START 0)].

Context (Hends : exists r, device_timing = Done r).

Lemma gsusb_setup_run s : exists ret sent, gsusb_setup fuel cfg s = Ret (ret, sent) s /\
  (ret = CSP_ERR_NONE -> exists ret' bt, device_timing = Done (ret', Some bt) /\ sent = setup_requests bt).
Proof.
  assert (Hfail : forall e sent, e <> CSP_ERR_NONE -> exists ret sent', Ret (e, sent) s = Ret (ret, sent') s /\
    (ret = CSP_ERR_NONE -> exists ret' bt, device_timing = Done (ret', Some bt) /\ sent' = setup_requests bt)).
  { intros e sent He. exists e, sent. split; [done|]. by intros ->. }
  unfold gsusb_setup. destruct (negb (_ =? _)); [by apply Hfail|]. destruct (gsusb_control_in GS_USB_BREQ_DEVICE_CONFIG 0 12) as [ret dev].
  destruct (negb (_ =? _)); [by apply Hfail|]. destruct (_ <=? gs_channel cfg); [by apply Hfail|].
  unfold device_timing in Hends. unfold gsusb_control_in. destruct (usb_in GS_USB_BREQ_BT_CONST (gs_channel cfg) 40) as [n consts] eqn:Ein.
  destruct (negb _); [by apply Hfail|]. cbn [snd] in Hends. destruct Hends as [[r o] Er]. rewrite Er. destruct o as [bt|].
  - destruct (negb _); [by apply Hfail|]. destruct (negb _); [by apply Hfail|]. eexists _, _. split; [reflexivity|]. intros _.
    exists r, bt. split; [|done]. unfold device_timing. by rewrite Ein.
  - apply Hfail. revert Er. unfold gsusb_calc_bittiming. destruct (bt_brp_loop _ _ _ _ _ _); [|done..]. cbn [mbind search_bind].
    destruct (_ =? UINT32_MAX); [by intros [= <-]|discriminate].
Qed.

(** The new interface enters the list at its end. *)
Lemma can_add_new s l name node_id : iflist s l -> named (ifs s) l -> existsb (name_taken (ifs s) (take CSP_IFLIST_NAME_MAX name)) l = false ->
  (length (can s) <= length (ifs s))%nat ->
  let x := set_if_addr (u16 node_id) (set_if_name (Some (take CSP_IFLIST_NAME_MAX name)) iface_zero) in
  let j := length (ifs s) in
  let s1 := set_ifs (ifs s ++ [x]) s in
  let s2 := set_can (put_dev j (mkCan 0 (Some 0%nat) None) (can s1)) s1 in
  let nx := if version (conf s) =? 1 then CAN1_NEXTHOP else CAN2_NEXTHOP in
  let s' := set_ifs (ifs s ++ [set_if_nexthop nx x]) s2 in
  exists s'', csp_can_add_interface (Some j) s2 = Ret CSP_ERR_NONE s'' /\ iflist s'' (l ++ [j]) /\ csp_iflist_add (Some j) s' = Ret tt s''.
Proof.
  intros Hl Hnm Ht Hc x j s1 s2 nx s4'.
  assert (Hx : ifs s2 !! j = Some x) by (change (ifs s2) with (ifs s ++ [x]); unfold j; by rewrite lookup_app_r, Nat.sub_diag).
  assert (Hd : can s2 !! j = Some (Some (mkCan 0 (Some 0%nat) None))) by (by apply put_dev_at).
  set (s3 := set_can (<[j := Some (set_cfp_packet_counter 0 (mkCan 0 (Some 0%nat) None))]> (can s2)) s2).
  assert (E3 : s3 = s2).
  { unfold s3. change (set_cfp_packet_counter 0 (mkCan 0 (Some 0%nat) None)) with (mkCan 0 (Some 0%nat) None). rewrite list_insert_id by done. by destruct s2. }
  set (s4 := set_ifs (<[j := set_if_nexthop nx x]> (ifs s3)) s3).
  assert (E4 : ifs s4 = ifs s ++ [set_if_nexthop nx x]).
  { change (ifs s4) with (<[j := set_if_nexthop nx x]> (ifs s ++ [x])). unfold j. rewrite insert_app_r_alt by lia. by rewrite Nat.sub_diag. }
  destruct (iflist_add_new s s4 l (set_if_nexthop nx x) (take CSP_IFLIST_NAME_MAX name)) as (s' & Hadd & Hl'); [done|done|done|done|done|done|].
  assert (E4' : s4' = s4).
  { unfold s4, s4'. rewrite E3. f_equal. rewrite <- E4. unfold s4. cbn [ifs set_ifs]. by rewrite E3. }
  exists s'. split; [|split; [done|by rewrite E4']].
  unfold csp_can_add_interface. rewrite (bind_ret _ _ _ x s2) by (by apply get_iface_at). rewrite (bind_ret _ _ _ s2 s2) by done. rewrite Hd. cbn [mjoin option_join].
    cbn [if_name x set_if_addr set_if_name can_tx_func]. rewrite (bind_ret _ _ _ tt s3) by (by apply mod_can_at).
    rewrite (bind_ret _ _ _ tt s4) by (by apply mod_iface_at). by rewrite (bind_ret _ _ _ _ _ Hadd).
Qed.

(** Opening sets the device up or leaves nothing behind.  Unless the bit timing
    search divides by zero or does not end, [csp_can_gsusb_open_and_add_interface]
    returns whatever the library answers.  When it fails before the interface is
    made known to the stack, the node is as it was, and memory, library context
    and device are released; when only the thread cannot be created, the
    interface stays.  When it succeeds, the interface is the last of the node,
    at the end of the list, and the device was told the byte order, the bit
    timing that the search found on its own constants, and to start. *)
Theorem gsusb_open_clean s l ifname node_id : iflist s l -> named (ifs s) l ->
  existsb (name_taken (ifs s) (take CSP_IFLIST_NAME_MAX (default CSP_IF_CAN_DEFAULT_NAME ifname))) l = false -> (length (can s) <= length (ifs s))%nat ->
  exists o s', csp_can_gsusb_open_and_add_interface fuel (Some cfg) ifname node_id s = Ret o s' /\
    match op_iface o with
    | None => op_status o <> CSP_ERR_NONE /\
        (s' = s /\ op_held o = held_none \/ op_status o = CSP_ERR_NOMEM /\ iflist s' (l ++ [length (ifs s)]))
    | Some i => op_status o = CSP_ERR_NONE /\ i = length (ifs s) /\ iflist s' (l ++ [i]) /\ op_held o = mkHeld true true true /\
        exists ret bt, device_timing = Done (ret, Some bt) /\ op_sent o = setup_requests bt
    end.
Proof.
  intros Hl Hnm Ht Hc. unfold csp_can_gsusb_open_and_add_interface. cbn [default].
  destruct (negb usb_calloc); [by eexists _, s; split; [reflexivity|]; split; [|left]|].
  destruct (negb (usb_init =? _)); [by eexists _, s; split; [reflexivity|]; split; [|left]|].
  destruct (if _ || _ then _ else _) as [vid pid]. destruct (negb (usb_open vid pid)); [by eexists _, s; split; [reflexivity|]; split; [|left]|].
  destruct (negb (usb_claim =? _)); [by eexists _, s; split; [reflexivity|]; split; [|left]|].
  destruct (gsusb_setup_run s) as (ret & sent & Er & Hok). rewrite (bind_ret _ _ _ _ _ Er).
  destruct (Z.eqb_spec ret CSP_ERR_NONE) as [->|Hne]; cbn [negb]; [|by eexists _, s; split; [reflexivity|]; split; [|left]].
  destruct (can_add_new s l _ node_id Hl Hnm Ht Hc) as (s' & Hadd & Hl' & _). set (s2 := set_can _ _) in Hadd.
  erewrite bind_ret by reflexivity. rewrite (bind_ret _ _ _ tt s2) by reflexivity. rewrite (bind_ret _ _ _ _ _ Hadd). cbn [negb Z.eqb].
  destruct (Z.eqb_spec usb_thread 0); cbn [negb].
  - eexists _, s'. split; [reflexivity|]. cbn [op_iface op_status op_held op_sent]. auto 10.
  - eexists _, s'. split; [reflexivity|]. cbn [op_iface op_status]. auto.
Qed.

End Open.

(** ** A concrete adapter *)

Definition candlelight_bytes : list Z :=
  concat (map (le_bytes 4) [0; 48000000; 1; 16; 1; 8; 4; 1; 1024; 1]).

(** Two channels; every transfer is complete. *)
Definition good_usb : Usb := {|
  usb_calloc := true; usb_init := 0; usb_open _ _ := true; usb_claim := 0; usb_out _ _ data := zlen data;
  usb_in request _ size := (size, if request =? GS_USB_BREQ_BT_CONST then candlelight_bytes else [0; 0; 0; 1; 0; 0; 0; 0; 0; 0; 0; 0]);
  usb_thread := 0
|}.

Lemma gsusb_open_clean_witness : exists o s', csp_can_gsusb_open_and_add_interface (H := good_usb) 1024 (Some CSP_CAN_GSUSB_CONF_DEFAULT) (Some [71]) 7 boot =
  Ret o s' /\ op_status o = CSP_ERR_NONE /\ op_iface o = Some (length (ifs boot)).
Proof.
  destruct (gsusb_open_clean (H := good_usb) 1024 CSP_CAN_GSUSB_CONF_DEFAULT ltac:(eexists; vm_compute; reflexivity) boot [] (Some [71]) 7) as (o & s' & Er & Ho).
  - vm_compute. constructor.
  - intros i x Hi. by apply not_elem_of_nil in Hi.
  - reflexivity.
  - apply Nat.leb_le. vm_compute. reflexivity.
  - exists o, s'. split; [exact Er|]. destruct (op_iface o) as [i|] eqn:Ei.
    + destruct Ho as (Hst & -> & _). by split.
    + exfalso. assert (E : match csp_can_gsusb_open_and_add_interface (H := good_usb) 1024 (Some CSP_CAN_GSUSB_CONF_DEFAULT) (Some [71]) 7 boot with
        | Ret o _ => op_iface o <> None | _ => False end) by (vm_compute; discriminate).
      rewrite Er in E. exact (E Ei).
Defined.

(** Five devices, one without a descriptor, three of them known. *)
Example gsusb_enumerate_counts : csp_can_gsusb_enumerate (H := good_usb) (Some [Some (0x1d50, 0x606f); None; Some (0x1209, 0x2323); Some (1, 1); Some (0x1d50, 0x606d)]) = 3.
Proof. reflexivity. Qed.

Lemma gsusb_frame_passes_witness : exists sent, snd (csp_can_gsusb_tx_frame 1 (fun _ => 0) 5 [1; 2; 3] 2) = Some sent /\
  gsusb_rx_turn (H := lo_platform) 1 1 (replicate 76 0) (BulkRead sent) bus_node = Ret sent bus_node.
Proof.
  destruct (gsusb_frame_passes (H := lo_platform) 1 1 0 (fun _ => 0) 5 [1; 2; 3] 2 (replicate 76 0) bus_node) as (sent & Hs & Hr & _).
  - lia.
  - lia.
  - simpl. lia.
  - reflexivity.
  - exists sent. split; [exact Hs|exact Hr].
Defined.

Lemma gsusb_rx_safe_witness : exists f s' l',
  gsusb_rx_turn (H := lo_platform) 1 0 (replicate 76 0) (BulkRead (gs_frame_bytes 0xFFFFFFFF 0x9fffffff 8 0 0 [1; 2; 3; 4; 5; 6; 7; 8])) bus_node = Ret f s' /\
  receiver (PbCan 1) pbuf2_ok CFP2_ID_CONN_MASK (config_of bus_node) [] l' s'.
Proof.
  destruct (gsusb_rx_safe (H := lo_platform) (config_of bus_node) 1 [] [] bus_node 0 (replicate 76 0)
    (BulkRead (gs_frame_bytes 0xFFFFFFFF 0x9fffffff 8 0 0 [1; 2; 3; 4; 5; 6; 7; 8])) true) as (f & s' & l' & Hr & _ & _ & HR).
  - reflexivity.
  - exact bus_if_valid.
  - exact bus_receiver.
  - split; [exact I|]. vm_compute. discriminate.
  - reflexivity.
  - apply Forall_replicate. unfold is_byte. lia.
  - intros bs E. injection E as <-. repeat constructor; vm_compute; first [discriminate|reflexivity].
  - exists f, s', l'. split; [exact Hr|exact HR].
Defined.
