(* ===== verification/Slots.v ===== *)
(** * Slots: the tables of driver contexts

    The Zephyr drivers ([src/drivers/can/can_zephyr.c] and
    [src/drivers/usart/usart_zephyr.c]) keep a static array of pointers to
    contexts from the heap, one context for each device they own, and one thread
    stack for each entry.  Both search it in the same way; the search, the heap
    and the invariant are here. *)

From S2P Require Import Prelude.

(** ** Heap and table *)

(** [slot_tab]: the array of pointers; [slot_heap]: the contexts, where a pointer
    is an index and [None] is memory that was freed; [slot_thread]: the thread on
    each stack, with the context it works on and whether it was started. *)
Record slots (C : Type) := mkSlots {
  slot_tab : list (option nat);
  slot_heap : list (option C);
  slot_thread : list (option (nat * bool))
}.
Arguments mkSlots {C} _ _ _.
Arguments slot_tab {C} _.
Arguments slot_heap {C} _.
Arguments slot_thread {C} _.

Section Slots.
Context {C : Type} (dev : C -> nat).

Definition slots_empty (n : nat) : slots C := mkSlots (replicate n None) [] (replicate n None).

(** Reading a context; [None] is a pointer to freed memory. *)
Definition deref (p : nat) (z : slots C) : option C := mjoin (slot_heap z !! p).

Definition ctx_alloc (c : C) (z : slots C) : nat * slots C :=
  (length (slot_heap z), mkSlots (slot_tab z) (slot_heap z ++ [Some c]) (slot_thread z)).
Definition ctx_put (p : nat) (c : C) (z : slots C) : slots C := mkSlots (slot_tab z) (<[p := Some c]> (slot_heap z)) (slot_thread z).
Definition ctx_free (p : nat) (z : slots C) : slots C := mkSlots (slot_tab z) (<[p := None]> (slot_heap z)) (slot_thread z).
Definition tab_set (i : nat) (o : option nat) (z : slots C) : slots C := mkSlots (<[i := o]> (slot_tab z)) (slot_heap z) (slot_thread z).
Definition thread_set (i : nat) (o : option (nat * bool)) (z : slots C) : slots C :=
  mkSlots (slot_tab z) (slot_heap z) (<[i := o]> (slot_thread z)).

(** [k_thread_create] on stack [i]: undefined while another thread uses it. *)
Definition thread_create (i p : nat) (z : slots C) : option (slots C) :=
  match slot_thread z !! i with
  | Some None => Some (thread_set i (Some (p, false)) z)
  | _ => None
  end.

(** [k_thread_start], and the end of a thread ([k_thread_join] or
    [k_thread_abort]), for the thread of a context. *)
Definition thread_of (p : nat) (f : nat * bool -> option (nat * bool)) (z : slots C) : slots C :=
  mkSlots (slot_tab z) (slot_heap z)
    (map (fun o => match o with Some (q, r) => if Nat.eqb q p then f (q, r) else o | None => None end) (slot_thread z)).
Definition thread_start (p : nat) : slots C -> slots C := thread_of p (fun t => Some (fst t, true)).
Definition thread_end (p : nat) : slots C -> slots C := thread_of p (fun _ => None).

(** The loop that looks for the device and for the first free entry, [slot]; it
    starts with the size of the table, for none.  [None] is the use of a freed
    context. *)
Inductive scan_result := ScanUsed | ScanSlot (slot : nat).

Fixpoint slot_scan (n d : nat) (h : list (option C)) (t : list (option nat)) (i slot : nat) : option scan_result :=
  match t with
  | [] => Some (ScanSlot slot)
  | Some p :: t' =>
      c ← mjoin (h !! p);
      if Nat.eqb (dev c) d then Some ScanUsed else slot_scan n d h t' (S i) slot
  | None :: t' => slot_scan n d h t' (S i) (if Nat.eqb slot n then i else slot)
  end.

Definition scan (d : nat) (z : slots C) : option scan_result :=
  slot_scan (length (slot_tab z)) d (slot_heap z) (slot_tab z) 0 (length (slot_tab z)).

(** The context of a device, by the table. *)
Fixpoint find_tab (d : nat) (h : list (option C)) (t : list (option nat)) : option (option nat) :=
  match t with
  | [] => Some None
  | Some p :: t' => c ← mjoin (h !! p); if Nat.eqb (dev c) d then Some (Some p) else find_tab d h t'
  | None :: t' => find_tab d h t'
  end.

Definition find_context (d : nat) (z : slots C) : option (option nat) := find_tab d (slot_heap z) (slot_tab z).

(** Clearing the first entry that holds the pointer. *)
Fixpoint tab_clear (p : nat) (t : list (option nat)) : list (option nat) :=
  match t with
  | [] => []
  | o :: t' => if bool_decide (o = Some p) then None :: t' else o :: tab_clear p t'
  end.

(** ** The invariant *)

Record slots_ok (z : slots C) : Prop := {
  so_live : forall i p, slot_tab z !! i = Some (Some p) -> is_Some (deref p z);
  so_listed : forall p c, deref p z = Some c -> exists i, slot_tab z !! i = Some (Some p);
  so_once : forall i j p, slot_tab z !! i = Some (Some p) -> slot_tab z !! j = Some (Some p) -> i = j;
  so_dev : forall p q c c', deref p z = Some c -> deref q z = Some c' -> dev c = dev c' -> p = q;
  so_threads : length (slot_thread z) = length (slot_tab z);
  so_thread : forall i p r, slot_thread z !! i = Some (Some (p, r)) -> slot_tab z !! i = Some (Some p)
}.

(** No context is owned by the device. *)
Definition unowned (d : nat) (z : slots C) : Prop := forall p c, deref p z = Some c -> dev c <> d.

Lemma slots_empty_ok n : slots_ok (slots_empty n).
Proof.
  assert (Hn : forall i (p : nat), replicate n (@None nat) !! i <> Some (Some p)).
  { intros i p E. apply lookup_replicate in E as [E _]. discriminate E. }
  constructor; cbn.
  - intros i p E. by apply Hn in E.
  - intros p c E. discriminate E.
  - intros i j p E. by apply Hn in E.
  - intros p q c c' E. discriminate E.
  - by rewrite !length_replicate.
  - intros i p r E. by apply lookup_replicate in E as [E _].
Qed.

Lemma deref_lt p z c : deref p z = Some c -> (p < length (slot_heap z))%nat.
Proof. unfold deref. destruct (slot_heap z !! p) eqn:E; [|done]. intros _. by eapply lookup_lt_Some. Qed.

Lemma deref_put p c z q : (p < length (slot_heap z))%nat -> deref q (ctx_put p c z) = if decide (q = p) then Some c else deref q z.
Proof.
  intros Hp. unfold deref, ctx_put. cbn. case_decide as E; [subst; by rewrite list_lookup_insert_eq|by rewrite list_lookup_insert_ne].
Qed.

Lemma deref_free p z q : deref q (ctx_free p z) = if decide (q = p) then None else deref q z.
Proof.
  unfold deref, ctx_free. cbn. case_decide as E; [subst|by rewrite list_lookup_insert_ne].
  destruct (decide (p < length (slot_heap z))%nat); [by rewrite list_lookup_insert_eq|]. rewrite lookup_ge_None_2; [done|]. rewrite length_insert. lia.
Qed.

Lemma deref_alloc c z q : deref q (snd (ctx_alloc c z)) = if decide (q = length (slot_heap z)) then Some c else deref q z.
Proof.
  unfold deref, ctx_alloc. cbn. case_decide as E; [subst; by rewrite lookup_app_r, Nat.sub_diag|].
  destruct (decide (q < length (slot_heap z))%nat); [by rewrite lookup_app_l|].
  rewrite lookup_app_r by lia. rewrite (lookup_ge_None_2 (slot_heap z)) by lia. destruct (q - length (slot_heap z))%nat eqn:Eq; [lia|done].
Qed.

(** Tables with the same entries, threads and contexts are as good. *)
Lemma slots_ok_ext z z' : slot_tab z' = slot_tab z -> slot_thread z' = slot_thread z -> (forall q, deref q z' = deref q z) -> slots_ok z -> slots_ok z'.
Proof.
  intros Et Eh Ed [Hl Hi Ho Hd Ht Hth]. constructor; rewrite ?Et, ?Eh; try done.
  - intros i p Hp. rewrite Ed. by eapply Hl.
  - intros p c. rewrite Ed. apply Hi.
  - intros q r x y. rewrite !Ed. apply Hd.
Qed.

(** Memory that was allocated and freed again leaves no trace. *)
Lemma deref_alloc_free c z q : deref q (ctx_free (length (slot_heap z)) (snd (ctx_alloc c z))) = deref q z.
Proof.
  rewrite deref_free, deref_alloc. case_decide as E; [|done]. subst q. unfold deref. by rewrite lookup_ge_None_2.
Qed.

(** What is written to new memory might have been there from the start. *)
Lemma alloc_put c c' z : ctx_put (length (slot_heap z)) c' (snd (ctx_alloc c z)) = snd (ctx_alloc c' z).
Proof. unfold ctx_put, ctx_alloc. cbn. f_equal. by rewrite insert_app_r_alt, Nat.sub_diag by lia. Qed.

(** The stack of a free entry is free. *)
Lemma free_stack z i : slots_ok z -> slot_tab z !! i = Some None -> slot_thread z !! i = Some None.
Proof.
  intros Hz Hi. destruct (lookup_lt_is_Some_2 (slot_thread z) i) as [[[q r]|] Ho]; [|pose proof (so_thread z Hz i q r Ho); congruence|done].
  rewrite (so_threads z Hz). by eapply lookup_lt_Some.
Qed.

(** *** Searching *)

(** The first free entry of a part of the table. *)
Lemma slot_scan_spec n d h t i slot : (forall p, Some p ∈ t -> is_Some (mjoin (h !! p))) -> (i + length t <= n)%nat ->
  (slot <= n)%nat -> exists r, slot_scan n d h t i slot = Some r /\
  match r with
  | ScanUsed => exists p c, Some p ∈ t /\ mjoin (h !! p) = Some c /\ dev c = d
  | ScanSlot k => (forall p c, Some p ∈ t -> mjoin (h !! p) = Some c -> dev c <> d) /\ (k <= n)%nat /\
      (k = slot \/ (i <= k)%nat /\ t !! (k - i)%nat = Some None)
  end.
Proof.
  revert i slot. induction t as [|o t IH]; intros i slot Hlive Hn Hs; cbn [slot_scan length] in *.
  - eexists. split; [done|]. cbn. split; [intros p c Hp; by apply not_elem_of_nil in Hp|]. auto.
  - assert (Hlive' : forall p, Some p ∈ t -> is_Some (mjoin (h !! p))) by (intros p Hp; apply Hlive; by right).
    destruct o as [p|].
    + destruct (Hlive p ltac:(left)) as [c Hc]. rewrite Hc. cbn. destruct (Nat.eqb_spec (dev c) d) as [E|E].
      * exists ScanUsed. split; [done|]. exists p, c. split; [left|done].
      * destruct (IH (S i) slot Hlive' ltac:(lia) Hs) as ([|k] & -> & Hr); eexists; (split; [reflexivity|]).
        -- destruct Hr as (q & c' & Hq & Hr). exists q, c'. split; [by right|done].
        -- destruct Hr as (Ha & Hk & Hr). split; [|split; [done|]].
           ++ intros q c' [[= ->]|Hq]%elem_of_cons Hc'; [congruence|by eapply Ha].
           ++ destruct Hr as [Hr|[Hik Hr]]; [by left|right]. split; [lia|]. by replace (k - i)%nat with (S (k - S i)) by lia.
    + assert (Hs' : ((if Nat.eqb slot n then i else slot) <= n)%nat) by (destruct (Nat.eqb_spec slot n); lia).
      destruct (IH (S i) (if Nat.eqb slot n then i else slot) Hlive' ltac:(lia) Hs') as ([|k] & -> & Hr);
        eexists; (split; [reflexivity|]).
      * destruct Hr as (q & c' & Hq & Hr). exists q, c'. split; [by right|done].
      * destruct Hr as (Ha & Hk & Hr). split; [|split; [done|]].
        -- intros q c' [[=]|Hq]%elem_of_cons Hc'. by eapply Ha.
        -- destruct Hr as [Hr|[Hik Hr]].
           ++ destruct (Nat.eqb_spec slot n); [right|by left]. split; [lia|]. by replace (k - i)%nat with O by lia.
           ++ right. split; [lia|]. by replace (k - i)%nat with (S (k - S i)) by lia.
Qed.

(** The scan of a sound table: the device is owned, or the entry is free, or
    there is none. *)
Lemma scan_spec d z : slots_ok z -> exists r, scan d z = Some r /\
  match r with
  | ScanUsed => exists p c, deref p z = Some c /\ dev c = d
  | ScanSlot k => unowned d z /\ (k = length (slot_tab z) \/ slot_tab z !! k = Some None)
  end.
Proof.
  intros Hz. unfold scan. destruct (slot_scan_spec (length (slot_tab z)) d (slot_heap z) (slot_tab z) 0 (length (slot_tab z))) as (r & Hr & H); [|lia|lia|].
  - intros p Hp. apply list_elem_of_lookup in Hp as [i Hi]. by apply (so_live z Hz i).
  - exists r. split; [done|]. destruct r as [|k].
    + destruct H as (p & c & _ & Hc & E). by exists p, c.
    + destruct H as (Ha & _ & Hk). split.
      * intros p c Hc. destruct (so_listed z Hz p c Hc) as [i Hi]. apply (Ha p); [|done]. by eapply list_elem_of_lookup_2.
      * destruct Hk as [Hk|[_ Hk]]; [by left|right]. by rewrite Nat.sub_0_r in Hk.
Qed.

Lemma find_context_spec d z : slots_ok z -> exists r, find_context d z = Some r /\
  match r with
  | Some p => exists c, deref p z = Some c /\ dev c = d
  | None => unowned d z
  end.
Proof.
  intros Hz. unfold find_context.
  assert (Hlive : forall p, Some p ∈ slot_tab z -> is_Some (deref p z)) by (intros p Hp; apply list_elem_of_lookup in Hp as [i Hi]; by apply (so_live z Hz i)).
  assert (H : exists r, find_tab d (slot_heap z) (slot_tab z) = Some r /\
    match r with Some p => exists c, deref p z = Some c /\ dev c = d | None => forall p c, Some p ∈ slot_tab z -> deref p z = Some c -> dev c <> d end).
  { revert Hlive. generalize (slot_tab z) as t. induction t as [|o t IH]; intros Hl; cbn [find_tab].
    - exists None. split; [done|]. intros p c Hp. by apply not_elem_of_nil in Hp.
    - assert (Hl' : forall p, Some p ∈ t -> is_Some (deref p z)) by (intros p Hp; apply Hl; by right). destruct (IH Hl') as (r & Er & Hr).
      destruct o as [p|]; [|exists r; split; [done|]; destruct r; [done|]; intros p c [[=]|Hp]%elem_of_cons Hc; by eapply Hr].
      destruct (Hl p ltac:(left)) as [c Hc]. pose proof Hc as Hc'. unfold deref in Hc'. rewrite Hc'. cbn.
      destruct (Nat.eqb_spec (dev c) d) as [E|E]; [exists (Some p); split; [done|]; by exists c|]. exists r. split; [done|]. destruct r; [done|].
      intros q c' [[= ->]|Hq]%elem_of_cons Hd; [congruence|by eapply Hr]. }
  destruct H as (r & Er & Hr). exists r. split; [done|]. destruct r; [done|]. intros p c Hc.
  destruct (so_listed z Hz p c Hc) as [i Hi]. apply (Hr p); [|done]. by eapply list_elem_of_lookup_2.
Qed.

(** *** Changing *)

(** A context may change as long as it keeps its device. *)
Lemma slots_ok_put p c c' z : slots_ok z -> deref p z = Some c -> dev c' = dev c -> slots_ok (ctx_put p c' z).
Proof.
  intros [Hl Hi Ho Hd Ht Hth] Hc E. pose proof (deref_lt p z c Hc) as Hp. constructor; cbn [slot_tab slot_thread ctx_put]; [| |done| |done|done].
  - intros i q Hq. change (is_Some (deref q (ctx_put p c' z))). rewrite deref_put by done. case_decide; [by eexists|by eapply Hl].
  - intros q x Hq. change (deref q (ctx_put p c' z) = Some x) in Hq. rewrite deref_put in Hq by done.
    case_decide; [subst; by eapply Hi|by eapply Hi].
  - intros q r x y. change (deref q (ctx_put p c' z) = Some x -> deref r (ctx_put p c' z) = Some y -> dev x = dev y -> q = r).
    rewrite !deref_put by done. repeat case_decide; intros; simplify_eq; [done| | |by eapply Hd].
    + eapply (Hd p r c y); congruence.
    + eapply (Hd q p x c); congruence.
Qed.

Lemma slots_ok_create i p z : slots_ok z -> slot_tab z !! i = Some (Some p) -> slots_ok (thread_set i (Some (p, false)) z).
Proof.
  intros [Hl Hi Ho Hd Ht Hth] Hp. constructor; cbn [slot_tab slot_thread thread_set]; try done; [by rewrite length_insert|].
  intros j q r' Hj. apply list_lookup_insert_Some in Hj as [(-> & [= <- _] & _)|[_ Hj]]; [done|by eapply Hth].
Qed.

Lemma thread_of_at p f z i : slot_thread (thread_of p f z) !! i =
  (fun o => match o with Some (q, r) => if Nat.eqb q p then f (q, r) else o | None => None end) <$> slot_thread z !! i.
Proof. unfold thread_of. cbn [slot_thread]. apply list_lookup_fmap. Qed.

Lemma slots_ok_thread_of p f z : (forall q r, f (q, r) = None \/ exists r', f (q, r) = Some (q, r')) -> slots_ok z -> slots_ok (thread_of p f z).
Proof.
  intros Hf [Hl Hi Ho Hd Ht Hth]. constructor; try done; [cbn; by rewrite length_map|].
  intros i q r E. rewrite thread_of_at in E. cbn [slot_tab thread_of]. destruct (slot_thread z !! i) as [[[q0 r0]|]|] eqn:E0; cbn in E; try discriminate E.
  destruct (Nat.eqb_spec q0 p); [|injection E as <- <-; by eapply Hth]. destruct (Hf q0 r0) as [En|[r' En]]; rewrite En in E; [discriminate E|].
  injection E as <- <-. by eapply Hth.
Qed.

Lemma slots_ok_start p z : slots_ok z -> slots_ok (thread_start p z).
Proof. apply slots_ok_thread_of. intros q r. right. by exists true. Qed.

Lemma slots_ok_end p z : slots_ok z -> slots_ok (thread_end p z).
Proof. apply slots_ok_thread_of. intros q r. by left. Qed.

Lemma thread_end_none p z i : slots_ok z -> slot_tab z !! i = Some (Some p) -> slot_thread (thread_end p z) !! i = Some None.
Proof.
  intros Hz Hp. unfold thread_end. rewrite thread_of_at. destruct (lookup_lt_is_Some_2 (slot_thread z) i) as [o Ho].
  { rewrite (so_threads z Hz). by eapply lookup_lt_Some. }
  rewrite Ho. cbn. destruct o as [[q r]|]; [|done]. pose proof (so_thread z Hz i q r Ho) as E. rewrite Hp in E. injection E as <-. by rewrite Nat.eqb_refl.
Qed.

(** Only the stack of the context is touched. *)
Lemma thread_of_other p f z i j : slots_ok z -> slot_tab z !! i = Some (Some p) -> j <> i -> slot_thread (thread_of p f z) !! j = slot_thread z !! j.
Proof.
  intros Hz Hp Hj. rewrite thread_of_at. destruct (slot_thread z !! j) as [[[q r]|]|] eqn:E; [|done..]. cbn.
  destruct (Nat.eqb_spec q p) as [->|]; [|done]. pose proof (so_thread z Hz j p r E) as Hq. by destruct (Hj (so_once z Hz j i p Hq Hp)).
Qed.

(** A new context for a device without owner enters a free entry. *)
Lemma slots_ok_add c k z : slots_ok z -> slot_tab z !! k = Some None -> unowned (dev c) z ->
  slots_ok (tab_set k (Some (length (slot_heap z))) (snd (ctx_alloc c z))).
Proof.
  intros [Hl Hi Ho Hd Ht Hth] Hk Hun. set (p := length (slot_heap z)). set (z1 := snd (ctx_alloc c z)). set (z' := tab_set k (Some p) z1).
  assert (Hkl : (k < length (slot_tab z))%nat) by (by eapply lookup_lt_Some).
  assert (Hnew : forall i q, slot_tab z !! i = Some (Some q) -> q <> p).
  { intros i q Hq ->. destruct (Hl i p Hq) as [x Hx]. apply deref_lt in Hx. unfold p in Hx. lia. }
  assert (Htab : forall i, slot_tab z' !! i = if decide (i = k) then Some (Some p) else slot_tab z !! i).
  { intros i. cbn. case_decide; [subst; by rewrite list_lookup_insert_eq|by rewrite list_lookup_insert_ne]. }
  assert (Hder : forall q, deref q z' = if decide (q = p) then Some c else deref q z) by (intros q; exact (deref_alloc c z q)).
  constructor.
  - intros i q. rewrite Htab, Hder. repeat case_decide; intros E; simplify_eq; [by eexists|by eexists|by eapply Hl].
  - intros q x. rewrite Hder. case_decide as Eq; intros E.
    + exists k. rewrite Htab. case_decide; [by subst|done].
    + destruct (Hi q x E) as [i Hq]. exists i. rewrite Htab. case_decide; [subst; congruence|done].
  - intros i j q. rewrite !Htab. repeat case_decide; intros E1 E2; simplify_eq; [done| | |by eapply Ho].
    + by destruct (Hnew _ _ E2).
    + by destruct (Hnew _ _ E1).
  - intros q r x y. rewrite !Hder. repeat case_decide; intros E1 E2 E3; simplify_eq; [done| | |by eapply Hd].
    + by destruct (Hun r y E2).
    + by destruct (Hun q x E1).
  - cbn. by rewrite length_insert.
  - intros i q r E. rewrite Htab. case_decide; [subst; pose proof (Hth k q r E); congruence|by eapply Hth].
Qed.

Lemma tab_clear_at p t i : t !! i = Some (Some p) -> (forall j, t !! j = Some (Some p) -> j = i) -> tab_clear p t = <[i := None]> t.
Proof.
  revert i. induction t as [|o t IH]; intros i Hi Hu; [done|]. cbn [tab_clear]. case_bool_decide as E.
  - subst o. by rewrite <- (Hu O eq_refl).
  - destruct i as [|i]; [cbn in Hi; congruence|]. cbn. f_equal. apply IH; [done|]. intros j Hj. apply (Hu (S j)) in Hj. lia.
Qed.

(** Taking a context out of the table and freeing it, its thread having ended. *)
Lemma slots_ok_remove p c i z : slots_ok z -> deref p z = Some c -> slot_tab z !! i = Some (Some p) -> slot_thread z !! i = Some None ->
  slots_ok (ctx_free p (tab_set i None z)) /\ unowned (dev c) (ctx_free p (tab_set i None z)).
Proof.
  intros [Hl Hi Ho Hd Ht Hth] Hc Htp Hnt. set (z' := ctx_free p (tab_set i None z)).
  assert (Hil : (i < length (slot_tab z))%nat) by (by eapply lookup_lt_Some).
  assert (Htab : forall j, slot_tab z' !! j = if decide (j = i) then Some None else slot_tab z !! j).
  { intros j. cbn. case_decide; [subst; by rewrite list_lookup_insert_eq|by rewrite list_lookup_insert_ne]. }
  assert (Hder : forall q, deref q z' = if decide (q = p) then None else deref q z) by (intros q; exact (deref_free p (tab_set i None z) q)).
  split; [constructor|].
  - intros j q. rewrite Htab, Hder. case_decide; [done|]. intros E. case_decide as Eq; [|by eapply Hl]. subst q. by destruct (Ho j i p E Htp).
  - intros q x. rewrite Hder. case_decide as Eq; [done|]. intros E. destruct (Hi q x E) as [j Hj]. exists j. rewrite Htab. case_decide; [|done]. congruence.
  - intros j k q. rewrite !Htab. repeat case_decide; try done. apply Ho.
  - intros q r x y. rewrite !Hder. repeat case_decide; try done. apply Hd.
  - cbn. by rewrite length_insert.
  - intros j q r E. rewrite Htab. case_decide as Ej; [|by eapply Hth]. subst j. cbn in E. congruence.
  - intros q x. rewrite Hder. case_decide as Eq; [done|]. intros E Edev. by apply Eq, (Hd q p x c).
Qed.

End Slots.
