(* ===== verification/ZephyrUart.v ===== *)
(** * ZephyrUart: serial lines on Zephyr ([src/drivers/usart/usart_zephyr.c])

    Preparing, starting, closing and opening a UART, writing, and reception by
    interrupt or by a polling thread, whichever the build has ([irq]).  The
    answers of the Zephyr calls are arguments.  A result [None] is undefined
    behaviour: the use of a freed context or of the stack of a running thread. *)

From S2P Require Import Prelude State Monad Kiss LinuxSpec Slots.

(** ** Data *)

(** [struct uart_config]; [uc_line]: parity, stop bits, data bits, flow control. *)
Record uart_config := mkUartConfig { uc_baudrate : Z; uc_line : Z }.

(** The device: its configuration, the context its interrupt handler is called
    with, and whether reception interrupts. *)
Record uart_dev := mkUartDev { dev_config : uart_config; dev_callback : option nat; dev_rx : bool }.

(** [usart_context_t]; [us_user] is [rx_callback] with [user_data].  The
    receive buffer [cbuf] is the argument of the thread below. *)
Record usart_context := mkUsart {
  us_name : list Z; us_user : nat; us_fd : nat; us_original : uart_config; us_started : bool; us_stopping : bool
}.

(** The static variables of the driver, and the devices. *)
Record uart := mkUart { u_slots : slots usart_context; u_dev : nat -> uart_dev }.

Definition set_slots (z : slots usart_context) (u : uart) : uart := mkUart z (u_dev u).
Definition dev_put (fd : nat) (f : uart_dev -> uart_dev) (u : uart) : uart :=
  mkUart (u_slots u) (fun d => if Nat.eqb d fd then f (u_dev u d) else u_dev u d).

(** What the calls answer; [a_left]: what a failing [uart_configure] leaves. *)
Record uart_answers := mkAnswers {
  a_ready : bool; a_probe : bool; a_alloc : bool; a_get : bool; a_configure : bool; a_restore : bool; a_callback : bool; a_join : bool; a_left : uart_config
}.

Definition uart_configure (ok : bool) (left : uart_config) (fd : nat) (conf : uart_config) : uart -> uart :=
  dev_put fd (fun d => mkUartDev (if ok then conf else left) (dev_callback d) (dev_rx d)).
Definition uart_irq_rx (on : bool) (fd : nat) : uart -> uart := dev_put fd (fun d => mkUartDev (dev_config d) (dev_callback d) on).
Definition uart_irq_callback (fd : nat) (p : option nat) : uart -> uart := dev_put fd (fun d => mkUartDev (dev_config d) p (dev_rx d)).

Definition us_find (fd : nat) (u : uart) : option (option nat) := find_context us_fd fd (u_slots u).

(** ** The calls *)

Section Calls.
Context (irq : bool).

(** The status and the descriptor; [config], [user] (the callback) and
    [return_fd] may be NULL. *)
Definition csp_usart_prepare (a : uart_answers) (fd : nat) (name : list Z) (config : option uart_config) (user : option nat) (return_fd : bool)
    (u : uart) : option (Z * option nat * uart) :=
  match config, user, return_fd with
  | Some config, Some user, true =>
      if uc_baudrate config =? 0 then Some (CSP_ERR_INVAL, None, u) else
      r ← scan us_fd fd (u_slots u);
      match r with
      | ScanUsed => Some (CSP_ERR_USED, None, u)
      | ScanSlot slot =>
          if Nat.eqb slot (length (slot_tab (u_slots u))) then Some (CSP_ERR_DRIVER, None, u) else
          if negb (a_ready a) then Some (CSP_ERR_DRIVER, None, u) else
          if negb (a_alloc a) then Some (CSP_ERR_NOMEM, None, u) else
          let original := dev_config (u_dev u fd) in
          let '(p, z) := ctx_alloc (mkUsart (take 10 name) user fd original false false) (u_slots u) in
          let u := set_slots z u in
          if negb (a_get a) then Some (CSP_ERR_DRIVER, None, set_slots (ctx_free p z) u) else
          let u := uart_configure (a_configure a) (a_left a) fd config u in
          if negb (a_configure a) then
            let u := uart_configure (a_restore a) (a_left a) fd original u in
            Some (CSP_ERR_DRIVER, None, set_slots (ctx_free p z) u)
          else
          let z := tab_set slot (Some p) z in
          let u := set_slots z u in
          if irq then
            let u := uart_irq_rx false fd u in
            if negb (a_callback a) then
              let u := uart_configure (a_restore a) (a_left a) fd original u in
              Some (CSP_ERR_DRIVER, None, set_slots (ctx_free p (tab_set slot None z)) u)
            else Some (CSP_ERR_NONE, Some fd, uart_irq_callback fd (Some p) u)
          else
            z ← thread_create slot p z;
            Some (CSP_ERR_NONE, Some fd, set_slots z u)
      end
  | _, _, _ => Some (CSP_ERR_INVAL, None, u)
  end.

Definition csp_usart_start (fd : nat) (u : uart) : option (Z * uart) :=
  o ← us_find fd u;
  match o with
  | None => Some (CSP_ERR_INVAL, u)
  | Some p =>
      c ← deref p (u_slots u);
      if us_started c then Some (CSP_ERR_INVAL, u) else
      let z := ctx_put p (mkUsart (us_name c) (us_user c) (us_fd c) (us_original c) true (us_stopping c)) (u_slots u) in
      if irq then Some (CSP_ERR_NONE, uart_irq_rx true fd (set_slots z u))
      else Some (CSP_ERR_NONE, set_slots (thread_start p z) u)
  end.

(** The end of [csp_usart_close], when interrupt or thread are gone. *)
Definition usart_release (a : uart_answers) (fd p : nat) (u : uart) : option (Z * uart) :=
  c ← deref p (u_slots u);
  let u := uart_configure (a_restore a) (a_left a) fd (us_original c) u in
  if negb (a_restore a) then Some (CSP_ERR_DRIVER, u) else
  let z := u_slots u in
  Some (CSP_ERR_NONE, set_slots (ctx_free p (mkSlots (tab_clear p (slot_tab z)) (slot_heap z) (slot_thread z))) u).

Definition csp_usart_close (a : uart_answers) (fd : nat) (u : uart) : option (Z * uart) :=
  o ← us_find fd u;
  match o with
  | None => Some (CSP_ERR_INVAL, u)
  | Some p =>
      c ← deref p (u_slots u);
      if irq then
        let u := uart_irq_rx false fd u in
        if negb (a_callback a) then Some (CSP_ERR_DRIVER, u) else usart_release a fd p (uart_irq_callback fd None u)
      else if us_started c then
        let z := ctx_put p (mkUsart (us_name c) (us_user c) (us_fd c) (us_original c) (us_started c) true) (u_slots u) in
        if negb (a_join a) then Some (CSP_ERR_DRIVER, set_slots z u)
        else usart_release a fd p (set_slots (thread_end p z) u)
      else usart_release a fd p (set_slots (thread_end p (u_slots u)) u)
  end.

(** [csp_usart_open] of Zephyr: [binding] is [device_get_binding], [device] the
    name in the configuration, which may be NULL. *)
Definition zephyr_usart_open (binding : list Z -> option nat) (a : uart_answers) (device : option (list Z)) (rate : Z) (user : option nat) (u : uart)
    : option (Z * option nat * uart) :=
  match device with
  | None => Some (CSP_ERR_INVAL, None, u)
  | Some name =>
      match binding name with
      | None => Some (CSP_ERR_DRIVER, None, u)
      | Some dev =>
          if negb (a_ready a) || negb (a_probe a) then Some (CSP_ERR_DRIVER, None, u) else
          let config := mkUartConfig rate (uc_line (dev_config (u_dev u dev))) in
          '(ret, fd, u) ← csp_usart_prepare a dev name (Some config) user true u;
          match fd with
          | Some fd => if ret =? CSP_ERR_NONE then '(ret, u) ← csp_usart_start fd u; Some (ret, Some fd, u) else Some (ret, Some fd, u)
          | None => Some (ret, None, u)
          end
      end
  end.

End Calls.

(** ** Bytes *)

(** [csp_usart_write]: what goes out, and the result. *)
Definition zephyr_usart_write (data : list Z) : list Z * Z := (fold_left (fun out b => out ++ [b]) data [], zlen data).

(** [csp_usart_zephyr_process_char] with the buffer size of the build: what
    [uart_poll_in] gave, the bytes handed over, and the buffer after it.  [None]
    is a write behind the buffer, which has a byte more than that. *)
Definition csp_usart_zephyr_process_char (size : nat) (polled : option Z) (cbuf : list Z) : option (option (list Z) * list Z) :=
  match polled with
  | None => Some (match cbuf with [] => None | _ => Some cbuf end, [])
  | Some recv_char =>
      if Nat.leb (size + 1) (length cbuf) then None else
      let cbuf := cbuf ++ [recv_char] in
      if Nat.leb size (length cbuf) then Some (Some cbuf, []) else Some (None, cbuf)
  end.

(** [csp_usart_rx_thread] over the polls, with the callback of KISS. *)
Fixpoint zephyr_usart_rx_thread (size iface : nat) (polls : list (option Z)) (cbuf : list Z) : M (list Z) :=
  match polls with
  | [] => mret cbuf
  | x :: polls' =>
      match csp_usart_zephyr_process_char size x cbuf with
      | None => undef
      | Some (out, cbuf') =>
          match out with Some bs => csp_kiss_rx iface bs false | None => mret tt end ;;
          zephyr_usart_rx_thread size iface polls' cbuf'
      end
  end.

(** [csp_usart_rx_isr] over what [uart_fifo_read] returns; a negative result is
    [None]. *)
Fixpoint zephyr_usart_rx_isr (iface : nat) (reads : list (option (list Z))) : M unit :=
  match reads with
  | [] => mret tt
  | r :: reads' =>
      match r with
      | Some (b :: bs) => csp_kiss_rx iface (b :: bs) true
      | _ => mret tt
      end ;;
      zephyr_usart_rx_isr iface reads'
  end.
