(* ===== verification/ZephyrUartSpec.v ===== *)
(** * ZephyrUartSpec: the life of a serial line on Zephyr

    Whatever is called in whatever order and whatever the system answers, the
    driver uses no freed memory and no stack twice, loses no context, gives a
    device one owner at most, and restores its configuration when it is released;
    and the bytes of the line reach KISS in order. *)

From S2P Require Import Prelude State Monad Kiss LinuxSpec Slots ZephyrUart.

(** ** The invariant *)

(** Besides the table: an interrupt handler is called only with a context that
    is there and belongs to the device, and only started contexts have a running
    thread. *)
Record uart_inv (irq : bool) (u : uart) : Prop := {
  ui_slots : slots_ok us_fd (u_slots u);
  ui_callback : forall d p, dev_callback (u_dev u d) = Some p -> exists c, deref p (u_slots u) = Some c /\ us_fd c = d;
  ui_running : forall i p, slot_thread (u_slots u) !! i = Some (Some (p, true)) -> exists c, deref p (u_slots u) = Some c /\ us_started c = true;
  ui_polling : irq = false -> forall d, dev_callback (u_dev u d) = None;
  ui_interrupt : irq = true -> forall i t, slot_thread (u_slots u) !! i <> Some (Some t)
}.

Definition owned (d p : nat) (c : usart_context) (u : uart) : Prop := deref p (u_slots u) = Some c /\ us_fd c = d.

(** A device is released: no context has it, its configuration is the one it had
    when it was prepared, and it does not interrupt any more. *)
Definition released (irq : bool) (d : nat) (c : usart_context) (u : uart) : Prop :=
  unowned us_fd d (u_slots u) /\ dev_config (u_dev u d) = us_original c /\
  (irq = true -> dev_callback (u_dev u d) = None /\ dev_rx (u_dev u d) = false).

(** What a call may do to the owner of a device. *)
Definition keeps_owner (irq : bool) (u u' : uart) : Prop := forall d p c, owned d p c u ->
  (exists c', owned d p c' u' /\ us_original c' = us_original c) \/ released irq d c u'.

Definition uart_start (n : nat) (devs : nat -> uart_dev) : uart := mkUart (slots_empty n) devs.

Lemma uart_start_inv irq n devs : (forall d, dev_callback (devs d) = None) -> uart_inv irq (uart_start n devs).
Proof.
  intros Hd. constructor; cbn.
  - apply slots_empty_ok.
  - intros d p E. congruence.
  - intros i p E. by apply lookup_replicate in E as [E _].
  - done.
  - intros _ i t E. by apply lookup_replicate in E as [E _].
Qed.

Lemma keeps_owner_refl irq u : keeps_owner irq u u.
Proof. intros d p c Ho. left. by exists c. Qed.

(** Contexts that are all still there keep their owners. *)
Lemma keeps_owner_deref irq u u' : (forall p c, deref p (u_slots u) = Some c ->
    exists c', deref p (u_slots u') = Some c' /\ us_fd c' = us_fd c /\ us_original c' = us_original c) -> keeps_owner irq u u'.
Proof. intros H d p c [Hp <-]. left. destruct (H p c Hp) as (c' & Hp' & E1 & E2). by exists c'. Qed.

(** All contexts are there, with their devices and what they must restore. *)
Definition same_owners (u u' : uart) : Prop := forall p c, deref p (u_slots u) = Some c ->
  exists c', deref p (u_slots u') = Some c' /\ us_fd c' = us_fd c /\ us_original c' = us_original c.

Lemma keeps_owner_after irq u u1 u' : same_owners u u1 -> keeps_owner irq u1 u' -> keeps_owner irq u u'.
Proof.
  intros H1 H2 d p c [Hp <-]. destruct (H1 p c Hp) as (c1 & Hp1 & E1 & E2). destruct (H2 (us_fd c) p c1 (conj Hp1 E1)) as [(c' & Ho & Eo)|(Hun & Ec & Hi)].
  - left. exists c'. split; [done|congruence].
  - right. split; [done|]. split; [congruence|done].
Qed.

(** Changing devices other than by setting a handler. *)
Lemma uart_inv_same irq u u' : u_slots u' = u_slots u ->
  (forall d, dev_callback (u_dev u' d) = dev_callback (u_dev u d) \/ dev_callback (u_dev u' d) = None) -> uart_inv irq u -> uart_inv irq u'.
Proof.
  intros Es Hf [Hs Hc Hr Hp Hint]. constructor; rewrite ?Es; [done| |done| |done].
  - intros d p. destruct (Hf d) as [-> | ->]; [apply Hc|done].
  - intros E d. destruct (Hf d) as [-> | ->]; [by apply Hp|done].
Qed.

Ltac same_handler := let d := fresh in intros d; cbn; repeat destruct (Nat.eqb d _); auto.

(** A new table with at least the old contexts. *)
Lemma uart_inv_slots irq z u : uart_inv irq u -> slots_ok us_fd z ->
  (forall p c, deref p (u_slots u) = Some c -> exists c', deref p z = Some c' /\ us_fd c' = us_fd c /\ (us_started c = true -> us_started c' = true)) ->
  (forall i p, slot_thread z !! i = Some (Some (p, true)) -> slot_thread (u_slots u) !! i = Some (Some (p, true)) \/
     exists c, deref p z = Some c /\ us_started c = true) ->
  (forall i t, slot_thread z !! i = Some (Some t) -> irq = true -> exists t', slot_thread (u_slots u) !! i = Some (Some t')) -> uart_inv irq (set_slots z u).
Proof.
  intros [Hs Hc Hr Hpo Hint] Hz Hd Ht Hth. constructor; cbn [u_slots u_dev set_slots]; [done| | |done|].
  - intros d p E. destruct (Hc d p E) as (c & Hp & <-). destruct (Hd p c Hp) as (c' & Hp' & E' & _). by exists c'.
  - intros i p E. destruct (Ht i p E) as [E0|Hex]; [|done]. destruct (Hr i p E0) as (c & Hp & Hst). destruct (Hd p c Hp) as (c' & Hp' & _ & Hst').
    exists c'. auto.
  - intros E i t Hi. destruct (Hth i t Hi E) as [t' Hi']. by apply (Hint E i t').
Qed.

(** ** Preparing *)

(** What [csp_usart_prepare] leaves: a new owner for a device that had none, with
    its configuration remembered, or an error, and then the device has the
    configuration it had if it could be restored. *)
Definition prepared (irq : bool) (a : uart_answers) (fd : nat) (u : uart) (r : Z) (o : option nat) (u' : uart) : Prop :=
  uart_inv irq u' /\ same_owners u u' /\
  match o with
  | Some d => r = CSP_ERR_NONE /\ d = fd /\ unowned us_fd fd (u_slots u) /\
      exists p c, owned fd p c u' /\ us_original c = dev_config (u_dev u fd) /\ us_started c = false
  | None => r <> CSP_ERR_NONE /\ (a_restore a = true -> dev_config (u_dev u' fd) = dev_config (u_dev u fd))
  end.

(** An error with the contexts as they were. *)
Lemma prepared_error irq a fd u r u' : uart_inv irq u -> r <> CSP_ERR_NONE -> slot_tab (u_slots u') = slot_tab (u_slots u) ->
  slot_thread (u_slots u') = slot_thread (u_slots u) -> (forall q, deref q (u_slots u') = deref q (u_slots u)) ->
  (forall d, dev_callback (u_dev u' d) = dev_callback (u_dev u d)) ->
  (a_restore a = true -> dev_config (u_dev u' fd) = dev_config (u_dev u fd)) -> prepared irq a fd u r None u'.
Proof.
  intros Hu Hr E1 E2 E3 E4 Hc. split; [|split; [|done]].
  - apply (uart_inv_same _ (set_slots (u_slots u') u)); [done|by left; apply E4|]. apply uart_inv_slots; [done| | | |].
    + by apply (slots_ok_ext us_fd (u_slots u)); [..|apply Hu].
    + intros q x Hq. exists x. by rewrite E3.
    + intros i q. rewrite E2. by left.
    + intros i t. rewrite E2. intros Hi _. by exists t.
  - intros q x Hq. exists x. by rewrite E3.
Qed.

(** The new context [c] in entry [slot], with the handler or the thread [z]. *)
Lemma prepared_new irq a fd u c slot z u' : uart_inv irq u -> unowned us_fd fd (u_slots u) -> slot_tab (u_slots u) !! slot = Some None ->
  us_fd c = fd -> us_original c = dev_config (u_dev u fd) -> us_started c = false ->
  slots_ok us_fd z -> (forall q, deref q z = deref q (snd (ctx_alloc c (u_slots u)))) ->
  (forall i q, slot_thread z !! i = Some (Some (q, true)) -> slot_thread (u_slots u) !! i = Some (Some (q, true))) ->
  (irq = true -> slot_thread z = slot_thread (u_slots u)) -> u_slots u' = z ->
  (forall d, dev_callback (u_dev u' d) = dev_callback (u_dev u d) \/ irq = true /\ d = fd /\ dev_callback (u_dev u' d) = Some (length (slot_heap (u_slots u)))) ->
  prepared irq a fd u CSP_ERR_NONE (Some fd) u'.
Proof.
  intros Hu Hun Hslot Ef Eo Es Hz Hd Ht Hint <- Hcb. set (p := length (slot_heap (u_slots u))) in *.
  assert (Hp : deref p (u_slots u') = Some c) by (rewrite Hd, deref_alloc; by case_decide).
  assert (Hold : forall q x, deref q (u_slots u) = Some x -> deref q (u_slots u') = Some x).
  { intros q x Hq. rewrite Hd, deref_alloc. case_decide as E; [|done]. apply deref_lt in Hq. unfold p in E. lia. }
  split; [constructor; [done| | | |]|split; [|split; [done|]; split; [done|]; split; [done|]]].
  - intros d q Hq. destruct (Hcb d) as [E|(_ & -> & E)]; rewrite E in Hq; [|injection Hq as <-; by exists c].
    destruct (ui_callback _ u Hu d q Hq) as (x & Hx & Ex). exists x. auto.
  - intros i q Hi. destruct (ui_running _ u Hu i q (Ht i q Hi)) as (x & Hx & Ex). exists x. auto.
  - intros Ei d. destruct (Hcb d) as [E|(E & _)]; [rewrite E; by apply (ui_polling _ u Hu)|congruence].
  - intros Ei i t. rewrite (Hint Ei). by apply (ui_interrupt _ u Hu).
  - intros q x Hq. exists x. auto.
  - exists p, c. split; [by split|done].
Qed.

Lemma prepare_spec irq a fd name config user rfd u : uart_inv irq u ->
  exists r o u', csp_usart_prepare irq a fd name config user rfd u = Some (r, o, u') /\ prepared irq a fd u r o u'.
Proof.
  intros Hu. assert (Hsame : forall e, e <> CSP_ERR_NONE -> exists r o u', Some (e, None, u) = Some (r, o, u') /\ prepared irq a fd u r o u').
  { intros e He. exists e, None, u. split; [done|]. by apply prepared_error. }
  unfold csp_usart_prepare. destruct config as [config|]; [|by apply Hsame]. destruct user as [user|]; [|by apply Hsame].
  destruct rfd; [|by apply Hsame]. destruct (uc_baudrate config =? 0); [by apply Hsame|].
  destruct (scan_spec us_fd fd (u_slots u) (ui_slots _ u Hu)) as (r & -> & Hr). cbn [mbind option_bind]. destruct r as [|slot]; [by apply Hsame|].
  destruct Hr as [Hun Hslot]. destruct (Nat.eqb_spec slot (length (slot_tab (u_slots u)))); [by apply Hsame|]. destruct Hslot as [|Hslot]; [done|].
  destruct (negb (a_ready a)); [by apply Hsame|]. destruct (negb (a_alloc a)); [by apply Hsame|].
  set (c := mkUsart _ _ _ _ _ _). set (p := length (slot_heap (u_slots u))). unfold ctx_alloc. set (z1 := mkSlots _ (_ ++ _) _). fold p.
  assert (Hd1 : forall q, deref q (ctx_free p z1) = deref q (u_slots u)) by (intros q; exact (deref_alloc_free c (u_slots u) q)).
  destruct (negb (a_get a)); [eexists _, None, _; split; [reflexivity|]; by apply prepared_error|].
  destruct (a_configure a); cbn [negb].
  2:{ eexists _, None, _. split; [reflexivity|]. apply prepared_error; try done; [same_handler|]. intros ->. cbn. by rewrite Nat.eqb_refl. }
  set (z2 := tab_set slot (Some p) z1). assert (Hz2 : slots_ok us_fd z2) by exact (slots_ok_add us_fd c slot (u_slots u) (ui_slots _ u Hu) Hslot Hun).
  destruct irq; [destruct (negb (a_callback a))|].
  - eexists _, None, _. split; [reflexivity|]. apply prepared_error; try done; [|same_handler|].
    + cbn. by rewrite list_insert_insert_eq, list_insert_id.
    + intros ->. cbn. by rewrite Nat.eqb_refl.
  - eexists _, (Some fd), _. split; [reflexivity|]. apply (prepared_new true a fd u c slot z2); try done.
    intros d. cbn. destruct (Nat.eqb_spec d fd); auto.
  - assert (Hth : slot_thread z2 !! slot = Some None).
    { destruct (lookup_lt_is_Some_2 (slot_thread (u_slots u)) slot) as [o Ho]; [rewrite (so_threads us_fd _ (ui_slots _ u Hu)); by eapply lookup_lt_Some|].
      change (slot_thread (u_slots u) !! slot = Some None). rewrite Ho. destruct o as [[q r]|]; [|done].
      pose proof (so_thread us_fd _ (ui_slots _ u Hu) slot q r Ho). congruence. }
    assert (Hsl : slot_tab z2 !! slot = Some (Some p)) by (cbn; rewrite list_lookup_insert_eq; [done|by eapply lookup_lt_Some]).
    unfold thread_create. rewrite Hth. cbn [mbind option_bind]. eexists _, (Some fd), _. split; [reflexivity|].
    apply (prepared_new false a fd u c slot (thread_set slot (Some (p, false)) z2)); try done; [by apply slots_ok_create| |same_handler].
    intros i q E. cbn in E. apply list_lookup_insert_Some in E as [(_ & [=] & _)|[_ E]]. exact E.
Qed.

(** ** Starting and closing *)

Lemma us_find_spec irq fd u : uart_inv irq u -> exists o, us_find fd u = Some o /\
  match o with Some p => exists c, owned fd p c u | None => unowned us_fd fd (u_slots u) end.
Proof. intros Hu. exact (find_context_spec us_fd fd (u_slots u) (ui_slots _ u Hu)). Qed.

(** A context that changes keeps its device and what it must restore. *)
Lemma uart_inv_put irq p c c' u z : uart_inv irq u -> deref p (u_slots u) = Some c -> us_fd c' = us_fd c -> (us_started c = true -> us_started c' = true) ->
  slots_ok us_fd z -> (forall q, deref q z = deref q (ctx_put p c' (u_slots u))) ->
  (forall i q, slot_thread z !! i = Some (Some (q, true)) -> slot_thread (u_slots u) !! i = Some (Some (q, true)) \/ q = p /\ us_started c' = true) ->
  (irq = true -> slot_thread z = slot_thread (u_slots u)) -> uart_inv irq (set_slots z u).
Proof.
  intros Hu Hp Ef Es Hz Hd Ht Hint. pose proof (deref_lt p _ c Hp) as Hlt.
  assert (Hp' : deref p z = Some c') by (rewrite Hd, deref_put by done; by case_decide).
  apply uart_inv_slots; [done|done| | |intros i t Hi E; rewrite (Hint E) in Hi; by exists t].
  - intros q x Hq. rewrite Hd, deref_put by done. case_decide as E; [subst q|by exists x]. exists c'. rewrite Hp in Hq. by injection Hq as <-.
  - intros i q E. destruct (Ht i q E) as [E'|[-> E']]; [by left|right]. by exists c'.
Qed.

Lemma keeps_owner_put irq p c c' u u' : deref p (u_slots u) = Some c -> us_fd c' = us_fd c -> us_original c' = us_original c ->
  (forall q, deref q (u_slots u') = deref q (ctx_put p c' (u_slots u))) -> keeps_owner irq u u'.
Proof.
  intros Hp Ef Eo Hd. apply keeps_owner_deref. intros q x Hq. rewrite Hd, deref_put by (by eapply deref_lt).
  case_decide as E; [subst q; exists c'; rewrite Hp in Hq; by injection Hq as <-|by exists x].
Qed.

Lemma start_spec irq fd u : uart_inv irq u -> exists r u', csp_usart_start irq fd u = Some (r, u') /\ uart_inv irq u' /\ keeps_owner irq u u' /\
  (r = CSP_ERR_NONE \/ u' = u) /\ (forall p c, owned fd p c u -> us_started c = false -> r = CSP_ERR_NONE).
Proof.
  intros Hu. unfold csp_usart_start. destruct (us_find_spec irq fd u Hu) as (o & -> & Ho). cbn [mbind option_bind]. destruct o as [p|].
  2:{ eexists _, u. split; [reflexivity|]. split; [done|]. split; [apply keeps_owner_refl|]. split; [by right|]. intros p c [Hp E]. by destruct (Ho p c Hp). }
  destruct Ho as (c & Hp & Ef). rewrite Hp. cbn [mbind option_bind].
  assert (Hone : forall p' c', owned fd p' c' u -> c' = c).
  { intros p' c' [Hp' Ef']. pose proof (so_dev us_fd _ (ui_slots _ u Hu) p' p c' c Hp' Hp ltac:(congruence)). congruence. }
  destruct (us_started c) eqn:Es.
  { eexists _, u. split; [reflexivity|]. split; [done|]. split; [apply keeps_owner_refl|]. split; [by right|]. intros p' c' Hc' Hst. rewrite (Hone p' c' Hc') in Hst. congruence. }
  set (c' := mkUsart _ _ _ _ _ _). assert (Hz : slots_ok us_fd (ctx_put p c' (u_slots u))) by (by apply (slots_ok_put us_fd p c); [apply Hu|..]).
  destruct irq; eexists _, _; (split; [reflexivity|]); (split; [|split; [by apply (keeps_owner_put _ p c c')|auto]]).
  - apply (uart_inv_same _ (set_slots (ctx_put p c' (u_slots u)) u)); [done|same_handler|]. apply (uart_inv_put _ p c c'); try done. by left.
  - apply (uart_inv_put _ p c c'); try done; [by apply slots_ok_start|].
    intros i q. unfold thread_start. rewrite thread_of_at. cbn. destruct (slot_thread (u_slots u) !! i) as [[[q0 r0]|]|]; cbn; [|discriminate..].
    destruct (Nat.eqb_spec q0 p); [intros [= <-]; auto|]. intros [= <- ->]. by left.
Qed.

(** The end of closing, when no handler and no thread use the context. *)
Lemma release_spec irq a fd p c u : uart_inv irq u -> owned fd p c u -> dev_callback (u_dev u fd) = None -> (irq = true -> dev_rx (u_dev u fd) = false) ->
  (forall i, slot_tab (u_slots u) !! i = Some (Some p) -> slot_thread (u_slots u) !! i = Some None) ->
  exists r u', usart_release a fd p u = Some (r, u') /\ uart_inv irq u' /\ keeps_owner irq u u' /\ (r = CSP_ERR_NONE -> released irq fd c u').
Proof.
  intros Hu [Hp Ef] Hcb Hrx Hth. unfold usart_release. rewrite Hp. cbn [mbind option_bind]. destruct (a_restore a); cbn [negb].
  2:{ eexists _, _. split; [reflexivity|]. split; [by apply (uart_inv_same _ u); [|same_handler|]|]. split; [|done]. apply keeps_owner_deref. intros q x Hq. by exists x. }
  destruct (so_listed us_fd _ (ui_slots _ u Hu) p c Hp) as [i Hi].
  assert (Et : tab_clear p (slot_tab (u_slots u)) = <[i := None]> (slot_tab (u_slots u))).
  { apply tab_clear_at; [done|]. intros j Hj. exact (so_once us_fd _ (ui_slots _ u Hu) j i p Hj Hi). }
  destruct (slots_ok_remove us_fd p c i (u_slots u) (ui_slots _ u Hu) Hp Hi (Hth i Hi)) as [Hz Hun]. rewrite Ef in Hun.
  set (z' := ctx_free p (tab_set i None (u_slots u))) in *.
  assert (Hrel : forall d, released irq fd c (mkUart z' d) <-> dev_config (d fd) = us_original c /\ (irq = true -> dev_callback (d fd) = None /\ dev_rx (d fd) = false))
    by (intros d; unfold released; cbn; tauto).
  assert (Hold : forall q x, deref q (u_slots u) = Some x -> q <> p -> deref q z' = Some x).
  { intros q x Hq Hne. unfold z'. rewrite deref_free. by case_decide. }
  eexists _, (mkUart z' _). split; [cbn; rewrite Et; reflexivity|].
  assert (Hdone : released irq fd c (mkUart z' (fun d => if Nat.eqb d fd then mkUartDev (us_original c) (dev_callback (u_dev u d)) (dev_rx (u_dev u d)) else u_dev u d))).
  { apply Hrel. rewrite Nat.eqb_refl. cbn. auto. }
  split; [constructor; cbn [u_slots u_dev]; [done| | | |exact (ui_interrupt _ u Hu)]|split; [|done]].
  - intros d q Hq. assert (Hq' : dev_callback (u_dev u d) = Some q) by (revert Hq; cbn; by destruct (Nat.eqb d fd)).
    destruct (ui_callback _ u Hu d q Hq') as (x & Hx & Ex). exists x. split; [|done]. apply Hold; [done|]. intros ->. congruence.
  - intros j q Hj. cbn in Hj. destruct (ui_running _ u Hu j q Hj) as (x & Hx & Ex). exists x. split; [|done]. apply Hold; [done|]. intros ->.
    pose proof (so_thread us_fd _ (ui_slots _ u Hu) j p true Hj) as Hj'. rewrite (Hth j Hj') in Hj. discriminate Hj.
  - intros Ei d. cbn. pose proof (ui_polling _ u Hu Ei d). by destruct (Nat.eqb d fd).
  - intros d q x [Hq Eq]. destruct (decide (q = p)) as [->|Hne].
    + right. assert (x = c) as -> by congruence. assert (d = fd) as -> by congruence. exact Hdone.
    + left. exists x. split; [|done]. split; [by apply Hold|done].
Qed.

(** What [csp_usart_close] leaves. *)
Definition closed (irq : bool) (a : uart_answers) (fd : nat) (u : uart) (r : Z) (u' : uart) : Prop :=
  uart_inv irq u' /\ keeps_owner irq u u' /\ (r = CSP_ERR_NONE -> exists p c, owned fd p c u /\ released irq fd c u') /\
  (forall p c, owned fd p c u -> a_callback a = true -> a_join a = true -> a_restore a = true -> r = CSP_ERR_NONE).

(** Releasing after handler or thread have been taken away. *)
Lemma close_release irq a fd p c c1 u u1 : owned fd p c u -> uart_inv irq u1 -> same_owners u u1 -> deref p (u_slots u1) = Some c1 ->
  us_fd c1 = us_fd c -> us_original c1 = us_original c -> dev_callback (u_dev u1 fd) = None -> (irq = true -> dev_rx (u_dev u1 fd) = false) ->
  (forall i, slot_tab (u_slots u1) !! i = Some (Some p) -> slot_thread (u_slots u1) !! i = Some None) ->
  exists r u', usart_release a fd p u1 = Some (r, u') /\ closed irq a fd u r u'.
Proof.
  intros Ho Hu1 Hk1 Hp1 Ef Eo Hcb Hrx Hth. destruct (release_spec irq a fd p c1 u1 Hu1) as (r & u' & Er & Hu' & Hk' & Hd'); [|done..|].
  { split; [done|]. destruct Ho. congruence. }
  exists r, u'. split; [done|]. split; [done|]. split; [by eapply keeps_owner_after|]. split.
  - intros E. exists p, c. split; [done|]. destruct (Hd' E) as (H1 & H2 & H3). split; [done|]. split; [congruence|done].
  - intros q x _ _ _ Ha. revert Er. unfold usart_release. rewrite Hp1, Ha. cbn. by intros [= <- _].
Qed.

Lemma close_spec irq a fd u : uart_inv irq u -> exists r u', csp_usart_close irq a fd u = Some (r, u') /\ closed irq a fd u r u'.
Proof.
  intros Hu. unfold csp_usart_close. destruct (us_find_spec irq fd u Hu) as (o & -> & Ho). cbn [mbind option_bind]. destruct o as [p|].
  2:{ eexists _, u. split; [reflexivity|]. split; [done|]. split; [apply keeps_owner_refl|]. split; [done|]. intros p c [Hp E]. by destruct (Ho p c Hp). }
  destruct Ho as (c & Ho). pose proof Ho as [Hp Ef]. rewrite Hp. cbn [mbind option_bind].
  assert (Hid : forall u1, u_slots u1 = u_slots u -> same_owners u u1) by (intros u1 E q x Hq; exists x; by rewrite E).
  assert (Hend : forall z, slots_ok us_fd z -> slot_tab z = slot_tab (u_slots u) -> forall i, slot_tab (thread_end p z) !! i = Some (Some p) ->
    slot_thread (thread_end p z) !! i = Some None) by (intros z Hz E i Hi; by apply (thread_end_none us_fd)).
  assert (Hstop : forall (z : slots usart_context) i q, slot_thread (thread_end p z) !! i = Some (Some (q, true)) -> slot_thread z !! i = Some (Some (q, true))).
  { intros z i q. unfold thread_end. rewrite thread_of_at. destruct (slot_thread z !! i) as [[[q0 r0]|]|]; cbn; [|discriminate..]. by destruct (Nat.eqb q0 p). }
  destruct irq.
  - destruct (a_callback a) eqn:Ea; cbn [negb].
    + eapply (close_release true a fd p c c u); [done| |by apply Hid|done..|cbn; by rewrite Nat.eqb_refl|cbn; by rewrite Nat.eqb_refl|].
      * apply (uart_inv_same true u); [done|same_handler|done].
      * cbn. intros i Hi. destruct (lookup_lt_is_Some_2 (slot_thread (u_slots u)) i) as [[t|] Ht]; [|by destruct (ui_interrupt _ u Hu eq_refl i t)|done].
        rewrite (so_threads us_fd _ (ui_slots _ u Hu)). by eapply lookup_lt_Some.
    + eexists _, _. split; [reflexivity|]. split; [by apply (uart_inv_same true u); [|same_handler|]|]. split; [|split; [done|congruence]].
      eapply keeps_owner_after; [|apply keeps_owner_refl]. by apply Hid.
  - pose proof (ui_polling _ u Hu eq_refl fd) as Hcb. destruct (us_started c) eqn:Es.
    + set (c' := mkUsart _ _ _ _ _ _). assert (Hz : slots_ok us_fd (ctx_put p c' (u_slots u))) by (by apply (slots_ok_put us_fd p c); [apply Hu|..]).
      assert (Hk : forall u1, (forall q, deref q (u_slots u1) = deref q (ctx_put p c' (u_slots u))) -> same_owners u u1).
      { intros u1 Hd q x Hq. rewrite Hd, deref_put by (by eapply deref_lt). case_decide as E; [subst q; exists c'; rewrite Hp in Hq; by injection Hq as <-|by exists x]. }
      destruct (negb (a_join a)) eqn:Ej.
      * eexists _, _. split; [reflexivity|]. split; [apply (uart_inv_put _ p c c'); try done; by left|]. split; [|split; [done|]].
        -- eapply keeps_owner_after; [|apply keeps_owner_refl]. by apply Hk.
        -- intros q x _ _ E. rewrite E in Ej. discriminate Ej.
      * eapply (close_release false a fd p c c' u); [done| |by apply Hk|cbn; change (deref p (ctx_put p c' (u_slots u)) = Some c'); rewrite deref_put by (by eapply deref_lt); by case_decide|done..|].
        -- apply (uart_inv_put _ p c c'); try done; [by apply slots_ok_end|]. intros i q Hi. left. exact (Hstop _ i q Hi).
        -- by apply Hend.
    + eapply (close_release false a fd p c c u); [done| |intros q x Hq; by exists x|done..|].
      * apply (uart_inv_put _ p c c); try done; [by apply slots_ok_end, Hu| |]; [|intros i q Hi; left; exact (Hstop _ i q Hi)].
        intros q. rewrite deref_put by (by eapply deref_lt). case_decide as E; [by subst q|done].
      * apply Hend; [apply Hu|done].
Qed.

(** ** Every sequence of calls *)

Inductive uart_op :=
| UPrepare (a : uart_answers) (fd : nat) (name : list Z) (config : option uart_config) (user : option nat) (return_fd : bool)
| UStart (fd : nat)
| UClose (a : uart_answers) (fd : nat)
| UOpen (a : uart_answers) (binding : list Z -> option nat) (device : option (list Z)) (rate : Z) (user : option nat).

Definition run_uart (irq : bool) (o : uart_op) (u : uart) : option (Z * uart) :=
  match o with
  | UPrepare a fd name config user rfd => '(r, _, u') ← csp_usart_prepare irq a fd name config user rfd u; Some (r, u')
  | UStart fd => csp_usart_start irq fd u
  | UClose a fd => csp_usart_close irq a fd u
  | UOpen a binding device rate user => '(r, _, u') ← zephyr_usart_open irq binding a device rate user u; Some (r, u')
  end.

Fixpoint run_uarts (irq : bool) (ops : list uart_op) (u : uart) : option uart :=
  match ops with
  | [] => Some u
  | o :: ops' => '(_, u') ← run_uart irq o u; run_uarts irq ops' u'
  end.

(** Opening is preparing and starting. *)
Lemma open_spec irq binding a device rate user u : uart_inv irq u ->
  exists r o u', zephyr_usart_open irq binding a device rate user u = Some (r, o, u') /\ uart_inv irq u' /\ keeps_owner irq u u' /\
    (r = CSP_ERR_NONE <-> is_Some o).
Proof.
  intros Hu. assert (Hsame : forall e, e <> CSP_ERR_NONE -> exists r o u', Some (e, @None nat, u) = Some (r, o, u') /\ uart_inv irq u' /\
    keeps_owner irq u u' /\ (r = CSP_ERR_NONE <-> is_Some o)).
  { intros e He. exists e, None, u. split; [done|]. split; [done|]. split; [apply keeps_owner_refl|]. split; [done|by intros []]. }
  unfold zephyr_usart_open. destruct device as [name|]; [|by apply Hsame]. destruct (binding name) as [dev|]; [|by apply Hsame].
  destruct (negb (a_ready a) || _); [by apply Hsame|].
  destruct (prepare_spec irq a dev name (Some (mkUartConfig rate (uc_line (dev_config (u_dev u dev))))) user true u Hu) as (r & o & u1 & -> & Hu1 & Hk1 & Ho).
  cbn [mbind option_bind]. destruct o as [d|].
  2:{ eexists _, None, u1. split; [reflexivity|]. split; [done|]. split; [by apply keeps_owner_deref|]. split; [by destruct Ho|by intros []]. }
  destruct Ho as (-> & -> & Hun & p & c & Hc & _ & Hst). cbn [Z.eqb CSP_ERR_NONE].
  destruct (start_spec irq dev u1 Hu1) as (r & u2 & -> & Hu2 & Hk2 & _ & Hok). cbn [mbind option_bind].
  eexists _, (Some dev), u2. split; [reflexivity|]. split; [done|]. split; [by eapply keeps_owner_after|by rewrite (Hok p c Hc Hst)].
Qed.

Lemma run_uart_spec irq o u : uart_inv irq u -> exists r u', run_uart irq o u = Some (r, u') /\ uart_inv irq u' /\ keeps_owner irq u u'.
Proof.
  intros Hu. destruct o; cbn [run_uart].
  - destruct (prepare_spec irq a fd name config user return_fd u Hu) as (r & o & u' & -> & Hu' & Hk & _). exists r, u'. split; [done|]. split; [done|].
    by apply keeps_owner_deref.
  - destruct (start_spec irq fd u Hu) as (r & u' & -> & Hu' & Hk & _). by exists r, u'.
  - destruct (close_spec irq a fd u Hu) as (r & u' & -> & Hu' & Hk & _). by exists r, u'.
  - destruct (open_spec irq binding a device rate user u Hu) as (r & o & u' & -> & Hu' & Hk & _). by exists r, u'.
Qed.

Lemma run_uarts_inv irq ops u : uart_inv irq u -> exists u', run_uarts irq ops u = Some u' /\ uart_inv irq u'.
Proof.
  revert u. induction ops as [|o ops IH]; intros u Hu; [by exists u|]. cbn [run_uarts].
  destruct (run_uart_spec irq o u Hu) as (r & u1 & -> & Hu1 & _). cbn. by apply IH.
Qed.

(** C25. The life of a serial line on Zephyr, with interrupts or with polling
    threads: from the start of the driver, every sequence of [csp_usart_prepare],
    [csp_usart_start], [csp_usart_close] and [csp_usart_open], whatever the system
    answers, uses no freed context and never starts a thread on the stack of
    another.  In every state it reaches, the contexts in memory are exactly those
    in the table (none is lost), a device has at most one, an interrupt handler
    and a running thread work only on a context that is there; and the next call
    leaves every owned device its owner, or releases it with the configuration it
    had when it was prepared and without handler.  A successful
    [csp_usart_prepare] remembers the configuration of a device that had no
    owner, and [csp_usart_close] succeeds when the system calls do. *)
Theorem uart_lifecycle irq n devs ops : (forall d, dev_callback (devs d) = None) ->
  exists u, run_uarts irq ops (uart_start n devs) = Some u /\ uart_inv irq u /\
    (forall o, exists r u', run_uart irq o u = Some (r, u') /\ uart_inv irq u' /\ keeps_owner irq u u') /\
    (forall a fd name config user, exists r o u', csp_usart_prepare irq a fd name config user true u = Some (r, o, u') /\ prepared irq a fd u r o u') /\
    (forall a fd, exists r u', csp_usart_close irq a fd u = Some (r, u') /\ closed irq a fd u r u').
Proof.
  intros Hd. destruct (run_uarts_inv irq ops (uart_start n devs) (uart_start_inv irq n devs Hd)) as (u & Hr & Hu). exists u.
  split; [done|]. split; [done|]. split; [intros o; by apply run_uart_spec|]. split; [|intros a fd; by apply close_spec].
  intros a fd name config user. by apply prepare_spec.
Qed.

(** Two slots; device 3 is opened, opened again, and closed. *)
Definition good_answers : uart_answers := mkAnswers true true true true true true true true (mkUartConfig 0 0).

Lemma uart_lifecycle_witness : exists u, run_uarts false [UOpen good_answers (fun _ => Some 3%nat) (Some [117]) 115200 (Some 1%nat);
    UPrepare good_answers 3 [117] (Some (mkUartConfig 9600 0)) (Some 2%nat) true; UClose good_answers 3]
    (uart_start 2 (fun _ => mkUartDev (mkUartConfig 57600 8) None false)) = Some u /\ uart_inv false u /\ dev_config (u_dev u 3%nat) = mkUartConfig 57600 8.
Proof.
  destruct (uart_lifecycle false 2 (fun _ => mkUartDev (mkUartConfig 57600 8) None false) [UOpen good_answers (fun _ => Some 3%nat) (Some [117]) 115200 (Some 1%nat);
    UPrepare good_answers 3 [117] (Some (mkUartConfig 9600 0)) (Some 2%nat) true; UClose good_answers 3]) as (u & Hr & Hu & _).
  - reflexivity.
  - exists u. split; [exact Hr|]. split; [exact Hu|]. vm_compute in Hr. injection Hr as <-. reflexivity.
Defined.

(** Where closing goes wrong: when the handler of a started device cannot be
    taken away, the device has been silenced and cannot be started again. *)
Lemma close_failure_deaf : exists u u', run_uarts true [UOpen good_answers (fun _ => Some 3%nat) (Some [117]) 115200 (Some 1%nat)]
    (uart_start 1 (fun _ => mkUartDev (mkUartConfig 57600 8) None false)) = Some u /\ dev_rx (u_dev u 3%nat) = true /\
  csp_usart_close true (mkAnswers true true true true true true false true (mkUartConfig 0 0)) 3 u = Some (CSP_ERR_DRIVER, u') /\
  dev_rx (u_dev u' 3%nat) = false /\ csp_usart_start true 3 u' = Some (CSP_ERR_INVAL, u').
Proof. eexists _, _. split; [vm_compute; reflexivity|]. split; [reflexivity|]. split; [vm_compute; reflexivity|]. by vm_compute. Qed.

(** ** Bytes *)

Lemma zephyr_usart_write_all data : zephyr_usart_write data = (data, zlen data).
Proof.
  unfold zephyr_usart_write. f_equal. assert (H : forall out, fold_left (fun out b => out ++ [b]) data out = out ++ data); [|exact (H [])].
  induction data as [|b data IH]; intros out; cbn; [by rewrite app_nil_r|]. by rewrite IH, <- app_assoc.
Qed.

(** A poll: the buffer never overflows, and nothing is lost. *)
Lemma process_char_spec size x cbuf : (length cbuf < size)%nat -> exists out cbuf', csp_usart_zephyr_process_char size x cbuf = Some (out, cbuf') /\
  default [] out ++ cbuf' = cbuf ++ match x with Some b => [b] | None => [] end /\ (length cbuf' < size)%nat /\ (x = None -> cbuf' = []) /\
  (forall bs, out = Some bs -> (0 < length bs <= size)%nat).
Proof.
  intros Hl. destruct x as [b|]; cbn.
  - rewrite (proj2 (Nat.leb_gt _ _)) by lia. destruct (Nat.leb_spec size (length (cbuf ++ [b]))) as [Hf|Hf]; rewrite length_app in Hf; cbn in Hf.
    + eexists _, _. split; [done|]. cbn. rewrite app_nil_r. split; [done|]. split; [lia|]. split; [done|]. intros bs [= <-]. rewrite length_app. cbn. lia.
    + eexists _, _. split; [done|]. split; [done|]. rewrite length_app. cbn. split; [lia|]. done.
  - rewrite app_nil_r. destruct cbuf as [|b cbuf]; eexists _, _; (split; [reflexivity|]); cbn in *; rewrite ?app_nil_r; (split; [done|]); (split; [lia|]);
      (split; [done|]); [done|]. intros bs [= <-]. cbn. lia.
Qed.

(** The polling thread of Zephyr hands KISS every byte of the line once and in
    order, whatever pauses there are between them; fewer bytes than the buffer
    holds are waiting in it, and none after a pause. *)
Theorem usart_thread_bytes size i (polls : list (option Z)) cbuf : (length cbuf < size)%nat ->
  exists handed waiting, handed ++ waiting = cbuf ++ omap id polls /\ (length waiting < size)%nat /\ (list.last polls = Some None -> waiting = []) /\
    forall s, zephyr_usart_rx_thread size i polls cbuf s = (csp_kiss_rx i handed false ;; mret waiting) s.
Proof.
  revert cbuf. induction polls as [|x polls IH]; intros cbuf Hl; [exists [], cbuf; cbn; by rewrite app_nil_r|].
  destruct (process_char_spec size x cbuf Hl) as (out & cbuf' & E & Happ & Hl' & Hidle & _).
  destruct (IH cbuf' Hl') as (handed & waiting & Hall & Hw & Hlast & Hrun). exists (default [] out ++ handed), waiting.
  split; [|split; [done|split]].
  - rewrite <- app_assoc, Hall, app_assoc, Happ, <- app_assoc. f_equal. destruct x; done.
  - intros El. destruct polls as [|y polls]; [|by apply Hlast]. injection El as ->. specialize (Hidle eq_refl). subst cbuf'. by apply app_eq_nil in Hall as [_ ->].
  - intros s. cbn [zephyr_usart_rx_thread]. rewrite E. destruct out as [bs|]; cbn [default].
    + change (id bs) with bs. unfold mbind, M_bind. rewrite kiss_rx_seq. unfold mbind, M_bind. destruct (csp_kiss_rx i bs false s) as [[] s1| | |]; [|done..]. apply Hrun.
    + rewrite (bind_ret _ _ _ tt s) by done. apply Hrun.
Qed.

Lemma usart_thread_bytes_witness : exists handed waiting, handed ++ waiting = [1; 2; 3; 4] /\ waiting = [].
Proof.
  destruct (usart_thread_bytes 3 1 [Some 2; Some 3; Some 4; None] [1]) as (handed & waiting & Hall & _ & Hlast & _).
  - apply Nat.ltb_lt. reflexivity.
  - exists handed, waiting. split; [exact Hall|]. apply Hlast. reflexivity.
Defined.

(** The interrupt handler hands on what it reads, chunk by chunk. *)
Lemma usart_isr_bytes i reads s : zephyr_usart_rx_isr i reads s = csp_kiss_rx i (concat (omap id reads)) true s.
Proof.
  revert s. induction reads as [|[[|b bs]|] reads IH]; intros s; [done|..].
  - cbn [zephyr_usart_rx_isr omap list_omap id concat]. rewrite (bind_ret _ _ _ tt s) by done. apply IH.
  - cbn [zephyr_usart_rx_isr omap list_omap id concat]. rewrite kiss_rx_seq. unfold mbind, M_bind.
    destruct (csp_kiss_rx i (b :: bs) true s) as [[] s1| | |]; [|done..]. apply IH.
  - cbn [zephyr_usart_rx_isr omap list_omap id]. rewrite (bind_ret _ _ _ tt s) by done. apply IH.
Qed.
