(* ===== verification/ZephyrCan.v ===== *)
(** * ZephyrCan: CAN on Zephyr ([src/drivers/can/can_zephyr.c])

    Preparing, starting, stopping and opening an interface, its reception
    filter, transmission, the turns of the receive thread and the header it logs.
    The static variables of the driver and the controllers are a state of their
    own, [zcan], passed along; the interface and the packets are in the node.  The
    answers of the Zephyr calls are arguments.  A result [undef] is undefined
    behaviour: the use of a freed context, or of the stack of a thread. *)

From S2P Require Import Prelude State Monad Id Buffer Iflist Qfifo Own Pbuf Reassembly Can Linux Slots.

Definition CAN_MAX_DLC : Z := 8.

(** ** Data *)

(** [struct can_frame] of Zephyr. *)
Record zcan_frame := mkZFrame { zf_id : Z; zf_ide : bool; zf_rtr : bool; zf_dlc : Z (* uint8_t *); zf_data : list Z (* 8 bytes *) }.

(** [can_context_t]: [cc_iface] is the interface embedded in it, [cc_stop] the
    stop event, [cc_msgq] what is in the message queue. *)
Record can_context := mkCanCtx {
  cc_name : list Z; cc_iface : nat; cc_device : nat; cc_msgq : list zcan_frame; cc_filter_id : Z; cc_stop : bool; cc_slot : nat; cc_started : bool
}.

Definition set_cc_filter_id (v : Z) (c : can_context) : can_context :=
  mkCanCtx (cc_name c) (cc_iface c) (cc_device c) (cc_msgq c) v (cc_stop c) (cc_slot c) (cc_started c).
Definition set_cc_msgq (v : list zcan_frame) (c : can_context) : can_context :=
  mkCanCtx (cc_name c) (cc_iface c) (cc_device c) v (cc_filter_id c) (cc_stop c) (cc_slot c) (cc_started c).
Definition set_cc_stop (v : bool) (c : can_context) : can_context :=
  mkCanCtx (cc_name c) (cc_iface c) (cc_device c) (cc_msgq c) (cc_filter_id c) v (cc_slot c) (cc_started c).
Definition set_cc_started (v : bool) (c : can_context) : can_context :=
  mkCanCtx (cc_name c) (cc_iface c) (cc_device c) (cc_msgq c) (cc_filter_id c) (cc_stop c) (cc_slot c) v.

(** The filters of a controller by their number, each with the context whose
    message queue it feeds, or [None] for a filter of the application. *)
Definition zfilters := Z -> option (option nat * can_filter).

Record can_dev := mkCanDev { cd_rate : Z; cd_filters : zfilters; cd_running : bool }.

(** The static variables of the driver, and the controllers. *)
Record zcan := mkZcan { z_slots : slots can_context; z_dev : nat -> can_dev }.

Definition zc_slots (z : slots can_context) (w : zcan) : zcan := mkZcan z (z_dev w).
Definition zc_dev (d : nat) (f : can_dev -> can_dev) (w : zcan) : zcan :=
  mkZcan (z_slots w) (fun e => if Nat.eqb e d then f (z_dev w e) else z_dev w e).

(** What the calls answer; [b_filter] is what [can_add_rx_filter_msgq] has to go
    by, for [zc_new_filter] below. *)
Record can_answers := mkCanAnswers {
  b_ready : bool; b_alloc : bool; b_bitrate : Z; b_filter : nat; b_start : Z; b_stop : Z; b_join : Z
}.

(** The number a controller gives a new filter, below 0 for none. *)
Class ZCan := { zc_new_filter : nat -> zfilters -> Z }.
(** As documented: the number of a new filter is not in use. *)
Class ZCanLaws `{ZCan} : Prop := { law_new_filter : forall n f, 0 <= zc_new_filter n f -> f (zc_new_filter n f) = None }.

Definition can_remove_filter (d : nat) (id : Z) : zcan -> zcan :=
  zc_dev d (fun x => mkCanDev (cd_rate x) (fun j => if j =? id then None else cd_filters x j) (cd_running x)).
Definition can_add_filter (d : nat) (id : Z) (p : nat) (f : can_filter) : zcan -> zcan :=
  zc_dev d (fun x => mkCanDev (cd_rate x) (fun j => if j =? id then Some (Some p, f) else cd_filters x j) (cd_running x)).
Definition can_set_rate (d : nat) (rate : Z) : zcan -> zcan := zc_dev d (fun x => mkCanDev rate (cd_filters x) (cd_running x)).
Definition can_run (d : nat) (on : bool) : zcan -> zcan := zc_dev d (fun x => mkCanDev (cd_rate x) (cd_filters x) on).

(** Use of a context through a pointer. *)
Definition zc_ctx (p : nat) (w : zcan) : M can_context := of_option (deref p (z_slots w)).
Definition zc_put (p : nat) (c : can_context) (w : zcan) : zcan := zc_slots (ctx_put p c (z_slots w)) w.

(** ** Frames *)

(** [csp_can_log_csp_header]: the header that is logged, if any. *)
Definition csp_can_log_csp_header (s : node) (id : Z) (data : list Z) (dlc : Z) : option csp_id :=
  let b i := nth i data 0 in
  if version (conf s) =? 1 then
    if negb (CFP_TYPE id =? 0) || (dlc <? 4) then None else
    let h := Z.lor (Z.lor (Z.lor (Z.shiftl (b 0%nat) 24) (Z.shiftl (b 1%nat) 16)) (Z.shiftl (b 2%nat) 8)) (b 3%nat) in
    Some (mkId (Z.land (Z.shiftr h 30) 0x3) (Z.land h 0xFF) (Z.land (Z.shiftr h 25) 0x1F) (Z.land (Z.shiftr h 20) 0x1F)
            (Z.land (Z.shiftr h 14) 0x3F) (Z.land (Z.shiftr h 8) 0x3F))
  else if version (conf s) =? 2 then
    if negb (flagged id (Z.shiftl CFP2_BEGIN_MASK CFP2_BEGIN_OFFSET)) || (dlc <? 4) then None else
    let hi := u16 (Z.land (Z.shiftr id CFP2_DST_OFFSET) 0xFFFF) in
    let h := Z.lor (Z.lor (Z.lor (Z.lor (Z.lor (Z.shiftl (Z.shiftr hi 8) 40) (Z.shiftl (Z.land hi 0xFF) 32)) (Z.shiftl (b 0%nat) 24))
               (Z.shiftl (b 1%nat) 16)) (Z.shiftl (b 2%nat) 8)) (b 3%nat) in
    Some (mkId (Z.land (Z.shiftr h 46) 0x3) (Z.land h 0x3F) (Z.land (Z.shiftr h 18) 0x3FFF) (Z.land (Z.shiftr h 32) 0x3FFF)
            (Z.land (Z.shiftr h 12) 0x3F) (Z.land (Z.shiftr h 6) 0x3F))
  else None.

(** [csp_can_tx_frame] of Zephyr: the frame given to [can_send], and the status;
    [sent] is what [can_send] answers. *)
Definition zephyr_can_tx_frame (sent id : Z) (data : list Z) (dlc : Z) : option zcan_frame * Z :=
  if CAN_MAX_DLC <? dlc then (None, CSP_ERR_INVAL)
  else (Some (mkZFrame id true false dlc (take (Z.to_nat dlc) data ++ replicate (8 - Z.to_nat dlc) 0)), sent).

(** A turn of [csp_can_rx_thread]; the result says whether the thread goes on.
    With the queue empty [k_msgq_get] times out. *)
Definition zephyr_can_rx_turn `{Platform} (p : nat) (w : zcan) : M (bool * zcan) :=
  c ← zc_ctx p w;
  if cc_stop c then mret (false, w) else
  match cc_msgq c with
  | [] => mret (true, w)
  | frame :: q =>
      let w := zc_put p (set_cc_msgq q c) w in
      if negb (zf_ide frame) then mret (true, w) else
      if zf_rtr frame then mret (true, w) else
      _ ← csp_can_rx (cc_iface c) (zf_id frame) (zf_data frame) (zf_dlc frame) false;
      mret (true, w)
  end.

(** ** The calls *)

Section Calls.
Context `{ZCan}.

(** [iface] is the [driver_data] of an interface, the context, or [None] for a
    NULL pointer. *)
Definition csp_can_set_rx_filter (a : can_answers) (iface : option nat) (filter_addr filter_mask : Z) (w : zcan) : M (Z * zcan) :=
  match iface with
  | None => mret (CSP_ERR_INVAL, w)
  | Some p =>
      c ← zc_ctx p w;
      let w := if 0 <=? cc_filter_id c then can_remove_filter (cc_device c) (cc_filter_id c) w else w in
      v ← gets (fun s => version (conf s));
      let filter :=
        if v =? 1 then mkFilter (CFP_MAKE_DST filter_addr) (CFP_MAKE_DST filter_mask)
        else mkFilter (u32 (Z.shiftl filter_addr CFP2_DST_OFFSET)) (u32 (Z.shiftl filter_mask CFP2_DST_OFFSET)) in
      let ret := zc_new_filter (b_filter a) (cd_filters (z_dev w (cc_device c))) in
      if ret <? 0 then mret (ret, w) else
      mret (ret, zc_put p (set_cc_filter_id ret c) (can_add_filter (cc_device c) ret p filter w))
  end.

Definition csp_can_remove_rx_filter (p : nat) (w : zcan) : M zcan :=
  c ← zc_ctx p w;
  mret (zc_put p (set_cc_filter_id (-1) c) (can_remove_filter (cc_device c) (cc_filter_id c) w)).

(** [k_free(ctx)]: the interface and its data go with the context. *)
Definition can_ctx_free (p : nat) (w : zcan) : M zcan :=
  c ← zc_ctx p w;
  modify (fun s => set_can (<[cc_iface c := None]> (can s)) s) ;;
  mret (zc_slots (ctx_free p (z_slots w)) w).

(** The status, the interface, and the state; [devname] is [device->name].  The
    context is written field by field after [k_calloc], the interface first. *)
Definition csp_can_prepare_interface (a : can_answers) (device : nat) (devname : list Z) (ifname : option (list Z))
    (address bitrate filter_addr filter_mask : Z) (return_iface : bool) (w : zcan) : M (Z * option nat * zcan) :=
  if negb (b_ready a) || (bitrate =? 0) || negb return_iface then mret (CSP_ERR_INVAL, None, w) else
  let name := default devname ifname in
  r ← of_option (scan cc_device device (z_slots w));
  match r with
  | ScanUsed => mret (CSP_ERR_USED, None, w)
  | ScanSlot slot =>
      if Nat.ltb CSP_IFLIST_NAME_MAX (length name) then mret (CSP_ERR_INVAL, None, w) else
      other ← csp_iflist_get_by_name name;
      match other with
      | Some _ => mret (CSP_ERR_INVAL, None, w)
      | None =>
          if Nat.eqb slot (length (slot_tab (z_slots w))) then mret (CSP_ERR_DRIVER, None, w) else
          if negb (b_alloc a) then mret (CSP_ERR_NOMEM, None, w) else
          i ← ctx_new name address;
          modify (fun s => set_can (put_dev i (mkCan 0 (Some 0%nat) None) (can s)) s) ;;
          let '(p, z) := ctx_alloc (mkCanCtx (take CSP_IFLIST_NAME_MAX name) i device [] (-1) false slot false) (z_slots w) in
          let w := zc_slots z w in
          if b_bitrate a <? 0 then (w ← can_ctx_free p w; mret (b_bitrate a, None, w)) else
          let w := can_set_rate device bitrate w in
          '(ret, w) ← csp_can_set_rx_filter a (Some p) filter_addr filter_mask w;
          if ret <? 0 then (w ← can_ctx_free p w; mret (ret, None, w)) else
          ret ← csp_can_add_interface (Some i);
          if negb (ret =? CSP_ERR_NONE) then
            (w ← csp_can_remove_rx_filter p w; w ← can_ctx_free p w; mret (ret, None, w))
          else
          z ← of_option (thread_create slot p (z_slots w));
          mret (CSP_ERR_NONE, Some p, zc_slots (tab_set slot (Some p) z) w)
      end
  end.

Definition csp_can_start (a : can_answers) (iface : option nat) (w : zcan) : M (Z * zcan) :=
  match iface with
  | None => mret (CSP_ERR_INVAL, w)
  | Some p =>
      c ← zc_ctx p w;
      if cc_started c then mret (CSP_ERR_ALREADY, w) else
      if b_start a <? 0 then mret (b_start a, w) else
      let w := can_run (cc_device c) true w in
      let w := zc_put p (set_cc_started true c) w in
      mret (CSP_ERR_NONE, zc_slots (thread_start p (z_slots w)) w)
  end.

(** The status, and the state: the stop event is set, the thread joined, the
    event cleared and the queue purged. *)
Definition csp_can_finish_rx_thread (a : can_answers) (p : nat) (w : zcan) : M (Z * zcan) :=
  c ← zc_ctx p w;
  let w := zc_put p (set_cc_stop true c) w in
  if b_join a <? 0 then mret (b_join a, w) else
  let w := zc_slots (thread_end p (z_slots w)) w in
  c ← zc_ctx p w;
  mret (b_join a, zc_put p (set_cc_msgq [] (set_cc_stop false c)) w).

(** The loop that frees the packets being received. *)
Fixpoint can_free_pbufs (fuel i : nat) : M unit :=
  match fuel with
  | O => undef
  | S fuel' =>
      h ← pb_get (PbCan i);
      match h with
      | None => mret tt
      | Some packet =>
          k ← get_pkt packet;
          pb_set (PbCan i) (pkt_next k) ;;
          csp_buffer_free (Some packet) ;;
          can_free_pbufs fuel' i
      end
  end.

(** [csp_can_stop] when the thread is gone; [ret] is what [can_stop] answered. *)
Definition can_teardown (ret : Z) (p : nat) (w : zcan) : M (Z * zcan) :=
  c ← zc_ctx p w;
  _ ← csp_can_remove_interface (Some (cc_iface c));
  w ← csp_can_remove_rx_filter p w;
  let w := zc_slots (tab_set (cc_slot c) None (z_slots w)) w in
  can_free_pbufs pb_fuel (cc_iface c) ;;
  w ← can_ctx_free p w;
  mret (ret, w).

Definition csp_can_stop (a : can_answers) (iface : option nat) (w : zcan) : M (Z * zcan) :=
  match iface with
  | None => mret (CSP_ERR_INVAL, w)
  | Some p =>
      c ← zc_ctx p w;
      if cc_started c then
        if b_stop a <? 0 then mret (b_stop a, w) else
        '(joined, w) ← csp_can_finish_rx_thread a p (can_run (cc_device c) false w);
        if joined <? 0 then mret (joined, w) else can_teardown (b_stop a) p w
      else
        let w := zc_slots (thread_end p (z_slots w)) w in
        can_teardown CSP_ERR_NONE p (zc_put p (set_cc_msgq [] c) w)
  end.

Definition csp_can_open_and_add_interface (a : can_answers) (device : nat) (devname : list Z) (ifname : option (list Z))
    (address bitrate filter_addr filter_mask : Z) (w : zcan) : M (Z * option nat * zcan) :=
  '(ret, iface, w) ← csp_can_prepare_interface a device devname ifname address bitrate filter_addr filter_mask true w;
  if negb (ret =? CSP_ERR_NONE) then mret (ret, None, w) else
  '(ret, w) ← csp_can_start a iface w;
  if negb (ret =? CSP_ERR_NONE) then ('(_, w) ← csp_can_stop a iface w; mret (ret, None, w))
  else mret (CSP_ERR_NONE, iface, w).

End Calls.
