(* ===== verification/ZephyrCanSpec.v ===== *)
(** * ZephyrCanSpec: the life of a CAN interface on Zephyr

    In every state the driver reaches, whatever is called and whatever the system
    answers: contexts, table, threads and filters agree; a filter feeds only the
    queue of a context that is there; every interface of the driver is known to
    the stack, and the packets it is receiving are accounted for; stopping gives
    all of it back.  Besides: reception is safe, and the header in the log is the
    header of the packet. *)

From S2P Require Import Prelude State Monad Id Buffer Iflist Qfifo Own OwnConf Node Pbuf Reassembly Can CanCfp2 Linux LinuxSpec GsUsbSpec Slots ZephyrCan.

(** ** The interface in the node *)

Lemma Inv_set_can T h s v : Inv T h s -> Inv T h (set_can v s).
Proof. intros HI. destruct HI. by constructor. Qed.

(** The memory of a new context, in the node: interface [length (ifs s)]. *)
Definition node_alloc (name : list Z) (addr : Z) (s : node) : node :=
  set_can (put_dev (length (ifs s)) (mkCan 0 (Some 0%nat) None) (can s)) (set_ifs (ifs s ++ [new_iface name addr]) s).

(** The lists of the other interfaces. *)
Lemma pbuf_list_can i l s s' : pool s' = pool s -> mjoin (can s' !! i) = mjoin (can s !! i) -> pbuf_list (PbCan i) l s -> pbuf_list (PbCan i) l s'.
Proof. intros Ep Ec (h & Hh & Hc). exists h. cbn in *. by rewrite Ec, Ep. Qed.

Lemma node_alloc_ok T h s l name addr : Inv T h s -> iflist s l -> (length (can s) <= length (ifs s))%nat ->
  let s2 := node_alloc name addr s in
  Inv (config_of s2) h s2 /\ iflist s2 l /\ can s2 !! length (ifs s) = Some (Some (mkCan 0 (Some 0%nat) None)) /\
  length (can s2) = length (ifs s2) /\ length (ifs s2) = S (length (ifs s)) /\ pool s2 = pool s /\
  forall j, j <> length (ifs s) -> mjoin (can s2 !! j) = mjoin (can s !! j).
Proof.
  intros HI Hl Hc s2. destruct (Inv_append T h s (new_iface name addr) HI eq_refl) as [HI' Hl'].
  assert (Elen : length (ifs s2) = S (length (ifs s))) by (cbn; rewrite length_app; cbn; lia).
  split; [by apply Inv_set_can|]. split; [by apply Hl'|]. split; [by apply put_dev_at|].
  split; [rewrite Elen; by apply put_dev_length|]. split; [done|]. split; [done|]. intros j Hj. by apply put_dev_other.
Qed.

(** Its registration. *)
Lemma node_add_ok T h s l name addr : Inv T h s -> iflist s l -> (length (can s) <= length (ifs s))%nat ->
  (length name <= CSP_IFLIST_NAME_MAX)%nat -> csp_iflist_get_by_name name s = Ret None s ->
  exists s', csp_can_add_interface (Some (length (ifs s))) (node_alloc name addr s) = Ret CSP_ERR_NONE s' /\
    Inv (config_of s') h s' /\ iflist s' (l ++ [length (ifs s)]) /\ can s' = can (node_alloc name addr s) /\
    length (ifs s') = S (length (ifs s)) /\ pool s' = pool s.
Proof.
  intros HI Hl Hc Hn Hf. pose proof (Inv_named _ _ _ _ HI Hl) as Hnm. rewrite (get_by_name_find s l name Hl Hnm) in Hf. injection Hf as Hf.
  destruct (can_add_new s l name addr Hl Hnm) as (s' & Hr & Hl' & Hadd); [by rewrite take_ge by done; apply unfound_untaken|done|].
  exists s'. split; [exact Hr|]. fold (new_iface name addr) in Hadd. set (x := set_if_nexthop _ (new_iface name addr)) in Hadd. fold x in Hadd. set (s4 := set_ifs _ _) in Hadd.
  destruct (Inv_append T h s x HI eq_refl) as [HI4 _].
  apply (Inv_set_can _ _ _ (put_dev (length (ifs s)) (mkCan 0 (Some 0%nat) None) (can s))) in HI4.
  assert (HI4' : Inv (config_of s4) h s4) by exact HI4.
  destruct (Inv_iflist_add _ (length (ifs s)) h s4 HI4') as (s1 & Hr1 & HI1 & Eu & El); [cbn; rewrite length_app; cbn; lia|].
  rewrite Hr1 in Hadd. injection Hadd as ->. split; [done|]. split; [done|]. split; [exact (f_equal can Eu)|].
  split; [rewrite El; cbn; rewrite length_app; cbn; lia|exact (f_equal pool Eu)].
Qed.

(** *** Freeing the packets in reception *)

Lemma free_pbufs_run T i h : forall l fuel s, Inv T (l ++ h) s -> pbuf_list (PbCan i) l s -> (length l < fuel)%nat ->
  exists s', can_free_pbufs fuel i s = Ret tt s' /\ Inv T h s' /\ rest s' = rest s /\ (forall q, pkt_at q s' = pkt_at q s) /\
    (forall j, j <> i -> pb_head (PbCan j) s' = pb_head (PbCan j) s) /\ pb_head (PbCan i) s' = Some None.
Proof.
  induction l as [|p l IH]; intros fuel s HI (hd & Hh & Hc) Hf; (destruct fuel as [|fuel]; [cbn in Hf; lia|]); inversion Hc as [|? b ? Hb Hl]; subst; cbn [can_free_pbufs].
  - exists s. split; [|done]. rewrite (bind_ret _ _ _ None s); [done|]. unfold pb_get. by rewrite Hh.
  - assert (Hk : pkt_at p s = Some (skbf_data b)) by (unfold pkt_at; by rewrite Hb).
    rewrite (bind_ret _ _ _ (Some p) s) by (unfold pb_get; by rewrite Hh). rewrite (bind_ret _ _ _ _ _ (get_pkt_at _ _ _ Hk)).
    set (s1 := pb_put (PbCan i) (pkt_next (skbf_data b)) s). rewrite (bind_ret _ _ _ tt s1) by (unfold pb_set; by rewrite Hh).
    assert (HI1 : Inv T ((p :: l) ++ h) s1) by (by apply Inv_pb_put).
    assert (HL1 : pbuf_list (PbCan i) l s1) by (eexists; split; [by eapply pb_head_put|unfold s1; by rewrite pool_pb_put]).
    pose proof (held_nodup _ _ _ HI) as Hn. apply list.NoDup_app in Hn as [Hn _]. apply NoDup_cons_1_1 in Hn.
    destruct (proj1 (wp_run _ _ _) (wp_pb_free (PbCan i) T l p h false s1 HI1 HL1 Hn)) as ([] & s2 & Hr2 & HL2 & HI2 & Hp2). cbn [pb_buffer_free] in Hr2.
    pose proof (keeps_run _ _ _ _ _ (keeps_free_rest p) Hr2) as Er2.
    destruct (IH fuel s2 HI2 HL2 ltac:(cbn in Hf; lia)) as (s' & Hr & HI' & Er & Hp & Hj & Hi). exists s'. rewrite (bind_ret _ _ _ _ _ Hr2).
    split; [done|]. split; [done|]. split; [rewrite Er, Er2; apply rest_pb_put|]. split; [intros q; by rewrite Hp, Hp2|].
    split; [|done]. intros j Hne. rewrite Hj by done. rewrite (keeps_run _ _ _ _ _ (keeps_free_head p (PbCan j)) Hr2).
    cbn. by rewrite list_lookup_alter_ne.
Qed.

(** Use of a context that is there. *)
Lemma zc_ctx_run p w c s : deref p (z_slots w) = Some c -> zc_ctx p w s = Ret c s.
Proof. intros Hp. unfold zc_ctx. by rewrite Hp. Qed.

(** ** The invariant *)

(** Contexts, table, threads, filters.  [gone] is a context whose thread has
    ended, while it is being stopped. *)
Record zc_ok (gone : option nat) (w : zcan) : Prop := {
  zo_slots : slots_ok cc_device (z_slots w);
  zo_slot : forall p c, deref p (z_slots w) = Some c -> slot_tab (z_slots w) !! cc_slot c = Some (Some p);
  zo_thread : forall p c, deref p (z_slots w) = Some c ->
    slot_thread (z_slots w) !! cc_slot c = Some (if decide (gone = Some p) then None else Some (p, cc_started c));
  zo_filter : forall d id p f, cd_filters (z_dev w d) id = Some (Some p, f) ->
    exists c, deref p (z_slots w) = Some c /\ cc_device c = d /\ cc_filter_id c = id /\ 0 <= id;
  zo_iface : forall p q c c', deref p (z_slots w) = Some c -> deref q (z_slots w) = Some c' -> cc_iface c = cc_iface c' -> p = q
}.

(** The packets in reception: [rx p] for context [p]. *)
Definition held (rx : nat -> list nat) (t : list (option nat)) : list nat :=
  flat_map (fun o => match o with Some p => rx p | None => [] end) t.

(** The node: every interface of the driver is in the list of interfaces, and its
    packets in reception are held by nobody else. *)
Record zn_ok (rx : nat -> list nat) (o : list nat) (w : zcan) (s : node) : Prop := {
  zn_inv : exists T, Inv T (held rx (slot_tab (z_slots w)) ++ o) s;
  zn_listed : exists l, iflist s l /\ forall p c, deref p (z_slots w) = Some c -> cc_iface c ∈ l;
  zn_can : (length (can s) <= length (ifs s))%nat;
  zn_pbufs : forall p c, deref p (z_slots w) = Some c -> pbuf_list (PbCan (cc_iface c)) (rx p) s
}.

Definition can_inv (o : list nat) (w : zcan) (s : node) : Prop := zc_ok None w /\ exists rx, zn_ok rx o w s.

(** *** Changing one context *)

Lemma zc_ok_upd gone gone' p c c' w w' : zc_ok gone w -> deref p (z_slots w) = Some c -> slots_ok cc_device (z_slots w') ->
  slot_tab (z_slots w') = slot_tab (z_slots w) ->
  (forall q, deref q (z_slots w') = if decide (q = p) then Some c' else deref q (z_slots w)) ->
  slot_thread (z_slots w') !! cc_slot c = Some (if decide (gone' = Some p) then None else Some (p, cc_started c')) ->
  (forall i q, i <> cc_slot c -> q <> p -> slot_thread (z_slots w') !! i = slot_thread (z_slots w) !! i /\ (gone' = Some q <-> gone = Some q)) ->
  cc_device c' = cc_device c -> cc_slot c' = cc_slot c -> cc_iface c' = cc_iface c ->
  (forall d id q f, cd_filters (z_dev w' d) id = Some (Some q, f) ->
     if decide (q = p) then d = cc_device c' /\ id = cc_filter_id c' /\ 0 <= id else cd_filters (z_dev w d) id = Some (Some q, f)) -> zc_ok gone' w'.
Proof.
  intros [Hs Hsl Hth Hfi Hif] Hp Hs' Et Hd Htp Hto Edev Eslot Eif Hf. constructor; [done|..].
  - clear Htp. intros q x. rewrite Hd, Et. case_decide as E; [intros [= <-]; subst q; rewrite Eslot; by apply Hsl|apply Hsl].
  - intros q x. rewrite Hd. destruct (decide (q = p)) as [E|E]; [intros E1; injection E1 as <-; subst q; by rewrite Eslot|]. intros Hq.
    assert (Hne : cc_slot x <> cc_slot c) by (intros E'; pose proof (Hsl q x Hq) as H1; pose proof (Hsl p c Hp) as H2; rewrite E', H2 in H1; congruence).
    destruct (Hto (cc_slot x) q Hne E) as [Ho Hg]. rewrite Ho, (Hth q x Hq). f_equal. clear Htp. repeat case_decide; try done; tauto.
  - intros d id q f Hq. specialize (Hf d id q f Hq). rewrite Hd. destruct (decide (q = p)) as [E|E]; [exists c'; by destruct Hf as (-> & -> & ?)|]. by eapply Hfi.
  - clear Htp. intros q r x y. rewrite !Hd. repeat case_decide; intros H1 H2 E; simplify_eq; [done| | |by eapply Hif].
    + apply (Hif p r c y); congruence.
    + apply (Hif q p x c); congruence.
Qed.

(** Writing fields of a context, with what it does to the filters. *)
Lemma zc_ok_put gone p c c' w dev : zc_ok gone w -> deref p (z_slots w) = Some c ->
  cc_device c' = cc_device c -> cc_slot c' = cc_slot c -> cc_iface c' = cc_iface c -> cc_started c' = cc_started c ->
  (forall d id q f, cd_filters (dev d) id = Some (Some q, f) ->
     if decide (q = p) then d = cc_device c' /\ id = cc_filter_id c' /\ 0 <= id else cd_filters (z_dev w d) id = Some (Some q, f)) ->
  zc_ok gone (mkZcan (ctx_put p c' (z_slots w)) dev).
Proof.
  intros Hw Hp Edev Eslot Eif Est Hf. apply (zc_ok_upd gone gone p c c' w); cbn [z_slots]; try done.
  - by apply (slots_ok_put cc_device p c); [apply Hw|..].
  - intros q. apply deref_put. by eapply deref_lt.
  - rewrite Est. exact (zo_thread _ _ Hw p c Hp).
Qed.

(** Filters that stay, for a context that keeps its number. *)
Lemma filters_stay gone p c c' w dev : zc_ok gone w -> deref p (z_slots w) = Some c -> cc_device c' = cc_device c -> cc_filter_id c' = cc_filter_id c ->
  (forall d, cd_filters (dev d) = cd_filters (z_dev w d)) -> forall d id q f, cd_filters (dev d) id = Some (Some q, f) ->
  if decide (q = p) then d = cc_device c' /\ id = cc_filter_id c' /\ 0 <= id else cd_filters (z_dev w d) id = Some (Some q, f).
Proof.
  intros Hw Hp Edev Efi Hf d id q f Hq. rewrite Hf in Hq. case_decide as E; [|done]. subst q. destruct (zo_filter _ _ Hw d id p f Hq) as (x & Hx & <- & <- & Hid).
  rewrite Hp in Hx. injection Hx as <-. by rewrite Edev, Efi.
Qed.

(** The node does not see it. *)
Lemma zn_ok_same rx o w w' s : slot_tab (z_slots w') = slot_tab (z_slots w) ->
  (forall q x, deref q (z_slots w') = Some x -> exists y, deref q (z_slots w) = Some y /\ cc_iface x = cc_iface y) -> zn_ok rx o w s -> zn_ok rx o w' s.
Proof.
  intros Et Hd [Hi (l & Hl & Hin) Hc Hp]. constructor; [by rewrite Et| |done|].
  - exists l. split; [done|]. intros q x Hq. destruct (Hd q x Hq) as (y & Hy & ->). by eapply Hin.
  - intros q x Hq. destruct (Hd q x Hq) as (y & Hy & ->). by apply Hp.
Qed.

(** One context has changed, and everything else is as it was. *)
Definition touched (p : nat) (c' : can_context) (s : node) (w w' : zcan) : Prop :=
  zc_ok None w' /\ slot_tab (z_slots w') = slot_tab (z_slots w) /\
  (forall q, deref q (z_slots w') = if decide (q = p) then Some c' else deref q (z_slots w)) /\ (forall rx o, zn_ok rx o w s -> zn_ok rx o w' s).

Lemma touched_refl p c s w : zc_ok None w -> deref p (z_slots w) = Some c -> touched p c s w w.
Proof. intros Hw Hp. split; [done|]. split; [done|]. split; [|done]. intros q. by case_decide as E; [subst q|]. Qed.

Lemma touched_intro p c c' s w w' : deref p (z_slots w) = Some c -> cc_iface c' = cc_iface c -> zc_ok None w' -> slot_tab (z_slots w') = slot_tab (z_slots w) ->
  (forall q, deref q (z_slots w') = if decide (q = p) then Some c' else deref q (z_slots w)) -> touched p c' s w w'.
Proof.
  intros Hp Ei Hw' Et Hd. split; [done|]. split; [done|]. split; [done|]. intros rx o. apply zn_ok_same; [done|]. intros q x. rewrite Hd.
  case_decide; [intros [= <-]; subst q; by exists c|by exists x].
Qed.

(** ** The filter *)

(** The number a context has is that of a filter of its own. *)
Definition fresh (w : zcan) : Prop := forall p c, deref p (z_slots w) = Some c ->
  exists f, cd_filters (z_dev w (cc_device c)) (cc_filter_id c) = Some (Some p, f).
(** The filters of the application are untouched. *)
Definition foreign_kept (w w' : zcan) : Prop := forall d id f, cd_filters (z_dev w d) id = Some (None, f) -> cd_filters (z_dev w' d) id = Some (None, f).

Section Filter.
Context `{ZCan}.

(** What [csp_can_set_rx_filter] does: the old filter goes, a new one comes or
    does not. *)
Definition filter_dropped (c : can_context) (w : zcan) : zcan :=
  if 0 <=? cc_filter_id c then can_remove_filter (cc_device c) (cc_filter_id c) w else w.

Lemma set_filter_run a p c fa fm w s : deref p (z_slots w) = Some c -> let w1 := filter_dropped c w in
  let ret := zc_new_filter (b_filter a) (cd_filters (z_dev w1 (cc_device c))) in
  exists flt, csp_can_set_rx_filter a (Some p) fa fm w s =
    Ret (ret, if ret <? 0 then w1 else zc_put p (set_cc_filter_id ret c) (can_add_filter (cc_device c) ret p flt w1)) s.
Proof.
  intros Hp w1 ret. eexists. unfold csp_can_set_rx_filter. rewrite (bind_ret _ _ _ c s) by (by apply zc_ctx_run).
  rewrite (bind_ret _ _ _ (version (conf s)) s) by done. cbv zeta. fold (filter_dropped c w). fold w1. fold ret. destruct (ret <? 0); reflexivity.
Qed.

Lemma dropped_slots c w : z_slots (filter_dropped c w) = z_slots w.
Proof. unfold filter_dropped. by destruct (0 <=? _). Qed.

Lemma dropped_filters c w d id : 0 <= id -> cd_filters (z_dev (filter_dropped c w) d) id =
  if decide (d = cc_device c /\ id = cc_filter_id c) then None else cd_filters (z_dev w d) id.
Proof.
  intros Hid. unfold filter_dropped. destruct (Z.leb_spec 0 (cc_filter_id c)) as [E|E]; [|case_decide as E'; [lia|done]]. cbn.
  destruct (Nat.eqb_spec d (cc_device c)) as [Ed|Ed]; [|case_decide; [tauto|done]]. cbn. destruct (Z.eqb_spec id (cc_filter_id c)); case_decide; tauto.
Qed.

(** Nothing of the driver but the filter of this context is dropped. *)
Lemma dropped_owner gone p c w d id q f : zc_ok gone w -> deref p (z_slots w) = Some c ->
  cd_filters (z_dev (filter_dropped c w) d) id = Some (Some q, f) -> cd_filters (z_dev w d) id = Some (Some q, f) /\ q <> p.
Proof.
  intros Hw Hp Hq. assert (Hold : cd_filters (z_dev w d) id = Some (Some q, f)).
  { revert Hq. unfold filter_dropped. destruct (0 <=? cc_filter_id c); [|done]. cbn. destruct (Nat.eqb_spec d (cc_device c)); [|done]. cbn. by destruct (id =? _). }
  split; [done|]. intros ->. destruct (zo_filter _ _ Hw d id p f Hold) as (x & Hx & Ed & Ei & Hid). rewrite Hp in Hx. injection Hx as <-.
  rewrite dropped_filters in Hq by done. rewrite decide_True in Hq by done. discriminate Hq.
Qed.

Lemma set_filter_spec a p c fa fm w s : zc_ok None w -> deref p (z_slots w) = Some c -> exists r w' c',
  csp_can_set_rx_filter a (Some p) fa fm w s = Ret (r, w') s /\ touched p c' s w w' /\
  c' = (if r <? 0 then c else set_cc_filter_id r c) /\
  (forall id f, cd_filters (z_dev w' (cc_device c)) id = Some (Some p, f) -> 0 <= r /\ id = r) /\
  (0 <= r -> exists f, cd_filters (z_dev w' (cc_device c)) r = Some (Some p, f)).
Proof.
  intros Hw Hp. destruct (set_filter_run a p c fa fm w s Hp) as [flt Hr]. set (w1 := filter_dropped c w) in *. set (ret := zc_new_filter _ _) in *.
  assert (Hself : deref p (z_slots w1) = Some c) by (unfold w1; by rewrite dropped_slots).
  assert (Hown : forall d id q f, cd_filters (z_dev w1 d) id = Some (Some q, f) -> cd_filters (z_dev w d) id = Some (Some q, f) /\ q <> p)
    by (intros d id q f; by apply (dropped_owner None)).
  destruct (Z.ltb_spec ret 0) as [Eneg|Epos].
  - exists ret, w1, c. split; [done|]. rewrite (proj2 (Z.ltb_lt _ _)) by done. split; [apply (touched_intro p c); try done|].
    + replace w1 with (mkZcan (ctx_put p c (z_slots w)) (z_dev w1)).
      * apply (zc_ok_put None p c c); [done..|]. intros d id q f Hq. destruct (Hown d id q f Hq) as [Hold Hne]. by rewrite decide_False.
      * unfold w1. destruct (filter_dropped c w) as [z dv] eqn:Ew. cbn. f_equal. pose proof (dropped_slots c w) as Es. rewrite Ew in Es. cbn in Es. rewrite Es.
        unfold ctx_put. rewrite list_insert_id; [by destruct (z_slots w)|]. unfold deref in Hp. by destruct (slot_heap (z_slots w) !! p) as [[]|]; cbn in Hp; simplify_eq.
    + unfold w1. by rewrite dropped_slots.
    + intros q. unfold w1. rewrite dropped_slots. by case_decide as E; [subst q|].
    + split; [done|]. split; [|lia]. intros id f Hf. by destruct (Hown _ _ _ _ Hf).
  - set (w' := zc_put p (set_cc_filter_id ret c) _) in Hr. exists ret, w', (set_cc_filter_id ret c). split; [done|].
    assert (Ew : w' = mkZcan (ctx_put p (set_cc_filter_id ret c) (z_slots w)) (z_dev w')) by (unfold w', zc_put, zc_slots; cbn; unfold w1; by rewrite dropped_slots).
    assert (Hfl : forall d id, cd_filters (z_dev w' d) id = if decide (d = cc_device c /\ id = ret) then Some (Some p, flt) else cd_filters (z_dev w1 d) id).
    { intros d id. cbn. destruct (Nat.eqb_spec d (cc_device c)) as [Ed|Ed]; [|case_decide; [tauto|done]]. cbn. destruct (Z.eqb_spec id ret); case_decide; tauto. }
    assert (Hd : forall q, deref q (z_slots w') = if decide (q = p) then Some (set_cc_filter_id ret c) else deref q (z_slots w)).
    { intros q. rewrite Ew. cbn [z_slots]. apply deref_put. by eapply deref_lt. }
    rewrite (proj2 (Z.ltb_ge _ _)) by done. split; [|split; [done|split]].
    + apply (touched_intro p c); [done|done| |by rewrite Ew|exact Hd]. rewrite Ew. apply (zc_ok_put None p c); [done..|]. intros d id q f. rewrite Hfl. case_decide as E.
      * intros [= <- <-]. destruct E as [-> ->]. by rewrite decide_True.
      * intros Hq. destruct (Hown d id q f Hq) as [Hold Hne]. by rewrite decide_False.
    + intros id f. rewrite Hfl. case_decide as E; [by destruct E|]. intros Hq. by destruct (Hown _ _ _ _ Hq).
    + intros _. exists flt. rewrite Hfl. by rewrite decide_True.
Qed.

End Filter.

(** ** Starting *)

Lemma start_can_spec a p c w s : zc_ok None w -> deref p (z_slots w) = Some c -> exists r w' c',
  csp_can_start a (Some p) w s = Ret (r, w') s /\ touched p c' s w w' /\
  (forall d, cd_filters (z_dev w' d) = cd_filters (z_dev w d)) /\
  (r = CSP_ERR_NONE /\ cc_started c = false /\ c' = set_cc_started true c /\ cd_running (z_dev w' (cc_device c)) = true \/
   r <> CSP_ERR_NONE /\ c' = c /\ w' = w /\ (cc_started c = true \/ b_start a < 0)).
Proof.
  intros Hw Hp. unfold csp_can_start. rewrite (bind_ret _ _ _ c s) by (by apply zc_ctx_run).
  assert (Hfail : forall e, e <> CSP_ERR_NONE -> cc_started c = true \/ b_start a < 0 -> exists r w' c', Ret (e, w) s = Ret (r, w') s /\ touched p c' s w w' /\
    (forall d, cd_filters (z_dev w' d) = cd_filters (z_dev w d)) /\
    (r = CSP_ERR_NONE /\ cc_started c = false /\ c' = set_cc_started true c /\ cd_running (z_dev w' (cc_device c)) = true \/
     r <> CSP_ERR_NONE /\ c' = c /\ w' = w /\ (cc_started c = true \/ b_start a < 0))).
  { intros e He Hwhy. exists e, w, c. split; [done|]. split; [by apply touched_refl|]. auto 10. }
  destruct (cc_started c) eqn:Est; [by apply Hfail; [|left]|]. destruct (Z.ltb_spec (b_start a) 0) as [E|E]; [apply Hfail; [unfold CSP_ERR_NONE; lia|by right]|]. clear Hfail.
  set (c' := set_cc_started true c). cbv zeta. set (w1 := zc_put p c' _). set (w' := zc_slots (thread_start p (z_slots w1)) w1).
  assert (Hz1 : slots_ok cc_device (z_slots w1)) by (by apply (slots_ok_put cc_device p c); [apply Hw|..]).
  assert (Hd : forall q, deref q (z_slots w') = if decide (q = p) then Some c' else deref q (z_slots w)).
  { intros q. change (deref q (z_slots w')) with (deref q (ctx_put p c' (z_slots w))). apply deref_put. by eapply deref_lt. }
  pose proof (zo_slot _ _ Hw p c Hp) as Hsl. assert (Hdev : forall d, cd_filters (z_dev w' d) = cd_filters (z_dev w d)) by (intros d; cbn; by destruct (Nat.eqb d _)).
  exists CSP_ERR_NONE, w', c'. split; [done|]. split; [|split; [exact Hdev|]].
  - apply (touched_intro p c); [done|done| |done|exact Hd]. apply (zc_ok_upd None None p c c' w); try done; [by apply slots_ok_start| | |by apply (filters_stay None p c)].
    + change (slot_thread (thread_start p (z_slots w1)) !! cc_slot c = Some (Some (p, true))). unfold thread_start. rewrite thread_of_at.
      change (slot_thread (z_slots w1)) with (slot_thread (z_slots w)). rewrite (zo_thread _ _ Hw p c Hp). rewrite decide_False by done. cbn. by rewrite Nat.eqb_refl.
    + intros i q Hi Hq. split; [|done]. change (slot_thread (thread_start p (z_slots w1)) !! i = slot_thread (z_slots w1) !! i).
      by apply (thread_of_other cc_device p _ _ (cc_slot c)).
  - left. split; [done|]. split; [done|]. split; [done|]. cbn. by rewrite Nat.eqb_refl.
Qed.

(** ** Stopping *)

(** Context [p] is gone with its filter, the stack does not know its interface,
    and the other contexts and filters are as they were. *)
Definition stopped (p : nat) (c : can_context) (w w' : zcan) (s' : node) : Prop :=
  (forall q, deref q (z_slots w') = if decide (q = p) then None else deref q (z_slots w)) /\ unowned cc_device (cc_device c) (z_slots w') /\
  (forall d id, cd_filters (z_dev w' d) id = if decide (d = cc_device c /\ id = cc_filter_id c) then None else cd_filters (z_dev w d) id) /\
  (forall l, iflist s' l -> cc_iface c ∉ l).

(** What is left of the driver. *)
Definition torn (p : nat) (c : can_context) (w : zcan) : zcan :=
  mkZcan (ctx_free p (tab_set (cc_slot c) None (ctx_put p (set_cc_filter_id (-1) c) (z_slots w))))
    (z_dev (can_remove_filter (cc_device c) (cc_filter_id c) w)).

Lemma torn_ok p c w : zc_ok (Some p) w -> deref p (z_slots w) = Some c -> zc_ok None (torn p c w) /\
  (forall q, deref q (z_slots (torn p c w)) = if decide (q = p) then None else deref q (z_slots w)) /\
  unowned cc_device (cc_device c) (z_slots (torn p c w)) /\
  (forall d id, cd_filters (z_dev (torn p c w) d) id = if decide (d = cc_device c /\ id = cc_filter_id c) then None else cd_filters (z_dev w d) id).
Proof.
  intros Hw Hp. set (c1 := set_cc_filter_id (-1) c). set (z1 := ctx_put p c1 (z_slots w)). pose proof (zo_slot _ _ Hw p c Hp) as Hsl.
  assert (Hz1 : slots_ok cc_device z1) by (by apply (slots_ok_put cc_device p c); [apply Hw|..]).
  assert (Hp1 : deref p z1 = Some c1) by (unfold z1; rewrite deref_put by (by eapply deref_lt); by rewrite decide_True).
  pose proof (zo_thread _ _ Hw p c Hp) as Hth. rewrite decide_True in Hth by done.
  destruct (slots_ok_remove cc_device p c1 (cc_slot c) z1 Hz1 Hp1 Hsl Hth) as [Hz Hun].
  assert (Hd : forall q, deref q (z_slots (torn p c w)) = if decide (q = p) then None else deref q (z_slots w)).
  { intros q. unfold torn. cbn [z_slots]. rewrite deref_free. case_decide as E; [done|]. change (deref q z1 = deref q (z_slots w)). unfold z1.
    rewrite deref_put by (by eapply deref_lt). by rewrite decide_False. }
  assert (Hfl : forall d id, cd_filters (z_dev (torn p c w) d) id = if decide (d = cc_device c /\ id = cc_filter_id c) then None else cd_filters (z_dev w d) id).
  { intros d id. cbn. destruct (Nat.eqb_spec d (cc_device c)) as [Ed|Ed]; [|case_decide; [tauto|done]]. cbn. destruct (Z.eqb_spec id (cc_filter_id c)); case_decide; tauto. }
  assert (Hfi : forall d id q f, cd_filters (z_dev (torn p c w) d) id = Some (Some q, f) -> cd_filters (z_dev w d) id = Some (Some q, f) /\ q <> p).
  { intros d id q f. rewrite Hfl. case_decide as E; [done|]. intros Hold. split; [done|]. intros ->.
    destruct (zo_filter _ _ Hw d id p f Hold) as (x & Hx & <- & <- & _). rewrite Hp in Hx. injection Hx as <-. by destruct E. }
  split; [constructor|].
  - exact Hz.
  - intros q x. rewrite Hd. case_decide as E; [done|]. intros Hq. cbn. pose proof (zo_slot _ _ Hw q x Hq) as Hsq.
    rewrite list_lookup_insert_ne; [done|]. intros E'. rewrite E', Hsq in Hsl. congruence.
  - intros q x. rewrite Hd. case_decide as E; [done|]. intros Hq. change (slot_thread (z_slots w) !! cc_slot x = Some (if decide (@None nat = Some q) then None else Some (q, cc_started x))).
    rewrite (zo_thread _ _ Hw q x Hq). f_equal. by repeat case_decide; simplify_eq.
  - intros d id q f Hq. destruct (Hfi d id q f Hq) as [Hold Hne]. destruct (zo_filter _ _ Hw d id q f Hold) as (x & Hx & Hr). exists x. rewrite Hd. by rewrite decide_False.
  - intros q r x y. rewrite !Hd. repeat case_decide; try done. apply (zo_iface _ _ Hw).
  - split; [exact Hd|]. by split.
Qed.

Lemma rest_ifs s s' : rest s' = rest s -> ifs s' = ifs s /\ interfaces s' = interfaces s /\ length (can s') = length (can s).
Proof.
  intros E. split; [exact (f_equal ifs E)|]. split; [exact (f_equal interfaces E)|]. pose proof (f_equal (fun x => length (can x)) E) as Ec. cbn in Ec.
  by rewrite !length_map in Ec.
Qed.

(** The packets of a context are in its entry of the table. *)
Lemma held_entry rx t i p x : t !! i = Some (Some p) -> (cnt x (held rx t) = cnt x (rx p ++ held rx (<[i := None]> t)))%nat.
Proof.
  intros Hi. unfold held. rewrite cnt_app. pose proof (cnt_flat_map_insert (fun o => match o with Some p => rx p | None => [] end) t i (Some p) None x Hi) as E.
  cbv beta iota in E. rewrite cnt_nil in E. fold (held rx t) in E |- *. lia.
Qed.

Lemma teardown_spec ret rx o p c w s : zc_ok (Some p) w -> deref p (z_slots w) = Some c -> zn_ok rx o w s ->
  exists w' s', can_teardown ret p w s = Ret (ret, w') s' /\ zc_ok None w' /\ zn_ok rx o w' s' /\ stopped p c w w' s'.
Proof.
  intros Hw Hp [(T & HI) (l & Hl & Hin) Hc Hpb]. set (i := cc_iface c) in *. destruct (torn_ok p c w Hw Hp) as (Hw' & Hd & Hun & Hfi).
  set (h := held rx (<[cc_slot c := None]> (slot_tab (z_slots w))) ++ o).
  assert (HI0 : Inv T (rx p ++ h) s).
  { eapply Inv_perm; [|exact HI]. intros x. unfold h. rewrite app_assoc, !(cnt_app _ _ o). f_equal.
    symmetry. apply held_entry. by apply (zo_slot _ _ Hw). }
  destruct (Inv_iflist_remove T i (rx p ++ h) s l HI0 Hl) as (s1 & Hr1 & HI1 & Hl1 & Eu & Elen). pose proof (f_equal can Eu) as Ec1. pose proof (f_equal pool Eu) as Ep1.
  change (can s1 = can s) in Ec1. change (pool s1 = pool s) in Ep1.
  assert (HL1 : pbuf_list (PbCan i) (rx p) s1) by (apply (pbuf_list_can _ _ s); [done|by rewrite Ec1|by apply Hpb]).
  destruct (HL1) as (hd1 & _ & Hc1). destruct (free_pbufs_run _ i h (rx p) pb_fuel s1 HI1 HL1 (pchain_bound _ _ _ _ _ HI1 Hc1)) as (s2 & Hr2 & HI2 & Er & Hk & Hj & _).
  destruct (rest_ifs _ _ Er) as (Ei & En & Ecl). set (s3 := set_can (<[i := None]> (can s2)) s2).
  exists (torn p c w), s3. split; [|split; [exact Hw'|split]].
  - unfold can_teardown. rewrite (bind_ret _ _ _ c s) by (by apply zc_ctx_run). fold i. cbn [csp_can_remove_interface].
    rewrite (bind_ret _ _ _ CSP_ERR_NONE s1) by (by rewrite (bind_ret _ _ _ _ _ Hr1)).
    rewrite (bind_ret _ _ _ (zc_put p (set_cc_filter_id (-1) c) (can_remove_filter (cc_device c) (cc_filter_id c) w)) s1).
    2:{ unfold csp_can_remove_rx_filter. by rewrite (bind_ret _ _ _ c s1) by (by apply zc_ctx_run). }
    rewrite (bind_ret _ _ _ _ _ Hr2). rewrite (bind_ret _ _ _ (torn p c w) s3); [done|]. unfold can_ctx_free.
    rewrite (bind_ret _ _ _ (set_cc_filter_id (-1) c) s2); [|unfold zc_ctx].
    + by rewrite (bind_ret _ _ _ tt s3).
    + set (u := zc_slots _ _). assert (E : deref p (z_slots u) = Some (set_cc_filter_id (-1) c)); [|by rewrite E].
      change (deref p (ctx_put p (set_cc_filter_id (-1) c) (z_slots w)) = Some (set_cc_filter_id (-1) c)).
      rewrite deref_put by (by eapply deref_lt). by rewrite decide_True.
  - constructor.
    + exists (config_of s1). by apply Inv_set_can.
    + exists (filter (fun j => j <> i) l). split; [unfold iflist; cbn [s3 ifs interfaces set_can]; rewrite Ei, En; exact Hl1|].
      intros q x. rewrite Hd. case_decide as E; [done|]. intros Hq. apply list_elem_of_filter. split; [|by eapply Hin]. intros E'. by apply E, (zo_iface _ _ Hw q p x c).
    + cbn [s3 can ifs set_can]. rewrite length_insert, Ecl, Ei, Ec1, Elen. exact Hc.
    + intros q x. rewrite Hd. case_decide as E; [done|]. intros Hq. assert (Hne : cc_iface x <> i) by (intros E'; by apply E, (zo_iface _ _ Hw q p x c)).
      destruct (Hpb q x Hq) as (hd & Hh & Hch). exists hd. split.
      * cbn. rewrite list_lookup_insert_ne by done. change (pb_head (PbCan (cc_iface x)) s2 = Some hd). rewrite Hj by done. cbn in Hh |- *. by rewrite Ec1.
      * change (pool s3) with (pool s2). rewrite <- Ep1 in Hch. apply (pchain_same (pool s1) s2 hd _ s1); auto.
  - split; [exact Hd|]. split; [exact Hun|]. split; [exact Hfi|]. intros l' Hl'. unfold iflist in Hl'. cbn [s3 ifs interfaces set_can] in Hl'. rewrite Ei, En in Hl'.
    rewrite (chain_fun _ _ _ _ Hl' Hl1). intros E. apply list_elem_of_filter in E as [E _]. by apply E.
Qed.

(** The end of the thread, with other changes to the context. *)
Lemma gone_ok p c c' w w' : zc_ok None w -> deref p (z_slots w) = Some c -> slots_ok cc_device (z_slots w') ->
  slot_tab (z_slots w') = slot_tab (z_slots w) -> slot_thread (z_slots w') = slot_thread (thread_end p (z_slots w)) ->
  (forall q, deref q (z_slots w') = if decide (q = p) then Some c' else deref q (z_slots w)) ->
  cc_device c' = cc_device c -> cc_slot c' = cc_slot c -> cc_iface c' = cc_iface c -> cc_filter_id c' = cc_filter_id c ->
  (forall d, cd_filters (z_dev w' d) = cd_filters (z_dev w d)) -> zc_ok (Some p) w'.
Proof.
  intros Hw Hp Hz Et Eth Hd Edev Eslot Eif Efi Hf. pose proof (zo_slot _ _ Hw p c Hp) as Hsl. pose proof (zo_slots _ _ Hw) as Hs.
  apply (zc_ok_upd None (Some p) p c c' w); try done.
  - rewrite Eth, decide_True by done. by apply (thread_end_none cc_device).
  - intros i q Hi Hq. rewrite Eth. split; [by apply (thread_of_other cc_device p _ _ (cc_slot c))|]. split; [intros [=]; congruence|done].
  - by apply (filters_stay None p c).
Qed.

Lemma stopped_before p c c1 w w1 w' s' : (forall q, deref q (z_slots w1) = if decide (q = p) then Some c1 else deref q (z_slots w)) ->
  cc_device c1 = cc_device c -> cc_iface c1 = cc_iface c -> cc_filter_id c1 = cc_filter_id c -> (forall d, cd_filters (z_dev w1 d) = cd_filters (z_dev w d)) ->
  stopped p c1 w1 w' s' -> stopped p c w w' s'.
Proof.
  intros Hd Ed Ei Ef Hf (H1 & H2 & H3 & H4). rewrite Ed in H2. rewrite Ei in H4. split; [intros q; rewrite H1, Hd; by repeat case_decide|].
  split; [done|]. split; [|done]. intros d id. by rewrite H3, Ed, Ef, Hf.
Qed.

Lemma stop_can_spec a rx o p c w s : zc_ok None w -> deref p (z_slots w) = Some c -> zn_ok rx o w s ->
  exists r w' s', csp_can_stop a (Some p) w s = Ret (r, w') s' /\ zc_ok None w' /\ zn_ok rx o w' s' /\
  (0 <= r /\ stopped p c w w' s' \/
   r < 0 /\ s' = s /\ cc_started c = true /\ (b_stop a < 0 /\ w' = w \/ b_join a < 0 /\ touched p (set_cc_stop true c) s w w' /\ forall d, cd_filters (z_dev w' d) = cd_filters (z_dev w d))).
Proof.
  intros Hw Hp Hn. unfold csp_can_stop. rewrite (bind_ret _ _ _ c s) by (by apply zc_ctx_run).
  assert (Hput : forall x q, deref q (ctx_put p x (z_slots w)) = if decide (q = p) then Some x else deref q (z_slots w)) by (intros x q; apply deref_put; by eapply deref_lt).
  assert (Hok : forall x, cc_device x = cc_device c -> slots_ok cc_device (ctx_put p x (z_slots w))) by (intros x Hx; by apply (slots_ok_put cc_device p c); [apply Hw|..]).
  assert (Hfin : forall ret c1 w1, 0 <= ret -> slots_ok cc_device (z_slots w1) -> slot_tab (z_slots w1) = slot_tab (z_slots w) ->
    slot_thread (z_slots w1) = slot_thread (thread_end p (z_slots w)) -> (forall q, deref q (z_slots w1) = if decide (q = p) then Some c1 else deref q (z_slots w)) ->
    cc_device c1 = cc_device c -> cc_slot c1 = cc_slot c -> cc_iface c1 = cc_iface c -> cc_filter_id c1 = cc_filter_id c ->
    (forall d, cd_filters (z_dev w1 d) = cd_filters (z_dev w d)) ->
    exists r w' s', can_teardown ret p w1 s = Ret (r, w') s' /\ zc_ok None w' /\ zn_ok rx o w' s' /\ (0 <= r /\ stopped p c w w' s' \/
      r < 0 /\ s' = s /\ cc_started c = true /\ (b_stop a < 0 /\ w' = w \/ b_join a < 0 /\ touched p (set_cc_stop true c) s w w' /\ forall d, cd_filters (z_dev w' d) = cd_filters (z_dev w d)))).
  { intros ret c1 w1 Hret Hz Et Eth Hd Edev Eslot Eif Efi Hf.
    destruct (teardown_spec ret rx o p c1 w1 s) as (w' & s' & Hr & Hw' & Hn' & Hst).
    - by apply (gone_ok p c c1 w).
    - by rewrite Hd, decide_True.
    - revert Hn. apply zn_ok_same; [done|]. intros q x. rewrite Hd. case_decide; [intros [= <-]; subst q; by exists c|by exists x].
    - exists ret, w', s'. split; [done|]. split; [done|]. split; [done|]. left. split; [done|]. by apply (stopped_before p c c1 w w1). }
  assert (Hrun : forall on d, cd_filters (z_dev (can_run (cc_device c) on w) d) = cd_filters (z_dev w d)) by (intros on d; cbn; by destruct (Nat.eqb d _)).
  destruct (cc_started c) eqn:Est.
  - destruct (Z.ltb_spec (b_stop a) 0) as [Es|Es]; [exists (b_stop a), w, s; auto 15|]. unfold csp_can_finish_rx_thread.
    set (c2 := set_cc_stop true c). set (w1 := can_run (cc_device c) false w). set (w2 := zc_put p c2 w1). destruct (Z.ltb_spec (b_join a) 0) as [Ej|Ej].
    + rewrite (bind_ret _ _ _ (b_join a, w2) s).
      2:{ rewrite (bind_ret _ _ _ c s) by (by apply zc_ctx_run). done. }
      rewrite (proj2 (Z.ltb_lt _ _)) by done. assert (Ht : touched p c2 s w w2).
      { apply (touched_intro p c); try done; [|exact (Hput c2)]. apply (zc_ok_put None p c c2 w); try done. apply (filters_stay None p c); try done. apply Hrun. }
      exists (b_join a), w2, s. split; [done|]. destruct (Ht) as (H1 & _ & _ & H2). split; [done|]. split; [by apply H2|]. right. split; [done|]. split; [done|]. split; [done|]. right. split; [done|]. split; [done|]. apply Hrun.
    + set (w3 := zc_slots (thread_end p (z_slots w2)) w2). set (c4 := set_cc_msgq [] (set_cc_stop false c2)). set (w4 := zc_put p c4 w3).
      rewrite (bind_ret _ _ _ (b_join a, w4) s).
      2:{ rewrite (bind_ret _ _ _ c s) by (by apply zc_ctx_run). cbv zeta. fold w2. fold w3.
          rewrite (bind_ret _ _ _ c2 s); [done|]. apply zc_ctx_run. change (deref p (ctx_put p c2 (z_slots w)) = Some c2). by rewrite Hput, decide_True. }
      rewrite (proj2 (Z.ltb_ge _ _)) by done. apply (Hfin _ c4 w4); try done; [| |apply Hrun].
      * apply (slots_ok_put cc_device p c2); [by apply slots_ok_end, Hok| |done]. change (deref p (ctx_put p c2 (z_slots w)) = Some c2). by rewrite Hput, decide_True.
      * intros q. change (deref q (z_slots w4)) with (deref q (ctx_put p c4 (ctx_put p c2 (z_slots w)))).
        rewrite deref_put by (unfold ctx_put; cbn; rewrite length_insert; by eapply deref_lt). rewrite Hput. by repeat case_decide.
  - set (c1 := set_cc_msgq [] c). set (w1 := zc_put p c1 _). apply (Hfin _ c1 w1); try done; [|exact (Hput c1)].
    apply (slots_ok_put cc_device p c); [by apply slots_ok_end, Hw|done|done].
Qed.

(** ** Preparing *)

Definition can_prepared (device : nat) (w : zcan) (r : Z) (o : option nat) (w' : zcan) : Prop :=
  match o with
  | Some p => r = CSP_ERR_NONE /\ unowned cc_device device (z_slots w) /\ deref p (z_slots w) = None /\
      (forall q, q <> p -> deref q (z_slots w') = deref q (z_slots w)) /\ exists c f, deref p (z_slots w') = Some c /\ cc_device c = device /\
      cc_started c = false /\ 0 <= cc_filter_id c /\ cd_filters (z_dev w device) (cc_filter_id c) = None /\
      (forall d id, cd_filters (z_dev w' d) id = if decide (d = device /\ id = cc_filter_id c) then Some (Some p, f) else cd_filters (z_dev w d) id)
  | None => r <> CSP_ERR_NONE /\ (forall q, deref q (z_slots w') = deref q (z_slots w)) /\ (forall d, cd_filters (z_dev w' d) = cd_filters (z_dev w d))
  end.

(** The contexts as they were. *)
Lemma zc_ok_ext w w' : zc_ok None w -> slot_tab (z_slots w') = slot_tab (z_slots w) -> slot_thread (z_slots w') = slot_thread (z_slots w) ->
  (forall q, deref q (z_slots w') = deref q (z_slots w)) -> (forall d, cd_filters (z_dev w' d) = cd_filters (z_dev w d)) -> zc_ok None w'.
Proof.
  intros [Hs Hsl Hth Hfi Hif] Et Eh Hd Hf. constructor.
  - by apply (slots_ok_ext cc_device (z_slots w)).
  - intros p c. rewrite Hd, Et. apply Hsl.
  - intros p c. rewrite Hd, Eh. apply Hth.
  - intros d id p f. rewrite Hf. setoid_rewrite Hd. apply Hfi.
  - intros p q c c'. rewrite !Hd. apply Hif.
Qed.

(** A context that was allocated and freed again, in the node. *)
Lemma node_alloc_free rx o w w' s name addr : zn_ok rx o w s -> slot_tab (z_slots w') = slot_tab (z_slots w) ->
  (forall q, deref q (z_slots w') = deref q (z_slots w)) ->
  let s2 := node_alloc name addr s in zn_ok rx o w' (set_can (<[length (ifs s) := None]> (can s2)) s2).
Proof.
  intros [(T & HI) (l & Hl & Hin) Hc Hpb] Et Hd s2. destruct (node_alloc_ok T _ s l name addr HI Hl Hc) as (HI2 & Hl2 & _ & Ec2 & Ei2 & Ep2 & Hother). fold s2 in HI2, Hl2, Ec2, Ei2, Ep2, Hother.
  constructor.
  - exists (config_of s2). rewrite Et. by apply Inv_set_can.
  - exists l. split; [exact Hl2|]. intros p c. rewrite Hd. apply Hin.
  - cbn [can ifs set_can]. rewrite length_insert. lia.
  - intros p c. rewrite Hd. intros Hp. assert (Hne : cc_iface c <> length (ifs s)) by (pose proof (chain_lt _ _ _ _ Hl (Hin p c Hp)); lia).
    apply (pbuf_list_can _ _ s); [done| |by apply Hpb]. cbn [can set_can]. rewrite list_lookup_insert_ne by done. by apply Hother.
Qed.

(** A context that has been added, in the driver and in the node. *)
Lemma added_ok w w' k c f : zc_ok None w -> slot_tab (z_slots w) !! k = Some None -> unowned cc_device (cc_device c) (z_slots w) ->
  cc_slot c = k -> cc_started c = false -> 0 <= cc_filter_id c -> (forall q x, deref q (z_slots w) = Some x -> cc_iface x <> cc_iface c) ->
  let p := length (slot_heap (z_slots w)) in
  z_slots w' = thread_set k (Some (p, false)) (tab_set k (Some p) (snd (ctx_alloc c (z_slots w)))) ->
  (forall d id, cd_filters (z_dev w' d) id = if decide (d = cc_device c /\ id = cc_filter_id c) then Some (Some p, f) else cd_filters (z_dev w d) id) ->
  zc_ok None w' /\ forall q, deref q (z_slots w') = if decide (q = p) then Some c else deref q (z_slots w).
Proof.
  intros Hw Hk Hun Esl Est Hfi Hif p Ez Hf. pose proof (zo_slots _ _ Hw) as Hs. assert (Hkl : (k < length (slot_tab (z_slots w)))%nat) by (by eapply lookup_lt_Some).
  assert (Hd : forall q, deref q (z_slots w') = if decide (q = p) then Some c else deref q (z_slots w)) by (intros q; rewrite Ez; exact (deref_alloc c (z_slots w) q)).
  assert (Hnew : deref p (z_slots w) = None) by (unfold deref, p; by rewrite lookup_ge_None_2).
  assert (Hother : forall q x, deref q (z_slots w) = Some x -> cc_slot x <> k) by (intros q x Hq E; pose proof (zo_slot _ _ Hw q x Hq); congruence).
  split; [|done]. constructor.
  - rewrite Ez. apply slots_ok_create; [by apply slots_ok_add|]. cbn. by apply list_lookup_insert_eq.
  - intros q x. rewrite Hd, Ez. cbn. case_decide as E; [intros [= <-]; subst q; rewrite Esl; by apply list_lookup_insert_eq|]. intros Hq.
    rewrite list_lookup_insert_ne by (by eapply not_eq_sym, Hother). by apply (zo_slot _ _ Hw).
  - intros q x. rewrite Hd, Ez. rewrite (decide_False (P := None = Some q)) by done. cbn. case_decide as E.
    + intros [= <-]. subst q. rewrite Esl, Est. apply list_lookup_insert_eq. by rewrite (so_threads _ _ Hs).
    + intros Hq. rewrite list_lookup_insert_ne by (by eapply not_eq_sym, Hother). by rewrite (zo_thread _ _ Hw q x Hq), decide_False.
  - intros d id q g. rewrite Hf. case_decide as E.
    + intros [= <- <-]. exists c. rewrite Hd, decide_True by done. by destruct E as [-> ->].
    + intros Hq. destruct (zo_filter _ _ Hw d id q g Hq) as (x & Hx & Hr). exists x. rewrite Hd. rewrite decide_False by congruence. done.
  - intros q r x y. rewrite !Hd. repeat case_decide; intros H1 H2 E; simplify_eq; [done| | |by eapply (zo_iface _ _ Hw)].
    + symmetry in E. by destruct (Hif r y H2).
    + by destruct (Hif q x H1).
Qed.

Lemma held_add rx k p t x : t !! k = Some None -> Some p ∉ t ->
  (cnt x (held (fun q => if decide (q = p) then [] else rx q) (<[k := Some p]> t)) = cnt x (held rx t))%nat.
Proof.
  intros Hk Hp. set (g := fun (r : nat -> list nat) (o : option nat) => match o with Some q => r q | None => [] end). set (rx' := fun q => _).
  pose proof (cnt_flat_map_insert (g rx') t k None (Some p) x Hk) as E. cbn [g] in E. rewrite cnt_nil in E.
  replace (rx' p) with (@nil nat) in E by (unfold rx'; by rewrite decide_True). rewrite cnt_nil in E.
  assert (Eq : flat_map (g rx') t = flat_map (g rx) t); [|rewrite Eq in E; unfold held; fold (g rx') (g rx); lia].
  clear E Hk. induction t as [|o t IH]; [done|]. cbn. f_equal; [|by apply IH; intros Hin; apply Hp; right].
  destruct o as [q|]; [|done]. cbn. unfold rx'. rewrite decide_False; [done|]. intros ->. apply Hp. left.
Qed.

(** The node with the new interface. *)
Lemma zn_ok_added rx o w w' s s' k c l : zc_ok None w -> zn_ok rx o w s -> iflist s l -> slot_tab (z_slots w) !! k = Some None -> cc_iface c = length (ifs s) ->
  let p := length (slot_heap (z_slots w)) in let rx' q := if decide (q = p) then [] else rx q in
  slot_tab (z_slots w') = <[k := Some p]> (slot_tab (z_slots w)) -> (forall q, deref q (z_slots w') = if decide (q = p) then Some c else deref q (z_slots w)) ->
  (forall h, (exists T, Inv T h s) -> Inv (config_of s') h s') -> iflist s' (l ++ [length (ifs s)]) -> (length (can s') <= length (ifs s'))%nat -> pool s' = pool s ->
  can s' !! length (ifs s) = Some (Some (mkCan 0 (Some 0%nat) None)) -> (forall j, j <> length (ifs s) -> mjoin (can s' !! j) = mjoin (can s !! j)) -> zn_ok rx' o w' s'.
Proof.
  intros Hw [HI (l0 & Hl0 & Hin) Hc Hpb] Hl Hk Eif p rx' Et Hd HI' Hl' Hc' Ep Hcan Hother. rewrite (chain_fun _ _ _ _ Hl0 Hl) in Hin. constructor.
  - exists (config_of s'). apply HI'. destruct HI as [T HI]. exists T. eapply Inv_perm; [|exact HI]. intros x. rewrite Et, !cnt_app. f_equal. apply held_add; [done|].
    intros (j & Hj)%list_elem_of_lookup. destruct (so_live _ _ (zo_slots _ _ Hw) j p Hj) as [y Hy]. apply deref_lt in Hy. unfold p in Hy. lia.
  - exists (l ++ [length (ifs s)]). split; [done|]. intros q x. rewrite Hd, elem_of_app. case_decide as E; [intros [= <-]; right; rewrite Eif; by left|]. intros Hq. left. by eapply Hin.
  - done.
  - intros q x. rewrite Hd. unfold rx'. case_decide as E.
    + intros [= <-]. exists None. rewrite Eif. cbn. rewrite Hcan. split; [done|constructor].
    + intros Hq. apply (pbuf_list_can _ _ s); [done| |by apply Hpb]. apply Hother. pose proof (chain_lt _ _ _ _ Hl (Hin q x Hq)). lia.
Qed.

Section Prepare.
Context `{ZCanLaws}.

Lemma ctx_new_run name addr s : ctx_new name addr s = Ret (length (ifs s)) (set_ifs (ifs s ++ [new_iface name addr]) s).
Proof. reflexivity. Qed.

(** The way out when something fails. *)
Lemma prepare_undo device rx o w s name addr w1 e c : zc_ok None w -> zn_ok rx o w s -> z_slots w1 = snd (ctx_alloc c (z_slots w)) -> cc_iface c = length (ifs s) ->
  (forall d, cd_filters (z_dev w1 d) = cd_filters (z_dev w d)) -> e <> CSP_ERR_NONE -> exists r oi w' s',
  (w2 ← can_ctx_free (length (slot_heap (z_slots w))) w1; mret (e, @None nat, w2)) (node_alloc name addr s) = Ret (r, oi, w') s' /\
  can_inv o w' s' /\ can_prepared device w r oi w'.
Proof.
  intros Hw Hn E1 Ei Hf He. set (p := length _). set (s2 := node_alloc name addr s). set (i := length (ifs s)) in *.
  rewrite (bind_ret _ _ _ (zc_slots (ctx_free p (z_slots w1)) w1) (set_can (<[i := None]> (can s2)) s2)).
  - assert (Hd : forall q, deref q (ctx_free p (z_slots w1)) = deref q (z_slots w)) by (intros q; rewrite E1; apply deref_alloc_free).
    eexists _, _, _, _. split; [reflexivity|]. split; [split|done].
    + apply (zc_ok_ext w); cbn [z_slots z_dev zc_slots]; [done|by rewrite E1|by rewrite E1|exact Hd|exact Hf].
    + exists rx. apply (node_alloc_free rx o w); cbn [z_slots zc_slots]; [done|by rewrite E1|exact Hd].
  - unfold can_ctx_free. rewrite (bind_ret _ _ _ c s2); [by rewrite Ei|]. apply zc_ctx_run. rewrite E1, deref_alloc. by rewrite decide_True.
Qed.

Lemma prepare_can_spec a device devname ifname addr bitrate fa fm ri o w s : can_inv o w s ->
  exists r oi w' s', csp_can_prepare_interface a device devname ifname addr bitrate fa fm ri w s = Ret (r, oi, w') s' /\ can_inv o w' s' /\ can_prepared device w r oi w'.
Proof.
  intros [Hw [rx Hn]]. assert (Hsame : forall e, e <> CSP_ERR_NONE -> exists r oi w' s', Ret (e, @None nat, w) s = Ret (r, oi, w') s' /\ can_inv o w' s' /\ can_prepared device w r oi w').
  { intros e He. exists e, None, w, s. split; [done|]. split; [split; [done|by exists rx]|]. done. }
  unfold csp_can_prepare_interface. destruct (_ || negb ri); [by apply Hsame|]. cbv zeta. set (name := default devname ifname).
  destruct (scan_spec cc_device device (z_slots w) (zo_slots _ _ Hw)) as (r & Er & Hr). rewrite (bind_ret _ _ _ r s) by (by rewrite Er).
  destruct r as [|k]; [by apply Hsame|]. destruct Hr as [Hun Hk]. destruct (Nat.ltb_spec CSP_IFLIST_NAME_MAX (length name)) as [E|Hname]; [by apply Hsame|].
  destruct (zn_inv _ _ _ _ Hn) as [T HI]. destruct (zn_listed _ _ _ _ Hn) as (l & Hl & Hin). pose proof (zn_can _ _ _ _ Hn) as Hc.
  pose proof (get_by_name_find s l name Hl (Inv_named _ _ _ _ HI Hl)) as Hby. rewrite (bind_ret _ _ _ _ _ Hby).
  destruct (find _ l) as [j|]; [by apply Hsame|]. destruct (Nat.eqb_spec k (length (slot_tab (z_slots w)))) as [E|Hkl]; [by apply Hsame|].
  destruct Hk as [Hk|Hk]; [done|]. destruct (b_alloc a); cbn [negb]; [|by apply Hsame].
  rewrite (bind_ret _ _ _ _ _ (ctx_new_run name addr s)). rewrite (bind_ret _ _ _ tt (node_alloc name addr s)) by done.
  set (i := length (ifs s)). set (s2 := node_alloc name addr s). set (c0 := mkCanCtx _ _ _ _ _ _ _ _). set (p := length (slot_heap (z_slots w))).
  destruct (ctx_alloc c0 (z_slots w)) as [p0 z1] eqn:Ea. injection Ea as Ep Ez. assert (Ez1 : z1 = snd (ctx_alloc c0 (z_slots w))) by (by rewrite <- Ez).
  subst p0. clear Ez. fold p.
  assert (Hfree : forall w1 e c, z_slots w1 = snd (ctx_alloc c (z_slots w)) -> cc_iface c = i -> (forall d, cd_filters (z_dev w1 d) = cd_filters (z_dev w d)) -> e <> CSP_ERR_NONE ->
    exists r oi w' s', (w2 ← can_ctx_free p w1; mret (e, @None nat, w2)) s2 = Ret (r, oi, w') s' /\ can_inv o w' s' /\ can_prepared device w r oi w')
    by (intros w1 e c; by apply (prepare_undo device rx)).
  destruct (Z.ltb_spec (b_bitrate a) 0) as [Eb|Eb]; [apply (Hfree _ _ c0); [exact Ez1|done|done|unfold CSP_ERR_NONE; lia]|].
  set (w2 := can_set_rate device bitrate (zc_slots z1 w)). assert (Hf2 : forall d, cd_filters (z_dev w2 d) = cd_filters (z_dev w d)) by (intros d; cbn; by destruct (Nat.eqb d _)).
  destruct (set_filter_run a p c0 fa fm w2 s2) as [flt Hset]; [change (deref p z1 = Some c0); rewrite Ez1, deref_alloc; by rewrite decide_True|].
  change (filter_dropped c0 w2) with w2 in Hset. set (ret := zc_new_filter _ _) in Hset. rewrite (bind_ret _ _ _ _ _ Hset). clear Hset.
  destruct (Z.ltb_spec ret 0) as [Ef|Ef]; [apply (Hfree _ _ c0); [exact Ez1|done|exact Hf2|unfold CSP_ERR_NONE; lia]|]. clear Hfree.
  destruct (node_alloc_ok T _ s l name addr HI Hl Hc) as (_ & _ & Hcan & Elen2 & Eifs2 & _ & Hother). fold i s2 in Hcan, Elen2, Eifs2, Hother.
  destruct (node_add_ok T _ s l name addr HI Hl Hc Hname) as (s3 & Hadd & HI3 & Hl3 & Ecan & Elen & Epool); [exact Hby|]. fold i s2 in Hadd, Hl3, Ecan.
  rewrite (bind_ret _ _ _ _ _ Hadd). cbn [negb Z.eqb CSP_ERR_NONE]. set (c1 := set_cc_filter_id ret c0). set (w3 := zc_put p c1 _).
  assert (Ez3 : z_slots w3 = snd (ctx_alloc c1 (z_slots w))) by (change (ctx_put p c1 z1 = snd (ctx_alloc c1 (z_slots w))); rewrite Ez1; apply alloc_put).
  pose proof (free_stack cc_device (z_slots w) k (zo_slots _ _ Hw) Hk) as Hst. rewrite (bind_ret _ _ _ (thread_set k (Some (p, false)) (z_slots w3)) s3).
  2:{ unfold thread_create. rewrite Ez3. change (slot_thread (snd (ctx_alloc c1 (z_slots w)))) with (slot_thread (z_slots w)). by rewrite Hst. }
  set (w4 := zc_slots _ w3). assert (Ez4 : z_slots w4 = thread_set k (Some (p, false)) (tab_set k (Some p) (snd (ctx_alloc c1 (z_slots w))))) by (unfold w4; cbn [z_slots zc_slots]; by rewrite Ez3).
  assert (Hf4 : forall d id, cd_filters (z_dev w4 d) id = if decide (d = device /\ id = ret) then Some (Some p, flt) else cd_filters (z_dev w d) id).
  { intros d id. cbn. destruct (Nat.eqb_spec d device) as [Ed|Ed]; [|case_decide; [tauto|done]]. cbn. destruct (Z.eqb_spec id ret); case_decide; tauto. }
  assert (Hif : forall q x, deref q (z_slots w) = Some x -> cc_iface x <> i) by (intros q x Hq; pose proof (chain_lt _ _ _ _ Hl (Hin q x Hq)); unfold i; lia).
  destruct (added_ok w w4 k c1 flt Hw Hk Hun eq_refl eq_refl Ef Hif Ez4 Hf4) as [Hw4 Hd4]. fold p in Hd4.
  eexists _, (Some p), w4, s3. split; [reflexivity|]. split; [split; [exact Hw4|]|].
  - eexists. apply (zn_ok_added rx o w w4 s s3 k c1 l); try done.
    + by rewrite Ez4.
    + intros h [T' HI']. destruct (node_add_ok T' h s l name addr HI' Hl Hc Hname Hby) as (s3' & Hadd' & HI3' & _). fold i s2 in Hadd'. rewrite Hadd in Hadd'. by injection Hadd' as <-.
    + rewrite Ecan. lia.
    + rewrite Ecan. exact Hcan.
    + intros j Hj. rewrite Ecan. by apply Hother.
  - split; [done|]. split; [exact Hun|]. split; [unfold deref, p; by rewrite lookup_ge_None_2|]. split; [intros q Hq; rewrite Hd4; by rewrite decide_False|].
    exists c1, flt. rewrite Hd4, decide_True by done. split; [done|]. split; [done|]. split; [done|]. split; [exact Ef|]. split; [|exact Hf4].
    rewrite <- Hf2. by apply law_new_filter.
Qed.

End Prepare.

(** ** The filters of others *)

Section Foreign.
Context `{ZCanLaws}.

(** Context [p] has changed or has gone, and the controllers of the others are
    as they were. *)
Lemma fresh_upd p oc w w' : (forall q, deref q (z_slots w') = if decide (q = p) then oc else deref q (z_slots w)) ->
  (forall q x id, q <> p -> deref q (z_slots w) = Some x -> cd_filters (z_dev w' (cc_device x)) id = cd_filters (z_dev w (cc_device x)) id) ->
  (forall x, oc = Some x -> exists f, cd_filters (z_dev w' (cc_device x)) (cc_filter_id x) = Some (Some p, f)) -> fresh w -> fresh w'.
Proof.
  intros Hd Ho Hp Hf q x. rewrite Hd. case_decide as E; [subst q; apply Hp|]. intros Hq. destruct (Hf q x Hq) as [f Hx]. exists f. by rewrite (Ho q x).
Qed.

Lemma other_device gone p c q x w : zc_ok gone w -> deref p (z_slots w) = Some c -> q <> p -> deref q (z_slots w) = Some x -> cc_device x <> cc_device c.
Proof. intros Hw Hp Hne Hq E. by apply Hne, (so_dev _ _ (zo_slots _ _ Hw) q p x c). Qed.

Lemma set_filter_foreign a p c fa fm w s r w' : zc_ok None w -> deref p (z_slots w) = Some c -> fresh w ->
  csp_can_set_rx_filter a (Some p) fa fm w s = Ret (r, w') s -> foreign_kept w w' /\ (0 <= r -> fresh w').
Proof.
  intros Hw Hp Hf Hr. destruct (set_filter_spec a p c fa fm w s Hw Hp) as (r0 & w0 & c' & Hr0 & (_ & _ & Hd & _) & Ec & _ & Hnew).
  rewrite Hr in Hr0. injection Hr0 as <- <-. destruct (set_filter_run a p c fa fm w s Hp) as [flt Hrun]. rewrite Hr in Hrun. injection Hrun as Er Ew.
  set (w1 := filter_dropped c w) in *. set (ret := zc_new_filter _ _) in *.
  assert (Hother : forall d id, d <> cc_device c -> cd_filters (z_dev w' d) id = cd_filters (z_dev w d) id).
  { intros d id Hne. assert (E1 : cd_filters (z_dev w1 d) id = cd_filters (z_dev w d) id).
    { unfold w1, filter_dropped. destruct (0 <=? _); [|done]. cbn. by rewrite (proj2 (Nat.eqb_neq _ _)). }
    rewrite Ew. destruct (ret <? 0); [exact E1|]. cbn. by rewrite (proj2 (Nat.eqb_neq _ _)). }
  split.
  - intros d id f Hfor. destruct (decide (d = cc_device c)) as [->|]; [|by rewrite Hother].
    assert (E1 : cd_filters (z_dev w1 (cc_device c)) id = Some (None, f)).
    { unfold w1, filter_dropped. destruct (Z.leb_spec 0 (cc_filter_id c)) as [E|E]; [|done]. cbn. rewrite Nat.eqb_refl. cbn.
      destruct (Z.eqb_spec id (cc_filter_id c)) as [->|]; [|done]. destruct (Hf p c Hp) as [g Hg]. congruence. }
    rewrite Ew. destruct (Z.ltb_spec ret 0) as [E|E]; [done|]. cbn. rewrite Nat.eqb_refl. cbn. destruct (Z.eqb_spec id ret) as [->|]; [|done].
    pose proof (law_new_filter (b_filter a) (cd_filters (z_dev w1 (cc_device c))) E) as Hlaw. fold ret in Hlaw. congruence.
  - intros Hpos. apply (fresh_upd p (Some c') w); [exact Hd| | |done].
    + intros q x id Hne Hq. apply Hother. by apply (other_device None p c q x w).
    + intros x [= <-]. rewrite Ec, (proj2 (Z.ltb_ge _ _)) by done. by apply Hnew.
Qed.

Lemma prepare_foreign device w r oi w' : can_prepared device w r oi w' -> foreign_kept w w' /\ (fresh w -> fresh w').
Proof.
  destruct oi as [p|]; cbn.
  - intros (_ & Hun & Hp & Hd & c & f & Hc & Ed & _ & Hpos & Hfree & Hf). split.
    + intros d id g Hg. rewrite Hf. case_decide as E; [|done]. destruct E as [-> ->]. congruence.
    + apply (fresh_upd p (Some c)).
      * intros q. case_decide as E; [by subst q|by apply Hd].
      * intros q x id Hne Hq. rewrite Hf. rewrite decide_False; [done|]. intros [E _]. by destruct (Hun q x Hq).
      * intros x [= <-]. exists f. rewrite Hf, Ed. by rewrite decide_True.
  - intros (_ & Hd & Hf). split; [intros d id g Hg; by rewrite Hf|]. intros Hfr p c. rewrite Hd, Hf. apply Hfr.
Qed.

Lemma stop_foreign gone p c w w' s' : zc_ok gone w -> deref p (z_slots w) = Some c -> fresh w -> stopped p c w w' s' -> foreign_kept w w' /\ fresh w'.
Proof.
  intros Hw Hp Hfr (Hd & _ & Hf & _). split.
  - intros d id g Hg. rewrite Hf. case_decide as E; [|done]. destruct E as [-> ->]. destruct (Hfr p c Hp) as [f Hown]. congruence.
  - apply (fresh_upd p None w); [exact Hd| |done|done]. intros q x id Hne Hq. rewrite Hf. rewrite decide_False; [done|]. intros [E _].
    by apply (other_device gone p c q x w Hw Hp Hne Hq).
Qed.

End Foreign.
