(* ===== verification/ZephyrCanLife.v ===== *)
(** * ZephyrCanLife: CAN on Zephyr, from call to call

    The states that any sequence of calls and of arriving frames leads to, with
    what every call does there; reception; the header in the log; and two ways in
    which stopping goes wrong. *)

From S2P Require Import Prelude State Monad Id Buffer Iflist Qfifo Own OwnConf Node Pbuf Reassembly Can CanCfp2 Linux LinuxSpec GsUsbSpec Slots ZephyrCan ZephyrCanSpec.

(** ** Opening *)

Section Life.
Context `{ZCanLaws}.

Definition can_opened (device : nat) (w : zcan) (r : Z) (oi : option nat) (w' : zcan) : Prop :=
  match oi with
  | Some p => r = CSP_ERR_NONE /\ unowned cc_device device (z_slots w) /\ exists c, deref p (z_slots w') = Some c /\ cc_device c = device /\
      cc_started c = true /\ cd_running (z_dev w' device) = true
  | None => r <> CSP_ERR_NONE /\ forall q, deref q (z_slots w') = deref q (z_slots w)
  end.

(** What starting leaves as it is. *)
Lemma start_foreign p c c' s w w' : touched p c' s w w' -> deref p (z_slots w) = Some c -> cc_device c' = cc_device c -> cc_filter_id c' = cc_filter_id c ->
  (forall d, cd_filters (z_dev w' d) = cd_filters (z_dev w d)) -> foreign_kept w w' /\ (fresh w -> fresh w').
Proof.
  intros (_ & _ & Hd & _) Hp Ed Ef Hf. split; [intros d id f Hg; by rewrite Hf|]. intros Hfr. apply (fresh_upd p (Some c') w); [exact Hd|intros; by rewrite Hf| |done].
  intros x [= <-]. rewrite Hf, Ed, Ef. by apply Hfr.
Qed.

Lemma foreign_refl w : foreign_kept w w.
Proof. by intros d id f. Qed.

Lemma foreign_trans w w1 w2 : foreign_kept w w1 -> foreign_kept w1 w2 -> foreign_kept w w2.
Proof. intros H1 H2 d id f Hf. by apply H2, H1. Qed.

(** An interface that cannot be started is taken down again, and then nothing is
    left of it. *)
Lemma open_can_spec a device devname ifname addr bitrate fa fm o w s : can_inv o w s ->
  exists r oi w' s', csp_can_open_and_add_interface a device devname ifname addr bitrate fa fm w s = Ret (r, oi, w') s' /\ can_inv o w' s' /\
    can_opened device w r oi w' /\ (fresh w -> foreign_kept w w' /\ fresh w').
Proof.
  intros HJ. unfold csp_can_open_and_add_interface.
  destruct (prepare_can_spec a device devname ifname addr bitrate fa fm true o w s HJ) as (r & oi & w1 & s1 & Hr & HJ1 & Hpr). rewrite (bind_ret _ _ _ _ _ Hr).
  destruct (prepare_foreign device w r oi w1 Hpr) as [Hk1 Hf1]. destruct oi as [p|].
  2:{ destruct Hpr as (Hne & Hd & _). rewrite (proj2 (Z.eqb_neq _ _)) by done. cbn [negb]. exists r, None, w1, s1. split; [done|]. split; [done|]. split; [by split|]. auto. }
  destruct Hpr as (-> & Hun & Hp0 & Hd & c & f & Hp & Edev & Est & _). cbn [negb Z.eqb CSP_ERR_NONE]. destruct HJ1 as [Hw1 [rx Hn1]].
  destruct (start_can_spec a p c w1 s1 Hw1 Hp) as (r & w2 & c2 & Hr2 & Ht & Hf2 & [(-> & _ & -> & Hon)|(Hne & -> & -> & Hwhy)]); rewrite (bind_ret _ _ _ _ _ Hr2).
  - cbn [negb Z.eqb CSP_ERR_NONE]. exists CSP_ERR_NONE, (Some p), w2, s1. destruct (start_foreign p c _ s1 w1 w2 Ht Hp eq_refl eq_refl Hf2) as [Hk2 Hfr2].
    destruct (Ht) as (Hw2 & _ & Hd2 & Hz2). split; [done|]. split; [split; [done|]; exists rx; by apply Hz2|]. split.
    + split; [done|]. split; [done|]. exists (set_cc_started true c). rewrite Hd2, decide_True by done. rewrite <- Edev. auto.
    + intros Hfr. split; [by eapply foreign_trans|auto].
  - rewrite (proj2 (Z.eqb_neq _ _)) by done. cbn [negb].
    destruct (stop_can_spec a rx o p c w1 s1 Hw1 Hp Hn1) as (r3 & w3 & s3 & Hr3 & Hw3 & Hn3 & [[_ Hst]|(_ & _ & E & _)]); [|congruence].
    rewrite (bind_ret _ _ _ _ _ Hr3). exists r, None, w3, s3. split; [done|]. split; [split; [done|by exists rx]|]. split.
    + split; [done|]. destruct Hst as [Hd3 _]. intros q. rewrite Hd3. case_decide as E; [by subst q|by apply Hd].
    + intros Hfr. destruct (stop_foreign None p c w1 w3 s3 Hw1 Hp (Hf1 Hfr) Hst) as [Hk3 Hfr3]. split; [by eapply foreign_trans|done].
Qed.

(** ** Arriving frames *)

(** A frame that filter [id] of a controller lets through: it enters the message
    queue, of [depth] frames, or is lost when that is full. *)
Definition can_arrive (depth d : nat) (id : Z) (frame : zcan_frame) (w : zcan) : M (Z * zcan) :=
  match cd_filters (z_dev w d) id with
  | Some (Some p, _) =>
      c ← zc_ctx p w;
      mret (0, if Nat.ltb (length (cc_msgq c)) depth then zc_put p (set_cc_msgq (cc_msgq c ++ [frame]) c) w else w)
  | _ => mret (0, w)
  end.

Lemma arrive_spec depth d id frame w s : zc_ok None w -> exists r w', can_arrive depth d id frame w s = Ret (r, w') s /\ zc_ok None w' /\
  (forall rx o, zn_ok rx o w s -> zn_ok rx o w' s) /\ foreign_kept w w' /\ (fresh w -> fresh w').
Proof.
  intros Hw. unfold can_arrive. assert (Hid : exists r w', Ret (0, w) s = Ret (r, w') s /\ zc_ok None w' /\ (forall rx o, zn_ok rx o w s -> zn_ok rx o w' s) /\
    foreign_kept w w' /\ (fresh w -> fresh w')) by (exists 0, w; split; [done|]; split; [done|]; split; [done|]; split; [apply foreign_refl|done]).
  destruct (cd_filters (z_dev w d) id) as [[[p|] f]|] eqn:Ef; [|exact Hid..]. destruct (zo_filter _ _ Hw d id p f Ef) as (c & Hp & _).
  rewrite (bind_ret _ _ _ c s) by (by apply zc_ctx_run). destruct (Nat.ltb _ _); [|exact Hid]. set (c' := set_cc_msgq _ c).
  assert (Ht : touched p c' s w (zc_put p c' w)).
  { apply (touched_intro p c); try done; [|intros q; apply deref_put; by eapply deref_lt]. apply (zc_ok_put None p c c'); try done. by apply (filters_stay None p c). }
  exists 0, (zc_put p c' w). split; [done|]. destruct (Ht) as (H1 & _ & _ & H2). split; [done|]. split; [done|]. by apply (start_foreign p c c' s).
Qed.

(** ** Every sequence of calls *)

Inductive can_op :=
| CPrepare (a : can_answers) (device : nat) (devname : list Z) (ifname : option (list Z)) (address bitrate filter_addr filter_mask : Z) (return_iface : bool)
| COpen (a : can_answers) (device : nat) (devname : list Z) (ifname : option (list Z)) (address bitrate filter_addr filter_mask : Z)
| CStart (a : can_answers) (iface : option nat)
| CFilter (a : can_answers) (iface : option nat) (filter_addr filter_mask : Z)
| CStop (a : can_answers) (iface : option nat)
| CArrive (device : nat) (id : Z) (frame : zcan_frame).

Definition run_can (depth : nat) (op : can_op) (w : zcan) : M (Z * zcan) :=
  match op with
  | CPrepare a device devname ifname address bitrate fa fm ri =>
      '(r, _, w') ← csp_can_prepare_interface a device devname ifname address bitrate fa fm ri w; mret (r, w')
  | COpen a device devname ifname address bitrate fa fm =>
      '(r, _, w') ← csp_can_open_and_add_interface a device devname ifname address bitrate fa fm w; mret (r, w')
  | CStart a iface => csp_can_start a iface w
  | CFilter a iface fa fm => csp_can_set_rx_filter a iface fa fm w
  | CStop a iface => csp_can_stop a iface w
  | CArrive device id frame => can_arrive depth device id frame w
  end.

(** An interface may be passed while it has not been stopped. *)
Definition legal (op : can_op) (w : zcan) : Prop :=
  match op with
  | CStart _ (Some p) | CFilter _ (Some p) _ _ | CStop _ (Some p) => is_Some (deref p (z_slots w))
  | _ => True
  end.

(** What the call has done. *)
Definition can_post (op : can_op) (w : zcan) (r : Z) (w' : zcan) (s' : node) : Prop :=
  match op with
  | CPrepare _ device _ _ _ _ _ _ _ => exists oi, can_prepared device w r oi w'
  | COpen _ device _ _ _ _ _ _ => exists oi, can_opened device w r oi w'
  | CStart _ None | CFilter _ None _ _ | CStop _ None => r = CSP_ERR_INVAL /\ w' = w
  | CStart _ (Some p) => forall c, deref p (z_slots w) = Some c -> r <> CSP_ERR_NONE /\ w' = w \/
      r = CSP_ERR_NONE /\ cc_started c = false /\ deref p (z_slots w') = Some (set_cc_started true c) /\ cd_running (z_dev w' (cc_device c)) = true
  | CFilter _ (Some p) _ _ => forall c, deref p (z_slots w) = Some c -> forall id,
      (exists f, cd_filters (z_dev w' (cc_device c)) id = Some (Some p, f)) <-> 0 <= r /\ id = r
  | CStop _ (Some p) => forall c, deref p (z_slots w) = Some c -> 0 <= r /\ stopped p c w w' s' \/ r < 0 /\ cc_started c = true /\ is_Some (deref p (z_slots w'))
  | CArrive _ _ _ => True
  end.

Definition filter_failed (op : can_op) (r : Z) : Prop := match op with CFilter _ _ _ _ => r < 0 | _ => False end.

Lemma run_can_spec depth op o w s : can_inv o w s -> legal op w -> exists r w' s', run_can depth op w s = Ret (r, w') s' /\ can_inv o w' s' /\
  can_post op w r w' s' /\ (fresh w -> foreign_kept w w' /\ (filter_failed op r \/ fresh w')).
Proof.
  intros HJ Hleg. pose proof HJ as [Hw [rx Hn]].
  assert (Hnull : forall e, exists r w' s', Ret (e, w) s = Ret (r, w') s' /\ can_inv o w' s' /\ (r = e /\ w' = w) /\ (fresh w -> foreign_kept w w' /\ (filter_failed op r \/ fresh w')))
    by (intros e; exists e, w, s; split; [done|]; split; [done|]; split; [done|]; intros Hf; split; [apply foreign_refl|by right]).
  destruct op as [a device dn ifn addr rate fa fm ri|a device dn ifn addr rate fa fm|a [p|]|a [p|] fa fm|a [p|]|d id frame]; cbn [run_can legal can_post filter_failed] in *;
    try (apply Hnull); try (match type of Hleg with is_Some _ => destruct Hleg as [c Hp] end).
  - destruct (prepare_can_spec a device dn ifn addr rate fa fm ri o w s HJ) as (r & oi & w' & s' & Hr & HJ' & Hpr). rewrite (bind_ret _ _ _ _ _ Hr).
    destruct (prepare_foreign device w r oi w' Hpr) as [Hk Hf]. exists r, w', s'. split; [done|]. split; [done|]. split; [by exists oi|auto].
  - destruct (open_can_spec a device dn ifn addr rate fa fm o w s HJ) as (r & oi & w' & s' & Hr & HJ' & Hpr & Hf). rewrite (bind_ret _ _ _ _ _ Hr).
    exists r, w', s'. split; [done|]. split; [done|]. split; [by exists oi|]. intros Hfr. destruct (Hf Hfr). auto.
  - destruct (start_can_spec a p c w s Hw Hp) as (r & w' & c' & Hr & Ht & Hf & Hcase). exists r, w', s. split; [done|]. destruct (Ht) as (Hw' & _ & Hd & Hn').
    split; [split; [done|]; exists rx; by apply Hn'|]. split.
    + intros x Hx. rewrite Hp in Hx. injection Hx as <-. destruct Hcase as [(-> & Est & -> & Hon)|(Hne & _ & -> & _)]; [right|by left].
      rewrite Hd, decide_True by done. auto.
    + assert (Hc : cc_device c' = cc_device c /\ cc_filter_id c' = cc_filter_id c) by (by destruct Hcase as [(_ & _ & -> & _)|(_ & -> & _)]).
      destruct (start_foreign p c c' s w w' Ht Hp (proj1 Hc) (proj2 Hc) Hf). auto.
  - destruct (set_filter_spec a p c fa fm w s Hw Hp) as (r & w' & c' & Hr & (Hw' & _ & Hd & Hn') & _ & Hown & Hnew). exists r, w', s. split; [done|].
    split; [split; [done|]; exists rx; by apply Hn'|]. split.
    + intros x Hx. rewrite Hp in Hx. injection Hx as <-. intros id. split; [intros [f Hf]; by eapply Hown|]. intros [Hpos ->]. by apply Hnew.
    + intros Hfr. destruct (set_filter_foreign a p c fa fm w s r w' Hw Hp Hfr Hr) as [Hk Hf]. split; [done|]. destruct (Z.lt_ge_cases r 0); auto.
  - destruct (stop_can_spec a rx o p c w s Hw Hp Hn) as (r & w' & s' & Hr & Hw' & Hn' & Hcase). exists r, w', s'. split; [done|]. split; [split; [done|by exists rx]|].
    destruct Hcase as [[Hpos Hst]|(Hneg & _ & Est & Hwhy)].
    + split; [intros x Hx; rewrite Hp in Hx; injection Hx as <-; by left|]. intros Hfr. destruct (stop_foreign None p c w w' s' Hw Hp Hfr Hst). auto.
    + assert (Hkeep : is_Some (deref p (z_slots w')) /\ (fresh w -> foreign_kept w w' /\ fresh w')).
      { destruct Hwhy as [[_ ->]|(_ & Ht & Hfl)]; [split; [by exists c|]; intros Hfr; split; [apply foreign_refl|done]|]. destruct (Ht) as (_ & _ & Hd & _).
        split; [rewrite Hd, decide_True by done; by eexists|]. intros Hfr. destruct (start_foreign p c _ s w w' Ht Hp eq_refl eq_refl Hfl). auto. }
      destruct Hkeep as [Hlive Hf]. split; [|intros Hfr; destruct (Hf Hfr); auto]. intros x Hx. rewrite Hp in Hx. injection Hx as <-. right. auto.
  - destruct (arrive_spec depth d id frame w s Hw) as (r & w' & Hr & Hw' & Hn' & Hk & Hf). exists r, w', s. split; [done|]. split; [split; [done|]; exists rx; by apply Hn'|]. auto.
Qed.

(** The states of driver and node: from a driver without contexts and a sound
    node, by calls and arriving frames, and by whatever the rest of the stack
    does, as long as it leaves the interfaces and their packets alone. *)
Inductive can_reach (depth n : nat) : zcan -> node -> Prop :=
| cr_boot devs T o s : (forall d id p f, cd_filters (devs d) id <> Some (Some p, f)) -> Inv T o s -> (length (can s) <= length (ifs s))%nat ->
    can_reach depth n (mkZcan (slots_empty n) devs) s
| cr_call op w s r w' s' : can_reach depth n w s -> legal op w -> run_can depth op w s = Ret (r, w') s' -> can_reach depth n w' s'
| cr_node rx o w s s' : can_reach depth n w s -> zn_ok rx o w s' -> can_reach depth n w s'.

Lemma boot_inv n devs T o s : (forall d id p f, cd_filters (devs d) id <> Some (Some p, f)) -> Inv T o s -> (length (can s) <= length (ifs s))%nat ->
  can_inv o (mkZcan (slots_empty n) devs) s.
Proof.
  intros Hf HI Hc. assert (Hno : forall p (c : can_context), deref p (slots_empty n) <> Some c) by (intros p c E; cbn in E; discriminate E). split; [constructor; cbn|exists (fun _ => []); constructor; cbn].
  - apply slots_empty_ok.
  - intros p c E. by destruct (Hno p c).
  - intros p c E. by destruct (Hno p c).
  - intros d id p f E. by destruct (Hf d id p f).
  - intros p q c c' E. by destruct (Hno p c).
  - exists T. assert (Eh : forall m, held (fun _ => []) (replicate m None) = []) by (induction m as [|m IH]; [done|exact IH]).
    change (Inv T (held (fun _ => []) (replicate n None) ++ o) s). by rewrite Eh.
  - destruct (Inv_iflist_ok _ _ _ HI) as (l & Hl & _). exists l. split; [done|]. intros p c E. by destruct (Hno p c).
  - done.
  - intros p c E. by destruct (Hno p c).
Qed.

Lemma reach_inv depth n w s : can_reach depth n w s -> exists o, can_inv o w s.
Proof.
  induction 1 as [devs T o s Hf HI Hc|op w s r w' s' _ [o HJ] Hleg Hr|rx o w s s' _ [o' [Hw _]] Hn].
  - exists o. by apply (boot_inv n devs T).
  - exists o. destruct (run_can_spec depth op o w s HJ Hleg) as (r0 & w0 & s0 & Hr0 & HJ' & _). rewrite Hr in Hr0. by injection Hr0 as _ <- <-.
  - exists o. split; [done|by exists rx].
Qed.

(** C24. The life of a CAN interface on Zephyr: from the start of the driver, every
    sequence of [csp_can_prepare_interface], [csp_can_open_and_add_interface],
    [csp_can_start], [csp_can_set_rx_filter] and [csp_can_stop] on interfaces that
    have not been stopped, and of arriving frames, whatever the system answers,
    returns and uses no freed context, no stack of a thread, no queue that is not
    there.  In every state it reaches the contexts in memory are those in the
    table, a controller has at most one, a filter feeds only the queue of the
    context that has its number, every thread is that of its context, the stack
    knows every interface, and the packets an interface is receiving are held by
    it alone.  A successful [csp_can_stop] takes the interface out of the list and
    the filter out of the controller, and gives the packets back to the pool; one
    that fails leaves a started interface in place.  An interface that was opened
    receives; when opening fails, contexts are as before.  No call touches a
    filter of the application, unless setting a filter has failed before. *)
Theorem can_lifecycle depth n w s : can_reach depth n w s ->
  (exists o, can_inv o w s) /\
  forall op o, legal op w -> can_inv o w s -> exists r w' s', run_can depth op w s = Ret (r, w') s' /\ can_inv o w' s' /\ can_post op w r w' s' /\
    (fresh w -> foreign_kept w w' /\ (filter_failed op r \/ fresh w')).
Proof. intros HR. split; [by eapply reach_inv|]. intros op o Hleg HJ. by apply run_can_spec. Qed.

(** ** Where it goes wrong *)

(** When a new filter cannot be set, the old one is gone but its number is kept:
    if the application gets that number for a filter of its own, stopping the
    interface removes it. *)
Lemma stale_filter rx o a b p c fa fm w s : zc_ok None w -> zn_ok rx o w s -> deref p (z_slots w) = Some c -> cc_started c = false ->
  zc_new_filter (b_filter a) (cd_filters (z_dev (filter_dropped c w) (cc_device c))) < 0 ->
  exists r w', csp_can_set_rx_filter a (Some p) fa fm w s = Ret (r, w') s /\ r < 0 /\ deref p (z_slots w') = Some c /\
  forall g, let w2 := zc_dev (cc_device c) (fun x => mkCanDev (cd_rate x) (fun j => if j =? cc_filter_id c then Some (None, g) else cd_filters x j) (cd_running x)) w' in
  exists r3 w3 s3, csp_can_stop b (Some p) w2 s = Ret (r3, w3) s3 /\ 0 <= r3 /\
    cd_filters (z_dev w2 (cc_device c)) (cc_filter_id c) = Some (None, g) /\ cd_filters (z_dev w3 (cc_device c)) (cc_filter_id c) = None.
Proof.
  intros Hw Hn Hp Est Hno. destruct (set_filter_run a p c fa fm w s Hp) as [flt Hr]. rewrite (proj2 (Z.ltb_lt _ _)) in Hr by done.
  destruct (set_filter_spec a p c fa fm w s Hw Hp) as (r & w' & c' & Hr' & (Hw' & Et & Hd & Hn') & Ec & _). rewrite Hr in Hr'. injection Hr' as <- <-.
  eexists _, _. split; [exact Hr|]. split; [done|]. rewrite Hd, decide_True by done. rewrite (proj2 (Z.ltb_lt _ _)) in Ec by done. subst c'. split; [done|]. intros g w2.
  assert (Hw2 : zc_ok None w2).
  { destruct Hw' as [H1 H2 H3 H4 H5]. constructor; [done..| |done]. intros d id q f. cbn. destruct (Nat.eqb d _); [|apply H4]. cbn. destruct (id =? _); [done|apply H4]. }
  assert (Hp2 : deref p (z_slots w2) = Some c) by (change (deref p (z_slots (filter_dropped c w)) = Some c); rewrite Hd; by rewrite decide_True).
  assert (Hn2 : zn_ok rx o w2 s) by (revert Hn; intros Hn; apply Hn' in Hn; revert Hn; apply zn_ok_same; [done|eauto]).
  destruct (stop_can_spec b rx o p c w2 s Hw2 Hp2 Hn2) as (r3 & w3 & s3 & Hr3 & _ & _ & [(Hpos & _ & _ & Hf & _)|(_ & _ & E & _)]); [|congruence].
  exists r3, w3, s3. split; [done|]. split; [done|]. split; [cbn; rewrite Nat.eqb_refl; cbn; by rewrite Z.eqb_refl|]. rewrite Hf. by rewrite decide_True.
Qed.

(** When the thread does not end in time, the controller has been stopped and the
    interface counts as started: it cannot be started, and as long as [can_stop]
    of a stopped controller fails it cannot be stopped either. *)
Lemma join_failure_stuck a b p c w s : deref p (z_slots w) = Some c -> cc_started c = true -> 0 <= b_stop a -> b_join a < 0 -> b_stop b < 0 ->
  exists w', csp_can_stop a (Some p) w s = Ret (b_join a, w') s /\ cd_running (z_dev w' (cc_device c)) = false /\
    csp_can_start b (Some p) w' s = Ret (CSP_ERR_ALREADY, w') s /\ csp_can_stop b (Some p) w' s = Ret (b_stop b, w') s.
Proof.
  intros Hp Est Ha Hj Hb. set (c' := set_cc_stop true c). set (w' := zc_put p c' (can_run (cc_device c) false w)). exists w'.
  assert (Hp' : deref p (z_slots w') = Some c') by (change (deref p (ctx_put p c' (z_slots w)) = Some c'); rewrite deref_put by (by eapply deref_lt); by rewrite decide_True).
  assert (Est' : cc_started c' = true) by done. split; [|split; [cbn; by rewrite Nat.eqb_refl|split]].
  - unfold csp_can_stop. rewrite (bind_ret _ _ _ c s) by (by apply zc_ctx_run). rewrite Est, (proj2 (Z.ltb_ge _ _)) by done. rewrite (bind_ret _ _ _ (b_join a, w') s).
    + by rewrite (proj2 (Z.ltb_lt _ _)).
    + unfold csp_can_finish_rx_thread. rewrite (bind_ret _ _ _ c s) by (by apply zc_ctx_run). cbv zeta. by rewrite (proj2 (Z.ltb_lt _ _)).
  - unfold csp_can_start. rewrite (bind_ret _ _ _ c' s) by (by apply zc_ctx_run). by rewrite Est'.
  - unfold csp_can_stop. rewrite (bind_ret _ _ _ c' s) by (by apply zc_ctx_run). rewrite Est'. by rewrite (proj2 (Z.ltb_lt _ _)).
Qed.

(** Stopping does not look at who else refers to the interface: the routes to it
    are still there when its memory has been freed. *)
Lemma keeps_remove_routes o : keeps rtable (csp_iflist_remove o).
Proof.
  intros s. pose proof (keeps_remove_links o s) as E. destruct (csp_iflist_remove o s) as [a s'| | |]; [|done..].
  exact (f_equal (fun x => snd (fst (fst (fst (fst (fst x)))))) E).
Qed.

Lemma keeps_pb_set_routes d v : keeps rtable (pb_set d v).
Proof. intros s. unfold pb_set. destruct (pb_head d s); [|done]. by destruct d. Qed.

Lemma keeps_free_routes fuel i : keeps rtable (can_free_pbufs fuel i).
Proof. induction fuel as [|fuel IH]; cbn [can_free_pbufs]; unfold csp_buffer_free, csp_buffer_free_pkt; repeat first [exact IH|apply keeps_pb_set_routes|keeps_step]. Qed.

Lemma stop_leaves_routes a p w : keeps rtable (csp_can_stop a (Some p) w).
Proof.
  unfold csp_can_stop, can_teardown, csp_can_finish_rx_thread, csp_can_remove_rx_filter, can_ctx_free, zc_ctx, csp_can_remove_interface.
  repeat first [apply keeps_remove_routes|apply keeps_free_routes|keeps_step].
Qed.

End Life.

(** Four filters a controller; the first that is free is taken. *)
Definition four_filters : ZCan := {|
  zc_new_filter _ f := match find (fun i => match f i with None => true | Some _ => false end) [0; 1; 2; 3] with Some i => i | None => -28 end
|}.

Lemma four_filters_laws : ZCanLaws (H := four_filters).
Proof.
  constructor. intros n f. cbn [zc_new_filter four_filters]. destruct (find _ [0; 1; 2; 3]) as [i|] eqn:E; [|lia]. intros _. apply find_some in E as [_ E].
  by destruct (f i).
Qed.

Definition good_can : can_answers := mkCanAnswers true true 0 0 0 0 0.
Definition idle_can (d : nat) : can_dev := mkCanDev 0 (fun _ => None) false.
(** An interface ["CAN0"] on controller 3 of a driver with two entries. *)
Definition open_can0 : can_op := COpen good_can 3 [67] (Some [67; 65; 78; 48]) 9 500000 9 31.

Lemma can_lifecycle_witness : exists r w' s', run_can (H := four_filters) 5 open_can0 (mkZcan (slots_empty 2) idle_can) bus_node = Ret (r, w') s' /\
  can_inv [] w' s' /\ r = CSP_ERR_NONE.
Proof.
  destruct (can_lifecycle (H := four_filters) (H0 := four_filters_laws) 5 2 (mkZcan (slots_empty 2) idle_can) bus_node) as [_ Hop].
  - apply (cr_boot 5 2 idle_can (config_of bus_node) []); [done|exact bus_node_inv|vm_compute; lia].
  - destruct (Hop open_can0 []) as (r & w' & s' & Hr & HJ & _).
    + exact I.
    + apply (boot_inv 2 idle_can (config_of bus_node)); [done|exact bus_node_inv|vm_compute; lia].
    + exists r, w', s'. split; [exact Hr|]. split; [exact HJ|].
      assert (E : match run_can (H := four_filters) 5 open_can0 (mkZcan (slots_empty 2) idle_can) bus_node with Ret (x, _) _ => x = CSP_ERR_NONE | _ => False end)
        by (vm_compute; reflexivity).
      rewrite Hr in E. exact E.
Defined.

(** ** Receiving *)

(** A turn of the receive thread is safe on any frame of at most 8 bytes: it
    returns, keeps the ownership invariant and the list of packets being
    received, and takes at most the frame at the head of the queue. *)
Lemma zephyr_can_rx_safe `{Platform} T h l p c w s : version (cf_conf T) = 2 -> valid_if T (cc_iface c) -> deref p (z_slots w) = Some c ->
  receiver (PbCan (cc_iface c)) pbuf2_ok CFP2_ID_CONN_MASK T h l s -> can_take l s ->
  (forall f, f ∈ cc_msgq c -> zlen (zf_data f) = CAN_MAX_DLC /\ 0 <= zf_dlc f <= CAN_MAX_DLC) ->
  exists go w' s' l', zephyr_can_rx_turn p w s = Ret (go, w') s' /\ receiver (PbCan (cc_iface c)) pbuf2_ok CFP2_ID_CONN_MASK T h l' s' /\
    go = negb (cc_stop c) /\ deref p (z_slots w') = Some (if cc_stop c then c else set_cc_msgq (tail (cc_msgq c)) c).
Proof.
  intros Hver Hi Hp HR Ht Hfr. unfold zephyr_can_rx_turn. rewrite (bind_ret _ _ _ c s) by (by apply zc_ctx_run).
  destruct (cc_stop c) eqn:Es; [by exists false, w, s, l|]. destruct (cc_msgq c) as [|f q] eqn:Eq.
  { exists true, w, s, l. split; [done|]. split; [done|]. split; [done|]. rewrite Hp. destruct c; cbn in *. by subst. }
  set (w' := zc_put p (set_cc_msgq q c) w). destruct (Hfr f ltac:(left)) as [Hdata Hdlc].
  assert (Hp' : deref p (z_slots w') = Some (set_cc_msgq q c)) by (unfold w'; cbn [z_slots zc_put zc_slots]; rewrite deref_put by (by eapply deref_lt); by rewrite decide_True).
  assert (Hdrop : exists go w0 s' l', Ret (true, w') s = Ret (go, w0) s' /\ receiver (PbCan (cc_iface c)) pbuf2_ok CFP2_ID_CONN_MASK T h l' s' /\
    go = negb false /\ deref p (z_slots w0) = Some (set_cc_msgq (tail (f :: q)) c)) by (by exists true, w', s, l).
  destruct (negb (zf_ide f)); [exact Hdrop|]. destruct (zf_rtr f); [exact Hdrop|]. clear Hdrop.
  assert (Ev : version (conf s) = 2) by (pose proof (inv_conf _ _ _ (rcv_inv _ _ _ _ _ _ _ HR)) as <-; exact Hver).
  destruct (proj1 (wp_run _ _ _) (wp_can2_rx T (cc_iface c) h Hver Hi l (zf_id f) (zf_data f) (zf_dlc f) false s HR Ht ltac:(unfold CAN_MAX_DLC in *; lia)))
    as (r & s' & E & l' & HR' & _). exists true, w', s', l'. split; [|done]. erewrite bind_ret; [reflexivity|].
  unfold csp_can_rx. rewrite (bind_ret _ _ _ s s) by done. rewrite Ev. exact E.
Qed.

(** ** The log *)

Lemma shifted_bytes a b c d : is_byte a -> is_byte b -> is_byte c -> is_byte d ->
  Z.lor (Z.lor (Z.lor (Z.shiftl a 24) (Z.shiftl b 16)) (Z.shiftl c 8)) d = be_val [a; b; c; d].
Proof.
  unfold is_byte. intros Ha Hb Hc Hd. rewrite !Z.shiftl_mul_pow2 by lia. rewrite (lor_add (a * 2 ^ 24) _ 24) by zlia.
  rewrite (lor_add _ (c * 2 ^ 8) 16) by zlia. rewrite (lor_add _ d 8) by zlia. cbn. lia.
Qed.

(** The header in the log is the header of the packet: of a frame that begins a
    packet, what [csp_can_log_csp_header] shows are the fields that
    [csp_id_strip] finds in it. *)
Lemma log_header_v1 s id data dlc a b c d rest : version (conf s) = 1 -> CFP_TYPE id = 0 -> 4 <= dlc -> data = a :: b :: c :: d :: rest ->
  bytes_ok [a; b; c; d] -> csp_can_log_csp_header s id data dlc = Some (dec1 false (take 4 data)).
Proof.
  intros Hv Ht Hd -> Hb. unfold csp_can_log_csp_header. rewrite Hv, Ht. cbn [Z.eqb Pos.eqb negb orb]. rewrite (proj2 (Z.ltb_ge _ _)) by done. cbn [nth].
  pose proof Hb as Hb'. unfold bytes_ok in Hb'. rewrite !list.Forall_cons in Hb'. destruct Hb' as (Ha & Hb' & Hc' & Hd' & _).
  rewrite shifted_bytes by done. cbn [take dec1]. unfold dec1, be32toh, htobe32. rewrite le_bytes_val' by done. reflexivity.
Qed.

Lemma log_header_v2 s id data dlc a b c d rest : version (conf s) = 2 -> can2_is_begin id = true -> 4 <= dlc -> data = a :: b :: c :: d :: rest ->
  bytes_ok [a; b; c; d] -> csp_can_log_csp_header s id data dlc = Some (dec2 (be_bytes 2 (Z.shiftr id CFP2_DST_OFFSET) ++ take 4 data)).
Proof.
  intros Hv Ht Hd -> Hb. unfold csp_can_log_csp_header. rewrite Hv. cbn [Z.eqb Pos.eqb negb orb]. unfold can2_is_begin in Ht. rewrite Ht.
  rewrite (proj2 (Z.ltb_ge _ _)) by done. cbn [nth negb orb].
  pose proof Hb as Hb'. unfold bytes_ok in Hb'. rewrite !list.Forall_cons in Hb'. destruct Hb' as (Ha & Hb' & Hc' & Hd' & _). unfold is_byte in *.
  set (x := Z.shiftr id CFP2_DST_OFFSET). change 0xFFFF with (Z.ones 16). change 0xFF with (Z.ones 8). rewrite !Z.land_ones by lia. unfold u16. rewrite Z.mod_mod by lia.
  set (hi := x mod 2 ^ 16). assert (Hhi : 0 <= hi < 2 ^ 16) by (apply Z.mod_pos_bound; lia).
  assert (E : be_bytes 2 x = [hi / 256; hi mod 256]) by (unfold be_bytes, hi; cbn; f_equal; [zlia|f_equal; zlia]).
  rewrite E, dec2_be; [|cbn; repeat constructor; unfold is_byte; zlia|done]. unfold id2_unpack. set (h := Z.lor _ d).
  assert (Eh : h = be_val ([hi / 256; hi mod 256] ++ take 4 (a :: b :: c :: d :: rest))).
  { unfold h. rewrite !Z.shiftl_mul_pow2, Z.shiftr_div_pow2 by lia. rewrite (lor_add (hi / 2 ^ 8 * 2 ^ 40) _ 40) by zlia.
    rewrite (lor_add _ (a * 2 ^ 24) 32) by zlia. rewrite (lor_add _ (b * 2 ^ 16) 24) by zlia. rewrite (lor_add _ (c * 2 ^ 8) 16) by zlia.
    rewrite (lor_add _ d 8) by zlia. unfold be_val. cbn [take app reverse rev_append le_val]. change (2 ^ 8) with 256. rewrite firstn_O. cbn [rev_append le_val]. lia. }
  by rewrite <- Eh.
Qed.
