(* ===== verification/ZephyrKiss.v ===== *)
(** * ZephyrKiss: KISS over a serial line on Zephyr
    ([src/drivers/usart/usart_kiss.c], the functions for Zephyr)

    Preparing, starting, closing and opening an interface, on top of the serial
    driver of [ZephyrUart], whose callback is given the KISS context. *)

From S2P Require Import Prelude State Monad Buffer Iflist Kiss Own Linux Slots ZephyrUart.

(** [kiss_context_t]: [kc_iface] is the interface embedded in it. *)
Record kiss_context := mkKissCtx { kc_name : list Z; kc_iface : nat; kc_fd : nat }.

(** The serial driver, and the contexts; a pointer is an index, [None] is memory
    that was freed. *)
Record zkiss := mkZkiss { zk_uart : uart; zk_heap : list (option kiss_context) }.

Definition zk_ctx (p : nat) (z : zkiss) : M kiss_context := of_option (mjoin (zk_heap z !! p)).

(** [free(ctx)]: the interface and its data go with the context. *)
Definition kiss_ctx_free (p : nat) (z : zkiss) : M zkiss :=
  k ← zk_ctx p z;
  modify (fun s => set_kiss (<[kc_iface k := None]> (kiss s)) s) ;;
  mret (mkZkiss (zk_uart z) (<[p := None]> (zk_heap z))).

(** The callback of the serial driver; [user_data] is the context. *)
Definition kiss_driver_rx (user_data : nat) (data : list Z) (isr : bool) (z : zkiss) : M unit :=
  k ← zk_ctx user_data z;
  csp_kiss_rx (kc_iface k) data isr.

Section Calls.
Context (irq : bool).

(** The status, the interface and the state; [alloc] is whether [calloc] gives
    memory, [a] what the serial driver is answered. *)
Definition csp_kiss_prepare (a : uart_answers) (alloc : bool) (device : nat) (devname : list Z) (config : option uart_config) (ifname : option (list Z))
    (addr : Z) (return_iface : bool) (z : zkiss) : M (Z * option nat * zkiss) :=
  let ifname := default CSP_IF_KISS_DEFAULT_NAME ifname in
  if negb return_iface || Nat.ltb CSP_IFLIST_NAME_MAX (length ifname) then mret (CSP_ERR_INVAL, None, z) else
  other ← csp_iflist_get_by_name ifname;
  match other with
  | Some _ => mret (CSP_ERR_INVAL, None, z)
  | None =>
      if negb alloc then mret (CSP_ERR_NOMEM, None, z) else
      i ← ctx_new ifname addr;
      modify (fun s => set_kiss (put_dev i (mkKiss (Some 0%nat) KISS_MODE_NOT_STARTED 0 false None) (kiss s)) s) ;;
      let p := length (zk_heap z) in
      let ctx fd := mkKissCtx (take CSP_IFLIST_NAME_MAX ifname) i fd in
      '(ret, fd, u) ← of_option (csp_usart_prepare irq a device devname config (Some p) true (zk_uart z));
      let z := mkZkiss u (zk_heap z ++ [Some (ctx (default 0%nat fd))]) in
      if negb (ret =? CSP_ERR_NONE) then (z ← kiss_ctx_free p z; mret (ret, None, z)) else
      ret ← csp_kiss_add_interface (Some i);
      if negb (ret =? CSP_ERR_NONE) then
        k ← zk_ctx p z;
        '(_, u) ← of_option (csp_usart_close irq a (kc_fd k) (zk_uart z));
        z ← kiss_ctx_free p (mkZkiss u (zk_heap z));
        mret (ret, None, z)
      else mret (CSP_ERR_NONE, Some p, z)
  end.

(** [iface] is the [driver_data] of an interface, the context, or [None] for a
    NULL pointer. *)
Definition csp_kiss_start (iface : option nat) (z : zkiss) : M (Z * zkiss) :=
  match iface with
  | None => mret (CSP_ERR_INVAL, z)
  | Some p =>
      k ← zk_ctx p z;
      '(ret, u) ← of_option (csp_usart_start irq (kc_fd k) (zk_uart z));
      mret (ret, mkZkiss u (zk_heap z))
  end.

Definition csp_kiss_close (a : uart_answers) (iface : option nat) (z : zkiss) : M (Z * zkiss) :=
  match iface with
  | None => mret (CSP_ERR_INVAL, z)
  | Some p =>
      k ← zk_ctx p z;
      '(ret, u) ← of_option (csp_usart_close irq a (kc_fd k) (zk_uart z));
      let z := mkZkiss u (zk_heap z) in
      if negb (ret =? CSP_ERR_NONE) then mret (ret, z) else
      csp_iflist_remove (Some (kc_iface k)) ;;
      d ← get_kiss (kc_iface k);
      when (bool_decide (rx_packet d <> None)) (csp_buffer_free (rx_packet d)) ;;
      z ← kiss_ctx_free p z;
      mret (CSP_ERR_NONE, z)
  end.

(** [csp_usart_open_and_add_kiss_interface] of Zephyr: [binding] is
    [device_get_binding], [device] the name in the configuration. *)
Definition zephyr_open_and_add_kiss_interface (binding : list Z -> option nat) (a : uart_answers) (alloc : bool) (device : option (list Z)) (baudrate : Z)
    (ifname : option (list Z)) (addr : Z) (z : zkiss) : M (Z * option nat * zkiss) :=
  match device with
  | None => mret (CSP_ERR_INVAL, None, z)
  | Some name =>
      match binding name with
      | None => mret (CSP_ERR_DRIVER, None, z)
      | Some dev =>
          if negb (a_ready a) || negb (a_probe a) then mret (CSP_ERR_DRIVER, None, z) else
          let config := mkUartConfig baudrate (uc_line (dev_config (u_dev (zk_uart z) dev))) in
          '(ret, iface, z) ← csp_kiss_prepare a alloc dev name (Some config) ifname addr true z;
          if negb (ret =? CSP_ERR_NONE) then mret (ret, None, z) else
          '(ret, z) ← csp_kiss_start iface z;
          if negb (ret =? CSP_ERR_NONE) then ('(_, z) ← csp_kiss_close a iface z; mret (ret, None, z))
          else mret (CSP_ERR_NONE, iface, z)
      end
  end.

End Calls.
