(* ===== verification/ZephyrKissSpec.v ===== *)
(** * ZephyrKissSpec: the life of a KISS interface on Zephyr

    Whatever is called and whatever the system answers, the serial driver calls
    back only with a KISS context that is there: a context is freed when the
    device has been given back, and only then.  Every interface is known to the
    stack, and closing gives the packet in reception back to the pool. *)

From S2P Require Import Prelude State Monad Id Buffer Crc32 Iflist Qfifo Own OwnIo OwnConf Node Pbuf Kiss KissSpec Linux LinuxSpec Slots ZephyrUart ZephyrUartSpec ZephyrKiss.

(** ** The interface in the node *)

Definition kiss_zero : csp_kiss := mkKiss (Some 0%nat) KISS_MODE_NOT_STARTED 0 false None.

Lemma Inv_set_kiss T h s v : Inv T h s -> (forall i d, v !! i = Some (Some d) -> kiss_ok s d) ->
  (forall p, cnt p (omap kiss_ref v) = cnt p (omap kiss_ref (kiss s))) -> Inv T h (set_kiss v s).
Proof.
  intros HI Hok Hc. eapply (Inv_move _ _ _ s); try done; try apply HI. intros p. unfold refs. cbn [qfifo arr_conn socks rdp_tx rdp_rx promisc_queue kiss set_kiss].
  rewrite !cnt_app. specialize (Hc p). lia.
Qed.

Lemma kiss_zero_ok s : kiss_ok s kiss_zero.
Proof. split; [by left|]. split; [cbn; lia|by intros ? [=]]. Qed.

Definition kiss_node_alloc (name : list Z) (addr : Z) (s : node) : node :=
  set_kiss (put_dev (length (ifs s)) kiss_zero (kiss s)) (set_ifs (ifs s ++ [new_iface name addr]) s).

Lemma Inv_put_kiss T h s i : Inv T h s -> (length (kiss s) <= i)%nat -> Inv T h (set_kiss (put_dev i kiss_zero (kiss s)) s).
Proof.
  intros HI Hl. apply Inv_set_kiss; [done| |].
  - intros j d Hj. destruct (decide (j = i)) as [->|E].
    + rewrite put_dev_at in Hj by done. injection Hj as <-. apply kiss_zero_ok.
    + apply (inv_kiss _ _ _ HI j d). pose proof (put_dev_other i kiss_zero (kiss s) j Hl E) as Eo. rewrite Hj in Eo. cbn in Eo. by destruct (kiss s !! j); cbn in Eo; subst.
  - intros p. unfold put_dev. rewrite take_ge by done. rewrite !omap_kiss_refs, !flat_map_app, !cnt_app.
    assert (E : forall m, flat_map (fun x => match x with Some d => rx_refs d | None => [] end) (replicate m None) = []) by (induction m as [|m IH]; [done|exact IH]).
    rewrite E. cbn. lia.
Qed.

Lemma kept_kiss (v : list (option csp_kiss)) i j d : (length v <= i)%nat -> j <> i -> v !! j = Some (Some d) -> put_dev i kiss_zero v !! j = Some (Some d).
Proof.
  intros Hl Hj Hd. pose proof (put_dev_other i kiss_zero v j Hl Hj) as E. rewrite Hd in E. cbn in E. by destruct (put_dev i kiss_zero v !! j); cbn in E; subst.
Qed.

(** The interface is no more: nothing refers to the packet it was receiving. *)
Lemma Inv_drop_kiss T h s i d : Inv T h s -> kiss s !! i = Some (Some d) -> rx_packet d = None -> Inv T h (set_kiss (<[i := None]> (kiss s)) s).
Proof.
  intros HI Hd Hp. apply Inv_set_kiss; [done| |].
  - intros j y Hj. apply list_lookup_insert_Some in Hj as [(_ & [=] & _)|[_ Hj]]. by apply (inv_kiss _ _ _ HI j).
  - intros p. rewrite !omap_kiss_refs. pose proof (cnt_flat_map_insert (fun x => match x with Some d => rx_refs d | None => [] end) (kiss s) i (Some d) None p Hd) as E.
    assert (Er : rx_refs d = []) by (unfold rx_refs; by rewrite Hp). cbv beta iota in E. rewrite Er, !cnt_nil in E. lia.
Qed.

Lemma kiss_add_ok T h s l name addr : Inv T h s -> iflist s l -> (length (kiss s) <= length (ifs s))%nat ->
  (length name <= CSP_IFLIST_NAME_MAX)%nat -> csp_iflist_get_by_name name s = Ret None s ->
  exists s', csp_kiss_add_interface (Some (length (ifs s))) (kiss_node_alloc name addr s) = Ret CSP_ERR_NONE s' /\
    Inv (config_of s') h s' /\ iflist s' (l ++ [length (ifs s)]) /\ kiss s' = put_dev (length (ifs s)) kiss_zero (kiss s) /\ length (ifs s') = S (length (ifs s)).
Proof.
  intros HI Hl Hc Hn Hf. pose proof (Inv_named _ _ _ _ HI Hl) as Hnm. rewrite (get_by_name_find s l name Hl Hnm) in Hf. injection Hf as Hf.
  set (j := length (ifs s)). set (x := new_iface name addr). set (y := set_if_nexthop KISS_NEXTHOP x). set (s2 := kiss_node_alloc name addr s).
  set (s4 := set_ifs (ifs s ++ [y]) s2). assert (Hx : ifs s2 !! j = Some x) by (change (ifs s2) with (ifs s ++ [x]); unfold j; by rewrite lookup_app_r, Nat.sub_diag).
  assert (Hd : kiss s2 !! j = Some (Some kiss_zero)) by (by apply put_dev_at).
  destruct (iflist_add_new s s4 l y name) as (s' & Hadd & Hl'); [done|done|by rewrite <- (take_ge name CSP_IFLIST_NAME_MAX) by done|by apply unfound_untaken|done|done|].
  destruct (Inv_append T h s y HI eq_refl) as [HI1 _].
  assert (HI4 : Inv (config_of s4) h s4) by (exact (Inv_put_kiss _ _ _ j HI1 Hc)).
  destruct (Inv_iflist_add _ j h s4 HI4) as (s1 & Hr1 & HI' & Eu & El); [unfold s4; cbn; rewrite length_app; cbn; unfold j; lia|].
  assert (E1 : s1 = s'). { assert (Er : Ret tt s1 = Ret tt s') by (rewrite <- Hr1, <- Hadd; reflexivity). by injection Er. } subst s1. exists s'.
  split; [|split; [done|split; [done|split; [exact (f_equal kiss Eu)|rewrite El; unfold s4; cbn; rewrite length_app; cbn; lia]]]].
  unfold csp_kiss_add_interface. rewrite (bind_ret _ _ _ x s2) by (by apply get_iface_at). rewrite (bind_ret _ _ _ s2 s2) by done. fold j. rewrite Hd. cbn [mjoin option_join].
  cbn [if_name x new_iface set_if_addr set_if_name tx_func kiss_zero]. rewrite (bind_ret _ _ _ tt s2).
  - rewrite (bind_ret _ _ _ tt s4); [by rewrite (bind_ret _ _ _ _ _ Hadd)|]. unfold mod_iface. rewrite Hx. unfold s4. do 2 f_equal.
    change (ifs s2) with (ifs s ++ [x]). unfold j. rewrite insert_app_r_alt by lia. by rewrite Nat.sub_diag.
  - rewrite (mod_kiss_at j _ kiss_zero) by done. f_equal. unfold at_kiss. rewrite list_insert_id by done. by destruct s2.
Qed.

(** ** Whom the serial driver calls *)

(** A context of the driver for device [fd] that was given KISS context [q]. *)
Definition uses (u : uart) (fd q : nat) : Prop := exists p c, deref p (u_slots u) = Some c /\ us_fd c = fd /\ us_user c = q.

Lemma uses_put p c c' z dev fd q : deref p z = Some c -> us_fd c' = us_fd c -> us_user c' = us_user c ->
  uses (mkUart (ctx_put p c' z) dev) fd q -> uses (mkUart z dev) fd q.
Proof.
  intros Hp Ef Eu (r & x & Hx & <- & <-). cbn [u_slots] in Hx. rewrite deref_put in Hx by (by eapply deref_lt).
  case_decide as E; [injection Hx as <-; subst r; exists p, c; by rewrite Ef, Eu|by exists r, x].
Qed.

(** Fewer contexts. *)
Lemma uses_sub u u' fd q : (forall r x, deref r (u_slots u') = Some x -> deref r (u_slots u) = Some x) -> uses u' fd q -> uses u fd q.
Proof. intros H (r & x & Hx & Hr). exists r, x. auto. Qed.

Section Users.
Context (irq : bool).

Lemma start_uses fd u r u' fd' q : csp_usart_start irq fd u = Some (r, u') -> uses u' fd' q -> uses u fd' q.
Proof.
  unfold csp_usart_start. destruct (us_find fd u) as [[p|]|]; cbn [mbind option_bind]; [|by intros [= _ <-]|done].
  destruct (deref p (u_slots u)) as [c|] eqn:Hp; cbn [mbind option_bind]; [|done]. destruct (us_started c); [by intros [= _ <-]|].
  destruct u as [z dev]. set (c' := mkUsart _ _ _ _ true _). destruct irq; intros [= _ <-] (r0 & x & Hx & Hr); apply (uses_put p c c' z dev); try done; by exists r0, x.
Qed.

Lemma release_uses a fd p u r u' fd' q : usart_release a fd p u = Some (r, u') -> uses u' fd' q -> uses u fd' q.
Proof.
  unfold usart_release. destruct (deref p (u_slots u)) as [c|]; cbn [mbind option_bind]; [|done]. destruct (negb (a_restore a)); intros [= _ <-]; apply uses_sub; [done|].
  intros r0 x. cbn [u_slots set_slots uart_configure dev_put]. rewrite deref_free. by case_decide.
Qed.

Lemma close_uses a fd u r u' fd' q : csp_usart_close irq a fd u = Some (r, u') -> uses u' fd' q -> uses u fd' q.
Proof.
  unfold csp_usart_close. destruct (us_find fd u) as [[p|]|]; cbn [mbind option_bind]; [|by intros [= _ <-]|done].
  destruct (deref p (u_slots u)) as [c|] eqn:Hp; cbn [mbind option_bind]; [|done]. destruct u as [z dev]. destruct irq.
  - destruct (negb (a_callback a)); [by intros [= _ <-]; apply uses_sub|]. intros Hr Hu. apply (release_uses _ _ _ _ _ _ _ _ Hr) in Hu. revert Hu. by apply uses_sub.
  - destruct (us_started c).
    + set (c' := mkUsart _ _ _ _ _ true). assert (Hput : forall t, uses (mkUart (mkSlots (slot_tab z) (slot_heap (ctx_put p c' z)) t) dev) fd' q -> uses (mkUart z dev) fd' q).
      { intros t (r0 & x & Hx & Hr). apply (uses_put p c c' z dev); try done. by exists r0, x. }
      destruct (negb (a_join a)); [intros [= _ <-]; exact (Hput (slot_thread z))|]. intros Hr Hu. apply (release_uses _ _ _ _ _ _ _ _ Hr) in Hu. exact (Hput _ Hu).
    + intros Hr Hu. apply (release_uses _ _ _ _ _ _ _ _ Hr) in Hu. revert Hu. by apply uses_sub.
Qed.

Lemma prepare_uses a fd name config user u r o u' fd' q : csp_usart_prepare irq a fd name config (Some user) true u = Some (r, o, u') -> uses u' fd' q ->
  uses u fd' q \/ r = CSP_ERR_NONE /\ o = Some fd /\ fd' = fd /\ q = user.
Proof.
  unfold csp_usart_prepare. destruct config as [config|]; [|by intros [= _ _ <-]; left]. destruct (_ =? 0); [by intros [= _ _ <-]; left|].
  destruct (scan us_fd fd (u_slots u)) as [[|k]|]; cbn [mbind option_bind]; [by intros [= _ _ <-]; left| |done].
  destruct (Nat.eqb k _); [by intros [= _ _ <-]; left|]. destruct (negb (a_ready a)); [by intros [= _ _ <-]; left|]. destruct (negb (a_alloc a)); [by intros [= _ _ <-]; left|].
  cbv zeta. set (c := mkUsart _ _ _ _ _ _). destruct (ctx_alloc c (u_slots u)) as [p z] eqn:Ea.
  assert (Ez : z = snd (ctx_alloc c (u_slots u))) by (by rewrite Ea). assert (Ep : p = length (slot_heap (u_slots u))) by (by injection Ea).
  assert (Hfree : forall v, (forall x, deref x (u_slots v) = deref x (ctx_free p z)) -> uses v fd' q -> uses u fd' q).
  { intros v Hv. apply uses_sub. intros r0 x. rewrite Hv, Ez, Ep. by rewrite deref_alloc_free. }
  assert (Hnew : forall v, (forall x, deref x (u_slots v) = deref x z) -> uses v fd' q -> uses u fd' q \/ fd' = fd /\ q = user).
  { intros v Hv (r0 & x & Hx & Hf & Hu). rewrite Hv, Ez, deref_alloc in Hx. case_decide; [injection Hx as <-; right; by cbn in *|left; by exists r0, x]. }
  destruct (negb (a_get a)); [intros [= _ _ <-] Hu; left; revert Hu; by apply Hfree|]. destruct (negb (a_configure a)); [intros [= _ _ <-] Hu; left; revert Hu; by apply Hfree|].
  destruct irq.
  - destruct (negb (a_callback a)).
    + intros [= _ _ <-] H. left. revert H. by apply Hfree.
    + intros [= <- <- <-] H. apply Hnew in H; [|done]. destruct H as [H|[-> ->]]; auto.
  - destruct (thread_create k p (tab_set k (Some p) z)) as [z'|] eqn:Et; cbn [mbind option_bind]; [|done]. intros [= <- <- <-] H.
    apply Hnew in H; [destruct H as [H|[-> ->]]; auto|]. intros x. revert Et. unfold thread_create. destruct (slot_thread _ !! k) as [[]|]; [done| |done]. by intros [= <-].
Qed.

End Users.

(** ** The invariant *)

Definition kctx (p : nat) (z : zkiss) : option kiss_context := mjoin (zk_heap z !! p).

Record zk_inv (irq : bool) (o : list nat) (z : zkiss) (s : node) : Prop := {
  zi_uart : uart_inv irq (zk_uart z);
  zi_user : forall fd q, uses (zk_uart z) fd q -> exists k, kctx q z = Some k /\ kc_fd k = fd;
  zi_inv : exists T, Inv T o s;
  zi_listed : exists l, iflist s l /\ forall p k, kctx p z = Some k -> kc_iface k ∈ l;
  zi_kiss : (length (kiss s) <= length (ifs s))%nat;
  zi_data : forall p k, kctx p z = Some k -> exists d, kiss s !! kc_iface k = Some (Some d);
  zi_iface : forall p q k k', kctx p z = Some k -> kctx q z = Some k' -> kc_iface k = kc_iface k' -> p = q
}.

Lemma zk_ctx_run p z k s : kctx p z = Some k -> zk_ctx p z s = Ret k s.
Proof. intros Hp. unfold zk_ctx. unfold kctx in Hp. by rewrite Hp. Qed.

Lemma kctx_add k u h q : kctx q (mkZkiss u (h ++ [Some k])) = if decide (q = length h) then Some k else mjoin (h !! q).
Proof. exact (deref_alloc k (mkSlots [] h []) q). Qed.

Lemma kctx_free p u h q : kctx q (mkZkiss u (<[p := None]> h)) = if decide (q = p) then None else mjoin (h !! q).
Proof. exact (deref_free p (mkSlots [] h []) q). Qed.

Lemma kctx_add_free k u h q : kctx q (mkZkiss u (<[length h := None]> (h ++ [Some k]))) = mjoin (h !! q).
Proof. exact (deref_alloc_free k (mkSlots [] h []) q). Qed.

(** Only the serial driver has changed. *)
Lemma zk_inv_uart irq o z u s : zk_inv irq o z s -> uart_inv irq u -> (forall fd q, uses u fd q -> uses (zk_uart z) fd q) -> zk_inv irq o (mkZkiss u (zk_heap z)) s.
Proof. intros [H1 H2 H3 H4 H5 H6 H7] Hu Hs. constructor; try done. intros fd q Hq. by apply H2, Hs. Qed.

Section Life.
Context (irq : bool).

Lemma kiss_start_spec p k o z s : zk_inv irq o z s -> kctx p z = Some k -> exists r z',
  csp_kiss_start irq (Some p) z s = Ret (r, z') s /\ zk_inv irq o z' s /\ zk_heap z' = zk_heap z.
Proof.
  intros Hz Hp. unfold csp_kiss_start. rewrite (bind_ret _ _ _ k s) by (by apply zk_ctx_run).
  destruct (start_spec irq (kc_fd k) (zk_uart z) (zi_uart _ _ _ _ Hz)) as (r & u' & Hr & Hu & _). rewrite Hr. erewrite bind_ret by reflexivity.
  eexists _, _. split; [reflexivity|]. split; [|done]. apply zk_inv_uart; [done..|]. intros fd q. by apply (start_uses irq (kc_fd k) _ r).
Qed.

(** The packet in reception goes back to the pool, and the receive state with
    the context. *)
Lemma kiss_rx_free T h s i d : Inv T h s -> kiss s !! i = Some (Some d) -> exists s1,
  (when (bool_decide (rx_packet d <> None)) (csp_buffer_free (rx_packet d))) s = Ret tt s1 /\ Inv T h (set_kiss (<[i := None]> (kiss s1)) s1) /\
  kiss s1 = kiss s /\ ifs s1 = ifs s /\ interfaces s1 = interfaces s.
Proof.
  intros HI Hd. destruct (rx_packet d) as [p|] eqn:Ep.
  - pose proof (kiss_take T h s i d p HI Hd Ep) as H1. destruct (proj1 (wp_run _ _ _) (wp_free T h _ p H1)) as ([] & s2 & Hr & HI2).
    destruct (blind_free p i d _ _ _ Hr) as [Hb Hk]. rewrite at_kiss_twice in Hb. assert (E : at_kiss i d s = s) by (unfold at_kiss; rewrite list_insert_id by done; by destruct s).
    rewrite E in Hb. assert (Hi2 : kiss s2 !! i = Some (Some (idle d))) by (rewrite Hk; by eapply kiss_at_kiss).
    exists (at_kiss i d s2). rewrite bool_decide_true by done. split; [exact Hb|]. split; [|split].
    + pose proof (Inv_drop_kiss T h s2 i (idle d) HI2 Hi2 eq_refl) as HI3. unfold at_kiss. cbn [kiss set_kiss]. by rewrite list_insert_insert_eq.
    + cbn [at_kiss kiss set_kiss]. rewrite Hk. cbn [at_kiss kiss set_kiss]. rewrite list_insert_insert_eq. by apply list_insert_id.
    + pose proof (keeps_run _ _ _ _ _ (keeps_free_rest p) Hb) as Er. split; [exact (f_equal ifs Er)|exact (f_equal interfaces Er)].
  - exists s. split; [done|]. split; [by eapply Inv_drop_kiss|done].
Qed.

(** Closed: device, interface and context are given back; or not, and then all
    of it is as it was but for the serial driver. *)
Lemma kiss_close_spec a p k o z s : zk_inv irq o z s -> kctx p z = Some k -> exists r z' s',
  csp_kiss_close irq a (Some p) z s = Ret (r, z') s' /\ zk_inv irq o z' s' /\
  (r = CSP_ERR_NONE /\ (forall q, kctx q z' = if decide (q = p) then None else kctx q z) /\ (forall l, iflist s' l -> kc_iface k ∉ l) /\
     unowned us_fd (kc_fd k) (u_slots (zk_uart z')) \/
   r <> CSP_ERR_NONE /\ zk_heap z' = zk_heap z /\ s' = s).
Proof.
  intros Hz Hp. unfold csp_kiss_close. rewrite (bind_ret _ _ _ k s) by (by apply zk_ctx_run).
  destruct (close_spec irq a (kc_fd k) (zk_uart z) (zi_uart _ _ _ _ Hz)) as (r & u' & Hr & Hu & _ & Hok & _). rewrite Hr. erewrite bind_ret by reflexivity. cbv beta iota zeta.
  assert (Hsub : forall fd q, uses u' fd q -> uses (zk_uart z) fd q) by (intros fd q; by apply (close_uses irq a (kc_fd k) _ r)).
  pose proof (zk_inv_uart irq o z u' s Hz Hu Hsub) as Hz1. destruct (Z.eqb_spec r CSP_ERR_NONE) as [->|Hne]; cbn [negb]; [|exists r, (mkZkiss u' (zk_heap z)), s; split; [done|]; split; [done|]; by right].
  destruct (Hok eq_refl) as (_ & c & _ & Hun & _). destruct Hz1 as [_ Hus (T & HI) (l & Hl & Hin) Hlen Hda Hif]. set (i := kc_iface k) in *.
  destruct (Inv_iflist_remove T i o s l HI Hl) as (s1 & Hr1 & HI1 & Hl1 & Eu & Elen). rewrite (bind_ret _ _ _ _ _ Hr1).
  pose proof (f_equal kiss Eu) as Ek. change (kiss s1 = kiss s) in Ek. destruct (Hda p k Hp) as [d Hd]. fold i in Hd. rewrite <- Ek in Hd.
  rewrite (bind_ret _ _ _ d s1) by (unfold get_kiss; by rewrite Hd).
  destruct (kiss_rx_free _ o s1 i d HI1 Hd) as (s2 & Hr2 & HI2 & Ek2 & Ei2 & En2). rewrite (bind_ret _ _ _ _ _ Hr2).
  set (s3 := set_kiss (<[i := None]> (kiss s2)) s2). set (z' := mkZkiss u' (<[p := None]> (zk_heap z))).
  rewrite (bind_ret _ _ _ z' s3) by (unfold kiss_ctx_free; by rewrite (bind_ret _ _ _ k s2) by (by apply zk_ctx_run)).
  assert (Hk : forall q, kctx q z' = if decide (q = p) then None else kctx q z) by (intros q; apply kctx_free).
  assert (Hl3 : iflist s3 (filter (fun j => j <> i) l)) by (unfold iflist; cbn [s3 ifs interfaces set_kiss]; by rewrite Ei2, En2).
  exists CSP_ERR_NONE, z', s3. split; [done|]. split; [constructor|].
  - exact Hu.
  - intros fd q Hq. destruct (Hus fd q Hq) as (k' & Hk' & Efd). exists k'. rewrite Hk. case_decide as E; [|done]. subst q.
    assert (k' = k) as -> by (change (kctx p z = Some k') in Hk'; congruence). destruct Hq as (x & y & Hy & Hf & _). by destruct (Hun x y Hy); congruence.
  - by exists (config_of s1).
  - exists (filter (fun j => j <> i) l). split; [done|]. intros q x. rewrite Hk. case_decide as E; [done|]. intros Hq. apply list_elem_of_filter.
    split; [|by eapply Hin]. intros E'. by apply E, (Hif q p x k).
  - cbn [s3 kiss ifs set_kiss]. rewrite length_insert, Ek2, Ek, Ei2, Elen. exact Hlen.
  - intros q x. rewrite Hk. case_decide as E; [done|]. intros Hq. destruct (Hda q x Hq) as [dx Hdx]. exists dx. cbn [s3 kiss set_kiss].
    rewrite list_lookup_insert_ne by (intros E'; by apply E, (Hif q p x k)). by rewrite Ek2, Ek.
  - intros q r x y. rewrite !Hk. repeat case_decide; try done. apply Hif.
  - left. split; [done|]. split; [exact Hk|]. split; [|exact Hun]. intros l' Hl'. rewrite (chain_fun _ _ _ _ Hl' Hl3). intros E. apply list_elem_of_filter in E as [E _]. by apply E.
Qed.

(** Prepared: a new context for a device that had no owner, or all contexts as
    before. *)
Definition kiss_prepared (device : nat) (z : zkiss) (r : Z) (oi : option nat) (z' : zkiss) : Prop :=
  match oi with
  | Some p => r = CSP_ERR_NONE /\ kctx p z = None /\ (forall q, q <> p -> kctx q z' = kctx q z) /\ unowned us_fd device (u_slots (zk_uart z)) /\
      exists k, kctx p z' = Some k /\ kc_fd k = device
  | None => r <> CSP_ERR_NONE /\ forall q, kctx q z' = kctx q z
  end.

(** The new context, registered. *)
Lemma kiss_added_inv o z s s' u' l k : zk_inv irq o z s -> iflist s l -> uart_inv irq u' -> (exists T, Inv T o s') -> iflist s' (l ++ [length (ifs s)]) ->
  kiss s' = put_dev (length (ifs s)) kiss_zero (kiss s) -> length (ifs s') = S (length (ifs s)) -> kc_iface k = length (ifs s) ->
  (forall fd q, uses u' fd q -> uses (zk_uart z) fd q \/ fd = kc_fd k /\ q = length (zk_heap z)) -> zk_inv irq o (mkZkiss u' (zk_heap z ++ [Some k])) s'.
Proof.
  intros [_ Hus _ (l0 & Hl0 & Hin) Hlen Hda Hif] Hl Hu' HI' Hl' Ek El Ei Huse. rewrite (chain_fun _ _ _ _ Hl0 Hl) in Hin. set (z' := mkZkiss u' _). set (p := length (zk_heap z)) in *.
  assert (Hk : forall q, kctx q z' = if decide (q = p) then Some k else kctx q z) by (intros q; apply kctx_add).
  assert (Hne : forall q x, kctx q z = Some x -> kc_iface x <> kc_iface k) by (intros q x Hq; pose proof (chain_lt _ _ _ _ Hl (Hin q x Hq)); lia).
  assert (Hp0 : kctx p z = None) by (unfold kctx, p; by rewrite lookup_ge_None_2). constructor; try done.
  - intros fd q Hq. rewrite Hk. destruct (Huse fd q Hq) as [Hold|[-> ->]]; [|exists k; by rewrite decide_True].
    destruct (Hus fd q Hold) as (x & Hx & Ex). exists x. rewrite decide_False by congruence. done.
  - exists (l ++ [length (ifs s)]). split; [done|]. intros q x. rewrite Hk, elem_of_app. case_decide as E; [intros [= <-]; right; rewrite Ei; by left|]. intros Hq. left. by eapply Hin.
  - rewrite Ek, put_dev_length by done. lia.
  - intros q x. rewrite Hk, Ek. case_decide as E; [intros [= <-]; exists kiss_zero; rewrite Ei; by apply put_dev_at|]. intros Hq. destruct (Hda q x Hq) as [d Hd]. exists d.
    apply kept_kiss; [done|rewrite <- Ei; by eapply Hne|done].
  - intros q r x y. rewrite !Hk. repeat case_decide; intros H1 H2 E; simplify_eq; [done| | |by eapply Hif]; [by destruct (Hne r y H2)|by destruct (Hne q x H1)].
Qed.

(** The new context, freed again. *)
Lemma kiss_undone_inv o z s u' k name addr : zk_inv irq o z s -> uart_inv irq u' -> (forall fd q, uses u' fd q -> uses (zk_uart z) fd q) ->
  let s2 := kiss_node_alloc name addr s in
  zk_inv irq o (mkZkiss u' (<[length (zk_heap z) := None]> (zk_heap z ++ [Some k]))) (set_kiss (<[length (ifs s) := None]> (kiss s2)) s2).
Proof.
  intros [_ Hus (T & HI) (l & Hl & Hin) Hlen Hda Hif] Hu' Huse s2. set (z' := mkZkiss u' _). set (i := length (ifs s)).
  assert (Hk : forall q, kctx q z' = kctx q z) by (intros q; apply kctx_add_free).
  destruct (Inv_append T o s (new_iface name addr) HI eq_refl) as [HI1 Hl1]. assert (HI2 : Inv (config_of s2) o s2) by (exact (Inv_put_kiss _ _ _ i HI1 Hlen)). constructor.
  - exact Hu'.
  - intros fd q Hq. rewrite Hk. by apply Hus, Huse.
  - exists (config_of s2). eapply Inv_drop_kiss; [exact HI2|by apply put_dev_at|done].
  - exists l. split; [by apply Hl1|]. intros q x. rewrite Hk. apply Hin.
  - cbn [kiss ifs set_kiss]. rewrite length_insert. cbn [s2 kiss_node_alloc kiss set_kiss ifs set_ifs]. rewrite put_dev_length by done. rewrite length_app. cbn. lia.
  - intros q x. rewrite Hk. intros Hq. destruct (Hda q x Hq) as [d Hd]. exists d. assert (Hne : kc_iface x <> i) by (pose proof (chain_lt _ _ _ _ Hl (Hin q x Hq)); unfold i; lia).
    cbn [kiss set_kiss]. rewrite list_lookup_insert_ne by done. by apply kept_kiss.
  - intros q r0 x y. rewrite !Hk. apply Hif.
Qed.

Lemma kiss_prepare_spec a alloc device devname config ifname addr ri o z s : zk_inv irq o z s -> exists r oi z' s',
  csp_kiss_prepare irq a alloc device devname config ifname addr ri z s = Ret (r, oi, z') s' /\ zk_inv irq o z' s' /\ kiss_prepared device z r oi z'.
Proof.
  intros Hz. assert (Hsame : forall e, e <> CSP_ERR_NONE -> exists r oi z' s', Ret (e, @None nat, z) s = Ret (r, oi, z') s' /\ zk_inv irq o z' s' /\ kiss_prepared device z r oi z')
    by (intros e He; by exists e, None, z, s).
  unfold csp_kiss_prepare. cbv zeta. set (name := default _ ifname). destruct (negb ri); cbn [orb]; [by apply Hsame|].
  destruct (Nat.ltb_spec CSP_IFLIST_NAME_MAX (length name)) as [E|Hname]; [by apply Hsame|].
  pose proof Hz as [Hu _ (T & HI) (l & Hl & _) Hlen _ _].
  pose proof (get_by_name_find s l name Hl (Inv_named _ _ _ _ HI Hl)) as Hby. rewrite (bind_ret _ _ _ _ _ Hby). destruct (find _ l) as [j|]; [by apply Hsame|].
  destruct alloc; cbn [negb]; [|by apply Hsame]. clear Hsame. set (s1 := set_ifs (ifs s ++ [new_iface name addr]) s). rewrite (bind_ret _ _ _ (length (ifs s)) s1) by done.
  set (i := length (ifs s)). set (s2 := kiss_node_alloc name addr s). rewrite (bind_ret _ _ _ tt s2) by done. set (p := length (zk_heap z)).
  destruct (prepare_spec irq a device devname config (Some p) true (zk_uart z) Hu) as (r & fd & u' & Hr & Hu' & _ & Hfd). rewrite Hr. erewrite bind_ret by reflexivity. cbv beta iota.
  pose proof (fun fd' q => prepare_uses irq a device devname config p _ r fd u' fd' q Hr) as Huse. set (k := mkKissCtx _ i (default 0%nat fd)).
  destruct (Z.eqb_spec r CSP_ERR_NONE) as [->|Hr0]; cbn [negb].
  - destruct fd as [fd|]; [|by destruct Hfd]. destruct Hfd as (_ & -> & Hun & _).
    destruct (kiss_add_ok T o s l name addr HI Hl Hlen Hname Hby) as (s' & Hadd & HI' & Hl' & Ek & El). fold i s2 in Hadd, Hl', Ek. rewrite (bind_ret _ _ _ _ _ Hadd).
    cbn [negb Z.eqb CSP_ERR_NONE]. set (z' := mkZkiss u' _). assert (Hk : forall q, kctx q z' = if decide (q = p) then Some k else kctx q z) by (intros q; apply kctx_add).
    exists CSP_ERR_NONE, (Some p), z', s'. split; [done|]. split.
    + apply (kiss_added_inv o z s s' u' l k); try done; [by exists (config_of s')|]. intros fd' q Hq. destruct (Huse fd' q Hq) as [Hold|(_ & _ & -> & ->)]; [by left|by right].
    + split; [done|]. split; [unfold kctx, p; by rewrite lookup_ge_None_2|]. split; [intros q Hq; rewrite Hk; by rewrite decide_False|]. split; [done|]. exists k. rewrite Hk. by rewrite decide_True.
  - set (z1 := mkZkiss u' _). set (z' := mkZkiss u' (<[p := None]> (zk_heap z ++ [Some k]))). set (s' := set_kiss (<[i := None]> (kiss s2)) s2). rewrite (bind_ret _ _ _ z' s').
    2:{ unfold kiss_ctx_free. rewrite (bind_ret _ _ _ k s2); [done|]. apply zk_ctx_run. unfold z1. rewrite kctx_add. by rewrite decide_True. }
    exists r, None, z', s'. split; [done|]. split; [|split; [done|intros q; apply kctx_add_free]].
    apply kiss_undone_inv; [done..|]. intros fd' q Hq. destruct (Huse fd' q Hq) as [Hold|(Hr1 & _)]; [done|by destruct Hr0].
Qed.

End Life.

(** ** Bytes from the line *)

(** The receive states of the other interfaces. *)
Definition other_kiss (i : nat) (s : node) : list (option csp_kiss) := <[i := None]> (kiss s).

Lemma keeps_get_kiss {B} (f : node -> B) i : keeps f (get_kiss i).
Proof. intros s. unfold get_kiss. by destruct (kiss s !! i) as [[]|]. Qed.

Lemma keeps_mod_kiss i f : keeps (other_kiss i) (mod_kiss i f).
Proof. intros s. unfold mod_kiss, other_kiss. destruct (kiss s !! i) as [[]|]; [|done..]. cbn. by rewrite list_insert_insert_eq. Qed.

Ltac kiss_keeps := repeat first [apply keeps_get_kiss|apply keeps_mod_kiss|keeps_step].

Lemma keeps_kiss_rx i buf isr : keeps (other_kiss i) (csp_kiss_rx i buf isr).
Proof.
  assert (Hst : forall b, keeps (other_kiss i) (kiss_store i b)) by (intros b; unfold kiss_store; kiss_keeps).
  assert (Hac : forall p, keeps (other_kiss i) (kiss_accept i p isr)) by (intros p; unfold kiss_accept, csp_id_strip, csp_id1_strip, csp_id2_strip, csp_crc32_verify, crc_matches, csp_id_prepend, csp_id1_prepend, csp_id2_prepend, csp_qfifo_write, incr_frame, csp_buffer_free_isr, csp_buffer_free, csp_buffer_free_pkt; kiss_keeps).
  assert (Hgo : keeps (other_kiss i) (kiss_start i isr)) by (unfold kiss_start, csp_buffer_get_always_isr, csp_buffer_get_always, csp_buffer_get_actual, csp_packet_init, csp_id_setup_rx, csp_id1_setup_rx, csp_id2_setup_rx; kiss_keeps).
  induction buf as [|b buf IH]; [apply keeps_ret|]. cbn [csp_kiss_rx]. apply keeps_bind; [|intros _; exact IH]. unfold kiss_rx_byte, kiss_overrun, kiss_switch, incr_rx_error.
  repeat first [apply Hst|apply Hac|apply Hgo|apply keeps_get_kiss|apply keeps_mod_kiss|keeps_step].
Qed.

(** The same configuration, the same list. *)
Lemma iflist_config s s' l : config_of s' = config_of s -> iflist s l -> iflist s' l /\ length (ifs s') = length (ifs s).
Proof.
  intros E Hl. assert (Ei : map if_static (ifs s') = map if_static (ifs s)) by exact (f_equal cf_ifs E). assert (En : interfaces s' = interfaces s) by exact (f_equal cf_head E). split.
  - unfold iflist. apply chain_of_static. rewrite Ei, En. by apply chain_to_static.
  - apply (f_equal length) in Ei. by rewrite !length_map in Ei.
Qed.

(** Buffers for the frames that may begin in the bytes. *)
Definition room_for (data : list Z) (s : node) : Prop := (length (filter (fun b => b = FEND) data) <= q_size (csp_buffers s))%nat.

Section Ops.
Context (irq : bool).

Lemma kiss_driver_spec o z s fd q data isr : zk_inv irq o z s -> uses (zk_uart z) fd q -> room_for data s ->
  exists s', kiss_driver_rx q data isr z s = Ret tt s' /\ zk_inv irq o z s'.
Proof.
  intros Hz Hu Hroom. pose proof Hz as [H1 H2 (T & HI) (l & Hl & Hin) H5 H6 H7]. destruct (H2 fd q Hu) as (k & Hk & _). destruct (H6 q k Hk) as [d Hd]. set (i := kc_iface k) in *.
  unfold kiss_driver_rx. rewrite (bind_ret _ _ _ k s) by (by apply zk_ctx_run). fold i. assert (Hi : valid_if T i).
  { unfold valid_if. rewrite <- (inv_conf _ _ _ HI). cbn. rewrite length_map. exact (chain_lt _ _ _ _ Hl (Hin q k Hk)). }
  destruct (proj1 (wp_run _ _ _) (wp_kiss_rx T o i Hi isr data s 0 s d ltac:(constructor; [done|done|lia]) Hroom)) as ([] & s' & Hr & d' & [HI' Hd' _]).
  pose proof (keeps_run _ _ _ _ _ (keeps_kiss_rx i data isr) Hr) as Eo. unfold other_kiss in Eo. assert (Elen : length (kiss s') = length (kiss s)).
  { apply (f_equal length) in Eo. by rewrite !length_insert in Eo. }
  destruct (iflist_config s s' l) as [Hl' El]; [rewrite (inv_conf _ _ _ HI), (inv_conf _ _ _ HI'); done|done|]. exists s'. split; [done|]. constructor; try done.
  - by exists T.
  - by exists l.
  - lia.
  - intros p x Hp. destruct (decide (kc_iface x = i)) as [E|E]; [exists d'; by rewrite E|]. destruct (H6 p x Hp) as [dx Hx]. exists dx.
    rewrite <- (list_lookup_insert_ne (kiss s') i (kc_iface x) None) by done. rewrite Eo. by rewrite list_lookup_insert_ne.
Qed.

Lemma kiss_open_spec binding a alloc device rate ifname addr o z s : zk_inv irq o z s -> exists r oi z' s',
  zephyr_open_and_add_kiss_interface irq binding a alloc device rate ifname addr z s = Ret (r, oi, z') s' /\ zk_inv irq o z' s' /\ (r = CSP_ERR_NONE <-> is_Some oi) /\
  (forall p, oi = Some p -> is_Some (kctx p z')).
Proof.
  intros Hz. assert (Hsame : forall e, e <> CSP_ERR_NONE -> exists r oi z' s', Ret (e, @None nat, z) s = Ret (r, oi, z') s' /\ zk_inv irq o z' s' /\ (r = CSP_ERR_NONE <-> is_Some oi) /\
    (forall p, oi = Some p -> is_Some (kctx p z'))) by (intros e He; exists e, None, z, s; split; [done|]; split; [done|]; split; [split; [done|by intros []]|done]).
  unfold zephyr_open_and_add_kiss_interface. destruct device as [name|]; [|by apply Hsame]. destruct (binding name) as [dev|]; [|by apply Hsame].
  destruct (negb (a_ready a) || _); [by apply Hsame|]. cbv zeta. set (conf := mkUartConfig _ _). clear Hsame.
  destruct (kiss_prepare_spec irq a alloc dev name (Some conf) ifname addr true o z s Hz) as (r & oi & z1 & s1 & Hr & Hz1 & Hp). rewrite (bind_ret _ _ _ _ _ Hr).
  destruct oi as [p|]; [destruct Hp as (-> & _ & _ & _ & k & Hk & _)|destruct Hp as [Hne _]].
  2:{ rewrite (proj2 (Z.eqb_neq _ _)) by done. cbn [negb]. exists r, None, z1, s1. split; [done|]. split; [done|]. split; [split; [done|by intros []]|done]. }
  cbn [negb Z.eqb CSP_ERR_NONE]. destruct (kiss_start_spec irq p k o z1 s1 Hz1 Hk) as (r & z2 & Hr2 & Hz2 & Eh). rewrite (bind_ret _ _ _ _ _ Hr2).
  assert (Hk2 : kctx p z2 = Some k) by (unfold kctx; by rewrite Eh). destruct (Z.eqb_spec r CSP_ERR_NONE) as [->|Hne]; cbn [negb].
  - exists CSP_ERR_NONE, (Some p), z2, s1. split; [done|]. split; [done|]. split; [split; [by eexists|done]|]. intros p' [= <-]. by exists k.
  - destruct (kiss_close_spec irq a p k o z2 s1 Hz2 Hk2) as (r3 & z3 & s3 & Hr3 & Hz3 & _). rewrite (bind_ret _ _ _ _ _ Hr3).
    exists r, None, z3, s3. split; [done|]. split; [done|]. split; [split; [done|by intros []]|done].
Qed.

(** ** Every sequence of calls *)

Inductive kiss_op :=
| KPrepare (a : uart_answers) (alloc : bool) (device : nat) (devname : list Z) (config : option uart_config) (ifname : option (list Z)) (addr : Z) (return_iface : bool)
| KOpen (a : uart_answers) (alloc : bool) (binding : list Z -> option nat) (device : option (list Z)) (baudrate : Z) (ifname : option (list Z)) (addr : Z)
| KStart (iface : option nat)
| KClose (a : uart_answers) (iface : option nat)
| KBytes (user : nat) (data : list Z) (isr : bool).

Definition run_kiss (op : kiss_op) (z : zkiss) : M (Z * zkiss) :=
  match op with
  | KPrepare a alloc device devname config ifname addr ri => '(r, _, z') ← csp_kiss_prepare irq a alloc device devname config ifname addr ri z; mret (r, z')
  | KOpen a alloc binding device rate ifname addr => '(r, _, z') ← zephyr_open_and_add_kiss_interface irq binding a alloc device rate ifname addr z; mret (r, z')
  | KStart iface => csp_kiss_start irq iface z
  | KClose a iface => csp_kiss_close irq a iface z
  | KBytes user data isr => kiss_driver_rx user data isr z ;; mret (CSP_ERR_NONE, z)
  end.

(** An interface may be passed until it has been closed; the serial driver calls
    back with what one of its contexts holds. *)
Definition kiss_legal (op : kiss_op) (z : zkiss) (s : node) : Prop :=
  match op with
  | KStart (Some p) | KClose _ (Some p) => is_Some (kctx p z)
  | KBytes user data _ => (exists fd, uses (zk_uart z) fd user) /\ room_for data s
  | _ => True
  end.

Definition kiss_post (op : kiss_op) (z : zkiss) (r : Z) (z' : zkiss) (s s' : node) : Prop :=
  match op with
  | KPrepare _ _ device _ _ _ _ _ => exists oi, kiss_prepared device z r oi z'
  | KClose _ (Some p) => forall k, kctx p z = Some k ->
      r = CSP_ERR_NONE /\ (forall q, kctx q z' = if decide (q = p) then None else kctx q z) /\ (forall l, iflist s' l -> kc_iface k ∉ l) /\
        unowned us_fd (kc_fd k) (u_slots (zk_uart z')) \/
      r <> CSP_ERR_NONE /\ zk_heap z' = zk_heap z /\ s' = s
  | _ => True
  end.

Lemma run_kiss_spec op o z s : zk_inv irq o z s -> kiss_legal op z s -> exists r z' s', run_kiss op z s = Ret (r, z') s' /\ zk_inv irq o z' s' /\ kiss_post op z r z' s s'.
Proof.
  intros Hz Hleg. assert (Hnull : exists r z' s', Ret (CSP_ERR_INVAL, z) s = Ret (r, z') s' /\ zk_inv irq o z' s' /\ True) by (by exists CSP_ERR_INVAL, z, s).
  destruct op as [a alloc device dn config ifn addr ri|a alloc binding device rate ifn addr|[p|]|a [p|]|user data isr]; cbn [run_kiss kiss_legal kiss_post] in *; try exact Hnull.
  - destruct (kiss_prepare_spec irq a alloc device dn config ifn addr ri o z s Hz) as (r & oi & z' & s' & Hr & Hz' & Hp). rewrite (bind_ret _ _ _ _ _ Hr). exists r, z', s'.
    split; [done|]. split; [done|]. by exists oi.
  - destruct (kiss_open_spec binding a alloc device rate ifn addr o z s Hz) as (r & oi & z' & s' & Hr & Hz' & _). rewrite (bind_ret _ _ _ _ _ Hr). by exists r, z', s'.
  - destruct Hleg as [k Hk]. destruct (kiss_start_spec irq p k o z s Hz Hk) as (r & z' & Hr & Hz' & _). by exists r, z', s.
  - destruct Hleg as [k Hk]. destruct (kiss_close_spec irq a p k o z s Hz Hk) as (r & z' & s' & Hr & Hz' & Hp). exists r, z', s'. split; [done|]. split; [done|].
    intros k' Hk'. rewrite Hk in Hk'. by injection Hk' as <-.
  - destruct Hleg as [[fd Hu] Hroom]. destruct (kiss_driver_spec o z s fd user data isr Hz Hu Hroom) as (s' & Hr & Hz'). rewrite (bind_ret _ _ _ _ _ Hr). by exists CSP_ERR_NONE, z, s'.
Qed.

(** The states of driver and node, by calls and by bytes, and by what the rest of
    the stack does as long as it keeps the interfaces. *)
Inductive kiss_reach (n : nat) : zkiss -> node -> Prop :=
| kr_boot devs T o s : (forall d, dev_callback (devs d) = None) -> Inv T o s -> (length (kiss s) <= length (ifs s))%nat -> kiss_reach n (mkZkiss (uart_start n devs) []) s
| kr_call op z s r z' s' : kiss_reach n z s -> kiss_legal op z s -> run_kiss op z s = Ret (r, z') s' -> kiss_reach n z' s'
| kr_node o z s s' : kiss_reach n z s -> zk_inv irq o z s' -> kiss_reach n z s'.

Lemma kiss_boot_inv n devs T o s : (forall d, dev_callback (devs d) = None) -> Inv T o s -> (length (kiss s) <= length (ifs s))%nat ->
  zk_inv irq o (mkZkiss (uart_start n devs) []) s.
Proof.
  intros Hd HI Hl. assert (Hno : forall p k, kctx p (mkZkiss (uart_start n devs) []) <> Some k) by (intros p k E; cbn in E; discriminate E). constructor.
  - by apply uart_start_inv.
  - intros fd q (p & c & Hp & _). cbn in Hp. discriminate Hp.
  - by exists T.
  - destruct (Inv_iflist_ok _ _ _ HI) as (l & Hl' & _). exists l. split; [done|]. intros p k E. by destruct (Hno p k).
  - done.
  - intros p k E. by destruct (Hno p k).
  - intros p q k k' E. by destruct (Hno p k).
Qed.

Lemma kiss_reach_inv n z s : kiss_reach n z s -> exists o, zk_inv irq o z s.
Proof.
  induction 1 as [devs T o s Hd HI Hl|op z s r z' s' _ [o Hz] Hleg Hr|o z s s' _ _ Hz].
  - exists o. by apply (kiss_boot_inv n devs T).
  - exists o. destruct (run_kiss_spec op o z s Hz Hleg) as (r0 & z0 & s0 & Hr0 & Hz' & _). rewrite Hr in Hr0. by injection Hr0 as _ <- <-.
  - by exists o.
Qed.

(** C26. The life of a KISS interface on Zephyr, with interrupts or with polling
    threads: from the start of the serial driver, every sequence of
    [csp_kiss_prepare], [csp_kiss_start], [csp_kiss_close] and
    [csp_usart_open_and_add_kiss_interface] on interfaces that have not been
    closed, and of bytes the line delivers while the pool has a buffer for each
    frame character among them ([room_for]), whatever the system answers, returns
    and uses no freed memory: in every state it reaches, the context the serial
    driver calls back with is there and belongs to the device (a close that fails
    keeps the context, as the driver may still call it), every interface is known
    to the stack and has its receive state, and every packet buffer has one
    owner.  A successful [csp_kiss_close] frees the context, takes the interface
    out of the list, gives the packet in reception back to the pool and leaves
    the device without owner; [csp_kiss_prepare] succeeds only on a device
    without owner and leaves nothing behind when it fails. *)
Theorem kiss_lifecycle n z s : kiss_reach n z s -> (exists o, zk_inv irq o z s) /\
  forall op o, kiss_legal op z s -> zk_inv irq o z s -> exists r z' s', run_kiss op z s = Ret (r, z') s' /\ zk_inv irq o z' s' /\ kiss_post op z r z' s s'.
Proof. intros HR. split; [by eapply kiss_reach_inv|]. intros op o Hleg Hz. by apply run_kiss_spec. Qed.

End Ops.

Definition line_devs (d : nat) : uart_dev := mkUartDev (mkUartConfig 57600 8) None false.
(** An interface ["KISS"] on device 3. *)
Definition open_kiss : kiss_op := KOpen good_answers true (fun _ => Some 3%nat) (Some [117]) 115200 None 9.

Lemma kiss_lifecycle_witness : exists r z' s', run_kiss false open_kiss (mkZkiss (uart_start 2 line_devs) []) bus_node = Ret (r, z') s' /\ zk_inv false [] z' s' /\ r = CSP_ERR_NONE.
Proof.
  destruct (kiss_lifecycle false 2 (mkZkiss (uart_start 2 line_devs) []) bus_node) as [_ Hop].
  - apply (kr_boot false 2 line_devs (config_of bus_node) []); [done|exact bus_node_inv|vm_compute; lia].
  - destruct (Hop open_kiss []) as (r & z' & s' & Hr & Hz & _).
    + exact I.
    + apply (kiss_boot_inv false 2 line_devs (config_of bus_node)); [done|exact bus_node_inv|vm_compute; lia].
    + exists r, z', s'. split; [exact Hr|]. split; [exact Hz|].
      assert (E : match run_kiss false open_kiss (mkZkiss (uart_start 2 line_devs) []) bus_node with Ret (x, _) _ => x = CSP_ERR_NONE | _ => False end) by (vm_compute; reflexivity).
      rewrite Hr in E. exact E.
Defined.
