(* ===== verification/Contrib.v ===== *)
(** * Contrib: the queues and the CAN driver of [contrib]

    The ring of [contrib/windows/windows_queue.c], which keeps a head and a
    count, and that of [contrib/macosx/pthread_queue.c] are the ring of [Queue];
    and the driver for the CAN controller of a microcontroller
    ([contrib/drivers/can/csp_driver_can.c]), with what its filters let
    through. *)

From S2P Require Import Prelude State Queue Ports Monad Id Buffer Iflist Qfifo Own OwnConf Node Pbuf Reassembly Can CanCfp2 Linux LinuxSpec.

(** ** The queue for Windows *)

(** [struct windows_queue_s] *)
Record head_queue (A : Type) := mkHq { hq_buffer : list A; hq_size : nat; hq_items : nat; hq_head_idx : nat }.
Arguments mkHq {A} _ _ _ _.
Arguments hq_buffer {A} _.
Arguments hq_size {A} _.
Arguments hq_items {A} _.
Arguments hq_head_idx {A} _.

Section WindowsQueue.
Context {A : Type}.

Definition queueFull (q : head_queue A) : bool := Nat.eqb (hq_items q) (hq_size q).
Definition queueEmpty (q : head_queue A) : bool := Nat.eqb (hq_items q) 0.

(** The results of the two [malloc]s. *)
Definition head_queue_create (length : nat) (struct_ok : bool) (mem : option (list A)) : option (head_queue A) :=
  if negb struct_ok then None else
  match mem with None => None | Some buffer => Some (mkHq buffer length 0 0) end.

(** The loop on [SleepConditionVariableCS]: whether it succeeds, and the queue as
    other threads left it.  A failure is an error, whatever the reason. *)
Fixpoint head_queue_wait (blocked : head_queue A -> bool) (q : head_queue A) (ws : list (bool * head_queue A)) : option (Z * head_queue A) :=
  if negb (blocked q) then Some (PTHREAD_QUEUE_OK, q) else
  match ws with
  | [] => None
  | (ret, q') :: ws' => if ret then head_queue_wait blocked q' ws' else Some (PTHREAD_QUEUE_ERROR, q')
  end.

Definition head_queue_enqueue (q : head_queue A) (value : A) (ws : list (bool * head_queue A)) : option (Z * head_queue A) :=
  '(ret, q) ← head_queue_wait queueFull q ws;
  if negb (ret =? PTHREAD_QUEUE_OK) then Some (ret, q) else
  let offset := ((hq_head_idx q + hq_items q) mod hq_size q)%nat in
  Some (PTHREAD_QUEUE_OK, mkHq (<[offset := value]> (hq_buffer q)) (hq_size q) (S (hq_items q)) (hq_head_idx q)).

Definition head_queue_dequeue (q : head_queue A) (ws : list (bool * head_queue A)) : option (Z * option A * head_queue A) :=
  '(ret, q) ← head_queue_wait queueEmpty q ws;
  if negb (ret =? PTHREAD_QUEUE_OK) then Some (ret, None, q) else
  x ← hq_buffer q !! (hq_head_idx q mod hq_size q)%nat;
  Some (PTHREAD_QUEUE_OK, Some x, mkHq (hq_buffer q) (hq_size q) (hq_items q - 1) ((hq_head_idx q + 1) mod hq_size q)%nat).

(** *** It is the ring *)

Definition ring_of (q : head_queue A) : pthread_queue A :=
  mkPq (hq_buffer q) (hq_size q) (hq_items q) ((hq_head_idx q + hq_items q) mod hq_size q)%nat (hq_head_idx q).
Definition hq_ok (q : head_queue A) : Prop := (hq_head_idx q < hq_size q)%nat.
Definition ring_sleep (w : bool * head_queue A) : sleep A := mkSleep (if fst w then SleepOk else SleepTimeout) 0 (ring_of (snd w)).

Lemma head_queue_wait_ring blocked blocked' q ws : (forall q, blocked' (ring_of q) = blocked q) ->
  windows_wait blocked' (ring_of q) (map ring_sleep ws) = (fun '(r, q) => (r, ring_of q)) <$> head_queue_wait blocked q ws.
Proof.
  intros Hb. revert q. induction ws as [|[r q1] ws IH]; intros q; simpl; rewrite Hb; destruct (negb (blocked q)); try done. cbn. destruct r; [apply IH|done].
Qed.

Lemma head_queue_wait_seen blocked q ws r q' : hq_ok q -> Forall (fun w => hq_ok (snd w)) ws -> head_queue_wait blocked q ws = Some (r, q') ->
  hq_ok q' /\ (r = PTHREAD_QUEUE_OK -> blocked q' = false).
Proof.
  intros Hq Hw. revert q Hq. induction Hw as [|[ret q1] ws Hw _ IH]; intros q Hq; simpl; destruct (blocked q) eqn:E; cbn [negb]; try done; try (by intros [= <- <-]).
  destruct ret; [by apply IH|]. by intros [= <- <-].
Qed.

(** The Windows queue of [contrib] is the ring: for every sequence of returns of
    the sleeps, both calls give the status, the item and the queue that
    the Windows queue of [src/arch] gives for the ring that the head and the
    count stand for. *)
Lemma head_queue_is_ring q x ws : hq_ok q -> Forall (fun w => hq_ok (snd w)) ws ->
  windows_queue_enqueue (ring_of q) x (map ring_sleep ws) = (fun '(r, q') => (r, ring_of q')) <$> head_queue_enqueue q x ws /\
  windows_queue_dequeue (Some (ring_of q)) (map ring_sleep ws) = (fun '(r, y, q') => (r, y, Some (ring_of q'))) <$> head_queue_dequeue q ws.
Proof.
  intros Hq Hw. unfold windows_queue_enqueue, windows_queue_dequeue, head_queue_enqueue, head_queue_dequeue.
  rewrite (head_queue_wait_ring queueFull pq_full) by done. rewrite (head_queue_wait_ring queueEmpty pq_none) by done. split.
  - destruct (head_queue_wait queueFull q ws) as [[r q']|]; [|done]. cbn. destruct (r =? PTHREAD_QUEUE_OK) eqn:E; [|done]. apply Z.eqb_eq in E as ->. cbn. do 3 f_equal.
    unfold ring_of, pq_push. cbn. f_equal. rewrite Nat.Div0.add_mod_idemp_l. f_equal. lia.
  - destruct (head_queue_wait queueEmpty q ws) as [[r q']|] eqn:Ew; [|done]. destruct (head_queue_wait_seen _ _ _ _ _ Hq Hw Ew) as [Hq' Hne]. cbn.
    destruct (r =? PTHREAD_QUEUE_OK) eqn:E; [|done]. apply Z.eqb_eq in E as ->. cbn. unfold pq_pop. cbn. rewrite (Nat.mod_small (hq_head_idx q')) by exact Hq'.
    destruct (hq_buffer q' !! hq_head_idx q') as [y|]; [|done]. cbn. do 4 f_equal. unfold ring_of. cbn. specialize (Hne eq_refl). unfold queueEmpty in Hne. apply Nat.eqb_neq in Hne.
    f_equal. rewrite Nat.Div0.add_mod_idemp_l. f_equal. lia.
Qed.

End WindowsQueue.

(** ** The queue for macOS *)

(** The deadline, from the clock and the timeout. *)
Definition mac_deadline (tv_sec tv_nsec timeout : Z) : Z * Z :=
  let sec := u32 timeout / 1000 in
  let nsec := u32 (u32 (u32 timeout - u32 (1000 * sec)) * 1000000) in
  let tv_sec := tv_sec + sec in
  let tv_sec := if 1000000000 <? tv_nsec + nsec then tv_sec + 1 else tv_sec in
  (tv_sec, (tv_nsec + nsec) mod 1000000000).

Section MacQueue.
Context {A : Type}.

Definition mac_queue_create (length : nat) (struct_ok : bool) (mem : option (list A)) (sync_ok : bool) : option (pthread_queue A) :=
  if negb struct_ok then None else
  match mem with None => None | Some buffer => if sync_ok then Some (mkPq buffer length 0 0 0) else None end.

(** Every return of [pthread_cond_timedwait] but 0 ends the wait. *)
Fixpoint mac_wait (blocked : pthread_queue A -> bool) (fail : Z) (q : pthread_queue A) (ws : list (wakeup A)) : option (Z * pthread_queue A) :=
  if negb (blocked q) then Some (PTHREAD_QUEUE_OK, q) else
  match ws with
  | [] => None
  | w :: ws' => if negb (wake_ret w =? 0) then Some (fail, wake_queue w) else mac_wait blocked fail (wake_queue w) ws'
  end.

Definition mac_queue_enqueue (q : pthread_queue A) (value : A) (ws : list (wakeup A)) : option (Z * pthread_queue A) :=
  '(ret, q) ← mac_wait pq_full PTHREAD_QUEUE_FULL q ws;
  if negb (ret =? PTHREAD_QUEUE_OK) then Some (ret, q) else Some (PTHREAD_QUEUE_OK, pq_push value q).

Definition mac_queue_dequeue (q : pthread_queue A) (ws : list (wakeup A)) : option (Z * option A * pthread_queue A) :=
  '(ret, q) ← mac_wait pq_none PTHREAD_QUEUE_EMPTY q ws;
  if negb (ret =? PTHREAD_QUEUE_OK) then Some (ret, None, q) else
  '(x, q) ← pq_pop q;
  Some (PTHREAD_QUEUE_OK, Some x, q).

(** When the condition variable is not interrupted, which POSIX promises, it does
    what the POSIX queue does. *)
Lemma mac_wait_posix blocked fail q ws : Forall (fun w => wake_ret w <> Queue.EINTR) ws -> mac_wait blocked fail q ws = wait_while blocked fail q ws.
Proof.
  intros Hw. revert q. induction Hw as [|w ws Hw _ IH]; intros q; simpl; [done|]. destruct (negb (blocked q)); [done|]. unfold wait_failed.
  rewrite (proj2 (Z.eqb_neq (wake_ret w) Queue.EINTR)) by done. rewrite andb_true_r. destruct (negb _); [done|apply IH].
Qed.

Lemma mac_queue_is_posix q x ws now : Forall (fun w => wake_ret w <> Queue.EINTR) ws ->
  mac_queue_enqueue q x ws = pthread_queue_enqueue q x CSP_MAX_TIMEOUT now ws /\
  (fun '(r, y, q') => (r, y, Some q')) <$> mac_queue_dequeue q ws = pthread_queue_dequeue (Some q) CSP_MAX_TIMEOUT now ws.
Proof.
  intros Hw. unfold mac_queue_enqueue, mac_queue_dequeue, pthread_queue_enqueue, pthread_queue_dequeue, wait_slot_available, wait_item_available. rewrite !mac_wait_posix by done. split.
  - cbn [deadline_ok Z.eqb CSP_MAX_TIMEOUT Pos.eqb orb negb]. destruct (wait_while pq_full _ q ws) as [[r q']|]; [|done]. cbn. destruct (r =? PTHREAD_QUEUE_OK) eqn:E; [|done].
    by apply Z.eqb_eq in E as ->.
  - cbn [deadline_ok Z.eqb CSP_MAX_TIMEOUT Pos.eqb orb negb]. destruct (wait_while pq_none _ q ws) as [[r q']|]; [|done]. cbn. destruct (r =? PTHREAD_QUEUE_OK) eqn:E; [|done].
    apply Z.eqb_eq in E as ->. by destruct (pq_pop q') as [[]|].
Qed.

End MacQueue.

(** The deadline is that of POSIX but where the nanoseconds come to a second
    exactly: then it is a second early, and a wait of half a second that begins at
    half a second is over before it began. *)
Lemma mac_deadline_early tv_sec tv_nsec timeout : let nsec := u32 (u32 (u32 timeout - u32 (1000 * (u32 timeout / 1000))) * 1000000) in
  get_deadline (Some (tv_sec, tv_nsec)) timeout =
    Some (if tv_nsec + nsec =? 1000000000 then fst (mac_deadline tv_sec tv_nsec timeout) + 1 else fst (mac_deadline tv_sec tv_nsec timeout), snd (mac_deadline tv_sec tv_nsec timeout)) /\
  mac_deadline 10 500000000 500 = (10, 0).
Proof.
  intros nsec. split; [|done]. unfold get_deadline, mac_deadline. fold nsec. cbn [fst snd]. do 2 f_equal.
  destruct (Z.eqb_spec (tv_nsec + nsec) 1000000000) as [E|E]; [by rewrite E|]. by replace (1000000000 <=? tv_nsec + nsec) with (1000000000 <? tv_nsec + nsec) by lia.
Qed.

(** ** The CAN controller of a microcontroller *)

(** [CAN_0_rx_callback] over the messages [can_async_read] gives, and the same
    loop in a task ([can_task]). *)
Fixpoint CAN_0_rx_callback `{Platform} (iface : nat) (isr : bool) (msgs : list (Z * list Z * Z)) : M unit :=
  match msgs with
  | [] => mret tt
  | (id, data, len) :: msgs' => _ ← csp_can_rx iface id data len isr; CAN_0_rx_callback iface isr msgs'
  end.

Definition CAN_0_irq_callback (iface : nat) : M unit := incr_tx_error iface.

(** A data frame with an extended identifier, as [csp_can_tx_frame] makes it. *)
Record can_message := mkMsg { msg_id : Z; msg_data : list Z; msg_len : Z }.

(** The loop of [csp_can_tx_frame]: [writes n m] is whether the [n]-th
    [can_async_write] takes the message [m].  The result is what is left of the
    attempts and the message that was taken. *)
Fixpoint sam_write_loop (attempts : nat) (writes : nat -> can_message -> bool) (msg : can_message) (n : nat) : nat * option can_message :=
  match attempts with
  | O => (O, None)
  | S attempts' => if writes n msg then (attempts, Some msg) else sam_write_loop attempts' writes msg (S n)
  end.

Definition CSP_ERR_BUSY : Z := -6.

(** [driver] is whether the driver and its lock are there; the frame the
    controller took, and the status. *)
Definition sam_can_tx_frame (driver : bool) (writes : nat -> can_message -> bool) (id : Z) (data : list Z) (dlc : Z) : option can_message * Z :=
  if negb driver then (None, 0) else
  let msg := mkMsg id data dlc in
  let '(attempts, sent) := sam_write_loop 3 writes msg 0 in
  (sent, if Nat.ltb 0 attempts then CSP_ERR_NONE else CSP_ERR_BUSY).

(** [can_mode_e], with any other value it may have. *)
Inductive can_mode := CSP_CAN_MASKED | CSP_CAN_PROMISC | CSP_CAN_OTHER.
#[export] Instance can_mode_eq : EqDecision can_mode.
Proof. solve_decision. Defined.

Section SamInit.
(** A constant that the headers do not define. *)
Context (CSP_DBG_ERR_INVALID_CAN_CONFIG : Z).

(** [csp_driver_can_init]: the interface [iface] is that of the only device; the
    result is the three filters, or NULL. *)
Definition csp_driver_can_init (iface : nat) (addr netmask : Z) (id : nat) (mode : can_mode) : M (option (list can_filter)) :=
  if negb (Nat.eqb id 0) then undef else
  s ← gets (fun s => s);
  '(can_mask, own, id_l3bc, id_l2bc) ←
    (if version (conf s) =? 2 then
       if csp_id_get_host_bits s <? netmask then undef else
       mret (Z.shiftl CFP2_DST_MASK CFP2_DST_OFFSET, u32 (Z.shiftl addr CFP2_DST_OFFSET),
             u32 (Z.shiftl (Z.shiftl 1 (csp_id_get_host_bits s - netmask) - 1) CFP2_DST_OFFSET), Z.shiftl 0x3FFF CFP2_DST_OFFSET)
     else mret (CFP_MAKE_DST (Z.shiftl 1 CFP_HOST_SIZE - 1), CFP_MAKE_DST addr, 0, 0));
  let install mask :=
    mod_can iface (fun d => mkCan (cfp_packet_counter d) (Some 0%nat) None) ;;
    mod_iface iface (fun x => set_if_netmask netmask (set_if_addr (u16 addr) x)) ;;
    _ ← csp_can_add_interface (Some iface);
    mret (Some [mkFilter own mask; mkFilter id_l3bc mask; mkFilter id_l2bc mask]) in
  match mode with
  | CSP_CAN_MASKED => install can_mask
  | CSP_CAN_PROMISC => install 0
  | CSP_CAN_OTHER => set_errno CSP_DBG_ERR_INVALID_CAN_CONFIG ;; mret None
  end.

(** What passes one of the filters. *)
Definition passes_any `{CanRaw} (fs : list can_filter) (id : Z) : bool := existsb (fun f => raw_accepts f id) fs.

(** Three attempts are made, and success means that the controller took the
    frame, but for a driver without lock, which reports success and sends
    nothing. *)
Lemma sam_tx_attempts writes id data dlc : let msg := mkMsg id data dlc in
  sam_can_tx_frame true writes id data dlc = (if writes 0%nat msg || writes 1%nat msg || writes 2%nat msg then (Some msg, CSP_ERR_NONE) else (None, CSP_ERR_BUSY)) /\
  sam_can_tx_frame false writes id data dlc = (None, CSP_ERR_NONE).
Proof. intros msg. split; [|done]. unfold sam_can_tx_frame. fold msg. cbn. by destruct (writes 0%nat msg), (writes 1%nat msg), (writes 2%nat msg). Qed.

Lemma sam_init_filters iface addr netmask mode s r s' : csp_driver_can_init iface addr netmask 0 mode s = Ret (Some r) s' -> version (conf s) = 2 ->
  mode <> CSP_CAN_OTHER /\ netmask <= 14 /\ exists mask, mask = (if decide (mode = CSP_CAN_MASKED) then Z.shiftl CFP2_DST_MASK CFP2_DST_OFFSET else 0) /\
  r = [mkFilter (u32 (Z.shiftl addr 13)) mask; mkFilter (u32 (Z.shiftl (Z.shiftl 1 (14 - netmask) - 1) 13)) mask; mkFilter (Z.shiftl 0x3FFF 13) mask].
Proof.
  intros Hr Hv. unfold csp_driver_can_init in Hr. cbn [Nat.eqb negb] in Hr. rewrite (bind_ret _ _ _ s s) in Hr by done. rewrite Hv in Hr. change (2 =? 2) with true in Hr.
  cbv iota in Hr. unfold csp_id_get_host_bits, is_v2 in Hr. rewrite Hv in Hr. change (2 =? 2) with true in Hr. cbv iota in Hr. change CSP_ID2_HOST_SIZE with 14 in Hr.
  destruct (Z.ltb_spec 14 netmask) as [E|E]; [discriminate Hr|]. erewrite bind_ret in Hr by reflexivity. cbv beta iota zeta in Hr.
  assert (Hi : forall fs, (mod_can iface (fun d => mkCan (cfp_packet_counter d) (Some 0%nat) None) ;; mod_iface iface (fun x => set_if_netmask netmask (set_if_addr (u16 addr) x)) ;;
    _ ← csp_can_add_interface (Some iface); mret (Some fs)) s = Ret (Some r) s' -> r = fs).
  { intros fs H. apply bind_Ret in H as (_ & s1 & _ & H). apply bind_Ret in H as (_ & s2 & _ & H). apply bind_Ret in H as (_ & s3 & _ & H). by injection H as -> _. }
  destruct mode.
  - rewrite (Hi _ Hr). split; [done|]. split; [done|]. eexists. split; [reflexivity|]. by rewrite decide_True.
  - rewrite (Hi _ Hr). split; [done|]. split; [done|]. eexists. split; [reflexivity|]. by rewrite decide_False.
  - apply bind_Ret in Hr as (_ & s1 & _ & Hr). discriminate Hr.
Qed.

End SamInit.

Section SamFilter.
Context `{CanRawLaws}.

Lemma accepts_dst x dstf id : 0 <= x < 2 ^ 14 -> dstf = u32 (Z.shiftl x 13) ->
  (raw_accepts (mkFilter dstf (Z.shiftl CFP2_DST_MASK CFP2_DST_OFFSET)) id = true <-> (id / 2 ^ 13) mod 2 ^ 14 = x).
Proof.
  intros Hx ->. rewrite law_accepts. cbn [filter_id filter_mask]. change CFP2_DST_MASK with (Z.ones 14). unfold CFP2_DST_OFFSET. rewrite !land_field by lia.
  assert (E : (u32 (Z.shiftl x 13) / 2 ^ 13) mod 2 ^ 14 = x).
  { rewrite Z.shiftl_mul_pow2 by lia. unfold u32. rewrite (Z.mod_small (x * _)) by lia. rewrite Z.div_mul by lia. apply Z.mod_small. lia. }
  rewrite E. split; [apply shiftl_inj; lia|by intros ->].
Qed.

(** What the filters of the driver let through on a version 2 node: frames for
    the node's address, for the address 0x3FFF, and, meant to be the broadcast
    address of the interface's subnet, for the host part alone, which is the
    broadcast address of subnet 0. *)
Lemma sam_filters_pass err iface addr netmask s r s' id : csp_driver_can_init err iface addr netmask 0 CSP_CAN_MASKED s = Ret (Some r) s' -> version (conf s) = 2 ->
  0 <= addr < 2 ^ 14 -> 0 <= netmask -> let d := (id / 2 ^ 13) mod 2 ^ 14 in
  passes_any r id = true <-> d = addr \/ d = 2 ^ (14 - netmask) - 1 \/ d = 0x3FFF.
Proof.
  intros Hr Hv Ha Hm d. destruct (sam_init_filters err iface addr netmask CSP_CAN_MASKED s r s' Hr Hv) as (_ & Hm' & mask & Emask & ->). rewrite decide_True in Emask by done. subst mask.
  assert (Hp : 1 <= 2 ^ (14 - netmask) <= 2 ^ 14) by (split; [apply (Z.pow_le_mono_r 2 0); lia|apply Z.pow_le_mono_r; lia]). unfold passes_any. cbn [existsb]. rewrite orb_false_r, !orb_true_iff.
  rewrite (accepts_dst addr) by done. rewrite (accepts_dst (2 ^ (14 - netmask) - 1)) by (try lia; by rewrite (Z.shiftl_mul_pow2 1), Z.mul_1_l by lia).
  rewrite (accepts_dst 0x3FFF) by (try lia; reflexivity). done.
Qed.

End SamFilter.

(** Address 0x105 in the subnet 0x100/6: the broadcast address of the subnet,
    0x1FF, does not pass, and that of subnet 0 does. *)
Lemma sam_subnet_broadcast : let own := 0x105 in let host := 2 ^ (14 - 6) - 1 in
  Z.lor own host = 0x1FF /\ ~ (0x1FF = own \/ 0x1FF = host \/ 0x1FF = 0x3FFF) /\ host = 0xFF.
Proof. cbv zeta. split; [reflexivity|]. split; [vm_compute; intuition congruence|reflexivity]. Qed.
