(* ===== verification/HexDump.v ===== *)
(** * HexDump: the hex dump ([src/csp_hex_dump.c])

    [csp_hex_dump_format] writes to the console and keeps the printable form of a
    line in an array on its stack.  The text is that of lines of sixteen bytes,
    the array is never overrun nor read before it was written, and the bytes can
    be read off the text. *)

From S2P Require Import Prelude State.

(** ** The code *)

Definition spaces (n : nat) : list Z := replicate n 32.

(** [%02x] of a byte. *)
Definition hex_digit (v : Z) : Z := if v <? 10 then 48 + v else 87 + v.
Definition hex2 (b : Z) : list Z := [hex_digit (b / 16); hex_digit (b mod 16)].

(** [%s] of an array: [None] when it runs over memory that was not written, or
    over the end. *)
Fixpoint c_str (buff : list (option Z)) : option (list Z) :=
  match buff with
  | Some c :: buff' => if c =? 0 then Some [] else t ← c_str buff'; Some (c :: t)
  | _ => None
  end.

Definition printable (b : Z) : Z := if (b <? 0x20) || (0x7e <? b) then 46 else b.

(** A write to the array, [None] outside of it. *)
Definition buff_put (i : nat) (c : Z) (buff : list (option Z)) : option (list (option Z)) :=
  if Nat.ltb i (length buff) then Some (<[i := Some c]> buff) else None.

Section Dump.
(** [%p] of the address of the [i]-th byte. *)
Context (ptr : nat -> list Z).

(** The text and the array after byte [i]. *)
Definition dump_byte (offsets : bool) (i : nat) (b : Z) (st : list Z * list (option Z)) : option (list Z * list (option Z)) :=
  let '(out, buff) := st in
  out ← (if Nat.eqb (i mod 16) 0 then
           pre ← (if Nat.eqb i 0 then Some [] else t ← c_str buff; Some (spaces 2 ++ t ++ [10]));
           Some (out ++ pre ++ if offsets then spaces 2 ++ ptr i ++ spaces 1 else spaces 8)
         else Some out);
  let out := out ++ spaces 1 ++ hex2 b in
  buff ← buff_put (i mod 16) (printable b) buff;
  buff ← buff_put (i mod 16 + 1) 0 buff;
  Some (out, buff).

Fixpoint dump_loop (offsets : bool) (i : nat) (bs : list Z) (st : list Z * list (option Z)) : option (list Z * list (option Z)) :=
  match bs with
  | [] => Some st
  | b :: bs' => st ← dump_byte offsets i b st; dump_loop offsets (S i) bs' st
  end.

(** [while ((i % 16) != 0) { csp_print("   "); i++; }] *)
Fixpoint pad_loop (fuel i : nat) (out : list Z) : list Z :=
  if Nat.eqb (i mod 16) 0 then out else
  match fuel with O => out | S fuel' => pad_loop fuel' (S i) (out ++ spaces 3) end.

(** [pc] is the memory at [addr]; the array has 17 bytes that nobody wrote. *)
Definition csp_hex_dump_format (desc : option (list Z)) (pc : list Z) (len : Z) (format : Z) : option (list Z) :=
  let out := match desc with Some d => d ++ [10] | None => [] end in
  if negb (0 <? len) then Some out else
  if zlen pc <? len then None else
  '(out, buff) ← dump_loop (flagged format 0x1) 0 (take (Z.to_nat len) pc) (out, replicate 17 None);
  t ← c_str buff;
  Some (pad_loop 15 (Z.to_nat len) out ++ spaces 2 ++ t ++ [10]).

Definition csp_hex_dump (desc : option (list Z)) (pc : list Z) (len : Z) : option (list Z) := csp_hex_dump_format desc pc len 0.

(** ** What is meant *)

Definition hex_part (bs : list Z) : list Z := flat_map (fun b => spaces 1 ++ hex2 b) bs.

(** A line: where it begins, the bytes, room for those that are not there, and
    the characters. *)
Definition dump_head (offsets : bool) (i : nat) : list Z := if offsets then spaces 2 ++ ptr i ++ spaces 1 else spaces 8.
Definition dump_tail (bs : list Z) : list Z := spaces 2 ++ map printable bs ++ [10].
Definition dump_line (offsets : bool) (i : nat) (bs : list Z) : list Z :=
  dump_head offsets i ++ hex_part bs ++ spaces (3 * (16 - length bs)) ++ dump_tail bs.

(** Lines of sixteen bytes. *)
Fixpoint dump_lines (fuel : nat) (offsets : bool) (i : nat) (bs : list Z) : list Z :=
  match fuel, bs with
  | S fuel', _ :: _ => dump_line offsets i (take 16 bs) ++ dump_lines fuel' offsets (i + 16) (drop 16 bs)
  | _, _ => []
  end.

(** ** The code does it *)

(** The array holds the characters [t] of the line so far. *)
Definition buff_holds (t : list Z) (buff : list (option Z)) : Prop := exists u, buff = map Some t ++ Some 0 :: u /\ length buff = 17%nat.

Lemma c_str_holds t buff : Forall (fun c => c <> 0) t -> buff_holds t buff -> c_str buff = Some t.
Proof.
  intros Ht (u & -> & _). induction Ht as [|c t Hc _ IH]; [done|]. cbn. rewrite (proj2 (Z.eqb_neq _ _)) by done. by rewrite IH.
Qed.

Lemma printable_nonzero b : printable b <> 0.
Proof. unfold printable. destruct (_ || _) eqn:E; [done|]. lia. Qed.

Lemma printable_text bs : Forall (fun c => c <> 0) (map printable bs).
Proof. apply Forall_map, Forall_true. intros b. apply printable_nonzero. Qed.

(** A byte inside a line. *)
Lemma buff_holds_put t c buff : (length t < 16)%nat -> length buff = 17%nat -> (t = [] \/ buff_holds t buff) ->
  exists b1 b2, buff_put (length t) c buff = Some b1 /\ buff_put (length t + 1) 0 b1 = Some b2 /\ buff_holds (t ++ [c]) b2.
Proof.
  intros Hl Hb Hh. unfold buff_put. rewrite (proj2 (Nat.ltb_lt _ _)) by lia. eexists _, _. split; [done|]. rewrite length_insert, (proj2 (Nat.ltb_lt _ _)) by lia. split; [done|].
  assert (Hpre : take (length t) buff = map Some t).
  { destruct Hh as [->|(u & -> & _)]; [done|]. by rewrite take_app_le, take_ge by (rewrite length_map; lia). }
  exists (drop (length t + 2) buff). split; [|by rewrite !length_insert].
  apply list_eq. intros j. rewrite map_app, <- Hpre. destruct (decide (j = length t + 1)%nat) as [->|E1].
  - rewrite list_lookup_insert_eq by (rewrite length_insert; lia). rewrite lookup_app_r by (rewrite length_app, length_take; cbn; lia).
    rewrite length_app, length_take. cbn. by replace (length t + 1 - (length t `min` length buff + 1))%nat with O by lia.
  - rewrite list_lookup_insert_ne by done. destruct (decide (j = length t)) as [->|E2].
    + rewrite list_lookup_insert_eq by lia. rewrite lookup_app_l by (rewrite length_app, length_take; cbn; lia). rewrite lookup_app_r by (rewrite length_take; lia).
      rewrite length_take. by replace (length t - length t `min` length buff)%nat with O by lia.
    + rewrite list_lookup_insert_ne by done. destruct (decide (j < length t)%nat) as [E3|E3].
      * rewrite lookup_app_l by (rewrite length_app, length_take; cbn; lia). rewrite lookup_app_l by (rewrite length_take; lia). by rewrite lookup_take_lt.
      * rewrite lookup_app_r by (rewrite length_app, length_take; cbn; lia). rewrite length_app, length_take. cbn [length].
        replace (j - (length t `min` length buff + length (map Some [c])))%nat with (S (j - (length t + 2))) by (cbn [map length]; lia).
        rewrite lookup_cons, lookup_drop. f_equal. lia.
Qed.

(** The rest of a line that has begun. *)
Lemma dump_loop_line offsets q bs t out buff : (0 < length t)%nat -> (length t + length bs <= 16)%nat -> buff_holds t buff ->
  exists buff', dump_loop offsets (16 * q + length t) bs (out, buff) = Some (out ++ hex_part bs, buff') /\ buff_holds (t ++ map printable bs) buff'.
Proof.
  revert t out buff. induction bs as [|b bs IH]; intros t out buff Ht Hl Hh; [exists buff; cbn; by rewrite !app_nil_r|]. cbn [dump_loop length] in *.
  assert (Em : ((16 * q + length t) mod 16 = length t)%nat) by (rewrite Nat.add_comm, Nat.mul_comm, Nat.Div0.mod_add; apply Nat.mod_small; lia).
  destruct (buff_holds_put t (printable b) buff) as (b1 & b2 & E1 & E2 & Hh2); [lia|by destruct Hh as (u & _ & ?)|by right|].
  unfold dump_byte. rewrite Em, (proj2 (Nat.eqb_neq _ _)) by lia. cbn [mbind option_bind]. rewrite E1. cbn [mbind option_bind]. rewrite E2. cbn [mbind option_bind].
  destruct (IH (t ++ [printable b]) (out ++ spaces 1 ++ hex2 b) b2) as (buff' & E & Hh'); [rewrite length_app; cbn; lia|rewrite length_app; cbn; lia|done|].
  exists buff'. rewrite length_app in E. cbn [length] in E. replace (S (16 * q + length t)) with (16 * q + (length t + 1))%nat by lia. rewrite E.
  cbn [hex_part flat_map map]. rewrite <- !app_assoc in *. done.
Qed.

(** A whole line, after the end of the line before it. *)
Lemma dump_loop_first offsets q b bs t out buff : (length bs < 16)%nat -> length buff = 17%nat -> (q = O \/ buff_holds t buff /\ Forall (fun c => c <> 0) t) ->
  exists buff', dump_loop offsets (16 * q) (b :: bs) (out, buff) =
    Some (out ++ (if Nat.eqb q 0 then [] else spaces 2 ++ t ++ [10]) ++ dump_head offsets (16 * q) ++ hex_part (b :: bs), buff') /\
    buff_holds (map printable (b :: bs)) buff'.
Proof.
  intros Hl Hb Hh. cbn [dump_loop]. unfold dump_byte. assert (Em : ((16 * q) mod 16 = 0)%nat) by (rewrite Nat.mul_comm; apply Nat.Div0.mod_mul). rewrite Em. cbn [Nat.eqb].
  destruct (buff_holds_put [] (printable b) buff) as (b1 & b2 & E1 & E2 & Hh2); [cbn; lia|done|by left|]. cbn [length Nat.add] in E1, E2. change (0 + 1)%nat with 1%nat.
  assert (Epre : (if Nat.eqb (16 * q) 0 then Some [] else t0 ← c_str buff; Some (spaces 2 ++ t0 ++ [10])) = Some (if Nat.eqb q 0 then [] else spaces 2 ++ t ++ [10])).
  { destruct q as [|q]; [done|]. destruct Hh as [|[Hh Ht]]; [lia|]. replace (Nat.eqb (16 * S q) 0) with false by (symmetry; apply Nat.eqb_neq; lia).
    rewrite (c_str_holds t buff) by done. done. }
  rewrite Epre. cbn [mbind option_bind]. rewrite E1. cbn [mbind option_bind]. rewrite E2. cbn [mbind option_bind].
  match goal with |- context [dump_loop _ _ bs (?o, b2)] =>
    destruct (dump_loop_line offsets q bs [printable b] o b2 ltac:(cbn; lia) ltac:(cbn; lia) Hh2) as (buff' & E & Hh') end. cbn [length] in E.
  replace (S (16 * q)) with (16 * q + 1)%nat by lia. exists buff'. rewrite E. split; [|exact Hh']. do 2 f_equal. cbn [hex_part flat_map]. unfold dump_head.
  rewrite <- !app_assoc. done.
Qed.

Lemma dump_loop_app offsets i a b st : dump_loop offsets i (a ++ b) st = (st' ← dump_loop offsets i a st; dump_loop offsets (i + length a) b st').
Proof.
  revert i st. induction a as [|x a IH]; intros i st; cbn; [by rewrite Nat.add_0_r|]. destruct (dump_byte offsets i x st) as [st'|]; [|done]. cbn. rewrite IH.
  by replace (S i + length a)%nat with (i + S (length a))%nat by lia.
Qed.

Lemma pad_loop_spaces fuel i out : (16 - i mod 16 <= fuel \/ i mod 16 = 0)%nat -> pad_loop fuel i out = out ++ spaces (3 * ((16 - i mod 16) mod 16)).
Proof.
  revert i out. induction fuel as [|fuel IH]; intros i out Hf; pose proof (Nat.mod_upper_bound i 16); cbn [pad_loop]; destruct (Nat.eqb_spec (i mod 16) 0) as [E|E];
    try (rewrite E; cbn; by rewrite app_nil_r); [lia|].
  assert (Em : (S i mod 16 = if Nat.eqb (i mod 16) 15 then 0 else S (i mod 16))%nat).
  { replace (S i) with (i mod 16 + 1 + i / 16 * 16)%nat by (pose proof (Nat.div_mod_eq i 16); lia). rewrite Nat.Div0.mod_add.
    destruct (Nat.eqb_spec (i mod 16) 15) as [->|]; [done|]. rewrite Nat.mod_small; lia. }
  rewrite IH by (rewrite Em; destruct (Nat.eqb_spec (i mod 16) 15); lia). rewrite <- app_assoc. f_equal. unfold spaces. rewrite <- replicate_add. f_equal.
  rewrite Em. destruct (Nat.eqb_spec (i mod 16) 15) as [E15|E15]; [by rewrite E15|]. clear Em Hf IH. generalize dependent (i mod 16)%nat. intros m Hm E E15.
  rewrite !Nat.mod_small by lia. lia.
Qed.

(** Several lines; what is between the last bytes and the end of the text comes
    after the loop. *)
Lemma dump_loop_lines fuel offsets : forall q bs t out buff, (length bs <= 16 * fuel)%nat -> bs <> [] -> length buff = 17%nat ->
  (q = O \/ buff_holds t buff /\ Forall (fun c => c <> 0) t) ->
  exists buff' u, dump_loop offsets (16 * q) bs (out, buff) = Some (u, buff') /\ exists t', buff_holds t' buff' /\ Forall (fun c => c <> 0) t' /\
    pad_loop 15 (16 * q + length bs) u ++ spaces 2 ++ t' ++ [10] = out ++ (if Nat.eqb q 0 then [] else spaces 2 ++ t ++ [10]) ++ dump_lines fuel offsets (16 * q) bs.
Proof.
  induction fuel as [|fuel IH]; intros q bs t out buff Hl Hne Hb Hh; [destruct bs; [done|cbn in Hl; lia]|]. destruct bs as [|b bs]; [done|].
  set (l := take 16 (b :: bs)). set (r := drop 16 (b :: bs)). assert (Elr : b :: bs = l ++ r) by (symmetry; apply take_drop).
  destruct (dump_loop_first offsets q b (take 15 bs) t out buff) as (b1 & E1 & Hh1); [rewrite length_take; lia|done|done|]. change (b :: take 15 bs) with l in E1, Hh1.
  assert (Hll : length l = Nat.min 16 (length (b :: bs))) by apply length_take. cbn [dump_lines]. fold l r.
  destruct (decide (r = [])) as [Er|Er].
  - exists b1. rewrite Elr, Er, app_nil_r. eexists. split; [exact E1|]. exists (map printable l). split; [exact Hh1|]. split; [apply printable_text|].
    assert (Hl16 : (0 < length l <= 16)%nat) by (rewrite Hll; cbn [length]; lia). rewrite pad_loop_spaces by (pose proof (Nat.mod_upper_bound (16 * q + length l) 16); lia).
    assert (Em : ((16 - (16 * q + length l) mod 16) mod 16 = 16 - length l)%nat).
    { rewrite Nat.add_comm, Nat.mul_comm, Nat.Div0.mod_add. destruct (decide (length l = 16%nat)) as [->|]; [done|]. rewrite !Nat.mod_small by (rewrite ?Nat.mod_small; lia). done. }
    rewrite Em. unfold dump_line, dump_tail. replace (dump_lines fuel offsets (16 * q + 16) []) with (@nil Z) by (by destruct fuel). rewrite app_nil_r, <- !app_assoc. done.
  - assert (Hl16 : length l = 16%nat) by (rewrite Hll; destruct (decide (16 <= length (b :: bs))%nat); [lia|]; destruct Er; apply drop_ge; lia).
    destruct (IH (S q) r (map printable l) (out ++ (if Nat.eqb q 0 then [] else spaces 2 ++ t ++ [10]) ++ dump_head offsets (16 * q) ++ hex_part l) b1) as (buff' & u & E2 & t' & Hh' & Ht' & Et).
    + unfold r. rewrite length_drop. cbn [length] in *. lia.
    + done.
    + by destruct Hh1 as (? & _ & ?).
    + right. split; [done|apply printable_text].
    + exists buff', u. rewrite Elr, dump_loop_app, E1. cbn [mbind option_bind]. rewrite Hl16. replace (16 * q + 16)%nat with (16 * S q)%nat by lia. split; [exact E2|].
      exists t'. split; [done|]. split; [done|]. rewrite length_app, Hl16. replace (16 * q + (16 + length r))%nat with (16 * S q + length r)%nat by lia. rewrite Et. cbn [Nat.eqb].
      unfold dump_line, dump_tail. rewrite Hl16. change (spaces (3 * (16 - 16))) with (@nil Z). rewrite app_nil_l, <- !app_assoc. done.
Qed.

(** A hex dump shows the memory: on any bytes and any length up to theirs,
    [csp_hex_dump_format] never writes or reads outside its array nor what it has
    not written, ends, and gives, after the description, exactly the lines of
    sixteen bytes with their hexadecimal form and their characters. *)
Theorem hex_dump_lines desc pc len format : len <= zlen pc ->
  csp_hex_dump_format desc pc len format =
    Some (match desc with Some d => d ++ [10] | None => [] end ++ dump_lines (length pc) (flagged format 0x1) 0 (take (Z.to_nat len) pc)).
Proof.
  intros Hlen. unfold csp_hex_dump_format. cbv zeta. set (out := match desc with Some d => _ | None => _ end). destruct (Z.ltb_spec 0 len) as [Hpos|Hpos]; cbn [negb].
  - rewrite (proj2 (Z.ltb_ge _ _)) by done. set (bs := take (Z.to_nat len) pc). assert (Hbs : length bs = Z.to_nat len) by (unfold bs; rewrite length_take; lia).
    destruct (dump_loop_lines (length pc) (flagged format 1) 0 bs [] out (replicate 17 None)) as (buff & u & E & t & Hh & Ht & Et); [lia|intros E; rewrite E in Hbs; cbn in Hbs; lia|done|by left|].
    change (16 * 0)%nat with 0%nat in *. rewrite E. cbn [mbind option_bind]. rewrite (c_str_holds t buff) by done. cbn [mbind option_bind]. rewrite <- Hbs. cbn [Nat.add] in Et.
    by rewrite Et.
  - replace (Z.to_nat len) with 0%nat by lia. rewrite take_0. replace (dump_lines _ _ 0 []) with (@nil Z) by (by destruct (length pc)). by rewrite app_nil_r.
Qed.

End Dump.

Lemma hex_dump_lines_witness : csp_hex_dump_format (fun _ => []) None [72; 105; 10] 3 0 =
  Some (spaces 8 ++ [32; 52; 56; 32; 54; 57; 32; 48; 97] ++ spaces 39 ++ spaces 2 ++ [72; 105; 46; 10]).
Proof. rewrite (hex_dump_lines (fun _ => []) None [72; 105; 10] 3 0); [reflexivity|discriminate]. Defined.
