(* ===== verification/Yaml.v ===== *)
(** * Yaml: the configuration file

    [src/csp_yaml.c]: interfaces from a YAML file.  The file is the sequence of
    events that the YAML library reports; when they are used up the library
    reports the empty event again and again. *)

From stdpp Require Import strings.
From S2P Require Import Prelude State Monad Id Buffer Iflist Qfifo Kiss Can Links RtableText Zmq Linux.

Definition chars (s : string) : list Z := map (fun c => Z.of_nat (Ascii.nat_of_ascii c)) (String.list_ascii_of_string s).

(** ** [struct data_s] *)

(** A [char *]: not yet written, NULL, or a string. *)
Inductive cell := Uninit | Null | Str (v : list Z).

Record data_s := mkData {
  d_name : cell; d_driver : cell; d_device : cell; d_addr : cell; d_netmask : cell; d_server : cell; d_is_dfl : cell;
  d_baudrate : cell; d_source : cell; d_destination : cell; d_listen_port : cell; d_remote_port : cell; d_promisc : cell
}.

Definition data_uninit : data_s :=
  mkData Uninit Uninit Uninit Uninit Uninit Uninit Uninit Uninit Uninit Uninit Uninit Uninit Uninit.

Definition csp_yaml_start_if : data_s := mkData Null Null Null Null Null Null Null Null Null Null Null Null Null.

(** Which field a key sets. *)
Definition yaml_field (key : list Z) : option (cell -> data_s -> data_s) :=
  if bool_decide (key = chars "name") then
    Some (fun c d => mkData c (d_driver d) (d_device d) (d_addr d) (d_netmask d) (d_server d) (d_is_dfl d) (d_baudrate d) (d_source d) (d_destination d) (d_listen_port d) (d_remote_port d) (d_promisc d))
  else if bool_decide (key = chars "driver") then
    Some (fun c d => mkData (d_name d) c (d_device d) (d_addr d) (d_netmask d) (d_server d) (d_is_dfl d) (d_baudrate d) (d_source d) (d_destination d) (d_listen_port d) (d_remote_port d) (d_promisc d))
  else if bool_decide (key = chars "device") then
    Some (fun c d => mkData (d_name d) (d_driver d) c (d_addr d) (d_netmask d) (d_server d) (d_is_dfl d) (d_baudrate d) (d_source d) (d_destination d) (d_listen_port d) (d_remote_port d) (d_promisc d))
  else if bool_decide (key = chars "addr") then
    Some (fun c d => mkData (d_name d) (d_driver d) (d_device d) c (d_netmask d) (d_server d) (d_is_dfl d) (d_baudrate d) (d_source d) (d_destination d) (d_listen_port d) (d_remote_port d) (d_promisc d))
  else if bool_decide (key = chars "netmask") then
    Some (fun c d => mkData (d_name d) (d_driver d) (d_device d) (d_addr d) c (d_server d) (d_is_dfl d) (d_baudrate d) (d_source d) (d_destination d) (d_listen_port d) (d_remote_port d) (d_promisc d))
  else if bool_decide (key = chars "server") then
    Some (fun c d => mkData (d_name d) (d_driver d) (d_device d) (d_addr d) (d_netmask d) c (d_is_dfl d) (d_baudrate d) (d_source d) (d_destination d) (d_listen_port d) (d_remote_port d) (d_promisc d))
  else if bool_decide (key = chars "default") then
    Some (fun c d => mkData (d_name d) (d_driver d) (d_device d) (d_addr d) (d_netmask d) (d_server d) c (d_baudrate d) (d_source d) (d_destination d) (d_listen_port d) (d_remote_port d) (d_promisc d))
  else if bool_decide (key = chars "baudrate") then
    Some (fun c d => mkData (d_name d) (d_driver d) (d_device d) (d_addr d) (d_netmask d) (d_server d) (d_is_dfl d) c (d_source d) (d_destination d) (d_listen_port d) (d_remote_port d) (d_promisc d))
  else if bool_decide (key = chars "source") then
    Some (fun c d => mkData (d_name d) (d_driver d) (d_device d) (d_addr d) (d_netmask d) (d_server d) (d_is_dfl d) (d_baudrate d) c (d_destination d) (d_listen_port d) (d_remote_port d) (d_promisc d))
  else if bool_decide (key = chars "destination") then
    Some (fun c d => mkData (d_name d) (d_driver d) (d_device d) (d_addr d) (d_netmask d) (d_server d) (d_is_dfl d) (d_baudrate d) (d_source d) c (d_listen_port d) (d_remote_port d) (d_promisc d))
  else if bool_decide (key = chars "listen_port") then
    Some (fun c d => mkData (d_name d) (d_driver d) (d_device d) (d_addr d) (d_netmask d) (d_server d) (d_is_dfl d) (d_baudrate d) (d_source d) (d_destination d) c (d_remote_port d) (d_promisc d))
  else if bool_decide (key = chars "remote_port") then
    Some (fun c d => mkData (d_name d) (d_driver d) (d_device d) (d_addr d) (d_netmask d) (d_server d) (d_is_dfl d) (d_baudrate d) (d_source d) (d_destination d) (d_listen_port d) c (d_promisc d))
  else if bool_decide (key = chars "promisc") then
    Some (fun c d => mkData (d_name d) (d_driver d) (d_device d) (d_addr d) (d_netmask d) (d_server d) (d_is_dfl d) (d_baudrate d) (d_source d) (d_destination d) (d_listen_port d) (d_remote_port d) c)
  else None.

(** An unknown key is only printed; the value of a known key must be a scalar
    ([None] when it is not). *)
Definition csp_yaml_key_value (data : data_s) (key : list Z) (value : option (list Z)) : M data_s :=
  match yaml_field key with
  | None => mret data
  | Some set => v ← of_option value; mret (set (Str v) data)
  end.

(** Reading a field. *)
Definition cell_get (c : cell) : M (option (list Z)) :=
  match c with Uninit => undef | Null => mret None | Str v => mret (Some v) end.

(** ** [atoi] *)

(** White space, a sign and digits; a value that no [int] has is undefined. *)
Definition int_of (l : list Z) : option Z :=
  let '(neg, l) := scan_sign (skip_ws l) in
  let ds := fst (span is_digit (length l) l) in
  let v := if neg then - dec_val ds else dec_val ds in
  if (- 2 ^ 31 <=? v) && (v <? 2 ^ 31) then Some v else None.

Definition atoi (l : list Z) : M Z := of_option (int_of l).

(** ** One interface *)

(** What [malloc] leaves in the memory it returns. *)
Class Heap := { heap_iface : csp_iface; heap_udp : csp_udp }.

Section EndIf.
Context `{Heap} `{Sys} `{Zmq} `{Inet}.

Definition iface_new (x : csp_iface) : M nat :=
  s ← gets id; modify (set_ifs (ifs s ++ [x])) ;; mret (length (ifs s)).

(** The branches on the driver: the new interface, or none on a return. *)
Definition yaml_kiss (data : data_s) (name : list Z) (addr : Z) : M (option nat) :=
  baudrate ← cell_get (d_baudrate data);
  match baudrate with
  | None => mret None
  | Some b =>
      device ← cell_get (d_device data);
      rate ← atoi b;
      '(error, iface) ← csp_usart_open_and_add_kiss_interface device (u32 rate) (Some name) (u16 addr);
      if negb (error =? CSP_ERR_NONE) then mret None else mret iface
  end.

Definition yaml_tun (data : data_s) : M (option nat) :=
  source ← cell_get (d_source data);
  match source with
  | None => mret None
  | Some src =>
      destination ← cell_get (d_destination data);
      match destination with
      | None => mret None
      | Some dst =>
          i ← iface_new heap_iface;
          d ← atoi dst;
          r ← atoi src;
          modify (fun s => set_tun (put_dev i (mkTun r d) (tun s)) s) ;;
          csp_if_tun_init i ;;
          mret (Some i)
      end
  end.

Definition yaml_udp (data : data_s) : M (option nat) :=
  server ← cell_get (d_server data);
  match server with
  | None => mret None
  | Some host =>
      listen_port ← cell_get (d_listen_port data);
      match listen_port with
      | None => mret None
      | Some lp =>
          remote_port ← cell_get (d_remote_port data);
          match remote_port with
          | None => mret None
          | Some rp =>
              i ← iface_new iface_zero;
              lport ← atoi lp;
              rport ← atoi rp;
              modify (fun s => set_udp (put_dev i (mkUdp host lport rport (peer_addr heap_udp) (sockfd heap_udp)) (udp s)) s) ;;
              csp_if_udp_init i ;;
              mret (Some i)
          end
      end
  end.

Definition yaml_zmq (data : data_s) (name netmask : list Z) (addr : Z) : M (option nat) :=
  server ← cell_get (d_server data);
  match server with
  | None => mret None
  | Some host =>
      promisc ← cell_get (d_promisc data);
      mask ← atoi netmask;
      '(_, i, _) ← csp_zmqhub_init_filter2 (Some name) host (u16 addr) (u16 mask)
        (bool_decide (promisc = Some (chars "true"))) CSP_ZMQPROXY_SUBSCRIBE_PORT CSP_ZMQPROXY_PUBLISH_PORT;
      mret (Some i)
  end.

Definition yaml_can (data : data_s) (name : list Z) (addr : Z) : M (option nat) :=
  device ← cell_get (d_device data);
  match device with
  | None => mret None
  | Some dev =>
      '(error, iface, _) ← csp_can_socketcan_open_and_add_interface dev (Some name) addr true;
      if negb (error =? CSP_ERR_NONE) then mret None else mret iface
  end.

Definition yaml_driver (data : data_s) (driver name netmask : list Z) (addr : Z) : M (option nat) :=
  if bool_decide (driver = chars "kiss") then yaml_kiss data name addr
  else if bool_decide (driver = chars "tun") then yaml_tun data
  else if bool_decide (driver = chars "udp") then yaml_udp data
  else if bool_decide (driver = chars "zmq") then yaml_zmq data name netmask addr
  else if bool_decide (driver = chars "can") then yaml_can data name addr
  else mret None.

(** The address of the interface and the new value of [*dfl_addr], which is
    [None] when the caller passed NULL. *)
Definition yaml_address (dfl_addr : option Z) (is_dfl : bool) (addr : Z) : Z * option Z :=
  match dfl_addr with
  | Some d => if is_dfl then if d =? 0 then (addr, Some (u32 addr)) else (i32 d, Some d) else (addr, dfl_addr)
  | None => (addr, None)
  end.

(** [csp_yaml_end_if]: the new value of [*dfl_addr]. *)
Definition csp_yaml_end_if (data : data_s) (dfl_addr : option Z) : M (option Z) :=
  name ← cell_get (d_name data);
  match name with None => mret dfl_addr | Some name =>
  driver ← cell_get (d_driver data);
  match driver with None => mret dfl_addr | Some driver =>
  a ← cell_get (d_addr data);
  match a with None => mret dfl_addr | Some a =>
  netmask ← cell_get (d_netmask data);
  match netmask with None => mret dfl_addr | Some netmask =>
  addr ← atoi a;
  is_dfl ← cell_get (d_is_dfl data);
  let is_dfl := bool_decide (is_dfl <> None) in
  let '(addr, dfl_addr) := yaml_address dfl_addr is_dfl addr in
  iface ← yaml_driver data driver name netmask addr;
  match iface with
  | None => mret dfl_addr
  | Some i =>
      mod_iface i (set_if_addr (u16 addr)) ;;
      mask ← atoi netmask;
      mod_iface i (set_if_netmask (u16 mask)) ;;
      mod_iface i (set_if_name (Some name)) ;;
      mod_iface i (set_is_default (if is_dfl then 1 else 0)) ;;
      mret dfl_addr
  end end end end end.

(** ** The file *)

(** The events of the YAML library. *)
Inductive yaml_event :=
| YAML_STREAM_START | YAML_DOCUMENT_START | YAML_SEQUENCE_START | YAML_SEQUENCE_END
| YAML_MAPPING_START | YAML_MAPPING_END | YAML_SCALAR (value : list Z) | YAML_OTHER.

Definition scalar_value (e : yaml_event) : option (list Z) := match e with YAML_SCALAR v => Some v | _ => None end.

(** The frees at the end: every field must have been written. *)
Definition yaml_cleanup (data : data_s) : M unit :=
  _ ← cell_get (d_name data); _ ← cell_get (d_driver data); _ ← cell_get (d_device data); _ ← cell_get (d_addr data);
  _ ← cell_get (d_netmask data); _ ← cell_get (d_server data); _ ← cell_get (d_is_dfl data); _ ← cell_get (d_baudrate data);
  _ ← cell_get (d_source data); _ ← cell_get (d_destination data); _ ← cell_get (d_listen_port data);
  _ ← cell_get (d_remote_port data); _ ← cell_get (d_promisc data); mret tt.

(** The loop of [csp_yaml_init].  When the events are used up, the library
    reports the empty event for ever and the loop does not end. *)
Fixpoint yaml_loop (events : list yaml_event) (data : data_s) (dfl_addr : option Z) : M (option Z) :=
  match events with
  | [] => halt
  | YAML_SEQUENCE_END :: _ => yaml_cleanup data ;; mret dfl_addr
  | YAML_MAPPING_START :: events' => yaml_loop events' csp_yaml_start_if dfl_addr
  | YAML_MAPPING_END :: events' => dfl_addr ← csp_yaml_end_if data dfl_addr; yaml_loop events' data dfl_addr
  | YAML_SCALAR key :: event_val :: events' =>
      data ← csp_yaml_key_value data key (scalar_value event_val);
      yaml_loop events' data dfl_addr
  | YAML_SCALAR key :: [] => data ← csp_yaml_key_value data key None; halt
  | _ :: events' => yaml_loop events' data dfl_addr
  end.

(** [csp_yaml_init] on a file ([None] when it cannot be opened). *)
Definition csp_yaml_init (file : option (list yaml_event)) (dfl_addr : option Z) : M (option Z) :=
  match file with
  | Some (YAML_STREAM_START :: YAML_DOCUMENT_START :: YAML_SEQUENCE_START :: events) => yaml_loop events data_uninit dfl_addr
  | _ => mret dfl_addr
  end.

End EndIf.
