(* ===== verification/YamlSpec.v ===== *)
(** * YamlSpec: what the configuration file configures

    A document of UDP and tunnel interfaces against the contract of
    [csp_yaml.h], and the two ways in which [csp_yaml_init] fails. *)

From stdpp Require Import strings sets.
From S2P Require Import Prelude State Monad Id Buffer Iflist Qfifo OwnConf Kiss Can Links RtableText Zmq Linux LinuxSpec Yaml.

(** ** Documents *)

(** An entry of the file: its keys and values in the order of the text. *)
Definition entry : Type := list (list Z * list Z).

Definition entry_events (e : entry) : list yaml_event :=
  YAML_MAPPING_START :: flat_map (fun kv => [YAML_SCALAR kv.1; YAML_SCALAR kv.2]) e ++ [YAML_MAPPING_END].

Definition doc_events (doc : list entry) : list yaml_event :=
  [YAML_STREAM_START; YAML_DOCUMENT_START; YAML_SEQUENCE_START] ++ flat_map entry_events doc ++ [YAML_SEQUENCE_END].

(** The value of a key: the last one given. *)
Definition value (key : string) (e : entry) : option (list Z) :=
  foldl (fun r kv => if bool_decide (kv.1 = chars key) then Some kv.2 else r) None e.

Definition has (key : string) (e : entry) : Prop := value key e <> None.

(** ** What an entry asks for *)

Record settings := mkSettings { st_name : option (list Z); st_addr : Z; st_netmask : Z; st_nexthop : nat; st_default : Z }.

Definition settings_of (x : csp_iface) : settings :=
  mkSettings (if_name x) (if_addr x) (if_netmask x) (if_nexthop x) (is_default x).

(** The interface type, when the options it needs are there. *)
Definition entry_hop (e : entry) : option nat :=
  driver ← value "driver" e;
  if bool_decide (driver = chars "udp") then
    _ ← value "server" e; _ ← value "listen_port" e; _ ← value "remote_port" e; Some UDP_NEXTHOP
  else if bool_decide (driver = chars "tun") then
    _ ← value "source" e; _ ← value "destination" e; Some TUN_NEXTHOP
  else None.

(** The configuration of its driver: for UDP the host, the local and the remote
    port, in this order, and the address of the host; for the tunnel the source
    and the destination. *)
Inductive device := DevUdp (d : csp_udp) | DevTun (d : csp_tun).

Definition number (key : string) (e : entry) : option Z := value key e ≫= int_of.

Definition entry_dev `{Heap} `{Inet} (e : entry) : option device :=
  driver ← value "driver" e;
  if bool_decide (driver = chars "udp") then
    host ← value "server" e; local ← number "listen_port" e; remote ← number "remote_port" e;
    Some (DevUdp (mkUdp host local remote (default (peer_addr heap_udp) (inet_aton host)) (sockfd heap_udp)))
  else if bool_decide (driver = chars "tun") then
    src ← number "source" e; dst ← number "destination" e; Some (DevTun (mkTun src dst))
  else None.

Definition device_at (i : nat) (d : device) (s : node) : Prop :=
  match d with DevUdp u => udp s !! i = Some (Some u) | DevTun t => tun s !! i = Some (Some t) end.

(** The address the file gives a complete entry. *)
Definition entry_addr (e : entry) : option Z :=
  _ ← value "name" e; _ ← value "driver" e; a ← value "addr" e; _ ← value "netmask" e; int_of a.

Definition entry_default (e : entry) : bool := bool_decide (value "default" e <> None).

(** The contract of [csp_yaml.h] on the default address: a nonzero number of
    the caller overrides the one of a default interface, a zero is replaced by
    it, and NULL does neither. *)
Definition entry_dfl (e : entry) (dfl : option Z) : option Z :=
  match entry_addr e, dfl with
  | Some a, Some d => if entry_default e then if d =? 0 then Some (u32 a) else Some d else Some d
  | _, _ => dfl
  end.

Definition entry_if (e : entry) (dfl : option Z) : list settings :=
  match entry_addr e, value "netmask" e ≫= int_of, entry_hop e with
  | Some a, Some m, Some hop =>
      let addr := match dfl with Some d => if entry_default e && negb (d =? 0) then d else a | None => a end in
      [mkSettings (value "name" e) (u16 addr) (u16 m) hop (if entry_default e then 1 else 0)]
  | _, _, _ => []
  end.

Fixpoint doc_config (doc : list entry) (dfl : option Z) : list settings * option Z :=
  match doc with
  | [] => ([], dfl)
  | e :: doc' => let '(cfg, dfl') := doc_config doc' (entry_dfl e dfl) in (entry_if e dfl ++ cfg, dfl')
  end.

(** The devices of the interfaces, in the same order. *)
Fixpoint doc_devices `{Heap} `{Inet} (doc : list entry) (dfl : option Z) : list (option device) :=
  match doc with
  | [] => []
  | e :: doc' => map (fun _ => entry_dev e) (entry_if e dfl) ++ doc_devices doc' (entry_dfl e dfl)
  end.

(** The numbers are numbers; the drivers are those of the UDP and tunnel
    interfaces, or unknown; no name is that which a driver gives its interface
    until [csp_yaml_end_if] names it. *)
Definition entry_ok (e : entry) : Prop :=
  Forall (fun k => match value k e with Some v => is_Some (int_of v) | None => True end)
    ["addr"; "netmask"; "listen_port"; "remote_port"; "source"; "destination"] /\
  (forall v, value "driver" e = Some v -> v ∉ [chars "kiss"; chars "zmq"; chars "can"]) /\
  (forall v, value "name" e = Some v -> name_eq (chars "UDP") v = false /\ name_eq (chars "TUN") v = false).

(** ** The fields *)

Definition cell_of (o : option (list Z)) : cell := match o with Some v => Str v | None => Null end.

Definition data_of (e : entry) : data_s :=
  foldl (fun d kv => match yaml_field kv.1 with Some set => set (Str kv.2) d | None => d end) csp_yaml_start_if e.

(** A field that a key sets and no other key does. *)
Definition set_by (key : string) (field : data_s -> cell) : Prop :=
  field csp_yaml_start_if = Null /\
  forall k c d, field (match yaml_field k with Some set => set c d | None => d end) =
    if bool_decide (k = chars key) then c else field d.

Lemma data_of_field key field e : set_by key field -> field (data_of e) = cell_of (value key e).
Proof.
  intros [Hn Hs]. unfold data_of, value. induction e as [|[k v] e IH] using rev_ind; [done|].
  rewrite !foldl_app. simpl. rewrite Hs. by case_bool_decide.
Qed.

Lemma data_of_fields e :
  d_name (data_of e) = cell_of (value "name" e) /\ d_driver (data_of e) = cell_of (value "driver" e) /\
  d_device (data_of e) = cell_of (value "device" e) /\ d_addr (data_of e) = cell_of (value "addr" e) /\
  d_netmask (data_of e) = cell_of (value "netmask" e) /\ d_server (data_of e) = cell_of (value "server" e) /\
  d_is_dfl (data_of e) = cell_of (value "default" e) /\ d_baudrate (data_of e) = cell_of (value "baudrate" e) /\
  d_source (data_of e) = cell_of (value "source" e) /\ d_destination (data_of e) = cell_of (value "destination" e) /\
  d_listen_port (data_of e) = cell_of (value "listen_port" e) /\ d_remote_port (data_of e) = cell_of (value "remote_port" e) /\
  d_promisc (data_of e) = cell_of (value "promisc" e).
Proof.
  repeat split; apply data_of_field; (split; [reflexivity|]; intros k c d; unfold yaml_field; repeat case_bool_decide; by subst).
Qed.

Lemma cell_get_of o s : cell_get (cell_of o) s = Ret o s.
Proof. by destruct o. Qed.

Lemma cleanup_run e s : yaml_cleanup (data_of e) s = Ret tt s.
Proof.
  unfold yaml_cleanup. destruct (data_of_fields e) as (-> & -> & -> & -> & -> & -> & -> & -> & -> & -> & -> & -> & ->).
  by repeat (erewrite bind_ret by apply cell_get_of).
Qed.

(** ** The new interface *)

Definition own_name (n : list Z) : Prop := name_eq (chars "UDP") n = false /\ name_eq (chars "TUN") n = false.

(** The listed interfaces have names, and none that the drivers give. *)
Definition config_ok (s : node) (l : list nat) : Prop :=
  iflist s l /\ Forall (fun i => exists st n, map settings_of (ifs s) !! i = Some st /\ st_name st = Some n /\ own_name n) l.

Lemma config_names s l : config_ok s l -> named (ifs s) l /\
  existsb (name_taken (ifs s) (chars "UDP")) l = false /\ existsb (name_taken (ifs s) (chars "TUN")) l = false.
Proof.
  intros [_ Hn]. assert (Hat : forall i, i ∈ l -> exists x n, ifs s !! i = Some x /\ if_name x = Some n /\ own_name n).
  { intros i Hi. rewrite Forall_forall in Hn. destruct (Hn i (proj1 (list_elem_of_In _ _) Hi)) as (st & n & Hst & Hna & Hown).
    apply list_lookup_fmap_Some in Hst as (x & -> & Hx). eauto. }
  split; [|split].
  - intros i y Hi Hy. destruct (Hat i Hi) as (x & n & Hx & Hna & _). congruence.
  - apply not_true_is_false. rewrite existsb_exists. intros (i & Hi & Ht). apply list_elem_of_In in Hi.
    destruct (Hat i Hi) as (x & n & Hx & Hna & Hu & _). unfold name_taken in Ht. rewrite Hx, Hna in Ht. congruence.
  - apply not_true_is_false. rewrite existsb_exists. intros (i & Hi & Ht). apply list_elem_of_In in Hi.
    destruct (Hat i Hi) as (x & n & Hx & Hna & _ & Hu). unfold name_taken in Ht. rewrite Hx, Hna in Ht. congruence.
Qed.

(** Linking changes no setting. *)
Lemma keeps_settings_link i n : keeps (fun s => map settings_of (ifs s)) (mod_iface i (set_if_next n)).
Proof.
  intros s. unfold mod_iface. destruct (ifs s !! i) as [x|] eqn:Hx; [|done]. simpl.
  rewrite list_fmap_insert. apply list_insert_id. rewrite list_lookup_fmap, Hx. done.
Qed.

Lemma keeps_settings_add o : keeps (fun s => map settings_of (ifs s)) (csp_iflist_add o).
Proof.
  unfold csp_iflist_add. destruct o; repeat first [apply keeps_settings_link|apply keeps_if_last|keeps_step].
Qed.

(** Setting a field but [next] keeps the list. *)
Lemma set_new_run s l i f g cfg st : iflist s l -> map settings_of (ifs s) = cfg ++ [st] -> i = length cfg ->
  (forall x, if_next (f x) = if_next x /\ settings_of (f x) = g (settings_of x)) ->
  exists s', mod_iface i f s = Ret tt s' /\ iflist s' l /\ map settings_of (ifs s') = cfg ++ [g st] /\ (udp s', tun s') = (udp s, tun s).
Proof.
  intros Hl E -> Hf. assert (Hst : map settings_of (ifs s) !! length cfg = Some st) by (by rewrite E, lookup_app_r, Nat.sub_diag).
  apply list_lookup_fmap_Some in Hst as (x & -> & Hx). rewrite (mod_iface_at _ _ _ _ Hx). eexists. split; [reflexivity|]. split; [|split; [|done]].
  - unfold iflist. simpl. eapply chain_insert_next; [exact Hl|exact Hx|apply Hf].
  - simpl. rewrite list_fmap_insert. change (settings_of <$> ifs s) with (map settings_of (ifs s)). rewrite E, insert_app_r_alt, Nat.sub_diag by done. simpl. by destruct (Hf x) as [_ ->].
Qed.

(** *** The devices *)

Definition devs (s : node) := (udp s, tun s).

(** The devices of the interfaces below [n] are still there. *)
Definition devs_kept (n : nat) (s s' : node) : Prop := forall j d, (j < n)%nat -> device_at j d s -> device_at j d s'.

Lemma devs_same n s s' : devs s' = devs s -> devs_kept n s s'.
Proof. intros [= E1 E2] j [u|t] _; simpl; congruence. Qed.

Lemma devs_kept_trans n m s s' s'' : devs_kept n s s' -> devs_kept m s' s'' -> (n <= m)%nat -> devs_kept n s s''.
Proof. intros H1 H2 Hle j d Hj Hd. apply H2; [lia|]. by apply H1. Qed.

Lemma put_dev_new {A} i (d : A) dev : put_dev i d dev !! i = Some (Some d).
Proof.
  unfold put_dev. rewrite app_assoc, lookup_app_r by (rewrite length_app, length_take, length_replicate; lia).
  by rewrite length_app, length_take, length_replicate, (ltac:(lia) : (i - (i `min` length dev + (i - length dev)) = 0)%nat).
Qed.

Lemma put_dev_old {A} i (d : A) dev j x : (j < i)%nat -> dev !! j = Some x -> put_dev i d dev !! j = Some x.
Proof.
  intros Hj Hx. unfold put_dev. apply lookup_lt_Some in Hx as Hl. rewrite lookup_app_l by (rewrite length_take; lia).
  by rewrite lookup_take_lt.
Qed.

(** The drivers: the new interface is the last of the list. *)
Lemma new_if_run s s1 l x nm hop : config_ok s l -> ifs s1 = ifs s ++ [x] -> interfaces s1 = interfaces s ->
  nm = chars "UDP" \/ nm = chars "TUN" ->
  exists s' st, (mod_iface (length (ifs s)) (set_if_name (Some nm)) ;; mod_iface (length (ifs s)) (set_if_nexthop hop) ;;
      csp_iflist_add (Some (length (ifs s)))) s1 = Ret tt s' /\
    iflist s' (l ++ [length (ifs s)]) /\ map settings_of (ifs s') = map settings_of (ifs s) ++ [st] /\ st_nexthop st = hop /\
    devs s' = devs s1.
Proof.
  intros Hok Hs1 Hi1 Hnm. destruct (config_names _ _ Hok) as (Hn & Hu & Ht). destruct Hok as [Hl _].
  set (x' := set_if_nexthop hop (set_if_name (Some nm) x)). set (s2 := set_ifs (ifs s ++ [x']) s1).
  destruct (iflist_add_new s s2 l x' nm) as (s3 & Hadd & Hl3); [done|done|done| |done|done|].
  { by destruct Hnm as [->| ->]. }
  exists s3, (settings_of x'). split; [|split; [done|split; [|split; [done|]]]].
  - assert (Hat : forall y (l0 : list csp_iface), (l0 ++ [y]) !! length l0 = Some y) by (intros y l0; by rewrite lookup_app_r, Nat.sub_diag).
    erewrite bind_ret by (apply mod_iface_at; rewrite Hs1; apply Hat). erewrite bind_ret.
    2: { apply mod_iface_at. cbn [ifs set_ifs]. rewrite Hs1, insert_app_r_alt, Nat.sub_diag by done. apply Hat. }
    rewrite <- Hadd. f_equal. cbn [ifs set_ifs]. rewrite Hs1, !(insert_app_r_alt _ _ (length (ifs s))), Nat.sub_diag by done. reflexivity.
  - rewrite (keeps_run _ _ _ _ _ (keeps_settings_add _) Hadd). simpl. by rewrite map_app.
  - rewrite (keeps_run devs _ _ _ _ (keeps_iflist_add devs _ (fun _ _ => eq_refl) (fun _ _ => eq_refl)) Hadd). done.
Qed.

(** ** The operations on an entry *)

Section Entries.
Context `{Heap} `{Sys} `{Zmq} `{Inet}.

Lemma int_at e k v s : entry_ok e -> k ∈ ["addr"; "netmask"; "listen_port"; "remote_port"; "source"; "destination"] ->
  value k e = Some v -> exists n, int_of v = Some n /\ atoi v s = Ret n s.
Proof.
  intros [He _] Hk Hv. rewrite Forall_forall in He. specialize (He k (proj1 (list_elem_of_In _ _) Hk)). rewrite Hv in He.
  destruct He as [n Hn]. exists n. unfold atoi. by rewrite Hn.
Qed.

(** [csp_if_udp_init] on the new interface. *)
Lemma udp_init_run s s1 l x d : config_ok s l -> ifs s1 = ifs s ++ [x] -> interfaces s1 = interfaces s ->
  udp s1 !! length (ifs s) = Some (Some d) ->
  exists s' st, csp_if_udp_init (length (ifs s)) s1 = Ret tt s' /\ iflist s' (l ++ [length (ifs s)]) /\
    map settings_of (ifs s') = map settings_of (ifs s) ++ [st] /\ st_nexthop st = UDP_NEXTHOP /\ tun s' = tun s1 /\
    udp s' = <[length (ifs s) := Some (set_peer_addr (default (peer_addr d) (inet_aton (udp_host d))) d)]> (udp s1).
Proof.
  intros Hok Hi1 Hh1 Hd. unfold csp_if_udp_init. rewrite (bind_ret _ _ s1 s1 s1) by done. rewrite Hd.
  rewrite (bind_ret _ _ s1 d s1) by done.
  set (d' := set_peer_addr _ d). set (s2 := set_udp (<[length (ifs s) := Some d']> (udp s1)) s1).
  assert (E : (match inet_aton (udp_host d) with
    | Some a => modify (set_udp (<[length (ifs s) := Some (set_peer_addr a d)]> (udp s1))) | None => mret tt end) s1 = Ret tt s2).
  { unfold s2, d'. destruct (inet_aton (udp_host d)) as [a|]; [done|]. cbn [default]. destruct d. unfold set_peer_addr. cbn.
    rewrite list_insert_id by done. by destruct s1. }
  rewrite (bind_ret _ _ _ _ _ E).
  destruct (new_if_run s s2 l x (chars "UDP") UDP_NEXTHOP Hok Hi1 Hh1) as (s' & st & Hrun & Hl & Hs & Hh & Hdv); [by left|].
  injection Hdv as Eu Et. exists s', st. by split_and!.
Qed.

Definition driver_made (e : entry) (s : node) (l : list nat) (hop : nat) (s' : node) : Prop :=
  exists st dv, iflist s' (l ++ [length (ifs s)]) /\ map settings_of (ifs s') = map settings_of (ifs s) ++ [st] /\ st_nexthop st = hop /\
    entry_dev e = Some dv /\ device_at (length (ifs s)) dv s' /\ devs_kept (length (ifs s)) s s'.

Lemma driver_run e s l driver name netmask addr : config_ok s l -> entry_ok e -> value "driver" e = Some driver ->
  match entry_hop e with
  | None => yaml_driver (data_of e) driver name netmask addr s = Ret None s
  | Some hop => exists s', yaml_driver (data_of e) driver name netmask addr s = Ret (Some (length (ifs s))) s' /\ driver_made e s l hop s'
  end.
Proof.
  intros Hok He Hd. pose proof He as (_ & Hdr & _). specialize (Hdr _ Hd). unfold driver_made, entry_hop, entry_dev, number. rewrite Hd. simpl.
  unfold yaml_driver. rewrite (bool_decide_false (driver = chars "kiss")) by (intros ->; set_solver).
  rewrite (bool_decide_false (driver = chars "zmq")) by (intros ->; set_solver).
  rewrite (bool_decide_false (driver = chars "can")) by (intros ->; set_solver).
  destruct (data_of_fields e) as (_ & _ & _ & _ & _ & E1 & _ & _ & E2 & E3 & E4 & E5 & _).
  case_bool_decide as Hu; [|case_bool_decide as Ht; [|done]].
  - subst driver. rewrite (bool_decide_false (chars "udp" = chars "tun")) by done. unfold yaml_udp. rewrite E1, E4, E5.
    rewrite (bind_ret _ _ _ _ _ (cell_get_of _ _)). destruct (value "server" e) as [srv|]; [simpl|done].
    rewrite (bind_ret _ _ _ _ _ (cell_get_of _ _)). destruct (value "listen_port" e) as [lp|] eqn:Elp; [simpl|done].
    rewrite (bind_ret _ _ _ _ _ (cell_get_of _ _)). destruct (value "remote_port" e) as [rp|] eqn:Erp; [simpl|done].
    set (s1 := set_ifs (ifs s ++ [iface_zero]) s). rewrite (bind_ret _ _ _ (length (ifs s)) s1) by done.
    destruct (int_at e "listen_port" lp s1 He ltac:(set_solver) Elp) as (n1 & En1 & Hrn1). rewrite (bind_ret _ _ _ _ _ Hrn1).
    destruct (int_at e "remote_port" rp s1 He ltac:(set_solver) Erp) as (n2 & En2 & Hrn2). rewrite (bind_ret _ _ _ _ _ Hrn2).
    rewrite En1, En2. simpl. set (d := mkUdp srv n1 n2 _ _). set (s2 := set_udp (put_dev (length (ifs s)) d (udp s)) s1).
    rewrite (bind_ret _ _ _ tt s2) by done.
    destruct (udp_init_run s s2 l iface_zero d Hok eq_refl eq_refl (put_dev_new _ _ _)) as (s' & st & Hrun & Hl & Hs & Hh & Et & Eu).
    exists s'. rewrite (bind_ret _ _ _ _ _ Hrun). split; [done|]. eexists st, _. split_and!; [done..| |].
    + simpl. rewrite Eu, list_lookup_insert_eq; [done|]. eapply lookup_lt_Some, put_dev_new.
    + intros j [u|t] Hj; simpl; [|by rewrite Et]. rewrite Eu, list_lookup_insert_ne by lia. by apply put_dev_old.
  - subst driver. unfold yaml_tun. rewrite E2, E3.
    rewrite (bind_ret _ _ _ _ _ (cell_get_of _ _)). destruct (value "source" e) as [src|] eqn:Esrc; [simpl|done].
    rewrite (bind_ret _ _ _ _ _ (cell_get_of _ _)). destruct (value "destination" e) as [dst|] eqn:Edst; [simpl|done].
    set (s1 := set_ifs (ifs s ++ [heap_iface]) s). rewrite (bind_ret _ _ _ (length (ifs s)) s1) by done.
    destruct (int_at e "destination" dst s1 He ltac:(set_solver) Edst) as (n1 & En1 & Hrn1). rewrite (bind_ret _ _ _ _ _ Hrn1).
    destruct (int_at e "source" src s1 He ltac:(set_solver) Esrc) as (n2 & En2 & Hrn2). rewrite (bind_ret _ _ _ _ _ Hrn2).
    rewrite En1, En2. simpl. set (s2 := set_tun (put_dev (length (ifs s)) (mkTun n2 n1) (tun s)) s1).
    rewrite (bind_ret _ _ _ tt s2) by done.
    destruct (new_if_run s s2 l heap_iface (chars "TUN") TUN_NEXTHOP Hok eq_refl eq_refl) as (s' & st & Hrun & Hl & Hs & Hh & Hdv); [by right|].
    injection Hdv as Eu Et. exists s'. unfold csp_if_tun_init. rewrite (bind_ret _ _ _ _ _ Hrun). split; [done|].
    eexists st, _. split_and!; [done..| |].
    + simpl. rewrite Et. apply put_dev_new.
    + intros j [u|t] Hj; simpl; [by rewrite Eu|]. rewrite Et. by apply put_dev_old.
Qed.

Lemma u16_i32 d : u16 (i32 d) = u16 d.
Proof.
  unfold u16, i32. pose proof (Z.div_mod (d + 2 ^ 31) (2 ^ 32) ltac:(lia)) as Dm.
  replace ((d + 2 ^ 31) mod 2 ^ 32 - 2 ^ 31) with (d + (- ((d + 2 ^ 31) / 2 ^ 32) * 2 ^ 16) * 2 ^ 16) by lia.
  by rewrite Z.mod_add.
Qed.

Lemma yaml_address_spec dfl b a :
  snd (yaml_address dfl b a) = match dfl with Some d => if b then if d =? 0 then Some (u32 a) else Some d else Some d | None => None end /\
  u16 (fst (yaml_address dfl b a)) = u16 (match dfl with Some d => if b && negb (d =? 0) then d else a | None => a end).
Proof. destruct dfl as [d|], b; simpl; try done. destruct (d =? 0); simpl; by rewrite ?u16_i32. Qed.

(** A new interface gets its name and its numbers. *)
Lemma finish_run s l i cfg st name netmask m addr d : iflist s l -> map settings_of (ifs s) = cfg ++ [st] -> i = length cfg ->
  int_of netmask = Some m -> forall dfl : option Z,
  exists s', (mod_iface i (set_if_addr (u16 addr)) ;; mask ← atoi netmask; mod_iface i (set_if_netmask (u16 mask)) ;;
      mod_iface i (set_if_name (Some name)) ;; mod_iface i (set_is_default d) ;; mret dfl) s = Ret dfl s' /\
    iflist s' l /\ map settings_of (ifs s') = cfg ++ [mkSettings (Some name) (u16 addr) (u16 m) (st_nexthop st) d] /\ devs s' = devs s.
Proof.
  intros Hl E Hi Hm dfl.
  destruct (set_new_run s l i (set_if_addr (u16 addr)) (fun t => mkSettings (st_name t) (u16 addr) (st_netmask t) (st_nexthop t) (st_default t)) cfg st)
    as (s1 & R1 & L1 & E1 & D1); [done..|]. rewrite (bind_ret _ _ _ _ _ R1).
  rewrite (bind_ret _ _ _ m s1) by (unfold atoi; by rewrite Hm).
  destruct (set_new_run s1 l i (set_if_netmask (u16 m)) (fun t => mkSettings (st_name t) (st_addr t) (u16 m) (st_nexthop t) (st_default t)) cfg _ L1 E1)
    as (s2 & R2 & L2 & E2 & D2); [done..|]. rewrite (bind_ret _ _ _ _ _ R2).
  destruct (set_new_run s2 l i (set_if_name (Some name)) (fun t => mkSettings (Some name) (st_addr t) (st_netmask t) (st_nexthop t) (st_default t)) cfg _ L2 E2)
    as (s3 & R3 & L3 & E3 & D3); [done..|]. rewrite (bind_ret _ _ _ _ _ R3).
  destruct (set_new_run s3 l i (set_is_default d) (fun t => mkSettings (st_name t) (st_addr t) (st_netmask t) (st_nexthop t) d) cfg _ L3 E3)
    as (s4 & R4 & L4 & E4 & D4); [done..|]. rewrite (bind_ret _ _ _ _ _ R4). exists s4. split_and!; [done..|]. unfold devs. congruence.
Qed.

Lemma config_snoc s s' l st name : config_ok s l -> iflist s' (l ++ [length (ifs s)]) ->
  map settings_of (ifs s') = map settings_of (ifs s) ++ [st] -> st_name st = Some name -> own_name name ->
  config_ok s' (l ++ [length (ifs s)]).
Proof.
  intros [_ Hn] Hl E Hna Hown. split; [done|]. rewrite E. apply Forall_app. split.
  - eapply Forall_impl; [|exact Hn]. intros i (st' & n & Hst & HR). exists st', n. split; [by apply lookup_app_l_Some|done].
  - constructor; [|constructor]. exists st, name. split; [|done]. rewrite lookup_app_r by (by rewrite length_map). by rewrite length_map, Nat.sub_diag.
Qed.

Lemma end_if_run e dfl s l : config_ok s l -> entry_ok e ->
  exists s', csp_yaml_end_if (data_of e) dfl s = Ret (entry_dfl e dfl) s' /\
    config_ok s' (l ++ seq (length (ifs s)) (length (entry_if e dfl))) /\
    map settings_of (ifs s') = map settings_of (ifs s) ++ entry_if e dfl /\
    devs_kept (length (ifs s)) s s' /\
    (entry_if e dfl <> [] -> exists dv, entry_dev e = Some dv /\ device_at (length (ifs s)) dv s').
Proof.
  intros Hok He. assert (Hno : devs_kept (length (ifs s)) s s) by (by apply devs_same). unfold csp_yaml_end_if, entry_dfl, entry_if, entry_addr.
  destruct (data_of_fields e) as (-> & -> & _ & -> & -> & _ & -> & _).
  rewrite (bind_ret _ _ _ _ _ (cell_get_of _ _)). destruct (value "name" e) as [name|] eqn:Ename; [|exists s; by rewrite !app_nil_r].
  rewrite (bind_ret _ _ _ _ _ (cell_get_of _ _)). destruct (value "driver" e) as [driver|] eqn:Edr; [|exists s; by rewrite !app_nil_r].
  rewrite (bind_ret _ _ _ _ _ (cell_get_of _ _)). destruct (value "addr" e) as [a|] eqn:Ea; [|exists s; by rewrite !app_nil_r].
  rewrite (bind_ret _ _ _ _ _ (cell_get_of _ _)). destruct (value "netmask" e) as [m|] eqn:Em; [|exists s; by rewrite !app_nil_r].
  destruct (int_at e "addr" a s He ltac:(set_solver) Ea) as (na & Ena & Hra). rewrite (bind_ret _ _ _ _ _ Hra).
  destruct (int_at e "netmask" m s He ltac:(set_solver) Em) as (nm & Enm & _).
  rewrite (bind_ret _ _ _ _ _ (cell_get_of _ _)). simpl. rewrite Ena, Enm. fold (entry_default e).
  destruct (yaml_address_spec dfl (entry_default e) na) as [Ed Eu]. rewrite <- Eu.
  destruct (yaml_address dfl (entry_default e) na) as [addr dfl'] eqn:Ey. simpl in Ed, Eu. simpl.
  replace (match dfl with Some d => _ | None => dfl end) with dfl' by (by destruct dfl).
  pose proof (driver_run e s l driver name m addr Hok He Edr) as Hdrv. destruct (entry_hop e) as [hop|].
  - destruct Hdrv as (s1 & R1 & st & dv & L1 & E1 & <- & Hdv & Hat & Hk). rewrite (bind_ret _ _ _ _ _ R1).
    destruct (finish_run s1 _ (length (ifs s)) (map settings_of (ifs s)) st name m nm addr (if entry_default e then 1 else 0) L1 E1)
      with dfl' as (s2 & R2 & L2 & E2 & D2); [by rewrite length_map|done|].
    exists s2. split; [exact R2|]. split; [|split; [exact E2|split]].
    + eapply config_snoc; [done..|reflexivity|]. destruct He as (_ & _ & Hna). by apply Hna.
    + eapply devs_kept_trans; [exact Hk|by apply (devs_same (length (ifs s)))|done].
    + intros _. exists dv. split; [done|]. injection D2 as Du Dt. by destruct dv; simpl; rewrite ?Du, ?Dt.
  - rewrite (bind_ret _ _ _ _ _ Hdrv). exists s. by rewrite !app_nil_r.
Qed.

(** ** The document *)

(** The devices [ds] of the interfaces from [n] on. *)
Definition devices_from (n : nat) (ds : list (option device)) (s : node) : Prop :=
  forall k o, ds !! k = Some o -> exists d, o = Some d /\ device_at (n + k) d s.

Lemma entry_if_cases e dfl : entry_if e dfl = [] \/ exists st, entry_if e dfl = [st].
Proof. unfold entry_if. destruct (entry_addr e); [|by left]. destruct (value "netmask" e ≫= int_of); [|by left]. destruct (entry_hop e); eauto. Qed.

Lemma keys_run e0 e rest dfl s :
  yaml_loop (flat_map (fun kv => [YAML_SCALAR kv.1; YAML_SCALAR kv.2]) e ++ rest) (data_of e0) dfl s =
  yaml_loop rest (data_of (e0 ++ e)) dfl s.
Proof.
  revert e0. induction e as [|[k v] e IH]; intros e0; [by rewrite app_nil_r|]. simpl.
  rewrite (bind_ret _ _ _ (data_of (e0 ++ [(k, v)])) s).
  - rewrite IH. by rewrite <- app_assoc.
  - unfold data_of. rewrite foldl_app. simpl. unfold csp_yaml_key_value. by destruct (yaml_field k).
Qed.

Lemma doc_run doc : forall data dfl s l, Forall entry_ok doc -> config_ok s l ->
  yaml_cleanup data s = Ret tt s \/ doc <> [] ->
  exists s', yaml_loop (flat_map entry_events doc ++ [YAML_SEQUENCE_END]) data dfl s = Ret (snd (doc_config doc dfl)) s' /\
    config_ok s' (l ++ seq (length (ifs s)) (length (fst (doc_config doc dfl)))) /\
    map settings_of (ifs s') = map settings_of (ifs s) ++ fst (doc_config doc dfl) /\
    devs_kept (length (ifs s)) s s' /\ devices_from (length (ifs s)) (doc_devices doc dfl) s'.
Proof.
  induction doc as [|e doc IH]; intros data dfl s l Hd Hok Hdata.
  - destruct Hdata as [Hc|]; [|done]. exists s. simpl. rewrite (bind_ret _ _ _ _ _ Hc). rewrite !app_nil_r.
    split_and!; [done..|by apply devs_same|]. intros k o Hk. by rewrite lookup_nil in Hk.
  - apply Forall_cons_iff in Hd as [He Hd]. destruct (end_if_run e dfl s l Hok He) as (s1 & R1 & Hok1 & E1 & K1 & N1).
    destruct (IH (data_of e) (entry_dfl e dfl) s1 _ Hd Hok1) as (s2 & R2 & Hok2 & E2 & K2 & N2); [left; apply cleanup_run|].
    assert (Hlen : length (ifs s1) = (length (ifs s) + length (entry_if e dfl))%nat) by (apply (f_equal length) in E1; by rewrite length_app, !length_map in E1).
    exists s2. simpl. destruct (doc_config doc (entry_dfl e dfl)) as [cfg dfl'] eqn:Ec. simpl in *. split_and!.
    + rewrite <- !app_assoc. change csp_yaml_start_if with (data_of []). rewrite keys_run. simpl. by rewrite (bind_ret _ _ _ _ _ R1).
    + rewrite length_app, seq_app, app_assoc. by rewrite <- Hlen.
    + by rewrite E2, E1, app_assoc.
    + eapply devs_kept_trans; [exact K1|exact K2|lia].
    + intros k o Hk. destruct (entry_if_cases e dfl) as [Ee|[st Ee]]; rewrite Ee in Hk, Hlen, N1; simpl in Hk, Hlen.
      * apply N2 in Hk. by rewrite Hlen, Nat.add_0_r in Hk.
      * destruct k as [|k]; [|apply N2 in Hk; rewrite Hlen in Hk; by rewrite <- Nat.add_assoc in Hk].
        injection Hk as <-. destruct N1 as (dv & Hdv & Hat); [done|]. exists dv. split; [done|]. rewrite Nat.add_0_r. apply K2; [lia|done].
Qed.


(** *** The failures *)

Lemma loop_truncated events : forall data dfl s r s', YAML_SEQUENCE_END ∉ events -> yaml_loop events data dfl s <> Ret r s'.
Proof.
  induction events as [events IH] using (well_founded_induction (Wf_nat.well_founded_ltof _ length)). unfold Wf_nat.ltof in IH.
  intros data dfl s r s' Hni Hr. destruct events as [|e events]; [done|]. apply not_elem_of_cons in Hni as [Hne Hni].
  destruct e; simpl in Hr; try done; try (by eapply IH in Hr; [|simpl; lia|]).
  - apply bind_Ret in Hr as (d' & s1 & _ & Hr). by eapply IH in Hr; [|simpl; lia|].
  - destruct events as [|v events]; apply bind_Ret in Hr as (d' & s1 & _ & Hr); [done|].
    apply not_elem_of_cons in Hni as [_ Hni]. by eapply IH in Hr; [|simpl; lia|].
Qed.

(** A code bug: the result of [yaml_parser_parse] is not looked at.  On a file
    that the library stops to parse before the end of the list,
    [csp_yaml_init] never returns. *)
Theorem yaml_truncated_hangs events dfl s r s' : YAML_SEQUENCE_END ∉ events ->
  csp_yaml_init (Some ([YAML_STREAM_START; YAML_DOCUMENT_START; YAML_SEQUENCE_START] ++ events)) dfl s <> Ret r s'.
Proof. apply loop_truncated. Qed.

(** A code bug: on an empty list the strings that are freed were never
    initialised. *)
Theorem yaml_empty_undefined dfl s : csp_yaml_init (Some (doc_events [])) dfl s = Undef.
Proof. reflexivity. Qed.

End Entries.

(** ** A concrete file *)

Definition kv (k v : string) : list Z * list Z := (chars k, chars v).

(** The tunnel names its address twice; the third entry has no netmask. *)
Definition sample : list entry :=
  [[kv "driver" "udp"; kv "name" "ground"; kv "addr" "10"; kv "netmask" "8"; kv "server" "10.0.0.2"; kv "listen_port" "9000"; kv "remote_port" "9001"];
   [kv "name" "secure"; kv "addr" "7"; kv "source" "5"; kv "destination" "6"; kv "netmask" "5"; kv "addr" " 20x"; kv "color" "red"; kv "driver" "tun"; kv "default" "no"];
   [kv "name" "broken"; kv "driver" "udp"; kv "addr" "3"]].

#[local] Instance zero_heap : Heap := {| heap_iface := iface_zero; heap_udp := mkUdp [] 0 0 0 0 |}.
#[local] Instance no_zmq : Zmq := {| zmq_available := false; zmq_connect _ := false; zmq_delivers _ _ := false |}.
#[local] Instance one_host : Inet := {| inet_aton h := if bool_decide (h = chars "10.0.0.2") then Some 0x0a000002 else None |}.
#[local] Existing Instance good_sys.

Lemma sample_ok : Forall entry_ok sample.
Proof.
  repeat apply Forall_cons; [..|constructor]; (split; [|split]).
  all: try (intros v E; vm_compute in E; injection E as <-).
  all: try first [by split|by apply (bool_decide_unpack _)].
  all: repeat (constructor; [first [exact I|by eexists]|]); constructor.
Qed.

Lemma three_config : config_ok three_ifs [0; 1; 2]%nat.
Proof. split; [apply three_ifs_list|]. repeat constructor; by eexists _, _. Qed.


Lemma yaml_truncated_hangs_witness :
  csp_yaml_init (Some [YAML_STREAM_START; YAML_DOCUMENT_START; YAML_SEQUENCE_START; YAML_MAPPING_START]) None boot <> Ret None boot.
Proof. apply (yaml_truncated_hangs [YAML_MAPPING_START]). intros [E|E]%elem_of_cons; [discriminate E|by apply not_elem_of_nil in E]. Defined.
